(* ===== verification/_CoqProject ===== *)
-Q . S2P
Prelude.v
Text.v
Uin.v
Storage.v
Envelope.v
QueueDrain.v
QueueProtocol.v
GroupLogStore.v
FairPage.v
Redis.v
RateLimit.v
GuestPolicy.v
Sessions.v
Devices.v
QueueApi.v
Gates.v
Delivery.v
OfflineSweep.v
Bytes.v
DepositAuth.v
DepositStore.v
KeyStorage.v
Door.v
Prekeys.v
PrekeyProtocol.v
Voucher.v
UinRows.v
Migration.v
UinShop.v
Market.v
Rooms.v
RoomsWf.v
RoomsView.v
RoomRaces.v
KeyProof.v
Accounts.v
AccountsAuth.v
AccountsDoor.v
Vault.v
Json.v
Profiles.v
Federation.v
FederationFacts.v
Users.v
UsersFacts.v
Contacts.v
ContactsFacts.v
Sockets.v
Presence.v
Calls.v
CallsFacts.v
AudioRooms.v
AudioRoomsFacts.v
Gate.v
GateFacts.v
Invites.v
InvitesFacts.v
Sweeps.v
SweepsFacts.v
RandomChat.v
RandomChatFacts.v
Link.v
Reports.v
ReportsFacts.v
Broker.v
BrokerFacts.v
