(* ===== verification/Prelude.v ===== *)
(** * RCQ reference server: a verification library

    RCQ is a messenger whose server (an "island") stores and forwards sealed
    envelopes it cannot read.  This library models the core of the server,
    [src/app], and proves that it does what it is for: an envelope that was
    accepted reaches every device it is meant for, or a documented rule says
    why not; a number is one person's; a session opens only the account it was
    minted for; keys are handed out once and only to whom the door admits;
    limits and gates hold; a token or a voucher is worth what it claims.

    ** The program and its model

    A client deposits an envelope for an account ([POST /messages/sealed]) or
    for a room ([/messages/group-sealed], [/messages/group-broadcast]).  A
    deposit is a row of a table; live sockets and push services are told about
    it.  Every device of an account drains the rows through its own cursor: the
    1:1 queue and the old per-member group queue through [GET /messages/queue]
    and [POST /messages/queue/ack], the room logs through
    [/messages/group-log/fetch] and [/ack].  A sweep enforces retention.  On the
    way in stand a rate limiter, the posting gates of a room, the guest policy
    and anonymous deposit tokens.

    An account is a number (a UIN) and two keys; it is made by registering or
    as a guest copy, recovered by its signing key, and can change its keys.
    Numbers are allocated, priced, sold by the
    island through a till that signs vouchers, resold between people, held,
    granted, moved to and burned; a session is a signed token bound to the
    number's epoch, and linked devices can be disconnected.  Before the first
    message a sender fetches the recipient's key bundle, with a one-time prekey
    claimed from a pool, through the door of the island (residents and guest
    cards).  Devices hold sockets on workers that reach each other through a
    Redis channel; who is online, calls and voice rooms are kept in Redis.  An
    island may hide behind a gate that asks for a token on every request, and a
    resident brings people in with invites that accrue over time.

    State is explicit.  The tables of delivery are one record, [Storage.db];
    those of the key server [KeyStorage.kdb]; those of the market
    [Migration.mdb], whose per-number tables are generic rows ([UinRows]),
    because the code that moves a number is written against the schema.  A
    handler is a function from its request, the instant and the tables to an
    [outcome] (a value or the exception it raises), the new tables and the
    events it sends.  Redis is a service: [Redis.Redis] is its interface with
    one law per command ([RedisLaws]), and every theorem about code that talks
    to it is proved against the laws and evaluated on the instance
    [Redis.map_redis].  Where a Redis call may fail the model takes a flag
    saying whether this one did.

    ** Files

    - [Prelude]: exceptions, outcomes, time (microseconds), tactics, and the
      lemmas on lists, sorting and sums the components share.
    - [Text]: the string functions of Python the sources use on header values.
    - [Uin]: [services/uin.py].  Reserved numbers (with the regular expressions,
      run by a backtracking matcher), price tiers, who holds a number, the
      random allocator.
    - [Storage]: the tables of [models/]: the columns the modelled code reads.
    - [Envelope]: the classes of envelopes ([_cls_for] and its sets).
    - [QueueDrain]: [services/queue_drain.py] and, of [routers/messages.py],
      [_acked_prefix], [_advance_cursor], [_reap_below_min], [fetch_queue],
      [ack_queue] as functions on the tables.
    - [QueueProtocol]: the same handlers cut into their statements, as a step
      relation in which requests of all devices interleave and die anywhere.
    - [GroupLogStore]: [services/group_log.py] and the sequence allocators.
    - [FairPage]: [_fair_log_page], the scheduler that shares a page of room-log
      rows between rooms.
    - [Redis]: the interface, its laws, an implementation.
    - [RateLimit]: [core/rate_limit.py]: the two Lua scripts, the in-process
      fallback, the enforcers built on them.
    - [GuestPolicy]: [core/guest_policy.py] with the mirror of
      [core/single_flight.py]: who is a guest, the route gate, the poll stamp,
      and marks, commits and rebuilds as a step relation.
    - [Sessions]: [core/security.py]: session, device and challenge tokens, the
      epoch and suspension mirrors, the dependencies of the routes.
    - [Devices]: [routers/devices.py]: linked devices and the denylist.
    - [QueueApi]: the drain handlers in full (with [mark_device_seen] and
      [touch_poll]), [fetch_group_log], [ack_group_log].
    - [Gates]: slowmode and the account-age floor of a room.
    - [Delivery]: [send_sealed], [send_group_sealed], [send_group_broadcast],
      and [group_push_targets] of [services/apns.py].
    - [OfflineSweep]: [services/offline_queue_sweep.py].
    - [Bytes], [DepositAuth], [DepositStore]: byte strings and base64,
      [core/deposit_auth.py] (blind RSA signatures, proof of work),
      [core/deposit_auth_store.py] with [routers/deposit_auth.py].
    - [KeyStorage], [Door], [Prekeys], [PrekeyProtocol]: the key tables;
      [services/door.py] and [routers/guest_cards.py]; [routers/keys.py] with
      [services/prekey_sweep.py] and [services/device_sweep.py]; concurrent
      claims as a step relation over an abstract pool.
    - [Voucher]: [services/uin_voucher.py], the till's signed documents.
    - [UinRows], [Migration], [UinShop], [Market]: [services/uin_rows.py];
      [routers/migrate.py] and [services/account_delete.py];
      [routers/uin_shop.py] and the operator's doors of [routers/admin.py];
      what holds of them together over any sequence of requests.
    - [Rooms], [RoomsWf], [RoomsView], [RoomRaces]: [routers/groups.py]: the
      handlers (membership, ownership, rights, links, the directory, sealed
      state); the invariant of the tables and who may do what; what the
      directory and the previews show; the checks and writes of removals,
      hand-overs and state updates as a step relation.
    - [KeyProof]: [services/reissue_proof.py], [services/guest_proof.py] and
      [services/island_hosts.py]: spellings of keys, nonces and hosts, and the
      bytes that are signed.
    - [Accounts], [AccountsAuth], [AccountsDoor]: [routers/auth.py],
      [services/guest_accounts.py], [services/key_owner.py] and [add_guest] of
      [routers/groups.py]: registration, recovery, refresh, change of keys,
      guest copies; whose rows a request may change and whom a key recovers;
      who gets in, with which number, and what a change of keys takes.
    - [Vault]: [routers/vault.py], the sealed slots a person's devices share,
      with the statements of concurrent writers as a step relation.
    - [Json]: the values [json.loads] returns and the texts [json.dumps] writes.
    - [Profiles]: who is shown which column of a profile ([models/user.py]) and
      the payloads built from it; the tables [sdb] of the files below.
    - [Federation], [FederationFacts]: [routers/federation.py],
      [services/gossip_sweep.py], [services/backup_copy.py] and
      [services/reserved_tenure.py]: signed home records and their open mirror,
      backup copies, numbers held on another island.
    - [Users], [UsersFacts]: [routers/users.py] and [should_push_for] of
      [services/apns.py]: search, lookup, card, own profile, push endpoints,
      capabilities, preferences, TURN.
    - [Contacts], [ContactsFacts]: [routers/contacts.py] and
      [services/contact_request_sweep.py].
    - [Sockets]: [services/connection_manager.py]: a worker's sockets, the
      fan-out channel, the online set and its fallbacks.
    - [Presence]: [routers/presence.py], [services/presence_sweep.py] and, of
      [routers/ws.py], the handshake and the hooks of a socket's arrival and
      departure; the Redis commands of all workers as a sequence of steps.
    - [Calls], [CallsFacts]: the calls of [routers/ws.py]: registry, policy,
      relay of frames, what is pushed when nobody hears.
    - [AudioRooms], [AudioRoomsFacts]: [routers/audio_rooms.py], the room frames
      of [routers/ws.py], and the dispatch of a client's frame.
    - [Gate], [GateFacts]: [routers/gate.py] and the tokens of
      [services/credential_sweep.py]; the statements of checks, redemptions and
      revocations, the operator and the sweep as a step relation.
    - [Invites], [InvitesFacts]: [routers/invites.py], [routers/residency.py],
      [routers/entry.py], the invites of [routers/admin.py] and of
      [services/credential_sweep.py], [services/account_signal.py] and the
      choice of [services/dead_account_sweep.py].
    - [Sweeps], [SweepsFacts]: [services/periodic_leader.py],
      [services/retired_key_sweep.py], [services/guest_sweep.py] and
      [services/stale_reader_sweep.py].
    - [RandomChat], [RandomChatFacts]: [routers/random.py] and the leader lock of
      [core/redis.py], each request a program of atomic Redis commands.
    - [Link]: [routers/link.py].
    - [Reports], [ReportsFacts]: [routers/reports.py], the operator's routes on
      reports in [routers/admin.py], [services/report_sweep.py],
      [services/evidence_sweep.py] and [services/hof_stats.py].
    - [Broker], [BrokerFacts]: [routers/broker.py], and the enquiries of
      [routers/public.py], [routers/admin.py] and [services/inquiry_sweep.py].

    ** What is proved

    - Queues: no envelope is lost to a device that has a cursor and no cursor
      buries an unacknowledged one, in every interleaving ([QueueProtocol]); the
      exact effect of an ack on both marks and both tables, for a known and for a
      new device, of a first fetch, a reap, overlapping upserts ([QueueDrain]).
    - Room log: a page is an unbroken run per room, within its budget, fair;
      fetching never moves a position, acking moves it forward only, and
      alternating the two ends ([FairPage], [QueueApi]); joining a room
      ([GroupLogStore]).
    - Delivery: what each deposit stores, for whom, whom it wakes, and that a
      refused one leaves no trace ([Delivery]); what the sweep keeps
      ([OfflineSweep]).
    - Limits: the sliding window, its announced wait, the fan-out budget
      ([RateLimit]); one slot per post, the age floor's wait ([Gates]).
    - Guests: a guest is never taken for a native account, and the gate refuses
      one on every unmarked route ([GuestPolicy]).
    - Sessions: a released number's old tokens are refused whatever happens to
      the mirror, provided no release commits inside a rebuild, the write-throughs
      of one number keep their order, and Redis or the database answers; each of
      the three is needed ([Sessions]); a disconnected device stays
      out for ninety days, and a fresh link cannot evict older ones
      ([Devices]).
    - Tokens: the issuer's CRT signature is the plain one, unblinding returns
      the message's signature whatever the factor, requests are unlinkable,
      blinding always returns; issuance, single use, and the refusal of a
      replayed deposit whatever came between ([DepositAuth], [DepositStore]).
    - Keys: the rule of the door as an equivalence, cards that stay revoked
      ([Door]); slots and pools well-formed over any run, a prekey id not served
      twice, closed islands that answer as if the number did not exist
      ([Prekeys]); concurrent claims refine a pool in which a key is taken once
      ([PrekeyProtocol]).
    - Numbers: the reserved rule without regular expressions, the allocator's
      soundness and completeness ([Uin]); no UPDATE of a move ends in an
      IntegrityError, no row is stranded, counters do not go back ([UinRows]); what follows a person
      to a new number ([Migration]).
    - The market: the signed bytes of the till are unambiguous ([Voucher]);
      ownership is well-formed over any run, a voucher is redeemed once and
      delivers what was signed for, a paid resale completes, quotes and
      suggestions tell the truth ([Market]).
    - Rooms: one owner who lives on the island, through any run of requests
      (on Postgres, whose foreign keys cascade), and never two in any
      interleaving; who may remove whom and who inherits a
      room; a patch stays within the caller's rights; a reset link is dead for
      good; closed rooms answer as if they did not exist ([RoomsWf],
      [RoomsView], [RoomRaces]).
    - Accounts: a row changes only for its own session or a proof of its key,
      and the account a key recovers stays the one it recovers over any run of
      the nine account requests, for a key in a spelling that is looked up and
      short of retired keys that point at its carriers ([AccountsAuth]); nobody
      enters a closed island unpaid, a scarce number goes to whom it was promised,
      a stolen token does not change keys once proofs are required and the old key
      hears that it was rotated, a guest copy is made for the
      holder of its key alone ([AccountsDoor]); a signature is good for one
      statement ([KeyProof]).
    - The vault is a register nobody overwrites blindly, and a version names one
      content, in every interleaving ([Vault]).
    - Federation: the mirror holds nothing but what its keys signed and does not
      roll back; a scarce number is granted on the word of a trusted island
      about the applicant's key; a backup copy is named by its owner
      ([FederationFacts]).
    - The directory: a batch lookup is the cards one by one, a hidden profile is
      silent in every answer, a search lists residents and puts the exact number
      first; a profile is written by its owner within what they hold; a push
      registration removes what it is meant to ([UsersFacts]).
    - Contacts: the tables stand for a set of wishes, so that two people are
      contacts exactly while both want it, and only by their own acts; what the
      sweep keeps ([ContactsFacts]).
    - Sockets: a worker's maps stay consistent through any run, one device has
      one socket, and a socket that was kicked is never written to again; one
      fan-out is as many sends ([Sockets]).
    - Presence: a device heard from keeps its account online through any
      interleaving, the sweep removes exactly the ghosts, a broadcast says what
      the directory says and goes to whom it should ([Presence]).
    - Calls: no call frame reaches anybody without an offer their policy let
      through, a call is registered exactly for two free people, a device that
      still rings cannot end what another answered unless another account answers
      under the same call id ([CallsFacts]).
    - Voice rooms: never over their bound, nobody in two, everybody subscribed
      ([AudioRoomsFacts]).
    - The gate: an invite admits one device, which revoking the invite cuts off;
      a dead token is refused within 45 seconds of the last cache entry that was
      on its way when it died, and a live one let through ([GateFacts]).
    - Invites: the drips are a calendar, nobody brings in more people than the
      totals allow, a purchase of residency is all or nothing, and who counts as
      a person is not swept ([InvitesFacts]).
    - Sweeps: one worker leads a cycle; the guest sweep takes the guests whose
      time is up and nobody else; a reader that stopped loses its mark within
      the valve, and its account is queued for again ([SweepsFacts]).
    - Random chat: the index of pairs points at pairs that were not ended in
      every interleaving; the search of the queue takes the first stranger; one
      request after the other leaves everybody in one pair at most, and a sweep
      in time frees both sides ([RandomChatFacts]).  A relayed blob is the one
      deposited and is gone once collected ([Link]).
    - Reports: the tables stay in order, what was filed counts for good where the
      database finds the crash marker as Python does (on Postgres always), the
      sweeps take exactly what is over and drain any backlog, and other people's
      reports answer as if there were none ([ReportsFacts]).
    - The broker: a private relay is told to its owner's key alone and a public
      one only when it is live; a network learns a fixed few a day, the trusted
      ones first; the table holds signed, valid, capped rows over any run
      ([BrokerFacts]).

    Theorems that state where the code falls short of its own comments or aims:
    [group_row_buried_by_commit_order], [woken_copy_reaped],
    [local_retry_too_soon], [token_respent], [stale_token_accepted],
    [late_write_through_accepted], [stale_token_accepted_in_outage],
    [late_entry_readmits], [small_letters_counted_later],
    [revoked_install_returns], [duplicate_in_batch_served_twice],
    [sqlite_serves_prekey_twice], [infinite_voucher_crashes],
    [unkeyed_rows_are_inherited], [lapsed_hold_blocks_till],
    [grant_ignores_hold], [reused_id_inherits_members], [owner_without_seat],
    [state_write_lost], [unlisted_spelling], [key_taken_without_proof],
    [recovery_lost_to_spelling], [slot_cap_outgrown],
    [concurrent_delete_refused], [closed_card_searchable],
    [search_row_tells_more], [superscript_fails], [blocked_lifts_block],
    [silent_device_stays_listed], [invisible_arrival_is_announced],
    [late_removal_makes_a_ghost], [cancelled_task_orphans_the_next],
    [end_without_id_leaves_busy], [bar_forges_a_call],
    [blocked_contact_may_ring], [kick_unpins_elsewhere], [overtaking_entries],
    [revoked_device_cannot_return], [spent_invite_takes_over],
    [retry_meets_decoy], [move_loses_paid_base], [move_stops_free_drip],
    [late_sweep_strands], [end_forgets_new_pair], [queued_twice_paired_twice],
    [lock_lapses], [collected_twice], [filing_costs_rank],
    [open_report_deleted], [redacted_reopened_stays], [marker_never_swept],
    [edge_survives], [stuck_evidence_stays], [kill_switch_undone],
    [handed_out_never_resets], [forged_inquiry_hides_team] and
    [dismissed_inquiry_stays].

    ** Bounds, fuel and assumptions

    Loops of the source are [Fixpoint]s on fuel, with a proof that the fuel is
    enough: a page takes at most [limit + rooms] turns ([page_fuel]); the
    dormant sweep at most 20 batches, its own ceiling ([sweep_fuel]); the
    allocator makes its hundred draws; the mask generator one turn per octet at
    most; the search for a blinding factor is as long as the stream of draws.
    Integers are unbounded as in Python; what the database would refuse as out
    of range or too long is modelled in [Users] alone.  One clock is used within a request.  Database
    transactions of one handler are atomic, except in [QueueProtocol],
    [PrekeyProtocol] and [Vault], where each statement is a step of its own, in
    [RoomRaces], where each transaction and the reads before it are, in
    [GateFacts], where the reads, the transaction and each use of the cache are,
    in [InvitesFacts], where the reads before a transaction are, and in the
    mirrors of [GuestPolicy] and [Sessions], where a
    rebuild's read and write are; in [Presence] and [RandomChat] each Redis
    command is a step.  The matching loop of a random chat has a turn for everyone
    who waits and one more ([serve]), which [match_reference] shows to be enough.
    Redis answers for the duration of a call frame or a room frame, a room is
    entered in one step, except in [overtaking_entries], and the pipeline that
    marks a device as heard from is one step.  In [QueueProtocol] an install keeps
    one device number; in [InvitesFacts] nobody moves to another number or is
    burned; in [Market] a registration never spends an invite that carries a
    number (that is [AccountsDoor]).  That the 1:1 queue's ids become visible in
    order rests on the row lock [_next_mailbox_seq] takes.

    Parameters: the HMAC of the limiter's bucket names and the text of its
    timestamps (injective), the JWT library (what was encoded decodes until it
    expires), JSON and ISO dates of a device record, SHA-256 and SHA-384 (the
    length of a digest), RSA-PSS verification, PEM and DER of keys, base64 and
    [json.loads] and Ed25519 of the vouchers, the till's public key, random
    draws, who holds a live socket, the database's [ILIKE], the order in which
    Python walks a set, the collation of names, what other islands answer, the
    JSON of a contact list, the JSON and dates of a gate entry (what was written
    reads back), [ipaddress] and the country of an address, whether a commit or a
    Redis command fails.  Drawn tokens and
    codes never repeat in [GateFacts], [InvitesFacts] and [RandomChatFacts].

    ** Not modelled

    Transport (HTTP, the websocket protocol, APNs and UnifiedPush clients), the
    background tasks that read the fan-out channel, the per-route limits declared
    on the endpoints, the in-process bookkeeping of single-flight rebuilds.
    Media, news and sites are features beside the messenger's core, mostly
    storage; the operator's pages, settings and statistics render
    and record; migrations, start-up and command-line tools act on
    the schema and the process, not on the state modelled here. *)

From stdpp Require Import base list sorting strings gmap pretty.
From Stdlib Require Import ZArith Lia Ascii.
#[global] Open Scope Z_scope.
#[global] Set Default Proof Using "Type".

(** ** Errors

    A Python call either returns or raises.  [exn] lists the exceptions the
    modelled code raises or lets through; an HTTP error carries the status code
    and the machine-readable part of its detail ([HTTPExceptionN] when the
    detail is a code with a number: a [retry_after], a number of hours). *)

Inductive exn :=
  | HTTPException (status : Z) (detail : string)
  | HTTPExceptionN (status : Z) (code : string) (n : Z)
  | IndexError (msg : string)
  | RuntimeError (msg : string)
  | ValueError (msg : string)
  | OverflowError (msg : string)
  | AttributeError (msg : string)
  | TypeError (msg : string)
  | IntegrityError (table : string).

Inductive outcome (A : Type) :=
  | Ok (a : A)
  | Raise (e : exn).
Arguments Ok {_} _.
Arguments Raise {_} _.

Declare Scope rcq_scope.
Delimit Scope rcq_scope with rcq.

Definition obind {A B} (x : outcome A) (k : A -> outcome B) : outcome B :=
  match x with Ok a => k a | Raise e => Raise e end.

Notation "'let!' x ':=' e 'in' k" := (obind e (fun x => k))
  (at level 10, x pattern, e at level 100, k at level 200) : rcq_scope.
#[global] Open Scope rcq_scope.

Lemma Ok_inj {A} (a b : A) : Ok a = Ok b -> a = b.
Proof. congruence. Qed.

Lemma obind_Ok {A B} (x : outcome A) (k : A -> outcome B) b :
  obind x k = Ok b -> exists a, x = Ok a /\ k a = Ok b.
Proof. destruct x; [eauto|done]. Qed.

#[export] Instance exn_eq_dec : EqDecision exn.
Proof. solve_decision. Defined.

(** ** Time

    Instants are microseconds since the epoch, the resolution of Python's
    [datetime]; a [timedelta] is a number of microseconds. *)

Definition usec_per_sec : Z := 1000000.
Definition seconds (n : Z) : Z := n * usec_per_sec.
Definition hours (n : Z) : Z := seconds (n * 3600).
Definition days (n : Z) : Z := seconds (n * 86400).

(** ** Automation *)

(** [bdestruct_all] turns every boolean integer comparison in sight into its
    proposition, and splits the remaining [if]s of the goal. *)
Ltac breflect :=
  repeat match goal with
  | H : (_ && _) = true |- _ => apply andb_prop in H; destruct H
  | H : (_ || _) = false |- _ => apply orb_false_iff in H; destruct H
  | H : negb _ = true |- _ => apply negb_true_iff in H
  | H : negb _ = false |- _ => apply negb_false_iff in H
  | H : (_ <=? _)%Z = true |- _ => apply Z.leb_le in H
  | H : (_ <=? _)%Z = false |- _ => apply Z.leb_gt in H
  | H : (_ <? _)%Z = true |- _ => apply Z.ltb_lt in H
  | H : (_ <? _)%Z = false |- _ => apply Z.ltb_ge in H
  | H : (_ =? _)%Z = true |- _ => apply Z.eqb_eq in H
  | H : (_ =? _)%Z = false |- _ => apply Z.eqb_neq in H
  | H : (_ <=? _)%nat = true |- _ => apply Nat.leb_le in H
  | H : (_ <=? _)%nat = false |- _ => apply Nat.leb_gt in H
  | H : (_ <? _)%nat = true |- _ => apply Nat.ltb_lt in H
  | H : (_ <? _)%nat = false |- _ => apply Nat.ltb_ge in H
  | H : (_ =? _)%nat = true |- _ => apply Nat.eqb_eq in H
  | H : (_ =? _)%nat = false |- _ => apply Nat.eqb_neq in H
  | H : bool_decide _ = true |- _ => apply bool_decide_eq_true_1 in H
  | H : bool_decide _ = false |- _ => apply bool_decide_eq_false_1 in H
  end.

(** Split on the condition of an [if] of the goal or of a hypothesis. *)
Ltac case_cond :=
  match goal with
  | |- context [if ?b then _ else _] => destruct b eqn:?
  | H : context [if ?b then _ else _] |- _ => destruct b eqn:?
  end.

Ltac crush := repeat (case_cond; breflect; simplify_eq/=); try lia; try done.

Create HintDb rcq.

(** ** Decimal text

    [str] of an integer is [pretty]; [int] reads it back.  [int] of a text that
    is not a plain decimal number (Python also takes spaces and underscores) is
    a [ValueError], the [None] here. *)

Definition digit_value (c : Ascii.ascii) : option N :=
  let n := Ascii.N_of_ascii c in
  if (48 <=? n)%N && (n <=? 57)%N then Some (n - 48)%N else None.

Fixpoint read_digits (acc : N) (s : string) : option N :=
  match s with
  | EmptyString => Some acc
  | String c s => match digit_value c with Some d => read_digits (10 * acc + d) s | None => None end
  end.

Definition int_of_string (s : string) : option Z :=
  match s with
  | EmptyString => None
  | String c s' =>
      if bool_decide (c = "-"%char) then
        (if bool_decide (s' = ""%string) then None
         else option_map (fun n => - Z.of_N n) (read_digits 0 s'))
      else option_map Z.of_N (read_digits 0 s)
  end.

Lemma digit_value_char x : (x < 10)%N -> digit_value (pretty_N_char x) = Some x.
Proof.
  intros Hx. assert (Hx' : (x = 0 \/ x = 1 \/ x = 2 \/ x = 3 \/ x = 4 \/
    x = 5 \/ x = 6 \/ x = 7 \/ x = 8 \/ x = 9)%N) by lia.
  by repeat destruct Hx' as [->|Hx']; [..|subst].
Qed.

Lemma read_digits_pretty x s : read_digits 0 (pretty_N_go x s) = read_digits x s.
Proof.
  revert s. induction (N.lt_wf_0 x) as [x _ IH]; intros s.
  destruct (decide (x = 0%N)) as [->|Hx]; [by rewrite pretty_N_go_0|].
  rewrite pretty_N_go_step by lia. rewrite IH by (apply N.div_lt; lia). simpl.
  rewrite digit_value_char by (apply N.mod_lt; lia). f_equal.
  pose proof (N.div_mod x 10 ltac:(lia)). lia.
Qed.

Lemma read_pretty_N (x : N) : read_digits 0 (pretty x) = Some x.
Proof.
  unfold pretty, pretty_N. destruct (decide (x = 0%N)) as [->|Hx]; [done|].
  by rewrite read_digits_pretty.
Qed.

(** The first digit of a number is no sign, and there is one. *)
Lemma pretty_N_head (x : N) : exists c s, pretty x = String c s /\ c <> "-"%char.
Proof.
  pose proof (read_pretty_N x) as Hr. destruct (pretty x) as [|c s] eqn:E.
  - simpl in Hr. by simplify_eq.
  - exists c, s. split; [done|]. intros ->. done.
Qed.

Lemma int_of_pretty (z : Z) : int_of_string (pretty z) = Some z.
Proof.
  assert (Hp : forall p, exists c s, (pretty p : string) = String c s /\ c <> "-"%char /\
                           read_digits 0 (String c s) = Some (N.pos p)).
  { intros p. destruct (pretty_N_head (N.pos p)) as (c & s & E & Hc). exists c, s.
    split; [exact E|]. split; [done|]. rewrite <-E. apply read_pretty_N. }
  destruct z as [|p|p]; [done|..]; destruct (Hp p) as (c & s & E & Hc & Hr).
  - change (pretty (Z.pos p)) with (pretty p). rewrite E. unfold int_of_string.
    rewrite bool_decide_eq_false_2 by done. by rewrite Hr.
  - change (pretty (Z.neg p)) with (String "-" (pretty p)). rewrite E. unfold int_of_string.
    rewrite bool_decide_eq_true_2 by done. rewrite bool_decide_eq_false_2 by done. by rewrite Hr.
Qed.

(** ** Python's [max]/[min] over a list of integers *)

Definition max_default (d : Z) (l : list Z) : Z :=
  match l with [] => d | x :: l => foldl Z.max x l end.

Definition min_list (x : Z) (l : list Z) : Z := foldl Z.min x l.

Lemma foldl_max_ge l x : x <= foldl Z.max x l.
Proof.
  revert x; induction l as [|y l IH]; intros x; simpl; [lia|].
  etrans; [|apply IH]. lia.
Qed.

Lemma foldl_max_ub l x y : y ∈ x :: l -> y <= foldl Z.max x l.
Proof.
  revert x; induction l as [|z l IH]; intros x Hin; simpl.
  - apply list_elem_of_singleton in Hin. lia.
  - apply elem_of_cons in Hin as [->|[->|Hin]%elem_of_cons].
    + etrans; [|apply foldl_max_ge]. lia.
    + etrans; [|apply foldl_max_ge]. lia.
    + apply IH. set_solver.
Qed.

Lemma foldl_max_in l x : foldl Z.max x l ∈ x :: l.
Proof.
  revert x; induction l as [|z l IH]; intros x; simpl; [set_solver|].
  specialize (IH (Z.max x z)). apply elem_of_cons in IH as [Heq|Hin]; [|set_solver].
  rewrite Heq. destruct (Z.max_spec x z) as [[_ ->]|[_ ->]]; set_solver.
Qed.

Lemma max_default_ub d l y : y ∈ l -> y <= max_default d l.
Proof. destruct l; [set_solver|]. apply foldl_max_ub. Qed.

Lemma max_default_in d l : l <> [] -> max_default d l ∈ l.
Proof. destruct l; [done|]. intros _. apply foldl_max_in. Qed.

Lemma min_list_le_head x l : min_list x l <= x.
Proof.
  unfold min_list. revert x; induction l as [|y l IH]; intros x; simpl; [lia|].
  etrans; [apply IH|]. lia.
Qed.

Lemma min_list_lb x l y : y ∈ x :: l -> min_list x l <= y.
Proof.
  revert x; induction l as [|z l IH]; intros x Hin.
  - apply list_elem_of_singleton in Hin as ->. unfold min_list; simpl; lia.
  - change (min_list (Z.min x z) l <= y).
    apply elem_of_cons in Hin as [->|[->|Hin]%elem_of_cons].
    + etrans; [apply min_list_le_head|]. lia.
    + etrans; [apply min_list_le_head|]. lia.
    + apply IH. set_solver.
Qed.

Lemma min_list_in x l : min_list x l ∈ x :: l.
Proof.
  revert x; induction l as [|z l IH]; intros x; [set_solver|].
  change (min_list (Z.min x z) l ∈ x :: z :: l).
  specialize (IH (Z.min x z)). apply elem_of_cons in IH as [Heq|Hin]; [|set_solver].
  rewrite Heq. destruct (Z.min_spec x z) as [[_ ->]|[_ ->]]; set_solver.
Qed.

(** ** Stable sorting by an integer key

    Python's [sorted]/[list.sort] and the [ORDER BY] of the queries.  Insertion
    sort is stable, as Python's sort is. *)

Section sort_by.
Context {A : Type} (key : A -> Z).

Fixpoint insert_by (x : A) (l : list A) : list A :=
  match l with
  | [] => [x]
  | y :: l' => if key x <=? key y then x :: l else y :: insert_by x l'
  end.

Definition sort_by (l : list A) : list A := foldr insert_by [] l.

Lemma insert_by_perm x l : insert_by x l ≡ₚ x :: l.
Proof.
  induction l as [|y l IH]; simpl; [done|]. case_cond; [done|].
  rewrite IH. by rewrite Permutation_swap.
Qed.

Lemma sort_by_perm l : sort_by l ≡ₚ l.
Proof. induction l as [|x l IH]; simpl; [done|]. rewrite insert_by_perm. by rewrite IH. Qed.

Lemma elem_of_sort_by x l : x ∈ sort_by l <-> x ∈ l.
Proof. by rewrite sort_by_perm. Qed.

Lemma length_sort_by l : length (sort_by l) = length l.
Proof. by rewrite sort_by_perm. Qed.

Definition key_le (x y : A) : Prop := key x <= key y.

Lemma insert_by_sorted x l :
  StronglySorted key_le l -> StronglySorted key_le (insert_by x l).
Proof.
  induction l as [|y l IH]; intros Hs; simpl; [repeat constructor|].
  apply StronglySorted_inv in Hs as [Hs Hy].
  case_cond; breflect.
  - constructor; [by constructor|]. constructor; [done|].
    eapply Forall_impl; [exact Hy|]. unfold key_le in *; simpl; lia.
  - constructor; [by apply IH|]. rewrite insert_by_perm.
    constructor; [unfold key_le; lia|done].
Qed.

Lemma sort_by_sorted l : StronglySorted key_le (sort_by l).
Proof. induction l; simpl; [constructor|]. by apply insert_by_sorted. Qed.

(** A list that is already sorted is left as it is. *)
Lemma sort_by_id l : StronglySorted key_le l -> sort_by l = l.
Proof.
  induction l as [|x l IH]; intros Hs; simpl; [done|].
  apply StronglySorted_inv in Hs as [Hs Hx]. rewrite IH by done.
  destruct l as [|y l]; simpl; [done|].
  inversion Hx as [|? ? Hxy]; subst. unfold key_le in Hxy.
  destruct (Z.leb_spec (key x) (key y)); [done|lia].
Qed.

(** A selection of the rows keeps their order. *)
Lemma filter_insert_by (P : A -> Prop) `{!forall x, Decision (P x)} x l :
  StronglySorted key_le l ->
  filter P (insert_by x l) = if decide (P x) then insert_by x (filter P l) else filter P l.
Proof.
  induction l as [|y l IH]; intros Hs; simpl.
  { rewrite filter_cons, filter_nil. by destruct (decide (P x)). }
  apply StronglySorted_inv in Hs as [Hs Hy]. destruct (key x <=? key y) eqn:E.
  - rewrite (filter_cons _ x). destruct (decide (P x)); [|done].
    assert (Hall : Forall (fun z => key x <= key z) (filter P (y :: l))).
    { apply list.Forall_forall. intros z [_ Hz]%list_elem_of_filter.
      apply elem_of_cons in Hz as [->|Hz]; breflect; [done|].
      rewrite list.Forall_forall in Hy. specialize (Hy z Hz). unfold key_le in Hy. lia. }
    destruct (filter P (y :: l)) as [|z l']; [done|]. simpl.
    inversion Hall; subst. destruct (Z.leb_spec (key x) (key z)); [done|lia].
  - rewrite !filter_cons, (IH Hs). destruct (decide (P y)), (decide (P x)); simpl; rewrite ?E; done.
Qed.

Lemma filter_sort_by (P : A -> Prop) `{!forall x, Decision (P x)} l :
  filter P (sort_by l) = sort_by (filter P l).
Proof.
  induction l as [|x l IH]; [done|]. simpl. rewrite filter_insert_by by apply sort_by_sorted.
  rewrite filter_cons, IH. by destruct (decide (P x)).
Qed.

(** Sorted rows with distinct keys are strictly sorted. *)
Lemma sorted_strict l :
  StronglySorted key_le l -> NoDup (map key l) ->
  StronglySorted (fun x y => key x < key y) l.
Proof.
  induction l as [|x l IH]; intros Hs Hn; [constructor|].
  apply StronglySorted_inv in Hs as [Hs Hx]. apply NoDup_cons in Hn as [Hnx Hn].
  constructor; [auto|]. apply list.Forall_forall. intros y Hy.
  rewrite list.Forall_forall in Hx. specialize (Hx y Hy). unfold key_le in Hx.
  assert (key x <> key y); [|lia]. intros E. apply Hnx. rewrite E. apply list_elem_of_In.
  apply in_map. by apply list_elem_of_In.
Qed.
End sort_by.

#[export] Hint Resolve sort_by_sorted : rcq.

(** ** Lists *)

(** The longest prefix whose elements satisfy a test: Python's
    "[for i in l: if not p(i): break]" loop. *)
Fixpoint take_while {A} (p : A -> bool) (l : list A) : list A :=
  match l with
  | [] => []
  | x :: l' => if p x then x :: take_while p l' else []
  end.

Fixpoint drop_while {A} (p : A -> bool) (l : list A) : list A :=
  match l with
  | [] => []
  | x :: l' => if p x then drop_while p l' else l
  end.

Lemma take_drop_while {A} (p : A -> bool) l : take_while p l ++ drop_while p l = l.
Proof. induction l as [|x l IH]; simpl; [done|]. destruct (p x); simpl; by rewrite ?IH. Qed.

Lemma take_while_Forall {A} (p : A -> bool) l : Forall (fun x => p x = true) (take_while p l).
Proof. induction l as [|x l IH]; simpl; [constructor|]. destruct (p x) eqn:E; by constructor. Qed.

Lemma take_while_prefix {A} (p : A -> bool) l : take_while p l `prefix_of` l.
Proof. exists (drop_while p l). symmetry. apply take_drop_while. Qed.

(** [find_first]: the first element that satisfies a test. *)
Fixpoint find_first {A} (p : A -> bool) (l : list A) : option A :=
  match l with
  | [] => None
  | x :: l' => if p x then Some x else find_first p l'
  end.

Lemma find_first_Some {A} (p : A -> bool) l x :
  find_first p l = Some x -> x ∈ l /\ p x = true.
Proof.
  induction l as [|y l IH]; simpl; [done|]. destruct (p y) eqn:E.
  - intros [= ->]. set_solver.
  - intros H. apply IH in H. set_solver.
Qed.

Lemma find_first_None {A} (p : A -> bool) l :
  find_first p l = None <-> Forall (fun x => p x = false) l.
Proof.
  induction l as [|y l IH]; simpl; [by split; [constructor|]|].
  rewrite Forall_cons. destruct (p y); [naive_solver|]. naive_solver.
Qed.

Lemma find_first_absent {A} (p : A -> bool) l x :
  find_first p l = None -> x ∈ l -> p x = false.
Proof. rewrite find_first_None, Forall_forall. auto. Qed.

(** Boolean [existsb]/[forallb] over stdpp membership. *)
Lemma existsb_elem {A} (p : A -> bool) l :
  existsb p l = true <-> exists x, x ∈ l /\ p x = true.
Proof. rewrite existsb_exists. by setoid_rewrite list_elem_of_In. Qed.

Lemma existsb_false_elem {A} (p : A -> bool) l :
  existsb p l = false <-> forall x, x ∈ l -> p x = false.
Proof.
  rewrite <-not_true_iff_false, existsb_elem. split.
  - intros H x Hx. apply not_true_iff_false. naive_solver.
  - intros H (x & Hx & Hp). specialize (H x Hx). congruence.
Qed.

(** [lastZ d l]: the last element, [d] when there is none. *)
Definition last_default (d : Z) (l : list Z) : Z := default d (last l).

(** Rows with distinct keys are told apart by them. *)
Lemma NoDup_map_inj {A B} (f : A -> B) l x y :
  NoDup (map f l) -> x ∈ l -> y ∈ l -> f x = f y -> x = y.
Proof.
  induction l as [|z l IH]; [set_solver|]. simpl. intros [Hz Hl]%NoDup_cons Hx Hy E.
  apply elem_of_cons in Hx as [->|Hx]; apply elem_of_cons in Hy as [->|Hy]; [done|..|by apply IH].
  - exfalso. apply Hz. rewrite E. by apply list_elem_of_fmap_2.
  - exfalso. apply Hz. rewrite <-E. by apply list_elem_of_fmap_2.
Qed.

(** Selecting rows keeps their keys distinct. *)
Lemma NoDup_map_filter {A B} (f : A -> B) (P : A -> Prop) `{!forall x, Decision (P x)} l :
  NoDup (map f l) -> NoDup (map f (filter P l)).
Proof.
  induction l as [|x l IH]; intros Hn; [constructor|].
  apply NoDup_cons in Hn as [Hx Hn]. rewrite filter_cons. destruct (decide (P x)); [|auto].
  simpl. constructor; [|auto]. intros Hin. apply list_elem_of_fmap in Hin as (y & E & Hy).
  apply Hx. apply list_elem_of_filter in Hy as [_ Hy]. apply list_elem_of_fmap. by exists y.
Qed.

Lemma filter_all {A} (P : A -> Prop) `{!forall x, Decision (P x)} l :
  Forall P l -> filter P l = l.
Proof. induction 1; [done|]. rewrite filter_cons_True by done. by f_equal. Qed.

Lemma filter_none {A} (P : A -> Prop) `{!forall x, Decision (P x)} l :
  Forall (fun x => ~ P x) l -> filter P l = [].
Proof. induction 1; [done|]. by rewrite filter_cons_False. Qed.

Lemma NoDup_snoc {A} (l : list A) x : x ∉ l -> NoDup l -> NoDup (l ++ [x]).
Proof.
  intros Hx Hl. apply NoDup_app. split; [done|]. split; [|apply NoDup_singleton].
  by intros y Hy ->%list_elem_of_singleton.
Qed.

Lemma NoDup_map_same {A B} (f : A -> B) (g : A -> A) l :
  (forall x, f (g x) = f x) -> NoDup (map f l) -> NoDup (map f (map g l)).
Proof. intros Hfg. by rewrite map_map, (map_ext _ f Hfg). Qed.

(** ** Sums over a list *)

Fixpoint sum_of {A} (f : A -> Z) (l : list A) : Z :=
  match l with [] => 0 | x :: l' => f x + sum_of f l' end.

Lemma sum_of_app {A} (f : A -> Z) l1 l2 : sum_of f (l1 ++ l2) = sum_of f l1 + sum_of f l2.
Proof. induction l1; simpl; lia. Qed.

Lemma sum_of_nonneg {A} (f : A -> Z) l : (forall x, 0 <= f x) -> 0 <= sum_of f l.
Proof. intros Hf. induction l as [|x l IH]; simpl; [lia|]. specialize (Hf x). lia. Qed.

Lemma sum_of_ext {A} (f g : A -> Z) l :
  (forall x, x ∈ l -> f x = g x) -> sum_of f l = sum_of g l.
Proof.
  induction l as [|x l IH]; intros H; simpl; [done|].
  rewrite (H x), IH; [done|..]; set_solver.
Qed.

(** Changing the summand at one element of a duplicate-free list. *)
Lemma sum_of_update {A} (f g : A -> Z) l x :
  NoDup l -> x ∈ l -> (forall y, y <> x -> g y = f y) ->
  sum_of g l = sum_of f l + (g x - f x).
Proof.
  induction l as [|y l IH]; intros Hn Hx Hy; [set_solver|].
  apply NoDup_cons in Hn as [Hny Hn]. simpl. apply elem_of_cons in Hx as [->|Hx].
  - rewrite (sum_of_ext g f l); [lia|]. intros z Hz. apply Hy. set_solver.
  - rewrite IH by done. rewrite (Hy y); [lia|]. set_solver.
Qed.

Lemma sum_of_0 {A} (f : A -> Z) l : (forall x, x ∈ l -> f x = 0) -> sum_of f l = 0.
Proof. induction l as [|x l IH]; intros H; simpl; [done|]. rewrite (H x), IH; set_solver. Qed.

Lemma sum_of_map {A B} (f : B -> Z) (h : A -> B) l :
  sum_of f (map h l) = sum_of (fun x => f (h x)) l.
Proof. induction l; simpl; congruence. Qed.

Lemma sum_of_zero {A} (f : A -> Z) l :
  (forall x, 0 <= f x) -> sum_of f l = 0 -> forall x, x ∈ l -> f x = 0.
Proof.
  intros Hf. induction l as [|y l IH]; simpl; intros H0 x Hx; [set_solver|].
  pose proof (sum_of_nonneg f l Hf). pose proof (Hf y).
  apply elem_of_cons in Hx as [->|Hx]; [lia|]. apply IH; [lia|done].
Qed.

Lemma sum_of_ge {A} (f : A -> Z) l x : (forall y, 0 <= f y) -> x ∈ l -> f x <= sum_of f l.
Proof.
  intros Hf. induction l as [|y l IH]; simpl; intros Hx; [set_solver|].
  pose proof (sum_of_nonneg f l Hf). pose proof (Hf y).
  apply elem_of_cons in Hx as [->|Hx]; [lia|]. specialize (IH Hx). lia.
Qed.
