(* ===== verification/Text.v ===== *)
(** * Text

    What the sources use of Python's [str] on code points below 256, which is
    what a header decodes to: [strip], [lower], [isdigit] and [encode]; and how texts made of fields
    and separators split again. *)

From stdpp Require Import base list strings pretty.
From Stdlib Require Import ZArith Lia Ascii.
From S2P Require Import Prelude.

Definition is_space (c : ascii) : bool :=
  let n := Z.of_nat (nat_of_ascii c) in
  ((9 <=? n) && (n <=? 13)) || ((28 <=? n) && (n <=? 32)) || (n =? 133) || (n =? 160).

Fixpoint lstrip (s : string) : string :=
  match s with
  | String c s' => if is_space c then lstrip s' else s
  | EmptyString => EmptyString
  end.
Fixpoint rstrip (s : string) : string :=
  match s with
  | String c s' => match rstrip s' with
                   | EmptyString => if is_space c then EmptyString else String c EmptyString
                   | t => String c t
                   end
  | EmptyString => EmptyString
  end.
Definition strip (s : string) : string := rstrip (lstrip s).

Definition lower_char (c : ascii) : ascii :=
  let n := Z.of_nat (nat_of_ascii c) in
  if ((65 <=? n) && (n <=? 90)) || ((192 <=? n) && (n <=? 222) && negb (n =? 215))
  then ascii_of_nat (Z.to_nat (n + 32)) else c.
Fixpoint lower (s : string) : string :=
  match s with String c s => String (lower_char c) (lower s) | EmptyString => EmptyString end.

(** The three superscripts are digits to [str.isdigit] (and not to [int]). *)
Definition is_digit (c : ascii) : bool :=
  let n := Z.of_nat (nat_of_ascii c) in
  ((48 <=? n) && (n <=? 57)) || (n =? 178) || (n =? 179) || (n =? 185).
Definition isdigit (s : string) : bool :=
  negb (String.eqb s "") && forallb is_digit (String.list_ascii_of_string s).

Fixpoint utf8 (s : string) : list Z :=
  match s with
  | EmptyString => []
  | String c s =>
      let n := Z.of_nat (nat_of_ascii c) in
      if n <? 128 then n :: utf8 s else (192 + n / 64) :: (128 + n mod 64) :: utf8 s
  end.

(** ** Splitting a text at a separator *)

(** A character an integer is written with. *)
Definition int_char (c : ascii) : bool := bool_decide (c = "-"%char) || bool_decide (is_Some (digit_value c)).

Fixpoint all_chars (p : ascii -> bool) (s : string) : bool :=
  match s with EmptyString => true | String c s => p c && all_chars p s end.

Lemma all_chars_split p s1 : forall s2 c1 c2 t1 t2,
  all_chars p s1 = true -> all_chars p s2 = true -> p c1 = false -> p c2 = false ->
  (s1 ++ String c1 t1 = s2 ++ String c2 t2)%string -> s1 = s2 /\ String c1 t1 = String c2 t2.
Proof.
  induction s1 as [|a s1 IH]; intros [|b s2] c1 c2 t1 t2; simpl; intros H1 H2 Hc1 Hc2 E.
  - done.
  - injection E as -> _. by rewrite Hc1 in H2.
  - injection E as <- _. by rewrite Hc2 in H1.
  - apply andb_prop in H1 as [_ H1]. apply andb_prop in H2 as [_ H2]. injection E as -> E.
    destruct (IH s2 c1 c2 t1 t2) as [-> ->]; done.
Qed.

Lemma read_digits_chars s : forall acc n, read_digits acc s = Some n -> all_chars int_char s = true.
Proof.
  induction s as [|c s IH]; intros acc n; simpl; [done|]. destruct (digit_value c) eqn:E; [|done].
  intros H. rewrite (IH _ _ H). unfold int_char. rewrite E.
  by rewrite (bool_decide_eq_true_2 (is_Some _)) by eauto; rewrite orb_true_r.
Qed.

Lemma pretty_chars (z : Z) : all_chars int_char (pretty z) = true.
Proof.
  assert (Hp : forall p, all_chars int_char (pretty (Z.pos p)) = true).
  { intros p. eapply read_digits_chars. exact (read_pretty_N (N.pos p)). }
  destruct z as [|p|p]; [done|done|]. change (pretty (Z.neg p)) with (String "-" (pretty (Z.pos p))). simpl.
  exact (Hp p).
Qed.

Lemma pretty_sep (z1 z2 : Z) c1 c2 t1 t2 :
  int_char c1 = false -> int_char c2 = false ->
  (pretty z1 ++ String c1 t1 = pretty z2 ++ String c2 t2)%string -> z1 = z2 /\ String c1 t1 = String c2 t2.
Proof.
  intros Hc1 Hc2 E. apply (all_chars_split int_char) in E as [E ->]; [|apply pretty_chars..|done|done].
  split; [|done]. assert (H : Some z1 = Some z2) by (rewrite <-!int_of_pretty; by rewrite E).
  by injection H.
Qed.

Lemma utf8_inj s1 : forall s2, utf8 s1 = utf8 s2 -> s1 = s2.
Proof.
  assert (Hc : forall c, 0 <= Z.of_nat (nat_of_ascii c) < 256) by (intros c; pose proof (nat_ascii_bounded c); lia).
  assert (Hinj : forall c1 c2, Z.of_nat (nat_of_ascii c1) = Z.of_nat (nat_of_ascii c2) -> c1 = c2).
  { intros c1 c2 E. rewrite <-(ascii_nat_embedding c1), <-(ascii_nat_embedding c2). f_equal. lia. }
  induction s1 as [|c1 s1 IH]; intros [|c2 s2]; cbn [utf8]; intros E; [done|..].
  - by destruct (_ <? _).
  - by destruct (_ <? _).
  - pose proof (Hc c1). pose proof (Hc c2). set (n1 := Z.of_nat (nat_of_ascii c1)) in *.
    set (n2 := Z.of_nat (nat_of_ascii c2)) in *.
    pose proof (Z.div_mod n1 64 ltac:(lia)). pose proof (Z.div_mod n2 64 ltac:(lia)).
    pose proof (Z.mod_pos_bound n1 64 ltac:(lia)). pose proof (Z.mod_pos_bound n2 64 ltac:(lia)).
    destruct (Z.ltb_spec n1 128), (Z.ltb_spec n2 128).
    + injection E as E1 E2. f_equal; [by apply Hinj|by apply IH].
    + injection E as E1 E2. lia.
    + injection E as E1 E2. lia.
    + injection E as E1 E2 E3. f_equal; [apply Hinj; fold n1 n2; lia|by apply IH].
Qed.

Lemma append_assoc (s t u : string) : ((s ++ t) ++ u = s ++ (t ++ u))%string.
Proof. induction s as [|c s IH]; [done|]. change ((String c s ++ t) ++ u)%string with (String c ((s ++ t) ++ u)). by rewrite IH. Qed.
