(* ===== verification/Uin.v ===== *)
(** * Numbers: which are scarce, what they cost, and who may be handed one

    Models [src/app/services/uin.py]: the regular expressions of [_PATTERNS]
    and [_RUN] (run by a small backtracking matcher for the fragment of [re]
    they use), [price_length], [is_reserved_uin], [invite_is_live],
    [uin_is_taken] and the random allocator [allocate_uin].

    The theorems: the reserved test is equivalent to a readable rule with no
    regular expression in it; a number of seven digits or more is reserved
    exactly when it is priced above its own length; the allocator only ever
    returns a number that is free, unreserved and seven to nine digits long,
    and it finds one whenever one of its hundred draws is acceptable. *)

From stdpp Require Import base list sets gmap strings.
From Stdlib Require Import ZArith Lia.
From S2P Require Import Prelude.

(** ** [str(int)] as a list of character codes *)

Definition chr0 : Z := 48.
Definition chr_minus : Z := 45.
Definition is_digit (c : Z) : bool := (48 <=? c) && (c <=? 57).

Fixpoint digits_aux (fuel : nat) (n : Z) (acc : list Z) : list Z :=
  match fuel with
  | O => acc
  | S f => if n <? 10 then (chr0 + n) :: acc
           else digits_aux f (n / 10) (chr0 + n mod 10 :: acc)
  end.

Definition digits (n : Z) : list Z := digits_aux (S (Z.to_nat (Z.log2 n))) n [].

Definition str_int (n : Z) : list Z :=
  if n <? 0 then chr_minus :: digits (- n) else digits n.

(** ** The fragment of [re] the patterns use *)

Module Regex.

Inductive re :=
  | Bol                                             (* ^ *)
  | Eol                                             (* $ *)
  | Dig                                             (* \d *)
  | Chr (c : Z)
  | Cat (r1 r2 : re)
  | Rep (lo : nat) (hi : option nat) (r : re)       (* r{lo,hi} *)
  | Grp (r : re)                                    (* (r), group 1 *)
  | Bref.                                           (* \1 *)

Record mstate := MState { at_bol : bool; rest : list Z; grp : option (list Z) }.

Definition advance (n : nat) (s : mstate) : mstate :=
  MState (at_bol s && (n =? 0)%nat) (drop n (rest s)) (grp s).

(** All ways of repeating one step between [lo] and [hi] times. *)
Fixpoint rep_outs (step : mstate -> list mstate) (fuel lo : nat) (hi : option nat)
    (s : mstate) : list mstate :=
  let stop := if (lo =? 0)%nat then [s] else [] in
  match fuel with
  | O => stop
  | S f =>
      match hi with
      | Some O => stop
      | _ => flat_map (rep_outs step f (pred lo) (option_map pred hi)) (step s) ++ stop
      end
  end.

(** Every way a pattern can match at the current position, longest
    repetition first: the outcomes a backtracking matcher explores. *)
Fixpoint outs (r : re) (s : mstate) : list mstate :=
  match r with
  | Bol => if at_bol s then [s] else []
  | Eol => match rest s with [] => [s] | _ => [] end
  | Dig => match rest s with
           | c :: _ => if is_digit c then [advance 1 s] else []
           | [] => [] end
  | Chr c => match rest s with
             | c' :: _ => if c =? c' then [advance 1 s] else []
             | [] => [] end
  | Cat r1 r2 => flat_map (outs r2) (outs r1 s)
  | Rep lo hi r => rep_outs (outs r) (S (lo + length (rest s))) lo hi s
  | Grp r => map (fun s' => MState (at_bol s') (rest s')
                    (Some (take (length (rest s) - length (rest s')) (rest s))))
                 (outs r s)
  | Bref => match grp s with
            | Some g => if bool_decide (g `prefix_of` rest s) then [advance (length g) s] else []
            | None => [] end
  end.

(** [re.search]: the pattern matches at some position. *)
Definition search (r : re) (s : list Z) : bool :=
  existsb (fun k => match outs r (MState (k =? 0)%nat (drop k s) None) with
                    | [] => false | _ => true end)
          (seq 0 (S (length s))).

Definition plus (r : re) : re := Rep 1 None r.
Definition star (r : re) : re := Rep 0 None r.
Definition opt (r : re) : re := Rep 0 (Some 1%nat) r.
Fixpoint cat (l : list re) : re :=
  match l with [] => Rep 0 (Some 0%nat) Dig | [r] => r | r :: l => Cat r (cat l) end.
(** The digit [d] as a literal. *)
Definition D (d : Z) : re := Chr (chr0 + d).

(** A match from the start of the string to its end. *)
Lemma search_iff r s :
  search r s = true <->
  exists k s', (k <= length s)%nat /\ s' ∈ outs r (MState (k =? 0)%nat (drop k s) None).
Proof.
  unfold search. rewrite existsb_elem. split.
  - intros (k & Hk & Ho). apply elem_of_seq in Hk. exists k.
    destruct (outs _ _) as [|s' l] eqn:E; [done|]. exists s'. split; [lia|].
    set_solver.
  - intros (k & s' & Hk & Ho). exists k. rewrite elem_of_seq. split; [lia|].
    by destruct (outs _ _); [set_solver|].
Qed.

Lemma elem_of_flat_map {A B} (f : A -> list B) l y :
  y ∈ flat_map f l <-> exists x, x ∈ l /\ y ∈ f x.
Proof. rewrite list_elem_of_In, in_flat_map. by setoid_rewrite list_elem_of_In. Qed.

(** One step that consumes exactly the literal [g]. *)
Definition lit (g : list Z) (s : mstate) : list mstate :=
  if bool_decide (g `prefix_of` rest s) then [advance (length g) s] else [].

Lemma outs_Chr_lit c s : outs (Chr c) s = lit [c] s.
Proof.
  unfold lit; simpl. destruct (rest s) as [|c' t].
  - case_cond; breflect; [|done]. by destruct Heqb as [k ?].
  - destruct (Z.eqb_spec c c') as [->|Hne]; case_cond; breflect; try done.
    + exfalso. apply Heqb. by exists t.
    + destruct Heqb as [k ?]; simplify_eq/=.
Qed.

Lemma outs_Bref_lit g s : grp s = Some g -> outs Bref s = lit g s.
Proof. intros Hg. simpl. by rewrite Hg. Qed.

Lemma elem_of_lit g s s' :
  s' ∈ lit g s <-> rest s = g ++ rest s' /\ s' = advance (length g) s.
Proof.
  unfold lit. case_cond; breflect.
  - rewrite list_elem_of_singleton. split; [|naive_solver].
    intros ->. split; [|done]. destruct Heqb as [k Hk]. simpl.
    rewrite Hk. by rewrite drop_app_length.
  - split; [set_solver|]. intros [Hr _]. exfalso. apply Heqb. by exists (rest s').
Qed.

Lemma advance_advance n m s : advance m (advance n s) = advance (n + m) s.
Proof.
  unfold advance; simpl. rewrite drop_drop. f_equal.
  destruct (at_bol s), n, m; reflexivity.
Qed.

Lemma advance_0 s : advance 0 s = s.
Proof. destruct s as [[] ? ?]; reflexivity. Qed.

(** Repeating a literal step: the outcomes have consumed [n >= lo] copies. *)
Lemma rep_lit (step : mstate -> list mstate) g (γ : option (list Z)) :
  g <> [] -> (forall s, grp s = γ -> step s = lit g s) ->
  forall fuel lo s s', grp s = γ -> (lo + length (rest s) < fuel)%nat ->
  s' ∈ rep_outs step fuel lo None s <->
  exists n, (lo <= n)%nat /\ rest s = concat (replicate n g) ++ rest s'
            /\ s' = advance (n * length g) s.
Proof.
  intros Hg Hstep. assert (0 < length g)%nat by (destruct g; [done|simpl; lia]).
  induction fuel as [|f IH]; intros lo s s' Hs Hf; [lia|].
  simpl. rewrite elem_of_app, elem_of_flat_map, Hstep by done.
  setoid_rewrite elem_of_lit. split.
  - intros [(x & [Hx ->] & Hin)|Hin].
    + assert (Hl : length (rest s) = (length g + length (rest (advance (length g) s)))%nat)
        by (rewrite Hx at 1; by rewrite length_app).
      apply IH in Hin; [|done|lia]. destruct Hin as (n & Hn & Hr & ->).
      exists (S n). rewrite advance_advance in *. split_and!; [lia| |done].
      rewrite Hx, Hr. cbn [replicate concat]. rewrite app_assoc. done.
    + revert Hin. case_cond; breflect; [|set_solver]. intros ->%list_elem_of_singleton.
      exists 0%nat. rewrite advance_0. split_and!; [lia|done|done].
  - intros (n & Hn & Hr & ->). destruct n as [|n].
    + right. assert (lo = 0%nat) as -> by lia. simpl. rewrite advance_0. set_solver.
    + left. cbn [replicate concat] in Hr. exists (advance (length g) s).
      assert (Hd : rest (advance (length g) s) =
                   concat (replicate n g) ++ rest (advance (S n * length g) s)).
      { unfold advance at 1; cbn [rest]. rewrite Hr at 1. rewrite <-app_assoc.
        by rewrite drop_app_length. }
      split; [split; [|done]|].
      { rewrite Hd, app_assoc. exact Hr. }
      assert (Hl : length (rest s) = (length g + length (rest (advance (length g) s)))%nat).
      { rewrite Hd, Hr at 1. rewrite !length_app. lia. }
      apply IH; [done|lia|]. exists n. rewrite advance_advance.
      split_and!; [lia|exact Hd|done].
Qed.

Lemma outs_Cat r1 r2 s s' :
  s' ∈ outs (Cat r1 r2) s <-> exists m, m ∈ outs r1 s /\ s' ∈ outs r2 m.
Proof. apply elem_of_flat_map. Qed.

Lemma outs_Dig s s' :
  s' ∈ outs Dig s <-> exists c t, rest s = c :: t /\ is_digit c = true /\ s' = advance 1 s.
Proof.
  cbn [outs]. destruct (rest s) as [|c t]; [set_solver|].
  destruct (is_digit c) eqn:E; rewrite ?list_elem_of_singleton; [naive_solver|].
  split; [set_solver|]. intros (c' & t' & [= -> ->] & ? & _). congruence.
Qed.

Lemma outs_Chr c s s' :
  s' ∈ outs (Chr c) s <-> rest s = c :: rest s' /\ s' = advance 1 s.
Proof. rewrite outs_Chr_lit, elem_of_lit. done. Qed.

Lemma outs_Eol s s' : s' ∈ outs Eol s <-> rest s = [] /\ s' = s.
Proof. simpl. destruct (rest s); rewrite ?list_elem_of_singleton; set_solver. Qed.

Lemma outs_Bol s s' : s' ∈ outs Bol s <-> at_bol s = true /\ s' = s.
Proof. simpl. destruct (at_bol s); rewrite ?list_elem_of_singleton; set_solver. Qed.

Lemma outs_Rep_Chr lo c s s' :
  s' ∈ outs (Rep lo None (Chr c)) s <->
  exists n, (lo <= n)%nat /\ rest s = replicate n c ++ rest s' /\ s' = advance n s.
Proof.
  assert (Hrep : forall n, concat (replicate n [c]) = replicate n c)
    by (induction n; simpl; congruence).
  cbn [outs]. rewrite (rep_lit _ [c] (grp s)); [|done|intros; apply outs_Chr_lit|done|lia].
  setoid_rewrite Hrep. setoid_rewrite Nat.mul_1_r. done.
Qed.

Lemma outs_Rep_Bref lo g s s' :
  grp s = Some g -> g <> [] ->
  s' ∈ outs (Rep lo None Bref) s <->
  exists n, (lo <= n)%nat /\ rest s = concat (replicate n g) ++ rest s'
            /\ s' = advance (n * length g) s.
Proof.
  intros Hg Hne. cbn [outs]. apply (rep_lit _ g (Some g)); [done| |done|lia].
  intros s0 Hs0. by apply outs_Bref_lit.
Qed.

(** An optional character. *)
Lemma outs_opt_Chr c s s' :
  s' ∈ outs (opt (Chr c)) s <-> s' = s \/ (rest s = c :: rest s' /\ s' = advance 1 s).
Proof.
  unfold opt. cbn [outs rep_outs Nat.eqb pred option_map].
  rewrite elem_of_app, elem_of_flat_map, list_elem_of_singleton.
  assert (Hz : forall x, rep_outs (outs (Chr c)) (0 + length (rest s)) 0 (Some 0%nat) x = [x])
    by (intros x; by destruct (length (rest s))).
  setoid_rewrite Hz. setoid_rewrite list_elem_of_singleton. setoid_rewrite outs_Chr.
  split.
  - intros [(x & [? ->] & ->)| ->]; auto.
  - intros [->|[? ->]]; [by right|]. left. eauto.
Qed.

End Regex.
Import Regex.

(** [_PATTERNS], in the source's order. *)
Definition PATTERNS : list re :=
  [ cat [Bol; Grp Dig; plus Bref; Eol];
    cat [Bol; Grp (Cat Dig Dig); plus Bref; Eol];
    cat [Bol; Grp (Cat Dig (Cat Dig Dig)); plus Bref; Eol];
    cat [Bol; star (D 0); D 1; D 2; D 3; D 4; D 5; D 6; D 7; D 8; opt (D 9); Eol];
    cat [Bol; opt (D 9); D 8; D 7; D 6; D 5; D 4; D 3; D 2; D 1; star (D 0); Eol];
    cat [Dig; Rep 4 None (D 0); Eol] ].

(** [_RUN] *)
Definition RUN : re := cat [Grp Dig; Rep 3 None Bref].

Definition RESERVED_MAX_LEN : nat := 6.

(** [len(set(s))] *)
Definition distinct (s : list Z) : nat := length (remove_dups s).

Definition price_length (uin : Z) : nat :=
  let s := str_int uin in
  let n := length s in
  let d := distinct s in
  let tier :=
    if (d <=? 2)%nat then 3%nat
    else if (d <=? 3)%nat || bool_decide (s = reverse s) || search RUN s
            || existsb (fun p => search p s) PATTERNS then 4%nat
    else if (d <=? 4)%nat && (n <=? 7)%nat then 5%nat
    else n in
  Nat.min n tier.

Definition is_reserved_uin (uin : Z) : bool :=
  if uin <=? 0 then false
  else
    let s := str_int uin in
    if (length s <=? RESERVED_MAX_LEN)%nat then true
    else
      let d := distinct s in
      if (d <=? 3)%nat then true
      else if (d <=? 4)%nat && (length s <=? 7)%nat then true
      else if bool_decide (s = reverse s) then true
      else if search RUN s then true
      else existsb (fun p => search p s) PATTERNS.

(** ** Who holds a number *)

Record Invite := {
  code : string;
  max_uses : Z;
  used_count : Z;
  invite_uin : option Z;
  expires_at : option Z;
  spent_at : option Z
}.

(** The four tables the question reads: the primary keys of [users] and
    [owned_uins], the expiry of each row of [uin_holds], the invites. *)
Record uin_db := {
  users : gset Z;
  owned_uins : gset Z;
  uin_holds : gmap Z Z;
  invites : list Invite
}.

Definition invite_is_live (now : Z) (i : Invite) : bool :=
  (used_count i <? max_uses i)
  && match expires_at i with None => true | Some e => now <? e end.

Definition uin_is_taken (now : Z) (db : uin_db) (uin : Z)
    (except_invite : option string) (ignore_holds : bool) : bool :=
  if bool_decide (uin ∈ users db) then true
  else if bool_decide (uin ∈ owned_uins db) then true
  else if negb ignore_holds &&
          match uin_holds db !! uin with Some e => now <? e | None => false end then true
  else
    existsb (fun i =>
      bool_decide (invite_uin i = Some uin) && invite_is_live now i
      && match except_invite with
         | None => true
         | Some c => if bool_decide (c = ""%string) then true
                     else negb (bool_decide (code i = c)) end)
      (invites db).

(** ** The allocator *)

Definition UIN_MIN : Z := 100000.
Definition UIN_MAX : Z := 999999999.

(** The body of the [for _ in range(100)] loop: [rand i] is what the i-th
    [secrets.randbelow(UIN_MAX - UIN_MIN)] returned, [clock i] the instant of
    its database check. *)
Fixpoint allocate_loop (n i : nat) (rand : nat -> Z) (clock : nat -> Z) (db : uin_db)
    : outcome Z :=
  match n with
  | O => Raise (RuntimeError "UIN allocation exhausted")
  | S n' =>
      let candidate := rand i + UIN_MIN in
      if is_reserved_uin candidate then allocate_loop n' (S i) rand clock db
      else if uin_is_taken (clock i) db candidate None false
           then allocate_loop n' (S i) rand clock db
      else Ok candidate
  end.

Definition ALLOC_TRIES : nat := 100.

Definition allocate_uin (rand : nat -> Z) (clock : nat -> Z) (db : uin_db) : outcome Z :=
  allocate_loop ALLOC_TRIES 0 rand clock db.

(** Compare [allocate_uin] by its definition, not by running its loop. *)
#[global] Strategy expand [allocate_uin].

(** The documented range of [secrets.randbelow(n)]. *)
Definition randbelow_spec (n : Z) (rand : nat -> Z) : Prop := forall i, 0 <= rand i < n.

Example reserved_ex1 :
  map is_reserved_uin [777000777; 1001010; 3003030; 1020102; 10200102; 120000000; 12345678; 987654321]
  = replicate 8 true.
Proof. vm_compute. reflexivity. Qed.

Example reserved_ex2 : map is_reserved_uin [1234567; 48151623; 738291465; 0; -5] = replicate 5 false.
Proof. vm_compute. reflexivity. Qed.

Example price_ex : map price_length [777000777; 12345678; 738291465; 555; 1234123; 7] = [3; 4; 9; 3; 5; 1]%nat.
Proof. vm_compute. reflexivity. Qed.

(** ** Digits *)

Lemma digits_aux_length k fuel n acc :
  10 ^ Z.of_nat k <= n < 10 ^ (Z.of_nat k + 1) -> (k < fuel)%nat ->
  length (digits_aux fuel n acc) = (S k + length acc)%nat.
Proof.
  revert fuel n acc. induction k as [|k IH]; intros [|f] n acc Hn Hf; try lia; simpl.
  - destruct (Z.ltb_spec n 10); [done|]. simpl in Hn. lia.
  - rewrite Nat2Z.inj_succ in Hn.
    replace (Z.succ (Z.of_nat k) + 1) with (Z.succ (Z.of_nat k + 1)) in Hn by lia.
    rewrite !Z.pow_succ_r in Hn by lia.
    destruct (Z.ltb_spec n 10) as [Hlt|Hge].
    { pose proof (Z.pow_pos_nonneg 10 (Z.of_nat k)). lia. }
    rewrite IH; [simpl; lia| |lia].
    split; [apply Z.div_le_lower_bound|apply Z.div_lt_upper_bound]; lia.
Qed.

(** [len(str(n))] is the decimal length. *)
Lemma length_str_int k n :
  10 ^ Z.of_nat k <= n < 10 ^ (Z.of_nat k + 1) -> length (str_int n) = S k.
Proof.
  intros Hn. pose proof (Z.pow_pos_nonneg 10 (Z.of_nat k)).
  unfold str_int, digits. destruct (Z.ltb_spec n 0); [lia|].
  rewrite (digits_aux_length k); [simpl; lia|done|].
  assert (2 ^ Z.of_nat k <= 10 ^ Z.of_nat k) by (apply Z.pow_le_mono_l; lia).
  pose proof (Z.log2_le_pow2 n (Z.of_nat k)). lia.
Qed.

(** Every positive integer has a decimal length. *)
Lemma decimal_length_exists n :
  0 < n -> exists k, 10 ^ Z.of_nat k <= n < 10 ^ (Z.of_nat k + 1).
Proof.
  intros Hn. assert (Hgen : forall m, n < 10 ^ Z.of_nat m ->
    exists k, 10 ^ Z.of_nat k <= n < 10 ^ (Z.of_nat k + 1)).
  { induction m as [|m IH]; intros Hm; [simpl in Hm; lia|].
    destruct (Z.lt_ge_cases n (10 ^ Z.of_nat m)); [by apply IH|].
    exists m. split; [done|]. by replace (Z.of_nat m + 1) with (Z.of_nat (S m)) by lia. }
  apply (Hgen (Z.to_nat n)). rewrite Z2Nat.id by lia. apply Z.pow_gt_lin_r; lia.
Qed.

(** The decimal length is monotone, with the thresholds of the code. *)
Lemma length_str_int_le6 n : 0 < n -> (length (str_int n) <= 6)%nat <-> n < 1000000.
Proof.
  intros Hn. destruct (decimal_length_exists n Hn) as [k Hk].
  rewrite (length_str_int k n Hk). split; intros H.
  - assert (10 ^ (Z.of_nat k + 1) <= 10 ^ 6) by (apply Z.pow_le_mono_r; lia). lia.
  - destruct (decide (S k <= 6)%nat); [done|].
    assert (10 ^ 6 <= 10 ^ Z.of_nat k) by (apply Z.pow_le_mono_r; lia). lia.
Qed.

Lemma length_str_int_le9 n : 0 < n < 1000000000 -> (length (str_int n) <= 9)%nat.
Proof.
  intros Hn. destruct (decimal_length_exists n ltac:(lia)) as [k Hk].
  rewrite (length_str_int k n Hk). destruct (decide (S k <= 9)%nat); [done|].
  assert (10 ^ 9 <= 10 ^ Z.of_nat k) by (apply Z.pow_le_mono_r; lia). lia.
Qed.

(** ** What each pattern means *)

Lemma distinct_le (s g : list Z) : (forall x, x ∈ s -> x ∈ g) -> (distinct s <= length g)%nat.
Proof.
  intros H. unfold distinct. apply submseteq_length, NoDup_submseteq.
  - apply NoDup_remove_dups.
  - intros x Hx. apply H. by apply elem_of_remove_dups.
Qed.

Lemma elem_of_concat_replicate n (g : list Z) x : x ∈ concat (replicate n g) -> x ∈ g.
Proof. induction n; simpl; [set_solver|]. rewrite elem_of_app. naive_solver. Qed.

Lemma search_anchored r s :
  search (Cat Bol r) s = true <-> exists s', s' ∈ outs r (MState true s None).
Proof.
  rewrite search_iff. setoid_rewrite outs_Cat. setoid_rewrite outs_Bol. split.
  - intros (k & s' & Hk & m & [Hb ->] & Ho). simpl in Hb.
    apply Nat.eqb_eq in Hb as ->. by exists s'.
  - intros (s' & Ho). exists 0%nat, s'. split; [lia|]. eexists. by split.
Qed.

(** A block of digits captured as group 1. *)
Lemma outs_Grp_block r n s m :
  (forall s0 m0, m0 ∈ outs r s0 -> (n <= length (rest s0))%nat /\ m0 = advance n s0) ->
  m ∈ outs (Grp r) s ->
  exists g, length g = n /\ rest s = g ++ rest m /\ grp m = Some g.
Proof.
  intros Hr Hm. cbn [outs] in Hm. apply list_elem_of_fmap in Hm as (m0 & -> & Hm0).
  apply Hr in Hm0 as [Hlen ->]. cbn [rest grp advance].
  rewrite length_drop. replace (length (rest s) - (length (rest s) - n))%nat with n by lia.
  exists (take n (rest s)). rewrite length_take, take_drop. split_and!; [lia|done|done].
Qed.

Lemma outs_Dig_block s m : m ∈ outs Dig s -> (1 <= length (rest s))%nat /\ m = advance 1 s.
Proof. intros (c & t & -> & _ & ->)%outs_Dig. simpl. split; [lia|done]. Qed.

Lemma outs_Cat_block r1 r2 n1 n2 :
  (forall s m, m ∈ outs r1 s -> (n1 <= length (rest s))%nat /\ m = advance n1 s) ->
  (forall s m, m ∈ outs r2 s -> (n2 <= length (rest s))%nat /\ m = advance n2 s) ->
  forall s m, m ∈ outs (Cat r1 r2) s -> (n1 + n2 <= length (rest s))%nat /\ m = advance (n1 + n2) s.
Proof.
  intros H1 H2 s m (x & Hx & Hm)%outs_Cat. apply H1 in Hx as [Hl ->]. apply H2 in Hm as [Hl2 ->].
  cbn [rest advance] in Hl2. rewrite length_drop in Hl2. rewrite advance_advance. split; [lia|done].
Qed.

(** A string that is a block of [n] digits repeated uses at most [n] of them. *)
Lemma repeated_block_distinct r n s :
  (0 < n)%nat ->
  (forall s0 m0, m0 ∈ outs r s0 -> (n <= length (rest s0))%nat /\ m0 = advance n s0) ->
  search (cat [Bol; Grp r; plus Bref; Eol]) s = true -> (distinct s <= n)%nat.
Proof.
  intros Hn Hr (s' & Ho)%search_anchored.
  apply outs_Cat in Ho as (m & Hm & Ho). apply outs_Cat in Ho as (m2 & Hm2 & Ho).
  apply outs_Eol in Ho as [He ->].
  apply (outs_Grp_block _ n) in Hm as (g & Hlen & Hrest & Hg); [|done]. simpl in Hrest.
  apply (outs_Rep_Bref _ g) in Hm2 as (k & _ & Hr2 & _); [|done|by destruct g; simpl in *; [lia|]].
  rewrite He, app_nil_r in Hr2. rewrite Hrest, Hr2, <-Hlen.
  apply distinct_le. intros x [?|?]%elem_of_app; [done|]. by eapply elem_of_concat_replicate.
Qed.

Definition up8 : list Z := map (Z.add chr0) [1;2;3;4;5;6;7;8].
Definition down8 : list Z := map (Z.add chr0) [8;7;6;5;4;3;2;1].

(** Four equal digits in a row. *)
Definition has_run (s : list Z) : Prop :=
  exists l1 c l2, is_digit c = true /\ s = l1 ++ replicate 4 c ++ l2.

Definition ladder_up (s : list Z) : Prop :=
  exists k, s = replicate k chr0 ++ up8 \/ s = replicate k chr0 ++ up8 ++ [chr0 + 9].

Definition ladder_down (s : list Z) : Prop :=
  exists k, s = down8 ++ replicate k chr0 \/ s = (chr0 + 9) :: down8 ++ replicate k chr0.

Lemma outs_Grp_Dig s m :
  m ∈ outs (Grp Dig) s <->
  exists c t, rest s = c :: t /\ is_digit c = true /\ m = MState false t (Some [c]).
Proof.
  cbn [outs]. destruct (rest s) as [|c t] eqn:E.
  - split; [set_solver|naive_solver].
  - destruct (is_digit c) eqn:Ed.
    + cbn [map]. rewrite list_elem_of_singleton. unfold advance; cbn [rest at_bol Nat.eqb].
      rewrite E. cbn [drop length]. rewrite ?drop_0, andb_false_r.
      replace (S (length t) - length t)%nat with 1%nat by lia.
      cbn [take]. split; [intros ->; by exists c, t|].
      by intros (c' & t' & [= -> ->] & _ & ->).
    + split; [set_solver|]. intros (c' & t' & [= -> ->] & ? & _). congruence.
Qed.

Lemma search_RUN s : search RUN s = true <-> has_run s.
Proof.
  rewrite search_iff. unfold RUN, has_run; cbn [cat]. setoid_rewrite outs_Cat.
  setoid_rewrite outs_Grp_Dig. cbn [rest]. split.
  - intros (k & s' & Hk & m & (c & t & Hd & Hc & ->) & Ho).
    apply (outs_Rep_Bref _ [c]) in Ho as (n & Hn & Hr & _); [|done|done].
    simpl in Hr. exists (take k s), c, (concat (replicate (n - 3) [c]) ++ rest s').
    split; [done|]. rewrite <-(take_drop k s) at 1. rewrite Hd, Hr.
    replace n with (3 + (n - 3))%nat at 1 by lia. done.
  - intros (l1 & c & l2 & Hc & ->).
    exists (length l1), (MState false l2 (Some [c])). rewrite length_app. split; [lia|].
    rewrite drop_app_length. eexists. split; [exists c, (replicate 3 c ++ l2); by split_and!|].
    apply (outs_Rep_Bref _ [c]); [done|done|]. exists 3%nat. by split_and!.
Qed.

(** Matching a literal digit and going on. *)
Lemma outs_D_Cat d r s s' :
  s' ∈ outs (Cat (D d) r) s <->
  exists t, rest s = (chr0 + d) :: t /\ s' ∈ outs r (MState false t (grp s)).
Proof.
  rewrite outs_Cat. setoid_rewrite outs_Chr. split.
  - intros (m & [Hr ->] & Ho). exists (drop 1 (rest s)). split; [done|].
    unfold advance in Ho. by rewrite andb_false_r in Ho.
  - intros (t & Hr & Ho). exists (advance 1 s). unfold advance. rewrite Hr, andb_false_r. done.
Qed.

(** Peel the literal digits off a match [Ho], recording them in [Hs]. *)
Ltac peel_digits Ho Hs :=
  repeat (apply outs_D_Cat in Ho as (? & Hr & Ho); cbn [rest grp advance] in Hr, Ho;
          first [rewrite Hr in Hs; clear Hr | rewrite Hr in Ho | subst]).

(** Build a match of literal digits on a string that starts with them. *)
Ltac push_digits := repeat (apply outs_D_Cat; eexists; split; [reflexivity|cbn [grp]]).

Lemma outs_opt_Eol c s s' :
  s' ∈ outs (Cat (opt (Chr c)) Eol) s -> rest s = [] \/ rest s = [c].
Proof.
  intros (m & [->|[Hr ->]]%outs_opt_Chr & [He ->]%outs_Eol)%outs_Cat; [by left|].
  rewrite He in Hr. by right.
Qed.

Lemma search_up s :
  search (cat [Bol; star (D 0); D 1; D 2; D 3; D 4; D 5; D 6; D 7; D 8; opt (D 9); Eol]) s = true
  <-> ladder_up s.
Proof.
  cbn [cat]. rewrite search_anchored. split.
  - intros (s' & (m & Hm & Ho)%outs_Cat).
    apply outs_Rep_Chr in Hm as (k & _ & Hs & ->). cbn [rest advance] in Hs.
    peel_digits Ho Hs. exists k. rewrite Hs.
    apply outs_opt_Eol in Ho as [Hx|Hx]; cbn [rest] in Hx; subst; [by left|by right].
  - intros [k Hk].
    assert (Hgo : forall tl s', s' ∈ outs (Cat (opt (D 9)) Eol) (MState false tl None) ->
      s = replicate k chr0 ++ up8 ++ tl ->
      exists s', s' ∈ outs (cat [star (D 0); D 1; D 2; D 3; D 4; D 5; D 6; D 7; D 8; opt (D 9); Eol])
                   (MState true s None)).
    { intros tl s' Ho ->. exists s'. cbn [cat]. apply outs_Cat.
      exists (advance k (MState true (replicate k chr0 ++ up8 ++ tl) None)).
      assert (Hd : drop k (replicate k chr0 ++ up8 ++ tl) = up8 ++ tl).
      { rewrite <-(length_replicate k chr0) at 1. by rewrite drop_app_length. }
      split.
      - apply outs_Rep_Chr. exists k. cbn [rest advance]. rewrite Hd. split_and!; [lia|done|done].
      - unfold advance; cbn [rest grp]. rewrite Hd. unfold up8; cbn [map app]. push_digits.
        exact Ho. }
    destruct Hk as [Hk|Hk].
    + apply (Hgo [] (MState false [] None)); [|by rewrite app_nil_r].
      apply outs_Cat. eexists. split; [apply outs_opt_Chr; by left|by apply outs_Eol].
    + apply (Hgo [chr0 + 9] (MState false [] None)); [|done].
      apply outs_Cat. exists (MState false [] None).
      split; [apply outs_opt_Chr; by right|by apply outs_Eol].
Qed.

Lemma search_down s :
  search (cat [Bol; opt (D 9); D 8; D 7; D 6; D 5; D 4; D 3; D 2; D 1; star (D 0); Eol]) s = true
  <-> ladder_down s.
Proof.
  cbn [cat]. rewrite search_anchored. split.
  - intros (s' & (m & Hm & Ho)%outs_Cat).
    assert (Hend : forall x s', s' ∈ outs (Cat (star (D 0)) Eol) (MState false x None) ->
                   exists k, x = replicate k chr0).
    { intros x s0 (m0 & (k & _ & Hk & ->)%outs_Rep_Chr & [He ->]%outs_Eol)%outs_Cat.
      rewrite He, app_nil_r in Hk. by exists k. }
    apply outs_opt_Chr in Hm as [->|[Hs ->]].
    + apply outs_D_Cat in Ho as (x & Hs & Ho); cbn [rest grp] in Hs, Ho.
      peel_digits Ho Hs. apply Hend in Ho as [k ->]. exists k. left. exact Hs.
    + cbn [rest advance] in Hs.
      peel_digits Ho Hs. apply Hend in Ho as [k ->]. exists k. right. exact Hs.
  - intros [k Hk].
    assert (Hgo : forall b, exists s', s' ∈ outs
      (cat [D 8; D 7; D 6; D 5; D 4; D 3; D 2; D 1; star (D 0); Eol])
      (MState b (down8 ++ replicate k chr0) None)).
    { intros b. exists (MState false [] None). cbn [cat]. unfold down8; cbn [map app].
      push_digits. apply outs_Cat.
      assert (Hd : drop k (replicate k chr0) = []) by (apply drop_ge; by rewrite length_replicate).
      exists (MState false [] None). split; [|by apply outs_Eol]. apply outs_Rep_Chr.
      exists k. unfold advance; cbn [rest grp]. rewrite Hd, app_nil_r.
      split_and!; [lia|done|done]. }
    destruct Hk as [->| ->].
    + destruct (Hgo true) as [s' Hs']. exists s'. apply outs_Cat. eexists.
      split; [apply outs_opt_Chr; by left|exact Hs'].
    + destruct (Hgo false) as [s' Hs']. exists s'. apply outs_Cat.
      exists (MState false (down8 ++ replicate k chr0) None).
      split; [apply outs_opt_Chr; right; by split|exact Hs'].
Qed.

Lemma search_zeros s : search (cat [Dig; Rep 4 None (D 0); Eol]) s = true -> has_run s.
Proof.
  cbn [cat]. intros (k & s' & Hk & Ho)%search_iff.
  apply outs_Cat in Ho as (m & (c & t & Hd & _ & ->)%outs_Dig & Ho).
  apply outs_Cat in Ho as (m2 & (n & Hn & Hr & ->)%outs_Rep_Chr & [He ->]%outs_Eol).
  cbn [rest advance] in Hd, Hr, He.
  exists (take k s ++ [c]), chr0, (replicate (n - 4) chr0). split; [done|].
  rewrite Hd in Hr, He. cbn [drop] in Hr, He. rewrite ?drop_0 in Hr.
  rewrite drop_0 in He. rewrite He, app_nil_r in Hr.
  rewrite <-(take_drop k s) at 1. rewrite Hd, Hr, <-!app_assoc. f_equal. simpl. f_equal.
  replace n with (4 + (n - 4))%nat at 1 by lia. done.
Qed.

(** ** The reserved rule, without regular expressions *)

Definition reserved_rule (s : list Z) : Prop :=
  (length s <= 6)%nat \/ (distinct s <= 3)%nat \/ (distinct s <= 4 /\ length s <= 7)%nat
  \/ s = reverse s \/ has_run s \/ ladder_up s \/ ladder_down s.

Lemma PATTERNS_sound s :
  existsb (fun p => search p s) PATTERNS = true ->
  (distinct s <= 3)%nat \/ has_run s \/ ladder_up s \/ ladder_down s.
Proof.
  unfold PATTERNS; cbn [existsb]. rewrite orb_false_r, !orb_true_iff.
  intros [H|[H|[H|[H|[H|H]]]]].
  - apply (repeated_block_distinct _ 1) in H; [lia|lia|apply outs_Dig_block].
  - apply (repeated_block_distinct _ 2) in H; [lia|lia|].
    apply (outs_Cat_block _ _ 1 1); apply outs_Dig_block.
  - apply (repeated_block_distinct _ 3) in H; [lia|lia|].
    apply (outs_Cat_block _ _ 1 2); [apply outs_Dig_block|].
    apply (outs_Cat_block _ _ 1 1); apply outs_Dig_block.
  - apply search_up in H. tauto.
  - apply search_down in H. tauto.
  - apply search_zeros in H. tauto.
Qed.

Lemma PATTERNS_ladders s :
  ladder_up s \/ ladder_down s -> existsb (fun p => search p s) PATTERNS = true.
Proof.
  unfold PATTERNS; cbn [existsb]. rewrite !orb_true_iff.
  intros [H|H]; [apply search_up in H|apply search_down in H]; tauto.
Qed.

(** ** The properties *)

(** The tests of [is_reserved_uin] as one boolean on the decimal string. *)
Lemma reserved_tests uin :
  0 < uin ->
  is_reserved_uin uin = true <->
  (length (str_int uin) <= 6)%nat \/ (distinct (str_int uin) <= 3)%nat
  \/ (distinct (str_int uin) <= 4 /\ length (str_int uin) <= 7)%nat
  \/ str_int uin = reverse (str_int uin) \/ search RUN (str_int uin) = true
  \/ existsb (fun p => search p (str_int uin)) PATTERNS = true.
Proof.
  intros Hpos. unfold is_reserved_uin, RESERVED_MAX_LEN.
  destruct (Z.leb_spec uin 0); [lia|].
  destruct (Nat.leb_spec (length (str_int uin)) 6); [naive_solver|].
  destruct (Nat.leb_spec (distinct (str_int uin)) 3); [naive_solver|].
  destruct ((distinct (str_int uin) <=? 4)%nat && (length (str_int uin) <=? 7)%nat) eqn:E4.
  { breflect. naive_solver. }
  assert (~ (distinct (str_int uin) <= 4 /\ length (str_int uin) <= 7)%nat).
  { apply andb_false_iff in E4. rewrite !Nat.leb_gt in E4. lia. }
  case_bool_decide; [naive_solver|].
  destruct (search RUN (str_int uin)); [naive_solver|].
  split; [tauto|]. intros [?|[?|[?|[?|[?|?]]]]]; try lia; done.
Qed.

(** [is_reserved_uin] is equivalent to a rule with no regular expression:
    a positive number is reserved exactly when it has at most six digits, uses
    at most three different digits (or four, at seven digits), is a palindrome,
    has four equal digits in a row, or is one of the two ladders.  The patterns
    for repeated blocks and trailing zeros add nothing to the general tests. *)
Theorem is_reserved_uin_rule (uin : Z) :
  is_reserved_uin uin = true <-> 0 < uin /\ reserved_rule (str_int uin).
Proof.
  destruct (Z.le_gt_cases uin 0) as [Hle|Hpos].
  { unfold is_reserved_uin. destruct (Z.leb_spec uin 0); [|lia]. naive_solver lia. }
  rewrite reserved_tests by done. rewrite search_RUN. unfold reserved_rule.
  split; [intros H; split; [done|]|intros [_ H]].
  - pose proof (PATTERNS_sound (str_int uin)). tauto.
  - pose proof (PATTERNS_ladders (str_int uin)). tauto.
Qed.

(** the price tier and the reserved test agree.  From seven digits up, a
    number is reserved exactly when it is priced at a shorter length than its
    own, and no number is ever priced at a longer one. *)
Theorem price_length_reserved (uin : Z) (Hlong : 1000000 <= uin) :
  (is_reserved_uin uin = true <-> (price_length uin < length (str_int uin))%nat)
  /\ (is_reserved_uin uin = false -> price_length uin = length (str_int uin)).
Proof.
  assert (Hlen : (6 < length (str_int uin))%nat).
  { pose proof (length_str_int_le6 uin). lia. }
  assert (Hiff : is_reserved_uin uin = true <-> (price_length uin < length (str_int uin))%nat).
  { rewrite reserved_tests by lia. unfold price_length.
    destruct (Nat.leb_spec (distinct (str_int uin)) 2); [split; intros; lia|].
    destruct ((distinct (str_int uin) <=? 3)%nat || bool_decide (str_int uin = reverse (str_int uin))
      || search RUN (str_int uin) || existsb (fun p => search p (str_int uin)) PATTERNS) eqn:E.
    { split; [intros; lia|]. intros _. rewrite !orb_true_iff, Nat.leb_le, bool_decide_eq_true in E.
      tauto. }
    rewrite !orb_false_iff, Nat.leb_gt, bool_decide_eq_false in E.
    destruct E as [[[H3 Hp] Hr] Hx].
    destruct ((distinct (str_int uin) <=? 4)%nat && (length (str_int uin) <=? 7)%nat) eqn:E4.
    { breflect. split; [intros; lia|]. tauto. }
    apply andb_false_iff in E4. rewrite !Nat.leb_gt in E4.
    split; [|lia]. intros [?|[?|[?|[?|[?|?]]]]]; try lia; congruence. }
  split; [exact Hiff|]. intros Hf.
  assert ((price_length uin <= length (str_int uin))%nat) by apply Nat.le_min_l.
  destruct (decide (price_length uin = length (str_int uin))); [done|].
  assert (is_reserved_uin uin = true) by (apply Hiff; lia). congruence.
Qed.

Lemma price_length_reserved_witness :
  (is_reserved_uin 777000777 = true <-> (price_length 777000777 < length (str_int 777000777))%nat)
  /\ (is_reserved_uin 777000777 = false -> price_length 777000777 = length (str_int 777000777)).
Proof. apply (price_length_reserved 777000777). lia. Defined.

(** who holds a number.  It is taken exactly when an account has it, a
    collection has it, an unexpired hold is on it (unless holds are ignored),
    or a live invite other than the one being redeemed reserves it; a spent or
    expired invite and an expired hold hold nothing. *)
Theorem uin_is_taken_iff (now : Z) (db : uin_db) (uin : Z) (except_invite : option string)
    (ignore_holds : bool) :
  uin_is_taken now db uin except_invite ignore_holds = true <->
  uin ∈ users db \/ uin ∈ owned_uins db
  \/ (ignore_holds = false /\ exists e, uin_holds db !! uin = Some e /\ now < e)
  \/ exists i, i ∈ invites db /\ invite_uin i = Some uin
       /\ used_count i < max_uses i
       /\ (expires_at i = None \/ exists e, expires_at i = Some e /\ now < e)
       /\ (forall c, except_invite = Some c -> c <> ""%string -> code i <> c).
Proof.
  unfold uin_is_taken. case_bool_decide; [tauto|]. case_bool_decide; [tauto|].
  destruct (negb ignore_holds && _) eqn:Eh.
  { split; [intros _|done]. right; right; left. breflect.
    destruct (uin_holds db !! uin) as [e|]; [|done]. breflect. split; [done|]. by exists e. }
  assert (Hh : ~ (ignore_holds = false /\ exists e, uin_holds db !! uin = Some e /\ now < e)).
  { intros [-> (e & He & Hlt)]. rewrite He in Eh. simpl in Eh. breflect. lia. }
  rewrite existsb_elem. split.
  - intros (i & Hi & Ht). right; right; right. exists i. unfold invite_is_live in Ht. breflect.
    split_and!; [done|done|done| |].
    + destruct (expires_at i) as [e|]; [right; exists e; split; [done|]; by breflect|by left].
    + intros c -> Hc. case_bool_decide; [done|]. by breflect.
  - intros [?|[?|[?|(i & Hi & Hu & Hl & He & Hc)]]]; try done. exists i. split; [done|].
    unfold invite_is_live. rewrite bool_decide_eq_true_2 by done.
    assert (used_count i <? max_uses i = true) as -> by lia. simpl.
    apply andb_true_intro. split.
    + destruct He as [->|(e & -> & Hlt)]; [done|lia].
    + destruct except_invite as [c|]; [|done]. case_bool_decide; [done|].
      rewrite bool_decide_eq_false_2; [done|]. by apply Hc.
Qed.

Lemma allocate_loop_Ok n i rand clock db u :
  allocate_loop n i rand clock db = Ok u ->
  exists j, (i <= j < i + n)%nat /\ u = rand j + UIN_MIN /\ is_reserved_uin u = false
            /\ uin_is_taken (clock j) db u None false = false.
Proof.
  revert i; induction n as [|n IH]; intros i; simpl; [done|].
  destruct (is_reserved_uin (rand i + _)) eqn:Er;
    [|destruct (uin_is_taken _ _ (rand i + _) _ _) eqn:Et].
  1-2: intros (j & ? & ?)%IH; exists j; split; [lia|done].
  intros [= <-]. exists i. split_and!; [lia|lia|done|done|done].
Qed.

Lemma allocate_loop_total n i rand clock db j :
  (i <= j < i + n)%nat -> is_reserved_uin (rand j + UIN_MIN) = false ->
  uin_is_taken (clock j) db (rand j + UIN_MIN) None false = false ->
  exists u, allocate_loop n i rand clock db = Ok u.
Proof.
  revert i; induction n as [|n IH]; intros i Hj Hr Ht; [lia|]. simpl.
  destruct (decide (i = j)) as [->|Hne]; [rewrite Hr, Ht; eauto|].
  destruct (is_reserved_uin (rand i + _)); [apply IH; [lia|done|done]|].
  destruct (uin_is_taken _ _ (rand i + _) _ _); [apply IH; [lia|done|done]|eauto].
Qed.

(** what the random allocator hands out.  For draws in the documented
    range of [secrets.randbelow], the number returned is inside the mint
    window, not reserved, not held by anybody at the moment of its check, and
    has seven to nine digits. *)
Theorem allocate_uin_sound (rand clock : nat -> Z) (db : uin_db) (u : Z)
    (Hrand : randbelow_spec (UIN_MAX - UIN_MIN) rand)
    (Halloc : allocate_uin rand clock db = Ok u) :
  UIN_MIN <= u < UIN_MAX
  /\ is_reserved_uin u = false
  /\ (exists i, (i < 100)%nat /\ uin_is_taken (clock i) db u None false = false)
  /\ (7 <= length (str_int u) <= 9)%nat.
Proof.
  unfold allocate_uin in Halloc. apply allocate_loop_Ok in Halloc as (j & Hj & Hu & Hr & Ht).
  specialize (Hrand j).
  assert (Htries : ALLOC_TRIES = 100%nat) by reflexivity.
  assert (Hmin : UIN_MIN = 100000) by reflexivity.
  assert (Hmax : UIN_MAX = 999999999) by reflexivity.
  assert (Hlen : ~ (length (str_int u) <= 6)%nat).
  { intros Hl. assert (is_reserved_uin u = true); [|congruence].
    apply reserved_tests; [lia|by left]. }
  assert (Hl9 : (length (str_int u) <= 9)%nat) by (apply length_str_int_le9; lia).
  split_and!; [lia|lia|done| |lia|lia]. exists j. split; [lia|done].
Qed.

Definition demo_uin_db : uin_db :=
  {| users := {[1234567]}; owned_uins := ∅; uin_holds := ∅; invites := [] |}.
Definition demo_rand (i : nat) : Z :=
  match i with O => 677777 | 1%nat => 1134567 | _ => 738191465 end.

Lemma allocate_uin_sound_witness :
  UIN_MIN <= 738291465 < UIN_MAX
  /\ is_reserved_uin 738291465 = false
  /\ (exists i, (i < 100)%nat /\ uin_is_taken 0 demo_uin_db 738291465 None false = false)
  /\ (7 <= length (str_int 738291465) <= 9)%nat.
Proof.
  apply (allocate_uin_sound demo_rand (fun _ => 0) demo_uin_db).
  - intros [|[|i]]; unfold UIN_MAX, UIN_MIN; simpl; lia.
  - vm_compute. reflexivity.
Defined.

(** the allocator succeeds whenever it can: if any of its hundred draws
    is unreserved and free when checked, it returns a number; otherwise it
    raises, and it never returns anything else. *)
Theorem allocate_uin_complete (rand clock : nat -> Z) (db : uin_db) :
  (exists u, allocate_uin rand clock db = Ok u) <->
  (exists i, (i < 100)%nat /\ is_reserved_uin (rand i + UIN_MIN) = false
             /\ uin_is_taken (clock i) db (rand i + UIN_MIN) None false = false).
Proof.
  assert (Htries : ALLOC_TRIES = 100%nat) by reflexivity. split.
  - intros (u & Hu). unfold allocate_uin in Hu. apply allocate_loop_Ok in Hu as (j & Hj & -> & Hr & Ht).
    exists j. split; [lia|done].
  - intros (i & Hi & Hr & Ht). unfold allocate_uin. apply (allocate_loop_total _ _ _ _ _ i); [lia|done|done].
Qed.
