(* ===== verification/Storage.v ===== *)
(** * The tables of the delivery path

    One record per table row ([src/app/models/*.py]), one [db] record for the
    database.  A table with a composite primary key is a finite map on that
    key; a table read by range or scan is the list of its rows in insertion
    order.  An autoincrement primary key is a counter of the database
    ([next_direct_id], [next_group_row_id]) that only an insert advances. *)

From stdpp Require Import base list gmap strings.
From Stdlib Require Import ZArith Lia.
From S2P Require Import Prelude.

(** [models/user.py]: what a profile shows, and two of its policies. *)
Record Profile := mkProfile {
  nickname : string;
  badge : option string;
  badge_hidden : bool;
  status : string;
  avatar_media_id : option string;
  avatar_media_key : option string;
  profile_card_policy : string;
  group_invite_policy : string
}.

Record User := mkUser {
  last_seen : Z;
  created_at : Z;
  guest_status : option string;
  muted_group_ids : list Z;   (* push_preferences["muted_group_ids"] *)
  is_suspended : bool;
  profile : Profile
}.

(** The column defaults. *)
Definition plain_profile : Profile :=
  mkProfile "" None false "offline" None None "everyone" "contacts".

(** [models/message.py]: one queued 1:1 envelope. *)
Record OfflineMessage := mkOfflineMessage {
  om_id : Z;
  om_to_uin : Z;
  om_envelope_type : string;
  om_payload : string;
  om_received_at : Z;
  om_cls : option Z;
  om_seq : option Z;
  om_to_device_id : option Z
}.

(** [models/group.py]: one member's queued copy of a group envelope. *)
Record OfflineGroupMessage := mkOfflineGroupMessage {
  og_id : Z;
  og_to_uin : Z;
  og_group_id : Z;
  og_envelope_type : string;
  og_payload : string;
  og_received_at : Z;
  og_cls : option Z
}.

(** [models/queue_cursor.py], keyed by (uin, device_id). *)
Record QueueCursor := mkQueueCursor {
  last_direct_id : Z;
  last_group_id : Z;
  qc_updated_at : option Z
}.

(** [models/group_log.py]. *)
Record GroupLog := mkGroupLog {
  gl_group_id : Z;
  gl_seq : Z;
  gl_to_uin : option Z;
  gl_envelope_type : string;
  gl_cls : Z;
  gl_payload : string;
  gl_received_at : Z
}.

Record GroupLogCursor := mkGroupLogCursor { last_seq : Z; glc_updated_at : Z }.

Record GroupLogReader := mkGroupLogReader { first_seen : Z; reader_last_seen : Z }.

(** [models/group.py]: the columns the delivery path reads, and the rest of the
    row. *)
Record RoomInfo := mkRoomInfo {
  name : string;
  description : option string;
  avatar_seed : Z;
  g_avatar_media_id : option string;
  g_avatar_media_key : option string;
  is_closed : bool;
  allow_guests : option bool;
  members_hidden : bool;
  links_allowed : bool;
  files_allowed : bool;
  in_catalog : bool;
  g_badge : option string;
  state_blob : option (list Z);
  state_ver : Z;
  pinned_text : option string;
  pinned_at : option Z;
  share_token : option string;
  link_reset_at : option Z;
  g_created_at : Z
}.

Record Group := mkGroup {
  owner_uin : Z;
  post_policy : string;
  slowmode_sec : Z;
  min_account_age_hours : Z;
  info : RoomInfo
}.

(** The column defaults of a room that was just named. *)
Definition plain_info (n : string) (seed : Z) (token : option string) (created : Z) : RoomInfo :=
  mkRoomInfo n None seed None None false (Some true) false true true false None None 0 None None
    token None created.

Record GroupMember := mkGroupMember {
  gm_group_id : Z;
  gm_uin : Z;
  gm_role : string;
  gm_permissions : string;
  gm_joined_at : option Z
}.

(** [models/device_token.py] *)
Record DeviceToken := mkDeviceToken {
  dt_uin : Z; dt_token : string; dt_platform : string; dt_device_id : option string
}.

Record db := mkDb {
  users : gmap Z User;
  offline_messages : list OfflineMessage;
  offline_group_messages : list OfflineGroupMessage;
  queue_cursors : gmap (Z * string) QueueCursor;
  mailbox_seq : gmap Z Z;
  group_seq : gmap Z Z;
  group_log : list GroupLog;
  group_log_cursors : gmap (Z * Z * string) GroupLogCursor;
  group_log_readers : gmap (Z * string) GroupLogReader;
  groups : gmap Z Group;
  group_members : list GroupMember;
  user_capabilities : gmap Z bool;
  device_tokens : list DeviceToken;
  next_direct_id : Z;
  next_group_row_id : Z
}.

#[export] Instance OfflineMessage_eq_dec : EqDecision OfflineMessage.
Proof. solve_decision. Defined.
#[export] Instance OfflineGroupMessage_eq_dec : EqDecision OfflineGroupMessage.
Proof. solve_decision. Defined.
#[export] Instance GroupLog_eq_dec : EqDecision GroupLog.
Proof. solve_decision. Defined.
#[export] Instance GroupMember_eq_dec : EqDecision GroupMember.
Proof. solve_decision. Defined.

(** ** Table updates *)

Definition set_users (f : gmap Z User -> gmap Z User) (d : db) : db :=
  mkDb (f (users d)) (offline_messages d) (offline_group_messages d) (queue_cursors d)
    (mailbox_seq d) (group_seq d) (group_log d) (group_log_cursors d) (group_log_readers d)
    (groups d) (group_members d) (user_capabilities d) (device_tokens d)
    (next_direct_id d) (next_group_row_id d).

Definition set_offline_messages (f : list OfflineMessage -> list OfflineMessage) (d : db) : db :=
  mkDb (users d) (f (offline_messages d)) (offline_group_messages d) (queue_cursors d)
    (mailbox_seq d) (group_seq d) (group_log d) (group_log_cursors d) (group_log_readers d)
    (groups d) (group_members d) (user_capabilities d) (device_tokens d)
    (next_direct_id d) (next_group_row_id d).

Definition set_offline_group_messages
    (f : list OfflineGroupMessage -> list OfflineGroupMessage) (d : db) : db :=
  mkDb (users d) (offline_messages d) (f (offline_group_messages d)) (queue_cursors d)
    (mailbox_seq d) (group_seq d) (group_log d) (group_log_cursors d) (group_log_readers d)
    (groups d) (group_members d) (user_capabilities d) (device_tokens d)
    (next_direct_id d) (next_group_row_id d).

Definition set_queue_cursors
    (f : gmap (Z * string) QueueCursor -> gmap (Z * string) QueueCursor) (d : db) : db :=
  mkDb (users d) (offline_messages d) (offline_group_messages d) (f (queue_cursors d))
    (mailbox_seq d) (group_seq d) (group_log d) (group_log_cursors d) (group_log_readers d)
    (groups d) (group_members d) (user_capabilities d) (device_tokens d)
    (next_direct_id d) (next_group_row_id d).

Definition set_mailbox_seq (f : gmap Z Z -> gmap Z Z) (d : db) : db :=
  mkDb (users d) (offline_messages d) (offline_group_messages d) (queue_cursors d)
    (f (mailbox_seq d)) (group_seq d) (group_log d) (group_log_cursors d) (group_log_readers d)
    (groups d) (group_members d) (user_capabilities d) (device_tokens d)
    (next_direct_id d) (next_group_row_id d).

Definition set_group_seq (f : gmap Z Z -> gmap Z Z) (d : db) : db :=
  mkDb (users d) (offline_messages d) (offline_group_messages d) (queue_cursors d)
    (mailbox_seq d) (f (group_seq d)) (group_log d) (group_log_cursors d) (group_log_readers d)
    (groups d) (group_members d) (user_capabilities d) (device_tokens d)
    (next_direct_id d) (next_group_row_id d).

Definition set_group_log (f : list GroupLog -> list GroupLog) (d : db) : db :=
  mkDb (users d) (offline_messages d) (offline_group_messages d) (queue_cursors d)
    (mailbox_seq d) (group_seq d) (f (group_log d)) (group_log_cursors d) (group_log_readers d)
    (groups d) (group_members d) (user_capabilities d) (device_tokens d)
    (next_direct_id d) (next_group_row_id d).

Definition set_group_log_cursors
    (f : gmap (Z * Z * string) GroupLogCursor -> gmap (Z * Z * string) GroupLogCursor)
    (d : db) : db :=
  mkDb (users d) (offline_messages d) (offline_group_messages d) (queue_cursors d)
    (mailbox_seq d) (group_seq d) (group_log d) (f (group_log_cursors d)) (group_log_readers d)
    (groups d) (group_members d) (user_capabilities d) (device_tokens d)
    (next_direct_id d) (next_group_row_id d).

Definition set_group_log_readers
    (f : gmap (Z * string) GroupLogReader -> gmap (Z * string) GroupLogReader) (d : db) : db :=
  mkDb (users d) (offline_messages d) (offline_group_messages d) (queue_cursors d)
    (mailbox_seq d) (group_seq d) (group_log d) (group_log_cursors d) (f (group_log_readers d))
    (groups d) (group_members d) (user_capabilities d) (device_tokens d)
    (next_direct_id d) (next_group_row_id d).

Definition set_groups (f : gmap Z Group -> gmap Z Group) (d : db) : db :=
  mkDb (users d) (offline_messages d) (offline_group_messages d) (queue_cursors d)
    (mailbox_seq d) (group_seq d) (group_log d) (group_log_cursors d) (group_log_readers d)
    (f (groups d)) (group_members d) (user_capabilities d) (device_tokens d)
    (next_direct_id d) (next_group_row_id d).

Definition set_group_members (f : list GroupMember -> list GroupMember) (d : db) : db :=
  mkDb (users d) (offline_messages d) (offline_group_messages d) (queue_cursors d)
    (mailbox_seq d) (group_seq d) (group_log d) (group_log_cursors d) (group_log_readers d)
    (groups d) (f (group_members d)) (user_capabilities d) (device_tokens d)
    (next_direct_id d) (next_group_row_id d).

Definition set_device_tokens (f : list DeviceToken -> list DeviceToken) (d : db) : db :=
  mkDb (users d) (offline_messages d) (offline_group_messages d) (queue_cursors d)
    (mailbox_seq d) (group_seq d) (group_log d) (group_log_cursors d) (group_log_readers d)
    (groups d) (group_members d) (user_capabilities d) (f (device_tokens d))
    (next_direct_id d) (next_group_row_id d).

(** ** Inserts into the tables with an autoincrement key *)

(** [db.add(OfflineMessage(...))]: the row takes the next id. *)
Definition insert_offline_message (mk : Z -> OfflineMessage) (d : db) : db :=
  mkDb (users d) (offline_messages d ++ [mk (next_direct_id d)])
    (offline_group_messages d) (queue_cursors d)
    (mailbox_seq d) (group_seq d) (group_log d) (group_log_cursors d) (group_log_readers d)
    (groups d) (group_members d) (user_capabilities d) (device_tokens d)
    (next_direct_id d + 1) (next_group_row_id d).

(** [db.execute(insert(OfflineGroupMessage), rows)]: consecutive ids. *)
Fixpoint insert_group_rows (mks : list (Z -> OfflineGroupMessage)) (d : db) : db :=
  match mks with
  | [] => d
  | mk :: mks' =>
      insert_group_rows mks'
        (mkDb (users d) (offline_messages d)
           (offline_group_messages d ++ [mk (next_group_row_id d)]) (queue_cursors d)
           (mailbox_seq d) (group_seq d) (group_log d) (group_log_cursors d)
           (group_log_readers d) (groups d) (group_members d) (user_capabilities d)
           (device_tokens d) (next_direct_id d) (next_group_row_id d + 1))
  end.

Definition empty_db : db :=
  mkDb ∅ [] [] ∅ ∅ ∅ [] ∅ ∅ ∅ [] ∅ [] 1 1.
