(* ===== verification/Envelope.v ===== *)
(** * Envelope kinds and the three storage classes

    Models the type sets at the top of [src/app/routers/messages.py] and
    [_cls_for]: a legible envelope type is filed into class 0 (ephemeral),
    1 (content) or 2 (critical), and the server branches on the class. *)

From stdpp Require Import base list sets strings.
From Stdlib Require Import ZArith Lia.
From S2P Require Import Prelude.

Definition CRITICAL_TYPES : list string := ["skdm"; "sknack"]%string.
Definition EPHEMERAL_TYPES : list string :=
  ["typing"; "read"; "visit"; "presence"; "nudge"; "bounce"]%string.
Definition NEVER_PUSH_TYPES : list string :=
  ["carbon"; "reaction"; "edit"; "delete"; "homerec"]%string.
Definition CALL_TYPE : string := "call".

Definition in_types (l : list string) (t : string) : bool := bool_decide (t ∈ l).

Definition cls_for (envelope_type : string) : Z :=
  if in_types CRITICAL_TYPES envelope_type then 2
  else if in_types EPHEMERAL_TYPES envelope_type then 0
  else 1.

Lemma cls_for_range t : 0 <= cls_for t <= 2.
Proof. unfold cls_for. repeat case_cond; lia. Qed.

(** A kind that is never pushed is content, so it is stored as a message is. *)
Lemma never_push_is_content t : in_types NEVER_PUSH_TYPES t = true -> cls_for t = 1.
Proof.
  unfold in_types. intros H%bool_decide_eq_true_1.
  repeat (apply elem_of_cons in H as [->|H]; [reflexivity|]). set_solver.
Qed.
