(* ===== verification/QueueDrain.v ===== *)
(** * The offline queue: cursors, drains, acknowledgements and reaping

    Models [src/app/services/queue_drain.py] and the drain half of
    [src/app/routers/messages.py] ([_acked_prefix], [_advance_cursor],
    [_reap_below_min], [fetch_queue], [ack_queue]).  A device drains
    [id > cursor] on two independent axes (direct and group rows). *)

From stdpp Require Import base list sorting gmap strings.
From Stdlib Require Import ZArith Lia.
From S2P Require Import Prelude Storage Envelope.

(** ** What the drain needs to know of a queued row

    The two queue tables share [id] and [to_uin]; only the direct one has a
    [to_device_id] column ([hasattr(model, "to_device_id")]). *)
Class QueueModel (R : Type) := {
  row_id : R -> Z;
  row_to_uin : R -> Z;
  has_device_column : bool;
  row_device : R -> option Z;
  table : db -> list R
}.

#[export] Instance direct_model : QueueModel OfflineMessage := {|
  row_id := om_id; row_to_uin := om_to_uin;
  has_device_column := true; row_device := om_to_device_id; table := offline_messages |}.

#[export] Instance group_model : QueueModel OfflineGroupMessage := {|
  row_id := og_id; row_to_uin := og_to_uin;
  has_device_column := false; row_device := fun _ => None; table := offline_group_messages |}.

(** ** [services/queue_drain.py] *)

(** The cursor rows of one account. *)
Definition cursors_of (uin : Z) (d : db) : list (string * QueueCursor) :=
  omap (fun '((u, dev), c) => if bool_decide (u = uin) then Some (dev, c) else None)
       (map_to_list (queue_cursors d)).

Definition account_watermark (d : db) (uin : Z) : Z * Z :=
  (max_default 0 (map (fun '(_, c) => last_direct_id c) (cursors_of uin d)),
   max_default 0 (map (fun '(_, c) => last_group_id c) (cursors_of uin d))).

Definition drain_floor (d : db) (uin : Z) (device_id : string)
    : Z * Z * option QueueCursor :=
  match queue_cursors d !! (uin, device_id) with
  | Some c => (last_direct_id c, last_group_id c, Some c)
  | None => let '(direct, group) := account_watermark d uin in (direct, group, None)
  end.

(** [INSERT ... ON CONFLICT (uin, device_id) DO UPDATE ... RETURNING]. *)
Definition upsert_cursor (now : Z) (uin : Z) (device_id : string)
    (direct group seed_direct seed_group : Z) (d : db) : (Z * Z) * db :=
  let row :=
    match queue_cursors d !! (uin, device_id) with
    | None => mkQueueCursor (Z.max direct seed_direct) (Z.max group seed_group) (Some now)
    | Some c => mkQueueCursor (Z.max (last_direct_id c) direct) (Z.max (last_group_id c) group)
                  (Some now)
    end in
  ((last_direct_id row, last_group_id row),
   set_queue_cursors <[(uin, device_id) := row]> d).

(** ** [_acked_prefix] *)

(** Whether a device is ever handed this row: a copy sealed to a sibling device
    is withheld.  [dev = None] asks no such question. *)
Definition for_device {R} `{QueueModel R} (dev : option Z) (r : R) : bool :=
  match dev with
  | Some dv => if (@has_device_column R _)
               then match row_device r with None => true | Some x => x =? dv end
               else true
  | None => true
  end.

(** The rows of [uin] above [base] that this device is handed. *)
Definition pending_rows {R} `{QueueModel R} (d : db) (uin base : Z) (dev : option Z) : list R :=
  filter (fun r => row_to_uin r = uin /\ base < row_id r /\ for_device dev r = true) (table d).

Definition acked_prefix (R : Type) `{QueueModel R} (d : db) (uin base : Z)
    (acked : list Z) (dev : option Z) : Z :=
  match acked with
  | [] => base
  | _ =>
      let ids := sort_by id (map row_id (pending_rows (R := R) d uin base dev)) in
      last_default base (take_while (fun i => bool_decide (i ∈ acked)) ids)
  end.

(** ** [_reap_below_min] *)

Definition STALE_CURSOR_DAYS : Z := 30.
Definition SUPERSEDED_CURSOR_DAYS : Z := 7.

(** [_drop]: whether the cursor stops holding the queue back. *)
Definition drop_cursor (now : Z) (newest : option Z) (c : QueueCursor) : bool :=
  let cutoff := now - days STALE_CURSOR_DAYS in
  let superseded_cutoff := now - days SUPERSEDED_CURSOR_DAYS in
  let fresh_sibling := match newest with Some n => superseded_cutoff <=? n | None => false end in
  match qc_updated_at c with
  | None => false
  | Some ts => if ts <? cutoff then true else fresh_sibling && (ts <? superseded_cutoff)
  end.

Definition newest_stamp (cs : list (string * QueueCursor)) : option Z :=
  match omap (fun '(_, c) => qc_updated_at c) cs with
  | [] => None
  | t :: ts => Some (max_default t (t :: ts))
  end.

Definition delete_cursors (uin : Z) (devs : list string) (d : db) : db :=
  set_queue_cursors (fun m => foldr (fun dev => delete (uin, dev)) m devs) d.

Definition reap_below_min (now uin : Z) (d : db) : Z * db :=
  let cursors := cursors_of uin d in
  let newest := newest_stamp cursors in
  let stale := filter (fun '(_, c) => drop_cursor now newest c = true) cursors in
  let live := filter (fun '(_, c) => drop_cursor now newest c = false) cursors in
  let d1 := delete_cursors uin (map fst stale) d in
  match live with
  | [] => (0, d1)
  | (_, c0) :: rest =>
      let min_direct := min_list (last_direct_id c0) (map (fun '(_, c) => last_direct_id c) rest) in
      let min_group := min_list (last_group_id c0) (map (fun '(_, c) => last_group_id c) rest) in
      let gone_d r := om_to_uin r = uin /\ om_id r <= min_direct in
      let gone_g r := og_to_uin r = uin /\ og_id r <= min_group in
      let '(n1, d2) :=
        if 0 <? min_direct
        then (Z.of_nat (length (filter gone_d (offline_messages d1))),
              set_offline_messages (filter (fun r => ~ gone_d r)) d1)
        else (0, d1) in
      let '(n2, d3) :=
        if 0 <? min_group
        then (Z.of_nat (length (filter gone_g (offline_group_messages d2))),
              set_offline_group_messages (filter (fun r => ~ gone_g r)) d2)
        else (0, d2) in
      (n1 + n2, d3)
  end.

(** ** [_advance_cursor] *)

Definition advance_cursor (now uin : Z) (device_id : string) (max_direct max_group : Z)
    (cursor : option QueueCursor) (d : db) : Z * db :=
  let cursor := match cursor with
                | Some c => Some c
                | None => queue_cursors d !! (uin, device_id) end in
  let '(seed_direct, seed_group) :=
    match cursor with Some _ => (0, 0) | None => account_watermark d uin end in
  let '(_, d1) := upsert_cursor now uin device_id max_direct max_group seed_direct seed_group d in
  reap_below_min now uin d1.

(** ** [fetch_queue] and [ack_queue]: the transaction on the queue tables *)

Record HistoryRow := mkHistoryRow {
  h_id : Z;
  h_envelope_type : string;
  h_cls : Z;
  h_payload : string;
  h_received_at : Z;
  h_group_id : option Z;
  h_seq : option Z;
  h_to_device_id : option Z
}.

Definition history_of_direct (r : OfflineMessage) : HistoryRow :=
  mkHistoryRow (om_id r) (om_envelope_type r)
    (match om_cls r with Some c => c | None => cls_for (om_envelope_type r) end)
    (om_payload r) (om_received_at r) None (om_seq r) (om_to_device_id r).

Definition history_of_group (r : OfflineGroupMessage) : HistoryRow :=
  mkHistoryRow (og_id r) (og_envelope_type r)
    (match og_cls r with Some c => c | None => cls_for (og_envelope_type r) end)
    (og_payload r) (og_received_at r) (Some (og_group_id r)) None None.

(** The two SELECTs of [fetch_queue], and the merged answer. *)
Definition queue_rows_direct (d : db) (uin after_direct dev : Z) : list OfflineMessage :=
  sort_by om_received_at (pending_rows d uin after_direct (Some dev)).

Definition queue_rows_group (d : db) (uin after_group : Z) : list OfflineGroupMessage :=
  sort_by og_received_at (pending_rows d uin after_group None).

Definition history (rd : list OfflineMessage) (rg : list OfflineGroupMessage) : list HistoryRow :=
  sort_by h_received_at (map history_of_direct rd ++ map history_of_group rg).

Definition fetch_queue_tx (now : Z) (ack : bool) (dev uin : Z) (device_id : string) (d : db)
    : list HistoryRow * db :=
  let '(after_direct, after_group, cursor) := drain_floor d uin device_id in
  let '((after_direct, after_group), d1) :=
    match cursor with
    | None => upsert_cursor now uin device_id 0 0 after_direct after_group d
    | Some _ => ((after_direct, after_group), d)
    end in
  let rows_1to1 := queue_rows_direct d1 uin after_direct dev in
  let rows_group := queue_rows_group d1 uin after_group in
  let out := history rows_1to1 rows_group in
  if negb ack then
    let max_direct := max_default after_direct (map om_id rows_1to1) in
    let max_group := max_default after_group (map og_id rows_group) in
    let '(_, d2) := advance_cursor now uin device_id max_direct max_group cursor d1 in
    (out, d2)
  else (out, d1).

Record AckIn := mkAckIn { direct_ids : list Z; group_ids : list Z }.

Definition ack_queue (now : Z) (body : AckIn) (dev uin : Z) (device_id : string) (d : db)
    : Z * db :=
  let '(base_direct, base_group, cursor) := drain_floor d uin device_id in
  let max_direct := acked_prefix OfflineMessage d uin base_direct (direct_ids body) (Some dev) in
  let max_group := acked_prefix OfflineGroupMessage d uin base_group (group_ids body) None in
  advance_cursor now uin device_id max_direct max_group cursor d.

(** ** Basic facts *)

Lemma elem_of_cursors_of uin d dev c :
  (dev, c) ∈ cursors_of uin d <-> queue_cursors d !! (uin, dev) = Some c.
Proof.
  unfold cursors_of. rewrite list_elem_of_omap. split.
  - intros ([[u dv] c'] & Hin & Hc). case_bool_decide; simplify_eq.
    by apply elem_of_map_to_list in Hin.
  - intros H. exists ((uin, dev), c). rewrite elem_of_map_to_list. split; [done|].
    by rewrite bool_decide_eq_true_2.
Qed.

Lemma elem_of_pending_rows {R} `{QueueModel R} d uin base dev (r : R) :
  r ∈ pending_rows d uin base dev <->
  r ∈ table d /\ row_to_uin r = uin /\ base < row_id r /\ for_device dev r = true.
Proof. unfold pending_rows. rewrite list_elem_of_filter. naive_solver. Qed.

(** The watermark bounds every cursor of the account, and is one of their
    marks when there is one. *)
Lemma watermark_ub d uin dev c :
  queue_cursors d !! (uin, dev) = Some c ->
  last_direct_id c <= (account_watermark d uin).1 /\ last_group_id c <= (account_watermark d uin).2.
Proof.
  intros Hc%elem_of_cursors_of. split; apply max_default_ub, list_elem_of_fmap;
    by exists (dev, c).
Qed.

Lemma watermark_direct_cases d uin :
  (account_watermark d uin).1 = 0 \/
  exists dev c, queue_cursors d !! (uin, dev) = Some c /\ (account_watermark d uin).1 = last_direct_id c.
Proof.
  unfold account_watermark; simpl. destruct (cursors_of uin d) as [|x l] eqn:E; [by left|right].
  pose proof (max_default_in 0 (map (fun '(_, c) => last_direct_id c) (x :: l)) ltac:(done)) as Hin.
  apply list_elem_of_fmap in Hin as ([dev c] & Heq & Hin). rewrite <-E in Hin.
  apply elem_of_cursors_of in Hin. by exists dev, c.
Qed.

Lemma last_default_cons b x l : last_default b (x :: l) = last_default x l.
Proof. unfold last_default. destruct l; [done|]. by rewrite last_cons_cons; destruct (last _) eqn:E; [|apply last_None in E]. Qed.

(** The loop of [_acked_prefix] over sorted ids. *)
Lemma acked_loop_spec (P : Z -> bool) ids base :
  StronglySorted (key_le id) ids ->
  (forall i, i ∈ ids -> base <= i /\ (base < i \/ P i = true)) ->
  let p := last_default base (take_while P ids) in
  base <= p
  /\ (forall i, i ∈ ids -> i <= p -> P i = true)
  /\ (p = base \/ (p ∈ ids /\ P p = true))
  /\ (forall q, q ∈ ids -> (forall i, i ∈ ids -> i <= q -> P i = true) -> q <= p).
Proof.
  revert base. induction ids as [|x l IH]; intros base Hs Hb p; subst p.
  { simpl. split_and!; [done|set_solver|by left|set_solver]. }
  apply StronglySorted_inv in Hs as [Hs Hx]. rewrite Forall_forall in Hx. unfold key_le, id in Hx.
  destruct (Hb x ltac:(set_solver)) as [Hbx Hbx'].
  cbn [take_while]. destruct (P x) eqn:Ex.
  - rewrite last_default_cons.
    destruct (IH x Hs) as (H1 & H2 & H3 & H4).
    { intros i Hi. specialize (Hx i Hi). split; [done|].
      destruct (decide (x = i)) as [->|]; [by right|left; lia]. }
    split_and!.
    + lia.
    + intros i [->|Hi]%elem_of_cons ?; [done|by apply H2].
    + right. destruct H3 as [->|[? ?]]; set_solver.
    + intros q [->|Hq]%elem_of_cons Hall; [done|]. apply H4; [done|]. intros i Hi. apply Hall. set_solver.
  - assert (base < x) by (destruct Hbx'; [done|congruence]). cbn. split_and!; [done| |by left|].
    + intros i Hi Hle. apply elem_of_cons in Hi as [->|Hi]; [lia|]. specialize (Hx i Hi). lia.
    + intros q Hq Hall. assert (P x = true); [|congruence]. apply Hall; [set_solver|].
      apply elem_of_cons in Hq as [->|Hq]; [done|]. by apply Hx.
Qed.

Section acked_prefix.
Context {R : Type} `{QueueModel R}.

Lemma acked_prefix_props d uin base acked dev :
  let p := acked_prefix R d uin base acked dev in
  base <= p
  /\ (forall r : R, r ∈ pending_rows d uin base dev -> row_id r <= p -> row_id r ∈ acked)
  /\ (p = base \/ exists r : R, r ∈ pending_rows d uin base dev /\ row_id r = p /\ p ∈ acked)
  /\ (forall r : R, r ∈ pending_rows d uin base dev ->
       (forall r' : R, r' ∈ pending_rows d uin base dev -> row_id r' <= row_id r -> row_id r' ∈ acked) ->
       row_id r <= p).
Proof.
  unfold acked_prefix. destruct acked as [|a0 acked'] eqn:Ea.
  { split_and!; [done| |by left|].
    - intros r (_ & _ & Hb & _)%elem_of_pending_rows Hle. lia.
    - intros r Hr Hall. specialize (Hall r Hr ltac:(lia)). set_solver. }
  rewrite <-Ea. clear Ea.
  set (ids := sort_by id (map row_id (pending_rows d uin base dev))).
  assert (Hids : forall i, i ∈ ids <-> exists r : R, r ∈ pending_rows d uin base dev /\ row_id r = i).
  { intros i. subst ids. rewrite elem_of_sort_by, list_elem_of_fmap. naive_solver. }
  destruct (acked_loop_spec (fun i => bool_decide (i ∈ acked)) ids base) as (H1 & H2 & H3 & H4).
  { apply sort_by_sorted. }
  { intros i (r & Hr & <-)%Hids. apply elem_of_pending_rows in Hr. lia. }
  split_and!; [done| | |].
  - intros r Hr Hle. refine (bool_decide_eq_true_1 _ (H2 _ _ Hle)). apply Hids. eauto.
  - destruct H3 as [->|[Hin Hp]]; [by left|right]. apply Hids in Hin as (r & Hr & Heq).
    exists r. split_and!; [done|done|]. by apply bool_decide_eq_true_1 in Hp.
  - intros r Hr Hall. apply H4; [apply Hids; eauto|].
    intros i (r' & Hr' & <-)%Hids Hle. apply bool_decide_eq_true_2. by apply Hall.
Qed.
End acked_prefix.

(** ** The upsert *)

Lemma upsert_cursor_db now uin dev di gr sd sg d :
  exists c, (upsert_cursor now uin dev di gr sd sg d).2 =
              set_queue_cursors <[(uin, dev) := c]> d
  /\ (upsert_cursor now uin dev di gr sd sg d).1 = (last_direct_id c, last_group_id c)
  /\ qc_updated_at c = Some now
  /\ match queue_cursors d !! (uin, dev) with
     | None => last_direct_id c = Z.max di sd /\ last_group_id c = Z.max gr sg
     | Some c0 => last_direct_id c = Z.max (last_direct_id c0) di
                  /\ last_group_id c = Z.max (last_group_id c0) gr
     end.
Proof.
  unfold upsert_cursor. eexists. split; [reflexivity|]. simpl.
  by destruct (queue_cursors d !! (uin, dev)).
Qed.

(** ** The reap *)

Lemma lookup_delete_cursors (uin : Z) (devs : list string)
    (m : gmap (Z * string) QueueCursor) (k : Z * string) :
  foldr (fun dev => delete (uin, dev)) m devs !! k =
  if decide (k.1 = uin /\ k.2 ∈ devs) then None else m !! k.
Proof.
  destruct k as [u dv]; simpl. induction devs as [|dv' devs IH]; simpl.
  { case_decide; [set_solver|done]. }
  destruct (decide ((uin, dv') = (u, dv))) as [Hd|Hd]; [simplify_eq|].
  - rewrite lookup_delete_eq, decide_True; [done|]. split; [done|]. apply elem_of_cons. by left.
  - rewrite lookup_delete_ne, IH by done.
    assert (Hiff : u = uin /\ dv ∈ dv' :: devs <-> u = uin /\ dv ∈ devs)
      by (rewrite elem_of_cons; naive_solver).
    by rewrite (decide_ext _ _ _ _ Hiff).
Qed.

(** What the reap does, in one statement: it keeps exactly the cursors that
    [drop_cursor] keeps, removes only rows of this account that lie at or
    below every surviving cursor, and removes nothing when none survives. *)
Record reap_result (now uin : Z) (d d' : db) : Prop := {
  reap_cursors k : queue_cursors d' !! k =
    match queue_cursors d !! k with
    | Some c => if decide (k.1 = uin) then
                  if drop_cursor now (newest_stamp (cursors_of uin d)) c then None else Some c
                else Some c
    | None => None
    end;
  reap_direct r : r ∈ offline_messages d ->
    r ∈ offline_messages d' \/
    (om_to_uin r = uin /\ (exists dev, is_Some (queue_cursors d' !! (uin, dev))) /\
     forall dev c, queue_cursors d' !! (uin, dev) = Some c -> om_id r <= last_direct_id c);
  reap_direct_sub r : r ∈ offline_messages d' -> r ∈ offline_messages d;
  reap_group r : r ∈ offline_group_messages d ->
    r ∈ offline_group_messages d' \/
    (og_to_uin r = uin /\ (exists dev, is_Some (queue_cursors d' !! (uin, dev))) /\
     forall dev c, queue_cursors d' !! (uin, dev) = Some c -> og_id r <= last_group_id c);
  reap_group_sub r : r ∈ offline_group_messages d' -> r ∈ offline_group_messages d;
  reap_next : next_direct_id d' = next_direct_id d /\ next_group_row_id d' = next_group_row_id d
}.

Lemma reap_cursor_lookup now uin d k :
  queue_cursors (delete_cursors uin
    (map fst (filter (fun '(_, c) => drop_cursor now (newest_stamp (cursors_of uin d)) c = true)
       (cursors_of uin d))) d) !! k =
    match queue_cursors d !! k with
    | Some c => if decide (k.1 = uin) then
                  if drop_cursor now (newest_stamp (cursors_of uin d)) c then None else Some c
                else Some c
    | None => None
    end.
Proof.
  destruct k as [u dv]. simpl. rewrite lookup_delete_cursors. simpl.
  assert (Hin : forall c, queue_cursors d !! (uin, dv) = Some c ->
    dv ∈ map fst (filter (fun '(_, c) => drop_cursor now (newest_stamp (cursors_of uin d)) c = true)
       (cursors_of uin d)) <-> drop_cursor now (newest_stamp (cursors_of uin d)) c = true).
  { intros c Hc. rewrite list_elem_of_fmap. split.
    - intros ([dv' c'] & -> & [Hd Hin]%list_elem_of_filter). apply elem_of_cursors_of in Hin.
      simpl in Hc. by simplify_eq.
    - intros Hd. exists (dv, c). split; [done|]. apply list_elem_of_filter. split; [done|].
      by apply elem_of_cursors_of. }
  case_decide as Hd.
  - destruct Hd as [-> Hdv]. destruct (queue_cursors d !! (uin, dv)) as [c|] eqn:Hc; [|done].
    rewrite decide_True by done. apply (Hin c eq_refl) in Hdv. by rewrite Hdv.
  - destruct (queue_cursors d !! (u, dv)) as [c|] eqn:Hc; [|done].
    case_decide as Hu; [|done]. subst u.
    destruct (drop_cursor _ _ c) eqn:Hdr; [|done]. exfalso. apply Hd. split; [done|].
    by apply (Hin c Hc).
Qed.

(** The survivors of the drop rule are exactly the cursors left in the table. *)
Lemma live_cursor now uin d dev c d1 :
  d1 = delete_cursors uin
    (map fst (filter (fun '(_, c) => drop_cursor now (newest_stamp (cursors_of uin d)) c = true)
       (cursors_of uin d))) d ->
  queue_cursors d1 !! (uin, dev) = Some c <->
  (dev, c) ∈ filter (fun '(_, c) => drop_cursor now (newest_stamp (cursors_of uin d)) c = false)
               (cursors_of uin d).
Proof.
  intros ->. rewrite reap_cursor_lookup, list_elem_of_filter, elem_of_cursors_of.
  destruct (queue_cursors d !! (uin, dev)) as [c'|]; simpl; [|naive_solver].
  rewrite decide_True by done. destruct (drop_cursor _ _ c') eqn:E.
  - split; [done|]. intros [Hd [= <-]]. congruence.
  - split; [intros [= <-]; done|]. by intros [_ ?].
Qed.

Lemma reap_below_min_spec now uin d : reap_result now uin d (reap_below_min now uin d).2.
Proof.
  unfold reap_below_min.
  set (d1 := delete_cursors uin _ d).
  pose proof (fun dev c => live_cursor now uin d dev c d1 eq_refl) as Hlive.
  destruct (filter _ (cursors_of uin d)) as [|[dev0 c0] live] eqn:El in Hlive |- *.
  { split; simpl; try tauto. apply reap_cursor_lookup. }
  set (md := min_list _ _). set (mg := min_list (last_group_id c0) _).
  assert (Hmd : forall dev c, queue_cursors d1 !! (uin, dev) = Some c -> md <= last_direct_id c).
  { intros dev c [Heq|Hc]%Hlive%elem_of_cons; apply min_list_lb, elem_of_cons;
      [left; congruence|]. right. apply list_elem_of_fmap. by exists (dev, c). }
  assert (Hmg : forall dev c, queue_cursors d1 !! (uin, dev) = Some c -> mg <= last_group_id c).
  { intros dev c [Heq|Hc]%Hlive%elem_of_cons; apply min_list_lb, elem_of_cons;
      [left; congruence|]. right. apply list_elem_of_fmap. by exists (dev, c). }
  assert (Hsome : exists dev, is_Some (queue_cursors d1 !! (uin, dev))).
  { exists dev0, c0. apply Hlive, elem_of_cons. by left. }
  assert (Hc : forall k, queue_cursors d1 !! k =
    match queue_cursors d !! k with
    | Some c => if decide (k.1 = uin) then
                  if drop_cursor now (newest_stamp (cursors_of uin d)) c then None else Some c
                else Some c
    | None => None end) by apply reap_cursor_lookup.
  destruct (0 <? md) eqn:E1, (0 <? mg) eqn:E2; split; simpl; try exact Hc; try tauto;
    try (intros r; rewrite list_elem_of_filter; tauto);
    intros r Hr; rewrite list_elem_of_filter.
  - destruct (decide (om_to_uin r = uin /\ om_id r <= md)) as [[Hu Hi]|]; [right|by left].
    split_and!; [done|done|]. intros dev c Hdc%Hmd. lia.
  - destruct (decide (og_to_uin r = uin /\ og_id r <= mg)) as [[Hu Hi]|]; [right|by left].
    split_and!; [done|done|]. intros dev c Hdc%Hmg. lia.
  - destruct (decide (om_to_uin r = uin /\ om_id r <= md)) as [[Hu Hi]|]; [right|by left].
    split_and!; [done|done|]. intros dev c Hdc%Hmd. lia.
  - destruct (decide (og_to_uin r = uin /\ og_id r <= mg)) as [[Hu Hi]|]; [right|by left].
    split_and!; [done|done|]. intros dev c Hdc%Hmg. lia.
Qed.

(** ** What a fetch answers *)

(** A device that has a cursor is answered exactly the rows above it that it
    may be handed, ordered by arrival, and an acknowledging fetch changes
    nothing. *)
Lemma fetch_with_cursor now dev uin device_id c d :
  queue_cursors d !! (uin, device_id) = Some c ->
  fetch_queue_tx now true dev uin device_id d =
  (history (queue_rows_direct d uin (last_direct_id c) dev)
           (queue_rows_group d uin (last_group_id c)), d).
Proof. intros Hc. unfold fetch_queue_tx, drain_floor. by rewrite Hc. Qed.

Lemma elem_of_history rd rg h :
  h ∈ history rd rg <->
  (exists r, r ∈ rd /\ h = history_of_direct r) \/ (exists r, r ∈ rg /\ h = history_of_group r).
Proof.
  unfold history. rewrite elem_of_sort_by, elem_of_app, !list_elem_of_fmap. naive_solver.
Qed.

Lemma elem_of_queue_rows_direct d uin base dev r :
  r ∈ queue_rows_direct d uin base dev <-> r ∈ pending_rows d uin base (Some dev).
Proof. apply elem_of_sort_by. Qed.

(** A cursor stamped now is never dropped. *)
Lemma fresh_not_dropped now newest c : qc_updated_at c = Some now -> drop_cursor now newest c = false.
Proof.
  unfold drop_cursor. intros ->.
  assert (0 < days STALE_CURSOR_DAYS /\ 0 < days SUPERSEDED_CURSOR_DAYS) as [? ?] by done.
  destruct (Z.ltb_spec now (now - days STALE_CURSOR_DAYS)); [lia|].
  destruct (Z.ltb_spec now (now - days SUPERSEDED_CURSOR_DAYS)); [lia|]. apply andb_false_r.
Qed.

(** What an advance leaves behind for the device itself. *)
Lemma advance_cursor_own now uin dev md mg oc d c :
  queue_cursors d !! (uin, dev) = Some c -> oc = None \/ oc = Some c ->
  queue_cursors (advance_cursor now uin dev md mg oc d).2 !! (uin, dev) =
  Some (mkQueueCursor (Z.max (last_direct_id c) md) (Z.max (last_group_id c) mg) (Some now)).
Proof.
  intros Hc Hoc. unfold advance_cursor.
  assert ((match oc with Some c0 => Some c0 | None => queue_cursors d !! (uin, dev) end) = Some c) as ->
    by (destruct Hoc; subst; done).
  unfold upsert_cursor. rewrite Hc.
  set (c' := mkQueueCursor _ _ _). set (d1 := set_queue_cursors _ d).
  rewrite (reap_cursors _ _ _ _ (reap_below_min_spec now uin d1)). subst d1; simpl.
  rewrite lookup_insert_eq. rewrite decide_True by done. by rewrite fresh_not_dropped.
Qed.

(** An acknowledgement leaves the device at the marks it computed, known device
    or not. *)
Lemma advance_from_floor now uin dev md mg d bd bg oc :
  drain_floor d uin dev = (bd, bg, oc) -> bd <= md -> bg <= mg ->
  queue_cursors (advance_cursor now uin dev md mg oc d).2 !! (uin, dev) = Some (mkQueueCursor md mg (Some now)).
Proof.
  unfold drain_floor. destruct (queue_cursors d !! (uin, dev)) as [c|] eqn:Hc.
  - intros [= <- <- <-] Hd Hg. rewrite (advance_cursor_own _ _ _ _ _ _ _ c Hc (or_intror eq_refl)). repeat f_equal; lia.
  - destruct (account_watermark d uin) as [wd wg] eqn:Ew. intros [= <- <- <-] Hd Hg. unfold advance_cursor. rewrite Hc, Ew.
    unfold upsert_cursor. rewrite Hc. set (c' := mkQueueCursor _ _ _). set (d1 := set_queue_cursors _ d).
    rewrite (reap_cursors _ _ _ _ (reap_below_min_spec now uin d1)). subst d1; simpl.
    rewrite lookup_insert_eq, decide_True, fresh_not_dropped by done. unfold c'. repeat f_equal; lia.
Qed.

(** The rows of other accounts, and the rows above a surviving cursor, are not
    touched by an advance. *)
Lemma advance_cursor_rows now uin dev md mg oc d (d' := (advance_cursor now uin dev md mg oc d).2) :
  (forall r, r ∈ offline_messages d -> r ∈ offline_messages d' \/
     (om_to_uin r = uin /\ forall dv c, queue_cursors d' !! (uin, dv) = Some c -> om_id r <= last_direct_id c)) /\
  (forall r, r ∈ offline_group_messages d -> r ∈ offline_group_messages d' \/
     (og_to_uin r = uin /\ forall dv c, queue_cursors d' !! (uin, dv) = Some c -> og_id r <= last_group_id c)).
Proof.
  subst d'. unfold advance_cursor.
  destruct (match match oc with Some c => Some c | None => _ end with Some _ => _ | None => _ end)
    as [sd sg].
  destruct (upsert_cursor_db now uin dev md mg sd sg d) as (c & Hd & _).
  destruct (upsert_cursor now uin dev md mg sd sg d) as [marks d1]. simpl in Hd. subst d1.
  pose proof (reap_below_min_spec now uin (set_queue_cursors <[(uin, dev):=c]> d)) as Hspec. split; intros r Hr.
  - destruct (reap_direct _ _ _ _ Hspec r) as [?|(? & _ & ?)]; tauto.
  - destruct (reap_group _ _ _ _ Hspec r) as [?|(? & _ & ?)]; tauto.
Qed.

(** [m] is the end of the contiguous acknowledged prefix of the rows of [uin]
    above [base]: [base] itself or the id of an acknowledged row, with every row
    up to it acknowledged, and no row past it reached through acknowledged rows
    only. *)
Record prefix_end (R : Type) `{QueueModel R} (d : db) (uin base : Z) (acked : list Z) (dev : option Z) (m : Z) : Prop := mkPrefixEnd {
  pe_back : base <= m;
  pe_row : m = base \/ exists r : R, r ∈ pending_rows d uin base dev /\ row_id r = m /\ m ∈ acked;
  pe_acked : forall r : R, r ∈ pending_rows d uin base dev -> row_id r <= m -> row_id r ∈ acked;
  pe_far : forall r : R, r ∈ pending_rows d uin base dev ->
    (forall r' : R, r' ∈ pending_rows d uin base dev -> row_id r' <= row_id r -> row_id r' ∈ acked) -> row_id r <= m
}.

Lemma acked_prefix_end (R : Type) `{QueueModel R} d uin base acked dev :
  prefix_end R d uin base acked dev (acked_prefix R d uin base acked dev).
Proof. destruct (acked_prefix_props (R := R) d uin base acked dev) as (H1 & H2 & H3 & H4). by split. Qed.

(** There is one such mark. *)
Lemma prefix_end_unique (R : Type) `{QueueModel R} d uin base acked dev m m' :
  prefix_end R d uin base acked dev m -> prefix_end R d uin base acked dev m' -> m = m'.
Proof.
  assert (H1 : forall m m', prefix_end R d uin base acked dev m -> prefix_end R d uin base acked dev m' -> m <= m').
  { intros x y [_ Hrow Hack _] [Hb _ _ Hfar]. destruct Hrow as [->|(r & Hr & <- & _)]; [done|].
    apply Hfar; [done|]. intros r' Hr' Hle. by apply Hack. }
  intros H2 H3. apply Z.le_antisymm; by apply H1.
Qed.

(** C12. What an acknowledgement does, whether the island knows the device or
    not.  On both axes the device's mark becomes the end of the contiguous
    acknowledged prefix of what it is handed above its floor (its own mark, or
    the account's watermark when it has none): never backwards, over no row the
    client did not acknowledge, as far as the prefix goes and no further.  A
    queued row, direct or of a room, goes only if it is the caller's and every
    remaining cursor of the account has passed it. *)
Theorem ack_queue_spec (now : Z) (body : AckIn) (dev uin : Z) (device_id : string) (d : db) :
  let d' := (ack_queue now body dev uin device_id d).2 in
  let '(base_direct, base_group, _) := drain_floor d uin device_id in
  (exists c', queue_cursors d' !! (uin, device_id) = Some c'
    /\ prefix_end OfflineMessage d uin base_direct (direct_ids body) (Some dev) (last_direct_id c')
    /\ prefix_end OfflineGroupMessage d uin base_group (group_ids body) None (last_group_id c'))
  /\ (forall r, r ∈ offline_messages d -> r ∈ offline_messages d' \/
        (om_to_uin r = uin /\ forall dv c, queue_cursors d' !! (uin, dv) = Some c -> om_id r <= last_direct_id c))
  /\ (forall r, r ∈ offline_group_messages d -> r ∈ offline_group_messages d' \/
        (og_to_uin r = uin /\ forall dv c, queue_cursors d' !! (uin, dv) = Some c -> og_id r <= last_group_id c)).
Proof.
  cbn zeta. unfold ack_queue. destruct (drain_floor d uin device_id) as [[bd bg] oc] eqn:Hf.
  pose proof (acked_prefix_end OfflineMessage d uin bd (direct_ids body) (Some dev)) as Hd.
  pose proof (acked_prefix_end OfflineGroupMessage d uin bg (group_ids body) None) as Hg.
  split; [|apply advance_cursor_rows].
  eexists. split; [eapply advance_from_floor; [exact Hf|by apply pe_back in Hd|by apply pe_back in Hg]|by split].
Qed.

Definition demo_rows : list OfflineMessage :=
  map (fun i => mkOfflineMessage i 7 "message" "ct" (100 - i) (Some 1) (Some i)
                  (if i =? 3 then Some 2 else None)) [1; 2; 3; 4; 5].
Definition demo_queue : db :=
  set_queue_cursors <[(7, "a"%string) := mkQueueCursor 1 0 (Some 0)]>
    (set_offline_messages (fun _ => demo_rows) empty_db).

Lemma ack_queue_spec_witness :
  exists c', queue_cursors (ack_queue 0 (mkAckIn [2; 4] []) 1 7 "a" demo_queue).2 !! (7, "a"%string) = Some c' /\
    prefix_end OfflineMessage demo_queue 7 1 [2; 4] (Some 1) (last_direct_id c') /\ last_direct_id c' = 4.
Proof.
  destruct (ack_queue_spec 0 (mkAckIn [2; 4] []) 1 7 "a" demo_queue) as [(c' & Hc' & Hd & _) _].
  exists c'. split; [exact Hc'|]. split; [exact Hd|]. vm_compute in Hc'. by injection Hc' as <-.
Defined.

(** A device nobody has seen acknowledges: its mark starts at the watermark. *)
Example ack_of_new_device :
  queue_cursors (ack_queue 0 (mkAckIn [2; 5] []) 2 7 "b" demo_queue).2 !! (7, "b"%string) = Some (mkQueueCursor 2 0 (Some 0)).
Proof. vm_compute. reflexivity. Qed.

(** overlapping upserts of one device settle on the same marks in either
    order: both acknowledgements are applied, and none moves a mark back. *)
Theorem upsert_cursor_commutes (uin : Z) (device_id : string) (d : db)
    (now1 now2 d1 g1 d2 g2 sd sg : Z) :
  let a := upsert_cursor now2 uin device_id d2 g2 sd sg
             (upsert_cursor now1 uin device_id d1 g1 sd sg d).2 in
  let b := upsert_cursor now1 uin device_id d1 g1 sd sg
             (upsert_cursor now2 uin device_id d2 g2 sd sg d).2 in
  a.1 = b.1 /\ d1 <= a.1.1 /\ d2 <= a.1.1 /\ g1 <= a.1.2 /\ g2 <= a.1.2
  /\ (forall c, queue_cursors d !! (uin, device_id) = Some c ->
        last_direct_id c <= a.1.1 /\ last_group_id c <= a.1.2).
Proof.
  unfold upsert_cursor. simpl. rewrite !lookup_insert_eq. simpl.
  destruct (queue_cursors d !! (uin, device_id)) as [c|]; simpl;
    (split_and!; [f_equal; lia|lia|lia|lia|lia|]); naive_solver lia.
Qed.

(** a device the island has never seen starts at the account's watermark.
    Its first fetch pins a cursor at the furthest mark of its siblings and
    answers only direct rows above every sibling's mark; the siblings'
    cursors and the queue are left as they were. *)
Theorem fetch_queue_new_device (now dev uin : Z) (device_id : string) (d : db)
    (Hnew : queue_cursors d !! (uin, device_id) = None) :
  let res := fetch_queue_tx now true dev uin device_id d in
  (forall h, h ∈ res.1 -> h_group_id h = None ->
     forall dv c, queue_cursors d !! (uin, dv) = Some c -> last_direct_id c < h_id h)
  /\ (exists c, queue_cursors res.2 !! (uin, device_id) = Some c
        /\ last_direct_id c = Z.max 0 (account_watermark d uin).1
        /\ last_group_id c = Z.max 0 (account_watermark d uin).2)
  /\ (forall k, k <> (uin, device_id) -> queue_cursors res.2 !! k = queue_cursors d !! k)
  /\ offline_messages res.2 = offline_messages d
  /\ offline_group_messages res.2 = offline_group_messages d.
Proof.
  unfold fetch_queue_tx, drain_floor. rewrite Hnew.
  destruct (account_watermark d uin) as [wd wg] eqn:Ew.
  unfold upsert_cursor. rewrite Hnew. simpl. split_and!; try done.
  - intros h [(r & Hr & ->)|(r & Hr & ->)]%elem_of_history Hg dv c Hc; [|done].
    rewrite elem_of_queue_rows_direct, elem_of_pending_rows in Hr. destruct Hr as (_ & _ & Hlt & _).
    pose proof (watermark_ub d uin dv c Hc) as [Hub _]. rewrite Ew in Hub. simpl in *. lia.
  - rewrite lookup_insert_eq. eexists. split; [reflexivity|done].
  - intros k Hk. by rewrite lookup_insert_ne.
Qed.

Lemma fetch_queue_new_device_witness :
  (exists c, queue_cursors (fetch_queue_tx 5 true 1 7 "b" demo_queue).2 !! (7, "b"%string) = Some c
     /\ last_direct_id c = 1)
  /\ map h_id (fetch_queue_tx 5 true 1 7 "b" demo_queue).1 = [5; 4; 2].
Proof.
  destruct (fetch_queue_new_device 5 1 7 "b" demo_queue) as (_ & (c & Hc & Hd & _) & _); [reflexivity|].
  split; [|reflexivity]. exists c. split; [exact Hc|]. rewrite Hd. reflexivity.
Defined.

Lemma newest_stamp_spec cs n :
  newest_stamp cs = Some n ->
  (exists dev c, (dev, c) ∈ cs /\ qc_updated_at c = Some n)
  /\ (forall dev c t, (dev, c) ∈ cs -> qc_updated_at c = Some t -> t <= n).
Proof.
  unfold newest_stamp. destruct (omap _ cs) as [|t ts] eqn:E; [done|]. intros [= <-]. split.
  - pose proof (foldl_max_in ts t) as Hin. rewrite <-E in Hin.
    apply list_elem_of_omap in Hin as ([dev c] & Hin & Hc). by exists dev, c.
  - intros dev c u Hin Hu. apply foldl_max_ub. rewrite <-E. apply list_elem_of_omap.
    by exists (dev, c).
Qed.

(** the drop rule never leaves a read account without a cursor.  If some
    cursor of the account was touched within the last thirty days (or predates
    the stamp), a reap leaves the account a cursor; and it deletes a queued
    direct row only when every cursor it leaves is at or past that row. *)
Theorem reap_keeps_a_reader (now uin : Z) (d : db) (dev : string) (c : QueueCursor)
    (Hc : queue_cursors d !! (uin, dev) = Some c)
    (Hlive : forall t, qc_updated_at c = Some t -> now - days STALE_CURSOR_DAYS <= t) :
  let d' := (reap_below_min now uin d).2 in
  (exists dv, is_Some (queue_cursors d' !! (uin, dv)))
  /\ (forall r, r ∈ offline_messages d -> r ∉ offline_messages d' ->
        om_to_uin r = uin /\ forall dv c0, queue_cursors d' !! (uin, dv) = Some c0 ->
          om_id r <= last_direct_id c0).
Proof.
  pose proof (reap_below_min_spec now uin d) as Hr. split.
  - assert (Hkeep : exists dv c0, queue_cursors d !! (uin, dv) = Some c0 /\
              drop_cursor now (newest_stamp (cursors_of uin d)) c0 = false).
    { destruct (qc_updated_at c) as [t|] eqn:Ht.
      - destruct (newest_stamp (cursors_of uin d)) as [n|] eqn:En.
        + destruct (newest_stamp_spec _ _ En) as [(dv & c0 & Hin & Hn) Hmax].
          exists dv, c0. rewrite <-elem_of_cursors_of. split; [done|]. unfold drop_cursor.
          rewrite Hn. apply elem_of_cursors_of in Hc. specialize (Hmax _ _ _ Hc Ht).
          specialize (Hlive t eq_refl). case_cond; breflect; [lia|].
          apply andb_false_iff. destruct (Z.ltb_spec n (now - days SUPERSEDED_CURSOR_DAYS)); [left|by right].
          apply Z.leb_gt. lia.
        + exists dev, c. split; [done|]. unfold drop_cursor. rewrite Ht.
          specialize (Hlive t eq_refl). case_cond; breflect; [lia|done].
      - exists dev, c. split; [done|]. unfold drop_cursor. by rewrite Ht. }
    destruct Hkeep as (dv & c0 & Hd & Hdrop). exists dv, c0.
    rewrite (reap_cursors _ _ _ _ Hr), Hd. simpl. by rewrite decide_True, Hdrop.
  - intros r Hin Hout. destruct (reap_direct _ _ _ _ Hr r Hin) as [?|(? & _ & ?)]; [done|auto].
Qed.

Lemma reap_keeps_a_reader_witness :
  exists dv, is_Some (queue_cursors (reap_below_min (days 8) 7 demo_queue).2 !! (7, dv)).
Proof.
  apply (reap_keeps_a_reader (days 8) 7 demo_queue "a" (mkQueueCursor 1 0 (Some 0))).
  - reflexivity.
  - intros t [= <-]. vm_compute. discriminate.
Defined.
