(* ===== verification/QueueProtocol.v ===== *)
(** * The drain protocol under interleaving

    The handlers of [QueueDrain] run concurrently: overlapping requests of one
    device, of its siblings, and deposits.  Here a request is a sequence of
    database statements, and [step] interleaves the statements of any number
    of requests.  The ghost components of the state record what was deposited,
    what each device acknowledged (or was handed by a legacy drain), the
    highest floor each device was based at while it had no cursor, and where
    the mailbox stood when a device's cursor row was created.

    The main theorem: once a device has a cursor, an envelope deposited later
    and addressed to it is either acknowledged by that device or still in the
    table above its cursor, so the next drain returns it. *)

From stdpp Require Import base list sorting gmap strings.
From Stdlib Require Import ZArith Lia.
From S2P Require Import Prelude Storage Envelope QueueDrain.

Notation key := (Z * string)%type.

(** What a request still has to do. *)
Inductive inflight :=
  | PinWrite (k : key) (seed_d seed_g : Z)
      (* fetch: no cursor was found, the floor is about to be pinned *)
  | LegacySelect (k : key) (after_d after_g : Z) (had_cursor : bool)
      (* drain-on-fetch: about to read the rows it returns *)
  | AdvReread (k : key) (max_d max_g : Z)
      (* _advance_cursor with no cursor in hand: about to look again *)
  | AdvWrite (k : key) (max_d max_g seed_d seed_g : Z)
      (* _advance_cursor: about to upsert *)
  | ReapNow (uin : Z).
      (* _advance_cursor: about to reap *)

Record sys := mkSys {
  sdb : db;
  pend : list inflight;
  sent : list OfflineMessage;           (* ghost: every row ever deposited *)
  swept : list OfflineMessage;          (* ghost: rows taken by the TTL sweep *)
  acks : gset (key * Z);                (* ghost: direct ids acked by / handed to a device *)
  floors : gmap key Z;                  (* ghost: highest floor read without a cursor *)
  born : gmap key Z                     (* ghost: next id when the cursor row was created *)
}.

Section protocol.
(** The libsignal device id each install drains with. *)
Context (dev_of : string -> Z).

Definition floor (s : sys) (k : key) : Z := default 0 (floors s !! k).

(** A row this device is ever handed. *)
Definition mine (k : key) (r : OfflineMessage) : Prop :=
  om_to_uin r = k.1 /\ for_device (Some (dev_of k.2)) r = true.

Definition lift (k : key) (v : Z) (m : gmap key Z) : gmap key Z :=
  <[k := Z.max (default 0 (m !! k)) v]> m.

(** The ghost effect of an upsert: a row that did not exist is born now. *)
Definition birth (k : key) (s : sys) : gmap key Z :=
  match queue_cursors (sdb s) !! k with
  | Some _ => born s
  | None => <[k := next_direct_id (sdb s)]> (born s)
  end.

Inductive step : sys -> sys -> Prop :=
(** A deposit: the row takes the next id ([send_sealed] holds the mailbox's
    sequence row until it commits, so ids become visible in order). *)
| step_deposit s mk :
    om_id (mk (next_direct_id (sdb s))) = next_direct_id (sdb s) ->
    step s (mkSys (insert_offline_message mk (sdb s)) (pend s)
              (sent s ++ [mk (next_direct_id (sdb s))]) (swept s) (acks s) (floors s) (born s))
(** [GET /messages/queue] by a device with no cursor: the floor is read. *)
| step_fetch_floor s uin dev wd wg :
    queue_cursors (sdb s) !! (uin, dev) = None ->
    account_watermark (sdb s) uin = (wd, wg) ->
    step s (mkSys (sdb s) (PinWrite (uin, dev) wd wg :: pend s) (sent s) (swept s) (acks s)
              (lift (uin, dev) wd (floors s)) (born s))
(** ... and pinned; a legacy client goes on to drain above it. *)
| step_pin_write s l1 l2 k sd sg now ad ag d' (legacy : bool) :
    pend s = l1 ++ PinWrite k sd sg :: l2 ->
    upsert_cursor now k.1 k.2 0 0 sd sg (sdb s) = ((ad, ag), d') ->
    step s (mkSys d' (l1 ++ (if legacy then [LegacySelect k ad ag false] else []) ++ l2)
              (sent s) (swept s) (acks s) (floors s) (birth k s))
(** A legacy drain by a device that has a cursor. *)
| step_legacy_floor s k c :
    queue_cursors (sdb s) !! k = Some c ->
    step s (mkSys (sdb s) (LegacySelect k (last_direct_id c) (last_group_id c) true :: pend s)
              (sent s) (swept s) (acks s) (floors s) (born s))
(** The legacy drain reads its rows: they count as handed over. *)
| step_legacy_select s l1 l2 k ad ag had rd rg md mg :
    pend s = l1 ++ LegacySelect k ad ag had :: l2 ->
    rd = queue_rows_direct (sdb s) k.1 ad (dev_of k.2) ->
    rg = queue_rows_group (sdb s) k.1 ag ->
    md = max_default ad (map om_id rd) -> mg = max_default ag (map og_id rg) ->
    step s (mkSys (sdb s)
              (l1 ++ (if had then AdvWrite k md mg 0 0 else AdvReread k md mg) :: l2)
              (sent s) (swept s) (acks s ∪ list_to_set (map (fun r => (k, om_id r)) rd))
              (floors s) (born s))
(** [POST /messages/queue/ack] by a device with a cursor. *)
| step_ack_read s k c body md mg :
    queue_cursors (sdb s) !! k = Some c ->
    md = acked_prefix OfflineMessage (sdb s) k.1 (last_direct_id c) (direct_ids body)
           (Some (dev_of k.2)) ->
    mg = acked_prefix OfflineGroupMessage (sdb s) k.1 (last_group_id c) (group_ids body) None ->
    step s (mkSys (sdb s) (AdvWrite k md mg 0 0 :: pend s) (sent s) (swept s)
              (acks s ∪ list_to_set (map (fun i => (k, i)) (direct_ids body)))
              (floors s) (born s))
(** ... and by one without. *)
| step_ack_read_fresh s k wd wg body md mg :
    queue_cursors (sdb s) !! k = None ->
    account_watermark (sdb s) k.1 = (wd, wg) ->
    md = acked_prefix OfflineMessage (sdb s) k.1 wd (direct_ids body) (Some (dev_of k.2)) ->
    mg = acked_prefix OfflineGroupMessage (sdb s) k.1 wg (group_ids body) None ->
    step s (mkSys (sdb s) (AdvReread k md mg :: pend s) (sent s) (swept s)
              (acks s ∪ list_to_set (map (fun i => (k, i)) (direct_ids body)))
              (lift k wd (floors s)) (born s))
(** [_advance_cursor] looks again: a sibling request may have created the row. *)
| step_reread_some s l1 l2 k md mg c :
    pend s = l1 ++ AdvReread k md mg :: l2 ->
    queue_cursors (sdb s) !! k = Some c ->
    step s (mkSys (sdb s) (l1 ++ AdvWrite k md mg 0 0 :: l2) (sent s) (swept s) (acks s)
              (floors s) (born s))
| step_reread_none s l1 l2 k md mg wd wg :
    pend s = l1 ++ AdvReread k md mg :: l2 ->
    queue_cursors (sdb s) !! k = None ->
    account_watermark (sdb s) k.1 = (wd, wg) ->
    step s (mkSys (sdb s) (l1 ++ AdvWrite k md mg wd wg :: l2) (sent s) (swept s) (acks s)
              (lift k wd (floors s)) (born s))
(** The upsert, by whoever gets there first. *)
| step_adv_write s l1 l2 k md mg sd sg now marks d' :
    pend s = l1 ++ AdvWrite k md mg sd sg :: l2 ->
    upsert_cursor now k.1 k.2 md mg sd sg (sdb s) = (marks, d') ->
    step s (mkSys d' (l1 ++ ReapNow k.1 :: l2) (sent s) (swept s) (acks s) (floors s) (birth k s))
| step_reap s l1 l2 uin now n d' :
    pend s = l1 ++ ReapNow uin :: l2 ->
    reap_below_min now uin (sdb s) = (n, d') ->
    step s (mkSys d' (l1 ++ l2) (sent s) (swept s) (acks s) (floors s) (born s))
(** A request dies between two statements. *)
| step_abort s l1 l2 q :
    pend s = l1 ++ q :: l2 ->
    step s (mkSys (sdb s) (l1 ++ l2) (sent s) (swept s) (acks s) (floors s) (born s))
(** A device is unlinked. *)
| step_unlink s k :
    step s (mkSys (set_queue_cursors (delete k) (sdb s)) (pend s) (sent s) (swept s) (acks s)
              (floors s) (born s))
(** The TTL sweep. *)
| step_sweep s cutoff :
    step s (mkSys (set_offline_messages (filter (fun r => ~ (om_received_at r < cutoff))) (sdb s))
              (pend s) (sent s)
              (swept s ++ filter (fun r => om_received_at r < cutoff) (offline_messages (sdb s)))
              (acks s) (floors s) (born s)).

Definition init : sys := mkSys empty_db [] [] [] ∅ ∅ ∅.

Definition reachable (s : sys) : Prop := rtc step init s.

(** ** The invariant *)

(** The row left the table before this device's cursor was created. *)
Definition predates (s : sys) (k : key) (r : OfflineMessage) : Prop :=
  r ∉ offline_messages (sdb s) /\
  forall c b, queue_cursors (sdb s) !! k = Some c -> born s !! k = Some b -> om_id r < b.

(** What may be said of a row the device no longer has to be handed. *)
Definition settled (s : sys) (k : key) (r : OfflineMessage) : Prop :=
  (k, om_id r) ∈ acks s \/ r ∈ swept s \/ predates s k r.

(** Every row of this device up to [q] and above its floor is settled. *)
Definition covered (s : sys) (k : key) (q : Z) : Prop :=
  q < next_direct_id (sdb s) /\
  forall r, r ∈ sent s -> mine k r -> floor s k < om_id r -> om_id r <= q -> settled s k r.

Definition pending_ok (s : sys) (q : inflight) : Prop :=
  match q with
  | PinWrite k sd _ => sd <= floor s k
  | LegacySelect k ad _ _ => covered s k ad
  | AdvReread k md _ => covered s k md
  | AdvWrite k md _ sd _ => covered s k md /\ sd <= floor s k
  | ReapNow _ => True
  end.

Record inv (s : sys) : Prop := {
  inv_next : 0 < next_direct_id (sdb s);
  inv_sent_lt r : r ∈ sent s -> 0 < om_id r < next_direct_id (sdb s);
  inv_table r : r ∈ offline_messages (sdb s) -> r ∈ sent s;
  inv_floor k : 0 <= floor s k < next_direct_id (sdb s);
  inv_cursor k c : queue_cursors (sdb s) !! k = Some c -> covered s k (last_direct_id c);
  inv_pend q : q ∈ pend s -> pending_ok s q;
  inv_born k c : queue_cursors (sdb s) !! k = Some c ->
    exists b, born s !! k = Some b /\ floor s k < b <= next_direct_id (sdb s);
  inv_kept k c b r : queue_cursors (sdb s) !! k = Some c -> born s !! k = Some b ->
    r ∈ sent s -> om_to_uin r = k.1 -> b <= om_id r -> last_direct_id c < om_id r ->
    r ∈ offline_messages (sdb s) \/ r ∈ swept s
}.

(** How the state may move: forward. *)
Record grows (s s' : sys) : Prop := {
  grow_next : next_direct_id (sdb s) <= next_direct_id (sdb s');
  grow_sent r : r ∈ sent s' -> r ∈ sent s \/ next_direct_id (sdb s) <= om_id r;
  grow_acks : acks s ⊆ acks s';
  grow_swept r : r ∈ swept s -> r ∈ swept s';
  grow_floor k : floor s k <= floor s' k;
  grow_predates k r : r ∈ sent s -> predates s k r -> predates s' k r
}.

Lemma settled_grows s s' k r : grows s s' -> r ∈ sent s -> settled s k r -> settled s' k r.
Proof.
  intros Hg Hr [H|[H|H]]; [left|right; left|right; right].
  - by apply (grow_acks _ _ Hg).
  - by apply (grow_swept _ _ Hg).
  - by apply (grow_predates _ _ Hg).
Qed.

Lemma covered_grows s s' k q : grows s s' -> covered s k q -> covered s' k q.
Proof.
  intros Hg [Hq Hc]. pose proof (grow_next _ _ Hg). split; [lia|].
  intros r Hr Hm Hlo Hle. destruct (grow_sent _ _ Hg r Hr) as [Hr'|]; [|lia].
  apply (settled_grows s); [done|done|]. apply Hc; [done|done| |done].
  pose proof (grow_floor _ _ Hg k). lia.
Qed.

Lemma pending_ok_grows s s' q : grows s s' -> pending_ok s q -> pending_ok s' q.
Proof.
  intros Hg. pose proof (grow_floor _ _ Hg) as Hf.
  destruct q as [k sd sg|k ad ag had|k md mg|k md mg sd sg|u]; simpl; try done.
  - specialize (Hf k). lia.
  - by apply covered_grows.
  - by apply covered_grows.
  - intros [Hc Hsd]. split; [by eapply covered_grows|]. specialize (Hf k). lia.
Qed.

(** Nothing above the floor is claimed up to the floor. *)
Lemma covered_floor s k q :
  floor s k < next_direct_id (sdb s) -> q <= floor s k -> covered s k q.
Proof. intros ? ?. split; [lia|]. intros r _ _ ? ?. lia. Qed.

Lemma covered_max s k q1 q2 : covered s k q1 -> covered s k q2 -> covered s k (Z.max q1 q2).
Proof. intros H1 H2. destruct (Z.max_spec q1 q2) as [[_ ->]|[_ ->]]; done. Qed.

(** Steps that only move the ghosts and the request pool. *)
Lemma inv_ghost s pend' acks' floors' :
  inv s -> acks s ⊆ acks' ->
  (forall k, floor s k <= default 0 (floors' !! k) < next_direct_id (sdb s)) ->
  (forall k c, queue_cursors (sdb s) !! k = Some c -> default 0 (floors' !! k) = floor s k) ->
  (forall q, q ∈ pend' -> q ∈ pend s \/
     pending_ok (mkSys (sdb s) pend' (sent s) (swept s) acks' floors' (born s)) q) ->
  inv (mkSys (sdb s) pend' (sent s) (swept s) acks' floors' (born s)).
Proof.
  intros [Hn Hlt Ht Hf Hc Hp Hb Hk] Ha Hfl Hsame Hq.
  set (s' := mkSys _ _ _ _ _ _ _) in *.
  assert (Hg : grows s s').
  { split; simpl; try done; [by left|]. intros k. apply Hfl. }
  split; simpl; try done.
  - intros k. pose proof (Hf k). pose proof (Hfl k). unfold floor at 1; simpl. unfold floor; simpl. lia.
  - intros k c Hkc. eapply covered_grows; [done|]. by apply Hc.
  - intros q [Hin|Hok]%Hq; [|done]. eapply pending_ok_grows; [done|]. by apply Hp.
  - intros k c Hkc. destruct (Hb k c Hkc) as (b & Hb1 & Hb2). exists b. split; [done|].
    unfold floor at 1; simpl. by rewrite (Hsame k c Hkc).
Qed.

(** A write of one cursor. *)
Lemma inv_upsert s k c pend' :
  inv s -> covered s k (last_direct_id c) ->
  (forall c0, queue_cursors (sdb s) !! k = Some c0 -> last_direct_id c0 <= last_direct_id c) ->
  (forall q, q ∈ pend' -> pending_ok s q) ->
  inv (mkSys (set_queue_cursors <[k := c]> (sdb s)) pend' (sent s) (swept s) (acks s)
         (floors s) (birth k s)).
Proof.
  intros [Hn Hlt Ht Hf Hc Hp Hb Hk] Hcov Hmono Hq.
  set (s' := mkSys _ _ _ _ _ _ _).
  assert (Hg : grows s s').
  { split; simpl; try done; [by left|]. intros k' r Hr [Ht' Hb']. split; [done|]. simpl.
    intros c' b. rewrite lookup_insert. unfold birth. case_decide as Hd; [subst|].
    - destruct (queue_cursors (sdb s) !! k') as [c0|] eqn:E; [intros _; by apply (Hb' c0)|].
      rewrite lookup_insert_eq. intros _ [= <-]. by apply Hlt.
    - destruct (queue_cursors (sdb s) !! k); [by apply Hb'|].
      rewrite lookup_insert_ne by done. by apply Hb'. }
  split; simpl; try done.
  - intros k' c'. rewrite lookup_insert. case_decide as Hd; [subst|].
    + intros [= <-]. by eapply covered_grows.
    + intros Hc'. eapply covered_grows; [done|]. by apply Hc.
  - intros q Hin. eapply pending_ok_grows; [done|]. by apply Hq.
  - intros k' c'. rewrite lookup_insert. unfold birth. case_decide as Hd; [subst|].
    + intros _. destruct (queue_cursors (sdb s) !! k') as [c0|] eqn:E; [by eapply Hb|].
      exists (next_direct_id (sdb s)). rewrite lookup_insert_eq. split; [done|].
      change (floor s' k') with (floor s k'). specialize (Hf k'). lia.
    + intros Hc'. destruct (Hb k' c' Hc') as (b & Hb1 & Hb2). exists b.
      destruct (queue_cursors (sdb s) !! k); [done|]. by rewrite lookup_insert_ne.
  - intros k' c' b r. rewrite lookup_insert. unfold birth. case_decide as Hd; [subst|].
    + intros [= <-]. destruct (queue_cursors (sdb s) !! k') as [c0|] eqn:E.
      * intros Hb' Hr Hu Hbr Hlr. apply (Hk k' c0 b r); try done.
        specialize (Hmono c0 eq_refl). lia.
      * rewrite lookup_insert_eq. intros [= <-] Hr _ ?. specialize (Hlt r Hr). lia.
    + intros Hc'. destruct (queue_cursors (sdb s) !! k);
        [|rewrite lookup_insert_ne by done]; intros; by eapply Hk.
Qed.

Lemma floor_lift s k v k' :
  default 0 (lift k v (floors s) !! k') =
  if decide (k = k') then Z.max (floor s k) v else floor s k'.
Proof.
  unfold lift, floor. rewrite lookup_insert. by case_decide; subst.
Qed.

(** The watermark of the direct axis is below the next id. *)
Lemma watermark_lt s uin wd wg :
  inv s -> account_watermark (sdb s) uin = (wd, wg) -> wd < next_direct_id (sdb s).
Proof.
  intros Hi Hw. destruct (watermark_direct_cases (sdb s) uin) as [H0|(dev & c & Hc & Hm)];
    rewrite Hw in *; simpl in *; subst.
  - by apply inv_next.
  - apply (inv_cursor _ Hi _ _ Hc).
Qed.

(** A row of this device that is no longer in the table is settled. *)
Lemma gone_settled s k r :
  inv s -> r ∈ sent s -> mine k r -> floor s k < om_id r ->
  r ∉ offline_messages (sdb s) -> settled s k r.
Proof.
  intros Hi Hr Hm Hf Ht. destruct (queue_cursors (sdb s) !! k) as [c|] eqn:Hc.
  - destruct (decide (om_id r <= last_direct_id c)).
    { by apply (inv_cursor _ Hi k c Hc). }
    destruct (inv_born _ Hi k c Hc) as (b & Hb & _).
    destruct (decide (om_id r < b)) as [Hlt|].
    { right; right. split; [done|]. intros c' b' _ Hb'. by simplify_eq. }
    right; left. destruct (inv_kept _ Hi k c b r); try done; [apply Hm|lia|lia].
  - right; right. split; [done|]. intros c b Hc'. congruence.
Qed.

(** Taking the rows above [base] extends what is covered. *)
Lemma covered_extend s s' k base q :
  inv s -> grows s s' -> covered s k base -> sent s' = sent s ->
  q < next_direct_id (sdb s') ->
  (forall r, r ∈ offline_messages (sdb s) -> mine k r -> base < om_id r -> om_id r <= q ->
     (k, om_id r) ∈ acks s') ->
  covered s' k q.
Proof.
  intros Hi Hg Hcov Hsent Hq Hack. split; [done|].
  intros r Hr Hm Hlo Hle. rewrite Hsent in Hr.
  pose proof (grow_floor _ _ Hg k) as Hfl.
  destruct (decide (om_id r <= base)).
  { apply (settled_grows s); [done|done|]. apply Hcov; [done|done|lia|done]. }
  destruct (decide (r ∈ offline_messages (sdb s))); [left; apply Hack; try done; lia|].
  apply (settled_grows s); [done|done|]. apply gone_settled; try done. lia.
Qed.

(** ** Preservation, statement by statement *)

(** The acknowledged prefix, as the ack handler computes it. *)
Lemma covered_ack s s' k base ids :
  inv s -> grows s s' -> covered s k base -> sent s' = sent s -> sdb s' = sdb s ->
  acks s' = acks s ∪ list_to_set (map (fun i => (k, i)) ids) ->
  covered s' k (acked_prefix OfflineMessage (sdb s) k.1 base ids (Some (dev_of k.2))).
Proof.
  intros Hi Hg Hcov Hsent Hdb Hacks.
  destruct (acked_prefix_props (R := OfflineMessage) (sdb s) k.1 base ids (Some (dev_of k.2)))
    as (_ & H2 & H3 & _).
  apply (covered_extend s _ k base); try done.
  - rewrite Hdb. destruct H3 as [->|(r & (Hr & _)%elem_of_pending_rows & <- & _)]; [apply Hcov|].
    by apply (inv_sent_lt _ Hi), (inv_table _ Hi).
  - intros r Hr [Hu Hd] Hlo Hle. rewrite Hacks. apply elem_of_union_r, elem_of_list_to_set.
    apply list_elem_of_fmap. exists (om_id r). split; [done|].
    apply H2; [|done]. by apply elem_of_pending_rows.
Qed.

(** The rows a legacy drain is handed. *)
Lemma covered_legacy s s' k ad :
  inv s -> grows s s' -> covered s k ad -> sent s' = sent s -> sdb s' = sdb s ->
  acks s' = acks s ∪ list_to_set (map (fun r => (k, om_id r))
              (queue_rows_direct (sdb s) k.1 ad (dev_of k.2))) ->
  covered s' k (max_default ad (map om_id (queue_rows_direct (sdb s) k.1 ad (dev_of k.2)))).
Proof.
  intros Hi Hg Hcov Hsent Hdb Hacks.
  apply (covered_extend s _ k ad); try done.
  - rewrite Hdb. destruct (queue_rows_direct (sdb s) k.1 ad (dev_of k.2)) as [|x l] eqn:E.
    { apply Hcov. }
    pose proof (max_default_in ad (map om_id (x :: l)) ltac:(done)) as Hin.
    apply list_elem_of_fmap in Hin as (r & Heq & Hr). rewrite Heq. rewrite <-E in Hr.
    unfold queue_rows_direct in Hr. rewrite elem_of_sort_by in Hr.
    apply elem_of_pending_rows in Hr as [Hr _].
    by apply (inv_sent_lt _ Hi), (inv_table _ Hi).
  - intros r Hr [Hu Hd] Hlo _. rewrite Hacks. apply elem_of_union_r, elem_of_list_to_set.
    apply list_elem_of_fmap. exists r. split; [done|].
    unfold queue_rows_direct. rewrite elem_of_sort_by. by apply elem_of_pending_rows.
Qed.

Lemma inv_deposit s mk :
  om_id (mk (next_direct_id (sdb s))) = next_direct_id (sdb s) -> inv s ->
  inv (mkSys (insert_offline_message mk (sdb s)) (pend s)
         (sent s ++ [mk (next_direct_id (sdb s))]) (swept s) (acks s) (floors s) (born s)).
Proof.
  intros Hmk Hi. pose proof Hi as [Hn Hlt Ht Hf Hc Hp Hb Hk].
  set (s' := mkSys _ _ _ _ _ _ _).
  assert (Hg : grows s s').
  { split; simpl; try done; [lia| |].
    - intros r [Hr|Hr]%elem_of_app; [by left|right]. apply list_elem_of_singleton in Hr. subst. lia.
    - intros k r Hr [Hnt Hbr]. split; [|done]. simpl. rewrite elem_of_app, list_elem_of_singleton.
      intros [?|Heq]; [done|]. specialize (Hlt _ Hr). rewrite Heq, Hmk in Hlt. lia. }
  split; simpl.
  - lia.
  - intros r [Hr|Hr]%elem_of_app; [specialize (Hlt r Hr); lia|].
    apply list_elem_of_singleton in Hr. subst. lia.
  - intros r. rewrite !elem_of_app. intros [?|?]; [left; by apply Ht|by right].
  - intros k. specialize (Hf k). change (floor s' k) with (floor s k). lia.
  - intros k c Hkc. by eapply covered_grows, Hc.
  - intros q Hq. by eapply pending_ok_grows, Hp.
  - intros k c Hkc. destruct (Hb k c Hkc) as (b & ? & ?). exists b. split; [done|].
    change (floor s' k) with (floor s k). lia.
  - intros k c b r Hkc Hbk Hr Hu Hbr Hlr. rewrite elem_of_app in *.
    destruct Hr as [Hr|Hr]; [destruct (Hk k c b r); tauto|tauto].
Qed.

Lemma inv_fewer_cursors s d' pend' swept' :
  inv s -> next_direct_id d' = next_direct_id (sdb s) ->
  (forall k c, queue_cursors d' !! k = Some c -> queue_cursors (sdb s) !! k = Some c) ->
  (forall r, r ∈ offline_messages d' -> r ∈ offline_messages (sdb s)) ->
  (forall r, r ∈ swept s -> r ∈ swept') ->
  (forall k c r, queue_cursors d' !! k = Some c -> om_to_uin r = k.1 ->
     r ∈ offline_messages (sdb s) -> last_direct_id c < om_id r ->
     r ∈ offline_messages d' \/ r ∈ swept') ->
  (forall q, q ∈ pend' -> q ∈ pend s) ->
  inv (mkSys d' pend' (sent s) swept' (acks s) (floors s) (born s)).
Proof.
  intros [Hn Hlt Ht Hf Hc Hp Hb Hk] Hnext Hcur Htab Hsw Hkeep Hpend.
  set (s' := mkSys _ _ _ _ _ _ _).
  assert (Hg : grows s s').
  { split; simpl; try done; [lia|by left|]. intros k r Hr [Hnt Hbr].
    split; simpl; [by intros ?%Htab|]. intros c b Hkc. by apply (Hbr c), Hcur. }
  split; simpl; rewrite ?Hnext; try done.
  - intros r Hr. by apply Ht, Htab.
  - intros k c Hkc. eapply covered_grows; [done|]. by apply Hc, Hcur.
  - intros q Hq. eapply pending_ok_grows; [done|]. by apply Hp, Hpend.
  - intros k c Hkc. by apply (Hb k c), Hcur.
  - intros k c b r Hkc Hbk Hr Hu Hbr Hlr.
    destruct (Hk k c b r) as [H|H]; try done; [by apply Hcur|by apply (Hkeep k c r)|right].
    by apply Hsw.
Qed.

(** Replacing one request of the pool by what it does next. *)
Lemma pool_cases (P : inflight -> Prop) l1 q l2 new :
  (forall x, x ∈ new -> P x) ->
  forall x, x ∈ l1 ++ new ++ l2 -> x ∈ l1 ++ q :: l2 \/ P x.
Proof. intros H x. rewrite !elem_of_app, elem_of_cons. naive_solver. Qed.

Lemma floor_le_lift s k v k' :
  inv s -> v < next_direct_id (sdb s) ->
  floor s k' <= default 0 (lift k v (floors s) !! k') < next_direct_id (sdb s).
Proof.
  intros Hi Hv. rewrite floor_lift. pose proof (inv_floor _ Hi k').
  case_decide; subst; lia.
Qed.

Lemma floor_same_lift s k v :
  queue_cursors (sdb s) !! k = None ->
  forall k' c, queue_cursors (sdb s) !! k' = Some c ->
  default 0 (lift k v (floors s) !! k') = floor s k'.
Proof. intros Hn k' c Hc. rewrite floor_lift. case_decide; [congruence|done]. Qed.

Lemma floor_refl s k : inv s -> floor s k <= default 0 (floors s !! k) < next_direct_id (sdb s).
Proof. intros Hi. pose proof (inv_floor _ Hi k) as H. unfold floor in *. lia. Qed.

Lemma grows_ghost s pend' acks' floors' :
  acks s ⊆ acks' -> (forall k, floor s k <= default 0 (floors' !! k)) ->
  grows s (mkSys (sdb s) pend' (sent s) (swept s) acks' floors' (born s)).
Proof. intros Ha Hf. split; simpl; try done. by left. Qed.

(** The upsert keeps the invariant, whoever wrote the row first. *)
Lemma inv_upsert_step s k md mg sd sg now marks d' pend' :
  inv s -> covered s k md -> sd <= floor s k ->
  upsert_cursor now k.1 k.2 md mg sd sg (sdb s) = (marks, d') ->
  (forall q, q ∈ pend' -> q ∈ pend s \/ pending_ok s q \/ exists mg', q = LegacySelect k marks.1 mg' false) ->
  inv (mkSys d' pend' (sent s) (swept s) (acks s) (floors s) (birth k s)).
Proof.
  intros Hi Hmd Hsd Hup Hq. destruct k as [u dv]; simpl in Hup.
  destruct (upsert_cursor_db now u dv md mg sd sg (sdb s)) as (c & Hd & Hm & _ & Hmark).
  rewrite Hup in Hd, Hm. simpl in Hd, Hm. subst d' marks.
  pose proof (inv_floor _ Hi (u, dv)) as Hfl.
  assert (Hcov : covered s (u, dv) (last_direct_id c)).
  { destruct (queue_cursors (sdb s) !! (u, dv)) as [c0|] eqn:E; destruct Hmark as [-> _].
    - apply covered_max; [|done]. by apply (inv_cursor _ Hi).
    - apply covered_max; [done|]. apply covered_floor; [lia|done]. }
  apply inv_upsert; [done|done| |].
  - intros c0 E. rewrite E in Hmark. destruct Hmark as [-> _]. lia.
  - intros q [Hin|[Hok|[mg' ->]]]%Hq; [by apply (inv_pend _ Hi)|done|exact Hcov].
Qed.

(** A reap deletes only what every cursor it leaves has passed. *)
Lemma inv_reap s l1 l2 uin now n d' :
  pend s = l1 ++ ReapNow uin :: l2 -> reap_below_min now uin (sdb s) = (n, d') -> inv s ->
  inv (mkSys d' (l1 ++ l2) (sent s) (swept s) (acks s) (floors s) (born s)).
Proof.
  intros H H0 Hi. pose proof (reap_below_min_spec now uin (sdb s)) as [Hc Hd Hds _ _ [Hn _]].
  rewrite H0 in *. simpl in *. apply inv_fewer_cursors; try done.
  - intros k c Hk. rewrite Hc in Hk. destruct (queue_cursors (sdb s) !! k) as [c0|]; [|done].
    case_decide; [|done]. by destruct (drop_cursor _ _ _).
  - intros [u dv] c r Hk Hu Hr Hlt. simpl in Hu. destruct (Hd r Hr) as [?|(Hu' & _ & Hall)]; [by left|].
    subst u. rewrite Hu' in Hk. specialize (Hall dv c Hk). lia.
  - intros q. rewrite H, !elem_of_app, elem_of_cons. tauto.
Qed.

(** A first ack reads above the watermark it is based at. *)
Lemma inv_ack_fresh s k wd wg body :
  queue_cursors (sdb s) !! k = None -> account_watermark (sdb s) k.1 = (wd, wg) -> inv s ->
  inv (mkSys (sdb s)
         (AdvReread k (acked_prefix OfflineMessage (sdb s) k.1 wd (direct_ids body) (Some (dev_of k.2)))
            (acked_prefix OfflineGroupMessage (sdb s) k.1 wg (group_ids body) None) :: pend s)
         (sent s) (swept s) (acks s ∪ list_to_set (map (fun i => (k, i)) (direct_ids body)))
         (lift k wd (floors s)) (born s)).
Proof.
  intros H H0 Hi. assert (wd < next_direct_id (sdb s)) by by eapply watermark_lt.
  apply inv_ghost; [done|set_solver|intros; by apply floor_le_lift|by apply floor_same_lift|].
  intros q [->|Hq]%elem_of_cons; [right|by left]. simpl.
  set (s1 := mkSys (sdb s) (pend s) (sent s) (swept s) (acks s) (lift k wd (floors s)) (born s)).
  assert (Hi1 : inv s1).
  { apply inv_ghost; [done|done|intros; by apply floor_le_lift|by apply floor_same_lift|by left]. }
  apply (covered_ack s1); try done.
  - split; simpl; try done; [by left|set_solver].
  - apply covered_floor; unfold floor; simpl; rewrite floor_lift, decide_True by done;
      [pose proof (inv_floor _ Hi k)|]; lia.
Qed.

(** A legacy drain hands over the rows it is about to move past. *)
Lemma inv_legacy_select s l1 l2 k ad ag (had : bool) :
  pend s = l1 ++ LegacySelect k ad ag had :: l2 -> inv s ->
  let rd := queue_rows_direct (sdb s) k.1 ad (dev_of k.2) in
  let md := max_default ad (map om_id rd) in
  let mg := max_default ag (map og_id (queue_rows_group (sdb s) k.1 ag)) in
  inv (mkSys (sdb s) (l1 ++ (if had then AdvWrite k md mg 0 0 else AdvReread k md mg) :: l2)
         (sent s) (swept s) (acks s ∪ list_to_set (map (fun r => (k, om_id r)) rd)) (floors s) (born s)).
Proof.
  intros H Hi. cbv zeta.
  assert (LegacySelect k ad ag had ∈ pend s) as Hin%(inv_pend _ Hi) by (rewrite H; set_solver).
  apply inv_ghost; [done|set_solver|intros; by apply floor_refl|done|]. rewrite H.
  apply (pool_cases _ l1 _ l2 [_]). intros x ->%list_elem_of_singleton.
  pose proof (covered_legacy s) as Hcl.
  destruct had; simpl; [split; [|apply (inv_floor _ Hi k)]|];
    (apply Hcl; try done; apply grows_ghost; [set_solver|done]).
Qed.

(** Looking again and still finding no row. *)
Lemma inv_reread_none s l1 l2 k md mg wd wg :
  pend s = l1 ++ AdvReread k md mg :: l2 -> account_watermark (sdb s) k.1 = (wd, wg) ->
  queue_cursors (sdb s) !! k = None -> inv s ->
  inv (mkSys (sdb s) (l1 ++ AdvWrite k md mg wd wg :: l2) (sent s) (swept s) (acks s)
         (lift k wd (floors s)) (born s)).
Proof.
  intros H H1 H0 Hi.
  assert (AdvReread k md mg ∈ pend s) as Hin%(inv_pend _ Hi) by (rewrite H; set_solver).
  assert (wd < next_direct_id (sdb s)) by by eapply watermark_lt.
  apply inv_ghost; [done|done|intros; by apply floor_le_lift|by apply floor_same_lift|]. rewrite H.
  apply (pool_cases _ l1 _ l2 [_]). intros x ->%list_elem_of_singleton. simpl. split.
  - eapply covered_grows; [|exact Hin]. apply grows_ghost; [done|].
    intros k'. by apply floor_le_lift.
  - unfold floor; simpl. rewrite floor_lift, decide_True by done. lia.
Qed.

Lemma step_inv s s' : step s s' -> inv s -> inv s'.
Proof.
  intros Hstep Hi. destruct Hstep.
  - by apply inv_deposit.
  - assert (wd < next_direct_id (sdb s)) by by eapply watermark_lt.
    apply inv_ghost; [done|done|intros; by apply floor_le_lift|by apply floor_same_lift|].
    intros q [->|Hq]%elem_of_cons; [right|by left]. simpl. unfold floor; simpl.
    rewrite floor_lift, decide_True by done. lia.
  - assert (0 <= floor s k) by apply (inv_floor _ Hi k).
    assert (PinWrite k sd sg ∈ pend s) as Hin%(inv_pend _ Hi) by (rewrite H; set_solver).
    eapply inv_upsert_step; [done| |exact Hin|done|].
    + apply covered_floor; [apply (inv_floor _ Hi k)|done].
    + intros q Hq. rewrite H. rewrite !elem_of_app in Hq. rewrite elem_of_app, elem_of_cons.
      destruct Hq as [?|[Hq|?]]; [tauto| |tauto]. destruct legacy; [|set_solver].
      apply list_elem_of_singleton in Hq as ->. right; right. by exists ag.
  - apply inv_ghost; [done|done|intros; by apply floor_refl|done|].
    intros q [->|Hq]%elem_of_cons; [right|by left]. simpl.
    eapply covered_grows; [by apply grows_ghost|]. by apply (inv_cursor _ Hi).
  - subst rd rg md mg. by eapply inv_legacy_select.
  - subst md mg. apply inv_ghost; [done|set_solver|intros; by apply floor_refl|done|].
    intros q [->|Hq]%elem_of_cons; [right|by left]. simpl.
    split; [|apply (inv_floor _ Hi k)].
    apply covered_ack; try done; [apply grows_ghost; [set_solver|done]|]. by apply (inv_cursor _ Hi).
  - subst md mg. by eapply inv_ack_fresh.
  - assert (AdvReread k md mg ∈ pend s) as Hin%(inv_pend _ Hi) by (rewrite H; set_solver).
    apply inv_ghost; [done|done|intros; by apply floor_refl|done|]. rewrite H.
    apply (pool_cases _ l1 _ l2 [_]). intros x ->%list_elem_of_singleton. simpl.
    split; [exact Hin|apply (inv_floor _ Hi k)].
  - by eapply inv_reread_none.
  - assert (AdvWrite k md mg sd sg ∈ pend s) as [Hin Hsd]%(inv_pend _ Hi) by (rewrite H; set_solver).
    eapply inv_upsert_step; [done|exact Hin|exact Hsd|done|].
    intros q Hq. rewrite H. rewrite elem_of_app, elem_of_cons in *.
    destruct Hq as [?|[->|?]]; [tauto|right; by left|tauto].
  - by eapply inv_reap.
  - apply inv_ghost; [done|done|intros; by apply floor_refl|done|].
    intros x. rewrite H, !elem_of_app, elem_of_cons. tauto.
  - apply inv_fewer_cursors; simpl; try done; [|by left].
    intros k' c. rewrite lookup_delete. by case_decide.
  - apply inv_fewer_cursors; simpl; try done.
    + intros r. rewrite list_elem_of_filter. tauto.
    + intros r. rewrite elem_of_app. tauto.
    + intros k c r _ _ Hr _. rewrite elem_of_app, !list_elem_of_filter.
      destruct (decide (om_received_at r < cutoff)); tauto.
Qed.

Lemma init_inv : inv init.
Proof.
  split; simpl; try done; try set_solver; try lia.
Qed.

Lemma reachable_inv s : reachable s -> inv s.
Proof. intros H. unfold reachable in H. revert H. apply (rtc_ind_r inv).
  - apply init_inv.
  - intros y z _ Hstep. by apply step_inv.
Qed.

(** C1. no envelope is lost to a device.  In every state reachable by any
    interleaving of deposits, fetches, legacy drains, acknowledgements,
    reaps, unlinks and sweeps, take a device that has a cursor and an
    envelope deposited to its account after that cursor was created and
    addressed to it.  Either the device has acknowledged it (or a legacy
    drain handed it over), or the TTL sweep took it, or the device's next
    fetch returns it. *)
Theorem no_message_lost (s : sys) (k : key) (c : QueueCursor) (b : Z) (r : OfflineMessage)
    (Hreach : reachable s)
    (Hcursor : queue_cursors (sdb s) !! k = Some c)
    (Hborn : born s !! k = Some b)
    (Hsent : r ∈ sent s) (Hmine : mine k r) (Hafter : b <= om_id r) :
  (k, om_id r) ∈ acks s \/ r ∈ swept s \/
  forall now, history_of_direct r ∈ (fetch_queue_tx now true (dev_of k.2) k.1 k.2 (sdb s)).1.
Proof.
  apply reachable_inv in Hreach as Hi.
  destruct (inv_born _ Hi k c Hcursor) as (b' & Hb' & Hfl & _). simplify_eq.
  destruct (decide (om_id r <= last_direct_id c)) as [Hle|Hgt].
  - destruct (inv_cursor _ Hi k c Hcursor) as [_ Hcov].
    destruct (Hcov r Hsent Hmine ltac:(lia) Hle) as [?|[?|[_ Hpre]]]; [tauto|tauto|].
    specialize (Hpre c b Hcursor Hborn). lia.
  - destruct (inv_kept _ Hi k c b r) as [Ht|Hs]; try done; [apply Hmine|lia| |tauto].
    right; right. intros now. destruct k as [u dv]. destruct Hmine as [Hu Hd]. simpl in *.
    rewrite (fetch_with_cursor _ _ _ _ c) by done. apply elem_of_history. left. exists r.
    split; [|done]. apply elem_of_queue_rows_direct, elem_of_pending_rows.
    split_and!; [done|done|simpl; lia|done].
Qed.

(** C2. a cursor never buries an unacknowledged envelope.  In every reachable
    state, an envelope of this device that is still in the table, lies above
    the floor the device was based at and at or below its cursor, has been
    acknowledged by that device. *)
Theorem cursor_never_buries (s : sys) (k : key) (c : QueueCursor) (r : OfflineMessage)
    (Hreach : reachable s)
    (Hcursor : queue_cursors (sdb s) !! k = Some c)
    (Htable : r ∈ offline_messages (sdb s)) (Hmine : mine k r)
    (Hfloor : floor s k < om_id r) (Hbelow : om_id r <= last_direct_id c) :
  (k, om_id r) ∈ acks s \/ r ∈ swept s.
Proof.
  apply reachable_inv in Hreach as Hi.
  destruct (inv_cursor _ Hi k c Hcursor) as [_ Hcov].
  destruct (Hcov r (inv_table _ Hi r Htable) Hmine Hfloor Hbelow) as [?|[?|[Hn _]]]; tauto.
Qed.
End protocol.

(** ** A run of the protocol

    Device "a" of account 7 fetches for the first time, an envelope arrives,
    the device acknowledges it, a second one arrives. *)

Definition demo_dev (_ : string) : Z := 1.
Definition demo_msg (i : Z) : OfflineMessage :=
  mkOfflineMessage i 7 "message" "ct" 100 (Some 1) (Some i) None.
Definition demo_key : key := (7, "a"%string).
Definition demo_now : Z := days 100.

Definition demo1 : sys :=
  mkSys empty_db [PinWrite demo_key 0 0] [] [] ∅ (lift demo_key 0 ∅) ∅.
Definition demo2 : sys :=
  mkSys (upsert_cursor demo_now 7 "a" 0 0 0 0 empty_db).2 [] [] [] ∅ (lift demo_key 0 ∅)
    (birth demo_key demo1).
Definition demo3 : sys :=
  mkSys (insert_offline_message demo_msg (sdb demo2)) [] [demo_msg 1] [] ∅ (lift demo_key 0 ∅)
    (birth demo_key demo1).
Definition demo4 : sys :=
  mkSys (sdb demo3)
    [AdvWrite demo_key (acked_prefix OfflineMessage (sdb demo3) 7 0 [1] (Some 1)) 0 0 0]
    [demo_msg 1] [] (∅ ∪ list_to_set [(demo_key, 1)]) (lift demo_key 0 ∅) (birth demo_key demo1).
Definition demo5 : sys :=
  mkSys (upsert_cursor demo_now 7 "a" 1 0 0 0 (sdb demo4)).2 [ReapNow 7] [demo_msg 1] []
    (∅ ∪ list_to_set [(demo_key, 1)]) (lift demo_key 0 ∅) (birth demo_key demo1).
Definition demo6 : sys :=
  mkSys (insert_offline_message demo_msg (sdb demo5)) [ReapNow 7] [demo_msg 1; demo_msg 2] []
    (∅ ∪ list_to_set [(demo_key, 1)]) (lift demo_key 0 ∅) (birth demo_key demo1).

Lemma demo_reachable : reachable demo_dev demo6.
Proof.
  unfold reachable.
  eapply rtc_l; [apply (step_fetch_floor demo_dev init 7 "a" 0 0); reflexivity|].
  eapply rtc_l; [eapply (step_pin_write demo_dev _ [] [] demo_key 0 0 demo_now 0 0 _ false); reflexivity|].
  eapply rtc_l; [apply (step_deposit demo_dev _ demo_msg); reflexivity|].
  eapply rtc_l; [eapply (step_ack_read demo_dev _ demo_key _ (mkAckIn [1] [])); reflexivity|].
  eapply rtc_l; [eapply (step_adv_write demo_dev _ [] [] demo_key _ _ _ _ demo_now); reflexivity|].
  eapply rtc_l; [apply (step_deposit demo_dev _ demo_msg); reflexivity|].
  match goal with |- rtc _ ?x ?y => replace x with y; [apply rtc_refl|reflexivity] end.
Qed.

Lemma no_message_lost_witness :
  (demo_key, 2) ∈ acks demo6 \/ demo_msg 2 ∈ swept demo6 \/
  forall now, history_of_direct (demo_msg 2) ∈
    (fetch_queue_tx now true (demo_dev "a") 7 "a" (sdb demo6)).1.
Proof.
  apply (no_message_lost demo_dev demo6 demo_key (mkQueueCursor 1 0 (Some demo_now)) 1 (demo_msg 2)).
  - exact demo_reachable.
  - reflexivity.
  - reflexivity.
  - simpl. rewrite !elem_of_cons. tauto.
  - by split.
  - simpl. lia.
Defined.

Lemma cursor_never_buries_witness : (demo_key, 1) ∈ acks demo6 \/ demo_msg 1 ∈ swept demo6.
Proof.
  apply (cursor_never_buries demo_dev demo6 demo_key (mkQueueCursor 1 0 (Some demo_now)) (demo_msg 1)).
  - exact demo_reachable.
  - reflexivity.
  - simpl. rewrite !elem_of_cons. tauto.
  - by split.
  - reflexivity.
  - simpl. lia.
Defined.

(** ** The group axis: rows of two rooms may become visible out of order

    A group post inserts its rows, and thereby takes their ids, some statements
    before it commits; two posts into different rooms hold no common lock.
    [begin_group_rows] is the insert of [insert_group_rows] without its
    visibility, [commit_group_rows] the commit. *)

Definition begin_group_rows (mks : list (Z -> OfflineGroupMessage)) (d : db)
    : list OfflineGroupMessage * db :=
  let d' := insert_group_rows mks d in
  (drop (length (offline_group_messages d)) (offline_group_messages d'),
   set_offline_group_messages (take (length (offline_group_messages d))) d').

Definition commit_group_rows (rows : list OfflineGroupMessage) (d : db) : db :=
  set_offline_group_messages (fun l => l ++ rows) d.

(** Inserting and committing at once is the plain insert. *)
Lemma begin_commit_group_rows mks d :
  commit_group_rows (begin_group_rows mks d).1 (begin_group_rows mks d).2 = insert_group_rows mks d.
Proof.
  unfold commit_group_rows, begin_group_rows, set_offline_group_messages. simpl.
  rewrite take_drop. by destruct (insert_group_rows mks d).
Qed.

Definition demo_grow (room : Z) (i : Z) : OfflineGroupMessage :=
  mkOfflineGroupMessage i 7 room "message" "ct" 100 (Some 1).

(** The schedule: room 1 inserts a row for account 7, room 2 inserts one and
    commits, the device acknowledges what it was served, room 1 commits. *)
Definition buried_before_ack : list OfflineGroupMessage * db :=
  let d0 := (upsert_cursor demo_now 7 "a" 0 0 0 0 empty_db).2 in
  let '(rows1, d1) := begin_group_rows [demo_grow 1] d0 in
  let '(rows2, d2) := begin_group_rows [demo_grow 2] d1 in
  (rows1, commit_group_rows rows2 d2).

Definition buried_schedule : db :=
  let '(rows1, d3) := buried_before_ack in
  let '(_, d4) := ack_queue demo_now (mkAckIn [] [2]) 1 7 "a" d3 in
  commit_group_rows rows1 d4.

(** on the group axis the order of ids is not the order of commits, and
    the watermark then buries a row nobody acknowledged.  In the schedule
    above the device is served exactly the row with id 2 and acknowledges it;
    afterwards the row of room 1 (id 1) is in the table, addressed to the
    account, and no fetch of the device ever returns it. *)
Theorem group_row_buried_by_commit_order :
  (forall now, map h_id (fetch_queue_tx now true 1 7 "a" buried_before_ack.2).1 = [2])
  /\ demo_grow 1 1 ∈ offline_group_messages buried_schedule
  /\ og_to_uin (demo_grow 1 1) = 7
  /\ forall now, (fetch_queue_tx now true 1 7 "a" buried_schedule).1 = [].
Proof.
  split_and!.
  - intros now. rewrite (fetch_with_cursor now 1 7 "a" (mkQueueCursor 0 0 (Some demo_now)));
      reflexivity.
  - vm_compute. left.
  - reflexivity.
  - intros now. rewrite (fetch_with_cursor now 1 7 "a" (mkQueueCursor 0 2 (Some demo_now)));
      reflexivity.
Qed.
