(* ===== verification/GroupLogStore.v ===== *)
(** * The room log: sequences, readers and per-device cursors

    Models [src/app/services/group_log.py] and the sequence allocators of
    [src/app/routers/messages.py] ([_next_mailbox_seq], [_next_group_seq],
    [_next_group_seqs]). *)

From stdpp Require Import base list sorting gmap strings.
From Stdlib Require Import ZArith Lia.
From S2P Require Import Prelude Storage.

(** ** Durable counters *)

(** [INSERT ... VALUES (k, n) ON CONFLICT DO UPDATE SET next_seq = next_seq + n
    RETURNING next_seq]. *)
Definition bump_seq (k n : Z) (m : gmap Z Z) : Z * gmap Z Z :=
  let v := match m !! k with Some x => x + n | None => n end in (v, <[k := v]> m).

Definition next_mailbox_seq (to_uin : Z) (d : db) : Z * db :=
  let '(v, m) := bump_seq to_uin 1 (mailbox_seq d) in (v, set_mailbox_seq (fun _ => m) d).

Definition next_group_seq (group_id : Z) (d : db) : Z * db :=
  let '(v, m) := bump_seq group_id 1 (group_seq d) in (v, set_group_seq (fun _ => m) d).

(** [range(a, b)] *)
Definition range (a b : Z) : list Z := map (fun i => a + Z.of_nat i) (seq 0 (Z.to_nat (b - a))).

Definition next_group_seqs (group_id count : Z) (d : db) : list Z * db :=
  if count <=? 0 then ([], d)
  else
    let '(last, m) := bump_seq group_id count (group_seq d) in
    (range (last - count + 1) (last + 1), set_group_seq (fun _ => m) d).

Definition room_head (d : db) (group_id : Z) : Z := default 0 (group_seq d !! group_id).

(** ** Readers *)

Definition has_reader (d : db) (u : Z) : bool :=
  existsb (fun '((u', _), _) => u' =? u) (map_to_list (group_log_readers d)).

(** A device that drains the legacy queue and has never read the log. *)
Definition blocked (d : db) (u : Z) : bool :=
  existsb (fun '((u', dev), _) =>
             (u' =? u) && negb (bool_decide (is_Some (group_log_readers d !! (u', dev)))))
          (map_to_list (queue_cursors d)).

Definition log_readers (d : db) (uins : list Z) : list Z :=
  filter (fun u => has_reader d u = true /\ blocked d u = false) (remove_dups uins).

Definition mark_reader (now uin : Z) (device_id : string) (d : db) : db :=
  set_group_log_readers (fun m =>
    <[(uin, device_id) :=
        match m !! (uin, device_id) with
        | Some r => mkGroupLogReader (first_seen r) now
        | None => mkGroupLogReader now now
        end]> m) d.

(** ** Cursors *)

Definition upsert_log_cursor (now group_id uin : Z) (device_id : string) (seq seed : Z) (d : db)
    : Z * db :=
  let row :=
    match group_log_cursors d !! (group_id, uin, device_id) with
    | None => mkGroupLogCursor (Z.max seq seed) now
    | Some c => mkGroupLogCursor (Z.max (last_seq c) seq)
                  (if last_seq c <? seq then now else glc_updated_at c)
    end in
  (last_seq row, set_group_log_cursors <[(group_id, uin, device_id) := row]> d).

(** The devices of an account that have read the log. *)
Definition reader_devices (d : db) (uin : Z) : list string :=
  omap (fun '((u, dev), _) => if u =? uin then Some dev else None)
       (map_to_list (group_log_readers d)).

Definition seed_cursors_on_join (now group_id uin : Z) (d : db) : db :=
  match reader_devices d uin with
  | [] => d
  | devices =>
      let head := room_head d group_id in
      foldl (fun d dev => (upsert_log_cursor now group_id uin dev 0 head d).2) d devices
  end.

(** ** Facts *)

Lemma has_reader_true d u :
  has_reader d u = true <-> exists dev, is_Some (group_log_readers d !! (u, dev)).
Proof.
  unfold has_reader. rewrite existsb_elem. split.
  - intros ([[u' dev] r] & Hin%elem_of_map_to_list & ->%Z.eqb_eq). by exists dev, r.
  - intros (dev & r & Hr). exists ((u, dev), r). rewrite elem_of_map_to_list. split; [done|lia].
Qed.

Lemma blocked_true d u :
  blocked d u = true <-> exists dev, is_Some (queue_cursors d !! (u, dev))
                                     /\ group_log_readers d !! (u, dev) = None.
Proof.
  unfold blocked. rewrite existsb_elem. split.
  - intros ([[u' dev] r] & Hin%elem_of_map_to_list & Hb). breflect. subst. exists dev.
    split; [by exists r|]. by apply eq_None_not_Some.
  - intros (dev & [c Hc] & Hn). exists ((u, dev), c). rewrite elem_of_map_to_list. split; [done|].
    rewrite Z.eqb_refl. rewrite bool_decide_eq_false_2; [done|]. by apply eq_None_not_Some.
Qed.

Lemma elem_of_range a b x : x ∈ range a b <-> a <= x < b.
Proof.
  unfold range. rewrite list_elem_of_fmap. setoid_rewrite elem_of_seq. split.
  - intros (i & -> & Hi). lia.
  - intros Hx. exists (Z.to_nat (x - a)). lia.
Qed.

Lemma length_range a b : length (range a b) = Z.to_nat (b - a).
Proof. unfold range. by rewrite length_fmap, length_seq. Qed.

Lemma NoDup_range a b : NoDup (range a b).
Proof.
  unfold range. apply NoDup_fmap_2_strong; [|apply NoDup_seq].
  intros x y _ _ ?. lia.
Qed.

Lemma upsert_log_cursor_db now g u dev sq sd d :
  exists c, (upsert_log_cursor now g u dev sq sd d) =
              (last_seq c, set_group_log_cursors <[(g, u, dev) := c]> d)
  /\ last_seq c = match group_log_cursors d !! (g, u, dev) with
                  | None => Z.max sq sd
                  | Some c0 => Z.max (last_seq c0) sq end.
Proof.
  unfold upsert_log_cursor. eexists. split; [reflexivity|].
  by destruct (group_log_cursors d !! (g, u, dev)).
Qed.

(** ** Properties *)

(** A block of room sequences is fresh: it is the [count] numbers right
    above the room's head, the head moves to the last of them, and no other
    room's head moves.  Two allocations in a room therefore never share a
    number and never leave a gap. *)
Theorem next_group_seqs_block group_id count d :
  let '(l, d') := next_group_seqs group_id count d in
  let n := Z.max 0 count in
  l = range (room_head d group_id + 1) (room_head d group_id + 1 + n) /\
  room_head d' group_id = room_head d group_id + n /\
  (forall g, g <> group_id -> room_head d' g = room_head d g).
Proof.
  unfold next_group_seqs, bump_seq, room_head. destruct (Z.leb_spec count 0).
  - rewrite Z.max_l by lia. split; [|split; [lia|done]].
    unfold range. by rewrite Z.add_0_r, Z.sub_diag.
  - rewrite Z.max_r by lia. simpl.
    destruct (group_seq d !! group_id) as [x|]; simpl; rewrite lookup_insert_eq; simpl.
    + split; [f_equal; lia|]. split; [lia|]. intros g Hg. by rewrite lookup_insert_ne.
    + split; [f_equal; lia|]. split; [lia|]. intros g Hg. by rewrite lookup_insert_ne.
Qed.

(** An account stops getting per-member queue rows exactly when one of its
    devices reads the room log and every device that drains its legacy queue
    does: no device is ever cut off from a room by another one's upgrade. *)
Theorem log_readers_iff d uins u :
  u ∈ log_readers d uins <->
  u ∈ uins /\ (exists dev, is_Some (group_log_readers d !! (u, dev))) /\
  (forall dev, is_Some (queue_cursors d !! (u, dev)) -> is_Some (group_log_readers d !! (u, dev))).
Proof.
  unfold log_readers. rewrite list_elem_of_filter, elem_of_remove_dups, has_reader_true.
  rewrite <-not_true_iff_false, blocked_true. split.
  - intros [[Hr Hb] Hu]. split; [done|]. split; [done|]. intros dev Hq.
    destruct (group_log_readers d !! (u, dev)) eqn:E; [by eexists|]. exfalso. apply Hb. eauto.
  - intros (Hu & Hr & Hq). split; [|done]. split; [done|]. intros (dev & Hc & Hn).
    specialize (Hq dev Hc). rewrite Hn in Hq. by destruct Hq.
Qed.

Lemma elem_of_reader_devices d uin dev :
  dev ∈ reader_devices d uin <-> is_Some (group_log_readers d !! (uin, dev)).
Proof.
  unfold reader_devices. rewrite list_elem_of_omap. split.
  - intros ([[u dv] r] & Hin%elem_of_map_to_list & E). case_cond; breflect; simplify_eq. by eexists.
  - intros [r Hr]. exists ((uin, dev), r). rewrite elem_of_map_to_list. split; [done|].
    by rewrite Z.eqb_refl.
Qed.

Definition cursor_pos (d : db) (g u : Z) (dev : string) : option Z :=
  option_map last_seq (group_log_cursors d !! (g, u, dev)).

Lemma seed_fold now g u head devs d :
  forall g' u' dev', 0 <= default 0 (cursor_pos d g' u' dev') ->
    cursor_pos (foldl (fun d dev => (upsert_log_cursor now g u dev 0 head d).2) d devs) g' u' dev' =
      match cursor_pos d g' u' dev' with
      | Some p => Some p
      | None => if decide (g' = g /\ u' = u /\ dev' ∈ devs) then Some (Z.max 0 head) else None
      end.
Proof.
  revert d. induction devs as [|dev devs IH]; intros d g' u' dev' Hnn; cbn [foldl].
  { destruct (cursor_pos d g' u' dev'); [done|]. rewrite decide_False; [done|]. set_solver. }
  destruct (upsert_log_cursor_db now g u dev 0 head d) as (c & E & Hc). rewrite E. cbn [snd].
  set (d1 := set_group_log_cursors _ d).
  assert (Hpos : cursor_pos d1 g' u' dev' =
     if decide (g' = g /\ u' = u /\ dev' = dev) then Some (last_seq c) else cursor_pos d g' u' dev').
  { unfold cursor_pos, d1. simpl. destruct (decide _) as [(-> & -> & ->)|Hne].
    - by rewrite lookup_insert_eq.
    - rewrite lookup_insert_ne; [done|]. intros [= -> -> ->]. by apply Hne. }
  destruct (decide (g' = g /\ u' = u /\ dev' = dev)) as [(-> & -> & ->)|Hne].
  - assert (Hlast : last_seq c = match cursor_pos d g u dev with Some p => p | None => Z.max 0 head end).
    { rewrite Hc. unfold cursor_pos in *. destruct (group_log_cursors d !! (g, u, dev)); simpl in *; lia. }
    rewrite IH by (rewrite Hpos; simpl; rewrite Hlast; destruct (cursor_pos d g u dev); simpl in *; lia).
    rewrite Hpos, Hlast. destruct (cursor_pos d g u dev); [done|].
    rewrite decide_True; [done|]. split; [done|]. split; [done|]. set_solver.
  - rewrite IH by (by rewrite Hpos). rewrite Hpos. destruct (cursor_pos d g' u' dev'); [done|].
    apply decide_ext. set_solver.
Qed.

(** Joining a room starts its log at the head for every device of the
    account that reads logs: no such device is left without a cursor, none that
    has one is moved, and nobody else's cursor is touched. *)
Theorem seed_cursors_on_join_spec now group_id uin d :
  (forall k c, group_log_cursors d !! k = Some c -> 0 <= last_seq c) ->
  forall g u dev,
  cursor_pos (seed_cursors_on_join now group_id uin d) g u dev =
    match cursor_pos d g u dev with
    | Some p => Some p
    | None =>
        if decide (g = group_id /\ u = uin /\ is_Some (group_log_readers d !! (uin, dev)))
        then Some (Z.max 0 (room_head d group_id)) else None
    end.
Proof.
  intros Hnn g u dev.
  unfold seed_cursors_on_join.
  pose proof (seed_fold now group_id uin (room_head d group_id) (reader_devices d uin) d g u dev) as Hf.
  assert (Hge : 0 <= default 0 (cursor_pos d g u dev)).
  { unfold cursor_pos. destruct (group_log_cursors d !! (g, u, dev)) eqn:E; simpl; [|lia]. eauto. }
  specialize (Hf Hge).
  assert (Hext : forall (x y : option Z),
    (if decide (g = group_id /\ u = uin /\ dev ∈ reader_devices d uin) then x else y) =
    (if decide (g = group_id /\ u = uin /\ is_Some (group_log_readers d !! (uin, dev))) then x else y)).
  { intros x y. apply decide_ext. by rewrite elem_of_reader_devices. }
  rewrite Hext in Hf. destruct (reader_devices d uin) as [|dv devs] eqn:Ed; [|exact Hf].
  exact Hf.
Qed.

Lemma seed_cursors_on_join_spec_witness :
  let d := set_group_log_readers (fun _ => {[ (7, "phone"%string) := mkGroupLogReader 0 0 ]})
             (set_group_seq (fun _ => {[ 21 := 40 ]}) empty_db) in
  cursor_pos (seed_cursors_on_join 5 21 7 d) 21 7 "phone" = Some 40.
Proof.
  cbv zeta. rewrite seed_cursors_on_join_spec; [by vm_compute|].
  intros k c Hk. change ((∅ : gmap (Z * Z * string) GroupLogCursor) !! k = Some c) in Hk.
  by rewrite lookup_empty in Hk.
Defined.
