(* ===== verification/FairPage.v ===== *)
(** * One page of room-log rows, shared fairly between the rooms

    Models [_fair_log_page] of [src/app/routers/messages.py] (and the query it
    issues).  The page is built by turns: the next row always comes from the
    room that has been given the fewest bytes so far. *)

From stdpp Require Import base list sorting gmap strings.
From Stdlib Require Import ZArith Lia.
From S2P Require Import Prelude Storage.

Definition GROUP_LOG_PAGE_BYTES : Z := 128 * 1024.
Definition GROUP_LOG_ROOM_CHUNK_MIN : Z := 8.
Definition GROUP_LOG_ROOM_CHUNK_MAX : Z := 128.

(** [len(payload)] *)
Definition size (r : GroupLog) : Z := Z.of_nat (String.length (gl_payload r)).

(** [SELECT ... WHERE group_id = gid AND seq > after AND (to_uin IS NULL OR
    to_uin = uin) ORDER BY seq], before its LIMIT. *)
Definition log_rows (d : db) (uin gid after : Z) : list GroupLog :=
  sort_by gl_seq
    (filter (fun r => gl_group_id r = gid /\ after < gl_seq r /\
                      (gl_to_uin r = None \/ gl_to_uin r = Some uin)) (group_log d)).

(** The dictionaries and counters of the loop. *)
Record page := mkPage {
  buf : gmap Z (list GroupLog);
  read_to : gmap Z Z;
  unread : gmap Z bool;
  picked : gmap Z (list GroupLog);
  given : gmap Z Z;
  turns : list (Z * nat * Z);
  rows_left : Z;
  bytes_left : Z;
  too_big : list Z;
  stretched : bool
}.

Definition rows_of (m : gmap Z (list GroupLog)) (g : Z) : list GroupLog := default [] (m !! g).
Definition int_of (m : gmap Z Z) (g : Z) : Z := default 0 (m !! g).
Definition flag_of (m : gmap Z bool) (g : Z) : bool := default false (m !! g).

(** Tuple order of the heap entries [(given, order, gid)]; the orders of two
    rooms differ, so the third component never decides. *)
Definition turn_le (a b : Z * nat * Z) : bool :=
  let '(ga, oa, _) := a in let '(gb, ob, _) := b in
  (ga <? gb) || ((ga =? gb) && (oa <=? ob)%nat).

(** [heapq.heappop]: the smallest entry and the others. *)
Fixpoint heappop (l : list (Z * nat * Z)) : option ((Z * nat * Z) * list (Z * nat * Z)) :=
  match l with
  | [] => None
  | x :: l' =>
      match heappop l' with
      | None => Some (x, [])
      | Some (y, rest) => if turn_le x y then Some (x, l') else Some (y, x :: rest)
      end
  end.

(** [-(-a // b)]: division rounded up. *)
Definition ceil_div (a b : Z) : Z := - (- a / b).

Definition chunk_of (limit : Z) (n_rooms : Z) : Z :=
  Z.min limit (Z.max GROUP_LOG_ROOM_CHUNK_MIN
                 (ceil_div (Z.min limit GROUP_LOG_ROOM_CHUNK_MAX) n_rooms)).

(** [order]: the position of a room in [starts]. *)
Fixpoint order_of (gids : list Z) (g : Z) : nat :=
  match gids with [] => O | x :: l => if x =? g then O else S (order_of l g) end.

(** The read of a room on its turn. *)
Definition refill (d : db) (uin chunk gid : Z) (p : page) : page :=
  match rows_of (buf p) gid, flag_of (unread p) gid with
  | [], true =>
      let got := take (Z.to_nat chunk) (log_rows d uin gid (int_of (read_to p) gid)) in
      mkPage (<[gid := got]> (buf p))
        (match last got with Some r => <[gid := gl_seq r]> (read_to p) | None => read_to p end)
        (<[gid := bool_decide (Z.of_nat (length got) = chunk)]> (unread p))
        (picked p) (given p) (turns p) (rows_left p) (bytes_left p) (too_big p) (stretched p)
  | _, _ => p
  end.

(** Moving the first buffered row of a room onto the page. *)
Definition pick (gid : Z) (o : nat) (r : GroupLog) (rest : list GroupLog)
    (bytes' : Z) (stretched' : bool) (p : page) : page :=
  mkPage (<[gid := rest]> (buf p)) (read_to p) (unread p)
    (<[gid := rows_of (picked p) gid ++ [r]]> (picked p))
    (<[gid := int_of (given p) gid + size r]> (given p))
    ((int_of (given p) gid + size r, o, gid) :: turns p)
    (rows_left p - 1) bytes' (too_big p) stretched'.

(** One iteration of the [while turns and rows_left > 0] loop; [None] when the
    loop is over. *)
Definition turn (d : db) (uin chunk : Z) (p : page) : option page :=
  if rows_left p <=? 0 then None
  else
    match heappop (turns p) with
    | None => None
    | Some ((_, o, gid), rest) =>
        let p1 := refill d uin chunk gid
                    (mkPage (buf p) (read_to p) (unread p) (picked p) (given p) rest
                       (rows_left p) (bytes_left p) (too_big p) (stretched p)) in
        match rows_of (buf p1) gid with
        | [] => Some p1
        | r :: rest_buf =>
            if bytes_left p1 <? size r then
              if negb (int_of (given p1) gid =? 0) || stretched p1
                 || (GROUP_LOG_PAGE_BYTES <? size r)
              then Some (mkPage (buf p1) (read_to p1) (unread p1) (picked p1) (given p1) (turns p1)
                           (rows_left p1) (bytes_left p1) (too_big p1 ++ [gid]) (stretched p1))
              else Some (pick gid o r rest_buf (bytes_left p1) true p1)
            else Some (pick gid o r rest_buf (bytes_left p1 - size r) (stretched p1) p1)
        end
    end.

Fixpoint loop (fuel : nat) (d : db) (uin chunk : Z) (p : page) : page :=
  match fuel with
  | O => p
  | S f => match turn d uin chunk p with None => p | Some p' => loop f d uin chunk p' end
  end.

Definition start_page (starts : list (Z * Z)) (limit : Z) : page :=
  let gids := map fst starts in
  mkPage (list_to_map (map (fun g => (g, [])) gids))
    (list_to_map starts)
    (list_to_map (map (fun g => (g, true)) gids))
    (list_to_map (map (fun g => (g, [])) gids))
    (list_to_map (map (fun g => (g, 0)) gids))
    (map (fun g => (0, order_of gids g, g)) gids)
    limit GROUP_LOG_PAGE_BYTES [] false.

(** Every iteration uses up a row of [limit] or a room of [starts]. *)
Definition page_fuel (starts : list (Z * Z)) (limit : Z) : nat :=
  (Z.to_nat limit + length starts)%nat.

(** [min(too_big, key=lambda g: (len(buf[g][0].payload), order[g]))] *)
Definition head_size (p : page) (g : Z) : Z :=
  match rows_of (buf p) g with r :: _ => size r | [] => 0 end.

Fixpoint min_room (gids : list Z) (p : page) (best : Z) (l : list Z) : Z :=
  match l with
  | [] => best
  | g :: l' =>
      min_room gids p
        (if turn_le (head_size p best, order_of gids best, best) (head_size p g, order_of gids g, g)
         then best else g) l'
  end.

Definition nonempty (l : list GroupLog) : bool := match l with [] => false | _ => true end.

(** The lone oversized row, when nothing fitted. *)
Definition last_resort (gids : list Z) (p : page) : page :=
  match too_big p with
  | [] => p
  | g0 :: l =>
      if existsb (fun g => nonempty (rows_of (picked p) g)) gids then p
      else
        let g := min_room gids p g0 l in
        match rows_of (buf p) g with
        | [] => p
        | r :: rest =>
            mkPage (<[g := rest]> (buf p)) (read_to p) (unread p)
              (<[g := rows_of (picked p) g ++ [r]]> (picked p)) (given p) (turns p)
              (rows_left p) (bytes_left p) (too_big p) (stretched p)
        end
  end.

Definition fair_log_page (d : db) (uin : Z) (starts : list (Z * Z)) (limit : Z)
    : list (Z * list GroupLog) * bool :=
  match starts with
  | [] => ([], false)
  | _ =>
      let gids := map fst starts in
      let chunk := chunk_of limit (Z.of_nat (length starts)) in
      let p := last_resort gids
                 (loop (page_fuel starts limit) d uin chunk (start_page starts limit)) in
      (map (fun g => (g, rows_of (picked p) g)) gids,
       existsb (fun g => nonempty (rows_of (buf p) g) || flag_of (unread p) g) gids)
  end.

(** ** Facts about the read *)

(** The primary key of [group_log]. *)
Definition log_pk (d : db) : Prop :=
  NoDup (map (fun r => (gl_group_id r, gl_seq r)) (group_log d)).

Lemma size_nonneg r : 0 <= size r.
Proof. unfold size. lia. Qed.

Lemma log_rows_elem d uin g a r :
  r ∈ log_rows d uin g a <->
  r ∈ group_log d /\ gl_group_id r = g /\ a < gl_seq r /\
  (gl_to_uin r = None \/ gl_to_uin r = Some uin).
Proof. unfold log_rows. rewrite elem_of_sort_by, list_elem_of_filter. naive_solver. Qed.

Lemma NoDup_seqs_of_room (g : Z) (l : list GroupLog) :
  NoDup (map (fun r => (gl_group_id r, gl_seq r)) l) ->
  Forall (fun r => gl_group_id r = g) l -> NoDup (map gl_seq l).
Proof.
  induction l as [|r l IH]; intros Hn Hg; simpl; [constructor|].
  apply NoDup_cons in Hn as [Hr Hn]. apply Forall_cons in Hg as [Hg Hgl].
  constructor; [|auto]. intros Hin. apply Hr.
  apply list_elem_of_fmap in Hin as (r' & E & Hin). apply list_elem_of_fmap. exists r'.
  split; [|done]. rewrite list.Forall_forall in Hgl. by rewrite E, Hg, (Hgl r' Hin).
Qed.

Lemma log_rows_strict d uin g a :
  log_pk d -> StronglySorted (fun x y => gl_seq x < gl_seq y) (log_rows d uin g a).
Proof.
  intros Hpk. unfold log_rows. apply sorted_strict; [apply sort_by_sorted|].
  rewrite (fmap_Permutation gl_seq _ _ (sort_by_perm gl_seq _)).
  apply (NoDup_seqs_of_room g).
  - by apply NoDup_map_filter.
  - apply list.Forall_forall. intros r [H _]%list_elem_of_filter. tauto.
Qed.

(** Reading further on is dropping the rows already read. *)
Lemma log_rows_after d uin g a b :
  a <= b -> log_rows d uin g b = filter (fun r => b < gl_seq r) (log_rows d uin g a).
Proof.
  intros Hab. unfold log_rows. rewrite filter_sort_by, list_filter_filter. f_equal.
  apply list_filter_iff. intros r. intuition lia.
Qed.

Lemma filter_above_strict (l1 l2 : list GroupLog) r :
  StronglySorted (fun x y => gl_seq x < gl_seq y) (l1 ++ r :: l2) ->
  filter (fun x => gl_seq r < gl_seq x) (l1 ++ r :: l2) = l2.
Proof.
  induction l1 as [|x l1 IH]; simpl; intros Hs; apply StronglySorted_inv in Hs as [Hs Hx].
  - rewrite filter_cons_False by lia. by apply filter_all.
  - rewrite filter_cons_False; [auto|]. rewrite list.Forall_forall in Hx.
    assert (gl_seq x < gl_seq r); [apply Hx; set_solver|lia].
Qed.

Lemma log_rows_continue d uin g a l1 r l2 :
  log_pk d -> log_rows d uin g a = l1 ++ r :: l2 -> log_rows d uin g (gl_seq r) = l2.
Proof.
  intros Hpk E. assert (Hr : r ∈ log_rows d uin g a) by (rewrite E; set_solver).
  apply log_rows_elem in Hr. rewrite (log_rows_after d uin g a) by lia.
  rewrite E. apply filter_above_strict. rewrite <-E. by apply log_rows_strict.
Qed.

(** What a read of [chunk] rows takes, and where the next one starts. *)
Lemma chunk_read d uin g a (n : nat) :
  log_pk d ->
  let got := take n (log_rows d uin g a) in
  log_rows d uin g a =
    got ++ log_rows d uin g (match last got with Some r => gl_seq r | None => a end).
Proof.
  intros Hpk. simpl. set (l := log_rows d uin g a).
  destruct (last (take n l)) as [r|] eqn:El; [|apply last_None in El; by rewrite El].
  apply last_Some in El as [l' E].
  assert (Hl : l = l' ++ r :: drop n l).
  { rewrite <-(take_drop n l) at 1. by rewrite E, <-app_assoc. }
  rewrite E, <-app_assoc, (log_rows_continue d uin g a l' r (drop n l)); done.
Qed.

(** ** The heap *)

Lemma heappop_None l : heappop l = None <-> l = [].
Proof.
  split; [|by intros ->]. destruct l as [|x l]; simpl; [done|].
  destruct (heappop l) as [[y rest]|]; [|done]. by destruct (turn_le x y).
Qed.

Lemma heappop_Some l x rest :
  heappop l = Some (x, rest) -> l ≡ₚ x :: rest /\ forall y, y ∈ rest -> x.1.1 <= y.1.1.
Proof.
  revert x rest. induction l as [|z l IH]; intros x rest; simpl; [done|].
  destruct (heappop l) as [[y rest']|] eqn:E.
  - destruct (IH y rest' eq_refl) as [Hp Hle].
    destruct z as [[gz oz] rz], y as [[gy oy] ry]. simpl.
    destruct ((gz <? gy) || ((gz =? gy) && (oz <=? oy)%nat)) eqn:T; intros [= <- <-].
    + split; [done|]. intros w Hw. rewrite Hp in Hw. simpl in *.
      assert (gz <= gy).
      { apply orb_true_iff in T as [T|T]; breflect; lia. }
      apply elem_of_cons in Hw as [->|Hw]; [done|]. specialize (Hle w Hw). lia.
    + split; [rewrite Hp; by apply Permutation_swap|]. intros w Hw. simpl in *.
      apply elem_of_cons in Hw as [->|Hw]; [|auto]. simpl. breflect. lia.
  - apply heappop_None in E as ->. intros [= <- <-]. split; [done|]. set_solver.
Qed.

(** ** Lookups in the updated dictionaries *)

Lemma rows_of_insert m g l h : rows_of (<[g:=l]> m) h = if decide (h = g) then l else rows_of m h.
Proof.
  unfold rows_of. destruct (decide (h = g)) as [->|]; [by rewrite lookup_insert_eq|].
  by rewrite lookup_insert_ne.
Qed.

Lemma int_of_insert m g v h : int_of (<[g:=v]> m) h = if decide (h = g) then v else int_of m h.
Proof.
  unfold int_of. destruct (decide (h = g)) as [->|]; [by rewrite lookup_insert_eq|].
  by rewrite lookup_insert_ne.
Qed.

Lemma flag_of_insert m g v h : flag_of (<[g:=v]> m) h = if decide (h = g) then v else flag_of m h.
Proof.
  unfold flag_of. destruct (decide (h = g)) as [->|]; [by rewrite lookup_insert_eq|].
  by rewrite lookup_insert_ne.
Qed.

(** ** The invariant of the loop *)

Definition bytes (l : list GroupLog) : Z := sum_of size l.
Definition rows_on (gids : list Z) (p : page) : Z :=
  sum_of (fun g => Z.of_nat (length (rows_of (picked p) g))) gids.
Definition bytes_on (gids : list Z) (p : page) : Z :=
  sum_of (fun g => bytes (rows_of (picked p) g)) gids.
Definition rooms_in (p : page) : list Z := map snd (turns p).

Section loop_invariant.
#[local] Set Default Proof Using "All".
Context (d : db) (uin : Z) (starts : list (Z * Z)) (limit : Z).
Context (Hpk : log_pk d) (Hgids : NoDup (map fst starts)) (Hlimit : 1 <= limit).

Let gids := map fst starts.
Let chunk := chunk_of limit (Z.of_nat (length starts)).

(** Each room's log is: rows picked, rows buffered, rows not read. *)
Record log_split (p : page) : Prop := mkSplit {
  s_rows : forall g start, (g, start) ∈ starts ->
    log_rows d uin g start =
    rows_of (picked p) g ++ rows_of (buf p) g ++ log_rows d uin g (int_of (read_to p) g);
  s_unread : forall g, g ∈ gids -> flag_of (unread p) g = false ->
    log_rows d uin g (int_of (read_to p) g) = []
}.

(** The counters agree with the rows on the page. *)
Record accounts (p : page) : Prop := mkAccounts {
  a_given : forall g, g ∈ gids -> int_of (given p) g = bytes (rows_of (picked p) g);
  a_rows : rows_left p + rows_on gids p = limit;
  a_left : 0 <= rows_left p;
  a_bytes : bytes_on gids p <=
    GROUP_LOG_PAGE_BYTES - bytes_left p + (if stretched p then GROUP_LOG_PAGE_BYTES else 0);
  a_charged : GROUP_LOG_PAGE_BYTES - bytes_left p <= bytes_on gids p;
  a_budget : 0 <= bytes_left p
}.

(** Who is still in the heap, and why the others are not. *)
Record scheduling (p : page) : Prop := mkScheduling {
  h_turns : forall w o g, (w, o, g) ∈ turns p -> g ∈ gids /\ w = int_of (given p) g;
  h_nodup : NoDup (rooms_in p);
  h_done : forall g, g ∈ gids -> g ∉ rooms_in p -> g ∉ too_big p ->
    rows_of (buf p) g = [] /\ flag_of (unread p) g = false;
  h_big : forall g, g ∈ too_big p -> g ∈ gids /\ g ∉ rooms_in p /\
    exists r l, rows_of (buf p) g = r :: l /\ bytes_left p < size r;
  h_fair : forall g h l r, g ∈ gids -> h ∈ rooms_in p ->
    rows_of (picked p) g = l ++ [r] -> bytes l <= int_of (given p) h
}.

Definition inv (p : page) : Prop := log_split p /\ accounts p /\ scheduling p.
Lemma chunk_pos : 1 <= chunk.
Proof. unfold chunk, chunk_of, GROUP_LOG_ROOM_CHUNK_MIN. lia. Qed.

(** [refill] only reads the log. *)
Lemma refill_frame gid p :
  let p1 := refill d uin chunk gid p in
  picked p1 = picked p /\ given p1 = given p /\ turns p1 = turns p /\
  rows_left p1 = rows_left p /\ bytes_left p1 = bytes_left p /\
  too_big p1 = too_big p /\ stretched p1 = stretched p /\
  (forall h, h <> gid -> rows_of (buf p1) h = rows_of (buf p) h
                         /\ flag_of (unread p1) h = flag_of (unread p) h).
Proof.
  unfold refill. destruct (rows_of (buf p) gid) as [|r l] eqn:Eb; [|naive_solver].
  destruct (flag_of (unread p) gid) eqn:Ef; [|naive_solver]. simpl.
  repeat split; rewrite ?rows_of_insert, ?flag_of_insert; by destruct (decide (h = gid)).
Qed.

Lemma refill_split gid p :
  gid ∈ gids -> log_split p -> log_split (refill d uin chunk gid p).
Proof.
  intros Hg [Hr Hu]. unfold refill. destruct (rows_of (buf p) gid) as [|r l] eqn:Eb; [|done].
  destruct (flag_of (unread p) gid) eqn:Ef; [|done].
  set (a := int_of (read_to p) gid). set (got := take _ _).
  set (rd := match last got with Some r => <[gid := gl_seq r]> (read_to p) | None => read_to p end).
  pose proof (chunk_read d uin gid a (Z.to_nat chunk) Hpk) as Hc. simpl in Hc. fold got in Hc.
  assert (Hrd : forall h, int_of rd h = if decide (h = gid)
                  then match last got with Some r => gl_seq r | None => a end
                  else int_of (read_to p) h).
  { intros h. unfold rd. destruct (last got); rewrite ?int_of_insert; destruct (decide (h = gid)); subst; done. }
  split; simpl.
  - intros g start Hin. rewrite rows_of_insert, Hrd. specialize (Hr g start Hin).
    destruct (decide (g = gid)) as [->|]; [|done].
    rewrite Hr, Eb. simpl. f_equal. exact Hc.
  - intros g Hin. rewrite flag_of_insert, Hrd. destruct (decide (g = gid)) as [->|]; [|auto].
    pose proof chunk_pos. intros Hlen%bool_decide_eq_false_1. unfold got in Hlen. rewrite length_take in Hlen.
    apply (f_equal length) in Hc. rewrite length_app in Hc.
    unfold got in Hc at 1. rewrite length_take in Hc. apply nil_length_inv. lia.
Qed.

Lemma refill_exhausted gid p :
  rows_of (buf (refill d uin chunk gid p)) gid = [] ->
  flag_of (unread (refill d uin chunk gid p)) gid = false.
Proof.
  pose proof chunk_pos. unfold refill.
  destruct (rows_of (buf p) gid) as [|r l] eqn:Eb; [|by rewrite Eb].
  destruct (flag_of (unread p) gid) eqn:Ef; [|by rewrite Ef]. simpl.
  rewrite rows_of_insert, flag_of_insert. destruct (decide (gid = gid)); [|done].
  intros ->. simpl. apply bool_decide_eq_false_2. lia.
Qed.

(** A pick keeps the three parts of every log. *)
Lemma pick_split gid o r rest b s p :
  rows_of (buf p) gid = r :: rest -> log_split p -> log_split (pick gid o r rest b s p).
Proof.
  intros Eb [Hr Hu]. split; simpl; [|done].
  intros g start Hin. rewrite !rows_of_insert. rewrite (Hr g start Hin).
  destruct (decide (g = gid)) as [->|]; [|done]. by rewrite Eb, <-app_assoc.
Qed.

Lemma bytes_on_pick gid r m m' :
  gid ∈ gids -> rows_of m' gid = rows_of m gid ++ [r] ->
  (forall h, h <> gid -> rows_of m' h = rows_of m h) ->
  sum_of (fun g => bytes (rows_of m' g)) gids = sum_of (fun g => bytes (rows_of m g)) gids + size r /\
  sum_of (fun g => Z.of_nat (length (rows_of m' g))) gids =
    sum_of (fun g => Z.of_nat (length (rows_of m g))) gids + 1.
Proof.
  intros Hg He Hn. split.
  - rewrite (sum_of_update (fun g => bytes (rows_of m g)) _ gids gid Hgids Hg);
      [|intros y Hy; simpl; by rewrite Hn].
    rewrite He. unfold bytes. rewrite sum_of_app. simpl. lia.
  - rewrite (sum_of_update (fun g => Z.of_nat (length (rows_of m g))) _ gids gid Hgids Hg);
      [|intros y Hy; simpl; by rewrite Hn].
    rewrite He, length_app. simpl. lia.
Qed.

Lemma pick_accounts gid o r rest b s p :
  gid ∈ gids -> accounts p -> 0 < rows_left p -> 0 <= b ->
  (b = bytes_left p - size r /\ s = stretched p
   \/ b = bytes_left p /\ stretched p = false /\ s = true /\ size r <= GROUP_LOG_PAGE_BYTES) ->
  accounts (pick gid o r rest b s p).
Proof.
  intros Hg [Hgv Hro Hle Hby Hch Hbu] Hpos Hb Hcase.
  destruct (bytes_on_pick gid r (picked p) (picked (pick gid o r rest b s p)) Hg) as [Eb Er].
  { simpl. rewrite rows_of_insert. by destruct (decide (gid = gid)). }
  { intros h Hh. simpl. rewrite rows_of_insert. by destruct (decide (h = gid)). }
  pose proof (size_nonneg r).
  split; unfold rows_on, bytes_on in *; simpl in *; rewrite ?Eb, ?Er; try lia.
  - intros g Hin. rewrite rows_of_insert, int_of_insert. destruct (decide (g = gid)) as [->|]; [|auto].
    rewrite Hgv by done. unfold bytes. rewrite sum_of_app. simpl. lia.
  - destruct Hcase as [(-> & ->)|(-> & E & -> & ?)]; [|rewrite E in Hby]; lia.
Qed.
Definition rooms (l : list (Z * nat * Z)) : list Z := map snd l.

(** The room whose turn it is. *)
Lemma pop_facts p w o gid rest :
  scheduling p -> heappop (turns p) = Some ((w, o, gid), rest) ->
  gid ∈ gids /\ gid ∉ rooms rest /\ NoDup (rooms rest) /\ gid ∉ too_big p /\
  (forall h, h ∈ rooms_in p <-> h = gid \/ h ∈ rooms rest) /\
  (forall e, e ∈ rest -> e ∈ turns p) /\
  (forall h, h ∈ rooms rest -> int_of (given p) gid <= int_of (given p) h).
Proof.
  intros [Ht Hn _ Hb _] [Hperm Hmin]%heappop_Some.
  assert (Hrooms : rooms_in p ≡ₚ gid :: rooms rest).
  { unfold rooms_in. by rewrite (fmap_Permutation snd _ _ Hperm). }
  assert (Hin : forall e, e ∈ (w, o, gid) :: rest -> e ∈ turns p) by (intros e; by rewrite Hperm).
  rewrite Hrooms in Hn. apply NoDup_cons in Hn as [Hng Hn].
  assert (Hg : gid ∈ gids /\ w = int_of (given p) gid) by (apply (Ht w o gid); set_solver).
  repeat split; try tauto.
  - intros Hbig. destruct (Hb gid Hbig) as (_ & Hout & _). apply Hout. rewrite Hrooms. set_solver.
  - rewrite Hrooms. set_solver.
  - rewrite Hrooms. set_solver.
  - set_solver.
  - intros h Hh. apply list_elem_of_fmap in Hh as ([[w' o'] h'] & -> & He). simpl.
    assert (Ht' : (w', o', h') ∈ turns p) by (apply Hin; set_solver).
    destruct (Ht w' o' h' Ht') as [_ <-]. destruct Hg as [_ <-].
    apply (Hmin _ He).
Qed.

(** [set_turns rest p]: the page once the heap has been popped. *)
Definition set_turns (l : list (Z * nat * Z)) (p : page) : page :=
  mkPage (buf p) (read_to p) (unread p) (picked p) (given p) l
    (rows_left p) (bytes_left p) (too_big p) (stretched p).

Section one_turn.
Context (p : page) (w : Z) (o : nat) (gid : Z) (rest : list (Z * nat * Z)).
Context (Hs : scheduling p) (Hpop : heappop (turns p) = Some ((w, o, gid), rest)).

Let p1 := refill d uin chunk gid (set_turns rest p).

Lemma sched_empty : rows_of (buf p1) gid = [] -> scheduling p1.
Proof.
  intros He. destruct (pop_facts _ _ _ _ _ Hs Hpop) as (Hg & Hout & Hn & Hnb & Hr & Hsub & _).
  destruct (refill_frame gid (set_turns rest p)) as (E1 & E2 & E3 & _ & E5 & E6 & _ & Efr).
  fold p1 in E1, E2, E3, E5, E6, Efr. simpl in *.
  pose proof (refill_exhausted gid (set_turns rest p) He) as Hx. fold p1 in Hx.
  destruct Hs as [Ht _ Hd Hb Hf]. unfold rooms_in in *.
  split; unfold rooms_in; rewrite ?E1, ?E2, ?E3, ?E5, ?E6.
  - eauto.
  - done.
  - intros h Hh Hno Hnt. destruct (decide (h = gid)) as [->|Hne]; [done|].
    destruct (Efr h Hne) as [-> ->]. apply Hd; [done| |done]. rewrite Hr. intros [?|?]; done.
  - intros h Hh. destruct (Hb h Hh) as (Hh1 & Hh2 & r & l & Hh3).
    assert (h <> gid) by (intros ->; done). destruct (Efr h) as [-> _]; [done|].
    split; [done|]. split; [|eauto]. intros ?. apply Hh2, Hr. by right.
  - intros g h l r Hgg Hh. apply Hf; [done|]. apply Hr. by right.
Qed.

Lemma sched_big r l :
  rows_of (buf p1) gid = r :: l -> bytes_left p1 < size r ->
  scheduling (mkPage (buf p1) (read_to p1) (unread p1) (picked p1) (given p1) (turns p1)
                (rows_left p1) (bytes_left p1) (too_big p1 ++ [gid]) (stretched p1)).
Proof.
  intros He Hbig. destruct (pop_facts _ _ _ _ _ Hs Hpop) as (Hg & Hout & Hn & Hnb & Hr & Hsub & _).
  destruct (refill_frame gid (set_turns rest p)) as (E1 & E2 & E3 & _ & E5 & E6 & _ & Efr).
  fold p1 in E1, E2, E3, E5, E6, Efr. simpl in *.
  destruct Hs as [Ht _ Hd Hb Hf]. unfold rooms_in in *.
  split; unfold rooms_in; simpl; rewrite ?E1, ?E2, ?E3, ?E6.
  - eauto.
  - done.
  - intros h Hh Hno Hnt. assert (Hne : h <> gid) by set_solver.
    destruct (Efr h Hne) as [-> ->]. apply Hd; [done| |set_solver]. rewrite Hr. intros [?|?]; done.
  - intros h Hh. rewrite elem_of_app, list_elem_of_singleton in Hh.
    destruct Hh as [Hh| ->]; [|eauto 10]. destruct (Hb h Hh) as (Hh1 & Hh2 & r' & l' & Hh3 & Hh4).
    assert (h <> gid) by (intros ->; done). destruct (Efr h) as [-> _]; [done|].
    split; [done|]. split; [|rewrite E5; eauto]. intros ?. apply Hh2, Hr. by right.
  - intros g h l' r' Hgg Hh. apply Hf; [done|]. apply Hr. by right.
Qed.

Lemma sched_pick r l b s :
  accounts p -> rows_of (buf p1) gid = r :: l -> b <= bytes_left p1 ->
  scheduling (pick gid o r l b s p1).
Proof.
  intros Hacc He Hb'.
  destruct (pop_facts _ _ _ _ _ Hs Hpop) as (Hg & Hout & Hn & Hnb & Hr & Hsub & Hmin).
  destruct (refill_frame gid (set_turns rest p)) as (E1 & E2 & E3 & _ & E5 & E6 & _ & Efr).
  fold p1 in E1, E2, E3, E5, E6, Efr. simpl in *. pose proof (size_nonneg r) as Hsz.
  destruct Hs as [Ht _ Hd Hb Hf]. unfold rooms_in in *.
  split; unfold rooms_in; simpl; rewrite ?E1, ?E2, ?E3, ?E6.
  - intros w' o' g Hin. rewrite int_of_insert. apply elem_of_cons in Hin as [[= -> -> ->]|Hin].
    + by destruct (decide (gid = gid)).
    + assert (g <> gid).
      { intros ->. apply Hout. apply list_elem_of_fmap. by exists (w', o', gid). }
      destruct (decide (g = gid)); [done|]. eauto.
  - by constructor.
  - intros h Hh Hno Hnt. assert (Hne : h <> gid) by set_solver.
    rewrite rows_of_insert. destruct (decide (h = gid)); [done|].
    destruct (Efr h Hne) as [-> ->]. apply Hd; [done| |done]. rewrite Hr. set_solver.
  - intros h Hh. destruct (Hb h Hh) as (Hh1 & Hh2 & r' & l' & Hh3 & Hh4).
    assert (Hne : h <> gid) by (intros ->; done). rewrite rows_of_insert.
    destruct (decide (h = gid)); [done|]. destruct (Efr h Hne) as [-> _].
    split; [done|]. split; [|exists r', l'; split; [done|lia]].
    rewrite Hr in Hh2. set_solver.
  - intros g h l' r' Hgg Hh. rewrite rows_of_insert, int_of_insert.
    assert (Hgiv : int_of (given p) h <= if decide (h = gid) then int_of (given p) gid + size r
                                         else int_of (given p) h).
    { destruct (decide (h = gid)) as [->|]; lia. }
    destruct (decide (g = gid)) as [->|].
    + intros [<- _]%app_inj_tail. rewrite <-(a_given p Hacc gid Hg).
      etrans; [|exact Hgiv]. apply elem_of_cons in Hh as [->|Hh]; [done|]. by apply Hmin.
    + intros Hl. etrans; [|exact Hgiv]. eapply Hf; [done| |exact Hl]. apply Hr. set_solver.
Qed.
End one_turn.
Lemma accounts_frame p p' :
  picked p' = picked p -> given p' = given p -> rows_left p' = rows_left p ->
  bytes_left p' = bytes_left p -> stretched p' = stretched p -> accounts p -> accounts p'.
Proof.
  intros E1 E2 E3 E4 E5 []. split; unfold rows_on, bytes_on in *;
    rewrite ?E1, ?E2, ?E3, ?E4, ?E5; auto.
Qed.

(** What remains to be done: rows of [limit] and rooms in the heap. *)
Definition work (p : page) : nat := (Z.to_nat (rows_left p) + length (turns p))%nat.

Lemma turn_inv p p' :
  inv p -> turn d uin chunk p = Some p' -> inv p' /\ (work p' < work p)%nat.
Proof.
  intros (Hsp & Hac & Hsc). unfold turn. destruct (rows_left p <=? 0) eqn:Erl; [done|].
  destruct (heappop (turns p)) as [[[[w o] gid] rest]|] eqn:Ep; [|done].
  fold (set_turns rest p). set (p1 := refill d uin chunk gid (set_turns rest p)).
  destruct (pop_facts _ _ _ _ _ Hsc Ep) as (Hg & _).
  destruct (refill_frame gid (set_turns rest p)) as (E1 & E2 & E3 & E4 & E5 & E6 & E7 & _).
  fold p1 in E1, E2, E3, E4, E5, E6, E7. simpl in *. breflect.
  assert (Hlen : length (turns p) = S (length rest)).
  { apply heappop_Some in Ep as [Hp _]. by rewrite Hp. }
  assert (Hsp1 : log_split p1) by (apply refill_split; [done|]; by destruct Hsp).
  assert (Hac1 : accounts p1) by (by apply (accounts_frame p)).
  pose proof (a_budget p1 Hac1).
  destruct (rows_of (buf p1) gid) as [|r l] eqn:Eb.
  { intros [= <-]. unfold work. split; [|rewrite E3, E4; lia].
    split; [done|]. split; [done|]. by apply (sched_empty p w o gid rest). }
  destruct (bytes_left p1 <? size r) eqn:Esz; breflect.
  - destruct (negb _ || _ || _) eqn:Ebig.
    + intros [= <-]. unfold work; simpl. split; [|rewrite E3, E4; lia].
      split; [by destruct Hsp1|]. split; [by apply (accounts_frame p1)|].
      by apply (sched_big p w o gid rest Hsc Ep r l).
    + breflect. intros [= <-]. unfold work; simpl. split; [|rewrite E3, E4; simpl; lia].
      split; [by apply pick_split|]. split; [|by apply (sched_pick p w)].
      apply pick_accounts; [done..|lia|lia|]. right. auto.
  - intros [= <-]. unfold work; simpl. split; [|rewrite E3, E4; simpl; lia].
    pose proof (size_nonneg r).
    split; [by apply pick_split|]. split; [|apply (sched_pick p w o gid rest Hsc Ep r l); [done|done|fold p1; lia]].
    apply pick_accounts; [done..|lia|lia|]. left. auto.
Qed.

Lemma loop_inv fuel p : inv p -> inv (loop fuel d uin chunk p).
Proof.
  revert p. induction fuel as [|f IH]; intros p Hp; simpl; [done|].
  destruct (turn d uin chunk p) as [p'|] eqn:E; [|done]. apply IH. by eapply turn_inv.
Qed.

Lemma loop_done fuel p :
  inv p -> (work p <= fuel)%nat -> turn d uin chunk (loop fuel d uin chunk p) = None.
Proof.
  revert p. induction fuel as [|f IH]; intros p Hp Hw; simpl.
  - unfold turn, work in *. destruct (Z.leb_spec (rows_left p) 0); [done|]. lia.
  - destruct (turn d uin chunk p) as [p'|] eqn:E; [|done].
    destruct (turn_inv p p' Hp E). apply IH; [done|lia].
Qed.

Lemma lookup_const {A} (v : A) g :
  g ∈ gids -> (list_to_map (map (fun g => (g, v)) gids) : gmap Z A) !! g = Some v.
Proof.
  intros Hg. apply elem_of_list_to_map_1'.
  - intros y (h & [= -> ->] & _)%list_elem_of_fmap. done.
  - apply list_elem_of_fmap. by exists g.
Qed.

Lemma start_inv : inv (start_page starts limit).
Proof.
  assert (Hpick : forall g, g ∈ gids -> rows_of (picked (start_page starts limit)) g = []).
  { intros g Hg. unfold rows_of. simpl. by rewrite lookup_const. }
  assert (Hgiven : forall g, g ∈ gids -> int_of (given (start_page starts limit)) g = 0).
  { intros g Hg. unfold int_of. simpl. by rewrite lookup_const. }
  assert (Hrooms : rooms_in (start_page starts limit) = gids).
  { unfold rooms_in. simpl. rewrite map_map. simpl. apply map_id. }
  repeat split.
  - intros g start Hin. assert (Hg : g ∈ gids).
    { apply list_elem_of_fmap. by exists (g, start). }
    rewrite Hpick by done. unfold rows_of, int_of. simpl.
    rewrite lookup_const by done. rewrite (elem_of_list_to_map_1 _ g start); done.
  - intros g Hg. unfold flag_of. simpl. by rewrite lookup_const.
  - intros g Hg. by rewrite Hgiven, Hpick.
  - unfold rows_on. rewrite sum_of_0; [simpl; lia|]. intros g Hg. by rewrite Hpick.
  - simpl. lia.
  - unfold bytes_on. rewrite sum_of_0; [simpl; lia|]. intros g Hg. by rewrite Hpick.
  - unfold bytes_on. rewrite sum_of_0; [simpl; lia|]. intros g Hg. by rewrite Hpick.
  - simpl. unfold GROUP_LOG_PAGE_BYTES. lia.
  - apply list_elem_of_fmap in H as (h & [= -> -> ->] & Hh). done.
  - apply list_elem_of_fmap in H as (h & [= -> -> ->] & Hh). rewrite Hgiven; done.
  - by rewrite Hrooms.
  - rewrite Hrooms in H0. done.
  - rewrite Hrooms in H0. done.
  - simpl in H. set_solver.
  - rewrite Hrooms. simpl in H. set_solver.
  - simpl in H. set_solver.
  - intros g h l r Hg Hh. rewrite Hpick by done. by destruct l.
Qed.
(** The state in which the loop stops. *)
Definition final : page := loop (page_fuel starts limit) d uin chunk (start_page starts limit).

Lemma final_inv : inv final.
Proof. apply loop_inv, start_inv. Qed.

Lemma final_done : rows_left final = 0 \/ turns final = [].
Proof.
  assert (Hd : turn d uin chunk final = None).
  { apply loop_done; [apply start_inv|]. unfold work, page_fuel. simpl. rewrite !length_map. lia. }
  destruct final_inv as (_ & Hac & _). pose proof (a_left _ Hac). unfold turn in Hd.
  destruct (Z.leb_spec (rows_left final) 0); [left; lia|]. right.
  destruct (heappop (turns final)) as [[[[w o] g] rest]|] eqn:Ep; [|by apply heappop_None].
  exfalso. simplify_eq/=. by repeat case_match.
Qed.

Lemma min_room_in p best l : min_room gids p best l ∈ best :: l.
Proof.
  revert best. induction l as [|g l IH]; intros best; simpl; [set_solver|].
  case_cond; [specialize (IH best)|specialize (IH g)];
    apply elem_of_cons in IH as [->|IH]; set_solver.
Qed.

Lemma rows_on_pos m g :
  g ∈ gids -> rows_of m g <> [] ->
  1 <= sum_of (fun g => Z.of_nat (length (rows_of m g))) gids.
Proof.
  intros Hg Hne. etrans; [|apply (sum_of_ge _ gids g); [intros y; lia|done]]. simpl.
  destruct (rows_of m g); simpl; [done|lia].
Qed.

(** The two outcomes of the step after the loop. *)
Lemma last_resort_cases :
  (last_resort gids final = final /\ (too_big final = [] \/ 1 <= rows_on gids final))
  \/ exists g r rest, g ∈ gids /\ rows_of (buf final) g = r :: rest /\
       (forall h, h ∈ gids -> rows_of (picked final) h = []) /\
       last_resort gids final =
         mkPage (<[g := rest]> (buf final)) (read_to final) (unread final)
           (<[g := [r]]> (picked final)) (given final) (turns final) (rows_left final)
           (bytes_left final) (too_big final) (stretched final).
Proof.
  destruct final_inv as (_ & _ & Hsc). unfold last_resort.
  destruct (too_big final) as [|g0 l] eqn:Eb; [auto|].
  destruct (existsb _ gids) eqn:Ex.
  - left. split; [done|]. right. apply existsb_elem in Ex as (g & Hg & Hne).
    apply (rows_on_pos _ g Hg). by destruct (rows_of (picked final) g).
  - right. rewrite existsb_false_elem in Ex. set (g := min_room gids final g0 l).
    assert (Hg : g ∈ too_big final) by (rewrite Eb; apply min_room_in).
    destruct (h_big _ Hsc g Hg) as (Hgi & _ & r & rest & Hbuf & _).
    assert (Hempty : forall h, h ∈ gids -> rows_of (picked final) h = []).
    { intros h Hh. specialize (Ex h Hh). by destruct (rows_of (picked final) h). }
    exists g, r, rest. rewrite Hbuf, (Hempty g Hgi). done.
Qed.

Lemma last_resort_split : log_split (last_resort gids final).
Proof.
  destruct final_inv as ([Hr Hu] & _ & _).
  destruct last_resort_cases as [[-> _]|(g & r & rest & Hg & Hbuf & Hempty & ->)]; [done|].
  split; simpl; [|done]. intros h start Hin. rewrite !rows_of_insert, (Hr h start Hin).
  destruct (decide (h = g)) as [->|]; [|done]. by rewrite (Hempty g Hg), Hbuf.
Qed.

(** Rows and bytes of the page that goes out. *)
Lemma last_resort_totals :
  let q := last_resort gids final in
  rows_on gids q <= limit /\
  (bytes_on gids q <= 2 * GROUP_LOG_PAGE_BYTES \/ rows_on gids q = 1).
Proof.
  destruct final_inv as (_ & Hac & _). destruct Hac as [_ Hro Hle Hby _ Hbu]. simpl.
  destruct last_resort_cases as [[-> _]|(g & r & rest & Hg & Hbuf & Hempty & E)].
  - split; [lia|]. left. assert (0 <= GROUP_LOG_PAGE_BYTES) by done. destruct (stretched final); lia.
  - destruct (bytes_on_pick g r (picked final) (picked (last_resort gids final)) Hg) as [_ Er].
    { rewrite E. simpl. rewrite rows_of_insert, (Hempty g Hg). by destruct (decide (g = g)). }
    { intros h Hh. rewrite E. simpl. rewrite rows_of_insert. by destruct (decide (h = g)). }
    unfold rows_on in *. rewrite Er. rewrite sum_of_0 in Hro |- *; [lia|..];
      intros h Hh; by rewrite (Hempty h Hh).
Qed.

Lemma last_resort_progress g start :
  (g, start) ∈ starts -> log_rows d uin g start <> [] ->
  1 <= rows_on gids (last_resort gids final).
Proof.
  intros Hin Hne. destruct final_inv as (Hsp & Hac & Hsc).
  assert (Hg : g ∈ gids) by (apply list_elem_of_fmap; by exists (g, start)).
  destruct last_resort_cases as [[-> Hb]|(h & r & rest & Hh & Hbuf & Hempty & E)].
  - destruct Hb as [Hb|Hb]; [|done].
    destruct final_done as [H0|Ht]; [pose proof (a_rows _ Hac); lia|].
    destruct (h_done _ Hsc g Hg) as [E1 E2]; [unfold rooms_in; rewrite Ht|rewrite Hb|]; [set_solver..|].
    assert (Hp : rows_of (picked final) g <> []).
    { intros E3. apply Hne. by rewrite (s_rows _ Hsp g start Hin), E3, E1, (s_unread _ Hsp g Hg E2). }
    by apply (rows_on_pos _ g Hg).
  - unfold rows_on. rewrite E. simpl.
    apply (rows_on_pos _ h Hh). rewrite rows_of_insert. by destruct (decide (h = h)).
Qed.

Lemma last_resort_fair g h start l r r' rest :
  let q := last_resort gids final in
  g ∈ gids -> (h, start) ∈ starts -> rows_of (picked q) g = l ++ [r] ->
  log_rows d uin h start = rows_of (picked q) h ++ r' :: rest ->
  bytes_on gids q + size r' <= GROUP_LOG_PAGE_BYTES ->
  bytes l <= bytes (rows_of (picked q) h).
Proof.
  simpl. intros Hg Hin Hpg Hrest Hfit. destruct final_inv as (Hsp & Hac & Hsc).
  assert (Hh : h ∈ gids) by (apply list_elem_of_fmap; by exists (h, start)).
  destruct last_resort_cases as [[E _]|(g' & r0 & rest0 & Hg' & Hbuf & Hempty & E)]; rewrite E in *.
  - rewrite <-(a_given _ Hac h Hh). eapply (h_fair _ Hsc g h); [done| |exact Hpg].
    rewrite (s_rows _ Hsp h start Hin) in Hrest. apply app_inv_head in Hrest.
    destruct (decide (h ∈ rooms_in final)) as [|Hno]; [done|].
    destruct (decide (h ∈ too_big final)) as [Hbig|Hnb].
    + destruct (h_big _ Hsc h Hbig) as (_ & _ & r1 & l1 & Hb1 & Hsz). rewrite Hb1 in Hrest.
      simplify_eq/=. pose proof (a_charged _ Hac). lia.
    + destruct (h_done _ Hsc h Hh Hno Hnb) as [E1 E2]. rewrite E1, (s_unread _ Hsp h Hh E2) in Hrest. done.
  - simpl in *. assert (l = []) as ->.
    { rewrite rows_of_insert in Hpg. destruct (decide (g = g')).
      - by destruct l as [|? [|]].
      - rewrite (Hempty g Hg) in Hpg. by destruct l. }
    simpl. apply sum_of_nonneg, size_nonneg.
Qed.
End loop_invariant.

(** ** The page that goes out *)

Definition page_rows (pk : list (Z * list GroupLog)) : Z :=
  sum_of (fun x => Z.of_nat (length x.2)) pk.
Definition page_bytes (pk : list (Z * list GroupLog)) : Z := sum_of (fun x => bytes x.2) pk.

(** The answer in terms of the final state of the loop. *)
Lemma fair_log_page_eq d uin starts limit :
  starts <> [] ->
  let q := last_resort (map fst starts) (final d uin starts limit) in
  fair_log_page d uin starts limit =
    (map (fun g => (g, rows_of (picked q) g)) (map fst starts),
     existsb (fun g => nonempty (rows_of (buf q) g) || flag_of (unread q) g) (map fst starts)).
Proof. by destruct starts. Qed.

Lemma page_totals gids q :
  page_rows (map (fun g => (g, rows_of (picked q) g)) gids) = rows_on gids q /\
  page_bytes (map (fun g => (g, rows_of (picked q) g)) gids) = bytes_on gids q.
Proof. unfold page_rows, page_bytes. by rewrite !sum_of_map. Qed.

Lemma elem_of_page gids q g rows :
  (g, rows) ∈ map (fun g => (g, rows_of (picked q) g)) gids <->
  g ∈ gids /\ rows = rows_of (picked q) g.
Proof.
  rewrite list_elem_of_fmap. split; [intros (x & [= -> ->] & Hx); done|].
  intros [Hg ->]. by exists g.
Qed.

(** The answer lists the rooms it was asked for, in their order. *)
Lemma page_keys d uin starts limit :
  map fst (fair_log_page d uin starts limit).1 = map fst starts.
Proof.
  destruct starts as [|s l]; [done|].
  rewrite fair_log_page_eq by done. simpl. f_equal. rewrite map_map. simpl. apply map_id.
Qed.

Section page_theorems.
#[local] Set Default Proof Using "All".
Context (d : db) (uin : Z) (starts : list (Z * Z)) (limit : Z).
Context (Hpk : log_pk d) (Hgids : NoDup (map fst starts)) (Hlimit : 1 <= limit).

Lemma page_contiguous g start :
  (g, start) ∈ starts ->
  exists rows rest, (g, rows) ∈ (fair_log_page d uin starts limit).1 /\
    log_rows d uin g start = rows ++ rest /\
    ((fair_log_page d uin starts limit).2 = false -> rest = []).
Proof.
  intros Hin. assert (Hne : starts <> []) by (intros ->; set_solver).
  assert (Hg : g ∈ map fst starts) by (apply list_elem_of_fmap; by exists (g, start)).
  rewrite (fair_log_page_eq d uin starts limit Hne). simpl.
  set (q := last_resort _ _).
  destruct (last_resort_split d uin starts limit Hpk Hgids Hlimit) as [Hr Hu]. fold q in Hr, Hu.
  exists (rows_of (picked q) g), (rows_of (buf q) g ++ log_rows d uin g (int_of (read_to q) g)).
  split; [by apply elem_of_page|]. split; [by apply Hr|].
  intros Hm. rewrite existsb_false_elem in Hm. specialize (Hm g Hg). breflect.
  rewrite (Hu g Hg) by done. by destruct (rows_of (buf q) g).
Qed.

Lemma page_progress g start :
  (g, start) ∈ starts -> log_rows d uin g start <> [] ->
  1 <= page_rows (fair_log_page d uin starts limit).1.
Proof.
  intros Hin Hl. assert (Hne : starts <> []) by (intros ->; set_solver).
  rewrite (fair_log_page_eq d uin starts limit Hne). simpl. rewrite (proj1 (page_totals _ _)).
  eapply last_resort_progress; done.
Qed.
End page_theorems.

(** However the turns fall, what a page carries of each room is an
    unbroken run of that room's log from the position it was asked for, which
    is what a per-room ack relies on; and when the answer says there is no
    more, nothing was left behind. *)
Theorem fair_log_page_contiguous d uin starts limit :
  log_pk d -> NoDup (map fst starts) -> 1 <= limit ->
  map fst (fair_log_page d uin starts limit).1 = map fst starts /\
  forall g start, (g, start) ∈ starts ->
    exists rows rest, (g, rows) ∈ (fair_log_page d uin starts limit).1 /\
      log_rows d uin g start = rows ++ rest /\
      ((fair_log_page d uin starts limit).2 = false -> rest = []).
Proof.
  intros Hpk Hg Hl. split; [apply page_keys|by apply page_contiguous].
Qed.

(** C39. The size of a page: never more rows than asked for, and never more
    than twice the byte budget, except for a page that is one single row (the
    oversized row that goes out alone). *)
Theorem fair_log_page_budget d uin starts limit :
  log_pk d -> NoDup (map fst starts) -> 1 <= limit ->
  let pk := (fair_log_page d uin starts limit).1 in
  page_rows pk <= limit /\
  (page_bytes pk <= 2 * GROUP_LOG_PAGE_BYTES \/ page_rows pk = 1).
Proof.
  intros Hpk Hg Hl. simpl. destruct starts as [|s l].
  { unfold page_rows, page_bytes, GROUP_LOG_PAGE_BYTES. simpl. lia. }
  rewrite fair_log_page_eq by done.
  cbn beta iota zeta delta [fst]. rewrite (proj1 (page_totals _ _)), (proj2 (page_totals _ _)).
  by apply last_resort_totals.
Qed.

(** No room is starved: as soon as one of the rooms has a row to give,
    the page is not empty, and a room whose next row still fits what is left of
    the budget has been given at least as many bytes as any other room had
    before that room's last row. *)
Theorem fair_log_page_fair d uin starts limit :
  log_pk d -> NoDup (map fst starts) -> 1 <= limit ->
  let pk := (fair_log_page d uin starts limit).1 in
  (forall g start, (g, start) ∈ starts -> log_rows d uin g start <> [] -> 1 <= page_rows pk) /\
  (forall g h start l r rows r' rest,
     (h, start) ∈ starts -> (g, l ++ [r]) ∈ pk -> (h, rows) ∈ pk ->
     log_rows d uin h start = rows ++ r' :: rest ->
     page_bytes pk + size r' <= GROUP_LOG_PAGE_BYTES ->
     bytes l <= bytes rows).
Proof.
  intros Hpk Hg Hl. simpl. split; [by apply page_progress|].
  intros g h start l r rows r' rest Hin. assert (Hne : starts <> []) by (intros ->; set_solver).
  rewrite (fair_log_page_eq d uin starts limit Hne). simpl fst.
  rewrite (proj2 (page_totals _ _)), !elem_of_page. intros [Hgg E] [Hh ->] Hrest Hfit.
  eapply (last_resort_fair d uin starts limit Hpk Hg Hl g h); eauto.
Qed.

(** Two rooms: a talkative one, and one with a single short row. *)
Definition demo_row (g s : Z) (payload : string) : GroupLog :=
  mkGroupLog g s None "message" 1 payload 0.

Definition demo_log : db :=
  set_group_log (fun _ => [demo_row 21 1 "aaaa"; demo_row 21 2 "bbbb"; demo_row 21 3 "cccc";
                           demo_row 22 1 "dd"]) empty_db.

Lemma fair_log_page_contiguous_witness :
  log_pk demo_log /\
  map fst (fair_log_page demo_log 7 [(21, 0); (22, 0)] 3).1 = [21; 22] /\
  exists rows rest, (22, rows) ∈ (fair_log_page demo_log 7 [(21, 0); (22, 0)] 3).1 /\
    log_rows demo_log 7 22 0 = rows ++ rest.
Proof.
  assert (Hpk : log_pk demo_log) by (unfold log_pk; vm_compute; repeat constructor; set_solver).
  destruct (fair_log_page_contiguous demo_log 7 [(21, 0); (22, 0)] 3 Hpk) as [H1 H2];
    [repeat constructor; set_solver|lia|].
  split; [done|]. split; [exact H1|].
  destruct (H2 22 0) as (rows & rest & Ha & Hb & _);
    [apply elem_of_cons; right; by apply list_elem_of_singleton|].
  exists rows, rest. exact (conj Ha Hb).
Defined.

Lemma fair_log_page_budget_witness :
  page_rows (fair_log_page demo_log 7 [(21, 0); (22, 0)] 3).1 = 3 /\
  page_rows (fair_log_page demo_log 7 [(21, 0); (22, 0)] 3).1 <= 3.
Proof.
  split; [by vm_compute|].
  apply (fair_log_page_budget demo_log 7 [(21, 0); (22, 0)] 3);
    [unfold log_pk; vm_compute; repeat constructor; set_solver|repeat constructor; set_solver|lia].
Defined.

(** With room for two rows the second one comes from the second room, although
    the first has more waiting. *)
Lemma fair_log_page_fair_witness :
  (fair_log_page demo_log 7 [(21, 0); (22, 0)] 2).1
    = [(21, [demo_row 21 1 "aaaa"]); (22, [demo_row 22 1 "dd"])] /\
  1 <= page_rows (fair_log_page demo_log 7 [(21, 0); (22, 0)] 2).1.
Proof.
  split; [by vm_compute|].
  destruct (fair_log_page_fair demo_log 7 [(21, 0); (22, 0)] 2) as [H _];
    [unfold log_pk; vm_compute; repeat constructor; set_solver|repeat constructor; set_solver|lia|].
  apply (H 21 0); [apply elem_of_cons; by left|by vm_compute].
Defined.
