(* ===== verification/Redis.v ===== *)
(** * What the server relies on of Redis

    Redis is a service the program talks to, not a part of it.  [Redis] is the
    interface: the commands the modelled code issues, an observation of the
    keyspace ([peek]: the live value of a key at an instant, with the instant
    it expires), and one law per command stating its documented effect on that
    observation.  Every theorem about code that uses Redis is proved against
    the interface; [map_redis] is an implementation of it (a finite map of
    values and expiry instants), used to evaluate the code on examples.

    The laws say nothing about a command sent to a key that holds a value of
    another type (Redis answers WRONGTYPE). *)

From stdpp Require Import base list gmap strings.
From Stdlib Require Import ZArith Lia.
From S2P Require Import Prelude.

Inductive rvalue :=
  | VStr (s : string)
  | VInt (n : Z)
  | VSet (s : gset string)
  | VZset (z : gmap string Z)
  | VHash (h : gmap string string).

(** A value and the instant at which its key expires. *)
Notation entry := (rvalue * option Z)%type.

Definition live (t : Z) (e : option entry) : option entry :=
  match e with
  | Some (v, Some x) => if x <=? t then None else e
  | _ => e
  end.

Definition expiry (e : option entry) : option Z :=
  match e with Some (_, x) => x | None => None end.

(** Reading a key as one of the data types; a missing key reads as empty. *)
Definition as_zset (e : option entry) : option (gmap string Z) :=
  match e with None => Some ∅ | Some (VZset z, _) => Some z | _ => None end.
Definition as_set (e : option entry) : option (gset string) :=
  match e with None => Some ∅ | Some (VSet s, _) => Some s | _ => None end.
Definition as_int (e : option entry) : option Z :=
  match e with None => Some 0 | Some (VInt n, _) => Some n | _ => None end.
Definition as_hash (e : option entry) : option (gmap string string) :=
  match e with None => Some ∅ | Some (VHash h, _) => Some h | _ => None end.

(** Redis drops a key whose collection has become empty. *)
Definition zset_entry (z : gmap string Z) (x : option Z) : option entry :=
  if decide (z = ∅) then None else Some (VZset z, x).
Definition set_entry (s : gset string) (x : option Z) : option entry :=
  if decide (s = ∅) then None else Some (VSet s, x).
Definition hash_entry (h : gmap string string) (x : option Z) : option entry :=
  if decide (h = ∅) then None else Some (VHash h, x).

Definition deadline (t : Z) (ex : option Z) : option Z :=
  match ex with Some s => Some (t + seconds s) | None => None end.

Class Redis (R : Type) := {
  peek : Z -> string -> R -> option entry;
  (* ZREMRANGEBYSCORE key -inf max; ZCARD key; ZRANGE key 0 0 WITHSCORES *)
  zremrangebyscore : Z -> string -> Z -> R -> R;
  zcard : Z -> string -> R -> Z;
  zrange_first : Z -> string -> R -> option Z;
  zadd : Z -> string -> string -> Z -> R -> R;
  expire : Z -> string -> Z -> R -> R;
  ttl : Z -> string -> R -> Z;
  incrby : Z -> string -> Z -> R -> Z * R;
  (* GET key; SET key value [EX s]; SET key value NX [EX s]; GETDEL key; DEL key *)
  rget : Z -> string -> R -> option string;
  rset : Z -> string -> string -> option Z -> R -> R;
  set_nx : Z -> string -> string -> option Z -> R -> bool * R;
  getdel : Z -> string -> R -> option string * R;
  del : Z -> string -> R -> R;
  sadd : Z -> string -> list string -> R -> R;
  srem : Z -> string -> string -> R -> R;
  sismember : Z -> string -> string -> R -> bool;
  (* SMEMBERS key (in no particular order); SCARD key *)
  smembers : Z -> string -> R -> list string;
  scard : Z -> string -> R -> Z;
  (* SUNIONSTORE dst k1 k2 *)
  sunionstore : Z -> string -> string -> string -> R -> R;
  hget : Z -> string -> string -> R -> option string;
  hset : Z -> string -> string -> string -> R -> R;
  hdel : Z -> string -> string -> R -> R;
  (* HGETALL key (in no particular order); HLEN key; EXISTS key *)
  hgetall : Z -> string -> R -> list (string * string);
  hlen : Z -> string -> R -> Z;
  key_exists : Z -> string -> R -> bool
}.

Section laws.
Context {R : Type} `{Redis R}.

(** [touches t k e r r']: the command changed the key [k] to [e], nothing else. *)
Definition touches (t : Z) (k : string) (e : option entry) (r r' : R) : Prop :=
  forall k', peek t k' r' = if decide (k' = k) then e else peek t k' r.

Class RedisLaws : Prop := {
  (* Time passes: a key lives until its expiry instant. *)
  peek_later t t' k r : t <= t' -> peek t' k r = live t' (peek t k r);
  zremrangebyscore_spec t k c r z :
    as_zset (peek t k r) = Some z ->
    touches t k (zset_entry (filter (fun e => c < e.2) z) (expiry (peek t k r)))
      r (zremrangebyscore t k c r);
  zcard_spec t k r z :
    as_zset (peek t k r) = Some z -> zcard t k r = Z.of_nat (size z);
  zrange_first_spec t k r z :
    as_zset (peek t k r) = Some z ->
    match zrange_first t k r with
    | None => z = ∅
    | Some s => (exists m, z !! m = Some s) /\ forall m' s', z !! m' = Some s' -> s <= s'
    end;
  zadd_spec t k m s r z :
    as_zset (peek t k r) = Some z ->
    touches t k (Some (VZset (<[m := s]> z), expiry (peek t k r))) r (zadd t k m s r);
  expire_spec t k s r :
    touches t k (match peek t k r with
                 | Some (v, _) => live t (Some (v, Some (t + seconds s)))
                 | None => None end) r (expire t k s r);
  ttl_spec t k r :
    match peek t k r with
    | None => ttl t k r = -2
    | Some (_, None) => ttl t k r = -1
    | Some (_, Some _) => 0 <= ttl t k r
    end;
  incrby_spec t k c r n :
    as_int (peek t k r) = Some n ->
    (incrby t k c r).1 = n + c /\
    touches t k (Some (VInt (n + c), expiry (peek t k r))) r (incrby t k c r).2;
  rget_spec t k r :
    match peek t k r with
    | Some (VStr s, _) => rget t k r = Some s
    | None => rget t k r = None
    | _ => True
    end;
  rset_spec t k v ex r :
    touches t k (live t (Some (VStr v, deadline t ex))) r (rset t k v ex r);
  set_nx_spec t k v ex r :
    match peek t k r with
    | Some e => (set_nx t k v ex r).1 = false /\ touches t k (Some e) r (set_nx t k v ex r).2
    | None => (set_nx t k v ex r).1 = true /\
              touches t k (live t (Some (VStr v, deadline t ex))) r (set_nx t k v ex r).2
    end;
  getdel_spec t k r :
    match peek t k r with
    | Some (VStr s, _) => (getdel t k r).1 = Some s /\ touches t k None r (getdel t k r).2
    | None => (getdel t k r).1 = None /\ touches t k None r (getdel t k r).2
    | _ => True
    end;
  del_spec t k r : touches t k None r (del t k r);
  sadd_spec t k l r s :
    as_set (peek t k r) = Some s ->
    touches t k (set_entry (s ∪ list_to_set l) (expiry (peek t k r))) r (sadd t k l r);
  srem_spec t k m r s :
    as_set (peek t k r) = Some s ->
    touches t k (set_entry (s ∖ {[ m ]}) (expiry (peek t k r))) r (srem t k m r);
  sismember_spec t k m r s :
    as_set (peek t k r) = Some s -> sismember t k m r = bool_decide (m ∈ s);
  smembers_spec t k r s :
    as_set (peek t k r) = Some s -> smembers t k r ≡ₚ elements s;
  scard_spec t k r s :
    as_set (peek t k r) = Some s -> scard t k r = Z.of_nat (size s);
  sunionstore_spec t dst k1 k2 r s1 s2 :
    as_set (peek t k1 r) = Some s1 -> as_set (peek t k2 r) = Some s2 ->
    touches t dst (set_entry (s1 ∪ s2) None) r (sunionstore t dst k1 k2 r);
  hget_spec t k f r h :
    as_hash (peek t k r) = Some h -> hget t k f r = h !! f;
  hset_spec t k f v r h :
    as_hash (peek t k r) = Some h ->
    touches t k (Some (VHash (<[f := v]> h), expiry (peek t k r))) r (hset t k f v r);
  hdel_spec t k f r h :
    as_hash (peek t k r) = Some h ->
    touches t k (hash_entry (delete f h) (expiry (peek t k r))) r (hdel t k f r);
  hgetall_spec t k r h :
    as_hash (peek t k r) = Some h -> hgetall t k r ≡ₚ map_to_list h;
  hlen_spec t k r h :
    as_hash (peek t k r) = Some h -> hlen t k r = Z.of_nat (size h);
  key_exists_spec t k r : key_exists t k r = bool_decide (is_Some (peek t k r))
}.
End laws.
Arguments RedisLaws R {_}.

(** ** An implementation *)

Notation store := (gmap string entry).

Definition store_peek (t : Z) (k : string) (r : store) : option entry := live t (r !! k).

Definition store_put (k : string) (e : option entry) (r : store) : store :=
  match e with Some x => <[k := x]> r | None => delete k r end.

(** The least score of a sorted set. *)
Definition min_score (z : gmap string Z) : option Z :=
  match (map_to_list z).*2 with [] => None | s :: l => Some (min_list s l) end.

#[export] Instance map_redis : Redis store := {
  peek := store_peek;
  zremrangebyscore t k c r :=
    match as_zset (store_peek t k r) with
    | Some z => store_put k (zset_entry (filter (fun e => c < e.2) z) (expiry (store_peek t k r))) r
    | None => r end;
  zcard t k r := match as_zset (store_peek t k r) with Some z => Z.of_nat (size z) | None => 0 end;
  zrange_first t k r :=
    match as_zset (store_peek t k r) with Some z => min_score z | None => None end;
  zadd t k m s r :=
    match as_zset (store_peek t k r) with
    | Some z => store_put k (Some (VZset (<[m := s]> z), expiry (store_peek t k r))) r
    | None => r end;
  expire t k s r :=
    store_put k (match store_peek t k r with
                 | Some (v, _) => live t (Some (v, Some (t + seconds s)))
                 | None => None end) r;
  ttl t k r :=
    match store_peek t k r with
    | None => -2
    | Some (_, None) => -1
    | Some (_, Some x) => (x - t + 500000) / 1000000 end;
  incrby t k c r :=
    match as_int (store_peek t k r) with
    | Some n => (n + c, store_put k (Some (VInt (n + c), expiry (store_peek t k r))) r)
    | None => (0, r) end;
  rget t k r := match store_peek t k r with Some (VStr s, _) => Some s | _ => None end;
  rset t k v ex r := store_put k (live t (Some (VStr v, deadline t ex))) r;
  set_nx t k v ex r :=
    match store_peek t k r with
    | Some _ => (false, r)
    | None => (true, store_put k (live t (Some (VStr v, deadline t ex))) r) end;
  getdel t k r :=
    match store_peek t k r with
    | Some (VStr s, _) => (Some s, delete k r)
    | _ => (None, delete k r) end;
  del t k r := delete k r;
  sadd t k l r :=
    match as_set (store_peek t k r) with
    | Some s => store_put k (set_entry (s ∪ list_to_set l) (expiry (store_peek t k r))) r
    | None => r end;
  srem t k m r :=
    match as_set (store_peek t k r) with
    | Some s => store_put k (set_entry (s ∖ {[ m ]}) (expiry (store_peek t k r))) r
    | None => r end;
  sismember t k m r :=
    match as_set (store_peek t k r) with Some s => bool_decide (m ∈ s) | None => false end;
  smembers t k r := match as_set (store_peek t k r) with Some s => elements s | None => [] end;
  scard t k r := match as_set (store_peek t k r) with Some s => Z.of_nat (size s) | None => 0 end;
  sunionstore t dst k1 k2 r :=
    match as_set (store_peek t k1 r), as_set (store_peek t k2 r) with
    | Some s1, Some s2 => store_put dst (set_entry (s1 ∪ s2) None) r
    | _, _ => r end;
  hget t k f r := match as_hash (store_peek t k r) with Some h => h !! f | None => None end;
  hset t k f v r :=
    match as_hash (store_peek t k r) with
    | Some h => store_put k (Some (VHash (<[f := v]> h), expiry (store_peek t k r))) r
    | None => r end;
  hdel t k f r :=
    match as_hash (store_peek t k r) with
    | Some h => store_put k (hash_entry (delete f h) (expiry (store_peek t k r))) r
    | None => r end;
  hgetall t k r :=
    match as_hash (store_peek t k r) with Some h => map_to_list h | None => [] end;
  hlen t k r :=
    match as_hash (store_peek t k r) with Some h => Z.of_nat (size h) | None => 0 end;
  key_exists t k r := bool_decide (is_Some (store_peek t k r))
}.

Lemma live_idem t e : live t (live t e) = live t e.
Proof. destruct e as [[v [x|]]|]; simpl; [|done..]. case_cond; simpl; by rewrite ?Heqb. Qed.

(** A value stored with the expiry of the key it replaces is as live as it. *)
Lemma live_expiry t r k v : live t (Some (v, expiry (store_peek t k r))) = Some (v, expiry (store_peek t k r)).
Proof.
  unfold store_peek. destruct (r !! k) as [[w [x|]]|]; simpl; [|done..].
  destruct (x <=? t) eqn:E; simpl; [done|]. by rewrite E.
Qed.

Lemma store_put_touches t k e (r : store) :
  live t e = e -> touches t k e r (store_put k e r).
Proof.
  intros He k'. unfold peek, map_redis, store_peek, store_put.
  destruct (decide (k' = k)) as [->|Hne].
  - destruct e; [by rewrite lookup_insert_eq|by rewrite lookup_delete_eq].
  - destruct e; [by rewrite lookup_insert_ne|by rewrite lookup_delete_ne].
Qed.

Lemma min_score_spec z :
  match min_score z with
  | None => z = ∅
  | Some s => (exists m, z !! m = Some s) /\ forall m' s', z !! m' = Some s' -> s <= s'
  end.
Proof.
  unfold min_score. destruct ((map_to_list z).*2) as [|s l] eqn:E.
  - apply map_to_list_empty_iff. by destruct (map_to_list z).
  - split.
    + pose proof (min_list_in s l) as Hin. rewrite <-E in Hin.
      apply list_elem_of_fmap in Hin as ([m v] & Hv & Hin%elem_of_map_to_list). simpl in Hv.
      exists m. by rewrite Hv.
    + intros m' s' Hm. apply min_list_lb. rewrite <-E. apply list_elem_of_fmap.
      exists (m', s'). by rewrite elem_of_map_to_list.
Qed.

Lemma live_zset_entry t k r z :
  live t (zset_entry z (expiry (store_peek t k r))) = zset_entry z (expiry (store_peek t k r)).
Proof. unfold zset_entry. destruct (decide (z = ∅)); [done|]. apply live_expiry. Qed.

Lemma live_set_entry t k r s :
  live t (set_entry s (expiry (store_peek t k r))) = set_entry s (expiry (store_peek t k r)).
Proof. unfold set_entry. destruct (decide (s = ∅)); [done|]. apply live_expiry. Qed.

Lemma live_hash_entry t k r h :
  live t (hash_entry h (expiry (store_peek t k r))) = hash_entry h (expiry (store_peek t k r)).
Proof. unfold hash_entry. destruct (decide (h = ∅)); [done|]. apply live_expiry. Qed.

#[export] Hint Resolve store_put_touches live_idem live_expiry live_zset_entry live_set_entry
  live_hash_entry : rcq.

#[export] Instance map_redis_laws : RedisLaws store.
Proof.
  split; intros; cbn -[seconds touches live] in *;
    repeat match goal with H : as_zset _ = Some _ |- _ => rewrite H
           | H : as_set _ = Some _ |- _ => rewrite H | H : as_int _ = Some _ |- _ => rewrite H
           | H : as_hash _ = Some _ |- _ => rewrite H end; auto with rcq.
  - unfold store_peek. destruct (r !! k) as [[v [x|]]|]; simpl; [|done..].
    destruct (x <=? t) eqn:E1; simpl; [|done]. destruct (x <=? t') eqn:E2; breflect; [done|lia].
  - apply min_score_spec.
  - apply store_put_touches. destruct (store_peek t k r) as [[v x]|]; [apply live_idem|done].
  - unfold store_peek. destruct (r !! k) as [[v [x|]]|]; simpl; [|done..].
    destruct (x <=? t) eqn:E; [done|]. breflect. apply Z.div_pos; lia.
  - by destruct (store_peek t k r) as [[[] x]|].
  - unfold store_peek. destruct (live t (r !! k)) as [e|] eqn:E.
    + split; [done|]. intros k'. simpl. destruct (decide (k' = k)) as [->|]; [|done]. exact E.
    + split; [done|]. auto with rcq.
  - unfold store_peek. destruct (live t (r !! k)) as [[[] x]|] eqn:E; try done;
      (split; [done|apply (store_put_touches t k None); done]).
  - apply store_put_touches. unfold set_entry. by destruct (decide _).
Qed.

(** A key is untouched by a command on another key. *)
Lemma touches_other {R} `{Redis R} t k e r r' k' :
  touches t k e r r' -> k' <> k -> peek t k' r' = peek t k' r.
Proof. intros Ht Hne. rewrite (Ht k'). by destruct (decide (k' = k)). Qed.

Lemma touches_same {R} `{Redis R} t k e r r' : touches t k e r r' -> peek t k r' = e.
Proof. intros Ht. rewrite (Ht k). by destruct (decide (k = k)). Qed.
