(* ===== verification/RateLimit.v ===== *)
(** * Rate limiting

    Models [src/app/core/rate_limit.py]: the two Lua scripts that run inside
    Redis, the in-process fallback window, and the functions that turn their
    verdicts into an answer.

    Instants are microseconds ([time.time()] is a float of seconds; the grid is
    finer than what two requests can tell apart).  The clock of the caller and
    the clock of Redis are the same one: the reference island runs both on one
    host. *)

From stdpp Require Import base list sorting gmap strings pretty.
From Stdlib Require Import ZArith Lia.
From S2P Require Import Prelude Redis.

Definition LOCAL_MAX_KEYS : Z := 20000.
Definition WS_CONNECTS_PER_MIN : Z := 12.

(** [_LOCAL_HITS] *)
Notation hits_map := (gmap string (list Z)).

(** [_local_allow]: the verdict and the map afterwards.  Indexing the empty
    deque of a rule with no allowance raises. *)
Definition local_allow (key : string) (limit window now : Z) (hits : hits_map)
    : outcome (bool * Z) * hits_map :=
  let hits := if LOCAL_MAX_KEYS <? Z.of_nat (size hits) then ∅ else hits in
  let cutoff := now - seconds window in
  let l := drop_while (fun h => h <? cutoff) (default [] (hits !! key)) in
  if limit <=? Z.of_nat (length l) then
    (match l with
     | h :: _ => Ok (false, Z.max 1 (Z.quot (h + seconds window - now) usec_per_sec))
     | [] => Raise (IndexError "deque index out of range")
     end, <[key := l]> hits)
  else (Ok (true, 0), <[key := l ++ [now]]> hits).

Section scripts.
Context {R : Type} `{RR : Redis R}.
(** How Redis writes a number it is handed by a script. *)
Context (num : Z -> string).

(** [_LIMITER_SCRIPT]: the verdict, the seconds to wait. *)
Definition limiter_script (key : string) (now window limit : Z) (r : R) : (bool * Z) * R :=
  let cutoff := now - seconds window in
  let r1 := zremrangebyscore now key cutoff r in
  let count := zcard now key r1 in
  if limit <=? count then
    let retry :=
      match zrange_first now key r1 with
      | Some oldest => Z.max 1 ((oldest + seconds window - now) / usec_per_sec + 1)
      | None => 1
      end in
    ((false, retry), r1)
  else
    let r2 := zadd now key (num now) now r1 in
    ((true, 0), expire now key (window + 5) r2).

(** [_COST_SCRIPT] *)
Definition cost_script (key : string) (now cost limit window : Z) (r : R) : (bool * Z) * R :=
  let '(used, r1) := incrby now key cost r in
  let r2 := if used =? cost then expire now key window r1 else r1 in
  if limit <? used then
    let t := ttl now key r2 in
    ((false, if t <? 0 then window else t), r2)
  else ((true, 0), r2).

(** The HMAC that hides an identity; [hmac_hex secret msg] is the hex digest. *)
Context (hmac_hex : string -> string -> string) (secret : string).

Definition bucket_name (identity : string) : string :=
  String.substring 0 16 (hmac_hex secret identity).

Record limiter := mkLimiter { redis : R; local_hits : hits_map }.

Definition too_many (retry_after : Z) : exn := HTTPExceptionN 429 "rate_limited" retry_after.

(** The limiter once the key is known; [up]: whether Redis answers. *)
Definition enforce_key (up : bool) (now : Z) (key : string) (limit window : Z)
    (fail_closed : bool) (s : limiter) : outcome unit * limiter :=
  if up then
    let '((accepted, retry), r') := limiter_script key now window limit (redis s) in
    ((if accepted then Ok tt else Raise (too_many retry)), mkLimiter r' (local_hits s))
  else if negb fail_closed then (Ok tt, s)
  else
    let '(v, h') := local_allow key limit window now (local_hits s) in
    ((let! (allowed, retry) := v in
      if allowed then Ok tt else Raise (too_many retry)), mkLimiter (redis s) h').

Definition rl_key (rule identity : string) : string :=
  ("rl:" ++ rule ++ ":" ++ bucket_name identity)%string.

Definition enforce_rate_limit (up : bool) (now : Z) (identity rule : string)
    (limit window : Z) (fail_closed : bool) (s : limiter) : outcome unit * limiter :=
  enforce_key up now (rl_key rule identity) limit window fail_closed s.

(** [rate_limit(...)._dep] once the caller's identity is known. *)
Definition rate_limit_dep (up : bool) (now : Z) (identity rule : string)
    (limit window : Z) (fail_closed : bool) (s : limiter) : outcome unit * limiter :=
  enforce_key up now (rl_key rule identity) limit window fail_closed s.

Definition enforce_cost_budget (up : bool) (now : Z) (identity rule : string)
    (cost limit window : Z) (s : limiter) : outcome unit * limiter :=
  if cost <=? 0 then (Ok tt, s)
  else if negb up then (Ok tt, s)
  else
    let key := ("rlc:" ++ rule ++ ":" ++ bucket_name identity)%string in
    let '((accepted, retry), r') := cost_script key now cost limit window (redis s) in
    ((if accepted then Ok tt else Raise (HTTPExceptionN 429 "fanout_budget_exhausted" retry)),
     mkLimiter r' (local_hits s)).

(** One window of [island_ceiling]; its key has no identity in it. *)
Definition ceiling_window (up : bool) (now : Z) (key : string) (window limit : Z) (s : limiter)
    : outcome unit * limiter :=
  let '(v, s') :=
    if up then
      let '((accepted, retry), r') := limiter_script key now window limit (redis s) in
      (Ok (accepted, retry), mkLimiter r' (local_hits s))
    else
      let '(v, h') := local_allow key limit window now (local_hits s) in
      (v, mkLimiter (redis s) h') in
  ((let! (accepted, retry) := v in
    if accepted : bool then Ok tt else Raise (HTTPExceptionN 503 "island_busy" retry)), s').

Definition island_ceiling (up60 up3600 : bool) (now : Z) (rule : string)
    (per_minute per_hour : Z) (s : limiter) : outcome unit * limiter :=
  match ceiling_window up60 now ("rl:ceiling:" ++ rule ++ ":60")%string 60 per_minute s with
  | (Ok _, s1) =>
      ceiling_window up3600 now ("rl:ceiling:" ++ rule ++ ":3600")%string 3600 per_hour s1
  | (Raise e, s1) => (Raise e, s1)
  end.

Definition allow_ws_connect (up : bool) (now : Z) (uin : string) (s : limiter) : bool * limiter :=
  if negb up then (true, s)
  else
    let key := ("wsrate:" ++ bucket_name ("uin:" ++ uin))%string in
    let '((accepted, _), r') := cost_script key now 1 WS_CONNECTS_PER_MIN 60 (redis s) in
    (accepted, mkLimiter r' (local_hits s)).
End scripts.
Arguments limiter R : clear implicits.
Arguments mkLimiter {R} _ _.
Arguments redis {R} _.
Arguments local_hits {R} _.

(** ** The sliding window *)

Section sliding_window.
Context {R : Type} `{RL : RedisLaws R}.
Context (num : Z -> string) (num_inj : forall a b, num a = num b -> a = b).
Context (key : string) (window : Z) (Hwin : 0 <= window).
#[local] Set Default Proof Using "All".

(** The bucket holds the accepted requests [A] that are still in the window,
    and lives long enough to hold them. *)
Definition bucket_ok (t : Z) (r : R) (A : gset Z) : Prop :=
  (forall a, a ∈ A -> a <= t) /\
  exists z, as_zset (peek t key r) = Some z /\
    (forall m s, z !! m = Some s -> m = num s /\ s ∈ A) /\
    (forall a, a ∈ A -> t - seconds window < a -> z !! num a = Some a) /\
    (forall x, expiry (peek t key r) = Some x -> forall a, a ∈ A -> a + seconds window < x).

Lemma bucket_ok_later t t' r A : t <= t' -> bucket_ok t r A -> bucket_ok t' r A.
Proof.
  intros Ht (HA & z & Hz & Hin & Hkeep & Hexp). split; [intros a Ha; specialize (HA a Ha); lia|].
  rewrite (peek_later t t') by done.
  destruct (peek t key r) as [[v [x|]]|] eqn:E; simpl in *; [|eauto 10 with lia..].
  destruct (x <=? t') eqn:Ex; breflect; simpl; [|eauto 10 with lia].
  exists ∅. split; [done|]. split; [intros m s; by rewrite lookup_empty|]. split; [|done].
  intros a Ha Hw. specialize (Hexp x eq_refl a Ha). lia.
Qed.

(** The members of the bucket after the sweep of the script. *)
Definition in_window (t : Z) (A : gset Z) : gset Z := filter (fun a => t - seconds window < a) A.

Lemma swept_size t (z : gmap string Z) A :
  (forall m s, z !! m = Some s -> m = num s /\ s ∈ A) ->
  (forall a, a ∈ A -> t - seconds window < a -> z !! num a = Some a) ->
  size (filter (fun e => t - seconds window < e.2) z) = size (in_window t A).
Proof.
  intros Hin Hkeep.
  assert (E : filter (fun e : string * Z => t - seconds window < e.2) z
            = set_to_map (fun a => (num a, a)) (in_window t A)).
  { apply map_eq. intros m. apply option_eq. intros s.
    rewrite map_lookup_filter_Some, lookup_set_to_map
      by (intros a b _ _ E; by apply num_inj). simpl. unfold in_window.
    split.
    - intros [Hz Hs]. destruct (Hin m s Hz) as [-> HsA]. exists s.
      rewrite elem_of_filter. done.
    - intros (a & Ha & [= <- <-]). apply elem_of_filter in Ha as [Hw Ha]. auto. }
  rewrite E. unfold set_to_map. rewrite map_size_list_to_map.
  - by rewrite length_fmap.
  - rewrite <-list_fmap_compose. apply NoDup_fmap_2_strong; [|apply NoDup_elements].
    intros a b _ _ Hab. by apply num_inj.
Qed.

(** One call of the script. *)
Lemma limiter_step now limit r A :
  bucket_ok now r A ->
  let n := Z.of_nat (size (in_window now A)) in
  let '((accepted, _), r') := limiter_script num key now window limit r in
  (accepted = bool_decide (n < limit)) /\
  bucket_ok now r' (if accepted then A ∪ {[ now ]} else A).
Proof.
  intros (HA & z & Hz & Hin & Hkeep & Hexp). cbv zeta. unfold limiter_script.
  set (w := seconds window) in *.
  pose proof (zremrangebyscore_spec now key (now - w) r z Hz) as Hrem.
  set (r1 := zremrangebyscore now key (now - w) r) in *.
  set (z1 := filter (fun e : string * Z => now - w < e.2) z) in *.
  assert (Hp1 : as_zset (peek now key r1) = Some z1).
  { rewrite (touches_same _ _ _ _ _ Hrem). unfold zset_entry. by destruct (decide (z1 = ∅)) as [->|]. }
  assert (He1 : forall x, expiry (peek now key r1) = Some x -> forall a, a ∈ A -> a + w < x).
  { rewrite (touches_same _ _ _ _ _ Hrem). unfold zset_entry. destruct (decide (z1 = ∅)); [done|]. exact Hexp. }
  assert (Hin1 : forall m s, z1 !! m = Some s -> m = num s /\ s ∈ A).
  { intros m s [? _]%map_lookup_filter_Some. auto. }
  assert (Hk1 : forall a, a ∈ A -> now - w < a -> z1 !! num a = Some a).
  { intros a Ha Hw. apply map_lookup_filter_Some. auto. }
  pose proof (swept_size now z A Hin Hkeep) as Hsz. fold w in Hsz. fold z1 in Hsz.
  rewrite (zcard_spec _ _ _ _ Hp1), Hsz.
  destruct (limit <=? _) eqn:El; breflect.
  - rewrite bool_decide_eq_false_2 by lia. split; [done|]. split; [done|]. eauto 10.
  - rewrite bool_decide_eq_true_2 by lia. split; [done|].
    pose proof (zadd_spec now key (num now) now r1 z1 Hp1) as Hadd.
    set (r2 := zadd now key (num now) now r1) in *.
    pose proof (expire_spec now key (window + 5) r2) as Hx.
    set (r3 := expire now key (window + 5) r2) in *.
    assert (Hp3 : peek now key r3 = Some (VZset (<[num now := now]> z1), Some (now + seconds (window + 5)))).
    { rewrite (touches_same _ _ _ _ _ Hx), (touches_same _ _ _ _ _ Hadd). simpl.
      destruct (Z.leb_spec (now + seconds (window + 5)) now); [|done].
      unfold seconds, usec_per_sec in *. lia. }
    split; [intros a; rewrite elem_of_union, elem_of_singleton; intros [Ha| ->]; [auto|lia]|].
    exists (<[num now := now]> z1). rewrite Hp3. split; [done|]. split; [|split].
    + intros m s. rewrite lookup_insert_Some. intros [[<- <-]|[_ Hm]]; [set_solver|].
      destruct (Hin1 m s Hm). set_solver.
    + intros a Ha Hw. apply elem_of_union in Ha as [Ha|Ha%elem_of_singleton];
        [|subst; by rewrite lookup_insert_eq].
      destruct (decide (a = now)) as [->|Hne]; [by rewrite lookup_insert_eq|].
      rewrite lookup_insert_ne by (intros E%num_inj; done). auto.
    + simpl. intros x [= <-] a Ha. apply elem_of_union in Ha as [Ha|Ha%elem_of_singleton].
      * specialize (HA a Ha). unfold w, seconds, usec_per_sec. lia.
      * subst. unfold w, seconds, usec_per_sec. lia.
Qed.

Lemma bucket_ok_fresh t r : peek t key r = None -> bucket_ok t r ∅.
Proof.
  intros Hp. split; [set_solver|]. exists ∅. rewrite Hp. split; [done|].
  split; [intros m s; by rewrite lookup_empty|]. split; [set_solver|done].
Qed.

(** A sequence of requests on one bucket: the accepted instants. *)
Fixpoint limiter_run (limit : Z) (times : list Z) (A : gset Z) (r : R) : gset Z * R :=
  match times with
  | [] => (A, r)
  | t :: ts =>
      let '((accepted, _), r') := limiter_script num key t window limit r in
      limiter_run limit ts (if accepted then A ∪ {[ t ]} else A) r'
  end.

(** The accepted instants of the window that ends at [t]. *)
Definition window_at (t : Z) (A : gset Z) : gset Z :=
  filter (fun a => t - seconds window < a /\ a <= t) A.

Lemma window_at_accept limit now A :
  (forall t, Z.of_nat (size (window_at t A)) <= limit) ->
  Z.of_nat (size (in_window now A)) < limit ->
  forall t, Z.of_nat (size (window_at t (A ∪ {[ now ]}))) <= limit.
Proof.
  intros Hb Hn t. destruct (decide (t < now)) as [Hlt|Hge].
  - assert (window_at t (A ∪ {[ now ]}) = window_at t A) as ->; [|auto].
    apply set_eq. intros a. unfold window_at. rewrite !elem_of_filter, elem_of_union, elem_of_singleton.
    split; [|naive_solver]. intros [[? ?] [?| ->]]; [done|lia].
  - assert (Hsub : window_at t (A ∪ {[ now ]}) ⊆ in_window now A ∪ {[ now ]}).
    { intros a. unfold window_at, in_window.
      rewrite elem_of_union, !elem_of_filter, elem_of_union, elem_of_singleton.
      intros [[? ?] [?| ->]]; [left; split; [lia|done]|by right]. }
    apply subseteq_size in Hsub. pose proof (size_union_alt (in_window now A) {[ now ]}) as Hu.
    assert (size ({[ now ]} ∖ in_window now A) <= 1)%nat.
    { rewrite <-(size_singleton (C := gset Z) now). apply subseteq_size. set_solver. }
    lia.
Qed.

Lemma limiter_run_bound limit times A t0 r :
  Forall (fun t => t0 <= t) times -> StronglySorted Z.le times -> bucket_ok t0 r A ->
  (forall t, Z.of_nat (size (window_at t A)) <= limit) ->
  forall t, Z.of_nat (size (window_at t (limiter_run limit times A r).1)) <= limit.
Proof.
  revert A t0 r. induction times as [|now ts IH]; intros A t0 r Hge Hs Hok Hb; simpl; [done|].
  apply Forall_cons in Hge as [Hge _]. apply StronglySorted_inv in Hs as [Hs Hn].
  pose proof (limiter_step now limit r A (bucket_ok_later t0 now r A Hge Hok)) as Hst. cbv zeta in Hst.
  destruct (limiter_script num key now window limit r) as [[acc rt] r'].
  destruct Hst as [Hacc Hok']. apply (IH _ now); [done|done|done|].
  destruct acc; [|done]. apply window_at_accept; [done|].
  symmetry in Hacc. by apply bool_decide_eq_true_1 in Hacc.
Qed.

(** After the announced wait one of the requests has left the window. *)
Lemma retry_leaves limit now r A ra r' :
  bucket_ok now r A -> 1 <= limit ->
  limiter_script num key now window limit r = ((false, ra), r') ->
  (size (in_window (now + seconds ra) A) < size (in_window now A))%nat.
Proof.
  intros (HA & z & Hz & Hin & Hkeep & Hexp) Hlim. unfold limiter_script.
  pose proof (zremrangebyscore_spec now key (now - seconds window) r z Hz) as Hrem.
  set (r1 := zremrangebyscore now key (now - seconds window) r) in *.
  set (z1 := filter (fun e : string * Z => now - seconds window < e.2) z) in *.
  assert (Hp1 : as_zset (peek now key r1) = Some z1).
  { rewrite (touches_same _ _ _ _ _ Hrem). unfold zset_entry. by destruct (decide (z1 = ∅)) as [->|]. }
  rewrite (zcard_spec _ _ _ _ Hp1). destruct (limit <=? _) eqn:El; [|done]. breflect.
  pose proof (zrange_first_spec now key r1 z1 Hp1) as Hf.
  destruct (zrange_first now key r1) as [s|].
  - intros [= <- <-]. destruct Hf as [[m Hm] _].
    apply map_lookup_filter_Some in Hm as [Hm Hs]. simpl in Hs. destruct (Hin m s Hm) as [_ HsA].
    set (ra := Z.max 1 _).
    assert (Hout : now + seconds ra - seconds window > s).
    { pose proof (Z.mod_pos_bound (s + seconds window - now) usec_per_sec ltac:(done)).
      pose proof (Z.div_mod (s + seconds window - now) usec_per_sec ltac:(done)).
      assert (seconds ra >= (((s + seconds window - now) / usec_per_sec) + 1) * usec_per_sec).
      { unfold ra. unfold seconds at 1. unfold usec_per_sec in *. lia. }
      unfold usec_per_sec in *. lia. }
    assert (0 <= seconds ra) by (unfold ra, seconds, usec_per_sec; lia).
    apply subset_size. split.
    + intros a. unfold in_window. rewrite !elem_of_filter. intros [? ?]. split; [lia|done].
    + intros Hsub. assert (Hs' : s ∈ in_window now A) by (apply elem_of_filter; done).
      apply Hsub in Hs'. apply elem_of_filter in Hs'. lia.
  - subst. rewrite Hf, map_size_empty in El. lia.
Qed.
End sliding_window.

(** The limiter enforces its sliding window: however requests fall in
    time, no window of [window] seconds ever contains more than [limit]
    accepted instants. *)
Theorem limiter_window_bound {R} `{RL : RedisLaws R} num key window limit t0 times (r : R) :
  (forall a b, num a = num b -> a = b) -> 0 <= window -> 0 <= limit ->
  peek t0 key r = None -> Forall (fun t => t0 <= t) times -> StronglySorted Z.le times ->
  forall t, Z.of_nat (size (window_at window t
                        (limiter_run num key window limit times ∅ r).1)) <= limit.
Proof.
  intros Hinj Hw Hl Hp Hge Hs. apply (limiter_run_bound num Hinj key window Hw limit times ∅ t0 r);
    [done|done| |].
  - by apply bucket_ok_fresh.
  - intros t. assert (window_at window t ∅ = ∅) as -> by (apply set_eq; set_solver).
    by rewrite size_empty.
Qed.

(** A refused caller is told the truth: whoever waits the announced number
    of seconds, with nobody else having spent the bucket meanwhile, is
    accepted. *)
Theorem limiter_retry_after {R} `{RL : RedisLaws R} num key window limit now (r : R) A ra r' :
  (forall a b, num a = num b -> a = b) -> 0 <= window -> 1 <= limit ->
  bucket_ok num key window now r A -> Z.of_nat (size (in_window window now A)) <= limit ->
  limiter_script num key now window limit r = ((false, ra), r') ->
  (limiter_script num key (now + seconds ra) window limit r').1.1 = true.
Proof.
  intros Hinj Hw Hl Hok Hn Hs.
  pose proof (retry_leaves num Hinj key window Hw limit now r A ra r' Hok Hl Hs) as Hlt.
  pose proof (limiter_step num Hinj key window Hw now limit r A Hok) as Hst.
  rewrite Hs in Hst. destruct Hst as [_ Hok'].
  assert (Hra : 1 <= ra).
  { unfold limiter_script in Hs. destruct (limit <=? _); [|done].
    destruct (zrange_first _ _ _); injection Hs as <- _; lia. }
  assert (0 <= seconds ra) by (unfold seconds, usec_per_sec; lia).
  pose proof (limiter_step num Hinj key window Hw (now + seconds ra) limit r' A
                (bucket_ok_later num Hinj key window Hw now (now + seconds ra) r' A ltac:(lia) Hok')) as Hst.
  cbv zeta in Hst. destruct (limiter_script num key (now + seconds ra) window limit r') as [[acc ?] ?].
  destruct Hst as [-> _]. apply bool_decide_eq_true_2. lia.
Qed.

(** ** The fallback window *)

Lemma drop_while_sorted (c : Z) (l : list Z) :
  StronglySorted Z.le l -> drop_while (fun h => h <? c) l = filter (fun h => c <= h) l.
Proof.
  induction l as [|h l IH]; intros Hs; simpl; [done|].
  apply StronglySorted_inv in Hs as [Hs Hh]. rewrite filter_cons.
  destruct (h <? c) eqn:E; breflect.
  - destruct (decide (c <= h)); [lia|]. auto.
  - destruct (decide (c <= h)); [|lia]. f_equal. symmetry. apply filter_all.
    eapply Forall_impl; [exact Hh|]. simpl. lia.
Qed.

(** Without Redis a fail-closed rule still counts: the in-process window
    accepts exactly while fewer than [limit] of the hits it has recorded are at
    most [window] seconds old, and records what it accepts. *)
Theorem local_allow_spec key limit window now (hits : hits_map) :
  Z.of_nat (size hits) <= LOCAL_MAX_KEYS -> StronglySorted Z.le (default [] (hits !! key)) ->
  1 <= limit ->
  let l := filter (fun h => now - seconds window <= h) (default [] (hits !! key)) in
  let '(v, hits') := local_allow key limit window now hits in
  if decide (Z.of_nat (length l) < limit)
  then v = Ok (true, 0) /\ hits' = <[key := l ++ [now]]> hits
  else (exists ra, v = Ok (false, ra) /\ 1 <= ra) /\ hits' = <[key := l]> hits.
Proof.
  intros Hsz Hs Hl. cbv zeta. unfold local_allow.
  destruct (LOCAL_MAX_KEYS <? _) eqn:E; breflect; [lia|].
  rewrite drop_while_sorted by done. set (l := filter _ _).
  destruct (decide (Z.of_nat (length l) < limit)).
  - destruct (Z.leb_spec limit (Z.of_nat (length l))); [lia|done].
  - destruct (Z.leb_spec limit (Z.of_nat (length l))); [|lia]. split; [|done].
    destruct l as [|h l']; simpl in *; [lia|]. eexists. split; [done|lia].
Qed.

(** The wait the fallback announces is too short: a caller who is told to
    come back after [ra] seconds (with at least a second to go), does so, and
    meets nobody else in the bucket, is refused again. *)
Theorem local_retry_too_soon key limit window now (hits hits' : hits_map) ra h l :
  Z.of_nat (size hits) < LOCAL_MAX_KEYS -> 1 <= limit ->
  local_allow key limit window now hits = (Ok (false, ra), hits') ->
  hits' !! key = Some (h :: l) -> seconds 1 <= h + seconds window - now ->
  exists ra' hits'', local_allow key limit window (now + seconds ra) hits' = (Ok (false, ra'), hits'').
Proof.
  intros Hsz Hl. unfold local_allow at 1. destruct (LOCAL_MAX_KEYS <? _) eqn:E; breflect; [lia|].
  set (l0 := drop_while _ _). destruct (Z.leb_spec limit (Z.of_nat (length l0))) as [Hlim|]; [|done].
  destruct l0 as [|h0 l0'] eqn:El; [done|]. intros [= <- <-] Hk Hx.
  rewrite lookup_insert_eq in Hk. injection Hk as <- <-.
  set (x := h0 + seconds window - now) in *. set (ra := Z.max 1 _).
  assert (Hra : seconds ra <= x).
  { unfold ra, seconds, usec_per_sec in *. rewrite Z.quot_div_nonneg by lia.
    pose proof (Z.mul_div_le x 1000000 ltac:(lia)).
    pose proof (Z.div_le_mono 1000000 x 1000000 ltac:(lia) ltac:(lia)) as H1.
    rewrite Z.div_same in H1 by lia. lia. }
  unfold local_allow. destruct (LOCAL_MAX_KEYS <? _) eqn:E2; breflect.
  { rewrite map_size_insert in E2. destruct (hits !! key); simpl in *; lia. }
  rewrite lookup_insert_eq. simpl. destruct (Z.ltb_spec h0 (now + seconds ra - seconds window)); [lia|].
  destruct (Z.leb_spec limit (Z.of_nat (length (h0 :: l0')))); [|simpl in *; lia]. eauto.
Qed.

(** ** The cost budget *)

(** Charges against one budget; the verdicts, in order. *)
Fixpoint cost_run {R} `{Redis R} (key : string) (limit window : Z) (charges : list (Z * Z)) (r : R)
    : list bool :=
  match charges with
  | [] => []
  | (t, c) :: l =>
      let '((ok, _), r') := cost_script key t c limit window r in
      ok :: cost_run key limit window l r'
  end.

(** The verdicts of a counter that starts at [used]. *)
Fixpoint within (limit used : Z) (costs : list Z) : list bool :=
  match costs with
  | [] => []
  | c :: l => bool_decide (used + c <= limit) :: within limit (used + c) l
  end.

Section cost_budget.
Context {R : Type} `{RL : RedisLaws R} (key : string) (limit window : Z).
#[local] Set Default Proof Using "All".

Lemma cost_run_within charges t0 t used x (r : R) :
  Forall (fun '(t', c) => t <= t' < x /\ 0 < c) charges ->
  StronglySorted Z.le (map fst charges) -> t0 <= t -> t < x -> 0 < used ->
  peek t0 key r = Some (VInt used, Some x) ->
  cost_run key limit window charges r = within limit used (map snd charges).
Proof.
  revert t0 t used r. induction charges as [|[t' c] l IH]; intros t0 t used r Hf Hs H0 Ht Hu Hp; [done|].
  apply Forall_cons in Hf as [[[Ht1 Ht2] Hc] Hf]. apply StronglySorted_inv in Hs as [Hs Hn].
  assert (Hp' : peek t' key r = Some (VInt used, Some x)).
  { rewrite (peek_later t0 t') by lia. rewrite Hp. simpl.
    destruct (Z.leb_spec x t'); [lia|done]. }
  cbn [cost_run map snd within fst]. unfold cost_script.
  destruct (incrby_spec t' key c r used) as [E1 Et]; [by rewrite Hp'|].
  destruct (incrby t' key c r) as [u r1]. simpl in E1, Et. subst u. rewrite Hp' in Et. simpl in Et.
  destruct (Z.eqb_spec (used + c) c); [lia|].
  assert (IHr : cost_run key limit window l r1 = within limit (used + c) (map snd l)).
  { apply (IH t' t'); [|done|lia|lia|lia|apply (touches_same _ _ _ _ _ Et)].
    apply list.Forall_forall. intros [t2 c2] Hin. rewrite list.Forall_forall in Hf.
    specialize (Hf _ Hin). simpl in Hf. rewrite list.Forall_forall in Hn.
    specialize (Hn t2). split; [|tauto]. split; [|lia]. apply Hn.
    apply list_elem_of_fmap. by exists (t2, c2). }
  destruct (Z.ltb_spec limit (used + c)).
  - rewrite bool_decide_eq_false_2 by lia. by rewrite IHr.
  - rewrite bool_decide_eq_true_2 by lia. by rewrite IHr.
Qed.
End cost_budget.

(** The fan-out budget: within one window of [window] seconds from the
    first charge, a charge goes through exactly when the charges so far,
    refused ones included, add up to at most [limit]. *)
Theorem cost_budget_exact {R} `{RL : RedisLaws R} key limit window t0 c0 charges (r : R) :
  peek t0 key r = None -> 0 < window -> 0 < c0 ->
  Forall (fun '(t, c) => t0 <= t < t0 + seconds window /\ 0 < c) charges ->
  StronglySorted Z.le (map fst charges) ->
  cost_run key limit window ((t0, c0) :: charges) r = within limit 0 (c0 :: map snd charges).
Proof.
  intros Hp Hw Hc Hf Hs. cbn [cost_run within]. unfold cost_script.
  destruct (incrby_spec t0 key c0 r 0) as [E1 Et]; [by rewrite Hp|].
  destruct (incrby t0 key c0 r) as [u r1]. simpl in E1, Et. subst u.
  rewrite Hp in Et. rewrite Z.eqb_refl. pose proof (expire_spec t0 key window r1) as Hx.
  rewrite (touches_same _ _ _ _ _ Et) in Hx. simpl in Hx.
  assert (0 < seconds window) by (unfold seconds, usec_per_sec; lia).
  destruct (Z.leb_spec (t0 + seconds window) t0); [lia|].
  pose proof (cost_run_within key limit window charges t0 t0 c0 (t0 + seconds window) _ Hf Hs
                ltac:(lia) ltac:(lia) Hc (touches_same _ _ _ _ _ Hx)) as Hrun.
  rewrite Z.add_0_l. destruct (Z.ltb_spec limit c0).
  - rewrite bool_decide_eq_false_2 by lia. by rewrite Hrun.
  - rewrite bool_decide_eq_true_2 by lia. by rewrite Hrun.
Qed.

(** ** The theorems on examples *)

(** Four requests a second apart under a limit of two per minute. *)
Lemma limiter_window_bound_witness :
  elements (limiter_run (pretty : Z -> string) "rl:x:y" 60 2
              [0; seconds 1; seconds 2; seconds 61] ∅ (∅ : store)).1
    = [seconds 61; seconds 1; 0] /\
  forall t, Z.of_nat (size (window_at 60 t
    (limiter_run (pretty : Z -> string) "rl:x:y" 60 2
       [0; seconds 1; seconds 2; seconds 61] ∅ (∅ : store)).1)) <= 2.
Proof.
  split; [by vm_compute|].
  apply (limiter_window_bound (pretty : Z -> string) "rl:x:y" 60 2 0); try done.
  - intros a b E. by apply (inj pretty).
  - repeat constructor; done.
  - repeat constructor; done.
Defined.

Lemma limiter_retry_after_witness :
  let r1 := (limiter_script (pretty : Z -> string) "k" 0 60 1 (∅ : store)).2 in
  limiter_script (pretty : Z -> string) "k" (seconds 10) 60 1 r1 = ((false, 51), r1) /\
  (limiter_script (pretty : Z -> string) "k" (seconds 10 + seconds 51) 60 1 r1).1.1 = true.
Proof.
  assert (Hinj : forall a b : Z, (pretty a : string) = pretty b -> a = b)
    by (intros a b E; by apply (inj pretty)).
  cbv zeta. set (r1 := (limiter_script _ _ _ _ _ _).2).
  assert (Hs : limiter_script (pretty : Z -> string) "k" (seconds 10) 60 1 r1 = ((false, 51), r1))
    by (vm_compute; reflexivity).
  split; [exact Hs|].
  assert (Hok : bucket_ok (pretty : Z -> string) "k" 60 (seconds 10) r1 {[ 0 ]}).
  { apply (bucket_ok_later pretty Hinj "k" 60 ltac:(lia) 0); [done|].
    pose proof (limiter_step pretty Hinj "k" 60 ltac:(lia) 0 1 (∅ : store) ∅
                  (bucket_ok_fresh pretty Hinj "k" 60 ltac:(lia) 0 (∅ : store) eq_refl)) as H.
    unfold r1. destruct (limiter_script _ _ _ _ _ _) as [[acc ra] r']. simpl in *.
    destruct H as [-> H]. by rewrite (left_id_L ∅ (∪)) in H. }
  apply (limiter_retry_after (pretty : Z -> string) "k" 60 1 (seconds 10) r1 {[ 0 ]} 51 r1);
    [done|done|done|exact Hok|by vm_compute|exact Hs].
Defined.

Lemma local_allow_spec_witness :
  let hits := <["k" := [0; seconds 5]]> (∅ : hits_map) in
  (exists ra, (local_allow "k" 2 60 (seconds 30) hits).1 = Ok (false, ra) /\ 1 <= ra) /\
  (local_allow "k" 2 60 (seconds 61) hits).1 = Ok (true, 0).
Proof.
  cbv zeta. set (hits := <["k" := [0; seconds 5]]> (∅ : hits_map)).
  assert (Hs : StronglySorted Z.le (default [] (hits !! ("k" : string)))).
  { vm_compute. repeat constructor; done. }
  split.
  - pose proof (local_allow_spec "k" 2 60 (seconds 30) hits ltac:(by vm_compute) Hs ltac:(lia)) as H.
    cbv zeta in H. destruct (local_allow "k" 2 60 (seconds 30) hits) as [v h'].
    destruct (decide _) as [E|_] in H; [vm_compute in E; done|]. exact (proj1 H).
  - pose proof (local_allow_spec "k" 2 60 (seconds 61) hits ltac:(by vm_compute) Hs ltac:(lia)) as H.
    cbv zeta in H. destruct (local_allow "k" 2 60 (seconds 61) hits) as [v h'].
    destruct (decide _) as [_|E] in H; [exact (proj1 H)|]. exfalso. apply E. by vm_compute.
Defined.

(** Told to wait 49 seconds 10.5 seconds into the minute, and refused again
    49 seconds later. *)
Lemma local_retry_too_soon_witness :
  let hits := <["k" := [0]]> (∅ : hits_map) in
  local_allow "k" 1 60 10500000 hits = (Ok (false, 49), hits) /\
  exists ra' hits'', local_allow "k" 1 60 (10500000 + seconds 49) hits = (Ok (false, ra'), hits'').
Proof.
  cbv zeta. split; [by vm_compute|].
  apply (local_retry_too_soon "k" 1 60 10500000 (<["k" := [0]]> (∅ : hits_map)) _ 49 0 []);
    [by vm_compute|lia|by vm_compute|by vm_compute|by vm_compute].
Defined.

Lemma cost_budget_exact_witness :
  cost_run "k" 100 60 [(0, 60); (seconds 1, 50); (seconds 2, 10)] (∅ : store)
    = [true; false; false] /\
  cost_run "k" 100 60 [(0, 60); (seconds 1, 50); (seconds 2, 10)] (∅ : store)
    = within 100 0 [60; 50; 10].
Proof.
  split; [by vm_compute|].
  apply (cost_budget_exact "k" 100 60 0 60 [(seconds 1, 50); (seconds 2, 10)] (∅ : store));
    [done|lia|lia|repeat constructor; done|repeat constructor; done].
Defined.
