(* ===== verification/GuestPolicy.v ===== *)
(** * Guest copies: who is one

    Models [src/app/core/guest_policy.py] and the mirror of the table it keeps
    in Redis ([src/app/core/single_flight.py], [RedisMirror]).

    The mirror is the set of guest numbers.  A number is marked before the
    commit that makes it a guest and unmarked after the commit that ends it; a
    rebuild reads the table and replaces the set by what it read together with
    the recent marks.  [step] interleaves these at the granularity of database
    commits and Redis transactions, and [mirror_inv] is what keeps a guest from
    ever being taken for a native account. *)

From stdpp Require Import base list gmap strings pretty.
From Stdlib Require Import ZArith Lia.
From S2P Require Import Prelude Storage Redis.

Definition GUEST_KEY : string := "guest_uins".
Definition GUEST_LOADED_KEY : string := "guest_uins:loaded".
Definition GUEST_TTL_SECONDS : Z := 300.
Definition GUEST_BUILT_KEY : string := "guest_uins:built".
Definition GUEST_REBUILD_LOCK_KEY : string := "guest_uins:rebuild".
Definition GUEST_PENDING_KEY : string := "guest_uins:pending".
Definition GUEST_PENDING_TTL_SECONDS : Z := 120.
Definition STATUS_ADDED : string := "added".
Definition STATUS_PROVEN : string := "proven".
Definition STAT_TTL_SECONDS : Z := 40 * 24 * 60 * 60.
Definition POLL_STAMP_WINDOW_SECONDS : Z := 6 * 60 * 60.
Definition POLL_STAMP_LAG : Z := hours 1.

(** [str(int(uin))] *)
Definition str_uin (u : Z) : string := pretty u.

(** ** Backdates *)

Definition mint_backdate (dormant_days : Z) : Z :=
  if 0 <? dormant_days then days (Z.max (dormant_days - 1) 1) else days 13.

Definition added_backdate (dormant_days : Z) : Z := days (Z.max dormant_days 0 + 16).

(** ** Admission *)

(** [admission_open] on the settings it reads; [None]: the worker has never
    read them. *)
Definition admission_open (policy : option string) (closed refuse_strangers : bool)
    (mode : string) : bool :=
  match policy with
  | None => false
  | Some policy =>
      if String.eqb policy "open" then false
      else if closed && refuse_strangers then false
      else if String.eqb mode "off" then false
      else if String.eqb mode "on" then true
      else String.eqb policy "paid" && negb closed
  end.

(** ** Route policy *)

Inductive policy := ALLOW | RULE | DENY.

#[export] Instance policy_eq_dec : EqDecision policy.
Proof. solve_decision. Defined.

(** [guest(policy)]: only the two markers are accepted. *)
Definition guest (p : string) : outcome policy :=
  if String.eqb p "allow" then Ok ALLOW
  else if String.eqb p "rule" then Ok RULE
  else Raise (ValueError "unknown guest policy").

(** [route_policy] of the marker an endpoint carries, if it carries one. *)
Definition route_policy (marker : option string) : policy :=
  match marker with
  | Some v => if String.eqb v "allow" then ALLOW
              else if String.eqb v "rule" then RULE else DENY
  | None => DENY
  end.

Definition restricted_error : exn := HTTPException 403 "guest_restricted".
Definition guest_unavailable_error : exn := HTTPException 503 "guest_unavailable".

(** [shares_room] *)
Definition shares_room (d : db) (a b : Z) : bool :=
  existsb (fun m => (gm_uin m =? a) &&
             existsb (fun o => (gm_uin o =? b) && (gm_group_id o =? gm_group_id m))
                     (group_members d)) (group_members d).

(** The rows a rebuild reads. *)
Definition guest_rows (d : db) : gset Z :=
  dom (filter (fun e => is_Some (guest_status e.2)) (users d)).

Definition is_guest_from_row (d : db) (u : Z) : bool := bool_decide (u ∈ guest_rows d).

Section mirror.
Context {R : Type} `{RR : Redis R}.

(** ** The rebuild: its Redis transaction, on the rows it has read. *)
Definition rebuild (now : Z) (scratch : string) (rows : gset Z) (r : R) : R :=
  let r := if decide (rows = ∅) then r
           else expire now scratch 60 (sadd now scratch (map str_uin (elements rows)) r) in
  let r := sunionstore now GUEST_KEY scratch GUEST_PENDING_KEY r in
  let r := del now scratch r in
  let r := rset now GUEST_LOADED_KEY "1" (Some GUEST_TTL_SECONDS) r in
  rset now GUEST_BUILT_KEY "1" None r.

Definition present (now : Z) (k : string) (r : R) : bool := bool_decide (is_Some (peek now k r)).

(** [RedisMirror.ensure]; [kick] says that a background rebuild was started. *)
Definition ensure (now : Z) (scratch : string) (rows : gset Z) (r : R) : bool * R :=
  if present now GUEST_LOADED_KEY r then (false, r)
  else if present now GUEST_BUILT_KEY r then (true, r)
  else (false, rebuild now scratch rows r).

(** [RedisMirror.prime] *)
Definition prime (now : Z) (scratch : string) (rows : gset Z) (r : R) : R :=
  if present now GUEST_BUILT_KEY r then r else rebuild now scratch rows r.

(** [RedisMirror._background] around the rebuild: the lock of the island. *)
Definition take_lock (now : Z) (r : R) : bool * R :=
  set_nx now GUEST_REBUILD_LOCK_KEY "1" (Some 30) r.
Definition background (now : Z) (scratch : string) (rows : gset Z) (r : R) : R :=
  let '(got, r) := take_lock now r in
  if got then del now GUEST_REBUILD_LOCK_KEY (rebuild now scratch rows r) else r.

(** ** Reading and writing the mirror; [up]: Redis answers. *)

Definition is_guest (up : bool) (now : Z) (scratch : string) (d : db) (u : Z) (r : R) : bool * R :=
  if up then
    let r := (ensure now scratch (guest_rows d) r).2 in
    (sismember now GUEST_KEY (str_uin u) r, r)
  else (is_guest_from_row d u, r).

Definition mark_guest (up : bool) (now u : Z) (r : R) : outcome unit * R :=
  if up then
    (Ok tt,
     expire now GUEST_PENDING_KEY GUEST_PENDING_TTL_SECONDS
       (sadd now GUEST_PENDING_KEY [str_uin u] (sadd now GUEST_KEY [str_uin u] r)))
  else (Raise (RuntimeError "GuestCacheUnavailable"), r).

(** [up2]: Redis answers the second attempt, which drops the marker. *)
Definition unmark_guest (up up2 : bool) (now u : Z) (r : R) : R :=
  if up then srem now GUEST_PENDING_KEY (str_uin u) (srem now GUEST_KEY (str_uin u) r)
  else if up2 then del now GUEST_LOADED_KEY r
  else r.

(** [stat:<name>:<YYYYMMDD>], [day] the date string. *)
Definition bump_stat (up : bool) (now : Z) (name day : string) (r : R) : R :=
  if up then
    let key := ("stat:" ++ name ++ ":" ++ day)%string in
    expire now key STAT_TTL_SECONDS (incrby now key 1 r).2
  else r.

Definition refuse_guest (up up2 : bool) (now : Z) (scratch day : string) (d : db) (u : Z) (r : R)
    : outcome unit * R :=
  let '(g, r) := is_guest up now scratch d u r in
  if g then (Raise restricted_error, bump_stat up2 now "guest_restricted" day r) else (Ok tt, r).

Definition enforce (up up2 : bool) (now : Z) (scratch day : string) (d : db)
    (marker : option string) (u : Z) (r : R) : outcome unit * R :=
  if decide (route_policy marker = DENY) then refuse_guest up up2 now scratch day d u r
  else (Ok tt, r).

(** ** The poll stamp: on its own session, so on the committed table.
    [bucket] is [bucket_name('uin:' + str(uin))]. *)
Definition touch_poll (up up2 : bool) (now : Z) (scratch bucket : string) (u : Z)
    (d : db) (r : R) : db * R :=
  let '(g, r) := is_guest up now scratch d u r in
  if negb g then (d, r)
  else if negb up2 then (d, r)
  else
    let '(fresh, r) := set_nx now ("gpoll:" ++ bucket)%string "1"
                         (Some POLL_STAMP_WINDOW_SECONDS) r in
    if fresh then
      let stamp := now - POLL_STAMP_LAG in
      (set_users (fun m =>
         match m !! u with
         | Some row =>
             if bool_decide (guest_status row = Some STATUS_PROVEN) && (last_seen row <? stamp)
             then <[u := mkUser stamp (created_at row) (guest_status row) (muted_group_ids row) (is_suspended row) (profile row)]> m else m
         | None => m
         end) d, r)
    else (d, r).
End mirror.

(** ** The effect of the three writes *)

(** The numbers as the mirror spells them. *)
Definition strs (A : gset Z) : gset string := set_map str_uin A.

Lemma str_uin_inj a b : str_uin a = str_uin b -> a = b.
Proof. apply (inj pretty). Qed.

Lemma elem_of_strs u A : str_uin u ∈ strs A <-> u ∈ A.
Proof.
  unfold strs. rewrite elem_of_map. split; [|eauto]. intros (v & E%str_uin_inj & Hv). by subst.
Qed.

Lemma strs_elements A : list_to_set (map str_uin (elements A)) = strs A.
Proof. done. Qed.

Lemma as_set_entry s x : as_set (set_entry s x) = Some s.
Proof. unfold set_entry. by destruct (decide (s = ∅)) as [->|]. Qed.

Lemma expiry_set_entry s x y : x ∈ s -> expiry (set_entry s y) = y.
Proof. unfold set_entry. destruct (decide (s = ∅)) as [->|]; [set_solver|done]. Qed.

Lemma expiry_set_entry_None s : expiry (set_entry s None) = None.
Proof. unfold set_entry. by destruct (decide (s = ∅)). Qed.

(** A scratch key is none of the mirror's own keys, and nobody has used it. *)
Definition scratch_ok {R} `{Redis R} (now : Z) (scratch : string) (r : R) : Prop :=
  scratch ∉ [GUEST_KEY; GUEST_PENDING_KEY; GUEST_LOADED_KEY; GUEST_BUILT_KEY] /\
  peek now scratch r = None.

Section effects.
Context {R : Type} `{RL : RedisLaws R}.
#[local] Set Default Proof Using "All".

Lemma rebuild_effect now scratch rows (r : R) P :
  scratch_ok now scratch r -> as_set (peek now GUEST_PENDING_KEY r) = Some P ->
  let r' := rebuild now scratch rows r in
  peek now GUEST_KEY r' = set_entry (strs rows ∪ P) None /\
  peek now GUEST_PENDING_KEY r' = peek now GUEST_PENDING_KEY r /\
  peek now GUEST_BUILT_KEY r' = Some (VStr "1", None).
Proof.
  intros [Hsc Hfree] HP. simpl. unfold rebuild.
  set (r1 := if decide (rows = ∅) then r else _).
  assert (H1 : as_set (peek now scratch r1) = Some (strs rows) /\
               forall k, k <> scratch -> peek now k r1 = peek now k r).
  { unfold r1. destruct (decide (rows = ∅)) as [->|Hne].
    - split; [by rewrite Hfree|done].
    - pose proof (sadd_spec now scratch (map str_uin (elements rows)) r ∅) as Ha.
      rewrite Hfree in Ha. specialize (Ha eq_refl). rewrite strs_elements in Ha.
      pose proof (expire_spec now scratch 60
                    (sadd now scratch (map str_uin (elements rows)) r)) as Hx.
      split.
      + rewrite (touches_same _ _ _ _ _ Hx), (touches_same _ _ _ _ _ Ha).
        unfold set_entry. rewrite (left_id_L ∅ (∪)). destruct (decide (strs rows = ∅)) as [->|]; [done|].
        simpl. destruct (Z.leb_spec (now + seconds 60) now); [|done]. unfold seconds, usec_per_sec in *. lia.
      + intros k Hk. by rewrite (touches_other _ _ _ _ _ k Hx Hk), (touches_other _ _ _ _ _ k Ha Hk). }
  destruct H1 as [Hs1 Hfr]. clearbody r1.
  assert (Hne : forall k, k ∈ [GUEST_KEY; GUEST_PENDING_KEY; GUEST_LOADED_KEY; GUEST_BUILT_KEY] -> k <> scratch)
    by (intros k Hk ->; done).
  assert (HP1 : as_set (peek now GUEST_PENDING_KEY r1) = Some P).
  { rewrite Hfr; [done|]. apply Hne. set_solver. }
  pose proof (sunionstore_spec now GUEST_KEY scratch GUEST_PENDING_KEY r1 _ _ Hs1 HP1) as Hu.
  pose proof (del_spec now scratch (sunionstore now GUEST_KEY scratch GUEST_PENDING_KEY r1)) as Hd.
  set (r3 := del now scratch _) in *.
  pose proof (rset_spec now GUEST_LOADED_KEY "1" (Some GUEST_TTL_SECONDS) r3) as Hl.
  set (r4 := rset now GUEST_LOADED_KEY _ _ r3) in *.
  pose proof (rset_spec now GUEST_BUILT_KEY "1" None r4) as Hb.
  split; [|split].
  - rewrite (touches_other _ _ _ _ _ _ Hb), (touches_other _ _ _ _ _ _ Hl) by done.
    rewrite (touches_other _ _ _ _ _ _ Hd) by (apply Hne; set_solver).
    by rewrite (touches_same _ _ _ _ _ Hu).
  - rewrite (touches_other _ _ _ _ _ _ Hb), (touches_other _ _ _ _ _ _ Hl) by done.
    rewrite (touches_other _ _ _ _ _ _ Hd) by (apply Hne; set_solver).
    rewrite (touches_other _ _ _ _ _ _ Hu) by done. apply Hfr. apply Hne. set_solver.
  - by rewrite (touches_same _ _ _ _ _ Hb).
Qed.

Lemma mark_effect now u (r : R) G P :
  as_set (peek now GUEST_KEY r) = Some G -> as_set (peek now GUEST_PENDING_KEY r) = Some P ->
  let r' := (mark_guest true now u r).2 in
  peek now GUEST_KEY r' = Some (VSet (G ∪ {[ str_uin u ]}), expiry (peek now GUEST_KEY r)) /\
  peek now GUEST_PENDING_KEY r' =
    Some (VSet (P ∪ {[ str_uin u ]}), Some (now + seconds GUEST_PENDING_TTL_SECONDS)) /\
  (forall k, k <> GUEST_KEY -> k <> GUEST_PENDING_KEY -> peek now k r' = peek now k r).
Proof.
  intros HG HP. simpl.
  pose proof (sadd_spec now GUEST_KEY [str_uin u] r G HG) as H1.
  set (r1 := sadd now GUEST_KEY _ r) in *.
  assert (HP1 : as_set (peek now GUEST_PENDING_KEY r1) = Some P).
  { by rewrite (touches_other _ _ _ _ _ _ H1). }
  pose proof (sadd_spec now GUEST_PENDING_KEY [str_uin u] r1 P HP1) as H2.
  set (r2 := sadd now GUEST_PENDING_KEY _ r1) in *.
  pose proof (expire_spec now GUEST_PENDING_KEY GUEST_PENDING_TTL_SECONDS r2) as H3.
  assert (Hsingle : forall X : gset string, X ∪ list_to_set [str_uin u] = X ∪ {[ str_uin u ]}) by set_solver.
  rewrite Hsingle in H1, H2.
  split; [|split].
  - rewrite (touches_other _ _ _ _ _ _ H3), (touches_other _ _ _ _ _ _ H2) by done.
    rewrite (touches_same _ _ _ _ _ H1). unfold set_entry. destruct (decide _); [set_solver|done].
  - rewrite (touches_same _ _ _ _ _ H3), (touches_same _ _ _ _ _ H2).
    unfold set_entry. destruct (decide _); [set_solver|]. simpl.
    destruct (Z.leb_spec (now + seconds GUEST_PENDING_TTL_SECONDS) now); [|done].
    unfold seconds, usec_per_sec, GUEST_PENDING_TTL_SECONDS in *. lia.
  - intros k Hk1 Hk2. by rewrite (touches_other _ _ _ _ _ _ H3), (touches_other _ _ _ _ _ _ H2),
      (touches_other _ _ _ _ _ _ H1).
Qed.

Lemma unmark_effect now u (r : R) G P :
  as_set (peek now GUEST_KEY r) = Some G -> as_set (peek now GUEST_PENDING_KEY r) = Some P ->
  let r' := unmark_guest true true now u r in
  peek now GUEST_KEY r' = set_entry (G ∖ {[ str_uin u ]}) (expiry (peek now GUEST_KEY r)) /\
  peek now GUEST_PENDING_KEY r' =
    set_entry (P ∖ {[ str_uin u ]}) (expiry (peek now GUEST_PENDING_KEY r)) /\
  (forall k, k <> GUEST_KEY -> k <> GUEST_PENDING_KEY -> peek now k r' = peek now k r).
Proof.
  intros HG HP. simpl.
  pose proof (srem_spec now GUEST_KEY (str_uin u) r G HG) as H1.
  set (r1 := srem now GUEST_KEY _ r) in *.
  assert (HP1 : as_set (peek now GUEST_PENDING_KEY r1) = Some P).
  { by rewrite (touches_other _ _ _ _ _ _ H1). }
  pose proof (srem_spec now GUEST_PENDING_KEY (str_uin u) r1 P HP1) as H2.
  rewrite (touches_other _ _ _ _ _ GUEST_PENDING_KEY H1) in H2 by done.
  split; [|split].
  - rewrite (touches_other _ _ _ _ _ _ H2) by done. apply (touches_same _ _ _ _ _ H1).
  - apply (touches_same _ _ _ _ _ H2).
  - intros k Hk1 Hk2. by rewrite (touches_other _ _ _ _ _ _ H2), (touches_other _ _ _ _ _ _ H1).
Qed.
End effects.

(** ** Marks, commits and rebuilds, interleaved *)

Section protocol.
Context {R : Type} `{RL : RedisLaws R}.
#[local] Set Default Proof Using "All".

(** The longest a rebuild takes from its read to its transaction, and a mint
    from its mark to its commit. *)
Context (rebuild_max mint_max : Z) (Hr0 : 0 <= rebuild_max) (Hm0 : 0 <= mint_max).
Context (Htime : rebuild_max + mint_max < seconds GUEST_PENDING_TTL_SECONDS).

(** The clock, Redis, the committed guest rows, the mints between mark and
    commit, the rebuilds between read and transaction. *)
Record sys := mkSys {
  clock : Z;
  red : R;
  table : gset Z;
  minting : list (Z * Z);
  rebuilding : list (gset Z * Z)
}.

Inductive step : sys -> sys -> Prop :=
  | step_tick s t' :
      clock s <= t' ->
      step s (mkSys t' (red s) (table s) (minting s) (rebuilding s))
  | step_mark s u :
      step s (mkSys (clock s) (mark_guest true (clock s) u (red s)).2 (table s)
                ((u, clock s) :: minting s) (rebuilding s))
  | step_commit s u tm l1 l2 :
      minting s = l1 ++ (u, tm) :: l2 -> clock s <= tm + mint_max ->
      step s (mkSys (clock s) (red s) (table s ∪ {[ u ]}) (l1 ++ l2) (rebuilding s))
  | step_give_up s u tm l1 l2 :
      minting s = l1 ++ (u, tm) :: l2 ->
      step s (mkSys (clock s) (red s) (table s) (l1 ++ l2) (rebuilding s))
  | step_end s u :
      step s (mkSys (clock s) (red s) (table s ∖ {[ u ]}) (minting s) (rebuilding s))
  | step_unmark s u :
      u ∉ table s -> u ∉ (minting s).*1 ->
      step s (mkSys (clock s) (unmark_guest true true (clock s) u (red s)) (table s)
                (minting s) (rebuilding s))
  | step_read s :
      step s (mkSys (clock s) (red s) (table s) (minting s)
                ((table s, clock s) :: rebuilding s))
  | step_rebuild s S ts scratch l1 l2 :
      rebuilding s = l1 ++ (S, ts) :: l2 -> clock s <= ts + rebuild_max ->
      scratch_ok (clock s) scratch (red s) ->
      step s (mkSys (clock s) (rebuild (clock s) scratch S (red s)) (table s)
                (minting s) (l1 ++ l2)).

(** An island that starts on a Redis that has never held the set. *)
Definition init (s : sys) : Prop :=
  (forall k, peek (clock s) k (red s) = None) /\ minting s = [] /\ rebuilding s = [].

Inductive reachable : sys -> Prop :=
  | reach_init s : init s -> reachable s
  | reach_step s s' : reachable s -> step s s' -> reachable s'.

(** The recent marks hold [u] until [until] at least. *)
Definition held (s : sys) (P : gset string) (u until : Z) : Prop :=
  str_uin u ∈ P /\
  exists x, expiry (peek (clock s) GUEST_PENDING_KEY (red s)) = Some x /\ until <= x.

Record mirror_inv (s : sys) (G P : gset string) : Prop := mkInv {
  i_G : as_set (peek (clock s) GUEST_KEY (red s)) = Some G;
  i_Gx : expiry (peek (clock s) GUEST_KEY (red s)) = None;
  i_P : as_set (peek (clock s) GUEST_PENDING_KEY (red s)) = Some P;
  i_loaded : present (clock s) GUEST_LOADED_KEY (red s) = true ->
             present (clock s) GUEST_BUILT_KEY (red s) = true;
  i_Bx : expiry (peek (clock s) GUEST_BUILT_KEY (red s)) = None;
  i_table : present (clock s) GUEST_BUILT_KEY (red s) = true ->
            forall u, u ∈ table s -> str_uin u ∈ G;
  i_mint : forall u tm, (u, tm) ∈ minting s -> tm <= clock s /\
    (clock s < tm + seconds GUEST_PENDING_TTL_SECONDS ->
     str_uin u ∈ G /\ held s P u (tm + seconds GUEST_PENDING_TTL_SECONDS));
  i_rebuild : forall S ts, (S, ts) ∈ rebuilding s -> ts <= clock s /\
    (forall u, u ∈ table s -> u ∉ S -> clock s <= ts + rebuild_max ->
     held s P u (ts - mint_max + seconds GUEST_PENDING_TTL_SECONDS))
}.

Lemma inv_init s : init s -> exists G P, mirror_inv s G P.
Proof.
  intros (Hp & Hm & Hr). exists ∅, ∅. split; unfold present; rewrite ?Hp; try done.
  - rewrite Hm. set_solver.
  - rewrite Hr. set_solver.
Qed.

Lemma inv_tick s G P t' :
  mirror_inv s G P -> clock s <= t' ->
  exists G P, mirror_inv (mkSys t' (red s) (table s) (minting s) (rebuilding s)) G P.
Proof.
  intros [HG HGx HP Hl HBx Ht Hmi Hre] Hle.
  assert (Hkeep : forall k, expiry (peek (clock s) k (red s)) = None ->
                  peek t' k (red s) = peek (clock s) k (red s)).
  { intros k E. rewrite (peek_later (clock s) t') by done.
    by destruct (peek (clock s) k (red s)) as [[v [x|]]|]. }
  assert (Hpend : exists P', as_set (peek t' GUEST_PENDING_KEY (red s)) = Some P' /\
     forall x, expiry (peek (clock s) GUEST_PENDING_KEY (red s)) = Some x -> t' < x ->
       P' = P /\ expiry (peek t' GUEST_PENDING_KEY (red s)) = Some x).
  { rewrite (peek_later (clock s) t') by done.
    destruct (peek (clock s) GUEST_PENDING_KEY (red s)) as [[v [x|]]|]; simpl in *.
    - destruct (Z.leb_spec x t').
      + exists ∅. split; [done|]. intros y [= <-]. lia.
      + exists P. split; [done|]. intros y [= <-]. done.
    - exists P. done.
    - exists P. done. }
  destruct Hpend as (P' & HP' & Hlive). exists G, P'.
  split; simpl; rewrite ?Hkeep by done; try done.
  - unfold present in *. rewrite (Hkeep GUEST_BUILT_KEY HBx). intros Hld. apply Hl.
    apply bool_decide_eq_true_1 in Hld. apply bool_decide_eq_true_2.
    rewrite (peek_later (clock s) t') in Hld by done.
    destruct (peek (clock s) GUEST_LOADED_KEY (red s)); [by eexists|by destruct Hld].
  - unfold present in *. by rewrite (Hkeep GUEST_BUILT_KEY HBx).
  - intros u tm Hin. destruct (Hmi u tm Hin) as [Htm Hm]. split; [lia|]. intros Hlt.
    destruct (Hm ltac:(lia)) as [HuG [HuP (x & Hx & Hxle)]]. split; [done|].
    destruct (Hlive x Hx ltac:(lia)) as [-> Hx']. split; [done|]. exists x. done.
  - intros S ts Hin. destruct (Hre S ts Hin) as [Hts Hu]. split; [lia|]. intros u Hut HuS Hlt.
    destruct (Hu u Hut HuS ltac:(lia)) as [HuP (x & Hx & Hxle)].
    destruct (Hlive x Hx ltac:(lia)) as [-> Hx']. split; [done|]. exists x. done.
Qed.

Lemma inv_mark s G P u :
  mirror_inv s G P ->
  exists G P, mirror_inv (mkSys (clock s) (mark_guest true (clock s) u (red s)).2 (table s)
                ((u, clock s) :: minting s) (rebuilding s)) G P.
Proof.
  intros [HG HGx HP Hl HBx Ht Hmi Hre].
  destruct (mark_effect (clock s) u (red s) G P HG HP) as (E1 & E2 & E3).
  exists (G ∪ {[ str_uin u ]}), (P ∪ {[ str_uin u ]}).
  assert (Hheld : forall v until, held s P v until -> until <= clock s + seconds GUEST_PENDING_TTL_SECONDS ->
    held (mkSys (clock s) (mark_guest true (clock s) u (red s)).2 (table s)
            ((u, clock s) :: minting s) (rebuilding s)) (P ∪ {[ str_uin u ]}) v until).
  { intros v until [Hv _] Hle. split; [set_solver|]. cbn [clock red].
    rewrite E2. simpl. eauto. }
  split; unfold present in *; cbn [clock red table minting rebuilding] in *.
  - by rewrite E1.
  - by rewrite E1.
  - by rewrite E2.
  - by rewrite !E3.
  - by rewrite E3.
  - rewrite E3 by done. set_solver.
  - intros v tm Hin. apply elem_of_cons in Hin as [[= -> ->]|Hin].
    + split; [lia|]. intros _. split; [set_solver|]. split; [set_solver|].
      cbn [clock red]. rewrite E2. simpl. eauto with lia.
    + destruct (Hmi v tm Hin) as [Htm Hm]. split; [done|]. intros Hlt.
      destruct (Hm Hlt) as [HvG Hh]. split; [set_solver|]. apply Hheld; [done|lia].
  - intros S ts Hin. destruct (Hre S ts Hin) as [Hts Hu]. split; [done|]. intros v Hv HvS Hlt.
    apply Hheld; [auto|lia].
Qed.

Lemma inv_commit s G P u tm l1 l2 :
  mirror_inv s G P -> minting s = l1 ++ (u, tm) :: l2 -> clock s <= tm + mint_max ->
  mirror_inv (mkSys (clock s) (red s) (table s ∪ {[ u ]}) (l1 ++ l2) (rebuilding s)) G P.
Proof.
  intros [HG HGx HP Hl HBx Ht Hmi Hre] Em Hle.
  destruct (Hmi u tm) as [Htm Hm]; [rewrite Em; set_solver|].
  destruct (Hm ltac:(lia)) as [HuG [HuP (x & Hx & Hxle)]].
  split; cbn [clock red table minting rebuilding]; try done.
  - intros Hb v Hv. apply elem_of_union in Hv as [Hv|Hv%elem_of_singleton]; [auto|by subst].
  - intros v tv Hin. apply Hmi. rewrite Em. set_solver.
  - intros S ts Hin. destruct (Hre S ts Hin) as [Hts Hu]. split; [done|]. intros v Hv HvS Hlt.
    apply elem_of_union in Hv as [Hv|Hv%elem_of_singleton]; [by apply Hu|]. subst v.
    split; [done|]. exists x. split; [done|lia].
Qed.

Lemma inv_unmark s G P u :
  mirror_inv s G P -> u ∉ table s -> u ∉ (minting s).*1 ->
  exists G P, mirror_inv (mkSys (clock s) (unmark_guest true true (clock s) u (red s)) (table s)
                (minting s) (rebuilding s)) G P.
Proof.
  intros [HG HGx HP Hl HBx Ht Hmi Hre] Hut Hum.
  destruct (unmark_effect (clock s) u (red s) G P HG HP) as (E1 & E2 & E3).
  exists (G ∖ {[ str_uin u ]}), (P ∖ {[ str_uin u ]}).
  assert (Hne : forall v, v <> u -> str_uin v <> str_uin u) by (intros v Hv E%str_uin_inj; done).
  assert (Hheld : forall v until, v <> u -> held s P v until ->
    held (mkSys (clock s) (unmark_guest true true (clock s) u (red s)) (table s)
            (minting s) (rebuilding s)) (P ∖ {[ str_uin u ]}) v until).
  { intros v until Hv [HvP (x & Hx & Hxl)]. specialize (Hne v Hv).
    assert (HvP' : str_uin v ∈ P ∖ {[ str_uin u ]}) by set_solver.
    split; [done|]. cbn [clock red]. rewrite E2. rewrite (expiry_set_entry _ _ _ HvP'). eauto. }
  split; unfold present in *; cbn [clock red table minting rebuilding] in *.
  - rewrite E1. apply as_set_entry.
  - rewrite E1, HGx. apply expiry_set_entry_None.
  - rewrite E2. apply as_set_entry.
  - by rewrite !E3.
  - by rewrite E3.
  - rewrite E3 by done. intros Hb v Hv. specialize (Ht Hb v Hv).
    assert (v <> u) by (intros ->; done). specialize (Hne v). set_solver.
  - intros v tm Hin. destruct (Hmi v tm Hin) as [Htm Hm]. split; [done|]. intros Hlt.
    assert (Hvu : v <> u).
    { intros ->. apply Hum. apply list_elem_of_fmap. by exists (u, tm). }
    destruct (Hm Hlt) as [HvG Hh]. specialize (Hne v Hvu). split; [set_solver|]. auto.
  - intros S ts Hin. destruct (Hre S ts Hin) as [Hts Hu]. split; [done|]. intros v Hv HvS Hlt.
    apply Hheld; [intros ->; done|]. auto.
Qed.

Lemma inv_rebuild s G P S ts scratch l1 l2 :
  mirror_inv s G P -> rebuilding s = l1 ++ (S, ts) :: l2 -> clock s <= ts + rebuild_max ->
  scratch_ok (clock s) scratch (red s) ->
  exists G P, mirror_inv (mkSys (clock s) (rebuild (clock s) scratch S (red s)) (table s)
                (minting s) (l1 ++ l2)) G P.
Proof.
  intros [HG HGx HP Hl HBx Ht Hmi Hre] Er Hle Hsc.
  destruct (rebuild_effect (clock s) scratch S (red s) P Hsc HP) as (E1 & E2 & E3).
  destruct (Hre S ts) as [Hts HS]; [rewrite Er; set_solver|].
  exists (strs S ∪ P), P.
  assert (Hheld : forall v until, held s P v until ->
    held (mkSys (clock s) (rebuild (clock s) scratch S (red s)) (table s)
            (minting s) (l1 ++ l2)) P v until).
  { intros v until [Hv Hx]. split; [done|]. cbn [clock red]. by rewrite E2. }
  split; unfold present in *; cbn [clock red table minting rebuilding] in *.
  - rewrite E1. apply as_set_entry.
  - rewrite E1. apply expiry_set_entry_None.
  - by rewrite E2.
  - rewrite E3. intros _. by apply bool_decide_eq_true_2.
  - by rewrite E3.
  - intros _ u Hu. destruct (decide (u ∈ S)) as [HuS|HuS].
    + apply elem_of_union. left. by apply elem_of_strs.
    + destruct (HS u Hu HuS Hle) as [HuP _]. set_solver.
  - intros v tm Hin. destruct (Hmi v tm Hin) as [Htm Hm]. split; [done|]. intros Hlt.
    destruct (Hm Hlt) as [_ Hh]. split; [|auto]. destruct Hh as [HvP _]. set_solver.
  - intros S' ts' Hin. destruct (Hre S' ts') as [Hts' Hu]; [rewrite Er; set_solver|].
    split; [done|]. auto.
Qed.

Lemma inv_step s s' G P : mirror_inv s G P -> step s s' -> exists G P, mirror_inv s' G P.
Proof.
  intros Hi Hs. destruct Hs.
  - by eapply inv_tick.
  - by eapply inv_mark.
  - exists G, P. by eapply inv_commit.
  - exists G, P. destruct Hi as [HG HGx HP Hl HBx Ht Hmi Hre]. split; try done. simpl.
    intros v tv Hin. apply Hmi. rewrite H0. set_solver.
  - exists G, P. destruct Hi as [HG HGx HP Hl HBx Ht Hmi Hre]. split; try done; simpl.
    + set_solver.
    + intros S ts Hin. destruct (Hre S ts Hin) as [Hts Hu]. split; [done|].
      intros v Hv. apply Hu. set_solver.
  - by eapply inv_unmark.
  - exists G, P. destruct Hi as [HG HGx HP Hl HBx Ht Hmi Hre]. split; try done. simpl.
    intros S ts Hin. apply elem_of_cons in Hin as [[= -> ->]|Hin]; [|by apply Hre].
    split; [lia|]. intros u Hu Hn. done.
  - by eapply inv_rebuild.
Qed.

Lemma mirror_reachable_inv s : reachable s -> exists G P, mirror_inv s G P.
Proof.
  induction 1 as [s Hi|s s' _ (G & P & Hi) Hs]; [by apply inv_init|]. by eapply inv_step.
Qed.
End protocol.

Lemma guest_answer {R} `{RL : RedisLaws R} rebuild_max mint_max
    (s : sys (R := R)) up scratch d u :
  0 <= rebuild_max -> 0 <= mint_max ->
  rebuild_max + mint_max < seconds GUEST_PENDING_TTL_SECONDS ->
  reachable rebuild_max mint_max s -> guest_rows d = table s -> u ∈ table s ->
  scratch_ok (clock s) scratch (red s) ->
  (is_guest up (clock s) scratch d u (red s)).1 = true.
Proof.
  intros H1 H2 H3 Hr Hd Hu Hsc. unfold is_guest, is_guest_from_row. rewrite Hd.
  destruct up; simpl; [|by apply bool_decide_eq_true_2].
  destruct (mirror_reachable_inv rebuild_max mint_max H1 H2 H3 s Hr) as (G & P & [HG HGx HP Hl HBx Ht Hmi Hre]).
  unfold ensure. destruct (present (clock s) GUEST_LOADED_KEY (red s)) eqn:El; simpl.
  { rewrite (sismember_spec _ _ _ _ _ HG). apply bool_decide_eq_true_2. auto. }
  destruct (present (clock s) GUEST_BUILT_KEY (red s)) eqn:Eb; simpl.
  { rewrite (sismember_spec _ _ _ _ _ HG). apply bool_decide_eq_true_2. auto. }
  destruct (rebuild_effect (clock s) scratch (table s) (red s) P Hsc HP) as (E1 & _ & _).
  rewrite (sismember_spec _ _ _ _ (strs (table s) ∪ P)) by (rewrite E1; apply as_set_entry).
  apply bool_decide_eq_true_2. apply elem_of_union. left. by apply elem_of_strs.
Qed.

(** C10. A guest is never taken for a native account: in every state reached by
    marks, commits, failed mints, conversions, unmarks, mirror reads and
    rebuilds in any order, whoever has a committed guest row is answered "guest",
    from the mirror, from an inline rebuild or from the row, as long as a
    mint's mark-to-commit and a rebuild's read-to-write together take less than
    the 120 seconds a recent mark is kept. *)
Theorem guest_never_native {R} `{RL : RedisLaws R} rebuild_max mint_max
    (s : sys (R := R)) up scratch d u :
  0 <= rebuild_max -> 0 <= mint_max ->
  rebuild_max + mint_max < seconds GUEST_PENDING_TTL_SECONDS ->
  reachable rebuild_max mint_max s -> guest_rows d = table s -> u ∈ table s ->
  scratch_ok (clock s) scratch (red s) ->
  (is_guest up (clock s) scratch d u (red s)).1 = true.
Proof. apply guest_answer. Qed.

(** The route gate: a committed guest is refused with 403 on every route
    that carries no marker, and on a route marked for guests nobody is refused
    and Redis is not even read. *)
Theorem enforce_gate {R} `{RL : RedisLaws R} rebuild_max mint_max
    (s : sys (R := R)) up up2 scratch day d marker u :
  0 <= rebuild_max -> 0 <= mint_max ->
  rebuild_max + mint_max < seconds GUEST_PENDING_TTL_SECONDS ->
  reachable rebuild_max mint_max s -> guest_rows d = table s -> u ∈ table s ->
  scratch_ok (clock s) scratch (red s) ->
  if decide (marker = Some "allow" \/ marker = Some "rule")
  then enforce up up2 (clock s) scratch day d marker u (red s) = (Ok tt, red s)
  else (enforce up up2 (clock s) scratch day d marker u (red s)).1 = Raise restricted_error.
Proof.
  intros H1 H2 H3 Hr Hd Hu Hsc.
  pose proof (guest_answer rebuild_max mint_max s up scratch d u H1 H2 H3 Hr Hd Hu Hsc) as Hg.
  assert (Hpol : route_policy marker = DENY <-> ~ (marker = Some "allow" \/ marker = Some "rule")).
  { unfold route_policy. destruct marker as [m|]; [|naive_solver].
    destruct (String.eqb_spec m "allow") as [->|]; [naive_solver|].
    destruct (String.eqb_spec m "rule") as [->|]; naive_solver. }
  unfold enforce. destruct (decide (route_policy marker = DENY)) as [E|E];
    destruct (decide (marker = _ \/ _)); try tauto.
  unfold refuse_guest. destruct (is_guest up (clock s) scratch d u (red s)) as [g r']. simpl in Hg. by subst g.
Qed.

(** A poll stamp touches only the caller's own row, and only if it is a
    proven guest's: it moves [last_seen] forward, to one hour before now, so a
    polling guest is kept active and never reads as online. *)
Theorem touch_poll_spec {R} `{RR : Redis R} up up2 now scratch bucket u d (r : R) v :
  let d' := (touch_poll up up2 now scratch bucket u d r).1 in
  users d' !! v = users d !! v \/
  exists row, v = u /\ users d !! u = Some row /\ guest_status row = Some STATUS_PROVEN /\
    last_seen row < now - hours 1 /\
    users d' !! u = Some (mkUser (now - hours 1) (created_at row) (guest_status row) (muted_group_ids row) (is_suspended row) (profile row)).
Proof.
  unfold touch_poll. destruct (is_guest up now scratch d u r) as [g r1].
  destruct g; [|by left]. destruct up2; [|by left]. simpl.
  destruct (set_nx _ _ _ _ r1) as [fresh r2]. destruct fresh; [|by left]. simpl.
  destruct (users d !! u) as [row|] eqn:E; [|by left].
  destruct (bool_decide _ && _) eqn:Ec; [|by left]. breflect.
  destruct (decide (v = u)) as [->|Hne]; [|left; by rewrite lookup_insert_ne].
  right. exists row. rewrite lookup_insert_eq. done.
Qed.

(** ** Examples *)

(** A rebuild reads the table, a guest is marked and committed, and the rebuild
    then writes what it read. *)
Definition demo_guest (d : db) : db :=
  set_users (fun _ => {[ 7 := mkUser 0 0 (Some STATUS_PROVEN) [] false plain_profile ]}) d.

Definition demo_race : sys (R := store) :=
  let r1 := (mark_guest true 0 7 (∅ : store)).2 in
  mkSys (seconds 5) (rebuild (seconds 5) "guest_uins:build:x" ∅ r1) (∅ ∪ {[ 7 ]}) [] [].

Lemma demo_race_reachable : reachable (seconds 60) (seconds 30) demo_race.
Proof.
  assert (H0 : reachable (seconds 60) (seconds 30) (mkSys 0 (∅ : store) ∅ [] [])) by by apply reach_init.
  pose proof (reach_step _ _ _ _ H0 (step_read _ _ _)) as H1.
  pose proof (reach_step _ _ _ _ H1 (step_mark _ _ _ 7)) as H2.
  set (r1 := (mark_guest true 0 7 (∅ : store)).2).
  set (s2 := mkSys 0 r1 ∅ [(7, 0)] [(∅, 0)]). change (reachable (seconds 60) (seconds 30) s2) in H2.
  assert (Hm : clock s2 <= 0 + seconds 30) by done.
  pose proof (reach_step _ _ _ _ H2 (step_commit _ _ s2 7 0 [] [] eq_refl Hm)) as H3.
  set (s3 := mkSys 0 r1 (∅ ∪ {[ 7 ]}) [] [(∅, 0)]). change (reachable (seconds 60) (seconds 30) s3) in H3.
  assert (Ht : clock s3 <= seconds 5) by done.
  pose proof (reach_step _ _ _ _ H3 (step_tick _ _ s3 (seconds 5) Ht)) as H4.
  set (s4 := mkSys (seconds 5) r1 (∅ ∪ {[ 7 ]}) [] [(∅, 0)]).
  change (reachable (seconds 60) (seconds 30) s4) in H4.
  assert (Hr : clock s4 <= 0 + seconds 60) by done.
  refine (reach_step _ _ _ _ H4 (step_rebuild _ _ s4 ∅ 0 "guest_uins:build:x" [] [] eq_refl Hr _)).
  split; [|by vm_compute]. apply (bool_decide_eq_true_1 (_ ∉ _)). by vm_compute.
Qed.

Lemma guest_never_native_witness :
  (is_guest true (seconds 5) "guest_uins:build:y" (demo_guest empty_db) 7 (red demo_race)).1 = true.
Proof.
  apply (guest_never_native (seconds 60) (seconds 30) demo_race);
    [done|done|done|apply demo_race_reachable|by vm_compute|by vm_compute|].
  split; [|by vm_compute]. apply (bool_decide_eq_true_1 (_ ∉ _)). by vm_compute.
Defined.

Lemma enforce_gate_witness :
  (enforce true true (seconds 5) "guest_uins:build:y" "20260915" (demo_guest empty_db) None 7
     (red demo_race)).1 = Raise restricted_error.
Proof.
  pose proof (enforce_gate (seconds 60) (seconds 30) demo_race true true "guest_uins:build:y"
                "20260915" (demo_guest empty_db) None 7) as H.
  destruct (decide _) as [[|]|_] in H; [done|done|]. apply H;
    [done|done|done|apply demo_race_reachable|by vm_compute|by vm_compute|].
  split; [|by vm_compute]. apply (bool_decide_eq_true_1 (_ ∉ _)). by vm_compute.
Defined.
