(* ===== verification/Sessions.v ===== *)
(** * Session tokens

    Models [src/app/core/security.py], with the key names of
    [src/app/core/redis_keys.py] and the epoch table ([models/uin_epoch.py]).

    A session is a signed token.  Beside its signature three things decide
    whether it still opens the account: the denylist of disconnected installs,
    the epoch of the number (how often it changed hands) and the suspension of
    the account.  The last two are Redis mirrors of a table.  [estep]
    interleaves bumps, write-throughs and rebuilds of the epoch mirror. *)

From stdpp Require Import base list gmap strings pretty.
From Stdlib Require Import ZArith Lia.
From S2P Require Import Prelude Storage Redis GuestPolicy.

(** ** Tokens

    The JSON payload of a token: the claims the server writes.  [sub] is
    [str(uin)] and read back by [int]; times are whole seconds. *)
Record claims := mkClaims {
  c_sub : option Z; c_iat : option Z; c_exp : option Z; c_ep : option Z;
  c_dev : option string; c_k : option string;
  c_typ : option string; c_sk : option string; c_nonce : option string
}.

(** The JWT library: [jwt_encode] signs under the island's secret,
    [jwt_decode verify_exp now] checks a token at an instant. *)
Class JWT (T : Type) := {
  jwt_encode : claims -> T;
  jwt_decode : bool -> Z -> T -> option claims
}.

Class JWTLaws (T : Type) `{JWT T} : Prop := {
  (* A token the server signed verifies and yields its claims. *)
  jwt_decode_signed now c : jwt_decode false now (jwt_encode c) = Some c;
  (* With the expiry checked: before it yes, a second or more after it no. *)
  jwt_decode_live now c e :
    c_exp c = Some e -> now < seconds e -> jwt_decode true now (jwt_encode c) = Some c;
  jwt_decode_expired now c e :
    c_exp c = Some e -> seconds (e + 1) <= now -> jwt_decode true now (jwt_encode c) = None
}.

(** A payload's times are truncated to seconds. *)
Definition numeric_date (t : Z) : Z := t / usec_per_sec.

(** [if s:] on an optional string. *)
Definition truthy_str (s : option string) : option string :=
  match s with Some s => if bool_decide (s = ""%string) then None else Some s | None => None end.

Definition ep_claim (epoch : Z) : option Z := if epoch =? 0 then None else Some epoch.

Definition DEVICE_TTL_SECONDS : Z := 90 * 24 * 3600.

Section tokens.
Context {T : Type} `{JT : JWT T}.

Definition issue_token (ttl_seconds now uin epoch : Z) (device_id : option string) : T :=
  let dev := truthy_str device_id in
  jwt_encode (mkClaims (Some uin) (Some (numeric_date now))
                (Some (numeric_date (now + seconds ttl_seconds))) (ep_claim epoch)
                dev (match dev with Some _ => Some "phone"%string | None => None end)
                None None None).

Definition issue_device_token (now uin : Z) (device_id : string) (epoch : Z) : T :=
  jwt_encode (mkClaims (Some uin) (Some (numeric_date now))
                (Some (numeric_date (now + seconds DEVICE_TTL_SECONDS))) (ep_claim epoch)
                (Some device_id) None None None None).

(** [_decode_session_payload]; [None]: a [JWTError]. *)
Definition decode_session_payload (now : Z) (t : T) : option claims :=
  match jwt_decode false now t with
  | None => None
  | Some c =>
      match truthy_str (c_dev c) with
      | Some _ =>
          if bool_decide (c_k c = Some "phone"%string) then Some c
          else match c_exp c with
               | Some e => if seconds e <=? now then None else Some c
               | None => None
               end
      | None => Some c
      end
  end.

Definition invalid_token : exn := HTTPException 401 "invalid token".

Definition decode_token (now : Z) (t : T) : outcome Z :=
  match decode_session_payload now t with
  | Some c => match c_sub c with Some u => Ok u | None => Raise invalid_token end
  | None => Raise invalid_token
  end.

Definition decode_device_id (now : Z) (t : T) : string :=
  match jwt_decode false now t with
  | Some c => default "primary"%string (truthy_str (c_dev c))
  | None => "primary"
  end.

Definition current_device_id (now : Z) (creds : option T) : string :=
  match creds with Some t => decode_device_id now t | None => "primary" end.

(** [nonce]: what [secrets.token_urlsafe] drew. *)
Definition issue_key_challenge (now : Z) (signing_key typ nonce : string) : T :=
  jwt_encode (mkClaims None None (Some (numeric_date (now + seconds 120))) None None None
                (Some typ) (Some signing_key) (Some nonce)).

Definition verify_key_challenge (now : Z) (challenge : T) (signing_key typ : string) : bool :=
  match jwt_decode true now challenge with
  | Some c => bool_decide (c_typ c = Some typ) && bool_decide (c_sk c = Some signing_key)
  | None => false
  end.

Definition issue_recover_challenge (now : Z) (signing_key nonce : string) : T :=
  issue_key_challenge now signing_key "recover" nonce.
Definition verify_recover_challenge (now : Z) (challenge : T) (signing_key : string) : bool :=
  verify_key_challenge now challenge signing_key "recover".
End tokens.

Definition carry_device_id (device_id : string) : option string :=
  if bool_decide (device_id = "primary"%string) then None else Some device_id.

(** ** The denylist of disconnected installs *)

Definition DEVICES_PREFIX : string := "dev".
Definition DEV_REVOKED_PREFIX : string := "devrv".

(** [bucket] is [bucket_name], the HMAC of an identity. *)
Definition account_key (bucket : string -> string) (prefix : string) (uin : Z) : string :=
  (prefix ++ ":" ++ bucket ("uin:" ++ pretty uin))%string.

(** ** Keys of the two mirrors *)

Definition EPOCH_KEY : string := "uin_epochs".
Definition EPOCH_LOADED_KEY : string := "uin_epochs:loaded".
Definition EPOCH_TTL_SECONDS : Z := 300.
Definition EPOCH_BUILT_KEY : string := "uin_epochs:built".
Definition SUSPENDED_KEY : string := "suspended_uins".
Definition SUSPENDED_LOADED_KEY : string := "suspended_uins:loaded".
Definition SUSPENDED_TTL_SECONDS : Z := 300.
Definition SUSPENDED_BUILT_KEY : string := "suspended_uins:built".

(** The epoch table: [models/uin_epoch.py]. *)
Notation epochs := (gmap Z Z).
Definition epoch_of (tab : epochs) (u : Z) : Z := default 0 (tab !! u).

(** [bump_uin_epoch] *)
Definition bump_uin_epoch (tab : epochs) (u : Z) : Z * epochs :=
  let e := epoch_of tab u + 1 in (e, <[u := e]> tab).

(** The rows a rebuild of the suspension set reads. *)
Definition suspended_rows (d : db) : gset Z := dom (filter (fun e => is_suspended e.2 = true) (users d)).

(** What answers at the moment of a request: the denylist, the epoch mirror,
    the database behind it, the suspension mirror. *)
Record auth_up := mkAuthUp { up_denylist : bool; up_epochs : bool; up_db : bool; up_suspended : bool }.
Definition auth_all_up : auth_up := mkAuthUp true true true true.

Section gate.
Context {R : Type} `{RR : Redis R} {T : Type} `{JT : JWT T} (bucket : string -> string).

Definition device_is_revoked (up : bool) (now uin : Z) (device_id : option string) (r : R) : outcome bool :=
  match truthy_str device_id with
  | None => Ok false
  | Some dev =>
      if up then Ok (sismember now (account_key bucket DEV_REVOKED_PREFIX uin) dev r)
      else Raise (RuntimeError "ConnectionError")
  end.

(** [_load_epochs]: the Redis transaction of a rebuild, on the rows it read. *)
Definition load_epochs (now : Z) (tab : epochs) (r : R) : R :=
  let rows := map_to_list (filter (fun e => 0 < e.2) tab) in
  let r := del now EPOCH_KEY r in
  let r := foldr (fun '(u, e) r => hset now EPOCH_KEY (str_uin u) (pretty e) r) r rows in
  let r := rset now EPOCH_LOADED_KEY "1" (Some EPOCH_TTL_SECONDS) r in
  rset now EPOCH_BUILT_KEY "1" None r.

(** [RedisMirror.ensure] for the epochs; the background rebuild it may kick off
    is a step of its own. *)
Definition ensure_epochs (now : Z) (tab : epochs) (r : R) : R :=
  if present now EPOCH_LOADED_KEY r then r
  else if present now EPOCH_BUILT_KEY r then r
  else load_epochs now tab r.

Definition uin_epoch (up db_up : bool) (now : Z) (tab : epochs) (u : Z) (r : R) : Z * R :=
  let fallback := if db_up then epoch_of tab u else 0 in
  if up then
    let r := ensure_epochs now tab r in
    (match truthy_str (hget now EPOCH_KEY (str_uin u) r) with
     | None => 0
     | Some raw => default fallback (int_of_string raw)
     end, r)
  else (fallback, r).

Definition cache_uin_epoch (up : bool) (now u e : Z) (r : R) : R :=
  if up then hset now EPOCH_KEY (str_uin u) (pretty e) r else r.

Definition load_suspended (now : Z) (rows : gset Z) (r : R) : R :=
  let r := del now SUSPENDED_KEY r in
  let r := if decide (rows = ∅) then r else sadd now SUSPENDED_KEY (map str_uin (elements rows)) r in
  let r := rset now SUSPENDED_LOADED_KEY "1" (Some SUSPENDED_TTL_SECONDS) r in
  rset now SUSPENDED_BUILT_KEY "1" None r.

Definition ensure_suspended (now : Z) (d : db) (r : R) : R :=
  if present now SUSPENDED_LOADED_KEY r then r
  else if present now SUSPENDED_BUILT_KEY r then r
  else load_suspended now (suspended_rows d) r.

Definition is_suspended_uin (up : bool) (now : Z) (d : db) (u : Z) (r : R) : bool * R :=
  if up then
    let r := ensure_suspended now d r in
    (sismember now SUSPENDED_KEY (str_uin u) r, r)
  else (false, r).

Definition mark_suspended (up : bool) (now u : Z) (suspended : bool) (r : R) : R :=
  if negb up then r
  else if suspended then sadd now SUSPENDED_KEY [str_uin u] r
  else srem now SUSPENDED_KEY (str_uin u) r.

Definition authorize_session (up : auth_up) (now : Z) (t : T) (tab : epochs) (d : db) (r : R)
    : outcome Z * R :=
  match decode_session_payload now t with
  | None => (Raise invalid_token, r)
  | Some c =>
      match c_sub c with
      | None => (Raise invalid_token, r)
      | Some uin =>
          match device_is_revoked (up_denylist up) now uin (c_dev c) r with
          | Raise x => (Raise x, r)
          | Ok true => (Raise (HTTPException 401 "device revoked"), r)
          | Ok false =>
              let '(e, r) := uin_epoch (up_epochs up) (up_db up) now tab uin r in
              if negb (default 0 (c_ep c) =? e) then (Raise (HTTPException 401 "stale token"), r)
              else
                let '(s, r) := is_suspended_uin (up_suspended up) now d uin r in
                if s then (Raise (HTTPException 403 "suspended"), r) else (Ok uin, r)
          end
      end
  end.

(** [current_uin]: the session, then the guest gate of the route ([marker]). *)
Definition current_uin (up : auth_up) (up_guest up_stat : bool) (now : Z) (scratch day : string)
    (marker : option string) (creds : option T) (tab : epochs) (d : db) (r : R) : outcome Z * R :=
  match creds with
  | None => (Raise (HTTPException 401 "missing token"), r)
  | Some t =>
      match authorize_session up now t tab d r with
      | (Raise x, r) => (Raise x, r)
      | (Ok uin, r) =>
          match enforce up_guest up_stat now scratch day d marker uin r with
          | (Raise x, r) => (Raise x, r)
          | (Ok _, r) => (Ok uin, r)
          end
      end
  end.

Definition is_http (x : exn) : bool :=
  match x with HTTPException _ _ | HTTPExceptionN _ _ _ => true | _ => false end.

Definition current_uin_optional (up : auth_up) (up_guest up_stat : bool) (now : Z)
    (scratch day : string) (marker : option string) (creds : option T) (tab : epochs) (d : db) (r : R)
    : outcome (option Z) * R :=
  match creds with
  | None => (Ok None, r)
  | Some t =>
      match authorize_session up now t tab d r with
      | (Raise x, r) => if is_http x then (Ok None, r) else (Raise x, r)
      | (Ok uin, r) =>
          match enforce up_guest up_stat now scratch day d marker uin r with
          | (Raise x, r) => (Raise x, r)
          | (Ok _, r) => (Ok (Some uin), r)
          end
      end
  end.
End gate.

(** [require_admin] *)
Definition require_admin (cfg_user cfg_password : string) (creds : option (string * string)) : outcome string :=
  if bool_decide (cfg_user = ""%string) || bool_decide (cfg_password = ""%string)
  then Raise (HTTPException 503 "admin disabled (set ADMIN_USERNAME + ADMIN_PASSWORD)")
  else match creds with
  | None => Raise (HTTPException 401 "admin auth required")
  | Some (u, p) =>
      if bool_decide (u = cfg_user) && bool_decide (p = cfg_password) then Ok u
      else Raise (HTTPException 401 "bad credentials")
  end.

(** ** The epoch mirror *)

(** The hash a rebuild writes. *)
Definition mirror_hash (tab : epochs) : gmap string string :=
  kmap str_uin ((fun e : Z => pretty e : string) <$> filter (fun e => 0 < e.2) tab).

#[export] Instance str_uin_inj_inst : Inj (=) (=) str_uin := str_uin_inj.

Lemma as_hash_entry h x : as_hash (hash_entry h x) = Some h.
Proof. unfold hash_entry. by destruct (decide (h = ∅)) as [->|]. Qed.

(** What the mirror says about a number, the way [uin_epoch] reads it. *)
Definition hash_epoch (h : gmap string string) (u : Z) : option Z :=
  match truthy_str (h !! str_uin u) with None => Some 0 | Some raw => int_of_string raw end.

Lemma truthy_pretty (e : Z) : truthy_str (Some (pretty e)) = Some (pretty e).
Proof.
  simpl. rewrite bool_decide_eq_false_2; [done|]. intros E. pose proof (int_of_pretty e) as H.
  by rewrite E in H.
Qed.

Lemma hash_epoch_mirror tab u :
  (forall v e, tab !! v = Some e -> 0 <= e) -> hash_epoch (mirror_hash tab) u = Some (epoch_of tab u).
Proof.
  intros Hpos. unfold hash_epoch, mirror_hash, epoch_of.
  rewrite (lookup_kmap str_uin), lookup_fmap, map_lookup_filter.
  destruct (tab !! u) as [e|] eqn:E; simpl; [|done]. specialize (Hpos u e E).
  destruct (decide (0 < e)) as [Hlt|Hle].
  - rewrite option_guard_True by done. change (fmap _ (Some e)) with (Some (pretty e : string)).
    rewrite truthy_pretty. apply int_of_pretty.
  - rewrite option_guard_False by done. simpl. f_equal. lia.
Qed.

Section mirror_facts.
Context {R : Type} `{RL : RedisLaws R}.
#[local] Set Default Proof Using "All".

(** One field more, in a hash without a deadline. *)
Lemma hset_entry now k f v (r : R) h :
  peek now k r = hash_entry h None ->
  touches now k (hash_entry (<[f := v]> h) None) r (hset now k f v r).
Proof.
  intros Hp. assert (Hh : as_hash (peek now k r) = Some h) by (rewrite Hp; apply as_hash_entry).
  pose proof (hset_spec now k f v r h Hh) as Hs. unfold hash_entry.
  rewrite decide_False by apply insert_non_empty. rewrite Hp in Hs. unfold hash_entry in Hs.
  by destruct (decide (h = ∅)).
Qed.

Lemma hset_all now k rows (r : R) h :
  peek now k r = hash_entry h None ->
  let r' := foldr (fun '(u, e) r => hset now k (str_uin u) (pretty e) r) r rows in
  peek now k r' =
    hash_entry (foldr (fun '(u, e) h => <[str_uin u := (pretty (e : Z) : string)]> h) h rows) None /\
  forall k', k' <> k -> peek now k' r' = peek now k' r.
Proof.
  intros Hh. induction rows as [|[u e] rows [IH1 IH2]]; simpl; [done|].
  pose proof (hset_entry now k (str_uin u) (pretty e) _ _ IH1) as Hs. split.
  - exact (touches_same _ _ _ _ _ Hs).
  - intros k' Hk. rewrite (touches_other _ _ _ _ _ k' Hs Hk). by apply IH2.
Qed.

Lemma mirror_hash_rows tab :
  foldr (fun '(u, e) h => <[str_uin u := (pretty (e : Z) : string)]> h) ∅
    (map_to_list (filter (fun e : Z * Z => 0 < e.2) tab)) = mirror_hash tab.
Proof.
  unfold mirror_hash, kmap. generalize (filter (fun e : Z * Z => 0 < e.2) tab). intros m.
  trans (list_to_map (M := gmap string string)
           (prod_map str_uin id <$> (prod_map id (fun e : Z => pretty e) <$> map_to_list m))).
  - generalize (map_to_list m). intros l. induction l as [|[u e] l IH]; simpl; [done|]. by rewrite IH.
  - symmetry. apply list_to_map_proper; [|by rewrite map_to_list_fmap].
    rewrite <-list_fmap_compose, (list_fmap_ext _ (str_uin ∘ fst)) by (by intros ? []).
    rewrite list_fmap_compose. apply NoDup_fmap_2; [apply _|]. apply NoDup_fst_map_to_list.
Qed.

Lemma load_epochs_effect now tab (r : R) :
  let r' := load_epochs now tab r in
  peek now EPOCH_KEY r' = hash_entry (mirror_hash tab) None /\
  peek now EPOCH_BUILT_KEY r' = Some (VStr "1", None) /\
  forall k, k ∉ [EPOCH_KEY; EPOCH_LOADED_KEY; EPOCH_BUILT_KEY] -> peek now k r' = peek now k r.
Proof.
  unfold load_epochs. simpl.
  set (r1 := del now EPOCH_KEY r). set (r2 := foldr _ r1 _).
  assert (H1 : peek now EPOCH_KEY r1 = hash_entry ∅ None)
    by exact (touches_same _ _ _ _ _ (del_spec now EPOCH_KEY r)).
  pose proof (hset_all now EPOCH_KEY (map_to_list (filter (fun e : Z * Z => 0 < e.2) tab)) r1 ∅ H1)
    as [H2 H2'].
  rewrite mirror_hash_rows in H2. fold r2 in H2, H2'.
  pose proof (rset_spec now EPOCH_LOADED_KEY "1" (Some EPOCH_TTL_SECONDS) r2) as Hl.
  set (r3 := rset now EPOCH_LOADED_KEY "1" (Some EPOCH_TTL_SECONDS) r2) in *.
  pose proof (rset_spec now EPOCH_BUILT_KEY "1" None r3) as Hb. split_and!.
  - rewrite (touches_other _ _ _ _ _ _ Hb), (touches_other _ _ _ _ _ _ Hl); done.
  - by rewrite (touches_same _ _ _ _ _ Hb).
  - intros k Hk. rewrite (touches_other _ _ _ _ _ _ Hb), (touches_other _ _ _ _ _ _ Hl), H2' by set_solver.
    apply (touches_other _ _ _ _ _ _ (del_spec now EPOCH_KEY r)). set_solver.
Qed.
End mirror_facts.

(** ** Bumps, write-throughs and rebuilds

    [e_pending]: bumps that are committed and not yet written through;
    [e_snaps]: what rebuilds in flight have read.  A [strict] run is one in
    which no bump commits between the read and the write of a rebuild, and the
    releases of one number are written through in the order they were
    committed. *)
Record estate (R : Type) := mkEstate {
  e_now : Z; e_tab : epochs; e_redis : R; e_pending : list (Z * Z); e_snaps : list epochs
}.
Arguments mkEstate {_}. Arguments e_now {_}. Arguments e_tab {_}. Arguments e_redis {_}.
Arguments e_pending {_}. Arguments e_snaps {_}.

Inductive estep {R} `{Redis R} (strict : bool) : estate R -> estate R -> Prop :=
  | es_tick s t : e_now s <= t ->
      estep strict s (mkEstate t (e_tab s) (e_redis s) (e_pending s) (e_snaps s))
  | es_bump s u :
      estep strict s (mkEstate (e_now s) (bump_uin_epoch (e_tab s) u).2 (e_redis s)
                        ((u, (bump_uin_epoch (e_tab s) u).1) :: e_pending s) (e_snaps s))
  | es_cache s u e : (u, e) ∈ e_pending s -> (strict = true -> forall e', (u, e') ∈ e_pending s -> e <= e') ->
      estep strict s (mkEstate (e_now s) (e_tab s) (cache_uin_epoch true (e_now s) u e (e_redis s))
                        (filter (fun p => p <> (u, e)) (e_pending s)) (e_snaps s))
  | es_lookup s :
      estep strict s (mkEstate (e_now s) (e_tab s) (ensure_epochs (e_now s) (e_tab s) (e_redis s))
                        (e_pending s) (e_snaps s))
  | es_snap s :
      estep strict s (mkEstate (e_now s) (e_tab s) (e_redis s) (e_pending s) (e_tab s :: e_snaps s))
  | es_write s snap : snap ∈ e_snaps s -> (strict = true -> snap = e_tab s) ->
      estep strict s (mkEstate (e_now s) (e_tab s) (load_epochs (e_now s) snap (e_redis s))
                        (e_pending s) (e_snaps s))
  | es_flush s r : (forall k, peek (e_now s) k r = None) ->
      estep strict s (mkEstate (e_now s) (e_tab s) r (e_pending s) (e_snaps s)).

(** A fresh island: nobody has released a number, Redis is empty. *)
Definition estart {R} `{Redis R} (s : estate R) : Prop :=
  e_tab s = ∅ /\ e_pending s = [] /\ e_snaps s = [] /\ forall k, peek (e_now s) k (e_redis s) = None.

Section mirror_inv.
Context {R : Type} `{RL : RedisLaws R}.
#[local] Set Default Proof Using "All".

(** A built mirror agrees with the table on every number whose last release
    has been written through. *)
Record einv (s : estate R) : Prop := {
  ei_pos : forall u e, e_tab s !! u = Some e -> 0 <= e;
  ei_pend : forall u e, (u, e) ∈ e_pending s -> e <= epoch_of (e_tab s) u /\ (u, epoch_of (e_tab s) u) ∈ e_pending s;
  ei_hash : exists h, peek (e_now s) EPOCH_KEY (e_redis s) = hash_entry h None /\
    (peek (e_now s) EPOCH_BUILT_KEY (e_redis s) <> None ->
     forall u, hash_epoch h u = Some (epoch_of (e_tab s) u) \/ u ∈ map fst (e_pending s));
  ei_built : expiry (peek (e_now s) EPOCH_BUILT_KEY (e_redis s)) = None;
  ei_marker : peek (e_now s) EPOCH_LOADED_KEY (e_redis s) <> None ->
              peek (e_now s) EPOCH_BUILT_KEY (e_redis s) <> None
}.

Lemma einv_start s : estart s -> einv s.
Proof.
  intros (Ht & Hp & _ & Hr). split; rewrite ?Ht, ?Hp, ?Hr; try set_solver.
  exists ∅. split; [done|]. by intros [].
Qed.

Lemma einv_load s : einv s -> einv (mkEstate (e_now s) (e_tab s) (load_epochs (e_now s) (e_tab s) (e_redis s))
                                      (e_pending s) (e_snaps s)).
Proof.
  intros [Hpos Hpend _ _ _]. destruct (load_epochs_effect (e_now s) (e_tab s) (e_redis s)) as (H1 & H2 & _).
  split; simpl; [done|done| |by rewrite H2|by rewrite H2].
  exists (mirror_hash (e_tab s)). split; [done|]. intros _ u. left. by apply hash_epoch_mirror.
Qed.

Lemma live_no_deadline t v : live t (Some (v, None)) = Some (v, None).
Proof. done. Qed.

Lemma einv_tick s t : einv s -> e_now s <= t ->
  einv (mkEstate t (e_tab s) (e_redis s) (e_pending s) (e_snaps s)).
Proof.
  intros [Hpos Hpend (h & Hh & Hag) Hb Hm] Ht.
  assert (Hb' : peek t EPOCH_BUILT_KEY (e_redis s) = peek (e_now s) EPOCH_BUILT_KEY (e_redis s)).
  { rewrite (peek_later (e_now s) t) by done.
    by destruct (peek (e_now s) EPOCH_BUILT_KEY (e_redis s)) as [[v [x|]]|]. }
  split; simpl; [done|done| |by rewrite Hb'|].
  - exists h. split; [|by rewrite Hb']. rewrite (peek_later (e_now s) t), Hh by done.
    unfold hash_entry. by destruct (decide _).
  - rewrite Hb'. intros Hl. apply Hm. intros E. apply Hl. by rewrite (peek_later (e_now s) t), E by done.
Qed.

Lemma hash_epoch_insert h u e v :
  hash_epoch (<[str_uin u := (pretty (e : Z) : string)]> h) v =
    if decide (v = u) then Some e else hash_epoch h v.
Proof.
  unfold hash_epoch. destruct (decide (v = u)) as [->|Hne].
  - rewrite lookup_insert_eq, truthy_pretty. apply int_of_pretty.
  - rewrite lookup_insert_ne; [done|]. intros E%str_uin_inj. congruence.
Qed.

Lemma einv_bump s u : einv s ->
  einv (mkEstate (e_now s) (bump_uin_epoch (e_tab s) u).2 (e_redis s)
          ((u, (bump_uin_epoch (e_tab s) u).1) :: e_pending s) (e_snaps s)).
Proof.
  intros [Hpos Hpend (h & Hh & Hag) Hb Hm]. unfold bump_uin_epoch.
  split; simpl; [| | |done|done].
  - intros v e. destruct (decide (v = u)) as [->|Hne].
    + rewrite lookup_insert_eq. intros [= <-]. unfold epoch_of.
      destruct (e_tab s !! u) eqn:E; simpl; [apply Hpos in E; lia|lia].
    + rewrite lookup_insert_ne by done. apply Hpos.
  - intros v e Hin. unfold epoch_of at 1 3. destruct (decide (v = u)) as [->|Hne].
    + rewrite lookup_insert_eq. simpl. split; [|by left].
      apply elem_of_cons in Hin as [[= ->]|Hin]; [done|]. destruct (Hpend _ _ Hin). lia.
    + rewrite lookup_insert_ne by done. fold (epoch_of (e_tab s) v).
      apply elem_of_cons in Hin as [[= -> _]|Hin]; [done|]. destruct (Hpend _ _ Hin). split; [done|by right].
  - exists h. split; [done|]. intros Hbu v. destruct (decide (v = u)) as [->|Hne]; [right; set_solver|].
    unfold epoch_of. rewrite lookup_insert_ne by done. fold (epoch_of (e_tab s) v).
    destruct (Hag Hbu v); [by left|right; set_solver].
Qed.

Lemma einv_cache s u e : einv s -> (u, e) ∈ e_pending s -> (forall e', (u, e') ∈ e_pending s -> e <= e') ->
  einv (mkEstate (e_now s) (e_tab s) (cache_uin_epoch true (e_now s) u e (e_redis s))
          (filter (fun p => p <> (u, e)) (e_pending s)) (e_snaps s)).
Proof.
  intros [Hpos Hpend (h & Hh & Hag) Hb Hm] Hin Hold. simpl.
  pose proof (hset_entry (e_now s) EPOCH_KEY (str_uin u) (pretty e) _ h Hh) as Hs.
  split; simpl; [done| | | |].
  - intros v e' [Hne Hv]%list_elem_of_filter. destruct (Hpend _ _ Hv) as [Hle Htop]. split; [done|].
    apply list_elem_of_filter. split; [|done]. intros [= -> Htop']. apply Hne. f_equal. specialize (Hold _ Hv). lia.
  - exists (<[str_uin u := pretty e]> h). split; [exact (touches_same _ _ _ _ _ Hs)|].
    rewrite (touches_other _ _ _ _ _ EPOCH_BUILT_KEY Hs) by done. intros Hbu v.
    rewrite hash_epoch_insert. destruct (decide (v = u)) as [->|Hne].
    + destruct (Hpend u e Hin) as [Hle Htop]. destruct (decide (e = epoch_of (e_tab s) u)) as [->|Hlt]; [by left|right].
      apply list_elem_of_fmap. exists (u, epoch_of (e_tab s) u). split; [done|]. apply list_elem_of_filter. split; [congruence|done].
    + destruct (Hag Hbu v) as [|([v' e'] & Hv & Hp)%list_elem_of_fmap]; [by left|right].
      simpl in Hv. subst v'. apply list_elem_of_fmap. exists (v, e'). split; [done|].
      apply list_elem_of_filter. split; [congruence|done].
  - by rewrite (touches_other _ _ _ _ _ EPOCH_BUILT_KEY Hs).
  - rewrite (touches_other _ _ _ _ _ EPOCH_BUILT_KEY Hs), (touches_other _ _ _ _ _ EPOCH_LOADED_KEY Hs) by done.
    exact Hm.
Qed.

Lemma einv_step s s' : estep true s s' -> einv s -> einv s'.
Proof.
  destruct 1 as [s t Ht|s u|s u e Hin Ho|s|s|s snap Hin Hst|s r Hr]; intros Hi.
  - by apply einv_tick.
  - by apply einv_bump.
  - apply einv_cache; [done..|by apply Ho].
  - unfold ensure_epochs. destruct (present _ EPOCH_LOADED_KEY _); [by destruct Hi|].
    destruct (present _ EPOCH_BUILT_KEY _); [by destruct Hi|]. by apply einv_load.
  - by destruct Hi.
  - rewrite (Hst eq_refl). by apply einv_load.
  - destruct Hi. split; simpl; rewrite ?Hr; try done. exists ∅. split; [done|]. by intros [].
Qed.

Lemma einv_reachable s0 s : estart s0 -> rtc (estep true) s0 s -> einv s.
Proof.
  intros H0%einv_start Hr. induction Hr; eauto using einv_step.
Qed.

(** In such a state the mirror, read the way a request reads it, gives the
    number's epoch. *)
Lemma einv_uin_epoch s u up db_up :
  einv s -> u ∉ map fst (e_pending s) -> up || db_up = true ->
  (uin_epoch up db_up (e_now s) (e_tab s) u (e_redis s)).1 = epoch_of (e_tab s) u.
Proof.
  intros Hi Hu Hup. unfold uin_epoch. destruct up; simpl; [|by destruct db_up].
  assert (Hi' : einv (mkEstate (e_now s) (e_tab s) (ensure_epochs (e_now s) (e_tab s) (e_redis s))
                        (e_pending s) (e_snaps s)))
    by (eapply einv_step; [apply es_lookup|done]).
  assert (Hbu : peek (e_now s) EPOCH_BUILT_KEY (ensure_epochs (e_now s) (e_tab s) (e_redis s)) <> None).
  { unfold ensure_epochs, present. case_bool_decide as Hl; [|case_bool_decide as Hb].
    - apply (ei_marker s Hi). by destruct Hl as [? ->].
    - by destruct Hb as [? ->].
    - by destruct (load_epochs_effect (e_now s) (e_tab s) (e_redis s)) as (_ & -> & _). }
  destruct Hi' as [_ _ (h & Hh & Hag) _ _]. simpl in *. destruct (Hag Hbu u) as [Ha|]; [|done].
  rewrite (hget_spec _ _ _ _ h) by (rewrite Hh; apply as_hash_entry).
  unfold hash_epoch in Ha. destruct (truthy_str (h !! str_uin u)); [by rewrite Ha|congruence].
Qed.
End mirror_inv.

(** ** Sessions of a previous holder *)

Lemma epoch_bump tab u v :
  epoch_of (bump_uin_epoch tab u).2 v = if decide (v = u) then epoch_of tab u + 1 else epoch_of tab v.
Proof.
  unfold bump_uin_epoch, epoch_of. simpl. destruct (decide (v = u)) as [->|Hne].
  - by rewrite lookup_insert_eq.
  - by rewrite lookup_insert_ne.
Qed.

(** The epoch of a number only grows. *)
Lemma estep_grows {R} `{Redis R} strict (s s' : estate R) u :
  estep strict s s' -> epoch_of (e_tab s) u <= epoch_of (e_tab s') u.
Proof.
  destruct 1 as [| s v | | | | |]; cbn [e_tab]; try lia. rewrite epoch_bump.
  destruct (decide (u = v)) as [->|]; lia.
Qed.

Lemma esteps_grow {R} `{Redis R} strict (s s' : estate R) u :
  rtc (estep strict) s s' -> epoch_of (e_tab s) u <= epoch_of (e_tab s') u.
Proof. induction 1 as [|? ? ? Hs _ IH]; [done|]. apply (estep_grows _ _ _ u) in Hs. lia. Qed.

Section stale.
Context {R : Type} `{RL : RedisLaws R} {T : Type} `{JL : JWTLaws T} (bucket : string -> string).
#[local] Set Default Proof Using "All".

(** The tokens the server mints for the holder of [u] at the epoch [e]. *)
Definition minted (u e : Z) (t : T) : Prop :=
  (exists ttl at_ dev, t = issue_token ttl at_ u e dev) \/
  (exists at_ dev, t = issue_device_token at_ u dev e).

Lemma minted_claims u e t now :
  minted u e t -> exists c, jwt_decode false now t = Some c /\ c_sub c = Some u /\ default 0 (c_ep c) = e.
Proof.
  assert (He : default 0 (ep_claim e) = e) by (unfold ep_claim; by destruct (Z.eqb_spec e 0)).
  intros [(ttl & at_ & dev & ->)|(at_ & dev & ->)]; eexists; (split; [apply jwt_decode_signed|done]).
Qed.

Lemma authorize_epoch up now t tab d (r : R) u e v :
  minted u e t -> (authorize_session bucket up now t tab d r).1 = Ok v ->
  v = u /\ e = (uin_epoch (up_epochs up) (up_db up) now tab u r).1.
Proof.
  intros (c & Hd & Hs & He)%(minted_claims _ _ _ now). unfold authorize_session, decode_session_payload.
  rewrite Hd.
  set (x := match truthy_str (c_dev c) with Some _ => _ | None => Some c end).
  destruct x as [c'|] eqn:Ex; [|done]. assert (c' = c) as ->.
  { unfold x in Ex. repeat case_match; congruence. }
  rewrite Hs. destruct (device_is_revoked _ _ _ _ _ _) as [[]|]; [done| |done].
  destruct (uin_epoch _ _ _ _ _ _) as [e' r']. rewrite He.
  destruct (Z.eqb_spec e e') as [->|]; [|done]. simpl.
  destruct (is_suspended_uin _ _ _ _ _) as [[] r'']; [done|]. intros [= <-]. done.
Qed.
End stale.

(** C9. A session minted for the holder of a number is refused in every later
    state once that number has been released and every release of it so far has
    been written through to Redis, whatever else was released, cached, looked up,
    rebuilt, expired or lost in between.  Three provisos: no release commits
    inside a rebuild of the mirror; the releases of one number are written
    through in the order they were committed; and at the moment of the request
    Redis or, failing it, the database answers. *)
Theorem stale_token_refused {R} `{RL : RedisLaws R} {T} `{JL : JWTLaws T} bucket up
    (s0 s1 s2 s : estate R) (t : T) (d : db) (u v : Z) :
  estart s0 -> rtc (estep true) s0 s1 -> minted u (epoch_of (e_tab s1) u) t ->
  estep true s1 s2 -> epoch_of (e_tab s1) u < epoch_of (e_tab s2) u ->
  rtc (estep true) s2 s -> u ∉ map fst (e_pending s) ->
  up_epochs up || up_db up = true ->
  (authorize_session bucket up (e_now s) t (e_tab s) d (e_redis s)).1 <> Ok v.
Proof.
  intros Hst Hr1 Hm Hs Hlt Hr2 Hp Hup Ha.
  assert (Hi : einv s).
  { apply (einv_reachable s0 s Hst). etrans; [exact Hr1|]. by eapply rtc_l. }
  apply (authorize_epoch bucket _ _ _ _ _ _ u (epoch_of (e_tab s1) u)) in Ha as [_ He]; [|done].
  rewrite einv_uin_epoch in He by done. apply (esteps_grow _ _ _ u) in Hr2. lia.
Qed.

(** ** An example: tokens that are their claims *)

#[export] Instance claims_jwt : JWT claims := {
  jwt_encode c := c;
  jwt_decode verify now c :=
    if verify then match c_exp c with Some e => if now <? seconds e then Some c else None | None => Some c end
    else Some c
}.
#[export] Instance claims_jwt_laws : JWTLaws claims.
Proof.
  split; [done| |]; intros now c e He Ht; simpl; rewrite He.
  - by destruct (Z.ltb_spec now (seconds e)); [|lia].
  - destruct (Z.ltb_spec now (seconds e)); [|done]. unfold seconds, usec_per_sec in *. lia.
Qed.

Definition demo_estate : estate store := mkEstate 0 ∅ ∅ [] [].
Definition demo_bearer : claims := issue_token 3600 0 7 0 None.
Definition demo_bucket (s : string) : string := s.

Lemma demo_estart : estart demo_estate.
Proof. split_and!; done. Qed.

(** Number 7 is released and the release is written through. *)
Definition demo_released : estate store :=
  mkEstate 0 (bump_uin_epoch ∅ 7).2 ∅ [(7, 1)] [].
Definition demo_cached : estate store :=
  mkEstate 0 (bump_uin_epoch ∅ 7).2 (cache_uin_epoch true 0 7 1 ∅) [] [].

Lemma stale_token_refused_witness :
  (authorize_session demo_bucket auth_all_up 0 demo_bearer (e_tab demo_cached) empty_db
     (e_redis demo_cached)).1 <> Ok 7.
Proof.
  apply (stale_token_refused demo_bucket auth_all_up demo_estate demo_estate demo_released demo_cached
           demo_bearer empty_db 7 7).
  - exact demo_estart.
  - apply rtc_refl.
  - left. by exists 3600, 0, None.
  - apply (es_bump true demo_estate 7).
  - vm_compute. reflexivity.
  - eapply rtc_l; [|apply rtc_refl].
    apply (es_cache true demo_released 7 1); [by left|]. intros _ e' He'.
    apply list_elem_of_singleton in He'. injection He' as ->. lia.
  - apply not_elem_of_nil.
  - done.
Defined.

(** Without the first proviso it fails: a rebuild that read the table before a
    release and writes after it erases the write-through, and the session of
    the previous holder opens the number again (for as long as the marker the
    rebuild leaves is trusted). *)
Theorem stale_token_accepted :
  exists s : estate store,
    rtc (estep false) demo_estate s /\ e_pending s = [] /\ epoch_of (e_tab s) 7 = 1 /\
    (authorize_session demo_bucket auth_all_up (e_now s) demo_bearer (e_tab s) empty_db (e_redis s)).1 = Ok 7.
Proof.
  exists (mkEstate 0 (bump_uin_epoch ∅ 7).2
            (load_epochs 0 ∅ (cache_uin_epoch true 0 7 1 ∅)) [] [∅]).
  split; [|vm_compute; done].
  eapply rtc_l; [apply es_snap|]. eapply rtc_l; [by apply (es_bump false _ 7)|].
  eapply rtc_l; [apply (es_cache false _ 7 1); [by left|done]|]. eapply rtc_l; [|apply rtc_refl].
  apply (es_write false (mkEstate 0 (bump_uin_epoch ∅ 7).2 (cache_uin_epoch true 0 7 1 ∅) [] [∅]) ∅);
    [by left|done].
Qed.

(** Nor without the second: of two releases in a row the older is written
    through last, and the session of the holder between them opens the number. *)
Theorem late_write_through_accepted :
  exists s : estate store,
    rtc (estep false) demo_estate s /\ e_pending s = [] /\ epoch_of (e_tab s) 7 = 2 /\
    (authorize_session demo_bucket auth_all_up (e_now s) (issue_token 3600 0 7 1 None : claims) (e_tab s) empty_db (e_redis s)).1 = Ok 7.
Proof.
  set (t0 := load_epochs 0 ∅ (∅ : store)).
  exists (mkEstate 0 {[ 7 := 2 ]} (cache_uin_epoch true 0 7 1 (cache_uin_epoch true 0 7 2 t0)) [] []).
  split; [|vm_compute; done].
  eapply rtc_l; [apply es_lookup|]. eapply rtc_l; [by apply (es_bump false _ 7)|]. eapply rtc_l; [by apply (es_bump false _ 7)|].
  eapply rtc_l; [apply (es_cache false _ 7 2); [by left|done]|].
  eapply rtc_l; [apply (es_cache false _ 7 1); [apply list_elem_of_filter; split; [discriminate|right; left]|done]|].
  match goal with |- rtc _ ?x ?y => replace y with x; [apply rtc_refl|vm_compute; reflexivity] end.
Qed.

(** Nor without the third: with Redis and the database both away the epoch
    reads 0, and a session of the first holder passes. *)
Theorem stale_token_accepted_in_outage :
  (authorize_session demo_bucket (mkAuthUp true false false true) 0 demo_bearer (e_tab demo_cached) empty_db
     (e_redis demo_cached)).1 = Ok 7.
Proof. vm_compute. reflexivity. Qed.

(** ** Challenges *)

Lemma seconds_numeric t : t - seconds 1 < seconds (numeric_date t) <= t.
Proof.
  unfold seconds, numeric_date, usec_per_sec. pose proof (Z.div_mod t 1000000 ltac:(lia)).
  pose proof (Z.mod_pos_bound t 1000000 ltac:(lia)). lia.
Qed.

(** A key challenge passes for exactly the key and the use it was minted for,
    for two minutes to the second, and never as a session. *)
Theorem key_challenge_spec {R} `{RR : Redis R} {T} `{JL : JWTLaws T} bucket up now at_ tab d (r : R)
    sk sk' typ typ' nonce :
  let ch : T := issue_key_challenge at_ sk typ nonce in
  (now <= at_ + seconds 119 ->
   verify_key_challenge now ch sk' typ' = true <-> sk' = sk /\ typ' = typ) /\
  (at_ + seconds 121 <= now -> verify_key_challenge now ch sk' typ' = false) /\
  (authorize_session bucket up now ch tab d r).1 = Raise invalid_token.
Proof.
  simpl. pose proof (seconds_numeric (at_ + seconds 120)) as He.
  unfold verify_key_challenge, issue_key_challenge. split_and!.
  - intros Hn. erewrite jwt_decode_live; [|done|unfold seconds, usec_per_sec in *; lia]. simpl. rewrite andb_true_iff, !bool_decide_eq_true.
    split; [intros []; split; congruence|by intros [-> ->]].
  - intros Hn. by erewrite jwt_decode_expired; [|done|unfold seconds, usec_per_sec in *; lia].
  - unfold authorize_session, decode_session_payload. by rewrite jwt_decode_signed.
Qed.
