(* ===== verification/Devices.v ===== *)
(** * Linked devices

    Models [src/app/routers/devices.py]: the registry of linked web sessions
    in Redis (link, first use, list, disconnect), the denylist a disconnect
    writes and [authorize_session] reads, and the cooldown that keeps a freshly
    linked session from disconnecting older ones.

    Redis is taken to answer, except where the code says what happens when it
    does not ([mark_device_seen]); a failing call is an unhandled error. *)

From stdpp Require Import base list gmap strings pretty.
From Stdlib Require Import ZArith Lia Ascii.
From S2P Require Import Prelude Storage Redis GuestPolicy Sessions.

(** ** Registry entries *)

(** The JSON values of a registry entry. *)
Inductive jval := JStr (s : string) | JBool (b : bool) | JNull | JNum (n : Z).

(** A JSON object, as Python's dictionaries keep it. *)
Notation jobj := (list (string * jval)).

(** Python's truth value. *)
Definition truthy (v : jval) : bool :=
  match v with
  | JStr s => negb (String.eqb s "")
  | JBool b => b
  | JNull => false
  | JNum n => negb (n =? 0)
  end.

Definition jget (k : string) (e : jobj) : option jval :=
  option_map snd (find_first (fun '(k', _) => String.eqb k' k) e).

(** [d.get("pending")] as a condition. *)
Definition is_pending (e : jobj) : bool :=
  match jget "pending" e with Some v => truthy v | None => false end.

Definition MAX_DEVICES : Z := 5.
Definition REVOKE_COOLDOWN_SECONDS : Z := 24 * 3600.
Definition PENDING_TTL_SECONDS : Z := 15 * 60.

Inductive dev_event :=
  | Announce (uin : Z) (kind device_id : string) (label : option string)
  | KickDevice (uin : Z) (device_id : string).

Record LinkOut (T : Type) := mkLinkOut { lo_device_id : string; lo_token : T }.
Arguments mkLinkOut {_}. Arguments lo_device_id {_}. Arguments lo_token {_}.

Record DeviceOut := mkDeviceOut {
  do_device_id : string; do_label : string; do_created_at : string; do_pending : bool
}.

Section registry.
Context {R : Type} `{RR : Redis R} {T : Type} `{JT : JWT T}.
(** [json.loads] of an object ([None]: a [ValueError]) and [json.dumps];
    [datetime.isoformat] of a UTC instant and [datetime.fromisoformat], which
    also says whether the text named a time zone; [bucket_name]. *)
Context (loads : string -> option jobj) (dumps : jobj -> string).
Context (isoformat : Z -> string) (fromisoformat : string -> option (Z * bool)).
Context (bucket : string -> string).

Definition devices_key (uin : Z) : string := account_key bucket DEVICES_PREFIX uin.
Definition revoked_key (uin : Z) : string := account_key bucket DEV_REVOKED_PREFIX uin.

Definition has_linked_devices (now uin : Z) (r : R) : bool := key_exists now (devices_key uin) r.

(** A name that can be in the registry. *)
Definition registry_name (device_id : string) : bool :=
  negb (String.eqb device_id "" || String.eqb device_id "primary").

Definition is_linked_device (now uin : Z) (device_id : string) (r : R) : bool :=
  registry_name device_id && bool_decide (is_Some (hget now (devices_key uin) device_id r)).

(** [device_id]: what [secrets.token_hex(8)] drew. *)
Definition link_device (up : auth_up) (now : Z) (label : string) (uin : Z) (device_id : string)
    (tab : epochs) (r : R) : outcome (LinkOut T) * R * list dev_event :=
  if MAX_DEVICES <=? hlen now (devices_key uin) r
  then (Raise (HTTPException 409 "too_many_devices"), r, [])
  else
    let entry := dumps [("label"%string, JStr label); ("created_at"%string, JStr (isoformat now));
                        ("pending"%string, JBool true)] in
    let r := hset now (devices_key uin) device_id entry r in
    let r := expire now (devices_key uin) DEVICE_TTL_SECONDS r in
    let '(e, r) := uin_epoch (up_epochs up) (up_db up) now tab uin r in
    (Ok (mkLinkOut device_id (issue_device_token now uin device_id e)), r,
     [Announce uin "device_linked" device_id (Some label)]).

Definition mark_device_seen (up : bool) (now uin : Z) (device_id : string) (r : R) : R :=
  if negb (registry_name device_id) then r
  else if negb up then r
  else
    match hget now (devices_key uin) device_id r with
    | None => r
    | Some raw =>
        if String.eqb raw "" then r
        else match loads raw with
        | None => r
        | Some entry =>
            if is_pending entry
            then hset now (devices_key uin) device_id
                   (dumps (filter (fun e => e.1 <> "pending"%string) entry)) r
            else r
        end
    end.

(** [datetime.fromisoformat(d.get("created_at", ""))]; [None]: it raises. *)
Definition born (e : jobj) : option (Z * bool) :=
  match jget "created_at" e with
  | Some (JStr s) => fromisoformat s
  | Some _ => None
  | None => fromisoformat ""
  end.

Definition linked_created_at (now uin : Z) (device_id : string) (r : R) : option Z :=
  if negb (registry_name device_id) then None
  else match hget now (devices_key uin) device_id r with
  | Some raw => if String.eqb raw "" then None
                else match loads raw with Some e => option_map fst (born e) | None => None end
  | None => None
  end.

Definition revoker_gate (now uin : Z) (revoker : string) (target_created_at : option Z) (r : R)
    : outcome unit :=
  match linked_created_at now uin revoker r with
  | None => Ok tt
  | Some b =>
      let age := now - b in
      if seconds REVOKE_COOLDOWN_SECONDS <=? age then Ok tt
      else
        let refuse := Raise (HTTPExceptionN 403 "revoke_cooldown"
                               ((seconds REVOKE_COOLDOWN_SECONDS - age) / usec_per_sec)) in
        match target_created_at with
        | Some t => if b <=? t then Ok tt else refuse
        | None => refuse
        end
  end.

(** One entry of the list: swept ([None]) or shown. *)
Definition list_entry (now : Z) (did : string) (entry : string) : outcome (option DeviceOut) :=
  let d := default [] (loads entry) in
  let text k dflt := match jget k d with
                     | None => Ok dflt
                     | Some (JStr s) => Ok s
                     | Some _ => Raise (TypeError "not a string")
                     end in
  let! stale :=
    if is_pending d then
      let! created := text "created_at"%string ""%string in
      match fromisoformat created with
      | None => Ok true
      | Some (b, true) => Ok (seconds PENDING_TTL_SECONDS <? now - b)
      | Some (_, false) => Raise (TypeError "naive and aware datetimes")
      end
    else Ok false in
  if (stale : bool) then Ok None
  else
    let! label := text "label"%string "Web"%string in
    let! created := text "created_at"%string ""%string in
    Ok (Some (mkDeviceOut did label created (is_pending d))).

Fixpoint list_loop (now uin : Z) (items : list (string * string)) (r : R) : outcome (list DeviceOut) * R :=
  match items with
  | [] => (Ok [], r)
  | (did, entry) :: items =>
      match list_entry now did entry with
      | Raise x => (Raise x, r)
      | Ok None => list_loop now uin items (hdel now (devices_key uin) did r)
      | Ok (Some o) =>
          let '(out, r) := list_loop now uin items r in
          ((let! l := out in Ok (o :: l)), r)
      end
  end.

Definition list_devices (now uin : Z) (r : R) : outcome (list DeviceOut) * R :=
  list_loop now uin (hgetall now (devices_key uin) r) r.

(** [_revoke] *)
Definition revoke (now uin : Z) (device_id : string) (d : db) (r : R) : db * R * list dev_event :=
  let r := hdel now (devices_key uin) device_id r in
  let r := sadd now (revoked_key uin) [device_id] r in
  let r := expire now (revoked_key uin) DEVICE_TTL_SECONDS r in
  let d := set_queue_cursors (delete (uin, device_id)) d in
  let d := set_device_tokens
             (filter (fun t => ~ (dt_uin t = uin /\ dt_device_id t = Some device_id))) d in
  (d, r, [Announce uin "device_revoked" device_id None; KickDevice uin device_id]).

Definition revoke_own_device (now uin : Z) (device_id : string) (d : db) (r : R)
    : db * R * list dev_event :=
  if String.eqb device_id "" || negb (bool_decide (is_Some (hget now (devices_key uin) device_id r)))
  then (d, r, [])
  else revoke now uin device_id d r.

Definition revoke_device (now uin : Z) (device_id caller : string) (d : db) (r : R)
    : outcome unit * db * R * list dev_event :=
  match revoker_gate now uin caller (linked_created_at now uin device_id r) r with
  | Raise x => (Raise x, d, r, [])
  | Ok _ => let '(d, r, ev) := revoke now uin device_id d r in (Ok tt, d, r, ev)
  end.
End registry.

(** ** A disconnected device stays out *)

Section denylist.
Context {R : Type} `{RL : RedisLaws R} (bucket : string -> string).
#[local] Set Default Proof Using "RL".

#[local] Notation devices_key := (devices_key bucket).
#[local] Notation revoked_key := (revoked_key bucket).

Lemma key_apart u v : devices_key u <> revoked_key v.
Proof. by intros [=]. Qed.

(** The registries hold hashes and the denylists sets. *)
Definition reg_ok (now : Z) (r : R) : Prop :=
  forall u, is_Some (as_hash (peek now (devices_key u) r)) /\ is_Some (as_set (peek now (revoked_key u) r)).

(** The denylist of [u] names [dev] and is kept until [until] at least. *)
Definition denied (now until u : Z) (dev : string) (r : R) : Prop :=
  exists s x, peek now (revoked_key u) r = Some (VSet s, Some x) /\ dev ∈ s /\ until <= x.

(** A change that keeps the types and every denial up to [until]. *)
Definition keeps (now until : Z) (r r' : R) : Prop :=
  reg_ok now r ->
  reg_ok now r' /\ forall u dev, denied now until u dev r -> denied now until u dev r'.

#[local] Instance keeps_preorder now until : PreOrder (keeps now until).
Proof.
  split; [by intros r|]. intros r1 r2 r3 H1 H2 Hok. destruct (H1 Hok) as [Hok2 Hd].
  destruct (H2 Hok2) as [Hok3 Hd']. split; [done|]. eauto.
Qed.

Lemma keeps_elsewhere now until r r' :
  (forall u, peek now (devices_key u) r' = peek now (devices_key u) r /\
             peek now (revoked_key u) r' = peek now (revoked_key u) r) -> keeps now until r r'.
Proof.
  intros He Hok. split.
  - intros u. destruct (He u) as [-> ->]. apply Hok.
  - intros u dev (s & x & Hp & ?). exists s, x. by destruct (He u) as [_ ->].
Qed.

Lemma keeps_devices now until v e r r' :
  touches now (devices_key v) e r r' -> is_Some (as_hash e) -> keeps now until r r'.
Proof.
  intros Ht He Hok. split.
  - intros u. rewrite (touches_other _ _ _ _ _ (revoked_key u) Ht) by (apply not_eq_sym, key_apart).
    split; [|apply Hok]. rewrite (Ht (devices_key u)). destruct (decide _); [done|apply Hok].
  - intros u dev (s & x & Hp & ?). exists s, x.
    by rewrite (touches_other _ _ _ _ _ _ Ht) by (apply not_eq_sym, key_apart).
Qed.

Lemma keeps_hset now until v f w r : keeps now until r (hset now (devices_key v) f w r).
Proof.
  intros Hok. destruct (Hok v) as [[h Hh] _].
  by apply (keeps_devices _ _ v _ _ _ (hset_spec _ _ f w _ h Hh)).
Qed.

Lemma keeps_hdel now until v f r : keeps now until r (hdel now (devices_key v) f r).
Proof.
  intros Hok. destruct (Hok v) as [[h Hh] _].
  apply (keeps_devices _ _ v _ _ _ (hdel_spec _ _ f _ h Hh)); [|done]. by rewrite as_hash_entry.
Qed.

Lemma keeps_expire_devices now until v n r : keeps now until r (expire now (devices_key v) n r).
Proof.
  intros Hok. apply (keeps_devices _ _ v _ _ _ (expire_spec now (devices_key v) n r)); [|done].
  destruct (Hok v) as [[h Hh] _]. destruct (peek now (devices_key v) r) as [[w x]|]; [|done].
  simpl. destruct (_ <=? now); [done|]. by destruct w.
Qed.

(** A disconnect: the set grows and lives ninety days more. *)
Lemma keeps_deny now until v dev r :
  until <= now + seconds DEVICE_TTL_SECONDS ->
  let r' := expire now (revoked_key v) DEVICE_TTL_SECONDS (sadd now (revoked_key v) [dev] r) in
  keeps now until r r' /\ (reg_ok now r -> denied now (now + seconds DEVICE_TTL_SECONDS) v dev r').
Proof.
  intros Hu. simpl.
  assert (Hd : forall s, as_set (peek now (revoked_key v) r) = Some s ->
    touches now (revoked_key v)
      (Some (VSet (s ∪ {[dev]}), Some (now + seconds DEVICE_TTL_SECONDS))) r
      (expire now (revoked_key v) DEVICE_TTL_SECONDS (sadd now (revoked_key v) [dev] r))).
  { intros s Hs k. pose proof (sadd_spec now _ [dev] r s Hs) as Ha.
    rewrite (expire_spec now (revoked_key v) DEVICE_TTL_SECONDS _ k), (touches_same _ _ _ _ _ Ha).
    destruct (decide (k = _)) as [->|Hne]; [|by apply (touches_other _ _ _ _ _ _ Ha)].
    unfold set_entry. rewrite decide_False by set_solver. simpl.
    destruct (Z.leb_spec (now + seconds DEVICE_TTL_SECONDS) now) as [Hle|_].
    - unfold seconds, DEVICE_TTL_SECONDS, usec_per_sec in Hle. lia.
    - do 3 f_equal. set_solver. }
  split.
  - intros Hok. destruct (Hok v) as [_ [s Hs]]. specialize (Hd s Hs). split.
    + intros u. rewrite (touches_other _ _ _ _ _ _ Hd) by apply key_apart. split; [apply Hok|].
      rewrite (Hd (revoked_key u)). destruct (decide _); [done|apply Hok].
    + intros u dev' (s' & x & Hp & Hin & Hx). unfold denied. rewrite (Hd (revoked_key u)).
      destruct (decide _) as [E|]; [|by exists s', x]. exists (s ∪ {[dev]}). eexists.
      split; [done|]. split; [|done]. rewrite E in Hp. rewrite Hp in Hs. simpl in Hs. simplify_eq. set_solver.
  - intros Hok. destruct (Hok v) as [_ [s Hs]]. exists (s ∪ {[dev]}). eexists.
    rewrite (touches_same _ _ _ _ _ (Hd s Hs)). split; [done|]. split; [set_solver|done].
Qed.

Lemma keeps_uin_epoch now until up db_up tab u r : keeps now until r (uin_epoch up db_up now tab u r).2.
Proof.
  unfold uin_epoch. destruct up; [simpl|done]. unfold ensure_epochs.
  destruct (present _ EPOCH_LOADED_KEY _); [done|]. destruct (present _ EPOCH_BUILT_KEY _); [done|].
  apply keeps_elsewhere. intros v. destruct (load_epochs_effect now tab r) as (_ & _ & He).
  split; apply He; rewrite !elem_of_cons, elem_of_nil; intros [[=]|[[=]|[[=]|[]]]].
Qed.

Context {T : Type} `{JT : JWT T} (loads : string -> option jobj) (dumps : jobj -> string).
Context (isoformat : Z -> string) (fromisoformat : string -> option (Z * bool)).

(** The operations on the registry, of any account. *)
Inductive reg_op :=
  | RLink (up : auth_up) (label : string) (uin : Z) (device_id : string) (tab : epochs)
  | RSeen (up : bool) (uin : Z) (device_id : string)
  | RList (uin : Z)
  | RRevokeOwn (uin : Z) (device_id : string)
  | RRevoke (uin : Z) (device_id caller : string).

Definition reg_apply (now : Z) (op : reg_op) (st : db * R) : db * R :=
  let '(d, r) := st in
  match op with
  | RLink up label uin dev tab =>
      (d, (link_device (T := T) dumps isoformat bucket up now label uin dev tab r).1.2)
  | RSeen up uin dev => (d, mark_device_seen loads dumps bucket up now uin dev r)
  | RList uin => (d, (list_devices loads fromisoformat bucket now uin r).2)
  | RRevokeOwn uin dev => (revoke_own_device bucket now uin dev d r).1
  | RRevoke uin dev caller =>
      ((revoke_device loads fromisoformat bucket now uin dev caller d r).1.1.2,
       (revoke_device loads fromisoformat bucket now uin dev caller d r).1.2)
  end.
Lemma keeps_list now until uin items r :
  keeps now until r (list_loop loads fromisoformat bucket now uin items r).2.
Proof.
  revert r; induction items as [|[did entry] items IH]; intros r; simpl; [done|].
  destruct (list_entry _ _ _ _ _) as [[o|]|]; [| |done].
  - specialize (IH r). by destruct (list_loop _ _ _ _ _ _ _).
  - etrans; [apply keeps_hdel|apply IH].
Qed.

Lemma keeps_revoke now until uin dev d r :
  until <= now + seconds DEVICE_TTL_SECONDS -> keeps now until r (revoke bucket now uin dev d r).1.2.
Proof.
  intros Hu. unfold revoke. simpl. etrans; [apply keeps_hdel|]. by apply keeps_deny.
Qed.

Lemma keeps_op now until op d r :
  until <= now + seconds DEVICE_TTL_SECONDS -> keeps now until r (reg_apply now op (d, r)).2.
Proof.
  intros Hu. destruct op as [up label uin dev tab|up uin dev|uin|uin dev|uin dev caller]; simpl.
  - unfold link_device. destruct (_ <=? _); [done|].
    set (r1 := hset _ _ _ _ _). set (r2 := expire _ _ _ _).
    pose proof (keeps_uin_epoch now until (up_epochs up) (up_db up) tab uin r2) as He.
    destruct (uin_epoch _ _ _ _ _ r2) as [e r3]. simpl in *.
    etrans; [apply keeps_hset|]. etrans; [apply keeps_expire_devices|]. exact He.
  - unfold mark_device_seen. repeat case_match; try done. apply keeps_hset.
  - apply keeps_list.
  - unfold revoke_own_device. destruct (_ || _); [done|]. by apply keeps_revoke.
  - unfold revoke_device. destruct (revoker_gate _ _ _ _ _ _ _ _) as [[]|]; [|done].
    pose proof (keeps_revoke now until uin dev d r Hu) as Hk.
    by destruct (revoke _ _ _ _ _ _) as [[]].
Qed.

(** A run: operations with the instants they happen at, none before [t]. *)
Fixpoint in_order (t : Z) (ops : list (Z * reg_op)) : Prop :=
  match ops with [] => True | (t', _) :: ops => t <= t' /\ in_order t' ops end.
Definition reg_run (ops : list (Z * reg_op)) (st : db * R) : db * R :=
  foldl (fun st '(t, op) => reg_apply t op st) st ops.
Fixpoint end_time (t : Z) (ops : list (Z * reg_op)) : Z :=
  match ops with [] => t | (t', _) :: ops => end_time t' ops end.

Lemma end_time_ge t ops : in_order t ops -> t <= end_time t ops.
Proof.
  revert t; induction ops as [|[t1 op] ops IH]; intros t; simpl; [done|]. intros [? ?%IH]. lia.
Qed.

Lemma reg_ok_later t t' r : t <= t' -> reg_ok t r -> reg_ok t' r.
Proof.
  intros Ht Hok u. destruct (Hok u) as [Hh Hs]. rewrite !(peek_later t t') by done.
  split; [destruct (peek t (devices_key u) r) as [[v [x|]]|]|destruct (peek t (revoked_key u) r) as [[v [x|]]|]];
    simpl in *; try done; destruct (x <=? t'); first [by eexists|done].
Qed.

Lemma denied_later t t' until u dev r : t <= t' -> t' < until -> denied t until u dev r -> denied t' until u dev r.
Proof.
  intros Ht Hu (s & x & Hp & Hin & Hx). exists s, x. rewrite (peek_later t t'), Hp by done. simpl.
  by destruct (Z.leb_spec x t'); [lia|].
Qed.

Lemma run_denied t until u dev ops d r t' :
  until <= t + seconds DEVICE_TTL_SECONDS -> in_order t ops -> end_time t ops <= t' -> t' < until ->
  reg_ok t r -> denied t until u dev r -> denied t' until u dev (reg_run ops (d, r)).2.
Proof.
  revert t d r; induction ops as [|[t1 op] ops IH]; intros t d r Hu Ho Hend Ht' Hok Hd.
  { by apply (denied_later t). }
  destruct Ho as [Ht1 Ho]. pose proof (end_time_ge t1 ops Ho) as Hl. simpl in Hend.
  change (reg_run ((t1, op) :: ops) (d, r)) with (reg_run ops (reg_apply t1 op (d, r))).
  assert (Hlt : t1 < until) by lia.
  destruct (keeps_op t1 until op d r ltac:(lia) (reg_ok_later t t1 r Ht1 Hok)) as [Hok1 Hd1].
  destruct (reg_apply t1 op (d, r)) as [d1 r1]. apply (IH t1); try done; [lia|].
  apply Hd1. by apply (denied_later t).
Qed.
End denylist.

(** A device that has been disconnected stays out: for ninety days no token
    that names it opens the account, whatever is linked, used, listed or
    disconnected meanwhile, and whether or not Redis answers. *)
Theorem revoked_device_refused {R} `{RL : RedisLaws R} {T} `{JL : JWTLaws T}
    loads dumps isoformat fromisoformat bucket (t t' u : Z) (dev : string) (d d' : db) (r : R)
    (ops : list (Z * reg_op)) (tok : T) c up tab v :
  reg_ok bucket t r ->
  in_order t ops -> end_time t ops <= t' -> t' < t + seconds DEVICE_TTL_SECONDS ->
  jwt_decode false t' tok = Some c -> c_sub c = Some u -> c_dev c = Some dev -> dev <> ""%string ->
  (authorize_session bucket up t' tok tab d'
     (reg_run (T := T) bucket loads dumps isoformat fromisoformat ops (revoke bucket t u dev d r).1).2).1
  <> Ok v.
Proof.
  intros Hok Ho He Ht Hd Hs Hdev Hne.
  assert (Hden : denied bucket t (t + seconds DEVICE_TTL_SECONDS) u dev (revoke bucket t u dev d r).1.2 /\
                 reg_ok bucket t (revoke bucket t u dev d r).1.2).
  { unfold revoke. simpl.
    destruct (keeps_hdel bucket t (t + seconds DEVICE_TTL_SECONDS) u dev r Hok) as [Hok1 _].
    destruct (keeps_deny bucket t (t + seconds DEVICE_TTL_SECONDS) u dev
                (hdel t (devices_key bucket u) dev r) ltac:(lia)) as [Hk Hdn].
    split; [by apply Hdn|by apply Hk]. }
  destruct (revoke bucket t u dev d r) as [[d1 r1] ev]. destruct Hden as [Hden Hok1]. simpl in *.
  apply (run_denied bucket loads dumps isoformat fromisoformat t _ u dev ops d1 r1 t')
    in Hden as (s & x & Hp & Hin & _); try done.
  set (r2 := (reg_run _ _ _ _ _ _ _).2) in *.
  unfold authorize_session, decode_session_payload. rewrite Hd.
  destruct (match truthy_str (c_dev c) with Some _ => _ | None => Some c end) as [c'|] eqn:Ec; [|done].
  assert (c' = c) as -> by (repeat case_match; congruence).
  rewrite Hs, Hdev. unfold device_is_revoked. simpl. rewrite bool_decide_eq_false_2 by done. simpl.
  destruct (up_denylist up); [|done].
  rewrite (sismember_spec _ _ _ _ s) by (unfold revoked_key in Hp; by rewrite Hp).
  by rewrite bool_decide_eq_true_2.
Qed.

(** An installed phone, its session, and a disconnect of it. *)
Definition demo_install : claims := issue_token 3600 0 7 0 (Some "phone-1"%string).
Definition demo_no_json (s : string) : option jobj := None.
Definition demo_no_dump (e : jobj) : string := "".
Definition demo_no_iso (t : Z) : string := "".
Definition demo_no_date (s : string) : option (Z * bool) := None.

Lemma revoked_device_refused_witness :
  (authorize_session demo_bucket auth_all_up (days 89) demo_install ∅ empty_db
     (reg_run (T := claims) demo_bucket demo_no_json demo_no_dump demo_no_iso demo_no_date
        [(days 1, RList 7)] (revoke (R := store) demo_bucket 0 7 "phone-1" empty_db ∅).1).2).1 <> Ok 7.
Proof.
  apply (revoked_device_refused demo_no_json demo_no_dump demo_no_iso demo_no_date demo_bucket
           0 (days 89) 7 "phone-1" empty_db empty_db (∅ : store) [(days 1, RList 7)] demo_install
           demo_install auth_all_up ∅ 7); done.
Defined.

(** The denylist forgets sooner than the token it denies: an install's token
    is not held to its expiry, so ninety days after the disconnect the same
    token opens the account again. *)
Theorem revoked_install_returns :
  let r := (revoke (R := store) demo_bucket 0 7 "phone-1" empty_db ∅).1.2 in
  (authorize_session demo_bucket auth_all_up 0 demo_install ∅ empty_db r).1
    = Raise (HTTPException 401 "device revoked") /\
  (authorize_session demo_bucket auth_all_up (seconds DEVICE_TTL_SECONDS) demo_install ∅ empty_db r).1 = Ok 7.
Proof. vm_compute. done. Qed.

(** ** A freshly linked session *)

Section link_facts.
Context {R : Type} `{RL : RedisLaws R} {T : Type} `{JT : JWT T} (bucket : string -> string).
Context (loads : string -> option jobj) (dumps : jobj -> string).
Context (isoformat : Z -> string) (fromisoformat : string -> option (Z * bool)).
#[local] Set Default Proof Using "RL".

Definition link_entry (label : string) (now : Z) : string :=
  dumps [("label"%string, JStr label); ("created_at"%string, JStr (isoformat now));
         ("pending"%string, JBool true)].

Lemma uin_epoch_devices now up db_up tab u v (r : R) :
  peek now (devices_key bucket v) (uin_epoch up db_up now tab u r).2 = peek now (devices_key bucket v) r.
Proof.
  unfold uin_epoch. destruct up; [simpl|done]. unfold ensure_epochs.
  destruct (present _ EPOCH_LOADED_KEY _); [done|]. destruct (present _ EPOCH_BUILT_KEY _); [done|].
  destruct (load_epochs_effect now tab r) as (_ & _ & He). apply He.
  rewrite !elem_of_cons, elem_of_nil. intros [[=]|[[=]|[[=]|[]]]].
Qed.

(** What a successful link writes into the account's registry. *)
Lemma link_effect up now label u dev tab (r r1 : R) lo ev :
  reg_ok bucket now r ->
  link_device (T := T) dumps isoformat bucket up now label u dev tab r = (Ok lo, r1, ev) ->
  exists h, as_hash (peek now (devices_key bucket u) r) = Some h /\ Z.of_nat (size h) < MAX_DEVICES /\
    peek now (devices_key bucket u) r1 =
      Some (VHash (<[dev := link_entry label now]> h), Some (now + seconds DEVICE_TTL_SECONDS)) /\
    forall k, k <> devices_key bucket u ->
      k ∉ [EPOCH_KEY; EPOCH_LOADED_KEY; EPOCH_BUILT_KEY] -> peek now k r1 = peek now k r.
Proof.
  intros Hok Hl. destruct (Hok u) as [[h Hh] _]. exists h. split; [done|].
  unfold link_device in Hl. rewrite (hlen_spec _ _ _ h Hh) in Hl.
  destruct (Z.leb_spec MAX_DEVICES (Z.of_nat (size h))); [done|]. split; [done|].
  fold (link_entry label now) in Hl. set (e := link_entry label now) in *.
  pose proof (hset_spec now _ dev e r h Hh) as Hs. set (r' := hset now _ dev e r) in *.
  pose proof (expire_spec now (devices_key bucket u) DEVICE_TTL_SECONDS r') as He.
  set (r'' := expire now _ _ r') in *.
  pose proof (uin_epoch_devices now (up_epochs up) (up_db up) tab u u r'') as Hu.
  assert (Ho : forall k, k ∉ [EPOCH_KEY; EPOCH_LOADED_KEY; EPOCH_BUILT_KEY] ->
    peek now k (uin_epoch (up_epochs up) (up_db up) now tab u r'').2 = peek now k r'').
  { intros k Hk. unfold uin_epoch. destruct (up_epochs up); [simpl|done]. unfold ensure_epochs.
    destruct (present _ EPOCH_LOADED_KEY _); [done|]. destruct (present _ EPOCH_BUILT_KEY _); [done|].
    destruct (load_epochs_effect now tab r'') as (_ & _ & Hx). by apply Hx. }
  destruct (uin_epoch _ _ _ _ _ r'') as [ep r3]. simplify_eq/=. split.
  - rewrite Hu, (touches_same _ _ _ _ _ He), (touches_same _ _ _ _ _ Hs). simpl.
    destruct (Z.leb_spec (now + seconds DEVICE_TTL_SECONDS) now) as [Hle|_]; [|done].
    unfold seconds, DEVICE_TTL_SECONDS, usec_per_sec in Hle. lia.
  - intros k Hk Hk'. rewrite Ho by done.
    by rewrite (touches_other _ _ _ _ _ _ He), (touches_other _ _ _ _ _ _ Hs).
Qed.

(** The registry says that [dev] was linked at [t]. *)
Definition linked_at (now u : Z) (dev : string) (t : Z) (r : R) : Prop :=
  exists h x raw e, peek now (devices_key bucket u) r = Some (VHash h, Some x) /\
    t + seconds DEVICE_TTL_SECONDS <= x /\ h !! dev = Some raw /\ raw <> ""%string /\ loads raw = Some e /\
    jget "created_at" e = Some (JStr (isoformat t)).

Lemma linked_at_later now now' u dev t r :
  now <= now' -> now' < t + seconds DEVICE_TTL_SECONDS ->
  linked_at now u dev t r -> linked_at now' u dev t r.
Proof.
  intros Hn Hlt (h & x & raw & e & Hp & Hx & ?). exists h, x, raw, e.
  rewrite (peek_later now now'), Hp by done. simpl. by destruct (Z.leb_spec x now'); [lia|].
Qed.

Lemma jget_filter k k' e :
  k <> k' -> jget k (filter (fun x : string * jval => x.1 <> k') e) = jget k e.
Proof.
  intros Hne. unfold jget. induction e as [|[k1 v] e IH]; simpl; [done|].
  destruct (decide (k1 <> k')) as [Hk|Hk].
  - rewrite filter_cons_True by done. simpl. by destruct (String.eqb k1 k).
  - rewrite filter_cons_False by done. rewrite IH.
    destruct (String.eqb_spec k1 k) as [->|]; [|done]. by destruct Hk.
Qed.

Context (json : forall e, loads (dumps e) = Some e /\ dumps e <> ""%string).
Context (iso : forall t, fromisoformat (isoformat t) = Some (t, true)).

Lemma linked_at_link up now label u dev tab r r1 lo ev :
  reg_ok bucket now r ->
  link_device (T := T) dumps isoformat bucket up now label u dev tab r = (Ok lo, r1, ev) ->
  linked_at now u dev now r1.
Proof using RL json.
  intros Hok (h & _ & _ & Hp & _)%link_effect; [|done]. unfold linked_at.
  eexists _, _, (link_entry label now), _. rewrite Hp, lookup_insert_eq.
  split_and!; [done|lia|done|apply json|apply json|done].
Qed.

Lemma linked_at_seen up now u dev dev' t r :
  linked_at now u dev t r -> linked_at now u dev t (mark_device_seen loads dumps bucket up now u dev' r) .
Proof using RL json.
  intros Hl. unfold mark_device_seen. destruct (negb _); [done|]. destruct (negb up); [done|].
  pose proof Hl as (h & x & raw & e & Hp & Hx & Hh & Hr & Hlo & Hj).
  assert (Hah : as_hash (peek now (devices_key bucket u) r) = Some h) by (by rewrite Hp).
  rewrite (hget_spec _ _ _ _ h Hah). destruct (h !! dev') as [raw'|] eqn:Hd; [|done].
  destruct (String.eqb raw' ""); [done|]. destruct (loads raw') as [e'|] eqn:Hl'; [|done].
  destruct (is_pending e'); [|done].
  pose proof (hset_spec now _ dev' (dumps (filter (fun x => x.1 <> "pending"%string) e')) r h Hah) as Hs.
  unfold linked_at. rewrite (touches_same _ _ _ _ _ Hs), Hp. simpl.
  destruct (decide (dev' = dev)) as [->|Hne].
  - eexists _, x, _, (filter (fun x => x.1 <> "pending"%string) e').
    rewrite lookup_insert_eq. split_and!; [done|done|done|apply json|apply json|].
    rewrite jget_filter by done. congruence.
  - eexists _, x, raw, e. by rewrite lookup_insert_ne.
Qed.

Lemma linked_at_created now u dev t r :
  registry_name dev = true -> linked_at now u dev t r ->
  linked_created_at loads fromisoformat bucket now u dev r = Some t.
Proof using RL iso.
  intros Hn (h & x & raw & e & Hp & Hx & Hh & Hr & Hlo & Hj). unfold linked_created_at.
  rewrite Hn. simpl. rewrite (hget_spec _ _ _ _ h) by (by rewrite Hp). rewrite Hh.
  destruct (String.eqb_spec raw ""); [done|]. rewrite Hlo. unfold born. by rewrite Hj, iso.
Qed.
End link_facts.

(** A session that was linked less than a day ago cannot disconnect anything
    older than itself (an earlier link, or an install that is no link at all),
    even after it has been used: it is refused with the wait, exact to the
    second, and nothing is changed. *)
Theorem fresh_link_cannot_evict {R} `{RL : RedisLaws R} {T} `{JT : JWT T}
    (bucket : string -> string) (loads : string -> option jobj) (dumps : jobj -> string)
    (isoformat : Z -> string) (fromisoformat : string -> option (Z * bool))
    (json : forall e, loads (dumps e) = Some e /\ dumps e <> ""%string)
    (iso : forall t, fromisoformat (isoformat t) = Some (t, true))
    up label tab t t1 now u dev target (d : db) (r r1 : R) lo ev :
  reg_ok bucket t r -> registry_name dev = true ->
  link_device (T := T) dumps isoformat bucket up t label u dev tab r = (Ok lo, r1, ev) ->
  t <= t1 -> t1 <= now -> now < t + seconds REVOKE_COOLDOWN_SECONDS ->
  let r2 := mark_device_seen loads dumps bucket true t1 u dev r1 in
  (forall y, linked_created_at loads fromisoformat bucket now u target r2 = Some y -> y < t) ->
  exists w,
    revoke_device loads fromisoformat bucket now u target dev d r2
      = (Raise (HTTPExceptionN 403 "revoke_cooldown" w), d, r2, []) /\
    now + seconds w <= t + seconds REVOKE_COOLDOWN_SECONDS < now + seconds (w + 1).
Proof.
  intros Hok Hn Hl H1 H2 Hlt r2 Ho.
  assert (Hday : seconds REVOKE_COOLDOWN_SECONDS < seconds DEVICE_TTL_SECONDS) by done.
  assert (Hc : linked_created_at loads fromisoformat bucket now u dev r2 = Some t).
  { apply (linked_at_created bucket loads isoformat fromisoformat iso); [done|].
    apply (linked_at_later bucket loads isoformat t1); [done|lia|].
    apply (linked_at_seen bucket loads dumps isoformat json).
    apply (linked_at_later bucket loads isoformat t); [done|lia|].
    by eapply (linked_at_link (T := T) bucket loads dumps isoformat json). }
  exists ((seconds REVOKE_COOLDOWN_SECONDS - (now - t)) / usec_per_sec). split.
  - unfold revoke_device, revoker_gate. rewrite Hc.
    destruct (Z.leb_spec (seconds REVOKE_COOLDOWN_SECONDS) (now - t)); [lia|].
    destruct (linked_created_at _ _ _ _ _ target r2) as [y|] eqn:E; [|done].
    specialize (Ho y eq_refl). by destruct (Z.leb_spec t y); [lia|].
  - pose proof (Z.div_mod (seconds REVOKE_COOLDOWN_SECONDS - (now - t)) usec_per_sec ltac:(done)).
    pose proof (Z.mod_pos_bound (seconds REVOKE_COOLDOWN_SECONDS - (now - t)) usec_per_sec ltac:(done)).
    unfold seconds in *. lia.
Qed.

(** An encoding of objects as text that satisfies what is asked of JSON. *)
#[export] Instance jval_eq_dec : EqDecision jval.
Proof. solve_decision. Defined.
#[export] Instance jval_countable : Countable jval.
Proof.
  refine (inj_countable'
    (fun v => match v with JStr s => inl (inl s) | JBool b => inl (inr b) | JNull => inr (inl tt) | JNum n => inr (inr n) end)
    (fun x => match x with inl (inl s) => JStr s | inl (inr b) => JBool b | inr (inl _) => JNull | inr (inr n) => JNum n end) _).
  by intros [].
Defined.

(** A positive number as its bits. *)
Fixpoint bits (p : positive) : string :=
  match p with xH => "1" | xO p => String "0"%char (bits p) | xI p => String "1"%char (bits p) end.
Fixpoint of_bits (s : string) : option positive :=
  match s with
  | EmptyString => None
  | String c EmptyString => Some xH
  | String c s => option_map (if bool_decide (c = "0"%char) then xO else xI) (of_bits s)
  end.

Lemma bits_cons p : exists c s, bits p = String c s.
Proof. destruct p; simpl; eauto. Qed.
Lemma of_bits_bits p : of_bits (bits p) = Some p.
Proof.
  induction p as [p IH|p IH|]; simpl; [| |done]; rewrite IH;
    destruct (bits_cons p) as (c & s & ->); done.
Qed.

Definition demo_dumps (e : jobj) : string := bits (encode e).
Definition demo_loads (s : string) : option jobj :=
  match of_bits s with Some p => decode p | None => None end.
Definition demo_iso (t : Z) : string := pretty t.
Definition demo_from_iso (s : string) : option (Z * bool) := option_map (fun t => (t, true)) (int_of_string s).

Lemma demo_json e : demo_loads (demo_dumps e) = Some e /\ demo_dumps e <> ""%string.
Proof.
  unfold demo_loads, demo_dumps. rewrite of_bits_bits. split; [apply decode_encode|].
  by destruct (bits_cons (encode e)) as (c & s & ->).
Qed.
Lemma demo_iso_ok t : demo_from_iso (demo_iso t) = Some (t, true).
Proof. unfold demo_from_iso, demo_iso. by rewrite int_of_pretty. Qed.

Definition demo_linked : outcome (LinkOut claims) * store * list dev_event :=
  link_device demo_dumps demo_iso demo_bucket auth_all_up 0 "Web" 7 "dev-1" ∅ ∅.

Lemma fresh_link_cannot_evict_witness :
  exists w,
    revoke_device demo_loads demo_from_iso demo_bucket (hours 5) 7 "phone-1" "dev-1" empty_db
      (mark_device_seen demo_loads demo_dumps demo_bucket true 60 7 "dev-1" demo_linked.1.2)
      = (Raise (HTTPExceptionN 403 "revoke_cooldown" w), empty_db,
         mark_device_seen demo_loads demo_dumps demo_bucket true 60 7 "dev-1" demo_linked.1.2, []) /\
    hours 5 + seconds w <= 0 + seconds REVOKE_COOLDOWN_SECONDS < hours 5 + seconds (w + 1).
Proof.
  apply (fresh_link_cannot_evict (T := claims) demo_bucket demo_loads demo_dumps demo_iso demo_from_iso
           demo_json demo_iso_ok auth_all_up "Web" ∅ 0 60 (hours 5) 7 "dev-1" "phone-1" empty_db
           (∅ : store) demo_linked.1.2
           (mkLinkOut "dev-1" (issue_device_token 0 7 "dev-1" 0)) demo_linked.2);
    [done|done|vm_compute; reflexivity|done|done|done|].
  intros y Hy. exfalso. revert Hy. vm_compute. done.
Defined.

(** ** At most five *)

Section five.
Context {R : Type} `{RL : RedisLaws R} (bucket : string -> string).
#[local] Set Default Proof Using "RL".

Definition five (now : Z) (r : R) : Prop :=
  forall u h, as_hash (peek now (devices_key bucket u) r) = Some h -> Z.of_nat (size h) <= MAX_DEVICES.

Lemma five_devices now v e (r r' : R) :
  touches now (devices_key bucket v) e r r' ->
  (forall h, as_hash e = Some h -> Z.of_nat (size h) <= MAX_DEVICES) -> five now r -> five now r'.
Proof.
  intros Ht He Hf u h. rewrite (Ht (devices_key bucket u)). destruct (decide _); [apply He|apply Hf].
Qed.

Lemma five_hset now v f w (r : R) h :
  as_hash (peek now (devices_key bucket v) r) = Some h -> is_Some (h !! f) -> five now r ->
  five now (hset now (devices_key bucket v) f w r).
Proof.
  intros Hh Hf H5. apply (five_devices _ v _ _ _ (hset_spec _ _ f w _ h Hh)); [|done].
  intros h' [= <-]. specialize (H5 v h Hh). rewrite map_size_insert_Some by done. done.
Qed.

Lemma five_hdel now v f (r : R) : reg_ok bucket now r -> five now r ->
  five now (hdel now (devices_key bucket v) f r).
Proof.
  intros Hok H5. destruct (Hok v) as [[h Hh] _].
  apply (five_devices _ v _ _ _ (hdel_spec _ _ f _ h Hh)); [|done].
  intros h'. rewrite as_hash_entry. intros [= <-]. specialize (H5 v h Hh). rewrite map_size_delete.
  destruct (h !! f); simpl; lia.
Qed.

Lemma five_later t t' (r : R) : t <= t' -> five t r -> five t' r.
Proof.
  intros Ht H5 u h. rewrite (peek_later t t') by done. specialize (H5 u).
  destruct (peek t (devices_key bucket u) r) as [[v [x|]]|]; simpl in *; try apply H5.
  destruct (x <=? t'); [|apply H5]. intros [= <-]. done.
Qed.

Context {T : Type} `{JT : JWT T} (loads : string -> option jobj) (dumps : jobj -> string).
Context (isoformat : Z -> string) (fromisoformat : string -> option (Z * bool)).

Lemma five_list now u items (r : R) : reg_ok bucket now r -> five now r ->
  five now (list_loop loads fromisoformat bucket now u items r).2.
Proof.
  revert r; induction items as [|[did entry] items IH]; intros r Hok H5; simpl; [done|].
  destruct (list_entry _ _ _ _ _) as [[o|]|]; [| |done].
  - specialize (IH r Hok H5). by destruct (list_loop _ _ _ _ _ _ _).
  - apply IH; [by apply (keeps_hdel bucket now now)|by apply five_hdel].
Qed.

Lemma five_revoke now u dev d (r : R) : reg_ok bucket now r -> five now r ->
  five now (revoke bucket now u dev d r).1.2.
Proof.
  intros Hok H5. unfold revoke. simpl. set (r1 := hdel _ _ _ _).
  assert (H1 : five now r1) by (by apply five_hdel).
  assert (Hok1 : reg_ok bucket now r1) by (by apply (keeps_hdel bucket now now)).
  intros v h. rewrite (touches_other _ _ _ _ _ _ (expire_spec _ _ _ _)) by apply key_apart.
  destruct (Hok1 u) as [_ [s Hs]].
  rewrite (touches_other _ _ _ _ _ _ (sadd_spec _ _ _ _ s Hs)) by apply key_apart. apply H1.
Qed.

Lemma five_op now op d (r : R) : reg_ok bucket now r -> five now r ->
  five now (reg_apply (T := T) bucket loads dumps isoformat fromisoformat now op (d, r)).2.
Proof.
  intros Hok H5. destruct op as [up label u dev tab|up u dev|u|u dev|u dev caller]; simpl.
  - destruct (link_device _ _ _ _ _ _ _ _ _ _) as [[[lo|x] r1] ev] eqn:El.
    + destruct (link_effect (T := T) bucket dumps isoformat _ _ _ _ _ _ _ _ _ _ Hok El)
        as (h & Hh & Hlt & Hp & Ho). simpl. intros v h'.
      destruct (decide (devices_key bucket v = devices_key bucket u)) as [->|Hne].
      * rewrite Hp. intros [= <-]. rewrite map_size_insert. destruct (h !! dev); simpl; lia.
      * rewrite Ho; [apply H5|done|]. rewrite !elem_of_cons, elem_of_nil. intros [[=]|[[=]|[[=]|[]]]].
    + unfold link_device in El. destruct (_ <=? _); [by simplify_eq|].
      by destruct (uin_epoch _ _ _ _ _ _).
  - unfold mark_device_seen. destruct (negb _); [done|]. destruct (negb up); [done|].
    destruct (Hok u) as [[h Hh] _]. rewrite (hget_spec _ _ _ _ h Hh).
    destruct (h !! dev) eqn:E; [|done]. repeat case_match; try done. by eapply five_hset.
  - by apply five_list.
  - unfold revoke_own_device. destruct (_ || _); [done|]. by apply five_revoke.
  - unfold revoke_device. destruct (revoker_gate _ _ _ _ _ _ _ _) as [[]|]; [|done].
    pose proof (five_revoke now u dev d r Hok H5) as Hk. by destruct (revoke _ _ _ _ _ _) as [[]].
Qed.
End five.

(** However links, first uses, lists and disconnects follow one another, an
    account never has more than five linked sessions. *)
Theorem linked_at_most_five {R} `{RL : RedisLaws R} {T} `{JT : JWT T}
    loads dumps isoformat fromisoformat bucket t ops (d : db) (r : R) :
  reg_ok bucket t r -> five bucket t r -> in_order t ops ->
  five bucket (end_time t ops) (reg_run (T := T) bucket loads dumps isoformat fromisoformat ops (d, r)).2.
Proof.
  revert t d r; induction ops as [|[t1 op] ops IH]; intros t d r Hok H5 Ho; [done|].
  destruct Ho as [Ht Ho]. simpl end_time.
  change (reg_run bucket loads dumps isoformat fromisoformat ((t1, op) :: ops) (d, r)) with
    (reg_run (T := T) bucket loads dumps isoformat fromisoformat ops
       (reg_apply (T := T) bucket loads dumps isoformat fromisoformat t1 op (d, r))).
  apply (reg_ok_later bucket t t1) in Hok; [|done]. apply (five_later bucket t t1) in H5; [|done].
  pose proof (keeps_op (T := T) bucket loads dumps isoformat fromisoformat t1 t1 op d r) as Hk.
  pose proof (five_op (T := T) bucket loads dumps isoformat fromisoformat t1 op d r Hok H5) as Hf.
  destruct (reg_apply _ _ _ _ _ t1 op (d, r)) as [d1 r1]. apply IH; [|done|done].
  apply Hk; [|done]. unfold seconds, DEVICE_TTL_SECONDS, usec_per_sec. lia.
Qed.
