(* ===== verification/QueueApi.v ===== *)
(** * The read handlers: the queue and the room logs

    Models the whole of [fetch_queue], [fetch_group_log] and [ack_group_log] of
    [src/app/routers/messages.py], with the side effects they start with:
    [mark_device_seen] ([src/app/routers/devices.py]) and [touch_poll]
    ([src/app/core/guest_policy.py]). *)

From stdpp Require Import base list sorting gmap strings pretty.
From Stdlib Require Import ZArith Lia.
From S2P Require Import Prelude Storage Redis RateLimit GuestPolicy Sessions Devices QueueDrain GroupLogStore FairPage.

(** Python's insertion-ordered dictionaries. *)
Definition dict_get {A} (k : Z) (l : list (Z * A)) : option A :=
  option_map snd (find_first (fun '(k', _) => k' =? k) l).
Definition dict_pop {A} (k : Z) (l : list (Z * A)) : list (Z * A) :=
  filter (fun e => e.1 <> k) l.
Fixpoint dict_set {A} (k : Z) (v : A) (l : list (Z * A)) : list (Z * A) :=
  match l with
  | [] => [(k, v)]
  | (k', v') :: l' => if k' =? k then (k, v) :: l' else (k', v') :: dict_set k v l'
  end.

Record GroupLogRoomIn := mkRoomIn { ri_gid : Z; ri_after : option Z }.
Record GroupLogFetchIn := mkFetchIn { fi_rooms : option (list GroupLogRoomIn); fi_limit : Z }.
Record GroupLogRow := mkLogRow {
  lr_gid : Z; lr_seq : Z; lr_envelope_type : string; lr_cls : Z;
  lr_payload : string; lr_received_at : Z
}.
Record GroupLogFetchOut := mkFetchOut {
  fo_rows : list GroupLogRow;
  fo_heads : list (Z * Z);
  fo_cursors : list (Z * Z);
  fo_more : bool
}.
Record GroupLogAckRoomIn := mkAckRoomIn { ar_gid : Z; ar_upto : Z }.

(** [member_of], as the sorted list of the rooms. *)
Definition member_of (d : db) (uin : Z) : list Z :=
  sort_by (fun g => g)
    (remove_dups (map gm_group_id (filter (fun m => gm_uin m = uin) (group_members d)))).

Definition wanted (d : db) (uin : Z) (rooms : option (list GroupLogRoomIn)) : list (Z * option Z) :=
  match rooms with
  | None => map (fun g => (g, None)) (member_of d uin)
  | Some l => map (fun r => (ri_gid r, ri_after r))
                (filter (fun r => ri_gid r ∈ member_of d uin) l)
  end.

(** The positions of a device, as the handlers read them. *)
Definition position (d : db) (uin : Z) (device_id : string) (g : Z) : option Z :=
  option_map last_seq (group_log_cursors d !! (g, uin, device_id)).

(** The dictionaries of the loop over the rooms. *)
Record rooms_acc := mkAcc {
  acc_db : db;
  acc_cursors : gmap Z Z;
  acc_heads : list (Z * Z);
  acc_cur_out : list (Z * Z);
  acc_starts : list (Z * Z)
}.

(** One iteration of [for gid, after in wanted]. *)
Definition room_step (now uin : Z) (device_id : string) (a : rooms_acc) (w : Z * option Z) : rooms_acc :=
  let '(gid, after) := w in
  let head := room_head (acc_db a) gid in
  let '(at_, cursors, d) :=
    match acc_cursors a !! gid with
    | Some p => (p, acc_cursors a, acc_db a)
    | None =>
        let '(p, d') := upsert_log_cursor now gid uin device_id 0 head (acc_db a) in
        (p, <[gid := p]> (acc_cursors a), d')
    end in
  let start := default at_ after in
  let starts := dict_pop gid (acc_starts a) in
  mkAcc d cursors (dict_set gid head (acc_heads a)) (dict_set gid at_ (acc_cur_out a))
    (if start <? head then starts ++ [(gid, start)] else starts).

(** [dict((await db.execute(select(group_id, last_seq)...)).all())] *)
Definition read_positions (d : db) (uin : Z) (device_id : string) (gids : list Z) : gmap Z Z :=
  list_to_map (omap (fun g => option_map (pair g) (position d uin device_id g)) (remove_dups gids)).

Definition log_row (gid : Z) (r : GroupLog) : GroupLogRow :=
  mkLogRow gid (gl_seq r) (gl_envelope_type r) (gl_cls r) (gl_payload r) (gl_received_at r).

(** [fetch_group_log] from the roster read to the commit. *)
Definition fetch_group_log_tx (now : Z) (body : GroupLogFetchIn) (uin : Z) (device_id : string)
    (d : db) : GroupLogFetchOut * db :=
  let w := wanted d uin (fi_rooms body) in
  let cursors := read_positions d uin device_id (map fst w) in
  let a := foldl (room_step now uin device_id) (mkAcc d cursors [] [] []) w in
  let '(picked, more) := fair_log_page (acc_db a) uin (acc_starts a) (fi_limit body) in
  let out_rows := flat_map (fun '(gid, rows) => map (log_row gid) rows) picked in
  let d' := match out_rows with
            | [] => mark_reader now uin device_id (acc_db a)
            | _ => acc_db a
            end in
  (mkFetchOut out_rows (acc_heads a) (acc_cur_out a) more, d').

(** One iteration of the ack loop: the database, [known] and [moved]. *)
Definition ack_step (now uin : Z) (device_id : string) (s : db * gmap Z Z * Z) (r : GroupLogAckRoomIn)
    : db * gmap Z Z * Z :=
  let '(d, known, moved) := s in
  match known !! ar_gid r with
  | Some at_ =>
      if ar_upto r <=? at_ then s
      else let '(p, d') := upsert_log_cursor now (ar_gid r) uin device_id (ar_upto r) (ar_upto r) d in
           (d', <[ar_gid r := p]> known, moved + 1)
  | None =>
      let '(p, d') := upsert_log_cursor now (ar_gid r) uin device_id (ar_upto r) (ar_upto r) d in
      (d', <[ar_gid r := p]> known, moved + 1)
  end.

Definition ack_group_log (now : Z) (rooms : list GroupLogAckRoomIn) (uin : Z) (device_id : string)
    (d : db) : Z * db :=
  let known := read_positions d uin device_id (map ar_gid rooms) in
  let '(d1, _, moved) := foldl (ack_step now uin device_id) (d, known, 0) (sort_by ar_gid rooms) in
  (moved, if negb (moved =? 0) then mark_reader now uin device_id d1 else d1).

(** ** With the effects the fetches start with *)

Section handlers.
Context {R : Type} `{RR : Redis R}.
(** [json.loads] and [json.dumps] on a registry entry, and [bucket_name]. *)
Context (loads : string -> option jobj) (dumps : jobj -> string) (bucket : string -> string).

(** The prologue shared by the two drains. *)
Definition drain_prologue (up_dev up_guest up_stamp : bool) (now : Z) (scratch : string)
    (uin : Z) (device_id : string) (d : db) (r : R) : db * R :=
  touch_poll up_guest up_stamp now scratch (bucket ("uin:" ++ str_uin uin)%string) uin d
    (mark_device_seen loads dumps bucket up_dev now uin device_id r).

Definition fetch_queue (up_dev up_guest up_stamp : bool) (now : Z) (scratch : string)
    (ack : bool) (dev uin : Z) (device_id : string) (d : db) (r : R)
    : list HistoryRow * db * R :=
  let '(d, r) := drain_prologue up_dev up_guest up_stamp now scratch uin device_id d r in
  let '(out, d) := fetch_queue_tx now ack dev uin device_id d in
  (out, d, r).

Definition fetch_group_log (up_dev up_guest up_stamp : bool) (now : Z) (scratch : string)
    (body : GroupLogFetchIn) (uin : Z) (device_id : string) (d : db) (r : R)
    : GroupLogFetchOut * db * R :=
  let '(d, r) := drain_prologue up_dev up_guest up_stamp now scratch uin device_id d r in
  let '(out, d) := fetch_group_log_tx now body uin device_id d in
  (out, d, r).
End handlers.

(** ** Positions *)

Lemma read_positions_lookup d uin dev gids g :
  read_positions d uin dev gids !! g =
    if decide (g ∈ gids) then position d uin dev g else None.
Proof.
  unfold read_positions. set (l := omap _ _).
  assert (Hl : forall k p, (k, p) ∈ l <-> k ∈ gids /\ position d uin dev k = Some p).
  { intros k p. unfold l. rewrite list_elem_of_omap. setoid_rewrite elem_of_remove_dups. split.
    - intros (x & Hx & E). destruct (position d uin dev x) eqn:Ep; simplify_eq/=. done.
    - intros [Hk Ep]. exists k. by rewrite Ep. }
  destruct (decide (g ∈ gids)) as [Hg|Hg].
  - destruct (position d uin dev g) as [p|] eqn:Ep.
    + apply elem_of_list_to_map_1'; [|by apply Hl].
      intros y [_ Hy]%Hl. congruence.
    + apply not_elem_of_list_to_map_1. intros ([k p] & -> & [_ Hy]%Hl)%list_elem_of_fmap.
      simpl in *. congruence.
  - apply not_elem_of_list_to_map_1. intros ([k p] & -> & [Hy _]%Hl)%list_elem_of_fmap. done.
Qed.

(** What an upsert with [seq] and [seed] does to a position. *)
Definition moved_to (o : option Z) (sq sd : Z) : Z :=
  match o with None => Z.max sq sd | Some p => Z.max p sq end.

Lemma upsert_position now g u dev sq sd d :
  let '(p, d') := upsert_log_cursor now g u dev sq sd d in
  p = moved_to (position d u dev g) sq sd /\
  (forall g', position d' u dev g' = if decide (g' = g) then Some p else position d u dev g') /\
  (forall k, k <> (g, u, dev) -> group_log_cursors d' !! k = group_log_cursors d !! k) /\
  d' = set_group_log_cursors (fun _ => group_log_cursors d') d.
Proof.
  destruct (upsert_log_cursor_db now g u dev sq sd d) as (c & E & Hc). rewrite E.
  unfold position, moved_to. split; [|split; [|split]].
  - rewrite Hc. by destruct (group_log_cursors d !! (g, u, dev)).
  - intros g'. simpl. destruct (decide (g' = g)) as [->|Hne].
    + by rewrite lookup_insert_eq.
    + by rewrite lookup_insert_ne by congruence.
  - intros k Hk. simpl. by rewrite lookup_insert_ne.
  - done.
Qed.

(** Changing only the cursors changes nothing a fetch reads besides them. *)
Definition only_cursors (d d' : db) : Prop :=
  d' = set_group_log_cursors (fun _ => group_log_cursors d') d.

Lemma only_cursors_refl d : only_cursors d d.
Proof. by destruct d. Qed.

Lemma only_cursors_trans d1 d2 d3 : only_cursors d1 d2 -> only_cursors d2 d3 -> only_cursors d1 d3.
Proof. intros H1 H2. unfold only_cursors in *. rewrite H2, H1. done. Qed.

Lemma only_cursors_log d d' uin g a :
  only_cursors d d' -> log_rows d' uin g a = log_rows d uin g a /\ log_pk d' = log_pk d /\
                       room_head d' g = room_head d g.
Proof. intros ->. done. Qed.

#[export] Hint Resolve only_cursors_refl only_cursors_trans : rcq.

(** ** The ack *)

(** The position a list of acks leads to. *)
Definition acked (o : option Z) (l : list Z) : option Z :=
  foldl (fun o x => Some (match o with None => x | Some y => Z.max y x end)) o l.

Definition uptos (g : Z) (rooms : list GroupLogAckRoomIn) : list Z :=
  map ar_upto (filter (fun r => ar_gid r = g) rooms).

Record ack_post (uin : Z) (dev : string) (l : list GroupLogAckRoomIn) (d d' : db) (moved moved' : Z)
    : Prop := {
  ap_pos : forall g, position d' uin dev g = acked (position d uin dev g) (uptos g l);
  ap_frame : forall g u dv, (u, dv) <> (uin, dev) ->
    group_log_cursors d' !! (g, u, dv) = group_log_cursors d !! (g, u, dv);
  ap_only : only_cursors d d';
  ap_moved : moved <= moved' /\
    (moved' = moved <-> forall r, r ∈ l -> exists p, position d uin dev (ar_gid r) = Some p /\ ar_upto r <= p);
  ap_same : moved' = moved -> d' = d
}.

Lemma acked_below o l p : o = Some p -> (forall x, x ∈ l -> x <= p) -> acked o l = Some p.
Proof.
  intros ->. induction l as [|x l IH]; intros H; simpl; [done|].
  rewrite Z.max_l by (apply H; set_solver). apply IH. set_solver.
Qed.

Lemma ack_step_cases now uin dev d known moved r :
  known !! ar_gid r = position d uin dev (ar_gid r) ->
  (ack_step now uin dev (d, known, moved) r = (d, known, moved) /\
     exists p, position d uin dev (ar_gid r) = Some p /\ ar_upto r <= p)
  \/ (exists p d1,
        ack_step now uin dev (d, known, moved) r = (d1, <[ar_gid r := p]> known, moved + 1) /\
        upsert_log_cursor now (ar_gid r) uin dev (ar_upto r) (ar_upto r) d = (p, d1) /\
        ~ (exists p, position d uin dev (ar_gid r) = Some p /\ ar_upto r <= p)).
Proof.
  intros Hk. unfold ack_step. rewrite Hk.
  destruct (upsert_log_cursor now (ar_gid r) uin dev (ar_upto r) (ar_upto r) d) as [p d1].
  destruct (position d uin dev (ar_gid r)) as [p0|] eqn:Ep.
  - destruct (ar_upto r <=? p0) eqn:El; breflect; [left; eauto|]. right.
    exists p, d1. split; [done|]. split; [done|]. intros (q & [= <-] & ?). lia.
  - right. exists p, d1. split; [done|]. split; [done|]. intros (q & ? & _). done.
Qed.

Lemma ack_fold now uin dev l d known moved :
  (forall r, r ∈ l -> known !! ar_gid r = position d uin dev (ar_gid r)) ->
  let '(d', _, moved') := foldl (ack_step now uin dev) (d, known, moved) l in
  ack_post uin dev l d d' moved moved'.
Proof.
  revert d known moved. induction l as [|r l IH]; intros d known moved Hk; cbn [foldl].
  { split; [done|done|apply only_cursors_refl| |done]. split; [lia|]. split; [set_solver|done]. }
  destruct (ack_step_cases now uin dev d known moved r) as [[-> (p & Ep & Hle)]|(p & d1 & -> & Eu & Hno)];
    [apply Hk; set_solver|..].
  - specialize (IH d known moved). destruct (foldl _ _ l) as [[d' k'] m'].
    destruct IH as [H1 H2 H3 [H4 H4'] H5]; [intros r' Hr'; apply Hk; set_solver|].
    split; [|done|done| |done].
    + intros g. rewrite H1. unfold uptos. rewrite filter_cons.
      destruct (decide (ar_gid r = g)) as [<-|]; [|done]. simpl. rewrite Ep, Z.max_l by done. done.
    + split; [done|]. rewrite H4'. setoid_rewrite elem_of_cons. naive_solver.
  - pose proof (upsert_position now (ar_gid r) uin dev (ar_upto r) (ar_upto r) d) as Hu.
    rewrite Eu in Hu. destruct Hu as (Hp & Hpos & Hfr & Honly).
    specialize (IH d1 (<[ar_gid r := p]> known) (moved + 1)). destruct (foldl _ _ l) as [[d' k'] m'].
    destruct IH as [H1 H2 H3 [H4 H4'] H5].
    { intros r' Hr'. rewrite Hpos. destruct (decide (ar_gid r' = ar_gid r)) as [->|Hne].
      - by rewrite lookup_insert_eq.
      - rewrite lookup_insert_ne by done. apply Hk. set_solver. }
    split; [| | | |lia].
    + intros g. rewrite H1, Hpos. unfold uptos. rewrite filter_cons.
      destruct (decide (ar_gid r = g)) as [<-|Hne]; [|by rewrite decide_False by congruence].
      rewrite decide_True by done. simpl. rewrite Hp. unfold moved_to.
      destruct (position d uin dev (ar_gid r)); [done|]. by rewrite Z.max_id.
    + intros g u dv Hne. rewrite H2 by done. apply Hfr. congruence.
    + eapply only_cursors_trans; [exact Honly|done].
    + split; [lia|]. split; [lia|]. intros Hall. exfalso. apply Hno. apply Hall. set_solver.
Qed.

Lemma uptos_sorted g rooms : uptos g (sort_by ar_gid rooms) = uptos g rooms.
Proof.
  unfold uptos. rewrite filter_sort_by. f_equal. apply sort_by_id.
  assert (Hall : forall r, r ∈ filter (fun r => ar_gid r = g) rooms -> ar_gid r = g).
  { intros r [? _]%list_elem_of_filter. done. }
  induction (filter (fun r => ar_gid r = g) rooms) as [|r l IH]; constructor.
  - apply IH. intros x Hx. apply Hall. set_solver.
  - apply list.Forall_forall. intros x Hx. unfold key_le.
    rewrite (Hall r), (Hall x); [lia|set_solver..].
Qed.

Lemma mark_reader_frame now uin dev d :
  let d' := mark_reader now uin dev d in
  group_log_cursors d' = group_log_cursors d /\ group_log d' = group_log d /\
  group_seq d' = group_seq d /\ group_members d' = group_members d.
Proof. done. Qed.

Lemma mark_reader_seen now uin dev d :
  exists r, group_log_readers (mark_reader now uin dev d) !! (uin, dev) = Some r /\
            reader_last_seen r = now.
Proof.
  unfold mark_reader. simpl. rewrite lookup_insert_eq. eexists. split; [done|].
  by destruct (group_log_readers d !! (uin, dev)).
Qed.

(** What an ack does, as one statement on the handler. *)
Lemma ack_group_log_effect now rooms uin dev d :
  let '(moved, d') := ack_group_log now rooms uin dev d in
  (forall g, position d' uin dev g = acked (position d uin dev g) (uptos g rooms)) /\
  (forall g u dv, (u, dv) <> (uin, dev) ->
     group_log_cursors d' !! (g, u, dv) = group_log_cursors d !! (g, u, dv)) /\
  (group_log d' = group_log d /\ group_seq d' = group_seq d /\ group_members d' = group_members d) /\
  (moved = 0 <-> forall r, r ∈ rooms -> exists p, position d uin dev (ar_gid r) = Some p /\ ar_upto r <= p) /\
  (moved = 0 -> d' = d) /\
  (moved <> 0 -> exists r, group_log_readers d' !! (uin, dev) = Some r /\ reader_last_seen r = now).
Proof.
  unfold ack_group_log.
  pose proof (ack_fold now uin dev (sort_by ar_gid rooms) d
                (read_positions d uin dev (map ar_gid rooms)) 0) as Hf.
  destruct (foldl _ _ _) as [[d1 k1] moved].
  destruct Hf as [H1 H2 H3 [H4 H4'] H5].
  { intros r Hr. rewrite read_positions_lookup, decide_True; [done|].
    apply elem_of_sort_by in Hr. apply list_elem_of_fmap. by exists r. }
  setoid_rewrite elem_of_sort_by in H4'.
  set (d' := if negb (moved =? 0) then mark_reader now uin dev d1 else d1).
  assert (Hd' : group_log_cursors d' = group_log_cursors d1 /\ group_log d' = group_log d1 /\
                group_seq d' = group_seq d1 /\ group_members d' = group_members d1)
    by (unfold d'; by destruct (negb _)).
  destruct Hd' as (E1 & E2 & E3 & E4).
  split; [|split; [|split; [|split; [|split]]]].
  - intros g. unfold position in *. rewrite E1, H1. by rewrite uptos_sorted.
  - intros g u dv Hne. rewrite E1. by apply H2.
  - rewrite E2, E3, E4. unfold only_cursors in H3. rewrite H3. done.
  - done.
  - intros Hm. unfold d'. rewrite Hm. simpl. by apply H5.
  - intros Hm. unfold d'. destruct (Z.eqb_spec moved 0); [done|]. apply mark_reader_seen.
Qed.

(** An ack moves the caller's positions forward only: every room ends at
    the furthest of where it was and what was acked for it, whatever the order
    and however stale the list; no other device's position moves; an ack that
    moves nothing changes nothing at all, and one that moves something proves
    the device a log reader. *)
Theorem ack_group_log_forward now rooms uin dev d :
  let '(moved, d') := ack_group_log now rooms uin dev d in
  (forall g, position d' uin dev g = acked (position d uin dev g) (uptos g rooms)) /\
  (forall g u dv, (u, dv) <> (uin, dev) ->
     group_log_cursors d' !! (g, u, dv) = group_log_cursors d !! (g, u, dv)) /\
  (moved = 0 <-> forall r, r ∈ rooms -> exists p, position d uin dev (ar_gid r) = Some p /\ ar_upto r <= p) /\
  (moved = 0 -> d' = d) /\
  (moved <> 0 -> exists r, group_log_readers d' !! (uin, dev) = Some r /\ reader_last_seen r = now).
Proof.
  pose proof (ack_group_log_effect now rooms uin dev d) as H.
  destruct (ack_group_log now rooms uin dev d) as [moved d']. naive_solver.
Qed.

(** ** The fetch *)

(** What the loop over the rooms has established. *)
Record fetch_inv (now uin : Z) (dev : string) (d : db) (done : list (Z * option Z)) (a : rooms_acc)
    : Prop := {
  f_only : only_cursors d (acc_db a);
  f_pos : forall g, position (acc_db a) uin dev g =
            match position d uin dev g with
            | Some p => Some p
            | None => if decide (g ∈ done.*1) then Some (Z.max 0 (room_head d g)) else None
            end;
  f_frame : forall g u dv, (u, dv) <> (uin, dev) ->
    group_log_cursors (acc_db a) !! (g, u, dv) = group_log_cursors d !! (g, u, dv);
  f_cursors : forall g p, acc_cursors a !! g = Some p -> position (acc_db a) uin dev g = Some p;
  f_nodup : NoDup (acc_starts a).*1;
  f_starts : forall g st, (g, st) ∈ acc_starts a -> g ∈ done.*1 /\ st < room_head d g
}.

Lemma dict_pop_fst {A} k (l : list (Z * A)) : (dict_pop k l).*1 = filter (fun g => g <> k) l.*1.
Proof.
  unfold dict_pop. induction l as [|[x v] l IH]; [done|].
  rewrite filter_cons. simpl. rewrite filter_cons. simpl. destruct (decide (x <> k)); simpl; [f_equal|]; exact IH.
Qed.

(** The rooms to read from after one more room: each once, each behind. *)
Lemma starts_step (P : Z -> Z -> Prop) g st (behind : bool) starts :
  NoDup starts.*1 -> (forall g' x, (g', x) ∈ starts -> P g' x) -> (behind = true -> P g st) ->
  let starts' := if behind then dict_pop g starts ++ [(g, st)] else dict_pop g starts in
  NoDup starts'.*1 /\ forall g' x, (g', x) ∈ starts' -> P g' x.
Proof.
  intros Hnd HP Hg. cbv zeta.
  assert (Hpop : NoDup (dict_pop g starts).*1 /\ forall g' x, (g', x) ∈ dict_pop g starts -> P g' x).
  { split; [rewrite dict_pop_fst; by apply NoDup_filter|].
    intros g' x [_ Hx]%list_elem_of_filter. by apply HP. }
  destruct behind; [|done]. destruct Hpop as [Hnd' HP']. split.
  - rewrite fmap_app, dict_pop_fst in *. apply NoDup_app. split; [done|]. split; [|apply NoDup_singleton].
    intros x [Hx _]%list_elem_of_filter. set_solver.
  - intros g' x [Hx|[= -> ->]%list_elem_of_singleton]%elem_of_app; [by apply HP'|by apply Hg].
Qed.

Lemma room_step_inv now uin dev d done a g after :
  fetch_inv now uin dev d done a ->
  (forall p, position (acc_db a) uin dev g = Some p -> acc_cursors a !! g = Some p) ->
  fetch_inv now uin dev d (done ++ [(g, after)]) (room_step now uin dev a (g, after)).
Proof.
  intros [H1 H2 H3 H4 H5 H6] Hknow. unfold room_step.
  pose proof (upsert_position now g uin dev 0 (room_head (acc_db a) g) (acc_db a)) as Hu.
  destruct (upsert_log_cursor now g uin dev 0 (room_head (acc_db a) g) (acc_db a)) as [p d1].
  destruct Hu as (Hp & Hpos & Hfr & Honly).
  assert (Hh : room_head (acc_db a) g = room_head d g).
  { apply (only_cursors_log d (acc_db a) uin g 0 H1). }
  rewrite Hh in *.
  assert (Hstarts : forall at_, let starts' := if default at_ after <? room_head d g
                                 then dict_pop g (acc_starts a) ++ [(g, default at_ after)]
                                 else dict_pop g (acc_starts a) in
      NoDup starts'.*1 /\
      forall g' st, (g', st) ∈ starts' -> g' ∈ (done ++ [(g, after)]).*1 /\ st < room_head d g').
  { intros at_. apply (starts_step (fun g' st => g' ∈ (done ++ [(g, after)]).*1 /\ st < room_head d g')); [done|..].
    - intros g' st Hin. destruct (H6 g' st Hin). rewrite fmap_app. set_solver.
    - intros Hlt. breflect. rewrite fmap_app. split; [simpl; set_solver|done]. }
  assert (Hdone : forall g', g' ∈ (done ++ [(g, after)]).*1 <-> g' ∈ done.*1 \/ g' = g).
  { intros g'. rewrite fmap_app. simpl. set_solver. }
  destruct (acc_cursors a !! g) as [at_|] eqn:Eg.
  - specialize (H4 g at_ Eg) as Hat. split; simpl; try done.
    + intros g'. rewrite H2. destruct (position d uin dev g') eqn:E'; [done|].
      destruct (decide (g' ∈ (done ++ _).*1)) as [Hin|Hin], (decide (g' ∈ done.*1)) as [Hin2|Hin2]; try done.
      * apply Hdone in Hin as [?| ->]; [done|]. rewrite H2, E' in Hat.
        destruct (decide (g ∈ done.*1)); done.
      * exfalso. apply Hin. apply Hdone. by left.
    + apply Hstarts.
    + apply Hstarts.
  - assert (Hnone : position (acc_db a) uin dev g = None).
    { destruct (position (acc_db a) uin dev g) as [q|] eqn:E; [|done].
      specialize (Hknow q eq_refl). congruence. }
    rewrite Hnone in Hp. simpl in Hp. split; simpl; try done.
    + eapply only_cursors_trans; [exact H1|exact Honly].
    + intros g'. rewrite Hpos, H2. destruct (decide (g' = g)) as [->|Hne].
      * rewrite H2 in Hnone. destruct (position d uin dev g) eqn:E; [done|].
        rewrite decide_True by (apply Hdone; by right). by subst p.
      * destruct (position d uin dev g') eqn:E'; [done|].
        destruct (decide (g' ∈ (done ++ _).*1)) as [Hin|Hin], (decide (g' ∈ done.*1)) as [Hin2|Hin2]; try done.
        -- apply Hdone in Hin as [?|?]; done.
        -- exfalso. apply Hin. apply Hdone. by left.
    + intros g' u dv Hne. rewrite Hfr by congruence. by apply H3.
    + intros g' q. rewrite Hpos, lookup_insert_Some. intros [[<- <-]|[Hne Hq]].
      * by rewrite decide_True.
      * rewrite decide_False by congruence. auto.
    + apply Hstarts.
    + apply Hstarts.
Qed.

(** The dictionary [cursors] knows every wanted room that has a position. *)
Definition knows (uin : Z) (dev : string) (gids : list Z) (a : rooms_acc) : Prop :=
  forall g p, g ∈ gids -> position (acc_db a) uin dev g = Some p -> acc_cursors a !! g = Some p.

Lemma room_step_knows now uin dev gids a g after :
  knows uin dev gids a -> knows uin dev gids (room_step now uin dev a (g, after)).
Proof.
  intros Hk g' p Hg'. unfold room_step.
  pose proof (upsert_position now g uin dev 0 (room_head (acc_db a) g) (acc_db a)) as Hu.
  destruct (upsert_log_cursor now g uin dev 0 (room_head (acc_db a) g) (acc_db a)) as [q d1].
  destruct Hu as (_ & Hpos & _). destruct (acc_cursors a !! g) as [at_|] eqn:Eg; simpl; [by apply Hk|].
  rewrite Hpos. destruct (decide (g' = g)) as [->|Hne].
  - intros [= <-]. by rewrite lookup_insert_eq.
  - intros Hp. rewrite lookup_insert_ne by done. by apply Hk.
Qed.

Lemma fetch_fold now uin dev d gids done w a :
  fetch_inv now uin dev d done a -> knows uin dev gids a -> (forall x, x ∈ w -> x.1 ∈ gids) ->
  fetch_inv now uin dev d (done ++ w) (foldl (room_step now uin dev) a w).
Proof.
  revert done a. induction w as [|[g after] w IH]; intros done a Hi Hk Hw; simpl.
  { by rewrite app_nil_r. }
  rewrite cons_middle, app_assoc. apply IH.
  - apply room_step_inv; [done|]. intros p. apply Hk. apply (Hw (g, after)). set_solver.
  - by apply room_step_knows.
  - intros x Hx. apply Hw. set_solver.
Qed.

Lemma fetch_inv_start now uin dev d gids :
  fetch_inv now uin dev d [] (mkAcc d (read_positions d uin dev gids) [] [] []) /\
  knows uin dev gids (mkAcc d (read_positions d uin dev gids) [] [] []).
Proof.
  split; [split|]; simpl; try done; auto with rcq.
  - intros g. by destruct (position d uin dev g).
  - intros g p. rewrite read_positions_lookup. by destruct (decide (g ∈ gids)).
  - constructor.
  - intros g st Hin. set_solver.
  - intros g p Hg Hp. simpl in *. rewrite read_positions_lookup. by rewrite decide_True.
Qed.

(** With no position given by the client, a room is read from where it stands. *)
Record at_positions (uin : Z) (dev : string) (d : db) (done : list Z) (a : rooms_acc) : Prop := {
  ps_in : forall g st, (g, st) ∈ acc_starts a -> position (acc_db a) uin dev g = Some st;
  ps_all : forall g p, g ∈ done -> position (acc_db a) uin dev g = Some p ->
             p < room_head d g -> (g, p) ∈ acc_starts a
}.

Lemma room_step_at now uin dev d done dones a g :
  fetch_inv now uin dev d dones a -> at_positions uin dev d done a ->
  (forall p, position (acc_db a) uin dev g = Some p -> acc_cursors a !! g = Some p) ->
  at_positions uin dev d (done ++ [g]) (room_step now uin dev a (g, None)).
Proof.
  intros [H1 H2 _ H4 _ _] [Hin Hall] Hknow. unfold room_step.
  pose proof (upsert_position now g uin dev 0 (room_head (acc_db a) g) (acc_db a)) as Hu.
  destruct (upsert_log_cursor now g uin dev 0 (room_head (acc_db a) g) (acc_db a)) as [q d1].
  destruct Hu as (Hq & Hpos & _).
  assert (Hh : room_head (acc_db a) g = room_head d g) by apply (only_cursors_log d (acc_db a) uin g 0 H1).
  rewrite Hh in *.
  (* the position read, and every position afterwards *)
  set (s := match acc_cursors a !! g with Some _ => _ | None => _ end).
  assert (Hs : exists at_ c d2, s = (at_, c, d2) /\ position d2 uin dev g = Some at_ /\
     (forall g', g' <> g -> position d2 uin dev g' = position (acc_db a) uin dev g')).
  { unfold s. destruct (acc_cursors a !! g) as [p|] eqn:E.
    - exists p, (acc_cursors a), (acc_db a). split; [done|]. split; [auto|done].
    - exists q, (<[g := q]> (acc_cursors a)), d1. split; [done|]. split.
      + by rewrite Hpos, decide_True.
      + intros g' Hne. by rewrite Hpos, decide_False. }
  destruct Hs as (at_ & c & d2 & -> & Hat & Hoth). simpl.
  assert (Hmem : forall g' st,
     (g', st) ∈ (if at_ <? room_head d g then dict_pop g (acc_starts a) ++ [(g, at_)]
                 else dict_pop g (acc_starts a)) <->
     (g' <> g /\ (g', st) ∈ acc_starts a) \/ (g' = g /\ st = at_ /\ at_ < room_head d g)).
  { intros g' st. assert (Hp : (g', st) ∈ dict_pop g (acc_starts a) <-> g' <> g /\ (g', st) ∈ acc_starts a)
      by (unfold dict_pop; rewrite list_elem_of_filter; done).
    destruct (at_ <? room_head d g) eqn:E; breflect.
    - rewrite elem_of_app, Hp, list_elem_of_singleton. split; [intros [?|[= -> ->]]; tauto|].
      intros [?|(-> & -> & _)]; tauto.
    - rewrite Hp. split; [tauto|]. intros [?|(_ & _ & ?)]; [done|lia]. }
  split; simpl.
  - intros g' st [[Hne Hs]|(-> & -> & _)]%Hmem; [|done]. rewrite Hoth by done. auto.
  - intros g' p Hg' Hp Hlt. apply Hmem. destruct (decide (g' = g)) as [->|Hne].
    + right. rewrite Hat in Hp. injection Hp as <-. done.
    + left. split; [done|]. rewrite Hoth in Hp by done. apply Hall; [set_solver|done|done].
Qed.

Lemma fetch_fold_at now uin dev d gids done w a :
  fetch_inv now uin dev d (map (fun g => (g, None)) done) a -> at_positions uin dev d done a ->
  knows uin dev gids a -> (forall x, x ∈ w -> x ∈ gids) ->
  at_positions uin dev d (done ++ w)
    (foldl (room_step now uin dev) a (map (fun g => (g, None)) w)).
Proof.
  revert done a. induction w as [|g w IH]; intros done a Hi Ha Hk Hw; cbn [foldl map].
  { by rewrite app_nil_r. }
  rewrite cons_middle, app_assoc. apply IH.
  - rewrite map_app. apply room_step_inv; [done|]. intros p. apply Hk, Hw. set_solver.
  - eapply room_step_at; [done|done|]. intros p. apply Hk, Hw. set_solver.
  - by apply room_step_knows.
  - intros x Hx. apply Hw. set_solver.
Qed.

(** The rows of one room in an answer. *)
Definition rows_for (g : Z) (out : list GroupLogRow) : list GroupLogRow :=
  filter (fun r => lr_gid r = g) out.

Lemma rows_for_other g g' l : g' <> g -> rows_for g (map (log_row g') l) = [].
Proof.
  intros Hne. unfold rows_for. induction l as [|x l IH]; [done|].
  simpl. by rewrite filter_cons_False.
Qed.

Lemma rows_for_absent g (pk : list (Z * list GroupLog)) :
  g ∉ pk.*1 -> rows_for g (flat_map (fun '(gid, rows) => map (log_row gid) rows) pk) = [].
Proof.
  induction pk as [|[g' l] pk IH]; intros Hn; [done|]. simpl. unfold rows_for. rewrite filter_app.
  fold (rows_for g (map (log_row g') l)). rewrite rows_for_other by set_solver.
  apply IH. set_solver.
Qed.

Lemma rows_for_flat g (pk : list (Z * list GroupLog)) rows :
  NoDup pk.*1 -> (g, rows) ∈ pk ->
  rows_for g (flat_map (fun '(gid, rows) => map (log_row gid) rows) pk) = map (log_row g) rows.
Proof.
  induction pk as [|[g' l] pk IH]; intros Hn Hin; [set_solver|]. simpl.
  apply NoDup_cons in Hn as [Hg Hn]. unfold rows_for. rewrite filter_app.
  fold (rows_for g (map (log_row g') l)).
  fold (rows_for g (flat_map (fun '(gid, rows) => map (log_row gid) rows) pk)).
  apply elem_of_cons in Hin as [[= <- <-]|Hin].
  - rewrite rows_for_absent by done. rewrite app_nil_r. apply filter_all, list.Forall_forall.
    intros r (x & -> & _)%list_elem_of_fmap. done.
  - rewrite rows_for_other, IH; [done|done|done|].
    intros ->. apply Hg. apply list_elem_of_fmap. by exists (g, rows).
Qed.

(** Where a device reads a room from. *)
Definition reads_from (d : db) (uin : Z) (dev : string) (g : Z) : Z :=
  default (Z.max 0 (room_head d g)) (position d uin dev g).

Record fetch_post (now limit uin : Z) (dev : string) (d : db) (out : GroupLogFetchOut) (d' : db) : Prop := {
  fp_pos : forall g, position d' uin dev g =
    if decide (g ∈ member_of d uin) then Some (reads_from d uin dev g) else position d uin dev g;
  fp_frame : forall g u dv, (u, dv) <> (uin, dev) ->
    group_log_cursors d' !! (g, u, dv) = group_log_cursors d !! (g, u, dv);
  fp_tables : group_log d' = group_log d /\ group_seq d' = group_seq d /\ group_members d' = group_members d;
  fp_reader : if decide (fo_rows out = [])
    then exists r, group_log_readers d' !! (uin, dev) = Some r /\ reader_last_seen r = now
    else group_log_readers d' = group_log_readers d;
  fp_rows : forall g, g ∈ member_of d uin -> reads_from d uin dev g < room_head d g ->
    exists rows rest, log_rows d uin g (reads_from d uin dev g) = rows ++ rest /\
      rows_for g (fo_rows out) = map (log_row g) rows /\ (fo_more out = false -> rest = []);
  fp_level : forall g, g ∉ member_of d uin \/ room_head d g <= reads_from d uin dev g ->
    rows_for g (fo_rows out) = [];
  fp_progress : forall g, g ∈ member_of d uin -> reads_from d uin dev g < room_head d g ->
    log_rows d uin g (reads_from d uin dev g) <> [] -> fo_rows out <> []
}.

Lemma map_fst_pairs {A B} (b : B) (l : list A) : (map (fun g => (g, b)) l).*1 = l.
Proof. rewrite <-list_fmap_compose. simpl. apply list_fmap_id. Qed.

Lemma flat_map_nil_rows pk :
  flat_map (fun '(gid, rows) => map (log_row gid) rows) pk = [] -> page_rows pk = 0.
Proof.
  unfold page_rows. induction pk as [|[g l] pk IH]; simpl; [done|].
  intros [E1 E2]%app_eq_nil. rewrite IH by done. by destruct l.
Qed.

(** What walking over all rooms leaves: positions pinned, and for each room the
    device is behind in, where to read from. *)
Lemma fetch_accumulated now uin dev d :
  let gids := member_of d uin in
  let a := foldl (room_step now uin dev) (mkAcc d (read_positions d uin dev gids) [] [] []) (wanted d uin None) in
  only_cursors d (acc_db a) /\
  (forall g, position (acc_db a) uin dev g =
     if decide (g ∈ gids) then Some (reads_from d uin dev g) else position d uin dev g) /\
  (forall g u dv, (u, dv) <> (uin, dev) ->
     group_log_cursors (acc_db a) !! (g, u, dv) = group_log_cursors d !! (g, u, dv)) /\
  NoDup (acc_starts a).*1 /\
  (forall g st, (g, st) ∈ acc_starts a <-> g ∈ gids /\ st = reads_from d uin dev g /\ st < room_head d g).
Proof.
  cbv zeta. set (w := wanted d uin None). set (gids := member_of d uin).
  assert (Hw : map fst w = gids) by apply map_fst_pairs.
  destruct (fetch_inv_start now uin dev d gids) as [Hi Hk]. set (a0 := mkAcc d _ [] [] []) in *.
  pose proof (fetch_fold now uin dev d gids [] w a0 Hi Hk) as Hf. simpl in Hf.
  pose proof (fetch_fold_at now uin dev d gids [] gids a0 Hi) as Hat. simpl in Hat.
  change (map (fun g : Z => (g, None)) gids) with w in Hat.
  set (a := foldl (room_step now uin dev) a0 w) in *.
  destruct Hf as [H1 H2 H3 _ H5 H6].
  { intros x Hx. rewrite <-Hw. apply list_elem_of_fmap. by exists x. }
  destruct Hat as [P1 P2]; [split; simpl; set_solver|done|done|].
  assert (Hw1 : w.*1 = gids) by exact Hw. rewrite Hw1 in H2, H6.
  assert (Hpos : forall g, g ∈ gids -> position (acc_db a) uin dev g = Some (reads_from d uin dev g)).
  { intros g Hg. rewrite H2. unfold reads_from. destruct (position d uin dev g); [done|].
    by rewrite decide_True. }
  split; [done|]. split; [|split; [done|split; [done|]]].
  - intros g. destruct (decide (g ∈ gids)) as [Hg|Hg]; [by apply Hpos|].
    rewrite H2. destruct (position d uin dev g); [done|]. by rewrite decide_False.
  - intros g st. split.
    + intros Hst. destruct (H6 g st Hst) as [Hg Hlt]. specialize (P1 g st Hst).
      rewrite (Hpos g Hg) in P1. by injection P1 as <-.
    + intros (Hg & -> & Hlt). apply P2; [done|by apply Hpos|done].
Qed.

Lemma fetch_group_log_post now limit uin dev d :
  log_pk d -> 1 <= limit ->
  let '(out, d') := fetch_group_log_tx now (mkFetchIn None limit) uin dev d in
  fetch_post now limit uin dev d out d'.
Proof.
  intros Hpk Hlim. unfold fetch_group_log_tx. cbn [fi_rooms fi_limit].
  assert (Hw : map fst (wanted d uin None) = member_of d uin) by apply map_fst_pairs. rewrite Hw.
  destruct (fetch_accumulated now uin dev d) as (H1 & Hpos & Hfr & Hnd & Hst).
  set (a := foldl _ _ _) in *. clearbody a.
  assert (Hlr : forall g x, log_rows (acc_db a) uin g x = log_rows d uin g x).
  { intros g x. apply (only_cursors_log _ _ uin g x H1). }
  assert (Hpk' : log_pk (acc_db a)) by (rewrite (proj1 (proj2 (only_cursors_log _ _ uin 0 0 H1))); done).
  pose proof (page_contiguous (acc_db a) uin (acc_starts a) limit Hpk' Hnd Hlim) as Hpage.
  pose proof (page_keys (acc_db a) uin (acc_starts a) limit) as Hkeys.
  pose proof (page_progress (acc_db a) uin (acc_starts a) limit Hpk' Hnd Hlim) as Hprog.
  destruct (fair_log_page (acc_db a) uin (acc_starts a) limit) as [picked more] eqn:Ep. simpl in *.
  assert (Hk1 : picked.*1 = (acc_starts a).*1) by exact Hkeys.
  assert (Hndp : NoDup picked.*1) by (by rewrite Hk1).
  set (rows := flat_map _ picked).
  set (d' := match rows with [] => mark_reader now uin dev (acc_db a) | _ => acc_db a end).
  assert (Hd' : group_log_cursors d' = group_log_cursors (acc_db a) /\ group_log d' = group_log (acc_db a)
     /\ group_seq d' = group_seq (acc_db a) /\ group_members d' = group_members (acc_db a))
    by (unfold d'; by destruct rows).
  destruct Hd' as (E1 & E2 & E3 & E4).
  split; cbn [fo_rows fo_more].
  - intros g. rewrite <-Hpos. unfold position. by rewrite E1.
  - intros g u dv Hne. rewrite E1. by apply Hfr.
  - rewrite E2, E3, E4. unfold only_cursors in H1. rewrite H1. done.
  - unfold d'. destruct rows; simpl; [apply mark_reader_seen|].
    unfold only_cursors in H1. by rewrite H1.
  - intros g Hg Hlt. destruct (Hpage g (reads_from d uin dev g)) as (rs & rest & Hpk1 & Hlog & Hmore); [by apply Hst|].
    rewrite Hlr in Hlog. exists rs, rest. split; [done|]. split; [|done]. by apply rows_for_flat.
  - intros g Hor. apply rows_for_absent. rewrite Hk1.
    intros ([g' st] & -> & (Hg & -> & Hlt)%Hst)%list_elem_of_fmap. simpl in *. destruct Hor; [done|lia].
  - intros g Hg Hlt Hne Hempty. apply flat_map_nil_rows in Hempty.
    specialize (Hprog g (reads_from d uin dev g)). rewrite Hlr in Hprog.
    specialize (Hprog ltac:(by apply Hst) Hne). lia.
Qed.

(** ** The handler with its prologue *)

Lemma touch_poll_users {R} `{RR : Redis R} up up2 now scratch bucket u d (r : R) :
  exists m, (touch_poll up up2 now scratch bucket u d r).1 = set_users (fun _ => m) d.
Proof.
  unfold touch_poll. assert (Hid : exists m, d = set_users (fun _ => m) d) by (exists (users d); by destruct d).
  destruct (is_guest up now scratch d u r) as [g r1]. destruct g; [|done]. destruct up2; [|done]. simpl.
  destruct (set_nx _ _ _ _ r1) as [fresh r2]. destruct fresh; [|done]. by eexists.
Qed.

(** A fetch of all rooms reads, it does not move: positions stay where
    they are, and a room this device has never read is pinned at its head; the
    rows it answers for a room are an unbroken run of the rows above the
    position, in order and as stored; a device is marked a log reader by an
    empty answer only; and nobody else's position is touched. *)
Theorem fetch_group_log_reads {R} `{RR : Redis R} loads dumps bucket up_dev up_guest up_stamp
    now scratch limit uin dev d (r : R) :
  log_pk d -> 1 <= limit ->
  let '(out, d', _) := fetch_group_log loads dumps bucket up_dev up_guest up_stamp now scratch
                         (mkFetchIn None limit) uin dev d r in
  (forall g, position d' uin dev g =
     if decide (g ∈ member_of d uin) then Some (reads_from d uin dev g) else position d uin dev g) /\
  (forall g u dv, (u, dv) <> (uin, dev) ->
     group_log_cursors d' !! (g, u, dv) = group_log_cursors d !! (g, u, dv)) /\
  (forall g, g ∈ member_of d uin -> reads_from d uin dev g < room_head d g ->
     exists rows rest, log_rows d uin g (reads_from d uin dev g) = rows ++ rest /\
       rows_for g (fo_rows out) = map (log_row g) rows /\ (fo_more out = false -> rest = [])) /\
  (forall g, g ∉ member_of d uin \/ room_head d g <= reads_from d uin dev g ->
     rows_for g (fo_rows out) = []) /\
  (if decide (fo_rows out = [])
   then exists rd, group_log_readers d' !! (uin, dev) = Some rd /\ reader_last_seen rd = now
   else group_log_readers d' = group_log_readers d).
Proof.
  intros Hpk Hlim. unfold fetch_group_log, drain_prologue.
  destruct (touch_poll_users up_guest up_stamp now scratch (bucket ("uin:" ++ str_uin uin)%string) uin d
              (mark_device_seen loads dumps bucket up_dev now uin dev r)) as [m Hm].
  destruct (touch_poll _ _ _ _ _ _ _ _) as [d1 r1]. simpl in Hm. subst d1.
  pose proof (fetch_group_log_post now limit uin dev (set_users (fun _ => m) d) Hpk Hlim) as Hp.
  destruct (fetch_group_log_tx _ _ _ _ _) as [out d'].
  destruct Hp as [F1 F2 _ F4 F5 F6 _]. split; [exact F1|]. split; [exact F2|].
  split; [exact F5|]. split; [exact F6|]. exact F4.
Qed.

(** ** Catching up *)

(** A client that acks every row it was given. *)
Definition ack_all (out : GroupLogFetchOut) : list GroupLogAckRoomIn :=
  map (fun r => mkAckRoomIn (lr_gid r) (lr_seq r)) (fo_rows out).

Definition fetch_and_ack (now limit uin : Z) (dev : string) (d : db) : db :=
  let '(out, d1) := fetch_group_log_tx now (mkFetchIn None limit) uin dev d in
  (ack_group_log now (ack_all out) uin dev d1).2.

(** The rows a device has still to read. *)
Definition behind (uin : Z) (dev : string) (d : db) : Z :=
  sum_of (fun g => Z.of_nat (length (log_rows d uin g (reads_from d uin dev g)))) (member_of d uin).

(** The head of a room is at or above every row of its log. *)
Definition heads_ok (d : db) : Prop :=
  forall r, r ∈ group_log d -> gl_seq r <= room_head d (gl_group_id r).

Lemma uptos_ack_all g out : uptos g (ack_all out) = map lr_seq (rows_for g (fo_rows out)).
Proof.
  unfold uptos, ack_all, rows_for. induction (fo_rows out) as [|r l IH]; [done|].
  simpl. rewrite !filter_cons. simpl. destruct (decide (lr_gid r = g)); simpl; by rewrite IH.
Qed.

(** Acking a run of rows that starts above the position leads to its last row. *)
Lemma acked_run p l x :
  StronglySorted Z.lt (l ++ [x]) -> Forall (fun y => p < y) (l ++ [x]) ->
  acked (Some p) (l ++ [x]) = Some x.
Proof.
  intros Hs Hp. unfold acked. rewrite foldl_app. simpl.
  assert (Hl : exists q, foldl (fun o y => Some match o with Some z => z `max` y | None => y end) (Some p) l = Some q
               /\ q < x).
  { clear -Hs Hp. revert p Hp. induction l as [|y l IH]; intros p Hp; simpl.
    - exists p. apply Forall_cons in Hp as [? _]. done.
    - simpl in *. apply StronglySorted_inv in Hs as [Hs Hy]. apply Forall_cons in Hp as [Hpy Hp].
      rewrite Z.max_r by lia. apply IH; [done|]. done. }
  destruct Hl as (q & -> & Hq). f_equal. lia.
Qed.

Lemma log_rows_nil_at_head d uin g a :
  heads_ok d -> room_head d g <= a -> log_rows d uin g a = [].
Proof.
  intros Hh Ha. destruct (log_rows d uin g a) as [|r l] eqn:E; [done|]. exfalso.
  assert (Hr : r ∈ log_rows d uin g a) by (rewrite E; set_solver).
  apply log_rows_elem in Hr as (Hin & <- & Hlt & _). specialize (Hh r Hin). lia.
Qed.

Lemma sorted_map_seq (l : list GroupLog) :
  StronglySorted (fun x y => gl_seq x < gl_seq y) l -> StronglySorted Z.lt (map gl_seq l).
Proof.
  induction 1 as [|x l Hs IH Hx]; simpl; constructor; [done|].
  apply list.Forall_forall. intros y (z & -> & Hz)%list_elem_of_fmap.
  rewrite list.Forall_forall in Hx. auto.
Qed.

(** What one round leaves of a room. *)
Lemma round_room now limit uin dev d g :
  log_pk d -> heads_ok d -> 1 <= limit -> g ∈ member_of d uin ->
  let '(out, d1) := fetch_group_log_tx now (mkFetchIn None limit) uin dev d in
  let d2 := fetch_and_ack now limit uin dev d in
  length (log_rows d uin g (reads_from d uin dev g)) =
    (length (rows_for g (fo_rows out)) + length (log_rows d2 uin g (reads_from d2 uin dev g)))%nat.
Proof.
  intros Hpk Hh Hlim Hg. unfold fetch_and_ack.
  pose proof (fetch_group_log_post now limit uin dev d Hpk Hlim) as Hp.
  destruct (fetch_group_log_tx _ _ _ _ _) as [out d1]. destruct Hp as [F1 _ (T1 & T2 & T3) _ F5 F6 _].
  pose proof (ack_group_log_effect now (ack_all out) uin dev d1) as Ha.
  destruct (ack_group_log now (ack_all out) uin dev d1) as [moved d2].
  destruct Ha as (A1 & _ & (B1 & B2 & B3) & _). cbn [snd].
  assert (Hlr : forall a, log_rows d2 uin g a = log_rows d uin g a).
  { intros a. unfold log_rows. by rewrite B1, T1. }
  rewrite Hlr.
  assert (Hpos2 : position d2 uin dev g =
            acked (Some (reads_from d uin dev g)) (map lr_seq (rows_for g (fo_rows out)))).
  { rewrite A1, F1, uptos_ack_all. by rewrite decide_True. }
  set (p := reads_from d uin dev g) in *.
  destruct (decide (p < room_head d g)) as [Hlt|Hge].
  - destruct (F5 g Hg Hlt) as (rows & rest & Hlog & Hrows & _).
    fold p in Hlog. rewrite Hrows in *. rewrite map_map in Hpos2. cbn [log_row lr_seq] in Hpos2. rewrite length_map, Hlog, length_app.
    f_equal. destruct rows as [|r0 rs] using rev_ind.
    + unfold reads_from. rewrite Hpos2. simpl. fold p. by rewrite Hlog.
    + clear IHrs. assert (Hrun : position d2 uin dev g = Some (gl_seq r0)).
      { rewrite Hpos2, map_app. simpl. apply acked_run.
        - pose proof (sorted_map_seq _ (log_rows_strict d uin g p Hpk)) as Hs.
          rewrite Hlog, !map_app in Hs. simpl in Hs.
          eapply StronglySorted_app_1_l. exact Hs.
        - apply list.Forall_forall. intros y Hy.
          assert (Hy' : y ∈ map gl_seq (log_rows d uin g p)) by (rewrite Hlog, !map_app; set_solver).
          apply list_elem_of_fmap in Hy' as (z & -> & Hz). apply log_rows_elem in Hz. lia. }
      unfold reads_from. rewrite Hrun. simpl. rewrite <-app_assoc in Hlog. simpl in Hlog.
      by rewrite (log_rows_continue d uin g p rs r0 rest Hpk Hlog).
  - rewrite (F6 g) by (right; lia). simpl. rewrite (F6 g) in Hpos2 by (right; lia). simpl in Hpos2.
    unfold reads_from. rewrite Hpos2. done.
Qed.

Lemma round_tables now limit uin dev d :
  log_pk d -> 1 <= limit ->
  let d2 := fetch_and_ack now limit uin dev d in
  group_log d2 = group_log d /\ group_seq d2 = group_seq d /\ group_members d2 = group_members d.
Proof.
  intros Hpk Hlim. unfold fetch_and_ack.
  pose proof (fetch_group_log_post now limit uin dev d Hpk Hlim) as Hp.
  destruct (fetch_group_log_tx _ _ _ _ _) as [out d1]. destruct Hp as [_ _ (T1 & T2 & T3) _ _ _ _].
  pose proof (ack_group_log_effect now (ack_all out) uin dev d1) as Ha.
  destruct (ack_group_log now (ack_all out) uin dev d1) as [moved d2].
  destruct Ha as (_ & _ & (B1 & B2 & B3) & _). simpl. by rewrite B1, B2, B3.
Qed.

Lemma behind_nonneg uin dev d : 0 <= behind uin dev d.
Proof. apply sum_of_nonneg. intros g. lia. Qed.

(** What is left after a round is what there was less what the page carried. *)
Lemma behind_split now limit uin dev d :
  log_pk d -> heads_ok d -> 1 <= limit ->
  let '(out, _) := fetch_group_log_tx now (mkFetchIn None limit) uin dev d in
  behind uin dev d = sum_of (fun g => Z.of_nat (length (rows_for g (fo_rows out)))) (member_of d uin)
                     + behind uin dev (fetch_and_ack now limit uin dev d).
Proof.
  intros Hpk Hh Hlim. pose proof (round_room now limit uin dev d) as Hroom.
  destruct (round_tables now limit uin dev d Hpk Hlim) as (_ & _ & Hmem).
  set (d2 := fetch_and_ack now limit uin dev d) in *.
  destruct (fetch_group_log_tx _ _ _ _ _) as [out d1].
  unfold behind. assert (member_of d2 uin = member_of d uin) as -> by (unfold member_of; by rewrite Hmem).
  revert Hroom. generalize (member_of d uin) as l. intros l.
  induction l as [|g l IH]; intros Hroom; [done|]. simpl.
  rewrite IH by (intros g' ? ? ? ?; apply Hroom; set_solver).
  rewrite (Hroom g Hpk Hh Hlim) by set_solver. lia.
Qed.

Lemma behind_round now limit uin dev d :
  log_pk d -> heads_ok d -> 1 <= limit ->
  behind uin dev (fetch_and_ack now limit uin dev d) <= behind uin dev d /\
  (0 < behind uin dev d -> behind uin dev (fetch_and_ack now limit uin dev d) < behind uin dev d).
Proof.
  intros Hpk Hh Hlim. pose proof (behind_split now limit uin dev d Hpk Hh Hlim) as Hsum.
  pose proof (fetch_group_log_post now limit uin dev d Hpk Hlim) as Hp.
  set (d2 := fetch_and_ack now limit uin dev d) in *.
  destruct (fetch_group_log_tx _ _ _ _ _) as [out d1]. destruct Hp as [_ _ _ _ _ F6 F7].
  set (given := fun g => Z.of_nat (length (rows_for g (fo_rows out)))) in *.
  assert (Hnn : forall y, 0 <= given y) by (intros y; unfold given; lia).
  split; [pose proof (sum_of_nonneg given (member_of d uin) Hnn); lia|]. intros Hpos.
  assert (Hex : exists g, g ∈ member_of d uin /\ log_rows d uin g (reads_from d uin dev g) <> []).
  { clear -Hpos. unfold behind in Hpos. induction (member_of d uin) as [|g l IH]; simpl in Hpos; [lia|].
    destruct (log_rows d uin g (reads_from d uin dev g)) as [|r rs] eqn:E.
    - simpl in Hpos. destruct IH as (g' & Hg' & Hne); [lia|]. exists g'. set_solver.
    - exists g. rewrite E. set_solver. }
  destruct Hex as (g & Hg & Hne).
  assert (Hlt : reads_from d uin dev g < room_head d g).
  { destruct (Z.lt_ge_cases (reads_from d uin dev g) (room_head d g)) as [|Hge]; [done|].
    exfalso. apply Hne. by apply log_rows_nil_at_head. }
  specialize (F7 g Hg Hlt Hne). destruct (fo_rows out) as [|r rs] eqn:Eo; [done|].
  assert (Hr : rows_for (lr_gid r) (fo_rows out) <> []).
  { rewrite Eo. unfold rows_for. by rewrite filter_cons_True. }
  assert (Hgm : lr_gid r ∈ member_of d uin).
  { destruct (decide (lr_gid r ∈ member_of d uin)) as [|Hno]; [done|]. exfalso. apply Hr.
    rewrite Eo. apply F6. by left. }
  assert (1 <= given (lr_gid r)).
  { unfold given. rewrite <-Eo. destruct (rows_for (lr_gid r) (fo_rows out)); simpl; [done|lia]. }
  pose proof (sum_of_ge given (member_of d uin) (lr_gid r) Hnn Hgm). lia.
Qed.

(** C11. Catching up ends: however far behind a device is and however its
    backlog is spread over rooms, every round of fetching a page and acking the
    rows it carried leaves strictly less to read, so that as many rounds as
    there are rows behind leave nothing. *)
Theorem catch_up_ends now limit uin dev d :
  log_pk d -> heads_ok d -> 1 <= limit ->
  (0 < behind uin dev d -> behind uin dev (fetch_and_ack now limit uin dev d) < behind uin dev d) /\
  behind uin dev (Nat.iter (Z.to_nat (behind uin dev d)) (fetch_and_ack now limit uin dev) d) = 0.
Proof.
  intros Hpk Hh Hlim. split; [by apply behind_round|].
  assert (Hgen : forall n d, log_pk d -> heads_ok d -> (Z.to_nat (behind uin dev d) <= n)%nat ->
            behind uin dev (Nat.iter n (fetch_and_ack now limit uin dev) d) = 0).
  { clear -Hlim. induction n as [|n IH]; intros d Hpk Hh Hn.
    - simpl. pose proof (behind_nonneg uin dev d). lia.
    - rewrite Nat.iter_succ_r. destruct (round_tables now limit uin dev d Hpk Hlim) as (T1 & T2 & T3).
      apply IH.
      + unfold log_pk. by rewrite T1.
      + unfold heads_ok, room_head. by rewrite T1, T2.
      + destruct (behind_round now limit uin dev d Hpk Hh Hlim) as [Hle Hlt].
        destruct (Z.lt_ge_cases 0 (behind uin dev d)) as [Hp|Hz]; [specialize (Hlt Hp); lia|lia]. }
  by apply Hgen.
Qed.

(** ** Examples *)

(** A member of two rooms, at the start of one and one row into the other. *)
Definition demo_rooms : db :=
  mkDb ∅ [] [] ∅ ∅ {[ 21 := 3; 22 := 1 ]}
    [demo_row 21 1 "aaaa"; demo_row 21 2 "bbbb"; demo_row 21 3 "cccc"; demo_row 22 1 "dd"]
    {[ (21, 7, "phone"%string) := mkGroupLogCursor 1 0; (22, 7, "phone"%string) := mkGroupLogCursor 0 0 ]} ∅ ∅
    [mkGroupMember 22 7 "member" "" None; mkGroupMember 21 7 "member" "" None] ∅ [] 1 1.

Lemma demo_rooms_pk : log_pk demo_rooms.
Proof. unfold log_pk. vm_compute. repeat constructor; set_solver. Qed.

Lemma fetch_group_log_reads_witness :
  (fetch_group_log (fun _ => None) (fun _ => ""%string) (fun s => s) true true true 5
     "guest_uins:build:x" (mkFetchIn None 10) 7 "phone" demo_rooms (∅ : store)).1.1 =
    mkFetchOut [mkLogRow 21 2 "message" 1 "bbbb" 0; mkLogRow 21 3 "message" 1 "cccc" 0;
                mkLogRow 22 1 "message" 1 "dd" 0] [(21, 3); (22, 1)] [(21, 1); (22, 0)] false /\
  position (fetch_group_log (fun _ => None) (fun _ => ""%string) (fun s => s) true true true 5
     "guest_uins:build:x" (mkFetchIn None 10) 7 "phone" demo_rooms (∅ : store)).1.2 7 "phone" 21 = Some 1.
Proof.
  split; [by vm_compute|].
  pose proof (fetch_group_log_reads (fun _ => None) (fun _ => ""%string) (fun s => s) true true true 5
     "guest_uins:build:x" 10 7 "phone" demo_rooms (∅ : store) demo_rooms_pk ltac:(lia)) as H.
  destruct (fetch_group_log _ _ _ _ _ _ _ _ _ _ _ _ _) as [[out d'] r']. destruct H as [H _].
  cbn [fst snd]. rewrite H. by vm_compute.
Defined.

Lemma catch_up_ends_witness :
  behind 7 "phone" demo_rooms = 3 /\
  behind 7 "phone" (fetch_and_ack 5 1 7 "phone" demo_rooms) < behind 7 "phone" demo_rooms.
Proof.
  split; [by vm_compute|].
  apply (catch_up_ends 5 1 7 "phone" demo_rooms demo_rooms_pk); [|lia|by vm_compute].
  intros r Hr. simpl in Hr.
  repeat (apply elem_of_cons in Hr as [->|Hr]; [by vm_compute|]). by apply not_elem_of_nil in Hr.
Defined.
