(* ===== verification/Gates.v ===== *)
(** * What a group post has to pass

    Models the gates of [src/app/routers/messages.py] in front of a group
    fan-out: slowmode ([_enforce_group_slowmode]), the account-age floor
    ([_enforce_account_age_gate]) and the fan-out charge ([_fanout_charge]),
    with [_client_ip] of [src/app/core/rate_limit.py]. *)

From stdpp Require Import base list gmap strings pretty.
From Stdlib Require Import ZArith Lia.
From Stdlib Require Import Ascii.
From S2P Require Import Prelude Text Storage Redis RateLimit.

Definition MAX_GROUP_PAYLOADS : Z := 4096.
Definition FANOUT_BUDGET_AUTHED : Z := 60000.
Definition FANOUT_BUDGET_ANON : Z := 30000.
Definition FANOUT_WINDOW_SECONDS : Z := 60.
Definition SLOWMODE_PAIR_GRACE_SEC : Z := 30.
Definition SLOWMODE_BATCH_GRACE_SEC : Z := 300.

(** ** The caller's address *)

(** [s.split(",")[0]] *)
Fixpoint before_comma (s : string) : string :=
  match s with
  | String c s' => if Ascii.eqb c ","%char then EmptyString else String c (before_comma s')
  | EmptyString => EmptyString
  end.

(** What the handlers use of the HTTP request. *)
Record Request := mkRequest { x_forwarded_for : option string; client_host : option string }.

Definition host_or_unknown (rq : Request) : string := default "unknown"%string (client_host rq).

Definition client_ip (rq : Request) : string :=
  match x_forwarded_for rq with
  | Some xff => if String.eqb xff "" then host_or_unknown rq else strip (before_comma xff)
  | None => host_or_unknown rq
  end.

Definition fanout_charge (rq : Request) (caller : option Z) : string * Z :=
  match caller with
  | Some u => (("uin:" ++ pretty u)%string, FANOUT_BUDGET_AUTHED)
  | None => (("ip:" ++ client_ip rq)%string, FANOUT_BUDGET_ANON)
  end.

(** ** The membership row the gates read *)

Definition member_row (d : db) (gid uin : Z) : option GroupMember :=
  find_first (fun m => (gm_group_id m =? gid) && (gm_uin m =? uin)) (group_members d).

(** [role == "admin" or bool((perms or "").strip())] *)
Definition moderator (m : GroupMember) : bool :=
  String.eqb (gm_role m) "admin" || negb (String.eqb (strip (gm_permissions m)) "").

(** Who a per-member rule applies to: an identified member of the room who is
    neither its owner nor a moderator. *)
Definition ordinary_member (d : db) (gid : Z) (g : Group) (caller : option Z) : option (Z * GroupMember) :=
  match caller with
  | None => None
  | Some u =>
      if u =? owner_uin g then None
      else match member_row d gid u with
           | None => None
           | Some m => if moderator m then None else Some (u, m)
           end
  end.

(** ** The age floor *)

(** [max(1, math.ceil(need - age_h))], in hours. *)
Definition hours_left (need age_us : Z) : Z :=
  Z.max 1 (- ((age_us - hours need) / hours 1)).

Definition enforce_account_age_gate (now : Z) (d : db) (gid : Z) (g : option Group)
    (caller : option Z) (envelope_type : string) : outcome unit :=
  match g with
  | None => Ok tt
  | Some g =>
      if negb (String.eqb envelope_type "message") || (min_account_age_hours g <=? 0) then Ok tt
      else match ordinary_member d gid g caller with
      | None => Ok tt
      | Some (u, m) =>
          match (match gm_joined_at m with
                 | Some t => Some t
                 | None => option_map created_at (users d !! u)
                 end) with
          | None => Ok tt
          | Some since =>
              let age := now - since in
              if hours (min_account_age_hours g) <=? age then Ok tt
              else Raise (HTTPExceptionN 403 "account_too_young"
                            (hours_left (min_account_age_hours g) age))
          end
      end
  end.

(** ** Slowmode *)

Inductive path := Sealed | Broadcast.

Definition path_name (p : path) : string :=
  match p with Sealed => "sealed" | Broadcast => "broadcast" end.
Definition other_path (p : path) : path :=
  match p with Broadcast => Sealed | Sealed => Broadcast end.

#[export] Instance path_eq_dec : EqDecision path.
Proof. solve_decision. Defined.

Section slowmode.
Context {R : Type} `{RR : Redis R}.
Context (num : Z -> string) (hmac_hex : string -> string -> string) (secret : string).

Let bucket := bucket_name hmac_hex secret.

Definition slowmode_identity (gid caller : Z) : string :=
  ("g" ++ pretty gid ++ ":uin:" ++ pretty caller)%string.

Definition slowmode_free_key (p : path) (gid caller : Z) : string :=
  ("gslowfree:" ++ bucket (path_name p ++ ":g" ++ pretty gid ++ ":uin:" ++ pretty caller))%string.

Definition slowmode_batch_key (gid caller : Z) (batch : string) : string :=
  ("gslowbatch:" ++ bucket ("g" ++ pretty gid ++ ":uin:" ++ pretty caller ++ ":" ++ batch))%string.

(** Which of the Redis calls of the gate go through. *)
Record slow_up := mkSlowUp {
  u_incr : bool; u_expire : bool; u_getdel : bool; u_limit : bool; u_del : bool; u_arm : bool
}.

Definition buy_slot (up : slow_up) (now gid caller : Z) (g : Group) (s : limiter R)
    : outcome unit * limiter R :=
  enforce_rate_limit num hmac_hex secret (u_limit up) now (slowmode_identity gid caller)
    "group_slowmode" 1 (slowmode_sec g) false s.

(** [redis.set(_slowmode_free_key(other, ...), "1", ex=30)], best effort. *)
Definition arm_other (up : slow_up) (now : Z) (p : path) (gid caller : Z) (s : limiter R) : limiter R :=
  if u_arm up then
    mkLimiter (rset now (slowmode_free_key (other_path p) gid caller) "1"
                 (Some SLOWMODE_PAIR_GRACE_SEC) (redis s)) (local_hits s)
  else s.

(** The tail of the function: buy a slot, and arm the other path unless Redis
    has been given up on ([redis = None]). *)
Definition buy_and_arm (up : slow_up) (now : Z) (p : path) (gid caller : Z) (g : Group)
    (redis_ok : bool) (s : limiter R) : outcome unit * limiter R :=
  match buy_slot up now gid caller g s with
  | (Ok _, s') => (Ok tt, if redis_ok then arm_other up now p gid caller s' else s')
  | (Raise e, s') => (Raise e, s')
  end.

(** The one-shot pass of the other half, then the slot. *)
Definition pass_or_buy (up : slow_up) (now : Z) (p : path) (gid caller : Z) (g : Group)
    (s : limiter R) : outcome unit * limiter R :=
  if u_getdel up then
    let '(v, r') := getdel now (slowmode_free_key p gid caller) (redis s) in
    let s' := mkLimiter r' (local_hits s) in
    match v with
    | Some v => if String.eqb v "" then buy_and_arm up now p gid caller g true s' else (Ok tt, s')
    | None => buy_and_arm up now p gid caller g true s'
    end
  else buy_and_arm up now p gid caller g false s.

Definition with_redis (s : limiter R) (r : R) : limiter R := mkLimiter r (local_hits s).

Definition enforce_group_slowmode (up : slow_up) (now : Z) (d : db) (gid : Z) (g : option Group)
    (caller : option Z) (envelope_type : string) (p : path) (batch : option string) (batch_size : Z)
    (s : limiter R) : outcome unit * limiter R :=
  match g with
  | None => (Ok tt, s)
  | Some g =>
      if negb (String.eqb envelope_type "message") || (slowmode_sec g <=? 0) then (Ok tt, s)
      else match ordinary_member d gid g caller with
      | None => (Ok tt, s)
      | Some (u, _) =>
          match batch with
          | Some b =>
              if negb (String.eqb b "") && (1 <? batch_size) then
                let bkey := slowmode_batch_key gid u b in
                if negb (u_incr up) then buy_and_arm up now p gid u g false s
                else
                  let '(n, r1) := incrby now bkey 1 (redis s) in
                  let s1 := with_redis s r1 in
                  if n =? 1 then
                    if negb (u_expire up) then buy_and_arm up now p gid u g false s1
                    else
                      let s2 := with_redis s1 (expire now bkey SLOWMODE_BATCH_GRACE_SEC r1) in
                      match buy_slot up now gid u g s2 with
                      | (Raise e, s3) =>
                          (Raise e, if u_del up then with_redis s3 (del now bkey (redis s3)) else s3)
                      | (Ok _, s3) => (Ok tt, arm_other up now p gid u s3)
                      end
                  else if n <=? 2 * batch_size then (Ok tt, s1)
                  else pass_or_buy up now p gid u g s1
              else pass_or_buy up now p gid u g s
          | None => pass_or_buy up now p gid u g s
          end
      end
  end.
End slowmode.

(** ** The age floor, exactly *)

(** The age floor stops an ordinary identified member's message and
    nothing else, and the wait it announces is the least whole number of hours
    that satisfies it: after that many hours the same post passes, after one
    hour less it does not. *)
Theorem age_gate_wait now d gid g caller envelope_type status code n :
  enforce_account_age_gate now d gid (Some g) caller envelope_type =
    Raise (HTTPExceptionN status code n) ->
  status = 403 /\ code = "account_too_young"%string /\ 1 <= n /\
  envelope_type = "message"%string /\
  (exists u m, caller = Some u /\ u <> owner_uin g /\ member_row d gid u = Some m /\ moderator m = false) /\
  enforce_account_age_gate (now + hours n) d gid (Some g) caller envelope_type = Ok tt /\
  (forall k, 0 <= k < n ->
     exists n', enforce_account_age_gate (now + hours k) d gid (Some g) caller envelope_type =
                  Raise (HTTPExceptionN 403 "account_too_young" n')).
Proof.
  unfold enforce_account_age_gate. destruct (negb _ || _) eqn:E; [done|]. breflect.
  apply String.eqb_eq in H. subst envelope_type.
  destruct (ordinary_member d gid g caller) as [[u m]|] eqn:Em; [|done].
  assert (Hord : exists u m, caller = Some u /\ u <> owner_uin g /\ member_row d gid u = Some m /\ moderator m = false).
  { unfold ordinary_member in Em. destruct caller as [v|]; [|done].
    destruct (Z.eqb_spec v (owner_uin g)); [done|]. destruct (member_row d gid v) as [m'|] eqn:Er; [|done].
    destruct (moderator m') eqn:Emod; [done|]. eauto 10. }
  destruct (match gm_joined_at m with Some t => Some t | None => _ end) as [since|]; [|done].
  set (need := hours (min_account_age_hours g)). set (h := hours 1).
  assert (Hh : 0 < h) by done.
  assert (Hhours : forall k, hours k = k * h) by (intros k; unfold h, hours, seconds, usec_per_sec; lia).
  destruct (need <=? now - since) eqn:Ea; [done|]. breflect.
  intros [= <- <- <-]. unfold hours_left. fold need h.
  set (x := now - since - need). assert (Hx : x < 0) by (unfold x; lia).
  pose proof (Z.div_mod x h ltac:(lia)) as Hdm. pose proof (Z.mod_pos_bound x h Hh) as Hmb.
  assert (Hn : 1 <= - (x / h)) by nia.
  rewrite Z.max_r by done.
  split; [done|]. split; [done|]. split; [done|]. split; [done|]. split; [done|]. split.
  - rewrite Hhours. destruct (Z.leb_spec need (now + - (x / h) * h - since)); [done|]. unfold x in *. nia.
  - intros k Hk. rewrite Hhours. destruct (Z.leb_spec need (now + k * h - since)).
    + exfalso. unfold x in *. nia.
    + eauto.
Qed.

(** ** Slowmode and the two halves of a post *)

Definition all_up : slow_up := mkSlowUp true true true true true true.

Section one_slot.
Context {R : Type} `{RL : RedisLaws R}.
Context (num : Z -> string) (num_inj : forall a b, num a = num b -> a = b).
Context (hmac_hex : string -> string -> string) (secret : string).
Context (d : db) (gid u : Z) (g : Group) (m : GroupMember).
Context (Hord : ordinary_member d gid g (Some u) = Some (u, m)) (Hslow : 0 < slowmode_sec g).
(** The two passes of a member are different keys. *)
Context (Hfree : slowmode_free_key hmac_hex secret Sealed gid u
                 <> slowmode_free_key hmac_hex secret Broadcast gid u).
#[local] Set Default Proof Using "All".

Let free p := slowmode_free_key hmac_hex secret p gid u.
Let slot := rl_key hmac_hex secret "group_slowmode" (slowmode_identity gid u).

(** A post that is not part of an album. *)
Definition post (t : Z) (p : path) (s : limiter R) : outcome unit * limiter R :=
  enforce_group_slowmode num hmac_hex secret all_up t d gid (Some g) (Some u) "message" p None 1 s.

Lemma free_ne p : free p <> slot /\ free p <> free (other_path p).
Proof.
  split; [unfold free, slot, slowmode_free_key, rl_key; discriminate|].
  destruct p; unfold free; simpl; congruence.
Qed.

Lemma post_eq t p s : post t p s = pass_or_buy num hmac_hex secret all_up t p gid u g s.
Proof.
  unfold post, enforce_group_slowmode. rewrite Hord.
  destruct (Z.leb_spec (slowmode_sec g) 0); [lia|done].
Qed.

(** The script only touches its own bucket. *)
Lemma limiter_frame t limit w (r : R) A k :
  bucket_ok num slot w t r A -> k <> slot ->
  peek t k (limiter_script num slot t w limit r).2 = peek t k r.
Proof.
  intros (_ & z & Hz & _) Hk. unfold limiter_script.
  pose proof (zremrangebyscore_spec t slot (t - seconds w) r z Hz) as H1.
  set (r1 := zremrangebyscore _ _ _ r) in *.
  assert (Hp1 : exists z1, as_zset (peek t slot r1) = Some z1).
  { rewrite (touches_same _ _ _ _ _ H1). unfold zset_entry. destruct (decide _); simpl; eauto. }
  destruct Hp1 as [z1 Hp1]. destruct (limit <=? zcard t slot r1); simpl.
  - by rewrite (touches_other _ _ _ _ _ _ H1).
  - pose proof (zadd_spec t slot (num t) t r1 z1 Hp1) as H2.
    pose proof (expire_spec t slot (w + 5) (zadd t slot (num t) t r1)) as H3.
    by rewrite (touches_other _ _ _ _ _ _ H3), (touches_other _ _ _ _ _ _ H2), (touches_other _ _ _ _ _ _ H1).
Qed.

(** With no pass armed, a post is decided by the slot. *)
Lemma post_buys t p s A :
  bucket_ok num slot (slowmode_sec g) t (redis s) A -> peek t (free p) (redis s) = None ->
  let n := Z.of_nat (size (in_window (slowmode_sec g) t A)) in
  let '(v, s') := post t p s in
  if decide (n < 1)
  then v = Ok tt /\ bucket_ok num slot (slowmode_sec g) t (redis s') (A ∪ {[ t ]}) /\
       peek t (free (other_path p)) (redis s') = Some (VStr "1", Some (t + seconds SLOWMODE_PAIR_GRACE_SEC)) /\
       peek t (free p) (redis s') = None
  else exists ra, v = Raise (too_many ra).
Proof.
  intros Hok Hnone. cbv zeta. rewrite post_eq. unfold pass_or_buy. cbn [u_getdel all_up].
  fold (free p). pose proof (getdel_spec t (free p) (redis s)) as Hg. rewrite Hnone in Hg.
  destruct (getdel t (free p) (redis s)) as [v r1]. destruct Hg as [Hv Ht]. simpl in Hv, Ht. subst v.
  assert (Hpk : forall k, peek t k r1 = peek t k (redis s)).
  { intros k. rewrite (Ht k). destruct (decide (k = free p)) as [->|]; congruence. }
  assert (Hok1 : bucket_ok num slot (slowmode_sec g) t r1 A).
  { destruct Hok as (HA & z & Hz). split; [done|]. exists z. by rewrite Hpk. }
  unfold buy_and_arm, buy_slot, enforce_rate_limit, enforce_key. cbn [u_limit all_up]. fold slot.
  cbn [redis].
  pose proof (limiter_step num num_inj slot (slowmode_sec g) ltac:(lia) t 1 r1 A Hok1) as Hst.
  pose proof (fun k => limiter_frame t 1 (slowmode_sec g) r1 A k Hok1) as Hfr.
  cbv zeta in Hst. destruct (limiter_script num slot t (slowmode_sec g) 1 r1) as [[acc ra] r2].
  destruct Hst as [-> Hok2]. simpl in Hfr.
  destruct (decide _) as [Hn|Hn].
  - rewrite bool_decide_eq_true_2 in * by done. cbn [fst snd]. unfold arm_other. cbn [u_arm all_up redis].
    pose proof (rset_spec t (free (other_path p)) "1" (Some SLOWMODE_PAIR_GRACE_SEC) r2) as Hs.
    fold (free (other_path p)). destruct (free_ne p) as [Hfs Hfo].
    destruct (free_ne (other_path p)) as [Hfs' _].
    split; [done|]. split; [|split].
    + destruct Hok2 as (HA & z & Hz). split; [done|]. exists z.
      rewrite (touches_other _ _ _ _ _ slot Hs) by congruence. done.
    + rewrite (touches_same _ _ _ _ _ Hs). simpl.
      destruct (Z.leb_spec (t + seconds SLOWMODE_PAIR_GRACE_SEC) t); [|done].
      unfold seconds, usec_per_sec, SLOWMODE_PAIR_GRACE_SEC in *. lia.
    + rewrite (touches_other _ _ _ _ _ _ Hs) by done. rewrite Hfr by done. rewrite Hpk. done.
  - rewrite bool_decide_eq_false_2 in * by done. eauto.
Qed.

(** A post whose pass is armed goes through, spends it, and buys nothing. *)
Lemma post_rides t p s A x :
  bucket_ok num slot (slowmode_sec g) t (redis s) A ->
  peek t (free p) (redis s) = Some (VStr "1", x) ->
  let '(v, s') := post t p s in
  v = Ok tt /\ bucket_ok num slot (slowmode_sec g) t (redis s') A /\
  (forall k, k <> free p -> peek t k (redis s') = peek t k (redis s)) /\
  peek t (free p) (redis s') = None.
Proof.
  intros Hok Hp. rewrite post_eq. unfold pass_or_buy. cbn [u_getdel all_up]. fold (free p).
  pose proof (getdel_spec t (free p) (redis s)) as Hg. rewrite Hp in Hg.
  destruct (getdel t (free p) (redis s)) as [v r1]. destruct Hg as [Hv Ht]. simpl in Hv, Ht. subst v.
  simpl. destruct (free_ne p) as [Hfs _]. split; [done|]. split; [|split].
  - destruct Hok as (HA & z & Hz). split; [done|]. exists z.
    rewrite (touches_other _ _ _ _ _ slot Ht) by congruence. done.
  - intros k Hk. by rewrite (touches_other _ _ _ _ _ k Ht).
  - apply (touches_same _ _ _ _ _ Ht).
Qed.
End one_slot.

(** A post in a slowmode room costs one slot, its two halves included:
    after an ordinary member's post on one path, the other path takes its half
    of the same post within 30 seconds, once; and until the room's interval has
    passed any further post of theirs, on either path, is refused. *)
Theorem slowmode_one_slot {R} `{RL : RedisLaws R} num hmac_hex secret d gid u g m p t t2 t3 (s : limiter R) :
  (forall a b, num a = num b -> a = b) ->
  ordinary_member d gid g (Some u) = Some (u, m) -> 0 < slowmode_sec g ->
  slowmode_free_key hmac_hex secret Sealed gid u <> slowmode_free_key hmac_hex secret Broadcast gid u ->
  peek t (rl_key hmac_hex secret "group_slowmode" (slowmode_identity gid u)) (redis s) = None ->
  peek t (slowmode_free_key hmac_hex secret p gid u) (redis s) = None ->
  t <= t2 < t + seconds SLOWMODE_PAIR_GRACE_SEC -> t2 <= t3 < t + seconds (slowmode_sec g) ->
  let post := post num hmac_hex secret d gid u g in
  let '(v1, s1) := post t p s in
  let '(v2, s2) := post t2 (other_path p) s1 in
  v1 = Ok tt /\ v2 = Ok tt /\
  forall q, exists ra, (post t3 q s2).1 = Raise (too_many ra).
Proof.
  intros Hinj Hord Hslow Hfree Hslot Hnone Ht2 Ht3. cbv zeta.
  set (slot := rl_key hmac_hex secret "group_slowmode" (slowmode_identity gid u)) in *.
  set (free := fun p => slowmode_free_key hmac_hex secret p gid u).
  pose proof (bucket_ok_fresh num Hinj slot (slowmode_sec g) ltac:(lia) t (redis s) Hslot) as Hok0.
  pose proof (post_buys num Hinj hmac_hex secret d gid u g m Hord Hslow Hfree t p s ∅ Hok0 Hnone) as H1.
  cbv zeta in H1. assert (Hin0 : size (in_window (slowmode_sec g) t ∅) = 0%nat) by done.
  rewrite Hin0 in H1.
  destruct (post num hmac_hex secret d gid u g t p s) as [v1 s1].
  destruct (decide (Z.of_nat 0 < 1)) as [_|]; [|lia]. destruct H1 as (-> & Hok1 & Hother & Hfree1).
  rewrite (left_id_L ∅ (∪)) in Hok1. fold slot in Hok1.
  assert (Hother2 : peek t2 (free (other_path p)) (redis s1)
                    = Some (VStr "1", Some (t + seconds SLOWMODE_PAIR_GRACE_SEC))).
  { rewrite (peek_later t t2) by lia. unfold free. rewrite Hother. simpl.
    destruct (Z.leb_spec (t + seconds SLOWMODE_PAIR_GRACE_SEC) t2); [lia|done]. }
  pose proof (bucket_ok_later num Hinj slot (slowmode_sec g) ltac:(lia) t t2 _ _ ltac:(lia) Hok1) as Hok1'.
  pose proof (post_rides num Hinj hmac_hex secret d gid u g m Hord Hslow Hfree t2 (other_path p) s1
                {[ t ]} _ Hok1' Hother2) as H2.
  destruct (post num hmac_hex secret d gid u g t2 (other_path p) s1) as [v2 s2].
  destruct H2 as (-> & Hok2 & Hfr2 & Hgone). split; [done|]. split; [done|]. intros q.
  pose proof (bucket_ok_later num Hinj slot (slowmode_sec g) ltac:(lia) t2 t3 _ _ ltac:(lia) Hok2) as Hok3.
  assert (Hq : peek t3 (free q) (redis s2) = None).
  { rewrite (peek_later t2 t3) by lia. destruct (decide (q = other_path p)) as [->|Hne].
    - unfold free. by rewrite Hgone.
    - assert (q = p) as -> by (destruct p, q; done). rewrite Hfr2.
      + rewrite (peek_later t t2) by lia. unfold free. by rewrite Hfree1.
      + destruct p; unfold free; simpl; congruence. }
  pose proof (post_buys num Hinj hmac_hex secret d gid u g m Hord Hslow Hfree t3 q s2 {[ t ]} Hok3 Hq) as H3.
  cbv zeta in H3. destruct (post num hmac_hex secret d gid u g t3 q s2) as [v3 s3]. simpl.
  assert (Hin : in_window (slowmode_sec g) t3 {[ t ]} = {[ t ]}).
  { apply set_eq. intros a. unfold in_window. rewrite elem_of_filter, elem_of_singleton. split; [tauto|].
    intros ->. split; [lia|done]. }
  rewrite Hin, size_singleton in H3. destruct (decide (Z.of_nat 1 < 1)); [lia|]. exact H3.
Qed.

(** ** Examples *)

(** A room with a minute of slowmode and an account that joined it two and a
    half hours ago under a floor of twenty-four. *)
Definition demo_room : Group := mkGroup 1 "all" 60 24 (plain_info "room" 0 None 0).
Definition demo_member : GroupMember := mkGroupMember 9 7 "member" " " (Some 0).
Definition demo_gates : db :=
  mkDb {[ 7 := mkUser 0 0 None [] false plain_profile ]} [] [] ∅ ∅ ∅ [] ∅ ∅ {[ 9 := demo_room ]} [demo_member] ∅ [] 1 1.

Lemma age_gate_wait_witness :
  enforce_account_age_gate (hours 5 / 2) demo_gates 9 (Some demo_room) (Some 7) "message"
    = Raise (HTTPExceptionN 403 "account_too_young" 22) /\
  enforce_account_age_gate (hours 5 / 2 + hours 22) demo_gates 9 (Some demo_room) (Some 7) "message" = Ok tt.
Proof.
  assert (E : enforce_account_age_gate (hours 5 / 2) demo_gates 9 (Some demo_room) (Some 7) "message"
    = Raise (HTTPExceptionN 403 "account_too_young" 22)) by (vm_compute; reflexivity).
  split; [exact E|]. apply (age_gate_wait _ _ _ _ _ _ _ _ _ E).
Defined.

(** An HMAC stand-in that keeps the first characters of its message apart. *)
Definition demo_hmac (_ msg : string) : string := msg.

Lemma slowmode_one_slot_witness :
  exists s1 s2,
    post (pretty : Z -> string) demo_hmac "k" demo_gates 9 7 demo_room 0 Sealed (mkLimiter (∅ : store) ∅) = (Ok tt, s1) /\
    post (pretty : Z -> string) demo_hmac "k" demo_gates 9 7 demo_room (seconds 2) Broadcast s1 = (Ok tt, s2) /\
    exists ra, (post (pretty : Z -> string) demo_hmac "k" demo_gates 9 7 demo_room (seconds 20) Sealed s2).1
               = Raise (too_many ra).
Proof.
  pose proof (slowmode_one_slot (pretty : Z -> string) demo_hmac "k" demo_gates 9 7 demo_room demo_member
                Sealed 0 (seconds 2) (seconds 20) (mkLimiter (∅ : store) ∅)) as H.
  cbv zeta in H. cbn [other_path] in H.
  destruct (post _ _ _ _ _ _ _ 0 Sealed _) as [v1 s1]. destruct (post _ _ _ _ _ _ _ (seconds 2) Broadcast s1) as [v2 s2] eqn:E2.
  destruct H as (-> & -> & Hq);
    [intros a b E; by apply (inj pretty)|by vm_compute|done|by vm_compute|done|done|done|done|].
  exists s1, s2. split; [done|]. split; [exact E2|]. apply (Hq Sealed).
Defined.
