(* ===== verification/Delivery.v ===== *)
(** * Delivery: 1:1 deposits and the two group fan-outs

    Models [send_sealed], [send_group_sealed] and [send_group_broadcast] of
    [src/app/routers/messages.py] with the helpers they call ([_queueable],
    [_keep_for], [_sender_device_tokens], [_wake_for_sealed_call]),
    [dormant_cutoff] of [src/app/services/offline_queue_sweep.py] and
    [group_push_targets] of [src/app/services/apns.py].

    What a handler sends to sockets and to push services is its list of
    [event]s; who holds a live socket is an input ([live], [devices]). *)

From stdpp Require Import base list gmap strings pretty.
From Stdlib Require Import ZArith Lia.
From S2P Require Import Prelude Storage Envelope Redis RateLimit GroupLogStore Gates.

Definition CALL_WAKE_ENV_MAX : Z := 3500.
Definition UP_PLATFORM : string := "android-up".

(** ** What leaves the island *)

Inductive event :=
  (* manager.send / fanout_each / fanout: a frame to every socket of an account *)
  | Frame (uin : Z) (ftype payload : string) (group : option Z) (seq : option Z)
      (to_device_id : option Z)
  (* apns_send and up_send for one account *)
  | Push (uin : Z) (group : option Z) (envelope_type : string) (payload : option string)
      (exclude_tokens skip_devices : list string)
  (* send_voip_to_user and up_call *)
  | Ring (uin : Z) (env : option string).

Definition is_wake_for (u : Z) (e : event) : bool :=
  match e with
  | Push v _ _ _ _ _ => v =? u
  | Ring v _ => v =? u
  | Frame _ _ _ _ _ _ => false
  end.

Record SendOut := mkSendOut { delivered : bool; queued : bool; server_time : Z }.

(** What the handlers read of their surroundings. *)
Record env := mkEnv {
  now : Z;
  live : Z -> bool;
  devices : Z -> list string;
  dormant_days : Z;
  deposit_auth_required : bool
}.

(** ** Helpers *)

Definition dormant_cutoff (e : env) : option Z :=
  if dormant_days e <=? 0 then None else Some (now e - days (dormant_days e)).

Definition sender_device_tokens (d : db) (caller : option Z) : list string :=
  match caller with
  | None => []
  | Some u => map dt_token (filter (fun t => dt_uin t = u) (device_tokens d))
  end.

(** [_wake_for_sealed_call]: the envelope rides in the wake when it is small. *)
Definition wake_for_sealed_call (to_uin : Z) (payload : string) : event :=
  Ring to_uin (if Z.of_nat (String.length payload) <=? CALL_WAKE_ENV_MAX
               then Some payload else None).

Definition seen_since (cutoff : Z) (seen : option Z) : bool :=
  match seen with Some t => cutoff <=? t | None => false end.

Definition queueable (e : env) (rows : list (Z * option Z)) : gset Z :=
  match dormant_cutoff e with
  | None => list_to_set (map fst rows)
  | Some cutoff =>
      list_to_set (map fst (filter (fun x => seen_since cutoff x.2 = true) rows))
  end.

Definition keep_for (recipients : list Z) (queueable : gset Z) (cls : Z) (wake : list Z)
    (envelope_type : string) : gset Z :=
  if (cls =? 2) && negb (String.eqb envelope_type "sknack")
  then list_to_set recipients
  else queueable ∪ list_to_set wake.

(** Keep the first occurrence of each key, as a dict comprehension does. *)
Fixpoint dedup (seen : gset Z) (l : list Z) : list Z :=
  match l with
  | [] => []
  | x :: l' => if decide (x ∈ seen) then dedup seen l' else x :: dedup ({[ x ]} ∪ seen) l'
  end.

(** An account has an endpoint a message push can be sent to. *)
Definition has_endpoint (d : db) (u : Z) : bool :=
  existsb (fun t => (dt_uin t =? u) &&
             (String.eqb (dt_platform t) "ios" || String.eqb (dt_platform t) UP_PLATFORM))
          (device_tokens d).

Definition unmuted (d : db) (gid u : Z) : bool :=
  match users d !! u with
  | Some row => negb (bool_decide (gid ∈ muted_group_ids row))
  | None => false
  end.

(** The keys of the dict [group_push_targets] returns. *)
Definition group_push_targets (d : db) (uins : list Z) (gid : Z) : list Z :=
  dedup ∅ (filter (fun u => has_endpoint d u = true /\ unmuted d gid u = true) uins).

(** ** The 1:1 deposit *)

Record SealedSendIn (T : Type) := mkSealedSendIn {
  ss_to_uin : Z;
  ss_envelope_type : string;
  ss_cls : option Z;
  ss_ring : bool;
  ss_payload : string;
  ss_deposit_token : option T;
  ss_to_device_id : option Z
}.
Arguments mkSealedSendIn {T} _ _ _ _ _ _ _.
Arguments ss_to_uin {T} _.
Arguments ss_envelope_type {T} _.
Arguments ss_cls {T} _.
Arguments ss_ring {T} _.
Arguments ss_payload {T} _.
Arguments ss_deposit_token {T} _.
Arguments ss_to_device_id {T} _.

(** [body.cls if body.cls in (0, 1, 2) else _cls_for(body.envelope_type)] *)
Definition cls_of_body {T} (body : SealedSendIn T) : Z :=
  match ss_cls body with
  | Some c => if (c =? 0) || (c =? 1) || (c =? 2) then c else cls_for (ss_envelope_type body)
  | None => cls_for (ss_envelope_type body)
  end.

(** The deposit itself: the sequence, the row, and the unique constraint on
    (to_uin, seq) that the commit checks. *)
Definition deposit {T} (e : env) (body : SealedSendIn T) (d : db) : option db :=
  let '(seq, d1) := next_mailbox_seq (ss_to_uin body) d in
  if existsb (fun r => (om_to_uin r =? ss_to_uin body) && bool_decide (om_seq r = Some seq))
       (offline_messages d1)
  then None
  else Some (insert_offline_message
               (fun id => mkOfflineMessage id (ss_to_uin body) (ss_envelope_type body)
                            (ss_payload body) (now e) (Some (cls_of_body body)) (Some seq)
                            (ss_to_device_id body)) d1).

(** The wakes of a deposit, once it is committed. *)
Definition sealed_wakes {T} (e : env) (body : SealedSendIn T) (target_is_guest was_delivered : bool)
    : list event :=
  let to := ss_to_uin body in
  let ring := ss_ring body || String.eqb (ss_envelope_type body) CALL_TYPE in
  let cls := cls_of_body body in
  if target_is_guest then []
  else if ring then
    if negb was_delivered then [wake_for_sealed_call to (ss_payload body)] else []
  else if (cls =? 1) && in_types NEVER_PUSH_TYPES (ss_envelope_type body) then []
  else if cls =? 1 then
    if negb was_delivered || negb (bool_decide (devices e to = [])) then
      [Push to None (ss_envelope_type body) (Some (ss_payload body)) [] (devices e to)]
    else []
  else [].

Section sealed.
Context {R T : Type} (verify_and_consume_token : T -> R -> outcome bool * R).

(** The deposit token, verified and consumed when there is one. *)
Definition spend_token (body : SealedSendIn T) (r : R) : outcome bool * R :=
  match ss_deposit_token body with
  | None => (Ok false, r)
  | Some tok =>
      match verify_and_consume_token tok r with
      | (Raise x, r) => (Raise x, r)
      | (Ok false, r) => (Raise (HTTPException 403 "invalid or spent deposit token"), r)
      | (Ok true, r) => (Ok true, r)
      end
  end.

Definition send_sealed (e : env) (body : SealedSendIn T) (d : db) (r : R)
    : outcome SendOut * db * R * list event :=
  match users d !! ss_to_uin body with
  | None => (Raise (HTTPException 404 "no such user"), d, r, [])
  | Some target =>
      let target_is_guest := bool_decide (is_Some (guest_status target)) in
      match spend_token body r with
      | (Raise x, r) => (Raise x, d, r, [])
      | (Ok token_ok, r) =>
      if deposit_auth_required e && negb token_ok then
        (Raise (HTTPException 402 "a deposit token is required"), d, r, [])
      else
        let frame_type := if String.eqb (ss_envelope_type body) CALL_TYPE then "message"%string
                          else ss_envelope_type body in
        let frame := Frame (ss_to_uin body) frame_type (ss_payload body) None None
                       (ss_to_device_id body) in
        let was_delivered := live e (ss_to_uin body) in
        match deposit e body d with
        | None => (Raise (HTTPException 503 "seq allocation collided, retry"), d, r, [frame])
        | Some d' =>
            (Ok (mkSendOut was_delivered true (now e)), d', r,
             frame :: sealed_wakes e body target_is_guest was_delivered)
        end
      end
  end.
End sealed.

(** ** Group fan-outs: what both share *)

(** [select(GroupMember.uin, User.last_seen).outerjoin(User)...] *)
Definition member_rows (d : db) (gid : Z) (want : Z -> bool) : list (Z * option Z) :=
  map (fun m => (gm_uin m, option_map last_seen (users d !! gm_uin m)))
    (filter (fun m => gm_group_id m = gid /\ want (gm_uin m) = true) (group_members d)).

(** Who is woken: resolved before the queue rows are written. *)
Definition wake_targets (d : db) (cls gid : Z) (caller : option Z) (offline : list Z) : list Z :=
  if cls =? 1 then
    group_push_targets d (filter (fun u => Some u <> caller) offline) gid
  else [].

Record GroupRecipientPayload := mkEntry { gp_to_uin : Z; gp_payload : string }.

(** The legacy rows of a fan-out, one per entry that is kept and not a reader. *)
Definition legacy_rows (e : env) (gid cls : Z) (envelope_type : string) (keep : gset Z)
    (readers : list Z) (entries : list GroupRecipientPayload) : list (Z -> OfflineGroupMessage) :=
  map (fun x id => mkOfflineGroupMessage id (gp_to_uin x) gid envelope_type (gp_payload x)
                     (now e) (Some cls))
    (filter (fun x => gp_to_uin x ∈ keep /\ gp_to_uin x ∉ readers) entries).

Definition insert_log (rows : list GroupLog) (d : db) : db := set_group_log (fun l => l ++ rows) d.

(** One [apns_send]/[up_send] pair per woken member, unless the kind is never
    pushed; [payload_of] picks the member's ciphertext. *)
Definition group_pushes (gid : Z) (row_type declared : string) (payload_of : Z -> option string)
    (exclude : list string) (wake : list Z) : list event :=
  if in_types NEVER_PUSH_TYPES declared then []
  else map (fun u => Push u (Some gid) row_type (payload_of u) exclude []) wake.

(** [sender_tokens]: looked up only for a kind that is pushed. *)
Definition push_exclusions (d : db) (caller : option Z) (declared : string) : list string :=
  if in_types NEVER_PUSH_TYPES declared then [] else sender_device_tokens d caller.

Section group.
Context {R : Type} `{RR : Redis R}.
Context (num : Z -> string) (hmac_hex : string -> string -> string) (secret : string).

(** Which Redis calls of a fan-out go through. *)
Record group_up := mkGroupUp {
  up_sknack : bool; up_sknack_room : bool; up_slow : slow_up; up_budget : bool
}.

(** ** [send_group_sealed] *)

Record GroupSealedSendIn := mkGroupSealedSendIn {
  gs_group_id : Z;
  gs_envelope_type : string;
  gs_payloads : list GroupRecipientPayload;
  gs_batch : option string;
  gs_batch_size : Z
}.

(** The ceilings on sender-key recovery asks. *)
Definition sknack_gate (up : group_up) (e : env) (rq : Request) (caller : option Z)
    (body : GroupSealedSendIn) (s : limiter R) : outcome unit * limiter R :=
  if negb (String.eqb (gs_envelope_type body) "sknack") then (Ok tt, s)
  else
    let ident := match caller with
                 | Some u => ("uin:" ++ pretty u)%string
                 | None => ("ip:" ++ host_or_unknown rq)%string end in
    match enforce_rate_limit num hmac_hex secret (up_sknack up) (now e) ident
            "messages_sknack" 10 3600 false s with
    | (Raise x, s1) => (Raise x, s1)
    | (Ok _, s1) =>
        enforce_rate_limit num hmac_hex secret (up_sknack_room up) (now e)
          (ident ++ ":g" ++ pretty (gs_group_id body))%string "messages_sknack_room" 2 3600 false s1
    end.

(** [owner_only]: an identified caller who is not the owner. *)
Definition owner_only_refuses (g : option Group) (caller : option Z) (envelope_type : string) : bool :=
  match g, caller with
  | Some g, Some u =>
      String.eqb envelope_type "message" && String.eqb (post_policy g) "owner_only"
      && negb (u =? owner_uin g)
  | _, _ => false
  end.

(** The writes: addressed log rows for readers, legacy rows for the others. *)
Definition sealed_writes (e : env) (body : GroupSealedSendIn) (cls : Z)
    (entries : list GroupRecipientPayload) (queue : gset Z) (wake : list Z) (d : db) : db :=
  let gid := gs_group_id body in
  let ty := gs_envelope_type body in
  let readers := log_readers d (map gp_to_uin entries) in
  let addressed := filter (fun x => gp_to_uin x ∈ readers) entries in
  let '(seqs, d1) := next_group_seqs gid (Z.of_nat (length addressed)) d in
  let log := zip_with (fun x sq => mkGroupLog gid sq (Some (gp_to_uin x)) ty cls (gp_payload x) (now e))
               addressed seqs in
  let d2 := insert_log log d1 in
  let keep := keep_for (map gp_to_uin (filter (fun x => gp_to_uin x ∉ readers) entries))
                queue cls wake ty in
  insert_group_rows (legacy_rows e gid cls ty keep readers entries) d2.

(** [payload_by_uin]: the last payload given for a member. *)
Definition payload_by_uin (payloads : list GroupRecipientPayload) (u : Z) : option string :=
  option_map gp_payload (last (filter (fun x => gp_to_uin x = u) payloads)).

Definition send_group_sealed (up : group_up) (e : env) (rq : Request) (body : GroupSealedSendIn)
    (caller : option Z) (d : db) (s : limiter R)
    : outcome SendOut * db * limiter R * list event :=
  let gid := gs_group_id body in
  let ty := gs_envelope_type body in
  match sknack_gate up e rq caller body s with
  | (Raise x, s) => (Raise x, d, s, [])
  | (Ok _, s) =>
      let g := groups d !! gid in
      if owner_only_refuses g caller ty
      then (Raise (HTTPException 403 "owner_only: only the group owner may post"), d, s, [])
      else
      let rows := member_rows d gid (fun _ => true) in
      match rows with
      | [] => (Raise (HTTPException 404 "group has no members"), d, s, [])
      | _ =>
          let members : gset Z := list_to_set (map fst rows) in
          match enforce_group_slowmode num hmac_hex secret (up_slow up) (now e) d gid g caller ty
                  Sealed (gs_batch body) (gs_batch_size body) s with
          | (Raise x, s) => (Raise x, d, s, [])
          | (Ok _, s) =>
              match enforce_account_age_gate (now e) d gid g caller ty with
              | Raise x => (Raise x, d, s, [])
              | Ok _ =>
                  let cls := cls_for ty in
                  let entries := filter (fun x => gp_to_uin x ∈ members) (gs_payloads body) in
                  let '(identity, allowance) := fanout_charge rq caller in
                  match enforce_cost_budget hmac_hex secret (up_budget up) (now e) identity
                          "group_fanout" (Z.of_nat (length entries)) allowance
                          FANOUT_WINDOW_SECONDS s with
                  | (Raise x, s) => (Raise x, d, s, [])
                  | (Ok _, s) =>
                      let frames := map (fun x => Frame (gp_to_uin x) ty (gp_payload x) (Some gid)
                                                    None None) entries in
                      let offline := filter (fun u => live e u = false) (map gp_to_uin entries) in
                      let wake := wake_targets d cls gid caller offline in
                      let d' := sealed_writes e body cls entries (queueable e rows) wake d in
                      let any := existsb (fun x => live e (gp_to_uin x)) entries in
                      (Ok (mkSendOut any true (now e)), d', s,
                       frames ++ group_pushes gid ty ty (payload_by_uin (gs_payloads body))
                                   (push_exclusions d caller ty) wake)
                  end
              end
          end
      end
  end.

(** ** [send_group_broadcast] *)

Record GroupBroadcastIn := mkGroupBroadcastIn {
  gb_group_id : Z;
  gb_envelope_type : string;
  gb_batch : option string;
  gb_batch_size : Z;
  gb_payload : string
}.

Definition capable (d : db) (u : Z) : bool := default false (user_capabilities d !! u).

(** The writes: one log row for all readers, legacy rows for the others. *)
Definition broadcast_writes (e : env) (body : GroupBroadcastIn) (cls : Z) (recipients : list Z)
    (queue : gset Z) (wake : list Z) (d : db) : option Z * db :=
  let gid := gb_group_id body in
  let readers := log_readers d recipients in
  let '(seq, d1) :=
    match readers with
    | [] => (None, d)
    | _ =>
        let '(sq, d1) := next_group_seq gid d in
        (Some sq, insert_log [mkGroupLog gid sq None "gmsg" cls (gb_payload body) (now e)] d1)
    end in
  let keep := keep_for (filter (fun u => u ∉ readers) recipients) queue cls wake "gmsg" in
  let entries := map (fun u => mkEntry u (gb_payload body)) recipients in
  (seq, insert_group_rows (legacy_rows e gid cls "gmsg" keep readers entries) d1).

Definition send_group_broadcast (up : group_up) (e : env) (rq : Request) (body : GroupBroadcastIn)
    (caller : option Z) (d : db) (s : limiter R)
    : outcome SendOut * db * limiter R * list event :=
  let gid := gb_group_id body in
  let ty := gb_envelope_type body in
  match caller with
  | None => (Raise (HTTPException 401 "group-broadcast requires authentication"), d, s, [])
  | Some u =>
  match groups d !! gid with
  | None => (Raise (HTTPException 404 "no such group"), d, s, [])
  | Some g =>
  match member_row d gid u with
  | None => (Raise (HTTPException 403 "not_a_member: only a member may post to this room"), d, s, [])
  | Some _ =>
  if String.eqb ty "message" && String.eqb (post_policy g) "owner_only" && negb (u =? owner_uin g)
  then (Raise (HTTPException 403 "owner_only: only the group owner may post"), d, s, [])
  else
  match enforce_group_slowmode num hmac_hex secret (up_slow up) (now e) d gid (Some g) caller ty
          Broadcast (gb_batch body) (gb_batch_size body) s with
  | (Raise x, s) => (Raise x, d, s, [])
  | (Ok _, s) =>
  match enforce_account_age_gate (now e) d gid (Some g) caller ty with
  | Raise x => (Raise x, d, s, [])
  | Ok _ =>
  let rows := member_rows d gid (capable d) in
  let recipients := map fst rows in
  match recipients with
  | [] => (Raise (HTTPException 404 "no broadcast-capable members"), d, s, [])
  | _ =>
  let '(identity, allowance) := fanout_charge rq caller in
  match enforce_cost_budget hmac_hex secret (up_budget up) (now e) identity "group_fanout"
          (Z.of_nat (length recipients)) allowance FANOUT_WINDOW_SECONDS s with
  | (Raise x, s) => (Raise x, d, s, [])
  | (Ok _, s) =>
  let cls := cls_for ty in
  let offline := filter (fun u => live e u = false) recipients in
  let wake := wake_targets d cls gid caller offline in
  let '(seq, d') := broadcast_writes e body cls recipients (queueable e rows) wake d in
  let frames := map (fun v => Frame v "gmsg" (gb_payload body) (Some gid) seq None) recipients in
  (Ok (mkSendOut (existsb (live e) recipients) true (now e)), d', s,
   frames ++ group_pushes gid "gmsg" ty (fun _ => Some (gb_payload body))
               (push_exclusions d caller ty) wake)
  end end end end end end end.
End group.

(** ** The 1:1 deposit, proved *)

(** Every sequence of a mailbox is at or below its counter. *)
Definition mailbox_ok (d : db) : Prop :=
  forall r s, r ∈ offline_messages d -> om_seq r = Some s ->
    s <= default 0 (mailbox_seq d !! om_to_uin r).

Lemma next_mailbox_seq_spec u d :
  let '(s, d1) := next_mailbox_seq u d in
  s = default 0 (mailbox_seq d !! u) + 1 /\
  d1 = set_mailbox_seq (fun _ => <[u := s]> (mailbox_seq d)) d.
Proof.
  unfold next_mailbox_seq, bump_seq. simpl. destruct (mailbox_seq d !! u); simpl; split; (lia || done).
Qed.

Lemma deposit_spec {T} e (body : SealedSendIn T) d :
  mailbox_ok d ->
  let u := ss_to_uin body in
  let s := default 0 (mailbox_seq d !! u) + 1 in
  let row := mkOfflineMessage (next_direct_id d) u (ss_envelope_type body) (ss_payload body)
               (now e) (Some (cls_of_body body)) (Some s) (ss_to_device_id body) in
  deposit e body d =
    Some (insert_offline_message (fun _ => row) (set_mailbox_seq (fun _ => <[u := s]> (mailbox_seq d)) d)).
Proof.
  intros Hok. cbv zeta. unfold deposit. pose proof (next_mailbox_seq_spec (ss_to_uin body) d) as Hs.
  destruct (next_mailbox_seq (ss_to_uin body) d) as [s d1]. destruct Hs as [-> ->].
  set (s := default 0 (mailbox_seq d !! ss_to_uin body) + 1).
  assert (existsb (fun r => (om_to_uin r =? ss_to_uin body) && bool_decide (om_seq r = Some s))
            (offline_messages d) = false) as E.
  { apply existsb_false_elem. intros r Hr. destruct (Z.eqb_spec (om_to_uin r) (ss_to_uin body)) as [Hu|]; [|done].
    apply bool_decide_eq_false_2. intros Hseq. specialize (Hok r s Hr Hseq). rewrite Hu in Hok. unfold s in Hok. lia. }
  simpl. rewrite E. done.
Qed.

Lemma spend_token_cases {R T} (verify : T -> R -> outcome bool * R) (body : SealedSendIn T) r :
  match (spend_token verify body r).1 with
  | Ok _ => True
  | Raise x => x = HTTPException 403 "invalid or spent deposit token" \/
               exists tok, ss_deposit_token body = Some tok /\ (verify tok r).1 = Raise x
  end.
Proof.
  unfold spend_token. destruct (ss_deposit_token body) as [tok|]; [|done].
  destruct (verify tok r) as [[[]|x] r'] eqn:E; simpl; [done|by left|].
  right. exists tok. by rewrite E.
Qed.

(** A 1:1 deposit that is answered with success is in the recipient's
    queue, once, verbatim, under a sequence number no row of that mailbox
    carries; a deposit that is refused has written nothing, and it is refused
    only for an unknown recipient, a bad token or a missing one (or because the
    token check itself failed).  The mailbox
    counter stays ahead of every row, so the 503 on a colliding sequence is
    never reached. *)
Theorem send_sealed_queues {R T} (verify : T -> R -> outcome bool * R) e body d r :
  mailbox_ok d ->
  let '(v, d', _, _) := send_sealed verify e body d r in
  match v with
  | Ok out =>
      queued out = true /\ mailbox_ok d' /\
      exists row s, offline_messages d' = offline_messages d ++ [row] /\
        om_to_uin row = ss_to_uin body /\ om_payload row = ss_payload body /\
        om_envelope_type row = ss_envelope_type body /\ om_to_device_id row = ss_to_device_id body /\
        om_seq row = Some s /\
        (forall r0, r0 ∈ offline_messages d -> om_to_uin r0 = ss_to_uin body -> om_seq r0 <> Some s)
  | Raise x =>
      d' = d /\ (x = HTTPException 404 "no such user" \/
                 x = HTTPException 403 "invalid or spent deposit token" \/
                 x = HTTPException 402 "a deposit token is required" \/
                 exists tok, ss_deposit_token body = Some tok /\ (verify tok r).1 = Raise x)
  end.
Proof.
  intros Hok. unfold send_sealed. destruct (users d !! ss_to_uin body) as [target|]; [|auto].
  pose proof (spend_token_cases verify body r) as Hsp.
  destruct (spend_token verify body r) as [[tok|x] r1]; simpl in Hsp; [|tauto].
  destruct (deposit_auth_required e && negb tok); [auto|].
  rewrite (deposit_spec e body d Hok). cbv zeta. set (s := default 0 (mailbox_seq d !! _) + 1).
  split; [done|]. split.
  - intros r0 s0 Hin Hs. simpl in *. apply elem_of_app in Hin as [Hin|Hin%list_elem_of_singleton].
    + specialize (Hok r0 s0 Hin Hs). destruct (decide (om_to_uin r0 = ss_to_uin body)) as [Hu|Hne].
      * rewrite Hu, lookup_insert_eq. simpl. rewrite Hu in Hok. unfold s. lia.
      * by rewrite lookup_insert_ne.
    + subst r0. simpl in *. rewrite lookup_insert_eq. simpl. injection Hs as <-. lia.
  - eexists _, s. split; [done|]. simpl. repeat (split; [done|]).
    intros r0 Hin Hu Hs. specialize (Hok r0 s Hin Hs). rewrite Hu in Hok. unfold s in Hok. lia.
Qed.

(** Who a 1:1 deposit wakes: only its recipient, only after the row is
    committed, and never a guest copy; a ring goes out only when the account
    has no live socket, and a message push only for content that is not a
    control kind. *)
Theorem send_sealed_wakes {R T} (verify : T -> R -> outcome bool * R) e body d r u x :
  let '(v, _, _, ev) := send_sealed verify e body d r in
  x ∈ ev -> is_wake_for u x = true ->
  u = ss_to_uin body /\ (exists out, v = Ok out) /\
  (exists row, users d !! u = Some row /\ guest_status row = None) /\
  match x with
  | Ring _ _ => live e u = false
  | _ => cls_of_body body = 1 /\ ss_ring body = false /\
         in_types NEVER_PUSH_TYPES (ss_envelope_type body) = false /\
         ss_envelope_type body <> CALL_TYPE
  end.
Proof.
  unfold send_sealed. destruct (users d !! ss_to_uin body) as [target|] eqn:Eu; [|set_solver].
  destruct (spend_token verify body r) as [[tok|] r1]; [|set_solver].
  destruct (deposit_auth_required e && negb tok); [set_solver|].
  destruct (deposit e body d) as [d'|].
  2: { intros ->%list_elem_of_singleton Hw. done. }
  intros Hin Hw. apply elem_of_cons in Hin as [->|Hin]; [done|].
  unfold sealed_wakes in Hin. destruct (bool_decide (is_Some (guest_status target))) eqn:Eg; [set_solver|].
  apply bool_decide_eq_false_1, eq_None_not_Some in Eg.
  destruct (ss_ring body || String.eqb (ss_envelope_type body) CALL_TYPE) eqn:Er.
  - destruct (live e (ss_to_uin body)) eqn:El; simpl in Hin; [set_solver|].
    apply list_elem_of_singleton in Hin as ->. simpl in Hw. breflect. subst u.
    split; [done|]. split; [by eexists|]. split; [by exists target|]. done.
  - apply orb_false_iff in Er as [Er1 Er2]. apply String.eqb_neq in Er2.
    destruct (cls_of_body body =? 1) eqn:Ec; simpl in Hin; [|set_solver].
    destruct (in_types _ _) eqn:En; [set_solver|].
    destruct (negb _ || negb _); [|set_solver].
    apply list_elem_of_singleton in Hin as ->. simpl in Hw. breflect. subst u.
    split; [done|]. split; [by eexists|]. split; [by exists target|]. done.
Qed.

(** ** The group fan-outs, proved *)

Lemma insert_group_rows_spec mks d :
  exists new, offline_group_messages (insert_group_rows mks d) = offline_group_messages d ++ new /\
    Forall2 (fun mk row => exists id, row = mk id) mks new /\
    group_log (insert_group_rows mks d) = group_log d /\
    users (insert_group_rows mks d) = users d.
Proof.
  revert d. induction mks as [|mk mks IH]; intros d; cbn [insert_group_rows].
  - exists []. rewrite app_nil_r. auto.
  - edestruct IH as (new & E & Hf & El & Eu). rewrite E, El, Eu. simpl.
    eexists (_ :: new). rewrite <-app_assoc. split; [done|]. split; [|done].
    constructor; [by eexists|done].
Qed.

Lemma Forall2_elem_r {A B} (P : A -> B -> Prop) l k y :
  Forall2 P l k -> y ∈ k -> exists x, x ∈ l /\ P x y.
Proof. induction 1 as [|x y' l k Hxy Hf IH]; intros Hy; set_solver. Qed.

Lemma Forall2_elem_l {A B} (P : A -> B -> Prop) l k x :
  Forall2 P l k -> x ∈ l -> exists y, y ∈ k /\ P x y.
Proof. induction 1 as [|x' y l k Hxy Hf IH]; intros Hx; set_solver. Qed.

Lemma zip_with_covers {A B C} (f : A -> B -> C) l k x :
  (length l <= length k)%nat -> x ∈ l -> exists y, f x y ∈ zip_with f l k.
Proof.
  revert k. induction l as [|x' l IH]; intros k Hlen Hx; [set_solver|].
  destruct k as [|y k]; simpl in *; [lia|]. apply elem_of_cons in Hx as [->|Hx]; [set_solver|].
  destruct (IH k) as [y' Hy']; [lia|done|]. set_solver.
Qed.

Lemma elem_of_zip_with {A B C} (f : A -> B -> C) l k z :
  z ∈ zip_with f l k -> exists x y, x ∈ l /\ z = f x y.
Proof.
  revert k. induction l as [|x l IH]; intros [|y k] Hz; simpl in Hz; try by apply not_elem_of_nil in Hz.
  apply elem_of_cons in Hz as [->|Hz]; [set_solver|]. destruct (IH k Hz) as (x' & y' & ? & ?). set_solver.
Qed.

(** The rule that decides whose copy is kept in the legacy queue. *)
Definition kept (queue : gset Z) (cls : Z) (wake : list Z) (envelope_type : string) (u : Z) : Prop :=
  (cls = 2 /\ envelope_type <> "sknack"%string) \/ u ∈ queue \/ u ∈ wake.

Lemma keep_for_kept recipients queue cls wake ty u :
  u ∈ recipients -> (u ∈ keep_for recipients queue cls wake ty <-> kept queue cls wake ty u)
  \/ (cls = 2 /\ ty <> "sknack"%string /\ u ∈ keep_for recipients queue cls wake ty).
Proof.
  intros Hu. unfold keep_for, kept.
  destruct (Z.eqb_spec cls 2) as [->|]; simpl.
  - destruct (String.eqb_spec ty "sknack") as [->|]; simpl.
    + left. rewrite elem_of_union, elem_of_list_to_set. naive_solver.
    + right. rewrite elem_of_list_to_set. done.
  - left. rewrite elem_of_union, elem_of_list_to_set. naive_solver.
Qed.

(** A copy of the post for [u], in the queue or addressed in the log. *)
Definition queue_copy (new : list OfflineGroupMessage) (gid : Z) (ty : string) (u : Z) (payload : string) : Prop :=
  exists row, row ∈ new /\ og_to_uin row = u /\ og_group_id row = gid /\
              og_envelope_type row = ty /\ og_payload row = payload.
Definition log_copy (new : list GroupLog) (gid : Z) (ty : string) (u : Z) (payload : string) : Prop :=
  exists row, row ∈ new /\ gl_to_uin row = Some u /\ gl_group_id row = gid /\
              gl_envelope_type row = ty /\ gl_payload row = payload.

Lemma legacy_rows_spec e gid cls ty keep readers entries new :
  Forall2 (fun mk row => exists id, row = mk id) (legacy_rows e gid cls ty keep readers entries) new ->
  (forall x, x ∈ entries -> gp_to_uin x ∈ keep -> gp_to_uin x ∉ readers ->
     queue_copy new gid ty (gp_to_uin x) (gp_payload x)) /\
  (forall row, row ∈ new -> exists x, x ∈ entries /\ gp_to_uin x ∈ keep /\ gp_to_uin x ∉ readers /\
     og_to_uin row = gp_to_uin x /\ og_payload row = gp_payload x /\ og_cls row = Some cls).
Proof.
  intros Hf. split.
  - intros x Hx Hk Hr. eapply Forall2_elem_l in Hf as (row & Hrow & id & ->).
    2: { apply list_elem_of_fmap. exists x. split; [done|]. apply list_elem_of_filter. done. }
    eexists. split; [done|]. done.
  - intros row Hrow. eapply Forall2_elem_r in Hf as (mk & Hmk & id & ->); [|done].
    apply list_elem_of_fmap in Hmk as (x & -> & [[Hk Hr] Hx]%list_elem_of_filter). eauto 10.
Qed.

Lemma next_group_seqs_frame gid n d :
  let '(l, d') := next_group_seqs gid n d in
  Z.of_nat (length l) = Z.max 0 n /\ group_log d' = group_log d /\
  offline_group_messages d' = offline_group_messages d /\ users d' = users d.
Proof.
  unfold next_group_seqs, bump_seq. destruct (Z.leb_spec n 0); [simpl; split; [lia|done]|].
  simpl. rewrite length_range. split; [lia|done].
Qed.

Lemma sealed_writes_spec e body cls entries queue wake d :
  let gid := gs_group_id body in
  let ty := gs_envelope_type body in
  let readers := log_readers d (map gp_to_uin entries) in
  let d' := sealed_writes e body cls entries queue wake d in
  exists new newlog,
    offline_group_messages d' = offline_group_messages d ++ new /\
    group_log d' = group_log d ++ newlog /\
    (forall x, x ∈ entries ->
       if decide (gp_to_uin x ∈ readers)
       then log_copy newlog gid ty (gp_to_uin x) (gp_payload x)
       else (kept queue cls wake ty (gp_to_uin x) -> queue_copy new gid ty (gp_to_uin x) (gp_payload x))) /\
    (forall row, row ∈ new -> og_to_uin row ∉ readers /\ kept queue cls wake ty (og_to_uin row) /\
       og_cls row = Some cls /\
       exists x, x ∈ entries /\ og_to_uin row = gp_to_uin x /\ og_payload row = gp_payload x) /\
    (forall row, row ∈ newlog -> exists x, x ∈ entries /\ gp_to_uin x ∈ readers /\
       gl_to_uin row = Some (gp_to_uin x) /\ gl_payload row = gp_payload x) /\
    users d' = users d.
Proof.
  cbv zeta. unfold sealed_writes. set (readers := log_readers d (map gp_to_uin entries)).
  set (addressed := filter (fun x => gp_to_uin x ∈ readers) entries).
  pose proof (next_group_seqs_frame (gs_group_id body) (Z.of_nat (length addressed)) d) as Hsq.
  destruct (next_group_seqs _ _ d) as [seqs d1]. destruct Hsq as (Hlen & El & Eo & Eus).
  set (log := zip_with _ addressed seqs). set (keep := keep_for _ _ _ _ _).
  destruct (insert_group_rows_spec (legacy_rows e (gs_group_id body) cls (gs_envelope_type body) keep readers entries)
              (insert_log log d1)) as (new & E1 & Hf & E2 & E3).
  exists new, log. rewrite E1, E2, E3. simpl. rewrite Eo, El. split; [done|]. split; [done|].
  destruct (legacy_rows_spec _ _ _ _ _ _ _ _ Hf) as [Hcov Hinv]. split; [|split; [|split; [|done]]].
  - intros x Hx. destruct (decide (gp_to_uin x ∈ readers)) as [Hr|Hr].
    + assert (Hxa : x ∈ addressed) by (apply list_elem_of_filter; done).
      destruct (zip_with_covers (fun x sq => mkGroupLog (gs_group_id body) sq (Some (gp_to_uin x))
        (gs_envelope_type body) cls (gp_payload x) (now e)) addressed seqs x ltac:(lia) Hxa) as [y Hy].
      eexists. split; [exact Hy|]. done.
    + intros Hk. apply Hcov; [done| |done].
      destruct (keep_for_kept (map gp_to_uin (filter (fun x => gp_to_uin x ∉ readers) entries)) queue cls wake
                  (gs_envelope_type body) (gp_to_uin x)) as [Hiff|(_ & _ & H)]; [|by apply Hiff|done].
      apply list_elem_of_fmap. exists x. split; [done|]. apply list_elem_of_filter. done.
  - intros row Hrow. destruct (Hinv row Hrow) as (x & Hx & Hk & Hr & -> & Hp & Hc).
    split; [done|]. split; [|eauto].
    destruct (keep_for_kept (map gp_to_uin (filter (fun x => gp_to_uin x ∉ readers) entries)) queue cls wake
                (gs_envelope_type body) (gp_to_uin x)) as [Hiff|(? & ? & _)]; [|by apply Hiff|by left].
    apply list_elem_of_fmap. exists x. split; [done|]. apply list_elem_of_filter. done.
  - intros row Hrow. apply elem_of_zip_with in Hrow as (x & y & Hx & ->).
    apply list_elem_of_filter in Hx as [Hr Hx]. eauto 10.
Qed.

Definition room_members (d : db) (gid : Z) : list Z := map fst (member_rows d gid (fun _ => true)).

Lemma elem_of_room_members d gid u :
  u ∈ room_members d gid <-> exists m, m ∈ group_members d /\ gm_group_id m = gid /\ gm_uin m = u.
Proof.
  unfold room_members, member_rows. rewrite map_map. cbn [fst]. rewrite list_elem_of_fmap.
  setoid_rewrite list_elem_of_filter. naive_solver.
Qed.

(** The payloads that are for members, and the members they wake. *)
Definition sealed_entries (d : db) (body : GroupSealedSendIn) : list GroupRecipientPayload :=
  filter (fun x => gp_to_uin x ∈ (list_to_set (room_members d (gs_group_id body)) : gset Z)) (gs_payloads body).

Definition sealed_wake (e : env) (body : GroupSealedSendIn) (caller : option Z) (d : db) : list Z :=
  wake_targets d (cls_for (gs_envelope_type body)) (gs_group_id body) caller
    (filter (fun u => live e u = false) (map gp_to_uin (sealed_entries d body))).

Section group_facts.
Context {R : Type} `{RR : Redis R}.
Context (num : Z -> string) (hmac_hex : string -> string -> string) (secret : string).

(** The two ways a sealed fan-out ends. *)
Lemma send_group_sealed_inv up e rq body caller d (s : limiter R) :
  let '(v, d', _, ev) := send_group_sealed num hmac_hex secret up e rq body caller d s in
  match v with
  | Raise _ => d' = d /\ ev = []
  | Ok _ =>
      owner_only_refuses (groups d !! gs_group_id body) caller (gs_envelope_type body) = false /\
      enforce_account_age_gate (now e) d (gs_group_id body) (groups d !! gs_group_id body) caller
        (gs_envelope_type body) = Ok tt /\
      d' = sealed_writes e body (cls_for (gs_envelope_type body)) (sealed_entries d body)
             (queueable e (member_rows d (gs_group_id body) (fun _ => true)))
             (sealed_wake e body caller d) d /\
      ev = map (fun x => Frame (gp_to_uin x) (gs_envelope_type body) (gp_payload x)
                           (Some (gs_group_id body)) None None) (sealed_entries d body)
           ++ group_pushes (gs_group_id body) (gs_envelope_type body) (gs_envelope_type body)
                (payload_by_uin (gs_payloads body)) (push_exclusions d caller (gs_envelope_type body))
                (sealed_wake e body caller d)
  end.
Proof.
  unfold send_group_sealed. destruct (sknack_gate _ _ _ _ _ _ _ _ _) as [[[]|x] s1]; [|done].
  destruct (owner_only_refuses _ _ _) eqn:Eo; [done|].
  unfold sealed_wake, sealed_entries, room_members.
  destruct (member_rows d (gs_group_id body) (fun _ => true)) as [|row rows] eqn:Em; [done|].
  destruct (enforce_group_slowmode _ _ _ _ _ _ _ _ _ _ _ _ _ _) as [[[]|x] s2]; [|done].
  destruct (enforce_account_age_gate _ _ _ _ _ _) as [[]|x] eqn:Ea; [|done].
  destruct (fanout_charge rq caller) as [ident allowance].
  destruct (enforce_cost_budget _ _ _ _ _ _ _ _ _ _) as [[[]|x] s3]; [|done].
  done.
Qed.
End group_facts.

Lemma group_pushes_wake gid row_type declared payload_of ex wake u x :
  x ∈ group_pushes gid row_type declared payload_of ex wake -> is_wake_for u x = true ->
  u ∈ wake /\ in_types NEVER_PUSH_TYPES declared = false.
Proof.
  unfold group_pushes. destruct (in_types _ _) eqn:E; [set_solver|].
  intros (v & -> & Hv)%list_elem_of_fmap Hw. simpl in Hw. breflect. by subst.
Qed.

Lemma frames_no_wake {A} (f : A -> event) l u x :
  (forall a, is_wake_for u (f a) = false) -> x ∈ map f l -> is_wake_for u x = false.
Proof. intros Hf (a & -> & _)%list_elem_of_fmap. apply Hf. Qed.

Lemma dedup_elem seen l x : x ∈ dedup seen l -> x ∈ l.
Proof.
  revert seen. induction l as [|y l IH]; intros seen; simpl; [done|].
  destruct (decide (y ∈ seen)); [intros Hx; apply IH in Hx; set_solver|].
  intros [->|Hx]%elem_of_cons; [set_solver|]. apply IH in Hx. set_solver.
Qed.

(** Who can be woken by a group post. *)
Lemma wake_targets_spec d cls gid caller offline u :
  u ∈ wake_targets d cls gid caller offline ->
  cls = 1 /\ u ∈ offline /\ Some u <> caller /\ has_endpoint d u = true /\ unmuted d gid u = true.
Proof.
  unfold wake_targets, group_push_targets. destruct (Z.eqb_spec cls 1); [|set_solver].
  intros [[He Hu] Hin]%dedup_elem%list_elem_of_filter. apply list_elem_of_filter in Hin. tauto.
Qed.

(** C7. The sealed group fan-out keeps its word.  When it succeeds, every
    payload addressed to a member is stored exactly where that member will look
    for it: in the room log for an account that reads it, else in the member's
    queue whenever the post is key material, or the member is active, or the
    member is woken; every row written is a member's own payload.  Whoever is
    woken has a copy to find.  When it is refused, nothing is written and nothing is sent. *)
Theorem send_group_sealed_stores {R} `{RR : Redis R} num hmac_hex secret up e rq body caller d (s : limiter R) :
  let '(v, d', _, ev) := send_group_sealed num hmac_hex secret up e rq body caller d s in
  let gid := gs_group_id body in
  let ty := gs_envelope_type body in
  let readers := log_readers d (map gp_to_uin (sealed_entries d body)) in
  let active := queueable e (member_rows d gid (fun _ => true)) in
  match v with
  | Raise _ => d' = d /\ ev = []
  | Ok _ =>
      exists new newlog,
        offline_group_messages d' = offline_group_messages d ++ new /\
        group_log d' = group_log d ++ newlog /\
        (forall x, x ∈ gs_payloads body -> gp_to_uin x ∈ room_members d gid ->
           if decide (gp_to_uin x ∈ readers)
           then log_copy newlog gid ty (gp_to_uin x) (gp_payload x)
           else kept active (cls_for ty) (sealed_wake e body caller d) ty (gp_to_uin x) ->
                queue_copy new gid ty (gp_to_uin x) (gp_payload x)) /\
        (forall row, row ∈ new -> og_to_uin row ∈ room_members d gid /\ og_to_uin row ∉ readers /\
           kept active (cls_for ty) (sealed_wake e body caller d) ty (og_to_uin row) /\
           exists x, x ∈ gs_payloads body /\ og_to_uin row = gp_to_uin x /\ og_payload row = gp_payload x) /\
        (forall row, row ∈ newlog -> exists x, x ∈ gs_payloads body /\ gl_to_uin row = Some (gp_to_uin x) /\
           gl_payload row = gp_payload x /\ gp_to_uin x ∈ room_members d gid /\ gp_to_uin x ∈ readers) /\
        (forall u ev1, ev1 ∈ ev -> is_wake_for u ev1 = true ->
           exists payload, log_copy newlog gid ty u payload \/ queue_copy new gid ty u payload)
  end.
Proof.
  pose proof (send_group_sealed_inv num hmac_hex secret up e rq body caller d s) as Hinv.
  destruct (send_group_sealed _ _ _ _ _ _ _ _ _ _) as [[[v d'] s'] ev].
  destruct v as [out|x]; [|done]. destruct Hinv as (_ & _ & -> & ->). cbv zeta.
  destruct (sealed_writes_spec e body (cls_for (gs_envelope_type body)) (sealed_entries d body)
     (queueable e (member_rows d (gs_group_id body) (fun _ => true))) (sealed_wake e body caller d) d)
    as (new & newlog & E1 & E2 & Hcov & Hnew & Hlog & _).
  exists new, newlog. split; [exact E1|]. split; [exact E2|].
  assert (Hmem : forall x, x ∈ sealed_entries d body <->
            gp_to_uin x ∈ room_members d (gs_group_id body) /\ x ∈ gs_payloads body).
  { intros x. unfold sealed_entries. by rewrite list_elem_of_filter, elem_of_list_to_set. }
  split; [intros x Hx Hm; apply Hcov; by apply Hmem|]. split; [|split].
  - intros row Hrow. destruct (Hnew row Hrow) as (Hr & Hk & _ & x & Hx & Eu & Ep).
    apply Hmem in Hx as [Hm Hx]. split; [by rewrite Eu|]. split; [done|]. split; [done|]. by exists x.
  - intros row Hrow. destruct (Hlog row Hrow) as (x & Hx & Hr & Eu & Ep).
    apply Hmem in Hx as [Hm Hx]. by exists x.
  - intros u x [Hx|Hx]%elem_of_app Hw.
    { apply (frames_no_wake _ _ u) in Hx; [congruence|done]. }
    apply (group_pushes_wake _ _ _ _ _ _ u) in Hx as [Hu _]; [|done].
    destruct (wake_targets_spec _ _ _ _ _ _ Hu) as (_ & Hoff & _).
    apply list_elem_of_filter in Hoff as [_ (y & -> & Hy)%list_elem_of_fmap].
    exists (gp_payload y). specialize (Hcov y Hy).
    destruct (decide (gp_to_uin y ∈ _)); [by left|]. right. apply Hcov. right. by right.
Qed.

(** Key material reaches every member: a sender-key distribution that is
    accepted leaves each addressed member a copy, in the log or in the queue,
    however long they have been away. *)
Theorem key_material_for_all {R} `{RR : Redis R} num hmac_hex secret up e rq body caller d (s : limiter R) x :
  gs_envelope_type body = "skdm"%string ->
  x ∈ gs_payloads body -> gp_to_uin x ∈ room_members d (gs_group_id body) ->
  let '(v, d', _, ev) := send_group_sealed num hmac_hex secret up e rq body caller d s in
  match v with
  | Raise _ => True
  | Ok _ =>
      (forall u y, y ∈ ev -> is_wake_for u y = false) /\
      exists new newlog,
        offline_group_messages d' = offline_group_messages d ++ new /\
        group_log d' = group_log d ++ newlog /\
        (log_copy newlog (gs_group_id body) "skdm" (gp_to_uin x) (gp_payload x) \/
         queue_copy new (gs_group_id body) "skdm" (gp_to_uin x) (gp_payload x))
  end.
Proof.
  intros Hty Hx Hm. pose proof (send_group_sealed_inv num hmac_hex secret up e rq body caller d s) as Hinv.
  destruct (send_group_sealed _ _ _ _ _ _ _ _ _ _) as [[[v d'] s'] ev].
  destruct v as [out|]; [|done]. destruct Hinv as (_ & _ & -> & ->).
  destruct (sealed_writes_spec e body (cls_for (gs_envelope_type body)) (sealed_entries d body)
     (queueable e (member_rows d (gs_group_id body) (fun _ => true))) (sealed_wake e body caller d) d)
    as (new & newlog & E1 & E2 & Hcov & _ & _).
  assert (Hxe : x ∈ sealed_entries d body).
  { unfold sealed_entries. by rewrite list_elem_of_filter, elem_of_list_to_set. }
  split.
  - intros u y Hy. destruct (is_wake_for u y) eqn:Hw; [|done]. exfalso.
    apply elem_of_app in Hy as [Hy|Hy]; [apply (frames_no_wake _ _ u) in Hy; [congruence|done]|].
    apply (group_pushes_wake _ _ _ _ _ _ u) in Hy as [Hu _]; [|done].
    destruct (wake_targets_spec _ _ _ _ _ _ Hu) as (Hc & _). rewrite Hty in Hc. done.
  - exists new, newlog. split; [exact E1|]. split; [exact E2|]. specialize (Hcov x Hxe).
    rewrite Hty in Hcov. destruct (decide (gp_to_uin x ∈ _)); [by left|]. right. apply Hcov.
    left. split; [done|]. discriminate.
Qed.

Definition capable_members (d : db) (gid : Z) : list Z := map fst (member_rows d gid (capable d)).

Definition broadcast_wake (e : env) (body : GroupBroadcastIn) (caller : option Z) (d : db) : list Z :=
  wake_targets d (cls_for (gb_envelope_type body)) (gb_group_id body) caller
    (filter (fun u => live e u = false) (capable_members d (gb_group_id body))).

Lemma next_group_seq_frame gid d :
  let '(sq, d1) := next_group_seq gid d in
  sq = room_head d gid + 1 /\ group_log d1 = group_log d /\
  offline_group_messages d1 = offline_group_messages d.
Proof.
  unfold next_group_seq, bump_seq, room_head. simpl.
  split; [|done]. destruct (group_seq d !! gid); simpl; lia.
Qed.

Lemma broadcast_writes_spec e body cls recipients queue wake d :
  let gid := gb_group_id body in
  let readers := log_readers d recipients in
  let '(seq, d') := broadcast_writes e body cls recipients queue wake d in
  exists new,
    offline_group_messages d' = offline_group_messages d ++ new /\
    (if decide (readers = []) then seq = None /\ group_log d' = group_log d
     else seq = Some (room_head d gid + 1) /\
          group_log d' = group_log d ++ [mkGroupLog gid (room_head d gid + 1) None "gmsg" cls
                                           (gb_payload body) (now e)]) /\
    (forall u, u ∈ recipients -> u ∉ readers -> kept queue cls wake "gmsg" u ->
       queue_copy new gid "gmsg" u (gb_payload body)) /\
    (forall row, row ∈ new -> og_to_uin row ∈ recipients /\ og_to_uin row ∉ readers /\
       kept queue cls wake "gmsg" (og_to_uin row)).
Proof.
  cbv zeta. unfold broadcast_writes. set (readers := log_readers d recipients).
  pose proof (next_group_seq_frame (gb_group_id body) d) as Hsq.
  destruct (next_group_seq (gb_group_id body) d) as [sq d0]. destruct Hsq as (-> & El & Eo).
  set (p := match readers with [] => _ | _ => _ end).
  assert (Hp : offline_group_messages p.2 = offline_group_messages d /\
    (if decide (readers = []) then p.1 = None /\ group_log p.2 = group_log d
     else p.1 = Some (room_head d (gb_group_id body) + 1) /\
          group_log p.2 = group_log d ++ [mkGroupLog (gb_group_id body) (room_head d (gb_group_id body) + 1)
                            None "gmsg" cls (gb_payload body) (now e)])).
  { unfold p. destruct readers; simpl; [done|]. by rewrite Eo, El. }
  destruct p as [seq d1]. simpl in Hp. destruct Hp as [Ho Hl].
  set (keep := keep_for _ _ _ _ _). set (entries := map _ recipients).
  destruct (insert_group_rows_spec (legacy_rows e (gb_group_id body) cls "gmsg" keep readers entries) d1)
    as (new & E1 & Hf & E2 & _).
  exists new. rewrite E1, E2, Ho. split; [done|]. split; [done|].
  destruct (legacy_rows_spec _ _ _ _ _ _ _ _ Hf) as [Hcov Hinv].
  assert (Hk : forall u, u ∈ recipients -> u ∉ readers ->
     (u ∈ keep <-> kept queue cls wake "gmsg" u) \/ (cls = 2 /\ u ∈ keep)).
  { intros u Hu Hr. destruct (keep_for_kept (filter (fun u => u ∉ readers) recipients) queue cls wake "gmsg" u)
      as [?|(? & _ & ?)]; [by apply list_elem_of_filter|by left|by right]. }
  split.
  - intros u Hu Hr Hkept. apply (Hcov (mkEntry u (gb_payload body))); [|simpl|done].
    + apply list_elem_of_fmap. by exists u.
    + destruct (Hk u Hu Hr) as [Hiff|[_ ?]]; [by apply Hiff|done].
  - intros row Hrow. destruct (Hinv row Hrow) as (x & Hx & Hin & Hr & -> & _ & _).
    apply list_elem_of_fmap in Hx as (u & -> & Hu). simpl in *. split; [done|]. split; [done|].
    destruct (Hk u Hu Hr) as [Hiff|[-> _]]; [by apply Hiff|]. left. split; [done|discriminate].
Qed.

Lemma send_group_broadcast_inv {R} `{RR : Redis R} num hmac_hex secret up e rq body caller d (s : limiter R) :
  let '(v, d', _, ev) := send_group_broadcast num hmac_hex secret up e rq body caller d s in
  match v with
  | Raise _ => d' = d /\ ev = []
  | Ok _ =>
      exists u g m seq, caller = Some u /\ groups d !! gb_group_id body = Some g /\
        member_row d (gb_group_id body) u = Some m /\
        (gb_envelope_type body = "message"%string -> post_policy g = "owner_only"%string -> u = owner_uin g) /\
        broadcast_writes e body (cls_for (gb_envelope_type body)) (capable_members d (gb_group_id body))
          (queueable e (member_rows d (gb_group_id body) (capable d))) (broadcast_wake e body caller d) d
        = (seq, d') /\
        ev = map (fun v => Frame v "gmsg" (gb_payload body) (Some (gb_group_id body)) seq None)
               (capable_members d (gb_group_id body))
             ++ group_pushes (gb_group_id body) "gmsg" (gb_envelope_type body)
                  (fun _ => Some (gb_payload body)) (push_exclusions d caller (gb_envelope_type body))
                  (broadcast_wake e body caller d)
  end.
Proof.
  unfold send_group_broadcast. destruct caller as [u|]; [|done].
  destruct (groups d !! gb_group_id body) as [g|] eqn:Eg; [|done].
  destruct (member_row d (gb_group_id body) u) as [m|] eqn:Em; [|done].
  destruct (_ && _ && _) eqn:Eo; [done|].
  destruct (enforce_group_slowmode _ _ _ _ _ _ _ _ _ _ _ _ _ _) as [[[]|x] s2]; [|done].
  destruct (enforce_account_age_gate _ _ _ _ _ _) as [[]|x]; [|done].
  unfold broadcast_wake, capable_members.
  destruct (map fst (member_rows d (gb_group_id body) (capable d))) as [|r0 rs] eqn:Er; [done|].
  destruct (fanout_charge rq (Some u)) as [ident allowance].
  destruct (enforce_cost_budget _ _ _ _ _ _ _ _ _ _) as [[[]|x] s3]; [|done].
  destruct (broadcast_writes _ _ _ _ _ _ _) as [seq d'] eqn:Ew.
  exists u, g, m, seq. split; [done|]. split; [done|]. split; [done|]. split; [|done].
  intros Hty Hp. rewrite Hty, Hp in Eo. simpl in Eo. by destruct (Z.eqb_spec u (owner_uin g)).
Qed.

(** C8. A broadcast is posted only by an identified member of the room, and in
    an owner-only room a message only by its owner.  It is then written once to
    the room log, under the next number of the room, if any recipient reads
    the log; everybody else who is active or woken gets a queue copy; nobody is
    woken without one of the two, the author never is, and a control kind wakes
    nobody.  A refused broadcast writes and sends nothing. *)
Theorem send_group_broadcast_stores {R} `{RR : Redis R} num hmac_hex secret up e rq body caller d (s : limiter R) :
  let '(v, d', _, ev) := send_group_broadcast num hmac_hex secret up e rq body caller d s in
  let gid := gb_group_id body in
  let recipients := capable_members d gid in
  let readers := log_readers d recipients in
  let active := queueable e (member_rows d gid (capable d)) in
  let cls := cls_for (gb_envelope_type body) in
  match v with
  | Raise _ => d' = d /\ ev = []
  | Ok _ =>
      (exists u g, caller = Some u /\ u ∈ room_members d gid /\ groups d !! gid = Some g /\
         (gb_envelope_type body = "message"%string -> post_policy g = "owner_only"%string -> u = owner_uin g)) /\
      exists new newlog,
        offline_group_messages d' = offline_group_messages d ++ new /\
        group_log d' = group_log d ++ newlog /\
        newlog = (if decide (readers = []) then []
                  else [mkGroupLog gid (room_head d gid + 1) None "gmsg" cls (gb_payload body) (now e)]) /\
        (forall u, u ∈ recipients -> u ∉ readers ->
           kept active cls (broadcast_wake e body caller d) "gmsg" u ->
           queue_copy new gid "gmsg" u (gb_payload body)) /\
        (forall u x, x ∈ ev -> is_wake_for u x = true ->
           Some u <> caller /\ in_types NEVER_PUSH_TYPES (gb_envelope_type body) = false /\
           (u ∈ readers \/ queue_copy new gid "gmsg" u (gb_payload body)))
  end.
Proof.
  pose proof (send_group_broadcast_inv num hmac_hex secret up e rq body caller d s) as Hinv.
  destruct (send_group_broadcast _ _ _ _ _ _ _ _ _ _) as [[[v d'] s'] ev].
  destruct v as [out|x]; [|done]. cbv zeta.
  destruct Hinv as (u & g & m & seq & -> & Hg & Hm & Hown & Hw & ->).
  pose proof (broadcast_writes_spec e body (cls_for (gb_envelope_type body))
    (capable_members d (gb_group_id body)) (queueable e (member_rows d (gb_group_id body) (capable d)))
    (broadcast_wake e body (Some u) d) d) as Hs.
  cbv zeta in Hs. rewrite Hw in Hs. destruct Hs as (new & E1 & E2 & Hcov & _).
  split.
  - exists u, g. split; [done|]. split; [|done]. apply elem_of_room_members.
    apply find_first_Some in Hm as [Hin Hb]. breflect. eauto.
  - exists new, (if decide (log_readers d (capable_members d (gb_group_id body)) = []) then []
                 else [mkGroupLog (gb_group_id body) (room_head d (gb_group_id body) + 1) None "gmsg"
                         (cls_for (gb_envelope_type body)) (gb_payload body) (now e)]).
    split; [done|]. split; [|split; [done|]].
    { destruct (decide (log_readers _ _ = [])); [rewrite app_nil_r|]; apply E2. }
    split; [done|]. intros v x [Hx|Hx]%elem_of_app Hwk.
    { apply (frames_no_wake _ _ v) in Hx; [congruence|done]. }
    apply (group_pushes_wake _ _ _ _ _ _ v) in Hx as [Hv Hnp]; [|done].
    destruct (wake_targets_spec _ _ _ _ _ _ Hv) as (_ & Hoff & Hne & _).
    split; [done|]. split; [done|]. apply list_elem_of_filter in Hoff as [_ Hrec].
    destruct (decide (v ∈ log_readers d (capable_members d (gb_group_id body)))); [by left|].
    right. apply Hcov; [done|done|]. right. by right.
Qed.

(** ** Examples *)

(** A room with a member who has been away for weeks and still has a phone
    registered. *)
Definition demo_delivery : db :=
  mkDb {[ 1 := mkUser (days 20) 0 None [] false plain_profile; 7 := mkUser 0 0 None [] false plain_profile ]} [] [] ∅ ∅ ∅ [] ∅ ∅
    {[ 9 := mkGroup 1 "all" 0 0 (plain_info "room" 0 None 0) ]}
    [mkGroupMember 9 1 "owner" "" None; mkGroupMember 9 7 "member" "" None] ∅
    [mkDeviceToken 7 "tok" "ios" None] 1 1.

Definition demo_env : env := mkEnv (days 20) (fun _ => false) (fun _ => []) 14 false.

Definition demo_deposit : SealedSendIn unit := mkSealedSendIn 7 "message" None false "ct" None None.

Lemma send_sealed_queues_witness :
  let '(v, d', _, _) := send_sealed (fun (_ : unit) (r : unit) => (Ok true, r)) demo_env demo_deposit
                          demo_delivery tt in
  v = Ok (mkSendOut false true (days 20)) /\ length (offline_messages d') = 1%nat /\ mailbox_ok d'.
Proof.
  pose proof (send_sealed_queues (fun (_ : unit) (r : unit) => (Ok true, r)) demo_env demo_deposit
                demo_delivery tt) as H.
  destruct (send_sealed _ demo_env demo_deposit demo_delivery tt) as [[[v d'] r'] ev] eqn:E.
  assert (Hv : v = Ok (mkSendOut false true (days 20)) /\ length (offline_messages d') = 1%nat)
    by (vm_compute in E; injection E as <- <- _ _; done).
  destruct Hv as [-> Hl]. split; [done|]. split; [done|]. apply H.
  intros r s Hr. by apply not_elem_of_nil in Hr.
Defined.

Lemma send_sealed_wakes_witness :
  let '(v, _, _, ev) := send_sealed (fun (_ : unit) (r : unit) => (Ok true, r)) demo_env demo_deposit
                          demo_delivery tt in
  Push 7 None "message" (Some "ct"%string) [] [] ∈ ev /\ cls_of_body demo_deposit = 1.
Proof.
  pose proof (send_sealed_wakes (fun (_ : unit) (r : unit) => (Ok true, r)) demo_env demo_deposit
                demo_delivery tt 7 (Push 7 None "message" (Some "ct"%string) [] [])) as H.
  destruct (send_sealed _ demo_env demo_deposit demo_delivery tt) as [[[v d'] r'] ev] eqn:E.
  assert (Hin : Push 7 None "message" (Some "ct"%string) [] [] ∈ ev)
    by (vm_compute in E; injection E as _ _ _ <-; apply elem_of_cons; right; by apply list_elem_of_singleton).
  split; [exact Hin|]. apply H; [exact Hin|done].
Defined.

Definition demo_post (ty : string) : GroupSealedSendIn :=
  mkGroupSealedSendIn 9 ty [mkEntry 7 "ct7"] None 1.

Definition demo_group_up : group_up := mkGroupUp true true all_up true.

Lemma key_material_for_all_witness :
  let '(v, d', _, _) :=
    send_group_sealed (pretty : Z -> string) demo_hmac "k" demo_group_up demo_env
      (mkRequest None None) (demo_post "skdm") None demo_delivery (mkLimiter (∅ : store) ∅) in
  v = Ok (mkSendOut false true (days 20)) /\ length (offline_group_messages d') = 1%nat /\
  exists new newlog,
    offline_group_messages d' = offline_group_messages demo_delivery ++ new /\
    (log_copy newlog 9 "skdm" 7 "ct7" \/ queue_copy new 9 "skdm" 7 "ct7").
Proof.
  pose proof (key_material_for_all (pretty : Z -> string) demo_hmac "k" demo_group_up demo_env
      (mkRequest None None) (demo_post "skdm") None demo_delivery (mkLimiter (∅ : store) ∅)
      (mkEntry 7 "ct7")) as H.
  destruct (send_group_sealed _ _ _ _ _ _ _ _ _ _) as [[[v d'] s'] ev] eqn:E.
  assert (Hv : v = Ok (mkSendOut false true (days 20)) /\ length (offline_group_messages d') = 1%nat)
    by (vm_compute in E; injection E as <- <- _ _; done).
  destruct Hv as [-> Hl]. split; [done|]. split; [done|].
  destruct H as (_ & new & newlog & E1 & _ & Hc); [done|by apply list_elem_of_singleton| |eauto].
  apply (bool_decide_eq_true_1 (_ ∈ _)). by vm_compute.
Defined.
