(* ===== verification/OfflineSweep.v ===== *)
(** * The retention sweep

    Models [_sweep_dormant] and [_sweep_once] of
    [src/app/services/offline_queue_sweep.py], and relates what the sweep
    deletes to what the group fan-out decided to keep. *)

From stdpp Require Import base list gmap strings pretty.
From Stdlib Require Import ZArith Lia.
From S2P Require Import Prelude Storage Envelope Redis RateLimit GroupLogStore Gates Delivery.

(** The knobs of the sweep (environment variables with these defaults). *)
Record sweep_config := mkSweepConfig {
  TTL_DAYS : Z;
  DORMANT_DAYS : Z;
  SKNACK_TTL_SECONDS : Z
}.
Definition default_config : sweep_config := mkSweepConfig 30 14 3600.

Definition DORMANT_BATCH : nat := 20000.
Definition DORMANT_MAX_PER_SWEEP : Z := 400000.

(** The WHERE clause of [_DORMANT_SQL]. *)
Definition dormant_row (d : db) (cutoff : Z) (r : OfflineGroupMessage) : bool :=
  match users d !! og_to_uin r with None => true | Some u => last_seen u <? cutoff end
  && negb (bool_decide (og_cls r = Some 2))
  && negb (String.eqb (og_envelope_type r) "skdm").

(** Delete at most [n] of the rows that satisfy a test: the rows left and how
    many went. *)
Fixpoint delete_upto {A} (n : nat) (p : A -> bool) (l : list A) : list A * nat :=
  match l with
  | [] => ([], O)
  | x :: l' =>
      match n with
      | O => (l, O)
      | S n' =>
          if p x then let '(k, c) := delete_upto n' p l' in (k, S c)
          else let '(k, c) := delete_upto n p l' in (x :: k, c)
      end
  end.

(** One batch, in its own transaction. *)
Definition dormant_batch (cutoff : Z) (d : db) : db * nat :=
  let '(l, n) := delete_upto DORMANT_BATCH (dormant_row d cutoff) (offline_group_messages d) in
  (set_offline_group_messages (fun _ => l) d, n).

(** [_sweep_dormant]: the ceiling of a sweep is twenty batches. *)
Fixpoint sweep_dormant (fuel : nat) (cutoff deleted : Z) (d : db) : db * Z :=
  match fuel with
  | O => (d, deleted)
  | S f =>
      if DORMANT_MAX_PER_SWEEP <=? deleted then (d, deleted)
      else
        let '(d', n) := dormant_batch cutoff d in
        if (n <? DORMANT_BATCH)%nat then (d', deleted + Z.of_nat n)
        else sweep_dormant f cutoff (deleted + Z.of_nat n) d'
  end.

Definition sweep_fuel : nat := 20.

Definition is_sknack (ty : string) : bool := String.eqb ty "sknack".

(** [GroupLogCursor] rows whose owner is not in the room any more. *)
Definition is_member (d : db) (gid uin : Z) : bool :=
  existsb (fun m => (gm_group_id m =? gid) && (gm_uin m =? uin)) (group_members d).

(** The statements of [_sweep_once], in order; each is its own transaction. *)
Definition sweep_direct (cutoff : Z) (d : db) : db :=
  set_offline_messages (filter (fun r => cutoff <= om_received_at r)) d.
Definition sweep_group (cutoff : Z) (d : db) : db :=
  set_offline_group_messages (filter (fun r => cutoff <= og_received_at r)) d.
Definition sweep_sknack (cfg : sweep_config) (now : Z) (d : db) : db :=
  if 0 <? SKNACK_TTL_SECONDS cfg then
    set_offline_group_messages (filter (fun r =>
      ~ (is_sknack (og_envelope_type r) = true /\
         og_received_at r < now - seconds (SKNACK_TTL_SECONDS cfg)))) d
  else d.
Definition sweep_log (cfg : sweep_config) (now cutoff : Z) (d : db) : db :=
  let d := set_group_log (filter (fun r => cutoff <= gl_received_at r)) d in
  let d := if 0 <? SKNACK_TTL_SECONDS cfg then
             set_group_log (filter (fun r =>
               ~ (is_sknack (gl_envelope_type r) = true /\
                  gl_received_at r < now - seconds (SKNACK_TTL_SECONDS cfg)))) d
           else d in
  set_group_log_cursors (filter (fun e => is_member d e.1.1.1 e.1.1.2 = true)) d.

Definition sweep_once (cfg : sweep_config) (now : Z) (d : db) : db :=
  let cutoff := now - days (TTL_DAYS cfg) in
  let d := sweep_sknack cfg now (sweep_group cutoff (sweep_direct cutoff d)) in
  let d := if 0 <? DORMANT_DAYS cfg
           then (sweep_dormant sweep_fuel (now - days (DORMANT_DAYS cfg)) 0 d).1 else d in
  sweep_log cfg now cutoff d.

(** ** The batches *)

Lemma delete_upto_spec {A} n (p : A -> bool) l :
  let '(k, c) := delete_upto n p l in
  (forall x, x ∈ k -> x ∈ l) /\ (forall x, x ∈ l -> p x = false -> x ∈ k) /\
  (c <= n)%nat /\ (length l = length k + c)%nat /\
  ((c < n)%nat -> k = filter (fun x => p x = false) l).
Proof.
  revert n. induction l as [|x l IH]; intros n; simpl.
  { destruct n; simpl; repeat split; (done || lia). }
  destruct n as [|n].
  { repeat split; (done || lia). }
  destruct (p x) eqn:E.
  - specialize (IH n). destruct (delete_upto n p l) as [k c]. destruct IH as (H1 & H2 & H3 & H4 & H5).
    split; [set_solver|]. split; [intros y [->|Hy]%elem_of_cons Hp; [congruence|auto]|].
    split; [lia|]. split; [simpl; lia|]. intros Hc. rewrite filter_cons_False by congruence. apply H5. lia.
  - specialize (IH (S n)). destruct (delete_upto (S n) p l) as [k c].
    destruct IH as (H1 & H2 & H3 & H4 & H5).
    split; [set_solver|]. split; [intros y [->|Hy]%elem_of_cons Hp; [set_solver|]; specialize (H2 y Hy Hp); set_solver|].
    split; [lia|]. split; [simpl; lia|]. intros Hc. rewrite filter_cons_True by done. f_equal. auto.
Qed.

(** What a batch does to the table, and that it does nothing else. *)
Lemma dormant_batch_spec cutoff d :
  let '(d', n) := dormant_batch cutoff d in
  d' = set_offline_group_messages (fun _ => offline_group_messages d') d /\
  (forall r, r ∈ offline_group_messages d' -> r ∈ offline_group_messages d) /\
  (forall r, r ∈ offline_group_messages d -> dormant_row d cutoff r = false -> r ∈ offline_group_messages d') /\
  (n <= DORMANT_BATCH)%nat /\ (length (offline_group_messages d) = length (offline_group_messages d') + n)%nat /\
  ((n < DORMANT_BATCH)%nat ->
     forall r, r ∈ offline_group_messages d' -> dormant_row d cutoff r = false).
Proof.
  unfold dormant_batch.
  pose proof (delete_upto_spec DORMANT_BATCH (dormant_row d cutoff) (offline_group_messages d)) as Hd.
  destruct (delete_upto _ _ _) as [l n]. destruct Hd as (H1 & H2 & H3 & H4 & H5). simpl.
  split; [done|]. split; [done|]. split; [done|]. split; [done|]. split; [done|].
  intros Hn r Hr. rewrite (H5 Hn) in Hr. by apply list_elem_of_filter in Hr as [? _].
Qed.

Lemma DORMANT_BATCH_val : Z.of_nat DORMANT_BATCH = 20000.
Proof. by vm_compute. Qed.

#[global] Opaque DORMANT_BATCH.

Lemma sweep_dormant_spec fuel cutoff deleted d :
  let '(d', _) := sweep_dormant fuel cutoff deleted d in
  d' = set_offline_group_messages (fun _ => offline_group_messages d') d /\
  (forall r, r ∈ offline_group_messages d' -> r ∈ offline_group_messages d) /\
  (forall r, r ∈ offline_group_messages d -> dormant_row d cutoff r = false -> r ∈ offline_group_messages d').
Proof.
  revert deleted d. induction fuel as [|f IH]; intros deleted d; cbn [sweep_dormant].
  { split; [by destruct d|]. auto. }
  destruct (DORMANT_MAX_PER_SWEEP <=? deleted); [split; [by destruct d|]; auto|].
  pose proof (dormant_batch_spec cutoff d) as Hb. destruct (dormant_batch cutoff d) as [d1 n].
  destruct Hb as (E1 & H1 & H2 & _). destruct (n <? DORMANT_BATCH)%nat; [done|].
  specialize (IH (deleted + Z.of_nat n) d1). destruct (sweep_dormant f cutoff _ d1) as [d' m].
  destruct IH as (E2 & H3 & H4).
  assert (Hsame : forall r, dormant_row d1 cutoff r = dormant_row d cutoff r).
  { intros r. unfold dormant_row. rewrite E1. done. }
  split; [rewrite E2, E1; done|]. split; [auto|]. intros r Hr Hd. apply H4; [auto|]. by rewrite Hsame.
Qed.

(** Below the ceiling of a sweep nothing dormant is left. *)
Lemma sweep_dormant_complete fuel cutoff deleted d r :
  0 <= deleted -> (Z.of_nat (length (offline_group_messages d)) + deleted < DORMANT_MAX_PER_SWEEP)%Z ->
  (length (offline_group_messages d) < fuel * DORMANT_BATCH)%nat ->
  r ∈ offline_group_messages (sweep_dormant fuel cutoff deleted d).1 -> dormant_row d cutoff r = false.
Proof.
  revert deleted d. induction fuel as [|f IH]; intros deleted d Hd0 Hmax Hf; [lia|]. cbn [sweep_dormant].
  destruct (Z.leb_spec DORMANT_MAX_PER_SWEEP deleted); [lia|].
  pose proof (dormant_batch_spec cutoff d) as Hb. destruct (dormant_batch cutoff d) as [d1 n].
  destruct Hb as (E1 & H1 & H2 & Hn & Hlen & Hfew).
  destruct (n <? DORMANT_BATCH)%nat eqn:En; breflect; [simpl; auto|].
  intros Hr. assert (Hsame : dormant_row d1 cutoff r = dormant_row d cutoff r).
  { unfold dormant_row. rewrite E1. done. }
  rewrite <-Hsame. apply (IH (deleted + Z.of_nat n) d1); [lia|lia|lia|done].
Qed.

(** ** What a sweep leaves *)

(** A row the sweep has no reason to delete. *)
Definition fresh_row (cfg : sweep_config) (now : Z) (received_at : Z) (ty : string) : Prop :=
  now - days (TTL_DAYS cfg) <= received_at /\
  (0 < SKNACK_TTL_SECONDS cfg -> is_sknack ty = true ->
   now - seconds (SKNACK_TTL_SECONDS cfg) <= received_at).

Lemma sweep_once_parts cfg now d :
  let d1 := sweep_sknack cfg now (sweep_group (now - days (TTL_DAYS cfg))
              (sweep_direct (now - days (TTL_DAYS cfg)) d)) in
  offline_messages d1 = filter (fun r => now - days (TTL_DAYS cfg) <= om_received_at r) (offline_messages d) /\
  users d1 = users d /\ group_members d1 = group_members d /\
  group_log d1 = group_log d /\ group_log_cursors d1 = group_log_cursors d /\
  (forall r, r ∈ offline_group_messages d1 <->
     r ∈ offline_group_messages d /\ fresh_row cfg now (og_received_at r) (og_envelope_type r)).
Proof.
  cbv zeta. unfold sweep_sknack, fresh_row. destruct (0 <? SKNACK_TTL_SECONDS cfg) eqn:E; breflect;
    repeat (split; [done|]); intros r; simpl; rewrite !list_elem_of_filter.
  - split.
    + intros (Hs & Ht & Hr). split; [done|]. split; [done|]. intros _ Hk. destruct (Z.lt_ge_cases
        (og_received_at r) (now - seconds (SKNACK_TTL_SECONDS cfg))); [|lia]. exfalso. apply Hs. done.
    + intros (Hr & Ht & Hk). split; [|done]. intros [Hs Hlt]. specialize (Hk E Hs). lia.
  - split; [intros [? ?]; split; [done|]; split; [done|lia]|tauto].
Qed.

(** The dormant rule, when it is switched on. *)
Definition dormant_pass (cfg : sweep_config) (now : Z) (d : db) : db :=
  if 0 <? DORMANT_DAYS cfg
  then (sweep_dormant sweep_fuel (now - days (DORMANT_DAYS cfg)) 0 d).1 else d.

Lemma dormant_pass_spec cfg now d :
  let d' := dormant_pass cfg now d in
  d' = set_offline_group_messages (fun _ => offline_group_messages d') d /\
  (forall r, r ∈ offline_group_messages d' -> r ∈ offline_group_messages d) /\
  (forall r, r ∈ offline_group_messages d ->
     (0 < DORMANT_DAYS cfg -> dormant_row d (now - days (DORMANT_DAYS cfg)) r = false) ->
     r ∈ offline_group_messages d').
Proof.
  cbv zeta. unfold dormant_pass.
  destruct (Z.ltb_spec 0 (DORMANT_DAYS cfg)); [|split; [by destruct d|]; auto].
  pose proof (sweep_dormant_spec sweep_fuel (now - days (DORMANT_DAYS cfg)) 0 d) as Hs.
  destruct (sweep_dormant _ _ _ _) as [d' n]. simpl. destruct Hs as (Ha & Hb & Hc). auto.
Qed.

Lemma sweep_log_spec cfg now d :
  let d' := sweep_log cfg now (now - days (TTL_DAYS cfg)) d in
  offline_messages d' = offline_messages d /\ offline_group_messages d' = offline_group_messages d /\
  (forall r, r ∈ group_log d' <-> r ∈ group_log d /\ fresh_row cfg now (gl_received_at r) (gl_envelope_type r)) /\
  (forall g u dev c, group_log_cursors d' !! (g, u, dev) = Some c <->
     group_log_cursors d !! (g, u, dev) = Some c /\
     exists m, m ∈ group_members d /\ gm_group_id m = g /\ gm_uin m = u).
Proof.
  cbv zeta. unfold sweep_log. set (d3 := if 0 <? SKNACK_TTL_SECONDS cfg then _ else _).
  assert (G : offline_messages d3 = offline_messages d /\
              offline_group_messages d3 = offline_group_messages d /\
              group_log_cursors d3 = group_log_cursors d /\ group_members d3 = group_members d)
    by (unfold d3; by destruct (0 <? _)).
  destruct G as (G1 & G2 & G3 & G4). simpl. split; [done|]. split; [done|]. split.
  - intros r. unfold d3, fresh_row.
    destruct (Z.ltb_spec 0 (SKNACK_TTL_SECONDS cfg)); simpl; rewrite !list_elem_of_filter.
    + split.
      * intros (Hs & Ht & Hr). split; [done|]. split; [done|]. intros _ Hk.
        destruct (Z.lt_ge_cases (gl_received_at r) (now - seconds (SKNACK_TTL_SECONDS cfg))); [|lia].
        exfalso. apply Hs. done.
      * intros (Hr & Ht & Hk). split; [|done]. intros [Hs Hlt]. specialize (Hk H Hs). lia.
    + split; [intros [? ?]; split; [done|]; split; [done|lia]|tauto].
  - intros g u dev c. rewrite map_lookup_filter_Some. simpl. unfold is_member. rewrite G3, G4, existsb_elem.
    split.
    + intros [Hc (m & Hm & Hb)]. breflect. eauto.
    + intros [Hc (m & Hm & <- & <-)]. split; [done|]. exists m. by rewrite !Z.eqb_refl.
Qed.

(** What the sweep deletes is what it announces.  A 1:1 envelope stays for
    exactly the retention window.  A group copy inside its window stays if it is
    key material (class 2, or an skdm of the old table), or if its recipient has
    been seen inside the dormant window; nothing outside its window stays, and
    nothing is added.  The room log has the same window for everyone, and a
    cursor stays exactly as long as its owner is in the room. *)
Theorem sweep_once_retention cfg now d :
  let d' := sweep_once cfg now d in
  offline_messages d' = filter (fun r => now - days (TTL_DAYS cfg) <= om_received_at r) (offline_messages d) /\
  (forall r, r ∈ offline_group_messages d' ->
     r ∈ offline_group_messages d /\ fresh_row cfg now (og_received_at r) (og_envelope_type r)) /\
  (forall r, r ∈ offline_group_messages d -> fresh_row cfg now (og_received_at r) (og_envelope_type r) ->
     og_cls r = Some 2 \/ og_envelope_type r = "skdm"%string \/ DORMANT_DAYS cfg <= 0 \/
     (exists u, users d !! og_to_uin r = Some u /\ now - days (DORMANT_DAYS cfg) <= last_seen u) ->
     r ∈ offline_group_messages d') /\
  (forall r, r ∈ group_log d' <-> r ∈ group_log d /\ fresh_row cfg now (gl_received_at r) (gl_envelope_type r)) /\
  (forall g u dev c, group_log_cursors d' !! (g, u, dev) = Some c <->
     group_log_cursors d !! (g, u, dev) = Some c /\
     exists m, m ∈ group_members d /\ gm_group_id m = g /\ gm_uin m = u).
Proof.
  cbv zeta. unfold sweep_once.
  destruct (sweep_once_parts cfg now d) as (E1 & E2 & E3 & E4 & E5 & Hg).
  set (d1 := sweep_sknack _ _ _) in *. change (if 0 <? DORMANT_DAYS cfg then _ else d1) with (dormant_pass cfg now d1).
  destruct (dormant_pass_spec cfg now d1) as (Ed & Hsub & Hkeep).
  set (d2 := dormant_pass cfg now d1) in *. clearbody d2.
  destruct (sweep_log_spec cfg now d2) as (G1 & G2 & Hlog & Hcur).
  rewrite G1, G2. split; [by rewrite Ed, <-E1|]. split; [|split; [|split]].
  - intros r Hr. apply Hsub in Hr. by apply Hg.
  - intros r Hr Hf Hor. apply Hkeep; [by apply Hg|]. intros Hpos. unfold dormant_row. rewrite E2.
    destruct Hor as [->|[->|[?|(u & -> & Hu)]]]; [|by rewrite andb_false_r|lia|].
    + rewrite bool_decide_eq_true_2 by done. by rewrite andb_false_r.
    + by destruct (Z.ltb_spec (last_seen u) (now - days (DORMANT_DAYS cfg))); [lia|].
  - intros r. rewrite Hlog. by rewrite <-E4, Ed.
  - intros g u dev c. rewrite Hcur. by rewrite <-E5, <-E3, Ed.
Qed.

(** ** The sweep against the fan-out *)

Lemma sweep_once_dormant cfg t d r u row :
  0 < DORMANT_DAYS cfg -> Z.of_nat (length (offline_group_messages d)) < DORMANT_MAX_PER_SWEEP ->
  users d !! u = Some row -> last_seen row < t - days (DORMANT_DAYS cfg) -> og_to_uin r = u ->
  og_cls r <> Some 2 -> og_envelope_type r <> "skdm"%string ->
  r ∉ offline_group_messages (sweep_once cfg t d).
Proof.
  intros Hpos Hmax Hu Hseen Hto Hcls Hty Hin. unfold sweep_once in Hin.
  destruct (sweep_once_parts cfg t d) as (_ & E2 & _ & _ & _ & Hg).
  set (d1 := sweep_sknack _ _ _) in *.
  destruct (Z.ltb_spec 0 (DORMANT_DAYS cfg)); [|lia].
  assert (Hin' : r ∈ offline_group_messages
                   (sweep_dormant sweep_fuel (t - days (DORMANT_DAYS cfg)) 0 d1).1).
  { revert Hin. unfold sweep_log. by destruct (0 <? SKNACK_TTL_SECONDS cfg). }
  assert (Hlen : (length (offline_group_messages d1) <= length (offline_group_messages d))%nat).
  { unfold d1, sweep_sknack, sweep_group, sweep_direct. destruct (0 <? _); simpl.
    - etrans; apply length_filter.
    - apply length_filter. }
  pose proof DORMANT_BATCH_val as Hb.
  unfold DORMANT_MAX_PER_SWEEP in Hmax.
  apply sweep_dormant_complete in Hin';
    [|lia|unfold DORMANT_MAX_PER_SWEEP; lia|unfold sweep_fuel; lia].
  unfold dormant_row in Hin'. rewrite E2, Hto, Hu in Hin'.
  destruct (Z.ltb_spec (last_seen row) (t - days (DORMANT_DAYS cfg))); [|lia].
  rewrite bool_decide_eq_false_2 in Hin' by done.
  destruct (String.eqb_spec (og_envelope_type r) "skdm"); done.
Qed.

(** The promise of the fan-out does not outlive the sweep: the copy it
    stores for a member it wakes although they have been away longer than the
    dormant window is deleted by the next sweep, before the retention window is
    over and without the member having read it. *)
Theorem woken_copy_reaped {R} `{RR : Redis R} num hmac_hex secret up e rq body caller d (s : limiter R)
    out d' s' ev u x row cfg t :
  send_group_sealed num hmac_hex secret up e rq body caller d s = (Ok out, d', s', ev) ->
  x ∈ ev -> is_wake_for u x = true ->
  u ∉ log_readers d (map gp_to_uin (sealed_entries d body)) ->
  users d !! u = Some row -> last_seen row < now e - days (dormant_days e) ->
  0 < dormant_days e -> DORMANT_DAYS cfg = dormant_days e -> now e <= t ->
  Z.of_nat (length (offline_group_messages d')) < DORMANT_MAX_PER_SWEEP ->
  exists copy, copy ∈ offline_group_messages d' /\ og_to_uin copy = u /\
    og_group_id copy = gs_group_id body /\ og_envelope_type copy = gs_envelope_type body /\
    copy ∉ offline_group_messages (sweep_once cfg t d').
Proof.
  intros Hsend Hx Hw Hr Hu Hseen Hdd Hcfg Ht Hmax.
  pose proof (send_group_sealed_inv num hmac_hex secret up e rq body caller d s) as Hinv.
  rewrite Hsend in Hinv. destruct Hinv as (_ & _ & -> & ->).
  apply elem_of_app in Hx as [Hx|Hx]; [apply (frames_no_wake _ _ u) in Hx; [congruence|done]|].
  apply (group_pushes_wake _ _ _ _ _ _ u) in Hx as [Hwk _]; [|done].
  destruct (wake_targets_spec _ _ _ _ _ _ Hwk) as (Hcls & Hoff & _).
  apply list_elem_of_filter in Hoff as [_ (y & -> & Hy)%list_elem_of_fmap].
  destruct (sealed_writes_spec e body (cls_for (gs_envelope_type body)) (sealed_entries d body)
     (queueable e (member_rows d (gs_group_id body) (fun _ => true))) (sealed_wake e body caller d) d)
    as (new & newlog & E1 & E2 & Hcov & Hnew & _ & Eus).
  specialize (Hcov y Hy). destruct (decide (gp_to_uin y ∈ _)); [done|].
  destruct Hcov as (copy & Hin & Hto & Hgid & Hty & _); [right; by right|].
  exists copy. split; [rewrite E1; set_solver|]. split; [done|]. split; [done|]. split; [done|].
  destruct (Hnew copy Hin) as (_ & _ & Hc & _).
  apply (sweep_once_dormant cfg t _ copy (gp_to_uin y) row); try done; try lia.
  - by rewrite Eus.
  - rewrite Hcfg. lia.
  - rewrite Hc, Hcls. done.
  - rewrite Hty. intros E. rewrite E in Hcls. done.
Qed.

(** ** Example: the member of [demo_delivery], away for twenty days *)

Definition demo_sent : outcome SendOut * db * limiter store * list event :=
  send_group_sealed (pretty : Z -> string) demo_hmac "k" demo_group_up demo_env
    (mkRequest None None) (demo_post "message") None demo_delivery (mkLimiter (∅ : store) ∅).

Lemma woken_copy_reaped_witness :
  length (offline_group_messages demo_sent.1.1.2) = 1%nat /\
  exists copy, copy ∈ offline_group_messages demo_sent.1.1.2 /\ og_to_uin copy = 7 /\
    og_group_id copy = 9 /\ og_envelope_type copy = "message"%string /\
    copy ∉ offline_group_messages (sweep_once default_config (days 20 + hours 6) demo_sent.1.1.2).
Proof.
  split; [by vm_compute|].
  assert (Hs : demo_sent = (Ok (mkSendOut false true (days 20)), demo_sent.1.1.2, demo_sent.1.2, demo_sent.2))
    by (vm_compute; reflexivity).
  apply (woken_copy_reaped (pretty : Z -> string) demo_hmac "k" demo_group_up demo_env
    (mkRequest None None) (demo_post "message") None demo_delivery (mkLimiter (∅ : store) ∅)
    (mkSendOut false true (days 20)) demo_sent.1.1.2 demo_sent.1.2 demo_sent.2 7
    (Push 7 (Some 9) "message" (Some "ct7"%string) [] []) (mkUser 0 0 None [] false plain_profile)
    default_config (days 20 + hours 6)); [exact Hs| |done| |done|done|done|done|done|by vm_compute].
  - assert (demo_sent.2 = [Frame 7 "message" "ct7" (Some 9) None None;
                           Push 7 (Some 9) "message" (Some "ct7"%string) [] []]) as ->
      by (vm_compute; reflexivity).
    apply elem_of_cons. right. by apply list_elem_of_singleton.
  - apply (bool_decide_eq_true_1 (_ ∉ _)). by vm_compute.
Defined.
