(* ===== verification/Bytes.v ===== *)
(** * Bytes: big-endian integers, base64 and hexadecimal

    A byte string is a list of integers in [0, 256).  Models what
    [src/app/core/deposit_auth.py] uses of Python's [int] and [base64]:
    [_i2osp], [_os2ip], [int.bit_length], [base64.b64encode], [base64.b64decode]
    (not validating: characters outside the alphabet are skipped) and
    [hexdigest]. *)

From stdpp Require Import base list strings.
From Stdlib Require Import ZArith Lia Ascii.
From S2P Require Import Prelude.

Notation bytes := (list Z).

Definition byte_ok (c : Z) : Prop := 0 <= c < 256.
Definition bytes_ok (b : bytes) : Prop := Forall byte_ok b.

(** ** Integers *)

(** The last [n] base-256 digits of [x], most significant first. *)
Fixpoint be_bytes (n : nat) (x : Z) : bytes :=
  match n with O => [] | S n' => be_bytes n' (x / 256) ++ [x mod 256] end.

(** [x.to_bytes(length, "big")] *)
Definition i2osp (x : Z) (len : Z) : outcome bytes :=
  if x <? 0 then Raise (OverflowError "can't convert negative int to unsigned")
  else if 256 ^ len <=? x then Raise (OverflowError "int too big to convert")
  else Ok (be_bytes (Z.to_nat len) x).

(** [int.from_bytes(b, "big")] *)
Definition os2ip (b : bytes) : Z := foldl (fun a c => a * 256 + c) 0 b.

(** [int.bit_length] of a nonnegative integer. *)
Definition bit_length (n : Z) : Z := if n =? 0 then 0 else Z.log2 n + 1.

(** ** Base64 *)

Definition b64_char (v : Z) : ascii :=
  ascii_of_nat (Z.to_nat
    (if v <? 26 then v + 65 else if v <? 52 then v + 71 else if v <? 62 then v - 4
     else if v =? 62 then 43 else 47)).

Definition b64_value (c : ascii) : option Z :=
  let n := Z.of_nat (nat_of_ascii c) in
  if (65 <=? n) && (n <=? 90) then Some (n - 65)
  else if (97 <=? n) && (n <=? 122) then Some (n - 71)
  else if (48 <=? n) && (n <=? 57) then Some (n + 4)
  else if n =? 43 then Some 62
  else if n =? 47 then Some 63
  else None.

Fixpoint b64encode (b : bytes) : string :=
  match b with
  | [] => EmptyString
  | [x] => String (b64_char (x / 4)) (String (b64_char (x mod 4 * 16)) "==")
  | [x; y] => String (b64_char (x / 4)) (String (b64_char (x mod 4 * 16 + y / 16))
                (String (b64_char (y mod 16 * 4)) "="))
  | x :: y :: z :: b' =>
      String (b64_char (x / 4)) (String (b64_char (x mod 4 * 16 + y / 16))
        (String (b64_char (y mod 16 * 4 + z / 64)) (String (b64_char (z mod 64)) (b64encode b'))))
  end.

(** The decoder's state: how many characters of the current group of four have
    been read, the bits left over from the last one, and the padding seen. *)
Fixpoint b64_scan (s : string) (quad pads left : Z) : option bytes :=
  match s with
  | EmptyString => if quad =? 0 then Some [] else None
  | String c s' =>
      if Ascii.eqb c "=" then
        if 2 <=? quad then
          if 4 <=? quad + (pads + 1) then Some [] else b64_scan s' quad (pads + 1) left
        else b64_scan s' quad pads left
      else
        match b64_value c with
        | None => b64_scan s' quad pads left
        | Some v =>
            if quad =? 0 then b64_scan s' 1 0 v
            else if quad =? 1 then
              option_map (cons (left * 4 + v / 16)) (b64_scan s' 2 0 (v mod 16))
            else if quad =? 2 then
              option_map (cons (left * 16 + v / 4)) (b64_scan s' 3 0 (v mod 4))
            else option_map (cons (left * 64 + v)) (b64_scan s' 0 0 0)
        end
  end.

(** A character outside ASCII is refused wherever it stands. *)
Fixpoint is_ascii (s : string) : bool :=
  match s with
  | EmptyString => true
  | String c s' => (Z.of_nat (nat_of_ascii c) <? 128) && is_ascii s'
  end.

Definition b64decode (s : string) : option bytes :=
  if is_ascii s then b64_scan s 0 0 0 else None.

(** [base64.b64decode(s, validate=True)]: the text has to match
    [[A-Za-z0-9+/]*={0,2}] from end to end before it is decoded. *)
Fixpoint b64_pads (s : string) (n : nat) : bool :=
  match s, n with
  | EmptyString, _ => true
  | String c s', S n' => Ascii.eqb c "=" && b64_pads s' n'
  | String _ _, O => false
  end.
Fixpoint b64_valid (s : string) : bool :=
  match s with
  | EmptyString => true
  | String c s' => match b64_value c with Some _ => b64_valid s' | None => b64_pads s 2 end
  end.
Definition b64decode_strict (s : string) : option bytes :=
  if b64_valid s then b64decode s else None.

(** ** Hexadecimal *)

Definition hex_digit (v : Z) : ascii :=
  ascii_of_nat (Z.to_nat (if v <? 10 then v + 48 else v + 87)).

Fixpoint hexdigest (b : bytes) : string :=
  match b with
  | [] => EmptyString
  | c :: b' => String (hex_digit (c / 16)) (String (hex_digit (c mod 16)) (hexdigest b'))
  end.

(** ** Facts *)

Lemma os2ip_app a b : os2ip (a ++ b) = os2ip a * 256 ^ Z.of_nat (length b) + os2ip b.
Proof.
  induction b as [|c b IH] using rev_ind.
  - rewrite app_nil_r. simpl. unfold os2ip at 3. simpl. lia.
  - unfold os2ip in *. rewrite app_assoc, !foldl_snoc, IH, length_app. simpl.
    replace (Z.of_nat (length b + 1)) with (Z.of_nat (length b) + 1) by lia.
    rewrite Z.pow_add_r by lia. lia.
Qed.

Lemma os2ip_bound b : bytes_ok b -> 0 <= os2ip b < 256 ^ Z.of_nat (length b).
Proof.
  induction b as [|c b IH] using rev_ind; [intros; unfold os2ip; simpl; lia|].
  intros [Hb [Hc _]%Forall_cons]%Forall_app. specialize (IH Hb). red in Hc.
  rewrite os2ip_app, length_app. simpl. unfold os2ip at 2 4. simpl.
  replace (Z.of_nat (length b + 1)) with (Z.of_nat (length b) + 1) by lia.
  rewrite Z.pow_add_r by lia. lia.
Qed.

Lemma length_be_bytes n x : length (be_bytes n x) = n.
Proof. revert x; induction n as [|n IH]; intros x; [done|]. simpl. rewrite length_app, IH. simpl. lia. Qed.

Lemma be_bytes_ok n x : bytes_ok (be_bytes n x).
Proof.
  revert x; induction n as [|n IH]; intros x; [constructor|]. apply Forall_app. split; [apply IH|].
  repeat constructor; apply Z.mod_pos_bound; lia.
Qed.

Lemma os2ip_be_bytes n x : os2ip (be_bytes n x) = x mod 256 ^ Z.of_nat n.
Proof.
  revert x; induction n as [|n IH]; intros x; [simpl; by rewrite Z.mod_1_r|].
  cbn [be_bytes]. rewrite os2ip_app, IH. cbn [length]. unfold os2ip. cbn [foldl].
  replace (Z.of_nat (S n)) with (Z.of_nat n + 1) by lia.
  rewrite Z.pow_add_r, Z.pow_1_r, (Z.mul_comm (256 ^ _)) by lia.
  rewrite (Z.rem_mul_r x) by lia. rewrite ?Z.pow_1_r. change (256 ^ Z.of_nat 1) with 256. lia.
Qed.

(** Encoding an integer in a length that holds it, and reading it back. *)
Lemma i2osp_ok x len :
  0 <= len -> 0 <= x < 256 ^ len ->
  exists b, i2osp x len = Ok b /\ os2ip b = x /\ Z.of_nat (length b) = len /\ bytes_ok b.
Proof.
  intros Hl Hx. unfold i2osp. rewrite (proj2 (Z.ltb_ge x 0)), (proj2 (Z.leb_gt _ x)) by lia.
  eexists. split; [done|]. split_and!; [|rewrite length_be_bytes; lia|apply be_bytes_ok].
  rewrite os2ip_be_bytes, Z2Nat.id, Z.mod_small by lia. done.
Qed.

Lemma bit_length_bounds n : 0 < n -> 2 ^ (bit_length n - 1) <= n < 2 ^ bit_length n.
Proof.
  intros Hn. unfold bit_length. case_cond; breflect; [lia|].
  replace (Z.log2 n + 1 - 1) with (Z.log2 n) by lia. by apply Z.log2_spec.
Qed.

(** A modulus fits in its own number of octets. *)
Lemma mod_len_fits n : 0 < n -> n < 256 ^ ((bit_length n + 7) / 8).
Proof.
  intros Hn. pose proof (bit_length_bounds n Hn) as [_ Hb].
  change 256 with (2 ^ 8). assert (0 <= bit_length n).
  { unfold bit_length. case_cond; pose proof (Z.log2_nonneg n); lia. }
  rewrite <-Z.pow_mul_r by (try apply Z.div_pos; lia).
  eapply Z.lt_le_trans; [apply Hb|]. apply Z.pow_le_mono_r; [lia|].
  pose proof (Z.div_mod (bit_length n + 7) 8). pose proof (Z.mod_pos_bound (bit_length n + 7) 8). lia.
Qed.

(** ** The base64 round trip *)

Lemma b64_value_char v : 0 <= v < 64 -> b64_value (b64_char v) = Some v.
Proof.
  intros Hv. unfold b64_value, b64_char. rewrite nat_ascii_embedding by (repeat case_cond; lia).
  rewrite Z2Nat.id by (repeat case_cond; breflect; lia).
  repeat case_cond; breflect; try (f_equal; lia); try lia.
Qed.

Lemma b64_char_plain v :
  0 <= v < 64 -> Ascii.eqb (b64_char v) "=" = false /\ Z.of_nat (nat_of_ascii (b64_char v)) < 128.
Proof.
  intros Hv. split.
  - apply Ascii.eqb_neq. intros E. pose proof (b64_value_char v Hv) as H. by rewrite E in H.
  - unfold b64_char. rewrite nat_ascii_embedding by (repeat case_cond; lia).
    rewrite Z2Nat.id by (repeat case_cond; breflect; lia). repeat case_cond; breflect; lia.
Qed.

(** One alphabet character, read in any state of the decoder. *)
Lemma b64_scan_char v s quad pads left :
  0 <= v < 64 ->
  b64_scan (String (b64_char v) s) quad pads left =
    if quad =? 0 then b64_scan s 1 0 v
    else if quad =? 1 then option_map (cons (left * 4 + v / 16)) (b64_scan s 2 0 (v mod 16))
    else if quad =? 2 then option_map (cons (left * 16 + v / 4)) (b64_scan s 3 0 (v mod 4))
    else option_map (cons (left * 64 + v)) (b64_scan s 0 0 0).
Proof.
  intros Hv. cbn [b64_scan]. destruct (b64_char_plain v Hv) as [-> _]. by rewrite b64_value_char.
Qed.

(** The defining equation and the bound of every quotient and remainder. *)
Ltac bound_div x n :=
  lazymatch goal with
  | _ : 0 <= x mod n < n |- _ => fail
  | _ => pose proof (Z.div_mod x n ltac:(lia)); pose proof (Z.mod_pos_bound x n ltac:(lia))
  end.
Ltac byte_bounds :=
  repeat match goal with
  | |- context [?x / ?n] => bound_div x n
  | |- context [?x mod ?n] => bound_div x n
  end.

(** Byte strings by threes, as the encoder takes them. *)
Lemma bytes_ind3 (P : bytes -> Prop) :
  P [] -> (forall x, P [x]) -> (forall x y, P [x; y]) ->
  (forall x y z b, P b -> P (x :: y :: z :: b)) -> forall b, P b.
Proof.
  intros H0 H1 H2 H3 b. cut (P b /\ (forall x, P (x :: b)) /\ forall x y, P (x :: y :: b)); [tauto|].
  induction b as [|z b (IH0 & IH1 & IH2)]; [tauto|]. split_and!; auto.
Qed.

Ltac scan_step :=
  rewrite b64_scan_char by (byte_bounds; lia); cbn [Z.eqb Pos.eqb].

Lemma b64_scan_encode b : bytes_ok b -> b64_scan (b64encode b) 0 0 0 = Some b.
Proof.
  induction b as [|x|x y|x y z b IH] using bytes_ind3; intros Hb; [done|..];
    unfold bytes_ok in *; rewrite ?Forall_cons in Hb; unfold byte_ok in * |-; destruct_and! Hb; cbn [b64encode].
  - do 2 scan_step. cbn [b64_scan Ascii.eqb Bool.eqb].
    change (2 <=? 2) with true. change (4 <=? 2 + (0 + 1)) with false.
    change (4 <=? 2 + (0 + 1 + 1)) with true. cbn [option_map].
    do 2 f_equal. byte_bounds. lia.
  - do 3 scan_step. cbn [b64_scan Ascii.eqb Bool.eqb option_map].
    change (2 <=? 3) with true. change (4 <=? 3 + (0 + 1)) with true. cbn [option_map].
    f_equal. f_equal; [byte_bounds; lia|]. f_equal. byte_bounds. lia.
  - do 4 scan_step. rewrite IH by done. cbn [option_map].
    f_equal. f_equal; [byte_bounds; lia|]. f_equal; [byte_bounds; lia|]. f_equal. byte_bounds. lia.
Qed.

Lemma is_ascii_encode b : bytes_ok b -> is_ascii (b64encode b) = true.
Proof.
  induction b as [|x|x y|x y z b IH] using bytes_ind3; intros Hb; [done|..];
    unfold bytes_ok in *; rewrite ?Forall_cons in Hb; unfold byte_ok in * |-; destruct_and! Hb; cbn [b64encode is_ascii];
    repeat (rewrite (proj2 (Z.ltb_lt _ _)) by (apply b64_char_plain; byte_bounds; lia));
    [done|done|by rewrite IH].
Qed.

(** What was encoded is what is decoded. *)
Lemma b64decode_encode b : bytes_ok b -> b64decode (b64encode b) = Some b.
Proof. intros Hb. unfold b64decode. by rewrite is_ascii_encode, b64_scan_encode. Qed.

(** A decoded string is made of bytes. *)
Lemma b64_value_range c v : b64_value c = Some v -> 0 <= v < 64.
Proof. unfold b64_value. intros H. repeat case_cond; breflect; simplify_eq; lia. Qed.

Lemma b64_scan_ok s : forall quad pads left b,
  0 <= quad <= 3 -> 0 <= left -> (quad = 1 -> left < 64) -> (quad = 2 -> left < 16) -> (quad = 3 -> left < 4) ->
  b64_scan s quad pads left = Some b -> bytes_ok b.
Proof.
  induction s as [|c s IH]; intros quad pads left b Hq Hl H1 H2 H3; cbn [b64_scan].
  { case_cond; [|done]. intros [= <-]. constructor. }
  case_cond.
  { case_cond; [|by apply IH]. case_cond; [|by apply IH]. intros [= <-]. constructor. }
  destruct (b64_value c) as [v|] eqn:Ev; [|by apply IH]. apply b64_value_range in Ev.
  assert (Hcons : forall x q l, byte_ok x -> 0 <= q <= 3 -> 0 <= l ->
            (q = 1 -> l < 64) -> (q = 2 -> l < 16) -> (q = 3 -> l < 4) ->
            option_map (cons x) (b64_scan s q 0 l) = Some b -> bytes_ok b).
  { intros x q l Hx ? ? ? ? ?. destruct (b64_scan s q 0 l) as [b'|] eqn:E; simpl; [|done].
    intros [= <-]. constructor; [done|]. by eapply IH. }
  repeat case_cond; breflect; subst.
  - apply IH; lia.
  - apply Hcons; unfold byte_ok; byte_bounds; lia.
  - apply Hcons; unfold byte_ok; byte_bounds; lia.
  - apply Hcons; unfold byte_ok; byte_bounds; lia.
Qed.

Lemma b64decode_ok s b : b64decode s = Some b -> bytes_ok b.
Proof. unfold b64decode. case_cond; [|done]. apply b64_scan_ok; lia. Qed.
