(* ===== verification/DepositAuth.v ===== *)
(** * Blind-signed deposit tokens: the cryptography

    Models [src/app/core/deposit_auth.py]: RSABSSA-SHA384-PSS blinding, the
    issuer's raw RSA signature computed by the Chinese remainder theorem,
    unblinding, token ids and the SHA-256 proof of work.

    The hash functions are parameters (what is used of them: the length of a
    digest), and so is the PSS verification of the [cryptography] package.
    Random draws are inputs: the salt and the prefix as byte strings, the
    blinding factors as the stream [rand] of results of [secrets.randbelow]. *)

From stdpp Require Import base list strings pretty.
From Stdlib Require Import ZArith Lia Znumtheory Zpow_facts Zcong ZmodInv.
From S2P Require Import Prelude Bytes.

Definition MODULUS_BITS : Z := 2048.
Definition SALT_LEN : Z := 48.
Definition RANDOM_PREFIX_LEN : Z := 32.
(** [_HASH().digest_size] *)
Definition H_LEN : Z := 48.

(** The numbers of an RSA private key. *)
Record RSAPrivateKey := mkKey {
  key_n : Z; key_e : Z; key_d : Z; key_p : Z; key_q : Z; dmp1 : Z; dmq1 : Z; iqmp : Z
}.

(** [pow(b, e, n)], and [pow(r, -1, n)], which raises when [r] has no inverse. *)
Definition pow_mod (b e n : Z) : Z := Zpow_mod b e n.
Definition pow_inv (r n : Z) : outcome Z :=
  if Z.gcd r n =? 1 then Ok (Z.invmod r n) else Raise (ValueError "base is not invertible").

Section crypto.
Context (sha384 sha256 : bytes -> bytes).

(** ** EMSA-PSS *)

(** The [while len(out) < length] loop; a digest is not empty, so that each
    turn brings the end nearer. *)
Fixpoint mgf1_loop (fuel : nat) (seed : bytes) (len : Z) (out : bytes) (counter : Z) : outcome bytes :=
  if len <=? Z.of_nat (length out) then Ok out
  else
    match fuel with
    | O => Raise (RuntimeError "out of fuel")
    | S f =>
        let! c := i2osp counter 4 in
        mgf1_loop f seed len (out ++ sha384 (seed ++ c)) (counter + 1)
    end.

Definition mgf1 (seed : bytes) (len : Z) : outcome bytes :=
  let! out := mgf1_loop (Z.to_nat len) seed len [] 0 in
  Ok (take (Z.to_nat len) out).

(** [masked_db[0] &= 0xFF >> clear] *)
Definition clear_top (clear : Z) (b : bytes) : outcome bytes :=
  if clear =? 0 then Ok b
  else
    match b with
    | [] => Raise (IndexError "bytearray index out of range")
    | c :: b' => Ok (Z.land c (Z.shiftr 255 clear) :: b')
    end.

Definition emsa_pss_encode (msg : bytes) (em_bits : Z) (salt : bytes) : outcome bytes :=
  let em_len := (em_bits + 7) / 8 in
  let m_hash := sha384 msg in
  if em_len <? H_LEN + SALT_LEN + 2 then Raise (ValueError "encoding error: modulus too small")
  else
    let m_prime := replicate 8 0 ++ m_hash ++ salt in
    let h := sha384 m_prime in
    let ps := replicate (Z.to_nat (em_len - SALT_LEN - H_LEN - 2)) 0 in
    let db := ps ++ [1] ++ salt in
    let! db_mask := mgf1 h (em_len - H_LEN - 1) in
    let masked_db := zip_with Z.lxor db db_mask in
    let! masked_db := clear_top (8 * em_len - em_bits) masked_db in
    Ok (masked_db ++ h ++ [188]).

(** ** Blind, sign, finalize *)

Definition prepare (prefix msg : bytes) : bytes := prefix ++ msg.

(** The [while True] loop that looks for an invertible [r]: [rand i] is the
    i-th result of [secrets.randbelow(n - 1)]. *)
Fixpoint draw_r (fuel i : nat) (n : Z) (rand : nat -> Z) : outcome (Z * Z) :=
  match fuel with
  | O => Raise (RuntimeError "out of fuel")
  | S f =>
      let r := rand i + 1 in
      match pow_inv r n with
      | Ok r_inv => Ok (r, r_inv)
      | Raise _ => draw_r f (S i) n rand
      end
  end.

Definition mod_len (n : Z) : Z := (bit_length n + 7) / 8.

(** [x = (m * pow(r, e, n)) % n; _i2osp(x, mod_len)] *)
Definition blind_int (n e m r : Z) : outcome bytes :=
  i2osp ((m * pow_mod r e n) mod n) (mod_len n).

(** [s = (y * blind_inv) % n; _i2osp(s, mod_len)] *)
Definition unblind_int (n : Z) (blind_sig : bytes) (blind_inv : Z) : outcome bytes :=
  i2osp ((os2ip blind_sig * blind_inv) mod n) (mod_len n).

Definition blind (fuel : nat) (n e : Z) (prepared salt : bytes) (rand : nat -> Z)
    : outcome (bytes * Z) :=
  let! em := emsa_pss_encode prepared (bit_length n - 1) salt in
  let m := os2ip em in
  if n <=? m then Raise (ValueError "encoded message not < modulus")
  else
    let! (r, r_inv) := draw_r fuel 0 n rand in
    let! b := blind_int n e m r in
    Ok (b, r_inv).

Definition blind_sign (blinded : bytes) (priv : RSAPrivateKey) : outcome bytes :=
  let n := key_n priv in
  let x := os2ip blinded in
  if negb ((0 <=? x) && (x <? n)) then Raise (ValueError "blinded value out of range")
  else
    let p := key_p priv in
    let q := key_q priv in
    let m1 := pow_mod (x mod p) (dmp1 priv) p in
    let m2 := pow_mod (x mod q) (dmq1 priv) q in
    let h := (iqmp priv * (m1 - m2)) mod p in
    let y := (m2 + h * q) mod n in
    i2osp y (mod_len n).

(** [public_key.verify(sig, prepared, PSS(...), SHA384)] does not raise. *)
Context (pss_verify : Z * Z -> bytes -> bytes -> bool).

Definition verify (public_key : Z * Z) (prepared sig : bytes) : bool :=
  pss_verify public_key prepared sig.

Definition finalize (blind_sig : bytes) (blind_inv : Z) (public_key : Z * Z) (prepared : bytes)
    : outcome bytes :=
  let! sig := unblind_int public_key.1 blind_sig blind_inv in
  if negb (verify public_key prepared sig)
  then Raise (ValueError "finalize produced an invalid signature")
  else Ok sig.

(** ** Identifiers *)

Definition token_id (prepared sig : bytes) : string := hexdigest (sha256 (prepared ++ sig)).

Definition epoch_id (public_key : Z * Z) : outcome string :=
  let n := public_key.1 in
  let! n_bytes := i2osp n (mod_len n) in
  Ok (String.substring 0 16 (hexdigest (sha256 n_bytes))).

(** ** Proof of work *)

Fixpoint leading_zero_bits (digest : bytes) : Z :=
  match digest with
  | [] => 0
  | byte :: rest => if byte =? 0 then 8 + leading_zero_bits rest else 8 - bit_length byte
  end.

(** [f"{challenge}:{nonce}".encode()] *)
Definition encode (s : string) : bytes := map (fun c => Z.of_nat (Ascii.nat_of_ascii c)) (String.list_ascii_of_string s).

Definition verify_pow (challenge nonce : string) (difficulty_bits : Z) : bool :=
  difficulty_bits <=? leading_zero_bits (sha256 (encode (challenge ++ ":" ++ nonce))).

(** The reference solver: counts up from zero. *)
Fixpoint solve_pow (fuel : nat) (counter : Z) (challenge : string) (difficulty_bits : Z) : outcome string :=
  match fuel with
  | O => Raise (RuntimeError "out of fuel")
  | S f =>
      if verify_pow challenge (pretty counter) difficulty_bits then Ok (pretty counter)
      else solve_pow f (counter + 1) challenge difficulty_bits
  end.
End crypto.

(** ** Arithmetic of the key *)

(** What [rsa.generate_private_key] returns: two odd primes, exponents that
    are inverse to each other modulo [p - 1] and [q - 1], and their reductions. *)
Record rsa_ok (k : RSAPrivateKey) : Prop := {
  ok_p : Z.prime (key_p k);
  ok_q : Z.prime (key_q k);
  ok_p2 : 2 < key_p k;
  ok_q2 : 2 < key_q k;
  ok_pq : key_p k <> key_q k;
  ok_n : key_n k = key_p k * key_q k;
  ok_e : 0 < key_e k;
  ok_d : 0 < key_d k;
  ok_edp : (key_e k * key_d k) mod (key_p k - 1) = 1;
  ok_edq : (key_e k * key_d k) mod (key_q k - 1) = 1;
  ok_dmp1 : dmp1 k = key_d k mod (key_p k - 1);
  ok_dmq1 : dmq1 k = key_d k mod (key_q k - 1);
  ok_iqmp : (iqmp k * key_q k) mod key_p k = 1
}.

Lemma pow_mod_spec b e n : n <> 0 -> pow_mod b e n = b ^ e mod n.
Proof. apply Zpow_mod_correct. Qed.

Lemma pow_inv_Ok r n i : 0 < n -> pow_inv r n = Ok i -> Z.coprime r n /\ (r * i) mod n = 1 mod n.
Proof.
  unfold pow_inv. intros Hn. case_cond; [|done]. intros [= <-]. breflect. split; [done|].
  rewrite Z.mul_comm. by apply Z.invmod_coprime'.
Qed.

(** Exponents count modulo [p - 1], as long as they are positive. *)
Lemma pow_period p x a b :
  Z.prime p -> 0 < a -> 0 < b -> a mod (p - 1) = b mod (p - 1) -> x ^ a mod p = x ^ b mod p.
Proof.
  intros Hp. revert a b. pose proof (Z.prime_ge_2 _ Hp) as Hp2.
  assert (Hup : forall a k, 0 < a -> 0 <= k -> x ^ (a + k * (p - 1)) mod p = x ^ a mod p).
  { intros a k Ha Hk. destruct (decide (x mod p = 0)) as [H0|H0].
    - rewrite <-!(Z.mod_pow_l x), H0, !Z.pow_0_l by nia. done.
    - rewrite Z.pow_add_r, (Z.mul_comm k), Z.pow_mul_r by nia.
      rewrite <-Z.mul_mod_idemp_r, <-Z.mod_pow_l, Z.fermat_nz, Z.pow_1_l by (done || lia).
      rewrite Z.mul_mod_idemp_r, Z.mul_1_r by lia. done. }
  assert (Hlow : forall a, 0 < a -> x ^ a mod p = x ^ ((a - 1) mod (p - 1) + 1) mod p).
  { intros a Ha. pose proof (Z.div_mod (a - 1) (p - 1) ltac:(lia)) as E.
    pose proof (Z.mod_pos_bound (a - 1) (p - 1) ltac:(lia)).
    rewrite <-(Hup ((a - 1) mod (p - 1) + 1) ((a - 1) / (p - 1)))
      by (try apply Z.div_pos; lia). do 2 f_equal. lia. }
  intros a b Ha Hb Hab. rewrite (Hlow a Ha), (Hlow b Hb). do 3 f_equal.
  rewrite Zminus_mod, Hab, <-Zminus_mod. done.
Qed.

(** Two congruences modulo coprime moduli make one modulo the product. *)
Lemma cong_product p q a b :
  Z.coprime p q -> 0 <= p -> 0 <= q ->
  a mod p = b mod p -> a mod q = b mod q -> a mod (p * q) = b mod (p * q).
Proof.
  intros Hc Hp Hq H1 H2.
  rewrite (Z.combinecong_complete_coprime_nonneg_nonneg a p q b b) by done.
  symmetry. by apply Z.combinecong_complete_coprime_nonneg_nonneg.
Qed.

Lemma primes_coprime p q : Z.prime p -> Z.prime q -> p <> q -> Z.coprime p q.
Proof.
  intros Hp Hq Hne. apply Z.coprime_prime_l; [done|]. intros Hd.
  by apply Hne, Z.divide_prime_prime.
Qed.

Lemma rsa_pos k : rsa_ok k -> 1 < key_n k.
Proof. intros []. nia. Qed.

(** Encrypting what was signed gives back the message. *)
Lemma rsa_inverse k x : rsa_ok k -> (x ^ key_d k) ^ key_e k mod key_n k = x mod key_n k.
Proof.
  intros [Hp Hq Hp2 Hq2 Hpq Hn He Hd Hedp Hedq _ _ _]. rewrite Hn, <-Z.pow_mul_r by lia.
  apply cong_product; [by apply primes_coprime|lia|lia|..];
    (etrans; [apply (pow_period _ _ _ 1); try done; try nia|by rewrite Z.pow_1_r]);
    rewrite Z.mul_comm, Z.mod_1_l by lia; done.
Qed.

(** Garner's recombination: the value it builds is right modulo both primes. *)
Lemma garner p q i m1 m2 :
  0 < p -> (i * q) mod p = 1 mod p ->
  let y := m2 + (i * (m1 - m2)) mod p * q in
  y mod p = m1 mod p /\ y mod q = m2 mod q.
Proof.
  intros Hp Hi y. unfold y. split; [|by rewrite Z_mod_plus_full].
  rewrite Z.mul_comm, <-Z.add_mod_idemp_r, Z.mul_mod_idemp_r by lia.
  replace (q * (i * (m1 - m2))) with (i * q * (m1 - m2)) by ring.
  rewrite <-Z.mul_mod_idemp_l, Hi, Z.mul_mod_idemp_l by lia.
  rewrite Z.add_mod_idemp_r by lia. f_equal. ring.
Qed.

(** The exponent a prime is given leads to the same power as [d]. *)
Lemma crt_exponent p x d :
  Z.prime p -> 2 < p -> 0 < d -> (forall e, e * d mod (p - 1) = 1 -> d mod (p - 1) <> 0) ->
  forall e, e * d mod (p - 1) = 1 -> (x mod p) ^ (d mod (p - 1)) mod p = x ^ d mod p.
Proof.
  intros Hp H2 Hd Hnz e He. rewrite Z.mod_pow_l. apply pow_period; [done|..].
  - pose proof (Z.mod_pos_bound d (p - 1) ltac:(lia)). specialize (Hnz e He). lia.
  - done.
  - apply Zmod_mod.
Qed.

(** The signature the issuer computes is the plain RSA one. *)
Lemma blind_sign_power k blinded :
  rsa_ok k -> 0 <= os2ip blinded < key_n k ->
  blind_sign blinded k = i2osp (os2ip blinded ^ key_d k mod key_n k) (mod_len (key_n k)).
Proof.
  intros Hk Hx. destruct Hk as [Hp Hq Hp2 Hq2 Hpq Hn He Hd Hedp Hedq Hdp Hdq Hi]. unfold blind_sign. set (x := os2ip blinded) in *.
  rewrite (proj2 (Z.leb_le 0 x)), (proj2 (Z.ltb_lt x _)) by lia. cbn [negb andb]. f_equal.
  rewrite !pow_mod_spec, Hdp, Hdq, Hn by lia.
  assert (Hnz : forall m e, 2 < m -> e * key_d k mod (m - 1) = 1 -> key_d k mod (m - 1) <> 0).
  { intros m f Hm Hf H0. rewrite <-Z.mul_mod_idemp_r, H0, Z.mul_0_r in Hf by lia.
    by rewrite Z.mod_0_l in Hf by lia. }
  rewrite (crt_exponent (key_p k) x (key_d k) Hp Hp2 Hd (fun e => Hnz _ e Hp2) _ Hedp).
  rewrite (crt_exponent (key_q k) x (key_d k) Hq Hq2 Hd (fun e => Hnz _ e Hq2) _ Hedq).
  destruct (garner (key_p k) (key_q k) (iqmp k) (x ^ key_d k mod key_p k) (x ^ key_d k mod key_q k))
    as [Gp Gq]; [lia|by rewrite Hi, Z.mod_1_l by lia|].
  apply cong_product; [by apply primes_coprime|lia|lia|..].
  - by rewrite Gp, Zmod_mod.
  - by rewrite Gq, Zmod_mod.
Qed.

Lemma mod_len_nonneg n : 0 <= mod_len n.
Proof.
  unfold mod_len, bit_length. case_cond; [done|]. pose proof (Z.log2_nonneg n).
  apply Z.div_pos; lia.
Qed.

(** A residue fits in the octets of its modulus. *)
Lemma i2osp_residue x n :
  0 < n -> exists b, i2osp (x mod n) (mod_len n) = Ok b /\ os2ip b = x mod n
             /\ Z.of_nat (length b) = mod_len n /\ bytes_ok b.
Proof.
  intros Hn. apply i2osp_ok; [apply mod_len_nonneg|].
  pose proof (Z.mod_pos_bound x n Hn). pose proof (mod_len_fits n Hn). unfold mod_len. lia.
Qed.

Lemma blind_sign_Ok k blinded :
  rsa_ok k -> 0 <= os2ip blinded < key_n k ->
  exists b, blind_sign blinded k = Ok b /\ os2ip b = os2ip blinded ^ key_d k mod key_n k
    /\ Z.of_nat (length b) = mod_len (key_n k) /\ bytes_ok b.
Proof.
  intros Hk Hx. pose proof (rsa_pos k Hk). rewrite blind_sign_power by done.
  apply i2osp_residue. lia.
Qed.

Lemma blind_sign_range k blinded :
  key_n k <= os2ip blinded -> blind_sign blinded k = Raise (ValueError "blinded value out of range").
Proof. intros Hx. unfold blind_sign. by rewrite (proj2 (Z.ltb_ge _ _) Hx), andb_false_r. Qed.

(** The issuer's signature by the Chinese remainder theorem is the plain
    [x ^ d mod n] it stands for, in as many octets as the modulus has; a value
    that is not below the modulus is refused, and nothing else is. *)
Theorem blind_sign_crt k blinded :
  rsa_ok k -> bytes_ok blinded ->
  (os2ip blinded < key_n k ->
     exists b, blind_sign blinded k = Ok b /\ os2ip b = os2ip blinded ^ key_d k mod key_n k
       /\ Z.of_nat (length b) = mod_len (key_n k)) /\
  (key_n k <= os2ip blinded -> blind_sign blinded k = Raise (ValueError "blinded value out of range")).
Proof.
  intros Hk Hb. pose proof (os2ip_bound _ Hb). split; intros Hx; [|by apply blind_sign_range].
  destruct (blind_sign_Ok k blinded Hk) as (b & ? & ? & ? & _); [lia|]. by exists b.
Qed.

(** Unblinding takes the factor away. *)
Lemma unblind_power k m r r_inv :
  rsa_ok k -> (r * r_inv) mod key_n k = 1 mod key_n k ->
  (((m * (r ^ key_e k mod key_n k)) mod key_n k) ^ key_d k mod key_n k * r_inv) mod key_n k
    = m ^ key_d k mod key_n k.
Proof.
  intros Hk Hinv. pose proof (rsa_pos k Hk). set (n := key_n k) in *.
  assert (He : 0 < key_e k) by apply Hk. assert (Hd : 0 < key_d k) by apply Hk.
  rewrite Z.mod_pow_l, Z.mul_mod_idemp_l, Z.pow_mul_l, <-Z.mul_assoc by lia.
  rewrite <-Z.mul_mod_idemp_r, <-(Z.mul_mod_idemp_l _ r_inv), Z.mod_pow_l by lia.
  rewrite <-Z.pow_mul_r, (Z.mul_comm (key_e k)), Z.pow_mul_r by lia.
  unfold n at 1. rewrite rsa_inverse by done. fold n.
  rewrite Z.mul_mod_idemp_l, Hinv, Z.mul_mod_idemp_r, Z.mul_1_r by lia. done.
Qed.

(** C37. The blind signature works: whatever the message representative and
    the blinding factor, blinding, signing and unblinding gives the signature
    of the message, [m ^ d mod n]: it does not depend on the factor, and it
    verifies, its [e]-th power being the message. *)
Theorem blind_roundtrip k m r r_inv :
  rsa_ok k -> 0 <= m < key_n k -> pow_inv r (key_n k) = Ok r_inv ->
  exists b bs sig,
    blind_int (key_n k) (key_e k) m r = Ok b /\ blind_sign b k = Ok bs /\
    unblind_int (key_n k) bs r_inv = Ok sig /\
    os2ip sig = m ^ key_d k mod key_n k /\ os2ip sig ^ key_e k mod key_n k = m.
Proof.
  intros Hk Hm Hr. pose proof (rsa_pos k Hk) as Hn1. set (n := key_n k) in *.
  apply pow_inv_Ok in Hr as [_ Hinv]; [|lia].
  destruct (i2osp_residue (m * pow_mod r (key_e k) n) n) as (b & Eb & Hb & _ & Hok); [lia|].
  pose proof (Z.mod_pos_bound (m * pow_mod r (key_e k) n) n ltac:(lia)).
  destruct (i2osp_residue (os2ip b ^ key_d k) n) as (bs & Ebs & Hbs & _); [lia|].
  destruct (i2osp_residue (os2ip bs * r_inv) n) as (sig & Esig & Hsig & _); [lia|].
  assert (E : os2ip sig = m ^ key_d k mod n).
  { rewrite Hsig, Hbs, Hb, pow_mod_spec by lia. by apply unblind_power. }
  exists b, bs, sig. split_and!; [done| |done|done|].
  - rewrite blind_sign_power by (fold n; done || lia). done.
  - rewrite E, Z.mod_pow_l. unfold n. rewrite rsa_inverse by done. by rewrite Z.mod_small.
Qed.

(** ** The issuer learns nothing *)

(** A blinded value fits every message: for each message there is a blinding
    factor that produces it. *)
Lemma blind_any k m x :
  rsa_ok k -> Z.coprime m (key_n k) -> Z.coprime x (key_n k) -> 0 <= x < key_n k ->
  exists r, 1 <= r < key_n k /\ Z.coprime r (key_n k) /\
    blind_int (key_n k) (key_e k) m r = i2osp x (mod_len (key_n k)).
Proof.
  intros Hk Hm Hx Hxn. pose proof (rsa_pos k Hk). set (n := key_n k) in *.
  assert (Hd : 0 < key_d k) by apply Hk. assert (He : 0 < key_e k) by apply Hk.
  set (u := x * Z.invmod m n).
  assert (Hu : Z.coprime u n) by (apply Z.coprime_mul_l; [done|by apply Z.coprime_invmod]).
  assert (Hr : Z.coprime (u ^ key_d k mod n) n).
  { apply Z.coprime_mod_l_iff, Z.coprime_pow_l; [lia|done]. }
  exists (u ^ key_d k mod n). split_and!; [|apply Z.mod_pos_bound; lia|done|].
  - pose proof (Z.mod_pos_bound (u ^ key_d k) n ltac:(lia)).
    destruct (decide (u ^ key_d k mod n = 0)) as [E|]; [|lia].
    rewrite E in Hr. rewrite Z.coprime_0_l_iff in Hr. lia.
  - unfold blind_int. rewrite pow_mod_spec by lia. f_equal.
    rewrite Z.mod_pow_l, Z.mul_mod_idemp_r by lia. rewrite <-Z.mul_mod_idemp_r by lia.
    unfold n at 1. rewrite rsa_inverse by done. fold n. rewrite Z.mul_mod_idemp_r by lia.
    unfold u. replace (m * (x * Z.invmod m n)) with (x * (Z.invmod m n * m)) by ring.
    rewrite <-Z.mul_mod_idemp_r, Z.invmod_coprime', Z.mul_mod_idemp_r, Z.mul_1_r by (done || lia).
    by apply Z.mod_small.
Qed.

(** What the issuer signs is unlinkable: a request made for one token
    message is, with another blinding factor, exactly the request some holder
    of any other message would have made. *)
Theorem blind_hides k m1 m2 r1 b :
  rsa_ok k -> Z.coprime m1 (key_n k) -> Z.coprime m2 (key_n k) -> Z.coprime r1 (key_n k) ->
  blind_int (key_n k) (key_e k) m1 r1 = Ok b ->
  exists r2, 1 <= r2 < key_n k /\ Z.coprime r2 (key_n k) /\
    blind_int (key_n k) (key_e k) m2 r2 = Ok b.
Proof.
  intros Hk H1 H2 Hr Hb. pose proof (rsa_pos k Hk). assert (He : 0 < key_e k) by apply Hk.
  unfold blind_int in Hb. rewrite pow_mod_spec in Hb by lia.
  destruct (blind_any k m2 ((m1 * (r1 ^ key_e k mod key_n k)) mod key_n k)) as (r2 & ? & ? & E);
    [done|done| |apply Z.mod_pos_bound; lia|].
  - apply Z.coprime_mod_l_iff, Z.coprime_mul_l; [done|].
    apply Z.coprime_mod_l_iff, Z.coprime_pow_l; [lia|done].
  - exists r2. by rewrite E.
Qed.

(** ** Proof of work *)

Lemma bit_length_le b k : 0 <= b -> 0 <= k -> (bit_length b <= k <-> b < 2 ^ k).
Proof.
  intros Hb Hk. pose proof (Z.pow_pos_nonneg 2 k). unfold bit_length.
  case_cond; breflect; [split; lia|].
  split; intros Hl.
  - apply Z.log2_lt_pow2; lia.
  - apply Z.log2_lt_pow2 in Hl; lia.
Qed.

(** The work is what it says: a digest has at least [k] leading zero bits
    exactly when, read as a number, it is below [2 ^ (8 * len - k)]. *)
Lemma leading_zero_bits_iff digest k :
  bytes_ok digest -> 0 <= k <= 8 * Z.of_nat (length digest) ->
  k <= leading_zero_bits digest <-> os2ip digest < 2 ^ (8 * Z.of_nat (length digest) - k).
Proof.
  revert k. induction digest as [|c b IH]; intros k Hb Hk.
  { simpl in *. replace k with 0 by lia. unfold os2ip. simpl. lia. }
  apply Forall_cons in Hb as [Hc Hb]. red in Hc. pose proof (os2ip_bound _ Hb) as Hbd.
  change (c :: b) with ([c] ++ b). rewrite os2ip_app. cbn [leading_zero_bits app].
  replace (os2ip [c]) with c by (unfold os2ip; simpl; lia).
  cbn [length] in *. set (L := Z.of_nat (length b)) in *.
  replace (Z.of_nat (S (length b))) with (L + 1) in * by lia.
  assert (E8 : 256 ^ L = 2 ^ (8 * L)) by (change 256 with (2 ^ 8); rewrite Z.pow_mul_r; lia).
  case_cond; breflect.
  - subst c. rewrite Z.mul_0_l, Z.add_0_l. destruct (decide (8 <= k)) as [H8|H8].
    + replace (8 * (L + 1) - k) with (8 * L - (k - 8)) by lia. rewrite <-IH by (done || lia). lia.
    + assert (0 <= leading_zero_bits b).
      { apply (proj2 (IH 0 Hb ltac:(lia))). rewrite Z.sub_0_r. lia. }
      split; [intros _|lia]. eapply Z.lt_le_trans; [apply Hbd|]. rewrite E8. apply Z.pow_le_mono_r; lia.
  - assert (Hbl : 1 <= bit_length c).
    { unfold bit_length. case_cond; breflect; [lia|]. pose proof (Z.log2_nonneg c). lia. }
    destruct (decide (k <= 8)) as [H8|H8].
    + transitivity (bit_length c <= 8 - k); [lia|]. rewrite bit_length_le by lia.
      replace (8 * (L + 1) - k) with (8 - k + 8 * L) by lia.
      rewrite Z.pow_add_r, E8 in * by lia. nia.
    + split; [lia|]. intros H. exfalso.
      assert (2 ^ (8 * (L + 1) - k) <= 2 ^ (8 * L)) by (apply Z.pow_le_mono_r; lia). nia.
Qed.

(** ** Blinding never fails on the server's keys *)

Lemma lxor_byte a b : byte_ok a -> byte_ok b -> byte_ok (Z.lxor a b).
Proof.
  unfold byte_ok. intros Ha Hb. change 256 with (2 ^ 8). split; [apply Z.lxor_nonneg; lia|].
  destruct (decide (Z.lxor a b = 0)) as [->|Hne]; [lia|].
  assert (0 <= Z.lxor a b) by (apply Z.lxor_nonneg; lia).
  apply Z.log2_lt_pow2; [lia|]. eapply Z.le_lt_trans; [apply Z.log2_lxor; lia|].
  destruct (decide (a = 0)), (decide (b = 0)); subst; rewrite ?Z.max_lub_lt_iff;
    cbn [Z.log2] in *; repeat split; try lia; apply Z.log2_lt_pow2; lia.
Qed.

Lemma zip_lxor_ok a b : bytes_ok a -> bytes_ok b -> bytes_ok (zip_with Z.lxor a b).
Proof.
  intros Ha. revert b. induction Ha as [|x a Hx Ha IH]; intros b Hb; [constructor|].
  destruct Hb as [|y b Hy Hb]; [constructor|]. constructor; [by apply lxor_byte|]. by apply IH.
Qed.

Section encoding.
Context (sha384 : bytes -> bytes).
Context (sha_len : forall x, Z.of_nat (length (sha384 x)) = H_LEN) (sha_ok : forall x, bytes_ok (sha384 x)).
#[local] Set Default Proof Using "All".

Lemma mgf1_loop_spec fuel seed len out counter :
  bytes_ok out -> len < 256 ^ 4 ->
  0 <= counter <= Z.of_nat (length out) -> len - Z.of_nat (length out) <= Z.of_nat fuel ->
  exists res, mgf1_loop sha384 fuel seed len out counter = Ok res /\ bytes_ok res
    /\ len <= Z.of_nat (length res).
Proof.
  revert out counter. induction fuel as [|f IH]; intros out counter Hok Hlen Hc Hf; cbn [mgf1_loop].
  - rewrite (proj2 (Z.leb_le _ _)) by lia. exists out. split_and!; [done|done|lia].
  - case_cond; breflect; [by exists out|].
    destruct (i2osp_ok counter 4) as (c & -> & _); [lia|lia|]. cbn [obind].
    pose proof (sha_len (seed ++ c)) as Hs. unfold H_LEN in Hs.
    apply IH; rewrite ?length_app; try lia. apply Forall_app. split; [done|apply sha_ok].
Qed.

Lemma mgf1_spec seed len :
  0 <= len < 256 ^ 4 -> exists res, mgf1 sha384 seed len = Ok res /\ bytes_ok res
    /\ Z.of_nat (length res) = len.
Proof.
  intros Hl. unfold mgf1.
  destruct (mgf1_loop_spec (Z.to_nat len) seed len [] 0) as (res & -> & Hok & Hlen);
    [constructor|lia|simpl; lia|simpl; lia|]. cbn [obind].
  eexists. split; [done|]. split; [by apply Forall_take|]. rewrite length_take. lia.
Qed.

(** The top [clear] bits of the block are zero after [clear_top]. *)
Lemma clear_top_spec clear c b :
  0 <= clear <= 8 -> byte_ok c -> bytes_ok b ->
  exists b', clear_top clear (c :: b) = Ok b' /\ bytes_ok b' /\ length b' = S (length b)
    /\ os2ip b' < 2 ^ (8 * Z.of_nat (S (length b)) - clear).
Proof.
  intros Hcl Hc Hb. pose proof (os2ip_bound b Hb) as Hbd.
  assert (Hgo : forall v, 0 <= v < 2 ^ (8 - clear) ->
            bytes_ok (v :: b) /\ os2ip (v :: b) < 2 ^ (8 * Z.of_nat (S (length b)) - clear)).
  { intros v Hv. split.
    - constructor; [|done]. unfold byte_ok.
      assert (2 ^ (8 - clear) <= 2 ^ 8) by (apply Z.pow_le_mono_r; lia). lia.
    - change (v :: b) with ([v] ++ b). rewrite os2ip_app. replace (os2ip [v]) with v by (unfold os2ip; simpl; lia).
      replace (8 * Z.of_nat (S (length b)) - clear) with (8 - clear + 8 * Z.of_nat (length b)) by lia.
      rewrite Z.pow_add_r by lia. change 256 with (2 ^ 8) in *. rewrite <-Z.pow_mul_r in * by lia. nia. }
  unfold clear_top. case_cond; breflect.
  - subst clear. eexists. split; [done|]. destruct (Hgo c) as [? ?]; [apply Hc|]. by split_and!.
  - eexists. split; [done|].
    replace (Z.shiftr 255 clear) with (Z.ones (8 - clear)).
    + rewrite Z.land_ones by lia. destruct (Hgo (c mod 2 ^ (8 - clear))) as [? ?].
      * apply Z.mod_pos_bound. lia.
      * by split_and!.
    + assert (clear = 1 \/ clear = 2 \/ clear = 3 \/ clear = 4 \/ clear = 5 \/ clear = 6 \/ clear = 7
              \/ clear = 8) as Hcase by lia.
      destruct_or! Hcase; by subst.
Qed.

Lemma emsa_pss_encode_spec msg em_bits salt :
  777 <= em_bits < 2 ^ 32 -> Z.of_nat (length salt) = SALT_LEN -> bytes_ok salt ->
  exists em, emsa_pss_encode sha384 msg em_bits salt = Ok em /\ 0 <= os2ip em < 2 ^ em_bits.
Proof.
  intros Hb Hs Hsok. unfold emsa_pss_encode. set (em_len := (em_bits + 7) / 8).
  assert (Hem : em_bits + 7 = 8 * em_len + (em_bits + 7) mod 8) by (apply Z.div_mod; lia).
  pose proof (Z.mod_pos_bound (em_bits + 7) 8 ltac:(lia)). unfold SALT_LEN, H_LEN in *.
  rewrite (proj2 (Z.ltb_ge _ _)) by lia.
  set (h := sha384 (replicate 8 0 ++ sha384 msg ++ salt)).
  destruct (mgf1_spec h (em_len - 48 - 1)) as (mask & -> & Hm & Hml); [lia|]. cbn [obind].
  set (db := replicate (Z.to_nat (em_len - 48 - 48 - 2)) 0 ++ [1] ++ salt).
  assert (Hdb : bytes_ok db).
  { unfold db. apply Forall_app. split; [apply Forall_replicate; red; lia|].
    apply Forall_app. split; [|done]. repeat constructor; lia. }
  assert (Hdl : Z.of_nat (length db) = em_len - 48 - 1).
  { unfold db. rewrite !length_app, length_replicate. simpl. lia. }
  pose proof (zip_lxor_ok db mask Hdb Hm) as Hz.
  assert (Hzl : Z.of_nat (length (zip_with Z.lxor db mask)) = em_len - 48 - 1).
  { rewrite length_zip_with. lia. }
  destruct (zip_with Z.lxor db mask) as [|c b]; [simpl in Hzl; lia|].
  apply Forall_cons in Hz as [Hc Hbk].
  destruct (clear_top_spec (8 * em_len - em_bits) c b) as (b' & -> & Hb' & Hl' & Hlt); [lia|done|done|].
  cbn [obind]. eexists. split; [done|].
  pose proof (sha_len (replicate 8 0 ++ sha384 msg ++ salt)) as Hh. fold h in Hh. unfold H_LEN in Hh.
  assert (Htail : bytes_ok (h ++ [188])).
  { apply Forall_app. split; [apply sha_ok|repeat constructor; lia]. }
  pose proof (os2ip_bound _ Htail) as Ht. pose proof (os2ip_bound _ Hb') as Hbb.
  rewrite os2ip_app. rewrite length_app in *. cbn [length] in *.
  replace (Z.of_nat (length h + 1)) with 49 in * by lia.
  replace em_bits with (8 * Z.of_nat (S (length b)) - (8 * em_len - em_bits) + 8 * 49) by lia.
  rewrite Z.pow_add_r by lia. change (256 ^ 49) with (2 ^ (8 * 49)) in *. nia.
Qed.
End encoding.

Lemma draw_r_spec fuel i0 n rand :
  (exists i, (i0 <= i < i0 + fuel)%nat /\ Z.coprime (rand i + 1) n) ->
  exists j, (i0 <= j < i0 + fuel)%nat /\ Z.coprime (rand j + 1) n /\
    draw_r fuel i0 n rand = Ok (rand j + 1, Z.invmod (rand j + 1) n).
Proof.
  revert i0. induction fuel as [|f IH]; intros i0 (i & Hi & Hc); [lia|]. cbn [draw_r].
  unfold pow_inv. destruct (Z.eqb_spec (Z.gcd (rand i0 + 1) n) 1) as [E|E].
  - exists i0. split_and!; [lia|lia|done|done].
  - destruct (IH (S i0)) as (j & Hj & ? & ?).
    + exists i. split; [|done]. destruct (decide (i = i0)) as [->|]; [done|lia].
    + exists j. split_and!; [lia|lia|done|done].
Qed.

(** C38. Blinding returns for every modulus of at least 778 bits (the server's
    have 2048): the encoding is never too long for the modulus, so neither of
    its errors is reached, and as soon as one draw is invertible the result is
    the encoded message times the factor's power, with that factor's inverse. *)
Theorem blind_returns (sha384 : bytes -> bytes) fuel n e prepared salt rand :
  (forall x, Z.of_nat (length (sha384 x)) = H_LEN) -> (forall x, bytes_ok (sha384 x)) ->
  778 <= bit_length n < 2 ^ 32 -> Z.of_nat (length salt) = SALT_LEN -> bytes_ok salt ->
  (exists i, (i < fuel)%nat /\ Z.coprime (rand i + 1) n) ->
  exists em i b, emsa_pss_encode sha384 prepared (bit_length n - 1) salt = Ok em /\ os2ip em < n /\
    (i < fuel)%nat /\ pow_inv (rand i + 1) n = Ok (Z.invmod (rand i + 1) n) /\
    blind_int n e (os2ip em) (rand i + 1) = Ok b /\
    blind sha384 fuel n e prepared salt rand = Ok (b, Z.invmod (rand i + 1) n).
Proof.
  intros Hlen Hok Hn Hsl Hsok (i & Hi & Hc).
  assert (0 < n).
  { unfold bit_length in Hn. case_cond; breflect; [lia|]. destruct (decide (0 < n)); [done|].
    rewrite Z.log2_nonpos in Hn by lia. lia. }
  destruct (emsa_pss_encode_spec sha384 Hlen Hok prepared (bit_length n - 1) salt)
    as (em & Eem & Hem); [lia|done|done|].
  pose proof (bit_length_bounds n ltac:(lia)) as [Hlow _].
  destruct (draw_r_spec fuel 0 n rand) as (j & Hj & Hcj & Ej); [exists i; split; [lia|done]|].
  destruct (i2osp_residue (os2ip em * pow_mod (rand j + 1) e n) n) as (b & Eb & _); [done|].
  exists em, j, b. split_and!; [done|lia|lia| |done|].
  - unfold pow_inv. by rewrite (proj2 (Z.eqb_eq _ _) Hcj).
  - unfold blind. rewrite Eem. cbn [obind]. rewrite (proj2 (Z.leb_gt _ _)) by lia.
    rewrite Ej. cbn [obind]. unfold blind_int. rewrite Eb. done.
Qed.

(** ** Examples *)

Definition demo_issuer : RSAPrivateKey := mkKey 33 3 7 11 3 7 1 4.

Lemma prime_small p : 1 < p -> Forall (fun d => p mod d <> 0) (map Z.of_nat (seq 2 (Z.to_nat p - 2))) -> Z.prime p.
Proof.
  intros Hp Hall. split; [done|]. intros d Hd Hdiv. rewrite Forall_forall in Hall.
  apply (Hall d); [|by apply Z.mod_divide; [lia|]].
  apply list_elem_of_fmap. exists (Z.to_nat d). split; [lia|]. apply elem_of_seq. lia.
Qed.

Lemma demo_issuer_ok : rsa_ok demo_issuer.
Proof.
  split; try reflexivity; try done; apply prime_small; try done;
    repeat constructor; vm_compute; discriminate.
Qed.

Lemma blind_sign_crt_witness :
  exists b, blind_sign [5] demo_issuer = Ok b /\ os2ip b = 5 ^ 7 mod 33 /\ Z.of_nat (length b) = 1.
Proof.
  refine (proj1 (blind_sign_crt demo_issuer [5] demo_issuer_ok _) _); [repeat constructor; done|reflexivity].
Defined.

Lemma blind_roundtrip_witness :
  exists b bs sig, blind_int 33 3 5 2 = Ok b /\ blind_sign b demo_issuer = Ok bs /\
    unblind_int 33 bs 17 = Ok sig /\ os2ip sig = 5 ^ 7 mod 33 /\ os2ip sig ^ 3 mod 33 = 5.
Proof.
  exact (blind_roundtrip demo_issuer 5 2 17 demo_issuer_ok ltac:(cbn; lia) eq_refl).
Defined.

Lemma blind_hides_witness : exists r2, 1 <= r2 < 33 /\ Z.coprime r2 33 /\ blind_int 33 3 7 r2 = Ok [7].
Proof.
  apply (blind_hides demo_issuer 5 7 2 [7] demo_issuer_ok); reflexivity.
Defined.

Lemma blind_returns_witness :
  exists em i b, emsa_pss_encode (fun _ => replicate 48 7) [1; 2] 800 (replicate 48 9) = Ok em /\
    os2ip em < 2 ^ 800 + 1 /\ (i < 1)%nat /\
    pow_inv (2 + 1) (2 ^ 800 + 1) = Ok (Z.invmod (2 + 1) (2 ^ 800 + 1)) /\
    blind_int (2 ^ 800 + 1) 3 (os2ip em) (2 + 1) = Ok b /\
    blind (fun _ => replicate 48 7) 1 (2 ^ 800 + 1) 3 [1; 2] (replicate 48 9) (fun _ => 2)
      = Ok (b, Z.invmod (2 + 1) (2 ^ 800 + 1)).
Proof.
  apply (blind_returns (fun _ => replicate 48 7) 1 (2 ^ 800 + 1) 3 [1; 2] (replicate 48 9) (fun _ => 2)).
  - intros _. reflexivity.
  - intros _. apply Forall_replicate. done.
  - split; [vm_compute; discriminate|reflexivity].
  - reflexivity.
  - apply Forall_replicate. done.
  - exists O. split; [lia|]. vm_compute. reflexivity.
Defined.
