(* ===== verification/DepositStore.v ===== *)
(** * Deposit tokens: the issuer key, issuance and the spent set

    Models [src/app/core/deposit_auth_store.py] and the HTTP surface of
    [src/app/routers/deposit_auth.py] on top of the cryptography of
    [DepositAuth] and of Redis.  The PEM encoding of a key and its DER public
    form are the [cryptography] package's: parameters here. *)

From stdpp Require Import base list sorting gmap strings.
From Stdlib Require Import ZArith Lia Ascii.
From S2P Require Import Prelude Text Bytes DepositAuth Storage Envelope Redis RateLimit GroupLogStore Gates Delivery.

Definition ISSUER_KEY : string := "depauth:issuer:privkey:v1".
Definition SPENT_TTL : Z := 14 * 24 * 3600.

Definition public_key (k : RSAPrivateKey) : Z * Z := (key_n k, key_e k).

(** [base64.urlsafe_b64encode] and [rstrip("=")]. *)
Fixpoint urlsafe (s : string) : string :=
  match s with
  | EmptyString => EmptyString
  | String c s' => String (if Ascii.eqb c "+" then "-" else if Ascii.eqb c "/" then "_" else c)%char (urlsafe s')
  end.
Fixpoint rstrip_eq (s : string) : string :=
  match s with
  | EmptyString => EmptyString
  | String c s' =>
      match rstrip_eq s' with
      | EmptyString => if Ascii.eqb c "=" then EmptyString else String c EmptyString
      | t => String c t
      end
  end.

Record JWK := mkJWK { jwk_n : string; jwk_e : Z; jwk_spki : string }.

(** The dict of [current_params]. *)
Record ParamsOut := mkParams {
  pa_epoch_id : string; pa_suite : string; pa_pubkey : JWK; pa_algo : string; pa_difficulty : Z
}.

(** A token as it arrives: [None] for a field that is missing or is not text. *)
Record token := mkToken { tk_epoch_id : option string; tk_prepared : option string; tk_sig : option string }.

Record IssueIn := mkIssueIn { is_epoch_id : string; is_blinded : string; is_pow_nonce : string }.
Record IssueOut := mkIssueOut { io_epoch_id : string; io_blind_sig : string }.

Definition REASON_STATUS (reason : string) : exn :=
  if String.eqb reason "stale_epoch" then HTTPException 409 "stale epoch — re-fetch /params"
  else if String.eqb reason "bad_base64" then HTTPException 400 "blinded not base64"
  else if String.eqb reason "low_pow" then HTTPException 400 "insufficient proof-of-work"
  else HTTPException 400 "malformed blinded value".

Section store.
Context {R : Type} `{RR : Redis R}.
Context (sha256 : bytes -> bytes) (pss_verify : Z * Z -> bytes -> bytes -> bool).
Context (private_bytes : RSAPrivateKey -> string) (load_pem : string -> RSAPrivateKey).
Context (spki : Z * Z -> bytes).

(** Redis and the worker's [_cache], which holds one parsed key. *)
Record issuer := mkIssuer { iredis : R; cache : option (string * RSAPrivateKey) }.

Definition cached_key (pem : string) (c : option (string * RSAPrivateKey))
    : RSAPrivateKey * option (string * RSAPrivateKey) :=
  match c with
  | Some (pem', k) => if String.eqb pem' pem then (k, c) else (load_pem pem, Some (pem, load_pem pem))
  | None => (load_pem pem, Some (pem, load_pem pem))
  end.

(** [issuer_key]: [fresh] is the key [new_issuer_key] would generate, [between]
    what other workers do to Redis between the GET and the SET NX. *)
Definition issuer_key (now : Z) (fresh : RSAPrivateKey) (between : R -> R) (s : issuer)
    : outcome RSAPrivateKey * issuer :=
  let '(pem, r) :=
    match rget now ISSUER_KEY (iredis s) with
    | Some pem => (Some pem, iredis s)
    | None =>
        let new_pem := private_bytes fresh in
        let '(won, r) := set_nx now ISSUER_KEY new_pem None (between (iredis s)) in
        (if won then Some new_pem else rget now ISSUER_KEY r, r)
    end in
  match pem with
  | None => (Raise (AttributeError "'NoneType' object has no attribute 'encode'"), mkIssuer r (cache s))
  | Some pem => let '(k, c) := cached_key pem (cache s) in (Ok k, mkIssuer r c)
  end.

Definition public_jwk (pub : Z * Z) : outcome JWK :=
  let! n_bytes := i2osp pub.1 (mod_len pub.1) in
  Ok (mkJWK (rstrip_eq (urlsafe (b64encode n_bytes))) pub.2 (b64encode (spki pub))).

Definition current_params (now : Z) (fresh : RSAPrivateKey) (between : R -> R) (pow_bits : Z) (s : issuer)
    : outcome ParamsOut * issuer :=
  match issuer_key now fresh between s with
  | (Raise x, s) => (Raise x, s)
  | (Ok k, s) =>
      (let! eid := epoch_id sha256 (public_key k) in
       let! jwk := public_jwk (public_key k) in
       Ok (mkParams eid "RSABSSA-SHA384-PSS-Randomized" jwk "sha256-hashcash" pow_bits), s)
  end.

(** [sign_blinded]: a signature, or the reason there is none. *)
Definition sign_blinded (now : Z) (fresh : RSAPrivateKey) (between : R -> R)
    (epoch blinded_b64 pow_nonce : string) (pow_bits : Z) (s : issuer)
    : outcome (bytes + string) * issuer :=
  match issuer_key now fresh between s with
  | (Raise x, s) => (Raise x, s)
  | (Ok priv, s) =>
      (let! eid := epoch_id sha256 (public_key priv) in
       if negb (String.eqb epoch eid) then Ok (inr "stale_epoch")
       else
         match b64decode blinded_b64 with
         | None => Ok (inr "bad_base64")
         | Some blinded =>
             if negb (verify_pow sha256 (epoch ++ ":" ++ blinded_b64) pow_nonce pow_bits)
             then Ok (inr "low_pow")
             else
               match blind_sign blinded priv with
               | Ok b => Ok (inl b)
               | Raise (ValueError _) => Ok (inr "malformed")
               | Raise x => Raise x
               end
         end, s)%string
  end.

Definition spent_key (epoch : string) (prepared sig : bytes) : string :=
  ("depauth:spent:" ++ epoch ++ ":" ++ token_id sha256 prepared sig)%string.

(** The fields of a token, decoded. *)
Definition decode_token (tok : token) : option (string * bytes * bytes) :=
  match tk_epoch_id tok, tk_prepared tok, tk_sig tok with
  | Some epoch, Some p, Some g =>
      match b64decode p, b64decode g with
      | Some prepared, Some sig => Some (epoch, prepared, sig)
      | _, _ => None
      end
  | _, _, _ => None
  end.

Definition verify_and_consume_token (now : Z) (fresh : RSAPrivateKey) (between : R -> R)
    (tok : token) (s : issuer) : outcome bool * issuer :=
  match decode_token tok with
  | None => (Ok false, s)
  | Some (epoch, prepared, sig) =>
      match issuer_key now fresh between s with
      | (Raise x, s) => (Raise x, s)
      | (Ok priv, s) =>
          let pub := public_key priv in
          match epoch_id sha256 pub with
          | Raise x => (Raise x, s)
          | Ok eid =>
              if negb (String.eqb epoch eid) then (Ok false, s)
              else if negb (verify pss_verify pub prepared sig) then (Ok false, s)
              else
                let '(ok, r) := set_nx now (spent_key epoch prepared sig) "1" (Some SPENT_TTL) (iredis s) in
                (Ok ok, mkIssuer r (cache s))
          end
      end
  end.

(** ** The two endpoints *)

Definition params (enabled : bool) (pow_bits now : Z) (fresh : RSAPrivateKey) (between : R -> R) (s : issuer)
    : outcome ParamsOut * issuer :=
  if negb enabled then (Raise (HTTPException 404 "deposit-auth not enabled"), s)
  else current_params now fresh between pow_bits s.

Definition issue (enabled : bool) (pow_bits now : Z) (fresh : RSAPrivateKey) (between : R -> R)
    (body : IssueIn) (s : issuer) : outcome IssueOut * issuer :=
  if negb enabled then (Raise (HTTPException 404 "deposit-auth not enabled"), s)
  else
    match sign_blinded now fresh between (is_epoch_id body) (is_blinded body) (is_pow_nonce body) pow_bits s with
    | (Raise x, s) => (Raise x, s)
    | (Ok (inr reason), s) => (Raise (REASON_STATUS reason), s)
    | (Ok (inl blind_sig), s) => (Ok (mkIssueOut (is_epoch_id body) (b64encode blind_sig)), s)
    end.
End store.

(** ** The spent set, proved *)

Section spent.
Context {R : Type} `{RL : RedisLaws R}.
Context (sha256 : bytes -> bytes) (pss_verify : Z * Z -> bytes -> bytes -> bool).
Context (private_bytes : RSAPrivateKey -> string) (load_pem : string -> RSAPrivateKey).
Context (fresh : RSAPrivateKey) (between : R -> R).
#[local] Set Default Proof Using "Type".

(** The key is published and the worker's cache does not lie. *)
Definition cache_ok (c : option (string * RSAPrivateKey)) : Prop :=
  forall pem k, c = Some (pem, k) -> k = load_pem pem.
Definition issuer_ok (t : Z) (pem : string) (s : issuer) : Prop :=
  peek t ISSUER_KEY (iredis s) = Some (VStr pem, None) /\ cache_ok (cache s).

Lemma cached_key_spec pem c :
  cache_ok c -> (cached_key load_pem pem c).1 = load_pem pem /\ cache_ok (cached_key load_pem pem c).2.
Proof.
  intros Hc. unfold cached_key. destruct c as [[pem' k]|]; simpl.
  - destruct (String.eqb_spec pem' pem) as [->|]; simpl; split; try done; [by apply Hc|].
    by intros ? ? [= <- <-].
  - split; [done|]. by intros ? ? [= <- <-].
Qed.

(** Two workers that look for the key at the same time end up with one key:
    whatever the others do between this worker's read and its write, it
    returns the key that Redis then holds. *)
Lemma issuer_key_converges t s :
  cache_ok (cache s) ->
  (forall r, r = iredis s \/ r = between (iredis s) ->
     peek t ISSUER_KEY r = None \/ exists pem x, peek t ISSUER_KEY r = Some (VStr pem, x)) ->
  exists k s' pem x, issuer_key private_bytes load_pem t fresh between s = (Ok k, s') /\
    peek t ISSUER_KEY (iredis s') = Some (VStr pem, x) /\ k = load_pem pem /\ cache_ok (cache s').
Proof using RL.
  intros Hc Hty. unfold issuer_key.
  assert (Hend : forall pem x r, peek t ISSUER_KEY r = Some (VStr pem, x) ->
    exists k s' pem0 x0,
      (let '(k, c) := cached_key load_pem pem (cache s) in (Ok k, mkIssuer r c)) = (Ok k, s') /\
      peek t ISSUER_KEY (iredis s') = Some (VStr pem0, x0) /\ k = load_pem pem0 /\ cache_ok (cache s')).
  { intros pem x r Hr. destruct (cached_key_spec pem (cache s) Hc) as [E1 E2].
    destruct (cached_key load_pem pem (cache s)) as [k c]. by exists k, (mkIssuer r c), pem, x. }
  pose proof (rget_spec t ISSUER_KEY (iredis s)) as Hg.
  destruct (Hty (iredis s) (or_introl eq_refl)) as [E|(pem & x & E)]; rewrite E in Hg; rewrite Hg.
  2: by apply (Hend pem x).
  pose proof (set_nx_spec t ISSUER_KEY (private_bytes fresh) None (between (iredis s))) as Hn.
  destruct (set_nx t ISSUER_KEY (private_bytes fresh) None (between (iredis s))) as [won r1].
  destruct (Hty (between (iredis s)) (or_intror eq_refl)) as [E'|(pem & x & E')]; rewrite E' in Hn;
    destruct Hn as [Hw Ht]; simpl in Hw, Ht; subst won.
  - apply (Hend _ None). by rewrite (touches_same _ _ _ _ _ Ht).
  - pose proof (rget_spec t ISSUER_KEY r1) as Hg1. rewrite (touches_same _ _ _ _ _ Ht) in Hg1.
    rewrite Hg1. apply (Hend _ x). by rewrite (touches_same _ _ _ _ _ Ht).
Qed.

Lemma issuer_key_known t pem s :
  issuer_ok t pem s ->
  exists c, issuer_key private_bytes load_pem t fresh between s = (Ok (load_pem pem), mkIssuer (iredis s) c)
    /\ cache_ok c.
Proof using RL.
  intros [Hp Hc]. unfold issuer_key. pose proof (rget_spec t ISSUER_KEY (iredis s)) as Hg.
  rewrite Hp in Hg. rewrite Hg. destruct (cached_key_spec pem (cache s) Hc) as [E1 E2].
  destruct (cached_key load_pem pem (cache s)) as [k c]. simpl in *. subst. by exists c.
Qed.

(** The entry a token leaves in the spent set. *)
Definition spent_of (tok : token) : option string :=
  option_map (fun '(e, p, g) => spent_key sha256 e p g) (decode_token tok).

(** A token the current key vouches for. *)
Definition vouched (pem : string) (tok : token) : bool :=
  match decode_token tok with
  | None => false
  | Some (e, p, g) =>
      match epoch_id sha256 (public_key (load_pem pem)) with
      | Raise _ => false
      | Ok eid => String.eqb e eid && verify pss_verify (public_key (load_pem pem)) p g
      end
  end.

Lemma epoch_id_total k : 0 < key_n k -> exists eid, epoch_id sha256 (public_key k) = Ok eid.
Proof.
  intros Hn. unfold epoch_id. simpl.
  destruct (i2osp_ok (key_n k) (mod_len (key_n k))) as (b & -> & _); [apply mod_len_nonneg| |].
  - split; [lia|]. by apply mod_len_fits.
  - by eexists.
Qed.

(** What a verification does, in one line each: it accepts a vouched token
    whose entry is absent, and leaves the entry; otherwise Redis is unchanged. *)
Lemma consume_spec t pem tok s :
  issuer_ok t pem s -> 0 < key_n (load_pem pem) ->
  let '(v, s') := verify_and_consume_token sha256 pss_verify private_bytes load_pem t fresh between tok s in
  cache_ok (cache s') /\
  ((vouched pem tok = false /\ v = Ok false /\ iredis s' = iredis s) \/
   (vouched pem tok = true /\ exists key, spent_of tok = Some key /\
      (Ok (set_nx t key "1" (Some SPENT_TTL) (iredis s)).1,
       (set_nx t key "1" (Some SPENT_TTL) (iredis s)).2) = (v, iredis s'))).
Proof using RL.
  intros Hok Hn. destruct (issuer_key_known t pem s Hok) as (c & Ek & Hc).
  unfold verify_and_consume_token, vouched, spent_of. rewrite Ek.
  destruct (decode_token tok) as [[[e p] g]|]; [|split; [apply Hok|by left]].
  destruct (epoch_id_total (load_pem pem) Hn) as [eid ->].
  destruct (String.eqb e eid); simpl; [|split; [done|by left]].
  destruct (verify _ _ p g); simpl; [|split; [done|by left]].
  destruct (set_nx t _ _ _ (iredis s)) as [ok r] eqn:E. split; [done|]. right. split; [done|].
  eexists. split; [done|]. by rewrite E.
Qed.

Lemma spent_not_issuer tok key : spent_of tok = Some key -> key <> ISSUER_KEY.
Proof.
  unfold spent_of. destruct (decode_token tok) as [[[e p] g]|]; [|done]. simpl. by intros [= <-].
Qed.

Definition consume (req : Z * token) (s : issuer) : outcome bool * issuer :=
  verify_and_consume_token sha256 pss_verify private_bytes load_pem req.1 fresh between req.2 s.

(** Requests one after the other. *)
Fixpoint consume_run (reqs : list (Z * token)) (s : issuer) : list (outcome bool) :=
  match reqs with
  | [] => []
  | req :: l => let '(v, s') := consume req s in v :: consume_run l s'
  end.

(** The issuer's key stays, whatever is spent. *)
Lemma consume_issuer t t' pem tok s :
  issuer_ok t pem s -> 0 < key_n (load_pem pem) -> t <= t' -> issuer_ok t' pem (consume (t', tok) s).2.
Proof using RL.
  intros [Hp Hc] Hn Ht. assert (Hok : issuer_ok t' pem s).
  { split; [|done]. by rewrite (peek_later t t'), Hp by done. }
  pose proof (consume_spec t' pem tok s Hok Hn) as Hcs. unfold consume. simpl.
  destruct (verify_and_consume_token _ _ _ _ t' fresh between tok s) as [v s'].
  destruct Hcs as [Hc' [(_ & _ & E)|(_ & key & Hk & E)]].
  - split; [|done]. simpl. rewrite E. apply Hok.
  - split; [|done]. simpl. injection E as _ <-. apply spent_not_issuer in Hk.
    pose proof (set_nx_spec t' key "1" (Some SPENT_TTL) (iredis s)) as Hs.
    destruct (peek t' key (iredis s)); destruct Hs as [_ Hs];
      rewrite (touches_other _ _ _ _ _ _ Hs) by done; apply Hok.
Qed.

(** An entry of the spent set lives until it expires, and refuses its token. *)
Lemma consume_blocked t pem tok s k v x :
  issuer_ok t pem s -> 0 < key_n (load_pem pem) ->
  peek t k (iredis s) = Some (v, Some x) ->
  peek t k (iredis (consume (t, tok) s).2) = Some (v, Some x) /\
  (spent_of tok = Some k -> (consume (t, tok) s).1 = Ok false).
Proof using RL.
  intros Hok Hn Hk. pose proof (consume_spec t pem tok s Hok Hn) as Hcs. unfold consume. simpl.
  destruct (verify_and_consume_token _ _ _ _ t fresh between tok s) as [w s'].
  destruct Hcs as [_ [(_ & -> & E)|(_ & key & Hsp & E)]]; simpl.
  - rewrite E. done.
  - injection E as <- <-. pose proof (set_nx_spec t key "1" (Some SPENT_TTL) (iredis s)) as Hs.
    destruct (decide (k = key)) as [->|Hne].
    + rewrite Hk in Hs. destruct Hs as [-> Hs]. by rewrite (touches_same _ _ _ _ _ Hs).
    + split; [|by intros [= ->]%(eq_trans (eq_sym Hsp))].
      destruct (peek t key (iredis s)); destruct Hs as [_ Hs]; by rewrite (touches_other _ _ _ _ _ _ Hs).
Qed.

(** ... for as long as a run of requests stays below the expiry. *)
Lemma run_blocked reqs t pem s k v x j tj tok :
  issuer_ok t pem s -> 0 < key_n (load_pem pem) -> peek t k (iredis s) = Some (v, Some x) -> t < x ->
  StronglySorted Z.le (t :: map fst reqs) -> reqs !! j = Some (tj, tok) -> spent_of tok = Some k -> tj < x ->
  consume_run reqs s !! j = Some (Ok false).
Proof using RL.
  revert t s j. induction reqs as [|[t1 tok1] reqs IH]; intros t s j Hok Hn Hk Htx Hs Hj Hsp Htj; [done|].
  apply StronglySorted_inv in Hs as [Hs Hle]. cbn [map] in Hs, Hle.
  apply Forall_cons in Hle as [Ht1 Hle]. simpl in Ht1.
  assert (Hok1 : issuer_ok t1 pem s).
  { split; [|apply Hok]. rewrite (peek_later t t1) by done. by destruct Hok as [-> _]. }
  assert (t1 < x).
  { apply StronglySorted_inv in Hs as [_ Hle1]. destruct j as [|j]; simplify_eq/=; [done|].
    rewrite Forall_forall in Hle1. assert (t1 <= tj); [|lia]. apply Hle1, list_elem_of_fmap.
    exists (tj, tok). split; [done|]. by eapply list_elem_of_lookup_2. }
  assert (Hk1 : peek t1 k (iredis s) = Some (v, Some x)).
  { rewrite (peek_later t t1), Hk by done. simpl. by rewrite (proj2 (Z.leb_gt x t1)). }
  destruct (consume_blocked t1 pem tok1 s k v x Hok1 Hn Hk1) as [Hk2 Hfalse].
  pose proof (consume_issuer t1 t1 pem tok1 s Hok1 Hn ltac:(lia)) as Hok2.
  cbn [consume_run]. destruct (consume (t1, tok1) s) as [w s'] eqn:E. simpl in *.
  destruct j as [|j]; simplify_eq/=; [by rewrite Hfalse|]. by eapply (IH t1).
Qed.
End spent.

Section spent_theorems.
Context {R : Type} `{RL : RedisLaws R}.
Context (sha256 : bytes -> bytes) (pss_verify : Z * Z -> bytes -> bytes -> bool).
Context (private_bytes : RSAPrivateKey -> string) (load_pem : string -> RSAPrivateKey).
Context (fresh : RSAPrivateKey) (between : R -> R).
#[local] Set Default Proof Using "RL".

#[local] Notation consume := (consume sha256 pss_verify private_bytes load_pem fresh between).
#[local] Notation consume_run := (consume_run sha256 pss_verify private_bytes load_pem fresh between).

(** Whether a token goes through, and what it leaves behind when it does. *)
Lemma consume_result t pem tok s k :
  issuer_ok load_pem t pem s -> 0 < key_n (load_pem pem) -> spent_of sha256 tok = Some k ->
  (consume (t, tok) s).1 =
    Ok (vouched sha256 pss_verify load_pem pem tok && negb (bool_decide (is_Some (peek t k (iredis s))))) /\
  ((consume (t, tok) s).1 = Ok true ->
     peek t k (iredis (consume (t, tok) s).2) = Some (VStr "1", Some (t + seconds SPENT_TTL))).
Proof.
  intros Hok Hn Hk.
  pose proof (consume_spec sha256 pss_verify private_bytes load_pem fresh between t pem tok s Hok Hn) as Hcs.
  unfold DepositStore.consume. simpl.
  destruct (verify_and_consume_token _ _ _ _ t fresh between tok s) as [w s'].
  destruct Hcs as [_ [(-> & -> & E)|(-> & key & Hsp & E)]]; simpl; [done|].
  rewrite Hk in Hsp. injection Hsp as <-. injection E as <- <-.
  pose proof (set_nx_spec t k "1" (Some SPENT_TTL) (iredis s)) as Hs.
  destruct (peek t k (iredis s)) as [en|] eqn:Ep; destruct Hs as [-> Hs]; [done|].
  split; [done|]. intros _. rewrite (touches_same _ _ _ _ _ Hs). simpl.
  rewrite (proj2 (Z.leb_gt _ _)); [done|]. unfold seconds, SPENT_TTL, usec_per_sec. lia.
Qed.

Lemma run_single reqs t pem s i j ti tj tok1 tok2 k :
  issuer_ok load_pem t pem s -> 0 < key_n (load_pem pem) -> StronglySorted Z.le (t :: map fst reqs) ->
  reqs !! i = Some (ti, tok1) -> reqs !! j = Some (tj, tok2) -> (i < j)%nat ->
  spent_of sha256 tok1 = Some k -> spent_of sha256 tok2 = Some k ->
  tj < ti + seconds SPENT_TTL ->
  consume_run reqs s !! i = Some (Ok true) -> consume_run reqs s !! j = Some (Ok false).
Proof.
  revert t s i j. induction reqs as [|[t1 tok] reqs IH]; intros t s i j Hok Hn Hs Hi Hj Hij Hk1 Hk2 Htj; [done|].
  apply StronglySorted_inv in Hs as [Hs Hle]. cbn [map] in Hs, Hle.
  apply Forall_cons in Hle as [Ht1 _]. simpl in Ht1.
  assert (Hok1 : issuer_ok load_pem t1 pem s).
  { split; [|apply Hok]. rewrite (peek_later t t1) by done. by destruct Hok as [-> _]. }
  pose proof (consume_issuer sha256 pss_verify private_bytes load_pem fresh between t1 t1 pem tok s
                Hok1 Hn ltac:(lia)) as Hok2.
  cbn [DepositStore.consume_run]. destruct (consume (t1, tok) s) as [w s'] eqn:E. simpl in Hok2.
  destruct j as [|j]; [lia|]. destruct i as [|i]; simplify_eq/=.
  - intros [= ->]. destruct (consume_result ti pem tok1 s k Hok1 Hn Hk1) as [_ Hent].
    rewrite E in Hent. specialize (Hent eq_refl). simpl in Hent.
    eapply (run_blocked sha256 pss_verify private_bytes load_pem fresh between reqs ti pem s' k); try done.
    unfold seconds, SPENT_TTL, usec_per_sec. lia.
  - intros Hr. eapply (IH t1 s' i j); try done. lia.
Qed.
End spent_theorems.

(** A deposit token is spent once: in any sequence of requests, of two
    that carry the same token (the same entry of the spent set) and are both
    accepted, the second comes at least fourteen days after the first. *)
Theorem token_single_use {R} `{RL : RedisLaws R} sha256 pss_verify private_bytes load_pem fresh
    (between : R -> R) t0 pem reqs s i j ti tj tok1 tok2 k :
  issuer_ok load_pem t0 pem s -> 0 < key_n (load_pem pem) -> StronglySorted Z.le (t0 :: map fst reqs) ->
  reqs !! i = Some (ti, tok1) -> reqs !! j = Some (tj, tok2) -> (i < j)%nat ->
  spent_of sha256 tok1 = Some k -> spent_of sha256 tok2 = Some k ->
  let run := consume_run sha256 pss_verify private_bytes load_pem fresh between reqs s in
  run !! i = Some (Ok true) -> run !! j = Some (Ok true) -> ti + days 14 <= tj.
Proof.
  intros Hok Hn Hs Hi Hj Hij Hk1 Hk2 run Hri Hrj. unfold run in *.
  change (days 14) with (seconds SPENT_TTL).
  destruct (decide (ti + seconds SPENT_TTL <= tj)) as [|Hlt]; [done|].
  rewrite (run_single sha256 pss_verify private_bytes load_pem fresh between reqs t0 pem s i j ti tj tok1 tok2 k)
    in Hrj by (done || lia). done.
Qed.

(** And it is spent again after those fourteen days: the entry of the
    spent set expires, the token does not, so a token that was accepted is
    accepted once more. *)
Theorem token_respent {R} `{RL : RedisLaws R} sha256 pss_verify private_bytes load_pem fresh
    (between : R -> R) t pem tok s :
  issuer_ok load_pem t pem s -> 0 < key_n (load_pem pem) ->
  consume_run sha256 pss_verify private_bytes load_pem fresh between [(t, tok)] s = [Ok true] ->
  consume_run sha256 pss_verify private_bytes load_pem fresh between
    [(t, tok); (t + days 14, tok)] s = [Ok true; Ok true].
Proof.
  intros Hok Hn. cbn [consume_run].
  destruct (spent_of sha256 tok) as [k|] eqn:Hk.
  2: { unfold consume, verify_and_consume_token, spent_of in *. simpl. by destruct (decode_token tok). }
  destruct (consume_result sha256 pss_verify private_bytes load_pem fresh between t pem tok s k Hok Hn Hk)
    as [Hres Hent].
  pose proof (consume_issuer sha256 pss_verify private_bytes load_pem fresh between t t pem tok s
                Hok Hn ltac:(lia)) as Hok1.
  destruct (consume _ _ _ _ _ _ (t, tok) s) as [w s1]. simpl in *. intros [= ->].
  specialize (Hent eq_refl). injection Hres as Hres. symmetry in Hres. apply andb_prop in Hres as [Hv _].
  assert (Hd : 0 < days 14) by done.
  assert (Hok2 : issuer_ok load_pem (t + days 14) pem s1).
  { split; [|apply Hok1]. rewrite (peek_later t) by lia. by destruct Hok1 as [-> _]. }
  destruct (consume_result sha256 pss_verify private_bytes load_pem fresh between (t + days 14) pem tok s1 k
              Hok2 Hn Hk) as [Hres2 _].
  destruct (consume _ _ _ _ _ _ (t + days 14, tok) s1) as [w2 s2]. simpl in *. subst w2.
  rewrite Hv, (peek_later t), Hent by lia. simpl.
  rewrite (proj2 (Z.leb_le _ _)) by (change (seconds SPENT_TTL) with (days 14); lia). done.
Qed.

(** ** What happens to Redis between two deposits *)

Section elapse.
Context {R : Type} `{RL : RedisLaws R}.
Context (sha256 : bytes -> bytes) (pss_verify : Z * Z -> bytes -> bytes -> bool).
Context (private_bytes : RSAPrivateKey -> string) (load_pem : string -> RSAPrivateKey).
Context (fresh : RSAPrivateKey) (between : R -> R).
#[local] Set Default Proof Using "RL".

#[local] Notation consume := (consume sha256 pss_verify private_bytes load_pem fresh between).

(** Any worker verifies any token, any worker asks for the issuer's key (for
    [params] or [issue]), and everything else the island does with Redis leaves
    the keys under [depauth:] alone. *)
Inductive elapses : Z * R -> Z * R -> Prop :=
  | el_deposit t t' tok c r :
      t <= t' -> cache_ok load_pem c -> elapses (t, r) (t', iredis (consume (t', tok) (mkIssuer r c)).2)
  | el_key t t' c r :
      t <= t' -> cache_ok load_pem c ->
      elapses (t, r) (t', iredis (issuer_key private_bytes load_pem t' fresh between (mkIssuer r c)).2)
  | el_elsewhere t t' r r' :
      t <= t' -> (forall k, peek t' ("depauth:" ++ k) r' = peek t' ("depauth:" ++ k) r) -> elapses (t, r) (t', r').

(** The issuer's key and an entry of the spent set that has not expired by [t]. *)
Definition spent_by (pem k : string) (x t : Z) (r : R) : Prop :=
  peek t ISSUER_KEY r = Some (VStr pem, None) /\
  if x <=? t then True else peek t k r = Some (VStr "1", Some x).

Lemma spent_later pem k x t t' r : t <= t' -> spent_by pem k x t r -> spent_by pem k x t' r.
Proof.
  intros Ht [Hi Hs]. split; [by rewrite (peek_later t t'), Hi|]. destruct (Z.leb_spec x t') as [|Hx]; [done|].
  rewrite (proj2 (Z.leb_gt x t)) in Hs by lia. rewrite (peek_later t t'), Hs by done. simpl. by rewrite (proj2 (Z.leb_gt x t')).
Qed.

Lemma spent_step pem tok k x s s' :
  0 < key_n (load_pem pem) -> spent_of sha256 tok = Some k -> elapses s s' -> spent_by pem k x s.1 s.2 -> spent_by pem k x s'.1 s'.2.
Proof.
  intros Hn Hk. destruct 1 as [t t' tok' c r Ht Hc|t t' c r Ht Hc|t t' r r' Ht He]; simpl; intros Hs;
    apply (spent_later _ _ _ t t') in Hs; try done; destruct Hs as [Hi Hs].
  - pose proof (consume_issuer sha256 pss_verify private_bytes load_pem fresh between t' t' pem tok' (mkIssuer r c)
      (conj Hi Hc) Hn ltac:(lia)) as [Hi' _]. split; [exact Hi'|]. destruct (x <=? t'); [done|].
    by apply (consume_blocked sha256 pss_verify private_bytes load_pem fresh between t' pem tok' (mkIssuer r c) k _ x (conj Hi Hc) Hn).
  - destruct (issuer_key_known private_bytes load_pem fresh between t' pem (mkIssuer r c) (conj Hi Hc)) as (c' & -> & _). done.
  - split; [exact (eq_trans (He "issuer:privkey:v1"%string) Hi)|]. destruct (x <=? t'); [done|].
    unfold spent_of in Hk. destruct (decode_token tok) as [[[ep pr] sg]|]; [|done]. simpl in Hk. injection Hk as <-.
    exact (eq_trans (He ("spent:" ++ ep ++ ":" ++ token_id sha256 pr sg)%string) Hs).
Qed.

Lemma spent_elapse pem tok k x s s' :
  0 < key_n (load_pem pem) -> spent_of sha256 tok = Some k -> rtc elapses s s' -> spent_by pem k x s.1 s.2 -> spent_by pem k x s'.1 s'.2.
Proof. intros Hn Hk Hr. induction Hr; [done|]. intros Hs. apply IHHr. by eapply spent_step. Qed.
End elapse.

(** C36. On the deposit path: when a 1:1 deposit has been accepted with a token,
    a second deposit within fourteen days that presents it (or whatever text
    decodes to the same token), at any worker and after whatever was deposited,
    issued or otherwise done with Redis in between, is refused and leaves every
    table as it was: with 403, or with 404 if its recipient does not exist, which
    is looked at first. *)
Theorem replayed_token_refused {R} `{RL : RedisLaws R} sha256 pss_verify private_bytes load_pem fresh
    (between : R -> R) pem e1 e2 (b1 b2 : SealedSendIn token) tok1 tok2 d1 d1' d2 s out s' ev1 t r2 c2 :
  let verify e := fun tok s =>
    verify_and_consume_token sha256 pss_verify private_bytes load_pem (now e) fresh between tok s in
  issuer_ok load_pem (now e1) pem s -> 0 < key_n (load_pem pem) ->
  ss_deposit_token b1 = Some tok1 -> ss_deposit_token b2 = Some tok2 -> spent_of sha256 tok2 = spent_of sha256 tok1 ->
  send_sealed (verify e1) e1 b1 d1 s = (Ok out, d1', s', ev1) ->
  rtc (elapses sha256 pss_verify private_bytes load_pem fresh between) (now e1, iredis s') (t, r2) ->
  t <= now e2 -> now e2 < now e1 + days 14 -> cache_ok load_pem c2 ->
  exists s'', send_sealed (verify e2) e2 b2 d2 (mkIssuer r2 c2) =
    (Raise (match users d2 !! ss_to_uin b2 with
            | Some _ => HTTPException 403 "invalid or spent deposit token"
            | None => HTTPException 404 "no such user"
            end), d2, s'', []).
Proof.
  intros verify Hok Hn Hb1 Hb2 Hsame H1 Hel Ht Hx Hc2.
  unfold send_sealed in H1. destruct (users d1 !! ss_to_uin b1); [|done].
  unfold spend_token in H1. rewrite Hb1 in H1.
  destruct (spent_of sha256 tok1) as [k|] eqn:Hk.
  2: { unfold verify, verify_and_consume_token, spent_of in *. by destruct (decode_token tok1). }
  destruct (consume_result sha256 pss_verify private_bytes load_pem fresh between (now e1) pem tok1 s k Hok Hn Hk)
    as [_ Hent].
  pose proof (consume_issuer sha256 pss_verify private_bytes load_pem fresh between (now e1) (now e1) pem tok1 s
                Hok Hn ltac:(lia)) as Hok1.
  unfold consume in Hent, Hok1. simpl in Hent, Hok1. unfold verify in H1.
  destruct (verify_and_consume_token _ _ _ _ (now e1) fresh between tok1 s) as [[[]|x] s1]; [|done|done].
  specialize (Hent eq_refl). simpl in Hent, Hok1.
  assert (s' = s1) as ->.
  { destruct (deposit_auth_required e1 && negb true); [done|].
    destruct (deposit e1 b1 d1); [|done]. by injection H1 as _ _ <- _. }
  assert (Hs : spent_by pem k (now e1 + seconds SPENT_TTL) (now e2) r2).
  { apply (spent_later _ _ _ t); [done|].
    apply (spent_elapse sha256 pss_verify private_bytes load_pem fresh between pem tok1 k _ _ _ Hn Hk Hel).
    split; [apply Hok1|]. simpl. by destruct (_ <=? _). }
  destruct Hs as [Hi Hs]. change (seconds SPENT_TTL) with (days 14) in Hs. rewrite (proj2 (Z.leb_gt _ _)) in Hs by lia.
  destruct (consume_blocked sha256 pss_verify private_bytes load_pem fresh between (now e2) pem tok2 (mkIssuer r2 c2) k
              (VStr "1") (now e1 + days 14) (conj Hi Hc2) Hn Hs) as [_ Hfalse].
  specialize (Hfalse Hsame). unfold consume in Hfalse. simpl in Hfalse.
  unfold send_sealed, spend_token. destruct (users d2 !! ss_to_uin b2); [|by eexists]. rewrite Hb2. unfold verify.
  destruct (verify_and_consume_token _ _ _ _ (now e2) fresh between tok2 (mkIssuer r2 c2)) as [w s2].
  simpl in Hfalse. subst w. by eexists.
Qed.

(** What a request for a token must have done: current epoch, decodable
    value below the modulus, and the announced work on exactly this value. *)
Definition worked (sha256 : bytes -> bytes) (pow_bits : Z) (body : IssueIn) : Prop :=
  let digest := sha256 (encode (is_epoch_id body ++ ":" ++ is_blinded body ++ ":" ++ is_pow_nonce body)) in
  os2ip digest < 2 ^ (8 * Z.of_nat (length digest) - pow_bits).

Lemma verify_pow_worked sha256 pow_bits body :
  (forall x, length (sha256 x) = 32%nat) -> (forall x, bytes_ok (sha256 x)) -> 0 <= pow_bits <= 256 ->
  verify_pow sha256 (is_epoch_id body ++ ":" ++ is_blinded body) (is_pow_nonce body) pow_bits = true <->
  worked sha256 pow_bits body.
Proof.
  intros Hl Hok Hb. unfold verify_pow, worked. rewrite !append_assoc, Z.leb_le.
  apply leading_zero_bits_iff; [apply Hok|rewrite Hl; lia].
Qed.

(** What a token costs.  The endpoint signs only for the current epoch, a
    decodable value below the modulus, and the announced work on exactly this
    value; then the answer decodes to the value's plain RSA signature, and no
    state changes but the parsed-key cache.  Each way to fail has its own
    status, and a request that meets the conditions does not fail. *)
Theorem issue_spec {R} `{RL : RedisLaws R} sha256 private_bytes load_pem fresh (between : R -> R)
    pow_bits t pem body s :
  issuer_ok load_pem t pem s -> rsa_ok (load_pem pem) ->
  (forall x, length (sha256 x) = 32%nat) -> (forall x, bytes_ok (sha256 x)) -> 0 <= pow_bits <= 256 ->
  let k := load_pem pem in
  let '(v, s') := issue sha256 private_bytes load_pem true pow_bits t fresh between body s in
  iredis s' = iredis s /\
  match v with
  | Ok out =>
      io_epoch_id out = is_epoch_id body /\ epoch_id sha256 (public_key k) = Ok (is_epoch_id body) /\
      worked sha256 pow_bits body /\
      exists blinded sig, b64decode (is_blinded body) = Some blinded /\ os2ip blinded < key_n k /\
        b64decode (io_blind_sig out) = Some sig /\ os2ip sig = os2ip blinded ^ key_d k mod key_n k
  | Raise x =>
      (x = HTTPException 409 "stale epoch — re-fetch /params" /\
         epoch_id sha256 (public_key k) <> Ok (is_epoch_id body)) \/
      (x = HTTPException 400 "blinded not base64" /\ b64decode (is_blinded body) = None) \/
      (x = HTTPException 400 "insufficient proof-of-work" /\ ~ worked sha256 pow_bits body) \/
      (x = HTTPException 400 "malformed blinded value" /\
         exists blinded, b64decode (is_blinded body) = Some blinded /\ key_n k <= os2ip blinded)
  end.
Proof.
  intros Hok Hk Hl Hb Hpow k. pose proof (rsa_pos k Hk) as Hn.
  destruct (issuer_key_known private_bytes load_pem fresh between t pem s Hok) as (c & Ek & _).
  unfold issue, sign_blinded. simpl. rewrite Ek. fold k.
  destruct (epoch_id_total sha256 k) as [eid Ee]; [lia|]. rewrite Ee. cbn [obind].
  destruct (String.eqb_spec (is_epoch_id body) eid) as [<-|Hne]; cbn [negb].
  2: { split; [done|]. left. split; [done|]. by intros [= ->]. }
  destruct (b64decode (is_blinded body)) as [blinded|] eqn:Eb; [|split; [done|tauto]].
  pose proof (verify_pow_worked sha256 pow_bits body Hl Hb Hpow) as Hw.
  destruct (verify_pow _ _ _ _); cbn [negb]; [|split; [done|]; right; right; left; split; [done|]; by rewrite <-Hw].
  pose proof (os2ip_bound blinded (b64decode_ok _ _ Eb)) as Hbd.
  destruct (decide (os2ip blinded < key_n k)) as [Hlt|Hge].
  - destruct (blind_sign_Ok k blinded Hk) as (sig & -> & Hsig & _ & Hsok); [lia|]. split; [done|].
    split; [done|]. split; [done|]. split; [by apply Hw|]. exists blinded, sig. simpl.
    by rewrite b64decode_encode.
  - rewrite blind_sign_range by lia. split; [done|]. right; right; right. split; [done|].
    exists blinded. split; [done|lia].
Qed.

(** ** Examples *)

Definition demo_sha (b : bytes) : bytes := be_bytes 32 (os2ip b mod 1000).
Definition demo_state : issuer (R := store) :=
  mkIssuer {[ ISSUER_KEY := (VStr "pem", None) ]} None.
Definition demo_epoch : string := "0000000000000000".
Definition demo_token : token := mkToken (Some demo_epoch) (Some "AQ=="%string) (Some "Ag=="%string).

Lemma demo_state_ok : issuer_ok (fun _ => demo_issuer) 0 "pem" demo_state.
Proof. split; [reflexivity|done]. Qed.

Lemma token_single_use_witness :
  consume_run demo_sha (fun _ _ _ => true) (fun _ => "pem"%string) (fun _ => demo_issuer) demo_issuer
    (fun r => r) [(5, demo_token); (7, demo_token); (5 + days 14, demo_token)] demo_state
    = [Ok true; Ok false; Ok true]
  /\ 5 + days 14 <= 5 + days 14.
Proof.
  assert (E : consume_run demo_sha (fun _ _ _ => true) (fun _ => "pem"%string) (fun _ => demo_issuer)
    demo_issuer (fun r => r) [(5, demo_token); (7, demo_token); (5 + days 14, demo_token)] demo_state
    = [Ok true; Ok false; Ok true]) by (vm_compute; reflexivity).
  split; [exact E|].
  apply (token_single_use demo_sha (fun _ _ _ => true) (fun _ => "pem"%string) (fun _ => demo_issuer)
           demo_issuer (fun r => r) 0 "pem" [(5, demo_token); (7, demo_token); (5 + days 14, demo_token)]
           demo_state 0 2 5 (5 + days 14) demo_token demo_token
           (spent_key demo_sha demo_epoch [1] [2])); try (by rewrite E);
    first [exact demo_state_ok | repeat constructor; done | lia | reflexivity].
Defined.

Lemma token_respent_witness :
  consume_run demo_sha (fun _ _ _ => true) (fun _ => "pem"%string) (fun _ => demo_issuer) demo_issuer
    (fun r => r) [(5, demo_token); (5 + days 14, demo_token)] demo_state = [Ok true; Ok true].
Proof.
  apply (token_respent demo_sha (fun _ _ _ => true) (fun _ => "pem"%string) (fun _ => demo_issuer)
           demo_issuer (fun r => r) 5 "pem" demo_token demo_state).
  - split; [reflexivity|done].
  - reflexivity.
  - vm_compute. reflexivity.
Defined.

Definition demo_paid : SealedSendIn token := mkSealedSendIn 7 "message" None false "ct" (Some demo_token) None.
Definition demo_verify (e : env) (tok : token) (s : issuer (R := store)) : outcome bool * issuer (R := store) :=
  verify_and_consume_token demo_sha (fun _ _ _ => true) (fun _ => "pem"%string) (fun _ => demo_issuer)
    (now e) demo_issuer (fun r => r) tok s.
Definition demo_sent_once : outcome SendOut * db * issuer (R := store) * list event :=
  send_sealed (demo_verify demo_env) demo_env demo_paid demo_delivery demo_state.

(** A second token is spent in between, and another worker refuses the first
    thirteen days later. *)
Definition demo_token2 : token := mkToken (Some demo_epoch) (Some "AQ=="%string) (Some "Aw=="%string).
Definition demo_between : outcome bool * issuer (R := store) :=
  consume demo_sha (fun _ _ _ => true) (fun _ => "pem"%string) (fun _ => demo_issuer) demo_issuer (fun r => r)
     (now demo_env + 1, demo_token2) (mkIssuer (iredis demo_sent_once.1.2) None).
Definition demo_later : env := mkEnv (days 33) (fun _ => false) (fun _ => []) 14 false.

Lemma replayed_token_refused_witness :
  demo_sent_once.1.1.1 = Ok (mkSendOut false true (days 20)) /\ demo_between.1 = Ok true /\
  exists s'', send_sealed (demo_verify demo_later) demo_later demo_paid demo_sent_once.1.1.2 (mkIssuer (iredis demo_between.2) None) =
    (Raise (HTTPException 403 "invalid or spent deposit token"), demo_sent_once.1.1.2, s'', []).
Proof.
  split; [vm_compute; reflexivity|]. split; [vm_compute; reflexivity|].
  apply (replayed_token_refused demo_sha (fun _ _ _ => true) (fun _ => "pem"%string) (fun _ => demo_issuer)
           demo_issuer (fun r => r) "pem" demo_env demo_later demo_paid demo_paid demo_token demo_token demo_delivery
           demo_sent_once.1.1.2 demo_sent_once.1.1.2 demo_state (mkSendOut false true (days 20))
           demo_sent_once.1.2 demo_sent_once.2 (now demo_env + 1) (iredis demo_between.2) None).
  - split; [reflexivity|done].
  - reflexivity.
  - reflexivity.
  - reflexivity.
  - reflexivity.
  - vm_compute. reflexivity.
  - apply rtc_once. apply el_deposit; [lia|done].
  - vm_compute. discriminate.
  - vm_compute. reflexivity.
  - done.
Defined.

Definition demo_request : IssueIn := mkIssueIn demo_epoch "BQ==" "n".

Lemma issue_spec_witness :
  let '(v, s') := issue demo_sha (fun _ => "pem"%string) (fun _ => demo_issuer) true 100 0 demo_issuer
                    (fun r => r) demo_request demo_state in
  iredis s' = iredis demo_state /\
  exists out sig, v = Ok out /\ b64decode (io_blind_sig out) = Some sig /\ os2ip sig = 5 ^ 7 mod 33.
Proof.
  pose proof (issue_spec demo_sha (fun _ => "pem"%string) (fun _ => demo_issuer) demo_issuer (fun r => r)
                100 0 "pem" demo_request demo_state demo_state_ok demo_issuer_ok) as Hs.
  destruct (issue _ _ _ _ _ _ _ _ demo_request demo_state) as [v s'] eqn:E.
  destruct Hs as [Hr Hv].
  - intros x. apply length_be_bytes.
  - intros x. apply be_bytes_ok.
  - lia.
  - split; [exact Hr|]. vm_compute in E. injection E as <- <-.
    destruct Hv as (_ & _ & _ & blinded & sig & Eb & _ & Es & Hsig). eexists _, sig.
    split; [reflexivity|]. split; [exact Es|]. vm_compute in Eb. injection Eb as <-. exact Hsig.
Defined.
