(* ===== verification/KeyStorage.v ===== *)
(** * The tables of the key server

    The rows [routers/keys.py], [services/door.py] and [routers/guest_cards.py]
    work on: the key columns of [users], secondary devices
    ([models/device.py]), one-time prekeys ([models/prekey.py]) and guest cards
    ([models/guest_card.py]), beside the tables of [Storage]. *)

From stdpp Require Import base list gmap strings.
From Stdlib Require Import ZArith Lia.
From S2P Require Import Prelude Storage.

Record SignedPreKey := mkSignedPreKey { spk_id : Z; spk_public : string; spk_signature : string }.
Record KyberPreKey := mkKyberPreKey { kpk_id : Z; kpk_public : string; kpk_signature : string }.

(** The key columns of a [users] row.  The six nullable bundle columns of each
    prekey are one option here: the code writes them together. *)
Record UserKeys := mkUserKeys {
  identity_key : string;
  signing_key : option string;
  signal_identity_key : option string;
  signal_registration_id : option Z;
  signed_prekey : option SignedPreKey;
  signed_prekey_uploaded_at : option Z;
  kyber_prekey : option KyberPreKey;
  kyber_prekey_uploaded_at : option Z
}.

Record Device := mkDevice {
  dv_id : Z;
  dv_uin : Z;
  dv_device_id : Z;
  dv_label : option string;
  dv_sealed_sender_pub : string;
  dv_identity_key : string;
  dv_registration_id : Z;
  dv_signed_prekey : SignedPreKey;
  dv_signed_at : Z;
  dv_kyber_prekey : KyberPreKey;
  dv_kyber_at : Z;
  dv_auth_device_id : option string;
  dv_created_at : Z;
  dv_revoked_at : option Z
}.

Record OneTimePreKey := mkOneTimePreKey {
  opk_row : Z;
  opk_uin : Z;
  opk_device : option Z;
  opk_prekey_id : Z;
  opk_public : string;
  opk_consumed : bool;
  opk_consumed_at : option Z;
  opk_created_at : Z
}.

Record GuestCard := mkGuestCard {
  gc_id : Z;
  card_hash : string;
  gc_owner : Z;
  gc_label : option string;
  gc_created_at : Z;
  last_used_on : option Z;   (* a date: days since the epoch *)
  revoked : bool
}.

Record kdb := mkKdb {
  core : db;
  user_keys : gmap Z UserKeys;
  devices : list Device;
  prekeys : list OneTimePreKey;
  guest_cards : list GuestCard;
  next_device_row : Z;
  next_opk_row : Z;
  next_card_row : Z
}.

#[export] Instance OneTimePreKey_eq_dec : EqDecision OneTimePreKey.
Proof. solve_decision. Defined.
#[export] Instance GuestCard_eq_dec : EqDecision GuestCard.
Proof. solve_decision. Defined.

Definition set_core (x : db) (d : kdb) : kdb :=
  mkKdb x (user_keys d) (devices d) (prekeys d) (guest_cards d)
    (next_device_row d) (next_opk_row d) (next_card_row d).
Definition set_user_keys (f : gmap Z UserKeys -> gmap Z UserKeys) (d : kdb) : kdb :=
  mkKdb (core d) (f (user_keys d)) (devices d) (prekeys d) (guest_cards d)
    (next_device_row d) (next_opk_row d) (next_card_row d).
Definition set_devices (f : list Device -> list Device) (d : kdb) : kdb :=
  mkKdb (core d) (user_keys d) (f (devices d)) (prekeys d) (guest_cards d)
    (next_device_row d) (next_opk_row d) (next_card_row d).
Definition set_prekeys (f : list OneTimePreKey -> list OneTimePreKey) (d : kdb) : kdb :=
  mkKdb (core d) (user_keys d) (devices d) (f (prekeys d)) (guest_cards d)
    (next_device_row d) (next_opk_row d) (next_card_row d).
Definition set_cards (f : list GuestCard -> list GuestCard) (d : kdb) : kdb :=
  mkKdb (core d) (user_keys d) (devices d) (prekeys d) (f (guest_cards d))
    (next_device_row d) (next_opk_row d) (next_card_row d).

(** Inserts take the next id of the table. *)
Definition insert_device (mk : Z -> Device) (d : kdb) : kdb :=
  mkKdb (core d) (user_keys d) (devices d ++ [mk (next_device_row d)]) (prekeys d) (guest_cards d)
    (next_device_row d + 1) (next_opk_row d) (next_card_row d).
Definition insert_prekey (mk : Z -> OneTimePreKey) (d : kdb) : kdb :=
  mkKdb (core d) (user_keys d) (devices d) (prekeys d ++ [mk (next_opk_row d)]) (guest_cards d)
    (next_device_row d) (next_opk_row d + 1) (next_card_row d).
Definition insert_card (mk : Z -> GuestCard) (d : kdb) : kdb :=
  mkKdb (core d) (user_keys d) (devices d) (prekeys d) (guest_cards d ++ [mk (next_card_row d)])
    (next_device_row d) (next_opk_row d) (next_card_row d + 1).

Definition empty_kdb : kdb := mkKdb empty_db ∅ [] [] [] 1 1 1.
