(* ===== verification/Door.v ===== *)
(** * The door of a closed island

    Models [src/app/services/door.py] (who may be handed a key),
    [src/app/models/guest_card.py] and [src/app/routers/guest_cards.py] (the
    cards a resident hands out).

    A database session is a working copy: what a handler changed is stored by
    its commit and lost without one.  The functions here that change a session
    return the changed copy; the handlers say what they commit. *)

From stdpp Require Import base list sorting gmap strings.
From Stdlib Require Import ZArith Lia Ascii.
From S2P Require Import Prelude Text Storage Redis GuestPolicy Bytes KeyStorage.

(** ** Cards *)

Definition MAX_CARDS : nat := 200.

(** The header a card is presented in. *)
Definition card_from (header : option string) : option string :=
  match header with
  | None => None
  | Some raw =>
      if bool_decide (raw = ""%string) then None
      else
        let raw := strip raw in
        if (0 <? String.length raw)%nat && (String.length raw <=? 128)%nat then Some raw else None
  end.

Definition is_hex (c : ascii) : bool :=
  let n := Z.of_nat (nat_of_ascii c) in
  ((48 <=? n) && (n <=? 57)) || ((97 <=? n) && (n <=? 102)).

(** [_HASH_RE.match], on a text that ends in no newline. *)
Definition hash_re (s : string) : bool :=
  (String.length s =? 64)%nat && forallb is_hex (String.list_ascii_of_string s).

Section cards.
Context (sha256 : bytes -> bytes).

Definition hash_card (raw : string) : string := hexdigest (sha256 (utf8 (strip raw))).

(** The card of [target] that [raw] is, if it is live. *)
Definition opens (target : Z) (raw : string) (c : GuestCard) : bool :=
  String.eqb (card_hash c) (hash_card raw) && (gc_owner c =? target) && negb (revoked c).

(** The date of an instant. *)
Definition date (now : Z) : Z := now / (86400 * usec_per_sec).

Definition stamp (today : Z) (id : Z) (c : GuestCard) : GuestCard :=
  if gc_id c =? id
  then mkGuestCard (gc_id c) (card_hash c) (gc_owner c) (gc_label c) (gc_created_at c) (Some today) (revoked c)
  else c.

Definition redeem_card (now target : Z) (raw : option string) (d : kdb) : bool * kdb :=
  match raw with
  | None => (false, d)
  | Some raw =>
      if bool_decide (raw = ""%string) then (false, d)
      else match find_first (opens target raw) (guest_cards d) with
      | None => (false, d)
      | Some row =>
          (true, if bool_decide (last_used_on row = Some (date now)) then d
                 else set_cards (map (stamp (date now) (gc_id row))) d)
      end
  end.

(** ** The rules *)

(** [island_is_closed]; [None]: the worker has never read the settings. *)
Definition island_is_closed (setting : option bool) : bool := default true setting.

Definition strip_keys_from_discovery (closed : bool) : bool := closed.

Definition is_resident (d : kdb) (uin : option Z) : bool :=
  match uin with
  | None => false
  | Some u => match users (core d) !! u with
              | Some row => bool_decide (guest_status row = None)
              | None => false
              end
  end.

Inductive card_mode := CARD_FULL | CARD_SEAL_ONLY | CARD_REFUSED.

Definition open_card_mode (now target : Z) (card : option string) (closed refuse_strangers : bool) (d : kdb)
    : card_mode * kdb :=
  if negb closed then (CARD_FULL, d)
  else
    let '(ok, d) := redeem_card now target card d in
    if ok then (CARD_FULL, d)
    else if refuse_strangers then (CARD_REFUSED, d) else (CARD_SEAL_ONLY, d).

Definition may_fetch_key (now target : Z) (caller : option Z) (card : option string) (closed : bool) (d : kdb)
    : bool * kdb :=
  if negb closed then (true, d)
  else if bool_decide (caller = Some target) then (true, d)
  else if is_resident d caller then (true, d)
  else redeem_card now target card d.

(** ** [routers/guest_cards.py] *)

Record CardIn := mkCardIn { ci_card_hash : string; ci_label : option string }.

Definition live_cards (uin : Z) (d : kdb) : list GuestCard :=
  filter (fun c => gc_owner c = uin /\ revoked c = false) (guest_cards d).

(** [body.label or None] *)
Definition nonblank (s : option string) : option string :=
  match s with Some s => if bool_decide (s = ""%string) then None else Some s | None => None end.

Definition add_card (now : Z) (body : CardIn) (uin : Z) (d : kdb) : outcome GuestCard * kdb :=
  let digest := lower (strip (ci_card_hash body)) in
  if negb (hash_re digest) then (Raise (HTTPException 400 "card_hash must be sha256-hex"), d)
  else if (MAX_CARDS <=? length (live_cards uin d))%nat
  then (Raise (HTTPException 409 "too many cards; revoke one first"), d)
  else match find_first (fun c => String.eqb (card_hash c) digest) (guest_cards d) with
  | Some existing =>
      if negb (gc_owner existing =? uin) then (Raise (HTTPException 409 "card already registered"), d)
      else (Ok existing, d)
  | None =>
      let mk id := mkGuestCard id digest uin (nonblank (ci_label body)) now None false in
      (Ok (mk (next_card_row d)), insert_card mk d)
  end.

Definition list_cards (uin : Z) (d : kdb) : list GuestCard :=
  take (MAX_CARDS * 2)
    (sort_by (fun c => - gc_created_at c) (filter (fun c => gc_owner c = uin) (guest_cards d))).

Definition revoke_row (digest : string) (uin : Z) (c : GuestCard) : GuestCard :=
  if String.eqb (card_hash c) digest && (gc_owner c =? uin)
  then mkGuestCard (gc_id c) (card_hash c) (gc_owner c) (gc_label c) (gc_created_at c) (last_used_on c) true
  else c.

Definition revoke_card (hash : string) (uin : Z) (d : kdb) : outcome unit * kdb :=
  let digest := lower (strip hash) in
  if negb (hash_re digest) then (Raise (HTTPException 400 "card_hash must be sha256-hex"), d)
  else
    let hit := existsb (fun c => String.eqb (card_hash c) digest && (gc_owner c =? uin)) (guest_cards d) in
    (if hit then Ok tt else Raise (HTTPException 404 "no such card"),
     set_cards (map (revoke_row digest uin)) d).
End cards.

(** ** Facts *)

Lemma opens_spec sha256 target raw c :
  opens sha256 target raw c = true <->
  card_hash c = hash_card sha256 raw /\ gc_owner c = target /\ revoked c = false.
Proof.
  unfold opens. rewrite !andb_true_iff, String.eqb_eq, Z.eqb_eq, negb_true_iff. tauto.
Qed.

Lemma redeem_card_true sha256 now target raw d :
  (redeem_card sha256 now target raw d).1 = true <->
  exists s c, raw = Some s /\ s <> ""%string /\ c ∈ guest_cards d /\
    card_hash c = hash_card sha256 s /\ gc_owner c = target /\ revoked c = false.
Proof.
  unfold redeem_card. destruct raw as [s|]; [|split; [done|by intros (?&?&?&_)]].
  case_bool_decide as Hs; [split; [done|]; intros (s' & c & [= <-] & ? & _); done|].
  destruct (find_first _ _) as [row|] eqn:E; simpl.
  - split; [|done]. intros _. apply find_first_Some in E as [Hin Ho]. exists s, row.
    by apply opens_spec in Ho.
  - split; [done|]. intros (s' & c & [= <-] & _ & Hin & Ho).
    apply (find_first_absent _ _ c) in E; [|done]. apply opens_spec in Ho. congruence.
Qed.

(** On a closed island a key is handed to exactly three kinds of caller: the
    owner, a resident of the island who is no guest, and whoever presents a card
    that the owner registered and has not revoked. *)
Theorem may_fetch_key_rule sha256 now target caller card d :
  (may_fetch_key sha256 now target caller card true d).1 = true <->
  caller = Some target \/
  (exists u row, caller = Some u /\ users (core d) !! u = Some row /\ guest_status row = None) \/
  (exists s c, card = Some s /\ s <> ""%string /\ c ∈ guest_cards d /\
     card_hash c = hash_card sha256 s /\ gc_owner c = target /\ revoked c = false).
Proof.
  unfold may_fetch_key. simpl. case_bool_decide as Hc; [simpl; tauto|].
  destruct (is_resident d caller) eqn:Er; simpl.
  - split; [|done]. intros _. right; left. unfold is_resident in Er.
    destruct caller as [u|]; [|done]. destruct (users (core d) !! u) as [row|] eqn:E; [|done].
    exists u, row. by case_bool_decide.
  - rewrite redeem_card_true. split; [tauto|]. intros [?|[(u & row & -> & E & Hg)|?]]; [done| |done].
    unfold is_resident in Er. rewrite E in Er. by rewrite bool_decide_eq_true_2 in Er.
Qed.

(** ** Cards over time *)

Inductive card_op :=
  | CAdd (now : Z) (body : CardIn) (uin : Z)
  | CRevoke (hash : string) (uin : Z)
  | CRedeem (now target : Z) (raw : option string).

Definition card_apply (sha256 : bytes -> bytes) (op : card_op) (d : kdb) : kdb :=
  match op with
  | CAdd now body uin => (add_card now body uin d).2
  | CRevoke hash uin => (revoke_card hash uin d).2
  | CRedeem now target raw => (redeem_card sha256 now target raw d).2
  end.
Definition card_run (sha256 : bytes -> bytes) (ops : list card_op) (d : kdb) : kdb :=
  foldl (fun d op => card_apply sha256 op d) d ops.

(** One row per digest, and at most [MAX_CARDS] live ones per owner. *)
Definition cards_wf (d : kdb) : Prop :=
  NoDup (map card_hash (guest_cards d)) /\ forall u, (length (live_cards u d) <= MAX_CARDS)%nat.

(** Every row with this digest is revoked, and there is one. *)
Definition dead (digest : string) (d : kdb) : Prop :=
  digest ∈ map card_hash (guest_cards d) /\
  forall c, c ∈ guest_cards d -> card_hash c = digest -> revoked c = true.

(** An update of the rows that keeps digests and owners and revives nothing. *)
Definition tame (f : GuestCard -> GuestCard) : Prop :=
  forall c, card_hash (f c) = card_hash c /\ gc_owner (f c) = gc_owner c /\
            (revoked c = true -> revoked (f c) = true).

Lemma tame_hashes f (l : list GuestCard) : tame f -> map card_hash (map f l) = map card_hash l.
Proof. intros Hf. rewrite map_map. apply map_ext. intros c. apply Hf. Qed.

Lemma tame_live f u (l : list GuestCard) : tame f ->
  (length (filter (fun c => gc_owner c = u /\ revoked c = false) (map f l)) <=
   length (filter (fun c => gc_owner c = u /\ revoked c = false) l))%nat.
Proof.
  intros Hf. induction l as [|c l IH]; simpl; [done|]. destruct (Hf c) as (_ & Ho & Hr).
  rewrite !filter_cons. destruct (decide (gc_owner (f c) = u /\ _)) as [[H1 H2]|];
    destruct (decide (gc_owner c = u /\ _)) as [|Hn]; simpl; try lia.
  exfalso. apply Hn. split; [congruence|]. destruct (revoked c); [|done]. by rewrite Hr in H2.
Qed.

Lemma tame_revoke digest u : tame (revoke_row digest u).
Proof. intros c. unfold revoke_row. by destruct (_ && _). Qed.
Lemma tame_stamp today id : tame (stamp today id).
Proof. intros c. unfold stamp. by destruct (_ =? _). Qed.

Lemma set_cards_wf f d : tame f -> cards_wf d -> cards_wf (set_cards (map f) d).
Proof.
  intros Hf [Hn Hl]. split; simpl; [by rewrite tame_hashes|]. intros u.
  etrans; [|apply (Hl u)]. by apply tame_live.
Qed.

Lemma set_cards_dead f digest d : tame f -> dead digest d -> dead digest (set_cards (map f) d).
Proof.
  intros Hf [Hin Hd]. split; simpl; [by rewrite tame_hashes|].
  intros c (c0 & -> & Hc0)%list_elem_of_fmap Hh. destruct (Hf c0) as (Hh0 & _ & Hr).
  apply Hr, Hd; [done|congruence].
Qed.

#[export] Hint Resolve tame_revoke tame_stamp : rcq.

Lemma redeem_card_cases sha256 now target raw d :
  (redeem_card sha256 now target raw d).2 = d \/
  exists id, (redeem_card sha256 now target raw d).2 = set_cards (map (stamp (date now) id)) d.
Proof. unfold redeem_card. repeat case_match; simpl; eauto. Qed.

Lemma add_card_cases now body u d :
  (add_card now body u d).2 = d \/
  exists mk, (add_card now body u d).2 = insert_card mk d /\
    (forall id, gc_owner (mk id) = u /\ card_hash (mk id) ∉ map card_hash (guest_cards d)) /\
    (length (live_cards u d) < MAX_CARDS)%nat.
Proof.
  unfold add_card. set (digest := lower _). destruct (negb _); [by left|].
  destruct (Nat.leb_spec MAX_CARDS (length (live_cards u d))); [by left|].
  destruct (find_first _ _) as [c|] eqn:E; [case_match; by left|right].
  eexists. split; [done|]. split; [|done]. intros id. split; [done|]. simpl.
  intros (c & Hc & Hin)%list_elem_of_fmap. apply (find_first_absent _ _ c) in E; [|done].
  apply String.eqb_neq in E. congruence.
Qed.

Lemma insert_card_wf mk u d :
  (forall id, gc_owner (mk id) = u /\ card_hash (mk id) ∉ map card_hash (guest_cards d)) ->
  (length (live_cards u d) < MAX_CARDS)%nat -> cards_wf d -> cards_wf (insert_card mk d).
Proof.
  intros Hmk Hlt [Hn Hl]. destruct (Hmk (next_card_row d)) as [Ho Hh]. split; simpl.
  - rewrite map_app. apply NoDup_app. split; [done|]. split; [|apply NoDup_singleton].
    intros x Hx ->%list_elem_of_singleton. done.
  - intros v. unfold live_cards in *. simpl. rewrite filter_app, length_app, filter_cons, filter_nil.
    specialize (Hl v). destruct (decide _) as [[E _]|]; simpl; [|lia]. rewrite Ho in E. subst v. lia.
Qed.

Lemma card_apply_wf sha256 op d : cards_wf d -> cards_wf (card_apply sha256 op d).
Proof.
  intros Hw. destruct op as [now body u|hash u|now target raw]; simpl.
  - destruct (add_card_cases now body u d) as [->|(mk & -> & Hmk & Hlt)]; [done|].
    by apply (insert_card_wf mk u).
  - unfold revoke_card. destruct (negb _); [done|]. by apply set_cards_wf; [auto with rcq|].
  - destruct (redeem_card_cases sha256 now target raw d) as [->|[id ->]]; [done|].
    by apply set_cards_wf; [auto with rcq|].
Qed.

Lemma card_apply_dead sha256 op digest d : dead digest d -> dead digest (card_apply sha256 op d).
Proof.
  intros Hd. destruct op as [now body u|hash u|now target raw]; simpl.
  - destruct (add_card_cases now body u d) as [->|(mk & -> & Hmk & _)]; [done|].
    destruct Hd as [Hin Hd]. destruct (Hmk (next_card_row d)) as [_ Hn]. split; simpl.
    + rewrite map_app. set_solver.
    + intros c [Hc| ->%list_elem_of_singleton]%elem_of_app Hh; [by apply Hd|]. by rewrite Hh in Hn.
  - unfold revoke_card. destruct (negb _); [done|]. by apply set_cards_dead; [auto with rcq|].
  - destruct (redeem_card_cases sha256 now target raw d) as [->|[id ->]]; [done|].
    by apply set_cards_dead; [auto with rcq|].
Qed.

(** Whatever residents register and revoke and strangers present, a card is
    one row (its digest belongs to one owner), and nobody has more than 200
    live cards. *)
Theorem cards_wf_run sha256 ops d : cards_wf d -> cards_wf (card_run sha256 ops d).
Proof.
  unfold card_run. revert d; induction ops as [|op ops IH]; intros d Hw; simpl; [done|].
  by apply IH, card_apply_wf.
Qed.

Lemma cards_wf_run_witness :
  cards_wf (card_run (fun b => b) [CAdd 0 (mkCardIn "x" None) 7; CRevoke "x" 7; CRedeem 0 7 (Some "x"%string)]
              empty_kdb).
Proof. apply cards_wf_run. split; [constructor|]. intros u. apply Nat.le_0_l. Defined.

Lemma revoke_card_dead hash owner d :
  NoDup (map card_hash (guest_cards d)) -> (revoke_card hash owner d).1 = Ok tt ->
  dead (lower (strip hash)) (revoke_card hash owner d).2.
Proof.
  intros Hn Hr. unfold revoke_card in *. destruct (negb _); [done|]. cbn [fst snd] in *.
  destruct (existsb _ _) eqn:E; [|done].
  apply existsb_elem in E as (c & Hin & Hc). apply andb_prop in Hc as [Hh Ho].
  apply String.eqb_eq in Hh. apply Z.eqb_eq in Ho. split; simpl.
  - rewrite tame_hashes by auto with rcq. rewrite <-Hh. by apply list_elem_of_fmap_2.
  - intros c' (c0 & -> & Hin0)%list_elem_of_fmap Hh'. destruct (tame_revoke (lower (strip hash)) owner c0) as [E0 _].
    assert (c0 = c) as ->.
    { apply (NoDup_map_inj card_hash (guest_cards d)); [done|done|done|congruence]. }
    unfold revoke_row. by rewrite Hh, String.eqb_refl, Ho, Z.eqb_refl.
Qed.

(** A revoked card stays revoked: whatever is registered (by its owner again,
    or by somebody who kept a copy), revoked or presented afterwards, it opens
    nobody's door. *)
Theorem revoked_card_stays_shut sha256 ops hash owner d raw now target :
  cards_wf d -> (revoke_card hash owner d).1 = Ok tt ->
  hash_card sha256 raw = lower (strip hash) ->
  (redeem_card sha256 now target (Some raw)
     (card_run sha256 ops (revoke_card hash owner d).2)).1 = false.
Proof.
  intros [Hn _] Hr Hh.
  assert (Hd : dead (lower (strip hash)) (revoke_card hash owner d).2)
    by (by apply revoke_card_dead).
  assert (Hd' : dead (lower (strip hash)) (card_run sha256 ops (revoke_card hash owner d).2)).
  { unfold card_run. revert Hd. generalize (revoke_card hash owner d).2. clear.
    induction ops as [|op ops IH]; intros d Hd; simpl; [done|]. by apply IH, card_apply_dead. }
  apply not_true_iff_false. rewrite redeem_card_true. intros (s & c & [= <-] & _ & Hin & Hc & _ & Hf).
  rewrite (proj2 Hd' c Hin) in Hf; [done|congruence].
Qed.

(** A card that is the digest of itself. *)
Definition demo_digest : string := "0123456789abcdef0123456789abcdef0123456789abcdef0123456789abcdef".
Definition demo_sha32 (b : bytes) : bytes :=
  map (fun i => 16 * (2 * i mod 16) + (2 * i + 1) mod 16) (map Z.of_nat (seq 0 32)).
Definition demo_cards : kdb := (add_card 0 (mkCardIn demo_digest None) 7 empty_kdb).2.

Lemma revoked_card_stays_shut_witness :
  (redeem_card demo_sha32 9 7 (Some "the card"%string)
     (card_run demo_sha32 [CAdd 5 (mkCardIn demo_digest None) 7; CAdd 6 (mkCardIn demo_digest None) 8]
        (revoke_card demo_digest 7 demo_cards).2)).1 = false.
Proof.
  apply revoked_card_stays_shut; [|vm_compute; reflexivity|vm_compute; reflexivity].
  apply (card_apply_wf demo_sha32 (CAdd 0 (mkCardIn demo_digest None) 7)).
  split; [constructor|]. intros u. apply Nat.le_0_l.
Defined.
