(* ===== verification/Prekeys.v ===== *)
(** * The key server

    Models [src/app/routers/keys.py]: uploading and topping up prekey bundles,
    handing them out, secondary devices and their revocation; with the two
    sweeps behind it ([src/app/services/prekey_sweep.py],
    [src/app/services/device_sweep.py]).

    A handler takes the committed tables and gives back what it committed; a
    one-time prekey is claimed by [claim_opk] ([PrekeyProtocol] has the claims
    of concurrent requests under the row locks of the database). *)

From stdpp Require Import base list sorting gmap strings.
From Stdlib Require Import ZArith Lia Ascii.
From S2P Require Import Prelude Text Storage Redis GuestPolicy Sessions Devices Bytes DepositAuth DepositStore KeyStorage Door.

Definition PRIMARY_DEVICE_ID : Z := 1.
Definition MAX_DEVICE_ID : Z := 127.
Definition TARGET_PREKEY_COUNT : Z := 100.

Record OneTimePreKeyIn := mkOpkIn { oi_id : Z; oi_public : string }.

Record BundleIn := mkBundleIn {
  bi_identity_key : string;
  bi_registration_id : Z;
  bi_signed_prekey : SignedPreKey;
  bi_kyber_prekey : KyberPreKey;
  bi_one_time_prekeys : list OneTimePreKeyIn
}.

Record DeviceRegisterIn := mkDeviceRegisterIn {
  dr_bundle : BundleIn;
  dr_sealed_sender_pub : string;
  dr_label : option string
}.

Record BundleOut := mkBundleOut {
  bo_uin : Z;
  bo_device_id : Z;
  bo_sealed_sender_pub : string;
  bo_registration_id : Z;
  bo_identity_key : string;
  bo_signing_key : string;
  bo_signed_prekey : SignedPreKey;
  bo_kyber_prekey : KyberPreKey;
  bo_one_time_prekey : option OneTimePreKeyIn
}.

Record StatusOut := mkStatusOut {
  so_has_bundle : bool;
  so_one_time_prekey_count : Z;
  so_target_count : Z;
  so_signed_prekey_age_seconds : option Z;
  so_signal_identity_key : option string
}.

Record DeviceInfo := mkDeviceInfo { dn_device_id : Z; dn_label : string; dn_identity_key : string }.

(** An announcement to the account's devices ([_announce_device_event]: a
    socket frame and a push that names no label), or an event of [Devices]. *)
Inductive key_event :=
  | DeviceEvent (uin : Z) (kind : string) (device_id : Z) (label : option string) (push_body : string)
  | SessionEvent (e : dev_event).

(** The headers of a request: the deposit token and the guest card. *)
Record key_request := mkKeyRequest { hdr_token : option string; hdr_card : option string }.

(** ** One-time prekeys *)

Definition in_pool (uin : Z) (device_id : option Z) (k : OneTimePreKey) : bool :=
  (opk_uin k =? uin) && bool_decide (opk_device k = device_id).

(** The rows a claim may take: unconsumed, not locked by another claim. *)
Definition claimable (locked : gset Z) (uin : Z) (device_id : option Z) (k : OneTimePreKey) : bool :=
  in_pool uin device_id k && negb (opk_consumed k) && bool_decide (opk_row k ∉ locked).

(** [SELECT ... ORDER BY id LIMIT 1 FOR UPDATE SKIP LOCKED] *)
Definition pick_opk (locked : gset Z) (uin : Z) (device_id : option Z) (rows : list OneTimePreKey)
    : option OneTimePreKey :=
  head (sort_by opk_row (filter (fun k => claimable locked uin device_id k = true) rows)).

Definition consume_row (now row : Z) (k : OneTimePreKey) : OneTimePreKey :=
  if opk_row k =? row
  then mkOneTimePreKey (opk_row k) (opk_uin k) (opk_device k) (opk_prekey_id k) (opk_public k) true
         (Some now) (opk_created_at k)
  else k.

Definition claim_opk (now uin : Z) (device_id : option Z) (d : kdb) : option OneTimePreKey * kdb :=
  match pick_opk ∅ uin device_id (prekeys d) with
  | None => (None, d)
  | Some k => (Some k, set_prekeys (map (consume_row now (opk_row k))) d)
  end.

Definition new_opk (now uin : Z) (device_id : option Z) (pk : OneTimePreKeyIn) (row : Z) : OneTimePreKey :=
  mkOneTimePreKey row uin device_id (oi_id pk) (oi_public pk) false None now.

(** [for pk in body.one_time_prekeys: db.add(OneTimePreKey(...))] *)
Definition add_opks (now uin : Z) (device_id : option Z) (pks : list OneTimePreKeyIn) (d : kdb) : kdb :=
  foldl (fun d pk => insert_prekey (new_opk now uin device_id pk) d) d pks.

(** The ids of a pool, tombstones included. *)
Definition pool_ids (uin : Z) (device_id : option Z) (d : kdb) : list Z :=
  map opk_prekey_id (filter (fun k => in_pool uin device_id k = true) (prekeys d)).

(** The top-up of both replenish endpoints: what exists in the pool before the
    batch is skipped. *)
Definition top_up (now uin : Z) (device_id : option Z) (pks : list OneTimePreKeyIn) (d : kdb) : kdb :=
  let existing := pool_ids uin device_id d in
  add_opks now uin device_id (filter (fun pk => oi_id pk ∉ existing) pks) d.

Definition replenish_prekeys (now uin : Z) (pks : list OneTimePreKeyIn) (d : kdb) : kdb :=
  top_up now uin None pks d.

(** ** The primary bundle *)

Definition no_keys : UserKeys := mkUserKeys "" None None None None None None None.
(** [db.get(User, uin)]: the key columns of the row, if there is one. *)
Definition get_user (uin : Z) (d : kdb) : option UserKeys :=
  match users (core d) !! uin with
  | Some _ => Some (default no_keys (user_keys d !! uin))
  | None => None
  end.

Definition upload_bundle (now : Z) (body : BundleIn) (uin : Z) (d : kdb)
    : outcome unit * kdb * list key_event :=
  match get_user uin d with
  | None => (Raise (HTTPException 404 "user not found"), d, [])
  | Some u =>
      let prev_ik := signal_identity_key u in
      let u' := mkUserKeys (identity_key u) (signing_key u) (Some (bi_identity_key body))
                  (Some (bi_registration_id body)) (Some (bi_signed_prekey body)) (Some now)
                  (Some (bi_kyber_prekey body)) (Some now) in
      let d := set_user_keys (<[uin := u']>) d in
      let d := set_prekeys (filter (fun k => in_pool uin None k = false)) d in
      let d := add_opks now uin None (bi_one_time_prekeys body) d in
      (Ok tt, d,
       match prev_ik with
       | Some ik => if String.eqb ik (bi_identity_key body) then []
                    else [DeviceEvent uin "device_rekeyed" PRIMARY_DEVICE_ID None
                            "This account's primary device was re-keyed"]
       | None => []
       end)
  end.

Definition my_status (now uin : Z) (d : kdb) : outcome StatusOut :=
  match get_user uin d with
  | None => Raise (HTTPException 404 "user not found")
  | Some u =>
      Ok (mkStatusOut (bool_decide (is_Some (signal_identity_key u)))
            (Z.of_nat (length (filter (fun k => in_pool uin None k && negb (opk_consumed k) = true) (prekeys d))))
            TARGET_PREKEY_COUNT
            (option_map (fun t => Z.quot (now - t) usec_per_sec) (signed_prekey_uploaded_at u))
            (signal_identity_key u))
  end.

(** ** Handing bundles out *)

(** [base64.urlsafe_b64decode]'s alphabet. *)
Fixpoint unurlsafe (s : string) : string :=
  match s with
  | EmptyString => EmptyString
  | String c s => String (if bool_decide (c = "-"%char) then "+"%char
                          else if bool_decide (c = "_"%char) then "/"%char else c) (unurlsafe s)
  end.

Fixpoint pad (n : nat) : string := match n with O => ""%string | S n => String "=" (pad n) end.

Definition empty_token : token := mkToken None None None.

Section serving.
Context {R : Type} `{RR : Redis R}.
(** [json.loads] of a token document ([None]: not JSON, or no object); the
    token store on Redis; the digest of cards; [bucket_name]. *)
Context (json_token : bytes -> option token).
Context (verify_and_consume_token : Z -> token -> R -> outcome bool * R).
Context (sha256 : bytes -> bytes) (bucket : string -> string).

Definition token_from_request (header : option string) : option token :=
  match header with
  | None => None
  | Some raw =>
      if bool_decide (raw = ""%string) then None
      else
        let padding := pad (Z.to_nat (- Z.of_nat (String.length raw) mod 4)) in
        Some (match b64decode (unurlsafe (raw ++ padding)) with
              | Some blob => default empty_token (json_token blob)
              | None => empty_token
              end)
  end.

(** [enabled] is [settings.DEPOSIT_AUTH_ENABLED]. *)
Definition may_take_opk (enabled : bool) (now : Z) (rq : key_request) (me : option Z) (r : R)
    : outcome bool * R :=
  match token_from_request (hdr_token rq) with
  | Some tok =>
      if negb enabled then (Raise (HTTPException 403 "this island issues no deposit tokens"), r)
      else match verify_and_consume_token now tok r with
      | (Raise x, r) => (Raise x, r)
      | (Ok false, r) => (Raise (HTTPException 403 "invalid or spent deposit token"), r)
      | (Ok true, r) => (Ok true, r)
      end
  | None => (Ok (bool_decide (is_Some me)), r)
  end.

Definition no_such_user : exn := HTTPException 404 "no such user".

(** What a request reads beside the tables: whether the guest mirror answers,
    the instant, the closed-island setting, the deposit setting. *)
Record key_env := mkKeyEnv {
  ke_up : bool; ke_now : Z; ke_scratch : string; ke_closed : option bool; ke_deposits : bool
}.

(** [_guest_key_caller]; the session [w] may come back with a card stamped. *)
Definition guest_key_caller (e : key_env) (rq : key_request) (me : option Z) (uin : Z) (w : kdb) (r : R)
    : outcome (option Z * bool) * kdb * R :=
  match me with
  | None => (Ok (None, false), w, r)
  | Some u =>
      let '(g, r) := is_guest (ke_up e) (ke_now e) (ke_scratch e) (core w) u r in
      if negb g then (Ok (Some u, false), w, r)
      else if shares_room (core w) u uin then (Ok (None, true), w, r)
      else
        let '(ok, w) := may_fetch_key sha256 (ke_now e) uin None (card_from (hdr_card rq))
                          (island_is_closed (ke_closed e)) w in
        if ok then (Ok (None, true), w, r) else (Raise no_such_user, w, r)
  end.

(** The door every key lookup stands behind: who the caller is taken for. *)
Definition key_door (e : key_env) (rq : key_request) (me : option Z) (uin : Z) (w : kdb) (r : R)
    : outcome (option Z) * kdb * R :=
  match guest_key_caller e rq me uin w r with
  | (Raise x, w, r) => (Raise x, w, r)
  | (Ok (me, checked), w, r) =>
      if bool_decide (me = None) && negb checked then
        let '(ok, w) := may_fetch_key sha256 (ke_now e) uin None (card_from (hdr_card rq))
                          (island_is_closed (ke_closed e)) w in
        if ok then (Ok None, w, r) else (Raise no_such_user, w, r)
      else (Ok me, w, r)
  end.

(** The prekey part of a bundle: [d] is what stands if nothing is committed. *)
Definition bundle_opk (e : key_env) (rq : key_request) (me : option Z) (uin : Z) (device_id : option Z)
    (d w : kdb) (r : R) : outcome (option OneTimePreKeyIn) * kdb * R :=
  match may_take_opk (ke_deposits e) (ke_now e) rq me r with
  | (Raise x, r) => (Raise x, d, r)
  | (Ok false, r) => (Ok None, d, r)
  | (Ok true, r) =>
      match claim_opk (ke_now e) uin device_id w with
      | (None, _) => (Ok None, d, r)
      | (Some k, w) => (Ok (Some (mkOpkIn (opk_prekey_id k) (opk_public k))), w, r)
      end
  end.

(** [_primary_bundle] *)
Definition primary_bundle (e : key_env) (rq : key_request) (me : option Z) (uin : Z) (d w : kdb) (r : R)
    : outcome BundleOut * kdb * R :=
  match get_user uin w with
  | None => (Raise no_such_user, d, r)
  | Some u =>
      match signal_identity_key u, signed_prekey u, kyber_prekey u with
      | Some ik, Some spk, Some kpk =>
          let '(o, d, r) := bundle_opk e rq me uin None d w r in
          ((let! opk := o in
            Ok (mkBundleOut uin PRIMARY_DEVICE_ID (identity_key u) (default 0 (signal_registration_id u)) ik
                  (default ""%string (signing_key u)) spk kpk opk)), d, r)
      | _, _, _ => (Raise (HTTPException 404 "user has no signal bundle"), d, r)
      end
  end.

Definition fetch_bundle (e : key_env) (rq : key_request) (me : option Z) (uin : Z) (d : kdb) (r : R)
    : outcome BundleOut * kdb * R :=
  match get_user uin d with
  | None => (Raise no_such_user, d, r)
  | Some _ =>
      match key_door e rq me uin d r with
      | (Raise x, _, r) => (Raise x, d, r)
      | (Ok me, w, r) =>
          if has_linked_devices bucket (ke_now e) uin r
          then (Raise (HTTPException 404 "multi-device: v=1 only"), d, r)
          else primary_bundle e rq me uin d w r
      end
  end.

(** A live secondary device. *)
Definition find_device (uin device_id : Z) (d : kdb) : option Device :=
  find_first (fun v => (dv_uin v =? uin) && (dv_device_id v =? device_id)
                       && bool_decide (dv_revoked_at v = None)) (devices d).

Definition fetch_device_bundle (e : key_env) (rq : key_request) (me : option Z) (uin device_id : Z)
    (d : kdb) (r : R) : outcome BundleOut * kdb * R :=
  match key_door e rq me uin d r with
  | (Raise x, _, r) => (Raise x, d, r)
  | (Ok me, w, r) =>
      if device_id =? PRIMARY_DEVICE_ID then primary_bundle e rq me uin d w r
      else match find_device uin device_id w with
      | None => (Raise (HTTPException 404 "no such device"), d, r)
      | Some v =>
          let '(o, d, r) := bundle_opk e rq me uin (Some device_id) d w r in
          ((let! opk := o in
            Ok (mkBundleOut uin (dv_device_id v) (dv_sealed_sender_pub v) (dv_registration_id v)
                  (dv_identity_key v) "" (dv_signed_prekey v) (dv_kyber_prekey v) opk)), d, r)
      end
  end.

(** [keys.list_devices]; it commits nothing. *)
Definition list_key_devices (e : key_env) (rq : key_request) (me : option Z) (uin : Z) (d : kdb) (r : R)
    : outcome (list DeviceInfo) * R :=
  match key_door e rq me uin d r with
  | (Raise x, _, r) => (Raise x, r)
  | (Ok me, w, r) =>
      match get_user uin w with
      | None => (Raise no_such_user, r)
      | Some u =>
          let own := bool_decide (me = Some uin) in
          let rows := sort_by dv_device_id
                        (filter (fun v => dv_uin v = uin /\ dv_revoked_at v = None) (devices w)) in
          (Ok (match signal_identity_key u with
               | Some ik => [mkDeviceInfo PRIMARY_DEVICE_ID (if own then "primary" else "") ik]
               | None => []
               end ++
               map (fun v => mkDeviceInfo (dv_device_id v)
                               (if own then default ""%string (dv_label v) else "") (dv_identity_key v)) rows), r)
      end
  end.
End serving.

(** ** Secondary devices *)

Definition register_device (now : Z) (body : DeviceRegisterIn) (uin : Z) (auth_device : string) (d : kdb)
    : outcome Z * kdb * list key_event :=
  match get_user uin d with
  | None => (Raise (HTTPException 404 "user not found"), d, [])
  | Some _ =>
      let existing := map dv_device_id (filter (fun v => dv_uin v = uin) (devices d)) in
      let next_id := max_default PRIMARY_DEVICE_ID existing + 1 in
      if MAX_DEVICE_ID <? next_id then (Raise (HTTPException 409 "device limit reached"), d, [])
      else
        let b := dr_bundle body in
        let d := insert_device (fun row =>
                   mkDevice row uin next_id (dr_label body) (dr_sealed_sender_pub body)
                     (bi_identity_key b) (bi_registration_id b) (bi_signed_prekey b) now
                     (bi_kyber_prekey b) now (Some auth_device) now None) d in
        let d := add_opks now uin (Some next_id) (bi_one_time_prekeys b) d in
        (Ok next_id, d,
         [DeviceEvent uin "device_registered" next_id (dr_label body) "New device connected to this account"])
  end.

(** [_strip_revoked_device], with the [revoked_at] the handler sets. *)
Definition strip_revoked_device (now : Z) (v : Device) : Device :=
  mkDevice (dv_id v) (dv_uin v) (dv_device_id v) None "" "" 0 (mkSignedPreKey 0 "" "") now
    (mkKyberPreKey 0 "" "") now None now (Some now).

Definition revoke_device_slot {R} `{Redis R}
    (loads : string -> option jobj) (fromisoformat : string -> option (Z * bool)) (bucket : string -> string)
    (now device_id uin : Z) (caller_device : string) (d : kdb) (r : R)
    : outcome unit * kdb * R * list key_event :=
  if device_id =? PRIMARY_DEVICE_ID then (Raise (HTTPException 400 "primary_slot"), d, r, [])
  else match find_device uin device_id d with
  | None => (Raise (HTTPException 404 "no such device"), d, r, [])
  | Some v =>
      match revoker_gate loads fromisoformat bucket now uin caller_device (Some (dv_created_at v)) r with
      | Raise x => (Raise x, d, r, [])
      | Ok _ =>
          let d := set_prekeys (filter (fun k => in_pool uin (Some device_id) k = false)) d in
          let d := set_devices (map (fun w => if dv_id w =? dv_id v then strip_revoked_device now w else w)) d in
          let '(d, r, ev) :=
            match dv_auth_device_id v with
            | Some s =>
                if String.eqb s "" || String.eqb s caller_device then (d, r, [])
                else let '(x, r, ev) := revoke bucket now uin s (core d) r in
                     (set_core x d, r, map SessionEvent ev)
            | None => (d, r, [])
            end in
          (Ok tt, d, r,
           ev ++ [DeviceEvent uin "device_slot_revoked" device_id (dv_label v)
                    "A device slot was removed from this account"])
      end
  end.

Definition replenish_device_prekeys (now device_id uin : Z) (pks : list OneTimePreKeyIn) (d : kdb)
    : outcome unit * kdb :=
  match find_device uin device_id d with
  | None => (Raise (HTTPException 404 "no such device"), d)
  | Some _ => (Ok tt, top_up now uin (Some device_id) pks d)
  end.

(** ** The sweeps *)

Record sweep_limits := mkSweepLimits { max_age_days : Z; max_deletions : nat; dry_run : bool }.

(** [prekey_sweep._expired] *)
Definition expired_opk (cutoff : Z) (k : OneTimePreKey) : bool :=
  opk_consumed k && match opk_consumed_at k with Some t => t <? cutoff | None => false end.

Definition stamp_opk (now : Z) (k : OneTimePreKey) : OneTimePreKey :=
  if opk_consumed k && bool_decide (opk_consumed_at k = None)
  then mkOneTimePreKey (opk_row k) (opk_uin k) (opk_device k) (opk_prekey_id k) (opk_public k) true
         (Some now) (opk_created_at k)
  else k.

Definition sweep_prekeys (cfg : sweep_limits) (now : Z) (d : kdb) : kdb :=
  if dry_run cfg then d
  else
    let cutoff := now - days (max_age_days cfg) in
    let d := set_prekeys (map (stamp_opk now)) d in
    let ids := take (max_deletions cfg) (map opk_row (filter (fun k => expired_opk cutoff k = true) (prekeys d))) in
    set_prekeys (filter (fun k => opk_row k ∉ ids)) d.

(** [device_sweep.sweep_once] *)
Definition expired_device (cutoff : Z) (v : Device) : bool :=
  match dv_revoked_at v with Some t => t <? cutoff | None => false end.

Definition sweep_devices (cfg : sweep_limits) (now : Z) (d : kdb) : kdb :=
  if dry_run cfg then d
  else
    let cutoff := now - days (max_age_days cfg) in
    let ids := take (max_deletions cfg) (map dv_id (filter (fun v => expired_device cutoff v = true) (devices d))) in
    set_devices (filter (fun v => dv_id v ∉ ids)) d.

(** The defaults: the queue's retention and a week; six months. *)
Definition PREKEY_SWEEP (queue_ttl_days : Z) : sweep_limits := mkSweepLimits (queue_ttl_days + 7) 50000 false.
Definition DEVICE_SWEEP : sweep_limits := mkSweepLimits 180 500 false.

(** ** Claims *)

Lemma claimable_spec locked uin dv k :
  claimable locked uin dv k = true <->
  opk_uin k = uin /\ opk_device k = dv /\ opk_consumed k = false /\ opk_row k ∉ locked.
Proof.
  unfold claimable, in_pool.
  rewrite !andb_true_iff, Z.eqb_eq, negb_true_iff, !bool_decide_eq_true. tauto.
Qed.

Lemma in_pool_spec uin dv k : in_pool uin dv k = true <-> opk_uin k = uin /\ opk_device k = dv.
Proof. unfold in_pool. by rewrite andb_true_iff, Z.eqb_eq, bool_decide_eq_true. Qed.

Lemma pick_opk_Some locked uin dv rows k :
  pick_opk locked uin dv rows = Some k ->
  k ∈ rows /\ claimable locked uin dv k = true /\
  forall k', k' ∈ rows -> claimable locked uin dv k' = true -> opk_row k <= opk_row k'.
Proof.
  unfold pick_opk. intros (l & El)%head_Some.
  assert (Hin : k ∈ sort_by opk_row (filter (fun k => claimable locked uin dv k = true) rows))
    by (rewrite El; set_solver).
  rewrite elem_of_sort_by, list_elem_of_filter in Hin. split_and!; [by destruct Hin..|].
  intros k' Hk' Hc'.
  assert (Hin' : k' ∈ sort_by opk_row (filter (fun k => claimable locked uin dv k = true) rows))
    by (rewrite elem_of_sort_by, list_elem_of_filter; done).
  pose proof (sort_by_sorted opk_row (filter (fun k => claimable locked uin dv k = true) rows)) as Hs.
  rewrite El in Hs, Hin'. apply elem_of_cons in Hin' as [->|Hin']; [lia|].
  inversion Hs as [|? ? _ Hf]; subst. rewrite Forall_forall in Hf. by apply Hf.
Qed.

Lemma pick_opk_None locked uin dv rows :
  pick_opk locked uin dv rows = None -> forall k, k ∈ rows -> claimable locked uin dv k = false.
Proof.
  unfold pick_opk. rewrite head_None. intros E k Hk. apply not_true_iff_false. intros Hc.
  assert (Hin : k ∈ sort_by opk_row (filter (fun k => claimable locked uin dv k = true) rows))
    by (rewrite elem_of_sort_by, list_elem_of_filter; done).
  rewrite E in Hin. by apply elem_of_nil in Hin.
Qed.

(** Row ids come from the table's counter. *)
Definition rows_wf (d : kdb) : Prop :=
  NoDup (map opk_row (prekeys d)) /\ forall k, k ∈ prekeys d -> opk_row k < next_opk_row d.

Lemma insert_prekey_rows mk d :
  (forall row, opk_row (mk row) = row) -> rows_wf d -> rows_wf (insert_prekey mk d).
Proof.
  intros Hmk [Hn Hlt]. split; simpl.
  - rewrite map_app. apply NoDup_snoc; [|done]. rewrite Hmk. intros (k & E & Hk)%list_elem_of_fmap.
    specialize (Hlt k Hk). lia.
  - intros k [Hk| ->%list_elem_of_singleton]%elem_of_app; [specialize (Hlt k Hk)|rewrite Hmk]; lia.
Qed.

(** What a batch adds to the table. *)
Lemma add_opks_spec now uin dv pks d :
  let d' := add_opks now uin dv pks d in
  (exists new, prekeys d' = prekeys d ++ new /\ map opk_prekey_id new = map oi_id pks /\
     forall k, k ∈ new -> opk_uin k = uin /\ opk_device k = dv /\ opk_consumed k = false) /\
  (rows_wf d -> rows_wf d').
Proof.
  unfold add_opks. revert d; induction pks as [|pk pks IH]; intros d; simpl.
  { split; [|done]. exists []. rewrite app_nil_r. set_solver. }
  destruct (IH (insert_prekey (new_opk now uin dv pk) d)) as [(new & E & Hids & Hnew) Hwf]. split.
  - exists (new_opk now uin dv pk (next_opk_row d) :: new). simpl in E. rewrite <-app_assoc in E.
    split; [done|]. split; [simpl; by rewrite Hids|]. intros k [->|Hk]%elem_of_cons; [done|by apply Hnew].
  - intros Hd. apply Hwf. by apply insert_prekey_rows.
Qed.

Lemma pool_ids_app u dv d d' new :
  prekeys d' = prekeys d ++ new ->
  pool_ids u dv d' = pool_ids u dv d ++ map opk_prekey_id (filter (fun k => in_pool u dv k = true) new).
Proof. intros E. unfold pool_ids. by rewrite E, filter_app, map_app. Qed.

(** ** Operations on the pools

    The top-ups, the claims of the bundle handlers, the sweep, and what
    [upload_bundle], [register_device] and [revoke_device_slot] do to a pool:
    they wipe it and add a batch. *)
Inductive pk_op :=
  | OTop (uin : Z) (dv : option Z) (pks : list OneTimePreKeyIn)
  | OClaim (uin : Z) (dv : option Z)
  | OSweep (cfg : sweep_limits)
  | OWipe (uin : Z) (dv : option Z)
  | OAdd (uin : Z) (dv : option Z) (pks : list OneTimePreKeyIn).

(** The tables after an operation, and the prekey it handed out. *)
Definition pk_apply (now : Z) (op : pk_op) (d : kdb) : option OneTimePreKey * kdb :=
  match op with
  | OTop uin dv pks => (None, top_up now uin dv pks d)
  | OClaim uin dv => claim_opk now uin dv d
  | OSweep cfg => (None, sweep_prekeys cfg now d)
  | OWipe uin dv => (None, set_prekeys (filter (fun k => in_pool uin dv k = false)) d)
  | OAdd uin dv pks => (None, add_opks now uin dv pks d)
  end.

(** The prekeys handed out over a run, with the instants. *)
Fixpoint pk_run (ops : list (Z * pk_op)) (d : kdb) : list (Z * OneTimePreKey) * kdb :=
  match ops with
  | [] => ([], d)
  | (t, op) :: ops =>
      let '(k, d) := pk_apply t op d in
      let '(log, d) := pk_run ops d in
      (match k with Some k => (t, k) :: log | None => log end, d)
  end.

Fixpoint pk_in_order (t : Z) (ops : list (Z * pk_op)) : Prop :=
  match ops with [] => True | (t', _) :: ops => t <= t' /\ pk_in_order t' ops end.

(** An operation that leaves the pool [(u, dv)] standing: it is wiped and
    refilled by nobody, its batches name an id once, and the sweep waits [age]
    days at least. *)
Definition spares (u : Z) (dv : option Z) (age : Z) (op : pk_op) : Prop :=
  match op with
  | OTop u' dv' pks => u' = u -> dv' = dv -> NoDup (map oi_id pks)
  | OClaim _ _ => True
  | OSweep cfg => age <= max_age_days cfg
  | OWipe u' dv' => (u', dv') <> (u, dv)
  | OAdd u' dv' _ => (u', dv') <> (u, dv)
  end.

(** [seen]: what the pool has handed out.  Its ids are distinct, and each id
    handed out within [age] days still has its tombstone. *)
Record pool_inv (u : Z) (dv : option Z) (age now : Z) (seen : list (Z * Z)) (d : kdb) : Prop := {
  pi_rows : rows_wf d;
  pi_ids : NoDup (pool_ids u dv d);
  pi_tomb : forall t id, (t, id) ∈ seen -> now <= t + days age ->
    exists k, k ∈ prekeys d /\ in_pool u dv k = true /\ opk_prekey_id k = id /\ opk_consumed k = true /\
      forall c, opk_consumed_at k = Some c -> t <= c
}.

(** Rows rewritten in place. *)
Definition same_key (f : OneTimePreKey -> OneTimePreKey) : Prop :=
  forall k, opk_row (f k) = opk_row k /\ opk_uin (f k) = opk_uin k /\ opk_device (f k) = opk_device k /\
            opk_prekey_id (f k) = opk_prekey_id k /\ (opk_consumed k = true -> opk_consumed (f k) = true).

Lemma same_key_pool f u dv k : same_key f -> in_pool u dv (f k) = in_pool u dv k.
Proof. intros Hf. destruct (Hf k) as (_ & E1 & E2 & _). unfold in_pool. by rewrite E1, E2. Qed.

Lemma map_rows_wf f d : same_key f -> rows_wf d -> rows_wf (set_prekeys (map f) d).
Proof.
  intros Hf [Hn Hlt]. split; simpl.
  - rewrite map_map. erewrite map_ext; [exact Hn|]. intros k. apply Hf.
  - intros k (k0 & -> & Hk)%list_elem_of_fmap. destruct (Hf k0) as [-> _]. auto.
Qed.

Lemma map_pool_ids f u dv d : same_key f -> pool_ids u dv (set_prekeys (map f) d) = pool_ids u dv d.
Proof.
  intros Hf. unfold pool_ids. simpl. induction (prekeys d) as [|k l IH]; simpl; [done|].
  rewrite !filter_cons. destruct (Hf k) as (_ & _ & _ & E & _). rewrite (same_key_pool f) by done.
  destruct (decide _); simpl; [by rewrite E, IH|done].
Qed.

Lemma filter_rows_wf (P : OneTimePreKey -> Prop) `{!forall k, Decision (P k)} d :
  rows_wf d -> rows_wf (set_prekeys (filter P) d).
Proof.
  intros [Hn Hlt]. split; simpl; [by apply NoDup_map_filter|].
  intros k [_ Hk]%list_elem_of_filter. auto.
Qed.

Lemma filter_pool_ids (P : OneTimePreKey -> Prop) `{!forall k, Decision (P k)} u dv d :
  NoDup (pool_ids u dv d) -> NoDup (pool_ids u dv (set_prekeys (filter P) d)).
Proof.
  unfold pool_ids. simpl. intros Hn. rewrite list_filter_filter.
  rewrite (list_filter_iff _ (fun k => P k /\ in_pool u dv k = true)) by naive_solver.
  rewrite <-list_filter_filter. by apply NoDup_map_filter.
Qed.

Lemma same_key_consume now row : same_key (consume_row now row).
Proof. intros k. unfold consume_row. by destruct (_ =? _). Qed.
Lemma same_key_stamp now : same_key (stamp_opk now).
Proof. intros k. unfold stamp_opk. by destruct (_ && _). Qed.
#[export] Hint Resolve same_key_consume same_key_stamp : rcq.

Lemma pool_inv_later u dv age now now' seen d :
  now <= now' -> pool_inv u dv age now seen d -> pool_inv u dv age now' seen d.
Proof. intros Ht [Hr Hi Hs]. split; [done|done|]. intros t id Hin Hle. apply Hs; [done|lia]. Qed.

(** Adding rows that are not of the pool, or new ids of it. *)
Lemma pool_inv_add u dv age now seen u' dv' pks d :
  ((u', dv') = (u, dv) -> NoDup (map oi_id pks) /\ forall pk, pk ∈ pks -> oi_id pk ∉ pool_ids u dv d) ->
  pool_inv u dv age now seen d -> pool_inv u dv age now seen (add_opks now u' dv' pks d).
Proof.
  intros Hp [Hr Hi Hs]. destruct (add_opks_spec now u' dv' pks d) as [(new & E & Hids & Hnew) Hwf].
  split; [by apply Hwf| |].
  - rewrite (pool_ids_app _ _ _ _ _ E). destruct (decide ((u', dv') = (u, dv))) as [Eq|Hne].
    + destruct (Hp Eq) as [Hnd Hnot]. simplify_eq.
      rewrite filter_all, Hids
        by (apply Forall_forall; intros k Hk; apply in_pool_spec; destruct (Hnew k Hk) as (? & ? & _); done).
      apply NoDup_app. split; [done|]. split; [|done].
      intros id Hid (pk & -> & Hpk)%list_elem_of_fmap. by apply (Hnot pk).
    + rewrite filter_none, app_nil_r; [done|]. apply Forall_forall. intros k Hk [H1 H2]%in_pool_spec.
      destruct (Hnew k Hk) as (H3 & H4 & _). congruence.
  - intros t id Hin Hle. destruct (Hs t id Hin Hle) as (k & Hk & ?). exists k. rewrite E. set_solver.
Qed.

Lemma pool_inv_map u dv age now seen f d :
  same_key f -> (forall k c, opk_consumed k = true -> opk_consumed_at (f k) = Some c ->
                   opk_consumed_at k = Some c \/ now <= c) ->
  (forall t id, (t, id) ∈ seen -> t <= now) ->
  pool_inv u dv age now seen d -> pool_inv u dv age now seen (set_prekeys (map f) d).
Proof.
  intros Hf Hat Hle [Hr Hi Hs]. split; [by apply map_rows_wf|by rewrite map_pool_ids|].
  intros t id Hin Ht. destruct (Hs t id Hin Ht) as (k & Hk & Hp & Hid & Hc & Hcat). exists (f k). simpl.
  destruct (Hf k) as (_ & _ & _ & Ei & Ec). rewrite (same_key_pool f) by done. split_and!.
  - by apply list_elem_of_fmap_2.
  - done.
  - congruence.
  - by apply Ec.
  - intros c Hc'. destruct (Hat k c Hc Hc') as [?|?]; [auto|]. specialize (Hle t id Hin). lia.
Qed.

Lemma pool_inv_filter u dv age now seen (P : OneTimePreKey -> Prop) `{!forall k, Decision (P k)} d :
  (forall k t, in_pool u dv k = true -> opk_consumed k = true -> (forall c, opk_consumed_at k = Some c -> t <= c) ->
     now <= t + days age -> k ∈ prekeys d -> P k) ->
  pool_inv u dv age now seen d -> pool_inv u dv age now seen (set_prekeys (filter P) d).
Proof.
  intros HP [Hr Hi Hs]. split; [by apply filter_rows_wf|by apply filter_pool_ids|].
  intros t id Hin Ht. destruct (Hs t id Hin Ht) as (k & Hk & Hp & Hid & Hc & Hcat). exists k.
  split; [|done]. apply list_elem_of_filter. split; [|done]. by apply (HP k t).
Qed.

(** The sweep keeps every tombstone inside the horizon. *)
Lemma pool_inv_sweep u dv age now seen cfg d :
  age <= max_age_days cfg -> (forall t id, (t, id) ∈ seen -> t <= now) ->
  pool_inv u dv age now seen d -> pool_inv u dv age now seen (sweep_prekeys cfg now d).
Proof.
  intros Hage Hle Hi. unfold sweep_prekeys. destruct (dry_run cfg); [done|].
  set (d1 := set_prekeys (map (stamp_opk now)) d).
  assert (Hi1 : pool_inv u dv age now seen d1).
  { apply pool_inv_map; [auto with rcq| |done|done]. intros k c _. unfold stamp_opk.
    destruct (_ && _); simpl; [intros [= ->]; by right|by left]. }
  assert (Hst : forall k, k ∈ prekeys d1 -> opk_consumed k = true -> opk_consumed_at k <> None).
  { intros k (k0 & -> & _)%list_elem_of_fmap. unfold stamp_opk.
    destruct (opk_consumed k0) eqn:Ec; simpl; [|by rewrite Ec].
    case_bool_decide; simpl; [done|done]. }
  apply pool_inv_filter; [|done]. intros k t Hp Hc Hcat Ht Hk Hids.
  apply subseteq_take in Hids as Hi'.
  apply list_elem_of_fmap in Hi' as (k' & Er & [Hx Hk']%list_elem_of_filter).
  assert (k' = k) as -> by (eapply (NoDup_map_inj opk_row); [apply Hi1|done..|done]).
  unfold expired_opk in Hx. rewrite Hc in Hx. simpl in Hx.
  destruct (opk_consumed_at k) as [c|] eqn:Ec; [|done]. specialize (Hcat c eq_refl).
  apply Z.ltb_lt in Hx. unfold days, seconds, usec_per_sec in *. nia.
Qed.

Lemma claim_opk_fresh u dv age now seen d k d' id :
  pool_inv u dv age now seen d -> claim_opk now u dv d = (Some k, d') ->
  opk_prekey_id k = id -> forall t, (t, id) ∈ seen -> t + days age < now.
Proof.
  intros [Hr Hi Hs] Hc Hid t Hin. destruct (Z.le_gt_cases now (t + days age)) as [Hle|]; [|lia].
  exfalso. destruct (Hs t id Hin Hle) as (k' & Hk' & Hp' & Hid' & Hc' & _).
  unfold claim_opk in Hc. destruct (pick_opk _ _ _ _) as [k0|] eqn:E; [|done]. simplify_eq.
  apply pick_opk_Some in E as (Hk & Hcl%claimable_spec & _). destruct Hcl as (H1 & H2 & H3 & _).
  assert (k' = k) as ->; [|congruence].
  apply (NoDup_map_inj opk_prekey_id (filter (fun k => in_pool u dv k = true) (prekeys d))); [done|..|done];
    apply list_elem_of_filter; split; [done|done| |done]. by apply in_pool_spec.
Qed.

Lemma pool_inv_claim u dv age now seen u' dv' k d d' :
  (forall t id, (t, id) ∈ seen -> t <= now) ->
  pool_inv u dv age now seen d -> claim_opk now u' dv' d = (Some k, d') ->
  in_pool u' dv' k = true /\
  pool_inv u dv age now (if in_pool u dv k then (now, opk_prekey_id k) :: seen else seen) d'.
Proof.
  intros Hle Hi Hc. unfold claim_opk in Hc. destruct (pick_opk _ _ _ _) as [k0|] eqn:E; [|done].
  injection Hc as -> <-. apply pick_opk_Some in E as (Hk & Hcl%claimable_spec & _).
  split; [apply in_pool_spec; naive_solver|].
  assert (Hi' : pool_inv u dv age now seen (set_prekeys (map (consume_row now (opk_row k))) d)).
  { apply pool_inv_map; [auto with rcq| |done|done]. intros k' c _. unfold consume_row.
    destruct (_ =? _); simpl; [intros [= ->]; by right|by left]. }
  destruct (in_pool u dv k) eqn:Ep; [|done]. destruct Hi' as [Hr Hids Hs]. split; [done|done|].
  intros t id [[= -> ->]|Hin]%elem_of_cons Ht; [|by apply Hs].
  exists (consume_row now (opk_row k) k). simpl. unfold consume_row. rewrite Z.eqb_refl. simpl. split_and!.
  - apply list_elem_of_fmap. exists k. by rewrite Z.eqb_refl.
  - exact Ep.
  - done.
  - done.
  - intros c [= ->]. lia.
Qed.

(** A claim takes nothing, or a prekey of the pool asked for. *)
Lemma claim_opk_None now uin dv d d' : claim_opk now uin dv d = (None, d') -> d' = d.
Proof. unfold claim_opk. by destruct (pick_opk _ _ _ _); intros [= <-]. Qed.

(** Two hand-outs of one prekey id of the pool are [age] days apart. *)
Definition apart (u : Z) (dv : option Z) (age : Z) (a b : Z * OneTimePreKey) : Prop :=
  in_pool u dv a.2 = true -> in_pool u dv b.2 = true -> opk_prekey_id a.2 = opk_prekey_id b.2 ->
  a.1 + days age < b.1.

Lemma pool_inv_step u dv age now now' seen op d :
  now <= now' -> (forall t id, (t, id) ∈ seen -> t <= now) -> spares u dv age op ->
  pool_inv u dv age now seen d ->
  match pk_apply now' op d with
  | (None, d') => pool_inv u dv age now' seen d'
  | (Some k, d') =>
      pool_inv u dv age now' (if in_pool u dv k then (now', opk_prekey_id k) :: seen else seen) d' /\
      (in_pool u dv k = true -> forall t, (t, opk_prekey_id k) ∈ seen -> t + days age < now')
  end.
Proof.
  intros Hn Hs Hop Hi%(pool_inv_later _ _ _ _ now'); [|done].
  assert (Hs' : forall t id, (t, id) ∈ seen -> t <= now') by (intros t id Ht; specialize (Hs t id Ht); lia).
  destruct op as [u' dv' pks|u' dv'|cfg|u' dv'|u' dv' pks]; simpl in *.
  - apply pool_inv_add; [|done]. intros [= -> ->]. split; [apply NoDup_map_filter; by apply Hop|].
    intros pk [Hpk _]%list_elem_of_filter. done.
  - destruct (claim_opk now' u' dv' d) as [[k|] d'] eqn:E; [|by rewrite (claim_opk_None _ _ _ _ _ E)].
    destruct (pool_inv_claim _ _ _ _ _ _ _ _ _ _ Hs' Hi E) as [Hp Hi']. split; [done|].
    intros Hp' t. apply in_pool_spec in Hp as [<- <-]. apply in_pool_spec in Hp' as [<- <-].
    by eapply claim_opk_fresh.
  - by apply pool_inv_sweep.
  - apply pool_inv_filter; [|done]. intros k t [<- <-]%in_pool_spec _ _ _ _. apply not_true_iff_false.
    rewrite in_pool_spec. naive_solver.
  - apply pool_inv_add; [|done]. intros E. done.
Qed.

Lemma pk_run_apart u dv age ops : forall now seen d,
  pool_inv u dv age now seen d -> (forall t id, (t, id) ∈ seen -> t <= now) ->
  pk_in_order now ops -> Forall (fun o => spares u dv age o.2) ops ->
  (forall t id e, (t, id) ∈ seen -> e ∈ (pk_run ops d).1 -> in_pool u dv e.2 = true ->
     opk_prekey_id e.2 = id -> t + days age < e.1) /\
  ForallOrdPairs (apart u dv age) (pk_run ops d).1.
Proof.
  induction ops as [|[now' op] ops IH]; intros now seen d Hi Hs Hord Hsp; simpl.
  { split; [|constructor]. intros t id e _ Hin. by apply elem_of_nil in Hin. }
  destruct Hord as [Hn Hord]. apply Forall_cons_1 in Hsp as [Hop Hsp].
  pose proof (pool_inv_step u dv age now now' seen op d Hn Hs Hop Hi) as Hstep.
  destruct (pk_apply now' op d) as [[k|] d'] eqn:E; simpl.
  - destruct Hstep as [Hi' Hfresh].
    destruct (IH now' _ d' Hi') as [IH1 IH2]; [|done..|].
    { intros t id. destruct (in_pool u dv k); [intros [[= -> ->]|Ht]%elem_of_cons|intros Ht]; [lia|..];
        specialize (Hs t id Ht); lia. }
    destruct (pk_run ops d') as [log d'']; simpl in *. split.
    + intros t id e Ht [->|He]%elem_of_cons Hp <-; simpl in *; [by apply Hfresh|].
      eapply IH1; [|done..]. destruct (in_pool u dv k); set_solver.
    + constructor; [|done]. apply Forall_forall. intros e He Hk Hp Hid. simpl in *.
      apply (IH1 now' (opk_prekey_id k)); [|done..]. rewrite Hk. set_solver.
  - destruct (IH now' seen d' Hstep) as [IH1 IH2]; [|done..|].
    { intros t id Ht; specialize (Hs t id Ht); lia. }
    destruct (pk_run ops d') as [log d'']; simpl in *. split; done.
Qed.

(** A single-use prekey is handed out once: over any sequence of top-ups,
    claims (each takes the oldest unconsumed row of a pool), sweeps that wait
    [age] days or more, and uploads or revocations that touch other pools, two
    hand-outs of one prekey id of the pool are more than [age] days apart, as
    long as no batch names an id twice. *)
Theorem prekey_id_not_served_twice u dv age ops t0 d :
  rows_wf d -> NoDup (pool_ids u dv d) ->
  pk_in_order t0 ops -> Forall (fun o => spares u dv age o.2) ops ->
  ForallOrdPairs (apart u dv age) (pk_run ops d).1.
Proof.
  intros Hr Hn Hord Hsp. eapply (pk_run_apart u dv age ops t0 [] d); [|set_solver|done..].
  split; [done|done|set_solver].
Qed.

Definition demo_pool : list (Z * pk_op) :=
  [(0, OTop 7 None [mkOpkIn 1 "a"; mkOpkIn 2 "b"]); (1, OClaim 7 None); (2, OTop 7 None [mkOpkIn 1 "a"]);
   (3, OClaim 7 None); (4, OSweep (PREKEY_SWEEP 30)); (5, OTop 7 None [mkOpkIn 1 "a"]); (6, OClaim 7 None);
   (days 38, OSweep (PREKEY_SWEEP 30)); (days 38, OTop 7 None [mkOpkIn 1 "c"]); (days 38, OClaim 7 None)].

(** The same id again, once the tombstone is 37 days old and swept. *)
Lemma prekey_id_not_served_twice_witness :
  ForallOrdPairs (apart 7 None 37) (pk_run demo_pool empty_kdb).1 /\
  map (fun e => (e.1, opk_prekey_id e.2)) (pk_run demo_pool empty_kdb).1 = [(1, 1); (3, 2); (days 38, 1)].
Proof.
  split; [|vm_compute; reflexivity]. apply (prekey_id_not_served_twice 7 None 37 demo_pool 0).
  - split; [constructor|set_solver].
  - constructor.
  - vm_compute. repeat split; discriminate.
  - unfold demo_pool. repeat apply Forall_cons_2; try apply Forall_nil_2; simpl; try lia; try done;
      intros _ _; apply NoDup_ListNoDup; repeat constructor; simpl; lia.
Defined.

(** Both replenish endpoints compare a batch with the rows of the table, not
    with the batch itself: an id named twice in one batch is stored twice, and
    handed out to two senders. *)
Theorem duplicate_in_batch_served_twice now uin dv id pub :
  map (fun e => opk_prekey_id e.2)
    (pk_run [(now, OTop uin dv [mkOpkIn id pub; mkOpkIn id pub]); (now, OClaim uin dv); (now, OClaim uin dv)]
       empty_kdb).1
  = [id; id].
Proof.
  assert (E : claim_opk now uin dv (add_opks now uin dv [mkOpkIn id pub; mkOpkIn id pub] empty_kdb)
              = (Some (new_opk now uin dv (mkOpkIn id pub) 1),
                 set_prekeys (map (consume_row now 1))
                   (add_opks now uin dv [mkOpkIn id pub; mkOpkIn id pub] empty_kdb))).
  { unfold claim_opk, pick_opk. simpl.
    rewrite !filter_cons_True by (by apply claimable_spec). done. }
  assert (Et : top_up now uin dv [mkOpkIn id pub; mkOpkIn id pub] empty_kdb =
               add_opks now uin dv [mkOpkIn id pub; mkOpkIn id pub] empty_kdb) by done.
  unfold pk_run, pk_apply. rewrite Et, E.
  unfold claim_opk, pick_opk. simpl.
  rewrite filter_cons_False by (rewrite claimable_spec; simpl; naive_solver).
  by rewrite filter_cons_True by (by apply claimable_spec).
Qed.

(** ** Who takes a one-time prekey *)

Lemma may_fetch_key_prekeys sha256 now target caller card closed d :
  let d' := (may_fetch_key sha256 now target caller card closed d).2 in
  prekeys d' = prekeys d /\ devices d' = devices d /\ next_opk_row d' = next_opk_row d.
Proof.
  unfold may_fetch_key. repeat (case_match; simpl; try done).
  by destruct (redeem_card_cases sha256 now target card d) as [->|[id ->]].
Qed.

Section serving_facts.
Context {R : Type} `{RR : Redis R}.
Context (json_token : bytes -> option token).
Context (verify_and_consume_token : Z -> token -> R -> outcome bool * R).
Context (sha256 : bytes -> bytes) (bucket : string -> string).
#[local] Set Default Proof Using "Type".

(** A caller without an account of their own here: no session, or a guest. *)
Definition stranger (e : key_env) (me : option Z) (w : kdb) (r : R) : Prop :=
  forall u, me = Some u -> (is_guest (ke_up e) (ke_now e) (ke_scratch e) (core w) u r).1 = true.

(** The door names the caller only when they are no stranger. *)
Lemma key_door_caller e rq me uin d r m w r' :
  key_door sha256 e rq me uin d r = (Ok m, w, r') ->
  (m = None \/ m = me) /\ (stranger e me d r -> m = None).
Proof.
  unfold key_door, guest_key_caller, stranger. destruct me as [u|].
  - destruct (is_guest _ _ _ _ _ _) as [g r1] eqn:Eg. destruct g; simpl.
    + intros H. assert (m = None) by (repeat (case_match; simplify_eq; try done)). by auto.
    + intros [= <- <- <-]. split; [by right|].
      intros Hs. specialize (Hs u eq_refl). by rewrite Eg in Hs.
  - intros H. assert (m = None) by (repeat (case_match; simplify_eq; try done)). by auto.
Qed.

(** A bundle's prekey: none and nothing is stored, or one claimed from the pool
    for a caller with a session here or a deposit token. *)
Lemma bundle_opk_cases e rq me uin dv d w r :
  let '(o, d', _) := bundle_opk json_token verify_and_consume_token e rq me uin dv d w r in
  (d' = d /\ (forall x, o = Ok x -> x = None)) \/
  (exists k, claim_opk (ke_now e) uin dv w = (Some k, d') /\ o = Ok (Some (mkOpkIn (opk_prekey_id k) (opk_public k))) /\
     (is_Some me \/ is_Some (token_from_request json_token (hdr_token rq)))).
Proof.
  unfold bundle_opk, may_take_opk. destruct (token_from_request _ _) as [tok|] eqn:Et.
  - destruct (ke_deposits e); simpl; [|by left].
    destruct (verify_and_consume_token _ _ _) as [[[]|x] r']; [|by left; split; [|by intros ? [= <-]]|by left].
    destruct (claim_opk _ _ _ _) as [[k|] w']; [|left; split; [done|by intros ? [= <-]]].
    right. exists k. eauto.
  - case_bool_decide as Hme; [|by left; split; [|by intros ? [= <-]]].
    destruct (claim_opk _ _ _ _) as [[k|] w']; [|left; split; [done|by intros ? [= <-]]].
    right. exists k. eauto.
Qed.

Lemma bundle_opk_stranger e rq uin dv d w r :
  token_from_request json_token (hdr_token rq) = None ->
  bundle_opk json_token verify_and_consume_token e rq None uin dv d w r = (Ok None, d, r).
Proof. intros Et. unfold bundle_opk, may_take_opk. by rewrite Et. Qed.

Lemma primary_bundle_stranger e rq uin d w r :
  token_from_request json_token (hdr_token rq) = None ->
  let '(o, d', _) := primary_bundle json_token verify_and_consume_token e rq None uin d w r in
  d' = d /\ forall b, o = Ok b -> bo_one_time_prekey b = None.
Proof.
  intros Et. unfold primary_bundle. destruct (get_user _ _) as [u|]; [|done].
  destruct (signal_identity_key u), (signed_prekey u), (kyber_prekey u); try done.
  rewrite bundle_opk_stranger by done. simpl. split; [done|]. by intros b [= <-].
Qed.

(** The prekey pools are kept for those who pay or live here: a caller with
    no session, or a guest, who presents no deposit token is served bundles
    without a one-time prekey, and the lookup stores nothing. *)
Theorem stranger_takes_no_opk e rq me uin device_id d r :
  stranger e me d r -> token_from_request json_token (hdr_token rq) = None ->
  (let '(o, d', _) := fetch_bundle json_token verify_and_consume_token sha256 bucket e rq me uin d r in
   d' = d /\ forall b, o = Ok b -> bo_one_time_prekey b = None) /\
  (let '(o, d', _) := fetch_device_bundle json_token verify_and_consume_token sha256 e rq me uin device_id d r in
   d' = d /\ forall b, o = Ok b -> bo_one_time_prekey b = None).
Proof.
  intros Hs Et. unfold fetch_bundle, fetch_device_bundle.
  pose proof (key_door_caller e rq me uin d r) as Hd.
  destruct (key_door sha256 e rq me uin d r) as [[[m|x] w] r'].
  - destruct (Hd _ _ _ eq_refl) as [_ Hm]. rewrite (Hm Hs). split.
    + destruct (get_user uin d); [|done]. destruct (has_linked_devices _ _ _ _); [done|].
      by apply primary_bundle_stranger.
    + destruct (_ =? _); [by apply primary_bundle_stranger|]. destruct (find_device _ _ _); [|done].
      rewrite bundle_opk_stranger by done. simpl. split; [done|]. by intros b [= <-].
  - destruct (get_user uin d); done.
Qed.

(** C40. On a closed island a caller with no session and no live card of the
    target learns nothing from the key server: bundles and the device list
    answer 404 "no such user", as for a number that does not exist, and nothing
    is stored. *)
Theorem closed_island_hides_keys e rq uin device_id d r :
  island_is_closed (ke_closed e) = true ->
  (forall s c, card_from (hdr_card rq) = Some s -> c ∈ guest_cards d ->
     card_hash c = hash_card sha256 s -> gc_owner c = uin -> revoked c = true) ->
  fetch_bundle json_token verify_and_consume_token sha256 bucket e rq None uin d r = (Raise no_such_user, d, r) /\
  fetch_device_bundle json_token verify_and_consume_token sha256 e rq None uin device_id d r
    = (Raise no_such_user, d, r) /\
  list_key_devices sha256 e rq None uin d r = (Raise no_such_user, r).
Proof.
  intros Hc Hcards.
  assert (Hd : exists w, key_door sha256 e rq None uin d r = (Raise no_such_user, w, r)).
  { unfold key_door. simpl. rewrite Hc.
    destruct (may_fetch_key _ _ _ _ _ _ _) as [ok w] eqn:E. exists w. destruct ok; [|done].
    assert (Hm : (may_fetch_key sha256 (ke_now e) uin None (card_from (hdr_card rq)) true d).1 = true)
      by by rewrite E.
    unfold may_fetch_key in Hm. simpl in Hm.
    apply redeem_card_true in Hm as (s & c & Hs & _ & Hin & Hh & Ho & Hr).
    rewrite (Hcards s c) in Hr; done. }
  destruct Hd as [w Hd]. unfold fetch_bundle, fetch_device_bundle, list_key_devices. rewrite Hd.
  split_and!; [|done..]. by destruct (get_user uin d).
Qed.
End serving_facts.

(** ** Device slots *)

Definition slot (v : Device) : Z * Z := (dv_uin v, dv_device_id v).

(** Slots are 2..127 and one row each, tombstones included; a prekey of a
    device has a live device. *)
Record slots_wf (d : kdb) : Prop := {
  sw_slots : NoDup (map slot (devices d));
  sw_rows : NoDup (map dv_id (devices d));
  sw_next : forall v, v ∈ devices d -> dv_id v < next_device_row d;
  sw_range : forall v, v ∈ devices d -> PRIMARY_DEVICE_ID < dv_device_id v <= MAX_DEVICE_ID;
  sw_pools : forall k i, k ∈ prekeys d -> opk_device k = Some i ->
    exists v, v ∈ devices d /\ slot v = (opk_uin k, i) /\ dv_revoked_at v = None
}.

(** Tables with the same device rows, whose device prekeys belong to pools that
    were there before. *)
Lemma slots_wf_prekeys d d' :
  devices d' = devices d -> next_device_row d' = next_device_row d ->
  (forall k i, k ∈ prekeys d' -> opk_device k = Some i ->
     (exists k0, k0 ∈ prekeys d /\ opk_uin k0 = opk_uin k /\ opk_device k0 = Some i) \/
     exists v, v ∈ devices d /\ slot v = (opk_uin k, i) /\ dv_revoked_at v = None) ->
  slots_wf d -> slots_wf d'.
Proof.
  intros Ed En Hk [Hs Hr Hn Hg Hp]. split; rewrite ?Ed, ?En; try done.
  intros k i Hin Hi. destruct (Hk k i Hin Hi) as [(k0 & Hin0 & <- & Hi0)|?]; [by apply (Hp k0)|done].
Qed.

Lemma slots_wf_map f d : same_key f -> slots_wf d -> slots_wf (set_prekeys (map f) d).
Proof.
  intros Hf. apply slots_wf_prekeys; [done..|]. simpl.
  intros k i (k0 & -> & Hk0)%list_elem_of_fmap Hi. left. exists k0. by destruct (Hf k0) as (_ & <- & <- & _).
Qed.

Lemma slots_wf_filter (P : OneTimePreKey -> Prop) `{!forall k, Decision (P k)} d :
  slots_wf d -> slots_wf (set_prekeys (filter P) d).
Proof.
  apply slots_wf_prekeys; [done..|]. simpl. intros k i [_ Hk]%list_elem_of_filter Hi. left. eauto.
Qed.

Lemma add_opks_devices now uin dv pks d :
  devices (add_opks now uin dv pks d) = devices d /\
  next_device_row (add_opks now uin dv pks d) = next_device_row d.
Proof.
  unfold add_opks. revert d; induction pks as [|pk pks IH]; intros d; simpl; [done|].
  by destruct (IH (insert_prekey (new_opk now uin dv pk) d)) as [-> ->].
Qed.

(** A batch for the primary, or for a live device. *)
Lemma slots_wf_add now uin dv pks d :
  (forall i, dv = Some i -> exists v, v ∈ devices d /\ slot v = (uin, i) /\ dv_revoked_at v = None) ->
  slots_wf d -> slots_wf (add_opks now uin dv pks d).
Proof.
  intros Hv. destruct (add_opks_devices now uin dv pks d). apply slots_wf_prekeys; [done..|].
  destruct (add_opks_spec now uin dv pks d) as [(new & -> & _ & Hnew) _].
  intros k i [Hk|Hk]%elem_of_app Hi; [left; eauto|right]. destruct (Hnew k Hk) as (-> & Ed & _).
  apply Hv. congruence.
Qed.

Lemma slots_wf_claim now uin dv d : slots_wf d -> slots_wf (claim_opk now uin dv d).2.
Proof.
  intros H. unfold claim_opk. destruct (pick_opk _ _ _ _); [|done]. by apply slots_wf_map; [auto with rcq|].
Qed.

Lemma find_device_Some uin i d v :
  find_device uin i d = Some v -> v ∈ devices d /\ slot v = (uin, i) /\ dv_revoked_at v = None.
Proof.
  intros [Hin H]%find_first_Some. rewrite !andb_true_iff, !Z.eqb_eq, bool_decide_eq_true in H.
  unfold slot. naive_solver.
Qed.

(** The slot numbers of an account, and the next one. *)
Lemma slots_of_spec uin d i :
  i ∈ map dv_device_id (filter (fun v => dv_uin v = uin) (devices d)) <-> (uin, i) ∈ map slot (devices d).
Proof.
  rewrite !list_elem_of_fmap. split.
  - intros (v & -> & [<- Hv]%list_elem_of_filter). by exists v.
  - intros (v & [= -> ->] & Hv). exists v. by rewrite list_elem_of_filter.
Qed.

Lemma next_slot uin d :
  slots_wf d ->
  let m := max_default PRIMARY_DEVICE_ID (map dv_device_id (filter (fun v => dv_uin v = uin) (devices d))) in
  PRIMARY_DEVICE_ID <= m /\ (uin, m + 1) ∉ map slot (devices d) /\
  (MAX_DEVICE_ID < m + 1 -> (uin, MAX_DEVICE_ID) ∈ map slot (devices d)).
Proof.
  intros Hd m. split_and!.
  - unfold m, max_default. case_match; [done|]. rewrite <-foldl_max_ge.
    match goal with E : _ = ?x :: _ |- _ => assert (Hx : x ∈ map dv_device_id (filter (fun v => dv_uin v = uin) (devices d)))
      by (rewrite E; set_solver) end.
    apply slots_of_spec, list_elem_of_fmap in Hx as (v & [= -> ->] & Hv). apply (sw_range _ Hd) in Hv. lia.
  - intros Hin. apply slots_of_spec in Hin. apply (max_default_ub PRIMARY_DEVICE_ID) in Hin. fold m in Hin. lia.
  - intros Hm. destruct (decide (map dv_device_id (filter (fun v => dv_uin v = uin) (devices d)) = [])) as [E|E].
    { unfold m in Hm. by rewrite E in Hm. }
    apply (max_default_in PRIMARY_DEVICE_ID), slots_of_spec in E. fold m in E.
    replace MAX_DEVICE_ID with m; [done|]. apply list_elem_of_fmap in E as (v & [= _ Em] & Hv).
    apply (sw_range _ Hd) in Hv. lia.
Qed.

Lemma slots_wf_insert mk d :
  (forall row, dv_id (mk row) = row) -> slot (mk (next_device_row d)) ∉ map slot (devices d) ->
  PRIMARY_DEVICE_ID < dv_device_id (mk (next_device_row d)) <= MAX_DEVICE_ID ->
  slots_wf d -> slots_wf (insert_device mk d).
Proof.
  intros Hmk Hn Hr' [Hs Hr Hnx Hg Hp]. split; simpl; rewrite ?map_app.
  - by apply NoDup_snoc.
  - apply NoDup_snoc; [|done]. rewrite Hmk. intros (v & E & Hv)%list_elem_of_fmap. specialize (Hnx v Hv). lia.
  - intros v [Hv| ->%list_elem_of_singleton]%elem_of_app; [specialize (Hnx v Hv)|rewrite Hmk]; lia.
  - intros v [Hv| ->%list_elem_of_singleton]%elem_of_app; [by apply Hg|done].
  - intros k i Hk Hi. destruct (Hp k i Hk Hi) as (v & Hv & ?). exists v. set_solver.
Qed.

Lemma slots_wf_register now body uin auth d :
  slots_wf d -> slots_wf (register_device now body uin auth d).1.2.
Proof.
  intros Hd. unfold register_device. destruct (get_user uin d); [|done]. cbn zeta.
  destruct (next_slot uin d Hd) as (Hlo & Hn & _). destruct (Z.ltb_spec MAX_DEVICE_ID (max_default PRIMARY_DEVICE_ID
    (map dv_device_id (filter (fun v => dv_uin v = uin) (devices d))) + 1)); [done|]. simpl.
  apply slots_wf_add.
  - intros i [= <-]. eexists. simpl. split; [apply elem_of_app; right; by apply list_elem_of_singleton|done].
  - apply slots_wf_insert; [done|done| |done]. simpl. lia.
Qed.

(** The row of a slot turned into a tombstone, its pool gone. *)
Lemma slots_wf_tombstone now uin i v d :
  find_device uin i d = Some v -> slots_wf d ->
  slots_wf (set_devices (map (fun w => if dv_id w =? dv_id v then strip_revoked_device now w else w))
              (set_prekeys (filter (fun k => in_pool uin (Some i) k = false)) d)).
Proof.
  intros (Hv & Hsl & Hlive)%find_device_Some [Hs Hr Hn Hg Hp].
  set (f := fun w => if dv_id w =? dv_id v then _ else w).
  assert (Hf : forall w, slot (f w) = slot w /\ dv_id (f w) = dv_id w)
    by (intros w; unfold f; by destruct (_ =? _)).
  split; simpl.
  - apply NoDup_map_same; [apply Hf|done].
  - apply NoDup_map_same; [apply Hf|done].
  - intros w (w0 & -> & Hw)%list_elem_of_fmap. destruct (Hf w0) as [_ ->]. by apply Hn.
  - intros w (w0 & -> & Hw)%list_elem_of_fmap. destruct (Hf w0) as [[= _ ->] _]. by apply Hg.
  - intros k j [Hnot Hk]%list_elem_of_filter Hj. destruct (Hp k j Hk Hj) as (w & Hw & Hws & Hwl).
    exists w. split; [|done]. apply list_elem_of_fmap. exists w. split; [|done]. unfold f.
    destruct (Z.eqb_spec (dv_id w) (dv_id v)) as [E|]; [|done]. exfalso.
    assert (w = v) as -> by (by apply (NoDup_map_inj dv_id (devices d))).
    rewrite Hsl in Hws. injection Hws as -> ->. by rewrite (proj2 (in_pool_spec _ _ _)) in Hnot.
Qed.

Lemma slots_wf_sweep_devices cfg now d : slots_wf d -> slots_wf (sweep_devices cfg now d).
Proof.
  intros Hd. unfold sweep_devices. destruct (dry_run cfg); [done|]. set (ids := take _ _).
  assert (Hids : forall v, v ∈ devices d -> dv_id v ∈ ids -> dv_revoked_at v <> None).
  { intros v Hv (w & E & [Hx Hw]%list_elem_of_filter)%subseteq_take%list_elem_of_fmap.
    assert (w = v) as -> by (apply (NoDup_map_inj dv_id (devices d)); [apply Hd|done..]).
    unfold expired_device in Hx. by destruct (dv_revoked_at v). }
  destruct Hd as [Hs Hr Hn Hg Hp]. split; simpl.
  - by apply NoDup_map_filter.
  - by apply NoDup_map_filter.
  - intros v [_ Hv]%list_elem_of_filter. by apply Hn.
  - intros v [_ Hv]%list_elem_of_filter. by apply Hg.
  - intros k i Hk Hi. destruct (Hp k i Hk Hi) as (v & Hv & Hsl & Hl). exists v. split; [|done].
    apply list_elem_of_filter. split; [|done]. intros Hin. by apply (Hids v).
Qed.

Lemma slots_wf_sweep_prekeys cfg now d : slots_wf d -> slots_wf (sweep_prekeys cfg now d).
Proof.
  intros Hd. unfold sweep_prekeys. destruct (dry_run cfg); [done|].
  apply slots_wf_filter, slots_wf_map; [auto with rcq|done].
Qed.

Section slots.
Context {R : Type} `{RR : Redis R}.
Context (json_token : bytes -> option token).
Context (verify_and_consume_token : Z -> token -> R -> outcome bool * R).
Context (sha256 : bytes -> bytes) (bucket : string -> string).
Context (loads : string -> option jobj) (fromisoformat : string -> option (Z * bool)).
#[local] Set Default Proof Using "Type".

(** The requests and jobs that change the key tables. *)
Inductive key_op :=
  | KUpload (now : Z) (body : BundleIn) (uin : Z)
  | KTop (now uin : Z) (pks : list OneTimePreKeyIn)
  | KFetch (e : key_env) (rq : key_request) (me : option Z) (uin : Z)
  | KFetchDevice (e : key_env) (rq : key_request) (me : option Z) (uin device_id : Z)
  | KRegister (now : Z) (body : DeviceRegisterIn) (uin : Z) (auth_device : string)
  | KRevoke (now device_id uin : Z) (caller_device : string)
  | KTopDevice (now device_id uin : Z) (pks : list OneTimePreKeyIn)
  | KSweepKeys (cfg : sweep_limits) (now : Z)
  | KSweepDevices (cfg : sweep_limits) (now : Z).

Definition key_apply (op : key_op) (dr : kdb * R) : kdb * R :=
  let '(d, r) := dr in
  match op with
  | KUpload now body uin => ((upload_bundle now body uin d).1.2, r)
  | KTop now uin pks => (replenish_prekeys now uin pks d, r)
  | KFetch e rq me uin =>
      let '(_, d, r) := fetch_bundle json_token verify_and_consume_token sha256 bucket e rq me uin d r in (d, r)
  | KFetchDevice e rq me uin i =>
      let '(_, d, r) := fetch_device_bundle json_token verify_and_consume_token sha256 e rq me uin i d r in (d, r)
  | KRegister now body uin auth => ((register_device now body uin auth d).1.2, r)
  | KRevoke now i uin caller =>
      let '(_, d, r, _) := revoke_device_slot loads fromisoformat bucket now i uin caller d r in (d, r)
  | KTopDevice now i uin pks => ((replenish_device_prekeys now i uin pks d).2, r)
  | KSweepKeys cfg now => (sweep_prekeys cfg now d, r)
  | KSweepDevices cfg now => (sweep_devices cfg now d, r)
  end.

Lemma key_door_slots e rq me uin d r :
  slots_wf d -> slots_wf (key_door sha256 e rq me uin d r).1.2.
Proof.
  assert (Hm : forall target caller card closed d, slots_wf d ->
            slots_wf (may_fetch_key sha256 (ke_now e) target caller card closed d).2).
  { intros target caller card closed d0 [? ? ? ? ?]. unfold may_fetch_key.
    repeat (case_match; simpl; try (by split)).
    by destruct (redeem_card_cases sha256 (ke_now e) target card d0) as [->|[id ->]]. }
  intros Hd. unfold key_door, guest_key_caller.
  repeat (case_match; simplify_eq/=; try done);
    match goal with E : may_fetch_key sha256 ?a ?b ?c ?x ?y d = (_, ?w) |- slots_wf ?w =>
      specialize (Hm b c x y d Hd); by rewrite E in Hm end.
Qed.

Lemma bundle_opk_slots e rq me uin dv d w r :
  slots_wf d -> slots_wf w ->
  slots_wf (bundle_opk json_token verify_and_consume_token e rq me uin dv d w r).1.2.
Proof.
  intros Hd Hw. pose proof (bundle_opk_cases json_token verify_and_consume_token e rq me uin dv d w r) as H.
  destruct (bundle_opk _ _ _ _ _ _ _ _ _ _) as [[o d'] r']. simpl.
  destruct H as [[-> _]|(k & E & _)]; [done|].
  pose proof (slots_wf_claim (ke_now e) uin dv w Hw) as Hc. by rewrite E in Hc.
Qed.

Lemma primary_bundle_slots e rq me uin d w r :
  slots_wf d -> slots_wf w ->
  slots_wf (primary_bundle json_token verify_and_consume_token e rq me uin d w r).1.2.
Proof.
  intros Hd Hw. unfold primary_bundle. destruct (get_user uin w) as [u|]; [|done].
  destruct (signal_identity_key u), (signed_prekey u), (kyber_prekey u); try done.
  pose proof (bundle_opk_slots e rq me uin None d w r Hd Hw) as H.
  by destruct (bundle_opk _ _ _ _ _ _ _ _ _ _) as [[o d'] r'].
Qed.

Lemma key_apply_slots op dr : slots_wf dr.1 -> slots_wf (key_apply op dr).1.
Proof.
  destruct dr as [d r]; simpl. intros Hd.
  destruct op as [now body uin|now uin pks|e rq me uin|e rq me uin i|now body uin auth|now i uin caller
                  |now i uin pks|cfg now|cfg now]; simpl.
  - unfold upload_bundle. destruct (get_user uin d); [|done]. simpl.
    apply slots_wf_add; [done|]. apply slots_wf_filter. destruct Hd; by split.
  - by apply slots_wf_add.
  - unfold fetch_bundle. destruct (get_user uin d); [|done].
    pose proof (key_door_slots e rq me uin d r Hd) as Hw.
    destruct (key_door _ _ _ _ _ _ _) as [[[m|x] w] r']; simpl in *; [|done].
    destruct (has_linked_devices _ _ _ _); [done|].
    pose proof (primary_bundle_slots e rq m uin d w r' Hd Hw) as H.
    by destruct (primary_bundle _ _ _ _ _ _ _ _ _) as [[o d'] r''].
  - unfold fetch_device_bundle. pose proof (key_door_slots e rq me uin d r Hd) as Hw.
    destruct (key_door _ _ _ _ _ _ _) as [[[m|x] w] r']; simpl in *; [|done].
    destruct (i =? PRIMARY_DEVICE_ID).
    + pose proof (primary_bundle_slots e rq m uin d w r' Hd Hw) as H.
      by destruct (primary_bundle _ _ _ _ _ _ _ _ _) as [[o d'] r''].
    + destruct (find_device uin i w); [|done].
      pose proof (bundle_opk_slots e rq m uin (Some i) d w r' Hd Hw) as H.
      by destruct (bundle_opk _ _ _ _ _ _ _ _ _ _) as [[o d'] r''].
  - by apply slots_wf_register.
  - unfold revoke_device_slot. destruct (i =? PRIMARY_DEVICE_ID); [done|].
    destruct (find_device uin i d) as [v|] eqn:Ev; [|done].
    destruct (revoker_gate _ _ _ _ _ _ _ _); [|done].
    pose proof (slots_wf_tombstone now uin i v d Ev Hd) as Ht.
    repeat case_match; simplify_eq/=; try done; destruct Ht; by split.
  - unfold replenish_device_prekeys. destruct (find_device uin i d) as [v|] eqn:Ev; [|done]. simpl.
    apply slots_wf_add; [|done]. intros j [= <-]. exists v. by apply find_device_Some.
  - by apply slots_wf_sweep_prekeys.
  - by apply slots_wf_sweep_devices.
Qed.

(** C35. The device slots stay well-formed whatever the key server is asked and
    however its sweeps interleave: a slot number is between 2 and 127 and names
    one row, revoked ones included, and every prekey of a device belongs to a
    device that is live: a revoked slot has no pool left behind it. *)
Theorem slots_wf_run ops d r : slots_wf d -> slots_wf (foldl (flip key_apply) (d, r) ops).1.
Proof.
  change d with (d, r).1 at 1. generalize (d, r) as dr. clear d r.
  induction ops as [|op ops IH]; intros dr Hd; simpl; [done|]. by apply IH, key_apply_slots.
Qed.
End slots.

Lemma find_new_device (mk : Z -> Device) uin n (l : list Device) row :
  (uin, n) ∉ map slot l -> dv_uin (mk row) = uin -> dv_device_id (mk row) = n -> dv_revoked_at (mk row) = None ->
  exists v, find_first (fun v => (dv_uin v =? uin) && (dv_device_id v =? n) && bool_decide (dv_revoked_at v = None))
              (l ++ [mk row]) = Some v /\ dv_identity_key v = dv_identity_key (mk row).
Proof.
  intros Hn Hu Hi Hl. exists (mk row). split; [|done]. induction l as [|v l IH]; simpl.
  - by rewrite Hu, Hi, !Z.eqb_refl, Hl.
  - destruct (Z.eqb_spec (dv_uin v) uin) as [Eu|]; simpl; [|apply IH; set_solver].
    destruct (Z.eqb_spec (dv_device_id v) n) as [Ei|]; simpl; [|apply IH; set_solver].
    exfalso. apply Hn. simpl. unfold slot at 1. rewrite Eu, Ei. set_solver.
Qed.

(** Registering a device gives it a slot no row of the account has, live or
    tombstone, and a pool that is exactly its batch; it is refused, with nothing
    stored, when there is no such account or the account has reached slot 127. *)
Theorem register_device_fresh now body uin auth d :
  slots_wf d ->
  match register_device now body uin auth d with
  | (Ok n, d', _) =>
      PRIMARY_DEVICE_ID < n <= MAX_DEVICE_ID /\ (uin, n) ∉ map slot (devices d) /\
      (exists v, find_device uin n d' = Some v /\ dv_identity_key v = bi_identity_key (dr_bundle body)) /\
      pool_ids uin (Some n) d' = map oi_id (bi_one_time_prekeys (dr_bundle body))
  | (Raise x, d', ev) =>
      d' = d /\ ev = [] /\
      ((x = HTTPException 404 "user not found" /\ get_user uin d = None) \/
       (x = HTTPException 409 "device limit reached" /\ (uin, MAX_DEVICE_ID) ∈ map slot (devices d)))
  end.
Proof.
  intros Hd. destruct (next_slot uin d Hd) as (Hlo & Hn & Hmax). unfold register_device.
  destruct (get_user uin d); [|by eauto 10]. cbn zeta.
  set (n := max_default _ _ + 1) in *. destruct (Z.ltb_spec MAX_DEVICE_ID n); [by eauto 10|].
  set (mk := fun row => mkDevice row _ _ _ _ _ _ _ _ _ _ _ _ _).
  set (pks := bi_one_time_prekeys (dr_bundle body)).
  destruct (add_opks_devices now uin (Some n) pks (insert_device mk d)) as [Ed _].
  split_and!; [lia|lia|done|..].
  - unfold find_device. rewrite Ed. by apply find_new_device.
  - destruct (add_opks_spec now uin (Some n) pks (insert_device mk d)) as [(new & E & Hids & Hnew) _].
    rewrite (pool_ids_app _ _ _ _ _ E), filter_all, Hids
      by (apply Forall_forall; intros k Hk; apply in_pool_spec; destruct (Hnew k Hk) as (? & ? & _); done).
    unfold pool_ids. simpl. rewrite filter_none; [done|]. apply Forall_forall.
    intros k Hk [<- Hi]%in_pool_spec. destruct (sw_pools _ Hd k n Hk Hi) as (v & Hv & Hs & _).
    apply Hn. rewrite <-Hs. by apply list_elem_of_fmap_2.
Qed.

(** ** Examples *)

Definition demo_spk : SignedPreKey := mkSignedPreKey 1 "spk" "sig".
Definition demo_kpk : KyberPreKey := mkKyberPreKey 1 "kpk" "sig".
Definition demo_bundle (ids : list Z) : BundleIn :=
  mkBundleIn "ik" 5 demo_spk demo_kpk (map (fun i => mkOpkIn i "pub") ids).
Definition demo_keys : kdb :=
  set_core (set_users (fun _ => {[ 7 := mkUser 0 0 None [] false plain_profile ]}) empty_db) demo_cards.
Definition demo_env (closed : bool) : key_env := mkKeyEnv true 9 "guest_uins:build:z" (Some closed) false.
Definition no_json (_ : bytes) : option token := None.
Definition no_tokens (_ : Z) (_ : token) (r : store) : outcome bool * store := (Ok false, r).

Lemma empty_slots_wf d : devices d = [] -> prekeys d = [] -> slots_wf d.
Proof. intros Ed Ep. split; rewrite ?Ed, ?Ep; try constructor; set_solver. Qed.

Lemma slots_wf_run_witness :
  slots_wf (foldl (flip (key_apply no_json no_tokens demo_sha32 demo_bucket demo_loads demo_from_iso))
              (demo_keys, ∅)
              [KUpload 0 (demo_bundle [1; 2]) 7; KRegister 1 (mkDeviceRegisterIn (demo_bundle [3]) "s" None) 7 "d2";
               KFetchDevice (demo_env false) (mkKeyRequest None None) (Some 7) 7 2;
               KRevoke (days 2) 2 7 "phone"; KSweepDevices DEVICE_SWEEP (days 200)]).1.
Proof. apply slots_wf_run. by apply empty_slots_wf. Defined.

Lemma register_device_fresh_witness :
  let '(o, d', _) := register_device 1 (mkDeviceRegisterIn (demo_bundle [3; 4]) "s" None) 7 "d2" demo_keys in
  o = Ok 2 /\ pool_ids 7 (Some 2) d' = [3; 4].
Proof.
  assert (Hd : slots_wf demo_keys) by by apply empty_slots_wf.
  pose proof (register_device_fresh 1 (mkDeviceRegisterIn (demo_bundle [3; 4]) "s" None) 7 "d2" demo_keys Hd) as H.
  vm_compute in H |- *. split; [reflexivity|apply H].
Defined.

(** A stranger with a card, on a closed island: the door opens, no prekey is
    taken, and the day of the visit is not stored either. *)
Lemma stranger_takes_no_opk_witness :
  let d := (upload_bundle 0 (demo_bundle [1; 2]) 7 demo_keys).1.2 in
  let '(o, d', _) := fetch_bundle no_json no_tokens demo_sha32 demo_bucket (demo_env true)
                       (mkKeyRequest None (Some "the card"%string)) None 7 d (∅ : store) in
  d' = d /\ (exists b, o = Ok b /\ bo_one_time_prekey b = None) /\ map last_used_on (guest_cards d') = [None].
Proof.
  pose proof (stranger_takes_no_opk no_json no_tokens demo_sha32 demo_bucket (demo_env true)
    (mkKeyRequest None (Some "the card"%string)) None 7 1
    (upload_bundle 0 (demo_bundle [1; 2]) 7 demo_keys).1.2 (∅ : store)) as H.
  destruct H as [H _]; [intros u Hu; discriminate Hu|reflexivity|].
  vm_compute in H |- *. destruct H as [Hd Ho]. split; [exact Hd|]. split; [|reflexivity].
  eexists. split; reflexivity.
Defined.

Lemma closed_island_hides_keys_witness :
  let d := (upload_bundle 0 (demo_bundle [1; 2]) 7 demo_keys).1.2 in
  list_key_devices demo_sha32 (demo_env true) (mkKeyRequest None None) None 7 d (∅ : store)
    = (Raise no_such_user, ∅) /\
  (list_key_devices demo_sha32 (demo_env true) (mkKeyRequest None (Some "the card"%string)) None 7 d (∅ : store)).1
    = Ok [mkDeviceInfo 1 "" "ik"].
Proof.
  split; [|vm_compute; reflexivity].
  apply (closed_island_hides_keys no_json no_tokens demo_sha32 demo_bucket (demo_env true) (mkKeyRequest None None)
           7 1); [reflexivity|]. intros s c Hs. vm_compute in Hs. discriminate Hs.
Defined.
