(* ===== verification/PrekeyProtocol.v ===== *)
(** * Concurrent claims of one-time prekeys

    Requests claim prekeys at the same time: [_claim_opk]
    ([src/app/routers/keys.py]) selects a row, and the handler's commit stores
    [consumed] and hands the bundle out.  Between the two the row is locked on
    Postgres ([FOR UPDATE SKIP LOCKED]) and not on SQLite, where a plain SELECT
    takes no lock that outlives it.  [pstep] interleaves selects, commits and
    aborts of any number of transactions with top-ups, uploads, revocations and
    the sweep; it refines a pool from which a key is taken once. *)

From stdpp Require Import base list sorting gmap strings relations.
From Stdlib Require Import ZArith Lia.
From S2P Require Import Prelude Storage KeyStorage Prekeys.

(** The committed tables, the row each open transaction has selected, and the
    rows handed out. *)
Record pstate := mkPstate {
  ps_db : kdb;
  ps_held : gmap Z OneTimePreKey;
  ps_served : list OneTimePreKey
}.

Definition locked (s : pstate) : gset Z := list_to_set (map (fun e => opk_row e.2) (map_to_list (ps_held s))).

(** [pg]: the database is Postgres. *)
Inductive pstep (pg : bool) : pstate -> pstate -> Prop :=
  | PSelect tx uin dv k s :
      ps_held s !! tx = None ->
      pick_opk (if pg then locked s else ∅) uin dv (prekeys (ps_db s)) = Some k ->
      pstep pg s (mkPstate (ps_db s) (<[tx := k]> (ps_held s)) (ps_served s))
  | PCommit tx now k s :
      ps_held s !! tx = Some k -> opk_row k ∈ map opk_row (prekeys (ps_db s)) ->
      pstep pg s (mkPstate (set_prekeys (map (consume_row now (opk_row k))) (ps_db s))
                    (delete tx (ps_held s)) (k :: ps_served s))
  | PAbort tx k s :
      ps_held s !! tx = Some k ->
      pstep pg s (mkPstate (ps_db s) (delete tx (ps_held s)) (ps_served s))
  | PTop now uin dv pks s :
      pstep pg s (mkPstate (top_up now uin dv pks (ps_db s)) (ps_held s) (ps_served s))
  | PWipe now uin dv pks s :
      (* the DELETE waits for the locks of its rows *)
      (pg = true -> forall tx k, ps_held s !! tx = Some k -> in_pool uin dv k = false) ->
      pstep pg s (mkPstate (add_opks now uin dv pks
                              (set_prekeys (filter (fun k => in_pool uin dv k = false)) (ps_db s)))
                    (ps_held s) (ps_served s))
  | PSweep cfg now s :
      pstep pg s (mkPstate (sweep_prekeys cfg now (ps_db s)) (ps_held s) (ps_served s)).

Definition pstart (d : kdb) : pstate := mkPstate d ∅ [].

(** ** The specification: a pool of keys, and the keys taken *)

Record apool := mkApool { a_free : gset Z; a_taken : list Z }.

Inductive astep : apool -> apool -> Prop :=
  | ATake row a : row ∈ a_free a -> astep a (mkApool (a_free a ∖ {[ row ]}) (row :: a_taken a))
  | AAdd rows a : rows ## list_to_set (a_taken a) -> astep a (mkApool (a_free a ∪ rows) (a_taken a))
  | ADrop rows a : astep a (mkApool (a_free a ∖ rows) (a_taken a)).

(** The specification takes no key twice. *)
Definition once (a : apool) : Prop := NoDup (a_taken a) /\ a_free a ## list_to_set (a_taken a).

Lemma astep_once a a' : astep a a' -> once a -> once a'.
Proof.
  intros Hs [Hn Hd]. destruct Hs; split; simpl; try set_solver.
  constructor; [|done]. set_solver.
Qed.

(** ** The refinement *)

Definition free_rows (d : kdb) : gset Z :=
  list_to_set (map opk_row (filter (fun k => opk_consumed k = false) (prekeys d))).

Definition pool_of (s : pstate) : apool := mkApool (free_rows (ps_db s)) (map opk_row (ps_served s)).

Lemma elem_of_free_rows d row :
  row ∈ free_rows d <-> exists k, k ∈ prekeys d /\ opk_row k = row /\ opk_consumed k = false.
Proof.
  unfold free_rows. rewrite elem_of_list_to_set, list_elem_of_fmap. setoid_rewrite list_elem_of_filter.
  naive_solver.
Qed.

Lemma elem_of_locked s row : row ∈ locked s <-> exists tx k, ps_held s !! tx = Some k /\ opk_row k = row.
Proof.
  unfold locked. rewrite elem_of_list_to_set, list_elem_of_fmap. split.
  - intros ([tx k] & -> & Hin%elem_of_map_to_list). eauto.
  - intros (tx & k & Hin & <-). exists (tx, k). by rewrite elem_of_map_to_list.
Qed.

(** On Postgres: a held row is free in the committed table and nobody else
    holds it; a row handed out is consumed for good. *)
Record pinv (s : pstate) : Prop := {
  pv_rows : rows_wf (ps_db s);
  pv_held : forall tx k, ps_held s !! tx = Some k -> k ∈ prekeys (ps_db s) /\ opk_consumed k = false;
  pv_locks : forall tx tx' k k', ps_held s !! tx = Some k -> ps_held s !! tx' = Some k' ->
    opk_row k = opk_row k' -> tx = tx';
  pv_served : forall k, k ∈ ps_served s -> opk_row k < next_opk_row (ps_db s)
}.

Lemma pinv_start d : rows_wf d -> pinv (pstart d).
Proof. intros Hd. split; simpl; [done|intros ??|intros ????|set_solver]; by rewrite lookup_empty. Qed.

(** Changes of the table that keep what is held. *)
Lemma pinv_db s d' :
  rows_wf d' -> next_opk_row (ps_db s) <= next_opk_row d' ->
  (forall tx k, ps_held s !! tx = Some k -> k ∈ prekeys d') ->
  pinv s -> pinv (mkPstate d' (ps_held s) (ps_served s)).
Proof.
  intros Hr Hn Hk [Hr0 Hh Hl Hs]. split; simpl; [done| |done|].
  - intros tx k Ht. split; [by eapply Hk|]. by eapply Hh.
  - intros k Hin. specialize (Hs k Hin). lia.
Qed.

Lemma add_opks_next now uin dv pks d :
  next_opk_row d <= next_opk_row (add_opks now uin dv pks d) /\
  forall k, k ∈ prekeys (add_opks now uin dv pks d) ->
    k ∈ prekeys d \/ (next_opk_row d <= opk_row k /\ opk_consumed k = false).
Proof.
  unfold add_opks. revert d; induction pks as [|pk pks IH]; intros d; simpl; [split; [lia|tauto]|].
  destruct (IH (insert_prekey (new_opk now uin dv pk) d)) as [Hn Hk]. simpl in *. split; [lia|].
  intros k [Hin|Hin]%Hk; [|right; split; [lia|apply Hin]].
  apply elem_of_app in Hin as [Hin| ->%list_elem_of_singleton]; [by left|right]. simpl. lia.
Qed.

Lemma add_opks_keeps now uin dv pks d k : k ∈ prekeys d -> k ∈ prekeys (add_opks now uin dv pks d).
Proof. destruct (add_opks_spec now uin dv pks d) as [(new & -> & _) _]. set_solver. Qed.

Lemma astep_grow free free' taken :
  free ⊆ free' -> (free' ∖ free) ## list_to_set taken -> astep (mkApool free taken) (mkApool free' taken).
Proof.
  intros Hsub Hd. rewrite (union_difference_L free free') by done.
  by apply (AAdd (free' ∖ free) (mkApool free taken)).
Qed.

Lemma astep_shrink free free' taken :
  free' ⊆ free -> astep (mkApool free taken) (mkApool free' taken).
Proof.
  intros Hsub. assert (E : free' = free ∖ (free ∖ free')).
  { apply leibniz_equiv. intros row. rewrite !elem_of_difference.
    destruct (decide (row ∈ free')); set_solver. }
  rewrite E. apply (ADrop (free ∖ free') (mkApool free taken)).
Qed.

(** Adding rows: new row ids, taken by nobody. *)
Lemma add_refines now uin dv pks s :
  pinv s ->
  let s' := mkPstate (add_opks now uin dv pks (ps_db s)) (ps_held s) (ps_served s) in
  pinv s' /\ astep (pool_of s) (pool_of s').
Proof.
  intros Hs. destruct (add_opks_next now uin dv pks (ps_db s)) as [Hn Hk]. split.
  - apply pinv_db; [by apply add_opks_spec, Hs|done| |done].
    intros tx k Ht. by apply add_opks_keeps, (pv_held _ Hs tx).
  - apply astep_grow.
    + intros row (k & Hin & ? & ?)%elem_of_free_rows. apply elem_of_free_rows. exists k.
      split; [by apply add_opks_keeps|done].
    + intros row [Hin Hout]%elem_of_difference Ht.
      apply elem_of_list_to_set, list_elem_of_fmap in Ht as (k & -> & Ht). apply (pv_served _ Hs) in Ht.
      apply elem_of_free_rows in Hin as (k' & [Hin|[Hin _]]%Hk & Er & Hc); [|lia].
      apply Hout, elem_of_free_rows. eauto.
Qed.

Lemma wipe_refines uin dv s :
  (forall tx k, ps_held s !! tx = Some k -> in_pool uin dv k = false) -> pinv s ->
  let s' := mkPstate (set_prekeys (filter (fun k => in_pool uin dv k = false)) (ps_db s)) (ps_held s) (ps_served s) in
  pinv s' /\ astep (pool_of s) (pool_of s').
Proof.
  intros Hw Hs. split.
  - apply pinv_db; [by apply filter_rows_wf, Hs|simpl; lia| |done].
    intros tx k Ht. apply list_elem_of_filter. split; [by eapply Hw|by eapply pv_held].
  - apply astep_shrink. intros row (k & [_ Hin]%list_elem_of_filter & ? & ?)%elem_of_free_rows.
    apply elem_of_free_rows. eauto.
Qed.

(** The sweep removes consumed rows only. *)
Lemma sweep_keeps_free cfg now d k :
  opk_consumed k = false -> rows_wf d -> k ∈ prekeys (sweep_prekeys cfg now d) <-> k ∈ prekeys d.
Proof.
  intros Hc Hd. unfold sweep_prekeys. destruct (dry_run cfg); [done|]. cbn [prekeys set_prekeys].
  assert (Hst : forall k0, stamp_opk now k0 = k <-> k0 = k).
  { intros k0. unfold stamp_opk. destruct (opk_consumed k0 && _) eqn:E; [|done].
    apply andb_prop in E as [E _]. split; [intros <-; done|intros ->; congruence]. }
  rewrite list_elem_of_filter, list_elem_of_fmap. split.
  - intros [_ (k0 & E & Hk)]. by rewrite <-(proj1 (Hst k0) (eq_sym E)).
  - intros Hk. assert (Hk' : k ∈ map (stamp_opk now) (prekeys d))
      by (apply list_elem_of_fmap; exists k; split; [symmetry; by apply Hst|done]).
    split; [|by apply list_elem_of_fmap].
    intros (k' & E & [Hx Hin]%list_elem_of_filter)%subseteq_take%list_elem_of_fmap.
    assert (k' = k) as ->.
    { apply (NoDup_map_inj opk_row (map (stamp_opk now) (prekeys d))); [|done..].
      apply (map_rows_wf (stamp_opk now) d (same_key_stamp now) Hd). }
    unfold expired_opk in Hx. by rewrite Hc in Hx.
Qed.

Lemma sweep_rows_wf cfg now d : rows_wf d -> rows_wf (sweep_prekeys cfg now d).
Proof.
  intros Hd. unfold sweep_prekeys. destruct (dry_run cfg); [done|].
  by apply filter_rows_wf, map_rows_wf; [auto with rcq|].
Qed.

Lemma sweep_refines cfg now s :
  pinv s -> let s' := mkPstate (sweep_prekeys cfg now (ps_db s)) (ps_held s) (ps_served s) in
  pinv s' /\ pool_of s' = pool_of s.
Proof.
  intros Hs s'. pose proof (pv_rows _ Hs) as Hr. split.
  - apply pinv_db; [by apply sweep_rows_wf| | |done].
    + unfold sweep_prekeys. by destruct (dry_run cfg).
    + intros tx k Ht. destruct (pv_held _ Hs tx k Ht). by apply sweep_keeps_free.
  - unfold pool_of. f_equal. apply leibniz_equiv. intros row. simpl. rewrite !elem_of_free_rows.
    split; intros (k & Hin & ? & Hc); exists k; (split; [|done]);
      by apply (sweep_keeps_free cfg now).
Qed.

Lemma select_inv tx uin dv k s :
  ps_held s !! tx = None -> pick_opk (locked s) uin dv (prekeys (ps_db s)) = Some k -> pinv s ->
  pinv (mkPstate (ps_db s) (<[tx := k]> (ps_held s)) (ps_served s)).
Proof.
  intros Htx (Hk & (_ & _ & Hc & Hl)%claimable_spec & _)%pick_opk_Some [Hr Hh Hlk Hs].
  assert (Hfree : forall t k', ps_held s !! t = Some k' -> opk_row k <> opk_row k').
  { intros t k' Ht E. apply Hl, elem_of_locked. eauto. }
  split; simpl; [done| | |done].
  - intros t k' [[<- <-]|[_ Ht]]%lookup_insert_Some; [done|by apply (Hh t)].
  - intros t t' k1 k2 [[<- <-]|[_ Ht]]%lookup_insert_Some [[<- <-]|[_ Ht']]%lookup_insert_Some E; [done|..|by eapply Hlk].
    + by destruct (Hfree _ _ Ht').
    + by destruct (Hfree _ _ Ht).
Qed.

Lemma abort_inv tx s : pinv s -> pinv (mkPstate (ps_db s) (delete tx (ps_held s)) (ps_served s)).
Proof.
  intros [Hr Hh Hlk Hs]. split; simpl; [done| | |done].
  - intros t k [_ Ht]%lookup_delete_Some. by apply (Hh t).
  - intros t t' k k' [_ Ht]%lookup_delete_Some [_ Ht']%lookup_delete_Some. by apply Hlk.
Qed.

Lemma commit_refines tx now k s :
  ps_held s !! tx = Some k -> pinv s ->
  let s' := mkPstate (set_prekeys (map (consume_row now (opk_row k))) (ps_db s)) (delete tx (ps_held s))
              (k :: ps_served s) in
  pinv s' /\ astep (pool_of s) (pool_of s').
Proof.
  intros Ht Hs s'. destruct (pv_held _ Hs tx k Ht) as [Hk Hc]. pose proof (pv_rows _ Hs) as [Hn Hlt]. split.
  - split; simpl.
    + apply (map_rows_wf _ (ps_db s)); [auto with rcq|done].
    + intros t k' [Hne Ht']%lookup_delete_Some. destruct (pv_held _ Hs t k' Ht') as [Hk' Hc']. split; [|done].
      apply list_elem_of_fmap. exists k'. split; [|done]. unfold consume_row.
      destruct (Z.eqb_spec (opk_row k') (opk_row k)) as [E|]; [|done].
      by destruct (Hne (pv_locks _ Hs tx t k k' Ht Ht' (eq_sym E))).
    + intros t t' k1 k2 [_ H1]%lookup_delete_Some [_ H2]%lookup_delete_Some. by apply (pv_locks _ Hs).
    + intros k' [->|Hk']%elem_of_cons; [by apply Hlt|by apply (pv_served _ Hs)].
  - assert (E : pool_of s' = mkApool (a_free (pool_of s) ∖ {[ opk_row k ]}) (opk_row k :: a_taken (pool_of s))).
    { unfold pool_of. simpl. f_equal. apply leibniz_equiv. intros row.
      rewrite elem_of_difference, elem_of_singleton, !elem_of_free_rows. simpl.
      setoid_rewrite list_elem_of_fmap. unfold consume_row. split.
      - intros (k' & (k0 & E & Hk0) & <- & Hc'). destruct (Z.eqb_spec (opk_row k0) (opk_row k)); subst k'; [done|eauto].
      - intros [(k' & Hk' & <- & Hc') Hne]. exists k'. split; [|done]. exists k'.
        by destruct (Z.eqb_spec (opk_row k') (opk_row k)). }
    rewrite E. apply ATake, elem_of_free_rows. eauto.
Qed.

(** A step of the server is a run of the specification. *)
Lemma pstep_refines s s' : pstep true s s' -> pinv s -> pinv s' /\ rtc astep (pool_of s) (pool_of s').
Proof.
  intros Hstep Hs. destruct Hstep as [tx uin dv k s Htx Hp|tx now k s Ht _|tx k s Ht|now uin dv pks s
                                     |now uin dv pks s Hw|cfg now s].
  - split; [by eapply select_inv|done].
  - destruct (commit_refines tx now k s Ht Hs). split; [done|by apply rtc_once].
  - split; [by apply abort_inv|done].
  - destruct (add_refines now uin dv (filter (fun pk => oi_id pk ∉ pool_ids uin dv (ps_db s)) pks) s Hs).
    split; [done|by apply rtc_once].
  - destruct (wipe_refines uin dv s (Hw eq_refl) Hs) as [H1 H2].
    destruct (add_refines now uin dv pks _ H1) as [H3 H4]. split; [done|]. by eapply rtc_l, rtc_once.
  - destruct (sweep_refines cfg now s Hs) as [H1 H2]. split; [done|by rewrite H2].
Qed.

(** C3. Refinement: on Postgres, whatever requests are in flight and however
    their selects, commits and rollbacks interleave with top-ups, new bundles,
    revocations and the sweep, what the key server does to its pools is a run of
    the abstract pool, in which a free key is taken once and a taken key is
    never free again; so no prekey row is handed out twice. *)
Theorem claims_refine_pool d s :
  rows_wf d -> rtc (pstep true) (pstart d) s ->
  rtc astep (pool_of (pstart d)) (pool_of s) /\ NoDup (map opk_row (ps_served s)).
Proof.
  intros Hd Hrun.
  assert (H : pinv s /\ rtc astep (pool_of (pstart d)) (pool_of s)).
  { revert Hrun. apply (rtc_ind_r (fun s => pinv s /\ rtc astep (pool_of (pstart d)) (pool_of s))).
    - split; [by apply pinv_start|done].
    - intros s1 s2 _ Hstep [Hi Hr]. destruct (pstep_refines s1 s2 Hstep Hi). split; [done|by etrans]. }
  destruct H as [_ Hr]. split; [done|]. change (map opk_row (ps_served s)) with (a_taken (pool_of s)).
  assert (Ho : once (pool_of s)); [|apply Ho]. revert Hr. apply (rtc_ind_r once).
  - split; [constructor|set_solver].
  - intros a a' _ Ha. by apply astep_once.
Qed.

Definition demo_rows : kdb := top_up 0 7 None [mkOpkIn 1 "a"; mkOpkIn 2 "b"] empty_kdb.

(** Two requests at once: each takes a key of its own. *)
Lemma claims_refine_pool_witness :
  exists s, rtc (pstep true) (pstart demo_rows) s /\ map opk_row (ps_served s) = [1; 2] /\
    NoDup (map opk_row (ps_served s)).
Proof.
  assert (Hrun : exists s, rtc (pstep true) (pstart demo_rows) s /\ map opk_row (ps_served s) = [1; 2]).
  { eexists. split.
    - eapply rtc_l; [eapply (PSelect true 1 7 None); reflexivity|].
      eapply rtc_l; [eapply (PSelect true 2 7 None); reflexivity|].
      eapply rtc_l; [eapply (PCommit true 2 5); [reflexivity|vm_compute; set_solver]|].
      eapply rtc_l; [eapply (PCommit true 1 6); [reflexivity|vm_compute; set_solver]|]. apply rtc_refl.
    - reflexivity. }
  destruct Hrun as (s & Hrun & Hs). exists s. split; [exact Hrun|]. split; [exact Hs|].
  apply (claims_refine_pool demo_rows s); [|exact Hrun].
  apply (add_opks_spec 0 7 None _ empty_kdb). split; [constructor|set_solver].
Defined.

(** Without the lock the claim is not single-use: on SQLite, where the
    SELECT leaves nothing locked and the UPDATE names the row by its key alone,
    two requests whose selects both precede the first commit are handed the same
    prekey.  (The comment of [_claim_opk] calls the plain select safe there.) *)
Theorem sqlite_serves_prekey_twice :
  exists s, rtc (pstep false) (pstart demo_rows) s /\ map opk_row (ps_served s) = [1; 1].
Proof.
  eexists. split.
  - eapply rtc_l; [eapply (PSelect false 1 7 None); reflexivity|].
    eapply rtc_l; [eapply (PSelect false 2 7 None); reflexivity|].
    eapply rtc_l; [eapply (PCommit false 2 5); [reflexivity|vm_compute; set_solver]|].
    eapply rtc_l; [eapply (PCommit false 1 6); [reflexivity|vm_compute; set_solver]|]. apply rtc_refl.
  - reflexivity.
Qed.
