(* ===== verification/Voucher.v ===== *)
(** * Vouchers of the till

    Models [src/app/services/uin_voucher.py]: the six documents the till signs,
    the exact bytes it signs, and the six verifiers.

    Text is over code points below 256.  Parameters, none of them under src/:
    [b64decode] with [validate=True], [json.loads], the Ed25519 check of
    [cryptography], and the till's public key (the cached setting, or the
    environment's). *)

From stdpp Require Import base list strings pretty.
From Stdlib Require Import ZArith Lia Ascii.
From S2P Require Import Prelude Text Bytes Door.

(** ** JSON out: [json.dumps(doc, sort_keys=True, separators=(",", ":"))] *)

Definition DQ : ascii := "034".
Definition BSL : ascii := "092".

Definition hex4 (n : nat) : string :=
  String "0" (String "0" (String (hex_digit (Z.of_nat n / 16)) (String (hex_digit (Z.of_nat n mod 16)) ""))).

(** One character of a JSON string, [ensure_ascii]. *)
Definition esc (c : ascii) : string :=
  let n := nat_of_ascii c in
  if (n =? 34)%nat then String BSL (String DQ "")
  else if (n =? 92)%nat then String BSL (String BSL "")
  else if (n =? 10)%nat then String BSL "n"
  else if (n =? 13)%nat then String BSL "r"
  else if (n =? 9)%nat then String BSL "t"
  else if (n =? 12)%nat then String BSL "f"
  else if (n =? 8)%nat then String BSL "b"
  else if (32 <=? n)%nat && (n <=? 126)%nat then String c ""
  else String BSL (String "u" (hex4 n)).

Fixpoint escape (s : string) : string :=
  match s with EmptyString => "" | String c s => esc c ++ escape s end.

Definition json_str (s : string) : string := String DQ (escape s ++ String DQ "").

Inductive jfield := FInt (z : Z) | FStr (s : string).
Definition dump_field (f : jfield) : string :=
  match f with FInt z => pretty z | FStr s => json_str s end.

(** The fields of a document in the order of their keys. *)
Fixpoint insert_key (kv : string * jfield) (l : list (string * jfield)) : list (string * jfield) :=
  match l with
  | [] => [kv]
  | x :: l' => if String.leb kv.1 x.1 then kv :: l else x :: insert_key kv l'
  end.
Definition sort_keys (l : list (string * jfield)) : list (string * jfield) := foldr insert_key [] l.

Fixpoint dump_fields (l : list (string * jfield)) : string :=
  match l with
  | [] => "}"
  | [kv] => json_str kv.1 ++ String ":" (dump_field kv.2 ++ "}")
  | kv :: l => json_str kv.1 ++ String ":" (dump_field kv.2 ++ String "," (dump_fields l))
  end.
Definition dumps (doc : list (string * jfield)) : string := String "{" (dump_fields (sort_keys doc)).

(** ** The documents *)

Definition VERSION : Z := 1.
Definition MAX_AGE_SECONDS : Z := 7 * 24 * 3600.
Definition ENTRY_MAX_AGE_SECONDS : Z := 366 * 24 * 3600.
Definition HOLD_MAX_AGE_SECONDS : Z := 600.
Definition HOLD_KINDS : list string := ["hold"; "release"]%string.

Definition signed_bytes (uin : Z) (nonce : string) (exp : Z) : bytes :=
  utf8 (dumps [("v", FInt VERSION); ("uin", FInt uin); ("nonce", FStr nonce); ("exp", FInt exp)]).

Definition resale_signed_bytes (uin : Z) (listing_id : string) (price_cents : Z) (nonce : string) (exp : Z)
    : bytes :=
  utf8 (dumps [("v", FInt VERSION); ("kind", FStr "resale"); ("uin", FInt uin); ("listing", FStr listing_id);
               ("price_cents", FInt price_cents); ("nonce", FStr nonce); ("exp", FInt exp)]).

Definition entry_signed_bytes (host nonce : string) (exp : Z) : bytes :=
  utf8 (dumps [("v", FInt VERSION); ("kind", FStr "entry"); ("host", FStr host); ("nonce", FStr nonce);
               ("exp", FInt exp)]).

Definition payout_signed_bytes (uin exp : Z) : bytes :=
  utf8 (dumps [("v", FInt VERSION); ("kind", FStr "payout"); ("uin", FInt uin); ("exp", FInt exp)]).

Definition entry_payout_signed_bytes (host : string) (exp : Z) : bytes :=
  utf8 (dumps [("v", FInt VERSION); ("kind", FStr "entry_payout"); ("host", FStr host); ("exp", FInt exp)]).

Definition hold_signed_bytes (kind : string) (uin : Z) (hold_id : string) (exp : Z) : bytes :=
  utf8 (dumps [("v", FInt VERSION); ("kind", FStr kind); ("uin", FInt uin); ("hold_id", FStr hold_id);
               ("exp", FInt exp)]).

Example signed_bytes_text :
  signed_bytes 777 "n" 5 = utf8 (dumps [("exp", FInt 5); ("nonce", FStr "n"); ("uin", FInt 777); ("v", FInt 1)]).
Proof. reflexivity. Qed.

(** ** JSON in *)

(** [json.loads] of a document.  A float carries its value (mantissa, power of
    two) and its [repr]; a list or an object inside the document its [repr]. *)
Inductive json :=
  | JNull
  | JBool (b : bool)
  | JInt (z : Z)
  | JFloat (m e : Z) (repr : string)
  | JInfinity (neg : bool)
  | JNaN
  | JStr (s : string)
  | JList (repr : string)
  | JObj (fields : list (string * json)) (repr : string).

Definition py_str (v : json) : string :=
  match v with
  | JNull => "None"
  | JBool true => "True"
  | JBool false => "False"
  | JInt z => pretty z
  | JFloat _ _ r => r
  | JInfinity false => "inf"
  | JInfinity true => "-inf"
  | JNaN => "nan"
  | JStr s => s
  | JList r => r
  | JObj _ r => r
  end.

(** [int] of a text: spaces around, a sign, digits with single underscores. *)
Fixpoint py_digits (acc : Z) (after_digit : bool) (s : string) : option Z :=
  match s with
  | EmptyString => if after_digit then Some acc else None
  | String c s' =>
      match digit_value c with
      | Some d => py_digits (10 * acc + Z.of_N d) true s'
      | None => if bool_decide (c = "_"%char) && after_digit then py_digits acc false s' else None
      end
  end.
Definition py_int_str (s : string) : option Z :=
  match strip s with
  | String c s' =>
      if bool_decide (c = "-"%char) then option_map Z.opp (py_digits 0 false s')
      else if bool_decide (c = "+"%char) then py_digits 0 false s'
      else py_digits 0 false (String c s')
  | EmptyString => None
  end.

(** What the verifiers raise: their own refusal, or an exception they do not
    catch. *)
Inductive verdict (A : Type) := Accepted (a : A) | Refused (code : string) | Crashed (exc : string).
Arguments Accepted {A} a.
Arguments Refused {A} code.
Arguments Crashed {A} exc.

Definition vbind {A B} (x : verdict A) (f : A -> verdict B) : verdict B :=
  match x with Accepted a => f a | Refused c => Refused c | Crashed e => Crashed e end.
Notation "'let?' x := a 'in' b" := (vbind a (fun x => b)) (at level 200, x name, a at level 100, b at level 200).

Definition bad {A} : verdict A := Refused "bad_voucher".
Notation "'ensure' b 'otherwise' n 'in' k" := (if b then k else n)
  (at level 200, b at level 100, n at level 100, k at level 200, only parsing).

(** [int(doc[k])] inside the verifiers' [try]: [KeyError], [ValueError] and
    [TypeError] are caught there, the [OverflowError] of an infinity is not. *)
Definition int_field (k : string) (doc : list (string * json)) : verdict Z :=
  match find_first (fun kv => String.eqb kv.1 k) doc with
  | None => bad
  | Some (_, v) =>
      match v with
      | JInt z => Accepted z
      | JBool b => Accepted (if b then 1 else 0)
      | JFloat m e _ => Accepted (if 0 <=? e then m * 2 ^ e else Z.quot m (2 ^ (- e)))
      | JInfinity _ => Crashed "OverflowError"
      | JStr s => match py_int_str s with Some z => Accepted z | None => bad end
      | JNaN | JNull | JList _ | JObj _ _ => bad
      end
  end.

Definition str_field (k : string) (doc : list (string * json)) : verdict string :=
  match find_first (fun kv => String.eqb kv.1 k) doc with
  | None => bad
  | Some (_, v) => Accepted (py_str v)
  end.

(** [doc.get("v") == 1], where [1 == 1.0 == True]. *)
Definition is_version (doc : list (string * json)) : bool :=
  match find_first (fun kv => String.eqb kv.1 "v"%string) doc with
  | Some (_, JInt z) => z =? VERSION
  | Some (_, JBool b) => b
  | Some (_, JFloat m e _) => if 0 <=? e then m * 2 ^ e =? VERSION else m =? VERSION * 2 ^ (- e)
  | _ => false
  end.
(** [doc.get("kind") == k] *)
Definition has_kind (k : string) (doc : list (string * json)) : bool :=
  match find_first (fun kv => String.eqb kv.1 "kind"%string) doc with
  | Some (_, JStr s) => String.eqb s k
  | _ => false
  end.

Definition text_between (lo hi : nat) (s : string) : bool :=
  (lo <=? String.length s)%nat && (String.length s <=? hi)%nat && is_ascii s.

Section verifiers.
Context (b64decode : string -> option bytes) (loads : bytes -> option json).
(** [Ed25519PublicKey.from_public_bytes(key).verify(sig, message)] *)
Context (ed25519_verify : bytes -> bytes -> bytes -> bool).
(** [public_key_b64()] *)
Context (public_key : option string).

(** [json.loads(base64.b64decode(voucher.strip(), validate=True))], an object. *)
Definition open_doc (voucher : string) : verdict (list (string * json)) :=
  match b64decode (strip voucher) with
  | Some raw => match loads raw with Some (JObj doc _) => Accepted doc | _ => bad end
  | None => bad
  end.

(** [base64.b64decode(str(doc["sig"]), validate=True)] *)
Definition sig_field (doc : list (string * json)) : verdict bytes :=
  let? s := str_field "sig" doc in
  match b64decode s with Some b => Accepted b | None => bad end.

Definition check_sig (pub : string) (sig msg : bytes) : bool :=
  match b64decode pub with Some key => ed25519_verify key sig msg | None => false end.

(** The key, or [sales_disabled]. *)
Definition with_key {A} (f : string -> verdict A) : verdict A :=
  match public_key with
  | Some pub => if bool_decide (pub = ""%string) then Refused "sales_disabled" else f pub
  | None => Refused "sales_disabled"
  end.

Definition verify (voucher : string) (expect_uin now : Z) : verdict string :=
  with_key (fun pub =>
  let? doc := open_doc voucher in
  ensure (is_version doc) otherwise bad in
  let? uin := int_field "uin" doc in
  let? exp := int_field "exp" doc in
  let? nonce := str_field "nonce" doc in
  let? sig := sig_field doc in
  ensure (text_between 16 128 nonce) otherwise bad in
  ensure (uin =? expect_uin) otherwise (Refused "voucher_other_uin") in
  ensure (now <? exp) otherwise (Refused "voucher_expired") in
  ensure (exp - now <=? MAX_AGE_SECONDS) otherwise bad in
  ensure (check_sig pub sig (signed_bytes uin nonce exp)) otherwise bad in
  Accepted nonce).

Definition verify_resale (voucher : string) (expect_uin now : Z) : verdict (string * string * Z) :=
  with_key (fun pub =>
  let? doc := open_doc voucher in
  ensure (is_version doc && has_kind "resale" doc) otherwise bad in
  let? uin := int_field "uin" doc in
  let? listing_id := str_field "listing" doc in
  let? price_cents := int_field "price_cents" doc in
  let? exp := int_field "exp" doc in
  let? nonce := str_field "nonce" doc in
  let? sig := sig_field doc in
  ensure (text_between 16 128 nonce) otherwise bad in
  ensure (uin =? expect_uin) otherwise (Refused "voucher_other_uin") in
  ensure ((0 <=? price_cents) && text_between 1 32 listing_id) otherwise bad in
  ensure (now <? exp) otherwise (Refused "voucher_expired") in
  ensure (exp - now <=? MAX_AGE_SECONDS) otherwise bad in
  ensure (check_sig pub sig (resale_signed_bytes uin listing_id price_cents nonce exp)) otherwise bad in
  Accepted (nonce, listing_id, price_cents)).

Definition verify_entry (voucher expect_host : string) (now : Z) : verdict string :=
  with_key (fun pub =>
  let expect := lower (strip expect_host) in
  ensure (negb (bool_decide (expect = ""%string))) otherwise (Refused "sales_disabled") in
  let? doc := open_doc voucher in
  ensure (is_version doc && has_kind "entry" doc) otherwise bad in
  let? host_signed := str_field "host" doc in
  let? exp := int_field "exp" doc in
  let? nonce := str_field "nonce" doc in
  let? sig := sig_field doc in
  ensure (text_between 16 128 nonce) otherwise bad in
  ensure (bool_decide (lower (strip host_signed) = expect)) otherwise (Refused "voucher_other_island") in
  ensure (now <? exp) otherwise (Refused "voucher_expired") in
  ensure (exp - now <=? ENTRY_MAX_AGE_SECONDS) otherwise bad in
  ensure (check_sig pub sig (entry_signed_bytes host_signed nonce exp)) otherwise bad in
  Accepted nonce).

Definition verify_payout (request : string) (now : Z) : verdict Z :=
  with_key (fun pub =>
  let? doc := open_doc request in
  ensure (is_version doc && has_kind "payout" doc) otherwise bad in
  let? uin := int_field "uin" doc in
  let? exp := int_field "exp" doc in
  let? sig := sig_field doc in
  ensure ((now <? exp) && (exp - now <=? HOLD_MAX_AGE_SECONDS)) otherwise (Refused "voucher_expired") in
  ensure (check_sig pub sig (payout_signed_bytes uin exp)) otherwise bad in
  Accepted uin).

Definition verify_entry_payout (request expect_host : string) (now : Z) : verdict string :=
  with_key (fun pub =>
  let expect := lower (strip expect_host) in
  ensure (negb (bool_decide (expect = ""%string))) otherwise (Refused "sales_disabled") in
  let? doc := open_doc request in
  ensure (is_version doc && has_kind "entry_payout" doc) otherwise bad in
  let? host_signed := str_field "host" doc in
  let? exp := int_field "exp" doc in
  let? sig := sig_field doc in
  ensure (text_between 1 253 host_signed) otherwise bad in
  ensure ((now <? exp) && (exp - now <=? HOLD_MAX_AGE_SECONDS)) otherwise (Refused "voucher_expired") in
  ensure (check_sig pub sig (entry_payout_signed_bytes host_signed exp)) otherwise bad in
  ensure (bool_decide (lower (strip host_signed) = expect)) otherwise (Refused "voucher_other_island") in
  Accepted host_signed).

Definition verify_hold (request : string) (now : Z) : verdict (string * Z * string * Z) :=
  with_key (fun pub =>
  let? doc := open_doc request in
  ensure (is_version doc) otherwise bad in
  let? kind := str_field "kind" doc in
  let? uin := int_field "uin" doc in
  let? hold_id := str_field "hold_id" doc in
  let? exp := int_field "exp" doc in
  let? sig := sig_field doc in
  ensure (bool_decide (kind ∈ HOLD_KINDS) && text_between 1 64 hold_id) otherwise bad in
  ensure (now <? exp) otherwise (Refused "voucher_expired") in
  ensure (exp - now <=? HOLD_MAX_AGE_SECONDS) otherwise bad in
  ensure (check_sig pub sig (hold_signed_bytes kind uin hold_id exp)) otherwise bad in
  Accepted (kind, uin, hold_id, exp)).
End verifiers.

(** ** The signed bytes say one thing

    A JSON string is read back character by character, an integer up to the
    first character that belongs to none. *)

Definition hex_value (c : ascii) : option nat :=
  let n := nat_of_ascii c in
  if (48 <=? n)%nat && (n <=? 57)%nat then Some (n - 48)%nat
  else if (97 <=? n)%nat && (n <=? 102)%nat then Some (n - 87)%nat else None.

(** The first character of an escaped text, and what follows. *)
Definition unesc (s : string) : option (ascii * string) :=
  match s with
  | String c s =>
      if bool_decide (c = DQ) then None
      else if negb (bool_decide (c = BSL)) then Some (c, s)
      else match s with
      | String d s =>
          if bool_decide (d = DQ) then Some (DQ, s)
          else if bool_decide (d = BSL) then Some (BSL, s)
          else if bool_decide (d = "n"%char) then Some (ascii_of_nat 10, s)
          else if bool_decide (d = "r"%char) then Some (ascii_of_nat 13, s)
          else if bool_decide (d = "t"%char) then Some (ascii_of_nat 9, s)
          else if bool_decide (d = "f"%char) then Some (ascii_of_nat 12, s)
          else if bool_decide (d = "b"%char) then Some (ascii_of_nat 8, s)
          else match s with
          | String _ (String _ (String h (String l s))) =>
              match hex_value h, hex_value l with
              | Some h, Some l => Some (ascii_of_nat (16 * h + l), s)
              | _, _ => None
              end
          | _ => None
          end
      | EmptyString => None
      end
  | EmptyString => None
  end.

Lemma unesc_esc c t : unesc (esc c ++ t) = Some (c, t).
Proof. destruct c as [[] [] [] [] [] [] [] []]; reflexivity. Qed.

Lemma str_app_assoc (a b c : string) : ((a ++ b) ++ c = a ++ (b ++ c))%string.
Proof. induction a as [|x a IH]; [done|]. change (String x ((a ++ b) ++ c) = String x (a ++ (b ++ c)))%string. by rewrite IH. Qed.

Lemma escape_inj s1 : forall s2 t1 t2,
  (escape s1 ++ String DQ t1 = escape s2 ++ String DQ t2)%string -> s1 = s2 /\ t1 = t2.
Proof.
  induction s1 as [|c1 s1 IH]; intros [|c2 s2] t1 t2; simpl; rewrite ?str_app_assoc; intros E.
  - by injection E as ->.
  - pose proof (unesc_esc c2 (escape s2 ++ String DQ t2)) as H. by rewrite <-E in H.
  - pose proof (unesc_esc c1 (escape s1 ++ String DQ t1)) as H. by rewrite E in H.
  - pose proof (unesc_esc c1 (escape s1 ++ String DQ t1)) as H. rewrite E, unesc_esc in H.
    injection H as -> H. destruct (IH s2 t1 t2) as [-> ->]; done.
Qed.

Lemma json_str_inj s1 s2 t1 t2 : (json_str s1 ++ t1 = json_str s2 ++ t2)%string -> s1 = s2 /\ t1 = t2.
Proof.
  unfold json_str. simpl. intros [= E]. rewrite !str_app_assoc in E. by apply escape_inj in E.
Qed.

(** The six kinds of document. *)
Inductive till_doc :=
  | DNumber (uin : Z) (nonce : string) (exp : Z)
  | DResale (uin : Z) (listing_id : string) (price_cents : Z) (nonce : string) (exp : Z)
  | DEntry (host nonce : string) (exp : Z)
  | DPayout (uin exp : Z)
  | DEntryPayout (host : string) (exp : Z)
  | DHold (kind : string) (uin : Z) (hold_id : string) (exp : Z).

Definition signed_doc (d : till_doc) : bytes :=
  match d with
  | DNumber uin nonce exp => signed_bytes uin nonce exp
  | DResale uin l price nonce exp => resale_signed_bytes uin l price nonce exp
  | DEntry host nonce exp => entry_signed_bytes host nonce exp
  | DPayout uin exp => payout_signed_bytes uin exp
  | DEntryPayout host exp => entry_payout_signed_bytes host exp
  | DHold kind uin hold_id exp => hold_signed_bytes kind uin hold_id exp
  end.

(** The text after the key [exp], which every document begins with. *)
Definition doc_tail (d : till_doc) : list (string * jfield) :=
  match d with
  | DNumber uin nonce _ => [("nonce", FStr nonce); ("uin", FInt uin); ("v", FInt VERSION)]
  | DResale uin l price nonce _ =>
      [("kind", FStr "resale"); ("listing", FStr l); ("nonce", FStr nonce); ("price_cents", FInt price);
       ("uin", FInt uin); ("v", FInt VERSION)]
  | DEntry host nonce _ => [("host", FStr host); ("kind", FStr "entry"); ("nonce", FStr nonce); ("v", FInt VERSION)]
  | DPayout uin _ => [("kind", FStr "payout"); ("uin", FInt uin); ("v", FInt VERSION)]
  | DEntryPayout host _ => [("host", FStr host); ("kind", FStr "entry_payout"); ("v", FInt VERSION)]
  | DHold kind uin hold_id _ => [("hold_id", FStr hold_id); ("kind", FStr kind); ("uin", FInt uin); ("v", FInt VERSION)]
  end.
Definition doc_exp (d : till_doc) : Z :=
  match d with
  | DNumber _ _ e | DResale _ _ _ _ e | DEntry _ _ e | DPayout _ e | DEntryPayout _ e | DHold _ _ _ e => e
  end.

Lemma signed_doc_text d : signed_doc d = utf8 (String "{" (dump_fields (("exp"%string, FInt (doc_exp d)) :: doc_tail d))).
Proof. by destruct d. Qed.

(** An integer is written with one character at least, and none is a quote. *)
Lemma pretty_head (z : Z) : exists c s, pretty z = String c s /\ c <> DQ.
Proof.
  pose proof (pretty_chars z) as H. destruct (pretty z) as [|c s] eqn:E.
  - pose proof (int_of_pretty z) as H'. by rewrite E in H'.
  - exists c, s. split; [done|]. intros ->. done.
Qed.

Lemma dump_field_sep f1 f2 c1 c2 t1 t2 :
  int_char c1 = false -> int_char c2 = false ->
  (dump_field f1 ++ String c1 t1 = dump_field f2 ++ String c2 t2)%string ->
  f1 = f2 /\ String c1 t1 = String c2 t2.
Proof.
  intros Hc1 Hc2. destruct f1 as [z1|s1], f2 as [z2|s2]; cbn [dump_field].
  - intros [-> ->]%pretty_sep; done.
  - intros E. exfalso. destruct (pretty_head z1) as (c & s & Ez & Hc). rewrite Ez in E. by injection E.
  - intros E. exfalso. destruct (pretty_head z2) as (c & s & Ez & Hc). rewrite Ez in E.
    injection E as E _. by symmetry in E.
  - intros [-> ->]%json_str_inj; done.
Qed.

(** What follows the value of a field. *)
Definition rest_text (l : list (string * jfield)) : string :=
  match l with [] => "}" | _ => String "," (dump_fields l) end.

Lemma dump_fields_cons k f l :
  dump_fields ((k, f) :: l) = (json_str k ++ String ":" (dump_field f ++ rest_text l))%string.
Proof. by destruct l. Qed.

(** Equal texts have equal fields. *)
Lemma dump_fields_inj l1 : forall l2, dump_fields l1 = dump_fields l2 -> l1 = l2.
Proof.
  induction l1 as [|[k1 f1] l1 IH]; intros [|[k2 f2] l2]; rewrite ?dump_fields_cons; [done|done|done|].
  intros [-> E]%json_str_inj. injection E as E.
  assert (Hr : forall l, exists c t, rest_text l = String c t /\ int_char c = false).
  { intros [|kv l]; eexists _, _; (split; [reflexivity|reflexivity]). }
  destruct (Hr l1) as (c1 & t1 & E1 & H1). destruct (Hr l2) as (c2 & t2 & E2 & H2). rewrite E1, E2 in E.
  apply dump_field_sep in E as [-> E]; [|done|done]. f_equal. apply IH.
  rewrite <-E1, <-E2 in E. destruct l1, l2; try done. by injection E.
Qed.

Lemma signed_doc_inj d1 d2 : signed_doc d1 = signed_doc d2 -> d1 = d2.
Proof.
  rewrite !signed_doc_text. intros E%utf8_inj.
  assert (E' : forall a b, String "{" a = String "{" b -> a = b) by (intros a b H; by injection H).
  apply E', dump_fields_inj in E. injection E as Ee Et. destruct d1, d2; simpl in *; try discriminate; congruence.
Qed.

(** The bytes the till signs say one thing: two documents, of one kind or of
    different kinds, that have the same signed bytes are the same document.  A
    voucher for a number cannot be read as one for a listing, nor a hold as a
    voucher, whatever text its nonce, listing, host or hold id carries. *)
Theorem signed_doc_injective d1 d2 : signed_doc d1 = signed_doc d2 -> d1 = d2.
Proof. apply signed_doc_inj. Qed.

Lemma signed_doc_injective_witness :
  signed_doc (DNumber 777 "abc" 5) <> signed_doc (DResale 777 "abc" 0 "abc" 5) /\
  DNumber 777 "abc" 5 = DNumber 777 "abc" 5.
Proof.
  split; [intros E; apply signed_doc_injective in E; discriminate E|].
  apply signed_doc_injective. reflexivity.
Defined.

(** ** What an accepted document proves *)

Lemma vbind_Accepted {A B} (x : verdict A) (f : A -> verdict B) b :
  vbind x f = Accepted b -> exists a, x = Accepted a /\ f a = Accepted b.
Proof. destruct x; simpl; [eauto|done..]. Qed.

(** Peels the binds and checks of an accepting verifier. *)
Ltac peel H :=
  repeat match type of H with
  | vbind ?x _ = Accepted _ => let a := fresh "a" in let E := fresh "E" in apply vbind_Accepted in H as (a & E & H)
  | (if ?b then _ else _) = Accepted _ => let E := fresh "E" in destruct b eqn:E; [|discriminate H]
  end.

Ltac zchecks :=
  repeat match goal with
  | E : (_ =? _) = true |- _ => apply Z.eqb_eq in E; subst
  | E : (_ <? _) = true |- _ => apply Z.ltb_lt in E
  | E : (_ <=? _) = true |- _ => apply Z.leb_le in E
  end.

Section accepted.
Context (b64decode : string -> option bytes) (loads : bytes -> option json).
Context (ed25519_verify : bytes -> bytes -> bytes -> bool) (public_key : option string).
#[local] Set Default Proof Using "Type".

(** The till's key signed these bytes. *)
Definition key_signed (msg : bytes) : Prop :=
  exists pub sig, public_key = Some pub /\ check_sig b64decode ed25519_verify pub sig msg = true.

Lemma with_key_Accepted {A} (f : string -> verdict A) a :
  with_key public_key f = Accepted a -> exists pub, public_key = Some pub /\ f pub = Accepted a.
Proof.
  unfold with_key. destruct public_key as [pub|]; [|done]. case_bool_decide; [done|]. by exists pub.
Qed.

(** The nonce a voucher carries, whoever reads it. *)
Definition voucher_nonce (voucher : string) : verdict string :=
  let? doc := open_doc b64decode loads voucher in str_field "nonce" doc.

Lemma verify_accepted voucher uin now nonce :
  verify b64decode loads ed25519_verify public_key voucher uin now = Accepted nonce ->
  voucher_nonce voucher = Accepted nonce /\
  exists exp, key_signed (signed_doc (DNumber uin nonce exp)) /\ now < exp <= now + MAX_AGE_SECONDS.
Proof.
  intros H. apply with_key_Accepted in H as (pub & Hpub & H). peel H. injection H as <-.
  zchecks.
  split; [unfold voucher_nonce; by match goal with E : open_doc _ _ _ = _ |- _ => rewrite E end|].
  eexists. split; [|split; [eassumption|lia]]. by eexists _, _.
Qed.

Lemma verify_resale_accepted voucher uin now nonce listing price :
  verify_resale b64decode loads ed25519_verify public_key voucher uin now = Accepted (nonce, listing, price) ->
  voucher_nonce voucher = Accepted nonce /\
  exists exp, key_signed (signed_doc (DResale uin listing price nonce exp)) /\ now < exp <= now + MAX_AGE_SECONDS.
Proof.
  intros H. apply with_key_Accepted in H as (pub & Hpub & H). peel H. injection H as <- <- <-.
  zchecks.
  split; [unfold voucher_nonce; by match goal with E : open_doc _ _ _ = _ |- _ => rewrite E end|].
  eexists. split; [|split; [eassumption|lia]]. by eexists _, _.
Qed.

Lemma verify_hold_accepted request now kind uin hold_id exp :
  verify_hold b64decode loads ed25519_verify public_key request now = Accepted (kind, uin, hold_id, exp) ->
  key_signed (signed_doc (DHold kind uin hold_id exp)) /\ now < exp <= now + HOLD_MAX_AGE_SECONDS.
Proof.
  intros H. apply with_key_Accepted in H as (pub & Hpub & H). peel H. injection H as <- <- <- <-.
  zchecks.
  split; [by eexists _, _|lia].
Qed.

(** A voucher that names its number as [Infinity] (which [json.loads]
    accepts) is not refused: the [OverflowError] of [int] escapes the handler,
    whatever its signature. *)
Theorem infinite_voucher_crashes voucher raw doc repr uin now neg :
  (exists pub, public_key = Some pub /\ pub <> ""%string) ->
  b64decode (strip voucher) = Some raw -> loads raw = Some (JObj doc repr) -> is_version doc = true ->
  find_first (fun kv => String.eqb kv.1 "uin"%string) doc = Some ("uin"%string, JInfinity neg) ->
  verify b64decode loads ed25519_verify public_key voucher uin now = Crashed "OverflowError".
Proof.
  intros (pub & Hpub & Hne) Hb Hl Hv Hu. unfold verify, with_key. rewrite Hpub.
  rewrite bool_decide_eq_false_2 by done. unfold open_doc. rewrite Hb, Hl. simpl. rewrite Hv.
  unfold int_field at 1. by rewrite Hu.
Qed.
End accepted.

Definition demo_infinity : list (string * json) := [("v", JInt 1); ("uin", JInfinity false)]%string.

Lemma infinite_voucher_crashes_witness :
  verify (fun _ => Some []) (fun _ => Some (JObj demo_infinity "")) (fun _ _ _ => false) (Some "key"%string)
    "eyJ2Ijo" 777 0 = Crashed "OverflowError".
Proof.
  apply (infinite_voucher_crashes (fun _ => Some []) (fun _ => Some (JObj demo_infinity "")) (fun _ _ _ => false)
           (Some "key"%string) "eyJ2Ijo" [] demo_infinity "" 777 0 false); try reflexivity.
  exists "key"%string. split; [reflexivity|discriminate].
Defined.
