(* ===== verification/UinRows.v ===== *)
(** * The rows that belong to a number

    Models [src/app/services/uin_rows.py]: the inventory of the columns that
    name a person, re-keying them when an account moves to another number, and
    purging them when it burns.

    The code is written against the schema (it asks every model for its unique
    keys), so the model is too: a table is a list of rows, a row a map from
    column names to values (an absent column is NULL), and [SCHEMA] gives the
    unique keys the models declare. *)

From stdpp Require Import base list gmap strings pretty.
From Stdlib Require Import ZArith Lia.
From S2P Require Import Prelude.

#[local] Open Scope string_scope.

Inductive cell := CInt (z : Z) | CStr (s : string).
#[export] Instance cell_eq_dec : EqDecision cell.
Proof. solve_decision. Defined.

Notation row := (gmap string cell).
Notation rows_db := (gmap string (list row)).

Definition rows (d : rows_db) (t : string) : list row := default [] (d !! t).

(** The values a row has in a key; NULLs are distinct, so a key with one is none. *)
Definition key_of (k : list string) (r : row) : option (list cell) := mapM (fun c => r !! c) k.

(** [column == uin] *)
Definition col_is (c : string) (u : Z) (r : row) : bool := bool_decide (r !! c = Some (CInt u)).

Definition set_col (c : string) (old new : Z) (r : row) : row :=
  if col_is c old r then <[c := CInt new]> r else r.

(** Primary keys, UNIQUE constraints and unique indexes of the models. *)
Definition SCHEMA (t : string) : list (list string) :=
  if String.eqb t "contacts" then [["id"]; ["owner_uin"; "contact_uin"]]
  else if String.eqb t "contact_requests" then [["id"]; ["from_uin"; "to_uin"]]
  else if String.eqb t "contact_vault_devices" then [["uin"; "device_id"]]
  else if String.eqb t "offline_messages" then [["id"]; ["to_uin"; "seq"]]
  else if String.eqb t "offline_group_messages" then [["id"]]
  else if String.eqb t "group_log" then [["group_id"; "seq"]]
  else if String.eqb t "group_log_cursors" then [["group_id"; "uin"; "device_id"]]
  else if String.eqb t "group_log_readers" then [["uin"; "device_id"]]
  else if String.eqb t "mailbox_seq" then [["to_uin"]]
  else if String.eqb t "groups" then [["id"]]
  else if String.eqb t "group_members" then [["id"]; ["group_id"; "uin"]]
  else if String.eqb t "audio_rooms" then [["id"]; ["join_key"]]
  else if String.eqb t "audio_room_memberships" then [["id"]]
  else if String.eqb t "queue_cursors" then [["uin"; "device_id"]]
  else if String.eqb t "user_capabilities" then [["uin"]]
  else if String.eqb t "vault_slots" then [["uin"; "slot"]]
  else if String.eqb t "owned_uins" then [["uin"]]
  else if String.eqb t "uin_listings" then [["uin"]]
  else if String.eqb t "reports" then [["id"]]
  else if String.eqb t "invites" then [["code"]]
  else if String.eqb t "guest_cards" then [["id"]; ["card_hash"]]
  else if String.eqb t "retired_signing_keys" then [["sk_hash"]]
  else if String.eqb t "home_island_records" then [["uin"]]
  else if String.eqb t "sites" then [["name"]]
  else if String.eqb t "gossip_records" then [["sk"]]
  else [].

Definition PER_UIN_COLUMNS : list (string * string) :=
  [("contacts", "owner_uin"); ("contacts", "contact_uin");
   ("contact_requests", "from_uin"); ("contact_requests", "to_uin");
   ("contact_vault_devices", "uin");
   ("offline_messages", "to_uin"); ("offline_group_messages", "to_uin");
   ("group_log", "to_uin"); ("group_log_cursors", "uin"); ("group_log_readers", "uin");
   ("mailbox_seq", "to_uin");
   ("groups", "owner_uin"); ("group_members", "uin");
   ("audio_rooms", "owner_uin"); ("audio_room_memberships", "uin");
   ("queue_cursors", "uin"); ("user_capabilities", "uin"); ("vault_slots", "uin");
   ("owned_uins", "owner_uin"); ("uin_listings", "seller_uin");
   ("reports", "reporter_uin"); ("reports", "target_uin");
   ("invites", "created_by"); ("guest_cards", "owner_uin"); ("retired_signing_keys", "uin")].

Definition DROP_ON_REKEY : list (string * string) := [("home_island_records", "uin")].

(** [_THIRD_PARTY_UIN_COLUMNS]: the number names somebody in another's row. *)
Definition THIRD_PARTY : list (string * string) := [("contacts", "contact_uin"); ("contact_requests", "to_uin")].

(** [_unique_keys_containing] *)
Definition unique_keys_containing (t c : string) : list (list string) :=
  filter (fun k => c ∈ k) (SCHEMA t).

Definition delete_where (p : row -> bool) (l : list row) : list row := filter (fun r => p r = false) l.

(** [DELETE ... WHERE column = new AND others IN (SELECT others WHERE column = old)] *)
Definition drop_duplicates (k : list string) (c : string) (old new : Z) (l : list row) : list row :=
  let others := filter (fun c' => c' <> c) k in
  if bool_decide (others = []) then l
  else
    let sub := omap (fun r => if col_is c old r then key_of others r else None) l in
    delete_where (fun r => col_is c new r &&
                    match key_of others r with Some v => bool_decide (v ∈ sub) | None => false end) l.

Definition int_cell (v : option cell) : option Z := match v with Some (CInt z) => Some z | _ => None end.

(** The counter of a mailbox takes the higher of the two before the other goes. *)
Definition raise_counter (old new : Z) (l : list row) : list row :=
  let seqs := omap (fun r => if col_is "to_uin" old r || col_is "to_uin" new r
                             then int_cell (r !! "next_seq") else None) l in
  match seqs with
  | [] => l
  | x :: xs => map (fun r => if col_is "to_uin" old r then <["next_seq" := CInt (foldl Z.max x xs)]> r else r) l
  end.

(** [_clear_destination] *)
Definition clear_destination (t c : string) (old new : Z) (l : list row) : list row :=
  match unique_keys_containing t c with
  | [] => l
  | ks =>
      if bool_decide ((t, c) ∈ THIRD_PARTY) then foldl (fun l k => drop_duplicates k c old new l) l ks
      else
        let l := if String.eqb t "mailbox_seq" then raise_counter old new l else l in
        delete_where (col_is c new) l
  end.

(** [_move_sites]; [None] is the burn. *)
Definition move_site (old : Z) (new : option Z) (r : row) : option row :=
  if col_is "owner_uin" old r then
    match new with
    | None => None
    | Some n => if bool_decide (r !! "name" = Some (CStr (pretty old))) then None
                else Some (<["owner_uin" := CInt n]> r)
    end
  else Some r.

Definition move_sites (old : Z) (new : option Z) (l : list row) : list row := omap (move_site old new) l.

Definition set_rows (t : string) (l : list row) (d : rows_db) : rows_db := <[t := l]> d.

(** Every unique key of the table holds. *)
Definition keys_ok (t : string) (l : list row) : bool := forallb (fun k => bool_decide (NoDup (omap (key_of k) l))) (SCHEMA t).

(** [UPDATE t SET c = new WHERE c = old]: row after row, and after each row the
    unique keys of the table are checked. *)
Fixpoint update_col (t c : string) (old new : Z) (done todo : list row) : outcome (list row) :=
  match todo with
  | [] => Ok done
  | r :: todo =>
      let r' := set_col c old new r in
      if keys_ok t (done ++ r' :: todo) then update_col t c old new (done ++ [r']) todo else Raise (IntegrityError t)
  end.

Definition rekey_step (old new : Z) (d : rows_db) (tc : string * string) : outcome rows_db :=
  let '(t, c) := tc in
  let! l := update_col t c old new [] (clear_destination t c old new (rows d t)) in
  Ok (set_rows t l d).

Fixpoint rekey_columns (old new : Z) (d : rows_db) (tcs : list (string * string)) : outcome rows_db :=
  match tcs with
  | [] => Ok d
  | tc :: tcs => let! d := rekey_step old new d tc in rekey_columns old new d tcs
  end.

Definition drop_step (u : Z) (d : rows_db) (tc : string * string) : rows_db :=
  let '(t, c) := tc in set_rows t (delete_where (col_is c u) (rows d t)) d.

Definition rekey_uin_rows (old new : Z) (d : rows_db) : outcome rows_db :=
  let d := set_rows "sites" (move_sites old (Some new) (rows d "sites")) d in
  let! d := rekey_columns old new d PER_UIN_COLUMNS in
  Ok (foldl (drop_step old) d DROP_ON_REKEY).

(** [LEGACY_POLL_TABLES]: the tables of polls this island still has. *)
Definition purge_uin_rows (legacy : list (string * string)) (u : Z) (d : rows_db) : rows_db :=
  let d := set_rows "sites" (move_sites u None (rows d "sites")) d in
  let d := foldl (drop_step u) d (PER_UIN_COLUMNS ++ DROP_ON_REKEY) in
  foldl (drop_step u) d legacy.

(** [purge_gossip_mirror] *)
Definition purge_gossip_mirror (signing_key : option string) (d : rows_db) : Z * rows_db :=
  match signing_key with
  | Some sk =>
      if bool_decide (sk = "") then (0%Z, d)
      else
        let hit r := bool_decide (r !! "sk" = Some (CStr sk)) in
        (Z.of_nat (length (filter (fun r => hit r = true) (rows d "gossip_records"))),
         set_rows "gossip_records" (delete_where hit (rows d "gossip_records")) d)
  | None => (0%Z, d)
  end.

(** ** Unique keys *)

(** Every unique key of every table holds. *)
Definition keys_hold (d : rows_db) : Prop :=
  forall t k, k ∈ SCHEMA t -> NoDup (omap (key_of k) (rows d t)).

Lemma rows_set_rows t t' l d : rows (set_rows t l d) t' = if decide (t = t') then l else rows d t'.
Proof. unfold rows, set_rows. rewrite lookup_insert. by destruct (decide _). Qed.

Lemma keys_hold_set t l d :
  (forall k, k ∈ SCHEMA t -> NoDup (omap (key_of k) (rows d t)) -> NoDup (omap (key_of k) l)) ->
  keys_hold d -> keys_hold (set_rows t l d).
Proof.
  intros Hl Hd t' k Hk. rewrite rows_set_rows. destruct (decide (t = t')) as [<-|]; [|by apply Hd].
  apply Hl; [done|by apply Hd].
Qed.

(** Rewriting rows keeps a key when equal new values come from equal old ones. *)
Lemma NoDup_omap_map {B} (f g : row -> option B) (h : row -> option row) l :
  (forall r1 r2 r1' r2' v, r1 ∈ l -> r2 ∈ l -> h r1 = Some r1' -> h r2 = Some r2' ->
     g r1' = Some v -> g r2' = Some v -> is_Some (f r1) /\ f r1 = f r2) ->
  NoDup (omap f l) -> NoDup (omap g (omap h l)).
Proof.
  induction l as [|r l IH]; intros Hfg Hn; simpl; [constructor|].
  assert (Hn' : NoDup (omap f l)).
  { simpl in Hn. destruct (f r); [by apply NoDup_cons in Hn as [_ ?]|done]. }
  assert (IH' : NoDup (omap g (omap h l))).
  { apply IH; [|done]. intros r1 r2 r1' r2' v H1 H2. apply Hfg; by right. }
  destruct (h r) as [r'|] eqn:Eh; simpl; [|done]. destruct (g r') as [v|] eqn:Eg; [|done].
  apply NoDup_cons. split; [|done]. intros (r2' & Hr2' & Eg2)%list_elem_of_omap.
  apply list_elem_of_omap in Hr2' as (r2 & Hr2 & Eh2).
  destruct (Hfg r r2 r' r2' v) as [[w Ew] Ef]; [set_solver|set_solver|done..|].
  simpl in Hn. rewrite Ew in Hn. apply NoDup_cons in Hn as [Hn _]. apply Hn, list_elem_of_omap.
  exists r2. split; [done|congruence].
Qed.

(** The same for rows each rewritten or not. *)
Lemma NoDup_omap_Forall2 {B} (f : row -> option B) (R : row -> row -> Prop) l l' :
  Forall2 R l l' ->
  (forall r1 r2 r1' r2' v, r1 ∈ l -> r2 ∈ l -> R r1 r1' -> R r2 r2' -> f r1' = Some v -> f r2' = Some v -> is_Some (f r1) /\ f r1 = f r2) ->
  NoDup (omap f l) -> NoDup (omap f l').
Proof.
  induction 1 as [|r r' l l' Hr Hl IH]; intros Hf Hn; simpl; [constructor|].
  assert (Hn' : NoDup (omap f l)).
  { simpl in Hn. destruct (f r); [by apply NoDup_cons in Hn as [_ ?]|done]. }
  assert (IH' : NoDup (omap f l')).
  { apply IH; [|done]. intros r1 r2 r1' r2' v H1 H2. apply Hf; by right. }
  destruct (f r') as [v|] eqn:Ev; [|done]. apply NoDup_cons. split; [|done].
  intros (r2' & Hr2' & Ev2)%list_elem_of_omap. apply list_elem_of_lookup in Hr2' as [i Hi].
  destruct (Forall2_lookup_r _ _ _ _ _ Hl Hi) as (r2 & Hr2 & HR2). apply list_elem_of_lookup_2 in Hr2.
  destruct (Hf r r2 r' r2' v) as [[w Ew] Ef]; [left|by right|done..|].
  simpl in Hn. rewrite Ew in Hn. apply NoDup_cons in Hn as [Hn _]. apply Hn, list_elem_of_omap.
  exists r2. split; [done|congruence].
Qed.

Lemma delete_where_omap p l : delete_where p l = omap (fun r => if p r then None else Some r) l.
Proof.
  unfold delete_where. induction l as [|r l IH]; simpl; [done|]. destruct (p r) eqn:E.
  - by rewrite filter_cons_False by congruence.
  - by rewrite filter_cons_True, IH by done.
Qed.

Lemma map_omap (f : row -> row) l : map f l = omap (fun r => Some (f r)) l.
Proof. induction l as [|r l IH]; simpl; [done|by rewrite IH]. Qed.

Lemma NoDup_delete_where {B} (f : row -> option B) p l : NoDup (omap f l) -> NoDup (omap f (delete_where p l)).
Proof.
  rewrite delete_where_omap. apply NoDup_omap_map. intros r1 r2 r1' r2' v _ _ H1 H2 E1 E2.
  destruct (p r1); [done|]. destruct (p r2); [done|]. simplify_eq. rewrite E1, E2. eauto.
Qed.

Lemma NoDup_map_key {B} (f : row -> option B) (h : row -> row) l :
  (forall r, f (h r) = f r) -> NoDup (omap f l) -> NoDup (omap f (map h l)).
Proof.
  intros Hf. rewrite map_omap. apply NoDup_omap_map. intros r1 r2 ? ? v _ _ [= <-] [= <-]. rewrite !Hf.
  intros -> ->. eauto.
Qed.

Lemma key_of_insert_other k c v r : c ∉ k -> key_of k (<[c := v]> r) = key_of k r.
Proof.
  intros Hc. unfold key_of. induction k as [|c' k IH]; simpl; [done|].
  rewrite lookup_insert_ne by set_solver. destruct (r !! c'); simpl; [|done]. rewrite IH by set_solver. done.
Qed.

(** A key is the values at its columns. *)
Lemma key_of_Some k r v : key_of k r = Some v <-> Forall2 (fun c x => r !! c = Some x) k v.
Proof. apply mapM_Some. Qed.

Lemma key_of_eq k r1 r2 :
  (forall c, c ∈ k -> r1 !! c = r2 !! c) -> key_of k r1 = key_of k r2.
Proof.
  intros H. unfold key_of. induction k as [|c k IH]; simpl; [done|]. rewrite (H c) by set_solver.
  destruct (r2 !! c); simpl; [|done]. rewrite IH; [done|]. set_solver.
Qed.

Lemma key_of_eq_inv k r1 r2 v :
  key_of k r1 = Some v -> key_of k r2 = Some v -> forall c, c ∈ k -> r1 !! c = r2 !! c /\ is_Some (r1 !! c).
Proof.
  revert v. induction k as [|c k IH]; intros v; [set_solver|]. unfold key_of. simpl.
  destruct (r1 !! c) as [x1|] eqn:E1; simpl; [|done]. destruct (mapM _ k) as [w1|] eqn:M1; simpl; [|done].
  intros [= <-]. destruct (r2 !! c) as [x2|] eqn:E2; simpl; [|done].
  destruct (mapM (fun c => r2 !! c) k) as [w2|] eqn:M2; simpl; [|done].
  intros [= -> ->] c' [->|Hc']%elem_of_cons.
  - rewrite E1, E2. eauto.
  - by apply (IH w1).
Qed.

Lemma key_of_is_Some k r : is_Some (key_of k r) <-> forall c, c ∈ k -> is_Some (r !! c).
Proof. unfold key_of. rewrite mapM_is_Some, Forall_forall. done. Qed.

Lemma col_is_true c u r : col_is c u r = true <-> r !! c = Some (CInt u).
Proof. apply bool_decide_eq_true. Qed.
Lemma col_is_false c u r : col_is c u r = false <-> r !! c <> Some (CInt u).
Proof. apply bool_decide_eq_false. Qed.

(** No row about to move would meet one already there. *)
Definition no_clash (k : list string) (c : string) (old new : Z) (l : list row) : Prop :=
  forall r1 r2 v, r1 ∈ l -> r2 ∈ l -> col_is c old r1 = true -> col_is c new r2 = true ->
    key_of k (set_col c old new r1) = Some v -> key_of k r2 = Some v -> False.

Lemma set_col_lookup_ne c c' old new r : c' <> c -> set_col c old new r !! c' = r !! c'.
Proof. intros Hc. unfold set_col. destruct (col_is _ _ _); [|done]. by rewrite lookup_insert_ne. Qed.

(** A row before and after the UPDATE got to it, or did not yet. *)
Definition maybe_moved (c : string) (old new : Z) (r r' : row) : Prop := r' = r \/ r' = set_col c old new r.

Lemma maybe_moved_spec c old new r r' :
  maybe_moved c old new r r' -> r' = r \/ r !! c = Some (CInt old) /\ r' = <[c := CInt new]> r.
Proof. intros [->| ->]; [by left|]. unfold set_col. destruct (col_is c old r) eqn:E; [right|by left]. split; [by apply col_is_true|done]. Qed.

(** Wherever the UPDATE stands, no two rows agree in a key. *)
Lemma maybe_moved_keys k c old new l l' :
  (c ∈ k -> no_clash k c old new l) -> Forall2 (maybe_moved c old new) l l' ->
  NoDup (omap (key_of k) l) -> NoDup (omap (key_of k) l').
Proof.
  intros Hc Hl. apply (NoDup_omap_Forall2 _ _ _ _ Hl). clear Hl.
  intros r1 r2 r1' r2' v Hr1 Hr2 H1%maybe_moved_spec H2%maybe_moved_spec E1 E2.
  destruct (decide (c ∈ k)) as [Hin|Hout].
  2:{ assert (Hk : forall r r', r' = r \/ r !! c = Some (CInt old) /\ r' = <[c := CInt new]> r -> key_of k r' = key_of k r).
      { intros r r' [->|[_ ->]]; [done|]. by apply key_of_insert_other. }
      rewrite (Hk _ _ H1) in E1. rewrite (Hk _ _ H2) in E2. rewrite E1, E2. eauto. }
  specialize (Hc Hin). pose proof (key_of_eq_inv _ _ _ _ E1 E2) as Heq. destruct (Heq c Hin) as [Ec _].
  assert (Hmix : forall r r2 r', r ∈ l -> r2 ∈ l -> r !! c = Some (CInt old) -> r' = <[c := CInt new]> r -> r2 !! c = Some (CInt new) ->
            key_of k r' = Some v -> key_of k r2 = Some v -> False).
  { intros r r0 r' Hr Hr0 Ho -> Hn K1 K2. apply (Hc r r0 v); try done; try by apply col_is_true.
    unfold set_col. by rewrite (proj2 (col_is_true _ _ _) Ho). }
  destruct H1 as [->|[O1 ->]], H2 as [->|[O2 ->]].
  - rewrite E1, E2. eauto.
  - exfalso. rewrite lookup_insert, decide_True in Ec by done. eapply (Hmix r2 r1); done.
  - exfalso. rewrite lookup_insert, decide_True in Ec by done. eapply (Hmix r1 r2); [done..|by symmetry|done|done].
  - assert (Hr : forall c', c' ∈ k -> r1 !! c' = r2 !! c' /\ is_Some (r1 !! c')).
    { intros c' Hc'. destruct (decide (c' = c)) as [->|Hne]; [rewrite O1, O2; eauto|].
      destruct (Heq c' Hc') as [E H]. rewrite !lookup_insert_ne in E by done. rewrite lookup_insert_ne in H by done. done. }
    split; [apply key_of_is_Some; intros; by apply Hr|apply key_of_eq; intros; by apply Hr].
Qed.

Lemma keys_ok_spec t l : keys_ok t l = true <-> forall k, k ∈ SCHEMA t -> NoDup (omap (key_of k) l).
Proof.
  unfold keys_ok. rewrite forallb_forall. split; intros H k Hk.
  - apply list_elem_of_In, H, bool_decide_eq_true in Hk. done.
  - apply bool_decide_eq_true, H. by apply list_elem_of_In.
Qed.

Lemma update_col_val t c old new : forall todo done l', update_col t c old new done todo = Ok l' -> l' = (done ++ map (set_col c old new) todo)%list.
Proof.
  induction todo as [|r todo IH]; intros done l' H; simpl in H; [injection H as <-; by rewrite app_nil_r|].
  destruct (keys_ok _ _); [|discriminate]. apply IH in H as ->. by rewrite <-app_assoc.
Qed.

(** The UPDATE gets to its end when nothing is in its way. *)
Lemma update_col_runs t c old new : forall todo done0 done,
  Forall2 (maybe_moved c old new) done0 done ->
  (forall k, k ∈ SCHEMA t -> NoDup (omap (key_of k) (done0 ++ todo)%list) /\ (c ∈ k -> no_clash k c old new (done0 ++ todo)%list)) ->
  update_col t c old new done todo = Ok (done ++ map (set_col c old new) todo)%list.
Proof.
  induction todo as [|r todo IH]; intros done0 done Hd Hk; simpl; [by rewrite app_nil_r|].
  assert (Hf : Forall2 (maybe_moved c old new) (done0 ++ r :: todo)%list (done ++ set_col c old new r :: todo)%list).
  { apply Forall2_app; [done|]. constructor; [by right|]. apply Forall_Forall2_diag, Forall_forall. intros x _. by left. }
  rewrite (proj2 (keys_ok_spec _ _)).
  - rewrite (IH (done0 ++ [r])%list); [by rewrite <-app_assoc| |].
    + apply Forall2_app; [done|]. constructor; [by right|constructor].
    + intros k. rewrite <-app_assoc. apply Hk.
  - intros k Hin. destruct (Hk k Hin) as [Hn Hc]. by eapply maybe_moved_keys.
Qed.

Lemma elem_of_delete_where p l r : r ∈ delete_where p l <-> r ∈ l /\ p r = false.
Proof. unfold delete_where. rewrite list_elem_of_filter. tauto. Qed.

Lemma no_clash_sub k c old new l l' : (forall r, r ∈ l' -> r ∈ l) -> no_clash k c old new l -> no_clash k c old new l'.
Proof. intros Hs Hl r1 r2 v H1 H2. apply Hl; by apply Hs. Qed.

Lemma drop_duplicates_sub k c old new l r : r ∈ drop_duplicates k c old new l -> r ∈ l.
Proof. unfold drop_duplicates. case_bool_decide; [done|]. by intros [? _]%elem_of_delete_where. Qed.

Lemma drop_duplicates_no_clash k c old new l :
  filter (fun c' => c' <> c) k <> [] -> no_clash k c old new (drop_duplicates k c old new l).
Proof.
  intros Hne r1 r2 v H1 H2 O1 N2 E1 E2. pose proof (drop_duplicates_sub _ _ _ _ _ _ H1) as H1'.
  unfold drop_duplicates in H2. rewrite bool_decide_eq_false_2 in H2 by done.
  apply elem_of_delete_where in H2 as [_ H2]. rewrite N2 in H2. simpl in H2.
  pose proof (key_of_eq_inv _ _ _ _ E1 E2) as Heq.
  assert (Hr : forall c', c' ∈ filter (fun c' => c' <> c) k -> r1 !! c' = r2 !! c' /\ is_Some (r1 !! c')).
  { intros c' [Hc Hc']%list_elem_of_filter. destruct (Heq c' Hc') as [E H].
    rewrite !set_col_lookup_ne in E by done.
        rewrite set_col_lookup_ne in H by done. done. }
  destruct (key_of (filter (fun c' => c' <> c) k) r2) as [w|] eqn:Ew.
  - rewrite bool_decide_eq_false in H2. apply H2, list_elem_of_omap. exists r1. split; [done|].
    rewrite O1, <-Ew. apply key_of_eq. intros c' Hc'. by apply Hr.
  - apply eq_None_not_Some in Ew. apply Ew, key_of_is_Some. intros c' Hc'. destruct (Hr c' Hc') as [<- ?]. done.
Qed.

Lemma drop_duplicates_all ks c old new : forall l,
  (forall k, k ∈ ks -> filter (fun c' => c' <> c) k <> []) ->
  (forall k, k ∈ ks -> no_clash k c old new (foldl (fun l k => drop_duplicates k c old new l) l ks)) /\
  (forall r, r ∈ foldl (fun l k => drop_duplicates k c old new l) l ks -> r ∈ l) /\
  (forall k, NoDup (omap (key_of k) l) ->
     NoDup (omap (key_of k) (foldl (fun l k => drop_duplicates k c old new l) l ks))).
Proof.
  induction ks as [|k0 ks IH]; intros l Hks; simpl; [split_and!; set_solver|].
  destruct (IH (drop_duplicates k0 c old new l)) as (IH1 & IH2 & IH3); [set_solver|]. split_and!.
  - intros k [->|Hk]%elem_of_cons; [|by apply IH1].
    eapply no_clash_sub; [exact IH2|]. apply drop_duplicates_no_clash. apply Hks. set_solver.
  - intros r Hr. by eapply drop_duplicates_sub, IH2.
  - intros k Hk. apply IH3. unfold drop_duplicates. case_bool_decide; [done|]. by apply NoDup_delete_where.
Qed.

Lemma raise_counter_key k old new l :
  "next_seq" ∉ k -> NoDup (omap (key_of k) l) -> NoDup (omap (key_of k) (raise_counter old new l)).
Proof.
  intros Hk Hn. unfold raise_counter. case_match; [done|]. apply NoDup_map_key; [|done].
  intros r'. destruct (col_is _ _ _); [|done]. by apply key_of_insert_other.
Qed.

(** The schema: no key reads a counter, and a third party's key has a column of
    its own beside the number. *)
Definition schema_ok (t c : string) : bool :=
  forallb (fun k => negb (String.eqb t "mailbox_seq" && bool_decide ("next_seq" ∈ k)) &&
                    (negb (bool_decide ((t, c) ∈ THIRD_PARTY)) || negb (bool_decide (c ∈ k)) ||
                     negb (bool_decide (filter (fun c' => c' <> c) k = [])))) (SCHEMA t).

Lemma schema_is_ok : forallb (fun tc => schema_ok tc.1 tc.2) PER_UIN_COLUMNS = true.
Proof. vm_compute. reflexivity. Qed.

Lemma schema_ok_spec t c k :
  (t, c) ∈ PER_UIN_COLUMNS -> k ∈ SCHEMA t ->
  (t = "mailbox_seq" -> "next_seq" ∉ k) /\
  ((t, c) ∈ THIRD_PARTY -> c ∈ k -> filter (fun c' => c' <> c) k <> []).
Proof.
  intros Htc Hk. pose proof schema_is_ok as H. rewrite forallb_forall in H.
  apply list_elem_of_In, H in Htc. unfold schema_ok in Htc. simpl in Htc. rewrite forallb_forall in Htc.
  apply list_elem_of_In, Htc in Hk. apply andb_prop in Hk as [H1 H2]. split.
  - intros -> Hin. rewrite String.eqb_refl, (bool_decide_eq_true_2 _ Hin) in H1. done.
  - intros H3 H4. rewrite (bool_decide_eq_true_2 _ H3), (bool_decide_eq_true_2 _ H4) in H2. simpl in H2.
    intros E. rewrite (bool_decide_eq_true_2 _ E) in H2. done.
Qed.

(** Clearing the destination keeps the keys and leaves nothing in the way. *)
Lemma clear_destination_keys t c old new l k :
  (t, c) ∈ PER_UIN_COLUMNS -> k ∈ SCHEMA t -> NoDup (omap (key_of k) l) ->
  NoDup (omap (key_of k) (clear_destination t c old new l)) /\
  (c ∈ k -> no_clash k c old new (clear_destination t c old new l)).
Proof.
  intros Htc Hk Hn. destruct (schema_ok_spec t c k Htc Hk) as [Hm _].
  unfold clear_destination. destruct (unique_keys_containing t c) as [|k0 ks] eqn:Eks.
  - split; [done|]. intros Hc. exfalso. assert (Hin : k ∈ unique_keys_containing t c) by (by apply list_elem_of_filter).
    rewrite Eks in Hin. by apply elem_of_nil in Hin.
  - case_bool_decide as Ht.
    + rewrite <-Eks. destruct (drop_duplicates_all (unique_keys_containing t c) c old new l) as (H1 & _ & H3).
      { intros k' [Hc Hk']%list_elem_of_filter. by apply (schema_ok_spec t c). }
      split; [by apply H3|]. intros Hc. apply H1. by apply list_elem_of_filter.
    + split.
      * apply NoDup_delete_where. destruct (String.eqb_spec t "mailbox_seq"); [|done].
        apply raise_counter_key; [by apply Hm|done].
      * intros _ r1 r2 v _ [_ H2]%elem_of_delete_where _ N2. by rewrite H2 in N2.
Qed.

(** What an UPDATE leaves. *)
Definition moved_step (old new : Z) (d : rows_db) (tc : string * string) : rows_db :=
  set_rows tc.1 (map (set_col tc.2 old new) (clear_destination tc.1 tc.2 old new (rows d tc.1))) d.
Definition moved_rows (old new : Z) (d : rows_db) : rows_db :=
  foldl (drop_step old)
    (foldl (moved_step old new) (set_rows "sites" (move_sites old (Some new) (rows d "sites")) d) PER_UIN_COLUMNS) DROP_ON_REKEY.

Lemma rekey_columns_val old new : forall tcs d d', rekey_columns old new d tcs = Ok d' -> d' = foldl (moved_step old new) d tcs.
Proof.
  induction tcs as [|[t c] tcs IH]; intros d d' H; simpl in H; [by injection H|]. unfold rekey_step, obind in H.
  destruct (update_col _ _ _ _ _ _) as [l|] eqn:E; [|discriminate]. apply update_col_val in E as ->. by apply IH in H.
Qed.

Lemma rekey_val old new d d' : rekey_uin_rows old new d = Ok d' -> d' = moved_rows old new d.
Proof.
  unfold rekey_uin_rows, obind. destruct (rekey_columns _ _ _ _) as [d0|] eqn:E; [|discriminate].
  apply rekey_columns_val in E. intros H. apply Ok_inj in H. rewrite <-H, E. unfold moved_rows. reflexivity.
Qed.

Lemma rekey_step_runs old new d tc :
  tc ∈ PER_UIN_COLUMNS -> keys_hold d -> rekey_step old new d tc = Ok (moved_step old new d tc) /\ keys_hold (moved_step old new d tc).
Proof.
  destruct tc as [t c]. intros Htc Hd.
  assert (Hk : forall k, k ∈ SCHEMA t -> let l := clear_destination t c old new (rows d t) in
            NoDup (omap (key_of k) l) /\ (c ∈ k -> no_clash k c old new l)).
  { intros k Hin. apply clear_destination_keys; [done..|by apply Hd]. }
  split.
  - unfold rekey_step. rewrite (update_col_runs t c old new _ [] []); [done|constructor|exact Hk].
  - unfold moved_step. simpl. apply keys_hold_set; [|done]. intros k Hin _. destruct (Hk k Hin) as [Hn Hc].
    eapply maybe_moved_keys; [exact Hc| |exact Hn]. apply Forall2_fmap_r, Forall_Forall2_diag, Forall_forall. intros x _. by right.
Qed.

Lemma rekey_columns_run old new : forall tcs d, (forall tc, tc ∈ tcs -> tc ∈ PER_UIN_COLUMNS) -> keys_hold d ->
  rekey_columns old new d tcs = Ok (foldl (moved_step old new) d tcs) /\ keys_hold (foldl (moved_step old new) d tcs).
Proof.
  induction tcs as [|tc tcs IH]; intros d Hin Hd; [done|]. simpl.
  destruct (rekey_step_runs old new d tc) as [E Hd']; [apply Hin; left|done|]. rewrite E. simpl.
  apply IH; [|done]. intros tc' Htc'. apply Hin. by right.
Qed.

Lemma drop_step_keys u d tc : keys_hold d -> keys_hold (drop_step u d tc).
Proof. destruct tc as [t c]. apply keys_hold_set. intros k _. apply NoDup_delete_where. Qed.

Lemma move_sites_keys old new d :
  keys_hold d -> keys_hold (set_rows "sites" (move_sites old new (rows d "sites")) d).
Proof.
  apply keys_hold_set. intros k Hk. simpl in Hk. apply list_elem_of_singleton in Hk as ->.
  apply NoDup_omap_map. intros r1 r2 r1' r2' v _ _ E1 E2 K1 K2.
  assert (Hs : forall r r', move_site old new r = Some r' -> key_of ["name"] r' = key_of ["name"] r).
  { intros r r'. unfold move_site. destruct (col_is _ _ _); [|by intros [= <-]]. destruct new; [|done].
    case_bool_decide; [done|]. intros [= <-]. apply key_of_insert_other. set_solver. }
  rewrite (Hs _ _ E1) in K1. rewrite (Hs _ _ E2) in K2. rewrite K1, K2. eauto.
Qed.

Lemma foldl_inv {A B} (P : A -> Prop) (f : A -> B -> A) l a :
  (forall a b, b ∈ l -> P a -> P (f a b)) -> P a -> P (foldl f a l).
Proof.
  revert a. induction l as [|b l IH]; intros a Hf Ha; simpl; [done|]. apply IH; [set_solver|].
  apply Hf; [set_solver|done].
Qed.

Lemma rekey_runs old new d : keys_hold d -> rekey_uin_rows old new d = Ok (moved_rows old new d) /\ keys_hold (moved_rows old new d).
Proof.
  intros Hd. unfold rekey_uin_rows, moved_rows.
  destruct (rekey_columns_run old new PER_UIN_COLUMNS (set_rows "sites" (move_sites old (Some new) (rows d "sites")) d)) as [E Hk];
    [done|by apply move_sites_keys|]. rewrite E. split; [done|]. apply foldl_inv; [intros; by apply drop_step_keys|done].
Qed.

(** C5. Moving an account never runs into a unique key: whatever rows sit at the
    number it moves to (left by an earlier holder, written by a device with an
    old token, or contacts of people who know both numbers), no UPDATE of the
    re-key, checked row after row against the primary key, the constraints and
    the unique indexes of its table, ends in an [IntegrityError]; the move is
    carried through and every key of every table holds after it. *)
Theorem rekey_keeps_keys old new d : keys_hold d -> exists d', rekey_uin_rows old new d = Ok d' /\ keys_hold d'.
Proof. intros Hd. exists (moved_rows old new d). by apply rekey_runs. Qed.

(** ** Nothing stays behind *)

Lemma clear_destination_origin t c old new l r' :
  r' ∈ clear_destination t c old new l ->
  exists r, r ∈ l /\ forall c', c' <> "next_seq" -> r' !! c' = r !! c'.
Proof.
  unfold clear_destination. destruct (unique_keys_containing t c) as [|k0 ks] eqn:Eks; [eauto|].
  case_bool_decide as Ht.
  - generalize (k0 :: ks) as kk. clear. intros kk. revert l. induction kk as [|k kk IH]; intros l; [eauto|].
    simpl. intros (r & Hr & He)%IH. apply drop_duplicates_sub in Hr. eauto.
  - intros [Hr _]%elem_of_delete_where. destruct (String.eqb t "mailbox_seq"); [|eauto].
    unfold raise_counter in Hr. case_match; [eauto|].
    apply list_elem_of_fmap in Hr as (r & -> & Hr). exists r. split; [done|]. intros c' Hc'.
    destruct (col_is _ _ _); [|done]. by rewrite lookup_insert_ne.
Qed.

Lemma moved_step_origin t c old new d t' r' :
  r' ∈ rows (moved_step old new d (t, c)) t' ->
  exists r, r ∈ rows d t' /\ forall c', c' <> "next_seq" ->
    r' !! c' = r !! c' \/ r' !! c' = Some (CInt new).
Proof.
  unfold moved_step; cbn [fst snd]. rewrite rows_set_rows. destruct (decide (t = t')) as [<-|]; [|eauto].
  intros (r0 & -> & Hr0)%list_elem_of_fmap. apply clear_destination_origin in Hr0 as (r & Hr & He).
  exists r. split; [done|]. intros c' Hc'. unfold set_col. destruct (col_is c old r0); [|by left; apply He].
  destruct (decide (c' = c)) as [->|]; [right; by rewrite lookup_insert, decide_True|left].
  rewrite lookup_insert_ne by done. by apply He.
Qed.

Lemma moved_step_moves t c old new d r' :
  old <> new -> r' ∈ rows (moved_step old new d (t, c)) t -> r' !! c <> Some (CInt old).
Proof.
  intros Hne. unfold moved_step; cbn [fst snd]. rewrite rows_set_rows, decide_True by done.
  intros (r0 & -> & _)%list_elem_of_fmap. unfold set_col. destruct (col_is c old r0) eqn:E.
  - rewrite lookup_insert, decide_True by done. congruence.
  - by apply col_is_false.
Qed.

(** No row of the table names the number in the column. *)
Definition gone (u : Z) (t c : string) (d : rows_db) : Prop := forall r, r ∈ rows d t -> r !! c <> Some (CInt u).

Lemma gone_moved_step u t c old new d tc :
  u <> new -> c <> "next_seq" -> gone u t c d -> gone u t c (moved_step old new d tc).
Proof.
  destruct tc as [t' c']. intros Hne Hc Hg r' (r & Hr & He)%moved_step_origin.
  destruct (He c Hc) as [->| ->]; [by apply Hg|congruence].
Qed.

Lemma gone_drop_step u t c v d tc : gone u t c d -> gone u t c (drop_step v d tc).
Proof.
  destruct tc as [t' c']. intros Hg r. unfold drop_step. rewrite rows_set_rows.
  destruct (decide (t' = t)) as [->|]; [|by apply Hg]. intros [Hr _]%elem_of_delete_where. by apply Hg.
Qed.

Lemma gone_dropped u t c d : gone u t c (drop_step u d (t, c)).
Proof.
  intros r. unfold drop_step. rewrite rows_set_rows, decide_True by done.
  intros [_ Hr]%elem_of_delete_where. by apply col_is_false.
Qed.

Lemma foldl_reaches {A B} (P : A -> Prop) (f : A -> B -> A) b l a :
  b ∈ l -> (forall a, P (f a b)) -> (forall a b', P a -> P (f a b')) -> P (foldl f a l).
Proof.
  intros Hin Hb Hf. revert a. induction l as [|b' l IH]; intros a; [by apply elem_of_nil in Hin|]. simpl.
  apply elem_of_cons in Hin as [->|Hin]; [|by apply IH].
  apply foldl_inv; [intros; by apply Hf|apply Hb].
Qed.

(** Every column that names a person. *)
Definition UIN_COLUMNS : list (string * string) := PER_UIN_COLUMNS ++ DROP_ON_REKEY ++ [("sites", "owner_uin")].

Lemma uin_columns_plain t c : (t, c) ∈ PER_UIN_COLUMNS -> c <> "next_seq".
Proof.
  intros Htc ->. assert (H : forallb (fun tc => negb (String.eqb tc.2 "next_seq")) PER_UIN_COLUMNS = true) by reflexivity.
  rewrite forallb_forall in H. apply list_elem_of_In, H in Htc. done.
Qed.

Lemma gone_sites u new d :
  new <> Some u -> gone u "sites" "owner_uin" (set_rows "sites" (move_sites u new (rows d "sites")) d).
Proof.
  intros Hne r. rewrite rows_set_rows, decide_True by done. intros (r0 & Hr0 & E)%list_elem_of_omap.
  unfold move_site in E. destruct (col_is _ _ _) eqn:Ec; [|simplify_eq; by apply col_is_false].
  destruct new as [n|]; [|done]. case_bool_decide; [done|]. simplify_eq.
  rewrite lookup_insert, decide_True by done. congruence.
Qed.

(** After a move no row of the inventory names the number that was left, in
    any of its columns: nothing is stranded for whoever is handed it next. *)
Theorem rekey_leaves_nothing old new d d' t c :
  old <> new -> (t, c) ∈ UIN_COLUMNS -> rekey_uin_rows old new d = Ok d' -> gone old t c d'.
Proof.
  intros Hne Htc ->%rekey_val. unfold moved_rows. unfold UIN_COLUMNS in Htc.
  apply elem_of_app in Htc as [Htc|[Htc|Htc]%elem_of_app].
  - apply foldl_inv; [intros; by apply gone_drop_step|].
    apply (foldl_reaches (gone old t c) _ (t, c)); [done|intros a r; by apply moved_step_moves|].
    intros. apply gone_moved_step; [done|by eapply uin_columns_plain|done].
  - apply (foldl_reaches (gone old t c) _ (t, c)); [done|intros; apply gone_dropped|].
    intros. by apply gone_drop_step.
  - apply list_elem_of_singleton in Htc as [= -> ->].
    apply foldl_inv; [intros; by apply gone_drop_step|].
    apply foldl_inv; [intros; by apply gone_moved_step|]. apply gone_sites. congruence.
Qed.

(** A burned number starts clean: after the purge no row of the inventory,
    no site and no row of the leftover poll tables names it. *)
Theorem purge_leaves_nothing legacy u d t c :
  (t, c) ∈ (UIN_COLUMNS ++ legacy)%list -> gone u t c (purge_uin_rows legacy u d).
Proof.
  intros Htc. unfold purge_uin_rows. apply elem_of_app in Htc as [Htc|Htc].
  - apply foldl_inv; [intros; by apply gone_drop_step|]. unfold UIN_COLUMNS in Htc. rewrite app_assoc in Htc.
    apply elem_of_app in Htc as [Htc|Htc].
    + apply (foldl_reaches (gone u t c) _ (t, c)); [done|intros; apply gone_dropped|].
      intros. by apply gone_drop_step.
    + apply list_elem_of_singleton in Htc as [= -> ->].
      apply foldl_inv; [intros; by apply gone_drop_step|]. by apply gone_sites.
  - apply (foldl_reaches (gone u t c) _ (t, c)); [done|intros; apply gone_dropped|].
    intros. by apply gone_drop_step.
Qed.

(** ** The mailbox counter *)

Lemma moved_step_other old new d t c t' : t <> t' -> rows (moved_step old new d (t, c)) t' = rows d t'.
Proof. intros Hne. unfold moved_step; cbn [fst snd]. by rewrite rows_set_rows, decide_False. Qed.

Lemma rekey_other old new l d t' :
  Forall (fun tc => tc.1 <> t') l -> rows (foldl (moved_step old new) d l) t' = rows d t'.
Proof.
  intros Hl. revert d. induction Hl as [|[t c] l Ht Hl IH]; intros d; simpl; [done|].
  rewrite IH. by apply moved_step_other.
Qed.

Lemma rekey_split old new d t c l1 l2 :
  Forall (fun tc => tc.1 <> t) l1 -> Forall (fun tc => tc.1 <> t) l2 ->
  rows (foldl (moved_step old new) d (l1 ++ (t, c) :: l2)%list) t
  = map (set_col c old new) (clear_destination t c old new (rows d t)).
Proof.
  intros H1 H2. rewrite foldl_app. cbn [foldl]. rewrite rekey_other by done.
  unfold moved_step at 1; cbn [fst snd]. rewrite rows_set_rows, decide_True by done. by rewrite rekey_other.
Qed.

Lemma forallb_other t l : forallb (fun tc => negb (String.eqb tc.1 t)) l = true -> Forall (fun tc : string * string => tc.1 <> t) l.
Proof.
  intros H. apply Forall_forall. intros tc Htc%list_elem_of_In E. rewrite forallb_forall in H.
  apply H in Htc. by rewrite E, String.eqb_refl in Htc.
Qed.

Lemma rekey_mailbox old new d :
  rows (moved_rows old new d) "mailbox_seq"
  = map (set_col "to_uin" old new) (clear_destination "mailbox_seq" "to_uin" old new (rows d "mailbox_seq")).
Proof.
  assert (E : PER_UIN_COLUMNS = (take 10 PER_UIN_COLUMNS ++ ("mailbox_seq", "to_uin") :: drop 11 PER_UIN_COLUMNS)%list)
    by reflexivity.
  unfold moved_rows. set (d0 := set_rows "sites" _ d). set (d1 := foldl (moved_step old new) d0 _).
  unfold DROP_ON_REKEY. cbn [foldl]. unfold drop_step. rewrite rows_set_rows, decide_False by done.
  unfold d1. rewrite E, rekey_split by (apply forallb_other; reflexivity).
  unfold d0. by rewrite rows_set_rows, decide_False.
Qed.

(** The counter of a mailbox never goes backwards on a move: the account
    arrives with a counter at least as high as its own and as any the number
    already carried, so a sequence number is not handed out twice. *)
Theorem rekey_counter_monotone old new d d' r n :
  old <> new -> rekey_uin_rows old new d = Ok d' -> r ∈ rows d "mailbox_seq" -> r !! "to_uin" = Some (CInt old) -> r !! "next_seq" = Some (CInt n) ->
  exists r' m, r' ∈ rows d' "mailbox_seq" /\ r' !! "to_uin" = Some (CInt new) /\
    r' !! "next_seq" = Some (CInt m) /\ n <= m /\
    forall r2 n2, r2 ∈ rows d "mailbox_seq" -> r2 !! "to_uin" = Some (CInt new) ->
      r2 !! "next_seq" = Some (CInt n2) -> n2 <= m.
Proof.
  intros Hne ->%rekey_val Hr Ho Hs. rewrite rekey_mailbox. unfold clear_destination.
  change (unique_keys_containing "mailbox_seq" "to_uin") with [["to_uin"]].
  rewrite bool_decide_eq_false_2 by (intros H; repeat (apply elem_of_cons in H as [H|H]; [discriminate|]); by apply elem_of_nil in H).
  change (String.eqb "mailbox_seq" "mailbox_seq") with true. cbv iota. unfold raise_counter.
  set (seqs := omap _ (rows d "mailbox_seq")).
  assert (Hin : forall r' u z, (u = old \/ u = new) -> r' ∈ rows d "mailbox_seq" -> r' !! "to_uin" = Some (CInt u) ->
            r' !! "next_seq" = Some (CInt z) -> z ∈ seqs).
  { intros r' u z Hu Hr' Ht Hz. apply list_elem_of_omap. exists r'. split; [done|]. rewrite Hz.
    destruct Hu as [-> | ->]; apply col_is_true in Ht; rewrite Ht; [done|by rewrite orb_true_r]. }
  pose proof (Hin r old n (or_introl eq_refl) Hr Ho Hs) as Hn.
  destruct seqs as [|x xs] eqn:Eseqs; [by apply elem_of_nil in Hn|]. set (m := foldl Z.max x xs).
  exists (<["to_uin" := CInt new]> (<["next_seq" := CInt m]> r)), m. split_and!.
  - apply list_elem_of_fmap. exists (<["next_seq" := CInt m]> r). split.
    + unfold set_col. assert (E : col_is "to_uin" old (<["next_seq" := CInt m]> r) = true)
        by (apply col_is_true; by rewrite lookup_insert_ne). by rewrite E.
    + apply elem_of_delete_where. split.
      * apply list_elem_of_fmap. exists r. apply col_is_true in Ho. by rewrite Ho.
      * apply col_is_false. rewrite lookup_insert_ne by done. congruence.
  - by rewrite lookup_insert, decide_True.
  - rewrite lookup_insert_ne by done. by rewrite lookup_insert, decide_True.
  - by apply foldl_max_ub.
  - intros r2 n2 Hr2 Ht Hz. apply foldl_max_ub. by apply (Hin r2 new n2 (or_intror eq_refl)).
Qed.

Ltac by_decision := apply (bool_decide_eq_true_1 _); vm_compute; reflexivity.

Definition demo_moves : rows_db :=
  {[ "mailbox_seq" := [{[ "to_uin" := CInt 100; "next_seq" := CInt 7 ]};
                       {[ "to_uin" := CInt 200; "next_seq" := CInt 12 ]}];
     "contacts" := [{[ "id" := CInt 1; "owner_uin" := CInt 5; "contact_uin" := CInt 100 ]};
                    {[ "id" := CInt 2; "owner_uin" := CInt 5; "contact_uin" := CInt 200 ]};
                    {[ "id" := CInt 3; "owner_uin" := CInt 6; "contact_uin" := CInt 200 ]}];
     "offline_group_messages" := [{[ "id" := CInt 1; "to_uin" := CInt 200 ]}] ]}.

Definition demo_moved : rows_db := moved_rows 100 200 demo_moves.

Lemma rekey_keeps_keys_witness : exists d', rekey_uin_rows 100 200 demo_moves = Ok d' /\ keys_hold d'.
Proof.
  apply rekey_keeps_keys. intros t k Hk. unfold rows, demo_moves.
  destruct (decide (t = "mailbox_seq")) as [->|H1].
  { vm_compute in Hk. apply list_elem_of_singleton in Hk as ->. by_decision. }
  destruct (decide (t = "contacts")) as [->|H2].
  { vm_compute in Hk. repeat (apply elem_of_cons in Hk as [->|Hk]; [by_decision|]).
    by apply elem_of_nil in Hk. }
  destruct (decide (t = "offline_group_messages")) as [->|H3].
  { vm_compute in Hk. apply list_elem_of_singleton in Hk as ->. by_decision. }
  rewrite !lookup_insert_ne by done. rewrite lookup_singleton_ne by done. constructor.
Defined.

(** Without the clearing the second contact is in the way. *)
Example blind_update_raises :
  update_col "contacts" "contact_uin" 100 200 [] (rows demo_moves "contacts") = Raise (IntegrityError "contacts").
Proof. vm_compute. reflexivity. Qed.

Lemma demo_moved_runs : rekey_uin_rows 100 200 demo_moves = Ok demo_moved.
Proof. vm_compute. reflexivity. Qed.

Lemma rekey_leaves_nothing_witness : gone 100 "contacts" "contact_uin" demo_moved.
Proof. apply (rekey_leaves_nothing 100 200 demo_moves); [discriminate|by_decision|apply demo_moved_runs]. Defined.

Lemma purge_leaves_nothing_witness : gone 100 "poll_votes" "voter_uin" (purge_uin_rows [("poll_votes", "voter_uin")] 100 demo_moves).
Proof. apply purge_leaves_nothing. by_decision. Defined.

Lemma rekey_counter_monotone_witness :
  exists r' m, r' ∈ rows demo_moved "mailbox_seq" /\ r' !! "next_seq" = Some (CInt m) /\ 12 <= m.
Proof.
  destruct (rekey_counter_monotone 100 200 demo_moves demo_moved {[ "to_uin" := CInt 100; "next_seq" := CInt 7 ]} 7)
    as (r' & m & Hr & _ & Hm & _ & H); [discriminate|apply demo_moved_runs| |reflexivity|reflexivity|].
  { by_decision. }
  exists r', m. split; [exact Hr|]. split; [exact Hm|].
  apply (H {[ "to_uin" := CInt 200; "next_seq" := CInt 12 ]} 12); [|reflexivity|reflexivity].
  by_decision.
Defined.

(** The destination is cleared only where the number is part of a unique
    key: a queued group message (or a report, a guest card, a room) left at the
    number stays, and belongs to whoever moves there. *)
Theorem unkeyed_rows_are_inherited :
  rekey_uin_rows 100 200 demo_moves = Ok demo_moved /\
  rows demo_moved "offline_group_messages" = [{[ "id" := CInt 1; "to_uin" := CInt 200 ]}].
Proof. split; [apply demo_moved_runs|vm_compute; reflexivity]. Qed.
