(* ===== verification/Migration.v ===== *)
(** * Changing numbers

    Models the tables of numbers ([src/app/models/owned_uin.py],
    [uin_listing.py], [uin_sale.py]), [src/app/routers/migrate.py] (moving an
    account to another number) and [src/app/services/account_delete.py]
    (burning one).

    An account is its [users] row as a map of columns, because the migration
    copies columns by name; the other per-number tables are those of [UinRows].
    A handler takes the committed tables and gives back what it committed. *)

From stdpp Require Import base list gmap strings pretty.
From Stdlib Require Import ZArith Lia.
From S2P Require Import Prelude Uin Sessions UinRows.

#[local] Open Scope string_scope.
#[local] Open Scope Z_scope.

Record OwnedUin := mkOwnedUin { ou_owner : Z; ou_source : string; ou_acquired_at : Z }.

Record UinListing := mkUinListing {
  ul_seller : Z;
  ul_listing_id : string;
  ul_price_cents : Z;
  ul_payout : list (string * string);
  ul_created_at : Z
}.

Record UinHold := mkUinHold { uh_hold_id : string; uh_expires_at : Z }.

(** The tables.  [m_rows] holds the per-number tables of [UinRows] that have no
    field of their own here, and those that hang on [users] by a foreign key. *)
Record mdb := mkMdb {
  m_users : gmap Z row;
  m_owned : gmap Z OwnedUin;
  m_listings : gmap Z UinListing;
  m_holds : gmap Z UinHold;
  m_spent : gset string;
  m_invites : list Invite;
  m_epochs : epochs;
  m_rows : rows_db
}.

Definition set_users (f : gmap Z row -> gmap Z row) (d : mdb) : mdb :=
  mkMdb (f (m_users d)) (m_owned d) (m_listings d) (m_holds d) (m_spent d) (m_invites d) (m_epochs d) (m_rows d).
Definition set_owned (f : gmap Z OwnedUin -> gmap Z OwnedUin) (d : mdb) : mdb :=
  mkMdb (m_users d) (f (m_owned d)) (m_listings d) (m_holds d) (m_spent d) (m_invites d) (m_epochs d) (m_rows d).
Definition set_listings (f : gmap Z UinListing -> gmap Z UinListing) (d : mdb) : mdb :=
  mkMdb (m_users d) (m_owned d) (f (m_listings d)) (m_holds d) (m_spent d) (m_invites d) (m_epochs d) (m_rows d).
Definition set_holds (f : gmap Z UinHold -> gmap Z UinHold) (d : mdb) : mdb :=
  mkMdb (m_users d) (m_owned d) (m_listings d) (f (m_holds d)) (m_spent d) (m_invites d) (m_epochs d) (m_rows d).
Definition add_spent (nonce : string) (d : mdb) : mdb :=
  mkMdb (m_users d) (m_owned d) (m_listings d) (m_holds d) ({[ nonce ]} ∪ m_spent d) (m_invites d) (m_epochs d)
    (m_rows d).
Definition set_epochs (e : epochs) (d : mdb) : mdb :=
  mkMdb (m_users d) (m_owned d) (m_listings d) (m_holds d) (m_spent d) (m_invites d) e (m_rows d).
Definition set_mrows (f : rows_db -> rows_db) (d : mdb) : mdb :=
  mkMdb (m_users d) (m_owned d) (m_listings d) (m_holds d) (m_spent d) (m_invites d) (m_epochs d) (f (m_rows d)).

(** What [services/uin.py] reads of them. *)
Definition uin_view (d : mdb) : uin_db :=
  {| users := dom (m_users d); owned_uins := dom (m_owned d); uin_holds := uh_expires_at <$> m_holds d;
     invites := m_invites d |}.

(** [uin_is_taken(db, uin)], [uin_is_taken(db, uin, ignore_holds=True)] *)
Definition taken (now : Z) (d : mdb) (uin : Z) (ignore_holds : bool) : bool :=
  uin_is_taken now (uin_view d) uin None ignore_holds.

(** ** Moving an account *)

(** The columns the new row takes over; a column not named here is cleared. *)
Definition COPIED : list string :=
  ["nickname"; "identity_key"; "signing_key"; "first_name"; "last_name"; "age"; "gender"; "city"; "country";
   "about"; "interests"; "homepage"; "status_message"; "avatar_media_id"; "avatar_media_key"; "is_suspended";
   "badge"; "last_seen_visibility"; "gender_visibility"; "profile_visibility"; "profile_card_policy";
   "group_invite_policy"; "call_policy"; "read_receipts_visibility"; "push_preferences"; "resident_since";
   "invites_minted"; "entered_via"; "guest_status"; "guest_since"; "key_unproven_since"; "badges_earned";
   "hof_opt_in"; "hof_approved"; "hof_avatar"; "hof_tier"; "hof_bonus_reports"; "hof_bonus_confirmed"].

(** The row of the new number.  [created_at] and [last_seen] are its own. *)
Definition new_user_row (now target : Z) (u : row) : row :=
  let r : row := <["uin" := CInt target]> (<["status" := CStr "offline"]>
             (<["created_at" := CInt now]> (<["last_seen" := CInt now]> ∅))) in
  let r := match u !! "identity_created_at" with
           | Some v => <["identity_created_at" := v]> r
           | None => match u !! "created_at" with Some v => <["identity_created_at" := v]> r | None => r end
           end in
  foldl (fun r c => match u !! c with Some v => <[c := v]> r | None => r end) r COPIED.

(** [rekey_uin_rows] on the two tables that are maps here. *)
Definition rekey_deed (old new : Z) (o : OwnedUin) : OwnedUin :=
  mkOwnedUin (if ou_owner o =? old then new else ou_owner o) (ou_source o) (ou_acquired_at o).
Definition rekey_listing (old new : Z) (l : UinListing) : UinListing :=
  mkUinListing (if ul_seller l =? old then new else ul_seller l) (ul_listing_id l) (ul_price_cents l)
    (ul_payout l) (ul_created_at l).

Definition rekey_maps (old new : Z) (d : mdb) : mdb :=
  set_listings (fmap (rekey_listing old new)) (set_owned (fmap (rekey_deed old new)) d).

Definition rekey_all (old new : Z) (d : mdb) : outcome mdb :=
  let! r := rekey_uin_rows old new (m_rows d) in
  Ok (set_mrows (fun _ => r) (rekey_maps old new d)).

(** What goes with a [users] row: the push tokens, deleted by hand, and the
    tables with [ON DELETE CASCADE]. *)
Definition CASCADED : list (string * string) :=
  [("device_tokens", "uin"); ("devices", "uin"); ("one_time_prekeys", "uin")].

Definition taken_409 : exn := HTTPException 409 "taken".
Definition user_404 : exn := HTTPException 404 "user not found".

(** Step 2b: the number that is left. *)
Definition keep_number (now old target : Z) (d : mdb) : mdb :=
  match m_owned d !! old with
  | Some _ => d    (* somebody else's: untouched; ours: it stays *)
  | None => if is_reserved_uin old then set_owned (<[old := mkOwnedUin target "migrated" now]>) d else d
  end.

Definition perform_migration (now old target : Z) (d : mdb) : outcome Z * mdb :=
  match m_users d !! old with
  | None => (Raise user_404, d)
  | Some u =>
      match m_users d !! target with
      | Some _ => (Raise taken_409, d)
      | None =>
          match rekey_all old target (set_users (<[target := new_user_row now target u]>) d) with
          | Raise e => (Raise e, d)    (* the transaction is rolled back *)
          | Ok d =>
              let d := keep_number now old target d in
              let d := set_epochs (bump_uin_epoch (m_epochs d) old).2 d in
              let d := set_users (delete old) d in
              let d := set_mrows (fun r => foldl (drop_step old) r CASCADED) d in
              (Ok target, d)
          end
      end
  end.

(** A boolean column. *)
Definition flag (c : string) (u : row) : bool := bool_decide (u !! c = Some (CInt 1)).

Definition suspended_403 : exn := HTTPException 403 "suspended".

(** [POST /account/migrate]; [allocated] is what [allocate_uin] gave, and
    [cooldown] the seconds left on the key of the last move. *)
Definition migrate (now uin cooldown : Z) (allocated : outcome Z) (d : mdb) : outcome Z * mdb :=
  match m_users d !! uin with
  | None => (Raise user_404, d)
  | Some u =>
      if flag "is_suspended" u then (Raise suspended_403, d)
      else if 0 <? cooldown then (Raise (HTTPExceptionN 429 "cooldown" cooldown), d)
      else match allocated with
      | Raise e => (Raise e, d)
      | Ok new => perform_migration now uin new d
      end
  end.

(** ** Burning one *)

Definition ids_where (t c : string) (u : Z) (out : string) (r : rows_db) : list Z :=
  omap (fun x => if col_is c u x then int_cell (x !! out) else None) (rows r t).

(** Rooms owned, with the memberships that cascade. *)
Definition drop_rooms (gids : list Z) (r : rows_db) : rows_db :=
  let hit (c : string) (x : row) := match int_cell (x !! c) with Some g => bool_decide (g ∈ gids) | None => false end in
  set_rows "group_members" (delete_where (hit "group_id") (rows r "group_members"))
    (set_rows "groups" (delete_where (hit "id") (rows r "groups")) r).

Record PurgeResult := mkPurgeResult { member_rooms : list Z; owned_rooms : list Z; was_guest : bool }.

Definition str_cell (v : option cell) : option string := match v with Some (CStr s) => Some s | _ => None end.

Definition purge_account (legacy : list (string * string)) (uin : Z) (d : mdb) : option PurgeResult * mdb :=
  match m_users d !! uin with
  | None => (None, d)
  | Some u =>
      let owned := ids_where "groups" "owner_uin" uin "id" (m_rows d) in
      let member := filter (fun g => g ∉ owned) (ids_where "group_members" "uin" uin "group_id" (m_rows d)) in
      let d := set_mrows (drop_rooms owned) d in
      let d := set_mrows (fun r => drop_step uin r ("group_members", "uin")) d in
      let d := set_owned (filter (fun e => ou_owner e.2 <> uin)) d in
      let d := set_listings (filter (fun e => ul_seller e.2 <> uin)) d in
      let d := set_mrows (purge_uin_rows legacy uin) d in
      let d := set_mrows (fun r => (purge_gossip_mirror (str_cell (u !! "signing_key")) r).2) d in
      let d := set_epochs (bump_uin_epoch (m_epochs d) uin).2 d in
      let d := set_users (delete uin) d in
      let d := set_mrows (fun r => foldl (drop_step uin) r CASCADED) d in
      (Some (mkPurgeResult member owned (bool_decide (is_Some (u !! "guest_status")))), d)
  end.

#[local] Opaque is_reserved_uin rekey_uin_rows new_user_row.

(** ** The invariant of the tables of numbers

    A deed belongs to an account; the deed of a number in use belongs to the
    account that uses it; a number for sale is in nobody's use and its deed is
    the seller's. *)
Record market_wf (d : mdb) : Prop := {
  mw_owner : forall n o, m_owned d !! n = Some o -> is_Some (m_users d !! ou_owner o);
  mw_self : forall n o, m_owned d !! n = Some o -> is_Some (m_users d !! n) -> ou_owner o = n;
  mw_listed : forall n l, m_listings d !! n = Some l ->
    m_users d !! n = None /\ exists o, m_owned d !! n = Some o /\ ou_owner o = ul_seller l
}.

(** Tables that differ elsewhere. *)
Lemma market_wf_ext d d' :
  m_users d' = m_users d -> m_owned d' = m_owned d -> m_listings d' = m_listings d -> market_wf d -> market_wf d'.
Proof. intros E1 E2 E3 [H1 H2 H3]. split; rewrite ?E1, ?E2, ?E3; done. Qed.

Lemma taken_false now d n ign :
  taken now d n ign = false -> m_users d !! n = None /\ m_owned d !! n = None.
Proof.
  unfold taken, uin_is_taken. simpl. case_bool_decide as Hu; [done|]. case_bool_decide as Ho; [done|].
  intros _. apply not_elem_of_dom in Hu. apply not_elem_of_dom in Ho. done.
Qed.

Lemma market_not_listed d n : market_wf d -> m_owned d !! n = None -> m_listings d !! n = None.
Proof.
  intros Hd Hn. destruct (m_listings d !! n) as [l|] eqn:E; [|done].
  destruct (mw_listed d Hd n l E) as (_ & o & Ho & _). congruence.
Qed.

(** A new deed of a number nobody uses. *)
Lemma market_wf_add_deed n o d :
  m_users d !! n = None -> m_listings d !! n = None -> is_Some (m_users d !! ou_owner o) ->
  market_wf d -> market_wf (set_owned (<[n := o]>) d).
Proof.
  intros Hn Hl Ho [H1 H2 H3]. split; simpl.
  - intros m o' [[<- <-]|[_ Hm]]%lookup_insert_Some; [done|by eapply H1].
  - intros m o' [[<- <-]|[_ Hm]]%lookup_insert_Some Hu; [|by eapply H2].
    rewrite Hn in Hu. by destruct Hu.
  - intros m l Hm. destruct (H3 m l Hm) as (? & o' & ? & ?). split; [done|]. exists o'.
    rewrite lookup_insert_ne by congruence. done.
Qed.

(** What a move leaves. *)
Definition moved (now old target : Z) (u : row) (d : mdb) : mdb :=
  set_users (fun m => delete old (<[target := new_user_row now target u]> m))
    (keep_number now old target (rekey_maps old target d)).

Lemma perform_migration_cases now old target d :
  match perform_migration now old target d with
  | (Ok n, d') => n = target /\ m_users d !! target = None /\ exists u, m_users d !! old = Some u /\
      m_users d' = m_users (moved now old target u d) /\ m_owned d' = m_owned (moved now old target u d) /\
      m_listings d' = m_listings (moved now old target u d) /\ m_holds d' = m_holds d /\
      m_spent d' = m_spent d /\ m_invites d' = m_invites d /\ m_epochs d' = (bump_uin_epoch (m_epochs d) old).2
  | (Raise e, d') => d' = d /\ (e = user_404 /\ m_users d !! old = None \/
                                e = taken_409 /\ is_Some (m_users d !! target) \/
                                rekey_uin_rows old target (m_rows d) = Raise e)
  end.
Proof.
  unfold perform_migration. destruct (m_users d !! old) as [u|] eqn:Eo; [|split; [done|by left]].
  destruct (m_users d !! target) eqn:Et; [split; [done|right; left; split; [done|by eauto]]|].
  unfold rekey_all, obind. simpl. destruct (rekey_uin_rows old target (m_rows d)) as [rs|e]; [|split; [done|right; by right]].
  split; [done|]. split; [done|]. exists u. split; [done|].
  unfold moved, keep_number. simpl. destruct ((rekey_deed old target <$> m_owned d) !! old); simpl; [split_and!; reflexivity|].
  destruct (is_reserved_uin old); split_and!; reflexivity.
Qed.

Lemma moved_owned now old target u d n o' :
  m_owned (moved now old target u d) !! n = Some o' ->
  (exists o, m_owned d !! n = Some o /\ o' = rekey_deed old target o) \/ (n = old /\ ou_owner o' = target).
Proof.
  unfold moved, keep_number. simpl. rewrite lookup_fmap.
  destruct (m_owned d !! old) as [o|] eqn:Eo; simpl.
  - rewrite lookup_fmap. intros (o0 & -> & E)%fmap_Some. left. eauto.
  - destruct (is_reserved_uin old); simpl.
    + intros [[<- <-]|[_ Hn]]%lookup_insert_Some; [by right|]. rewrite lookup_fmap in Hn.
      apply fmap_Some in Hn as (o0 & -> & E). left. eauto.
    + rewrite lookup_fmap. intros (o0 & -> & E)%fmap_Some. left. eauto.
Qed.

Lemma moved_owned_2 now old target u d n o :
  m_owned d !! n = Some o -> m_owned (moved now old target u d) !! n = Some (rekey_deed old target o).
Proof.
  intros Hn. unfold moved, keep_number. simpl. rewrite lookup_fmap.
  destruct (m_owned d !! old) as [o0|] eqn:Eo; simpl; [by rewrite lookup_fmap, Hn|].
  destruct (is_reserved_uin old); simpl; [rewrite lookup_insert_ne by congruence|]; by rewrite lookup_fmap, Hn.
Qed.

Lemma moved_users now old target u d n :
  old <> target ->
  m_users (moved now old target u d) !! n =
  (if decide (n = old) then None else if decide (n = target) then Some (new_user_row now target u)
   else m_users d !! n).
Proof.
  intros Hne. unfold moved, keep_number. simpl. destruct (_ !! old); [|destruct (is_reserved_uin old)]; simpl;
    rewrite lookup_delete, lookup_insert; repeat destruct (decide _); congruence.
Qed.

Lemma moved_listings now old target u d n :
  m_listings (moved now old target u d) !! n = rekey_listing old target <$> m_listings d !! n.
Proof.
  unfold moved, keep_number. simpl. destruct (_ !! old); [|destruct (is_reserved_uin old)]; simpl;
    by rewrite lookup_fmap.
Qed.

(** A move keeps the invariant when the number is free or the mover's own. *)
Lemma moved_wf now old target u d :
  market_wf d -> m_users d !! old = Some u -> m_users d !! target = None -> m_listings d !! target = None ->
  (forall o, m_owned d !! target = Some o -> ou_owner o = old) ->
  market_wf (moved now old target u d).
Proof.
  intros Hd Hold Htgt Hlst Hdeed. assert (Hne : old <> target) by congruence. split.
  - intros n o' [(o & Ho & ->)|[-> ->]]%moved_owned; rewrite moved_users by done.
    + simpl. destruct (Z.eqb_spec (ou_owner o) old) as [E|E].
      * rewrite decide_False, decide_True by congruence. eauto.
      * rewrite decide_False by done. destruct (decide _); [eauto|]. by eapply mw_owner.
    + rewrite decide_False, decide_True by congruence. eauto.
  - intros n o' Ho' Hn. rewrite moved_users in Hn by done.
    destruct (decide (n = old)) as [|Hno]; [by destruct Hn|].
    apply moved_owned in Ho' as [(o & Ho & ->)|[-> _]]; [|done]. simpl.
    destruct (decide (n = target)) as [->|Hnt].
    + by rewrite (Hdeed o Ho), Z.eqb_refl.
    + rewrite (mw_self d Hd n o Ho Hn). by destruct (Z.eqb_spec n old).
  - intros n l' Hl'. rewrite moved_listings in Hl'. apply fmap_Some in Hl' as (l & Hl & ->).
    destruct (mw_listed d Hd n l Hl) as (Hn & o & Ho & Hos). split.
    + rewrite moved_users by done. repeat destruct (decide _); congruence.
    + exists (rekey_deed old target o). split; [by apply moved_owned_2|]. simpl. by rewrite Hos.
Qed.

Lemma perform_migration_wf now old target d :
  market_wf d -> m_listings d !! target = None ->
  (forall o, m_owned d !! target = Some o -> ou_owner o = old) ->
  market_wf (perform_migration now old target d).2.
Proof.
  intros Hd Hl Ho. pose proof (perform_migration_cases now old target d) as H.
  destruct (perform_migration now old target d) as [[n|e] d']; simpl; [|by destruct H as [-> _]].
  destruct H as (_ & Ht & u & Hu & E1 & E2 & E3 & _).
  apply (market_wf_ext (moved now old target u d)); [done..|]. by apply moved_wf.
Qed.

Lemma purge_account_wf legacy uin d : market_wf d -> market_wf (purge_account legacy uin d).2.
Proof.
  intros Hd. unfold purge_account. destruct (m_users d !! uin) eqn:Eu; [|done]. simpl.
  destruct Hd as [H1 H2 H3]. split; simpl.
  - intros n o [Hn Ho]%map_lookup_filter_Some. simpl in Ho. rewrite lookup_delete_ne by congruence. by eapply H1.
  - intros n o [Hn Ho]%map_lookup_filter_Some [x [_ Hx]%lookup_delete_Some]. by eapply H2.
  - intros n l [Hn Hl]%map_lookup_filter_Some. destruct (H3 n l Hn) as (Hu & o & Ho & E). simpl in Hl. split.
    + by rewrite lookup_delete_None; right.
    + exists o. split; [|done]. apply map_lookup_filter_Some. simpl. split; [done|congruence].
Qed.

(** A move keeps the person's collection: afterwards they hold exactly the
    deeds they held, and the number they left when it is scarce and had no
    deed; everybody else's deeds, the holds, the invites and the spent vouchers
    are untouched, and an ordinary number with no deed is free again. *)
Theorem migration_collection now old target d d' n :
  market_wf d -> perform_migration now old target d = (Ok n, d') ->
  n = target /\ is_Some (m_users d' !! target) /\ m_users d' !! old = None /\
  (forall m o', (m_owned d' !! m = Some o' /\ ou_owner o' = target) <->
     (exists o, m_owned d !! m = Some o /\ ou_owner o = old /\ o' = rekey_deed old target o) \/
     (m = old /\ m_owned d !! old = None /\ is_reserved_uin old = true /\ o' = mkOwnedUin target "migrated" now)) /\
  (forall m o, m_owned d !! m = Some o -> ou_owner o <> old -> m_owned d' !! m = Some o) /\
  (m_owned d !! old = None -> is_reserved_uin old = false -> m_owned d' !! old = None) /\
  m_holds d' = m_holds d /\ m_invites d' = m_invites d /\ m_spent d' = m_spent d.
Proof.
  intros Hd Hm. pose proof (perform_migration_cases now old target d) as H. rewrite Hm in H.
  destruct H as (-> & Ht & u & Hu & E1 & E2 & _ & E4 & E5 & E6 & _).
  assert (Hne : old <> target) by congruence. rewrite E1, E2, E4, E5, E6, !moved_users by done.
  rewrite decide_False, decide_True by congruence. rewrite decide_True by done.
  assert (Hfree : forall m o, m_owned d !! m = Some o -> ou_owner o <> target).
  { intros m o Ho E. destruct (mw_owner d Hd m o Ho) as [x Hx]. congruence. }
  split_and!; try done.
  - intros m o'. split.
    + intros [Ho' E]. pose proof Ho' as Ho''. apply moved_owned in Ho' as [(o & Ho & ->)|[-> _]].
      * left. exists o. simpl in E. destruct (Z.eqb_spec (ou_owner o) old); [done|]. by apply Hfree in Ho.
      * revert Ho''. unfold moved, keep_number. simpl. rewrite lookup_fmap.
        destruct (m_owned d !! old) as [o|] eqn:Eo; simpl.
        -- rewrite lookup_fmap, Eo. intros [= <-]. left. exists o. simpl in E.
           destruct (Z.eqb_spec (ou_owner o) old); [done|]. by apply Hfree in Eo.
        -- destruct (is_reserved_uin old); simpl; [|by rewrite lookup_fmap, Eo].
           rewrite lookup_insert, decide_True by done. intros [= <-]. by right.
    + intros [(o & Ho & Eo & ->)|(-> & Ho & Er & ->)].
      * split; [by apply moved_owned_2|]. simpl. by rewrite Eo, Z.eqb_refl.
      * split; [|done]. unfold moved, keep_number. simpl. rewrite lookup_fmap, Ho. simpl. rewrite Er. simpl.
        by rewrite lookup_insert, decide_True.
  - intros m o Ho Hno. rewrite (moved_owned_2 now old target u d m o Ho). unfold rekey_deed.
    destruct (Z.eqb_spec (ou_owner o) old); [done|]. by destruct o.
  - intros Ho Er. unfold moved, keep_number. simpl. rewrite lookup_fmap, Ho. simpl. rewrite Er. simpl.
    by rewrite lookup_fmap, Ho.
Qed.

#[local] Transparent new_user_row.

Lemma foldl_copy (u : row) cs : forall (r : row) c,
  foldl (fun (r : row) c => match u !! c with Some v => <[c := v]> r | None => r end) r cs !! c =
  if bool_decide (c ∈ cs) then match u !! c with Some v => Some v | None => r !! c end else r !! c.
Proof.
  induction cs as [|c0 cs IH]; intros r c; [done|]. simpl. rewrite IH.
  destruct (u !! c) as [v|] eqn:Ec; destruct (decide (c = c0)) as [->|Hne].
  - rewrite Ec, lookup_insert, decide_True by done. rewrite (bool_decide_eq_true_2 (c0 ∈ c0 :: cs)) by set_solver.
    by case_bool_decide.
  - destruct (u !! c0); rewrite ?lookup_insert_ne by done; repeat case_bool_decide; try done; set_solver.
  - rewrite Ec. by repeat case_bool_decide.
  - destruct (u !! c0); rewrite ?lookup_insert_ne by done; repeat case_bool_decide; done.
Qed.

(** What follows the person and what does not: every column the copy names
    (the keys, the suspension, the guest mark, residency, the invites minted and
    the rest) reaches the new number as it was, the identity keeps the moment
    it was first claimed, the Signal bundle does not come along, and the tokens
    of the number that is left die with an epoch above all before. *)
Theorem migration_carries_person now old target d d' n :
  perform_migration now old target d = (Ok n, d') ->
  exists u u', m_users d !! old = Some u /\ m_users d' !! target = Some u' /\
    (forall c, c ∈ COPIED -> u' !! c = u !! c) /\
    u' !! "identity_created_at" = match u !! "identity_created_at" with Some v => Some v | None => u !! "created_at" end /\
    u' !! "signal_identity_key" = None /\ u' !! "created_at" = Some (CInt now) /\
    epoch_of (m_epochs d') old = epoch_of (m_epochs d) old + 1 /\
    (forall m, m <> old -> epoch_of (m_epochs d') m = epoch_of (m_epochs d) m).
Proof.
  intros Hm. pose proof (perform_migration_cases now old target d) as H. rewrite Hm in H.
  destruct H as (-> & Ht & u & Hu & E1 & _ & _ & _ & _ & _ & E7).
  assert (Hne : old <> target) by congruence. exists u, (new_user_row now target u).
  rewrite E1, moved_users by done. rewrite decide_False, decide_True by congruence.
  split; [done|]. split; [done|]. unfold new_user_row. split_and!.
  - intros c Hc. rewrite foldl_copy, bool_decide_eq_true_2 by done. destruct (u !! c); [done|].
    assert (Hc' : c ∉ ["uin"; "status"; "created_at"; "last_seen"; "identity_created_at"]).
    { intros Hc'. clear -Hc Hc'. assert (H : Forall (fun x => x ∉ COPIED) ["uin"; "status"; "created_at"; "last_seen"; "identity_created_at"])
        by (repeat constructor; by_decision). rewrite Forall_forall in H. by apply (H c). }
    destruct (u !! "identity_created_at"); [|destruct (u !! "created_at")];
      rewrite ?lookup_insert_ne by set_solver; done.
  - rewrite foldl_copy, bool_decide_eq_false_2 by by_decision.
    destruct (u !! "identity_created_at"); [by rewrite lookup_insert, decide_True|].
    destruct (u !! "created_at"); [by rewrite lookup_insert, decide_True|]. by rewrite !lookup_insert_ne.
  - rewrite foldl_copy, bool_decide_eq_false_2 by by_decision.
    destruct (u !! "identity_created_at"); [|destruct (u !! "created_at")]; by rewrite ?lookup_insert_ne.
  - rewrite foldl_copy, bool_decide_eq_false_2 by by_decision.
    destruct (u !! "identity_created_at"); [|destruct (u !! "created_at")];
      rewrite ?lookup_insert_ne by done; by rewrite lookup_insert, decide_True.
  - rewrite E7. unfold bump_uin_epoch, epoch_of. simpl. by rewrite lookup_insert, decide_True.
  - intros m Hm'. rewrite E7. unfold bump_uin_epoch, epoch_of. simpl. by rewrite lookup_insert_ne.
Qed.
