(* ===== verification/UinShop.v ===== *)
(** * The number shop

    Models [src/app/routers/uin_shop.py] (quotes, the shelf, listings between
    people, the collection, free claims, paid redemptions, the till's holds and
    questions) and the operator's doors of [src/app/routers/admin.py]
    ([hold_uin], [release_hold], [remove_listing], [grant_uin]).

    Instants are in microseconds.  A handler takes the committed tables and
    gives back what it committed: on a refusal that is what was there. *)

From stdpp Require Import base list gmap strings pretty.
From Stdlib Require Import ZArith Lia.
From S2P Require Import Prelude Text Uin Sessions Bytes Door Voucher UinRows Migration.

#[local] Open Scope string_scope.
#[local] Open Scope Z_scope.

Definition MIN_LEN : Z := 3.
Definition MAX_LEN : Z := 9.
Definition MAX_OWNED_UINS : nat := 10.
Definition MIN_SALE_LEN : Z := 4.
Definition HOLD_MINUTES : Z := 120.

Definition DEFAULT_PRICES_CENTS : list (Z * Z) :=
  [(9, 99); (8, 199); (7, 499); (6, 1499); (5, 4999); (4, 19900); (3, 99900)].

(** The operator's settings as the handlers read them.  [st_prices] is the
    ladder parsed from its JSON, [None] when it is blank or no ladder of
    integers; [st_payout] the operator's wallets, blank ones dropped. *)
Record settings := mkSettings {
  st_shop : bool;
  st_resale : bool;
  st_prices : option (list (Z * Z));
  st_till_url : option string;
  st_payout : list (string * string);
  st_client_till_mine : bool
}.

(** [_prices] *)
Definition prices (st : settings) : list (Z * Z) :=
  match st_prices st with
  | Some out =>
      if bool_decide (out = []) || existsb (fun kv => kv.2 <? 0) out then DEFAULT_PRICES_CENTS else out
  | None => DEFAULT_PRICES_CENTS
  end.

(** [(await _prices()).get(price_length(uin))] *)
Definition price_of (st : settings) (uin : Z) : option Z :=
  option_map snd (find_first (fun kv => kv.1 =? Z.of_nat (price_length uin)) (prices st)).

Definition uin_length (uin : Z) : Z := Z.of_nat (length (str_int uin)).

(** [_price_display_for]: whole cents, two digits. *)
Definition price_display (cents : Z) : string :=
  "$" ++ pretty (cents / 100) ++ "." ++ pretty (cents mod 100 / 10) ++ pretty (cents mod 10).

Record QuoteOut := mkQuoteOut {
  q_uin : Z;
  q_length : Z;
  q_available : bool;
  q_price_cents : option Z;
  q_price_display : option string;
  q_reason : option string;
  q_acquire : string;
  q_seller_uin : option Z;
  q_checkout_url : option string
}.

(** A hold that has not lapsed. *)
Definition listing_held (now : Z) (d : mdb) (uin : Z) : bool :=
  match m_holds d !! uin with Some h => now <? uh_expires_at h | None => false end.

Section shop.
Context (b64 : string -> option bytes) (loads : bytes -> option json).
Context (ed25519_verify : bytes -> bytes -> bytes -> bool) (public_key : option string).
(** [issue_token(uin, await uin_epoch(uin, db), carry_device_id(device_id))] of
    [Sessions]: the session a switch answers with. *)
Context (session : Z -> string).

Definition has_key : bool :=
  match public_key with Some k => negb (bool_decide (k = "")) | None => false end.

Definition unavailable (uin : Z) (reason : string) : QuoteOut :=
  mkQuoteOut uin (uin_length uin) false None None (Some reason) "closed" None None.

Definition quote (now : Z) (st : settings) (uin me : Z) (x_rcq_checkout : option string) (d : mdb)
    : outcome QuoteOut :=
  if negb (st_shop st) then Raise (HTTPException 404 "uin shop is disabled")
  else
    let len := uin_length uin in
    if len <? MIN_LEN then Ok (unavailable uin "too_short")
    else if MAX_LEN <? len then Ok (unavailable uin "too_long")
    else if uin =? me then Ok (unavailable uin "self")
    else match price_of st uin with
    | None => Ok (unavailable uin "not_for_sale")
    | Some cents =>
        let offer := match m_listings d !! uin with
                     | Some l => if negb (ul_seller l =? me) && st_resale st then Some l else None
                     | None => None end in
        match offer with
        | Some l =>
            Ok (mkQuoteOut uin len false (Some (ul_price_cents l)) (Some (price_display (ul_price_cents l)))
                  (Some "listed") (if listing_held now d uin then "closed" else "resale")
                  (Some (ul_seller l)) (st_till_url st))
        | None =>
            if taken now d uin false then Ok (unavailable uin "taken")
            else if is_reserved_uin uin then
              let reads := bool_decide (lower (strip (default "" x_rcq_checkout)) = "island") in
              let reachable := (reads && bool_decide (is_Some (st_till_url st))) || st_client_till_mine st in
              let sellable := (MIN_SALE_LEN <=? len) && has_key && reachable in
              Ok (mkQuoteOut uin len false (if sellable then Some cents else None)
                    (if sellable then Some (price_display cents) else None) (Some "reserved")
                    (if sellable then "purchase" else "closed") None
                    (if sellable then st_till_url st else None))
            else Ok (mkQuoteOut uin len true (Some cents) (Some (price_display cents)) None "free" None None)
        end
    end.

(** ** Listings *)

Record ListingOut := mkListingOut { lo_uin : Z; lo_seller : Z; lo_price : Z; lo_display : string; lo_held : bool }.

Definition listing_out (uin : Z) (l : UinListing) (held : bool) : ListingOut :=
  mkListingOut uin (ul_seller l) (ul_price_cents l) (price_display (ul_price_cents l)) held.

Definition require_shop_open (st : settings) : outcome unit :=
  if st_shop st then Ok tt else Raise (HTTPException 404 "uin shop is disabled").
Definition require_resale_open (st : settings) : outcome unit :=
  if st_resale st then Ok tt else Raise (HTTPException 404 "resale is not open yet").

(** A refusal leaves the tables as they were. *)
Definition checked {A} (o : outcome unit) (k : outcome A * mdb) (d : mdb) : outcome A * mdb :=
  match o with Ok _ => k | Raise e => (Raise e, d) end.

Definition strip_values (p : list (string * string)) : list (string * string) := map (fun kv => (kv.1, strip kv.2)) p.

(** [fresh] is what [secrets.token_hex(8)] gives. *)
Definition create_listing (now : Z) (st : settings) (fresh : string) (target price : Z)
    (payout : list (string * string)) (me : Z) (d : mdb) : outcome ListingOut * mdb :=
  checked (require_shop_open st) (checked (require_resale_open st) (
  if target =? me then (Raise (HTTPException 400 "in_use"), d)
  else if bool_decide (payout = []) || existsb (fun kv => bool_decide (strip kv.2 = "")) payout
  then (Raise (HTTPException 400 "no_payout"), d)
  else if uin_length target <? MIN_SALE_LEN then (Raise (HTTPException 400 "not_for_sale"), d)
  else match m_owned d !! target with
  | None => (Raise (HTTPException 404 "not_owned"), d)
  | Some deed =>
      if negb (ou_owner deed =? me) then (Raise (HTTPException 404 "not_owned"), d)
      else match m_listings d !! target with
      | Some l =>
          if listing_held now d target then (Raise (HTTPException 409 "being_paid"), d)
          else
            let changed := negb (ul_price_cents l =? price) || negb (bool_decide (ul_payout l = strip_values payout)) in
            let l' := mkUinListing (ul_seller l) (if changed then fresh else ul_listing_id l) price
                        (strip_values payout) (ul_created_at l) in
            (Ok (listing_out target l' false), set_listings (<[target := l']>) d)
      | None =>
          let l := mkUinListing me fresh price (strip_values payout) now in
          (Ok (listing_out target l false), set_listings (<[target := l]>) d)
      end
  end) d) d.

Definition delete_listing (now uin me : Z) (d : mdb) : outcome unit * mdb :=
  match m_listings d !! uin with
  | None => (Raise (HTTPException 404 "not_listed"), d)
  | Some l =>
      if negb (ul_seller l =? me) then (Raise (HTTPException 404 "not_listed"), d)
      else if listing_held now d uin then (Raise (HTTPException 409 "being_paid"), d)
      else (Ok tt, set_listings (delete uin) d)
  end.

(** [GET /uin/listings], newest first; [guest] is [guest_policy.is_guest(me)]. *)
Definition listings (now : Z) (st : settings) (guest : bool) (count : nat) (me : Z) (d : mdb)
    : outcome (list ListingOut) :=
  let! _ := require_shop_open st in
  let! _ := require_resale_open st in
  if guest then Ok []
  else
    let rows := take count (sort_by (fun e => - ul_created_at e.2)
                  (filter (fun e => ul_seller e.2 <> me) (map_to_list (m_listings d)))) in
    Ok (map (fun e => listing_out e.1 e.2 (listing_held now d e.1)) rows).

(** ** The till asks where to pay *)

Record PayoutTargetOut := mkPayoutTargetOut {
  pt_uin : Z; pt_kind : string; pt_price : Z; pt_addresses : list (string * string);
  pt_listing_id : option string; pt_seller : option Z
}.

(** A [VoucherError] as the handlers answer it. *)
Definition refuse_voucher (code : string) : exn :=
  HTTPException (if String.eqb code "sales_disabled" then 404 else 403) code.

Definition payout_target (now : Z) (st : settings) (request : string) (d : mdb) : outcome PayoutTargetOut :=
  let! _ := require_shop_open st in
  match verify_payout b64 loads ed25519_verify public_key request (now / usec_per_sec) with
  | Refused code => Raise (HTTPException 403 code)
  | Crashed e => Raise (OverflowError e)
  | Accepted uin =>
      match (if st_resale st then m_listings d !! uin else None) with
      | Some l =>
          let addrs := filter (fun kv => strip kv.2 <> "") (ul_payout l) in
          if bool_decide (addrs = []) then Raise (HTTPException 409 "no_payout")
          else Ok (mkPayoutTargetOut uin "resale" (ul_price_cents l) addrs (Some (ul_listing_id l)) (Some (ul_seller l)))
      | None =>
          match price_of st uin with
          | None => Raise (HTTPException 409 "not_for_sale")
          | Some cents =>
              if (uin_length uin <? MIN_SALE_LEN) || negb (is_reserved_uin uin)
              then Raise (HTTPException 409 "not_for_sale")
              else if taken now d uin false then Raise (HTTPException 409 "taken")
              else if bool_decide (st_payout st = []) then Raise (HTTPException 409 "no_payout")
              else Ok (mkPayoutTargetOut uin "island" cents (st_payout st) None None)
          end
      end
  end.

(** ** The shelf *)

Record SuggestionOut := mkSuggestionOut { sg_uin : Z; sg_length : Z; sg_price : Z; sg_display : string }.

Definition TARGET_LENGTHS : list Z := [7; 7; 8; 8; 9; 9].

(** The loop: [tries] attempts remain of [cap]; [rand i len] is what attempt
    [i]'s [secrets.randbelow] gave for the range of that length. *)
Fixpoint suggest (tries : nat) (i : nat) (count : nat) (rand : nat -> Z -> Z) (now : Z) (st : settings) (me : Z)
    (d : mdb) (seen : list Z) (out : list SuggestionOut) : list SuggestionOut :=
  match tries with
  | O => out
  | S tries =>
      if (count <=? length out)%nat then out
      else
        let i := S i in
        let len := nth (i mod 6) TARGET_LENGTHS 0 in
        let lo := 10 ^ (len - 1) in
        let candidate := rand i len + lo in
        if (candidate =? me) || bool_decide (candidate ∈ seen)
        then suggest tries i count rand now st me d seen out
        else
          let seen := candidate :: seen in
          if is_reserved_uin candidate then suggest tries i count rand now st me d seen out
          else if taken now d candidate false then suggest tries i count rand now st me d seen out
          else match price_of st candidate with
          | None => suggest tries i count rand now st me d seen out
          | Some cents =>
              suggest tries i count rand now st me d seen (out ++ [mkSuggestionOut candidate len cents (price_display cents)])
          end
  end.

Definition suggestions (now : Z) (st : settings) (guest : bool) (count : nat) (rand : nat -> Z -> Z) (me : Z) (d : mdb)
    : outcome (list SuggestionOut) :=
  let! _ := require_shop_open st in
  if guest then Ok [] else Ok (suggest (count * 30) 0 count rand now st me d [] []).

(** ** The collection *)

Record PurchaseOut := mkPurchaseOut {
  po_new_uin : option Z; po_token : option string; po_switched : bool; po_owned : list Z
}.

(** [_owned_uins]: held and not in use, in order. *)
Definition owned_uins_of (d : mdb) (owner : Z) : list Z :=
  sort_by (fun n => n)
    (map fst (filter (fun e => ou_owner e.2 = owner /\ e.1 <> owner) (map_to_list (m_owned d)))).

Record MyUinsOut := mkMyUinsOut {
  mu_active : Z; mu_owned : list (Z * Z * Z); mu_max_owned : nat; mu_listed : list ListingOut
}.

Definition my_uins (now : Z) (st : settings) (me : Z) (d : mdb) : MyUinsOut :=
  mkMyUinsOut me
    (map (fun e => (e.1, uin_length e.1, ou_acquired_at e.2))
       (sort_by (fun e => - ou_acquired_at e.2)
          (filter (fun e => ou_owner e.2 = me /\ e.1 <> me) (map_to_list (m_owned d)))))
    MAX_OWNED_UINS
    (if st_resale st
     then map (fun e => listing_out e.1 e.2 (listing_held now d e.1))
            (filter (fun e => ul_seller e.2 = me) (map_to_list (m_listings d)))
     else []).

Definition release (now : Z) (st : settings) (uin me : Z) (d : mdb) : outcome MyUinsOut * mdb :=
  match m_listings d !! uin with
  | Some _ => (Raise (HTTPException 409 "listed"), d)
  | None =>
      if uin =? me then (Raise (HTTPException 400 "uin_in_use"), d)
      else match m_owned d !! uin with
      | None => (Raise (HTTPException 404 "not_owned"), d)
      | Some held =>
          if negb (ou_owner held =? me) then (Raise (HTTPException 404 "not_owned"), d)
          else let d := set_owned (delete uin) d in (Ok (my_uins now st me d), d)
      end
  end.

(** [_take]; on a refusal the caller's transaction is not committed. *)
Definition take_uin (now owner target : Z) (switch : bool) (source : string) (d : mdb) : outcome PurchaseOut * mdb :=
  if negb switch then
    if (MAX_OWNED_UINS <=? length (owned_uins_of d owner))%nat
    then (Raise (HTTPExceptionN 409 "collection_full" (Z.of_nat MAX_OWNED_UINS)), d)
    else match m_owned d !! target with
    | Some _ => (Raise (IntegrityError "owned_uins"), d)
    | None =>
        let d := set_owned (<[target := mkOwnedUin owner source now]>) d in
        (Ok (mkPurchaseOut (Some owner) None false (owned_uins_of d owner)), d)
    end
  else match perform_migration now owner target d with
  | (Raise e, d) => (Raise e, d)
  | (Ok new, d) => (Ok (mkPurchaseOut (Some new) (Some (session new)) true (owned_uins_of d new)), d)
  end.

Definition activate (now uin me : Z) (d : mdb) : outcome PurchaseOut * mdb :=
  match m_listings d !! uin with
  | Some _ => (Raise (HTTPException 409 "listed"), d)
  | None =>
      match m_owned d !! uin with
      | None => (Raise (HTTPException 404 "not_owned"), d)
      | Some held =>
          if negb (ou_owner held =? me) then (Raise (HTTPException 404 "not_owned"), d)
          else match m_users d !! me with
          | None => (Raise user_404, d)
          | Some u => if flag "is_suspended" u then (Raise suspended_403, d) else take_uin now me uin true "activate" d
          end
      end
  end.

(** [POST /uin/purchase] *)
Definition claim (now : Z) (st : settings) (uin : Z) (switch : bool) (me : Z) (d : mdb) : outcome PurchaseOut * mdb :=
  checked (require_shop_open st) (
  if (uin_length uin <? MIN_LEN) || (MAX_LEN <? uin_length uin) then (Raise (HTTPException 400 "invalid_length"), d)
  else if uin =? me then (Raise (HTTPException 400 "self_target"), d)
  else if is_reserved_uin uin then (Raise (HTTPException 403 "reserved"), d)
  else if taken now d uin false then (Raise taken_409, d)
  else match m_users d !! me with
  | None => (Raise user_404, d)
  | Some u =>
      if flag "is_suspended" u then (Raise suspended_403, d)
      else if negb switch && (MAX_OWNED_UINS <=? length (owned_uins_of d me))%nat
      then (Raise (HTTPExceptionN 409 "too_many_uins" (Z.of_nat MAX_OWNED_UINS)), d)
      else take_uin now me uin switch "claimed" d
  end) d.

(** ** Redeeming a voucher *)

(** Inserting the nonce, whose primary key is what spends it. *)
Definition spend_nonce (nonce : string) (d : mdb) : outcome unit * mdb :=
  if bool_decide (nonce ∈ m_spent d) then (Raise (HTTPException 409 "voucher_spent"), d)
  else (Ok tt, add_spent nonce d).

(** A step of a transaction that was opened on [d]. *)
Definition within {A B} (d : mdb) (x : outcome A * mdb) (k : A -> mdb -> outcome B * mdb) : outcome B * mdb :=
  match x with
  | (Raise e, _) => (Raise e, d)
  | (Ok a, w) => match k a w with (Raise e, _) => (Raise e, d) | (Ok b, w) => (Ok b, w) end
  end.

Definition redeem_resale (now : Z) (me target : Z) (l : UinListing) (voucher : string) (switch : bool) (d : mdb)
    : outcome PurchaseOut * mdb :=
  if ul_seller l =? me then (Raise (HTTPException 400 "own_listing"), d)
  else if negb switch && (MAX_OWNED_UINS <=? length (owned_uins_of d me))%nat
  then (Raise (HTTPExceptionN 409 "too_many_uins" (Z.of_nat MAX_OWNED_UINS)), d)
  else match verify_resale b64 loads ed25519_verify public_key voucher target (now / usec_per_sec) with
  | Refused code => (Raise (refuse_voucher code), d)
  | Crashed e => (Raise (OverflowError e), d)
  | Accepted (nonce, listing_id, price_cents) =>
      if negb (String.eqb listing_id (ul_listing_id l)) then (Raise (HTTPException 409 "offer_changed"), d)
      else if negb (price_cents =? ul_price_cents l) then (Raise (HTTPException 409 "price_changed"), d)
      else within d (spend_nonce nonce d) (fun _ w =>
        match m_owned w !! target with
        | Some deed =>
            if negb (ou_owner deed =? ul_seller l) then (Raise (HTTPException 409 "seller_gone"), w)
            else
              let w := set_owned (<[target := mkOwnedUin me "purchase" (ou_acquired_at deed)]>) w in
              let w := set_listings (delete target) w in
              let w := set_holds (delete target) w in
              if switch then take_uin now me target true "purchase" w
              else (Ok (mkPurchaseOut None None false (owned_uins_of w me)), w)
        | None => (Raise (HTTPException 409 "seller_gone"), w)
        end)
  end.

Definition redeem (now : Z) (st : settings) (target : Z) (voucher : string) (switch : bool) (me : Z) (d : mdb)
    : outcome PurchaseOut * mdb :=
  checked (require_shop_open st) (
  if (uin_length target <? MIN_LEN) || (MAX_LEN <? uin_length target)
  then (Raise (HTTPException 400 "invalid_length"), d)
  else if target =? me then (Raise (HTTPException 400 "self_target"), d)
  else match m_users d !! me with
  | None => (Raise user_404, d)
  | Some u =>
      if flag "is_suspended" u then (Raise suspended_403, d)
      else match (if st_resale st then m_listings d !! target else None) with
      | Some l => redeem_resale now me target l voucher switch d
      | None =>
          match verify b64 loads ed25519_verify public_key voucher target (now / usec_per_sec) with
          | Refused code => (Raise (refuse_voucher code), d)
          | Crashed e => (Raise (OverflowError e), d)
          | Accepted nonce =>
              if taken now d target true then (Raise taken_409, d)
              else within d (spend_nonce nonce d) (fun _ w =>
                let w := set_holds (delete target) w in
                let w := if switch then set_owned (<[target := mkOwnedUin me "purchase" now]>) w else w in
                take_uin now me target switch "purchase" w)
          end
      end
  end) d.

(** ** The till's holds *)

Record HoldRequestOut := mkHoldRequestOut { hr_uin : Z; hr_held : bool; hr_expires_at : option Z }.

Definition till_hold (now : Z) (st : settings) (request : string) (d : mdb) : outcome HoldRequestOut * mdb :=
  checked (require_shop_open st) (
  match verify_hold b64 loads ed25519_verify public_key request (now / usec_per_sec) with
  | Refused code => (Raise (refuse_voucher code), d)
  | Crashed e => (Raise (OverflowError e), d)
  | Accepted (kind, uin, hold_id, _) =>
      let existing := m_holds d !! uin in
      let ours := match existing with Some h => String.eqb (uh_hold_id h) hold_id | None => false end in
      let expires := now + seconds (60 * HOLD_MINUTES) in
      if String.eqb kind "release" then
        (Ok (mkHoldRequestOut uin false None), if ours then set_holds (delete uin) d else d)
      else if (uin_length uin <? MIN_LEN) || (MAX_LEN <? uin_length uin)
      then (Raise (HTTPException 400 "invalid_length"), d)
      else if ours then
        (Ok (mkHoldRequestOut uin true (Some expires)), set_holds (<[uin := mkUinHold hold_id expires]>) d)
      else if bool_decide (m_listings d !! uin = None) && taken now d uin false then (Raise taken_409, d)
      else match existing with
      | Some _ => (Raise (IntegrityError "uin_holds"), d)
      | None => (Ok (mkHoldRequestOut uin true (Some expires)), set_holds (<[uin := mkUinHold hold_id expires]>) d)
      end
  end) d.
End shop.

(** ** The operator's doors *)

Definition hold_uin (now uin minutes : Z) (hold_id : string) (d : mdb) : outcome Z * mdb :=
  if taken now d uin false then (Raise taken_409, d)
  else let expires := now + seconds (60 * minutes) in
       (Ok expires, set_holds (<[uin := mkUinHold hold_id expires]>) d).

Definition release_hold (uin : Z) (d : mdb) : mdb := set_holds (delete uin) d.

Definition remove_listing (now uin : Z) (d : mdb) : outcome Z * mdb :=
  match m_listings d !! uin with
  | None => (Raise (HTTPException 404 "not_listed"), d)
  | Some l =>
      if listing_held now d uin then (Raise (HTTPException 409 "being_paid"), d)
      else (Ok (ul_seller l), set_listings (delete uin) d)
  end.

Definition grant_uin (now uin to_uin : Z) (d : mdb) : outcome (list Z) * mdb :=
  if bool_decide (is_Some (m_users d !! uin)) then (Raise (HTTPException 409 "in_use"), d)
  else if bool_decide (is_Some (m_owned d !! uin)) then (Raise (HTTPException 409 "already_held"), d)
  else if existsb (fun i => bool_decide (invite_uin i = Some uin) && invite_is_live now i) (m_invites d)
  then (Raise (HTTPException 409 "uin_reserved"), d)
  else if bool_decide (m_users d !! to_uin = None) then (Raise (HTTPException 404 "no_such_user"), d)
  else
    let d := set_owned (<[uin := mkOwnedUin to_uin "granted" now]>) d in
    (Ok (sort_by (fun n => n) (map fst (filter (fun e => ou_owner e.2 = to_uin) (map_to_list (m_owned d))))), d).
