(* ===== verification/Market.v ===== *)
(** * The number market over time

    What holds of [UinShop] and [Migration] together, over any sequence of
    requests: who owns what, that a voucher buys once and buys what was signed
    for, that quotes tell the truth, and where the holds fail. *)

From stdpp Require Import base list sorting gmap strings pretty.
From Stdlib Require Import ZArith Lia.
From S2P Require Import Prelude Text Uin Sessions Bytes Door Voucher UinRows Migration UinShop.

#[local] Open Scope string_scope.
#[local] Open Scope Z_scope.
#[local] Opaque is_reserved_uin rekey_uin_rows new_user_row purge_uin_rows MAX_OWNED_UINS uin_length.

Section market.
Context (b64 : string -> option bytes) (loads : bytes -> option json).
Context (ed25519_verify : bytes -> bytes -> bytes -> bool) (public_key : option string) (session : Z -> string).
#[local] Set Default Proof Using "Type".

(** Requests that change the tables of numbers.  [MRegister] is a new account
    on a number that is free, [MMigrate] the "new number" button with the draws
    of the allocator. *)
Inductive mk_op :=
  | MCreateListing (now : Z) (st : settings) (fresh : string) (target price : Z) (payout : list (string * string)) (me : Z)
  | MDeleteListing (now uin me : Z)
  | MRelease (now : Z) (st : settings) (uin me : Z)
  | MActivate (now uin me : Z)
  | MClaim (now : Z) (st : settings) (uin : Z) (switch : bool) (me : Z)
  | MRedeem (now : Z) (st : settings) (target : Z) (voucher : string) (switch : bool) (me : Z)
  | MTillHold (now : Z) (st : settings) (request : string)
  | MHold (now uin minutes : Z) (hold_id : string)
  | MReleaseHold (uin : Z)
  | MRemoveListing (now uin : Z)
  | MGrant (now uin to_uin : Z)
  | MMigrate (now uin cooldown : Z) (rand clock : nat -> Z)
  | MBurn (legacy : list (string * string)) (uin : Z)
  | MRegister (now uin : Z) (r : row).

Definition mk_apply (op : mk_op) (d : mdb) : mdb :=
  match op with
  | MCreateListing now st fresh target price payout me => (create_listing now st fresh target price payout me d).2
  | MDeleteListing now uin me => (delete_listing now uin me d).2
  | MRelease now st uin me => (release now st uin me d).2
  | MActivate now uin me => (activate session now uin me d).2
  | MClaim now st uin switch me => (claim session now st uin switch me d).2
  | MRedeem now st target voucher switch me =>
      (redeem b64 loads ed25519_verify public_key session now st target voucher switch me d).2
  | MTillHold now st request => (till_hold b64 loads ed25519_verify public_key now st request d).2
  | MHold now uin minutes hold_id => (hold_uin now uin minutes hold_id d).2
  | MReleaseHold uin => release_hold uin d
  | MRemoveListing now uin => (remove_listing now uin d).2
  | MGrant now uin to_uin => (grant_uin now uin to_uin d).2
  | MMigrate now uin cooldown rand clock => (migrate now uin cooldown (allocate_uin rand clock (uin_view d)) d).2
  | MBurn legacy uin => (purge_account legacy uin d).2
  | MRegister now uin r => if taken now d uin false then d else set_users (<[uin := r]>) d
  end.
Definition mk_run (ops : list mk_op) (d : mdb) : mdb := foldl (fun d op => mk_apply op d) d ops.

(** ** The invariant *)

Lemma market_wf_holds f d : market_wf d -> market_wf (set_holds f d).
Proof. by apply market_wf_ext. Qed.
Lemma market_wf_spent n d : market_wf d -> market_wf (add_spent n d).
Proof. by apply market_wf_ext. Qed.

Lemma market_wf_unlist n d : market_wf d -> market_wf (set_listings (delete n) d).
Proof. intros [H1 H2 H3]. split; simpl; [done|done|]. intros m l [_ Hm]%lookup_delete_Some. by apply H3. Qed.

Lemma market_wf_list n l d :
  m_users d !! n = None -> (exists o, m_owned d !! n = Some o /\ ou_owner o = ul_seller l) ->
  market_wf d -> market_wf (set_listings (<[n := l]>) d).
Proof.
  intros Hn Ho [H1 H2 H3]. split; simpl; [done|done|].
  intros m l' [[<- <-]|[_ Hm]]%lookup_insert_Some; [done|by apply H3].
Qed.

(** Somebody's deed whose number is somebody else's is not in use. *)
Lemma deed_not_in_use d n o me :
  market_wf d -> m_owned d !! n = Some o -> ou_owner o = me -> n <> me -> m_users d !! n = None.
Proof.
  intros Hd Ho E Hn. destruct (m_users d !! n) eqn:Eu; [|done]. exfalso. apply Hn.
  rewrite <-E. symmetry. apply (mw_self d Hd); [done|by eauto].
Qed.

Lemma take_uin_wf now me target (switch : bool) source d :
  market_wf d -> is_Some (m_users d !! me) -> m_listings d !! target = None ->
  (if switch then forall o, m_owned d !! target = Some o -> ou_owner o = me else m_users d !! target = None) ->
  market_wf (take_uin session now me target switch source d).2.
Proof.
  intros Hd Hme Hl Ht. unfold take_uin. destruct switch; simpl.
  - pose proof (perform_migration_wf now me target d Hd Hl Ht) as H.
    by destruct (perform_migration now me target d) as [[n|e] d'].
  - destruct (_ <=? _)%nat; [done|]. destruct (m_owned d !! target) eqn:Eo; [done|]. simpl.
    by apply market_wf_add_deed.
Qed.

Lemma within_wf {A B} d (x : outcome A * mdb) (k : A -> mdb -> outcome B * mdb) :
  market_wf d -> (forall a w, x = (Ok a, w) -> market_wf (k a w).2) -> market_wf (within d x k).2.
Proof.
  intros Hd Hk. unfold within. destruct x as [[a|e] w]; [|done]. specialize (Hk a w eq_refl).
  by destruct (k a w) as [[b|e] w'].
Qed.

Lemma redeem_resale_wf now me target l voucher switch d :
  market_wf d -> is_Some (m_users d !! me) -> m_listings d !! target = Some l ->
  market_wf (redeem_resale b64 loads ed25519_verify public_key session now me target l voucher switch d).2.
Proof.
  intros Hd Hme Hl. unfold redeem_resale. destruct (ul_seller l =? me); [done|].
  destruct (negb switch && _); [done|].
  destruct (verify_resale _ _ _ _ _ _ _) as [[[nonce lid] price]| |]; [|done|done].
  destruct (negb (String.eqb _ _)); [done|]. destruct (negb (price =? _)); [done|].
  apply within_wf; [done|]. intros [] w Hw. unfold spend_nonce in Hw. case_bool_decide; [done|].
  injection Hw as <-. destruct (m_owned _ !! target) as [deed|] eqn:Eo; simpl; [|by apply market_wf_spent].
  destruct (negb (ou_owner deed =? _)); [by apply market_wf_spent|].
  destruct (mw_listed d Hd target l Hl) as (Hu & _).
  set (w := set_holds _ _).
  assert (Hw : market_wf w).
  { apply market_wf_holds. unfold w. split; simpl.
    - intros n o [[<- <-]|[_ Hn]]%lookup_insert_Some; [done|by eapply mw_owner].
    - intros n o [[<- <-]|[_ Hn]]%lookup_insert_Some Hnu; [|by eapply mw_self]. rewrite Hu in Hnu. by destruct Hnu.
    - intros n l' [Hne Hn]%lookup_delete_Some. destruct (mw_listed d Hd n l' Hn) as (? & o & ? & ?).
      split; [done|]. exists o. by rewrite lookup_insert_ne. }
  destruct switch; [|done]. apply take_uin_wf; [done|done|simpl; by rewrite lookup_delete, decide_True|].
  simpl. intros o. rewrite lookup_insert, decide_True by done. by intros [= <-].
Qed.

Lemma redeem_wf now st target voucher switch me d :
  market_wf d ->
  market_wf (redeem b64 loads ed25519_verify public_key session now st target voucher switch me d).2.
Proof.
  intros Hd. unfold redeem, checked. destruct (require_shop_open st); [|done].
  destruct (_ || _); [done|]. destruct (target =? me); [done|].
  destruct (m_users d !! me) as [u|] eqn:Eme; [|done]. destruct (flag _ u); [done|].
  destruct (if st_resale st then _ else _) as [l|] eqn:El.
  { destruct (st_resale st); [|done]. apply redeem_resale_wf; [done|by eauto|done]. }
  destruct (verify _ _ _ _ _ _ _) as [nonce| |]; [|done|done].
  destruct (taken now d target true) eqn:Et; [done|]. apply taken_false in Et as [Htu Hto].
  apply within_wf; [done|]. intros [] w Hw. unfold spend_nonce in Hw. case_bool_decide; [done|].
  injection Hw as <-. pose proof (market_not_listed d target Hd Hto) as Hnl.
  assert (Hw : market_wf (set_holds (delete target) (add_spent nonce d))).
  { by apply market_wf_holds, market_wf_spent. }
  destruct switch; apply take_uin_wf; [|by exists u|done| |done|by exists u|done|done].
  - apply market_wf_add_deed; [done|done|by exists u|done].
  - simpl. intros o. rewrite lookup_insert, decide_True by done. by intros [= <-].
Qed.

Lemma create_listing_wf now st fresh target price payout me d :
  market_wf d -> market_wf (create_listing now st fresh target price payout me d).2.
Proof.
  intros Hd. unfold create_listing, checked. destruct (require_shop_open st), (require_resale_open st); try done.
  destruct (Z.eqb_spec target me) as [|Hne]; [done|]. destruct (_ || _); [done|]. destruct (_ <? _); [done|].
  destruct (m_owned d !! target) as [o|] eqn:Eo; [|done].
  destruct (Z.eqb_spec (ou_owner o) me) as [Em|]; simpl; [|done].
  assert (Hu : m_users d !! target = None) by (by eapply deed_not_in_use).
  destruct (m_listings d !! target) as [l|] eqn:El.
  - destruct (listing_held _ _ _); [done|]. simpl. apply market_wf_list; [done| |done]. simpl.
    apply (mw_listed d Hd target l El).
  - simpl. apply market_wf_list; [done| |done]. by exists o.
Qed.

Lemma release_wf now st uin me d : market_wf d -> market_wf (release now st uin me d).2.
Proof.
  intros Hd. unfold release. destruct (m_listings d !! uin) eqn:El; [done|].
  destruct (uin =? me); [done|]. destruct (m_owned d !! uin) as [o|] eqn:Eo; [|done].
  destruct (negb _); [done|]. simpl. destruct Hd as [H1 H2 H3]. split; simpl.
  - intros n o' [_ Hn]%lookup_delete_Some. by eapply H1.
  - intros n o' [_ Hn]%lookup_delete_Some. by eapply H2.
  - intros n l Hn. destruct (H3 n l Hn) as (? & o' & ? & ?). split; [done|]. exists o'.
    rewrite lookup_delete_ne by congruence. done.
Qed.

Lemma migrate_wf now uin cooldown rand clock d :
  market_wf d -> market_wf (migrate now uin cooldown (allocate_uin rand clock (uin_view d)) d).2.
Proof.
  intros Hd. unfold migrate. destruct (m_users d !! uin) as [u|] eqn:Eu; [|done].
  destruct (flag _ u); [done|]. destruct (0 <? cooldown); [done|].
  destruct (allocate_uin rand clock (uin_view d)) as [n|e] eqn:Ea; [|done].
  unfold allocate_uin in Ea. apply allocate_loop_Ok in Ea as (j & _ & _ & _ & Hfree).
  apply (taken_false (clock j) d n false) in Hfree as [_ Ho].
  apply perform_migration_wf; [done|by apply market_not_listed|]. intros o. congruence.
Qed.

Lemma mk_apply_wf op d : market_wf d -> market_wf (mk_apply op d).
Proof.
  intros Hd. destruct op; simpl.
  - by apply create_listing_wf.
  - unfold delete_listing. destruct (m_listings d !! uin); [|done]. destruct (negb _); [done|].
    destruct (listing_held _ _ _); [done|]. by apply market_wf_unlist.
  - by apply release_wf.
  - unfold activate. destruct (m_listings d !! uin) eqn:El; [done|].
    destruct (m_owned d !! uin) as [o|] eqn:Eo; [|done].
    destruct (Z.eqb_spec (ou_owner o) me) as [Em|]; simpl; [|done].
    destruct (m_users d !! me) as [u|] eqn:Eu; [|done]. destruct (flag _ u); [done|].
    apply take_uin_wf; [done|by eauto|done|]. intros o'. congruence.
  - unfold claim, checked. destruct (require_shop_open st); [|done]. destruct (_ || _); [done|].
    destruct (uin =? me); [done|]. destruct (is_reserved_uin uin); [done|].
    destruct (taken now d uin false) eqn:Et; [done|]. apply taken_false in Et as [Htu Hto].
    destruct (m_users d !! me) as [u|] eqn:Eu; [|done]. destruct (flag _ u); [done|].
    destruct (negb switch && _); [done|].
    apply take_uin_wf; [done|by eauto|by apply market_not_listed|]. destruct switch; [congruence|done].
  - by apply redeem_wf.
  - unfold till_hold, checked. repeat (case_match; try done); by apply market_wf_holds.
  - unfold hold_uin. destruct (taken _ _ _ _); [done|]. by apply market_wf_holds.
  - by apply market_wf_holds.
  - unfold remove_listing. destruct (m_listings d !! uin); [|done]. destruct (listing_held _ _ _); [done|].
    by apply market_wf_unlist.
  - unfold grant_uin. case_bool_decide as Hu; [done|]. case_bool_decide as Ho; [done|].
    destruct (existsb _ _); [done|]. case_bool_decide as Ht; [done|]. simpl.
    apply eq_None_not_Some in Hu, Ho. apply market_wf_add_deed; [done|by apply market_not_listed| |done].
    simpl. by apply not_eq_None_Some.
  - by apply migrate_wf.
  - by apply purge_account_wf.
  - destruct (taken now d uin false) eqn:Et; [done|]. apply taken_false in Et as [Htu Hto].
    destruct Hd as [H1 H2 H3]. split; simpl.
    + intros n o Hn. destruct (decide (uin = ou_owner o)) as [->|]; [by rewrite lookup_insert, decide_True|].
      rewrite lookup_insert_ne by done. by eapply H1.
    + intros n o Hn Hu. rewrite lookup_insert_ne in Hu by congruence. by apply H2.
    + intros n l Hn. destruct (H3 n l Hn) as (? & o & ? & ?). rewrite lookup_insert_ne by congruence. eauto.
Qed.

(** C4. Whatever people and the operator do with numbers (list, unlist, re-price,
    release, activate, claim, buy from the island or from each other, be
    granted, move, register, burn), every deed belongs to an account that
    exists, a number in use is owned by nobody else, and a number for sale is in
    nobody's use and is its seller's to sell. *)
Theorem market_wf_run ops d : market_wf d -> market_wf (mk_run ops d).
Proof.
  unfold mk_run. revert d. induction ops as [|op ops IH]; intros d Hd; simpl; [done|]. by apply IH, mk_apply_wf.
Qed.

(** ** A voucher buys once *)

Lemma perform_migration_spent now old target d : m_spent (perform_migration now old target d).2 = m_spent d.
Proof.
  pose proof (perform_migration_cases now old target d) as H.
  destruct (perform_migration now old target d) as [[n|e] d']; simpl.
  - by destruct H as (_ & _ & u & _ & _ & _ & _ & _ & -> & _).
  - by destruct H as [-> _].
Qed.

Lemma take_uin_spent now me target switch source d :
  m_spent (take_uin session now me target switch source d).2 = m_spent d.
Proof.
  unfold take_uin. destruct switch; simpl.
  - pose proof (perform_migration_spent now me target d) as H.
    by destruct (perform_migration now me target d) as [[n|e] d'].
  - destruct (_ <=? _)%nat; [done|]. by destruct (m_owned d !! target).
Qed.

(** What a successful redemption did: the nonce of the voucher was unspent, is
    spent, and either the island sold the number or its owner did. *)
Lemma redeem_Ok now st target voucher switch me d out d' :
  redeem b64 loads ed25519_verify public_key session now st target voucher switch me d = (Ok out, d') ->
  exists nonce, voucher_nonce b64 loads voucher = Accepted nonce /\ nonce ∉ m_spent d /\
    m_spent d' = {[ nonce ]} ∪ m_spent d /\ is_Some (m_users d !! me) /\ target <> me /\
    ((exists exp, key_signed b64 ed25519_verify public_key (signed_doc (DNumber target nonce exp)) /\
        taken now d target true = false /\
        take_uin session now me target switch "purchase"
          (let w := set_holds (delete target) (add_spent nonce d) in
           if switch then set_owned (<[target := mkOwnedUin me "purchase" now]>) w else w) = (Ok out, d')) \/
     (exists l exp deed, m_listings d !! target = Some l /\ ul_seller l <> me /\
        key_signed b64 ed25519_verify public_key
          (signed_doc (DResale target (ul_listing_id l) (ul_price_cents l) nonce exp)) /\
        m_owned d !! target = Some deed /\ ou_owner deed = ul_seller l /\
        (let w := set_holds (delete target) (set_listings (delete target)
                    (set_owned (<[target := mkOwnedUin me "purchase" (ou_acquired_at deed)]>) (add_spent nonce d))) in
         if switch then take_uin session now me target true "purchase" w
         else (Ok (mkPurchaseOut None None false (owned_uins_of w me)), w)) = (Ok out, d'))).
Proof.
  unfold redeem, checked. destruct (require_shop_open st); [|done]. destruct (_ || _); [done|].
  destruct (Z.eqb_spec target me) as [|Hne]; [done|]. destruct (m_users d !! me) as [u|] eqn:Eu; [|done].
  destruct (flag _ u); [done|]. destruct (if st_resale st then _ else _) as [l|] eqn:El.
  - assert (Hl : m_listings d !! target = Some l) by (by destruct (st_resale st)).
    unfold redeem_resale. destruct (Z.eqb_spec (ul_seller l) me) as [|Hs]; [done|].
    destruct (negb switch && _); [done|].
    destruct (verify_resale _ _ _ _ _ _ _) as [[[nonce lid] price]| |] eqn:Ev; [|done|done].
    apply verify_resale_accepted in Ev as (Hv & exp & Hk & _).
    destruct (String.eqb_spec lid (ul_listing_id l)) as [->|]; simpl; [|done].
    destruct (Z.eqb_spec price (ul_price_cents l)) as [->|]; simpl; [|done].
    unfold within, spend_nonce. case_bool_decide as Hn; [done|]. simpl.
    destruct (m_owned d !! target) as [deed|] eqn:Eo; [|done].
    destruct (Z.eqb_spec (ou_owner deed) (ul_seller l)) as [Ho|]; simpl; [|done].
    intros H. exists nonce. split; [done|]. split; [done|]. split; [|split; [by exists u|split; [done|right]]].
    + destruct switch; [|by injection H as _ <-].
      destruct (take_uin _ _ _ _ _ _ _) as [[b|e] w] eqn:Et; [|done]. injection H as _ <-.
      change w with (@Ok PurchaseOut b, w).2. rewrite <-Et. by rewrite take_uin_spent.
    + exists l, exp, deed. split_and!; try done. destruct switch; [|done].
      by destruct (take_uin _ _ _ _ _ _ _) as [[b|e] w].
  - destruct (verify _ _ _ _ _ _ _) as [nonce| |] eqn:Ev; [|done|done].
    apply verify_accepted in Ev as (Hv & exp & Hk & _). destruct (taken now d target true) eqn:Et; [done|].
    unfold within, spend_nonce. case_bool_decide as Hn; [done|].
    destruct (take_uin _ _ _ _ _ _ _) as [[b|e] w] eqn:Ek; [|done]. intros [= <- <-].
    exists nonce. split; [done|]. split; [done|]. split; [|split; [by exists u|split; [done|left; by exists exp]]].
    change w with (@Ok PurchaseOut b, w).2. rewrite <-Ek, take_uin_spent. by destruct switch.
Qed.

Lemma mk_apply_spent op d : m_spent d ⊆ m_spent (mk_apply op d).
Proof.
  destruct op; simpl; try (unfold create_listing, delete_listing, release, till_hold, hold_uin, remove_listing,
    grant_uin, purge_account, checked; repeat (case_match; try done); done).
  - unfold activate. repeat (case_match; try done). by rewrite take_uin_spent.
  - unfold claim, checked. repeat (case_match; try done); by rewrite take_uin_spent.
  - destruct (redeem _ _ _ _ _ _ _ _ _ _ _ _) as [[out|e] d'] eqn:E; simpl.
    + apply redeem_Ok in E as (nonce & _ & _ & -> & _). set_solver.
    + assert (d' = d) as ->; [|done]. revert E. unfold redeem, redeem_resale, within, checked.
      repeat (case_match; try (by intros [= _ <-]); try done).
  - unfold migrate. repeat (case_match; try done). by rewrite perform_migration_spent.
Qed.

(** A voucher is redeemed once: after a redemption that succeeded, and
    whatever happened since, the same voucher buys nothing more, for its buyer
    or for anybody else, for the number or for a listing of it. *)
Theorem voucher_redeemed_once now st target voucher switch me d out d1 ops now' st' target' switch' me' :
  redeem b64 loads ed25519_verify public_key session now st target voucher switch me d = (Ok out, d1) ->
  forall out' d2,
    redeem b64 loads ed25519_verify public_key session now' st' target' voucher switch' me' (mk_run ops d1)
      <> (Ok out', d2).
Proof.
  intros (nonce & Hn & _ & Hs & _)%redeem_Ok out' d2 (nonce' & Hn' & Hfresh & _)%redeem_Ok.
  assert (nonce' = nonce) as -> by congruence. apply Hfresh.
  assert (Hin : nonce ∈ m_spent d1) by (rewrite Hs; set_solver). revert Hin. unfold mk_run. clear Hs Hfresh.
  revert d1. induction ops as [|op ops IH]; intros d1 Hin; simpl; [done|]. apply IH.
  by apply (mk_apply_spent op d1).
Qed.

Lemma take_switch_deed now me target source d out d' o :
  m_owned d !! target = Some o -> ou_owner o = me -> m_listings d !! target = None ->
  take_uin session now me target true source d = (Ok out, d') ->
  m_owned d' !! target = Some (mkOwnedUin target (ou_source o) (ou_acquired_at o)) /\
  is_Some (m_users d' !! target) /\ m_listings d' !! target = None.
Proof.
  intros Ho Hme Hl. unfold take_uin. simpl. pose proof (perform_migration_cases now me target d) as H.
  destruct (perform_migration now me target d) as [[n|e] w]; [|done]. intros [= _ <-].
  destruct H as (_ & Ht & u & Hu & E1 & E2 & E3 & _). assert (Hne : me <> target) by congruence.
  rewrite E1, E2, E3, moved_users, moved_listings, Hl by done.
  rewrite (moved_owned_2 now me target u d target o Ho). unfold rekey_deed. rewrite Hme, Z.eqb_refl.
  split; [done|]. split; [|done]. rewrite decide_False, decide_True by congruence. eauto.
Qed.

(** C6. Money buys what was signed for, and it is delivered.  If the till's key
    verifies nothing the till did not sign, then a redemption that succeeds
    means the till signed a voucher for exactly this number: as island stock,
    which was free, or as the offer standing on it, listing id and price; and
    afterwards the deed is the buyer's, marked as bought, and the offer is
    gone. *)
Theorem redeem_delivers (issued : till_doc -> Prop) now st target voucher switch me d out d' :
  (forall msg, key_signed b64 ed25519_verify public_key msg -> exists doc, issued doc /\ msg = signed_doc doc) ->
  market_wf d ->
  redeem b64 loads ed25519_verify public_key session now st target voucher switch me d = (Ok out, d') ->
  ((exists nonce exp, issued (DNumber target nonce exp) /\ taken now d target true = false) \/
   (exists l nonce exp, m_listings d !! target = Some l /\
      issued (DResale target (ul_listing_id l) (ul_price_cents l) nonce exp))) /\
  (exists o, m_owned d' !! target = Some o /\ ou_source o = "purchase" /\
     ou_owner o = if switch then target else me) /\
  m_listings d' !! target = None.
Proof.
  intros Hun Hd (nonce & _ & _ & _ & _ & Hne & [(exp & Hk & Ht & Htake)|(l & exp & deed & Hl & Hs & Hk & Ho & Hos & Htake)])%redeem_Ok.
  - destruct (Hun _ Hk) as (doc & Hi & E%signed_doc_inj). subst doc. split; [left; eauto|].
    apply taken_false in Ht as [_ Hto]. pose proof (market_not_listed d target Hd Hto) as Hnl.
    destruct switch.
    + apply (take_switch_deed _ _ _ _ _ _ _ (mkOwnedUin me "purchase" now)) in Htake as (Ho & _ & Hl);
        [|simpl; by rewrite lookup_insert, decide_True|done|done].
      split; [|done]. eexists. by split.
    + unfold take_uin in Htake. simpl in Htake. destruct (_ <=? _)%nat; [done|]. rewrite Hto in Htake.
      injection Htake as _ <-. simpl. rewrite lookup_insert, decide_True by done. split; [|done]. eexists. by split.
  - destruct (Hun _ Hk) as (doc & Hi & E%signed_doc_inj). subst doc. split; [right; eauto 10|].
    destruct switch; simpl in Htake.
    + apply (take_switch_deed _ _ _ _ _ _ _ (mkOwnedUin me "purchase" (ou_acquired_at deed))) in Htake as (Ho' & _ & Hl');
        [|simpl; by rewrite lookup_insert, decide_True|done|simpl; by rewrite lookup_delete, decide_True].
      split; [|done]. eexists. by split.
    + injection Htake as _ <-. simpl. rewrite lookup_insert, lookup_delete, !decide_True by done.
      split; [|done]. eexists. by split.
Qed.

(** A standing offer that was paid for goes through: with resale open, a
    buyer who has an account in good standing and room in the collection, and a
    voucher the island accepts for the listing as it stands with a nonce nobody
    has spent, gets the number; "seller_gone" cannot happen, and the seller's
    other deeds are untouched. *)
Theorem resale_completes now st target voucher me d u l nonce :
  market_wf d -> st_shop st = true -> st_resale st = true ->
  MIN_LEN <= uin_length target <= MAX_LEN ->
  m_users d !! me = Some u -> flag "is_suspended" u = false ->
  m_listings d !! target = Some l -> ul_seller l <> me -> target <> me ->
  (length (owned_uins_of d me) < MAX_OWNED_UINS)%nat ->
  verify_resale b64 loads ed25519_verify public_key voucher target (now / usec_per_sec)
    = Accepted (nonce, ul_listing_id l, ul_price_cents l) ->
  nonce ∉ m_spent d ->
  exists out d',
    redeem b64 loads ed25519_verify public_key session now st target voucher false me d = (Ok out, d') /\
    (exists o, m_owned d' !! target = Some o /\ ou_owner o = me) /\ m_listings d' !! target = None /\
    (forall n, n <> target -> m_owned d' !! n = m_owned d !! n).
Proof.
  intros Hd Hshop Hres [Hlo Hhi] Hu Hsus Hl Hs Hne Hroom Hv Hn.
  destruct (mw_listed d Hd target l Hl) as (_ & deed & Ho & Hos).
  unfold redeem, checked, require_shop_open. rewrite Hshop, (proj2 (Z.ltb_ge _ _) Hlo), (proj2 (Z.ltb_ge _ _) Hhi).
  rewrite (proj2 (Z.eqb_neq _ _) Hne), Hu, Hsus, Hres, Hl. simpl. unfold redeem_resale.
  rewrite (proj2 (Z.eqb_neq _ _) Hs), (proj2 (Nat.leb_gt _ _) Hroom), Hv, String.eqb_refl, Z.eqb_refl. simpl.
  unfold within, spend_nonce. rewrite bool_decide_eq_false_2 by done. simpl. rewrite Ho, Hos, Z.eqb_refl. simpl.
  eexists _, _. split; [reflexivity|]. simpl. rewrite lookup_insert, lookup_delete, !decide_True by done.
  split; [eexists; by split|]. split; [done|]. intros n Hnt. by rewrite lookup_insert_ne.
Qed.

(** ** Quotes tell the truth *)

(** What a quote offers can be had.  "free": the caller, in good standing,
    claims the number at once and answers as it.  "resale": the till that asks
    where to pay is told the same price and seller, with the id of the offer to
    sign, unless the seller's wallets are blank.  "purchase": the till is told
    the island's price, or that the operator set no wallet. *)
Theorem quote_is_honoured now st uin me checkout d u q request :
  market_wf d -> keys_hold (m_rows d) -> m_users d !! me = Some u -> flag "is_suspended" u = false ->
  verify_payout b64 loads ed25519_verify public_key request (now / usec_per_sec) = Accepted uin ->
  quote public_key now st uin me checkout d = Ok q ->
  (q_acquire q = "free" -> exists out d', claim session now st uin true me d = (Ok out, d') /\
     po_new_uin out = Some uin /\ is_Some (m_users d' !! uin) /\ m_users d' !! me = None) /\
  (q_acquire q = "resale" ->
     payout_target b64 loads ed25519_verify public_key now st request d = Raise (HTTPException 409 "no_payout") \/
     exists p, payout_target b64 loads ed25519_verify public_key now st request d = Ok p /\
       q_price_cents q = Some (pt_price p) /\ q_seller_uin q = pt_seller p /\ is_Some (pt_listing_id p)) /\
  (q_acquire q = "purchase" ->
     payout_target b64 loads ed25519_verify public_key now st request d = Raise (HTTPException 409 "no_payout") \/
     exists p, payout_target b64 loads ed25519_verify public_key now st request d = Ok p /\
       q_price_cents q = Some (pt_price p) /\ pt_listing_id p = None).
Proof.
  intros Hd Hkeys Hu Hsus Hv. unfold quote. destruct (st_shop st) eqn:Eshop; simpl; [|done].
  destruct (uin_length uin <? MIN_LEN) eqn:E1; [by intros [= <-]|].
  destruct (MAX_LEN <? uin_length uin) eqn:E2; [by intros [= <-]|].
  destruct (Z.eqb_spec uin me) as [|Hne]; [by intros [= <-]|].
  destruct (price_of st uin) as [cents|] eqn:Ep; [|by intros [= <-]].
  unfold payout_target, require_shop_open. rewrite Eshop, Hv, Ep. simpl.
  destruct (m_listings d !! uin) as [l|] eqn:El.
  - destruct (mw_listed d Hd uin l El) as (_ & o & Ho & Hos).
    assert (Htk : taken now d uin false = true).
    { apply not_false_iff_true. intros [_ Hx]%taken_false. congruence. }
    destruct (negb (ul_seller l =? me) && st_resale st) eqn:Eo.
    + apply andb_prop in Eo as [_ ->]. intros [= <-]. simpl. destruct (listing_held now d uin); simpl; [done|].
      split; [done|]. split; [|done]. intros _. case_bool_decide; [by left|right]. eexists. split; [reflexivity|].
      simpl. eauto.
    + rewrite Htk. by intros [= <-].
  - destruct (taken now d uin false) eqn:Et; [by intros [= <-]|].
    pose proof (taken_false _ _ _ _ Et) as [Htu _].
    destruct (is_reserved_uin uin) eqn:Er.
    + intros [= <-]. cbn [q_acquire q_price_cents].
      match goal with |- context [if ?b then "purchase" else _] => destruct b eqn:Es end; [|done]. split; [done|]. split; [done|]. intros _.
      assert (Hl : (uin_length uin <? MIN_SALE_LEN) = false).
      { apply andb_prop in Es as [Es _]. apply andb_prop in Es as [Es _]. by rewrite Z.ltb_antisym, Es. }
      clear Es. rewrite Hl.
      destruct (st_resale st); simpl; (case_bool_decide; [by left|right]; eexists; split; [reflexivity|done]).
    + intros [= <-]. simpl. split; [|done]. intros _.
      unfold claim, checked, require_shop_open. rewrite Eshop, E1, E2, (proj2 (Z.eqb_neq _ _) Hne), Er, Et, Hu, Hsus. simpl.
      unfold take_uin. simpl. pose proof (perform_migration_cases now me uin d) as H.
      destruct (perform_migration now me uin d) as [[n|e] d'].
      * destruct H as (-> & _ & u' & _ & E' & _). eexists _, _. split; [reflexivity|]. split; [done|].
        rewrite E', !moved_users by congruence. rewrite decide_False, decide_True by congruence.
        split; [eauto|]. by rewrite decide_True.
      * exfalso. destruct H as (_ & [[_ H]|[[_ [x H]]|H]]); [congruence..|].
        destruct (rekey_runs me uin (m_rows d) Hkeys) as [E' _]. congruence.
Qed.

End market.

(** ** The shelf *)

Lemma suggest_spec count rand now st me d tries : forall i seen out,
  (forall s, s ∈ out -> sg_uin s <> me /\ is_reserved_uin (sg_uin s) = false /\ taken now d (sg_uin s) false = false /\
     price_of st (sg_uin s) = Some (sg_price s) /\ sg_uin s ∈ seen) ->
  NoDup (map sg_uin out) -> (length out <= count)%nat ->
  let out' := suggest tries i count rand now st me d seen out in
  (forall s, s ∈ out' -> sg_uin s <> me /\ is_reserved_uin (sg_uin s) = false /\ taken now d (sg_uin s) false = false /\
     price_of st (sg_uin s) = Some (sg_price s)) /\
  NoDup (map sg_uin out') /\ (length out' <= count)%nat.
Proof.
  induction tries as [|tries IH]; intros i seen out Hout Hn Hc; simpl.
  { split_and!; [|done|done]. intros s Hs. by destruct (Hout s Hs) as (? & ? & ? & ? & _). }
  destruct (Nat.leb_spec count (length out)) as [|Hlt].
  { split_and!; [|done|done]. intros s Hs. by destruct (Hout s Hs) as (? & ? & ? & ? & _). }
  set (c := rand _ _ + _). destruct (Z.eqb_spec c me) as [|Hme]; simpl; [by apply IH|].
  case_bool_decide as Hseen; [by apply IH|].
  assert (Hout' : forall s, s ∈ out -> sg_uin s <> me /\ is_reserved_uin (sg_uin s) = false /\
            taken now d (sg_uin s) false = false /\ price_of st (sg_uin s) = Some (sg_price s) /\ sg_uin s ∈ c :: seen).
  { intros s Hs. destruct (Hout s Hs) as (? & ? & ? & ? & ?). split_and!; try done. by right. }
  destruct (is_reserved_uin c) eqn:Er; [by apply IH|]. destruct (taken now d c false) eqn:Et; [by apply IH|].
  destruct (price_of st c) as [cents|] eqn:Ep; [|by apply IH]. apply IH.
  - intros s [Hs| ->%list_elem_of_singleton]%elem_of_app; [by apply Hout'|]. simpl. set_solver.
  - rewrite map_app. apply NoDup_snoc; [|done]. simpl. intros (s & E & Hs)%list_elem_of_fmap.
    destruct (Hout s Hs) as (_ & _ & _ & _ & Hin). congruence.
  - rewrite length_app. simpl. lia.
Qed.

(** The shelf shows what can be taken: at most the asked count of distinct
    numbers, none of them reserved, taken, the caller's own or without a price,
    whatever the random draws. *)
Theorem suggestions_are_free now st guest count rand me d out :
  suggestions now st guest count rand me d = Ok out ->
  (forall s, s ∈ out -> sg_uin s <> me /\ is_reserved_uin (sg_uin s) = false /\
     taken now d (sg_uin s) false = false /\ price_of st (sg_uin s) = Some (sg_price s)) /\
  NoDup (map sg_uin out) /\ (length out <= count)%nat.
Proof.
  unfold suggestions, require_shop_open. destruct (st_shop st); simpl; [|done].
  destruct guest; intros [= <-]; [split; [set_solver|split; [constructor|simpl; lia]]|].
  apply suggest_spec; [set_solver|constructor|simpl; lia].
Qed.

(** ** Holds *)

(** A hold that has lapsed blocks the number for the till.  Nothing deletes
    a lapsed row, and a new hold under another id INSERTs beside it: the
    request for a number that is free ends in the unique key of [uin_holds],
    and the number cannot be reserved again until an operator or a sale removes
    the row. *)
Theorem lapsed_hold_blocks_till b64 loads ed public_key now st request d uin hold_id exp h :
  st_shop st = true ->
  verify_hold b64 loads ed public_key request (now / usec_per_sec) = Accepted ("hold", uin, hold_id, exp) ->
  MIN_LEN <= uin_length uin <= MAX_LEN ->
  m_holds d !! uin = Some h -> uh_hold_id h <> hold_id -> uh_expires_at h <= now ->
  taken now d uin false = false ->
  till_hold b64 loads ed public_key now st request d = (Raise (IntegrityError "uin_holds"), d).
Proof.
  intros Hs Hv [Hlo Hhi] Hh Hid _ Ht. unfold till_hold, checked, require_shop_open. rewrite Hs, Hv, Hh. simpl.
  rewrite (proj2 (Z.ltb_ge _ _) Hlo), (proj2 (Z.ltb_ge _ _) Hhi), (proj2 (String.eqb_neq _ _) Hid), Ht.
  simpl. by rewrite andb_false_r.
Qed.

(** An operator's grant does not look at the holds: a number somebody is
    paying for right now is given away, and the voucher that payment buys is
    then refused as "taken". *)
Theorem grant_ignores_hold b64 loads ed public_key session now now' st uin to_uin me d u h voucher nonce switch :
  m_holds d !! uin = Some h -> now < uh_expires_at h ->
  taken now d uin true = false -> is_Some (m_users d !! to_uin) ->
  st_shop st = true -> MIN_LEN <= uin_length uin <= MAX_LEN -> me <> uin ->
  m_users d !! me = Some u -> flag "is_suspended" u = false -> m_listings d !! uin = None ->
  verify b64 loads ed public_key voucher uin (now' / usec_per_sec) = Accepted nonce ->
  exists out d', grant_uin now uin to_uin d = (Ok out, d') /\
    redeem b64 loads ed public_key session now' st uin voucher switch me d' = (Raise taken_409, d').
Proof.
  intros Hh Hlive Hfree Hto Hs [Hlo Hhi] Hme Hu Hsus Hl Hv. pose proof (taken_false _ _ _ _ Hfree) as [Hnu Hno].
  unfold grant_uin. rewrite Hnu, Hno, !bool_decide_eq_false_2 by (by intros []).
  assert (Hi : existsb (fun i => bool_decide (invite_uin i = Some uin) && invite_is_live now i) (m_invites d) = false).
  { revert Hfree. unfold taken, uin_is_taken. simpl. rewrite !bool_decide_eq_false_2 by (by apply not_elem_of_dom). simpl.
    intros H. rewrite existsb_false_elem in H |- *. intros i Hi. specialize (H i Hi). by rewrite andb_true_r in H. }
  rewrite Hi, bool_decide_eq_false_2 by (intros E; destruct Hto; congruence).
  eexists _, _. split; [reflexivity|]. unfold redeem, checked, require_shop_open. simpl.
  rewrite Hs, (proj2 (Z.ltb_ge _ _) Hlo), (proj2 (Z.ltb_ge _ _) Hhi), (proj2 (Z.eqb_neq uin me)) by congruence.
  simpl. rewrite Hu, Hsus, Hl. replace (if st_resale st then None else None : option UinListing) with (@None UinListing)
    by (by destruct (st_resale st)). rewrite Hv.
  assert (Ht : taken now' (set_owned (<[uin := mkOwnedUin to_uin "granted" now]>) d) uin true = true).
  { apply not_false_iff_true. intros [_ H]%taken_false. simpl in H. by rewrite lookup_insert, decide_True in H. }
  by rewrite Ht.
Qed.

(** ** Examples *)

Definition demo_row : row := {[ "created_at" := CInt 5; "nickname" := CStr "ann" ]}.
(** Two accounts; 8 holds 555555 and sells it. *)
Definition demo_offer : UinListing := mkUinListing 8 "offer" 250 [("btc", "addr")] 0.
Definition demo_market : mdb :=
  mkMdb {[ 7230419 := demo_row; 8 := demo_row ]} {[ 555555 := mkOwnedUin 8 "claimed" 0 ]} {[ 555555 := demo_offer ]}
    {[ 8000001 := mkUinHold "old" 0 ]} ∅ [] ∅ ∅.
Definition demo_st : settings := mkSettings true true None (Some "https://till") [("btc", "op")] false.
Definition demo_nonce : string := "0123456789abcdef".
Definition demo_b64 (s : string) : option bytes := Some (utf8 s).
Definition demo_doc (v : list (string * json)) (_ : bytes) : option json :=
  Some (JObj ([("v", JInt 1); ("exp", JInt 500); ("nonce", JStr demo_nonce); ("sig", JStr "")] ++ v) "").
(** A key that verifies one document. *)
Definition demo_ed (doc : till_doc) (_ _ msg : bytes) : bool := bool_decide (msg = signed_doc doc).

Lemma demo_market_wf : market_wf demo_market.
Proof.
  split; simpl.
  - intros n o [<- <-]%lookup_singleton_Some. exists demo_row. vm_compute. reflexivity.
  - intros n o [<- <-]%lookup_singleton_Some [x H]. vm_compute in H. discriminate H.
  - intros n l [<- <-]%lookup_singleton_Some. split; [reflexivity|]. eexists. split; reflexivity.
Qed.

Lemma market_wf_run_witness :
  market_wf (mk_run demo_b64 (demo_doc []) (fun _ _ _ => false) (Some "k") (fun _ => "t")
    [MClaim 1 demo_st 7654329 true 7230419; MGrant 2 4444 7654329; MActivate 3 4444 7654329; MBurn [] 8]
    demo_market) /\
  m_owned (mk_run demo_b64 (demo_doc []) (fun _ _ _ => false) (Some "k") (fun _ => "t")
    [MClaim 1 demo_st 7654329 true 7230419; MGrant 2 4444 7654329; MActivate 3 4444 7654329; MBurn [] 8]
    demo_market) !! 4444 = Some (mkOwnedUin 4444 "granted" 2).
Proof.
  split; [|vm_compute; reflexivity].
  apply (market_wf_run demo_b64 (demo_doc []) (fun _ _ _ => false) (Some "k") (fun _ => "t")). apply demo_market_wf.
Defined.

Definition demo_redeem (d : mdb) : outcome PurchaseOut * mdb :=
  redeem demo_b64 (demo_doc [("uin", JInt 4444)]) (demo_ed (DNumber 4444 demo_nonce 500)) (Some "k") (fun _ => "t")
    0 demo_st 4444 "the voucher" false 7230419 d.

Lemma voucher_redeemed_once_witness :
  exists out d1, demo_redeem demo_market = (Ok out, d1) /\
  forall out' d2,
    demo_redeem (mk_run demo_b64 (demo_doc [("uin", JInt 4444)]) (demo_ed (DNumber 4444 demo_nonce 500)) (Some "k")
                   (fun _ => "t") [MRelease 1 demo_st 4444 7230419] d1) <> (Ok out', d2).
Proof.
  eexists _, _. split; [vm_compute; reflexivity|].
  apply (voucher_redeemed_once demo_b64 (demo_doc [("uin", JInt 4444)]) (demo_ed (DNumber 4444 demo_nonce 500))
           (Some "k") (fun _ => "t") 0 demo_st 4444 "the voucher" false 7230419 demo_market
           (mkPurchaseOut (Some 7230419) None false [4444])).
  vm_compute. reflexivity.
Defined.

Lemma redeem_delivers_witness :
  exists out d', demo_redeem demo_market = (Ok out, d') /\
    exists o, m_owned d' !! 4444 = Some o /\ ou_source o = "purchase" /\ ou_owner o = 7230419.
Proof.
  eexists _, _. split; [vm_compute; reflexivity|].
  refine (proj1 (proj2 (redeem_delivers demo_b64 (demo_doc [("uin", JInt 4444)]) (demo_ed (DNumber 4444 demo_nonce 500))
    (Some "k") (fun _ => "t") (fun doc => doc = DNumber 4444 demo_nonce 500) 0 demo_st 4444 "the voucher" false 7230419
    demo_market (mkPurchaseOut (Some 7230419) None false [4444]) _ _ demo_market_wf _))).
  - intros msg (pub & sig & _ & H). unfold check_sig, demo_b64, demo_ed in H. apply bool_decide_eq_true_1 in H.
    eexists. split; [reflexivity|exact H].
  - vm_compute. reflexivity.
Defined.

Lemma resale_completes_witness :
  exists out d', redeem demo_b64 (demo_doc [("uin", JInt 555555); ("kind", JStr "resale"); ("listing", JStr "offer"); ("price_cents", JInt 250)])
    (demo_ed (DResale 555555 "offer" 250 demo_nonce 500)) (Some "k") (fun _ => "t") 0 demo_st 555555 "the voucher" false 7230419 demo_market
    = (Ok out, d') /\ (exists o, m_owned d' !! 555555 = Some o /\ ou_owner o = 7230419).
Proof.
  destruct (resale_completes demo_b64 (demo_doc [("uin", JInt 555555); ("kind", JStr "resale"); ("listing", JStr "offer"); ("price_cents", JInt 250)])
    (demo_ed (DResale 555555 "offer" 250 demo_nonce 500)) (Some "k") (fun _ => "t") 0 demo_st 555555 "the voucher" 7230419 demo_market
    demo_row demo_offer demo_nonce) as (out & d' & H & Ho & _);
    [exact demo_market_wf|reflexivity|reflexivity|split; vm_compute; discriminate|vm_compute; reflexivity
    |vm_compute; reflexivity|vm_compute; reflexivity|discriminate|discriminate|vm_compute; lia|vm_compute; reflexivity
    |apply not_elem_of_empty|].
  exists out, d'. split; [exact H|exact Ho].
Defined.

Lemma quote_is_honoured_witness :
  exists q, quote (Some "k") 0 demo_st 7654329 7230419 None demo_market = Ok q /\ q_acquire q = "free" /\
    exists out d', claim (fun _ => "t") 0 demo_st 7654329 true 7230419 demo_market = (Ok out, d') /\
      is_Some (m_users d' !! 7654329).
Proof.
  eexists. split; [vm_compute; reflexivity|]. split; [reflexivity|].
  destruct (quote_is_honoured demo_b64 (demo_doc [("uin", JInt 7654329); ("kind", JStr "payout")])
    (demo_ed (DPayout 7654329 500)) (Some "k") (fun _ => "t") 0 demo_st 7654329 7230419 None demo_market demo_row
    (mkQuoteOut 7654329 7 true (Some 499) (Some "$4.99") None "free" None None) "request") as [H _];
    [exact demo_market_wf|intros t k _; unfold rows, demo_market; simpl; rewrite lookup_empty; constructor|vm_compute; reflexivity..|].
  destruct (H eq_refl) as (out & d' & Hc & _ & Hu & _). exists out, d'. split; [exact Hc|exact Hu].
Defined.

Lemma suggestions_are_free_witness :
  exists out, suggestions 0 demo_st false 2 (fun i _ => 234567 + 31 * Z.of_nat i) 7230419 demo_market = Ok out /\
    length out = 2%nat /\ forall s, s ∈ out -> taken 0 demo_market (sg_uin s) false = false.
Proof.
  eexists. split; [vm_compute; reflexivity|]. split; [reflexivity|]. intros s Hs.
  refine (proj1 (proj2 (proj2 (proj1 (suggestions_are_free 0 demo_st false 2 (fun i _ => 234567 + 31 * Z.of_nat i)
    7230419 demo_market _ _) s Hs)))). vm_compute. reflexivity.
Defined.

Lemma lapsed_hold_blocks_till_witness :
  till_hold demo_b64 (demo_doc [("uin", JInt 8000001); ("kind", JStr "hold"); ("hold_id", JStr "new")])
    (demo_ed (DHold "hold" 8000001 "new" 500)) (Some "k") 0 demo_st "request" demo_market
    = (Raise (IntegrityError "uin_holds"), demo_market).
Proof.
  apply (lapsed_hold_blocks_till _ _ _ _ 0 demo_st "request" demo_market 8000001 "new" 500 (mkUinHold "old" 0));
    try reflexivity; try discriminate.
  split; vm_compute; discriminate.
Defined.

Definition demo_held : mdb := set_holds (<[4444 := mkUinHold "sale" 50]>) demo_market.

Lemma grant_ignores_hold_witness :
  exists out d', grant_uin 0 4444 8 demo_held = (Ok out, d') /\ demo_redeem d' = (Raise taken_409, d').
Proof.
  apply (grant_ignores_hold demo_b64 (demo_doc [("uin", JInt 4444)]) (demo_ed (DNumber 4444 demo_nonce 500))
           (Some "k") (fun _ => "t") 0 0 demo_st 4444 8 7230419 demo_held demo_row (mkUinHold "sale" 50) "the voucher"
           demo_nonce false); try reflexivity; try discriminate.
  - exists demo_row. vm_compute. reflexivity.
  - split; vm_compute; discriminate.
Defined.

Lemma migration_collection_witness :
  exists d', perform_migration 5 7230419 7654329 demo_market = (Ok 7654329, d') /\
    m_owned d' !! 7230419 = None /\ is_Some (m_users d' !! 7654329).
Proof.
  destruct (perform_migration 5 7230419 7654329 demo_market) as [o d'] eqn:E.
  assert (Ho : o = Ok 7654329) by (assert (E' := f_equal fst E); vm_compute in E'; symmetry; exact E').
  subst o. destruct (migration_collection 5 7230419 7654329 demo_market d' 7654329 demo_market_wf E)
    as (_ & Hu & _ & _ & _ & Hfree & _).
  exists d'. split; [reflexivity|]. split; [apply Hfree; vm_compute; reflexivity|exact Hu].
Defined.

Lemma migration_carries_person_witness :
  exists d' u', perform_migration 5 7230419 7654329 demo_market = (Ok 7654329, d') /\
    m_users d' !! 7654329 = Some u' /\ u' !! "nickname" = Some (CStr "ann") /\
    u' !! "identity_created_at" = Some (CInt 5).
Proof.
  destruct (perform_migration 5 7230419 7654329 demo_market) as [o d'] eqn:E.
  assert (Ho : o = Ok 7654329) by (assert (E' := f_equal fst E); vm_compute in E'; symmetry; exact E').
  subst o. destruct (migration_carries_person 5 7230419 7654329 demo_market d' 7654329 E)
    as (u & u' & Hu & Hu' & Hc & Hi & _).
  assert (Hrow : m_users demo_market !! 7230419 = Some demo_row) by (vm_compute; reflexivity).
  assert (u = demo_row) as -> by congruence. exists d', u'. split; [reflexivity|]. split; [exact Hu'|].
  split; [rewrite Hc; [vm_compute; reflexivity|by_decision]|rewrite Hi; vm_compute; reflexivity].
Defined.
