(* ===== verification/Rooms.v ===== *)
(** * Rooms

    Models [src/app/routers/groups.py]: creating, describing, finding, joining,
    moderating, handing over and deleting a room, with what it uses of
    [src/app/services/guest_accounts.py] (the limits on guests) and of
    [src/app/models/user.py] and [contact.py].

    A handler takes the committed tables and gives back what it committed; on a
    refusal nothing was.  The requests that commit twice or check before a
    conditional write are cut at those points ([remove_member],
    [transfer_owner], [patch_group_state]), so that [RoomRaces] can interleave
    them.  A row list is in the order of its ids. *)

From stdpp Require Import base list sorting gmap strings pretty.
From Stdlib Require Import ZArith Lia Ascii.
From S2P Require Import Prelude Text Storage Redis RateLimit GuestPolicy GroupLogStore Gates Bytes KeyStorage.

(** ** The tables *)

(** [contacts] is keyed by its unique pair (owner, contact) and holds
    [blocked]. *)
Record rdb := mkRdb { rk : kdb; contacts : gmap (Z * Z) bool; next_group_id : Z }.

Definition rcore (d : rdb) : db := core (rk d).
Definition on_core (f : db -> db) (d : rdb) : rdb :=
  mkRdb (set_core (f (rcore d)) (rk d)) (contacts d) (next_group_id d).

(** What a handler is told by its surroundings: the clock, who has a socket,
    which Redis calls go through, the island's settings, the database. *)
Record renv := mkRenv {
  e_now : Z;
  e_online : Z -> bool;
  e_scratch : string;
  e_day : string;
  e_up_guest : bool;
  e_up_stat : bool;
  e_up_limit : bool;
  e_require_closed_token : bool;     (* _REQUIRE_CLOSED_GROUP_TOKEN *)
  e_require_room_token : bool;       (* _REQUIRE_ROOM_LINK_TOKEN *)
  e_presence_limit : nat;            (* PRESENCE_ROSTER_LIMIT *)
  e_member_ceiling : Z;              (* guest_room_member_ceiling *)
  e_max_groups : Z;                  (* guest_max_groups *)
  e_joins_per_day : Z;               (* guest_room_joins_per_day *)
  e_postgres : bool
}.

(** ** What the endpoints answer *)

Record GroupMemberOut := mkGroupMemberOut {
  mo_uin : Z;
  mo_nickname : string;
  mo_badge : option string;
  mo_role : string;
  mo_permissions : list string;
  mo_status : string;
  mo_avatar_media_id : option string;
  mo_avatar_media_key : option string;
  mo_identity_key : string;
  mo_signing_key : option string;
  mo_signal_identity_key : option string;
  mo_sender_keys : bool;
  mo_guest : bool;
  mo_invited : bool;
  mo_profile_openable : option bool
}.

(** The columns of the row ([go_room]), the fields computed from it, and the
    roster. *)
Record GroupOut := mkGroupOut {
  go_id : Z;
  go_room : Group;
  go_state_blob : option string;
  go_allow_guests : bool;
  go_member_count : Z;
  go_members : list GroupMemberOut
}.

Record GroupPreviewOut := mkGroupPreviewOut {
  gp_id : Z;
  gp_name : string;
  gp_badge : option string;
  gp_description : option string;
  gp_member_count : Z;
  gp_is_closed : bool;
  gp_owner_uin : Z;
  gp_owner_nickname : option string;
  gp_avatar_media_id : option string;
  gp_avatar_media_key : option string
}.

Inductive revent :=
  (* manager.send *)
  | GroupCreated (to : Z) (g : GroupOut)
  | GroupDeleted (to gid : Z) (reason : option string)
  (* manager.fanout of group_membership_changed, with the snapshot or without *)
  | Snapshot (to : list Z) (g : GroupOut)
  | Compact (to : list Z) (gid owner : Z).

(** ** Permissions *)

Definition GROUP_PERMS : list string := ["delete"; "members"; "info"].

(** [s.split(",")] *)
Fixpoint split_comma (s : string) : list string :=
  match s with
  | EmptyString => [""%string]
  | String c s' =>
      if Ascii.eqb c "," then ""%string :: split_comma s'
      else match split_comma s' with
           | w :: l => String c w :: l
           | [] => [String c ""]
           end
  end.

(** [",".join(l)] *)
Fixpoint join_comma (l : list string) : string :=
  match l with
  | [] => ""
  | [w] => w
  | w :: l' => (w ++ String "," (join_comma l'))%string
  end.

Definition perm_list (raw : string) : list string :=
  filter (fun p => p ∈ GROUP_PERMS) (split_comma raw).

Definition member_can (g : Group) (m : GroupMember) (perm : string) : bool :=
  (gm_uin m =? owner_uin g) || bool_decide (perm ∈ perm_list (gm_permissions m)).

(** ** Links *)

Definition truthy (k : option string) : option string :=
  match k with Some s => if String.eqb s "" then None else k | None => None end.

(** [_key_matches]: the first 64 characters of what was presented. *)
Definition key_matches (g : Group) (k : option string) : bool :=
  match truthy (share_token (info g)), truthy k with
  | Some t, Some k => String.eqb (String.substring 0 64 k) t
  | _, _ => false
  end.

Definition room_link_refusal (e : renv) (g : Group) (k : option string) : option string :=
  match truthy k with
  | Some _ => Some "room_link_badkey"%string
  | None => if e_require_room_token e || bool_decide (is_Some (link_reset_at (info g)))
            then Some "room_link_keyless_refused"%string else None
  end.

Definition link_entitled (d : rdb) (gid : Z) (g : Group) (viewer : option Z) (k : option string) : bool :=
  if in_catalog (info g) && negb (is_closed (info g)) then true
  else match viewer with
  | Some u =>
      if u =? owner_uin g then true
      else if bool_decide (is_Some (member_row (rcore d) gid u)) then true
      else key_matches g k
  | None => key_matches g k
  end.

(** ** Lookups *)

Definition load_group (d : rdb) (gid : Z) : outcome Group :=
  match groups (rcore d) !! gid with
  | None => Raise (HTTPException 404 "no such group")
  | Some g => Ok g
  end.

Definition ensure_member (d : rdb) (gid uin : Z) : outcome GroupMember :=
  match member_row (rcore d) gid uin with
  | None => Raise (HTTPException 403 "not a group member")
  | Some m => Ok m
  end.

(** Midnight of the day of an instant. *)
Definition day_floor (now : Z) : Z := now / days 1 * days 1.

Definition armed_join_stamp (now : Z) (g : Group) : option Z :=
  if min_account_age_hours g <=? 0 then None else Some (day_floor now).

(** The membership rows of a room whose account exists, in the order of their
    ids: [GroupMember JOIN User]. *)
Definition room_rows (d : rdb) (gid : Z) : list (GroupMember * User) :=
  omap (fun m => if gm_group_id m =? gid
                 then match users (rcore d) !! gm_uin m with Some u => Some (m, u) | None => None end
                 else None) (group_members (rcore d)).

(** All membership rows of a room. *)
Definition rows_of_room (d : rdb) (gid : Z) : list GroupMember :=
  filter (fun m => gm_group_id m = gid) (group_members (rcore d)).

Definition no_keys : UserKeys := mkUserKeys "" None None None None None None None.

(** ** The roster *)

(** [card_openable_fields] *)
Definition card_openable_fields (uin : Z) (policy : string) (viewer : option Z) (is_contact : bool) : bool :=
  if bool_decide (viewer = Some uin) then true
  else
    let policy := if String.eqb policy "" then "everyone"%string else policy in
    if String.eqb policy "everyone" then true
    else if String.eqb policy "contacts" then bool_decide (is_Some viewer) && is_contact
    else false.

Definition member_out (e : renv) (d : rdb) (viewer : option Z) (online : bool) (m : GroupMember) (u : User)
    : GroupMemberOut :=
  let uin := gm_uin m in
  let p := profile u in
  let keys := default no_keys (user_keys (rk d) !! uin) in
  let me := bool_decide (viewer = Some uin) in
  let raw := if me || online then status p else "offline"%string in
  let visible := if me then raw else if String.eqb raw "invisible" then "offline"%string else raw in
  mkGroupMemberOut uin (nickname p) (if badge_hidden p && negb me then None else badge p)
    (gm_role m) (perm_list (gm_permissions m)) visible
    (avatar_media_id p) (avatar_media_key p)
    (identity_key keys) (signing_key keys) (signal_identity_key keys)
    (default false (user_capabilities (rcore d) !! uin))
    (bool_decide (is_Some (guest_status u))) (bool_decide (guest_status u = Some STATUS_ADDED))
    (match viewer with
     | None => None
     | Some v => Some (card_openable_fields uin (profile_card_policy p) viewer
                         (bool_decide (is_Some (contacts d !! (v, uin)))))
     end).

Definition members_with_users (e : renv) (d : rdb) (gid : Z) (viewer : option Z) : list GroupMemberOut :=
  let rows := room_rows d gid in
  let small := (length rows <=? e_presence_limit e)%nat in
  map (fun '(m, u) => member_out e d viewer (small && e_online e (gm_uin m)) m u) rows.

Definition serialize (gid : Z) (g : Group) (members : list GroupMemberOut) (count : option Z) : GroupOut :=
  mkGroupOut gid g
    (match state_blob (info g) with
     | Some b => if bool_decide (b = []) then None else Some (b64encode b)
     | None => None
     end)
    (bool_decide (allow_guests (info g) <> Some false))
    (default (Z.of_nat (length members)) count) members.

(** The payload every mutation ends with. *)
Definition room_payload (e : renv) (d : rdb) (gid : Z) (g : Group) : GroupOut :=
  serialize gid g (members_with_users e d gid None) None.

Definition SNAPSHOT_BROADCAST_LIMIT : nat := 100.
Definition ROSTER_BYTES_PER_MEMBER : Z := 350.
Definition REKEY_SNAPSHOT_BUDGET_BYTES : Z := 4 * 1024 * 1024.

Definition broadcast_membership (gid : Z) (members : list GroupMemberOut) (payload : GroupOut)
    (extra : list Z) : list revent :=
  let uins := map mo_uin members ++ extra in
  if (length members <=? SNAPSHOT_BROADCAST_LIMIT)%nat then [Snapshot uins payload]
  else [Compact uins gid (owner_uin (go_room payload))].

(** Commit, then build the payload from what was committed and tell the room. *)
Definition announce (e : renv) (d : rdb) (gid : Z) (g : Group) (extra : list Z)
    : GroupOut * rdb * list revent :=
  let payload := room_payload e d gid g in
  (payload, d, broadcast_membership gid (go_members payload) payload extra).

(** ** Blocks and invitations *)

Definition is_blocked_by (d : rdb) (owner u : Z) : bool :=
  bool_decide (contacts d !! (owner, u) = Some true).

Definition filter_blocked (d : rdb) (owner : Z) (candidates : list Z) : list Z :=
  filter (fun u => is_blocked_by d owner u = true) candidates.

(** [(policy or "everyone").lower()] *)
Definition invite_policy (u : User) : string :=
  let p := group_invite_policy (profile u) in
  lower (if String.eqb p "" then "everyone"%string else p).

Definition can_invite_to_group (d : rdb) (inviter invitee : Z) (u : User) : bool :=
  if inviter =? invitee then true
  else if String.eqb (invite_policy u) "everyone" then true
  else if String.eqb (invite_policy u) "nobody" then false
  else bool_decide (contacts d !! (invitee, inviter) = Some false).

(** ** Membership rows *)

Definition has_member (d : db) (gid uin : Z) : bool := bool_decide (is_Some (member_row d gid uin)).

(** [db.add(GroupMember(...)); flush; seed_cursors_on_join]; the table's unique
    key is (group_id, uin). *)
Definition enter_room (now gid uin : Z) (role : string) (stamp : option Z) (d : db) : outcome db :=
  if has_member d gid uin then Raise (IntegrityError "group_members")
  else Ok (seed_cursors_on_join now gid uin
             (set_group_members (fun l => l ++ [mkGroupMember gid uin role "" stamp]) d)).

Definition set_room (gid : Z) (f : Group -> Group) (d : rdb) : rdb :=
  on_core (set_groups (alter f gid)) d.

(** Rows of a room that nothing points at any more. *)
Definition drop_log (gid : Z) (d : db) : db :=
  set_group_seq (delete gid)
    (set_group_log_cursors (filter (fun kv => kv.1.1.1 <> gid))
       (set_group_log (filter (fun r => gl_group_id r <> gid)) d)).

Definition drop_members (gid : Z) (d : db) : db :=
  set_group_members (filter (fun m => gm_group_id m <> gid)) d.

(** [db.delete(g)]: the foreign key of [group_members] cascades where it is
    enforced, which SQLite does not do unless told to. *)
Definition delete_row (e : renv) (gid : Z) (d : db) : db :=
  let d := set_groups (delete gid) d in
  if e_postgres e then drop_members gid d else d.

(** ** [create_group] *)

Record CreateGroupIn := mkCreateGroupIn { cg_name : string; cg_member_uins : list Z }.

(** The id of a new room: a sequence on Postgres; on SQLite one above the
    greatest in the table. *)
Definition fresh_group_id (e : renv) (d : rdb) : Z :=
  if e_postgres e then next_group_id d
  else 1 + max_default 0 (elements (dom (groups (rcore d)))).

Fixpoint seat_members (now gid owner : Z) (uins : list Z) (d : db) : outcome db :=
  match uins with
  | [] => Ok d
  | u :: uins' =>
      if has_member d gid u then Raise (IntegrityError "group_members")
      else seat_members now gid owner uins'
             (set_group_members (fun l =>
                l ++ [mkGroupMember gid u (if u =? owner then "owner" else "member") "" None]) d)
  end.

Section create.
(** The order in which Python walks a set of numbers. *)
Context (set_order : gset Z -> list Z).

Definition create_group (e : renv) (seed : Z) (token : string) (body : CreateGroupIn) (uin : Z) (d : rdb)
    : outcome (GroupOut * rdb * list revent) :=
  let member_set : gset Z := {[uin]} ∪ list_to_set (cg_member_uins body) in
  let uins := set_order member_set in
  let others := filter (fun u => u <> uin) uins in
  if negb (forallb (fun u => bool_decide (is_Some (users (rcore d) !! u))) uins)
  then Raise (HTTPException 400 "unknown user in member list")
  else if negb (bool_decide (filter_blocked d uin others = []))
  then Raise (HTTPException 400 "cannot include blocked users")
  else if negb (forallb (fun u => match users (rcore d) !! u with
                                  | Some v => can_invite_to_group d uin u v
                                  | None => true
                                  end) others)
  then Raise (HTTPException 403 "these users don't accept group invites from you")
  else
    let gid := fresh_group_id e d in
    let g := mkGroup uin "all" 0 0 (plain_info (cg_name body) seed (Some token) (e_now e)) in
    let! c := seat_members (e_now e) gid uin uins (set_groups (insert gid g) (rcore d)) in
    let c := foldl (fun c u => seed_cursors_on_join (e_now e) gid u c) c uins in
    let d' := mkRdb (set_core c (rk d)) (contacts d) (Z.max (next_group_id d) (gid + 1)) in
    let payload := room_payload e d' gid g in
    Ok (payload, d', map (fun m => GroupCreated (mo_uin m) payload) (go_members payload)).
End create.

(** ** Reading *)

(** The caller's rooms, newest first. *)
Definition my_rooms (d : rdb) (uin : Z) : list (Z * Group) :=
  sort_by (fun '(_, g) => - g_created_at (info g))
    (omap (fun m => if gm_uin m =? uin
                    then match groups (rcore d) !! gm_group_id m with
                         | Some g => Some (gm_group_id m, g)
                         | None => None
                         end
                    else None) (group_members (rcore d))).

Definition list_groups (e : renv) (uin : Z) (members : bool) (d : rdb) : list GroupOut :=
  map (fun '(gid, g) =>
         if members then serialize gid g (members_with_users e d gid (Some uin)) None
         else serialize gid g [] (Some (Z.of_nat (length (rows_of_room d gid)))))
      (my_rooms d uin).

Definition get_group (e : renv) (gid uin : Z) (d : rdb) : outcome GroupOut :=
  let! _ := ensure_member d gid uin in
  let! g := load_group d gid in
  Ok (serialize gid g (members_with_users e d gid (Some uin)) None).

(** [broadcast_roster_rekey]: what one migration may publish in snapshots is
    bounded; the rest of the rooms get the compact form. *)
Definition rekey_room (e : renv) (d : rdb) (acc : Z * list Z * list revent) (gid : Z) : Z * list Z * list revent :=
  let '(spent, notified, evs) := acc in
  match groups (rcore d) !! gid with
  | None => acc
  | Some g =>
      if (length (rows_of_room d gid) <=? SNAPSHOT_BROADCAST_LIMIT)%nat
         && (spent <? REKEY_SNAPSHOT_BUDGET_BYTES)
      then
        let payload := room_payload e d gid g in
        let members := go_members payload in
        let online := length (filter (fun u => e_online e u = true) (map mo_uin members)) in
        (spent + ROSTER_BYTES_PER_MEMBER * Z.of_nat (length members) * Z.max (Z.of_nat online) 1,
         notified ++ [gid], evs ++ broadcast_membership gid members payload [])
      else
        (spent, notified ++ [gid],
         evs ++ [Compact (map gm_uin (rows_of_room d gid)) gid (owner_uin g)])
  end.

Definition broadcast_roster_rekey (e : renv) (uin : Z) (d : rdb) : list Z * list revent :=
  let gids := map gm_group_id (filter (fun m => gm_uin m = uin) (group_members (rcore d))) in
  let '(_, notified, evs) := foldl (rekey_room e d) (0, [], []) gids in (notified, evs).

(** ** Moderation *)

Definition remove_check (gid member_uin uin : Z) (d : rdb) : outcome Group :=
  let! me := ensure_member d gid uin in
  let! g := load_group d gid in
  if negb (member_uin =? uin) && negb (member_can g me "members")
  then Raise (HTTPException 403 "moderator permission required")
  else if (member_uin =? owner_uin g) && negb (member_uin =? uin)
  then Raise (HTTPException 400 "cannot remove the owner")
  else match member_row (rcore d) gid member_uin with
  | None => Raise (HTTPException 404 "not in group")
  | Some _ => Ok g
  end.

(** The first commit of [remove_member]: the membership, what is still queued
    for it, its rows in the log and its cursors. *)
Definition remove_rows (gid member_uin : Z) (d : rdb) : rdb :=
  on_core (fun c =>
    set_group_log_cursors (filter (fun kv => ~ (kv.1.1.1 = gid /\ kv.1.1.2 = member_uin)))
      (set_group_log (filter (fun r => ~ (gl_group_id r = gid /\ gl_to_uin r = Some member_uin)))
        (set_offline_group_messages (filter (fun r => ~ (og_group_id r = gid /\ og_to_uin r = member_uin)))
          (set_group_members (filter (fun m => ~ (gm_group_id m = gid /\ gm_uin m = member_uin))) c)))) d.

(** The heir of a room: the oldest resident who is not suspended, or the oldest
    resident. *)
Definition eligible (d : rdb) (gid : Z) : list (GroupMember * User) :=
  filter (fun mu => guest_status mu.2 = None) (room_rows d gid).

Definition next_owner (d : rdb) (gid : Z) : option Z :=
  match find_first (fun mu => negb (is_suspended mu.2)) (eligible d gid) with
  | Some (m, _) => Some (gm_uin m)
  | None => option_map (fun mu => gm_uin mu.1) (head (eligible d gid))
  end.

(** One owner: the row of [uin] gets the role, every other row that has it
    loses it, and neither keeps explicit permissions. *)
Definition crown_row (gid uin : Z) (m : GroupMember) : GroupMember :=
  if gm_group_id m =? gid then
    if gm_uin m =? uin then mkGroupMember gid (gm_uin m) "owner" "" (gm_joined_at m)
    else if String.eqb (gm_role m) "owner" then mkGroupMember gid (gm_uin m) "member" "" (gm_joined_at m)
    else m
  else m.

Definition set_owner (uin : Z) (g : Group) : Group :=
  mkGroup uin (post_policy g) (slowmode_sec g) (min_account_age_hours g) (info g).

Definition crown (gid uin : Z) (d : rdb) : rdb :=
  on_core (fun c => set_group_members (map (crown_row gid uin)) (set_groups (alter (set_owner uin) gid) c)) d.

(** The second commit, when the owner left: the heir is crowned, or the room
    goes with everything in it.  The members told of the deletion come second. *)
Definition succeed (gid : Z) (d : rdb) : rdb * option (list Z) :=
  match next_owner d gid with
  | Some u => (crown gid u d, None)
  | None =>
      (on_core (fun c => drop_members gid (set_groups (delete gid) (drop_log gid c))) d,
       Some (map gm_uin (rows_of_room d gid)))
  end.

Inductive RemoveOut := RoomDeleted | MemberLeft (left_uin : Z).

Definition remove_member (e : renv) (gid member_uin uin : Z) (d : rdb) : outcome (RemoveOut * rdb * list revent) :=
  let! g := remove_check gid member_uin uin d in
  let d := remove_rows gid member_uin d in
  let '(d, gone) := if member_uin =? owner_uin g then succeed gid d else (d, None) in
  match gone with
  | Some remaining =>
      Ok (RoomDeleted, d, map (fun u => GroupDeleted u gid (Some "no_resident"%string)) remaining)
  | None =>
      let g := default g (groups (rcore d) !! gid) in
      let '(_, d, evs) := announce e d gid g [member_uin] in
      Ok (MemberLeft member_uin, d, evs)
  end.

(** ** Settings of a room *)

Definition on_info (f : RoomInfo -> RoomInfo) (g : Group) : Group :=
  mkGroup (owner_uin g) (post_policy g) (slowmode_sec g) (min_account_age_hours g) (f (info g)).

Definition set_name (v : string) := on_info (fun i =>
  mkRoomInfo v (description i) (avatar_seed i) (g_avatar_media_id i) (g_avatar_media_key i) (is_closed i)
    (allow_guests i) (members_hidden i) (links_allowed i) (files_allowed i) (in_catalog i) (g_badge i)
    (state_blob i) (state_ver i) (pinned_text i) (pinned_at i) (share_token i) (link_reset_at i) (g_created_at i)).
Definition set_description (v : option string) := on_info (fun i =>
  mkRoomInfo (name i) v (avatar_seed i) (g_avatar_media_id i) (g_avatar_media_key i) (is_closed i)
    (allow_guests i) (members_hidden i) (links_allowed i) (files_allowed i) (in_catalog i) (g_badge i)
    (state_blob i) (state_ver i) (pinned_text i) (pinned_at i) (share_token i) (link_reset_at i) (g_created_at i)).
Definition set_avatar (v k : option string) := on_info (fun i =>
  mkRoomInfo (name i) (description i) (avatar_seed i) v k (is_closed i)
    (allow_guests i) (members_hidden i) (links_allowed i) (files_allowed i) (in_catalog i) (g_badge i)
    (state_blob i) (state_ver i) (pinned_text i) (pinned_at i) (share_token i) (link_reset_at i) (g_created_at i)).
Definition set_is_closed (v : bool) := on_info (fun i =>
  mkRoomInfo (name i) (description i) (avatar_seed i) (g_avatar_media_id i) (g_avatar_media_key i) v
    (allow_guests i) (members_hidden i) (links_allowed i) (files_allowed i) (in_catalog i) (g_badge i)
    (state_blob i) (state_ver i) (pinned_text i) (pinned_at i) (share_token i) (link_reset_at i) (g_created_at i)).
Definition set_allow_guests (v : bool) := on_info (fun i =>
  mkRoomInfo (name i) (description i) (avatar_seed i) (g_avatar_media_id i) (g_avatar_media_key i) (is_closed i)
    (Some v) (members_hidden i) (links_allowed i) (files_allowed i) (in_catalog i) (g_badge i)
    (state_blob i) (state_ver i) (pinned_text i) (pinned_at i) (share_token i) (link_reset_at i) (g_created_at i)).
Definition set_members_hidden (v : bool) := on_info (fun i =>
  mkRoomInfo (name i) (description i) (avatar_seed i) (g_avatar_media_id i) (g_avatar_media_key i) (is_closed i)
    (allow_guests i) v (links_allowed i) (files_allowed i) (in_catalog i) (g_badge i)
    (state_blob i) (state_ver i) (pinned_text i) (pinned_at i) (share_token i) (link_reset_at i) (g_created_at i)).
Definition set_links_allowed (v : bool) := on_info (fun i =>
  mkRoomInfo (name i) (description i) (avatar_seed i) (g_avatar_media_id i) (g_avatar_media_key i) (is_closed i)
    (allow_guests i) (members_hidden i) v (files_allowed i) (in_catalog i) (g_badge i)
    (state_blob i) (state_ver i) (pinned_text i) (pinned_at i) (share_token i) (link_reset_at i) (g_created_at i)).
Definition set_files_allowed (v : bool) := on_info (fun i =>
  mkRoomInfo (name i) (description i) (avatar_seed i) (g_avatar_media_id i) (g_avatar_media_key i) (is_closed i)
    (allow_guests i) (members_hidden i) (links_allowed i) v (in_catalog i) (g_badge i)
    (state_blob i) (state_ver i) (pinned_text i) (pinned_at i) (share_token i) (link_reset_at i) (g_created_at i)).
Definition set_in_catalog (v : bool) := on_info (fun i =>
  mkRoomInfo (name i) (description i) (avatar_seed i) (g_avatar_media_id i) (g_avatar_media_key i) (is_closed i)
    (allow_guests i) (members_hidden i) (links_allowed i) (files_allowed i) v (g_badge i)
    (state_blob i) (state_ver i) (pinned_text i) (pinned_at i) (share_token i) (link_reset_at i) (g_created_at i)).
Definition set_state (b : bytes) (v : Z) := on_info (fun i =>
  mkRoomInfo (name i) (description i) (avatar_seed i) (g_avatar_media_id i) (g_avatar_media_key i) (is_closed i)
    (allow_guests i) (members_hidden i) (links_allowed i) (files_allowed i) (in_catalog i) (g_badge i)
    (Some b) v (pinned_text i) (pinned_at i) (share_token i) (link_reset_at i) (g_created_at i)).
Definition set_pin (v : option string) (at_ : option Z) := on_info (fun i =>
  mkRoomInfo (name i) (description i) (avatar_seed i) (g_avatar_media_id i) (g_avatar_media_key i) (is_closed i)
    (allow_guests i) (members_hidden i) (links_allowed i) (files_allowed i) (in_catalog i) (g_badge i)
    (state_blob i) (state_ver i) v at_ (share_token i) (link_reset_at i) (g_created_at i)).
Definition set_link (token : string) (day : Z) := on_info (fun i =>
  mkRoomInfo (name i) (description i) (avatar_seed i) (g_avatar_media_id i) (g_avatar_media_key i) (is_closed i)
    (allow_guests i) (members_hidden i) (links_allowed i) (files_allowed i) (in_catalog i) (g_badge i)
    (state_blob i) (state_ver i) (pinned_text i) (pinned_at i) (Some token) (Some day) (g_created_at i)).
Definition set_post_policy (v : string) (g : Group) : Group :=
  mkGroup (owner_uin g) v (slowmode_sec g) (min_account_age_hours g) (info g).
Definition set_slowmode (v : Z) (g : Group) : Group :=
  mkGroup (owner_uin g) (post_policy g) v (min_account_age_hours g) (info g).
Definition set_min_age (v : Z) (g : Group) : Group :=
  mkGroup (owner_uin g) (post_policy g) (slowmode_sec g) v (info g).

Definition SLOWMODE_STEPS : list Z := [0; 5; 10; 30; 60; 300; 3600].
Definition AGE_GATE_STEPS : list Z := [0; 1; 6; 24; 72; 168; 720].

Record GroupPatchIn := mkGroupPatchIn {
  p_name : option string;
  p_description : option string;
  p_post_policy : option string;
  p_is_closed : option bool;
  p_allow_guests : option bool;
  p_members_hidden : option bool;
  p_links_allowed : option bool;
  p_files_allowed : option bool;
  p_slowmode_sec : option Z;
  p_in_catalog : option bool;
  p_min_account_age_hours : option Z;
  p_pinned_text : option string;
  p_avatar_media_id : option string;
  p_avatar_media_key : option string
}.

Definition opt_ok {A} (p : A -> bool) (v : option A) : bool := match v with Some a => p a | None => true end.
Definition len_within (lo hi : nat) (s : string) : bool :=
  (lo <=? String.length s)%nat && (String.length s <=? hi)%nat.

(** The field validators of the request. *)
Definition patch_valid (b : GroupPatchIn) : bool :=
  opt_ok (len_within 1 64) (p_name b) && opt_ok (len_within 0 500) (p_description b) &&
  opt_ok (fun s => String.eqb s "all" || String.eqb s "owner_only") (p_post_policy b) &&
  opt_ok (fun n => bool_decide (n ∈ SLOWMODE_STEPS)) (p_slowmode_sec b) &&
  opt_ok (fun n => bool_decide (n ∈ AGE_GATE_STEPS)) (p_min_account_age_hours b) &&
  opt_ok (len_within 0 4096) (p_pinned_text b) &&
  opt_ok (len_within 0 64) (p_avatar_media_id b) && opt_ok (len_within 0 96) (p_avatar_media_key b).

(** [s.strip() or None] *)
Definition nonblank_text (s : string) : option string := truthy (Some (strip s)).

(** One [if body.field is not None] of the handler. *)
Definition patch_field {A} (v : option A) (allowed : bool) (msg : string) (f : A -> Group -> Group) (g : Group)
    : outcome Group :=
  match v with
  | None => Ok g
  | Some a => if allowed then Ok (f a g) else Raise (HTTPException 403 msg)
  end.

Definition patch_avatar (b : GroupPatchIn) (can_info : bool) (g : Group) : outcome Group :=
  match p_avatar_media_id b, p_avatar_media_key b with
  | None, None => Ok g
  | i, k =>
      if negb can_info then Raise (HTTPException 403 "moderator permission required")
      else
        let new_id := nonblank_text (default ""%string i) in
        let new_key := nonblank_text (default ""%string k) in
        if xorb (bool_decide (new_id = None)) (bool_decide (new_key = None))
        then Raise (HTTPException 400 "avatar_media_id and avatar_media_key must be set together")
        else Ok (set_avatar new_id new_key g)
  end.

Definition patched (now : Z) (b : GroupPatchIn) (can_info is_owner : bool) (g : Group) : outcome Group :=
  let mods {A} (v : option A) f g := patch_field v can_info "moderator permission required" f g in
  let own {A} (v : option A) f g := patch_field v is_owner "owner only" f g in
  let! g := mods (p_name b) set_name g in
  let! g := mods (p_description b) (fun s => set_description (nonblank_text s)) g in
  let! g := mods (p_in_catalog b) set_in_catalog g in
  let! g := own (p_post_policy b) set_post_policy g in
  let! g := own (p_is_closed b) set_is_closed g in
  let! g := own (p_allow_guests b) set_allow_guests g in
  let! g := own (p_members_hidden b) set_members_hidden g in
  let! g := own (p_links_allowed b) set_links_allowed g in
  let! g := own (p_files_allowed b) set_files_allowed g in
  let! g := own (p_min_account_age_hours b) set_min_age g in
  let! g := own (p_slowmode_sec b) set_slowmode g in
  let! g := mods (p_pinned_text b) (fun s => match nonblank_text s with
                                             | Some t => set_pin (Some t) (Some now)
                                             | None => set_pin None None
                                             end) g in
  patch_avatar b can_info g.

Definition patch_group (e : renv) (gid : Z) (b : GroupPatchIn) (uin : Z) (d : rdb)
    : outcome (GroupOut * rdb * list revent) :=
  if negb (patch_valid b) then Raise (HTTPException 422 "validation")
  else
    let! me := ensure_member d gid uin in
    let! g := load_group d gid in
    let! g' := patched (e_now e) b (member_can g me "info") (owner_uin g =? uin) g in
    Ok (announce e (set_room gid (fun _ => g') d) gid g' []).

Definition reset_share_token (e : renv) (token : string) (gid uin : Z) (d : rdb)
    : outcome (GroupOut * rdb * list revent) :=
  let! me := ensure_member d gid uin in
  let! g := load_group d gid in
  if negb (member_can g me "members") then Raise (HTTPException 403 "moderator permission required")
  else
    let g' := set_link token (day_floor (e_now e)) g in
    Ok (announce e (set_room gid (fun _ => g') d) gid g' []).

(** ** The sealed identity of a room *)

Definition STATE_BLOB_CAP : nat := 64 * 1024.

Record GroupStateIn := mkGroupStateIn { gs_blob : string; gs_ver : Z }.

(** Everything [patch_group_state] reads before it writes. *)
Definition state_check (gid : Z) (body : GroupStateIn) (uin : Z) (d : rdb) : outcome bytes :=
  if String.eqb (gs_blob body) "" || (gs_ver body <? 1)
  then Raise (HTTPException 422 "validation")
  else
  let! me := ensure_member d gid uin in
  let! g := load_group d gid in
  if negb (member_can g me "info") then Raise (HTTPException 403 "moderator permission required")
  else match b64decode_strict (gs_blob body) with
  | None => Raise (HTTPException 400 "state_blob is not base64")
  | Some blob =>
      if bool_decide (blob = []) || (STATE_BLOB_CAP <? length blob)%nat
      then Raise (HTTPException 400 "state_blob size out of bounds")
      else if negb (gs_ver body =? state_ver (info g) + 1)
      then Raise (HTTPExceptionN 409 "stale state_ver" (state_ver (info g)))
      else Ok blob
  end.

Definition state_write (gid : Z) (blob : bytes) (ver : Z) (d : rdb) : rdb := set_room gid (set_state blob ver) d.

Definition patch_group_state (e : renv) (gid : Z) (body : GroupStateIn) (uin : Z) (d : rdb)
    : outcome (GroupOut * rdb * list revent) :=
  let! blob := state_check gid body uin d in
  let d := state_write gid blob (gs_ver body) d in
  let! g := load_group d gid in
  let payload := serialize gid g (members_with_users e d gid (Some uin)) None in
  Ok (payload, d, broadcast_membership gid (go_members payload) payload []).

(** ** Rights and ownership *)

Definition set_perms (gid uin : Z) (perms : string) (m : GroupMember) : GroupMember :=
  if (gm_group_id m =? gid) && (gm_uin m =? uin)
  then mkGroupMember gid uin (gm_role m) perms (gm_joined_at m) else m.

Definition canonical (perms : list string) : string :=
  join_comma (filter (fun p => p ∈ perms) GROUP_PERMS).

Definition set_member_permissions (e : renv) (gid member_uin : Z) (perms : list string) (uin : Z) (d : rdb)
    : outcome (GroupOut * rdb * list revent) :=
  let! g := load_group d gid in
  if negb (owner_uin g =? uin) then Raise (HTTPException 403 "owner only")
  else if negb (forallb (fun p => bool_decide (p ∈ GROUP_PERMS)) perms)
  then Raise (HTTPException 400 "unknown permissions")
  else if member_uin =? owner_uin g then Raise (HTTPException 400 "the owner already has every permission")
  else
    let! _ := ensure_member d gid member_uin in
    Ok (announce e (on_core (set_group_members (map (set_perms gid member_uin (canonical perms)))) d) gid g []).

(** What [transfer_owner] reads before its conditional UPDATE: whether the
    outgoing owner has a row. *)
Definition transfer_check (gid to_uin uin : Z) (d : rdb) : outcome bool :=
  let! g := load_group d gid in
  if negb (owner_uin g =? uin) then Raise (HTTPException 403 "owner_only")
  else if to_uin =? uin then Raise (HTTPException 400 "already_owner")
  else match member_row (rcore d) gid to_uin with
  | None => Raise (HTTPException 404 "not_a_member")
  | Some _ =>
      match users (rcore d) !! to_uin with
      | None => Raise (HTTPException 404 "no_such_user")
      | Some u =>
          if is_suspended u then Raise (HTTPException 409 "target_suspended")
          else if bool_decide (is_Some (guest_status u)) then Raise (HTTPException 409 "target_guest")
          else Ok (has_member (rcore d) gid uin)
      end
  end.

Definition demote_row (gid uin : Z) (m : GroupMember) : GroupMember :=
  if (gm_group_id m =? gid) && (gm_uin m =? uin)
  then mkGroupMember gid uin "member" "" (gm_joined_at m) else m.

(** The write: [UPDATE groups ... WHERE owner_uin = :me], then the rows read
    before by their ids (a row that is gone is an error of the flush), then
    every other row that still calls itself owner. *)
Definition transfer_write (gid to_uin uin : Z) (outgoing : bool) (d : rdb) : outcome rdb :=
  match groups (rcore d) !! gid with
  | None => Raise (HTTPException 403 "owner_only")
  | Some g =>
      if negb (owner_uin g =? uin) then Raise (HTTPException 403 "owner_only")
      else if negb (has_member (rcore d) gid to_uin) || (outgoing && negb (has_member (rcore d) gid uin))
      then Raise (RuntimeError "StaleDataError")
      else
        let d := if outgoing then on_core (set_group_members (map (demote_row gid uin))) d else d in
        Ok (crown gid to_uin d)
  end.

Definition transfer_owner (e : renv) (gid to_uin uin : Z) (d : rdb) : outcome (GroupOut * rdb * list revent) :=
  let! outgoing := transfer_check gid to_uin uin d in
  let! d := transfer_write gid to_uin uin outgoing d in
  let! g := load_group d gid in
  Ok (announce e d gid g []).

Definition delete_group (e : renv) (gid uin : Z) (d : rdb) : outcome (rdb * list revent) :=
  let! g := load_group d gid in
  if negb (owner_uin g =? uin) then Raise (HTTPException 403 "owner only")
  else
    Ok (on_core (fun c => delete_row e gid (drop_log gid c)) d,
        map (fun m => GroupDeleted (gm_uin m) gid None) (rows_of_room d gid)).

(** ** The routes that ask Redis

    A guard reads the tables and may touch Redis; what it did there stays done
    when a later guard refuses. *)

Section redis_routes.
Context {R : Type} `{RR : Redis R}.
Context (num : Z -> string) (hmac_hex : string -> string -> string) (secret : string).

Definition M (A : Type) : Type := limiter R -> outcome A * limiter R.
Definition mret {A} (a : A) : M A := fun s => (Ok a, s).
Definition mraise {A} (x : exn) : M A := fun s => (Raise x, s).
Definition mbind {A B} (m : M A) (k : A -> M B) : M B := fun s =>
  match m s with (Ok a, s') => k a s' | (Raise x, s') => (Raise x, s') end.
Definition mlift {A} (o : outcome A) : M A := fun s => (o, s).
Definition refuse_if (b : bool) (x : exn) : M unit := if b then mraise x else mret tt.

Notation "'do' x <- m ; k" := (mbind m (fun x => k)) (at level 10, x pattern, m at level 100, k at level 200).
Notation "'run' m ; k" := (mbind m (fun _ => k)) (at level 10, m at level 100, k at level 200).

Definition ask_guest (e : renv) (d : rdb) (u : Z) : M bool := fun s =>
  let '(g, r) := is_guest (e_up_guest e) (e_now e) (e_scratch e) (rcore d) u (redis s) in
  (Ok g, mkLimiter r (local_hits s)).

Definition count_stat (e : renv) (stat : string) : M unit := fun s =>
  (Ok tt, mkLimiter (bump_stat (e_up_stat e) (e_now e) stat (e_day e) (redis s)) (local_hits s)).

(** *** Limits on guests ([services/guest_accounts.py]) *)

Definition SEAT_MAX_ROOMS : Z := 3.

Definition rooms_held (d : rdb) (uin : Z) : Z :=
  Z.of_nat (length (filter (fun m => gm_uin m = uin) (group_members (rcore d)))).

Definition member_count (d : rdb) (gid : Z) : Z := Z.of_nat (length (rows_of_room d gid)).

Definition refuse_full_room (e : renv) (d : rdb) (gid : Z) : M unit :=
  refuse_if (e_member_ceiling e <=? member_count d gid) (HTTPException 403 "guest_room_full").

Definition refuse_group_limit (e : renv) (d : rdb) (uin : Z) : M unit :=
  refuse_if (e_max_groups e <=? rooms_held d uin) (HTTPException 403 "guest_group_limit").

(** A 429 of the limiter becomes the room's own refusal; anything else goes
    through. *)
Definition as_refusal (code : string) (x : exn) : exn :=
  match x with
  | HTTPExceptionN 429 _ n => HTTPExceptionN 429 code n
  | _ => x
  end.

Definition spend_budget (e : renv) (gid : Z) (rule code : string) (per_day : Z) : M unit := fun s =>
  match enforce_rate_limit num hmac_hex secret (e_up_limit e) (e_now e) ("grp:" ++ pretty gid)%string rule
          per_day 86400 true s with
  | (Ok _, s) => (Ok tt, s)
  | (Raise x, s) => (Raise (as_refusal code x), s)
  end.

Definition spend_room_budget (e : renv) (gid : Z) : M unit :=
  spend_budget e gid "guest_room_join" "guest_room_limit" (e_joins_per_day e).

(** *** [preview_group] *)

Definition redacted (gid : Z) : GroupPreviewOut :=
  mkGroupPreviewOut gid "" None None 0 true 0 None None None.

Definition preview_card (d : rdb) (gid : Z) (g : Group) (show_avatar : bool) : GroupPreviewOut :=
  mkGroupPreviewOut gid (name (info g)) (g_badge (info g)) (description (info g))
    (Z.of_nat (length (room_rows d gid))) (is_closed (info g)) (owner_uin g)
    (option_map (fun u => nickname (profile u)) (users (rcore d) !! owner_uin g))
    (if show_avatar then g_avatar_media_id (info g) else None)
    (if show_avatar then g_avatar_media_key (info g) else None).

Definition preview_group (e : renv) (gid : Z) (k : option string) (viewer : option Z) (d : rdb)
    : M GroupPreviewOut :=
  do g <- mlift (load_group d gid);
  let entitled := if is_closed (info g) || negb (in_catalog (info g)) then link_entitled d gid g viewer k else true in
  let card := preview_card d gid g
                (match viewer with Some u => has_member (rcore d) gid u | None => false end) in
  if entitled then mret card
  else if negb (is_closed (info g)) then
    match room_link_refusal e g k with
    | Some stat => run count_stat e stat; mraise (HTTPException 404 "no such group")
    | None => run count_stat e "room_link_preview_tokenless"; mret card
    end
  else if e_require_closed_token e then mraise (HTTPException 404 "no such group")
  else run count_stat e "closed_preview_tokenless"; mret (redacted gid).

(** *** The directory *)

(** [max(1, min(limit, 50))] *)
Definition capped (limit : Z) : nat := Z.to_nat (Z.max 1 (Z.min limit 50)).

(** Open rooms of the catalogue the viewer is not in. *)
Definition listed_rooms (d : rdb) (viewer : Z) : list (Z * Group) :=
  filter (fun gg => is_closed (info gg.2) = false /\ in_catalog (info gg.2) = true /\
                    has_member (rcore d) gg.1 viewer = false)
         (map_to_list (groups (rcore d))).

Definition discover_groups (e : renv) (limit viewer : Z) (d : rdb) : M (list GroupPreviewOut) :=
  do g <- ask_guest e d viewer;
  if g then mret []
  else
    let n gg := Z.of_nat (length (room_rows d gg.1)) in
    let rows := filter (fun gg => 0 < n gg) (listed_rooms d viewer) in
    let rows := sort_by (fun gg => - n gg) (sort_by (fun gg => g_created_at (info gg.2)) rows) in
    mret (map (fun gg => preview_card d gg.1 gg.2 (negb (is_closed (info gg.2)))) (take (capped limit) rows)).

(** [ILIKE] is the database's. *)
Definition search_groups (ilike : string -> string -> bool) (e : renv) (q : string) (limit viewer : Z) (d : rdb)
    : M (list GroupPreviewOut) :=
  do g <- ask_guest e d viewer;
  if g then mret []
  else
    let needle := strip q in
    if (String.length needle <? 2)%nat then mret []
    else
      let matches gg :=
        ilike (name (info gg.2)) ("%" ++ needle ++ "%")%string
        || (isdigit needle && bool_decide (int_of_string needle = Some gg.1)) in
      let rows := filter (fun gg => matches gg = true) (listed_rooms d viewer) in
      let rows := take (capped limit) (sort_by (fun gg => - g_created_at (info gg.2)) rows) in
      mret (map (fun gg => preview_card d gg.1 gg.2 false) rows).

(** *** Entering a room *)

Definition enter_and_announce (e : renv) (gid uin : Z) (g : Group) (d : rdb)
    : outcome (GroupOut * rdb * list revent) :=
  let! c := enter_room (e_now e) gid uin "member" (armed_join_stamp (e_now e) g) (rcore d) in
  Ok (announce e (on_core (fun _ => c) d) gid g []).

Definition join_group (e : renv) (gid : Z) (k : option string) (uin : Z) (d : rdb)
    : M (GroupOut * rdb * list revent) :=
  do g <- mlift (load_group d gid);
  if has_member (rcore d) gid uin then mret (room_payload e d gid g, d, [])
  else
    run refuse_if (is_blocked_by d (owner_uin g) uin) (HTTPException 403 "blocked");
    run refuse_if (is_closed (info g) && negb (uin =? owner_uin g)) (HTTPException 403 "group_closed");
    run (if negb (in_catalog (info g)) && negb (link_entitled d gid g (Some uin) k) then
           match room_link_refusal e g k with
           | Some stat => run count_stat e stat; mraise (HTTPException 403 "room_link_invalid")
           | None => count_stat e "room_join_tokenless"
           end
         else mret tt);
    do guest <- ask_guest e d uin;
    run (if guest then
           run refuse_if (bool_decide (allow_guests (info g) = Some false)) (HTTPException 403 "guest_room_closed");
           run refuse_full_room e d gid;
           run refuse_group_limit e d uin;
           spend_room_budget e gid
         else mret tt);
    mlift (enter_and_announce e gid uin g d).

Definition native_add_checks (d : rdb) (g : Group) (inviter target : Z) (u : User) : M unit :=
  run refuse_if (is_blocked_by d (owner_uin g) target) (HTTPException 403 "the group owner has blocked this user");
  refuse_if (negb (can_invite_to_group d inviter target u))
    (HTTPException 403
       (if String.eqb (group_invite_policy (profile u)) "contacts"
        then "this user only accepts group invites from their contacts"
        else "this user does not accept group invites")).

Definition runs_room (m : GroupMember) : bool :=
  String.eqb (gm_role m) "owner" || String.eqb (gm_role m) "admin".

Definition guest_target_checks (e : renv) (d : rdb) (gid : Z) (g : Group) (me : GroupMember) (target : Z) (u : User)
    (already_member spend : bool) : M unit :=
  run refuse_if (is_blocked_by d (owner_uin g) target) (HTTPException 403 "blocked");
  if already_member then mret tt
  else
    run refuse_if (bool_decide (allow_guests (info g) = Some false) && negb (runs_room me))
          (HTTPException 403 "guest_room_closed");
    run (if bool_decide (guest_status u = Some STATUS_ADDED) then
           refuse_if (SEAT_MAX_ROOMS <=? rooms_held d target) (HTTPException 429 "guest_add_limit")
         else
           run refuse_if (String.eqb (invite_policy u) "nobody") (HTTPException 403 "invite_nobody");
           run refuse_if (String.eqb (invite_policy u) "contacts" && negb (shares_room (rcore d) (gm_uin me) target))
                 (HTTPException 403 "invite_contacts_only");
           refuse_group_limit e d target);
    run refuse_full_room e d gid;
    if spend then spend_room_budget e gid else mret tt.

Definition add_member (e : renv) (gid target uin : Z) (d : rdb) : M (GroupOut * rdb * list revent) :=
  do me <- mlift (ensure_member d gid uin);
  do g <- mlift (load_group d gid);
  match users (rcore d) !! target with
  | None => mraise (HTTPException 404 "no such user")
  | Some u =>
      let existing := has_member (rcore d) gid target in
      run (match guest_status u with
           | Some _ => guest_target_checks e d gid g me target u existing true
           | None => native_add_checks d g uin target u
           end);
      if existing then mret (announce e d gid g [])
      else mlift (enter_and_announce e gid target g d)
  end.
End redis_routes.
