(* ===== verification/RoomsWf.v ===== *)
(** * Rooms stay in order

    What holds of [Rooms] over any sequence of requests (who owns a room, who is
    in it), what each moderation request does, and what a reused id does on a
    database that does not enforce its foreign keys. *)

From stdpp Require Import base list sorting gmap strings pretty.
From Stdlib Require Import ZArith Lia Ascii.
From S2P Require Import Prelude Text Storage Redis RateLimit GuestPolicy GroupLogStore Gates Bytes KeyStorage Rooms.

(** ** Well-formed rooms *)

Definition member_key (m : GroupMember) : Z * Z := (gm_group_id m, gm_uin m).

(** A room has its owner: exactly one row has the role, it is the row of
    [owner_uin] and carries no explicit permissions, and the account behind it
    lives on this island. *)
Definition seated (gid : Z) (g : Group) (ms : list GroupMember) (us : gmap Z User) : Prop :=
  (exists m, m ∈ ms /\ member_key m = (gid, owner_uin g) /\ gm_role m = "owner"%string /\ gm_permissions m = ""%string) /\
  (forall m, m ∈ ms -> gm_group_id m = gid -> gm_role m = "owner"%string -> gm_uin m = owner_uin g) /\
  (exists u, us !! owner_uin g = Some u /\ guest_status u = None).

(** [P] are the rooms whose owner is in place. *)
Record wf_on (P : Z -> Prop) (gs : gmap Z Group) (ms : list GroupMember) (us : gmap Z User) (n : Z) : Prop := {
  wf_unique : NoDup (map member_key ms);
  wf_fk : forall m, m ∈ ms -> is_Some (gs !! gm_group_id m);
  wf_seated : forall gid g, P gid -> gs !! gid = Some g -> seated gid g ms us;
  wf_ids : forall gid, is_Some (gs !! gid) -> gid < n;
  wf_perms : forall m, m ∈ ms -> exists ps, gm_permissions m = canonical ps
}.

Definition rooms_wf_on (P : Z -> Prop) (d : rdb) : Prop :=
  wf_on P (groups (rcore d)) (group_members (rcore d)) (users (rcore d)) (next_group_id d).
Definition rooms_wf : rdb -> Prop := rooms_wf_on (fun _ => True).

(** ** Rows *)

Lemma member_row_Some d gid u m :
  member_row d gid u = Some m -> m ∈ group_members d /\ member_key m = (gid, u).
Proof.
  unfold member_row. intros [Hin Hm]%find_first_Some. breflect. split; [done|]. unfold member_key. congruence.
Qed.

Lemma has_member_true d gid u :
  has_member d gid u = true <-> exists m, m ∈ group_members d /\ member_key m = (gid, u).
Proof.
  unfold has_member. rewrite bool_decide_eq_true. split.
  - intros [m Hm]. exists m. by apply member_row_Some.
  - intros (m & Hin & Hk). apply not_eq_None_Some. intros Hn.
    pose proof (find_first_absent _ _ _ Hn Hin) as Hf. injection Hk as H1 H2. simpl in Hf.
    rewrite H1, H2, !Z.eqb_refl in Hf. done.
Qed.

Lemma has_member_false d gid u :
  has_member d gid u = false <-> (gid, u) ∉ map member_key (group_members d).
Proof.
  rewrite <- not_true_iff_false, has_member_true, list_elem_of_fmap. naive_solver.
Qed.

Lemma unique_row ms m m' :
  NoDup (map member_key ms) -> m ∈ ms -> m' ∈ ms -> member_key m = member_key m' -> m = m'.
Proof. intros Hn Hm Hm' Hk. by apply (NoDup_map_inj member_key ms). Qed.

Lemma room_rows_elem d gid m u :
  (m, u) ∈ room_rows d gid <->
  m ∈ group_members (rcore d) /\ gm_group_id m = gid /\ users (rcore d) !! gm_uin m = Some u.
Proof.
  unfold room_rows. rewrite list_elem_of_omap. split.
  - intros (m' & Hin & He). destruct (Z.eqb_spec (gm_group_id m') gid); [|done].
    destruct (users (rcore d) !! gm_uin m') eqn:?; [|done]. by simplify_eq.
  - intros (Hin & <- & Hu). exists m. by rewrite Z.eqb_refl, Hu.
Qed.

(** Seeding cursors touches the cursors only. *)
Lemma seed_only_cursors now gid u d :
  exists f, seed_cursors_on_join now gid u d = set_group_log_cursors f d.
Proof.
  assert (Hid : d = set_group_log_cursors id d) by (by destruct d).
  unfold seed_cursors_on_join. destruct (reader_devices d u) as [|dev devs]; [by exists id|].
  generalize (room_head d gid). intros h. generalize (dev :: devs). intros l.
  assert (H : forall c, (exists f, c = set_group_log_cursors f d) ->
            exists f, foldl (fun d dev => (upsert_log_cursor now gid u dev 0 h d).2) c l = set_group_log_cursors f d);
    [|apply H; by exists id].
  induction l as [|x l IH]; intros c [f ->]; [by exists f|]. simpl. apply IH. by eexists (fun m => <[_ := _]> (f m)).
Qed.

Lemma enter_room_inv now gid uin role stamp d d' :
  enter_room now gid uin role stamp d = Ok d' ->
  has_member d gid uin = false /\ groups d' = groups d /\ users d' = users d /\
  group_members d' = group_members d ++ [mkGroupMember gid uin role "" stamp].
Proof.
  unfold enter_room. destruct (has_member d gid uin); [done|].
  destruct (seed_only_cursors now gid uin
    (set_group_members (fun l => l ++ [mkGroupMember gid uin role "" stamp]) d)) as [f ->].
  by intros [= <-].
Qed.

(** Crowning a row. *)
Lemma crown_row_key gid u m : member_key (crown_row gid u m) = member_key m.
Proof. unfold crown_row, member_key. destruct m; simpl. by repeat case_match; breflect; subst. Qed.

Lemma crown_row_owner gid u m :
  gm_group_id m = gid ->
  (gm_role (crown_row gid u m) = "owner"%string <-> gm_uin m = u) /\
  (gm_uin m = u -> gm_permissions (crown_row gid u m) = ""%string).
Proof.
  unfold crown_row. intros ->. rewrite Z.eqb_refl. destruct (Z.eqb_spec (gm_uin m) u); [done|].
  destruct (String.eqb_spec (gm_role m) "owner"); simpl; naive_solver.
Qed.

Lemma crown_row_perms gid u m :
  gm_permissions (crown_row gid u m) = gm_permissions m \/ gm_permissions (crown_row gid u m) = ""%string.
Proof. unfold crown_row. repeat case_match; simpl; auto. Qed.

Lemma crown_row_other gid u m : gm_group_id m <> gid -> crown_row gid u m = m.
Proof. unfold crown_row. by destruct (Z.eqb_spec (gm_group_id m) gid). Qed.

(** ** The invariant under each kind of write *)

Section writes.
Context (P : Z -> Prop) (gs : gmap Z Group) (us : gmap Z User) (n : Z).

Lemma wf_add ms m :
  wf_on P gs ms us n -> is_Some (gs !! gm_group_id m) -> member_key m ∉ map member_key ms ->
  gm_role m = "member"%string -> gm_permissions m = ""%string -> wf_on P gs (ms ++ [m]) us n.
Proof.
  intros [Hu Hf Hs Hi Hp] Hg Hn Hr Hpm. split; [| | |done|].
  - rewrite map_app. by apply NoDup_snoc.
  - intros x [Hx| ->%list_elem_of_singleton]%elem_of_app; auto.
  - intros gid g HP Hgid. destruct (Hs gid g HP Hgid) as ((m0 & Hm0 & ?) & Hone & Hres). split_and!; [|  |done].
    + exists m0. by rewrite elem_of_app; eauto.
    + intros x [Hx| ->%list_elem_of_singleton]%elem_of_app ??; [eauto|congruence].
  - intros x [Hx| ->%list_elem_of_singleton]%elem_of_app; [auto|]. by exists [].
Qed.

(** Rows rewritten in place: same room, same member, and an owner's row stays
    one. *)
Lemma wf_map ms (f : GroupMember -> GroupMember) :
  wf_on P gs ms us n ->
  (forall m, m ∈ ms -> member_key (f m) = member_key m /\ (gm_role (f m) = gm_role m) /\
     (exists ps, gm_permissions (f m) = canonical ps) /\
     (forall g, gs !! gm_group_id m = Some g -> gm_uin m = owner_uin g -> gm_permissions (f m) = gm_permissions m)) ->
  wf_on P gs (map f ms) us n.
Proof.
  intros [Hu Hf Hs Hi Hp] Hfm. split; [| | |done|].
  - rewrite map_map. erewrite map_ext_in; [done|]. intros m Hm. apply Hfm. by apply list_elem_of_In.
  - intros x (m & -> & Hm)%list_elem_of_fmap. destruct (Hfm m Hm) as ([= -> _] & _). auto.
  - intros gid g HP Hgid. destruct (Hs gid g HP Hgid) as ((m0 & Hm0 & Hk & Hr & Hpm) & Hone & Hres). split_and!; [| |done].
    + destruct (Hfm m0 Hm0) as (Hk' & Hr' & _ & Hp'). injection Hk as E1 E2. exists (f m0). split_and!.
      * by apply list_elem_of_fmap_2.
      * rewrite Hk'. unfold member_key. congruence.
      * congruence.
      * rewrite (Hp' g) by congruence. done.
    + intros x (m & -> & Hm)%list_elem_of_fmap E Hr1. destruct (Hfm m Hm) as ([= E1 E2] & Hr2 & _).
      rewrite E2. apply Hone; [done|congruence|congruence].
  - intros x (m & -> & Hm)%list_elem_of_fmap. by destruct (Hfm m Hm) as (_ & _ & ? & _).
Qed.

(** A room's row changes and its owner does not. *)
Lemma wf_room ms gid f :
  wf_on P gs ms us n -> (forall g, gs !! gid = Some g -> owner_uin (f g) = owner_uin g) ->
  wf_on P (alter f gid gs) ms us n.
Proof.
  intros [Hu Hf Hs Hi Hp] Hfo.
  assert (Hsome : forall k, is_Some (alter f gid gs !! k) <-> is_Some (gs !! k)).
  { intros k. rewrite lookup_alter. case_decide as E; [subst|done]. by rewrite fmap_is_Some. }
  split; [done| | | |done].
  - intros m Hm. apply Hsome. auto.
  - intros k g HP. rewrite lookup_alter. case_decide as E; [subst|by apply Hs].
    intros (g0 & Hg0 & ->)%fmap_Some. specialize (Hs k g0 HP Hg0). unfold seated in *. by rewrite (Hfo g0).
  - intros k Hk. apply Hi. by apply Hsome.
Qed.

(** Somebody leaves.  Unless they own the room, nothing else changes. *)
Lemma wf_leave (Q : Z -> Prop) ms gid u :
  wf_on P gs ms us n ->
  (forall k, Q k -> P k) -> (forall g, Q gid -> gs !! gid = Some g -> u <> owner_uin g) ->
  wf_on Q gs (filter (fun m => ~ (gm_group_id m = gid /\ gm_uin m = u)) ms) us n.
Proof.
  intros [Hu Hf Hs Hi Hp] HQ Hne. split; [| | |done|].
  - by apply NoDup_map_filter.
  - intros m [_ Hm]%list_elem_of_filter. auto.
  - intros k g Hk Hg. destruct (Hs k g (HQ k Hk) Hg) as ((m0 & Hm0 & Hk0 & Hr) & Hone & Hres). split_and!; [| |done].
    + exists m0. split; [|done]. apply list_elem_of_filter. split; [|done]. intros [E3 E4].
      unfold member_key in Hk0. rewrite E3, E4 in Hk0. injection Hk0 as <- E5. by apply (Hne g Hk Hg).
    + intros m [_ Hm]%list_elem_of_filter. auto.
  - intros m [_ Hm]%list_elem_of_filter. auto.
Qed.

Lemma wf_delete ms gid :
  wf_on P gs ms us n -> (forall k, k <> gid -> P k) ->
  wf_on (fun _ => True) (delete gid gs) (filter (fun m => gm_group_id m <> gid) ms) us n.
Proof.
  intros [Hu Hf Hs Hi Hp] HP. split.
  - by apply NoDup_map_filter.
  - intros m [Hne Hm]%list_elem_of_filter. rewrite lookup_delete_ne by done. auto.
  - intros k g _. rewrite lookup_delete. case_decide as E; [done|]. intros Hg.
    destruct (Hs k g (HP k ltac:(done)) Hg) as ((m0 & Hm0 & Hk0 & Hr) & Hone & Hres). split_and!; [| |done].
    + exists m0. split; [|done]. apply list_elem_of_filter. split; [|done]. unfold member_key in Hk0. congruence.
    + intros m [_ Hm]%list_elem_of_filter. auto.
  - intros k. rewrite lookup_delete. case_decide; [by intros [? ?]|]. apply Hi.
  - intros m [_ Hm]%list_elem_of_filter. auto.
Qed.

(** Rows rewritten in rooms that need not have their owner in place. *)
Lemma wf_map_off (Q : Z -> Prop) ms (f : GroupMember -> GroupMember) :
  wf_on P gs ms us n -> (forall k, Q k -> P k) ->
  (forall m, m ∈ ms -> member_key (f m) = member_key m /\ (exists ps, gm_permissions (f m) = canonical ps) /\
     (Q (gm_group_id m) -> f m = m)) ->
  wf_on Q gs (map f ms) us n.
Proof.
  intros [Hu Hf Hs Hi Hp] HQ Hfm. split; [| | |done|].
  - rewrite map_map. erewrite map_ext_in; [done|]. intros m Hm. apply Hfm. by apply list_elem_of_In.
  - intros x (m & -> & Hm)%list_elem_of_fmap. destruct (Hfm m Hm) as ([= -> _] & _). auto.
  - intros k g Hk Hg. destruct (Hs k g (HQ k Hk) Hg) as ((m0 & Hm0 & Hk0 & Hr) & Hone & Hres). split_and!; [| |done].
    + exists m0. split; [|done]. apply list_elem_of_fmap. exists m0. split; [|done].
      destruct (Hfm m0 Hm0) as (_ & _ & ->); [done|]. unfold member_key in Hk0. congruence.
    + intros x (m & -> & Hm)%list_elem_of_fmap E. destruct (Hfm m Hm) as ([= E1 E2] & _ & Hid).
      rewrite Hid by congruence. apply Hone; [done|congruence].
  - intros x (m & -> & Hm)%list_elem_of_fmap. by destruct (Hfm m Hm) as (_ & ? & _).
Qed.

Lemma wf_crown ms gid u :
  wf_on P gs ms us n -> (forall k, k <> gid -> P k) -> (gid, u) ∈ map member_key ms ->
  (exists U, us !! u = Some U /\ guest_status U = None) ->
  wf_on (fun _ => True) (alter (set_owner u) gid gs) (map (crown_row gid u) ms) us n.
Proof.
  intros Hwf HP (m & Hk & Hm)%list_elem_of_fmap HU.
  assert (Hoff : wf_on (fun k => k <> gid) gs (map (crown_row gid u) ms) us n).
  { apply (wf_map_off _ _ _ Hwf HP). intros x Hx. split_and!; [apply crown_row_key| |apply crown_row_other].
    destruct (crown_row_perms gid u x) as [->| ->]; [by apply (wf_perms _ _ _ _ _ Hwf)|by exists []]. }
  destruct Hoff as [Hu Hf Hs Hi Hp].
  assert (Hsome : forall k, is_Some (alter (set_owner u) gid gs !! k) <-> is_Some (gs !! k)).
  { intros k. rewrite lookup_alter. case_decide as E; [subst|done]. by rewrite fmap_is_Some. }
  split; [done| | | |done].
  - intros x Hx. apply Hsome. auto.
  - intros k g _. rewrite lookup_alter. case_decide as E; [subst k|by apply Hs].
    intros (g0 & Hg0 & ->)%fmap_Some. injection Hk as E1 E2. split_and!; [| |done]; simpl.
    + exists (crown_row gid u m). split_and!; [by apply list_elem_of_fmap_2| | |].
      * rewrite crown_row_key. unfold member_key. congruence.
      * by apply crown_row_owner.
      * by apply crown_row_owner.
    + intros x (y & -> & Hy)%list_elem_of_fmap Hg Hr. pose proof (crown_row_key gid u y) as [= K1 K2].
      rewrite K2. apply (crown_row_owner gid); [congruence|done].
  - intros k Hk0. apply Hi. by apply Hsome.
Qed.
End writes.

(** A new room with its first members. *)
Definition seat_row (gid owner u : Z) : GroupMember :=
  mkGroupMember gid u (if u =? owner then "owner" else "member") "" None.

Lemma seat_rows_uins gid owner l : map gm_uin (map (seat_row gid owner) l) = l.
Proof. induction l; simpl; congruence. Qed.

Lemma seat_members_inv now gid owner uins d d' :
  seat_members now gid owner uins d = Ok d' -> NoDup (map member_key (group_members d)) ->
  groups d' = groups d /\ users d' = users d /\
  group_members d' = group_members d ++ map (seat_row gid owner) uins /\
  NoDup (map member_key (group_members d')).
Proof.
  revert d. induction uins as [|u uins IH]; intros d; simpl.
  { intros [= <-] Hn. by rewrite app_nil_r. }
  destruct (has_member d gid u) eqn:Hh; [done|]. intros E Hn. apply has_member_false in Hh.
  apply IH in E as (E1 & E2 & E3 & E4).
  - split_and!; [done|done| |done]. rewrite E3. simpl. by rewrite <- app_assoc.
  - simpl. rewrite map_app. by apply NoDup_snoc.
Qed.

Lemma wf_create gs ms us n gid g rows :
  wf_on (fun _ => True) gs ms us n -> n <= gid -> 
  NoDup (map member_key (ms ++ rows)) ->
  rows = map (seat_row gid (owner_uin g)) (map gm_uin rows) -> owner_uin g ∈ map gm_uin rows ->
  (exists u, us !! owner_uin g = Some u /\ guest_status u = None) ->
  wf_on (fun _ => True) (<[gid := g]> gs) (ms ++ rows) us (Z.max n (gid + 1)).
Proof.
  intros [Hu Hf Hs Hi Hp] Hgid Hn Hrows Ho Hres.
  assert (Hnew : forall m, m ∈ rows -> m = seat_row gid (owner_uin g) (gm_uin m)).
  { intros m Hm. rewrite Hrows in Hm. apply list_elem_of_fmap in Hm as (u & -> & _). done. }
  assert (Hold : forall m, m ∈ ms -> gm_group_id m <> gid).
  { intros m Hm E. specialize (Hi _ (Hf m Hm)). lia. }
  split; [done| | | |].
  - intros m [Hm|Hm]%elem_of_app; [rewrite lookup_insert_ne by (symmetry; auto); auto|].
    rewrite (Hnew m Hm). simpl. by rewrite lookup_insert_eq.
  - intros k h _. destruct (decide (k = gid)) as [->|Hne].
    + rewrite lookup_insert_eq. intros [= <-]. split_and!; [| |done].
      * apply list_elem_of_fmap in Ho as (m & E & Hm). exists m. rewrite elem_of_app. pose proof (Hnew m Hm) as Em.
        rewrite <- E in Em. split; [auto|]. rewrite Em. unfold seat_row, member_key. simpl. by rewrite Z.eqb_refl.
      * intros m [Hm|Hm]%elem_of_app Hk; [by apply Hold in Hm|]. rewrite (Hnew m Hm). simpl.
        by destruct (Z.eqb_spec (gm_uin m) (owner_uin g)).
    + rewrite lookup_insert_ne by done. intros Hk. destruct (Hs k h I Hk) as ((m0 & Hm0 & ?) & Hone & ?).
      split_and!; [| |done].
      * exists m0. rewrite elem_of_app. eauto.
      * intros m [Hm|Hm]%elem_of_app E; [eauto|]. rewrite (Hnew m Hm) in E. done.
  - intros k. destruct (decide (k = gid)) as [->|Hne]; [intros _; lia|]. rewrite lookup_insert_ne by done.
    intros Hk%Hi. lia.
  - intros m [Hm|Hm]%elem_of_app; [auto|]. rewrite (Hnew m Hm). by exists [].
Qed.

(** ** Requests *)

Lemma load_group_Ok d gid g : load_group d gid = Ok g -> groups (rcore d) !! gid = Some g.
Proof. unfold load_group. case_match; congruence. Qed.

Lemma ensure_member_Ok d gid u m : ensure_member d gid u = Ok m -> member_row (rcore d) gid u = Some m.
Proof. unfold ensure_member. case_match; congruence. Qed.

(** Take a successful handler apart. *)
Ltac ok_steps :=
  repeat match goal with
  | H : obind _ _ = Ok _ |- _ => apply obind_Ok in H as (? & ? & H); simpl in H
  | H : load_group _ _ = Ok _ |- _ => apply load_group_Ok in H
  | H : ensure_member _ _ _ = Ok _ |- _ => apply ensure_member_Ok in H
  | H : (if ?b then Raise _ else _) = Ok _ |- _ => let E := fresh "Hb" in destruct b eqn:E; [discriminate H|]
  | H : Ok _ = Ok _ |- _ => apply Ok_inj in H
  end.

Lemma create_group_wf set_order e seed token body uin d p d' evs :
  (forall s, set_order s ≡ₚ elements s) -> e_postgres e = true ->
  (exists u, users (rcore d) !! uin = Some u /\ guest_status u = None) -> rooms_wf d ->
  create_group set_order e seed token body uin d = Ok (p, d', evs) -> rooms_wf d'.
Proof.
  intros Hord Hpg Hres Hwf H. unfold create_group in H. ok_steps. injection H as _ <- _.
  rename x into c, H0 into Hseat. apply seat_members_inv in Hseat as (E1 & E2 & E3 & E4); [|apply Hwf].
  set (uins := set_order _) in *. unfold fresh_group_id in *. rewrite Hpg in *.
  assert (Hfold : exists f, foldl (fun c u => seed_cursors_on_join (e_now e) (next_group_id d) u c) c uins
                            = set_group_log_cursors f c).
  { clear. assert (Hc : exists f, c = set_group_log_cursors f c) by (exists id; by destruct c).
    revert Hc. generalize c at 1 3. induction uins as [|u l IH]; intros c' [f ->]; [by exists f|]. simpl. apply IH.
    destruct (seed_only_cursors (e_now e) (next_group_id d) u (set_group_log_cursors f c)) as [h ->].
    by exists (fun m => h (f m)). }
  destruct Hfold as [f Ef]. unfold rooms_wf, rooms_wf_on, rcore. simpl. rewrite Ef. simpl.
  rewrite E1, E2, E3. simpl. apply wf_create; [done|lia| | | |done].
  - by rewrite E3 in E4.
  - by rewrite seat_rows_uins.
  - rewrite seat_rows_uins. unfold uins. rewrite Hord. apply elem_of_elements. set_solver.
Qed.

Lemma enter_and_announce_inv e gid uin g d p d' evs :
  enter_and_announce e gid uin g d = Ok (p, d', evs) ->
  has_member (rcore d) gid uin = false /\ groups (rcore d') = groups (rcore d) /\
  users (rcore d') = users (rcore d) /\ next_group_id d' = next_group_id d /\ contacts d' = contacts d /\
  group_members (rcore d') =
    group_members (rcore d) ++ [mkGroupMember gid uin "member" "" (armed_join_stamp (e_now e) g)].
Proof.
  intros H. unfold enter_and_announce in H. ok_steps. injection H as _ <- _.
  by apply enter_room_inv in H0 as (? & ? & ? & ?).
Qed.

Lemma enter_and_announce_wf e gid uin g d p d' evs :
  groups (rcore d) !! gid = Some g -> rooms_wf d ->
  enter_and_announce e gid uin g d = Ok (p, d', evs) -> rooms_wf d'.
Proof.
  intros Hg Hwf (Hn & E1 & E2 & E4 & _ & E3)%enter_and_announce_inv.
  unfold rooms_wf, rooms_wf_on. rewrite E1, E2, E3, E4. apply wf_add; [done|by exists g| |done|done].
  by apply has_member_false.
Qed.

Lemma remove_check_Ok gid m uin d g :
  remove_check gid m uin d = Ok g ->
  groups (rcore d) !! gid = Some g /\ has_member (rcore d) gid m = true /\
  (m = uin \/ m <> owner_uin g /\
     exists me, member_row (rcore d) gid uin = Some me /\ member_can g me "members" = true).
Proof.
  unfold remove_check. intros H. ok_steps. destruct (member_row (rcore d) gid m) eqn:Hm; [|done]. ok_steps. subst.
  split_and!; [done|unfold has_member; rewrite Hm; by apply bool_decide_eq_true_2|].
  destruct (Z.eqb_spec m uin); [by left|]. right. destruct (Z.eqb_spec m (owner_uin g)); [done|].
  split; [done|]. eexists. split; [done|]. by destruct (member_can g _ "members").
Qed.

Lemma next_owner_Some d gid u :
  next_owner d gid = Some u ->
  (gid, u) ∈ map member_key (group_members (rcore d)) /\
  exists U, users (rcore d) !! u = Some U /\ guest_status U = None.
Proof.
  assert (Hel : forall m U, (m, U) ∈ eligible d gid ->
     (gid, gm_uin m) ∈ map member_key (group_members (rcore d)) /\
     exists U, users (rcore d) !! gm_uin m = Some U /\ guest_status U = None).
  { intros m U [Hgs (Hm & Hg & HU)%room_rows_elem]%list_elem_of_filter. split; [|by exists U].
    apply list_elem_of_fmap. exists m. unfold member_key. by rewrite Hg. }
  unfold next_owner. destruct (find_first _ _) as [[m U]|] eqn:Hf.
  - apply find_first_Some in Hf as [Hin _]. intros [= <-]. by apply (Hel m U).
  - destruct (eligible d gid) as [|[m U] l]; [done|]. intros [= <-]. apply (Hel m U). by left.
Qed.

Lemma remove_member_wf e gid m uin d out d' evs :
  rooms_wf d -> remove_member e gid m uin d = Ok (out, d', evs) -> rooms_wf d'.
Proof.
  intros Hwf H. unfold remove_member in H. ok_steps. rename x into g, H0 into Hc.
  apply remove_check_Ok in Hc as (Hg & _ & _). set (d1 := remove_rows gid m d) in *.
  assert (Hoff : rooms_wf_on (fun k => k <> gid \/ m <> owner_uin g) d1).
  { apply (wf_leave (fun _ => True)); [done|done|]. intros g' [?|?] Hg'; [done|].
    change (groups (rcore d) !! gid = Some g') in Hg'. congruence. }
  destruct (Z.eqb_spec m (owner_uin g)) as [->|Hne].
  - unfold succeed in H. destruct (next_owner d1 gid) as [u|] eqn:Hnx; injection H as _ <- _.
    + apply next_owner_Some in Hnx as [Hrow Hres].
      apply (wf_crown (fun k => k <> gid \/ owner_uin g <> owner_uin g)); [exact Hoff|auto|done|done].
    + apply (wf_delete (fun k => k <> gid \/ owner_uin g <> owner_uin g)); [exact Hoff|auto].
  - injection H as _ <- _. destruct Hoff as [? ? Hs ? ?]. split; auto.
Qed.

Lemma set_room_wf gid f d :
  (forall g, groups (rcore d) !! gid = Some g -> owner_uin (f g) = owner_uin g) -> rooms_wf d ->
  rooms_wf (set_room gid f d).
Proof. intros Hf Hwf. by apply wf_room. Qed.

Lemma patch_field_owner {A} (v : option A) b msg f g g' :
  (forall a h, owner_uin (f a h) = owner_uin h) -> patch_field v b msg f g = Ok g' -> owner_uin g' = owner_uin g.
Proof. unfold patch_field. intros Hf H. destruct v, b; simplify_eq; auto. Qed.

Lemma patched_owner now b ci io g g' : patched now b ci io g = Ok g' -> owner_uin g' = owner_uin g.
Proof.
  unfold patched, patch_avatar. intros H. ok_steps.
  repeat match goal with
  | H : patch_field _ _ _ _ _ = Ok _ |- _ => apply patch_field_owner in H; [|intros; by repeat case_match]
  end.
  repeat case_match; simplify_eq; simpl; congruence.
Qed.

Lemma demote_row_facts gid u m :
  member_key (demote_row gid u m) = member_key m /\
  (gm_permissions (demote_row gid u m) = gm_permissions m \/ gm_permissions (demote_row gid u m) = ""%string) /\
  (gm_group_id m <> gid -> demote_row gid u m = m).
Proof.
  unfold demote_row, member_key.
  destruct (Z.eqb_spec (gm_group_id m) gid), (Z.eqb_spec (gm_uin m) u); simpl; subst; naive_solver.
Qed.

Lemma transfer_write_wf gid to_uin uin o d d' :
  rooms_wf d -> (exists U, users (rcore d) !! to_uin = Some U /\ guest_status U = None) ->
  transfer_write gid to_uin uin o d = Ok d' -> rooms_wf d'.
Proof.
  intros Hwf HU. unfold transfer_write. destruct (groups (rcore d) !! gid) as [g|] eqn:Hg; [|done].
  intros H. ok_steps. subst d'. breflect.
  set (d1 := if o then _ else d).
  assert (Hd1 : rooms_wf_on (fun k => k <> gid) d1 /\ users (rcore d1) = users (rcore d) /\
                (gid, to_uin) ∈ map member_key (group_members (rcore d1))).
  { assert (Hin : (gid, to_uin) ∈ map member_key (group_members (rcore d))).
    { apply list_elem_of_fmap. match goal with H : has_member _ _ to_uin = true |- _ =>
        apply has_member_true in H as (m & Hm & Hk) end. by exists m. }
    unfold d1. destruct o; split_and!; try done.
    - apply (wf_map_off (fun _ => True)); [done|done|]. intros m Hm.
      destruct (demote_row_facts gid uin m) as (Hk & Hp & Ho). split_and!; [done| |done].
      destruct Hp as [->| ->]; [by apply Hwf|by exists []].
    - simpl. rewrite map_map. erewrite map_ext; [done|]. intros m. apply demote_row_facts.
    - destruct Hwf as [? ? ? ? ?]. split; auto. }
  destruct Hd1 as (Hoff & Eu & Hin). apply (wf_crown (fun k => k <> gid)); [exact Hoff|done|done|].
  change (exists U, users (rcore d1) !! to_uin = Some U /\ guest_status U = None). by rewrite Eu.
Qed.

Lemma transfer_check_Ok gid to_uin uin d o :
  transfer_check gid to_uin uin d = Ok o ->
  (exists g, groups (rcore d) !! gid = Some g /\ owner_uin g = uin) /\ to_uin <> uin /\
  has_member (rcore d) gid to_uin = true /\
  (exists U, users (rcore d) !! to_uin = Some U /\ is_suspended U = false /\ guest_status U = None).
Proof.
  unfold transfer_check. intros H. ok_steps.
  destruct (member_row (rcore d) gid to_uin) eqn:Hm; [|done].
  destruct (users (rcore d) !! to_uin) as [U|] eqn:HU; [|done]. ok_steps. breflect.
  split_and!; [by eexists|done|unfold has_member; rewrite Hm; by apply bool_decide_eq_true_2|].
  exists U. split_and!; [done|done|]. by apply eq_None_not_Some.
Qed.

Section run.
Context {R : Type} `{RR : Redis R}.
Context (num : Z -> string) (hmac_hex : string -> string -> string) (secret : string).
Context (set_order : gset Z -> list Z).

Lemma mbind_Ok {A B} (m : M A) (k : A -> M B) (s s' : limiter R) b :
  mbind m k s = (Ok b, s') -> exists a s1, m s = (Ok a, s1) /\ k a s1 = (Ok b, s').
Proof. unfold mbind. destruct (m s) as [[a|x] s1]; [eauto|done]. Qed.

Lemma join_group_inv e gid k uin d p d' evs (s s' : limiter R) :
  join_group num hmac_hex secret e gid k uin d s = (Ok (p, d', evs), s') ->
  exists g, groups (rcore d) !! gid = Some g /\
    ((has_member (rcore d) gid uin = true /\ d' = d /\ evs = []) \/
     (has_member (rcore d) gid uin = false /\ is_blocked_by d (owner_uin g) uin = false /\
      (is_closed (info g) = false \/ uin = owner_uin g) /\
      (in_catalog (info g) = true \/ link_entitled d gid g (Some uin) k = true \/ room_link_refusal e g k = None) /\
      enter_and_announce e gid uin g d = Ok (p, d', evs))).
Proof.
  unfold join_group. intros (g & s1 & [= Hg%load_group_Ok <-] & H)%mbind_Ok. exists g. split; [done|].
  destruct (has_member (rcore d) gid uin); [left; by injection H as _ <- <- _|right].
  apply mbind_Ok in H as ([] & s2 & Hb & H). unfold refuse_if in Hb. destruct (is_blocked_by _ _ _); [done|].
  apply mbind_Ok in H as ([] & s3 & Hc & H). unfold refuse_if in Hc. destruct (is_closed (info g) && _) eqn:Ec; [done|].
  apply mbind_Ok in H as ([] & s4 & Hl & H). apply mbind_Ok in H as (gu & s5 & _ & H).
  apply mbind_Ok in H as ([] & s6 & _ & H). injection H as H _. split_and!; [done|done| | |done].
  - destruct (is_closed (info g)), (Z.eqb_spec uin (owner_uin g)); auto; done.
  - destruct (in_catalog (info g)), (link_entitled d gid g (Some uin) k); auto. simpl in Hl.
    destruct (room_link_refusal e g k); auto. by apply mbind_Ok in Hl as ([] & ? & _ & [=]).
Qed.

Lemma add_member_inv e gid target uin d p d' evs (s s' : limiter R) :
  add_member num hmac_hex secret e gid target uin d s = (Ok (p, d', evs), s') ->
  exists g, groups (rcore d) !! gid = Some g /\ has_member (rcore d) gid uin = true /\
    is_Some (users (rcore d) !! target) /\ is_blocked_by d (owner_uin g) target = false /\
    ((has_member (rcore d) gid target = true /\ d' = d) \/ enter_and_announce e gid target g d = Ok (p, d', evs)).
Proof.
  unfold add_member. intros (me & s1 & [= Hme%ensure_member_Ok <-] & H)%mbind_Ok.
  apply mbind_Ok in H as (g & s2 & [= Hg%load_group_Ok <-] & H). exists g.
  destruct (users (rcore d) !! target) as [u|] eqn:Hu; [|done].
  apply mbind_Ok in H as ([] & s3 & Hc & H). split_and!; [done| |by eexists| |].
  - unfold has_member. rewrite Hme. by apply bool_decide_eq_true_2.
  - destruct (guest_status u).
    + unfold guest_target_checks in Hc. apply mbind_Ok in Hc as ([] & s4 & Hb & _). unfold refuse_if in Hb.
      by destruct (is_blocked_by _ _ _).
    + unfold native_add_checks in Hc. apply mbind_Ok in Hc as ([] & s4 & Hb & _). unfold refuse_if in Hb.
      by destruct (is_blocked_by _ _ _).
  - destruct (has_member (rcore d) gid target); [left; by injection H as _ <- _ _|right]. by injection H as H _.
Qed.

(** ** Runs

    What happens to rooms: the requests of [routers/groups.py], and what the
    rest of the server does to the accounts in them: an operator suspends one, a
    guest settles, somebody registers and is put into the founder's room, a guest
    is minted with the seat it came for (the transactions of
    [routers/auth.py:guest_join] and [routers/groups.py:add_guest]; what
    comes before them is in [Accounts]).  The gate of a route without a guest
    marker refuses a guest before [create_group] ([GuestPolicy]). *)

Inductive room_op :=
  | Create (seed : Z) (token : string) (body : CreateGroupIn) (uin : Z)
  | Join (gid : Z) (k : option string) (uin : Z)
  | Add (gid target uin : Z)
  | Remove (gid member uin : Z)
  | Patch (gid : Z) (body : GroupPatchIn) (uin : Z)
  | ResetLink (token : string) (gid uin : Z)
  | State (gid : Z) (body : GroupStateIn) (uin : Z)
  | Permit (gid member : Z) (perms : list string) (uin : Z)
  | Transfer (gid to_uin uin : Z)
  | Delete (gid uin : Z)
  | Suspend (uin : Z) (b : bool)
  | Settle (uin : Z)
  | Register (uin : Z) (u : User)
  | BetaJoin (gid uin : Z)
  | Mint (gid uin : Z) (u : User).

Definition committed {A B} (d : rdb) (x : outcome (A * rdb * B)) : rdb :=
  match x with Ok (_, d', _) => d' | Raise _ => d end.

Definition on_user (uin : Z) (f : User -> User) (d : rdb) : rdb := on_core (set_users (alter f uin)) d.
Definition suspended (b : bool) (u : User) : User :=
  mkUser (last_seen u) (created_at u) (guest_status u) (muted_group_ids u) b (profile u).
Definition settled (u : User) : User :=
  mkUser (last_seen u) (created_at u) None (muted_group_ids u) (is_suspended u) (profile u).

Definition resident (d : rdb) (uin : Z) : bool :=
  match users (rcore d) !! uin with Some u => bool_decide (guest_status u = None) | None => false end.

(** The founder's room takes a new account: a row without cursors. *)
Definition beta_join (gid uin : Z) (d : rdb) : rdb :=
  if bool_decide (is_Some (groups (rcore d) !! gid)) && negb (has_member (rcore d) gid uin)
  then on_core (set_group_members (fun l => l ++ [mkGroupMember gid uin "member" "" None])) d else d.

(** A guest's account and its first membership, in one transaction. *)
Definition mint_seat (now gid uin : Z) (u : User) (d : rdb) : rdb :=
  match groups (rcore d) !! gid with
  | None => d
  | Some g =>
      if bool_decide (is_Some (users (rcore d) !! uin)) then d
      else
        match enter_room now gid uin "member" (armed_join_stamp now g) (set_users (insert uin u) (rcore d)) with
        | Ok c => on_core (fun _ => c) d
        | Raise _ => d
        end
  end.

Definition room_apply (st : rdb * limiter R) (x : renv * room_op) : rdb * limiter R :=
  let '(d, s) := st in
  let '(e, op) := x in
  match op with
  | Create seed token body uin =>
      if resident d uin then (committed d (create_group set_order e seed token body uin d), s) else (d, s)
  | Join gid k uin => let '(o, s) := join_group num hmac_hex secret e gid k uin d s in (committed d o, s)
  | Add gid target uin => let '(o, s) := add_member num hmac_hex secret e gid target uin d s in (committed d o, s)
  | Remove gid m uin => (committed d (remove_member e gid m uin d), s)
  | Patch gid b uin => (committed d (patch_group e gid b uin d), s)
  | ResetLink token gid uin => (committed d (reset_share_token e token gid uin d), s)
  | State gid b uin => (committed d (patch_group_state e gid b uin d), s)
  | Permit gid m ps uin => (committed d (set_member_permissions e gid m ps uin d), s)
  | Transfer gid to uin => (committed d (transfer_owner e gid to uin d), s)
  | Delete gid uin => (match delete_group e gid uin d with Ok (d', _) => d' | Raise _ => d end, s)
  | Suspend uin b => (on_user uin (suspended b) d, s)
  | Settle uin => (on_user uin settled d, s)
  | Register uin u => (if bool_decide (is_Some (users (rcore d) !! uin)) then d
                       else on_core (set_users (insert uin u)) d, s)
  | BetaJoin gid uin => (beta_join gid uin d, s)
  | Mint gid uin u => (mint_seat (e_now e) gid uin u d, s)
  end.

Definition room_run (st : rdb * limiter R) (xs : list (renv * room_op)) : rdb * limiter R := foldl room_apply st xs.

Lemma committed_wf {A B} d (x : outcome (A * rdb * B)) :
  rooms_wf d -> (forall a d' b, x = Ok (a, d', b) -> rooms_wf d') -> rooms_wf (committed d x).
Proof. destruct x as [[[a d'] b]|]; simpl; eauto. Qed.

Lemma on_users_wf f d :
  (forall k u, users (rcore d) !! k = Some u -> guest_status u = None ->
     exists u', f (users (rcore d)) !! k = Some u' /\ guest_status u' = None) ->
  rooms_wf d -> rooms_wf (on_core (set_users f) d).
Proof.
  intros Hf [Hu Hfk Hs Hi Hp]. split; try done. intros gid g _ Hg.
  destruct (Hs gid g I Hg) as (? & ? & u & Hul & Hgs). split_and!; [done|done|]. by apply (Hf _ u).
Qed.
Lemma set_member_permissions_inv e gid m perms uin d p d' evs :
  set_member_permissions e gid m perms uin d = Ok (p, d', evs) ->
  exists g, groups (rcore d) !! gid = Some g /\ owner_uin g = uin /\ m <> owner_uin g /\
    has_member (rcore d) gid m = true /\
    d' = on_core (set_group_members (map (set_perms gid m (canonical perms)))) d.
Proof.
  intros H. unfold set_member_permissions in H. ok_steps. injection H as _ <- _. breflect.
  eexists. split_and!; [done|done|done| |done]. unfold has_member.
  match goal with H : member_row _ _ _ = Some _ |- _ => rewrite H end. by apply bool_decide_eq_true_2.
Qed.

Lemma set_perms_wf gid m g perms d :
  groups (rcore d) !! gid = Some g -> m <> owner_uin g -> rooms_wf d ->
  rooms_wf (on_core (set_group_members (map (set_perms gid m (canonical perms)))) d).
Proof.
  intros Hg Hne Hwf. apply (wf_map (fun _ => True)); [done|]. intros x Hx. unfold set_perms, member_key.
  destruct (Z.eqb_spec (gm_group_id x) gid), (Z.eqb_spec (gm_uin x) m); simpl; subst;
    (split_and!; [done|done| |]); try (by apply Hwf); try (by eexists); intros g' Hg' E; try done.
  change (groups (rcore d) !! gm_group_id x = Some g') in Hg'. congruence.
Qed.

Lemma delete_group_wf e gid uin d d' evs :
  e_postgres e = true -> rooms_wf d -> delete_group e gid uin d = Ok (d', evs) -> rooms_wf d'.
Proof.
  intros Hpg Hwf H. unfold delete_group in H. ok_steps. injection H as <- _.
  unfold rooms_wf, rooms_wf_on, rcore, delete_row. simpl. rewrite Hpg. by apply (wf_delete (fun _ => True)).
Qed.

Lemma insert_user_wf uin u d : users (rcore d) !! uin = None -> rooms_wf d -> rooms_wf (on_core (set_users (insert uin u)) d).
Proof.
  intros Hn. apply on_users_wf. intros k v Hk Hg. rewrite lookup_insert_ne; [eauto|]. congruence.
Qed.

Lemma beta_join_wf gid uin d : rooms_wf d -> rooms_wf (beta_join gid uin d).
Proof.
  intros Hwf. unfold beta_join. case_bool_decide as Hg; [|done]. destruct (has_member (rcore d) gid uin) eqn:Hm; [done|].
  apply wf_add; [done|done| |done|done]. by apply has_member_false.
Qed.

Lemma mint_seat_inv now gid uin u d :
  mint_seat now gid uin u d = d \/
  exists g, groups (rcore d) !! gid = Some g /\ users (rcore d) !! uin = None /\ has_member (rcore d) gid uin = false /\
    next_group_id (mint_seat now gid uin u d) = next_group_id d /\ groups (rcore (mint_seat now gid uin u d)) = groups (rcore d) /\
    users (rcore (mint_seat now gid uin u d)) = <[uin := u]> (users (rcore d)) /\
    group_members (rcore (mint_seat now gid uin u d)) =
      group_members (rcore d) ++ [mkGroupMember gid uin "member" "" (armed_join_stamp now g)].
Proof.
  unfold mint_seat. destruct (groups (rcore d) !! gid) as [g|] eqn:Hg; [|by left]. case_bool_decide as Hu; [by left|].
  destruct (enter_room _ _ _ _ _ _) as [c|x] eqn:He; [|by left]. right. exists g.
  apply enter_room_inv in He as (Hn & E1 & E2 & E3). split_and!; try done. by apply eq_None_not_Some.
Qed.

Lemma mint_seat_wf now gid uin u d : rooms_wf d -> rooms_wf (mint_seat now gid uin u d).
Proof.
  intros Hwf. destruct (mint_seat_inv now gid uin u d) as [->|(g & Hg & Hu & Hn & E4 & E1 & E2 & E3)]; [done|].
  unfold rooms_wf, rooms_wf_on. rewrite E1, E2, E3, E4. apply wf_add; [by apply insert_user_wf|by exists g| |done|done].
  by apply has_member_false.
Qed.

Lemma room_apply_wf e op st :
  (forall s, set_order s ≡ₚ elements s) -> e_postgres e = true -> rooms_wf st.1 ->
  rooms_wf (room_apply st (e, op)).1.
Proof.
  intros Hord Hpg. destruct st as [d s]. simpl. intros Hwf. destruct op; simpl.
  - unfold resident. destruct (users (rcore d) !! uin) as [u|] eqn:Hu; [|done].
    case_bool_decide; [|done]. apply committed_wf; [done|]. intros. eapply create_group_wf; eauto.
  - destruct (join_group _ _ _ _ _ _ _ _ _) as [o s'] eqn:H. simpl. apply committed_wf; [done|]. intros a d' b ->.
    apply join_group_inv in H as (g & Hg & [(_ & -> & _)|(_ & _ & _ & _ & H)]); [done|].
    by eapply enter_and_announce_wf.
  - destruct (add_member _ _ _ _ _ _ _ _ _) as [o s'] eqn:H. simpl. apply committed_wf; [done|]. intros a d' b ->.
    apply add_member_inv in H as (g & Hg & _ & _ & _ & [[_ ->]|H]); [done|]. by eapply enter_and_announce_wf.
  - apply committed_wf; [done|]. intros. by eapply remove_member_wf.
  - apply committed_wf; [done|]. intros a d' b H. unfold patch_group in H. ok_steps. injection H as _ <- _.
    apply set_room_wf; [|done]. intros h Hh. match goal with H : patched _ _ _ _ _ = _ |- _ => apply patched_owner in H end.
    congruence.
  - apply committed_wf; [done|]. intros a d' b H. unfold reset_share_token in H. ok_steps. injection H as _ <- _.
    apply set_room_wf; [|done]. simpl. congruence.
  - apply committed_wf; [done|]. intros a d' b H. unfold patch_group_state in H. ok_steps. injection H as _ <- _.
    by apply set_room_wf.
  - apply committed_wf; [done|]. intros a d' b (g & Hg & _ & Hne & _ & ->)%set_member_permissions_inv.
    by eapply set_perms_wf.
  - apply committed_wf; [done|]. intros a d' b H. unfold transfer_owner in H. ok_steps. injection H as _ <- _.
    match goal with H : transfer_check _ _ _ _ = _ |- _ => apply transfer_check_Ok in H as (_ & _ & _ & U & ? & ? & ?) end.
    eapply transfer_write_wf; eauto.
  - destruct (delete_group _ _ _ _) as [[d' evs]|] eqn:H; [|done]. by eapply delete_group_wf.
  - apply on_users_wf; [|done]. intros k u Hk Hg. rewrite lookup_alter. case_decide; [subst|eauto].
    rewrite Hk. by eexists.
  - apply on_users_wf; [|done]. intros k u Hk Hg. rewrite lookup_alter. case_decide; [subst|eauto].
    rewrite Hk. by eexists.
  - case_bool_decide as Hn; [done|]. apply insert_user_wf; [|done]. by apply eq_None_not_Some.
  - by apply beta_join_wf.
  - by apply mint_seat_wf.
Qed.

(** C29. On Postgres (whose foreign keys delete a room's memberships with the
    room; SQLite does not, see [reused_id_inherits_members] in [RoomsView]) rooms
    stay in order, whatever is asked of them and whoever registers, settles, is
    suspended or is minted into a room, in whatever order: a person is in a room once; every membership is of a room that exists; every
    room has exactly one owner row, which is the row of [owner_uin], carries no
    explicit permissions and belongs to an account of this island that is no
    guest copy (through hand-overs and through owners who leave); the stored
    rights of every member are a canonical subset of the three there are. *)
Theorem rooms_wf_run d s xs :
  (forall x, set_order x ≡ₚ elements x) -> Forall (fun x => e_postgres x.1 = true) xs ->
  rooms_wf d -> rooms_wf (room_run (d, s) xs).1.
Proof.
  intros Hord Hpg Hwf. unfold room_run. revert d s Hwf. induction Hpg as [|[e op] xs He _ IH]; intros d s Hwf; [done|].
  simpl. pose proof (room_apply_wf e op (d, s) Hord He Hwf) as Hwf'. unfold room_apply in *.
  destruct (room_apply (d, s) (e, op)) as [d' s'] eqn:E. unfold room_apply in E. rewrite E in Hwf' |- *. by apply IH.
Qed.
End run.

(** ** Rights *)

(** The stored form of a member's rights reads back as what the owner
    granted: each of the known rights in the request, once, in the order of the
    list, and nothing else. *)
Theorem permissions_roundtrip perms :
  perm_list (canonical perms) = filter (fun p => p ∈ perms) GROUP_PERMS.
Proof.
  unfold canonical, GROUP_PERMS. rewrite !filter_cons, filter_nil.
  by destruct (decide ("delete"%string ∈ perms)), (decide ("members"%string ∈ perms)), (decide ("info"%string ∈ perms)).
Qed.

(** ** Leaving and being removed *)

(** Nothing but [who] in room [gid] is touched. *)
Definition only_member_gone (gid who : Z) (d d' : db) : Prop :=
  group_members d' = filter (fun m => ~ (gm_group_id m = gid /\ gm_uin m = who)) (group_members d) /\
  offline_group_messages d' =
    filter (fun r => ~ (og_group_id r = gid /\ og_to_uin r = who)) (offline_group_messages d) /\
  group_log d' = filter (fun r => ~ (gl_group_id r = gid /\ gl_to_uin r = Some who)) (group_log d) /\
  group_log_cursors d' = filter (fun kv => ~ (kv.1.1.1 = gid /\ kv.1.1.2 = who)) (group_log_cursors d) /\
  groups d' = groups d /\ users d' = users d /\ group_seq d' = group_seq d /\ offline_messages d' = offline_messages d.

(** Who may be put out of a room, and what goes with them.  A removal
    succeeds exactly if the target is in the room and either leaves of their own
    accord or is not the owner and is removed by the owner or by a member with
    the right to; their membership, what is queued for them from the room, the
    log rows sealed to them and their cursors go, and nothing else changes
    (when it is not the owner who goes). *)
Theorem removal_rule e gid m uin d :
  (forall g, groups (rcore d) !! gid = Some g -> m <> owner_uin g) ->
  (exists evs d', remove_member e gid m uin d = Ok (MemberLeft m, d', evs) /\
     only_member_gone gid m (rcore d) (rcore d') /\ contacts d' = contacts d) <->
  (is_Some (groups (rcore d) !! gid) /\ has_member (rcore d) gid m = true /\
   exists me, member_row (rcore d) gid uin = Some me /\
     (m = uin \/ forall g, groups (rcore d) !! gid = Some g -> member_can g me "members" = true)).
Proof.
  intros Hno. split.
  - intros (evs & d' & H & _). unfold remove_member in H. ok_steps.
    rename H0 into Hc. unfold remove_check in Hc. ok_steps.
    destruct (member_row (rcore d) gid m) eqn:Hm; [|done].
    split_and!; [by eexists|unfold has_member; rewrite Hm; by apply bool_decide_eq_true_2|].
    eexists. split; [done|]. destruct (Z.eqb_spec m uin); [by left|]. right. intros g' Hg'. simplify_eq.
    match goal with H : context [member_can ?h ?x "members"] |- _ => by destruct (member_can h x "members") end.
  - intros ([g Hg] & Hm & me & Hme & Hor). pose proof (Hno g Hg) as Hne.
    assert (Hc : remove_check gid m uin d = Ok g).
    { unfold remove_check, ensure_member, load_group. rewrite Hme, Hg. simpl.
      unfold has_member in Hm. apply bool_decide_eq_true in Hm as [m0 ->].
      destruct (Z.eqb_spec m uin) as [->|]; simpl.
      - by rewrite andb_false_r.
      - destruct Hor as [?|Hor]; [done|]. rewrite (Hor g Hg). simpl. by destruct (Z.eqb_spec m (owner_uin g)). }
    unfold remove_member. rewrite Hc. simpl. destruct (Z.eqb_spec m (owner_uin g)); [done|].
    eexists _, _. split; [reflexivity|]. by unfold only_member_gone.
Qed.

(** The members who can inherit a room when [who] leaves, oldest first. *)
Definition heirs (d : rdb) (gid who : Z) : list (Z * User) :=
  omap (fun m => if (gm_group_id m =? gid) && negb (gm_uin m =? who)
                 then match users (rcore d) !! gm_uin m with
                      | Some u => if bool_decide (guest_status u = None) then Some (gm_uin m, u) else None
                      | None => None
                      end
                 else None) (group_members (rcore d)).

Lemma eligible_after d gid who :
  map (fun mu => (gm_uin mu.1, mu.2)) (eligible (remove_rows gid who d) gid) = heirs d gid who.
Proof.
  unfold eligible, room_rows, heirs.
  change (users (rcore (remove_rows gid who d))) with (users (rcore d)).
  change (group_members (rcore (remove_rows gid who d)))
    with (filter (fun m => ~ (gm_group_id m = gid /\ gm_uin m = who)) (group_members (rcore d))).
  induction (group_members (rcore d)) as [|m l IH]; [done|]. rewrite filter_cons. simpl.
  destruct (Z.eqb_spec (gm_group_id m) gid) as [E1|E1], (Z.eqb_spec (gm_uin m) who) as [E2|E2]; simpl.
  - rewrite decide_False by naive_solver. done.
  - rewrite decide_True by naive_solver. simpl. rewrite E1, Z.eqb_refl.
    destruct (users (rcore d) !! gm_uin m) as [u|]; [|done]. rewrite filter_cons. simpl.
    case_bool_decide as Hgs; [rewrite (decide_True _ _ Hgs)|by rewrite (decide_False _ _ Hgs)]. simpl. f_equal. exact IH.
  - rewrite decide_True by naive_solver. simpl. by destruct (Z.eqb_spec (gm_group_id m) gid).
  - rewrite decide_True by naive_solver. simpl. by destruct (Z.eqb_spec (gm_group_id m) gid).
Qed.

Lemma find_first_map {A B} (f : A -> B) (p : B -> bool) l :
  find_first p (map f l) = option_map f (find_first (fun a => p (f a)) l).
Proof. induction l as [|x l IH]; [done|]. simpl. by destruct (p (f x)). Qed.

(** The heir, told from the tables as they were. *)
Definition heir (d : rdb) (gid who : Z) : option Z :=
  match find_first (fun x => negb (is_suspended x.2)) (heirs d gid who) with
  | Some (u, _) => Some u
  | None => option_map fst (head (heirs d gid who))
  end.

Lemma next_owner_heir d gid who : next_owner (remove_rows gid who d) gid = heir d gid who.
Proof.
  unfold heir. rewrite <- eligible_after, find_first_map. unfold next_owner. simpl.
  destruct (find_first _ _) as [[m u]|]; [done|]. by destruct (eligible _ _) as [|[m u] l].
Qed.

(** What a leave and a coronation in [gid] do to the lists of other rooms and
    of this one. *)
Lemma leave_other_rooms gid who (l : list GroupMember) :
  filter (fun m => gm_group_id m <> gid) (filter (fun m => ~ (gm_group_id m = gid /\ gm_uin m = who)) l) =
  filter (fun m => gm_group_id m <> gid) l.
Proof. rewrite list_filter_filter. apply list_filter_iff. naive_solver. Qed.

Lemma crown_other_rooms gid u (l : list GroupMember) :
  filter (fun m => gm_group_id m <> gid) (map (crown_row gid u) l) = filter (fun m => gm_group_id m <> gid) l.
Proof.
  induction l as [|m l IH]; [done|]. simpl. rewrite !filter_cons. pose proof (crown_row_key gid u m) as [= -> _].
  case_decide; [|done]. by rewrite crown_row_other, IH.
Qed.

Lemma crown_uins gid u (l : list GroupMember) :
  map gm_uin (filter (fun m => gm_group_id m = gid) (map (crown_row gid u) l)) =
  map gm_uin (filter (fun m => gm_group_id m = gid) l).
Proof.
  induction l as [|m l IH]; [done|]. simpl. rewrite !filter_cons. pose proof (crown_row_key gid u m) as [= E1 E2].
  rewrite E1. case_decide; [|done]. simpl. by rewrite E2, IH.
Qed.

Lemma leave_uins gid who (l : list GroupMember) :
  map gm_uin (filter (fun m => gm_group_id m = gid) (filter (fun m => ~ (gm_group_id m = gid /\ gm_uin m = who)) l)) =
  filter (fun v => v <> who) (map gm_uin (filter (fun m => gm_group_id m = gid) l)).
Proof.
  induction l as [|m l IH]; [done|]. rewrite !filter_cons.
  destruct (decide (gm_group_id m = gid)) as [E|E].
  - simpl. rewrite filter_cons. destruct (decide (gm_uin m = who)) as [E'|E'].
    + rewrite decide_False by naive_solver. by rewrite decide_False by naive_solver.
    + rewrite decide_True by naive_solver. rewrite (decide_True _ _ E'). rewrite filter_cons, decide_True by done.
      simpl. by rewrite IH.
  - rewrite decide_True by naive_solver. by rewrite filter_cons, decide_False by done.
Qed.

(** An owner who leaves is let go, and the room goes to the oldest member
    who lives on the island and is not suspended, or, if they all are, to the
    oldest who lives there; everybody else stays.  Only a room in which nobody
    lives here any more is deleted, and then nothing of it is left behind
    (memberships, log, cursors, counter) and everyone who was in it is told.
    No other room is touched. *)
Theorem owner_leaves e gid g d :
  rooms_wf d -> groups (rcore d) !! gid = Some g ->
  exists out d' evs, remove_member e gid (owner_uin g) (owner_uin g) d = Ok (out, d', evs) /\
  (forall k, k <> gid -> groups (rcore d') !! k = groups (rcore d) !! k) /\
  filter (fun m => gm_group_id m <> gid) (group_members (rcore d')) =
    filter (fun m => gm_group_id m <> gid) (group_members (rcore d)) /\
  match heir d gid (owner_uin g) with
  | Some u =>
      out = MemberLeft (owner_uin g) /\ groups (rcore d') !! gid = Some (set_owner u g) /\
      map gm_uin (rows_of_room d' gid) = filter (fun v => v <> owner_uin g) (map gm_uin (rows_of_room d gid))
  | None =>
      out = RoomDeleted /\ groups (rcore d') !! gid = None /\ rows_of_room d' gid = [] /\
      group_seq (rcore d') !! gid = None /\ (forall r, r ∈ group_log (rcore d') -> gl_group_id r <> gid) /\
      (forall u dev, group_log_cursors (rcore d') !! (gid, u, dev) = None) /\
      forall u, u ∈ map gm_uin (rows_of_room d gid) -> u <> owner_uin g ->
        GroupDeleted u gid (Some "no_resident"%string) ∈ evs
  end.
Proof.
  intros Hwf Hg. destruct (wf_seated _ _ _ _ _ Hwf gid g I Hg) as ((m0 & Hm0 & Hk0 & _) & _ & _).
  assert (Hc : remove_check gid (owner_uin g) (owner_uin g) d = Ok g).
  { assert (Hh : has_member (rcore d) gid (owner_uin g) = true) by (apply has_member_true; eauto).
    unfold has_member in Hh. apply bool_decide_eq_true in Hh as [m Hm].
    unfold remove_check, ensure_member, load_group. rewrite Hm, Hg. simpl. by rewrite !Z.eqb_refl. }
  unfold remove_member. rewrite Hc. simpl. rewrite Z.eqb_refl. unfold succeed. rewrite next_owner_heir.
  destruct (heir d gid (owner_uin g)) as [u|]; eexists _, _, _; (split; [reflexivity|]).
  - split_and!.
    + intros k Hk. simpl. by rewrite lookup_alter_ne.
    + simpl. by rewrite crown_other_rooms, leave_other_rooms.
    + done.
    + simpl. by rewrite lookup_alter_eq, Hg.
    + unfold rows_of_room. simpl. by rewrite crown_uins, leave_uins.
  - split_and!.
    + intros k Hk. simpl. by rewrite lookup_delete_ne.
    + simpl. rewrite list_filter_filter_l by done. apply leave_other_rooms.
    + done.
    + simpl. by rewrite lookup_delete_eq.
    + unfold rows_of_room. simpl. apply filter_none, Forall_forall. by intros m [? _]%list_elem_of_filter.
    + simpl. by rewrite lookup_delete_eq.
    + simpl. intros r [Hr _]%list_elem_of_filter. done.
    + intros u dev. simpl. apply map_lookup_filter_None. right. simpl. naive_solver.
    + intros u Hu Hne. apply list_elem_of_fmap. exists u. split; [done|].
      unfold rows_of_room. simpl. rewrite leave_uins. by apply list_elem_of_filter.
Qed.

(** ** Who may change what about a room *)

(** The rules of the room, which are the owner's. *)
Definition room_rules (g : Group) :=
  (post_policy g, slowmode_sec g, min_account_age_hours g, is_closed (info g), allow_guests (info g),
   members_hidden (info g), links_allowed (info g), files_allowed (info g)).
(** Its face, which a member with the right "info" may change too. *)
Definition room_face (g : Group) :=
  (name (info g), description (info g), in_catalog (info g), pinned_text (info g), pinned_at (info g),
   g_avatar_media_id (info g), g_avatar_media_key (info g)).
(** What a PATCH cannot reach. *)
Definition room_link (g : Group) := (share_token (info g), link_reset_at (info g)).
Definition room_fixed (g : Group) :=
  (owner_uin g, room_link g, state_blob (info g), state_ver (info g), g_badge (info g), avatar_seed (info g),
   g_created_at (info g)).

Lemma patch_field_keeps {A B} (pi : Group -> B) (v : option A) ok msg f g g' :
  (ok = true -> forall a h, pi (f a h) = pi h) -> patch_field v ok msg f g = Ok g' -> pi g' = pi g.
Proof. unfold patch_field. intros Hf H. destruct v, ok; simplify_eq; auto. Qed.

Lemma patch_avatar_keeps {B} (pi : Group -> B) b ok g g' :
  (ok = true -> forall i k h, pi (set_avatar i k h) = pi h) -> patch_avatar b ok g = Ok g' -> pi g' = pi g.
Proof. unfold patch_avatar. intros Hf H. destruct ok; simpl in H; repeat case_match; simplify_eq; auto. Qed.

Ltac patch_keeps pi :=
  repeat match goal with
  | H : patch_field _ _ _ _ _ = Ok _ |- _ =>
      apply (patch_field_keeps pi) in H; [|intros; try congruence; repeat case_match; reflexivity]
  | H : patch_avatar _ _ _ = Ok _ |- _ =>
      apply (patch_avatar_keeps pi) in H; [|intros; try congruence; reflexivity]
  end; congruence.

Lemma patched_keeps now b ci io g g' :
  patched now b ci io g = Ok g' ->
  room_fixed g' = room_fixed g /\ (io = false -> room_rules g' = room_rules g) /\
  (ci = false -> room_face g' = room_face g).
Proof.
  unfold patched. intros H. ok_steps. split_and!.
  - patch_keeps room_fixed.
  - intros ->. patch_keeps room_rules.
  - intros ->. patch_keeps room_face.
Qed.

(** A PATCH that is accepted came from a member, changed the one room it
    names and nothing else of the database, and kept to the caller's rights: the
    rules of the room change only for its owner, its face only for the owner or
    a member with the right "info", and who owns it, its link, its sealed state,
    its badge and its age not at all.  One that is refused on any field changes
    nothing. *)
Theorem patch_group_authority e gid b uin d p d' evs :
  patch_group e gid b uin d = Ok (p, d', evs) ->
  exists g g' me, groups (rcore d) !! gid = Some g /\ member_row (rcore d) gid uin = Some me /\
    d' = set_room gid (fun _ => g') d /\ go_room p = g' /\ room_fixed g' = room_fixed g /\
    (uin <> owner_uin g -> room_rules g' = room_rules g) /\
    (member_can g me "info" = false -> room_face g' = room_face g).
Proof.
  intros H. unfold patch_group in H. ok_steps. injection H as <- <- _.
  match goal with H : patched _ _ _ _ _ = Ok ?h |- _ => apply patched_keeps in H as (Hfix & Hrules & Hface) end.
  eexists _, _, _. split_and!; try done. intros Hne. apply Hrules. apply Z.eqb_neq. congruence.
Qed.

(** ** Share links *)

Section links.
Context {R : Type} `{RR : Redis R}.
Context (num : Z -> string) (hmac_hex : string -> string -> string) (secret : string).
Context (set_order : gset Z -> list Z).
Let apply := room_apply (R := R) num hmac_hex secret set_order.
Let run := room_run (R := R) num hmac_hex secret set_order.

(** What one request can do to the rows of rooms that exist: everything but a
    reset keeps the link. *)
Definition links_kept (op : room_op) (d d' : rdb) : Prop :=
  next_group_id d <= next_group_id d' /\
  forall gid g', gid < next_group_id d -> groups (rcore d') !! gid = Some g' ->
    exists g, groups (rcore d) !! gid = Some g /\
      (room_link g' = room_link g \/
       exists token day uin, op = ResetLink token gid uin /\ room_link g' = (Some token, Some day)).

Lemma links_kept_refl op d : links_kept op d d.
Proof. split; [lia|]. eauto. Qed.

Lemma links_kept_same op d d' :
  next_group_id d' = next_group_id d -> groups (rcore d') = groups (rcore d) -> links_kept op d d'.
Proof. intros E1 E2. split; [lia|]. rewrite E2. eauto. Qed.

Lemma links_kept_room op gid f d :
  (forall g, groups (rcore d) !! gid = Some g -> room_link (f g) = room_link g) -> links_kept op d (set_room gid f d).
Proof.
  intros Hf. split; [simpl; lia|]. intros k g' _. simpl. rewrite lookup_alter. case_decide; [subst|eauto].
  intros (g & Hg & ->)%fmap_Some. eauto.
Qed.

Lemma links_kept_committed {A B} op d (x : outcome (A * rdb * B)) :
  (forall a d' b, x = Ok (a, d', b) -> links_kept op d d') -> links_kept op d (committed d x).
Proof. destruct x as [[[a d'] b]|]; simpl; eauto using links_kept_refl. Qed.

Lemma enter_links op e gid uin g d p d' evs :
  enter_and_announce e gid uin g d = Ok (p, d', evs) -> links_kept op d d'.
Proof. intros (_ & E & _ & E' & _)%enter_and_announce_inv. by apply links_kept_same. Qed.

Lemma links_kept_del op d gid d' :
  next_group_id d' = next_group_id d -> groups (rcore d') = delete gid (groups (rcore d)) -> links_kept op d d'.
Proof.
  intros E1 E2. split; [lia|]. intros k g' _. rewrite E2, lookup_delete. case_decide; [done|eauto].
Qed.

Lemma links_kept_crown op gid u d d1 :
  next_group_id d1 = next_group_id d -> groups (rcore d1) = groups (rcore d) -> links_kept op d (crown gid u d1).
Proof.
  intros E1 E2. split; [simpl; lia|]. intros k g' _. simpl. rewrite E2, lookup_alter. case_decide; [subst|eauto].
  intros (g & Hg & ->)%fmap_Some. eauto.
Qed.

Lemma create_links op e seed token body uin d p d' evs :
  e_postgres e = true -> create_group set_order e seed token body uin d = Ok (p, d', evs) ->
  NoDup (map member_key (group_members (rcore d))) -> links_kept op d d'.
Proof.
  intros Hpg H Hn. unfold create_group in H. ok_steps. injection H as _ <- _.
  apply seat_members_inv in H0 as (E1 & _); [|done]. unfold fresh_group_id in *. rewrite Hpg in *.
  assert (Hf : forall l c, groups (foldl (fun c u => seed_cursors_on_join (e_now e) (next_group_id d) u c) c l) = groups c).
  { clear. induction l as [|u l IH]; intros c; [done|]. simpl. rewrite IH.
    by destruct (seed_only_cursors (e_now e) (next_group_id d) u c) as [f ->]. }
  split; [simpl; lia|]. intros k g' Hk. unfold rcore. simpl. rewrite Hf, E1. simpl.
  rewrite lookup_insert_ne by lia. eauto.
Qed.

Lemma room_apply_links e op d s :
  e_postgres e = true -> rooms_wf d -> links_kept op d (apply (d, s) (e, op)).1.
Proof.
  intros Hpg Hwf. unfold apply. destruct op; simpl.
  - destruct (resident d uin); [|apply links_kept_refl]. apply links_kept_committed. intros.
    eapply create_links; eauto. apply Hwf.
  - destruct (join_group _ _ _ _ _ _ _ _ _) as [o s'] eqn:H. simpl. apply links_kept_committed. intros a d' b ->.
    apply join_group_inv in H as (g & Hg & [(_ & -> & _)|(_ & _ & _ & _ & H)]); [apply links_kept_refl|].
    by eapply enter_links.
  - destruct (add_member _ _ _ _ _ _ _ _ _) as [o s'] eqn:H. simpl. apply links_kept_committed. intros a d' b ->.
    apply add_member_inv in H as (g & Hg & _ & _ & _ & [[_ ->]|H]); [apply links_kept_refl|]. by eapply enter_links.
  - apply links_kept_committed. intros a d' b H. unfold remove_member in H. ok_steps.
    destruct (_ =? _); [unfold succeed in H; destruct (next_owner _ _)|]; injection H as _ <- _.
    + by apply links_kept_crown.
    + by apply (links_kept_del _ _ gid).
    + by apply links_kept_same.
  - apply links_kept_committed. intros a d' b H. unfold patch_group in H. ok_steps. injection H as _ <- _.
    apply links_kept_room. intros h Hh. simplify_eq.
    match goal with H : patched _ _ _ _ _ = Ok _ |- _ => apply patched_keeps in H as (Hfix & _) end.
    unfold room_fixed, room_link in *. congruence.
  - apply links_kept_committed. intros a d' b H. unfold reset_share_token in H. ok_steps. injection H as _ <- _.
    split; [simpl; lia|]. intros k g' _. simpl. rewrite lookup_alter. case_decide; [subst|eauto].
    intros (g & Hg & ->)%fmap_Some. exists g. split; [done|]. right. by eexists _, _, _.
  - apply links_kept_committed. intros a d' b H. unfold patch_group_state in H. ok_steps. injection H as _ <- _.
    by apply links_kept_room.
  - apply links_kept_committed. intros a d' b (g & _ & _ & _ & _ & ->)%set_member_permissions_inv.
    by apply links_kept_same.
  - apply links_kept_committed. intros a d' b H. unfold transfer_owner in H. ok_steps. injection H as _ <- _.
    match goal with H : transfer_write _ _ _ _ _ = Ok _ |- _ => unfold transfer_write in H; rename H into Hw end.
    destruct (groups (rcore d) !! gid); [|done]. ok_steps. subst. apply links_kept_crown; by case_match.
  - destruct (delete_group _ _ _ _) as [[d' evs]|] eqn:H; [|apply links_kept_refl].
    unfold delete_group in H. ok_steps. injection H as <- _. apply (links_kept_del _ _ gid); [done|].
    unfold rcore, delete_row. simpl. by rewrite Hpg.
  - by apply links_kept_same.
  - by apply links_kept_same.
  - case_bool_decide; [apply links_kept_refl|]. by apply links_kept_same.
  - unfold beta_join. destruct (_ && _); [by apply links_kept_same|apply links_kept_refl].
  - destruct (mint_seat_inv (e_now e) gid uin u d) as [->|(g & _ & _ & _ & E4 & E1 & _)]; [apply links_kept_refl|].
    by apply links_kept_same.
Qed.
(** The tokens the run gives the room. *)
Definition tokens_of (gid : Z) (xs : list (renv * room_op)) : list string :=
  omap (fun x => match x.2 with
                 | ResetLink token g _ => if g =? gid then Some token else None
                 | _ => None
                 end) xs.

Definition link_inv (gid : Z) (toks : list string) (d : rdb) : Prop :=
  gid < next_group_id d /\
  forall g, groups (rcore d) !! gid = Some g ->
    exists t day, t ∈ toks /\ room_link g = (Some t, Some day).

Lemma link_inv_run gid toks xs d s :
  (forall x, set_order x ≡ₚ elements x) -> Forall (fun x => e_postgres x.1 = true) xs ->
  (forall t, t ∈ tokens_of gid xs -> t ∈ toks) -> rooms_wf d -> link_inv gid toks d ->
  link_inv gid toks (run (d, s) xs).1.
Proof.
  intros Hord Hpg. unfold run, room_run. revert d s.
  induction Hpg as [|[e op] xs He _ IH]; intros d s Ht Hwf Hinv; [done|].
  cbn [foldl]. pose proof (room_apply_wf num hmac_hex secret set_order e op (d, s) Hord He Hwf) as Hwf'.
  pose proof (room_apply_links e op d s He Hwf) as [Hn Hl]. unfold apply in *.
  destruct (room_apply num hmac_hex secret set_order (d, s) (e, op)) as [d' s']. simpl in *.
  apply IH; [|done|].
  - intros t Hin. apply Ht. unfold tokens_of. simpl. repeat case_match; try done. by right.
  - destruct Hinv as [Hg Hi]. split; [lia|]. intros g' Hg'.
    destruct (Hl gid g' Hg Hg') as (g & Hgg & [Hk|(token & day & uin & -> & Hk)]).
    + rewrite Hk. auto.
    + exists token, day. split; [|done]. apply Ht. unfold tokens_of. simpl. rewrite Z.eqb_refl. by left.
Qed.

(** A reset link is dead for good: after an owner or a moderator reset the
    link of a room, and whatever happens to the room and the island since, no
    outsider enters the room (as long as it is not put in the public catalogue)
    with a key other than one issued by this reset or a later one, nor without a
    key, whatever mode the island runs in. *)
Theorem reset_link_stays_dead e0 token gid uin0 d p d0 evs0 (s : limiter R) xs e k uin d1 s1 g :
  (forall x, set_order x ≡ₚ elements x) -> Forall (fun x => e_postgres x.1 = true) xs -> rooms_wf d ->
  reset_share_token e0 token gid uin0 d = Ok (p, d0, evs0) ->
  run (d0, s) xs = (d1, s1) ->
  groups (rcore d1) !! gid = Some g -> in_catalog (info g) = false ->
  has_member (rcore d1) gid uin = false -> uin <> owner_uin g ->
  (forall key, k = Some key -> String.substring 0 64 key ∉ token :: tokens_of gid xs) ->
  exists x s2, join_group num hmac_hex secret e gid k uin d1 s1 = (Raise x, s2).
Proof.
  intros Hord Hpg Hwf Hreset Hrun Hg Hcat Hm Hne Hk.
  assert (Hwf0 : rooms_wf d0 /\ link_inv gid (token :: tokens_of gid xs) d0).
  { unfold reset_share_token in Hreset. ok_steps. injection Hreset as _ <- _. split.
    - apply set_room_wf; [|done]. simpl. congruence.
    - split.
      + simpl. apply (wf_ids _ _ _ _ _ Hwf). by eexists.
      + simpl. intros g0. rewrite lookup_alter_eq. intros (? & ? & ->)%fmap_Some. eexists _, _. split; [by left|done]. }
  destruct Hwf0 as [Hwf0 Hinv].
  apply (link_inv_run gid _ xs d0 s Hord Hpg) in Hinv; [|intros t Ht; by right|done]. rewrite Hrun in Hinv.
  destruct Hinv as [_ Hinv]. destruct (Hinv g Hg) as (t & day & Ht & [= Htok Hday]).
  destruct (join_group _ _ _ _ _ _ _ _ _) as [[[[p2 d2] evs2]|x] s2] eqn:Hj; [exfalso|by eexists _, _].
  apply join_group_inv in Hj as (g2 & Hg2 & [(Hm2 & _)|(_ & _ & _ & Hor & _)]); [congruence|].
  assert (g2 = g) as -> by (change (rcore (d1, s1).1) with (rcore d1) in *; congruence).
  destruct Hor as [?|[He|Hr]]; [congruence| |].
  - unfold link_entitled in He. rewrite Hcat in He. simpl in He. destruct (Z.eqb_spec uin (owner_uin g)); [done|].
    rewrite bool_decide_eq_false_2 in He.
    2:{ unfold has_member in Hm. by apply bool_decide_eq_false in Hm. }
    unfold key_matches in He. rewrite Htok in He. destruct (truthy (Some t)) as [t'|] eqn:Et; [|done].
    destruct k as [key|]; [|done]. destruct (truthy (Some key)) as [key'|] eqn:Ek; [|done].
    unfold truthy in Et, Ek. repeat case_match; simplify_eq. apply String.eqb_eq in He.
    apply (Hk _ eq_refl). by rewrite He.
  - unfold room_link_refusal in Hr. destruct (truthy k); [done|]. rewrite Hday in Hr.
    rewrite bool_decide_eq_true_2, orb_true_r in Hr; done.
Qed.
End links.
