(* ===== verification/RoomsView.v ===== *)
(** * What of a room can be seen from outside

    The directory and the preview of [Rooms]; examples of rooms at work; and the
    room that comes with somebody else's members. *)

From stdpp Require Import base list sorting gmap strings pretty.
From Stdlib Require Import ZArith Lia Ascii.
From S2P Require Import Prelude Text Storage Redis RateLimit GuestPolicy GroupLogStore Gates Bytes KeyStorage Rooms RoomsWf.

Section view.
Context {R : Type} `{RR : Redis R}.

(** A row of a directory is the card of a room anyone may walk into and the
    viewer is not in. *)
Definition public_row (d : rdb) (viewer : Z) (o : GroupPreviewOut) : Prop :=
  exists g avatar, groups (rcore d) !! gp_id o = Some g /\ is_closed (info g) = false /\ in_catalog (info g) = true /\
    has_member (rcore d) (gp_id o) viewer = false /\ o = preview_card d (gp_id o) g avatar.

Lemma listed_rooms_spec d viewer gid g :
  (gid, g) ∈ listed_rooms d viewer <->
  groups (rcore d) !! gid = Some g /\ is_closed (info g) = false /\ in_catalog (info g) = true /\
  has_member (rcore d) gid viewer = false.
Proof. unfold listed_rooms. rewrite list_elem_of_filter, elem_of_map_to_list. naive_solver. Qed.

Lemma capped_bounds limit : (1 <= capped limit <= 50)%nat.
Proof. unfold capped. lia. Qed.

Lemma cards_public d viewer avatar (l : list (Z * Group)) n :
  (forall gg, gg ∈ l -> gg ∈ listed_rooms d viewer) ->
  let out := map (fun gg => preview_card d gg.1 gg.2 (avatar gg)) (take n l) in
  (length out <= n)%nat /\ Forall (public_row d viewer) out.
Proof.
  intros Hl out. unfold out. rewrite length_map, length_take. split; [lia|].
  apply Forall_forall. intros o ([gid g] & -> & Hin)%list_elem_of_fmap.
  apply elem_of_take in Hin as (i & Hi%list_elem_of_lookup_2 & _).
  apply Hl, listed_rooms_spec in Hi as (? & ? & ? & ?). by exists g, (avatar (gid, g)).
Qed.

(** The directory shows what was published and nothing else: whatever is
    asked of the carousel or the search, by name or by number, every row is an
    open room of the catalogue the caller is not in, at most fifty come back, the
    carousel's biggest first, and a guest copy is shown none. *)
Theorem directory_rule ilike e q limit viewer d (s : limiter R) :
  exists carousel found s1 s2,
    discover_groups e limit viewer d s = (Ok carousel, s1) /\
    search_groups ilike e q limit viewer d s = (Ok found, s2) /\
    Forall (public_row d viewer) carousel /\ (length carousel <= 50)%nat /\
    Forall (public_row d viewer) found /\ (length found <= 50)%nat /\
    StronglySorted (fun a b => gp_member_count b <= gp_member_count a) carousel /\
    (fst (ask_guest e d viewer s) = Ok true -> carousel = [] /\ found = []).
Proof.
  unfold discover_groups, search_groups, mbind.
  destruct (ask_guest e d viewer s) as [[b|x] s'] eqn:Eg; [|by unfold ask_guest in Eg; destruct (is_guest _ _ _ _ _ _)].
  destruct b; simpl.
  { exists [], [], s', s'. split_and!; try done; first [lia | simpl; lia | constructor]. }
  pose proof (capped_bounds limit) as Hcap.
  set (n := fun gg : Z * Group => Z.of_nat (length (room_rows d gg.1))).
  set (rows := sort_by _ (sort_by _ _)).
  assert (Hc := cards_public d viewer (fun gg => negb (is_closed (info gg.2))) rows (capped limit)).
  destruct Hc as [Hlen Hpub].
  { intros gg Hgg. unfold rows in Hgg. rewrite !elem_of_sort_by in Hgg. by apply list_elem_of_filter in Hgg as [_ ?]. }
  assert (Hsorted : StronglySorted (fun a b => gp_member_count b <= gp_member_count a)
            (map (fun gg => preview_card d gg.1 gg.2 (negb (is_closed (info gg.2)))) (take (capped limit) rows))).
  { assert (Hs : StronglySorted (key_le (fun gg : Z * Group => - n gg)) (take (capped limit) rows)).
    { apply (StronglySorted_app_1_l _ _ (drop (capped limit) rows)). rewrite take_drop. apply sort_by_sorted. }
    clear Hlen Hpub. induction Hs as [|gg l _ IH Hall]; simpl; [constructor|]. constructor; [done|]. rewrite Forall_map. eapply Forall_impl; [exact Hall|].
    unfold key_le, n. simpl. lia. }
  destruct (String.length (strip q) <? 2)%nat.
  { eexists _, [], _, _. split_and!; try done; first [lia | simpl; lia | constructor]. }
  set (frows := sort_by _ (filter _ (listed_rooms d viewer))).
  assert (Hf := cards_public d viewer (fun _ => false) frows (capped limit)). destruct Hf as [Hflen Hfpub].
  { intros gg Hgg. unfold frows in Hgg. rewrite elem_of_sort_by in Hgg. by apply list_elem_of_filter in Hgg as [_ ?]. }
  eexists _, _, _, _. split_and!; try done; lia.
Qed.

(** A closed room tells a stranger nothing: to whoever is neither its owner
    nor a member and does not hold its key, the preview is the answer for a room
    that does not exist, or a card with nothing on it but the number asked for;
    which of the two depends on the island's setting alone. *)
Theorem closed_preview_hides e gid k viewer d (s : limiter R) g :
  groups (rcore d) !! gid = Some g -> is_closed (info g) = true ->
  (forall u, viewer = Some u -> u <> owner_uin g /\ has_member (rcore d) gid u = false) ->
  key_matches g k = false ->
  fst (preview_group e gid k viewer d s) =
    if e_require_closed_token e then Raise (HTTPException 404 "no such group") else Ok (redacted gid).
Proof.
  intros Hg Hc Hout Hk. unfold preview_group, load_group, mlift, mbind. rewrite Hg, Hc. simpl.
  assert (He : link_entitled d gid g viewer k = false).
  { unfold link_entitled. rewrite Hc, andb_false_r. destruct viewer as [u|]; [|done].
    destruct (Hout u eq_refl) as [Hne Hm]. destruct (Z.eqb_spec u (owner_uin g)); [done|].
    unfold has_member in Hm. by rewrite Hm. }
  rewrite He. by destruct (e_require_closed_token e).
Qed.
End view.

(** ** Rooms at work *)

Definition demo_people : db :=
  set_users (fun _ => {[ 1 := mkUser 0 0 None [] false (mkProfile "ann" None false "online" None None "everyone" "everyone");
                         3 := mkUser 0 0 None [] false (mkProfile "bob" None false "online" None None "everyone" "everyone");
                         7 := mkUser 0 0 None [] true (mkProfile "eve" None false "online" None None "everyone" "everyone");
                         9 := mkUser 0 0 (Some STATUS_PROVEN) [] false plain_profile ]}) empty_db.
Definition demo_island : rdb := mkRdb (set_core demo_people empty_kdb) ∅ 1.
Definition demo_renv (pg : bool) : renv :=
  mkRenv (days 3) (fun _ => false) "scratch" "day" true true true false false 100 3500 50 200 pg.
Definition demo_redis : limiter store := mkLimiter (∅ : store) ∅.
Definition demo_rooms_run := room_run (R := store) (pretty : Z -> string) demo_hmac "k" (elements (C := gset Z)).

(** Ann makes a room for Eve and herself and deletes it; then Bob makes one of
    his own. *)
Definition reused_room : list (renv * room_op) :=
  map (pair (demo_renv false))
    [Create 0 "tok" (mkCreateGroupIn "first" [7]) 1; Delete 1 1; Create 0 "tak" (mkCreateGroupIn "second" []) 3].

(** On a database that does not enforce its foreign keys (SQLite, unless it is
    told to), deleting a room leaves its membership rows, and the next room takes
    the id one above the greatest left, which is the id just freed: Bob's new
    room has Eve and Ann in it, Ann's row still calling itself owner. *)
Theorem reused_id_inherits_members :
  let d := (demo_rooms_run (demo_island, demo_redis) reused_room).1 in
  option_map owner_uin (groups (rcore d) !! 1) = Some 3 /\
  has_member (rcore d) 1 7 = true /\
  map (fun m => (gm_uin m, gm_role m)) (rows_of_room d 1) = [(7, "member"); (1, "owner"); (3, "owner")]%string.
Proof. vm_compute. repeat split. Qed.

(** ** Witnesses *)

Lemma demo_island_wf : rooms_wf demo_island.
Proof.
  split; simpl.
  - constructor.
  - intros m Hm. by apply not_elem_of_nil in Hm.
  - intros gid g _ Hg. by rewrite lookup_empty in Hg.
  - intros gid [g Hg]. by rewrite lookup_empty in Hg.
  - intros m Hm. by apply not_elem_of_nil in Hm.
Qed.

(** A room of Ann's, with Eve (suspended), the guest and Bob, in that order. *)
Definition demo_history : list (renv * room_op) :=
  map (pair (demo_renv true))
    [Create 0 "tok" (mkCreateGroupIn "first" []) 1; Join 1 (Some "tok"%string) 7; Join 1 (Some "tok"%string) 9;
     Join 1 (Some "tok"%string) 3].
Definition demo_room_state : rdb := (demo_rooms_run (demo_island, demo_redis) demo_history).1.

Lemma rooms_wf_run_witness :
  rooms_wf (demo_rooms_run (demo_island, demo_redis) demo_history).1 /\
  map (fun m => (gm_uin m, gm_role m)) (rows_of_room demo_room_state 1)
    = [(1, "owner"); (7, "member"); (9, "member"); (3, "member")]%string.
Proof.
  split; [|by vm_compute].
  apply (rooms_wf_run (pretty : Z -> string) demo_hmac "k"); [done| |exact demo_island_wf].
  apply Forall_forall. by intros x (op & -> & _)%list_elem_of_fmap.
Defined.

Lemma demo_room_state_wf : rooms_wf demo_room_state.
Proof.
  unfold demo_room_state, demo_rooms_run, room_run, demo_history. cbn [map foldl].
  assert (H : forall st op, rooms_wf st.1 ->
    rooms_wf (room_apply (R := store) (pretty : Z -> string) demo_hmac "k" (elements (C := gset Z)) st (demo_renv true, op)).1).
  { intros st op Hwf. by apply room_apply_wf. }
  repeat apply H. exact demo_island_wf.
Qed.

Lemma demo_room_is_there : exists g, groups (rcore demo_room_state) !! 1 = Some g /\ owner_uin g = 1.
Proof. eexists. split; [vm_compute; reflexivity|reflexivity]. Qed.

(** Ann leaves: the room is Bob's, not the suspended Eve's and not the guest's. *)
Lemma owner_leaves_witness :
  exists g out d' evs, groups (rcore demo_room_state) !! 1 = Some g /\
    remove_member (demo_renv true) 1 (owner_uin g) (owner_uin g) demo_room_state = Ok (out, d', evs) /\
    option_map owner_uin (groups (rcore d') !! 1) = Some 3.
Proof.
  destruct demo_room_is_there as (g & Hg & Ho).
  destruct (owner_leaves (demo_renv true) 1 g demo_room_state demo_room_state_wf Hg) as (out & d' & evs & H & _ & _ & Hm).
  exists g, out, d', evs. split; [done|]. split; [done|].
  assert (Hh : heir demo_room_state 1 (owner_uin g) = Some 3) by (rewrite Ho; by vm_compute).
  rewrite Hh in Hm. destruct Hm as (_ & -> & _). done.
Defined.

(** Ann puts Eve out. *)
Lemma removal_rule_witness :
  exists evs d', remove_member (demo_renv true) 1 7 1 demo_room_state = Ok (MemberLeft 7, d', evs) /\
    only_member_gone 1 7 (rcore demo_room_state) (rcore d') /\ contacts d' = contacts demo_room_state.
Proof.
  apply (removal_rule (demo_renv true) 1 7 1 demo_room_state).
  - intros g Hg. destruct demo_room_is_there as (g0 & Hg0 & Ho). rewrite Hg0 in Hg. injection Hg as <-. by rewrite Ho.
  - split; [vm_compute; by eexists|]. split; [by vm_compute|].
    eexists. split; [vm_compute; reflexivity|]. right. intros g Hg.
    destruct demo_room_is_there as (g0 & Hg0 & Ho). rewrite Hg0 in Hg. injection Hg as <-.
    unfold member_can. by rewrite Ho.
Defined.

Definition rename (n : string) : GroupPatchIn :=
  mkGroupPatchIn (Some n) None None None None None None None None None None None None None.

Lemma patch_group_authority_witness :
  exists p d' evs, patch_group (demo_renv true) 1 (rename "club") 1 demo_room_state = Ok (p, d', evs) /\
    name (info (go_room p)) = "club"%string /\ owner_uin (go_room p) = 1.
Proof.
  assert (Hn : match patch_group (demo_renv true) 1 (rename "club") 1 demo_room_state with
               | Ok (q, _, _) => name (info (go_room q)) = "club"%string | Raise _ => False end) by (by vm_compute).
  destruct (patch_group (demo_renv true) 1 (rename "club") 1 demo_room_state) as [[[p d'] evs]|x] eqn:H; [|exfalso; exact Hn].
  exists p, d', evs. split; [reflexivity|].
  destruct (patch_group_authority _ _ _ _ _ _ _ _ H) as (g & g' & me & Hg & _ & _ & Hp & Hfix & _).
  destruct demo_room_is_there as (g0 & Hg0 & Ho). rewrite Hg0 in Hg. injection Hg as <-. split; [exact Hn|].
  rewrite Hp. injection Hfix as -> _. exact Ho.
Defined.

(** Ann resets the link; the key of before, and no key at all, open nothing. *)
Lemma reset_link_stays_dead_witness :
  exists p d0 evs, reset_share_token (demo_renv true) "new" 1 1 demo_room_state = Ok (p, d0, evs) /\
  forall k, k = None \/ k = Some "tok"%string ->
  exists x s2, join_group (R := store) (pretty : Z -> string) demo_hmac "k" (demo_renv true) 1 k 5 d0 demo_redis = (Raise x, s2).
Proof.
  pose (look := fun d : rdb => (option_map (fun g => (in_catalog (info g), owner_uin g)) (groups (rcore d) !! 1),
                                has_member (rcore d) 1 5)).
  assert (Hl : match reset_share_token (demo_renv true) "new" 1 1 demo_room_state with
               | Ok (_, d, _) => look d = (Some (false, 1), false) | Raise _ => False end) by (by vm_compute).
  destruct (reset_share_token (demo_renv true) "new" 1 1 demo_room_state) as [[[p d0] evs]|x] eqn:H; [|exfalso; exact Hl].
  exists p, d0, evs. split; [reflexivity|]. intros k Hk.
  assert (Hr : exists g, groups (rcore d0) !! 1 = Some g /\ in_catalog (info g) = false /\
                 has_member (rcore d0) 1 5 = false /\ 5 <> owner_uin g).
  { unfold look in Hl.
    destruct (groups (rcore d0) !! 1) as [g|]; [|discriminate Hl]. exists g. injection Hl as H1 H2 H3.
    split; [reflexivity|]. split; [exact H1|]. split; [exact H3|]. rewrite H2. discriminate. }
  destruct Hr as (g & Hg & Hc & Hm & Ho).
  apply (reset_link_stays_dead (pretty : Z -> string) demo_hmac "k" (elements (C := gset Z)) (demo_renv true) "new" 1 1
           demo_room_state p d0 evs demo_redis [] (demo_renv true) k 5 d0 demo_redis g);
    [reflexivity|constructor|exact demo_room_state_wf|exact H|reflexivity|exact Hg|exact Hc|exact Hm|exact Ho|].
  intros key ->. destruct Hk as [[=]|[= ->]]. clear. intros Hin%list_elem_of_singleton. discriminate Hin.
Defined.

Definition demo_closed : rdb :=
  set_room 1 (set_is_closed true) demo_room_state.

Lemma closed_preview_hides_witness :
  fst (preview_group (R := store) (demo_renv true) 1 (Some "guess"%string) (Some 5) demo_closed demo_redis)
    = Ok (redacted 1).
Proof.
  destruct demo_room_is_there as (g & Hg & Ho).
  apply (closed_preview_hides (demo_renv true) 1 (Some "guess"%string) (Some 5) demo_closed demo_redis (set_is_closed true g)).
  - unfold demo_closed. simpl. by rewrite lookup_alter_eq, Hg.
  - done.
  - intros u [= <-]. split; [simpl; rewrite Ho; done|by vm_compute].
  - unfold key_matches. simpl. assert (Ht : share_token (info g) = Some "tok"%string).
    { assert (H : option_map (fun g => share_token (info g)) (groups (rcore demo_room_state) !! 1) = Some (Some "tok"%string))
        by (by vm_compute). rewrite Hg in H. by injection H. }
    by rewrite Ht.
Defined.
