(* ===== verification/RoomRaces.v ===== *)
(** * Races over a room

    The requests of [Rooms] that read, decide and write later, cut where another
    request can come in between: a hand-over (its checks, then its conditional
    UPDATE), a removal (its checks, the commit that deletes the membership, the
    commit that crowns an heir), a write of the sealed state (its checks, then
    its UPDATE).  [rstep] interleaves them with each other and with people
    entering and rights changing.

    Each write is one transaction; what a request decided on is what it had read,
    because a session keeps the objects it loaded. *)

From stdpp Require Import base list gmap strings relations.
From Stdlib Require Import ZArith Lia.
From S2P Require Import Prelude Storage Redis RateLimit GuestPolicy GroupLogStore Gates Bytes KeyStorage Rooms RoomsWf.

(** A request that has read and not yet written. *)
Inductive pend :=
  | PTransfer (gid to_uin uin : Z) (outgoing : bool)
  | PRemove (gid member_uin owner_seen : Z)
  | PSucceed (gid : Z)
  | PState (gid : Z) (blob : bytes) (ver : Z).

(** The tables, the requests in flight, and the state writes that were answered
    with success, newest first. *)
Record race := mkRace { r_db : rdb; r_pend : list pend; r_acks : list (Z * Z * bytes) }.

Inductive rstep : race -> race -> Prop :=
  | r_transfer_check d P A gid to_uin uin o :
      transfer_check gid to_uin uin d = Ok o ->
      rstep (mkRace d P A) (mkRace d (PTransfer gid to_uin uin o :: P) A)
  | r_transfer_write d P1 P2 A gid to_uin uin o d' :
      transfer_write gid to_uin uin o d = Ok d' ->
      rstep (mkRace d (P1 ++ PTransfer gid to_uin uin o :: P2) A) (mkRace d' (P1 ++ P2) A)
  | r_transfer_refused d P1 P2 A gid to_uin uin o x :
      transfer_write gid to_uin uin o d = Raise x ->
      rstep (mkRace d (P1 ++ PTransfer gid to_uin uin o :: P2) A) (mkRace d (P1 ++ P2) A)
  | r_remove_check d P A gid m uin g :
      remove_check gid m uin d = Ok g ->
      rstep (mkRace d P A) (mkRace d (PRemove gid m (owner_uin g) :: P) A)
  | r_remove_rows d P1 P2 A gid m seen :
      rstep (mkRace d (P1 ++ PRemove gid m seen :: P2) A)
            (mkRace (remove_rows gid m d) (P1 ++ (if m =? seen then [PSucceed gid] else []) ++ P2) A)
  | r_succeed d P1 P2 A gid :
      rstep (mkRace d (P1 ++ PSucceed gid :: P2) A) (mkRace (succeed gid d).1 (P1 ++ P2) A)
  | r_state_check d P A gid body uin blob :
      state_check gid body uin d = Ok blob ->
      rstep (mkRace d P A) (mkRace d (PState gid blob (gs_ver body) :: P) A)
  | r_state_write d P1 P2 A gid blob ver :
      rstep (mkRace d (P1 ++ PState gid blob ver :: P2) A)
            (mkRace (state_write gid blob ver d) (P1 ++ P2) ((gid, ver, blob) :: A))
  | r_enter d P A e gid uin g p d' evs :
      groups (rcore d) !! gid = Some g -> enter_and_announce e gid uin g d = Ok (p, d', evs) ->
      rstep (mkRace d P A) (mkRace d' P A)
  | r_permit d P A e gid m perms uin p d' evs :
      set_member_permissions e gid m perms uin d = Ok (p, d', evs) ->
      rstep (mkRace d P A) (mkRace d' P A)
  (* a request whose worker dies, anywhere *)
  | r_dies d P1 P2 A q : rstep (mkRace d (P1 ++ q :: P2) A) (mkRace d (P1 ++ P2) A).

Definition rsteps : race -> race -> Prop := rtc rstep.
Definition idle (d : rdb) : race := mkRace d [] [].

(** ** One owner *)

(** Nobody but [owner_uin] has a row that calls itself owner. *)
Definition one_owner (d : rdb) : Prop :=
  forall m g, m ∈ group_members (rcore d) -> groups (rcore d) !! gm_group_id m = Some g ->
    gm_role m = "owner"%string -> gm_uin m = owner_uin g.

Lemma rooms_wf_one_owner d : rooms_wf d -> one_owner d.
Proof. intros Hwf m g Hm Hg Hr. destruct (wf_seated _ _ _ _ _ Hwf _ g I Hg) as (_ & Hone & _). auto. Qed.

Lemma one_owner_crown gid u d :
  (forall k, k <> gid -> forall m g, m ∈ group_members (rcore d) -> gm_group_id m = k ->
     groups (rcore d) !! k = Some g -> gm_role m = "owner"%string -> gm_uin m = owner_uin g) ->
  one_owner (crown gid u d).
Proof.
  intros H m g. simpl. intros (x & -> & Hx)%list_elem_of_fmap.
  pose proof (crown_row_key gid u x) as [= E1 E2]. rewrite E1, E2. rewrite lookup_alter. case_decide as E.
  - intros (g0 & _ & ->)%fmap_Some Hr. simpl. by apply (crown_row_owner gid u x).
  - intros Hg. rewrite crown_row_other by congruence. intros Hr. by eapply (H (gm_group_id x)).
Qed.

Lemma one_owner_fewer d d' :
  groups (rcore d') = groups (rcore d) -> (forall m, m ∈ group_members (rcore d') -> m ∈ group_members (rcore d)) ->
  one_owner d -> one_owner d'.
Proof. intros E Hsub H m g Hm. rewrite E. eauto. Qed.

Lemma transfer_write_one_owner gid to_uin uin o d d' :
  one_owner d -> transfer_write gid to_uin uin o d = Ok d' -> one_owner d'.
Proof.
  intros H. unfold transfer_write. destruct (groups (rcore d) !! gid) as [g|]; [|done]. intros Hw. ok_steps. subst d'.
  apply one_owner_crown. intros k Hk m h. destruct o; simpl; [|intros ? <-; eauto].
  intros (x & -> & Hx)%list_elem_of_fmap. destruct (demote_row_facts gid uin x) as ([= E1 E2] & _ & Hid).
  rewrite E1. intros <-. rewrite Hid by done. eauto.
Qed.

Lemma succeed_one_owner gid d : one_owner d -> one_owner (succeed gid d).1.
Proof.
  intros H. unfold succeed. destruct (next_owner d gid); simpl.
  - apply one_owner_crown. intros k _ m g Hm <-. eauto.
  - intros m g [_ Hm]%list_elem_of_filter. simpl. rewrite lookup_delete. case_decide; [done|]. eauto.
Qed.

Lemma rstep_one_owner a b : rstep a b -> one_owner (r_db a) -> one_owner (r_db b).
Proof.
  destruct 1; simpl; intros Ho; auto.
  - by eapply transfer_write_one_owner.
  - apply (one_owner_fewer d); [done| |done]. by intros x [_ ?]%list_elem_of_filter.
  - by apply succeed_one_owner.
  - intros x g Hx. simpl. rewrite lookup_alter. case_decide; [subst|eauto].
    intros (g0 & ? & ->)%fmap_Some. simpl. eauto.
  - match goal with H : enter_and_announce _ _ _ _ _ = _ |- _ =>
      apply enter_and_announce_inv in H as (_ & E1 & _ & _ & _ & E3) end.
    intros x h. rewrite E1, E3. intros [Hx| ->%list_elem_of_singleton]%elem_of_app; [eauto|done].
  - match goal with H : set_member_permissions _ _ _ _ _ _ = _ |- _ =>
      apply set_member_permissions_inv in H as (g & _ & _ & _ & _ & ->) end.
    intros x h. simpl. intros (y & -> & Hy)%list_elem_of_fmap. unfold set_perms.
    destruct ((gm_group_id y =? gid) && (gm_uin y =? m)) eqn:E; [|eauto]. breflect. subst. simpl. eauto.
Qed.

(** C30. Nobody wears the crown by mistake: in every interleaving of hand-overs,
    removals, owners leaving, people entering and rights being granted, with
    requests dying anywhere, a member row calls itself owner only if it is the
    row of the room's [owner_uin]; so the roster never shows two. *)
Theorem one_owner_always d st :
  rooms_wf d -> rsteps (idle d) st -> one_owner (r_db st).
Proof.
  intros Hwf Hst. assert (Ho : one_owner (r_db (idle d))) by by apply rooms_wf_one_owner.
  revert Ho. induction Hst as [|a b c Hab _ IH]; [done|]. intros Ha. apply IH. by eapply rstep_one_owner.
Qed.

(** ** What the races break *)

(** A room of 1's, with 3 and a moderator, 5. *)
Definition race_room : rdb :=
  let person := mkUser 0 0 None [] false plain_profile in
  mkRdb (set_core
    (set_group_members (fun _ => [mkGroupMember 1 1 "owner" "" None; mkGroupMember 1 3 "member" "" None;
                                  mkGroupMember 1 5 "member" "members,info" None])
      (set_groups (fun _ => {[ 1 := mkGroup 1 "all" 0 0 (plain_info "room" 0 None 0) ]})
        (set_users (fun _ => {[ 1 := person; 3 := person; 5 := person ]}) empty_db))) empty_kdb) ∅ 2.

Lemma race_room_wf : rooms_wf race_room.
Proof.
  split; simpl.
  - apply (bool_decide_unpack _). by vm_compute.
  - intros m Hm. assert (gm_group_id m = 1) as -> by set_solver. by eexists.
  - intros gid g _ Hg. destruct (decide (gid = 1)) as [->|Hne].
    + rewrite lookup_singleton_eq in Hg. injection Hg as <-. split_and!; simpl.
      * eexists. by split; [left|].
      * intros m Hm _. repeat (apply elem_of_cons in Hm as [->|Hm]; [done|]). by apply not_elem_of_nil in Hm.
      * eexists. by split; [vm_compute|].
    + by rewrite lookup_singleton_ne in Hg.
  - intros gid [g Hg]. destruct (decide (gid = 1)) as [->|Hne]; [lia|]. by rewrite lookup_singleton_ne in Hg.
  - intros m Hm. repeat (apply elem_of_cons in Hm as [->|Hm]; [first [by exists []|by exists ["members"; "info"]%string]|]).
    by apply not_elem_of_nil in Hm.
Qed.

(** The owner hands the room to 3 while the moderator puts 3 out. *)
Definition crossed : race :=
  mkRace (remove_rows 1 3 (crown 1 3 (on_core (set_group_members (map (demote_row 1 1))) race_room))) [] [].

Lemma crossed_reachable : rsteps (idle race_room) crossed.
Proof.
  eapply rtc_l. { apply (r_transfer_check _ _ _ 1 3 1 true). by vm_compute. }
  eapply rtc_l. { eapply (r_remove_check _ _ _ 1 3 5). by vm_compute. }
  eapply rtc_l. { eapply (r_transfer_write _ [_] [] _ 1 3 1 true). reflexivity. }
  eapply rtc_l. { eapply (r_remove_rows _ [] []). }
  apply rtc_refl.
Qed.

(** The checks of a removal are not repeated at its commit: when a hand-over to
    the same member commits in between, the new owner is put out of the room, and
    nobody inherits it, because the removal saw the old owner.  ([transfer_owner]
    says of a room whose [owner_uin] has no membership row that nothing writes
    one.) *)
Theorem owner_without_seat :
  exists d, rsteps (idle race_room) (mkRace d [] []) /\
    option_map owner_uin (groups (rcore d) !! 1) = Some 3 /\ has_member (rcore d) 1 3 = false /\
    map gm_uin (rows_of_room d 1) = [1; 5].
Proof. exists (r_db crossed). split; [exact crossed_reachable|]. by vm_compute. Qed.

(** The version of the sealed state is compared with what was read, not in the
    UPDATE: two writers of one version are both answered with success, and the
    first one's blob is gone. *)
Theorem state_write_lost :
  exists d, rsteps (idle race_room) (mkRace d [] [(1, 1, [66]); (1, 1, [65])]) /\
    option_map (fun g => (state_blob (info g), state_ver (info g))) (groups (rcore d) !! 1) = Some (Some [66], 1).
Proof.
  eexists. split.
  - eapply rtc_l. { apply (r_state_check _ _ _ 1 (mkGroupStateIn "QQ==" 1) 1 [65]). by vm_compute. }
    eapply rtc_l. { apply (r_state_check _ _ _ 1 (mkGroupStateIn "Qg==" 1) 5 [66]). by vm_compute. }
    eapply rtc_l. { eapply (r_state_write _ [_] []). }
    eapply rtc_l. { eapply (r_state_write _ [] []). }
    apply rtc_refl.
  - by vm_compute.
Qed.

Lemma one_owner_always_witness : one_owner (r_db crossed).
Proof. apply (one_owner_always race_room crossed); [exact race_room_wf|exact crossed_reachable]. Defined.
