(* ===== verification/KeyProof.v ===== *)
(** * Signed proofs of a key

    Models [src/app/services/reissue_proof.py], [guest_proof.py] and
    [island_hosts.py], and [key_spellings] of [guest_accounts.py]: the wire
    spellings of keys, nonces and hosts, the bytes the old signing key signs for
    a change of keys and the bytes a guest's key signs for a copy, and the host
    names a proof may be bound to.

    The theorems: the signed bytes determine what was signed, across the two
    layouts; canonical spellings decode to what they spell and a canonical host
    is canonical again.  A key has more spellings than the two the lookups
    know. *)

From stdpp Require Import base list strings pretty.
From Stdlib Require Import ZArith Lia Ascii.
From S2P Require Import Prelude Text Bytes.

(** ** Strings *)

Definition NL : ascii := "010".
Definition CR : ascii := "013".

Definition has_char (c : ascii) (s : string) : bool := negb (all_chars (fun x => negb (Ascii.eqb x c)) s).

Fixpoint count_char (c : ascii) (s : string) : nat :=
  match s with
  | EmptyString => 0
  | String x s' => (if Ascii.eqb x c then 1 else 0) + count_char c s'
  end.

(** [s.split(c, 1)] where [c] occurs: what stands before its first occurrence
    and after it. *)
Fixpoint split_char (c : ascii) (s : string) : option (string * string) :=
  match s with
  | EmptyString => None
  | String x s' =>
      if Ascii.eqb x c then Some (EmptyString, s')
      else match split_char c s' with Some (a, b) => Some (String x a, b) | None => None end
  end.

(** [s.rstrip(c)] *)
Fixpoint rstrip_char (c : ascii) (s : string) : string :=
  match s with
  | EmptyString => EmptyString
  | String x s' =>
      match rstrip_char c s' with
      | EmptyString => if Ascii.eqb x c then EmptyString else String x EmptyString
      | t => String x t
      end
  end.

(** ["\n".join(lines)] *)
Fixpoint join_lines (l : list string) : string :=
  match l with
  | [] => ""
  | [w] => w
  | w :: l' => (w ++ String NL (join_lines l'))%string
  end.

(** ["=" * (-n % 4)] *)
Definition padding (n : nat) : string :=
  match (n mod 4)%nat with 1%nat => "===" | 2%nat => "==" | 3%nat => "=" | _ => "" end.

(** ** Wire spellings *)

(** [_b64_any]; [None]: ValueError. *)
Definition b64_any (value : string) : option bytes :=
  let raw := strip value in b64decode_strict (raw ++ padding (String.length raw)).

Definition decode_key32 (value : string) : option bytes :=
  match b64_any value with
  | Some b => if bool_decide (length b = 32%nat) then Some b else None
  | None => None
  end.

Definition decode_signature (value : string) : option bytes :=
  match b64_any value with
  | Some b => if bool_decide (length b = 64%nat) then Some b else None
  | None => None
  end.

(** [str.isalnum] of one character below 256. *)
Definition is_alnum (c : ascii) : bool :=
  let n := Z.of_nat (nat_of_ascii c) in
  ((48 <=? n) && (n <=? 57)) || ((65 <=? n) && (n <=? 90)) || ((97 <=? n) && (n <=? 122))
  || bool_decide (n ∈ [170; 178; 179; 181; 185; 186; 188; 189; 190])
  || ((192 <=? n) && negb (n =? 215) && negb (n =? 247)).

(** The alphabets of [urlsafe_b64decode] and [urlsafe_b64encode]. *)
Fixpoint map_chars (f : ascii -> ascii) (s : string) : string :=
  match s with EmptyString => EmptyString | String c s' => String (f c) (map_chars f s') end.
Definition std_char (c : ascii) : ascii :=
  if Ascii.eqb c "-" then "+" else if Ascii.eqb c "_" then "/" else c.
Definition url_char (c : ascii) : ascii :=
  if Ascii.eqb c "+" then "-" else if Ascii.eqb c "/" then "_" else c.

Definition nonce_char (c : ascii) : bool := is_alnum c || Ascii.eqb c "-" || Ascii.eqb c "_".

Definition decode_nonce (value : string) : option bytes :=
  let raw := strip value in
  if negb (bool_decide (String.length raw = 22%nat)) || negb (all_chars nonce_char raw) then None
  else match b64decode (map_chars std_char (raw ++ "==")) with
       | Some b => if bool_decide (length b = 16%nat) then Some b else None
       | None => None
       end.

Definition canonical_key (raw : bytes) : string := b64encode raw.
Definition canonical_nonce (raw : bytes) : string := rstrip_char "=" (map_chars url_char (b64encode raw)).

Definition key_spellings (raw : bytes) : list string :=
  let padded := b64encode raw in [padded; rstrip_char "=" padded].

(** ** Hosts *)

Definition starts (c : ascii) (s : string) : bool :=
  match s with String x _ => Ascii.eqb x c | EmptyString => false end.
Definition tail (s : string) : string := match s with String _ s' => s' | EmptyString => EmptyString end.

(** Host and port, as [canonical_host] tells them apart. *)
Definition host_port (host : string) : string * string :=
  if starts "[" host then
    match split_char "]" host with
    | Some (a, b) => if starts ":" b then ((a ++ "]")%string, tail b) else (host, ""%string)
    | None => (host, ""%string)
    end
  else if bool_decide (count_char ":" host = 1%nat)
  then match split_char ":" host with Some hp => hp | None => (host, ""%string) end
  else (host, ""%string).

Definition canonical_host (value : string) : string :=
  let '(host, port) := host_port (lower (strip value)) in
  let host := rstrip_char "." host in
  if negb (String.eqb port "") && negb (String.eqb port "443") then (host ++ String ":" port)%string else host.

(** [s.split(c)] *)
Fixpoint split_all (c : ascii) (s : string) : list string :=
  match s with
  | EmptyString => [""%string]
  | String x s' =>
      if Ascii.eqb x c then ""%string :: split_all c s'
      else match split_all c s' with w :: l => String x w :: l | [] => [String x ""] end
  end.

(** [island_hosts]: the island's configured name, the request's Host header
    ("" when there is none), the configured fronts. *)
Definition island_hosts (island_host header fronts : string) : list string * bool :=
  let own := canonical_host island_host in
  let from_header := String.eqb own "" in
  let own := if from_header then canonical_host header else own in
  ((if String.eqb own "" then [] else [own])
   ++ map canonical_host (filter (fun h => strip h <> ""%string) (split_all "," fronts)), from_header).

(** ** The signed bytes *)

Definition REISSUE_PREFIX : string := "rcq-reissue-v1".
Definition GUEST_PREFIX : string := "rcq-guest-v1".
Definition REISSUE_VERSION : Z := 1.
Definition GUEST_VERSION : Z := 1.

Definition reissue_proof_bytes (host : string) (uin : Z) (old_sk new_ik new_sk : bytes) (ts : Z) (nonce : bytes)
    : bytes :=
  utf8 (join_lines [REISSUE_PREFIX; canonical_host host; pretty uin; canonical_key old_sk; canonical_key new_ik;
                    canonical_key new_sk; pretty ts; canonical_nonce nonce]).

Definition guest_proof_bytes (host : string) (group_id : Z) (ik sk : bytes) (challenge : string) : outcome bytes :=
  if group_id <=? 0 then Raise (ValueError "group_id must be positive")
  else if negb (bool_decide (length ik = 32%nat) && bool_decide (length sk = 32%nat))
  then Raise (ValueError "keys must be 32 bytes")
  else
    let host_line := canonical_host host in
    if String.eqb host_line "" || has_char NL host_line || has_char CR host_line then Raise (ValueError "bad host")
    else if String.eqb challenge "" || has_char NL challenge || has_char CR challenge
    then Raise (ValueError "bad challenge")
    else Ok (utf8 (join_lines [GUEST_PREFIX; host_line; pretty group_id; canonical_key ik; canonical_key sk; challenge])).

Example canonical_host_examples :
  map canonical_host ["RCQ.App."; "rcq.app:443"; "rcq.app:8443"; "[::1]:443"; "[::1]:80"; "a:b:c"; ""]%string =
    ["rcq.app"; "rcq.app"; "rcq.app:8443"; "[::1]"; "[::1]:80"; "a:b:c"; ""]%string.
Proof. reflexivity. Qed.

(** ** Facts on strings *)

Lemma all_chars_impl (p q : ascii -> bool) s :
  (forall c, p c = true -> q c = true) -> all_chars p s = true -> all_chars q s = true.
Proof.
  intros Hpq. induction s as [|c s IH]; simpl; [done|]. intros [Hc Hs]%andb_prop. by rewrite Hpq, IH.
Qed.

Lemma all_chars_app p s t : all_chars p (s ++ t) = all_chars p s && all_chars p t.
Proof. induction s as [|c s IH]; simpl; [done|]. by rewrite IH, andb_assoc. Qed.

Lemma append_nil (s : string) : (s ++ "" = s)%string.
Proof. induction s as [|c s IH]; [done|]. change (String c s ++ "")%string with (String c (s ++ "")). by rewrite IH. Qed.

Definition no_nl (s : string) : bool := all_chars (fun x => negb (Ascii.eqb x NL)) s.

Lemma has_char_nl s : has_char NL s = false -> no_nl s = true.
Proof. unfold has_char, no_nl. by rewrite negb_false_iff. Qed.

Lemma join_head w1 w2 l1 l2 :
  no_nl w1 = true -> no_nl w2 = true -> l1 <> [] -> l2 <> [] ->
  join_lines (w1 :: l1) = join_lines (w2 :: l2) -> w1 = w2 /\ join_lines l1 = join_lines l2.
Proof.
  intros H1 H2 N1 N2. destruct l1 as [|x1 l1]; [done|]. destruct l2 as [|x2 l2]; [done|].
  cbn [join_lines]. intros E. eapply all_chars_split in E as [-> E]; [|done..]. split; [done|]. by injection E.
Qed.

(** Lines that carry no newline can be told apart. *)
Lemma join_lines_inj l1 : forall l2, length l1 = length l2 ->
  Forall (fun w => no_nl w = true) l1 -> Forall (fun w => no_nl w = true) l2 ->
  join_lines l1 = join_lines l2 -> l1 = l2.
Proof.
  induction l1 as [|w1 l1 IH]; intros [|w2 l2] Hlen F1 F2 E; try done.
  apply Forall_cons in F1 as [N1 F1]. apply Forall_cons in F2 as [N2 F2].
  destruct (decide (l1 = [])) as [->|H1].
  { destruct l2; [|done]. simpl in E. by subst. }
  destruct (decide (l2 = [])) as [->|H2]; [by destruct l1|].
  apply join_head in E as [-> E]; try done. f_equal. apply IH; try done. by injection Hlen.
Qed.

Lemma rstrip_char_app c s t :
  rstrip_char c t <> ""%string -> rstrip_char c (s ++ t) = (s ++ rstrip_char c t)%string.
Proof.
  intros Ht. induction s as [|x s IH]; [done|].
  change (String x s ++ t)%string with (String x (s ++ t)). cbn [rstrip_char]. rewrite IH.
  by destruct s; [simpl; destruct (rstrip_char c t)|].
Qed.

Lemma rstrip_char_all c s : all_chars (fun x => Ascii.eqb x c) s = true -> rstrip_char c s = ""%string.
Proof. induction s as [|x s IH]; simpl; [done|]. intros [-> ->%IH]%andb_prop. done. Qed.

(** What is stripped is a run of the character. *)
Lemma rstrip_char_split c s :
  exists t, s = (rstrip_char c s ++ t)%string /\ all_chars (fun x => Ascii.eqb x c) t = true.
Proof.
  induction s as [|x s (t & Hs & Ht)]; [by exists ""%string|]. cbn [rstrip_char].
  destruct (rstrip_char c s) as [|y r] eqn:Er.
  - destruct (Ascii.eqb x c) eqn:Ex.
    + exists (String x s). split; [done|]. change ("" ++ t)%string with t in Hs. rewrite Hs. simpl. by rewrite Ex.
    + exists t. split; [|done]. by rewrite Hs.
  - exists t. split; [|done]. change (String x s = String x (String y r ++ t)). by rewrite <-Hs.
Qed.

Lemma rstrip_char_idem c s : rstrip_char c (rstrip_char c s) = rstrip_char c s.
Proof.
  induction s as [|x s IH]; [done|]. cbn [rstrip_char]. destruct (rstrip_char c s) as [|y r] eqn:E.
  - destruct (Ascii.eqb x c) eqn:Ex; [done|]. cbn [rstrip_char]. by rewrite Ex.
  - change (rstrip_char c (String x (String y r))) with
      (match rstrip_char c (String y r) with EmptyString => if Ascii.eqb x c then EmptyString else String x EmptyString
       | t => String x t end). by rewrite IH.
Qed.

(** ** Facts on the spellings *)

(** Characters of the alphabet, from their values. *)
Fixpoint b64_text (vs : list Z) : string :=
  match vs with [] => EmptyString | v :: vs' => String (b64_char v) (b64_text vs') end.

Definition sextets (vs : list Z) : Prop := Forall (fun v => 0 <= v < 64) vs.

Lemma length_b64_text vs : String.length (b64_text vs) = length vs.
Proof. induction vs as [|v vs IH]; simpl; [done|]. by rewrite IH. Qed.

Lemma b64_text_chars (p : ascii -> bool) vs :
  (forall v, 0 <= v < 64 -> p (b64_char v) = true) -> sextets vs -> all_chars p (b64_text vs) = true.
Proof. intros Hp. induction 1 as [|v vs Hv _ IH]; simpl; [done|]. by rewrite Hp, IH. Qed.

(** What the encoder writes: the alphabet, then the padding of its length. *)
Lemma b64encode_shape b :
  bytes_ok b ->
  exists vs, sextets vs /\ length vs = ((4 * length b + 2) / 3)%nat /\
    b64encode b = (b64_text vs ++ padding (length vs))%string.
Proof.
  induction b as [|x|x y|x y z b IH] using bytes_ind3; intros Hb;
    unfold bytes_ok in *; rewrite ?Forall_cons in Hb; unfold byte_ok in * |-; destruct_and? Hb.
  - exists []. split_and!; [constructor|done|done].
  - exists [x / 4; x mod 4 * 16]. split_and!; [|done|done].
    repeat constructor; byte_bounds; lia.
  - exists [x / 4; x mod 4 * 16 + y / 16; y mod 16 * 4]. split_and!; [|done|done].
    repeat constructor; byte_bounds; lia.
  - destruct IH as (vs & Hvs & Hlen & E); [done|].
    exists (x / 4 :: x mod 4 * 16 + y / 16 :: y mod 16 * 4 + z / 64 :: z mod 64 :: vs). split_and!.
    + unfold sextets. rewrite !Forall_cons. split_and!; try done; byte_bounds; lia.
    + cbn [length]. rewrite Hlen.
      replace (4 * S (S (S (length b))) + 2)%nat with (4 * length b + 2 + 4 * 3)%nat by lia.
      rewrite Nat.div_add by lia. lia.
    + cbn [b64encode b64_text length]. rewrite E. unfold padding.
      replace (S (S (S (S (length vs)))) mod 4)%nat with (length vs mod 4)%nat; [done|].
      replace (S (S (S (S (length vs))))) with (length vs + 1 * 4)%nat by lia. by rewrite Nat.Div0.mod_add.
Qed.

(** The class of a character by the value it has. *)
Definition visible (c : ascii) : bool := negb (is_space c) && negb (Ascii.eqb c NL).

Lemma sextet_cases (P : ascii -> bool) :
  forallb (fun i => P (b64_char (Z.of_nat i))) (seq 0 64) = true -> forall v, 0 <= v < 64 -> P (b64_char v) = true.
Proof.
  intros H v Hv. rewrite forallb_forall in H. specialize (H (Z.to_nat v)).
  rewrite Z2Nat.id in H by lia. apply H. apply in_seq. lia.
Qed.

Lemma visible_char v : 0 <= v < 64 -> visible (b64_char v) = true.
Proof. by apply (sextet_cases visible). Qed.

Lemma visible_padding n : all_chars visible (padding n) = true.
Proof. unfold padding. by repeat case_match. Qed.

Lemma b64encode_visible b : bytes_ok b -> all_chars visible (b64encode b) = true.
Proof.
  intros (vs & Hvs & _ & ->)%b64encode_shape. rewrite all_chars_app, visible_padding, andb_true_r.
  apply b64_text_chars; [exact visible_char|done].
Qed.

Lemma lstrip_id s : all_chars (fun c => negb (is_space c)) s = true -> lstrip s = s.
Proof. destruct s as [|c s]; simpl; [done|]. by intros [->%negb_true_iff _]%andb_prop. Qed.
Lemma rstrip_id s : all_chars (fun c => negb (is_space c)) s = true -> rstrip s = s.
Proof.
  induction s as [|c s IH]; simpl; [done|]. intros [Hc%negb_true_iff Hs%IH]%andb_prop. rewrite Hs, Hc. by destruct s.
Qed.
Lemma strip_id s : all_chars (fun c => negb (is_space c)) s = true -> strip s = s.
Proof. intros H. unfold strip. by rewrite lstrip_id, rstrip_id. Qed.

Lemma visible_strip s : all_chars visible s = true -> strip s = s.
Proof. intros H. apply strip_id. revert H. apply all_chars_impl. by intros c [? _]%andb_prop. Qed.
Lemma visible_no_nl s : all_chars visible s = true -> no_nl s = true.
Proof. apply all_chars_impl. by intros c [_ ?]%andb_prop. Qed.

Lemma strip_padding n vs : sextets vs -> rstrip_char "=" (b64_text vs ++ padding n) = b64_text vs.
Proof.
  intros Hvs. assert (Hp : rstrip_char "=" (padding n) = ""%string) by (unfold padding; by repeat case_match).
  induction Hvs as [|v vs Hv _ IH]; [exact Hp|].
  change (rstrip_char "=" (String (b64_char v) (b64_text vs ++ padding n)) = String (b64_char v) (b64_text vs)).
  cbn [rstrip_char]. rewrite IH. destruct (b64_char_plain v Hv) as [-> _]. by destruct (b64_text vs).
Qed.

Lemma length_append (s t : string) : String.length (s ++ t) = (String.length s + String.length t)%nat.
Proof. induction s as [|c s IH]; [done|]. change (S (String.length (s ++ t)) = S (String.length s + String.length t)). by rewrite IH. Qed.

Lemma b64_valid_text vs n : sextets vs -> b64_valid (b64_text vs ++ padding n) = negb (bool_decide (n mod 4 = 1)%nat).
Proof.
  induction 1 as [|v vs Hv _ IH].
  - unfold padding. change ("" ++ ?t)%string with t. cbn [b64_text]. change ("" ++ ?t)%string with t.
    pose proof (Nat.mod_upper_bound n 4). destruct (n mod 4)%nat as [|[|[|[|]]]]; done || lia.
  - change (b64_valid (String (b64_char v) (b64_text vs ++ padding n)) = negb (bool_decide (n mod 4 = 1)%nat)).
    cbn [b64_valid]. by rewrite b64_value_char.
Qed.

Lemma b64_strict_encode b : bytes_ok b -> b64decode_strict (b64encode b) = Some b.
Proof.
  intros Hb. pose proof (b64decode_encode b Hb) as Hdec. destruct (b64encode_shape b Hb) as (vs & Hvs & Hlen & E).
  unfold b64decode_strict. rewrite Hdec, E, b64_valid_text, Hlen by done.
  rewrite bool_decide_eq_false_2; [done|]. intros Hm.
  pose proof (Nat.div_mod_eq (length b) 3). pose proof (Nat.mod_upper_bound (length b) 3).
  set (q := (length b / 3)%nat) in *. set (r := (length b mod 3)%nat) in *.
  replace (4 * length b + 2)%nat with ((4 * r + 2) + (4 * q) * 3)%nat in Hm by lia.
  rewrite Nat.div_add in Hm by lia. rewrite (Nat.mul_comm 4 q), Nat.Div0.mod_add in Hm.
  destruct r as [|[|[|]]]; [done|done|done|lia].
Qed.

(** Both spellings of a byte string decode to it. *)
Lemma b64_any_spelling b s : bytes_ok b -> s ∈ key_spellings b -> b64_any s = Some b.
Proof.
  intros Hb Hs. pose proof (b64encode_visible b Hb) as Hvis.
  destruct (b64encode_shape b Hb) as (vs & Hvs & Hlen & E).
  pose proof (b64_strict_encode b Hb) as Hval.
  unfold key_spellings in Hs. rewrite !elem_of_cons in Hs. destruct Hs as [->|[->|[]%elem_of_nil]]; unfold b64_any.
  - rewrite visible_strip by done. rewrite E at 2. rewrite length_append, length_b64_text.
    assert (Hp : padding (length vs + String.length (padding (length vs))) = ""%string \/ (length vs mod 4 = 1)%nat).
    { unfold padding at 2. pose proof (Nat.mod_upper_bound (length vs) 4).
      pose proof (Nat.div_mod_eq (length vs) 4) as Hd.
      destruct (length vs mod 4)%nat as [|[|[|[|]]]] eqn:Em; try lia; try (by right); left; unfold padding; cbn [String.length];
        [rewrite Nat.add_0_r, Em; done|..];
        (replace (length vs + _)%nat with ((length vs / 4 + 1) * 4)%nat by lia; by rewrite Nat.Div0.mod_mul). }
    destruct Hp as [->|Hm]; [by rewrite append_nil|].
    exfalso. unfold b64decode_strict in Hval. rewrite E, b64_valid_text in Hval by done.
    by rewrite bool_decide_eq_true_2 in Hval.
  - rewrite E, strip_padding by done. rewrite visible_strip.
    + by rewrite length_b64_text, <-E.
    + apply b64_text_chars; [exact visible_char|done].
Qed.

Lemma decode_key32_ok s k : decode_key32 s = Some k -> bytes_ok k /\ length k = 32%nat.
Proof.
  unfold decode_key32, b64_any, b64decode_strict. destruct (b64_valid _); [|done].
  destruct (b64decode _) eqn:E; [|done]. case_bool_decide; [|done]. intros [= <-]. split; [by eapply b64decode_ok|done].
Qed.

Lemma decode_key32_spelling k s : bytes_ok k -> length k = 32%nat -> s ∈ key_spellings k -> decode_key32 s = Some k.
Proof. intros Hk Hl Hs. unfold decode_key32. rewrite (b64_any_spelling k) by done. by rewrite bool_decide_eq_true_2. Qed.

Lemma canonical_key_inj a b : bytes_ok a -> bytes_ok b -> canonical_key a = canonical_key b -> a = b.
Proof.
  unfold canonical_key. intros Ha Hb E. apply (f_equal b64decode) in E. rewrite !b64decode_encode in E by done.
  by injection E.
Qed.

Lemma canonical_nonce_text n :
  bytes_ok n -> length n = 16%nat ->
  exists vs, sextets vs /\ length vs = 22%nat /\ b64encode n = (b64_text vs ++ "==")%string /\
    canonical_nonce n = map_chars url_char (b64_text vs).
Proof.
  intros (vs & Hvs & Hlen & E)%b64encode_shape Hn. rewrite Hn in Hlen. change (_ / 3)%nat with 22%nat in Hlen.
  exists vs. rewrite E, Hlen. split_and!; try done. unfold canonical_nonce. rewrite E, Hlen.
  clear E Hlen Hn n. induction Hvs as [|v vs Hv _ IH]; [done|].
  change (rstrip_char "=" (String (url_char (b64_char v)) (map_chars url_char (b64_text vs ++ padding 22))) =
          String (url_char (b64_char v)) (map_chars url_char (b64_text vs))).
  cbn [rstrip_char]. rewrite IH.
  assert (Hne : negb (Ascii.eqb (url_char (b64_char v)) "=") = true)
    by by apply (sextet_cases (fun c => negb (Ascii.eqb (url_char c) "="))).
  apply negb_true_iff in Hne. rewrite Hne. clear. destruct (map_chars url_char (b64_text vs)); reflexivity.
Qed.

Lemma all_chars_map f p s : all_chars p (map_chars f s) = all_chars (fun c => p (f c)) s.
Proof. induction s as [|c s IH]; simpl; [done|]. by rewrite IH. Qed.

Lemma nonce_visible n : bytes_ok n -> length n = 16%nat -> all_chars visible (canonical_nonce n) = true.
Proof.
  intros Hn Hl. destruct (canonical_nonce_text n Hn Hl) as (vs & Hvs & _ & _ & ->). rewrite all_chars_map.
  apply b64_text_chars; [|done]. by apply (sextet_cases (fun c => visible (url_char c))).
Qed.

(** The spelling of a nonce that is signed, and that names its replay guard,
    decodes to the nonce. *)
Lemma decode_canonical_nonce n : bytes_ok n -> length n = 16%nat -> decode_nonce (canonical_nonce n) = Some n.
Proof.
  intros Hn Hl. unfold decode_nonce. rewrite visible_strip by by apply nonce_visible.
  destruct (canonical_nonce_text n Hn Hl) as (vs & Hvs & Hlen & E & ->).
  assert (Hlm : forall f s, String.length (map_chars f s) = String.length s)
    by (intros f s; induction s as [|c s IH]; simpl; [done|by rewrite IH]).
  rewrite Hlm, length_b64_text, Hlen, bool_decide_eq_true_2 by done.
  rewrite all_chars_map, b64_text_chars; [|by apply (sextet_cases (fun c => nonce_char (url_char c)))|done].
  cbn [negb orb].
  assert (Hback : map_chars std_char (map_chars url_char (b64_text vs) ++ "==") = (b64_text vs ++ "==")%string).
  { clear - Hvs. induction Hvs as [|v vs Hv _ IH]; [done|].
    change (String (std_char (url_char (b64_char v))) (map_chars std_char (map_chars url_char (b64_text vs) ++ "==")) =
            String (b64_char v) (b64_text vs ++ "==")).
    rewrite IH. f_equal. apply Ascii.eqb_eq.
    by apply (sextet_cases (fun c => Ascii.eqb (std_char (url_char c)) c)). }
  rewrite Hback, <-E, b64decode_encode by done. by rewrite bool_decide_eq_true_2.
Qed.

Lemma canonical_nonce_inj a b :
  bytes_ok a -> bytes_ok b -> length a = 16%nat -> length b = 16%nat -> canonical_nonce a = canonical_nonce b -> a = b.
Proof.
  intros Ha Hb La Lb E. apply (f_equal decode_nonce) in E. rewrite !decode_canonical_nonce in E by done. by injection E.
Qed.

(** Every key and every nonce decodes from the spellings the island writes:
    both spellings it looks a key up by, the one it signs, and the nonce's one
    spelling under which a used proof is remembered. *)
Theorem spellings_roundtrip k n :
  bytes_ok k -> length k = 32%nat -> bytes_ok n -> length n = 16%nat ->
  Forall (fun s => decode_key32 s = Some k) (canonical_key k :: key_spellings k) /\
  decode_nonce (canonical_nonce n) = Some n.
Proof.
  intros Hk Lk Hn Ln. split; [|by apply decode_canonical_nonce].
  apply Forall_forall. intros s Hs. apply decode_key32_spelling; try done.
  apply elem_of_cons in Hs as [->|Hs]; [|done]. apply elem_of_cons. by left.
Qed.

Definition demo_key : bytes := repeat 7 32.
Lemma spellings_roundtrip_witness :
  Forall (fun s => decode_key32 s = Some demo_key) (canonical_key demo_key :: key_spellings demo_key) /\
  decode_nonce (canonical_nonce (repeat 9 16)) = Some (repeat 9 16).
Proof.
  apply (spellings_roundtrip demo_key (repeat 9 16));
    [repeat constructor; by vm_compute|done|repeat constructor; by vm_compute|done].
Defined.

(** A key has other spellings: the last character of 43 carries two bits that
    no byte takes up, and the decoder ignores them.  A row stored under such a
    spelling is a valid key that no lookup by [key_spellings] finds. *)
Theorem unlisted_spelling :
  exists s k, decode_key32 s = Some k /\ s ∉ key_spellings k.
Proof.
  exists "BwcHBwcHBwcHBwcHBwcHBwcHBwcHBwcHBwcHBwcHBwd="%string, demo_key. split; [by vm_compute|].
  change (key_spellings demo_key) with ["BwcHBwcHBwcHBwcHBwcHBwcHBwcHBwcHBwcHBwcHBwc="; "BwcHBwcHBwcHBwcHBwcHBwcHBwcHBwcHBwcHBwcHBwc"]%string.
  apply (bool_decide_eq_false_1 _). by vm_compute.
Qed.

(** ** The signed bytes determine what was signed *)

(** A statement that is signed, and its bytes (none when it has no layout). *)
Inductive proof_doc :=
  | ReissueDoc (host : string) (uin : Z) (old_sk new_ik new_sk : bytes) (ts : Z) (nonce : bytes)
  | GuestDoc (host : string) (group_id : Z) (ik sk : bytes) (challenge : string).

Definition doc_bytes (p : proof_doc) : outcome bytes :=
  match p with
  | ReissueDoc host uin old_sk new_ik new_sk ts nonce =>
      Ok (reissue_proof_bytes host uin old_sk new_ik new_sk ts nonce)
  | GuestDoc host gid ik sk challenge => guest_proof_bytes host gid ik sk challenge
  end.

(** What the decoders guarantee of its fields, and a host that is one line (the
    guest proof checks that itself). *)
Definition doc_ok (p : proof_doc) : Prop :=
  match p with
  | ReissueDoc host _ old_sk new_ik new_sk _ nonce =>
      no_nl (canonical_host host) = true /\ bytes_ok old_sk /\ bytes_ok new_ik /\ bytes_ok new_sk /\
      bytes_ok nonce /\ length nonce = 16%nat
  | GuestDoc _ _ ik sk _ => bytes_ok ik /\ bytes_ok sk
  end.

(** The same statement, up to the spelling of the host. *)
Definition same_doc (p q : proof_doc) : Prop :=
  match p, q with
  | ReissueDoc h u a b c t n, ReissueDoc h' u' a' b' c' t' n' =>
      canonical_host h = canonical_host h' /\ u = u' /\ a = a' /\ b = b' /\ c = c' /\ t = t' /\ n = n'
  | GuestDoc h g a b c, GuestDoc h' g' a' b' c' =>
      canonical_host h = canonical_host h' /\ g = g' /\ a = a' /\ b = b' /\ c = c'
  | _, _ => False
  end.

Definition doc_lines (p : proof_doc) : list string :=
  match p with
  | ReissueDoc host uin old_sk new_ik new_sk ts nonce =>
      [REISSUE_PREFIX; canonical_host host; pretty uin; canonical_key old_sk; canonical_key new_ik;
       canonical_key new_sk; pretty ts; canonical_nonce nonce]
  | GuestDoc host gid ik sk challenge =>
      [GUEST_PREFIX; canonical_host host; pretty gid; canonical_key ik; canonical_key sk; challenge]
  end.

Lemma pretty_no_nl (z : Z) : no_nl (pretty z) = true.
Proof.
  generalize (pretty_chars z). apply all_chars_impl. intros c. unfold int_char. intros H.
  destruct (Ascii.eqb_spec c NL) as [->|]; [by vm_compute in H|done].
Qed.
Lemma key_no_nl k : bytes_ok k -> no_nl (canonical_key k) = true.
Proof. intros Hk. by apply visible_no_nl, b64encode_visible. Qed.
Lemma pretty_Z_eq (a b : Z) : pretty a = pretty b -> a = b.
Proof. intros E. assert (H : Some a = Some b) by (rewrite <-!int_of_pretty; by rewrite E). by injection H. Qed.

#[local] Hint Resolve pretty_no_nl key_no_nl visible_no_nl nonce_visible has_char_nl : core.

Lemma doc_lines_ok p b : doc_ok p -> doc_bytes p = Ok b ->
  b = utf8 (join_lines (doc_lines p)) /\ Forall (fun w => no_nl w = true) (doc_lines p).
Proof.
  destruct p as [host uin old_sk new_ik new_sk ts nonce|host gid ik sk challenge]; simpl.
  - intros (? & ? & ? & ? & ? & ?) [= <-]. split; [done|]. repeat apply Forall_cons_2; auto.
  - intros (? & ?). unfold guest_proof_bytes. case_cond; [done|]. case_cond; [done|].
    destruct (String.eqb (canonical_host host) "" || _ || _) eqn:Eh; [done|].
    destruct (String.eqb challenge "" || _ || _) eqn:Ec; [done|]. intros [= <-].
    apply orb_false_iff in Eh as [[_ Hh]%orb_false_iff _]. apply orb_false_iff in Ec as [[_ Hc]%orb_false_iff _].
    split; [done|]. repeat apply Forall_cons_2; auto.
Qed.

(** A signature made for one change of keys, or for one guest copy, is good
    for nothing else: two statements with the same signed bytes name the same
    island, number or room, keys, instant, nonce and challenge, and a proof of
    one kind is never a proof of the other. *)
Theorem proof_doc_injective p q b :
  doc_ok p -> doc_ok q -> doc_bytes p = Ok b -> doc_bytes q = Ok b -> same_doc p q.
Proof.
  intros Hp Hq [E1 F1]%doc_lines_ok [E2 F2]%doc_lines_ok; try done. rewrite E1 in E2. apply utf8_inj in E2. clear E1.
  assert (El : length (doc_lines p) = length (doc_lines q)).
  { destruct p, q; try done; (eapply join_head in E2 as [E2 _]; [by vm_compute in E2|done..]). }
  apply join_lines_inj in E2; try done.
  destruct p, q; simpl in E2; try done; simpl in Hp, Hq; destruct_and! Hp; destruct_and! Hq;
    injection E2; intros; unfold same_doc; split_and!; eauto using pretty_Z_eq, canonical_key_inj, canonical_nonce_inj.
Qed.

Lemma proof_doc_injective_witness :
  same_doc (GuestDoc "Isle.example:443" 3 demo_key demo_key "abc") (GuestDoc "isle.example." 3 demo_key demo_key "abc").
Proof.
  apply (proof_doc_injective _ _ (utf8 (join_lines (doc_lines (GuestDoc "isle.example" 3 demo_key demo_key "abc")))));
    [split; repeat constructor; by vm_compute|split; repeat constructor; by vm_compute|by vm_compute|by vm_compute].
Defined.

(** ** The canonical host *)

Lemma lower_char_idem c : lower_char (lower_char c) = lower_char c.
Proof.
  assert (H : forallb (fun n => Ascii.eqb (lower_char (lower_char (ascii_of_nat n))) (lower_char (ascii_of_nat n))) (seq 0 256) = true)
    by by vm_compute.
  rewrite forallb_forall in H. specialize (H (nat_of_ascii c)). rewrite ascii_nat_embedding in H.
  apply Ascii.eqb_eq, H, in_seq. pose proof (nat_ascii_bounded c). lia.
Qed.
Lemma lower_char_space c : is_space (lower_char c) = is_space c.
Proof.
  assert (H : forallb (fun n => Bool.eqb (is_space (lower_char (ascii_of_nat n))) (is_space (ascii_of_nat n))) (seq 0 256) = true)
    by by vm_compute.
  rewrite forallb_forall in H. specialize (H (nat_of_ascii c)). rewrite ascii_nat_embedding in H.
  apply Bool.eqb_true_iff, H, in_seq. pose proof (nat_ascii_bounded c). lia.
Qed.

(** A character of a host in canonical spelling. *)
Definition host_char (c : ascii) : bool := negb (is_space c) && Ascii.eqb (lower_char c) c.

Lemma lower_host_chars s : all_chars (fun c => negb (is_space c)) s = true -> all_chars host_char (lower s) = true.
Proof.
  induction s as [|c s IH]; simpl; [done|]. intros [Hc Hs%IH]%andb_prop. rewrite Hs. unfold host_char.
  by rewrite lower_char_space, Hc, lower_char_idem, Ascii.eqb_refl.
Qed.
Lemma host_chars_fixed s : all_chars host_char s = true -> lower (strip s) = s.
Proof.
  intros H. rewrite strip_id; [|revert H; apply all_chars_impl; by intros c [? _]%andb_prop].
  revert H. induction s as [|c s IH]; simpl; [done|]. intros [[_ Hc%Ascii.eqb_eq]%andb_prop Hs%IH]%andb_prop. by rewrite Hc, Hs.
Qed.

Lemma split_char_app c s a b : split_char c s = Some (a, b) -> s = (a ++ String c b)%string /\ count_char c a = 0%nat.
Proof.
  revert a b. induction s as [|x s IH]; intros a b; cbn [split_char]; [done|].
  destruct (Ascii.eqb_spec x c) as [->|Hx]; [by intros [= <- <-]|].
  destruct (split_char c s) as [[a' b']|]; [|done]. intros [= <- <-]. destruct (IH a' b' eq_refl) as [-> Hc].
  split; [done|]. simpl. by destruct (Ascii.eqb_spec x c).
Qed.
Lemma split_char_at c a b : count_char c a = 0%nat -> split_char c (a ++ String c b) = Some (a, b).
Proof.
  induction a as [|x a IH]; intros H.
  - change (split_char c (String c b) = Some (""%string, b)). cbn [split_char]. by rewrite Ascii.eqb_refl.
  - change (split_char c (String x (a ++ String c b)) = Some (String x a, b)). cbn [split_char].
    cbn [count_char] in H. destruct (Ascii.eqb x c); [done|]. by rewrite IH.
Qed.
Lemma split_char_none c s : count_char c s = 0%nat -> split_char c s = None.
Proof. induction s as [|x s IH]; cbn [split_char count_char]; [done|]. destruct (Ascii.eqb x c); [done|]. by intros ->%IH. Qed.
Lemma count_char_app c s t : count_char c (s ++ t) = (count_char c s + count_char c t)%nat.
Proof.
  induction s as [|x s IH]; [done|].
  change ((if Ascii.eqb x c then 1 else 0) + count_char c (s ++ t) = (if Ascii.eqb x c then 1 else 0) + count_char c s + count_char c t)%nat.
  rewrite IH. lia.
Qed.
Lemma count_char_other c x s : x <> c -> all_chars (fun y => Ascii.eqb y x) s = true -> count_char c s = 0%nat.
Proof.
  intros Hx. induction s as [|y s IH]; simpl; [done|]. intros [->%Ascii.eqb_eq Hs]%andb_prop. rewrite (IH Hs).
  by destruct (Ascii.eqb_spec x c).
Qed.
Lemma count_split c s : count_char c s = 1%nat -> exists a b, split_char c s = Some (a, b) /\ count_char c b = 0%nat.
Proof.
  intros H. destruct (split_char c s) as [[a b]|] eqn:E.
  - exists a, b. split; [done|]. apply split_char_app in E as [-> Ha]. rewrite count_char_app, Ha in H. cbn [count_char] in H.
    rewrite Ascii.eqb_refl in H. lia.
  - exfalso. assert (Hn : forall s, split_char c s = None -> count_char c s = 0%nat).
    { clear. induction s as [|x s IH]; cbn [split_char count_char]; [done|]. destruct (Ascii.eqb x c); [done|].
      destruct (split_char c s) as [[]|]; [done|]. by intros ->%IH. }
    apply Hn in E. lia.
Qed.

(** The canonical form of a host given in parts. *)
Definition with_port (host port : string) : string :=
  if negb (String.eqb port "") && negb (String.eqb port "443") then (host ++ String ":" port)%string else host.

Lemma canonical_parts h : all_chars host_char h = true ->
  canonical_host h = with_port (rstrip_char "." (host_port h).1) (host_port h).2.
Proof. intros H. unfold canonical_host. rewrite host_chars_fixed by done. by destruct (host_port h). Qed.

Lemma count_rstrip c x s : x <> c -> count_char c (rstrip_char x s) = count_char c s.
Proof.
  intros Hx. destruct (rstrip_char_split x s) as (t & Hs & Ht). rewrite Hs at 2.
  rewrite count_char_app, (count_char_other c x t) by done. lia.
Qed.
Lemma starts_rstrip c x s : x <> c -> starts c (rstrip_char x s) = starts c s.
Proof.
  intros Hx. destruct (rstrip_char_split x s) as (t & Hs & Ht). rewrite Hs at 2.
  destruct (rstrip_char x s) as [|y r]; [|done]. change ("" ++ t)%string with t.
  destruct t as [|y t]; [done|]. simpl in Ht. apply andb_prop in Ht as [->%Ascii.eqb_eq _]. simpl.
  by destruct (Ascii.eqb_spec x c).
Qed.

Lemma with_port_chars p host port :
  p ":"%char = true -> all_chars p host = true -> all_chars p port = true -> all_chars p (with_port host port) = true.
Proof.
  intros Hc Hh Hp. unfold with_port. case_cond; [|done]. rewrite all_chars_app, Hh. simpl. by rewrite Hc.
Qed.

Lemma host_port_chars p h :
  all_chars p h = true -> all_chars p (host_port h).1 = true /\ all_chars p (host_port h).2 = true.
Proof.
  intros H. unfold host_port. destruct (starts "[" h).
  - destruct (split_char "]" h) as [[a b]|] eqn:E; [|done]. destruct (starts ":" b); [|done].
    apply split_char_app in E as [-> _]. rewrite all_chars_app in H. simpl in H.
    apply andb_prop in H as [Ha [Hc Hb]%andb_prop]. simpl. rewrite all_chars_app. simpl. rewrite Ha, Hc.
    split; [done|]. destruct b as [|x b]; [done|]. simpl in *. by apply andb_prop in Hb as [_ ?].
  - case_bool_decide; [|done]. destruct (split_char ":" h) as [[a b]|] eqn:E; [|done].
    apply split_char_app in E as [-> _]. rewrite all_chars_app in H. simpl in H.
    by apply andb_prop in H as [Ha [Hc Hb]%andb_prop].
Qed.

Lemma rstrip_char_chars p c s : all_chars p s = true -> all_chars p (rstrip_char c s) = true.
Proof.
  destruct (rstrip_char_split c s) as (t & Hs & _). rewrite Hs at 1. rewrite all_chars_app. by intros [? _]%andb_prop.
Qed.

(** A whole host without a port part keeps being one when its dots go. *)
Lemma host_port_whole h : host_port h = (h, ""%string) -> host_port (rstrip_char "." h) = (rstrip_char "." h, ""%string).
Proof.
  unfold host_port. rewrite starts_rstrip, count_rstrip by done. destruct (starts "[" h).
  - destruct (split_char "]" (rstrip_char "." h)) as [[a b]|] eqn:E; [|done].
    destruct (starts ":" b) eqn:Eb; [|done]. apply split_char_app in E as [E Ha].
    destruct (rstrip_char_split "." h) as (t & Hs & _). rewrite E, append_assoc in Hs.
    change (String "]" b ++ t)%string with (String "]" (b ++ t)) in Hs. rewrite Hs, split_char_at by done.
    destruct b as [|x b]; [done|]. change (starts ":" (String x b ++ t)) with (starts ":" (String x b)).
    rewrite Eb. intros [= Heq _]. exfalso. apply (f_equal String.length) in Heq.
    rewrite !length_append in Heq. simpl in Heq. rewrite ?length_append in Heq. lia.
  - case_bool_decide as Hc; [|done]. destruct (count_split _ _ Hc) as (a & b & E & _). rewrite E.
    intros [= -> ->]. apply split_char_app in E as [E _]. exfalso. apply (f_equal String.length) in E.
    rewrite length_append in E. simpl in E. lia.
Qed.

Lemma rstrip_bracket (a : string) : rstrip_char "." (a ++ "]") = (a ++ "]")%string.
Proof. by rewrite rstrip_char_app. Qed.

(** How a host is read when it is not taken whole. *)
Lemma host_port_cases h :
  host_port h = (h, ""%string) \/
  (exists a p, host_port h = ((a ++ "]")%string, p) /\ count_char "]" a = 0%nat /\
     forall t, starts "[" (a ++ String "]" t) = true) \/
  (exists a p, host_port h = (a, p) /\ starts "[" a = false /\ count_char ":" a = 0%nat /\ count_char ":" p = 0%nat).
Proof.
  unfold host_port. destruct (starts "[" h) eqn:Es.
  - destruct (split_char "]" h) as [[a b]|] eqn:E; [|by left]. destruct (starts ":" b); [|by left].
    right. left. apply split_char_app in E as [-> Ha]. exists a, (tail b). split_and!; [done|done|].
    intros t. destruct a; [done|exact Es].
  - case_bool_decide as Hc; [|by left]. right. right. destruct (count_split _ _ Hc) as (a & p & E & Hp). rewrite E.
    apply split_char_app in E as [-> Ha]. exists a, p. split_and!; try done. by destruct a.
Qed.

Lemma canonical_stable h :
  let r := with_port (rstrip_char "." (host_port h).1) (host_port h).2 in
  with_port (rstrip_char "." (host_port r).1) (host_port r).2 = r.
Proof.
  destruct (host_port_cases h) as [E|[(a & p & E & Ha & Hs)|(a & p & E & Hs & Ha & Hp)]]; rewrite E; cbn [fst snd].
  - change (with_port (rstrip_char "." h) "") with (rstrip_char "." h). cbn zeta. rewrite host_port_whole by done. simpl.
    by rewrite rstrip_char_idem.
  - rewrite rstrip_bracket. cbn zeta.
    assert (Hb : forall t, split_char "]" (a ++ String "]" t) = Some (a, t)) by (intros t; by apply split_char_at).
    unfold with_port at 2 3 4. destruct (negb (String.eqb p "") && negb (String.eqb p "443")) eqn:Et.
    + assert (Ht : host_port ((a ++ "]") ++ String ":" p) = ((a ++ "]")%string, p)).
      { rewrite append_assoc. change ("]" ++ String ":" p)%string with (String "]" (String ":" p)).
        unfold host_port. by rewrite Hs, Hb. }
      rewrite Ht. simpl. rewrite rstrip_bracket. unfold with_port. by rewrite Et.
    + assert (Ht : host_port (a ++ "]") = ((a ++ "]")%string, ""%string)) by (unfold host_port; by rewrite Hs, Hb).
      rewrite Ht. simpl. by rewrite rstrip_bracket.
  - cbn zeta. rewrite <-(starts_rstrip "[" ".") in Hs by done. rewrite <-(count_rstrip ":" ".") in Ha by done.
    set (b := rstrip_char "." a) in *. assert (Hb : rstrip_char "." b = b) by apply rstrip_char_idem.
    unfold with_port at 2 3 4. destruct (negb (String.eqb p "") && negb (String.eqb p "443")) eqn:Et.
    + assert (Ht : host_port (b ++ String ":" p) = (b, p)).
      { unfold host_port. assert (Hst : starts "[" (b ++ String ":" p) = false) by by destruct b.
        rewrite Hst, count_char_app, Ha. cbn [count_char]. rewrite Hp, split_char_at by done. done. }
      rewrite Ht. simpl. rewrite Hb. unfold with_port. by rewrite Et.
    + assert (Ht : host_port b = (b, ""%string)) by (unfold host_port; by rewrite Hs, Ha).
      rewrite Ht. simpl. by rewrite Hb.
Qed.

(** The host a proof is checked against is the host that is signed: the
    canonical spelling of a host without blanks inside is canonical, so
    canonicalising it once more, as the signed bytes do, changes nothing. *)
Theorem canonical_host_idem v :
  all_chars (fun c => negb (is_space c)) (strip v) = true ->
  canonical_host (canonical_host v) = canonical_host v.
Proof.
  intros Hv. apply lower_host_chars in Hv. set (h := lower (strip v)) in *.
  assert (E : canonical_host v = with_port (rstrip_char "." (host_port h).1) (host_port h).2)
    by (unfold canonical_host; fold h; by destruct (host_port h)).
  destruct (host_port_chars _ _ Hv) as [H1 H2].
  rewrite canonical_parts.
  - rewrite E. apply canonical_stable.
  - rewrite E. apply with_port_chars; [done|by apply rstrip_char_chars|done].
Qed.

Lemma canonical_host_idem_witness :
  canonical_host (canonical_host "Isle.Example.:8443"%string) = canonical_host "Isle.Example.:8443"%string.
Proof. apply (canonical_host_idem "Isle.Example.:8443"%string). reflexivity. Defined.
