(* ===== verification/Accounts.v ===== *)
(** * Accounts

    Models [src/app/routers/auth.py] (registration, recovery, refresh, the
    device name, change of keys, guest copies and their settling), with
    [src/app/services/guest_accounts.py], [key_owner.py] and what it uses of
    [src/app/models/user.py], [invite.py], [retired_signing_key.py] and of
    [services/contact_source.py]; and the owner-add of a guest
    ([add_guest] of [src/app/routers/groups.py]).

    A handler runs in a monad over the committed tables, Redis and the frames it
    sent.  What a transaction has written before its commit is a value of the
    handler; [commit] makes it the tables, a refusal before it leaves none of
    it.  The per-route limits and the bearer of the authenticated routes are
    the dependencies of [RateLimit] and [Sessions]. *)

From stdpp Require Import base list sorting gmap strings pretty.
From Stdlib Require Import ZArith Lia Ascii.
From S2P Require Import Prelude Text Uin Storage Redis RateLimit GuestPolicy Sessions GroupLogStore QueueDrain Devices Gates Bytes KeyStorage Voucher Rooms KeyProof.

(** ** The tables *)

(** The columns of [users] that belong to no other component, and
    [models/retired_signing_key.py]. *)
Record Account := mkAccount {
  entered_via : option string;
  resident_since : option Z;
  badges_earned : option string;
  guest_since : option Z;
  identity_created_at : option Z;
  key_unproven_since : option Z
}.

Record RetiredSigningKey := mkRetired { rs_uin : Z; rotated_at : Z }.

(** [retired_signing_keys] is keyed by the hash of the key, [vault_slots] by
    (uin, slot); of [uin_holds] the expiry, of [spent_vouchers] the nonce. *)
Record adb := mkAdb {
  rooms : rdb;
  accounts : gmap Z Account;
  invite_rows : list Invite;
  owned_rows : gset Z;
  hold_rows : gmap Z Z;
  spent_nonces : gset string;
  epoch_rows : epochs;
  retired_keys : gmap string RetiredSigningKey;
  vault_slots : gset (Z * string)
}.

Definition acore (d : adb) : db := rcore (rooms d).
Definition akeys (d : adb) : gmap Z UserKeys := user_keys (rk (rooms d)).

Definition set_rooms (r : rdb) (d : adb) : adb :=
  mkAdb r (accounts d) (invite_rows d) (owned_rows d) (hold_rows d) (spent_nonces d) (epoch_rows d)
    (retired_keys d) (vault_slots d).
Definition set_accounts (f : gmap Z Account -> gmap Z Account) (d : adb) : adb :=
  mkAdb (rooms d) (f (accounts d)) (invite_rows d) (owned_rows d) (hold_rows d) (spent_nonces d) (epoch_rows d)
    (retired_keys d) (vault_slots d).
Definition set_invites (l : list Invite) (d : adb) : adb :=
  mkAdb (rooms d) (accounts d) l (owned_rows d) (hold_rows d) (spent_nonces d) (epoch_rows d)
    (retired_keys d) (vault_slots d).
Definition spend (nonce : string) (d : adb) : adb :=
  mkAdb (rooms d) (accounts d) (invite_rows d) (owned_rows d) (hold_rows d) ({[ nonce ]} ∪ spent_nonces d)
    (epoch_rows d) (retired_keys d) (vault_slots d).
Definition set_epoch_rows (e : epochs) (d : adb) : adb :=
  mkAdb (rooms d) (accounts d) (invite_rows d) (owned_rows d) (hold_rows d) (spent_nonces d) e
    (retired_keys d) (vault_slots d).
Definition set_retired (f : gmap string RetiredSigningKey -> gmap string RetiredSigningKey) (d : adb) : adb :=
  mkAdb (rooms d) (accounts d) (invite_rows d) (owned_rows d) (hold_rows d) (spent_nonces d) (epoch_rows d)
    (f (retired_keys d)) (vault_slots d).
Definition set_vault (s : gset (Z * string)) (d : adb) : adb :=
  mkAdb (rooms d) (accounts d) (invite_rows d) (owned_rows d) (hold_rows d) (spent_nonces d) (epoch_rows d)
    (retired_keys d) s.

Definition on_acore (f : db -> db) (d : adb) : adb := set_rooms (on_core f (rooms d)) d.
Definition on_keys (f : gmap Z UserKeys -> gmap Z UserKeys) (d : adb) : adb :=
  set_rooms (mkRdb (set_user_keys f (rk (rooms d))) (contacts (rooms d)) (next_group_id (rooms d))) d.
Definition on_contacts (f : gmap (Z * Z) bool -> gmap (Z * Z) bool) (d : adb) : adb :=
  set_rooms (mkRdb (rk (rooms d)) (f (contacts (rooms d))) (next_group_id (rooms d))) d.

(** What [services/uin.py] reads. *)
Definition number_view (d : adb) : uin_db :=
  {| Uin.users := dom (users (acore d)); Uin.owned_uins := owned_rows d; Uin.uin_holds := hold_rows d;
     Uin.invites := invite_rows d |}.

(** *** The [users] row as one *)

Definition no_account : Account := mkAccount None None None None None None.
Definition account_of (d : adb) (u : Z) : Account := default no_account (accounts d !! u).
Definition signing_key_of (d : adb) (u : Z) : option string :=
  match akeys d !! u with Some k => signing_key k | None => None end.
Definition identity_key_of (d : adb) (u : Z) : option string := option_map identity_key (akeys d !! u).

(** [db.add(User(...)); flush] *)
Definition insert_user (uin : Z) (u : User) (ik sk : string) (a : Account) (d : adb) : outcome adb :=
  if bool_decide (is_Some (users (acore d) !! uin)) then Raise (IntegrityError "users")
  else Ok (set_accounts <[uin := a]>
             (on_keys <[uin := mkUserKeys ik (Some sk) None None None None None None]>
                (on_acore (set_users <[uin := u]>) d))).

Definition set_user (uin : Z) (f : User -> User) (d : adb) : adb := on_acore (set_users (alter f uin)) d.
Definition set_account (uin : Z) (f : Account -> Account) (d : adb) : adb :=
  if bool_decide (is_Some (users (acore d) !! uin)) then set_accounts <[uin := f (account_of d uin)]> d else d.
Definition set_key_columns (uin : Z) (f : UserKeys -> UserKeys) (d : adb) : adb :=
  if bool_decide (is_Some (users (acore d) !! uin))
  then on_keys <[uin := f (default no_keys (akeys d !! uin))]> d else d.

Definition with_identity_key (ik : string) (k : UserKeys) : UserKeys :=
  mkUserKeys ik (signing_key k) (signal_identity_key k) (signal_registration_id k) (signed_prekey k)
    (signed_prekey_uploaded_at k) (kyber_prekey k) (kyber_prekey_uploaded_at k).
Definition with_signing_key (sk : string) (k : UserKeys) : UserKeys :=
  mkUserKeys (identity_key k) (Some sk) (signal_identity_key k) (signal_registration_id k) (signed_prekey k)
    (signed_prekey_uploaded_at k) (kyber_prekey k) (kyber_prekey_uploaded_at k).
Definition with_guest (g : option string) (u : User) : User :=
  mkUser (last_seen u) (created_at u) g (muted_group_ids u) (is_suspended u) (profile u).
Definition with_last_seen (t : Z) (u : User) : User :=
  mkUser t (created_at u) (guest_status u) (muted_group_ids u) (is_suspended u) (profile u).
Definition with_badge (b : option string) (u : User) : User :=
  let p := profile u in
  mkUser (last_seen u) (created_at u) (guest_status u) (muted_group_ids u) (is_suspended u)
    (mkProfile (nickname p) b (badge_hidden p) (status p) (avatar_media_id p) (avatar_media_key p)
       (profile_card_policy p) (group_invite_policy p)).
Definition with_guest_since (t : option Z) (a : Account) : Account :=
  mkAccount (entered_via a) (resident_since a) (badges_earned a) t (identity_created_at a) (key_unproven_since a).
Definition with_unproven (t : option Z) (a : Account) : Account :=
  mkAccount (entered_via a) (resident_since a) (badges_earned a) (guest_since a) (identity_created_at a) t.
Definition with_resident (t : option Z) (a : Account) : Account :=
  mkAccount (entered_via a) t (badges_earned a) (guest_since a) (identity_created_at a) (key_unproven_since a).
Definition with_badges (b : option string) (a : Account) : Account :=
  mkAccount (entered_via a) (resident_since a) b (guest_since a) (identity_created_at a) (key_unproven_since a).

(** A row as [User(...)] makes it: the columns given, the defaults elsewhere. *)
Definition new_user (now seen : Z) (nick : string) (badge guest : option string) : User :=
  mkUser seen now guest [] false
    (mkProfile nick badge false "offline" None None "everyone" "contacts").

(** ** Marks ([models/user.py]) *)

Definition earned_badges (u : User) (a : Account) : list string :=
  let raw := strip (default ""%string (badges_earned a)) in
  let worn := truthy (badge (profile u)) in
  if negb (String.eqb raw "") then
    let out := filter (fun k => k <> ""%string) (map strip (split_comma raw)) in
    match worn with
    | Some b => if bool_decide (b ∈ out) then out else out ++ [b]
    | None => out
    end
  else match worn with Some b => [b] | None => [] end.

Definition grant_badge (uin : Z) (kind : string) (d : adb) : adb :=
  match users (acore d) !! uin with
  | None => d
  | Some u =>
      let held := earned_badges u (account_of d uin) in
      let held := if bool_decide (kind ∈ held) then held else held ++ [kind] in
      let d := set_account uin (with_badges (Some (join_comma held))) d in
      match truthy (badge (profile u)) with
      | Some _ => d
      | None => set_user uin (with_badge (Some kind)) d
      end
  end.

(** ** Which account a key resolves to *)

(** [first_claim_order]: COALESCE(identity_created_at, created_at), then uin. *)
Definition first_claim (d : adb) (u : Z) : Z :=
  match identity_created_at (account_of d u) with
  | Some t => t
  | None => match users (acore d) !! u with Some x => created_at x | None => 0 end
  end.

(** The accounts that satisfy [p], first claim first. *)
Definition by_claim (d : adb) (p : Z -> bool) : list Z :=
  sort_by (first_claim d) (sort_by id (filter (fun u => p u = true) (map fst (map_to_list (users (acore d)))))).

Definition carries (d : adb) (keys : list string) (u : Z) : bool :=
  match signing_key_of d u with Some k => bool_decide (k ∈ keys) | None => false end.

Definition uin_for_signing_key (d : adb) (sk : string) : option Z := head (by_claim d (carries d [sk])).

Definition is_guest_row (d : adb) (u : Z) : bool :=
  match users (acore d) !! u with Some x => bool_decide (is_Some (guest_status x)) | None => false end.

Definition row_for_key (d : adb) (sk_raw : bytes) (guests_only : bool) : option Z :=
  head (by_claim d (fun u => carries d (key_spellings sk_raw) u && (negb guests_only || is_guest_row d u))).

Definition signing_key_taken_by (d : adb) (raw : bytes) (uin : Z) : list Z :=
  filter (fun u => carries d (key_spellings raw) u = true /\ u <> uin) (map fst (map_to_list (users (acore d)))).

(** [_key_bytes_or_none] *)
Definition key_bytes_or_none (value : option string) : option bytes := decode_key32 (default ""%string value).

(** [_pubkey32] *)
Definition pubkey32 (value field : string) : outcome string :=
  let raw := strip value in
  match b64decode_strict (raw ++ padding (String.length raw)) with
  | None => Raise (HTTPException 422 (field ++ " is not base64"))
  | Some b =>
      if bool_decide (length b = 32%nat) then Ok raw
      else Raise (HTTPException 422 (field ++ " must be 32 bytes, got " ++ pretty (Z.of_nat (length b)))%string)
  end.

(** ** Invites *)

Definition opens_door (now : Z) (code_hash : string) (need_uin : bool) (i : Invite) : bool :=
  String.eqb (code i) code_hash && invite_is_live now i && (negb need_uin || bool_decide (is_Some (invite_uin i))).

(** One use is spent; the last one starts the retention clock. *)
Definition use_invite (now : Z) (i : Invite) : Invite :=
  {| code := code i; max_uses := max_uses i; used_count := used_count i + 1; invite_uin := invite_uin i;
     expires_at := expires_at i;
     spent_at := if max_uses i <=? used_count i + 1 then Some now else spent_at i |}.

(** [UPDATE invites ... WHERE _invite_gates]: whether a row was spent. *)
Definition consume_invite (now : Z) (code_hash : string) (need_uin : bool) (d : adb) : bool * adb :=
  (existsb (opens_door now code_hash need_uin) (invite_rows d),
   set_invites (map (fun i => if opens_door now code_hash need_uin i then use_invite now i else i) (invite_rows d)) d).

(** [SELECT uin FROM invites WHERE code = ...] *)
Definition invite_number (code_hash : string) (d : adb) : option Z :=
  match find_first (fun i => String.eqb (code i) code_hash) (invite_rows d) with
  | Some i => invite_uin i
  | None => None
  end.

(** ** Contacts ([contact_source.add_edges]; new edges are not frozen) *)

Definition add_edge (owner contact : Z) (m : gmap (Z * Z) bool) : gmap (Z * Z) bool :=
  match m !! (owner, contact) with Some _ => m | None => <[(owner, contact) := false]> m end.

Definition add_edges (a b : Z) (d : adb) : bool * adb :=
  if a =? b then (false, d)
  else if is_guest_row d a || is_guest_row d b then (false, d)
  else (true, on_contacts (fun m => add_edge b a (add_edge a b m)) d).

Definition connect_inviter (inviter invitee : Z) (d : adb) : bool * adb :=
  if inviter =? invitee then (false, d)
  else match users (acore d) !! inviter with
  | Some u => if is_suspended u then (false, d) else (true, (add_edges invitee inviter d).2)
  | None => (false, d)
  end.

(** ** What a handler is told, and what it answers *)

Record aenv := mkAenv {
  ae_room : renv;
  ae_ttl : Z;                          (* the lifetime of a session token *)
  ae_policy : option string;           (* registration_policy; None: the settings cannot be read *)
  ae_require_proof : option bool;      (* reissue_require_proof; likewise *)
  ae_island_host : string;
  ae_host_header : string;
  ae_fronts : string;                  (* FRONT_ALIAS_HOSTS *)
  ae_closed : bool;                    (* closed_island *)
  ae_refuse_strangers : bool;          (* federation_refuse_strangers *)
  ae_guest_admission : string;
  ae_skew : Z;                         (* REISSUE_PROOF_SKEW_SECONDS *)
  ae_dormant : Z;                      (* the dormant window, in days *)
  ae_founder : Z;
  ae_beta_group : Z;
  ae_rand : nat -> Z;                  (* the draws of the allocator *)
  ae_lock_token : string;
  ae_tenure : Z -> string -> bool;     (* holds_elsewhere *)
  ae_up : auth_up;
  ae_up_guard : bool;                  (* SET NX of nonces, challenges and locks *)
  ae_up_release : bool;
  ae_up_mark : bool;
  ae_up_unmark : bool * bool;
  ae_commit : bool                     (* whether the write's commit succeeds *)
}.
Definition ae_now (e : aenv) : Z := e_now (ae_room e).
Definition admits_guests (e : aenv) : bool :=
  admission_open (ae_policy e) (ae_closed e) (ae_refuse_strangers e) (ae_guest_admission e).

Inductive aevent :=
  | RoomEvent (v : revent)
  | VaultReset (uin : Z) (except_device : option string)
  | KickUin (uin : Z)
  | RoomIdOnly (to : list Z) (gid : Z)
  | RenameAnnounced (uin : Z) (nickname : string) (badge : option string).

Record RegisterIn := mkRegisterIn {
  r_nickname : string;
  r_identity_key : string;
  r_signing_key : string;
  r_inviter_uin : option Z;
  r_invite : option string;
  r_desired_uin : option Z;
  r_device_id : option string;
  r_challenge : option string;
  r_signature : option string
}.

(** [RegisterOut], [RefreshOut] and [GuestOut]: the number, the token, whether
    the account is a guest, the number that was left, whether a row was made. *)
Record SessionFor := mkSessionFor {
  s_uin : Z;
  s_token : string;
  s_guest : bool;
  s_moved_from : option Z;
  s_created : bool
}.

(** ** The monad of the handlers *)

Record ast (R : Type) := mkAst { tables : adb; lim : limiter R; frames : list aevent }.
Arguments mkAst {R} _ _ _.
Arguments tables {R} _.
Arguments lim {R} _.
Arguments frames {R} _.

Section handlers.
Context {R : Type} `{RR : Redis R} `{JT : JWT string}.
Context (num : Z -> string) (hmac_hex : string -> string -> string) (secret : string).
Context (bucket : string -> string) (sha256 : bytes -> bytes).
(** [Ed25519PublicKey.from_public_bytes(key).verify(sig, message)], false for a
    key that is none. *)
Context (ed25519_verify : bytes -> bytes -> bytes -> bool).
Context (loads : bytes -> option json) (public_key : option string).

Definition A (X : Type) : Type := ast R -> outcome X * ast R.
Definition ret {X} (x : X) : A X := fun s => (Ok x, s).
Definition raise {X} (x : exn) : A X := fun s => (Raise x, s).
Definition bind {X Y} (m : A X) (k : X -> A Y) : A Y := fun s =>
  match m s with (Ok x, s') => k x s' | (Raise x, s') => (Raise x, s') end.
Definition lift {X} (o : outcome X) : A X := fun s => (o, s).
Definition get : A adb := fun s => (Ok (tables s), s).
Definition commit (d : adb) : A unit := fun s => (Ok tt, mkAst d (lim s) (frames s)).
Definition send (l : list aevent) : A unit := fun s => (Ok tt, mkAst (tables s) (lim s) (frames s ++ l)).
Definition on_redis {X} (f : R -> X * R) : A X := fun s =>
  let '(x, r) := f (redis (lim s)) in (Ok x, mkAst (tables s) (mkLimiter r (local_hits (lim s))) (frames s)).
Definition redis_do (f : R -> R) : A unit := on_redis (fun r => (tt, f r)).
Definition in_rooms {X} (m : M X) : A X := fun s =>
  let '(o, l) := m (lim s) in (o, mkAst (tables s) l (frames s)).
Definition unless (b : bool) (x : exn) : A unit := if b then ret tt else raise x.

Notation "'do' x <- m ; k" := (bind m (fun x => k)) (at level 10, x pattern, m at level 100, k at level 200).
Notation "'run' m ; k" := (bind m (fun _ => k)) (at level 10, m at level 100, k at level 200).

(** ** Shared steps *)

Definition stat (e : aenv) (name : string) : A unit :=
  redis_do (bump_stat (e_up_stat (ae_room e)) (ae_now e) name (e_day (ae_room e))).

Definition refuse_revoked_device (e : aenv) (uin : Z) (device_id : option string) : A unit := fun s =>
  match device_is_revoked bucket (up_denylist (ae_up e)) (ae_now e) uin device_id (redis (lim s)) with
  | Ok true => (Raise (HTTPException 401 "device_revoked"), s)
  | Ok false => (Ok tt, s)
  | Raise x => (Raise x, s)
  end.

(** The token of [uin] under its current epoch. *)
Definition mint (e : aenv) (uin : Z) (device_id : option string) : A string :=
  do d <- get;
  do ep <- on_redis (uin_epoch (up_epochs (ae_up e)) (up_db (ae_up e)) (ae_now e) (epoch_rows d) uin);
  ret (issue_token (ae_ttl e) (ae_now e) uin ep device_id).

(** [Ed25519PublicKey.from_public_bytes(b64decode(sk)).verify(b64decode(sig), msg)] *)
Definition signature_ok (sk signature msg : string) : bool :=
  match b64decode sk, b64decode signature with
  | Some k, Some g => ed25519_verify k g (utf8 msg)
  | _, _ => false
  end.

Definition hash_key (raw : bytes) : string := hexdigest (sha256 raw).
Definition hash_invite_code (raw : string) : string := hexdigest (sha256 (utf8 (strip raw))).

(** [_rotated_account] *)
Definition rotated_account (d : adb) (sk : string) : option Z :=
  match key_bytes_or_none (Some sk) with
  | None => None
  | Some raw =>
      match retired_keys d !! hash_key raw with
      | Some row => if bool_decide (is_Some (users (acore d) !! rs_uin row)) then Some (rs_uin row) else None
      | None => None
      end
  end.

(** *** [services/guest_accounts.py] *)

Definition CHALLENGE_GUARD_TTL_SECONDS : Z := 300.
Definition CREATE_LOCK_TTL_SECONDS : Z := 30.
Definition GROUP_ADD_MINTS_PER_DAY : Z := 100.

Definition claim_seat (now uin : Z) (ik : option string) (d : adb) : bool * adb :=
  match users (acore d) !! uin with
  | Some u =>
      if bool_decide (guest_status u = Some STATUS_ADDED) then
        let d := set_user uin (fun u => with_last_seen (now - POLL_STAMP_LAG) (with_guest (Some STATUS_PROVEN) u)) d in
        let d := set_account uin (with_guest_since (Some now)) d in
        (true, match ik with Some k => set_key_columns uin (with_identity_key k) d | None => d end)
      else (false, d)
  | None => (false, d)
  end.

Definition challenge_guard_key (challenge : string) : string :=
  ("gch:" ++ String.substring 0 32 (hexdigest (sha256 (utf8 challenge))))%string.

Definition set_guard (e : aenv) (key value : string) (ttl : Z) (down : exn) : A bool := fun s =>
  if ae_up_guard e then on_redis (set_nx (ae_now e) key value (Some ttl)) s else (Raise down, s).

Definition claim_challenge (e : aenv) (challenge : string) : A string :=
  let key := challenge_guard_key challenge in
  do fresh <- set_guard e key "1" CHALLENGE_GUARD_TTL_SECONDS guest_unavailable_error;
  run unless fresh (HTTPException 409 "guest_replayed");
  ret key.

Definition release_key (e : aenv) (key : string) : A unit :=
  if ae_up_release e then redis_do (del (ae_now e) key) else ret tt.

Definition acquire_create_lock (e : aenv) (sk_raw : bytes) : A string :=
  let key := ("gmk:" ++ String.substring 0 32 (hash_key sk_raw))%string in
  do got <- set_guard e key (ae_lock_token e) CREATE_LOCK_TTL_SECONDS guest_unavailable_error;
  run unless got (HTTPException 409 "guest_busy");
  ret key.

(** The script deletes the lock only while it is the caller's. *)
Definition release_create_lock (e : aenv) (key : string) : A unit :=
  if ae_up_release e then
    redis_do (fun r => if bool_decide (rget (ae_now e) key r = Some (ae_lock_token e)) then del (ae_now e) key r else r)
  else ret tt.

(** [try: m finally: release_create_lock(lock)] *)
Definition with_lock {X} (e : aenv) (key : string) (m : A X) : A X := fun s =>
  let '(o, s) := m s in let '(_, s) := release_create_lock e key s in (o, s).

Definition retire_bearers_before_proof (uin : Z) (always : bool) (d : adb) : option Z * adb :=
  let marked := bool_decide (is_Some (users (acore d) !! uin))
                && bool_decide (is_Some (key_unproven_since (account_of d uin))) in
  let d := if marked then set_account uin (with_unproven None) d else d in
  if marked || always then
    let '(ep, tab) := bump_uin_epoch (epoch_rows d) uin in (Some ep, set_epoch_rows tab d)
  else (None, d).

Definition bearers_retired (e : aenv) (uin : Z) (epoch : option Z) : A unit :=
  match epoch with
  | None => ret tt
  | Some ep =>
      run redis_do (cache_uin_epoch (up_epochs (ae_up e)) (ae_now e) uin ep);
      send [KickUin uin]
  end.

Definition clear_guest_columns (uin : Z) (d : adb) : adb :=
  set_account uin (with_guest_since None) (set_user uin (with_guest None) d).

Definition announce_rooms (e : aenv) (uin : Z) : A unit :=
  do d <- get;
  send (map RoomEvent (broadcast_roster_rekey (ae_room e) uin (rooms d)).2).

Definition after_conversion (e : aenv) (uin : Z) : A unit :=
  run redis_do (unmark_guest (ae_up_unmark e).1 (ae_up_unmark e).2 (ae_now e) uin);
  run announce_rooms e uin;
  stat e "guest_settle".

(** ** Registration *)

(** The proof of the signing key: absent, good, or refused. *)
Definition prove_key (e : aenv) (challenge signature : option string) (signing_key typ : string) : outcome bool :=
  match truthy challenge, truthy signature with
  | Some c, Some g =>
      if negb (verify_key_challenge (ae_now e) c signing_key typ) then Raise (HTTPException 400 "invalid_challenge")
      else if signature_ok signing_key g c then Ok true
      else Raise (HTTPException 401 "bad_signature")
  | _, _ => Ok false
  end.

(** A voucher in the invite field: the tables with its nonce spent, or none
    when the field holds no voucher. *)
Definition redeem_entry (e : aenv) (code : string) (d : adb) : outcome (option adb) :=
  if String.eqb code "" then Ok None
  else match verify_entry b64decode_strict loads ed25519_verify public_key code (ae_island_host e)
               (ae_now e / usec_per_sec) with
  | Accepted nonce =>
      if bool_decide (nonce ∈ spent_nonces d) then Raise (HTTPException 409 "voucher_spent")
      else Ok (Some (spend nonce d))
  | Refused c =>
      if String.eqb c "voucher_other_island" || String.eqb c "voucher_expired"
      then Raise (HTTPException 403 c) else Ok None
  | Crashed x => Raise (OverflowError x)
  end.

(** What the door decided: the tables with what it spent, since when the
    newcomer is a resident, by which credential, and the number that goes with
    it. *)
Record ticket := mkTicket {
  t_db : adb; t_resident : option Z; t_via : string; t_reserved : option Z; t_hash : string
}.

Definition gated (policy : string) : bool := String.eqb policy "invite" || String.eqb policy "paid".

Definition door (e : aenv) (policy : string) (invite : option string) (d : adb) : outcome ticket :=
  let code := strip (default ""%string invite) in
  let h := if String.eqb code "" then ""%string else hash_invite_code code in
  let! v := redeem_entry e code d in
  match v with
  | Some d => Ok (mkTicket d (Some (ae_now e)) "voucher" None h)
  | None =>
      if gated policy then
        if String.eqb code ""
        then Raise (HTTPException 403 (if String.eqb policy "invite" then "invite_required" else "entry_required"))
        else
          let '(ok, d) := consume_invite (ae_now e) h false d in
          if ok then Ok (mkTicket d None "invite" (invite_number h d) h)
          else Raise (HTTPException 403 "invite_invalid")
      else if String.eqb code "" then Ok (mkTicket d None "open" None h)
      else
        let '(ok, d') := consume_invite (ae_now e) h true d in
        if ok then Ok (mkTicket d' None "invite" (invite_number h d') h) else Ok (mkTicket d None "open" None h)
  end.

(** Whether a trusted island vouches for a reserved number that was asked for. *)
Definition tenure_proven (e : aenv) (policy : string) (b : RegisterIn) (proven : bool) (sk : string) : bool :=
  match r_desired_uin b with
  | Some n =>
      proven && (0 <? n) && (n <=? UIN_MAX) && is_reserved_uin n
      && negb (gated policy && String.eqb (strip (default ""%string (r_invite b))) "")
      && ae_tenure e n sk
  | None => false
  end.

(** The number of the new account. *)
Definition choose_number (e : aenv) (desired : option Z) (proven tenure : bool) (t : ticket) : outcome Z :=
  let view := number_view (t_db t) in
  let free n except := negb (uin_is_taken (ae_now e) view n except false) in
  let wanted n := proven && (0 <? n) && (n <=? UIN_MAX) && free n None && (negb (is_reserved_uin n) || tenure) in
  let fallback :=
    match desired with
    | Some n => if wanted n then Ok n else allocate_uin (ae_rand e) (fun _ => ae_now e) view
    | None => allocate_uin (ae_rand e) (fun _ => ae_now e) view
    end in
  match t_reserved t with
  | Some r => if free r (Some (t_hash t)) then Ok r else fallback
  | None => fallback
  end.

Definition convert_guest_on_register (e : aenv) (uin : Z) (ik : string) (t : ticket) (device_id : option string)
    : A SessionFor :=
  match t_reserved t with
  | Some _ => raise (HTTPException 409 "invite_has_number")
  | None =>
      run refuse_revoked_device e uin device_id;
      let d := clear_guest_columns uin (t_db t) in
      let d := set_key_columns uin (with_identity_key ik) d in
      let d := match t_resident t with
               | Some at_ => grant_badge uin "resident" (set_account uin (with_resident (Some at_)) d)
               | None => d
               end in
      let d := set_user uin (with_last_seen (ae_now e)) d in
      let '(ep, d) := retire_bearers_before_proof uin true d in
      run commit d;
      run bearers_retired e uin ep;
      run after_conversion e uin;
      do token <- mint e uin device_id;
      ret (mkSessionFor uin token false None false)
  end.

(** The edges and the room a new account starts with. *)
Definition meet_founder (e : aenv) (uin : Z) : A unit :=
  do d <- get;
  if negb (ae_founder e =? 0) && negb (ae_founder e =? uin)
     && bool_decide (is_Some (users (acore d) !! ae_founder e))
  then commit (add_edges uin (ae_founder e) d).2
  else ret tt.

Definition meet_inviter (inviter : option Z) (uin : Z) : A unit :=
  match inviter with
  | Some i =>
      if i =? 0 then ret tt
      else do d <- get; let '(ok, d) := connect_inviter i uin d in if ok then commit d else ret tt
  | None => ret tt
  end.

Definition join_beta (e : aenv) (uin : Z) : A unit :=
  let gid := ae_beta_group e in
  if gid =? 0 then ret tt
  else
    do d <- get;
    match groups (acore d) !! gid with
    | None => ret tt
    | Some g =>
        if has_member (acore d) gid uin then raise (IntegrityError "group_members")
        else
          let d := on_acore (set_group_members (fun l => l ++ [mkGroupMember gid uin "member" "" None])) d in
          run commit d;
          let payload := room_payload (ae_room e) (rooms d) gid g in
          let uins := map mo_uin (go_members payload) in
          send [if (length (go_members payload) <=? SNAPSHOT_BROADCAST_LIMIT)%nat
                then RoomEvent (Snapshot uins payload) else RoomIdOnly uins gid]
    end.

Definition register (e : aenv) (b : RegisterIn) : A SessionFor :=
  do ik <- lift (pubkey32 (r_identity_key b) "identity_key");
  do sk <- lift (pubkey32 (r_signing_key b) "signing_key");
  do proven <- lift (prove_key e (r_challenge b) (r_signature b) sk "register");
  match ae_policy e with
  | None => raise (HTTPException 503 "island_busy")
  | Some policy =>
      let tenure := tenure_proven e policy b proven sk in
      do d <- get;
      run unless (proven || bool_decide (by_claim d (carries d [sk]) = [])) (HTTPException 403 "key_proof_required");
      do t <- lift (door e policy (r_invite b) d);
      let guest_row := if proven then match decode_key32 sk with
                                      | Some raw => row_for_key (t_db t) raw true
                                      | None => None
                                      end
                       else None in
      match guest_row with
      | Some g => convert_guest_on_register e g ik t (r_device_id b)
      | None =>
          do uin <- lift (choose_number e (r_desired_uin b) proven tenure t);
          let mark := match t_resident t with Some _ => Some "resident"%string | None => None end in
          do d <- lift (insert_user uin (new_user (ae_now e) (ae_now e) (r_nickname b) mark None) ik sk
                          (mkAccount (Some (t_via t)) (t_resident t) mark None (Some (ae_now e)) None) (t_db t));
          run commit d;
          run meet_founder e uin;
          run meet_inviter (r_inviter_uin b) uin;
          run join_beta e uin;
          do token <- mint e uin (r_device_id b);
          ret (mkSessionFor uin token false None true)
      end
  end.

(** ** Recovery and refresh *)

(** [_claim_seat_on_proof] *)
Definition claim_seat_on_proof (e : aenv) (uin : Z) : A bool :=
  do d <- get;
  let status_now := match users (acore d) !! uin with Some u => guest_status u | None => None end in
  run (let '(ep, d') := retire_bearers_before_proof uin false d in
       match ep with
       | Some _ => run commit d'; bearers_retired e uin ep
       | None => ret tt
       end);
  if bool_decide (status_now = Some STATUS_ADDED) then
    do d <- get;
    let '(ok, d') := claim_seat (ae_now e) uin None d in
    run (if ok then run commit d'; run announce_rooms e uin; stat e "guest_claim" else ret tt);
    do d <- get;
    ret (is_guest_row d uin)
  else ret (bool_decide (is_Some status_now)).

(** The proof of both: a recovery challenge for this key, signed by it. *)
Definition recover_proof (e : aenv) (sk challenge signature : string) : A unit :=
  run unless (verify_recover_challenge (ae_now e) challenge sk) (HTTPException 400 "invalid_challenge");
  unless (signature_ok sk signature challenge) (HTTPException 401 "bad_signature").

Definition not_found (d : adb) (sk code : string) : exn :=
  match rotated_account d sk with
  | Some u => HTTPExceptionN 404 "identity_rotated" u
  | None => HTTPException 404 code
  end.

Definition recover_challenge (now : Z) (signing_key nonce : string) : outcome string :=
  let sk := strip signing_key in
  if String.eqb sk "" then Raise (HTTPException 400 "missing_key")
  else Ok (issue_recover_challenge now sk nonce).

Definition recover (e : aenv) (signing_key challenge signature : string) (device_id : option string) : A SessionFor :=
  let sk := strip signing_key in
  run recover_proof e sk challenge signature;
  do d <- get;
  match uin_for_signing_key d sk with
  | None => raise (not_found d sk "identity_not_found")
  | Some uin =>
      run refuse_revoked_device e uin device_id;
      do guest <- claim_seat_on_proof e uin;
      do token <- mint e uin device_id;
      ret (mkSessionFor uin token guest None false)
  end.

(** The account a refresh opens, and the number it was left for; or why there
    is none. *)
Definition refresh_target (d : adb) (uin : Z) (sk : string) : outcome (Z * option Z) :=
  if carries d [sk] uin && bool_decide (is_Some (users (acore d) !! uin)) then Ok (uin, None)
  else
    match users (acore d) !! uin, by_claim d (carries d [sk]) with
    | None, [u] => Ok (u, Some uin)
    | None, _ :: _ :: _ => Raise (HTTPException 404 "identity_ambiguous")
    | _, _ => Raise (not_found d sk "identity_not_found")
    end.

(** A named install without a cursor starts at the account's furthest mark. *)
Definition seed_install (now uin : Z) (device_id : option string) (d : db) : option db :=
  match truthy device_id with
  | Some dev =>
      match queue_cursors d !! (uin, dev) with
      | Some _ => None
      | None => let '(fd, fg) := account_watermark d uin in Some (upsert_cursor now uin dev 0 0 fd fg d).2
      end
  | None => None
  end.

Definition refresh (e : aenv) (uin : Z) (signing_key challenge signature : string) (device_id : option string)
    : A SessionFor :=
  let sk := strip signing_key in
  run recover_proof e sk challenge signature;
  do d <- get;
  do target <- lift (refresh_target d uin sk);
  let '(owned, moved_from) := target in
  run refuse_revoked_device e owned device_id;
  run in_rooms (enforce_rate_limit num hmac_hex secret (e_up_limit (ae_room e)) (ae_now e)
                  ("uin:" ++ pretty owned)%string "auth_refresh_uin" 120 3600 false);
  run (match seed_install (ae_now e) owned device_id (acore d) with
       | Some c => commit (on_acore (fun _ => c) d)
       | None => ret tt
       end);
  do guest <- claim_seat_on_proof e owned;
  do token <- mint e owned device_id;
  ret (mkSessionFor owned token guest moved_from false).

(** ** Sessions of a signed-in caller *)

Definition session (e : aenv) (uin : Z) (device_id : string) : A string := mint e uin (carry_device_id device_id).

Definition claim_device (e : aenv) (uin : Z) (device_id old_device_id : string) : A string :=
  run refuse_revoked_device e uin (Some device_id);
  do linked <- on_redis (fun r => (is_linked_device bucket (ae_now e) uin old_device_id r, r));
  run unless (String.eqb device_id old_device_id || negb linked) (HTTPException 409 "linked_device_cannot_rename");
  do d <- get;
  run (match queue_cursors (acore d) !! (uin, device_id) with
       | Some _ => ret tt
       | None =>
           let old := queue_cursors (acore d) !! (uin, old_device_id) in
           let '(fd, fg) := match old with
                            | Some c => (last_direct_id c, last_group_id c)
                            | None => account_watermark (acore d) uin
                            end in
           let c := (upsert_cursor (ae_now e) uin device_id 0 0 fd fg (acore d)).2 in
           let c := match old with Some _ => set_queue_cursors (delete (uin, old_device_id)) c | None => c end in
           commit (on_acore (fun _ => c) d)
       end);
  mint e uin (Some device_id).

(** ** Change of keys *)

Record ReissueIn := mkReissueIn {
  i_identity_key : string;
  i_signing_key : string;
  i_proof_v : option Z;
  i_host : option string;
  i_old_signing_key : option string;
  i_ts : option Z;
  i_nonce : option string;
  i_signature : option string
}.

Definition NONCE_TTL_SECONDS : Z := 1800.

Definition proof_offered (b : ReissueIn) : bool :=
  bool_decide (is_Some (i_proof_v b)) || bool_decide (is_Some (i_host b))
  || bool_decide (is_Some (i_old_signing_key b)) || bool_decide (is_Some (i_ts b))
  || bool_decide (is_Some (i_nonce b)) || bool_decide (is_Some (i_signature b)).

(** The fields of an offered proof: version, host, old key, instant, nonce,
    signature; [None]: malformed. *)
Definition parse_proof (b : ReissueIn) : option (Z * string * bytes * Z * bytes * bytes) :=
  match i_proof_v b, i_ts b, truthy (i_host b), truthy (i_old_signing_key b), truthy (i_nonce b), truthy (i_signature b) with
  | Some v, Some ts, Some h, Some old, Some n, Some g =>
      let host := canonical_host h in
      if String.eqb host "" then None
      else match decode_key32 old, decode_nonce n, decode_signature g with
           | Some old, Some n, Some g => Some (v, host, old, ts, n, g)
           | _, _, _ => None
           end
  | _, _, _, _, _, _ => None
  end.

Definition reissue_nonce_key (old_sk nonce : bytes) : string :=
  ("rin:" ++ String.substring 0 16 (hash_key old_sk) ++ ":" ++ canonical_nonce nonce)%string.

(** The judgement of an offered proof; its nonce is claimed last.  [taken]: who
    else on the island carries the new signing key. *)
Definition judge_proof (e : aenv) (uin : Z) (b : ReissueIn) (new_ik new_sk : bytes) (taken : list Z) (d : adb)
    : A string :=
  match parse_proof b with
  | None => raise (HTTPException 400 "reissue_proof_malformed")
  | Some (v, host, old_sk, ts, nonce, sig) =>
      run unless (v =? REISSUE_VERSION) (HTTPException 400 "reissue_proof_version");
      let '(allowed, from_header) := island_hosts (ae_island_host e) (ae_host_header e) (ae_fronts e) in
      run (if from_header then stat e "reissue_host_from_header" else ret tt);
      run unless (bool_decide (host ∈ allowed)) (HTTPException 400 "reissue_wrong_host");
      run unless (bool_decide (key_bytes_or_none (signing_key_of d uin) = Some old_sk))
            (HTTPException 409 "reissue_old_key_mismatch");
      let now := ae_now e / usec_per_sec in
      run unless (Z.abs (now - ts) <=? ae_skew e) (HTTPExceptionN 400 "reissue_clock_skew" now);
      run unless (ed25519_verify old_sk sig (reissue_proof_bytes host uin old_sk new_ik new_sk ts nonce))
            (HTTPException 403 "reissue_bad_signature");
      run unless (match taken with
                  | [] => true
                  | _ => match retired_keys d !! hash_key old_sk with
                         | Some m => bool_decide (rs_uin m ∈ taken)
                         | None => false
                         end
                  end) (HTTPException 403 "key_proof_required");
      let key := reissue_nonce_key old_sk nonce in
      do fresh <- set_guard e key "1" NONCE_TTL_SECONDS (HTTPException 503 "reissue_unavailable");
      run unless fresh (HTTPException 409 "reissue_replayed");
      ret key
  end.

Definition retire_signing_key (now : Z) (old_raw : bytes) (uin : Z) (signed : bool) (d : adb) : adb :=
  let h := hash_key old_raw in
  match retired_keys d !! h with
  | None => set_retired <[h := mkRetired uin now]> d
  | Some row =>
      if signed || (rs_uin row =? uin) || negb (bool_decide (is_Some (users (acore d) !! rs_uin row)))
      then set_retired <[h := mkRetired uin now]> d else d
  end.

(** What the change writes: the keys, the mark of a guest's unproven key, the
    vault, the marker of the retired key, the epoch of a signed change. *)
Definition reissue_writes (now uin : Z) (ik sk : string) (new_sk : bytes) (signed : bool) (d : adb) : option Z * adb :=
  let retired_raw := key_bytes_or_none (signing_key_of d uin) in
  let changed := negb (bool_decide (retired_raw = Some new_sk)) in
  let guest := is_guest_row d uin in
  let d := set_key_columns uin (fun k => with_signing_key sk (with_identity_key ik k)) d in
  let d := if guest && changed then set_account uin (with_unproven (Some now)) d else d in
  let d := set_vault (filter (fun s => s.1 <> uin) (vault_slots d)) d in
  let d := match retired_raw with
           | Some raw => if changed then retire_signing_key now raw uin signed d else d
           | None => d
           end in
  if signed then
    let '(ep, tab) := bump_uin_epoch (epoch_rows d) uin in (Some ep, set_epoch_rows tab d)
  else (None, d).

(** [bearer]: the token the caller showed. *)
Definition reissue (e : aenv) (b : ReissueIn) (uin : Z) (device_id bearer : string) : A SessionFor :=
  let bad := HTTPException 400 "bad_key" in
  match pubkey32 (i_identity_key b) "identity_key", pubkey32 (i_signing_key b) "signing_key" with
  | Ok ik, Ok sk =>
      match decode_key32 ik, decode_key32 sk with
      | Some new_ik, Some new_sk =>
          do d <- get;
          run unless (bool_decide (is_Some (users (acore d) !! uin))) (HTTPException 404 "user_not_found");
          match ae_require_proof e with
          | None => raise (HTTPException 503 "island_busy")
          | Some require_proof =>
              if bool_decide (key_bytes_or_none (identity_key_of d uin) = Some new_ik)
                 && bool_decide (key_bytes_or_none (signing_key_of d uin) = Some new_sk)
              then
                if require_proof then ret (mkSessionFor uin bearer false None false)
                else
                  run stat e "reissue_samekeys";
                  do token <- mint e uin (carry_device_id device_id);
                  ret (mkSessionFor uin token false None false)
              else
                let taken := signing_key_taken_by d new_sk uin in
                do guard <- (if proof_offered b then
                               do k <- judge_proof e uin b new_ik new_sk taken d; ret (Some k)
                             else
                               run unless (negb require_proof) (HTTPException 403 "reissue_proof_required");
                               run unless (bool_decide (taken = [])) (HTTPException 403 "key_proof_required");
                               run stat e "reissue_unsigned";
                               ret None);
                let signed := bool_decide (is_Some guard) in
                let '(new_epoch, d') := reissue_writes (ae_now e) uin ik sk new_sk signed d in
                run (if ae_commit e then commit d'
                     else run (match guard with Some k => release_key e k | None => ret tt end);
                          raise (RuntimeError "commit"));
                run (match new_epoch with
                     | Some ep => redis_do (cache_uin_epoch (up_epochs (ae_up e)) (ae_now e) uin ep)
                     | None => ret tt
                     end);
                run (if signed then stat e "reissue_signed" else ret tt);
                run send (VaultReset uin (carry_device_id device_id)
                          :: match new_epoch with Some _ => [KickUin uin] | None => [] end);
                match new_epoch with
                | Some ep => ret (mkSessionFor uin (issue_token (ae_ttl e) (ae_now e) uin ep (carry_device_id device_id))
                                    false None false)
                | None => do token <- mint e uin (carry_device_id device_id);
                          ret (mkSessionFor uin token false None false)
                end
          end
      | _, _ => raise bad
      end
  | _, _ => raise bad
  end.

(** ** Guest copies *)

Record GuestIn := mkGuestIn {
  g_v : Z;
  g_host : string;
  g_group_id : Z;
  g_nickname : string;
  g_identity_key : string;
  g_signing_key : string;
  g_challenge : string;
  g_signature : string;
  g_device_id : option string;
  g_k : option string
}.

Definition commit_or (e : aenv) (d : adb) (undo : A unit) : A unit :=
  if ae_commit e then commit d else run undo; raise (RuntimeError "commit").

(** [_guest_existing_row] *)
Definition guest_existing_row (e : aenv) (uin : Z) (ik : string) (ik_raw : bytes) (device_id : option string)
    (guard : string) : A SessionFor :=
  run refuse_revoked_device e uin device_id;
  do d <- get;
  let status_read := match users (acore d) !! uin with Some u => guest_status u | None => None end in
  let ik_read := identity_key_of d uin in
  run (let '(ep, d') := retire_bearers_before_proof uin false d in
       match ep with
       | Some _ => run commit_or e d' (release_key e guard); bearers_retired e uin ep
       | None => ret tt
       end);
  match status_read with
  | None => do token <- mint e uin device_id; ret (mkSessionFor uin token false None false)
  | Some st =>
      let seat := String.eqb st STATUS_ADDED in
      run (if seat then
             fun s => match mark_guest (ae_up_mark e) (ae_now e) uin (redis (lim s)) with
                      | (Ok _, r) => (Ok tt, mkAst (tables s) (mkLimiter r (local_hits (lim s))) (frames s))
                      | (Raise _, _) => (run release_key e guard; raise guest_unavailable_error) s
                      end
           else ret tt);
      do d <- get;
      let '(claimed, d1) := if seat then claim_seat (ae_now e) uin (Some ik) d else (false, d) in
      let repair := negb claimed && negb (bool_decide (key_bytes_or_none ik_read = Some ik_raw)) && is_guest_row d1 uin in
      let d2 := if repair then set_key_columns uin (with_identity_key ik) d1 else d1 in
      run (if claimed || repair then
             run commit_or e d2 (release_key e guard);
             run announce_rooms e uin;
             if claimed then stat e "guest_claim" else ret tt
           else ret tt);
      do d <- get;
      do token <- mint e uin device_id;
      ret (mkSessionFor uin token (is_guest_row d uin) None false)
  end.

(** The row and its first membership, in one transaction. *)
Definition mint_guest (e : aenv) (gid : Z) (g : Group) (nick ik sk st : string) (seen : Z) (undo : A unit)
    : A Z :=
  do d <- get;
  do uin <- lift (allocate_uin (ae_rand e) (fun _ => ae_now e) (number_view d));
  do d <- lift (insert_user uin (new_user (ae_now e) seen nick None (Some st)) ik sk
                  (mkAccount (Some "guest"%string) None None (Some (ae_now e)) (Some (ae_now e)) None) d);
  do c <- lift (enter_room (ae_now e) gid uin "member" (armed_join_stamp (ae_now e) g) (acore d));
  let d := on_acore (fun _ => c) d in
  run (fun s => match mark_guest (ae_up_mark e) (ae_now e) uin (redis (lim s)) with
                | (Ok _, r) => (Ok tt, mkAst (tables s) (mkLimiter r (local_hits (lim s))) (frames s))
                | (Raise _, _) => (run undo; raise guest_unavailable_error) s
                end);
  run commit_or e d (run redis_do (unmark_guest (ae_up_unmark e).1 (ae_up_unmark e).2 (ae_now e) uin); undo);
  ret uin.

(** Whether a guest may enter this room by itself, before anything is written. *)
Definition guest_room_checks (e : aenv) (gid : Z) (k : option string) (d : adb) : A Group :=
  match groups (acore d) !! gid with
  | None => raise (HTTPException 404 "group_not_found")
  | Some g =>
      run unless (negb (is_closed (info g))) (HTTPException 403 "group_closed");
      run unless (negb (bool_decide (allow_guests (info g) = Some false))) (HTTPException 403 "guest_room_closed");
      run (if negb (in_catalog (info g)) && negb (key_matches g k) then
             match room_link_refusal (ae_room e) g k with
             | Some name => run stat e name; raise (HTTPException 403 "room_link_invalid")
             | None => stat e "room_guest_tokenless"
             end
           else ret tt);
      run in_rooms (refuse_full_room (ae_room e) (rooms d) gid);
      run in_rooms (spend_room_budget num hmac_hex secret (ae_room e) gid);
      ret g
  end.

(** Everything [guest_join] checks without touching a table: the keys, and the
    guard of the challenge it spent. *)
Definition guest_proof_checks (e : aenv) (b : GuestIn) : A (string * string * bytes * bytes * string) :=
  run unless (g_v b =? GUEST_VERSION) (HTTPException 400 "guest_proof_version");
  do ik <- lift (pubkey32 (g_identity_key b) "identity_key");
  do sk <- lift (pubkey32 (g_signing_key b) "signing_key");
  match decode_key32 ik, decode_key32 sk, decode_signature (g_signature b) with
  | Some ik_raw, Some sk_raw, Some sig =>
      run unless (verify_key_challenge (ae_now e) (g_challenge b) sk "guest") (HTTPException 400 "invalid_challenge");
      let host := canonical_host (g_host b) in
      let '(allowed, from_header) := island_hosts (ae_island_host e) (ae_host_header e) (ae_fronts e) in
      run (if from_header then stat e "guest_host_from_header" else ret tt);
      run unless (negb (String.eqb host "") && bool_decide (host ∈ allowed)) (HTTPException 400 "guest_wrong_host");
      run unless (match guest_proof_bytes host (g_group_id b) ik_raw sk_raw (g_challenge b) with
                  | Ok msg => ed25519_verify sk_raw sig msg
                  | Raise _ => false
                  end) (HTTPException 401 "bad_signature");
      do guard <- claim_challenge e (g_challenge b);
      ret (ik, sk, ik_raw, sk_raw, guard)
  | _, _, _ => raise (HTTPException 400 "guest_proof_malformed")
  end.

Definition guest_join (e : aenv) (b : GuestIn) : A SessionFor :=
  do checked <- guest_proof_checks e b;
  let '(ik, sk, ik_raw, sk_raw, guard) := checked in
  do d <- get;
  match row_for_key d sk_raw false with
  | Some u => guest_existing_row e u ik ik_raw (g_device_id b) guard
  | None =>
      run (match rotated_account d sk with
           | Some u => raise (HTTPExceptionN 404 "identity_rotated" u)
           | None => ret tt
           end);
      run unless (admits_guests e) (HTTPException 403 "guest_closed");
      do g <- guest_room_checks e (g_group_id b) (g_k b) d;
      do lock <- acquire_create_lock e sk_raw;
      do made <- with_lock e lock
           (do d <- get;
            match row_for_key d sk_raw false with
            | Some u => do out <- guest_existing_row e u ik ik_raw (g_device_id b) guard; ret (inl out)
            | None => do uin <- mint_guest e (g_group_id b) g (g_nickname b) ik sk STATUS_PROVEN
                                  (ae_now e - mint_backdate (ae_dormant e)) (release_key e guard);
                      ret (inr uin)
            end);
      match made with
      | inl out => ret out
      | inr uin =>
          do d <- get;
          do g <- lift (load_group (rooms d) (g_group_id b));
          let payload := room_payload (ae_room e) (rooms d) (g_group_id b) g in
          run send (map RoomEvent (broadcast_membership (g_group_id b) (go_members payload) payload []));
          run stat e "guest_mint";
          do token <- mint e uin (g_device_id b);
          ret (mkSessionFor uin token true None true)
      end
  end.

(** [guest_settle] *)
Record GuestSettleOut := mkGuestSettleOut {
  so_uin : Z; so_resident_since : option Z; so_badge : option string; so_badges_earned : list string
}.

(** How a guest pays for living here: the tables with what was spent. *)
Definition settle_price (e : aenv) (code : string) (uin : Z) (d : adb) : outcome adb :=
  if String.eqb code "" then
    match ae_policy e with
    | None => Raise guest_unavailable_error
    | Some policy =>
        if String.eqb policy "open" then Ok d
        else Raise (HTTPException 403 (if String.eqb policy "invite" then "invite_required" else "entry_required"))
    end
  else
    let! v := redeem_entry e code d in
    match v with
    | Some d => Ok (grant_badge uin "resident" (set_account uin (with_resident (Some (ae_now e))) d))
    | None =>
        let h := hash_invite_code code in
        match invite_number h d with
        | Some _ => Raise (HTTPException 409 "invite_has_number")
        | None =>
            let '(ok, d) := consume_invite (ae_now e) h false d in
            if ok then Ok d else Raise (HTTPException 403 "invite_invalid")
        end
    end.

Definition guest_settle (e : aenv) (code : option string) (uin : Z) : A GuestSettleOut :=
  do d <- get;
  match users (acore d) !! uin with
  | None => raise (HTTPException 404 "user_not_found")
  | Some u =>
      run unless (bool_decide (is_Some (guest_status u))) (HTTPException 409 "not_a_guest");
      do d <- lift (settle_price e (strip (default ""%string code)) uin d);
      let d := clear_guest_columns uin d in
      run commit d;
      run after_conversion e uin;
      let u' := default u (users (acore d) !! uin) in
      let p := profile u' in
      run (if bool_decide (badge p <> badge (profile u))
           then send [RenameAnnounced uin (nickname p) (if badge_hidden p then None else badge p)] else ret tt);
      ret (mkGuestSettleOut uin (resident_since (account_of d uin)) (badge p) (earned_badges u' (account_of d uin)))
  end.

(** *** [add_guest] of [routers/groups.py] *)

Definition spend_group_add_budget (e : aenv) (gid : Z) : A unit :=
  in_rooms (spend_budget num hmac_hex secret (ae_room e) gid "guest_add_group" "guest_add_limit" GROUP_ADD_MINTS_PER_DAY).

Definition GUEST_ADD_CEILING_PER_MINUTE : Z := 30.
Definition GUEST_ADD_CEILING_PER_HOUR : Z := 600.

Record GuestAddOut := mkGuestAddOut { ga_room : GroupOut; added_uin : Z; ga_created : bool }.

Definition add_existing (e : aenv) (gid : Z) (g : Group) (me : GroupMember) (uin target : Z) (spend_budget : bool)
    : A unit :=
  do d <- get;
  match users (acore d) !! target with
  | None => raise (AttributeError "guest_status")
  | Some u =>
      let existing := has_member (acore d) gid target in
      run in_rooms (match guest_status u with
                    | None => native_add_checks (rooms d) g uin target u
                    | Some _ => guest_target_checks num hmac_hex secret (ae_room e) (rooms d) gid g me target u existing spend_budget
                    end);
      if existing then ret tt
      else
        do c <- lift (enter_room (ae_now e) gid target "member" (armed_join_stamp (ae_now e) g) (acore d));
        commit (on_acore (fun _ => c) d)
  end.

Definition add_guest (e : aenv) (gid : Z) (nick identity_key signing_key : string) (uin : Z) : A GuestAddOut :=
  do d <- get;
  do guest <- in_rooms (ask_guest (ae_room e) (rooms d) uin);
  run (if guest then run stat e "guest_restricted"; raise restricted_error else ret tt);
  do ik <- lift (pubkey32 identity_key "identity_key");
  do sk <- lift (pubkey32 signing_key "signing_key");
  let nick := String.substring 0 64 (strip nick) in
  run unless (negb (String.eqb nick "")) (HTTPException 422 "nickname is empty");
  match decode_key32 sk with
  | None => raise (ValueError "key must be 32 bytes")
  | Some sk_raw =>
      do me <- lift (ensure_member (rooms d) gid uin);
      do g <- lift (load_group (rooms d) gid);
      run unless (negb (bool_decide (allow_guests (info g) = Some false)) || runs_room me)
            (HTTPException 403 "guest_room_closed");
      run unless (admits_guests e) (HTTPException 403 "guest_closed");
      run in_rooms (island_ceiling num (e_up_limit (ae_room e)) (e_up_limit (ae_room e)) (ae_now e) "guest_add"
                      GUEST_ADD_CEILING_PER_MINUTE GUEST_ADD_CEILING_PER_HOUR);
      do made <-
        match row_for_key d sk_raw false with
        | Some u => run add_existing e gid g me uin u true; ret (u, false)
        | None =>
            run unless (negb (bool_decide (is_Some (rotated_account d sk)))) (HTTPException 409 "guest_key_retired");
            run in_rooms (refuse_full_room (ae_room e) (rooms d) gid);
            run spend_group_add_budget e gid;
            run in_rooms (spend_room_budget num hmac_hex secret (ae_room e) gid);
            do lock <- acquire_create_lock e sk_raw;
            with_lock e lock
              (do d <- get;
               match row_for_key d sk_raw false with
               | Some u => run add_existing e gid g me uin u false; ret (u, false)
               | None => do u <- mint_guest e gid g nick ik sk STATUS_ADDED
                                   (ae_now e - added_backdate (ae_dormant e)) (ret tt);
                         ret (u, true)
               end)
        end;
      let '(target, created) := made in
      do d <- get;
      do g <- lift (load_group (rooms d) gid);
      let payload := room_payload (ae_room e) (rooms d) gid g in
      run send (map RoomEvent (broadcast_membership gid (go_members payload) payload []));
      run stat e (if created : bool then "guest_add_mint" else "guest_add_existing")%string;
      ret (mkGuestAddOut payload target created)
  end.

Definition register_challenge (now : Z) (signing_key nonce : string) : string :=
  issue_key_challenge now (strip signing_key) "register" nonce.
Definition guest_challenge (now : Z) (signing_key nonce : string) : string :=
  issue_key_challenge now (strip signing_key) "guest" nonce.
End handlers.
