(* ===== verification/AccountsAuth.v ===== *)
(** * Who may change an account

    A logic for the handlers of [Accounts] (what a request leaves in the
    tables, whatever it answers), and what follows from it for every one of
    them: rows are never taken away, the moment a person first claimed a key
    never moves, nobody's row changes without their session or a signature by
    their key ([row_authority]), and the account a key recovers stays the
    account it recovers ([recovery_stays]). *)

From stdpp Require Import base list sorting gmap strings pretty.
From Stdlib Require Import ZArith Lia Ascii.
From S2P Require Import Prelude Text Uin Storage Redis RateLimit GuestPolicy Sessions GroupLogStore QueueDrain Devices Gates Bytes KeyStorage Voucher Rooms KeyProof Accounts.

(** ** The logic *)

Section logic.
Context {R : Type}.

(** Started on the tables [d], [m] ends as [Q] says. *)
Definition spec {X} (d : adb) (m : A (R := R) X) (Q : outcome X -> adb -> Prop) : Prop :=
  forall s, tables s = d -> Q (m s).1 (tables (m s).2).

(** [m] leaves the tables alone. *)
Definition quiet {X} (m : A (R := R) X) : Prop := forall s, tables (m s).2 = tables s.

Lemma spec_weaken {X} d (m : A X) (Q Q' : outcome X -> adb -> Prop) :
  spec d m Q -> (forall o d', Q o d' -> Q' o d') -> spec d m Q'.
Proof. intros H HQ s Hs. by apply HQ, H. Qed.

Lemma spec_bind {X Y} d (m : A X) (k : X -> A Y) (Q : outcome Y -> adb -> Prop) :
  spec d m (fun o d1 => match o with Ok x => spec d1 (k x) Q | Raise e => Q (Raise e) d1 end) ->
  spec d (bind m k) Q.
Proof.
  intros H s Hs. specialize (H s Hs). unfold bind. destruct (m s) as [[x|e] s1]; simpl in *; [by apply H|done].
Qed.

Lemma spec_get {Y} d (k : adb -> A Y) Q : spec d (k d) Q -> spec d (bind get k) Q.
Proof. intros H s Hs. unfold bind, get. simpl. rewrite Hs. by apply H. Qed.

Lemma spec_commit d d' (Q : outcome unit -> adb -> Prop) : Q (Ok tt) d' -> spec d (commit d') Q.
Proof. by intros H s _. Qed.

Lemma spec_ret {X} d (x : X) (Q : outcome X -> adb -> Prop) : Q (Ok x) d -> spec d (ret x) Q.
Proof. by intros H s <-. Qed.
Lemma spec_raise {X} d e (Q : outcome X -> adb -> Prop) : Q (Raise e) d -> spec d (raise e) Q.
Proof. by intros H s <-. Qed.
Lemma spec_lift {X} d (o : outcome X) (Q : outcome X -> adb -> Prop) : Q o d -> spec d (lift o) Q.
Proof. by intros H s <-. Qed.
Lemma spec_quiet {X} d (m : A X) (Q : outcome X -> adb -> Prop) : quiet m -> (forall o, Q o d) -> spec d m Q.
Proof. intros Hm H s <-. rewrite Hm. apply H. Qed.

Lemma spec_unless {X} d b e (k : unit -> A X) (Q : outcome X -> adb -> Prop) :
  (b = true -> spec d (k tt) Q) -> (b = false -> Q (Raise e) d) -> spec d (bind (unless b e) k) Q.
Proof.
  intros H1 H2. apply spec_bind. unfold unless. destruct b; [apply spec_ret; by apply H1|apply spec_raise; by apply H2].
Qed.

Lemma quiet_bind {X Y} (m : A X) (k : X -> A Y) : quiet m -> (forall x, quiet (k x)) -> quiet (bind m k).
Proof.
  intros Hm Hk s. unfold bind. specialize (Hm s). destruct (m s) as [[x|e] s1]; simpl in *; [|done]. by rewrite Hk.
Qed.
Lemma quiet_get : quiet get. Proof. done. Qed.
Lemma quiet_ret {X} (x : X) : quiet (ret x). Proof. done. Qed.
Lemma quiet_raise {X} e : quiet (raise (X := X) e). Proof. done. Qed.
Lemma quiet_lift {X} (o : outcome X) : quiet (lift o). Proof. done. Qed.
Lemma quiet_send l : quiet (send l). Proof. done. Qed.
Lemma quiet_on_redis {X} (f : R -> X * R) : quiet (on_redis f).
Proof. intros s. unfold on_redis. by destruct (f (redis (lim s))). Qed.
Lemma quiet_redis_do (f : R -> R) : quiet (redis_do f).
Proof. apply quiet_on_redis. Qed.
Lemma quiet_in_rooms {X} (m : M X) : quiet (in_rooms m).
Proof. intros s. unfold in_rooms. by destruct (m (lim s)). Qed.
Lemma quiet_unless b e : quiet (unless b e).
Proof. by destruct b. Qed.
Lemma quiet_if {X} (b : bool) (m n : A X) : quiet m -> quiet n -> quiet (if b then m else n).
Proof. by destruct b. Qed.
End logic.

Create HintDb quiet.
#[export] Hint Resolve quiet_bind quiet_get quiet_ret quiet_raise quiet_lift quiet_send quiet_on_redis quiet_redis_do quiet_in_rooms quiet_unless quiet_if : quiet.

Section steps.
Context {R : Type} `{RR : Redis R} `{JT : JWT string}.
Context (bucket : string -> string) (sha256 : bytes -> bytes).

Lemma quiet_stat e name : quiet (stat (R := R) e name).
Proof. apply quiet_redis_do. Qed.
Lemma quiet_refuse e u dev : quiet (refuse_revoked_device (R := R) bucket e u dev).
Proof. intros s. unfold refuse_revoked_device. by destruct (device_is_revoked _ _ _ _ _ _) as [[]|]. Qed.
Lemma quiet_mint e u dev : quiet (mint (R := R) e u dev).
Proof. unfold mint. eauto 10 with quiet. Qed.
Lemma quiet_set_guard e k v t x : quiet (set_guard (R := R) e k v t x).
Proof. intros s. unfold set_guard. destruct (ae_up_guard e); [apply quiet_on_redis|done]. Qed.
Lemma quiet_claim_challenge e c : quiet (claim_challenge (R := R) sha256 e c).
Proof. apply quiet_bind; [apply quiet_set_guard|]. eauto with quiet. Qed.
Lemma quiet_release_key e k : quiet (release_key (R := R) e k).
Proof. unfold release_key. eauto with quiet. Qed.
Lemma quiet_acquire e k : quiet (acquire_create_lock (R := R) sha256 e k).
Proof. apply quiet_bind; [apply quiet_set_guard|]. eauto with quiet. Qed.
Lemma quiet_release_lock e k : quiet (release_create_lock (R := R) e k).
Proof. unfold release_create_lock. eauto with quiet. Qed.
Lemma quiet_bearers e u ep : quiet (bearers_retired (R := R) e u ep).
Proof. unfold bearers_retired. destruct ep; eauto with quiet. Qed.
Lemma quiet_announce e u : quiet (announce_rooms (R := R) e u).
Proof. unfold announce_rooms. eauto with quiet. Qed.
Lemma quiet_after e u : quiet (after_conversion (R := R) e u).
Proof. unfold after_conversion. eauto using quiet_stat, quiet_announce with quiet. Qed.

Lemma spec_with_lock {X} e k (m : A (R := R) X) d Q : spec d m Q -> spec d (with_lock e k m) Q.
Proof.
  intros H s Hs. unfold with_lock. specialize (H s Hs). destruct (m s) as [o s1].
  pose proof (quiet_release_lock e k s1) as Hq. destruct (release_create_lock e k s1) as [o2 s2]. simpl in *. by rewrite Hq.
Qed.
End steps.
#[export] Hint Resolve quiet_stat quiet_refuse quiet_mint quiet_set_guard quiet_claim_challenge quiet_release_key quiet_acquire quiet_release_lock quiet_bearers quiet_announce quiet_after : quiet.

(** ** What a request may do to the rows *)

(** The whole [users] row of a number. *)
Definition row (d : adb) (u : Z) : option User * option UserKeys * option Account :=
  (users (acore d) !! u, akeys d !! u, accounts d !! u).

Definition exists_row (d : adb) (u : Z) : Prop := is_Some (users (acore d) !! u).

(** From [d] to [d']: only rows in [auth] changed, only those in [rekey] in
    their signing key; no row went; a new one was first claimed now. *)
Record grows (auth rekey : Z -> Prop) (now : Z) (d d' : adb) : Prop := mkGrows {
  g_kept u : exists_row d u -> exists_row d' u /\ first_claim d' u = first_claim d u;
  g_auth u : exists_row d u -> auth u \/ row d' u = row d u;
  g_keys u : exists_row d u -> rekey u \/ signing_key_of d' u = signing_key_of d u;
  g_new u : ~ exists_row d u -> exists_row d' u -> first_claim d' u = now;
  g_retired : (forall u, ~ rekey u) -> retired_keys d' = retired_keys d
}.

Lemma row_facts d d' u :
  row d' u = row d u -> (exists_row d' u <-> exists_row d u) /\ first_claim d' u = first_claim d u /\
    signing_key_of d' u = signing_key_of d u.
Proof.
  unfold row, exists_row, first_claim, signing_key_of, account_of. intros [= E1 E2 E3]. by rewrite E1, E2, E3.
Qed.

Lemma grows_rows auth rekey now d d' :
  (forall u, row d' u = row d u) -> retired_keys d' = retired_keys d -> grows auth rekey now d d'.
Proof.
  intros H Hr. split.
  - intros u Hu. destruct (row_facts d d' u (H u)) as (? & ? & ?). tauto.
  - auto.
  - intros u Hu. right. apply row_facts, H.
  - intros u Hn Hu. destruct (row_facts d d' u (H u)) as (? & ? & ?). tauto.
  - done.
Qed.

Lemma grows_refl auth rekey now d : grows auth rekey now d d.
Proof. by apply grows_rows. Qed.

Lemma grows_trans auth rekey now d1 d2 d3 :
  grows auth rekey now d1 d2 -> grows auth rekey now d2 d3 -> grows auth rekey now d1 d3.
Proof.
  intros H1 H2. assert (Hdec : forall d u, exists_row d u \/ ~ exists_row d u).
  { intros d u. destruct (users (acore d) !! u) eqn:E; [left|right]; unfold exists_row; rewrite E; [by eexists|by intros [? ?]]. }
  split.
  - intros u Hu. destruct (g_kept _ _ _ _ _ H1 u Hu) as [Hu2 E2]. destruct (g_kept _ _ _ _ _ H2 u Hu2) as [? ->]. by rewrite E2.
  - intros u Hu. destruct (g_kept _ _ _ _ _ H1 u Hu) as [Hu2 _].
    destruct (g_auth _ _ _ _ _ H1 u Hu) as [?|E1]; [by left|]. destruct (g_auth _ _ _ _ _ H2 u Hu2) as [?|E2]; [by left|].
    right. by rewrite E2.
  - intros u Hu. destruct (g_kept _ _ _ _ _ H1 u Hu) as [Hu2 _].
    destruct (g_keys _ _ _ _ _ H1 u Hu) as [?|E1]; [by left|]. destruct (g_keys _ _ _ _ _ H2 u Hu2) as [?|E2]; [by left|].
    right. by rewrite E2.
  - intros u Hn Hu. destruct (Hdec d2 u) as [Hu2|Hn2]; [|by eapply g_new].
    destruct (g_kept _ _ _ _ _ H2 u Hu2) as [_ ->]. by eapply g_new.
  - intros Hr. rewrite (g_retired _ _ _ _ _ H2), (g_retired _ _ _ _ _ H1); done.
Qed.

(** *** The updates *)

Lemma set_account_row uin f d u :
  row (set_account uin f d) u =
    if decide (u = uin /\ exists_row d uin) then (users (acore d) !! u, akeys d !! u, Some (f (account_of d u))) else row d u.
Proof.
  unfold set_account, row, exists_row. case_bool_decide as Hx.
  - unfold akeys, acore. simpl. destruct (decide (u = uin)) as [->|Hne].
    + rewrite lookup_insert_eq, decide_True by done. done.
    + rewrite lookup_insert_ne, decide_False by naive_solver. done.
  - by rewrite decide_False by naive_solver.
Qed.

Lemma set_key_columns_row uin f d u :
  row (set_key_columns uin f d) u =
    if decide (u = uin /\ exists_row d uin)
    then (users (acore d) !! u, Some (f (default no_keys (akeys d !! u))), accounts d !! u) else row d u.
Proof.
  unfold set_key_columns, row, exists_row. case_bool_decide as Hx.
  - unfold akeys, acore, on_keys. simpl. destruct (decide (u = uin)) as [->|Hne].
    + rewrite lookup_insert_eq, decide_True by done. done.
    + rewrite lookup_insert_ne, decide_False by naive_solver. done.
  - by rewrite decide_False by naive_solver.
Qed.

Lemma set_user_row uin f d u :
  row (set_user uin f d) u =
    if decide (u = uin) then (f <$> users (acore d) !! u, akeys d !! u, accounts d !! u) else row d u.
Proof.
  unfold set_user, row, akeys, acore, rcore, on_acore, on_core. simpl. rewrite lookup_alter. repeat case_decide; naive_solver.
Qed.

(** A column of one row that is neither a claim nor the signing key. *)
Lemma grows_one (auth rekey : Z -> Prop) now d d' uin :
  auth uin -> (forall u, u <> uin -> row d' u = row d u) -> retired_keys d' = retired_keys d ->
  (exists_row d uin -> exists_row d' uin /\ first_claim d' uin = first_claim d uin /\
     signing_key_of d' uin = signing_key_of d uin) ->
  (exists_row d' uin -> exists_row d uin) ->
  grows auth rekey now d d'.
Proof.
  intros Ha Hrow Hr Hk Hk'. split; [..|done].
  - intros u Hu. destruct (decide (u = uin)) as [->|Hne]; [by destruct (Hk Hu) as (? & ? & ?)|].
    destruct (row_facts d d' u (Hrow u Hne)) as (? & ? & ?). tauto.
  - intros u Hu. destruct (decide (u = uin)) as [->|Hne]; auto.
  - intros u Hu. right. destruct (decide (u = uin)) as [->|Hne]; [by destruct (Hk Hu) as (? & ? & ?)|].
    by apply row_facts, Hrow.
  - intros u Hn Hu. destruct (decide (u = uin)) as [->|Hne]; [tauto|].
    destruct (row_facts d d' u (Hrow u Hne)) as (? & ? & ?). tauto.
Qed.

Lemma row_is d u x k a :
  row d u = (x, k, a) -> users (acore d) !! u = x /\ akeys d !! u = k /\ accounts d !! u = a.
Proof. unfold row. by intros [= -> -> ->]. Qed.

Lemma grows_set_user (auth rekey : Z -> Prop) now uin f d :
  auth uin -> (forall x, created_at (f x) = created_at x) -> grows auth rekey now d (set_user uin f d).
Proof.
  intros Ha Hf. pose proof (set_user_row uin f d uin) as E. rewrite decide_True in E by done.
    apply row_is in E as (E1 & E2 & E3).
  apply (grows_one _ _ _ _ _ uin Ha); [|done|..].
  - intros u Hne. by rewrite set_user_row, decide_False.
  - unfold exists_row, first_claim, signing_key_of, account_of. rewrite E1, E2, E3. intros [x Hx]. rewrite Hx. simpl. rewrite Hf. split_and!; [by eexists|done|done].
  - unfold exists_row. rewrite E1. intros [y Hy]. apply fmap_Some in Hy as (z & Hz & _). rewrite Hz. by eexists.
Qed.

Lemma grows_set_account (auth rekey : Z -> Prop) now uin f d :
  auth uin -> (forall x, identity_created_at (f x) = identity_created_at x) -> grows auth rekey now d (set_account uin f d).
Proof.
  intros Ha Hf. apply (grows_one _ _ _ _ _ uin Ha).
  - intros u Hne. rewrite set_account_row, decide_False; naive_solver.
  - unfold set_account. by case_bool_decide.
  - intros Hu. pose proof (set_account_row uin f d uin) as E. rewrite decide_True in E by done.
    apply row_is in E as (E1 & E2 & E3).
    unfold exists_row, first_claim, signing_key_of, account_of in *. rewrite E1, E2, E3. simpl. by rewrite Hf.
  - pose proof (set_account_row uin f d uin) as E. unfold exists_row.
    case_decide; apply row_is in E as (E1 & _ & _); by rewrite E1.
Qed.

Lemma grows_set_keys (auth rekey : Z -> Prop) now uin f d :
  auth uin -> (forall x, signing_key (f x) = signing_key x) -> grows auth rekey now d (set_key_columns uin f d).
Proof.
  intros Ha Hf. apply (grows_one _ _ _ _ _ uin Ha).
  - intros u Hne. rewrite set_key_columns_row, decide_False; naive_solver.
  - unfold set_key_columns. by case_bool_decide.
  - intros Hu. pose proof (set_key_columns_row uin f d uin) as E. rewrite decide_True in E by done.
    apply row_is in E as (E1 & E2 & E3).
    unfold exists_row, first_claim, signing_key_of, account_of in *. rewrite E1, E2, E3. simpl. rewrite Hf.
    split_and!; [done|done|]. by destruct (akeys d !! uin).
  - pose proof (set_key_columns_row uin f d uin) as E. unfold exists_row.
    case_decide; apply row_is in E as (E1 & _ & _); by rewrite E1.
Qed.

Lemma grows_insert (auth rekey : Z -> Prop) now uin u ik sk a d d' :
  insert_user uin u ik sk a d = Ok d' -> identity_created_at a = Some now -> grows auth rekey now d d'.
Proof.
  unfold insert_user. case_bool_decide as Hx; [done|]. intros [= <-] Ha.
  assert (Hrow : forall v, v <> uin -> row (set_accounts <[uin:=a]> (on_keys <[uin:=mkUserKeys ik (Some sk) None None None None None None]>
            (on_acore (set_users <[uin:=u]>) d))) v = row d v).
  { intros v Hne. unfold row, akeys, acore, rcore, on_keys, on_acore, on_core. simpl. by rewrite !lookup_insert_ne. }
  split; [..|done].
  - intros v Hv. assert (v <> uin) as Hne by (intros ->; done). destruct (row_facts _ _ _ (Hrow v Hne)) as (? & ? & ?). tauto.
  - intros v Hv. assert (v <> uin) as Hne by (intros ->; done). right. auto.
  - intros v Hv. assert (v <> uin) as Hne by (intros ->; done). right. by apply row_facts, Hrow.
  - intros v Hv Hv'. destruct (decide (v = uin)) as [->|Hne].
    + unfold first_claim, account_of. simpl. rewrite lookup_insert_eq. simpl. by rewrite Ha.
    + destruct (row_facts _ _ _ (Hrow v Hne)) as (? & ? & ?). tauto.
Qed.

(** *** The composed updates *)

Create HintDb grows.

Lemma grows_spent auth rekey now d d' :
  rooms d' = rooms d -> accounts d' = accounts d -> retired_keys d' = retired_keys d -> grows auth rekey now d d'.
Proof. intros E1 E2 E3. apply grows_rows; [|done]. intros u. unfold row, akeys, acore. by rewrite E1, E2. Qed.

Lemma grows_tables auth rekey now d f :
  (forall c, users (f c) = users c) -> grows auth rekey now d (on_acore f d).
Proof.
  intros Hf. apply grows_rows; [|done]. intros u. unfold row, akeys, acore, rcore, on_acore, on_core. simpl.
  by rewrite Hf.
Qed.

Lemma grows_contacts auth rekey now d f : grows auth rekey now d (on_contacts f d).
Proof. by apply grows_rows. Qed.

Lemma grows_clear (auth rekey : Z -> Prop) now uin d : auth uin -> grows auth rekey now d (clear_guest_columns uin d).
Proof. intros Ha. eapply grows_trans; [apply grows_set_user|apply grows_set_account]; done. Qed.

Lemma grows_badge (auth rekey : Z -> Prop) now uin kind d : auth uin -> grows auth rekey now d (grant_badge uin kind d).
Proof.
  intros Ha. unfold grant_badge. destruct (users (acore d) !! uin) as [u|]; [|apply grows_refl].
  cbv zeta. set (f := with_badges _). assert (H : grows auth rekey now d (set_account uin f d)) by by apply grows_set_account.
  destruct (truthy (badge (profile u))); [done|]. eapply grows_trans; [exact H|]. by apply grows_set_user.
Qed.

Lemma grows_retire (auth rekey : Z -> Prop) now uin always d :
  auth uin -> grows auth rekey now d (retire_bearers_before_proof uin always d).2.
Proof.
  intros Ha. unfold retire_bearers_before_proof.
  set (b := bool_decide _ && bool_decide _). set (d1 := if b then _ else d).
  assert (H1 : grows auth rekey now d d1) by (unfold d1; destruct b; [by apply grows_set_account|apply grows_refl]).
  destruct (b || always); [|done]. destruct (bump_uin_epoch (epoch_rows d1) uin) as [ep tab]. simpl.
  eapply grows_trans; [exact H1|]. by apply grows_spent.
Qed.

Lemma grows_claim_seat (auth rekey : Z -> Prop) now t uin ik d :
  auth uin -> grows auth rekey now d (claim_seat t uin ik d).2.
Proof.
  intros Ha. unfold claim_seat. destruct (users (acore d) !! uin) as [u|]; [|apply grows_refl].
  case_bool_decide; [|apply grows_refl]. simpl.
  eapply grows_trans; [by apply (grows_set_user _ _ _ uin (fun u => with_last_seen (t - POLL_STAMP_LAG) (with_guest (Some STATUS_PROVEN) u)))|].
  eapply grows_trans; [by apply (grows_set_account _ _ _ uin (with_guest_since (Some t)))|].
  destruct ik; [by apply grows_set_keys|apply grows_refl].
Qed.

Lemma enter_room_users now gid uin role stamp c c' : enter_room now gid uin role stamp c = Ok c' -> users c' = users c.
Proof.
  unfold enter_room. destruct (has_member c gid uin); [done|]. intros [= <-]. unfold seed_cursors_on_join.
  assert (H : forall h l x, users (foldl (fun d dev => (upsert_log_cursor now gid uin dev 0 h d).2) x l) = users x).
  { intros h l. induction l as [|dev l IH]; intros x; [done|]. simpl. by rewrite IH. }
  destruct (reader_devices _ _); [done|]. by rewrite H.
Qed.

Lemma spec_quiet_bind {R X Y} d (m : A (R := R) X) (k : X -> A Y) (Q : outcome Y -> adb -> Prop) :
  quiet m -> (forall x, spec d (k x) Q) -> (forall e, Q (Raise e) d) -> spec d (bind m k) Q.
Proof.
  intros Hm Hk Hr. apply spec_bind. apply spec_quiet; [done|]. intros [x|e]; auto.
Qed.

(** The same, remembering what the quiet part answered. *)
Lemma spec_quiet_val {R X Y} d (m : A (R := R) X) (k : X -> A Y) (Q : outcome Y -> adb -> Prop) :
  quiet m -> (forall x s s', m s = (Ok x, s') -> spec d (k x) Q) -> (forall e, Q (Raise e) d) -> spec d (bind m k) Q.
Proof.
  intros Hm Hk Hr s Hs. unfold bind. specialize (Hm s). destruct (m s) as [[x|e] s1] eqn:E; simpl in Hm.
  - eapply Hk; [exact E|congruence].
  - simpl. rewrite Hm, Hs. apply Hr.
Qed.

Lemma spec_commit_bind {R Y} d d' (k : unit -> A (R := R) Y) Q : spec d' (k tt) Q -> spec d (bind (commit d') k) Q.
Proof. intros H. apply spec_bind. by apply spec_commit. Qed.

Lemma spec_lift_bind {R X Y} d (o : outcome X) (k : X -> A (R := R) Y) (Q : outcome Y -> adb -> Prop) :
  (forall x, o = Ok x -> spec d (k x) Q) -> (forall e, Q (Raise e) d) -> spec d (bind (lift o) k) Q.
Proof. intros Hk Hr. apply spec_bind, spec_lift. destruct o; auto. Qed.

(** What holds of the tables at every commit. *)
Lemma spec_inv_bind {R X Y} d (m : A (R := R) X) (k : X -> A Y) (P : adb -> Prop) :
  spec d m (fun _ d' => P d') -> (forall x d1, P d1 -> spec d1 (k x) (fun _ d' => P d')) ->
  spec d (bind m k) (fun _ d' => P d').
Proof. intros Hm Hk. apply spec_bind. eapply spec_weaken; [exact Hm|]. intros [x|e] d1 H1; auto. Qed.

(** One step of a handler, where the goal is about the tables alone. *)
Ltac walk1 :=
  first
  [ apply spec_get
  | apply spec_unless; [intros ?|intros _; assumption]
  | apply spec_lift_bind; [intros ? ?|intros ?; assumption]
  | apply spec_commit_bind
  | apply spec_quiet_bind; [solve [eauto 8 with quiet]|intros ?|intros ?; assumption]
  | apply spec_ret; assumption
  | apply spec_raise; assumption
  | apply spec_quiet; [solve [eauto 8 with quiet]|intros ?; assumption]
  | match goal with |- spec _ (match ?x with _ => _ end) _ => destruct x eqn:? end
  | progress cbv beta zeta ].
Ltac walk := repeat walk1.

(** What the first steps of a new account keep: they write edges and one
    membership. *)
Lemma spec_newcomer {R X} `{RR : Redis R} (P : adb -> Prop) (Q : outcome X -> adb -> Prop) e inviter uin d
    (k : unit -> A (R := R) X) :
  (forall d f, P d -> P (on_acore (set_group_members f) d)) -> (forall d f, P d -> P (on_contacts f d)) -> P d ->
  (forall d1, P d1 -> spec d1 (k tt) Q) -> (forall x d1, P d1 -> Q (Raise x) d1) ->
  spec d (bind (meet_founder e uin) (fun _ => bind (meet_inviter inviter uin) (fun _ => bind (join_beta e uin) k))) Q.
Proof.
  intros Hm Hc H Hk Hr. assert (He : forall a b d, P d -> P (add_edges a b d).2).
  { intros a b d1 H1. unfold add_edges. repeat case_match; simpl; auto. }
  assert (Hstep : forall Y Z (m : A (R := R) Y) (l : Y -> A Z) (Q' : outcome Z -> adb -> Prop) d1, spec d1 m (fun _ d' => P d') ->
    (forall y d2, P d2 -> spec d2 (l y) Q') -> (forall x d2, P d2 -> Q' (Raise x) d2) -> spec d1 (bind m l) Q').
  { intros Y Z m l Q' d1 H1 H2 H3. apply spec_bind. eapply spec_weaken; [exact H1|]. intros [y|x] d2 ?; auto. }
  apply Hstep; [|intros _ d1 H1|done].
  { unfold meet_founder. apply spec_get. destruct (_ && _); [|by apply spec_ret]. apply spec_commit. auto. }
  apply Hstep; [|intros _ d2 H2|done].
  { unfold meet_inviter. destruct inviter as [i|]; [|by apply spec_ret]. destruct (i =? 0); [by apply spec_ret|].
    apply spec_get. assert (Hx : P (connect_inviter i uin d1).2) by (unfold connect_inviter; repeat case_match; simpl; auto).
    destruct (connect_inviter i uin d1) as [[] d']; [by apply spec_commit|by apply spec_ret]. }
  apply Hstep; [|intros [] d3 H3; auto|done].
  unfold join_beta. cbv zeta. destruct (_ =? 0); [by apply spec_ret|]. apply spec_get.
  destruct (groups _ !! _) as [g|]; [|by apply spec_ret]. destruct (has_member _ _ _); [by apply spec_raise|].
  apply spec_commit_bind, spec_quiet; [apply quiet_send|]. auto.
Qed.

(** *** Which row a key resolves to *)

Lemma by_claim_elem d p u : u ∈ by_claim d p <-> p u = true /\ exists_row d u.
Proof.
  unfold by_claim. rewrite !elem_of_sort_by, list_elem_of_filter. unfold exists_row.
  rewrite list_elem_of_fmap. split.
  - intros (Hp & [v x] & -> & Hin%elem_of_map_to_list). split; [done|by eexists].
  - intros (Hp & x & Hx). split; [done|]. exists (u, x). split; [done|]. by apply elem_of_map_to_list.
Qed.

Lemma by_claim_head d p u : head (by_claim d p) = Some u -> p u = true /\ exists_row d u.
Proof. intros H. apply by_claim_elem. destruct (by_claim d p) as [|x l]; [done|]. simpl in H. simplify_eq. by left. Qed.

(** The first of the order has the least claim, and the least number among
    those. *)
Lemma by_claim_least d p u : head (by_claim d p) = Some u <->
  p u = true /\ exists_row d u /\
  forall v, p v = true -> exists_row d v -> first_claim d u < first_claim d v \/ (first_claim d u = first_claim d v /\ u <= v).
Proof.
  assert (Hfirst : forall u, head (by_claim d p) = Some u ->
    forall v, p v = true -> exists_row d v -> first_claim d u < first_claim d v \/ (first_claim d u = first_claim d v /\ u <= v)).
  { clear u. intros u Hu v Hv Hx. assert (Hin : v ∈ by_claim d p) by by apply by_claim_elem. revert Hu Hin. unfold by_claim.
    set (l := filter _ _). intros Hu Hin. pose proof (sort_by_sorted (first_claim d) (sort_by id l)) as Hs.
    pose proof (sort_by_sorted id l) as Hs0.
    destruct (sort_by (first_claim d) (sort_by id l)) as [|x t] eqn:E; [done|]. simpl in Hu. injection Hu as ->.
    apply StronglySorted_inv in Hs as [_ Hall]. rewrite Forall_forall in Hall. unfold key_le in Hall.
    apply elem_of_cons in Hin as [->|Hin]; [right; lia|]. specialize (Hall v Hin).
    destruct (decide (first_claim d u = first_claim d v)) as [Heq|]; [|left; lia]. right. split; [done|].
    assert (Hstable : filter (fun w => first_claim d w = first_claim d u) (u :: t) =
                      filter (fun w => first_claim d w = first_claim d u) (sort_by id l)).
    { rewrite <-E. rewrite filter_sort_by. apply sort_by_id. clear.
      generalize (sort_by id l). intros m. induction m as [|a m IH]; [constructor|]. rewrite filter_cons. case_decide as Ha; [|done].
      constructor; [done|]. apply Forall_forall. intros b [Hb _]%list_elem_of_filter. unfold key_le. lia. }
    rewrite filter_cons, decide_True in Hstable by done.
    assert (Hv' : v ∈ filter (fun w => first_claim d w = first_claim d u) t) by (apply list_elem_of_filter; done).
    assert (Hs1 : StronglySorted (key_le id) (filter (fun w => first_claim d w = first_claim d u) (sort_by id l))).
    { clear -Hs0. induction Hs0 as [|a m Hm IH Hall]; [constructor|]. rewrite filter_cons. case_decide; [|done]. constructor; [done|].
      rewrite Forall_forall in Hall. apply Forall_forall. intros b [_ Hb]%list_elem_of_filter. auto. }
    rewrite <-Hstable in Hs1. apply StronglySorted_inv in Hs1 as [_ Hall1]. rewrite Forall_forall in Hall1. exact (Hall1 v Hv'). }
  split.
  - intros H. destruct (by_claim_head _ _ _ H). auto.
  - intros (Hp & Hx & Hmin). assert (Hin : u ∈ by_claim d p) by by apply by_claim_elem.
    destruct (by_claim d p) as [|w t] eqn:E; [by apply elem_of_nil in Hin|]. simpl.
    assert (Hw : head (by_claim d p) = Some w) by by rewrite E. destruct (by_claim_head _ _ _ Hw) as [Hpw Hxw].
    specialize (Hfirst w eq_refl u Hp Hx). specialize (Hmin w Hpw Hxw). f_equal. lia.
Qed.

(** ** Every handler *)

Section handlers.
Context {R : Type} `{RR : Redis R} `{JT : JWT string}.
Context (num : Z -> string) (hmac_hex : string -> string -> string) (secret : string).
Context (bucket : string -> string) (sha256 : bytes -> bytes) (ed25519_verify : bytes -> bytes -> bytes -> bool).
Context (loads : bytes -> option json) (public_key : option string).

Notation register := (register (R := R) bucket sha256 ed25519_verify loads public_key).
Notation recover := (recover (R := R) bucket sha256 ed25519_verify).
Notation refresh := (refresh (R := R) num hmac_hex secret bucket sha256 ed25519_verify).
Notation claim_device := (claim_device (R := R) bucket).
Notation reissue := (reissue (R := R) sha256 ed25519_verify).
Notation guest_join := (guest_join (R := R) num hmac_hex secret bucket sha256 ed25519_verify).
Notation guest_settle := (guest_settle (R := R) sha256 ed25519_verify loads public_key).
Notation add_guest := (add_guest (R := R) num hmac_hex secret sha256).
Notation door := (door sha256 ed25519_verify loads public_key).

Lemma redeem_entry_keeps e code d d' :
  redeem_entry ed25519_verify loads public_key e code d = Ok (Some d') ->
  rooms d' = rooms d /\ accounts d' = accounts d /\ retired_keys d' = retired_keys d.
Proof.
  unfold redeem_entry. destruct (String.eqb code ""); [done|]. destruct (verify_entry _ _ _ _ _ _ _); [| |done].
  - case_bool_decide; [done|]. by intros [= <-].
  - by destruct (_ || _).
Qed.

Lemma door_keeps e p i d t :
  door e p i d = Ok t ->
  rooms (t_db t) = rooms d /\ accounts (t_db t) = accounts d /\ retired_keys (t_db t) = retired_keys d.
Proof.
  unfold door. set (code := strip _). set (h := if String.eqb code "" then _ else _).
  destruct (redeem_entry _ _ _ _ _ _) as [[d'|]|] eqn:E; simpl; [|..|done].
  - intros [= <-]. by apply redeem_entry_keeps in E.
  - destruct (gated p).
    + destruct (String.eqb code ""); [done|]. destruct (existsb _ _); [|done]. by intros [= <-].
    + destruct (String.eqb code ""); [by intros [= <-]|]. destruct (existsb _ _); by intros [= <-].
Qed.

Section relation.
Variables (auth rekey : Z -> Prop) (d0 : adb).
Let Rel now (X : Type) (o : outcome X) (d' : adb) : Prop := grows auth rekey now d0 d'.

Lemma spec_claim_seat_on_proof e uin d :
  auth uin -> grows auth rekey (ae_now e) d0 d -> spec (R := R) d (claim_seat_on_proof e uin) (Rel (ae_now e) bool).
Proof.
  intros Ha H. unfold claim_seat_on_proof, Rel. apply spec_get.
  pose proof (grows_retire auth rekey (ae_now e) uin false d Ha) as Hr.
  apply spec_inv_bind.
  { destruct (retire_bearers_before_proof uin false d) as [[ep|] d']; [|by apply spec_ret].
    apply spec_commit_bind, spec_quiet; [apply quiet_bearers|]. intros _. by eapply grows_trans. }
  clear Hr H. intros [] d1 H. walk.
  match goal with H : claim_seat ?t ?u ?k ?d = _ |- _ =>
    pose proof (grows_claim_seat auth rekey (ae_now e) t u k d Ha) as Hc; rewrite H in Hc; simpl in Hc end.
  assert (H2 : grows auth rekey (ae_now e) d0 a) by by eapply grows_trans.
  apply spec_inv_bind; [destruct b; walk|]. intros [] d2 H3. walk.
Qed.

Lemma spec_commit_or e d d' undo (P : adb -> Prop) :
  quiet undo -> P d' -> P d -> spec (R := R) d (commit_or e d' undo) (fun _ d1 => P d1).
Proof.
  intros Hu H1 H2. unfold commit_or. destruct (ae_commit e); [by apply spec_commit|].
  apply spec_quiet_bind; [done| |done]. intros _. by apply spec_raise.
Qed.

Lemma spec_recover_proof e sk challenge signature d (P : adb -> Prop) X (k : unit -> A (R := R) X) :
  P d ->
  (verify_recover_challenge (ae_now e) challenge sk = true -> signature_ok ed25519_verify sk signature challenge = true ->
   spec d (k tt) (fun _ d' => P d')) ->
  spec d (bind (recover_proof ed25519_verify e sk challenge signature) k) (fun _ d' => P d').
Proof.
  intros Hd Hk. unfold recover_proof. apply spec_bind. apply spec_unless; [intros Hv|by intros _].
  destruct (signature_ok _ _ _ _) eqn:Hs; [apply spec_ret; auto|by apply spec_raise].
Qed.

Lemma spec_recover e key challenge signature dev :
  (forall u, carries d0 [strip key] u = true -> verify_recover_challenge (ae_now e) challenge (strip key) = true ->
     signature_ok ed25519_verify (strip key) signature challenge = true -> auth u) ->
  spec (R := R) d0 (recover e key challenge signature dev) (Rel (ae_now e) SessionFor).
Proof.
  intros Ha. unfold Rel, Accounts.recover. assert (H0 : grows auth rekey (ae_now e) d0 d0) by apply grows_refl.
  apply spec_recover_proof; [done|]. intros Hv Hs. apply spec_get.
  destruct (uin_for_signing_key d0 (strip key)) as [u|] eqn:Hu; [|by apply spec_raise].
  apply by_claim_head in Hu as [Hu _]. assert (auth u) by eauto.
  apply spec_quiet_bind; [apply quiet_refuse| |done]. intros _.
  apply spec_inv_bind; [by apply spec_claim_seat_on_proof|]. intros g d1 H1. walk.
Qed.

Lemma refresh_target_carries d uin sk u m :
  refresh_target sha256 d uin sk = Ok (u, m) -> carries d [sk] u = true.
Proof.
  unfold refresh_target. destruct (carries d [sk] uin && _) eqn:E.
  - intros [= <- <-]. by apply andb_prop in E as [? _].
  - destruct (users (acore d) !! uin); [done|]. destruct (by_claim d (carries d [sk])) as [|v [|w l]] eqn:El; [done| |done].
    intros [= <- <-]. assert (Hin : v ∈ by_claim d (carries d [sk])) by (rewrite El; by left). by apply by_claim_elem in Hin as [? _].
Qed.

Lemma spec_refresh e uin key challenge signature dev :
  (forall u, carries d0 [strip key] u = true -> verify_recover_challenge (ae_now e) challenge (strip key) = true ->
     signature_ok ed25519_verify (strip key) signature challenge = true -> auth u) ->
  spec (R := R) d0 (refresh e uin key challenge signature dev) (Rel (ae_now e) SessionFor).
Proof.
  intros Ha. unfold Rel, Accounts.refresh. assert (H0 : grows auth rekey (ae_now e) d0 d0) by apply grows_refl.
  apply spec_recover_proof; [done|]. intros Hv Hs. apply spec_get.
  apply spec_lift_bind; [|done]. intros [owned moved] Ht. apply refresh_target_carries in Ht. assert (auth owned) by eauto.
  do 2 (apply spec_quiet_bind; [solve [eauto with quiet]|intros _|done]).
  apply spec_inv_bind.
  { destruct (seed_install _ _ _ _) as [c|] eqn:Ec; [|by apply spec_ret]. apply spec_commit.
    unfold seed_install in Ec. destruct (truthy dev) as [n|]; [|done].
    destruct (queue_cursors _ !! _); [done|]. destruct (account_watermark _ _). injection Ec as <-.
    apply grows_rows; [|done]. intros u. reflexivity. }
  intros [] d1 H1. apply spec_inv_bind; [by apply spec_claim_seat_on_proof|]. intros g d2 H2. walk.
Qed.

Lemma spec_convert e uin ik t dev d :
  auth uin -> grows auth rekey (ae_now e) d0 (t_db t) -> grows auth rekey (ae_now e) d0 d ->
  spec (R := R) d (convert_guest_on_register bucket e uin ik t dev) (Rel (ae_now e) SessionFor).
Proof.
  intros Ha Ht Hd. unfold convert_guest_on_register, Rel. destruct (t_reserved t); [by apply spec_raise|].
  apply spec_quiet_bind; [apply quiet_refuse| |done]. intros _. cbv zeta.
  set (d1 := clear_guest_columns uin (t_db t)).
  assert (H1 : grows auth rekey (ae_now e) d0 d1) by (eapply grows_trans; [exact Ht|by apply grows_clear]).
  set (d2 := set_key_columns uin (with_identity_key ik) d1).
  assert (H2 : grows auth rekey (ae_now e) d0 d2) by (eapply grows_trans; [exact H1|by apply grows_set_keys]).
  set (d3 := match t_resident t with Some _ => _ | None => d2 end).
  assert (H3 : grows auth rekey (ae_now e) d0 d3).
  { unfold d3. destruct (t_resident t) as [at_|]; [|done]. eapply grows_trans; [exact H2|].
    eapply grows_trans; [|by apply grows_badge]. by apply grows_set_account. }
  set (d4 := set_user uin (with_last_seen (ae_now e)) d3).
  assert (H4 : grows auth rekey (ae_now e) d0 d4) by (eapply grows_trans; [exact H3|by apply grows_set_user]).
  pose proof (grows_retire auth rekey (ae_now e) uin true d4 Ha) as H5.
  destruct (retire_bearers_before_proof uin true d4) as [ep d5]. simpl in H5.
  assert (H6 : grows auth rekey (ae_now e) d0 d5) by by eapply grows_trans. walk.
Qed.

Lemma carries_rows d d' ks u : rooms d' = rooms d -> carries d' ks u = carries d ks u.
Proof. intros E. unfold carries, signing_key_of, akeys. by rewrite E. Qed.

Lemma spec_register e b :
  (forall u raw, prove_key ed25519_verify e (r_challenge b) (r_signature b) (strip (r_signing_key b)) "register" = Ok true ->
     decode_key32 (strip (r_signing_key b)) = Some raw -> carries d0 (key_spellings raw) u = true -> auth u) ->
  spec d0 (register e b) (Rel (ae_now e) SessionFor).
Proof.
  intros Ha. unfold Rel, Accounts.register. assert (H0 : grows auth rekey (ae_now e) d0 d0) by apply grows_refl.
  apply spec_lift_bind; [|done]. intros ik _. apply spec_lift_bind; [|done]. intros sk Hsk.
  apply spec_lift_bind; [|done]. intros proven Hp.
  assert (sk = strip (r_signing_key b)) as ->.
  { unfold pubkey32 in Hsk. destruct (b64decode_strict _); [|done]. case_bool_decide; [|done]. by injection Hsk as <-. }
  destruct (ae_policy e) as [policy|]; [|by apply spec_raise]. cbv zeta. apply spec_get.
  apply spec_unless; [intros _|done]. apply spec_lift_bind; [|done]. intros t Ht.
  destruct (door_keeps _ _ _ _ _ Ht) as (E1 & E2 & E3).
  assert (Hd : grows auth rekey (ae_now e) d0 (t_db t)) by by apply grows_spent.
  match goal with |- spec _ (match ?x with _ => _ end) _ => destruct x as [g|] eqn:Hg end.
  - destruct proven; [|done]. destruct (decode_key32 _) as [raw|] eqn:Hraw; [|done].
    apply by_claim_head in Hg as [[Hc _]%andb_prop _]. rewrite (carries_rows d0) in Hc by done.
    apply spec_convert; [by eapply Ha|done|done].
  - apply spec_lift_bind; [|done]. intros uin _. apply spec_lift_bind; [|done]. intros d1 Hi.
    apply spec_commit_bind, (spec_newcomer (fun d' => grows auth rekey (ae_now e) d0 d')).
    + intros d2 f H2. eapply grows_trans; [exact H2|]. by apply grows_tables.
    + intros d2 f H2. eapply grows_trans; [exact H2|]. apply grows_contacts.
    + eapply grows_trans; [exact Hd|]. by eapply grows_insert.
    + intros d2 H2. walk.
    + done.
Qed.

Lemma spec_claim_device e uin dev old : spec d0 (claim_device e uin dev old) (Rel (ae_now e) string).
Proof.
  unfold Rel, Accounts.claim_device. assert (H0 : grows auth rekey (ae_now e) d0 d0) by apply grows_refl.
  apply spec_quiet_bind; [apply quiet_refuse|intros _|done]. apply spec_quiet_bind; [apply quiet_on_redis|intros l|done].
  apply spec_unless; [intros _|done]. apply spec_get. apply spec_inv_bind.
  - destruct (queue_cursors _ !! (uin, dev)); [by apply spec_ret|]. cbv zeta.
    destruct (match queue_cursors _ !! (uin, old) with Some _ => _ | None => _ end) as [fd fg]. apply spec_commit.
    apply grows_rows; [|done]. intros u. by destruct (queue_cursors _ !! (uin, old)).
  - intros [] d1 H1. walk.
Qed.

Lemma quiet_mark e uin (undo : A (R := R) unit) :
  quiet undo ->
  quiet (fun s => match mark_guest (ae_up_mark e) (ae_now e) uin (redis (lim s)) with
                  | (Ok _, r) => (Ok tt, mkAst (tables s) (mkLimiter r (local_hits (lim s))) (frames s))
                  | (Raise _, _) => bind undo (fun _ => raise guest_unavailable_error) s
                  end).
Proof.
  intros Hu s. destruct (mark_guest _ _ _ _) as [[]r]; [done|]. apply (quiet_bind undo); [done|]. by intros ?.
Qed.

Lemma spec_existing e uin ik ik_raw dev guard d :
  auth uin -> grows auth rekey (ae_now e) d0 d ->
  spec (R := R) d (guest_existing_row bucket e uin ik ik_raw dev guard) (Rel (ae_now e) SessionFor).
Proof.
  intros Ha H. unfold Rel, guest_existing_row. apply spec_quiet_bind; [apply quiet_refuse|intros _|done]. apply spec_get.
  apply spec_inv_bind.
  { pose proof (grows_retire auth rekey (ae_now e) uin false d Ha) as Hr.
    destruct (retire_bearers_before_proof uin false d) as [[ep|] d']; [|by apply spec_ret].
    apply spec_inv_bind.
    - apply spec_commit_or; [apply quiet_release_key| |done]. by eapply grows_trans.
    - intros [] d1 H1. walk. }
  intros [] d1 H1. cbv zeta. destruct (match users (acore d) !! uin with Some _ => _ | None => _ end) as [st|]; [|walk].
  apply spec_quiet_bind; [|intros _|done].
  { destruct (String.eqb st STATUS_ADDED); [apply quiet_mark, quiet_release_key|apply quiet_ret]. }
  apply spec_get.
  assert (Hc : grows auth rekey (ae_now e) d0
                 (if String.eqb st STATUS_ADDED then claim_seat (ae_now e) uin (Some ik) d1 else (false, d1)).2).
  { destruct (String.eqb st STATUS_ADDED); [|done]. eapply grows_trans; [exact H1|by apply grows_claim_seat]. }
  destruct (if String.eqb st STATUS_ADDED then claim_seat (ae_now e) uin (Some ik) d1 else (false, d1)) as [claimed d2].
  simpl in Hc. set (repair := negb claimed && _ && _). set (d3 := if repair then _ else d2).
  assert (H3 : grows auth rekey (ae_now e) d0 d3).
  { unfold d3. destruct repair; [|done]. eapply grows_trans; [exact Hc|by apply grows_set_keys]. }
  apply spec_inv_bind.
  - destruct (claimed || repair); [|by apply spec_ret]. apply spec_inv_bind.
    + apply spec_commit_or; [apply quiet_release_key|done|done].
    + intros [] d4 H4. walk.
  - intros [] d4 H4. walk.
Qed.

Lemma spec_mint_guest e gid g nick ik sk st seen undo d :
  quiet undo -> grows auth rekey (ae_now e) d0 d ->
  spec (R := R) d (mint_guest e gid g nick ik sk st seen undo) (Rel (ae_now e) Z).
Proof.
  intros Hu H. unfold Rel, mint_guest. apply spec_get. do 3 (apply spec_lift_bind; [|done]; intros ? ?). cbv zeta.
  apply spec_quiet_bind; [by apply quiet_mark|intros _|done]. apply spec_inv_bind.
  - apply spec_commit_or; [eauto with quiet| |done]. eapply grows_trans; [exact H|].
    eapply grows_trans; [by eapply grows_insert|]. apply grows_rows; [|done]. intros u.
    unfold row, akeys, acore, rcore, on_acore, on_core. simpl.
    match goal with H : enter_room _ _ _ _ _ _ = Ok _ |- _ => by rewrite (enter_room_users _ _ _ _ _ _ _ H) end.
  - intros [] d1 Hd1. walk.
Qed.

Lemma quiet_room_checks e gid k d : quiet (guest_room_checks (R := R) num hmac_hex secret e gid k d).
Proof.
  unfold guest_room_checks. destruct (groups _ !! _) as [g|]; [|apply quiet_raise].
  do 2 (apply quiet_bind; [apply quiet_unless|intros _]). apply quiet_bind; [|eauto with quiet].
  destruct (_ && _); [|apply quiet_ret]. destruct (room_link_refusal _ _ _); eauto with quiet.
Qed.

Lemma quiet_proof_checks e b : quiet (guest_proof_checks (R := R) sha256 ed25519_verify e b).
Proof.
  unfold guest_proof_checks. apply quiet_bind; [apply quiet_unless|intros _].
  do 2 (apply quiet_bind; [apply quiet_lift|intros ?]).
  do 3 (match goal with |- quiet (match ?x with _ => _ end) => destruct x; [|apply quiet_raise] end).
  apply quiet_bind; [apply quiet_unless|intros _]. cbv zeta. destruct (island_hosts _ _ _) as [allowed hd].
  apply quiet_bind; [destruct hd; eauto with quiet|intros _].
  do 2 (apply quiet_bind; [apply quiet_unless|intros _]). apply quiet_bind; [apply quiet_claim_challenge|intros ?]. apply quiet_ret.
Qed.

(** What a guest proof has shown when it is accepted. *)
Definition guest_shown (e : aenv) (b : GuestIn) (ik_raw sk_raw : bytes) : Prop :=
  decode_key32 (strip (g_signing_key b)) = Some sk_raw /\ decode_key32 (strip (g_identity_key b)) = Some ik_raw /\
  exists host sig msg, host ∈ (island_hosts (ae_island_host e) (ae_host_header e) (ae_fronts e)).1 /\
    host = canonical_host (g_host b) /\ decode_signature (g_signature b) = Some sig /\
    guest_proof_bytes host (g_group_id b) ik_raw sk_raw (g_challenge b) = Ok msg /\ ed25519_verify sk_raw sig msg = true /\
    verify_key_challenge (ae_now e) (g_challenge b) (strip (g_signing_key b)) "guest" = true.

Lemma pubkey32_strip v f k : pubkey32 v f = Ok k -> k = strip v.
Proof. unfold pubkey32. destruct (b64decode_strict _); [|done]. case_bool_decide; [|done]. by intros [= <-]. Qed.

Lemma proof_checks_shown e b s ik sk ik_raw sk_raw guard s' :
  guest_proof_checks (R := R) sha256 ed25519_verify e b s = (Ok (ik, sk, ik_raw, sk_raw, guard), s') ->
  sk = strip (g_signing_key b) /\ guest_shown e b ik_raw sk_raw.
Proof.
  unfold guest_proof_checks, bind, unless, lift, ret, raise. destruct (g_v b =? GUEST_VERSION); [|done].
  destruct (pubkey32 (g_identity_key b) _) as [ik1|] eqn:Ei; [|done]. destruct (pubkey32 (g_signing_key b) _) as [sk1|] eqn:Es; [|done].
  apply pubkey32_strip in Ei as ->. apply pubkey32_strip in Es as ->.
  destruct (decode_key32 (strip (g_identity_key b))) as [ik2|] eqn:Di; [|done].
  destruct (decode_key32 (strip (g_signing_key b))) as [sk2|] eqn:Ds; [|done].
  destruct (decode_signature _) as [sig|] eqn:Dg; [|done]. destruct (verify_key_challenge _ _ _ _) eqn:Hv; [|done].
  cbv zeta. destruct (island_hosts _ _ _) as [allowed hd] eqn:Eh.
  assert (Hq : exists s1, (if hd then stat e "guest_host_from_header" else fun s => (Ok tt, s)) s = (Ok tt, s1))
    by (destruct hd; eexists; done). destruct Hq as [s1 ->].
  destruct (negb _ && bool_decide _) eqn:Hh; [|done]. apply andb_prop in Hh as [_ Hh%bool_decide_eq_true].
  destruct (guest_proof_bytes _ _ _ _ _) as [msg|] eqn:Hm; [|done].
  destruct (ed25519_verify sk2 sig msg) eqn:Hed; [|done]. destruct (claim_challenge _ _ _ _) as [[guard'|] s2]; [|done].
  intros [= <- <- <- <- <- <-]. split; [done|]. unfold guest_shown. split_and!; [done|done|].
  exists (canonical_host (g_host b)), sig, msg. rewrite Eh. split_and!; done.
Qed.

Lemma spec_guest_join e b :
  (forall u ik_raw sk_raw, guest_shown e b ik_raw sk_raw -> carries d0 (key_spellings sk_raw) u = true -> auth u) ->
  spec d0 (guest_join e b) (Rel (ae_now e) SessionFor).
Proof.
  intros Ha. unfold Rel, Accounts.guest_join. assert (H0 : grows auth rekey (ae_now e) d0 d0) by apply grows_refl.
  apply spec_quiet_val; [apply quiet_proof_checks| |done]. intros [[[[ik sk] ik_raw] sk_raw] guard] s s' [-> Hshown]%proof_checks_shown.
  assert (Hau : forall u, row_for_key d0 sk_raw false = Some u -> auth u).
  { intros u [[Hu _]%andb_prop _]%by_claim_head. by eapply Ha. }
  apply spec_get. destruct (row_for_key d0 sk_raw false) as [u|] eqn:Hr; [apply spec_existing; auto|].
  apply spec_quiet_bind; [destruct (rotated_account _ _ _); eauto with quiet|intros _|done].
  apply spec_unless; [intros _|done]. apply spec_quiet_bind; [apply quiet_room_checks|intros g|done].
  apply spec_quiet_bind; [apply quiet_acquire|intros lock|done]. apply spec_inv_bind.
  - apply spec_with_lock, spec_get. rewrite Hr. apply spec_inv_bind; [apply spec_mint_guest; [apply quiet_release_key|done]|].
    intros uin d1 H1. walk.
  - intros [out|uin] d1 H1; [by apply spec_ret|]. walk.
Qed.

Lemma settle_price_grows e code uin d d' :
  auth uin -> settle_price sha256 ed25519_verify loads public_key e code uin d = Ok d' -> grows auth rekey (ae_now e) d d'.
Proof.
  intros Ha. unfold settle_price. destruct (String.eqb code "").
  { destruct (ae_policy e) as [p|]; [|done]. destruct (String.eqb p "open"); [|done]. intros [= <-]. apply grows_refl. }
  destruct (redeem_entry _ _ _ _ _ _) as [[d1|]|] eqn:E; simpl; [|..|done].
  - intros [= <-]. apply redeem_entry_keeps in E as (E1 & E2 & E3). eapply grows_trans; [by apply grows_spent|].
    eapply grows_trans; [|by apply grows_badge]. by apply grows_set_account.
  - destruct (invite_number _ _); [done|]. destruct (existsb _ _); [|done]. intros [= <-]. by apply grows_spent.
Qed.

Lemma spec_settle e code uin : auth uin -> spec d0 (guest_settle e code uin) (Rel (ae_now e) GuestSettleOut).
Proof.
  intros Ha. unfold Rel, Accounts.guest_settle. assert (H0 : grows auth rekey (ae_now e) d0 d0) by apply grows_refl.
  apply spec_get. destruct (users (acore d0) !! uin) as [u|]; [|by apply spec_raise].
  apply spec_unless; [intros _|done]. apply spec_lift_bind; [|done]. intros d1 H1%settle_price_grows; [|done]. cbv zeta.
  assert (H2 : grows auth rekey (ae_now e) d0 (clear_guest_columns uin d1))
    by (eapply grows_trans; [exact H1|by apply grows_clear]). walk.
Qed.

Lemma spec_add_existing e gid g me uin target sp d :
  grows auth rekey (ae_now e) d0 d ->
  spec (R := R) d (add_existing num hmac_hex secret e gid g me uin target sp) (Rel (ae_now e) unit).
Proof.
  intros H. unfold Rel, add_existing. apply spec_get. destruct (users _ !! _) as [u|]; [|by apply spec_raise]. cbv zeta.
  apply spec_quiet_bind; [apply quiet_in_rooms|intros _|done]. destruct (has_member _ _ _); [by apply spec_ret|].
  apply spec_lift_bind; [|done]. intros c Hc%enter_room_users. apply spec_commit. eapply grows_trans; [exact H|].
  apply grows_rows; [|done]. intros v. unfold row, akeys, acore, rcore, on_acore, on_core. simpl. by rewrite Hc.
Qed.

Lemma spec_add_guest e gid nick ik sk uin : spec d0 (add_guest e gid nick ik sk uin) (Rel (ae_now e) GuestAddOut).
Proof.
  unfold Rel, Accounts.add_guest. assert (H0 : grows auth rekey (ae_now e) d0 d0) by apply grows_refl.
  apply spec_get. apply spec_quiet_bind; [apply quiet_in_rooms|intros guest|done].
  apply spec_quiet_bind; [destruct guest; eauto with quiet|intros _|done].
  do 2 (apply spec_lift_bind; [|done]; intros ? ?). cbv zeta. apply spec_unless; [intros _|done].
  destruct (decode_key32 _) as [sk_raw|]; [|by apply spec_raise].
  do 2 (apply spec_lift_bind; [|done]; intros ? ?). do 2 (apply spec_unless; [intros _|done]).
  apply spec_quiet_bind; [apply quiet_in_rooms|intros _|done]. apply spec_inv_bind.
  - destruct (row_for_key d0 sk_raw false) as [u|] eqn:Hr.
    + apply spec_inv_bind; [by apply spec_add_existing|]. intros [] d1 Hd1. walk.
    + apply spec_unless; [intros _|done].
      do 4 (apply spec_quiet_bind; [first [apply quiet_in_rooms|apply quiet_acquire]|intros ?|done]).
      apply spec_with_lock, spec_get. rewrite Hr. apply spec_inv_bind; [by apply spec_mint_guest; [apply quiet_ret|]|].
      intros u d1 Hd1. walk.
  - intros [target created] d1 Hd1. walk.
Qed.

(** *** A change of keys *)

(** What [reissue] may have written: nothing, or the caller's new key, which no
    other row carries unless the caller proved a key that such a row retired. *)
Definition rekeyed (uin : Z) (d d' : adb) : Prop :=
  d' = d \/
  (exists sk new_sk, exists_row d' uin /\ signing_key_of d' uin = Some sk /\ decode_key32 sk = Some new_sk /\
     (signing_key_taken_by d new_sk uin = [] \/
      exists h m, retired_keys d !! h = Some m /\ rs_uin m ∈ signing_key_taken_by d new_sk uin) /\
     (forall h m, retired_keys d' !! h = Some m -> retired_keys d !! h = Some m \/ rs_uin m = uin)).

Lemma retire_facts now raw uin signed d :
  (forall u, row (retire_signing_key sha256 now raw uin signed d) u = row d u) /\
  (forall h m, retired_keys (retire_signing_key sha256 now raw uin signed d) !! h = Some m ->
     retired_keys d !! h = Some m \/ rs_uin m = uin).
Proof.
  unfold retire_signing_key. destruct (retired_keys d !! hash_key sha256 raw) as [r|] eqn:E.
  - destruct (_ || _); [|by auto]. split; [done|]. simpl. intros h m. rewrite lookup_insert. case_decide; [|by auto].
    intros [= <-]. by right.
  - split; [done|]. simpl. intros h m. rewrite lookup_insert. case_decide; [|by auto]. intros [= <-]. by right.
Qed.

Lemma reissue_writes_facts now uin ik sk new_sk signed d :
  exists_row d uin -> decode_key32 sk = Some new_sk ->
  let d' := (reissue_writes sha256 now uin ik sk new_sk signed d).2 in
  (forall u, u <> uin -> row d' u = row d u) /\
  exists_row d' uin /\ first_claim d' uin = first_claim d uin /\ signing_key_of d' uin = Some sk /\
  (forall h m, retired_keys d' !! h = Some m -> retired_keys d !! h = Some m \/ rs_uin m = uin).
Proof.
  intros Hx Hsk. unfold reissue_writes. cbv zeta. set (retired_raw := key_bytes_or_none _).
  set (changed := negb _). set (f := fun k => with_signing_key sk (with_identity_key ik k)).
  set (d1 := set_key_columns uin f d).
  assert (Hk1 : forall u, u <> uin -> row d1 u = row d u).
  { intros u Hne. unfold d1. rewrite set_key_columns_row, decide_False; naive_solver. }
  assert (Hu1 : row d1 uin = (users (acore d) !! uin, Some (f (default no_keys (akeys d !! uin))), accounts d !! uin))
    by (unfold d1; by rewrite set_key_columns_row, decide_True).
  assert (Hr1 : retired_keys d1 = retired_keys d) by (unfold d1, set_key_columns; by case_bool_decide).
  assert (Hx1 : exists_row d1 uin) by (unfold exists_row in *; apply row_is in Hu1 as (-> & _ & _); done).
  set (d2 := if is_guest_row d uin && changed then set_account uin (with_unproven (Some now)) d1 else d1).
  assert (H2 : (forall u, u <> uin -> row d2 u = row d1 u) /\ users (acore d2) !! uin = users (acore d1) !! uin /\
               akeys d2 !! uin = akeys d1 !! uin /\ identity_created_at (account_of d2 uin) = identity_created_at (account_of d1 uin) /\
               retired_keys d2 = retired_keys d1).
  { unfold d2. destruct (_ && changed); [|done]. split_and!; [intros u Hne; rewrite set_account_row, decide_False; naive_solver|..].
    1-2: pose proof (set_account_row uin (with_unproven (Some now)) d1 uin) as E; rewrite decide_True in E by done; by apply row_is in E as (? & ? & ?).
    - pose proof (set_account_row uin (with_unproven (Some now)) d1 uin) as E. rewrite decide_True in E by done.
      apply row_is in E as (_ & _ & E). unfold account_of. by rewrite E.
    - unfold set_account. by case_bool_decide. }
  destruct H2 as (H2 & E2u & E2k & E2c & E2r).
  set (d3 := set_vault _ d2).
  set (d4 := match retired_raw with Some _ => _ | None => d3 end).
  assert (H4 : (forall u, row d4 u = row d2 u) /\
               (forall h m, retired_keys d4 !! h = Some m -> retired_keys d2 !! h = Some m \/ rs_uin m = uin)).
  { unfold d4. destruct retired_raw as [raw|]; [|by auto]. destruct changed; [|by auto].
    destruct (retire_facts now raw uin signed d3) as [Ha Hb]. split; [|exact Hb]. intros u. by rewrite Ha. }
  destruct H4 as [H4 H4r].
  assert (Hend : forall d5, (forall u, row d5 u = row d4 u) -> retired_keys d5 = retired_keys d4 ->
     (forall u, u <> uin -> row d5 u = row d u) /\ exists_row d5 uin /\ first_claim d5 uin = first_claim d uin /\
     signing_key_of d5 uin = Some sk /\
     (forall h m, retired_keys d5 !! h = Some m -> retired_keys d !! h = Some m \/ rs_uin m = uin)).
  { intros d5 Hrow Hret. split; [intros u Hne; rewrite Hrow, H4, H2, Hk1; done|].
    assert (Hrow5 : row d5 uin = row d2 uin) by by rewrite Hrow, H4.
    destruct (row_facts _ _ _ Hrow5) as (Hx5 & Hc5 & Hs5). rewrite Hc5, Hs5.
    apply row_is in Hu1 as (F1 & F2 & F3). split_and!.
    - apply Hx5. unfold exists_row. rewrite E2u. exact Hx1.
    - unfold first_claim. rewrite E2c, E2u. unfold account_of. by rewrite F1, F3.
    - unfold signing_key_of. by rewrite E2k, F2.
    - intros h m. rewrite Hret. intros [Hm|Hm]%H4r; [|by right]. left. by rewrite <-Hr1, <-E2r. }
  destruct signed; [|by apply Hend]. destruct (bump_uin_epoch _ _) as [ep tab]. by apply Hend.
Qed.

Lemma judge_taken e uin b new_ik new_sk taken d s k s' :
  judge_proof (R := R) sha256 ed25519_verify e uin b new_ik new_sk taken d s = (Ok k, s') ->
  taken = [] \/ exists h m, retired_keys d !! h = Some m /\ rs_uin m ∈ taken.
Proof.
  unfold judge_proof. destruct (parse_proof b) as [[[[[[v host] old_sk] ts] nonce] sig]|]; [|done].
  destruct (island_hosts _ _ _) as [allowed hd]. unfold bind, unless, ret, raise.
  destruct (v =? _); [|done].
  assert (Hq : exists s1, (if hd then stat e "reissue_host_from_header" else fun s => (Ok tt, s)) s = (Ok tt, s1))
    by (destruct hd; eexists; done). destruct Hq as [s1 ->].
  destruct (bool_decide (host ∈ allowed)); [|done]. destruct (bool_decide _); [|done].
  destruct (Z.abs _ <=? _); [|done]. destruct (ed25519_verify _ _ _); [|done].
  destruct taken as [|u l]; [by left|]. destruct (retired_keys d !! _) as [m|] eqn:Em; [|done].
  case_bool_decide; [|done]. intros _. right. eauto.
Qed.

Lemma quiet_judge e uin b new_ik new_sk taken d :
  quiet (judge_proof (R := R) sha256 ed25519_verify e uin b new_ik new_sk taken d).
Proof.
  unfold judge_proof. destruct (parse_proof b) as [[[[[[v host] old_sk] ts] nonce] sig]|]; [|apply quiet_raise].
  destruct (island_hosts _ _ _) as [allowed hd]. apply quiet_bind; [apply quiet_unless|intros _].
  apply quiet_bind; [destruct hd; eauto with quiet|intros _]. cbv zeta.
  do 5 (apply quiet_bind; [apply quiet_unless|intros _]). apply quiet_bind; [apply quiet_set_guard|intros ?].
  eauto with quiet.
Qed.

Lemma spec_reissue e b uin dev bearer :
  auth uin -> rekey uin ->
  spec d0 (reissue e b uin dev bearer) (fun _ d' => grows auth rekey (ae_now e) d0 d' /\ rekeyed uin d0 d').
Proof.
  clear num hmac_hex secret bucket loads public_key. intros Ha Hk. unfold Accounts.reissue.
  assert (H0 : grows auth rekey (ae_now e) d0 d0 /\ rekeyed uin d0 d0) by (split; [apply grows_refl|by left]).
  destruct (pubkey32 (i_identity_key b) _) as [ik|]; [|by apply spec_raise].
  destruct (pubkey32 (i_signing_key b) _) as [sk|]; [|by apply spec_raise].
  destruct (decode_key32 ik) as [new_ik|]; [|by apply spec_raise].
  destruct (decode_key32 sk) as [new_sk|] eqn:Hsk; [|by apply spec_raise].
  apply spec_get. apply spec_unless; [intros Hx%bool_decide_eq_true|done].
  destruct (ae_require_proof e) as [req|]; [|by apply spec_raise].
  destruct (bool_decide _ && bool_decide _); [destruct req; walk|]. cbv zeta.
  apply spec_quiet_val.
  { destruct (proof_offered b); [apply quiet_bind; [apply quiet_judge|eauto with quiet]|eauto with quiet]. }
  2: done.
  intros guard s s' Hg.
  assert (Htaken : signing_key_taken_by d0 new_sk uin = [] \/
            exists h m, retired_keys d0 !! h = Some m /\ rs_uin m ∈ signing_key_taken_by d0 new_sk uin).
  { destruct (proof_offered b).
    - unfold bind, ret in Hg. destruct (judge_proof _ _ _ _ _ _ _ _ _ s) as [[k|x] s1] eqn:Ej; [|done]. by eapply judge_taken.
    - unfold bind, unless, ret, raise in Hg. destruct (negb req); [|done]. case_bool_decide; [|done]. by left. }
  destruct (reissue_writes_facts (ae_now e) uin ik sk new_sk (bool_decide (is_Some guard)) d0 Hx Hsk) as (F1 & F2 & F3 & F4 & F5).
  destruct (reissue_writes sha256 (ae_now e) uin ik sk new_sk (bool_decide (is_Some guard)) d0) as [ep d1]. simpl in *.
  assert (H1 : grows auth rekey (ae_now e) d0 d1 /\ rekeyed uin d0 d1).
  { split; [|right; by exists sk, new_sk]. split.
    - intros u Hu. destruct (decide (u = uin)) as [->|Hne]; [done|]. destruct (row_facts _ _ _ (F1 u Hne)) as (? & ? & ?). tauto.
    - intros u Hu. destruct (decide (u = uin)) as [->|Hne]; auto.
    - intros u Hu. destruct (decide (u = uin)) as [->|Hne]; [by left|]. right. by apply row_facts, F1.
    - intros u Hn Hu. destruct (decide (u = uin)) as [->|Hne]; [done|]. destruct (row_facts _ _ _ (F1 u Hne)) as (? & ? & ?). tauto.
    - intros Hno. by apply Hno in Hk. }
  apply spec_inv_bind.
  - destruct (ae_commit e); [by apply spec_commit|]. apply spec_quiet_bind; [destruct guard; eauto with quiet| |done].
    intros _. by apply spec_raise.
  - intros [] d2 H2. apply spec_quiet_bind; [destruct ep; eauto with quiet|intros _|done].
    apply spec_quiet_bind; [destruct (bool_decide _); eauto with quiet|intros _|done]. walk.
Qed.
End relation.

(** ** Requests *)

Inductive areq :=
  | Register (b : RegisterIn)
  | Recover (key challenge signature : string) (dev : option string)
  | Refresh (uin : Z) (key challenge signature : string) (dev : option string)
  | Session (uin : Z) (dev : string)
  | ClaimDevice (uin : Z) (dev old : string)
  | Reissue (b : ReissueIn) (uin : Z) (dev bearer : string)
  | GuestJoin (b : GuestIn)
  | GuestSettle (code : option string) (uin : Z)
  | AddGuest (gid : Z) (nick ik sk : string) (uin : Z).

Definition serve (e : aenv) (q : areq) (s : ast R) : ast R :=
  match q with
  | Register b => (register e b s).2
  | Recover k c g dev => (recover e k c g dev s).2
  | Refresh u k c g dev => (refresh e u k c g dev s).2
  | Session u dev => (session e u dev s).2
  | ClaimDevice u dev old => (claim_device e u dev old s).2
  | Reissue b u dev bearer => (reissue e b u dev bearer s).2
  | GuestJoin b => (guest_join e b s).2
  | GuestSettle c u => (guest_settle e c u s).2
  | AddGuest gid n ik sk u => (add_guest e gid n ik sk u s).2
  end.

Definition serve_all (qs : list (aenv * areq)) (s : ast R) : ast R :=
  fold_left (fun s eq => serve eq.1 eq.2 s) qs s.

(** The account whose session the request comes with, and the accounts whose
    key it proves. *)
Definition session_of (q : areq) : option Z :=
  match q with
  | Session u _ | ClaimDevice u _ _ | Reissue _ u _ _ | GuestSettle _ u => Some u
  | _ => None
  end.

Definition proves (e : aenv) (q : areq) (d : adb) (u : Z) : Prop :=
  match q with
  | Register b =>
      exists raw, prove_key ed25519_verify e (r_challenge b) (r_signature b) (strip (r_signing_key b)) "register" = Ok true /\
        decode_key32 (strip (r_signing_key b)) = Some raw /\ carries d (key_spellings raw) u = true
  | Recover k c g _ | Refresh _ k c g _ =>
      carries d [strip k] u = true /\ verify_recover_challenge (ae_now e) c (strip k) = true /\
      signature_ok ed25519_verify (strip k) g c = true
  | GuestJoin b => exists ik_raw sk_raw, guest_shown e b ik_raw sk_raw /\ carries d (key_spellings sk_raw) u = true
  | _ => False
  end.

Definition rekeys (q : areq) (u : Z) : Prop := match q with Reissue _ w _ _ => u = w | _ => False end.

Lemma serve_grows e q s :
  grows (fun u => session_of q = Some u \/ proves e q (tables s) u) (rekeys q) (ae_now e) (tables s) (tables (serve e q s)).
Proof.
  destruct q as [b|k c g dev|u k c g dev|u dev|u dev old|b u dev bearer|b|c u|gid n ik sk u]; simpl.
  - apply (spec_register _ _ (tables s)); [|done]. intros u raw H1 H2 H3. right. by exists raw.
  - apply (spec_recover _ _ (tables s)); [|done]. intros u H1 H2 H3. by right.
  - apply (spec_refresh _ _ (tables s)); [|done]. intros v H1 H2 H3. by right.
  - unfold session. rewrite quiet_mint. apply grows_refl.
  - by apply (spec_claim_device _ _ (tables s)).
  - apply (spec_reissue (fun v => Some u = Some v \/ False) (fun v => v = u) (tables s) e b u dev bearer); auto.
  - apply (spec_guest_join _ _ (tables s)); [|done]. intros u ik_raw sk_raw H1 H2. right. eauto.
  - apply (spec_settle _ _ (tables s)); auto.
  - by apply (spec_add_guest _ _ (tables s)).
Qed.

(** C13. Nobody's account changes behind their back: when a request changes
    anything in an existing row (its keys, its standing as a guest or a
    resident, its marks, its stamps), it came with that account's own session
    or with a signature that verifies under the signing key the row carries.
    Registering, adding a guest, recovering or joining with somebody else's
    public key changes nothing of theirs. *)
Theorem row_authority e q s u :
  exists_row (tables s) u -> row (tables (serve e q s)) u <> row (tables s) u ->
  session_of q = Some u \/ proves e q (tables s) u.
Proof. intros Hu Hne. destruct (g_auth _ _ _ _ _ (serve_grows e q s) u Hu) as [?|?]; done. Qed.

(** *** Recovery *)

(** No key was retired onto an account that carries the key [raw]. *)
Definition markers_clear (raw : bytes) (d : adb) : Prop :=
  forall h m, retired_keys d !! h = Some m ->
    exists_row d (rs_uin m) /\ carries d (key_spellings raw) (rs_uin m) = false.

Lemma carries_same d d' ks u : signing_key_of d' u = signing_key_of d u -> carries d' ks u = carries d ks u.
Proof. unfold carries. by intros ->. Qed.

Lemma exists_row_dec d u : {exists_row d u} + {~ exists_row d u}.
Proof. unfold exists_row. destruct (users (acore d) !! u); [left; by eexists|right; by intros [? ?]]. Qed.

(** A caller cannot move onto a key that [u] carries. *)
Lemma rekeyed_elsewhere raw d d' u w :
  bytes_ok raw -> length raw = 32%nat -> markers_clear raw d ->
  exists_row d u -> carries d (key_spellings raw) u = true -> u <> w -> rekeyed w d d' ->
  d' = d \/ (exists_row d' w /\ carries d' (key_spellings raw) w = false /\
    forall h m, retired_keys d' !! h = Some m -> retired_keys d !! h = Some m \/ rs_uin m = w).
Proof.
  intros Hraw Hlen Hm Hu Hc Hne [->|(sk & new_sk & Hx & Hsk & Hdec & Htaken & Hret)]; [by left|]. right. split_and!; [done| |done].
  unfold carries. rewrite Hsk. apply bool_decide_eq_false. intros Hin.
  rewrite (decode_key32_spelling raw) in Hdec by done. injection Hdec as <-.
  assert (Ht : u ∈ signing_key_taken_by d raw w).
  { unfold signing_key_taken_by. apply list_elem_of_filter. split; [done|]. destruct Hu as [x Hux].
    apply list_elem_of_fmap. exists (u, x). split; [done|]. by apply elem_of_map_to_list. }
  destruct Htaken as [E|(h & m & Hh & Hmin)]; [rewrite E in Ht; by apply elem_of_nil in Ht|].
  destruct (Hm h m Hh) as [_ Hfalse]. unfold signing_key_taken_by in Hmin.
  apply list_elem_of_filter in Hmin as [[Htrue _] _]. congruence.
Qed.

Lemma recovery_step e q s u sk raw :
  sk ∈ key_spellings raw -> bytes_ok raw -> length raw = 32%nat ->
  uin_for_signing_key (tables s) sk = Some u -> markers_clear raw (tables s) ->
  first_claim (tables s) u < ae_now e -> ~ rekeys q u ->
  uin_for_signing_key (tables (serve e q s)) sk = Some u /\ markers_clear raw (tables (serve e q s)) /\
  first_claim (tables (serve e q s)) u = first_claim (tables s) u.
Proof.
  intros Hsk Hraw Hlen Hfirst Hm Hnow Hq. pose proof (serve_grows e q s) as G.
  set (d := tables s) in *. set (d' := tables (serve e q s)) in *.
  apply by_claim_least in Hfirst as (Hc & Hu & Hmin).
  assert (Hspell : forall v, carries d [sk] v = true -> carries d (key_spellings raw) v = true).
  { intros v. unfold carries. destruct (signing_key_of d v); [|done]. rewrite !bool_decide_eq_true, list_elem_of_singleton. by intros ->. }
  destruct (g_kept _ _ _ _ _ G u Hu) as [Hu' Hcl]. destruct (g_keys _ _ _ _ _ G u Hu) as [?|Hku]; [done|].
  assert (Hw : (forall v, exists_row d v -> signing_key_of d' v = signing_key_of d v) /\ retired_keys d' = retired_keys d \/
               exists w, rekeys q w /\ (forall v, v <> w -> exists_row d v -> signing_key_of d' v = signing_key_of d v) /\
                 exists_row d' w /\ carries d' (key_spellings raw) w = false /\
                 forall h m, retired_keys d' !! h = Some m -> retired_keys d !! h = Some m \/ rs_uin m = w).
  { destruct q as [| | | | |b w dev bearer| | |];
      try (left; split; [intros v Hv; by destruct (g_keys _ _ _ _ _ G v Hv)|by apply (g_retired _ _ _ _ _ G)]; fail).
    assert (Hrk : rekeyed w d d').
    { apply (spec_reissue (fun v => Some w = Some v \/ False) (fun v => v = w) d e b w dev bearer); auto. }
    destruct (rekeyed_elsewhere raw d d' u w) as [E|(Hxw & Hcw & Hret)]; auto; [left; by rewrite E|].
    right. exists w. split_and!; try done. intros v Hne Hv. by destruct (g_keys _ _ _ _ _ G v Hv). }
  assert (Hkeep : forall v, exists_row d v -> carries d' (key_spellings raw) v = true -> carries d (key_spellings raw) v = true).
  { intros v Hv Hcv. destruct Hw as [[Hk _]|(w & _ & Hk & _ & Hcw & _)]; [by rewrite <-(carries_same d d') by auto|].
    destruct (decide (v = w)) as [->|Hne]; [congruence|]. by rewrite <-(carries_same d d') by auto. }
  split_and!; [..|done].
  - apply by_claim_least. split_and!; [by rewrite (carries_same d)|done|]. intros v Hv Hxv. rewrite Hcl.
    destruct (exists_row_dec d v) as [Hxd|Hnd]; [|left; by rewrite (g_new _ _ _ _ _ G v Hnd Hxv)].
    destruct (g_kept _ _ _ _ _ G v Hxd) as [_ ->]. apply Hmin; [|done].
    destruct Hw as [[Hk _]|(w & _ & Hk & _ & Hcw & _)]; [by rewrite <-(carries_same d d') by auto|].
    destruct (decide (v = w)) as [->|Hne]; [|by rewrite <-(carries_same d d') by auto]. exfalso.
    assert (carries d' (key_spellings raw) w = true); [|congruence]. revert Hv. unfold carries.
    destruct (signing_key_of d' w); [|done]. rewrite !bool_decide_eq_true, list_elem_of_singleton. by intros ->.
  - intros h m Hh.
    assert (Hold : retired_keys d !! h = Some m -> exists_row d' (rs_uin m) /\ carries d' (key_spellings raw) (rs_uin m) = false).
    { intros Hd. destruct (Hm h m Hd) as [Hx Hf]. split; [by apply (g_kept _ _ _ _ _ G)|].
      destruct (carries d' _ _) eqn:E; [|done]. by rewrite Hkeep in Hf. }
    destruct Hw as [[_ Hr]|(w & _ & _ & Hxw & Hcw & Hret)]; [apply Hold; by rewrite <-Hr|].
    destruct (Hret h m Hh) as [Hd| ->]; [by apply Hold|done].
Qed.

(** C14. The account a key recovers stays the one it recovers.  For a key in one
    of the two spellings keys are looked up by: once an account is the first to
    have claimed it, and no key was ever retired onto an account that carries
    it, then over any later sequence of registrations, recoveries, refreshes,
    sessions, renamed devices, changes of keys, guest joins, settlings and seats
    given to guests, by anybody, signed in or not, a recovery by that key lands
    on that account and on no other, as long as the account itself does not
    change its keys: no registration of the same public key under any number, no
    guest copy and no change of keys of another account, older ones included,
    takes its place. *)
Theorem recovery_stays qs s u sk raw :
  sk ∈ key_spellings raw -> bytes_ok raw -> length raw = 32%nat ->
  uin_for_signing_key (tables s) sk = Some u -> markers_clear raw (tables s) ->
  Forall (fun eq => first_claim (tables s) u < ae_now eq.1 /\ ~ rekeys eq.2 u) qs ->
  uin_for_signing_key (tables (serve_all qs s)) sk = Some u.
Proof.
  intros Hsk Hraw Hlen. revert s. induction qs as [|[e q] qs IH]; intros s Hu Hm Hall; [done|].
  apply Forall_cons in Hall as [[Hnow Hq] Hall]. simpl in *.
  destruct (recovery_step e q s u sk raw) as (H1 & H2 & H3); [done..|]. apply IH; [done|done|].
  eapply Forall_impl; [exact Hall|]. intros [e' q']. simpl. by rewrite H3.
Qed.
End handlers.
