(* ===== verification/AccountsDoor.v ===== *)
(** * Getting in, and changing keys

    What [register], [reissue] and [guest_join] of [Accounts] ask for before
    they write: a voucher or an invite on an island that is not open, a number
    that is free and not scarce (or promised, or held elsewhere), the old key's
    signature over exactly the change.  Then the routes at work on a small
    island: witnesses, and two ways around a check on a key's spelling. *)

From stdpp Require Import base list sorting gmap strings pretty.
From Stdlib Require Import ZArith Lia Ascii.
From S2P Require Import Prelude Text Uin Storage Redis RateLimit GuestPolicy Sessions GroupLogStore QueueDrain Devices Gates Bytes KeyStorage Voucher Rooms KeyProof Accounts AccountsAuth.

(** ** What a request spends *)

(** The vouchers and the invites. *)
Definition creds (d : adb) : gset string * list Invite := (spent_nonces d, invite_rows d).

Lemma creds_user u f d : creds (set_user u f d) = creds d.
Proof. done. Qed.
Lemma creds_account u f d : creds (set_account u f d) = creds d.
Proof. unfold set_account. by case_bool_decide. Qed.
Lemma creds_keys u f d : creds (set_key_columns u f d) = creds d.
Proof. unfold set_key_columns. by case_bool_decide. Qed.
Lemma creds_clear u d : creds (clear_guest_columns u d) = creds d.
Proof. unfold clear_guest_columns. by rewrite creds_account. Qed.
Lemma creds_badge u k d : creds (grant_badge u k d) = creds d.
Proof.
  unfold grant_badge. destruct (users _ !! _) as [x|]; [|done]. cbv zeta. destruct (truthy _); by rewrite ?creds_user, creds_account.
Qed.
Lemma creds_retire u a d : creds (retire_bearers_before_proof u a d).2 = creds d.
Proof.
  unfold retire_bearers_before_proof. cbv zeta. set (b := bool_decide _ && _). set (d1 := if b then _ else d).
  assert (E : creds d1 = creds d) by (unfold d1; destruct b; [apply creds_account|done]).
  destruct (b || a); [|exact E]. destruct (bump_uin_epoch _ _). exact E.
Qed.
Lemma creds_insert u x ik sk a d d' : insert_user u x ik sk a d = Ok d' -> creds d' = creds d.
Proof. unfold insert_user. case_bool_decide; [done|]. by intros [= <-]. Qed.

(** The invite a code names is the one that is used; codes are unique. *)
Lemma use_one_invite now h need rows inv :
  NoDup (map code rows) -> inv ∈ rows -> opens_door now h need inv = true ->
  exists l1 l2, rows = l1 ++ inv :: l2 /\
    map (fun i => if opens_door now h need i then use_invite now i else i) rows = l1 ++ use_invite now inv :: l2.
Proof.
  intros Hn Hin Ho. apply list_elem_of_split in Hin as (l1 & l2 & ->). exists l1, l2. split; [done|].
  assert (Hc : code inv = h) by (unfold opens_door in Ho; by apply andb_prop in Ho as [[?%String.eqb_eq _]%andb_prop _]).
  assert (Hother : forall l, code inv ∉ map code l -> map (fun i => if opens_door now h need i then use_invite now i else i) l = l).
  { induction l as [|i l IH]; intros Hl; [done|]. simpl in *. apply not_elem_of_cons in Hl as [Hi Hl]. rewrite IH by done. f_equal.
    unfold opens_door. destruct (String.eqb_spec (code i) h); [congruence|done]. }
  rewrite map_app in Hn. simpl in Hn. apply NoDup_app in Hn as (_ & H1 & H2). apply NoDup_cons in H2 as [H2 _].
  rewrite map_app. simpl. rewrite Ho, !Hother; [done|done|]. intros Hin. apply (H1 _ Hin). left.
Qed.

Section door.
Context {R : Type} `{RR : Redis R} `{JT : JWT string}.
Context (bucket : string -> string) (sha256 : bytes -> bytes) (ed25519_verify : bytes -> bytes -> bytes -> bool).
Context (loads : bytes -> option json) (public_key : option string).
Notation register := (register (R := R) bucket sha256 ed25519_verify loads public_key).
Notation door := (door sha256 ed25519_verify loads public_key).

(** What a registration answers and leaves once the door has said yes. *)
Definition admitted (e : aenv) (b : RegisterIn) (t : ticket) (d' : adb) (out : SessionFor) : Prop :=
  creds d' = creds (t_db t) /\
  (s_created out = true ->
   exists proven policy, ae_policy e = Some policy /\
     prove_key ed25519_verify e (r_challenge b) (r_signature b) (strip (r_signing_key b)) "register" = Ok proven /\
     choose_number e (r_desired_uin b) proven (tenure_proven e policy b proven (strip (r_signing_key b))) t = Ok (s_uin out) /\
     ~ exists_row (t_db t) (s_uin out)).

Lemma register_admits e b d :
  spec d (register e b) (fun o d' => match o with
    | Ok out => exists policy t, ae_policy e = Some policy /\ door e policy (r_invite b) d = Ok t /\ admitted e b t d' out
    | Raise _ => True end).
Proof.
  unfold Accounts.register. apply spec_lift_bind; [|done]. intros ik _. apply spec_lift_bind; [|done].
  intros sk ->%pubkey32_strip. apply spec_lift_bind; [|done]. intros proven Hp.
  destruct (ae_policy e) as [policy|] eqn:Epol; [|by apply spec_raise]. cbv zeta. apply spec_get.
  apply spec_unless; [intros _|done]. apply spec_lift_bind; [|done]. intros t Ht.
  eapply (spec_weaken _ _ (fun o d' => match o with Ok out => admitted e b t d' out | Raise _ => True end)).
  2: { intros [out|x] d' H; [|done]. eauto. }
  match goal with |- spec _ (match ?x with _ => _ end) _ => destruct x as [g|] eqn:Hg end.
  - unfold convert_guest_on_register. destruct (t_reserved t); [by apply spec_raise|].
    apply spec_quiet_bind; [apply quiet_refuse|intros _|done]. cbv zeta.
    set (d4 := set_user g (with_last_seen (ae_now e)) _). pose proof (creds_retire g true d4) as E5.
    assert (E4 : creds d4 = creds (t_db t)).
    { unfold d4. rewrite creds_user. destruct (t_resident t); rewrite ?creds_badge, ?creds_account, creds_keys; apply creds_clear. }
    destruct (retire_bearers_before_proof g true d4) as [ep d5]. simpl in E5. apply spec_commit_bind.
    do 3 (apply spec_quiet_bind; [eauto with quiet|intros ?|done]). apply spec_ret. split; [congruence|]. done.
  - apply spec_lift_bind; [|done]. intros uin Hn. apply spec_lift_bind; [|done]. intros d1 Hi. apply spec_commit_bind.
    assert (Hx : ~ exists_row (t_db t) uin) by (unfold insert_user in Hi; by case_bool_decide).
    pose proof (creds_insert _ _ _ _ _ _ _ Hi) as E1.
    apply (spec_newcomer (fun d' => creds d' = creds (t_db t))); [done|done|done| |done]. intros d2 H2.
    apply spec_quiet_bind; [apply quiet_mint|intros token|done]. apply spec_ret.
    split; [done|]. intros _. exists proven, policy. done.
Qed.

(** The presented code as the door hashes it, and the voucher in it. *)
Definition presented (b : RegisterIn) : string := strip (default ""%string (r_invite b)).
Definition voucher_of (e : aenv) (code : string) : verdict string :=
  verify_entry b64decode_strict loads ed25519_verify public_key code (ae_island_host e) (ae_now e / usec_per_sec).

(** How a ticket was paid for. *)
Lemma door_paid e p i d t :
  door e p i d = Ok t ->
  let code := strip (default ""%string i) in
  (exists nonce, voucher_of e code = Accepted nonce /\ nonce ∉ spent_nonces d /\ t_via t = "voucher"%string /\
     t_resident t = Some (ae_now e) /\ t_reserved t = None /\
     spent_nonces (t_db t) = {[ nonce ]} ∪ spent_nonces d /\ invite_rows (t_db t) = invite_rows d) \/
  (t_resident t = None /\ spent_nonces (t_db t) = spent_nonces d /\
   ((exists need inv, inv ∈ invite_rows d /\ opens_door (ae_now e) (hash_invite_code sha256 code) need inv = true /\
       (gated p = true -> need = false) /\ t_via t = "invite"%string /\ t_hash t = hash_invite_code sha256 code /\
       invite_rows (t_db t) =
         map (fun i => if opens_door (ae_now e) (hash_invite_code sha256 code) need i then use_invite (ae_now e) i else i) (invite_rows d) /\
       t_reserved t = invite_number (hash_invite_code sha256 code) (t_db t)) \/
    (gated p = false /\ t_via t = "open"%string /\ t_reserved t = None /\ invite_rows (t_db t) = invite_rows d))).
Proof.
  intros H. cbv zeta. unfold Accounts.door in H. set (code := strip _) in *.
  destruct (redeem_entry _ _ _ _ _ _) as [[d'|]|] eqn:E; simpl in H; [|..|done].
  - left. injection H as <-. unfold redeem_entry in E. destruct (String.eqb code ""); [done|]. unfold voucher_of.
    destruct (verify_entry _ _ _ _ _ _ _) as [n| |]; [|by destruct (_ || _)|done].
    case_bool_decide; [done|]. injection E as <-. by exists n.
  - right. assert (Hinv : forall need, existsb (opens_door (ae_now e) (hash_invite_code sha256 code) need) (invite_rows d) = true ->
        exists inv, inv ∈ invite_rows d /\ opens_door (ae_now e) (hash_invite_code sha256 code) need inv = true).
    { intros need (inv & Hin & Ho)%existsb_elem. eauto. }
    destruct (String.eqb code "") eqn:Ec; simpl in H.
    + destruct (gated p) eqn:Eg; [done|]. injection H as <-. split_and!; [done|done|]. by right.
    + destruct (gated p) eqn:Eg.
      * destruct (existsb _ _) eqn:Ex; [|done]. injection H as <-. destruct (Hinv _ Ex) as (inv & ? & ?).
        split_and!; [done|done|]. left. by exists false, inv.
      * destruct (existsb _ _) eqn:Ex; injection H as <-; [destruct (Hinv _ Ex) as (inv & ? & ?)|];
          (split_and!; [done|done|]); [left; by exists true, inv|by right].
Qed.

(** C33. Nobody gets in unpaid ([code] is the primary key of [invites]).  On an
    island whose door is not open a registration succeeds (with a new account,
    or by settling the guest copy the key already has) only if the code it
    presents is a voucher the till signed for this island that was not spent
    before, and is spent after, or an invite that was live and after it has been
    used once more, within its limit.  Nothing else of either table changes. *)
Theorem entry_paid e b s out s' p :
  NoDup (map code (invite_rows (tables s))) ->
  register e b s = (Ok out, s') -> ae_policy e = Some p -> gated p = true ->
  (exists nonce, voucher_of e (presented b) = Accepted nonce /\ nonce ∉ spent_nonces (tables s) /\
     creds (tables s') = ({[ nonce ]} ∪ spent_nonces (tables s), invite_rows (tables s))) \/
  (exists inv inv' l1 l2, invite_rows (tables s) = l1 ++ inv :: l2 /\ code inv = hash_invite_code sha256 (presented b) /\
     invite_is_live (ae_now e) inv = true /\ creds (tables s') = (spent_nonces (tables s), l1 ++ inv' :: l2) /\
     code inv' = code inv /\ max_uses inv' = max_uses inv /\ used_count inv' = used_count inv + 1 /\ used_count inv' <= max_uses inv).
Proof.
  intros Hpk Hr Hp Hg. pose proof (register_admits e b (tables s) s eq_refl) as H. rewrite Hr in H. simpl in H.
  destruct H as (policy & t & Hpol & Ht & Hc & _). rewrite Hp in Hpol. injection Hpol as <-. rewrite Hc. unfold creds.
  destruct (door_paid _ _ _ _ _ Ht) as [(nonce & Hv & Hn & _ & _ & _ & -> & ->)|(_ & -> & [(need & inv & Hin & Ho & Hneed & _ & _ & -> & _)|(? & _)])];
    [left; by exists nonce| |congruence].
  right. destruct (use_one_invite _ _ _ _ _ Hpk Hin Ho) as (l1 & l2 & E1 & E2). exists inv, (use_invite (ae_now e) inv), l1, l2.
  unfold opens_door in Ho. apply andb_prop in Ho as [[Hcode%String.eqb_eq Hl]%andb_prop _]. rewrite (Hneed Hg) in *.
  split_and!; try done; [by rewrite E2|]. unfold invite_is_live in Hl. apply andb_prop in Hl as [Hl _]. simpl. lia.
Qed.

Lemma not_taken now view n exc ign :
  uin_is_taken now view n exc ign = false ->
  n ∉ Uin.users view /\ n ∉ Uin.owned_uins view /\
  (ign = false -> forall t, Uin.uin_holds view !! n = Some t -> t <= now).
Proof.
  unfold uin_is_taken. case_bool_decide; [done|]. case_bool_decide; [done|].
  destruct (negb ign && _) eqn:E; [done|]. intros _. split_and!; [done|done|]. intros -> t Ht. simpl in E. rewrite Ht in E. lia.
Qed.

Lemma number_granted_facts e b s out s' :
  NoDup (map code (invite_rows (tables s))) -> register e b s = (Ok out, s') -> s_created out = true ->
  let n := s_uin out in
  ~ exists_row (tables s) n /\ n ∉ owned_rows (tables s) /\ (forall t, hold_rows (tables s) !! n = Some t -> t <= ae_now e) /\
  (is_reserved_uin n = true ->
   (exists inv, inv ∈ invite_rows (tables s) /\ invite_is_live (ae_now e) inv = true /\ invite_uin inv = Some n /\
      code inv = hash_invite_code sha256 (presented b)) \/
   (prove_key ed25519_verify e (r_challenge b) (r_signature b) (strip (r_signing_key b)) "register" = Ok true /\
    r_desired_uin b = Some n /\ ae_tenure e n (strip (r_signing_key b)) = true)).
Proof.
  intros Hpk Hr Hcr. cbv zeta. pose proof (register_admits e b (tables s) s eq_refl) as H. rewrite Hr in H. simpl in H.
  destruct H as (policy & t & Hpol & Ht & _ & Hch). destruct (Hch Hcr) as (proven & policy' & Hpol' & Hp & Hn & Hx).
  destruct (door_keeps sha256 ed25519_verify loads public_key _ _ _ _ _ Ht) as (E1 & E2 & _).
  assert (Erow : exists_row (t_db t) (s_uin out) <-> exists_row (tables s) (s_uin out)) by (unfold exists_row, acore; by rewrite E1).
  assert (Hview : owned_rows (t_db t) = owned_rows (tables s) /\ hold_rows (t_db t) = hold_rows (tables s)).
  { revert Ht. unfold Accounts.door. set (c := strip _). destruct (redeem_entry _ _ _ _ _ _) as [[d'|]|] eqn:E; simpl; [|..|done].
    - intros [= <-]. unfold redeem_entry in E. destruct (String.eqb c ""); [done|]. destruct (verify_entry _ _ _ _ _ _ _); [| |done].
      + case_bool_decide; [done|]. by injection E as <-.
      + by destruct (_ || _).
    - repeat (match goal with |- context [if ?b then _ else _] => destruct b end; simpl; try done; try by intros [= <-]). }
  destruct Hview as [Eo Eh].
  assert (Hfree : forall exc, uin_is_taken (ae_now e) (number_view (t_db t)) (s_uin out) exc false = false ->
            s_uin out ∉ owned_rows (tables s) /\ (forall x, hold_rows (tables s) !! s_uin out = Some x -> x <= ae_now e)).
  { intros exc (_ & H1 & H2)%not_taken. simpl in *. rewrite Eo in H1. rewrite Eh in H2. auto. }
  split; [tauto|].
  assert (Hcases : (exists r, t_reserved t = Some r /\ s_uin out = r /\ uin_is_taken (ae_now e) (number_view (t_db t)) r (Some (t_hash t)) false = false) \/
    (r_desired_uin b = Some (s_uin out) /\ proven = true /\ uin_is_taken (ae_now e) (number_view (t_db t)) (s_uin out) None false = false /\
       (is_reserved_uin (s_uin out) = true -> tenure_proven e policy' b proven (strip (r_signing_key b)) = true)) \/
    (is_reserved_uin (s_uin out) = false /\ uin_is_taken (ae_now e) (number_view (t_db t)) (s_uin out) None false = false)).
  { revert Hn. unfold choose_number. cbv zeta.
    assert (Hal : allocate_uin (ae_rand e) (fun _ => ae_now e) (number_view (t_db t)) = Ok (s_uin out) ->
      is_reserved_uin (s_uin out) = false /\ uin_is_taken (ae_now e) (number_view (t_db t)) (s_uin out) None false = false).
    { intros Ha. unfold allocate_uin in Ha. apply allocate_loop_Ok in Ha as (j & _ & _ & ? & ?). done. }
    set (fallback := match r_desired_uin b with Some _ => _ | None => _ end).
    assert (Hfb : fallback = Ok (s_uin out) ->
      (r_desired_uin b = Some (s_uin out) /\ proven = true /\ uin_is_taken (ae_now e) (number_view (t_db t)) (s_uin out) None false = false /\
       (is_reserved_uin (s_uin out) = true -> tenure_proven e policy' b proven (strip (r_signing_key b)) = true)) \/
      (is_reserved_uin (s_uin out) = false /\ uin_is_taken (ae_now e) (number_view (t_db t)) (s_uin out) None false = false)).
    { unfold fallback. destruct (r_desired_uin b) as [n|]; [|by right; apply Hal].
      destruct (proven && _ && _ && _ && _) eqn:Ew; [|by right; apply Hal]. intros [= <-]. left.
      apply andb_prop in Ew as [[[[-> _]%andb_prop _]%andb_prop Hf%negb_true_iff]%andb_prop Hres].
      split_and!; try done. intros Hres'. by rewrite Hres' in Hres. }
    destruct (t_reserved t) as [r|]; [|by intros; right; apply Hfb].
    destruct (uin_is_taken _ _ r _ _) eqn:Er; simpl; [by intros; right; apply Hfb|]. intros [= <-]. left. by exists r. }
  destruct Hcases as [(r & Htr & Er & Hf)|[(Hd & -> & Hf & Hten)|[Hnr Hf]]]; [rewrite <-Er in Htr, Hf|..];
    destruct (Hfree _ Hf) as [H1 H2]; (split_and!; [done|done|]).
  - intros _. left. destruct (door_paid _ _ _ _ _ Ht) as [(nonce & _ & _ & _ & _ & Hnone & _)|(_ & _ & [(need & inv & Hin & Ho & _ & _ & _ & Hl & Hr')|(_ & _ & Hnone & _)])];
      [congruence| |congruence].
    rewrite Htr in Hr'. symmetry in Hr'. unfold invite_number in Hr'. rewrite Hl in Hr'. set (h := hash_invite_code sha256 _) in *.
    destruct (find_first _ _) as [i'|] eqn:Ef; [|done]. apply find_first_Some in Ef as [Hin' Hc'%String.eqb_eq].
    apply list_elem_of_fmap in Hin' as (i & -> & Hi).
    assert (i = inv) as ->.
    { apply (NoDup_map_inj code (invite_rows (tables s))); try done. unfold opens_door in Ho.
      apply andb_prop in Ho as [[->%String.eqb_eq _]%andb_prop _]. revert Hc'. by destruct (opens_door _ _ _ i). }
    rewrite Ho in Hr', Hc'. exists inv. unfold opens_door in Ho. apply andb_prop in Ho as [[? ?]%andb_prop _]. done.
  - intros Hres. right. split_and!; try done. specialize (Hten Hres). unfold tenure_proven in Hten. rewrite Hd in Hten.
    by apply andb_prop in Hten as [_ ?].
  - congruence.
Qed.

(** ([code] is the primary key of [invites].)
    The number of a new account is nobody's: no account has it, it is in
    nobody's collection and nobody is paying for it.  A scarce number is given
    only to the holder of an invite that names it, or to somebody who proved
    their key and whom a trusted island confirms to answer to the number
    there. *)
Theorem number_granted e b s out s' :
  NoDup (map code (invite_rows (tables s))) -> register e b s = (Ok out, s') -> s_created out = true ->
  let n := s_uin out in
  ~ exists_row (tables s) n /\ n ∉ owned_rows (tables s) /\ (forall t, hold_rows (tables s) !! n = Some t -> t <= ae_now e) /\
  (is_reserved_uin n = true ->
   (exists inv, inv ∈ invite_rows (tables s) /\ invite_is_live (ae_now e) inv = true /\ invite_uin inv = Some n /\
      code inv = hash_invite_code sha256 (presented b)) \/
   (prove_key ed25519_verify e (r_challenge b) (r_signature b) (strip (r_signing_key b)) "register" = Ok true /\
    r_desired_uin b = Some n /\ ae_tenure e n (strip (r_signing_key b)) = true)).
Proof. apply number_granted_facts. Qed.
End door.

(** ** Changing keys *)

Section rekey.
Context {R : Type} `{RR : Redis R} `{JT : JWT string}.
Context (bucket : string -> string) (sha256 : bytes -> bytes) (ed25519_verify : bytes -> bytes -> bytes -> bool).
Notation reissue := (reissue (R := R) sha256 ed25519_verify).
Notation recover := (recover (R := R) bucket sha256 ed25519_verify).

(** What a recovery under a key hears whose bytes were retired and that no
    account carries in the spelling it asks with. *)
Lemma recover_rotated e k challenge signature dev s u :
  rotated_account sha256 (tables s) (strip k) = Some u -> uin_for_signing_key (tables s) (strip k) = None ->
  verify_recover_challenge (ae_now e) challenge (strip k) = true -> signature_ok ed25519_verify (strip k) signature challenge = true ->
  (recover e k challenge signature dev s).1 = Raise (HTTPExceptionN 404 "identity_rotated" u).
Proof.
  intros Hr Hn Hc Hs. unfold Accounts.recover, recover_proof, bind, unless, get, raise, ret. rewrite Hc, Hs. simpl. rewrite Hn.
  unfold not_found. by rewrite Hr.
Qed.

(** What an accepted proof has shown. *)
Definition old_key_signed (e : aenv) (uin : Z) (d : adb) (old_sk new_ik new_sk : bytes) : Prop :=
  key_bytes_or_none (signing_key_of d uin) = Some old_sk /\
  exists host ts nonce sig,
    host ∈ (island_hosts (ae_island_host e) (ae_host_header e) (ae_fronts e)).1 /\
    Z.abs (ae_now e / usec_per_sec - ts) <= ae_skew e /\
    ed25519_verify old_sk sig (reissue_proof_bytes host uin old_sk new_ik new_sk ts nonce) = true.

Lemma judge_signed e uin b new_ik new_sk taken d s k s' :
  judge_proof (R := R) sha256 ed25519_verify e uin b new_ik new_sk taken d s = (Ok k, s') ->
  exists old_sk, old_key_signed e uin d old_sk new_ik new_sk.
Proof.
  unfold judge_proof. destruct (parse_proof b) as [[[[[[v host] old_sk] ts] nonce] sig]|]; [|done].
  destruct (island_hosts _ _ _) as [allowed hd] eqn:Eh. unfold bind, unless, ret, raise.
  destruct (v =? _); [|done].
  assert (Hq : exists s1, (if hd then stat e "reissue_host_from_header" else fun s => (Ok tt, s)) s = (Ok tt, s1))
    by (destruct hd; eexists; done). destruct Hq as [s1 ->].
  destruct (bool_decide (host ∈ allowed)) eqn:Hh; [|done]. destruct (bool_decide (key_bytes_or_none _ = _)) eqn:Hk; [|done].
  destruct (Z.abs _ <=? _) eqn:Hts; [|done]. destruct (ed25519_verify _ _ _) eqn:Hv; [|done]. intros _.
  exists old_sk. split; [by apply bool_decide_eq_true in Hk|]. exists host, ts, nonce, sig. rewrite Eh. simpl.
  split_and!; [by apply bool_decide_eq_true in Hh|lia|done].
Qed.

Lemma retire_signed now raw uin d :
  let d' := retire_signing_key sha256 now raw uin true d in
  epoch_rows d' = epoch_rows d /\ vault_slots d' = vault_slots d /\ rooms d' = rooms d /\
  retired_keys d' !! hash_key sha256 raw = Some (mkRetired uin now).
Proof.
  cbv zeta. unfold retire_signing_key. destruct (retired_keys d !! _); simpl; by rewrite lookup_insert_eq.
Qed.

Lemma signed_writes now uin ik sk new_sk d old_sk :
  exists_row d uin -> key_bytes_or_none (signing_key_of d uin) = Some old_sk ->
  let d' := (reissue_writes sha256 now uin ik sk new_sk true d).2 in
  epoch_of (epoch_rows d') uin = epoch_of (epoch_rows d) uin + 1 /\
  (forall slot, (uin, slot) ∉ vault_slots d') /\
  (old_sk <> new_sk -> forall sp, decode_key32 sp = Some old_sk -> rotated_account sha256 d' sp = Some uin).
Proof.
  clear bucket ed25519_verify. intros Hx Hold. cbv zeta. unfold reissue_writes. cbv zeta. rewrite Hold.
  set (changed := negb _). set (d1 := set_key_columns uin _ d).
  set (d2 := if is_guest_row d uin && changed then set_account uin (with_unproven (Some now)) d1 else d1).
  assert (E1 : epoch_rows d1 = epoch_rows d /\ vault_slots d1 = vault_slots d /\ exists_row d1 uin).
  { unfold d1, set_key_columns, exists_row. rewrite bool_decide_eq_true_2 by done. done. }
  assert (E2 : epoch_rows d2 = epoch_rows d /\ vault_slots d2 = vault_slots d /\ exists_row d2 uin).
  { unfold d2. destruct (_ && changed); [|done]. unfold set_account, exists_row. case_bool_decide; done. }
  destruct E2 as (E2 & E2v & E2x). set (d3 := set_vault _ d2).
  set (d4 := if changed then retire_signing_key sha256 now old_sk uin true d3 else d3).
  destruct (retire_signed now old_sk uin d3) as (R1 & R2 & R3 & R4).
  assert (E4 : epoch_rows d4 = epoch_rows d /\ vault_slots d4 = vault_slots d3 /\ rooms d4 = rooms d2)
    by (unfold d4; destruct changed; [rewrite R1, R2, R3|]; done).
  destruct E4 as (E4 & E4v & E4r). destruct (bump_uin_epoch (epoch_rows d4) uin) as [ep tab] eqn:Eb. simpl.
  unfold bump_uin_epoch in Eb. injection Eb as Eep Etab. split_and!.
  - rewrite <-Etab. unfold epoch_of at 1. rewrite lookup_insert_eq. simpl. by rewrite E4.
  - intros slot. rewrite E4v. unfold d3. simpl. rewrite elem_of_filter. naive_solver.
  - intros Hne sp Hsp. unfold rotated_account, key_bytes_or_none. simpl. rewrite Hsp.
    assert (changed = true) as Hch by (unfold changed; rewrite bool_decide_eq_false_2; [done|congruence]).
    unfold d4. rewrite Hch, R4. simpl. rewrite bool_decide_eq_true_2; [done|].
    unfold acore. simpl. change (is_Some (users (rcore (rooms (retire_signing_key sha256 now old_sk uin true d3))) !! uin)).
    rewrite R3. exact E2x.
Qed.

Lemma rekey_facts e b uin dev bearer s :
  ae_require_proof e = Some true ->
  let s' := (reissue e b uin dev bearer s).2 in
  tables s' = tables s \/
  exists old_sk new_ik new_sk,
    decode_key32 (strip (i_identity_key b)) = Some new_ik /\ decode_key32 (strip (i_signing_key b)) = Some new_sk /\
    old_key_signed e uin (tables s) old_sk new_ik new_sk /\
    epoch_of (epoch_rows (tables s')) uin = epoch_of (epoch_rows (tables s)) uin + 1 /\
    (forall slot, (uin, slot) ∉ vault_slots (tables s')) /\
    (old_sk <> new_sk -> forall sp, decode_key32 sp = Some old_sk -> rotated_account sha256 (tables s') sp = Some uin).
Proof.
  intros Hreq. cbv zeta. set (d := tables s).
  apply (fun H : spec d (reissue e b uin dev bearer) (fun _ d' => d' = d \/ exists old_sk new_ik new_sk,
      decode_key32 (strip (i_identity_key b)) = Some new_ik /\ decode_key32 (strip (i_signing_key b)) = Some new_sk /\
      old_key_signed e uin d old_sk new_ik new_sk /\
      epoch_of (epoch_rows d') uin = epoch_of (epoch_rows d) uin + 1 /\ (forall slot, (uin, slot) ∉ vault_slots d') /\
      (old_sk <> new_sk -> forall sp, decode_key32 sp = Some old_sk -> rotated_account sha256 d' sp = Some uin)) =>
      H s eq_refl).
  unfold Accounts.reissue. assert (H0 : forall P, d = d \/ P) by by left.
  destruct (pubkey32 (i_identity_key b) _) as [ik|] eqn:Ei; [|by apply spec_raise; left].
  destruct (pubkey32 (i_signing_key b) _) as [sk|] eqn:Es; [|by apply spec_raise; left].
  apply pubkey32_strip in Ei as ->. apply pubkey32_strip in Es as ->.
  destruct (decode_key32 (strip (i_identity_key b))) as [new_ik|] eqn:Di; [|by apply spec_raise; left].
  destruct (decode_key32 (strip (i_signing_key b))) as [new_sk|] eqn:Ds; [|by apply spec_raise; left].
  apply spec_get. apply spec_unless; [intros Hx%bool_decide_eq_true|by left]. rewrite Hreq.
  destruct (bool_decide _ && bool_decide _); [by apply spec_ret; left|]. cbv zeta.
  apply spec_quiet_val; [| |by left].
  { destruct (proof_offered b); [apply quiet_bind; [apply quiet_judge|eauto with quiet]|eauto with quiet]. }
  intros guard s1 s2 Hg.
  assert (Hsig : exists k old_sk, guard = Some k /\ old_key_signed e uin d old_sk new_ik new_sk).
  { destruct (proof_offered b); [|done]. unfold bind, ret in Hg. destruct (judge_proof _ _ _ _ _ _ _ _ _ s1) as [[k|x] s3] eqn:Ej; [|done].
    destruct (judge_signed _ _ _ _ _ _ _ _ _ _ Ej) as [old_sk Hold]. injection Hg as <- _. by exists k, old_sk. }
  destruct Hsig as (k & old_sk & -> & Hold). rewrite bool_decide_eq_true_2 by by eexists.
  pose proof (signed_writes (ae_now e) uin (strip (i_identity_key b)) (strip (i_signing_key b)) new_sk d old_sk Hx (proj1 Hold)) as (W1 & W2 & W3).
  destruct (reissue_writes _ _ _ _ _ _ _ _) as [ep d1]. simpl in W1, W2, W3. apply spec_inv_bind.
  - destruct (ae_commit e); [apply spec_commit; right; by exists old_sk, new_ik, new_sk|].
    apply spec_quiet_bind; [eauto with quiet| |by left]. intros _. apply spec_raise. by left.
  - intros [] d2 H2. apply spec_quiet_bind; [destruct ep; eauto with quiet|intros _|done].
    apply spec_quiet_bind; [eauto with quiet|intros _|done]. apply spec_quiet_bind; [eauto with quiet|intros _|done].
    destruct ep; [by apply spec_ret|]. apply spec_quiet_bind; [apply quiet_mint|intros tok|done]. by apply spec_ret.
Qed.
(** C34. A stolen token does not take an account over.  Once the island requires
    proofs, a change of keys leaves everything as it was unless it carries a
    fresh signature by the key being replaced over exactly this change (this
    island, this number, both new keys).  Then every token minted before dies
    with the epoch and the vault sealed under the old keys is emptied; and when
    the signing key is a new one, a recovery proved under the old key, in any
    spelling that no account carries, is answered that the identity was rotated,
    with the number. *)
Theorem rekey_needs_old_key e b uin dev bearer s :
  ae_require_proof e = Some true ->
  let s' := (reissue e b uin dev bearer s).2 in
  tables s' = tables s \/
  exists old_sk new_ik new_sk,
    decode_key32 (strip (i_identity_key b)) = Some new_ik /\ decode_key32 (strip (i_signing_key b)) = Some new_sk /\
    old_key_signed e uin (tables s) old_sk new_ik new_sk /\
    epoch_of (epoch_rows (tables s')) uin = epoch_of (epoch_rows (tables s)) uin + 1 /\
    (forall slot, (uin, slot) ∉ vault_slots (tables s')) /\
    (old_sk <> new_sk -> forall e' k challenge signature dev',
       decode_key32 (strip k) = Some old_sk -> uin_for_signing_key (tables s') (strip k) = None ->
       verify_recover_challenge (ae_now e') challenge (strip k) = true ->
       signature_ok ed25519_verify (strip k) signature challenge = true ->
       (recover e' k challenge signature dev' s').1 = Raise (HTTPExceptionN 404 "identity_rotated" uin)).
Proof.
  intros Hreq. cbv zeta. destruct (rekey_facts e b uin dev bearer s Hreq) as [E|(old_sk & new_ik & new_sk & H1 & H2 & H3 & H4 & H5 & H6)]; [by left|].
  right. exists old_sk, new_ik, new_sk. split_and!; try done. intros Hne e' k challenge signature dev' Hk Hn Hc Hs.
  apply recover_rotated; try done. by apply H6.
Qed.
End rekey.

(** ** Guest copies *)

Section guests.
Context {R : Type} `{RR : Redis R} `{JT : JWT string}.
Context (num : Z -> string) (hmac_hex : string -> string -> string) (secret : string).
Context (bucket : string -> string) (sha256 : bytes -> bytes) (ed25519_verify : bytes -> bytes -> bytes -> bool).
Notation guest_join := (guest_join (R := R) num hmac_hex secret bucket sha256 ed25519_verify).

(** What a room has to be for a guest to come in by itself. *)
Definition takes_guest (e : aenv) (k : option string) (gid : Z) (g : Group) (d : adb) : Prop :=
  groups (acore d) !! gid = Some g /\ is_closed (info g) = false /\ allow_guests (info g) <> Some false /\
  (in_catalog (info g) = true \/ key_matches g k = true \/ room_link_refusal (ae_room e) g k = None) /\
  member_count (rooms d) gid < e_member_ceiling (ae_room e).

Lemma room_checks_pass e gid k d s g s' :
  guest_room_checks (R := R) num hmac_hex secret e gid k d s = (Ok g, s') -> takes_guest e k gid g d.
Proof.
  unfold guest_room_checks, takes_guest. destruct (groups _ !! _) as [g0|]; [|done]. unfold bind, unless, ret, raise.
  destruct (is_closed (info g0)) eqn:Ec; simpl; [done|]. destruct (bool_decide (allow_guests _ = _)) eqn:Ea; simpl; [done|].
  set (link := if negb (in_catalog (info g0)) && negb (key_matches g0 k) then _ else _).
  destruct (link s) as [[[]|x] s1] eqn:El; [|done].
  assert (Hl : in_catalog (info g0) = true \/ key_matches g0 k = true \/ room_link_refusal (ae_room e) g0 k = None).
  { unfold link in El. destruct (in_catalog (info g0)); [by left|]. destruct (key_matches g0 k); [by right; left|]. simpl in El.
    destruct (room_link_refusal _ _ _); [done|]. by right; right. }
  clear link El. unfold in_rooms, refuse_full_room, refuse_if. destruct (_ <=? _) eqn:Ef; [done|]. simpl.
  destruct (spend_room_budget _ _ _ _ _ _) as [[[]|x] l]; [|done]. simpl. intros [= <- _].
  split_and!; try done; [by apply bool_decide_eq_false in Ea|lia].
Qed.

Lemma spec_mint_made e gid g nick ik sk st seen undo d :
  spec (R := R) d (mint_guest e gid g nick ik sk st seen undo) (fun o d' => match o with
    | Ok u => ~ exists_row d u /\ is_reserved_uin u = false /\
        users (acore d') !! u = Some (new_user (ae_now e) seen nick None (Some st)) /\
        signing_key_of d' u = Some sk /\
        group_members (acore d') = group_members (acore d) ++ [mkGroupMember gid u "member" "" (armed_join_stamp (ae_now e) g)]
    | Raise _ => True end).
Proof.
  clear num hmac_hex secret bucket sha256 ed25519_verify.
  unfold mint_guest. apply spec_get. apply spec_lift_bind; [|done]. intros u Hu. apply spec_lift_bind; [|done]. intros d1 Hi.
  apply spec_lift_bind; [|done]. intros c Hc. cbv zeta. apply spec_bind.
  apply (spec_weaken _ _ (fun _ _ => True)); [done|]. intros [[]|x] d2 _; [|done]. apply spec_bind. unfold commit_or.
  destruct (ae_commit e); [|apply spec_bind, (spec_weaken _ _ (fun _ _ => True)); [done|]; intros [[]|x] d3 _; [by apply spec_raise|done]].
  apply spec_commit. apply spec_ret.
  assert (Hres : is_reserved_uin u = false).
  { unfold allocate_uin in Hu. by apply allocate_loop_Ok in Hu as (j & _ & _ & ? & _). }
  unfold insert_user in Hi. case_bool_decide as Hx; [done|]. injection Hi as <-.
  pose proof (enter_room_users _ _ _ _ _ _ _ Hc) as Eu.
  assert (Em : group_members c = group_members (acore d) ++ [mkGroupMember gid u "member" "" (armed_join_stamp (ae_now e) g)]).
  { revert Hc. unfold enter_room. destruct (has_member _ _ _); [done|]. intros [= <-]. unfold seed_cursors_on_join.
    assert (H : forall h l x, group_members (foldl (fun d dev => (upsert_log_cursor (ae_now e) gid u dev 0 h d).2) x l) = group_members x).
    { intros h l. induction l as [|dev l IH]; intros x; [done|]. simpl. by rewrite IH. }
    destruct (reader_devices _ _); [done|]. by rewrite H. }
  split_and!; [done|done| | |].
  - unfold acore, rcore, on_acore, on_core. simpl. rewrite Eu. unfold acore, rcore, on_keys, on_acore, on_core. simpl. by rewrite lookup_insert_eq.
  - unfold signing_key_of, akeys, on_acore, on_core, on_keys. simpl. by rewrite lookup_insert_eq.
  - exact Em.
Qed.

(** An answer for a row that was there never says it was made. *)
Lemma existing_not_created e uin ik ik_raw dev guard d (P : SessionFor -> adb -> Prop) :
  spec (R := R) d (guest_existing_row bucket e uin ik ik_raw dev guard)
    (fun o d' => match o with Ok out => s_created out = true -> P out d' | Raise _ => True end).
Proof.
  intros s _. destruct (guest_existing_row bucket e uin ik ik_raw dev guard s) as [[out|x] s'] eqn:E; [|done]. simpl.
  intros Hc. exfalso. revert E. unfold guest_existing_row, bind, get, ret, raise.
  repeat (match goal with |- context [match ?x with _ => _ end] => destruct x eqn:? end; try done);
    intros [= <- _]; simpl in Hc; discriminate Hc.
Qed.

(** A guest copy is made only for somebody who holds its key: the request
    carries the key's signature over this island, this room, both keys and a
    live challenge; no account here had the key; the island takes guests, the
    room is open to them and not full.  The new account is a guest, has an
    ordinary number that was free, carries that key, and is in that one room. *)
Theorem guest_admitted e b s out s' :
  guest_join e b s = (Ok out, s') -> s_created out = true ->
  let d := tables s in let d' := tables s' in
  exists ik_raw sk_raw g u,
    guest_shown ed25519_verify e b ik_raw sk_raw /\ row_for_key d sk_raw false = None /\ admits_guests e = true /\
    takes_guest e (g_k b) (g_group_id b) g d /\
    ~ exists_row d (s_uin out) /\ is_reserved_uin (s_uin out) = false /\
    users (acore d') !! s_uin out = Some u /\ guest_status u = Some STATUS_PROVEN /\
    signing_key_of d' (s_uin out) = Some (strip (g_signing_key b)) /\
    group_members (acore d') =
      group_members (acore d) ++ [mkGroupMember (g_group_id b) (s_uin out) "member" "" (armed_join_stamp (ae_now e) g)].
Proof.
  intros Hj Hcr. cbv zeta. set (d := tables s).
  assert (Hspec : spec d (guest_join e b) (fun o d' => match o with
    | Ok out => s_created out = true -> exists ik_raw sk_raw g u,
        guest_shown ed25519_verify e b ik_raw sk_raw /\ row_for_key d sk_raw false = None /\ admits_guests e = true /\
        takes_guest e (g_k b) (g_group_id b) g d /\ ~ exists_row d (s_uin out) /\ is_reserved_uin (s_uin out) = false /\
        users (acore d') !! s_uin out = Some u /\ guest_status u = Some STATUS_PROVEN /\
        signing_key_of d' (s_uin out) = Some (strip (g_signing_key b)) /\
        group_members (acore d') = group_members (acore d) ++ [mkGroupMember (g_group_id b) (s_uin out) "member" "" (armed_join_stamp (ae_now e) g)]
    | Raise _ => True end)); [|specialize (Hspec s eq_refl); rewrite Hj in Hspec; by apply Hspec].
  clear Hj Hcr out s'. unfold Accounts.guest_join. apply spec_quiet_val; [apply quiet_proof_checks| |done].
  intros [[[[ik sk] ik_raw] sk_raw] guard] s1 s2 [-> Hshown]%proof_checks_shown. apply spec_get.
  destruct (row_for_key d sk_raw false) as [u|] eqn:Hr; [apply existing_not_created|].
  apply spec_quiet_bind; [destruct (rotated_account _ _ _); eauto with quiet|intros _|done].
  apply spec_unless; [intros Hadm|done]. apply spec_quiet_val; [apply quiet_room_checks| |done]. intros g s3 s4 Hroom%room_checks_pass.
  apply spec_quiet_bind; [apply quiet_acquire|intros lock|done]. apply spec_bind.
  apply spec_with_lock, spec_get. rewrite Hr. apply spec_bind. eapply spec_weaken; [apply spec_mint_made|].
  intros [u|x] d1 H1; [|done]. destruct H1 as (M1 & M2 & M3 & M4 & M5). apply spec_ret. apply spec_get.
  apply spec_lift_bind; [|done]. intros g' _. cbv zeta. do 3 (apply spec_quiet_bind; [eauto with quiet|intros ?|done]).
  apply spec_ret. intros _. simpl. exists ik_raw, sk_raw, g, (new_user (ae_now e) (ae_now e - mint_backdate (ae_dormant e)) (g_nickname b) None (Some STATUS_PROVEN)).
  split_and!; try done.
Qed.
End guests.

(** ** At work *)

Section demo.

(** Tokens as text: a challenge is its kind's letter and the key; a signature
    verifies when it starts with the key's first byte. *)
#[local] Instance demo_jwt : JWT string := {
  jwt_encode c := ("t" ++ pretty (default 0 (c_sub c)) ++ "/" ++ pretty (default 0 (c_ep c)))%string;
  jwt_decode _ _ t :=
    match t with
    | String c k =>
        let typ := if Ascii.eqb c "r" then "recover" else if Ascii.eqb c "n" then "register" else "guest" in
        Some (mkClaims None None None None None None (Some typ%string) (Some k) None)
    | EmptyString => None
    end
}.
Definition demo_verify (key sig msg : bytes) : bool := bool_decide (head sig = head key).
Definition demo_sha (b : bytes) : bytes := b.
Definition demo_loads (b : bytes) : option json := None.
Definition demo_room_env : renv :=
  mkRenv (days 3) (fun _ => false) "scratch" "day" true true true false false 100 3500 50 200 true.
Definition demo_aenv (policy : string) (require : bool) : aenv :=
  mkAenv demo_room_env 3600 (Some policy) (Some require) "isle.example" "" "" false false "auto" 600 30 0 0
    Uin.demo_rand "lock" (fun _ _ => false) auth_all_up true true true (true, true) true.

Definition K : string := b64encode demo_key.
Definition K_unpadded : string := rstrip_char "=" K.
Definition K_other : string := "BwcHBwcHBwcHBwcHBwcHBwcHBwcHBwcHBwcHBwcHBwd=".
Definition K_old : string := b64encode (repeat 8 32).
Definition K_new : string := b64encode (repeat 3 32).

(** Account 9 since instant 50, account 5 since instant 100 under [key], a seat
    at 12 for the holder of [K_new]; one invite. *)
Definition demo_accounts (key : string) : adb :=
  let user t g := mkUser t t g [] false plain_profile in
  let keys k := mkUserKeys K_new (Some k) None None None None None None in
  let acc t g := mkAccount (Some "open"%string) None None g (Some t) None in
  mkAdb (mkRdb (mkKdb (set_users (fun _ => {[ 5 := user 100 None; 9 := user 50 None; 12 := user 60 (Some STATUS_ADDED) ]}) empty_db)
                  {[ 5 := keys key; 9 := keys K_old; 12 := keys K_new ]} [] [] [] 1 1 1) ∅ 1)
    {[ 5 := acc 100 None; 9 := acc 50 None; 12 := acc 60 (Some 60) ]}
    [{| code := hash_invite_code demo_sha "friend"; max_uses := 2; used_count := 0; invite_uin := Some 777; expires_at := None; spent_at := None |}]
    ∅ ∅ ∅ ∅ ∅ ∅.
Definition demo_ast (key : string) : ast store := mkAst (demo_accounts key) (mkLimiter (∅ : store) ∅) [].

Definition demo_register := register (R := store) (fun s => s) demo_sha demo_verify demo_loads None.
Definition demo_reissue := reissue (R := store) demo_sha demo_verify.
Definition demo_serve := serve (R := store) (pretty : Z -> string) (fun a b => b) "k" (fun s => s) demo_sha demo_verify demo_loads None.

(** Somebody who does not hold the key and shows no proof registers it once
    more, by leaving out its padding: the check for a taken key compares the
    text of the key, so two accounts carry the same key. *)
Theorem key_taken_without_proof :
  match demo_register (demo_aenv "open" false) (mkRegisterIn "copy" K_new K_unpadded None None None None None None) (demo_ast K) with
  | (Ok out, s') =>
      s_uin out <> 5 /\ key_bytes_or_none (signing_key_of (tables s') 5) = Some demo_key /\
      key_bytes_or_none (signing_key_of (tables s') (s_uin out)) = Some demo_key
  | (Raise _, _) => False
  end.
Proof. vm_compute. split_and!; [discriminate|reflexivity|reflexivity]. Qed.

(** An older account moves, by its token alone, onto the key of account 5
    where that key is stored in a spelling outside the two that are looked up;
    from then on the key recovers the older account. *)
Theorem recovery_lost_to_spelling :
  uin_for_signing_key (demo_accounts K_other) K_other = Some 5 /\
  match demo_reissue (demo_aenv "open" false) (mkReissueIn K_new K_other None None None None None None) 9 "phone" "t9/0"
          (demo_ast K_other) with
  | (Ok _, s') => uin_for_signing_key (tables s') K_other = Some 9
  | (Raise _, _) => False
  end.
Proof. vm_compute. split; reflexivity. Qed.

Definition claim_seat_request : areq := Recover K_new ("r" ++ K_new)%string (b64encode [3]) None.

Lemma row_authority_witness :
  session_of claim_seat_request = Some 12 \/
  proves demo_verify (demo_aenv "open" false) claim_seat_request (tables (demo_ast K)) 12.
Proof.
  apply (row_authority (R := store) (pretty : Z -> string) (fun a b => b) "k" (fun s => s) demo_sha demo_verify demo_loads None
           (demo_aenv "open" false) claim_seat_request (demo_ast K) 12).
  - eexists. vm_compute. reflexivity.
  - intros E. apply (f_equal (fun r => match r.1.1 with Some u => guest_status u | None => None end)) in E.
    vm_compute in E. discriminate E.
Defined.

Definition hostile_requests : list (aenv * areq) :=
  [(demo_aenv "open" false, Register (mkRegisterIn "copy" K_new K None None (Some 2) None None None));
   (demo_aenv "open" false, Register (mkRegisterIn "copy" K_new K_unpadded None None None None None None));
   (demo_aenv "open" false, Reissue (mkReissueIn K_new K None None None None None None) 9 "phone" "t9/0")].

Lemma recovery_stays_witness :
  uin_for_signing_key (tables (serve_all (R := store) (pretty : Z -> string) (fun a b => b) "k" (fun s => s) demo_sha
    demo_verify demo_loads None hostile_requests (demo_ast K))) K = Some 5.
Proof.
  apply (recovery_stays (R := store) (pretty : Z -> string) (fun a b => b) "k" (fun s => s) demo_sha demo_verify demo_loads None
           hostile_requests (demo_ast K) 5 K demo_key).
  - by left.
  - repeat constructor; by vm_compute.
  - done.
  - vm_compute. reflexivity.
  - intros h m Hm. change ((∅ : gmap string RetiredSigningKey) !! h = Some m) in Hm. by rewrite lookup_empty in Hm.
  - repeat (apply Forall_cons_2; [split; [vm_compute; reflexivity|simpl; lia]|]). apply Forall_nil_2.
Defined.

(** Somebody comes with the invite that names 777, to an island for invited
    people. *)
Definition K_fresh : string := b64encode (repeat 4 32).
Definition invited : RegisterIn := mkRegisterIn "friend" K_new K_fresh None (Some " friend"%string) None None None None.
Definition invited_end : outcome SessionFor * ast store := demo_register (demo_aenv "invite" false) invited (demo_ast K).
Definition invited_out : SessionFor := mkSessionFor 777 "t777/0" false None true.

Lemma invited_runs : demo_register (demo_aenv "invite" false) invited (demo_ast K) = (Ok invited_out, invited_end.2).
Proof.
  assert (H : invited_end.1 = Ok invited_out) by (vm_compute; reflexivity).
  change (invited_end = (Ok invited_out, invited_end.2)). destruct invited_end as [o x]. simpl in *. by subst.
Qed.

Lemma entry_paid_witness :
  (exists nonce, voucher_of demo_verify demo_loads None (demo_aenv "invite" false) (presented invited) = Accepted nonce /\
     nonce ∉ spent_nonces (demo_accounts K) /\
     creds (tables invited_end.2) = ({[ nonce ]} ∪ spent_nonces (demo_accounts K), invite_rows (demo_accounts K))) \/
  (exists inv inv' l1 l2, invite_rows (demo_accounts K) = l1 ++ inv :: l2 /\
     code inv = hash_invite_code demo_sha (presented invited) /\ invite_is_live (ae_now (demo_aenv "invite" false)) inv = true /\
     creds (tables invited_end.2) = (spent_nonces (demo_accounts K), l1 ++ inv' :: l2) /\
     code inv' = code inv /\ max_uses inv' = max_uses inv /\ used_count inv' = used_count inv + 1 /\ used_count inv' <= max_uses inv).
Proof.
  apply (entry_paid (R := store) (fun s => s) demo_sha demo_verify demo_loads None (demo_aenv "invite" false) invited (demo_ast K)
           invited_out invited_end.2 "invite"); [apply NoDup_singleton|exact invited_runs|reflexivity|reflexivity].
Defined.

Lemma number_granted_witness :
  let n := s_uin invited_out in
  ~ exists_row (demo_accounts K) n /\ n ∉ owned_rows (demo_accounts K) /\
  (forall t, hold_rows (demo_accounts K) !! n = Some t -> t <= ae_now (demo_aenv "invite" false)) /\
  (is_reserved_uin n = true ->
   (exists inv, inv ∈ invite_rows (demo_accounts K) /\ invite_is_live (ae_now (demo_aenv "invite" false)) inv = true /\
      invite_uin inv = Some n /\ code inv = hash_invite_code demo_sha (presented invited)) \/
   (prove_key demo_verify (demo_aenv "invite" false) (r_challenge invited) (r_signature invited) (strip (r_signing_key invited)) "register" = Ok true /\
    r_desired_uin invited = Some n /\ ae_tenure (demo_aenv "invite" false) n (strip (r_signing_key invited)) = true)).
Proof.
  apply (number_granted (R := store) (fun s => s) demo_sha demo_verify demo_loads None (demo_aenv "invite" false) invited (demo_ast K)
           invited_out invited_end.2); [|exact invited_runs|reflexivity].
  apply NoDup_singleton.
Defined.

(** Account 9 changes its keys on an island that asks for proof. *)
Definition signed_change : ReissueIn :=
  mkReissueIn K_new K_fresh (Some 1) (Some "isle.example"%string) (Some K_old) (Some (3 * 86400)) (Some "AAAAAAAAAAAAAAAAAAAAAA"%string)
    (Some (b64encode (repeat 8 64))).

Lemma rekey_needs_old_key_witness :
  let s' := (demo_reissue (demo_aenv "open" true) signed_change 9 "phone" "t9/0" (demo_ast K)).2 in
  tables s' = demo_accounts K \/
  exists old_sk new_ik new_sk,
    decode_key32 (strip (i_identity_key signed_change)) = Some new_ik /\
    decode_key32 (strip (i_signing_key signed_change)) = Some new_sk /\
    old_key_signed demo_verify (demo_aenv "open" true) 9 (demo_accounts K) old_sk new_ik new_sk /\
    epoch_of (epoch_rows (tables s')) 9 = epoch_of (epoch_rows (demo_accounts K)) 9 + 1 /\
    (forall slot, (9, slot) ∉ vault_slots (tables s')) /\
    (old_sk <> new_sk -> forall e' k challenge signature dev',
       decode_key32 (strip k) = Some old_sk -> uin_for_signing_key (tables s') (strip k) = None ->
       verify_recover_challenge (ae_now e') challenge (strip k) = true ->
       signature_ok demo_verify (strip k) signature challenge = true ->
       (recover (R := store) (fun s => s) demo_sha demo_verify e' k challenge signature dev' s').1
         = Raise (HTTPExceptionN 404 "identity_rotated" 9)).
Proof. apply (rekey_needs_old_key (fun s => s) demo_sha demo_verify (demo_aenv "open" true) signed_change 9 "phone" "t9/0" (demo_ast K)). reflexivity. Defined.

(** The other devices of account 9, recovering with the key it left. *)
Example old_key_hears_rotated :
  let s' := (demo_reissue (demo_aenv "open" true) signed_change 9 "phone" "t9/0" (demo_ast K)).2 in
  (recover (R := store) (fun s => s) demo_sha demo_verify (demo_aenv "open" true) K_old ("r" ++ K_old)%string (b64encode (repeat 8 64)) None s').1
    = Raise (HTTPExceptionN 404 "identity_rotated" 9).
Proof. vm_compute. reflexivity. Qed.

(** It is the second case: the change went through. *)
Example signed_change_applied :
  let s' := (demo_reissue (demo_aenv "open" true) signed_change 9 "phone" "t9/0" (demo_ast K)).2 in
  signing_key_of (tables s') 9 = Some K_fresh /\ epoch_of (epoch_rows (tables s')) 9 = 1 /\
  frames s' = [VaultReset 9 (Some "phone"%string); KickUin 9].
Proof. vm_compute. repeat split. Qed.
(** A guest comes into account 5's room on a paid island. *)
Definition demo_with_room : ast store :=
  mkAst (on_acore (set_groups (fun _ => {[ 1 := mkGroup 5 "everyone" 0 0 (plain_info "harbour" 0 None 100) ]})) (demo_accounts K))
    (mkLimiter (∅ : store) ∅) [].
Definition visitor : GuestIn :=
  mkGuestIn 1 "Isle.example" 1 "visitor" K_new K_fresh ("g" ++ K_fresh)%string (b64encode (repeat 4 64)) None None.
Definition demo_guest_join := guest_join (R := store) (pretty : Z -> string) (fun a b => b) "k" (fun s => s) demo_sha demo_verify.
Definition visit_end : outcome SessionFor * ast store := demo_guest_join (demo_aenv "paid" false) visitor demo_with_room.
Definition visit_out : SessionFor := mkSessionFor 1234567 "t1234567/0" true None true.

Lemma visit_runs : demo_guest_join (demo_aenv "paid" false) visitor demo_with_room = (Ok visit_out, visit_end.2).
Proof.
  assert (H : visit_end.1 = Ok visit_out) by (vm_compute; reflexivity).
  change (visit_end = (Ok visit_out, visit_end.2)). destruct visit_end as [o x]. simpl in *. by subst.
Qed.

Lemma guest_admitted_witness :
  let d := tables demo_with_room in let d' := tables visit_end.2 in
  exists ik_raw sk_raw g u,
    guest_shown demo_verify (demo_aenv "paid" false) visitor ik_raw sk_raw /\ row_for_key d sk_raw false = None /\
    admits_guests (demo_aenv "paid" false) = true /\ takes_guest (demo_aenv "paid" false) (g_k visitor) (g_group_id visitor) g d /\
    ~ exists_row d (s_uin visit_out) /\ is_reserved_uin (s_uin visit_out) = false /\
    users (acore d') !! s_uin visit_out = Some u /\ guest_status u = Some STATUS_PROVEN /\
    signing_key_of d' (s_uin visit_out) = Some (strip (g_signing_key visitor)) /\
    group_members (acore d') = group_members (acore d) ++
      [mkGroupMember (g_group_id visitor) (s_uin visit_out) "member" "" (armed_join_stamp (ae_now (demo_aenv "paid" false)) g)].
Proof.
  apply (guest_admitted (R := store) (pretty : Z -> string) (fun a b => b) "k" (fun s => s) demo_sha demo_verify
           (demo_aenv "paid" false) visitor demo_with_room visit_out visit_end.2); [exact visit_runs|reflexivity].
Defined.
End demo.
