(* ===== verification/Vault.v ===== *)
(** * The vault

    Models [src/app/routers/vault.py] and [src/app/models/vault.py]: opaque
    slots per account, each with a version a writer has to name.  The handlers
    are functions on the table; [vstep] cuts them where another request can
    come in between (a creation counts the slots before it inserts, a delete
    reads the row before it updates it, a refused writer is told the version
    after the refusal) and interleaves them, together with what empties or
    moves a whole vault.

    The abstract side is a register that remembers everything ever written to
    it: a write names how many writes it has seen, and is taken only if that is
    all of them.  [vault_refines_register] says that the island is such a
    register. *)

From stdpp Require Import base list gmap strings pretty relations.
From Stdlib Require Import ZArith Lia Ascii.
From S2P Require Import Prelude Text Bytes Redis RateLimit KeyProof Door.

Record VaultSlot := mkVaultSlot { v_blob : option string; v_version : Z }.

(** [vault_slots], by its primary key (account, slot). *)
Notation vault := (gmap (Z * string) VaultSlot).

Definition MAX_BLOB_BYTES : Z := 256 * 1024.
Definition MAX_BLOB_B64 : Z := MAX_BLOB_BYTES * 4 / 3 + 4.
Definition MAX_SLOTS : Z := 32.
Definition DAILY_WRITE_BYTES : Z := 64 * 1024 * 1024.
Definition MAX_VERSION : Z := 2 ^ 62.

(** [_SLOT_RE] *)
Definition slot_re (s : string) : bool :=
  (String.length s =? 32)%nat && forallb is_hex (String.list_ascii_of_string s).

Record VaultPutIn := mkVaultPutIn { p_blob : string; p_version : Z }.

Definition strlen (s : string) : Z := Z.of_nat (String.length s).

Definition put_valid (b : VaultPutIn) : bool :=
  (strlen (p_blob b) <=? MAX_BLOB_B64) && (0 <=? p_version b) && (p_version b <=? MAX_VERSION).

Definition canonical_blob (raw : string) : outcome string :=
  let s := strip raw in
  if String.eqb s "" then Raise (HTTPException 400 "empty_blob")
  else if MAX_BLOB_B64 <? strlen s then Raise (HTTPException 413 "blob_too_large")
  else if negb (b64_valid s) then Raise (HTTPException 400 "bad_base64")
  else match b64decode_strict s with
       | None => Raise (HTTPException 400 "bad_base64")
       | Some data =>
           if bool_decide (data = []) then Raise (HTTPException 400 "empty_blob")
           else if MAX_BLOB_BYTES <? Z.of_nat (length data) then Raise (HTTPException 413 "blob_too_large")
           else Ok (b64encode data)
       end.

Definition current_version (d : vault) (uin : Z) (slot : string) : Z :=
  match d !! (uin, slot) with Some r => v_version r | None => 0 end.

Definition stale (current : Z) : exn := HTTPExceptionN 409 "stale" current.

(** [manager.send] of a [vault_changed] frame. *)
Record vault_changed := mkChanged { n_uin : Z; n_slot : string; n_version : Z; n_except : option string }.

Definition nudge (uin : Z) (slot : string) (version : Z) (writer : string) : vault_changed :=
  mkChanged uin slot version (if String.eqb writer "primary" then None else Some writer).

(** ** Reading *)

Definition live_slots (d : vault) (uin : Z) : list (string * Z) :=
  omap (fun '((u, s), r) => if (u =? uin) && bool_decide (is_Some (v_blob r)) then Some (s, v_version r) else None)
    (map_to_list d).

(** [ORDER BY slot]; slot names all have 32 characters. *)
Definition list_slots (d : vault) (uin : Z) : list (string * Z) := sort_by (fun x => os2ip (utf8 x.1)) (live_slots d uin).

Definition get_slot (d : vault) (slot : string) (uin : Z) : outcome (string * Z) :=
  match d !! (uin, slot) with
  | Some r => match v_blob r with
              | Some b => Ok (b, v_version r)
              | None => Raise (HTTPExceptionN 404 "no_slot" (v_version r))
              end
  | None => Raise (HTTPExceptionN 404 "no_slot" 0)
  end.

(** ** The statements that write *)

(** The check before a creation. *)
Definition may_create (d : vault) (uin : Z) (slot : string) : outcome unit :=
  if MAX_SLOTS <=? Z.of_nat (length (live_slots d uin)) then
    let current := current_version d uin slot in
    if negb (current =? 0) then Raise (stale current) else Raise (HTTPException 400 "slot_limit")
  else Ok tt.

(** The INSERT; [None]: the row exists. *)
Definition insert_slot (uin : Z) (slot blob : string) (d : vault) : option vault :=
  match d !! (uin, slot) with
  | Some _ => None
  | None => Some (<[(uin, slot) := mkVaultSlot (Some blob) 1]> d)
  end.

(** The UPDATE of a write; [None]: it matched no row. *)
Definition update_slot (uin : Z) (slot blob : string) (version : Z) (d : vault) : option vault :=
  match d !! (uin, slot) with
  | Some r => if v_version r =? version
              then Some (<[(uin, slot) := mkVaultSlot (Some blob) (version + 1)]> d) else None
  | None => None
  end.

(** The UPDATE of a delete. *)
Definition tombstone_slot (uin : Z) (slot : string) (version : Z) (d : vault) : option vault :=
  match d !! (uin, slot) with
  | Some r => if (v_version r =? version) && bool_decide (is_Some (v_blob r))
              then Some (<[(uin, slot) := mkVaultSlot None (version + 1)]> d) else None
  | None => None
  end.

(** A statement, and the answer to a writer it refused. *)
Definition or_stale (w : option vault) (uin : Z) (slot : string) (d : vault) : outcome vault :=
  match w with Some d' => Ok d' | None => Raise (stale (current_version d uin slot)) end.

(** ** The handlers *)

Section handlers.
Context {R : Type} `{RR : Redis R} (hmac_hex : string -> string -> string) (secret : string).

Definition put_slot (up : bool) (now : Z) (b : VaultPutIn) (slot : string) (uin : Z) (writer : string)
    (s : limiter R) (d : vault) : outcome Z * limiter R * vault * list vault_changed :=
  if negb (slot_re slot && put_valid b) then (Raise (HTTPException 422 "validation"), s, d, [])
  else match canonical_blob (p_blob b) with
  | Raise x => (Raise x, s, d, [])
  | Ok blob =>
      let '(paid, s) := enforce_cost_budget hmac_hex secret up now ("uin:" ++ pretty uin) "vault_bytes"
                          (strlen blob * 3 / 4) DAILY_WRITE_BYTES 86400 s in
      match paid with
      | Raise x => (Raise x, s, d, [])
      | Ok _ =>
          let written :=
            if p_version b =? 0 then
              let! _ := may_create d uin slot in
              or_stale (insert_slot uin slot blob d) uin slot d
            else or_stale (update_slot uin slot blob (p_version b) d) uin slot d in
          match written with
          | Ok d' => (Ok (p_version b + 1), s, d', [nudge uin slot (p_version b + 1) writer])
          | Raise x => (Raise x, s, d, [])
          end
      end
  end.

Definition delete_slot (slot : string) (version uin : Z) (writer : string) (d : vault)
    : outcome unit * vault * list vault_changed :=
  if negb (slot_re slot && (1 <=? version) && (version <=? MAX_VERSION))
  then (Raise (HTTPException 422 "validation"), d, [])
  else match get_slot d slot uin with
  | Raise _ => (Ok tt, d, [])
  | Ok _ =>
      match or_stale (tombstone_slot uin slot version d) uin slot d with
      | Ok d' => (Ok tt, d', [nudge uin slot (version + 1) writer])
      | Raise x => (Raise x, d, [])
      end
  end.

End handlers.

(** What a change of keys or a burn does to a vault, and a move to a new number
    (whose rows, if it has any, are cleared first). *)
Definition empty_vault (uin : Z) (d : vault) : vault := filter (fun '(k, _) => k.1 <> uin) d.

Definition renumber (old new : Z) (k : Z * string) : Z * string :=
  (if k.1 =? old then new else if k.1 =? new then old else k.1, k.2).
Definition move_vault (old new : Z) (d : vault) : vault := kmap (renumber old new) (empty_vault new d).

#[export] Instance renumber_inj old new : Inj eq eq (renumber old new).
Proof.
  intros [u s] [u' s']. unfold renumber. simpl. intros [= E ->]. f_equal.
  repeat match type of E with context [if ?b then _ else _] => destruct b eqn:? end; breflect; congruence.
Qed.

Lemma lookup_empty_vault d uin u s :
  empty_vault uin d !! (u, s) = if u =? uin then None else d !! (u, s).
Proof.
  unfold empty_vault. rewrite map_lookup_filter. destruct (d !! (u, s)); simpl; [|by case_match].
  case_guard; simpl in *; case_match; breflect; congruence.
Qed.

Lemma lookup_move_vault d old new u s :
  old <> new ->
  move_vault old new d !! (u, s) = if u =? new then d !! (old, s) else if u =? old then None else d !! (u, s).
Proof.
  intros Hne. unfold move_vault. assert (E : (u, s) = renumber old new (if u =? new then (old, s) else if u =? old then (new, s) else (u, s))).
  { unfold renumber. repeat (case_match; simpl in *; breflect); subst; try congruence; try lia. }
  rewrite E, lookup_kmap by apply _. repeat case_match; breflect; rewrite lookup_empty_vault; case_match; breflect; subst; congruence.
Qed.

(** ** Requests in flight

    [VCreate]: a creation that has passed the count; [VDelete]: a delete that
    has found the row; [VRefused]: a writer whose statement matched nothing and
    who is about to be told the version. *)
Inductive vpend :=
  | VCreate (uin : Z) (slot blob : string)
  | VDelete (uin : Z) (slot : string) (version : Z)
  | VRefused (uin : Z) (slot : string).

Record vstate := mkV { vs_tab : vault; vs_pend : list vpend }.

(** What can be seen of a step: an accepted write with the version it was based
    on ([None]: a delete); a read of version and content; the version a refused
    writer is told; a vault emptied; a vault moved. *)
Inductive vlabel :=
  | Wrote (uin : Z) (slot : string) (base : Z) (content : option string)
  | Read (uin : Z) (slot : string) (version : Z) (content : option string)
  | Told (uin : Z) (slot : string) (version : Z)
  | Emptied (uin : Z)
  | Moved (old new : Z)
  | Silent.

Definition content_of (d : vault) (uin : Z) (slot : string) : option string :=
  match d !! (uin, slot) with Some r => v_blob r | None => None end.

Inductive vstep : vstate -> vlabel -> vstate -> Prop :=
  | v_create d P uin slot raw blob :
      slot_re slot = true -> canonical_blob raw = Ok blob -> may_create d uin slot = Ok tt ->
      vstep (mkV d P) Silent (mkV d (VCreate uin slot blob :: P))
  | v_insert d P1 P2 uin slot blob d' :
      insert_slot uin slot blob d = Some d' ->
      vstep (mkV d (P1 ++ VCreate uin slot blob :: P2)) (Wrote uin slot 0 (Some blob)) (mkV d' (P1 ++ P2))
  | v_insert_refused d P1 P2 uin slot blob :
      insert_slot uin slot blob d = None ->
      vstep (mkV d (P1 ++ VCreate uin slot blob :: P2)) Silent (mkV d (P1 ++ VRefused uin slot :: P2))
  | v_update d P uin slot raw blob version d' :
      slot_re slot = true -> canonical_blob raw = Ok blob -> 0 < version <= MAX_VERSION ->
      update_slot uin slot blob version d = Some d' ->
      vstep (mkV d P) (Wrote uin slot version (Some blob)) (mkV d' P)
  | v_update_refused d P uin slot blob version :
      0 < version <= MAX_VERSION -> update_slot uin slot blob version d = None ->
      vstep (mkV d P) Silent (mkV d (VRefused uin slot :: P))
  | v_find d P uin slot version x :
      slot_re slot = true -> 1 <= version <= MAX_VERSION -> get_slot d slot uin = Ok x ->
      vstep (mkV d P) Silent (mkV d (VDelete uin slot version :: P))
  | v_tombstone d P1 P2 uin slot version d' :
      tombstone_slot uin slot version d = Some d' ->
      vstep (mkV d (P1 ++ VDelete uin slot version :: P2)) (Wrote uin slot version None) (mkV d' (P1 ++ P2))
  | v_tombstone_refused d P1 P2 uin slot version :
      tombstone_slot uin slot version d = None ->
      vstep (mkV d (P1 ++ VDelete uin slot version :: P2)) Silent (mkV d (P1 ++ VRefused uin slot :: P2))
  | v_told d P1 P2 uin slot :
      vstep (mkV d (P1 ++ VRefused uin slot :: P2)) (Told uin slot (current_version d uin slot)) (mkV d (P1 ++ P2))
  | v_read d P uin slot :
      vstep (mkV d P) (Read uin slot (current_version d uin slot) (content_of d uin slot)) (mkV d P)
  | v_empty d P uin : vstep (mkV d P) (Emptied uin) (mkV (empty_vault uin d) P)
  | v_move d P old new : old <> new -> vstep (mkV d P) (Moved old new) (mkV (move_vault old new d) P)
  (* a request whose worker dies, anywhere *)
  | v_dies d P1 P2 q : vstep (mkV d (P1 ++ q :: P2)) Silent (mkV d (P1 ++ P2)).

Inductive vtrace : vstate -> list vlabel -> vstate -> Prop :=
  | vt_nil s : vtrace s [] s
  | vt_cons s l s1 t s2 : vstep s l s1 -> vtrace s1 t s2 -> vtrace s (l :: t) s2.

(** ** The abstract register

    Every account has a vault, a new one after its vault was emptied or carried
    off to another number; each slot of a vault is the list of everything
    written to it ([None]: a deletion), oldest first.  A vault is named by the
    account it was made for and a generation. *)
Notation vault_id := (Z * nat)%type.
Record ledger := mkLedger {
  g_vault : gmap Z vault_id;
  g_next : nat;
  g_hist : gmap (vault_id * string) (list (option string))
}.

Definition vault_of (g : ledger) (uin : Z) : vault_id := default (uin, O) (g_vault g !! uin).
Definition past (g : ledger) (uin : Z) (slot : string) : list (option string) :=
  default [] (g_hist g !! (vault_of g uin, slot)).
Definition seen (l : list (option string)) : Z := Z.of_nat (length l).

Definition g_wrote (g : ledger) (uin : Z) (slot : string) (content : option string) : ledger :=
  mkLedger (g_vault g) (g_next g) (<[(vault_of g uin, slot) := past g uin slot ++ [content]]> (g_hist g)).
Definition g_emptied (g : ledger) (uin : Z) : ledger :=
  mkLedger (<[uin := (uin, g_next g)]> (g_vault g)) (S (g_next g)) (g_hist g).
Definition g_moved (g : ledger) (old new : Z) : ledger :=
  mkLedger (<[old := (old, g_next g)]> (<[new := vault_of g old]> (g_vault g))) (S (g_next g)) (g_hist g).

Inductive gstep : ledger -> vlabel -> ledger -> Prop :=
  | g_write g uin slot content :
      gstep g (Wrote uin slot (seen (past g uin slot)) content) (g_wrote g uin slot content)
  | g_read g uin slot :
      gstep g (Read uin slot (seen (past g uin slot)) (default None (last (past g uin slot)))) g
  | g_told g uin slot : gstep g (Told uin slot (seen (past g uin slot))) g
  | g_empty g uin : gstep g (Emptied uin) (g_emptied g uin)
  | g_move g old new : old <> new -> gstep g (Moved old new) (g_moved g old new)
  | g_silent g : gstep g Silent g.

Inductive gtrace : ledger -> list vlabel -> ledger -> Prop :=
  | gt_nil g : gtrace g [] g
  | gt_cons g l g1 t g2 : gstep g l g1 -> gtrace g1 t g2 -> gtrace g (l :: t) g2.

(** *** The simulation *)

(** The row a history is stored as. *)
Definition row_of (l : list (option string)) : option VaultSlot :=
  match l with [] => None | _ => Some (mkVaultSlot (default None (last l)) (seen l)) end.

Record names_ok (g : ledger) : Prop := {
  nm_inj : forall u u', vault_of g u = vault_of g u' -> u = u';
  nm_old : forall u, ((vault_of g u).2 < g_next g)%nat;
  nm_fresh : forall u n s, (g_next g <= n)%nat -> g_hist g !! ((u, n), s) = None
}.

Definition sim (d : vault) (g : ledger) : Prop :=
  names_ok g /\ forall u s, d !! (u, s) = row_of (past g u s).

Lemma row_of_snoc l c : row_of (l ++ [c]) = Some (mkVaultSlot c (seen l + 1)).
Proof.
  unfold row_of. destruct (l ++ [c]) eqn:E; [by destruct l|]. rewrite <-E, last_snoc. unfold seen. rewrite length_app.
  simpl. do 2 f_equal. lia.
Qed.

Lemma row_of_facts l :
  match row_of l with Some r => v_version r | None => 0 end = seen l /\
  match row_of l with Some r => v_blob r | None => None end = default None (last l).
Proof. by destruct l. Qed.

Lemma sim_version d g u s : sim d g -> current_version d u s = seen (past g u s).
Proof. intros [_ H]. unfold current_version. rewrite H. apply row_of_facts. Qed.
Lemma sim_content d g u s : sim d g -> content_of d u s = default None (last (past g u s)).
Proof. intros [_ H]. unfold content_of. rewrite H. apply row_of_facts. Qed.

Lemma past_wrote g u s c u' s' :
  names_ok g -> past (g_wrote g u s c) u' s' = if decide ((u', s') = (u, s)) then past g u s ++ [c] else past g u' s'.
Proof.
  intros Hn. unfold past, g_wrote, vault_of. simpl. rewrite lookup_insert. case_decide as E; [|by rewrite decide_False by congruence].
  injection E as E ->. apply (nm_inj _ Hn) in E as ->. by rewrite decide_True.
Qed.

Lemma sim_wrote d g u s c :
  sim d g -> sim (<[(u, s) := mkVaultSlot c (seen (past g u s) + 1)]> d) (g_wrote g u s c).
Proof.
  intros [Hn H]. split.
  - destruct Hn as [H1 H2 H3]. split; [exact H1|exact H2|]. intros u' n s' Hle. simpl. rewrite lookup_insert_ne; [by apply H3|].
    intros [= E _]. specialize (H2 u). rewrite E in H2. simpl in *. lia.
  - intros u' s'. rewrite past_wrote by done. rewrite lookup_insert. case_decide as E.
    + injection E as <- <-. rewrite decide_True by done. by rewrite row_of_snoc.
    + rewrite decide_False by congruence. apply H.
Qed.

Lemma vault_of_emptied g u u' : vault_of (g_emptied g u) u' = if u' =? u then (u, g_next g) else vault_of g u'.
Proof. unfold vault_of, g_emptied. simpl. rewrite lookup_insert. case_decide; case_match; breflect; subst; simpl; congruence. Qed.

Lemma vault_of_moved g old new u :
  old <> new ->
  vault_of (g_moved g old new) u = if u =? old then (old, g_next g) else if u =? new then vault_of g old else vault_of g u.
Proof.
  intros Hne. unfold vault_of at 1, g_moved. simpl. rewrite !lookup_insert. unfold vault_of.
  repeat case_decide; repeat case_match; breflect; subst; simpl; congruence.
Qed.

Lemma names_emptied g u : names_ok g -> names_ok (g_emptied g u).
Proof.
  intros [H1 H2 H3]. split.
  - intros a b. rewrite !vault_of_emptied.
    repeat case_match; breflect; subst; intros E; auto.
    + specialize (H2 b). rewrite <-E in H2. simpl in H2. lia.
    + specialize (H2 a). rewrite E in H2. simpl in H2. lia.
  - intros a. rewrite vault_of_emptied. simpl. specialize (H2 a). case_match; simpl; lia.
  - intros a n s Hle. simpl in *. apply H3. lia.
Qed.

Lemma names_moved g old new : old <> new -> names_ok g -> names_ok (g_moved g old new).
Proof.
  intros Hne [H1 H2 H3]. split.
  - intros a b. rewrite !vault_of_moved by done.
    repeat (case_match; breflect; subst); intros E; try congruence; try (by apply H1 in E; congruence); try (by apply H1);
      exfalso; match type of E with _ = vault_of g ?b => specialize (H2 b); rewrite <-E in H2
        | vault_of g ?b = _ => specialize (H2 b); rewrite E in H2 end; simpl in *; lia.
  - intros a. rewrite vault_of_moved by done. simpl. pose proof (H2 a). pose proof (H2 old). repeat case_match; simpl; lia.
  - intros a n s Hle. simpl in *. apply H3. lia.
Qed.

Lemma past_fresh g g' u s :
  names_ok g -> g_hist g' = g_hist g -> vault_of g' u = (u, g_next g) -> past g' u s = [].
Proof. intros Hn E1 E2. unfold past. rewrite E1, E2. by rewrite (nm_fresh _ Hn). Qed.

Lemma past_same g g' u u' s : g_hist g' = g_hist g -> vault_of g' u = vault_of g u' -> past g' u s = past g u' s.
Proof. unfold past. by intros -> ->. Qed.

Lemma sim_emptied d g u : sim d g -> sim (empty_vault u d) (g_emptied g u).
Proof.
  intros [Hn H]. split; [by apply names_emptied|]. intros u' s. rewrite lookup_empty_vault.
  pose proof (vault_of_emptied g u u') as E. case_match; breflect; subst.
  - by rewrite (past_fresh g).
  - rewrite H. f_equal. symmetry. by apply past_same.
Qed.

Lemma sim_moved d g old new : old <> new -> sim d g -> sim (move_vault old new d) (g_moved g old new).
Proof.
  intros Hne [Hn H]. split; [by apply names_moved|]. intros u s. rewrite lookup_move_vault by done.
  pose proof (vault_of_moved g old new u Hne) as E. destruct (Z.eqb_spec u new), (Z.eqb_spec u old); subst; try done.
  - rewrite H. f_equal. symmetry. by apply past_same.
  - by rewrite (past_fresh g).
  - rewrite H. f_equal. symmetry. by apply past_same.
Qed.

Lemma insert_slot_inv uin slot blob d d' g :
  sim d g -> insert_slot uin slot blob d = Some d' ->
  seen (past g uin slot) = 0 /\ sim d' (g_wrote g uin slot (Some blob)).
Proof.
  intros Hs. unfold insert_slot. destruct (d !! (uin, slot)) eqn:E; [done|]. intros [= <-].
  pose proof (sim_version d g uin slot Hs) as Hv. unfold current_version in Hv. rewrite E in Hv. split; [done|].
  pose proof (sim_wrote d g uin slot (Some blob) Hs) as Hw. by rewrite <-Hv in Hw.
Qed.

Lemma update_slot_inv uin slot blob v d d' g :
  sim d g -> update_slot uin slot blob v d = Some d' ->
  v = seen (past g uin slot) /\ sim d' (g_wrote g uin slot (Some blob)).
Proof.
  intros Hs. unfold update_slot. destruct (d !! (uin, slot)) as [r|] eqn:E; [|done].
  destruct (Z.eqb_spec (v_version r) v) as [<-|]; [|done]. intros [= <-].
  pose proof (sim_version d g uin slot Hs) as Hv. unfold current_version in Hv. rewrite E in Hv. split; [done|].
  rewrite Hv. by apply sim_wrote.
Qed.

Lemma tombstone_slot_inv uin slot v d d' g :
  sim d g -> tombstone_slot uin slot v d = Some d' ->
  v = seen (past g uin slot) /\ sim d' (g_wrote g uin slot None).
Proof.
  intros Hs. unfold tombstone_slot. destruct (d !! (uin, slot)) as [r|] eqn:E; [|done].
  destruct (Z.eqb_spec (v_version r) v) as [<-|]; [|done]. simpl. case_match; [|done]. intros [= <-].
  pose proof (sim_version d g uin slot Hs) as Hv. unfold current_version in Hv. rewrite E in Hv. split; [done|].
  rewrite Hv. by apply sim_wrote.
Qed.

Lemma vstep_refines s l s' g :
  vstep s l s' -> sim (vs_tab s) g -> exists g', gstep g l g' /\ sim (vs_tab s') g'.
Proof.
  destruct 1; simpl; intros Hs; try (exists g; split; [constructor|done]).
  - eapply insert_slot_inv in H as [E1 E2]; [|done]. eexists. split; [|exact E2]. rewrite <-E1. constructor.
  - match goal with H : update_slot _ _ _ _ _ = _ |- _ => eapply update_slot_inv in H as [-> E2]; [|done] end. eexists. split; [|exact E2]. constructor.
  - eapply tombstone_slot_inv in H as [-> E2]; [|done]. eexists. split; [|exact E2]. constructor.
  - exists g. split; [|done]. rewrite (sim_version _ _ _ _ Hs). constructor.
  - exists g. split; [|done]. rewrite (sim_version _ _ _ _ Hs), (sim_content _ _ _ _ Hs). constructor.
  - eexists. split; [constructor|by apply sim_emptied].
  - eexists. split; [by constructor|by apply sim_moved].
Qed.

(** An initial register for a table: all that is known of the past of a slot is
    how much of it there is and how it ended. *)
Definition vault_wf (d : vault) : Prop := forall k r, d !! k = Some r -> 1 <= v_version r.

Definition first_vault (k : Z * string) : vault_id * string := ((k.1, O), k.2).
Definition ledger_of (d : vault) : ledger :=
  mkLedger ∅ 1 (kmap first_vault
    ((fun r => replicate (Z.to_nat (v_version r) - 1) None ++ [v_blob r]) <$> d)).

Lemma sim_start d : vault_wf d -> sim d (ledger_of d).
Proof.
  intros Hd. assert (Inj eq eq first_vault) by (intros [] []; unfold first_vault; naive_solver).
  assert (Hl : forall u s, g_hist (ledger_of d) !! ((u, O), s) =
                 (fun r => replicate (Z.to_nat (v_version r) - 1) None ++ [v_blob r]) <$> d !! (u, s)).
  { intros u s. unfold ledger_of. simpl. change ((u, O), s) with (first_vault (u, s)). rewrite lookup_kmap by done. apply lookup_fmap. }
  split; [split|].
  - intros u u' E. by injection E.
  - intros u. change (0 < 1)%nat. lia.
  - intros u n s Hn. simpl in *. apply lookup_kmap_None; [done|]. intros [u' s'] E. unfold first_vault in E. simplify_eq. lia.
  - intros u s. unfold past. change (vault_of (ledger_of d) u) with (u, O). rewrite Hl.
    destruct (d !! (u, s)) as [r|] eqn:E; [|done]. simpl. rewrite row_of_snoc. f_equal. destruct r as [b v]. simpl. f_equal.
    unfold seen. rewrite length_replicate. apply Hd in E. simpl in E. lia.
Qed.

Lemma vault_refines_run d P t s :
  vault_wf d -> vtrace (mkV d P) t s -> exists g, gtrace (ledger_of d) t g /\ sim (vs_tab s) g.
Proof.
  intros Hd Ht. assert (Hs : sim (vs_tab (mkV d P)) (ledger_of d)) by by apply sim_start.
  revert Hs. generalize (ledger_of d). induction Ht as [s|s l s1 t s2 Hst _ IH]; intros g Hs.
  - exists g. split; [constructor|done].
  - destruct (vstep_refines _ _ _ _ Hst Hs) as (g1 & Hg & Hs1). destruct (IH _ Hs1) as (g2 & Hg2 & Hs2).
    exists g2. split; [by econstructor|done].
Qed.

(** C31. The vault is a register nobody writes to blindly.  Whatever requests are in
    flight, in every interleaving, and whatever reissues, burns and moves
    happen, what clients see of the vault is what they could see of a register
    that keeps everything ever written to a slot: a write or a delete is taken
    only if the version it names is the number of writes so far, so its author
    has seen the last one; a read returns that number and the last content;
    a refused writer is told that number. *)
Theorem vault_refines_register d P t s :
  vault_wf d -> vtrace (mkV d P) t s -> exists g, gtrace (ledger_of d) t g /\ sim (vs_tab s) g.
Proof. apply vault_refines_run. Qed.

(** *** What the register promises *)

(** A step that gives the account another vault. *)
Definition replaces (u : Z) (l : vlabel) : Prop :=
  match l with Emptied v => v = u | Moved a b => a = u \/ b = u | _ => False end.

Lemma gstep_grows g l g' u s :
  gstep g l g' -> names_ok g -> ~ replaces u l -> vault_of g' u = vault_of g u /\ past g u s `prefix_of` past g' u s.
Proof.
  intros Hg Hn Hr. destruct Hg as [g w t c| | |g w|g a b Hab|]; try done.
  - split; [done|]. rewrite past_wrote by done. case_decide as E; [|done]. injection E as -> ->. by apply prefix_app_r.
  - simpl in Hr. assert (E : vault_of (g_emptied g w) u = vault_of g u)
      by (rewrite vault_of_emptied; case_match; breflect; [congruence|done]). split; [done|]. by rewrite (past_same g (g_emptied g w) u u s eq_refl E).
  - simpl in Hr. assert (E : vault_of (g_moved g a b) u = vault_of g u)
      by (rewrite vault_of_moved by done; repeat case_match; breflect; first [done|exfalso; apply Hr; by auto]). split; [done|]. by rewrite (past_same g (g_moved g a b) u u s eq_refl E).
Qed.

Lemma gstep_names g l g' : gstep g l g' -> names_ok g -> names_ok g'.
Proof.
  destruct 1; intros Hn; auto using names_emptied, names_moved.
  destruct Hn as [H1 H2 H3]. split; [exact H1|exact H2|]. intros u' n s' Hle. simpl. rewrite lookup_insert_ne; [by apply H3|].
  intros [= E _]. specialize (H2 uin). rewrite E in H2. simpl in *. lia.
Qed.

Lemma gtrace_app g t1 t2 g2 : gtrace g (t1 ++ t2) g2 -> exists g1, gtrace g t1 g1 /\ gtrace g1 t2 g2.
Proof.
  revert g. induction t1 as [|l t1 IH]; intros g; simpl; [exists g; split; [constructor|done]|].
  inversion 1; subst. edestruct IH as (g' & ? & ?); [done|]. exists g'. split; [by econstructor|done].
Qed.

Lemma gtrace_names g t g' : gtrace g t g' -> names_ok g -> names_ok g'.
Proof. induction 1; eauto using gstep_names. Qed.

Lemma gtrace_grows g t g' u s :
  gtrace g t g' -> names_ok g -> Forall (fun l => ~ replaces u l) t -> names_ok g' /\ past g u s `prefix_of` past g' u s.
Proof.
  induction 1 as [|g l g1 t g2 Hst _ IH]; intros Hn Hf; [done|]. apply Forall_cons in Hf as [Hl Hf].
  destruct (gstep_grows _ _ _ u s Hst Hn Hl). destruct (IH (gstep_names _ _ _ Hst Hn) Hf) as [? ?]. split; [done|]. by etrans.
Qed.

(** A version names one content.  If a device reads a slot twice and sees the
    same version, it has read the same content, whatever was written, deleted
    or written anew in between, as long as the account kept its vault: a
    version is never used again.  And what it reads later is never older. *)
Theorem version_names_content d P t u slot v1 c1 mid v2 c2 rest s :
  vault_wf d -> vtrace (mkV d P) (t ++ Read u slot v1 c1 :: mid ++ Read u slot v2 c2 :: rest) s ->
  Forall (fun l => ~ replaces u l) mid ->
  v1 <= v2 /\ (v1 = v2 -> c1 = c2).
Proof.
  intros Hd Ht Hmid. destruct (vault_refines_run d P _ s Hd Ht) as (g & Hg & _).
  apply gtrace_app in Hg as (g1 & Hg1 & Hg). inversion Hg as [|? ? g2 ? ? Hr1 Hg']; subst. inversion Hr1; subst.
  apply gtrace_app in Hg' as (g3 & Hg3 & Hg'). inversion Hg' as [|? ? g4 ? ? Hr2 _]; subst. inversion Hr2; subst.
  assert (Hn : names_ok g2) by (eapply gtrace_names; [exact Hg1|]; apply (sim_start d Hd)).
  destruct (gtrace_grows _ _ _ u slot Hg3 Hn Hmid) as [_ [k E]]. rewrite E. unfold seen. rewrite length_app. split; [lia|].
  intros El. assert (k = []) as -> by (destruct k; [done|simpl in El; lia]). by rewrite app_nil_r.
Qed.

(** ** What is stored *)

(** A stored blob is the one base64 text of at least one and at most
    [MAX_BLOB_BYTES] bytes. *)
Definition sealed (b : string) : Prop :=
  exists data, bytes_ok data /\ b = b64encode data /\ data <> [] /\ Z.of_nat (length data) <= MAX_BLOB_BYTES.

Lemma canonical_blob_sealed raw b : canonical_blob raw = Ok b -> sealed b.
Proof.
  unfold canonical_blob. case_match; [done|]. case_match; [done|]. case_match; [done|].
  destruct (b64decode_strict (strip raw)) as [data|] eqn:E; [|done]. case_bool_decide; [done|]. case_match; [done|]. intros [= <-].
  breflect. exists data. split_and!; [|done|done|lia]. unfold b64decode_strict in E. case_match; [|done]. by eapply b64decode_ok.
Qed.

Definition row_ok (k : Z * string) (r : VaultSlot) : Prop :=
  slot_re k.2 = true /\ 1 <= v_version r <= MAX_VERSION + 1 /\ forall b, v_blob r = Some b -> sealed b.
Definition pend_ok (q : vpend) : Prop :=
  match q with
  | VCreate _ slot blob => slot_re slot = true /\ sealed blob
  | VDelete _ slot version => slot_re slot = true /\ 1 <= version <= MAX_VERSION
  | VRefused _ _ => True
  end.
Definition vstate_ok (s : vstate) : Prop := map_Forall row_ok (vs_tab s) /\ Forall pend_ok (vs_pend s).

Lemma pend_mid q P1 P2 : Forall pend_ok (P1 ++ q :: P2) -> pend_ok q /\ Forall pend_ok (P1 ++ P2).
Proof. rewrite !Forall_app, Forall_cons. tauto. Qed.
Lemma pend_swap q q' P1 P2 : Forall pend_ok (P1 ++ q :: P2) -> pend_ok q' -> Forall pend_ok (P1 ++ q' :: P2).
Proof. rewrite !Forall_app, !Forall_cons. tauto. Qed.

Lemma row_ok_insert (d : vault) u s r : map_Forall row_ok d -> row_ok (u, s) r -> map_Forall row_ok (<[(u, s) := r]> d).
Proof. intros Hd Hr. by apply map_Forall_insert_2. Qed.

Lemma row_ok_move (old new : Z) (d : vault) : map_Forall row_ok d -> map_Forall row_ok (move_vault old new d).
Proof.
  intros Hd k r Hr. apply (lookup_kmap_Some (renumber old new)) in Hr as ([u s] & -> & Hr).
  apply map_lookup_filter_Some in Hr as [Hr _]. exact (Hd (u, s) r Hr).
Qed.

Lemma vstep_ok s l s' : vstep s l s' -> vstate_ok s -> vstate_ok s'.
Proof.
  intros Hst [Hd HP]. pose proof HP as HP0. destruct Hst; simpl in *; try (apply pend_mid in HP as [Hq HP']); split; simpl; auto.
  - constructor; [|done]. split; [done|]. by eapply canonical_blob_sealed.
  - unfold insert_slot in H. case_match; [done|]. injection H as <-. destruct Hq. apply row_ok_insert; [done|].
    split_and!; simpl; [done|lia|unfold MAX_VERSION; lia|by intros ? [= <-]].
  - by eapply pend_swap in HP0.
  - unfold update_slot in H2. case_match; [|done]. case_match; [|done]. injection H2 as <-. apply row_ok_insert; [done|].
    split_and!; simpl; [done|lia|lia|intros ? [= <-]; by eapply canonical_blob_sealed].
  - by constructor.
  - by constructor.
  - unfold tombstone_slot in H. case_match; [|done]. case_match; [|done]. injection H as <-. destruct Hq. apply row_ok_insert; [done|].
    split_and!; simpl; [done|lia|lia|done].
  - by eapply pend_swap in HP0.
  - intros k r [Hr _]%map_lookup_filter_Some. by apply Hd.
  - by apply row_ok_move.
Qed.

Lemma vtrace_ok s t s' : vtrace s t s' -> vstate_ok s -> vstate_ok s'.
Proof. induction 1; eauto using vstep_ok. Qed.

(** What the vault holds is well formed through any run: slot names are 32
    hexadecimal digits, versions are positive and stay within 64 bits, and a
    blob is base64 that decodes, strictly, to between one byte and 256 KiB. *)
Theorem vault_stored_ok s t s' uin slot b v :
  vstate_ok s -> vtrace s t s' -> get_slot (vs_tab s') slot uin = Ok (b, v) ->
  slot_re slot = true /\ 1 <= v < 2 ^ 63 /\
  exists data, b64decode_strict b = Some data /\ 1 <= Z.of_nat (length data) <= MAX_BLOB_BYTES.
Proof.
  intros Hs Ht. pose proof (vtrace_ok _ _ _ Ht Hs) as [Hd _]. unfold get_slot.
  destruct (vs_tab s' !! (uin, slot)) as [r|] eqn:E; [|done]. destruct (v_blob r) as [b'|] eqn:Eb; [|done]. intros [= -> <-].
  destruct (Hd _ _ E) as (H1 & H2 & H3). destruct (H3 _ Eb) as (data & Hok & -> & Hne & Hl). simpl in H1.
  split_and!; [done|lia|unfold MAX_VERSION in *; lia|]. exists data. split; [by apply b64_strict_encode|].
  destruct data; [done|]. cbn [length] in *. lia.
Qed.

(** ** The handlers *)

Lemma version_zero d uin slot : vault_wf d -> current_version d uin slot = 0 <-> d !! (uin, slot) = None.
Proof.
  intros Hd. unfold current_version. destruct (d !! (uin, slot)) as [r|] eqn:E; [|done]. apply Hd in E. split; [lia|done].
Qed.

Section handlers_facts.
Context {R : Type} `{RR : Redis R} (hmac_hex : string -> string -> string) (secret : string).
Let put := put_slot hmac_hex secret.

(** Exactly the writer who names the current version is accepted (a new slot
    only below the cap), and then the slot moves to the next version and the
    other devices are told; everybody else changes nothing and hears the current
    version, or that there is no room for a new slot. *)
Theorem put_slot_spec up now b slot uin writer s s1 d blob :
  vault_wf d -> slot_re slot = true -> put_valid b = true -> canonical_blob (p_blob b) = Ok blob ->
  enforce_cost_budget hmac_hex secret up now ("uin:" ++ pretty uin) "vault_bytes" (strlen blob * 3 / 4)
    DAILY_WRITE_BYTES 86400 s = (Ok tt, s1) ->
  let cur := current_version d uin slot in
  put up now b slot uin writer s d =
    if negb (p_version b =? cur) then (Raise (stale cur), s1, d, [])
    else if (cur =? 0) && (MAX_SLOTS <=? Z.of_nat (length (live_slots d uin)))
    then (Raise (HTTPException 400 "slot_limit"), s1, d, [])
    else (Ok (cur + 1), s1, <[(uin, slot) := mkVaultSlot (Some blob) (cur + 1)]> d, [nudge uin slot (cur + 1) writer]).
Proof.
  intros Hd Hs Hv Hb Hc. cbv zeta. unfold put, put_slot. rewrite Hs, Hv, Hb, Hc. simpl.
  pose proof (version_zero d uin slot Hd) as Hz. set (cur := current_version d uin slot) in *.
  destruct (Z.eqb_spec (p_version b) 0) as [E0|E0].
  - rewrite E0. unfold may_create. fold cur. destruct (Z.eqb_spec 0 cur) as [<-|Hne].
    + unfold insert_slot. rewrite (proj1 Hz eq_refl), Z.eqb_refl. cbn [negb andb]. by destruct (MAX_SLOTS <=? _).
    + assert (cur =? 0 = false) as -> by lia. cbn [negb andb]. destruct (MAX_SLOTS <=? _); [done|]. simpl. unfold insert_slot.
      destruct (d !! (uin, slot)) eqn:E; [done|]. exfalso. apply Hne. symmetry. by apply Hz.
  - unfold update_slot. destruct (Z.eqb_spec (p_version b) cur) as [E|E]; simpl.
    + assert (cur =? 0 = false) as -> by lia. simpl. rewrite E. unfold cur, current_version in E0, E |- *.
      destruct (d !! (uin, slot)) as [r|]; [|lia]. by rewrite Z.eqb_refl.
    + unfold or_stale. fold cur. unfold cur, current_version in E. destruct (d !! (uin, slot)) as [r|]; [|done].
      assert (v_version r =? p_version b = false) as -> by lia. done.
Qed.

(** A delete of what is not there is a success that changes nothing; otherwise
    exactly the one who names the current version is accepted, and leaves a
    tombstone at the next. *)
Theorem delete_slot_spec slot version uin writer d :
  slot_re slot = true -> 1 <= version <= MAX_VERSION ->
  let cur := current_version d uin slot in
  delete_slot slot version uin writer d =
    match content_of d uin slot with
    | None => (Ok tt, d, [])
    | Some _ => if version =? cur
                then (Ok tt, <[(uin, slot) := mkVaultSlot None (cur + 1)]> d, [nudge uin slot (cur + 1) writer])
                else (Raise (stale cur), d, [])
    end.
Proof.
  intros Hs Hv. cbv zeta. unfold delete_slot, get_slot, content_of, current_version, tombstone_slot. rewrite Hs.
  assert ((1 <=? version) && (version <=? MAX_VERSION) = true) as Hvv by lia. simpl. rewrite Hvv. simpl.
  destruct (d !! (uin, slot)) as [r|] eqn:E; [|done]. destruct (v_blob r) as [b|] eqn:Eb; [|done].
  unfold current_version. rewrite (Z.eqb_sym version), bool_decide_eq_true_2, andb_true_r by done.
  destruct (Z.eqb_spec (v_version r) version) as [<-|]; simpl; [done|]. unfold current_version. by rewrite E.
Qed.

(** The handlers alone are runs of the step relation. *)
Lemma put_slot_steps up now b slot uin writer s d o s' d' evs :
  put up now b slot uin writer s d = (o, s', d', evs) -> exists t P, vtrace (mkV d []) t (mkV d' P).
Proof.
  unfold put, put_slot. destruct (slot_re slot) eqn:Hs; [|intros [= _ _ <- _]; eexists [], []; constructor].
  destruct (put_valid b) eqn:Hv; [|intros [= _ _ <- _]; eexists [], []; constructor]. simpl.
  destruct (canonical_blob (p_blob b)) as [blob|] eqn:Hb; [|intros [= _ _ <- _]; eexists [], []; constructor].
  destruct (enforce_cost_budget _ _ _ _ _ _ _ _ _ _) as [[]]; [|intros [= _ _ <- _]; eexists [], []; constructor].
  unfold put_valid in Hv. destruct (Z.eqb_spec (p_version b) 0) as [E0|E0].
  - destruct (may_create d uin slot) as [[]|] eqn:Hm; simpl; [|intros [= _ _ <- _]; eexists [], []; constructor].
    destruct (insert_slot uin slot blob d) as [d1|] eqn:Hi; simpl; [|intros [= _ _ <- _]; eexists [], []; constructor].
    intros [= _ _ <- _]. exists [Silent; Wrote uin slot 0 (Some blob)], []. econstructor; [by eapply v_create|].
    econstructor; [by apply (v_insert _ [] [])|constructor].
  - destruct (update_slot uin slot blob (p_version b) d) as [d1|] eqn:Hu; simpl; [|intros [= _ _ <- _]; eexists [], []; constructor].
    intros [= _ _ <- _]. exists [Wrote uin slot (p_version b) (Some blob)], [].
    econstructor; [eapply v_update; [done|done|lia|done]|constructor].
Qed.

End handlers_facts.

(** ** On a concrete vault *)

Lemma some_taken {A} (x : option A) (y : A) : (if x then true else false) = true -> x = Some (default y x).
Proof. by destruct x. Qed.
Lemma none_taken {A} (x : option A) : (if x then true else false) = false -> x = None.
Proof. by destruct x. Qed.
Lemma v_told_at d P1 P2 uin slot v :
  current_version d uin slot = v -> vstep (mkV d (P1 ++ VRefused uin slot :: P2)) (Told uin slot v) (mkV d (P1 ++ P2)).
Proof. intros <-. constructor. Qed.
Lemma v_read_at d P uin slot v c :
  current_version d uin slot = v -> content_of d uin slot = c -> vstep (mkV d P) (Read uin slot v c) (mkV d P).
Proof. intros <- <-. constructor. Qed.

Section demo.
Let put := put_slot (R := store) (fun k x => x) "k" true 0.
Let lim0 : limiter store := mkLimiter ∅ ∅.
Definition demo_slot (n : Z) : string := hexdigest (replicate 15 0 ++ [n]).

Definition demo_put (n version : Z) (d : vault) : vault :=
  match put (mkVaultPutIn "AQI=" version) (demo_slot n) 7 "phone" lim0 d with (_, _, d', _) => d' end.
Definition demo_delete (n version : Z) (d : vault) : vault := (delete_slot (demo_slot n) version 7 "phone" d).1.2.
Definition full_vault : vault := foldr (fun n => demo_put (Z.of_nat n) 0) ∅ (seq 0 32).

(** The ceiling on live slots is none: a tombstone does not count against it
    and writing over one does not look at it, so delete one slot of a full
    vault, create another, and write the first anew. *)
Theorem slot_cap_outgrown :
  Z.of_nat (length (live_slots full_vault 7)) = MAX_SLOTS /\
  Z.of_nat (length (live_slots (demo_put 0 2 (demo_put 99 0 (demo_delete 0 1 full_vault))) 7)) = MAX_SLOTS + 1.
Proof. by vm_compute. Qed.

Definition one_slot : vault := demo_put 1 0 ∅.

Definition deleted_slot : vault := default ∅ (tombstone_slot 7 (demo_slot 1) 1 one_slot).

(** Two devices that delete a slot at once do not both succeed: both find the
    row, and the one whose UPDATE comes second is refused. *)
Theorem concurrent_delete_refused :
  vtrace (mkV one_slot [])
    [Silent; Silent; Wrote 7 (demo_slot 1) 1 None; Silent; Told 7 (demo_slot 1) 2] (mkV deleted_slot []) /\
  content_of deleted_slot 7 (demo_slot 1) = None.
Proof.
  split; [|by vm_compute].
  econstructor; [apply (v_find _ _ 7 (demo_slot 1) 1 ("AQI="%string, 1)); by vm_compute|].
  econstructor; [apply (v_find _ _ 7 (demo_slot 1) 1 ("AQI="%string, 1)); by vm_compute|].
  econstructor; [apply (v_tombstone one_slot [] [VDelete 7 (demo_slot 1) 1] 7 (demo_slot 1) 1 deleted_slot); by apply some_taken; vm_compute|].
  econstructor; [apply (v_tombstone_refused deleted_slot [] [] 7 (demo_slot 1) 1); by apply none_taken; vm_compute|].
  econstructor; [apply (v_told_at deleted_slot [] [] 7 (demo_slot 1) 2); by vm_compute|]. constructor.
Qed.

Lemma one_slot_wf : vault_wf one_slot.
Proof.
  intros k r. unfold one_slot, demo_put. simpl. intros Hr.
  assert (E : map_to_list one_slot = [((7, demo_slot 1), mkVaultSlot (Some "AQI="%string) 1)]) by by vm_compute.
  assert (Hin : (k, r) ∈ map_to_list one_slot) by by apply elem_of_map_to_list.
  rewrite E in Hin. apply list_elem_of_singleton in Hin as [= -> ->]. simpl. lia.
Qed.

(** A write, a refusal, a read, a delete, a write over the tombstone. *)
Definition slot_two : vault := default ∅ (update_slot 7 (demo_slot 1) "Aw==" 1 one_slot).

Lemma demo_run : vtrace (mkV one_slot [])
  [Wrote 7 (demo_slot 1) 1 (Some "Aw=="%string); Silent; Told 7 (demo_slot 1) 2;
   Read 7 (demo_slot 1) 2 (Some "Aw=="%string); Silent; Read 7 (demo_slot 1) 2 (Some "Aw=="%string)]
  (mkV slot_two [VDelete 7 (demo_slot 1) 2]).
Proof.
  econstructor; [apply (v_update _ _ 7 (demo_slot 1) "Aw==" "Aw==" 1 slot_two); [by vm_compute|by vm_compute|by vm_compute|by apply some_taken; vm_compute]|].
  econstructor; [apply (v_update_refused _ _ 7 (demo_slot 1) "Aw==" 1); [by vm_compute|by apply none_taken; vm_compute]|].
  econstructor; [apply (v_told_at slot_two [] [] 7 (demo_slot 1) 2); by vm_compute|].
  econstructor; [apply (v_read_at slot_two [] 7 (demo_slot 1) 2); by vm_compute|].
  econstructor; [apply (v_find _ _ 7 (demo_slot 1) 2 ("Aw=="%string, 2)); by vm_compute|].
  econstructor; [apply (v_read_at slot_two _ 7 (demo_slot 1) 2); by vm_compute|]. constructor.
Qed.

Lemma vault_refines_register_witness :
  exists g, gtrace (ledger_of one_slot)
    [Wrote 7 (demo_slot 1) 1 (Some "Aw=="%string); Silent; Told 7 (demo_slot 1) 2;
     Read 7 (demo_slot 1) 2 (Some "Aw=="%string); Silent; Read 7 (demo_slot 1) 2 (Some "Aw=="%string)] g /\
    sim slot_two g.
Proof. apply (vault_refines_register one_slot [] _ _ one_slot_wf demo_run). Defined.

Lemma version_names_content_witness :
  2 <= 2 /\ (2 = 2 -> Some "Aw=="%string = Some "Aw=="%string).
Proof.
  apply (version_names_content one_slot [] [Wrote 7 (demo_slot 1) 1 (Some "Aw=="%string); Silent; Told 7 (demo_slot 1) 2]
           7 (demo_slot 1) 2 (Some "Aw=="%string) [Silent] 2 (Some "Aw=="%string) [] _ one_slot_wf demo_run).
  constructor; [intros []|constructor].
Defined.

Lemma one_slot_ok : vstate_ok (mkV one_slot []).
Proof.
  split; [|constructor]. intros k r Hr. simpl in Hr.
  assert (E : map_to_list one_slot = [((7, demo_slot 1), mkVaultSlot (Some (b64encode [1; 2])) 1)]) by by vm_compute.
  assert (Hin : (k, r) ∈ map_to_list one_slot) by by apply elem_of_map_to_list.
  rewrite E in Hin. apply list_elem_of_singleton in Hin as [= -> ->]. split; [by vm_compute|]. cbn [v_version v_blob].
  split; [unfold MAX_VERSION; lia|]. intros b [= <-]. exists [1; 2].
  split_and!; [repeat constructor; unfold byte_ok; lia|done|done|by vm_compute].
Qed.

Lemma vault_stored_ok_witness :
  slot_re (demo_slot 1) = true /\ 1 <= 2 < 2 ^ 63 /\
  exists data, b64decode_strict "Aw==" = Some data /\ 1 <= Z.of_nat (length data) <= MAX_BLOB_BYTES.
Proof. apply (vault_stored_ok _ _ _ 7 (demo_slot 1) "Aw==" 2 one_slot_ok demo_run). by vm_compute. Defined.

Lemma put_slot_spec_witness :
  (put (mkVaultPutIn "Aw==" 1) (demo_slot 1) 7 "phone" lim0 one_slot).1.1.1 = Ok 2 /\
  (put (mkVaultPutIn "Aw==" 5) (demo_slot 1) 7 "phone" lim0 one_slot).1.1.1 = Raise (stale 1).
Proof.
  pose proof (fun v s1 H H' => put_slot_spec (R := store) (fun k x => x) "k" true 0 (mkVaultPutIn "Aw==" v) (demo_slot 1) 7 "phone" lim0 s1 one_slot "Aw=="
                one_slot_wf eq_refl H eq_refl H') as K.
  split.
  - specialize (K 1 _ eq_refl eq_refl). unfold put. rewrite K. by vm_compute.
  - specialize (K 5 _ eq_refl eq_refl). unfold put. rewrite K. by vm_compute.
Defined.

Lemma delete_slot_spec_witness :
  (delete_slot (demo_slot 1) 1 7 "phone" one_slot).1.1 = Ok tt /\ (delete_slot (demo_slot 1) 3 7 "phone" one_slot).1.1 = Raise (stale 1).
Proof.
  split.
  - rewrite (delete_slot_spec (demo_slot 1) 1 7 "phone" one_slot); [by vm_compute|by vm_compute|unfold MAX_VERSION; lia].
  - rewrite (delete_slot_spec (demo_slot 1) 3 7 "phone" one_slot); [by vm_compute|by vm_compute|unfold MAX_VERSION; lia].
Defined.
End demo.
