(* ===== verification/Json.v ===== *)
(** * JSON values

    What [json.loads] returns, over code points below 256, how Python compares
    and tests such values, and the texts [json.dumps] writes with compact
    separators and [ensure_ascii=False], with or without sorted keys.

    An object is the list of its entries in order, each key once, as a [dict]
    is; a float is its integral value, if it has one, and its [repr]. *)

From stdpp Require Import base list strings pretty.
From Stdlib Require Import ZArith Lia Ascii.
From S2P Require Import Prelude Text Bytes Voucher.

Inductive jv :=
  | JvNull
  | JvBool (b : bool)
  | JvInt (z : Z)
  | JvFloat (integral : option Z) (repr : string)
  | JvStr (s : string)
  | JvList (l : list jv)
  | JvObj (l : list (string * jv)).

(** [doc.get(k)]: [None] stands for Python's [None], as does [JvNull]. *)
Definition jget (k : string) (l : list (string * jv)) : option jv :=
  match find_first (fun kv => String.eqb kv.1 k) l with
  | Some (_, JvNull) => None
  | Some (_, v) => Some v
  | None => None
  end.
(** [doc[k]]: [None] is a [KeyError]. *)
Definition jraw (k : string) (l : list (string * jv)) : option jv :=
  option_map snd (find_first (fun kv => String.eqb kv.1 k) l).
Definition jstr (v : option jv) : option string := match v with Some (JvStr s) => Some s | _ => None end.
(** [isinstance(v, int) and not isinstance(v, bool)] *)
Definition jint (v : option jv) : option Z := match v with Some (JvInt z) => Some z | _ => None end.
Definition jlist (v : option jv) : option (list jv) := match v with Some (JvList l) => Some l | _ => None end.
Definition jobj (v : jv) : option (list (string * jv)) := match v with JvObj l => Some l | _ => None end.

(** [v == n] *)
Definition jeq (v : option jv) (n : Z) : bool :=
  match v with
  | Some (JvInt z) => z =? n
  | Some (JvBool b) => (if b then 1 else 0) =? n
  | Some (JvFloat (Some z) _) => z =? n
  | _ => false
  end.
Definition is_bool (v : option jv) : bool := match v with Some (JvBool _) => true | _ => false end.

(** ** Writing *)

Definition esc_raw (c : ascii) : string :=
  let n := nat_of_ascii c in
  if (n <? 32)%nat || (n =? 34)%nat || (n =? 92)%nat then esc c else String c "".
Fixpoint escape_raw (s : string) : string :=
  match s with EmptyString => "" | String c s => esc_raw c ++ escape_raw s end.
Definition str_text (s : string) : string := String DQ (escape_raw s ++ String DQ "").

Fixpoint insert_pair (kv : string * string) (l : list (string * string)) : list (string * string) :=
  match l with
  | [] => [kv]
  | x :: l' => if String.leb kv.1 x.1 then kv :: l else x :: insert_pair kv l'
  end.
Definition sort_pairs (l : list (string * string)) : list (string * string) := foldr insert_pair [] l.

Fixpoint join_with (sep : string) (l : list string) : string :=
  match l with
  | [] => ""
  | [s] => s
  | s :: l' => s ++ sep ++ join_with sep l'
  end.

(** [quote] writes a string, [comma] and [colon] are the separators. *)
Fixpoint dump_with (quote : string -> string) (comma colon : string) (sorted : bool) (v : jv) : string :=
  match v with
  | JvNull => "null"
  | JvBool b => if b then "true" else "false"
  | JvInt z => pretty z
  | JvFloat _ r => r
  | JvStr s => quote s
  | JvList l => String "[" (join_with comma (map (dump_with quote comma colon sorted) l) ++ "]")
  | JvObj l =>
      let pairs := map (fun kv => (kv.1, dump_with quote comma colon sorted kv.2)) l in
      let pairs := if sorted then sort_pairs pairs else pairs in
      String "{" (join_with comma (map (fun kv => (quote kv.1 ++ colon ++ kv.2)%string) pairs) ++ "}")
  end.

(** [json.dumps(v, separators=(",", ":"), ensure_ascii=False)], with and without
    [sort_keys], and plain [json.dumps(v)]. *)
Definition dump_jv : bool -> jv -> string := dump_with str_text "," ":".
Definition dump_plain : jv -> string := dump_with json_str ", " ": " false.

(** ** Reading back *)

Lemma unesc_esc_raw c t : unesc (esc_raw c ++ t) = Some (c, t).
Proof. destruct c as [[] [] [] [] [] [] [] []]; reflexivity. Qed.

Lemma escape_raw_inj s1 : forall s2 t1 t2,
  (escape_raw s1 ++ String DQ t1 = escape_raw s2 ++ String DQ t2)%string -> s1 = s2 /\ t1 = t2.
Proof.
  induction s1 as [|c1 s1 IH]; intros [|c2 s2] t1 t2; simpl; rewrite ?str_app_assoc; intros E.
  - by injection E as ->.
  - pose proof (unesc_esc_raw c2 (escape_raw s2 ++ String DQ t2)) as H. by rewrite <-E in H.
  - pose proof (unesc_esc_raw c1 (escape_raw s1 ++ String DQ t1)) as H. by rewrite E in H.
  - pose proof (unesc_esc_raw c1 (escape_raw s1 ++ String DQ t1)) as H. rewrite E, unesc_esc_raw in H.
    injection H as -> H. destruct (IH s2 t1 t2) as [-> ->]; done.
Qed.

(** Whatever follows a string in a text, the string can be read off it. *)
Lemma str_text_inj s1 s2 t1 t2 : (str_text s1 ++ t1 = str_text s2 ++ t2)%string -> s1 = s2 /\ t1 = t2.
Proof. unfold str_text. simpl. intros [= E]. rewrite !str_app_assoc in E. by apply escape_raw_inj in E. Qed.
