(* ===== verification/Profiles.v ===== *)
(** * Profiles

    The columns of [users] a person fills in ([models/user.py]), who is shown
    which of them, and the payloads of [routers/users.py] that are built from
    them: [PublicUser] for one viewer and for a search row, and [LookupRow].

    The rules that read no table are functions of the row, the viewer, and
    whether the viewer has the person in their contacts. *)

From stdpp Require Import base list gmap strings pretty.
From Stdlib Require Import ZArith Lia Ascii.
From S2P Require Import Prelude Text Storage Redis GuestPolicy Bytes KeyStorage Sessions Rooms Accounts Json.

(** [push_preferences] without [muted_group_ids], which delivery reads. *)
Record PushPrefs := mkPushPrefs {
  pp_contact_requests : option bool;
  pp_trades_from_contacts : option bool;
  pp_trades_from_strangers : option bool;
  pp_muted_uins : option (list Z)
}.

Record Person := mkPerson {
  first_name : option string;
  last_name : option string;
  age : option Z;
  gender : option string;
  city : option string;
  country : option string;
  about : option string;
  interests : option string;
  homepage : option string;
  status_message : option string;
  last_seen_visibility : string;
  gender_visibility : string;
  profile_visibility : string;
  call_policy : string;
  read_receipts_visibility : string;
  hof_opt_in : bool;
  hof_avatar : option string;
  push_preferences : option PushPrefs
}.

(** The column defaults. *)
Definition new_person : Person :=
  mkPerson None None None None None None None None None None "contacts" "nobody" "everyone" "contacts" "contacts"
    false None None.

(** [v or d] *)
Definition or_else (v d : string) : string := if String.eqb v "" then d else v.

Definition POLICY_VALUES : list string := ["everyone"; "contacts"; "nobody"]%string.

(** ** Presence *)

Definition PRESENCE_FRESHNESS_SECONDS : Z := 90.

Definition presence_is_fresh (now last_seen : Z) : bool := now - seconds PRESENCE_FRESHNESS_SECONDS <? last_seen.

Definition effective_status (now : Z) (u : User) : string :=
  if negb (presence_is_fresh now (last_seen u)) then "offline"
  else
    let s := status (profile u) in
    if String.eqb s "away" || String.eqb s "dnd" || String.eqb s "invisible" then s else "online".

Definition visible_status (now : Z) (u : User) : string :=
  let s := effective_status now u in if String.eqb s "invisible" then "offline" else s.

(** The hour of an instant. *)
Definition coarse_last_seen (t : Z) : Z := t / hours 1 * hours 1.

(** ** The rules *)

Definition badge_for_viewer (uin : Z) (u : User) (viewer : option Z) : option string :=
  if badge_hidden (profile u) && negb (bool_decide (viewer = Some uin)) then None else badge (profile u).

Definition card_openable_for_viewer (uin : Z) (u : User) (viewer : option Z) (is_contact : bool) : bool :=
  card_openable_fields uin (profile_card_policy (profile u)) viewer is_contact.

(** The shape the three gates share: the setting, and whether the caller is a
    contact. *)
Definition passes (visibility : string) (is_contact : bool) : bool :=
  String.eqb visibility "everyone" || (String.eqb visibility "contacts" && is_contact).

Definition last_seen_for_viewer (uin : Z) (u : User) (p : Person) (viewer : Z) (is_contact : bool) : option Z :=
  if viewer =? uin then Some (last_seen u)
  else if passes (or_else (last_seen_visibility p) "everyone") is_contact
  then Some (coarse_last_seen (last_seen u)) else None.

Definition profile_visible_for_viewer (uin : Z) (p : Person) (viewer : Z) (is_contact : bool) : bool :=
  if viewer =? uin then true else passes (or_else (profile_visibility p) "everyone") is_contact.

Definition gender_for_viewer (uin : Z) (p : Person) (viewer : Z) (is_contact : bool) : option string :=
  match gender p with
  | None => None
  | Some g =>
      if viewer =? uin then Some g
      else if passes (or_else (gender_visibility p) "nobody") is_contact then Some g else None
  end.

(** ** Payloads *)

(** What only the owner is told: the settings and the standing. *)
Record OwnView := mkOwnView {
  ov_last_seen_visibility : string;
  ov_gender_visibility : string;
  ov_profile_visibility : string;
  ov_profile_card_policy : string;
  ov_group_invite_policy : string;
  ov_call_policy : string;
  ov_read_receipts_visibility : string;
  ov_badge_hidden : bool;
  ov_badges_earned : list string;
  ov_resident_since : option Z;
  ov_entered_via : option string;
  ov_hof_opt_in : bool;
  ov_hof_avatar : option string
}.

(** The fields of [PublicUser]; [pu_home]: where the person behind a backup copy
    lives. *)
Record PublicUser := mkPublicUser {
  pu_uin : Z;
  pu_nickname : string;
  pu_badge : option string;
  pu_first_name : option string;
  pu_last_name : option string;
  pu_age : option Z;
  pu_gender : option string;
  pu_city : option string;
  pu_country : option string;
  pu_about : option string;
  pu_interests : list string;
  pu_homepage : option string;
  pu_status : string;
  pu_status_message : option string;
  pu_identity_key : string;
  pu_signing_key : option string;
  pu_signal_identity_key : option string;
  pu_signal_registration_id : option Z;
  pu_last_seen : option Z;
  pu_openable : bool;
  pu_avatar : option string * option string;
  pu_guest : bool;
  pu_own : option OwnView;
  pu_home : option (string * Z)
}.

(** [model_copy(update={"home": ...})] *)
Definition with_home (home : option (string * Z)) (o : PublicUser) : PublicUser :=
  mkPublicUser (pu_uin o) (pu_nickname o) (pu_badge o) (pu_first_name o) (pu_last_name o) (pu_age o)
    (pu_gender o) (pu_city o) (pu_country o) (pu_about o) (pu_interests o) (pu_homepage o)
    (pu_status o) (pu_status_message o) (pu_identity_key o) (pu_signing_key o)
    (pu_signal_identity_key o) (pu_signal_registration_id o) (pu_last_seen o) (pu_openable o)
    (pu_avatar o) (pu_guest o) (pu_own o) home.

(** [[t for t in (u.interests or "").split(",") if t]] *)
Definition interest_tags (p : Person) : list string :=
  filter (fun t => t <> ""%string) (split_comma (default ""%string (interests p))).

Definition when {A} (b : bool) (v : option A) : option A := if b then v else None.

Definition own_view (u : User) (a : Account) (p : Person) : OwnView :=
  let pr := profile u in
  mkOwnView (last_seen_visibility p) (gender_visibility p) (profile_visibility p) (profile_card_policy pr)
    (group_invite_policy pr) (call_policy p) (read_receipts_visibility p) (badge_hidden pr) (earned_badges u a)
    (resident_since a) (entered_via a) (hof_opt_in p) (hof_avatar p).

(** The rows of one account. *)
Record Row := mkRow { w_uin : Z; w_user : User; w_keys : UserKeys; w_account : Account; w_person : Person }.

Definition from_model_for_viewer (now : Z) (r : Row) (viewer : Z) (is_contact shares_group : bool) : PublicUser :=
  let u := w_user r in
  let p := w_person r in
  let pr := profile u in
  let owner_self := viewer =? w_uin r in
  let openable := card_openable_for_viewer (w_uin r) u (Some viewer) is_contact in
  let visible := profile_visible_for_viewer (w_uin r) p viewer is_contact && openable in
  let last_seen := if openable then last_seen_for_viewer (w_uin r) u p viewer is_contact else None in
  let avatar_ok := owner_self || is_contact || shares_group in
  mkPublicUser (w_uin r) (nickname pr) (badge_for_viewer (w_uin r) u (Some viewer))
    (when visible (first_name p)) (when visible (last_name p)) (when visible (age p))
    (when visible (gender_for_viewer (w_uin r) p viewer is_contact))
    (when visible (city p)) (when visible (country p)) (when visible (about p))
    (if visible then interest_tags p else []) (when visible (homepage p))
    (if owner_self then status pr else visible_status now u) (when visible (status_message p))
    (identity_key (w_keys r)) (signing_key (w_keys r)) (signal_identity_key (w_keys r))
    (signal_registration_id (w_keys r)) last_seen openable
    (when avatar_ok (avatar_media_id pr), when avatar_ok (avatar_media_key pr))
    (if owner_self || shares_group then bool_decide (is_Some (guest_status u)) else false)
    (if owner_self then Some (own_view u (w_account r) p) else None) None.

(** The row of a search. *)
Definition from_model (r : Row) (viewer : option Z) (is_contact with_keys : bool) : PublicUser :=
  let u := w_user r in
  let p := w_person r in
  let pr := profile u in
  let openable := card_openable_for_viewer (w_uin r) u viewer is_contact in
  let visible := String.eqb (or_else (profile_visibility p) "everyone") "everyone" && openable in
  mkPublicUser (w_uin r) (nickname pr) (badge_for_viewer (w_uin r) u viewer)
    (when visible (first_name p)) (when visible (last_name p)) (when visible (age p))
    (when visible (gender p))
    (when visible (city p)) (when visible (country p)) (when visible (about p))
    (if visible then interest_tags p else []) (when visible (homepage p))
    (status pr) (when visible (status_message p))
    (if with_keys then identity_key (w_keys r) else "") (if with_keys then signing_key (w_keys r) else Some "")
    (when with_keys (signal_identity_key (w_keys r)))
    (signal_registration_id (w_keys r)) None openable (None, None) false None None.

Record LookupRow := mkLookupRow {
  lr_uin : Z;
  lr_nickname : string;
  lr_badge : option string;
  lr_status : string;
  lr_status_message : option string;
  lr_identity_key : string;
  lr_signing_key : option string;
  lr_signal_identity_key : option string;
  lr_gender : option string;
  lr_last_seen : option Z;
  lr_callable : bool;
  lr_openable : bool;
  lr_avatar : option string * option string
}.

Definition lookup_row (now : Z) (r : Row) (me : Z) (is_contact shares : bool) : LookupRow :=
  let u := w_user r in
  let p := w_person r in
  let pr := profile u in
  let openable := card_openable_for_viewer (w_uin r) u (Some me) is_contact in
  let visible := profile_visible_for_viewer (w_uin r) p me is_contact && openable in
  let last_seen := if openable then last_seen_for_viewer (w_uin r) u p me is_contact else None in
  let policy := lower (or_else (call_policy p) "everyone") in
  let avatar_ok := is_contact || shares in
  mkLookupRow (w_uin r) (nickname pr) (badge_for_viewer (w_uin r) u (Some me)) (visible_status now u)
    (when visible (status_message p))
    (identity_key (w_keys r)) (signing_key (w_keys r)) (signal_identity_key (w_keys r))
    (when visible (gender_for_viewer (w_uin r) p me is_contact)) last_seen
    (if is_contact then negb (String.eqb policy "nobody") else true) openable
    (when avatar_ok (avatar_media_id pr), when avatar_ok (avatar_media_key pr)).

(** A row of [GET /contacts]. *)
Record ContactRow := mkContactRow {
  cr_uin : Z;
  cr_nickname : string;
  cr_badge : option string;
  cr_status : string;
  cr_status_message : option string;
  cr_blocked : bool;
  cr_identity_key : string;
  cr_signing_key : option string;
  cr_signal_identity_key : option string;
  cr_gender : option string;
  cr_last_seen : option Z;
  cr_callable : bool;
  cr_openable : bool;
  cr_avatar : option string * option string
}.

Definition contact_row (now viewer : Z) (r : Row) (blocked : bool) : ContactRow :=
  let u := w_user r in
  let p := w_person r in
  let pr := profile u in
  let live := visible_status now u in
  let open_to_contacts vis := passes (lower vis) true in
  mkContactRow (w_uin r) (nickname pr) (badge_for_viewer (w_uin r) u (Some viewer)) live (status_message p) blocked
    (identity_key (w_keys r)) (signing_key (w_keys r)) (signal_identity_key (w_keys r))
    (match gender p with
     | Some g => if negb (String.eqb g "") && open_to_contacts (or_else (gender_visibility p) "nobody") then Some g else None
     | None => None
     end)
    (if String.eqb live "offline" && open_to_contacts (or_else (last_seen_visibility p) "everyone")
     then Some (coarse_last_seen (last_seen u)) else None)
    (negb (String.eqb (or_else (call_policy p) "everyone") "nobody"))
    (card_openable_for_viewer (w_uin r) u (Some viewer) true)
    (avatar_media_id pr, avatar_media_key pr).

(** ** The tables

    [models/federation.py], [models/contact.py] and the registered push
    endpoints of [models/device_token.py]; [contact_vault_devices] by its
    primary key, with the first and the last sighting. *)
Record HomeIslandRecord := mkHomeRecord { hr_doc : jv; hr_ts : Z }.
Record GossipRecord := mkGossip { go_doc : jv; go_ts : Z; touched_at : option Z }.
Record ContactRequest := mkRequest {
  cq_id : Z;
  cq_from : Z;
  cq_to : Z;
  cq_state : string;
  cq_created_at : Z;
  cq_resolved_at : option Z
}.
Record PushEndpoint := mkEndpoint {
  pe_uin : Z;
  pe_token : string;
  pe_platform : string;
  pe_device_id : option string;
  pe_created_at : Z;
  pe_last_seen : Z;
  push_last_error : option string;
  push_last_ok : option Z
}.

Record sdb := mkSdb {
  s_acc : adb;
  people : gmap Z Person;
  home_records : gmap Z HomeIslandRecord;
  gossip_records : gmap string GossipRecord;
  contact_requests : list ContactRequest;
  next_request_id : Z;
  vault_devices : gmap (Z * string) (Z * Z);
  push_endpoints : list PushEndpoint
}.

Definition score (d : sdb) : db := acore (s_acc d).
Definition edges (d : sdb) : gmap (Z * Z) bool := contacts (rooms (s_acc d)).
Definition is_contact_of (d : sdb) (owner contact : Z) : bool := bool_decide (is_Some (edges d !! (owner, contact))).

Definition set_acc (a : adb) (d : sdb) : sdb :=
  mkSdb a (people d) (home_records d) (gossip_records d) (contact_requests d) (next_request_id d) (vault_devices d) (push_endpoints d).
Definition set_people (m : gmap Z Person) (d : sdb) : sdb :=
  mkSdb (s_acc d) m (home_records d) (gossip_records d) (contact_requests d) (next_request_id d) (vault_devices d) (push_endpoints d).
Definition set_home_records (m : gmap Z HomeIslandRecord) (d : sdb) : sdb :=
  mkSdb (s_acc d) (people d) m (gossip_records d) (contact_requests d) (next_request_id d) (vault_devices d) (push_endpoints d).
Definition set_gossip (m : gmap string GossipRecord) (d : sdb) : sdb :=
  mkSdb (s_acc d) (people d) (home_records d) m (contact_requests d) (next_request_id d) (vault_devices d) (push_endpoints d).
Definition set_requests (l : list ContactRequest) (d : sdb) : sdb :=
  mkSdb (s_acc d) (people d) (home_records d) (gossip_records d) l (next_request_id d) (vault_devices d) (push_endpoints d).
Definition set_vault_devices (m : gmap (Z * string) (Z * Z)) (d : sdb) : sdb :=
  mkSdb (s_acc d) (people d) (home_records d) (gossip_records d) (contact_requests d) (next_request_id d) m (push_endpoints d).
(** The endpoints, and the columns of them delivery reads. *)
Definition as_token (e : PushEndpoint) : DeviceToken :=
  mkDeviceToken (pe_uin e) (pe_token e) (pe_platform e) (pe_device_id e).
Definition set_endpoints (l : list PushEndpoint) (d : sdb) : sdb :=
  mkSdb (on_acore (set_device_tokens (fun _ => map as_token l)) (s_acc d)) (people d) (home_records d) (gossip_records d)
    (contact_requests d) (next_request_id d) (vault_devices d) l.
Definition set_edges (f : gmap (Z * Z) bool -> gmap (Z * Z) bool) (d : sdb) : sdb := set_acc (on_contacts f (s_acc d)) d.

(** [db.get(User, uin)], with the columns the other components keep. *)
Definition user_row (d : sdb) (uin : Z) : option Row :=
  match users (score d) !! uin with
  | Some u => Some (mkRow uin u (default no_keys (akeys (s_acc d) !! uin)) (account_of (s_acc d) uin)
                      (default new_person (people d !! uin)))
  | None => None
  end.
