(* ===== verification/Federation.v ===== *)
(** * Federation: signed records and what is read from them

    Models [src/app/routers/federation.py] (the store of home-island records,
    the mirror anybody may write to, the open key card), [services/gossip_sweep.py],
    [services/backup_copy.py] (is this account a person or somebody's backup
    mailbox?) and [services/reserved_tenure.py] (does a trusted island confirm
    that a key holds a number there?).

    Records are JSON values; the text a record is stored as counts for its size
    alone.  What other islands answer is a parameter of [holds_elsewhere]. *)

From stdpp Require Import base list gmap strings pretty.
From Stdlib Require Import ZArith Lia Ascii.
From S2P Require Import Prelude Text Storage Redis GuestPolicy Bytes KeyStorage Sessions Voucher KeyProof Door Rooms Accounts Json Profiles.

Notation fields := (list (string * jv)).

Definition MAX_DOC_BYTES : Z := 8 * 1024.
Definition TOUCH_EVERY : Z := hours 1.

(** [_touch]: the row, and whether it changed. *)
Definition touch (now : Z) (r : GossipRecord) : bool * GossipRecord :=
  match touched_at r with
  | Some prev => if now - prev <? TOUCH_EVERY then (false, r) else (true, mkGossip (go_doc r) (go_ts r) (Some now))
  | None => (true, mkGossip (go_doc r) (go_ts r) (Some now))
  end.

(** [{h.strip().lower() for h in s.split(",") if h.strip()}] *)
Definition host_set (s : string) : list string :=
  filter (fun h => h <> ""%string) (map (fun h => lower (strip h)) (split_comma s)).

Definition front_alias_in_homes (fronts : string) (homes : list jv) : option string :=
  let aliases := host_set fronts in
  match aliases with
  | [] => None
  | _ => find_first (fun h => bool_decide (lower (strip h) ∈ aliases))
           (omap (fun h => match jobj h with Some l => jstr (jget "host" l) | None => None end) homes)
  end.

(** The homes that are signed; [None]: a [KeyError] or a [TypeError]. *)
Definition signed_homes (v : jv) : option (list jv) :=
  match v with
  | JvList l =>
      mapM (fun h => match h with
                     | JvObj o => match jraw "host" o, jraw "uin" o with
                                  | Some a, Some b => Some (JvObj [("host", a); ("uin", b)])
                                  | _, _ => None
                                  end
                     | _ => None
                     end) l
  | JvStr "" | JvObj [] => Some []
  | _ => None
  end.

Definition record_signed_bytes (doc : fields) : option bytes :=
  match jraw "homes" doc, jraw "ik" doc, jraw "sk" doc, jraw "ts" doc with
  | Some homes, Some ik, Some sk, Some ts =>
      match signed_homes homes with
      | Some homes =>
          Some (utf8 (dump_jv true (JvObj [("v", JvInt 1); ("ik", ik); ("sk", sk); ("homes", JvList homes); ("ts", ts)])))
      | None => None
      end
  | _, _, _, _ => None
  end.

(** A bare host with an optional port. *)
Definition host_char_ok (c : ascii) : bool :=
  let n := Z.of_nat (nat_of_ascii c) in
  ((97 <=? n) && (n <=? 122)) || ((48 <=? n) && (n <=? 57)) || (n =? 46) || (n =? 45).
Definition host_name_ok (s : string) : bool :=
  (1 <=? String.length s)%nat && (String.length s <=? 253)%nat && all_chars host_char_ok s.
Definition port_ok (s : string) : bool :=
  (1 <=? String.length s)%nat && (String.length s <=? 5)%nat && all_chars (fun c => bool_decide (is_Some (digit_value c))) s.
Definition host_re (h : string) : bool :=
  match split_char ":" h with None => host_name_ok h | Some (a, b) => host_name_ok a && port_ok b end.

(** [own_hosts] *)
Definition own_hosts (island_host header fronts : string) : list string :=
  let '(allowed, _) := island_hosts island_host header fronts in
  let h := canonical_host header in
  if String.eqb h "" then allowed else allowed ++ [h].

Section federation.
Context (ed25519_verify : bytes -> bytes -> bytes -> bool).
Context (sha256 : bytes -> bytes).

(** [_verify_record_sig] *)
Definition verify_record_sig (doc : fields) : bool :=
  match jraw "sk" doc, jraw "sig" doc, record_signed_bytes doc with
  | Some (JvStr sk), Some (JvStr sig), Some msg =>
      match b64decode sk, b64decode sig with
      | Some k, Some g => ed25519_verify k g msg
      | _, _ => false
      end
  | _, _, _ => false
  end.

(** ** The store *)

(** The checks both writes share: size, version, instant, homes. *)
Definition check_shape (doc : fields) : outcome (Z * list jv) :=
  if MAX_DOC_BYTES <? Z.of_nat (length (utf8 (dump_jv false (JvObj doc))))
  then Raise (HTTPException 413 "record too large")
  else if negb (jeq (jget "v" doc) 1) then Raise (HTTPException 400 "unsupported record version")
  else match jint (jget "ts" doc) with
  | None => Raise (HTTPException 400 "missing or invalid ts")
  | Some ts =>
      if ts <=? 0 then Raise (HTTPException 400 "missing or invalid ts")
      else match jlist (jget "homes" doc) with
           | None | Some [] => Raise (HTTPException 400 "missing homes")
           | Some homes => Ok (ts, homes)
           end
  end.

Definition check_front (fronts : string) (homes : list jv) : outcome unit :=
  match front_alias_in_homes fronts homes with
  | Some f => Raise (HTTPException 400 ("front is not an island: " ++ f))
  | None => Ok tt
  end.

Definition put_island_record (fronts : string) (doc : fields) (uin : Z) (d : sdb) : outcome Z * sdb :=
  match (let! (ts, homes) := check_shape doc in
         if bool_decide (is_Some (jstr (jget "ik" doc))) && bool_decide (is_Some (jstr (jget "sig" doc)))
         then let! _ := check_front fronts homes in Ok ts
         else Raise (HTTPException 400 "missing ik or sig")) with
  | Raise x => (Raise x, d)
  | Ok ts =>
      match home_records d !! uin with
      | Some existing =>
          if ts <? hr_ts existing then (Raise (HTTPException 409 "stale ts"), d)
          else (Ok ts, set_home_records (<[uin := mkHomeRecord (JvObj doc) ts]> (home_records d)) d)
      | None => (Ok ts, set_home_records (<[uin := mkHomeRecord (JvObj doc) ts]> (home_records d)) d)
      end
  end.

Definition get_island_record (uin : Z) (d : sdb) : outcome jv :=
  match home_records d !! uin with
  | Some r => Ok (hr_doc r)
  | None => Raise (HTTPException 404 "no record")
  end.

Definition put_gossip_record (now : Z) (fronts : string) (doc : fields) (d : sdb) : outcome Z * sdb :=
  match (let! (ts, homes) := check_shape doc in
         match jstr (jget "sk" doc), jstr (jget "ik" doc), jstr (jget "sig" doc) with
         | Some sk, Some _, Some _ =>
             let! _ := check_front fronts homes in
             if verify_record_sig doc then Ok (ts, sk) else Raise (HTTPException 403 "bad signature")
         | _, _, _ => Raise (HTTPException 400 "missing ik/sk/sig")
         end) with
  | Raise x => (Raise x, d)
  | Ok (ts, sk) =>
      match gossip_records d !! sk with
      | Some existing =>
          if ts <? go_ts existing then (Raise (HTTPException 409 "stale ts"), d)
          else (Ok ts, set_gossip (<[sk := (touch now (mkGossip (JvObj doc) ts (touched_at existing))).2]> (gossip_records d)) d)
      | None => (Ok ts, set_gossip (<[sk := mkGossip (JvObj doc) ts (Some now)]> (gossip_records d)) d)
      end
  end.

Definition get_gossip_record (now : Z) (sk : string) (d : sdb) : outcome jv * sdb :=
  match gossip_records d !! strip sk with
  | Some r =>
      let '(changed, r') := touch now r in
      (Ok (go_doc r), if changed then set_gossip (<[strip sk := r']> (gossip_records d)) d else d)
  | None => (Raise (HTTPException 404 "no record"), d)
  end.

(** [gossip_sweep.sweep_once] *)
Definition stamp_gossip (now : Z) (r : GossipRecord) : GossipRecord :=
  match touched_at r with Some _ => r | None => mkGossip (go_doc r) (go_ts r) (Some now) end.
Definition gossip_cold (cutoff : Z) (r : GossipRecord) : bool :=
  match touched_at r with Some t => t <? cutoff | None => false end.
Definition gossip_sweep (now max_idle_days : Z) (dry_run : bool) (d : sdb) : sdb :=
  if (max_idle_days <=? 0) || dry_run then d
  else
    let m := stamp_gossip now <$> gossip_records d in
    set_gossip (filter (fun '(_, r) => gossip_cold (now - days max_idle_days) r = false) m) d.

(** ** The open key card *)

Record PublicKeysOut := mkPublicKeys {
  pk_uin : Z;
  pk_identity_key : string;
  pk_signing_key : option string;
  pk_signal_identity_key : option string;
  pk_nickname : option string;
  pk_gender : option string;
  pk_status_message : option string;
  pk_openable : bool
}.

(** The card's use is stamped on the session, which is not committed. *)
Definition get_public_keys (now uin : Z) (card : option string) (closed refuse_strangers : bool) (d : sdb)
    : outcome PublicKeysOut :=
  match (open_card_mode sha256 now uin card closed refuse_strangers (rk (rooms (s_acc d)))).1 with
  | CARD_REFUSED => Raise (HTTPException 403 "island_closed")
  | mode =>
      match user_row d uin with
      | None => Raise (HTTPException 404 "no such user")
      | Some r =>
          if String.eqb (identity_key (w_keys r)) "" then Raise (HTTPException 404 "no such user")
          else
            let p := w_person r in
            let seal_only := match mode with CARD_SEAL_ONLY => true | _ => false end in
            let card_open := card_openable_for_viewer uin (w_user r) None false in
            let profile_open := String.eqb (or_else (profile_visibility p) "everyone") "everyone" && card_open in
            let profile_open := profile_open && negb seal_only in
            let card_open := card_open && negb seal_only in
            Ok (mkPublicKeys uin (identity_key (w_keys r)) (signing_key (w_keys r)) (signal_identity_key (w_keys r))
                  (if seal_only then None else Some (nickname (profile (w_user r))))
                  (when (profile_open && String.eqb (or_else (gender_visibility p) "nobody") "everyone") (gender p))
                  (when profile_open (status_message p)) card_open)
      end
  end.

Definition uin_for_key (key : string) (d : sdb) : outcome Z :=
  match uin_for_signing_key (s_acc d) (strip key) with
  | Some u => Ok u
  | None => Raise (HTTPException 404 "no account for key")
  end.

(** ** Backup copies *)

(** The homes of a record as (canonical host, number); [None]: one of them is
    not a home. *)
Definition parse_homes (l : list jv) : option (list (string * Z)) :=
  mapM (fun h => match jobj h with
                 | Some o => match jstr (jget "host" o), jint (jget "uin" o) with
                             | Some host, Some n => Some (canonical_host host, n)
                             | _, _ => None
                             end
                 | None => None
                 end) l.

Definition home_from_doc (raw : option jv) (uin : Z) (sk : option string) (own : list string) : option (string * Z) :=
  match raw, sk with
  | Some (JvObj doc), Some sk =>
      if String.eqb sk "" || negb (bool_decide (jstr (jget "sk" doc) = Some sk)) then None
      else match jlist (jget "homes" doc) with
      | None => None
      | Some homes =>
          if (length homes <? 2)%nat then None
          else match parse_homes homes with
          | None | Some [] => None
          | Some (((home_host, home_uin) :: _) as parsed) =>
              match list_find (fun h => h.1 ∈ own /\ h.2 = uin) parsed with
              | None | Some (O, _) => None
              | Some (S _, _) =>
                  if bool_decide (home_host ∈ own) || (home_uin <=? 0) || negb (host_re home_host) then None
                  else if verify_record_sig doc then Some (home_host, home_uin) else None
              end
          end
      end
  | _, _ => None
  end.

Definition home_of (d : sdb) (r : Row) (own : list string) : option (string * Z) :=
  home_from_doc (option_map hr_doc (home_records d !! w_uin r)) (w_uin r) (signing_key (w_keys r)) own.

(** ** Tenure of a scarce number *)

Definition MAX_ISLANDS : nat := 3.

(** [trusted_islands] *)
Definition trusted_islands (setting : string) (own : list string) : list string :=
  foldl (fun out raw =>
           let host := canonical_host raw in
           if negb (String.eqb host "") && bool_decide (host ∉ own) && bool_decide (host ∉ out) && host_re host
           then out ++ [host] else out) [] (split_comma setting).

(** [_same_key] *)
Definition same_key (a : option jv) (b : string) : bool :=
  match jstr a with
  | Some a => match decode_key32 a, decode_key32 b with Some x, Some y => bool_decide (x = y) | _, _ => false end
  | None => false
  end.

(** The homes of [homes] on trusted islands under number [uin], each once. *)
Definition named_on (homes : list jv) (uin : Z) (trusted : list string) : list string :=
  foldl (fun named h =>
           match jobj h with
           | None => named
           | Some o =>
               match jstr (jget "host" o) with
               | Some host =>
                   if is_bool (jget "uin" o) || negb (jeq (jget "uin" o) uin) then named
                   else
                     let host := canonical_host host in
                     if bool_decide (host ∈ trusted) && bool_decide (host ∉ named) then named ++ [host] else named
               | None => named
               end
           end) [] homes.

(** [_islands_naming] *)
Definition islands_naming (doc : option jv) (uin : Z) (sk : string) (trusted : list string) : list string :=
  match doc with
  | Some (JvObj doc) =>
      if negb (same_key (jget "sk" doc) sk) then []
      else match jlist (jget "homes" doc) with
      | Some homes =>
          match named_on homes uin trusted with
          | [] => []
          | named => if verify_record_sig doc then named else []
          end
      | None => []
      end
  | _ => []
  end.

(** What an island answers about a number: its record and its key card, each a
    JSON object from a 200 or nothing; [None]: it could not be asked. *)
Definition island_answer : Type := option (option fields * option fields).

(** [_island_confirms] *)
Definition island_confirms (answer : island_answer) (host : string) (uin : Z) (sk : string) : bool :=
  match answer with
  | Some (Some record, Some card) =>
      if negb (jeq (jget "uin" card) uin) || negb (same_key (jget "signing_key" card) sk) then false
      else bool_decide (islands_naming (Some (JvObj record)) uin sk [host] = [host])
  | _ => false
  end.

(** [holds_elsewhere]; [offered]: the record in the request, [ask]: the network. *)
Definition holds_elsewhere (trusted_setting : string) (own : list string) (ask : string -> Z -> island_answer)
    (d : sdb) (offered : option fields) (uin : Z) (sk : string) : bool :=
  let trusted := trusted_islands trusted_setting own in
  let from_offer :=
    match offered with
    | Some doc => if Z.of_nat (length (utf8 (dump_plain (JvObj doc)))) <=? MAX_DOC_BYTES
                  then islands_naming (Some (JvObj doc)) uin sk trusted else []
    | None => []
    end in
  let from_mirror := islands_naming (option_map go_doc (gossip_records d !! sk)) uin sk trusted in
  let pointers := from_offer ++ filter (fun h => h ∉ from_offer) from_mirror in
  existsb (fun host => island_confirms (ask host uin) host uin sk) (take MAX_ISLANDS pointers).

End federation.
