(* ===== verification/FederationFacts.v ===== *)
(** * What the records prove

    The mirror holds only what its owners signed and never goes back; the signed
    bytes of a record say one thing; a scarce number is granted only on the word
    of a trusted island; a backup copy is one by its owner's word; the open key
    card of a closed island describes nobody. *)

From stdpp Require Import base list gmap strings pretty.
From Stdlib Require Import ZArith Lia Ascii.
From S2P Require Import Prelude Text Uin Storage Redis RateLimit GuestPolicy Bytes KeyStorage Sessions Voucher KeyProof Door Rooms Accounts AccountsAuth AccountsDoor Json Profiles Federation.

Section facts.
Context (ed25519_verify : bytes -> bytes -> bytes -> bool) (sha256 : bytes -> bytes).
Let verify_record_sig := verify_record_sig ed25519_verify.

(** ** The mirror *)

(** What reaches [gossip_records]: writes and reads by anybody, sweeps, and the
    burn of the account with key [sk]. *)
Inductive gossip_op :=
  | PutGossip (now : Z) (fronts : string) (doc : fields)
  | GetGossip (now : Z) (sk : string)
  | SweepGossip (now max_idle : Z) (dry_run : bool)
  | BurnKey (sk : string).

Definition gossip_apply (op : gossip_op) (d : sdb) : sdb :=
  match op with
  | PutGossip now fronts doc => (put_gossip_record ed25519_verify now fronts doc d).2
  | GetGossip now sk => (get_gossip_record now sk d).2
  | SweepGossip now max_idle dry => gossip_sweep now max_idle dry d
  | BurnKey sk => set_gossip (delete sk (gossip_records d)) d
  end.
Definition gossip_run (ops : list gossip_op) (d : sdb) : sdb := foldl (fun d op => gossip_apply op d) d ops.

(** The row is a document its key signed, with that document's instant. *)
Definition signed_row (sk : string) (r : GossipRecord) : Prop :=
  exists doc, go_doc r = JvObj doc /\ jstr (jget "sk" doc) = Some sk /\ verify_record_sig doc = true /\
    jint (jget "ts" doc) = Some (go_ts r).
Definition gossip_ok (d : sdb) : Prop := map_Forall signed_row (gossip_records d).

Lemma put_gossip_inv now fronts doc d :
  (put_gossip_record ed25519_verify now fronts doc d).2 = d \/
  exists ts sk t, jint (jget "ts" doc) = Some ts /\ jstr (jget "sk" doc) = Some sk /\ verify_record_sig doc = true /\
    (forall r, gossip_records d !! sk = Some r -> go_ts r <= ts) /\
    put_gossip_record ed25519_verify now fronts doc d =
      (Ok ts, set_gossip (<[sk := mkGossip (JvObj doc) ts (Some t)]> (gossip_records d)) d).
Proof.
  unfold put_gossip_record, check_shape. case_match eqn:E; [|by left]. destruct a as [ts sk].
  destruct (MAX_DOC_BYTES <? _); [done|]. destruct (negb (jeq _ _)); [done|].
  destruct (jint (jget "ts" doc)) as [ts'|] eqn:Et; [|done]. destruct (ts' <=? 0); [done|].
  destruct (jlist (jget "homes" doc)) as [[|h homes]|]; [done| |done]. simpl in E.
  destruct (jstr (jget "sk" doc)) as [sk'|] eqn:Es; [|done].
  destruct (jstr (jget "ik" doc)); [|done]. destruct (jstr (jget "sig" doc)); [|done].
  destruct (check_front fronts (h :: homes)); [|done]. simpl in E.
  destruct (Federation.verify_record_sig ed25519_verify doc) eqn:Ev; [|done]. injection E as <- <-.
  destruct (gossip_records d !! sk') as [r|] eqn:Er.
  - destruct (ts' <? go_ts r) eqn:Elt; [by left|]. breflect. right.
    unfold touch. simpl. destruct (touched_at r) as [prev|]; [|exists ts', sk', now; split_and!; try done; naive_solver].
    destruct (now - prev <? TOUCH_EVERY); [exists ts', sk', prev|exists ts', sk', now]; split_and!; try done; naive_solver.
  - right. exists ts', sk', now. split_and!; try done. naive_solver.
Qed.

Lemma gossip_ok_step op d : gossip_ok d -> gossip_ok (gossip_apply op d).
Proof.
  intros Hd. destruct op as [now fronts doc|now sk|now mi dry|sk]; simpl.
  - destruct (put_gossip_inv now fronts doc d) as [->|(ts & sk & t & Ht & Hs & Hv & _ & ->)]; [done|]. simpl.
    apply map_Forall_insert_2; [|done]. by exists doc.
  - unfold get_gossip_record. destruct (gossip_records d !! strip sk) as [r|] eqn:Er; [|done].
    pose proof (Hd _ _ Er) as (doc & ? & ? & ? & ?). unfold touch.
    destruct (touched_at r) as [prev|]; [destruct (now - prev <? TOUCH_EVERY)|]; simpl; [done|..];
      (apply map_Forall_insert_2; [by exists doc|done]).
  - unfold gossip_sweep. destruct (_ || _); [done|]. simpl. intros sk r [Hr _]%map_lookup_filter_Some.
    apply lookup_fmap_Some in Hr as (r0 & <- & Hr). destruct (Hd _ _ Hr) as (doc & ? & ? & ? & ?). exists doc.
    unfold stamp_gossip. by destruct (touched_at r0).
  - by apply map_Forall_delete.
Qed.

(** C32. The mirror authenticates itself.  Anybody may write to it and nobody has to
    sign in, and yet whatever is written, read, swept and burned, every row is a
    document signed by the key it is stored under, with the instant the owner
    gave it. *)
Theorem gossip_authentic ops d : gossip_ok d -> gossip_ok (gossip_run ops d).
Proof.
  revert d. induction ops as [|op ops IH]; intros d Hd; [done|]. apply IH. by apply gossip_ok_step.
Qed.

(** A write or a read, which keep the rows there are. *)
Definition keeps_rows (op : gossip_op) : Prop :=
  match op with PutGossip _ _ _ | GetGossip _ _ => True | _ => False end.

Lemma gossip_step_forward op d sk r :
  keeps_rows op -> gossip_records d !! sk = Some r ->
  exists r', gossip_records (gossip_apply op d) !! sk = Some r' /\ go_ts r <= go_ts r' /\
    (go_ts r' = go_ts r -> go_doc r' = go_doc r \/ exists now fronts doc, op = PutGossip now fronts doc /\ go_doc r' = JvObj doc).
Proof.
  intros Hk Hr. destruct op as [now fronts doc|now k| |]; try done; simpl.
  - destruct (put_gossip_inv now fronts doc d) as [->|(ts & k & t & Ht & Hs & Hv & Hge & ->)]; [exists r; auto with lia|].
    simpl. destruct (decide (k = sk)) as [->|Hne].
    + rewrite lookup_insert_eq. eexists. split; [done|]. simpl. split; [by apply Hge|]. intros _. right. eauto.
    + rewrite lookup_insert_ne by done. exists r. auto with lia.
  - unfold get_gossip_record. destruct (gossip_records d !! strip k) as [g|] eqn:Eg; [|exists r; auto with lia].
    destruct (touch now g) as [c g'] eqn:Et. destruct c; simpl; [|exists r; auto with lia].
    destruct (decide (strip k = sk)) as [<-|Hne]; [|rewrite lookup_insert_ne by done; exists r; auto with lia].
    rewrite Hr in Eg. injection Eg as <-. rewrite lookup_insert_eq. exists g'. split; [done|].
    unfold touch in Et. destruct (touched_at r) as [prev|]; [destruct (now - prev <? TOUCH_EVERY)|];
      simplify_eq; simpl; auto with lia.
Qed.

(** No rollback: as long as a mirrored record is there, nobody can replace it by
    an older one of the same identity. *)
Theorem gossip_no_rollback ops d sk r :
  Forall keeps_rows ops -> gossip_records d !! sk = Some r ->
  exists r', gossip_records (gossip_run ops d) !! sk = Some r' /\ go_ts r <= go_ts r'.
Proof.
  intros Hops. revert d r. induction Hops as [|op ops Hop _ IH]; intros d r Hr; [exists r; auto with lia|].
  destruct (gossip_step_forward op d sk r Hop Hr) as (r1 & H1 & Hle & _). destruct (IH _ _ H1) as (r2 & H2 & Hle2).
  exists r2. split; [done|lia].
Qed.

(** What a sweep keeps: a record somebody wrote or read within the horizon, and
    one that was never observed, which is stamped and gets a full horizon. *)
Theorem gossip_sweep_spec now days_ d sk :
  0 < days_ ->
  gossip_records (gossip_sweep now days_ false d) !! sk =
    match gossip_records d !! sk with
    | Some r => match touched_at r with
                | Some t => if t <? now - days days_ then None else Some r
                | None => Some (mkGossip (go_doc r) (go_ts r) (Some now))
                end
    | None => None
    end.
Proof.
  intros Hd. unfold gossip_sweep. assert (days_ <=? 0 = false) as -> by lia. simpl. rewrite map_lookup_filter, lookup_fmap.
  destruct (gossip_records d !! sk) as [r|]; [|done]. simpl. unfold stamp_gossip.
  destruct (touched_at r) as [t|] eqn:Et; simpl.
  - unfold gossip_cold. rewrite Et. destruct (t <? now - days days_); by case_guard.
  - case_guard as Hg; [done|]. destruct Hg. unfold gossip_cold. simpl. unfold days, seconds, usec_per_sec. lia.
Qed.

(** ** Tenure *)

Lemma named_on_in homes uin trusted host :
  host ∈ named_on homes uin trusted ->
  host ∈ trusted /\ exists o h, JvObj o ∈ homes /\ jstr (jget "host" o) = Some h /\ canonical_host h = host /\
    jeq (jget "uin" o) uin = true.
Proof.
  unfold named_on. set (f := fun _ _ => _).
  assert (H : forall l acc, host ∈ foldl f acc l -> host ∈ acc \/ (host ∈ trusted /\ exists o h, JvObj o ∈ l /\
            jstr (jget "host" o) = Some h /\ canonical_host h = host /\ jeq (jget "uin" o) uin = true)).
  { intros l. induction l as [|x l IH]; intros acc; simpl; [by left|]. intros [Hin|(Ht & o & h & Ho & Hrest)]%IH.
    - unfold f in Hin. destruct (jobj x) as [o|] eqn:Eo; [|by left]. destruct (jstr (jget "host" o)) as [h|] eqn:Eh; [|by left].
      destruct (is_bool _ || _) eqn:Eb; [by left|]. apply orb_false_iff in Eb as [_ Eb]. apply negb_false_iff in Eb.
      destruct (bool_decide _ && _) eqn:Ec; [|by left]. apply andb_prop in Ec as [Ec _]. apply bool_decide_eq_true_1 in Ec.
      apply elem_of_app in Hin as [?|Hin]; [by left|]. apply list_elem_of_singleton in Hin as ->. right. split; [done|].
      exists o, h. split_and!; [|done..]. destruct x; try done. injection Eo as ->. apply elem_of_cons. by left.
    - right. split; [done|]. exists o, h. split; [|done]. apply elem_of_cons. by right. }
  intros [[]%elem_of_nil|?]%H. done.
Qed.

Lemma islands_naming_in doc uin sk trusted host :
  host ∈ islands_naming ed25519_verify doc uin sk trusted ->
  host ∈ trusted /\ exists l homes o h, doc = Some (JvObj l) /\ same_key (jget "sk" l) sk = true /\ verify_record_sig l = true /\
    jlist (jget "homes" l) = Some homes /\ JvObj o ∈ homes /\ jstr (jget "host" o) = Some h /\ canonical_host h = host /\
    jeq (jget "uin" o) uin = true.
Proof.
  unfold islands_naming. destruct doc as [[| | | | | |l]|]; try by intros []%elem_of_nil.
  destruct (same_key (jget "sk" l) sk) eqn:Es; [simpl|by intros []%elem_of_nil].
  destruct (jlist (jget "homes" l)) as [homes|] eqn:Eh; [|by intros []%elem_of_nil].
  destruct (named_on homes uin trusted) as [|a named] eqn:En; [by intros []%elem_of_nil|].
  destruct (Federation.verify_record_sig ed25519_verify l) eqn:Ev; [|by intros []%elem_of_nil].
  rewrite <-En. intros (Ht & o & h & Ho & H1 & H2 & H3)%named_on_in. split; [done|]. exists l, homes, o, h. by split_and!.
Qed.

Lemma trusted_islands_in setting own host : host ∈ trusted_islands setting own -> host ∉ own /\ host_re host = true.
Proof.
  unfold trusted_islands. set (f := fun _ _ => _).
  assert (H : forall l acc, host ∈ foldl f acc l -> host ∈ acc \/ (host ∉ own /\ host_re host = true)).
  { intros l. induction l as [|x l IH]; intros acc; simpl; [by left|]. intros [Hin|?]%IH; [|by right].
    unfold f in Hin. destruct (_ && host_re _) eqn:Ec; [|by left].
    apply andb_prop in Ec as [[[_ Ec]%andb_prop _]%andb_prop Er]. apply bool_decide_eq_true_1 in Ec.
    apply elem_of_app in Hin as [?|Hin]; [by left|]. apply list_elem_of_singleton in Hin as ->. by right. }
  intros [[]%elem_of_nil|?]%H. done.
Qed.

(** The trusted island [host] says, asked about [uin], that it is held by the
    key [sk]: its key card carries the key, and it serves a record signed by
    that key which names the number there. *)
Definition confirmed_by (ask : string -> Z -> island_answer) (host : string) (uin : Z) (sk : string) : Prop :=
  exists record card homes o h,
    ask host uin = Some (Some record, Some card) /\
    jeq (jget "uin" card) uin = true /\ same_key (jget "signing_key" card) sk = true /\
    same_key (jget "sk" record) sk = true /\ verify_record_sig record = true /\
    jlist (jget "homes" record) = Some homes /\ JvObj o ∈ homes /\ jstr (jget "host" o) = Some h /\
    canonical_host h = host /\ jeq (jget "uin" o) uin = true.

Lemma holds_elsewhere_sound setting own ask d offered uin sk :
  holds_elsewhere ed25519_verify setting own ask d offered uin sk = true ->
  exists host, host ∈ trusted_islands setting own /\ host ∉ own /\ confirmed_by ask host uin sk.
Proof.
  unfold holds_elsewhere. set (off := match offered with Some _ => _ | None => _ end).
  intros (host & Hin & Hc)%existsb_elem. apply elem_of_take in Hin as (i & Hin%list_elem_of_lookup_2 & _).
  assert (Ht : host ∈ trusted_islands setting own).
  { apply elem_of_app in Hin as [Hin|[_ Hin]%list_elem_of_filter].
    - unfold off in Hin. destruct offered as [doc|]; [|by apply elem_of_nil in Hin].
      destruct (_ <=? _); [|by apply elem_of_nil in Hin]. by apply islands_naming_in in Hin as [? _].
    - by apply islands_naming_in in Hin as [? _]. }
  exists host. split; [done|]. split; [by apply (trusted_islands_in setting)|].
  unfold island_confirms in Hc. destruct (ask host uin) as [[[record|] [card|]]|] eqn:Ea; try done.
  destruct (negb (jeq _ _) || negb _) eqn:Ec; [done|]. apply orb_false_iff in Ec as [E1 E2]. apply negb_false_iff in E1, E2.
  apply bool_decide_eq_true_1 in Hc.
  assert (Hh : host ∈ islands_naming ed25519_verify (Some (JvObj record)) uin sk [host]) by (rewrite Hc; by apply list_elem_of_singleton).
  apply islands_naming_in in Hh as (_ & l & homes & o & h & [= ->] & Hk & Hv & Hl & Ho & H1 & H2 & H3).
  exists l, card, homes, o, h. by split_and!.
Qed.

(** A self-signed claim is worth nothing here: whatever record is offered in the
    request or was planted in the mirror, a number counts as held elsewhere only
    if an island on the operator's list, other than this one, was asked and
    answered with a key card for the number that carries this key, and with a
    record signed by this key that names the number on that island. *)
Theorem tenure_confirmed setting own ask d offered uin sk :
  holds_elsewhere ed25519_verify setting own ask d offered uin sk = true ->
  exists host, host ∈ trusted_islands setting own /\ host ∉ own /\ confirmed_by ask host uin sk.
Proof. apply holds_elsewhere_sound. Qed.

End facts.

Section composed.
Context {R : Type} `{RR : Redis R} `{JT : JWT string}.
Context (bucket : string -> string) (sha256 : bytes -> bytes) (ed25519_verify : bytes -> bytes -> bytes -> bool).
Context (loads : bytes -> option json) (public_key : option string).

(** The two together: a registration walks away with a scarce number only on an
    invite that names it, or on the word of a trusted island about the key that
    signed the request. *)
Theorem scarce_number_confirmed e b s out s' setting own ask d offered :
  ae_tenure e = holds_elsewhere ed25519_verify setting own ask d offered ->
  NoDup (map code (invite_rows (tables s))) ->
  register (R := R) bucket sha256 ed25519_verify loads public_key e b s = (Ok out, s') ->
  s_created out = true -> is_reserved_uin (s_uin out) = true ->
  (exists inv, inv ∈ invite_rows (tables s) /\ invite_is_live (ae_now e) inv = true /\
     invite_uin inv = Some (s_uin out) /\ code inv = hash_invite_code sha256 (presented b)) \/
  exists host, host ∈ trusted_islands setting own /\ host ∉ own /\
    confirmed_by ed25519_verify ask host (s_uin out) (strip (r_signing_key b)).
Proof.
  intros He Hpk Hr Hc Hres. destruct (number_granted_facts bucket sha256 ed25519_verify loads public_key e b s out s' Hpk Hr Hc)
    as (_ & _ & _ & H). destruct (H Hres) as [?|(_ & _ & Ht)]; [by left|]. right. rewrite He in Ht.
  by apply holds_elsewhere_sound in Ht.
Qed.
End composed.

(** ** Backup copies and the open card *)

Section cards.
Context (ed25519_verify : bytes -> bytes -> bytes -> bool) (sha256 : bytes -> bytes).

Lemma parse_homes_lookup homes parsed i host n :
  parse_homes homes = Some parsed -> parsed !! i = Some (host, n) ->
  exists o h, homes !! i = Some (JvObj o) /\ jstr (jget "host" o) = Some h /\ canonical_host h = host /\ jint (jget "uin" o) = Some n.
Proof.
  intros Hp Hi. apply mapM_Some_1 in Hp. destruct (Forall2_lookup_r _ _ _ _ _ Hp Hi) as (x & Hx & E).
  destruct (jobj x) as [o|] eqn:Eo; [|done]. destruct (jstr (jget "host" o)) as [h|] eqn:Eh; [|done].
  destruct (jint (jget "uin" o)) as [m|] eqn:Em; [|done]. injection E as <- <-. destruct x; try done. injection Eo as ->.
  by exists o, h.
Qed.

(** An account is taken for a backup copy only on its owner's word: the record
    stored for it is signed by the account's own key, names this account on one
    of this island's names, and names another island first, which is the answer.
    Nobody else can turn an account into a copy. *)
Theorem copy_by_owner d r own host n :
  home_of ed25519_verify d r own = Some (host, n) ->
  exists l homes o0 h0 i o h,
    option_map hr_doc (home_records d !! w_uin r) = Some (JvObj l) /\
    verify_record_sig ed25519_verify l = true /\ jstr (jget "sk" l) = signing_key (w_keys r) /\
    jlist (jget "homes" l) = Some homes /\
    homes !! O = Some (JvObj o0) /\ jstr (jget "host" o0) = Some h0 /\ canonical_host h0 = host /\ jint (jget "uin" o0) = Some n /\
    host ∉ own /\ 0 < n /\
    homes !! S i = Some (JvObj o) /\ jstr (jget "host" o) = Some h /\ canonical_host h ∈ own /\ jint (jget "uin" o) = Some (w_uin r).
Proof.
  unfold home_of, home_from_doc. destruct (option_map hr_doc _) as [[| | | | | |l]|] eqn:Ed; try done.
  destruct (signing_key (w_keys r)) as [sk|] eqn:Esk; [|done]. destruct (String.eqb sk "" || _) eqn:E1; [done|].
  apply orb_false_iff in E1 as [_ E1]. apply negb_false_iff, bool_decide_eq_true_1 in E1.
  destruct (jlist (jget "homes" l)) as [homes|] eqn:Eh; [|done]. destruct (length homes <? 2)%nat; [done|].
  destruct (parse_homes homes) as [[|[host0 n0] parsed]|] eqn:Ep; try done.
  match goal with |- context [list_find ?P ?L] => destruct (list_find P L) as [[[|i] [hm nm]]|] eqn:Ef; try done end.
  apply list_find_Some in Ef as (Hi & [Hown Hn] & _). simpl in Hown, Hn. subst nm.
  destruct (bool_decide (host0 ∈ own) || _ || _) eqn:E2; [done|].
  apply orb_false_iff in E2 as [[E2 E3]%orb_false_iff _]. apply bool_decide_eq_false_1 in E2.
  destruct (verify_record_sig ed25519_verify l) eqn:Ev; [|done]. intros [= <- <-].
  destruct (parse_homes_lookup homes _ 0 host0 n0 Ep eq_refl) as (o0 & h0 & H1 & H2 & H3 & H4).
  destruct (parse_homes_lookup homes _ (S i) hm (w_uin r) Ep Hi) as (o & h & H5 & H6 & H7 & H8). subst hm.
  exists l, homes, o0, h0, i, o, h. split_and!; try done. lia.
Qed.

(** On an island that refuses strangers, the answer to one without a card is the
    same whatever the number and whatever is stored; on a closed island that
    does not, such a caller gets keys and nothing that describes a person. *)
Theorem closed_card_describes_nobody now uin refuse d :
  get_public_keys sha256 now uin None true true d = Raise (HTTPException 403 "island_closed") /\
  match get_public_keys sha256 now uin None true refuse d with
  | Ok c => pk_nickname c = None /\ pk_gender c = None /\ pk_status_message c = None /\ pk_openable c = false
  | Raise _ => True
  end.
Proof.
  unfold get_public_keys, open_card_mode, redeem_card. simpl. split; [done|]. destruct refuse; simpl; [done|].
  destruct (user_row d uin) as [r|]; [|done]. destruct (String.eqb _ ""); [done|]. simpl. rewrite !andb_false_r. by split_and!.
Qed.
End cards.

(** ** The signed bytes of a record *)

(** A record as clients write it. *)
Record home_record := mkRecord { rec_ik : string; rec_sk : string; rec_homes : list (string * Z); rec_ts : Z }.
Definition record_doc (r : home_record) : fields :=
  [("v", JvInt 1); ("ik", JvStr (rec_ik r)); ("sk", JvStr (rec_sk r));
   ("homes", JvList (map (fun h => JvObj [("host", JvStr h.1); ("uin", JvInt h.2)]) (rec_homes r))); ("ts", JvInt (rec_ts r))].

Definition quoted (s : string) (rest : string) : string := (str_text s ++ rest)%string.
Definition home_text (h : string * Z) : string :=
  (String "{" (quoted "host" (String ":" (quoted h.1 (String "," (quoted "uin" (String ":" (pretty h.2 ++ "}"))))))))%string.
Definition homes_text (l : list (string * Z)) : string := join_with "," (map home_text l).
Definition record_text (r : home_record) : string :=
  (String "{" (quoted "homes" (String ":" (String "[" (homes_text (rec_homes r) ++ String "]" (String ","
     (quoted "ik" (String ":" (quoted (rec_ik r) (String "," (quoted "sk" (String ":" (quoted (rec_sk r) (String ","
        (quoted "ts" (String ":" (pretty (rec_ts r) ++ String "," (quoted "v" (String ":" "1}")))))))))))))))))))%string.

Definition home_value (h : string * Z) : jv := JvObj [("host"%string, JvStr h.1); ("uin"%string, JvInt h.2)].

Lemma dump_home h : dump_jv true (home_value h) = home_text h.
Proof. unfold dump_jv, home_value, home_text, quoted. simpl. by rewrite !str_app_assoc. Qed.

Lemma dump_record r :
  dump_jv true (JvObj [("v", JvInt 1); ("ik", JvStr (rec_ik r)); ("sk", JvStr (rec_sk r));
                       ("homes", JvList (map home_value (rec_homes r))); ("ts", JvInt (rec_ts r))]) = record_text r.
Proof.
  unfold dump_jv, record_text, homes_text, quoted. rewrite <-(map_ext _ _ dump_home). simpl.
  assert (Hc : forall c s t, (String c s ++ t = String c (s ++ t))%string) by done.
  rewrite map_map, !str_app_assoc, (Hc "["%char), str_app_assoc. reflexivity.
Qed.

Lemma record_bytes_text r : record_signed_bytes (record_doc r) = Some (utf8 (record_text r)).
Proof.
  rewrite <-dump_record. unfold record_signed_bytes.
  change (jraw "homes" (record_doc r)) with (Some (JvList (map home_value (rec_homes r)))).
  change (jraw "ik" (record_doc r)) with (Some (JvStr (rec_ik r))).
  change (jraw "sk" (record_doc r)) with (Some (JvStr (rec_sk r))).
  change (jraw "ts" (record_doc r)) with (Some (JvInt (rec_ts r))).
  assert (E : signed_homes (JvList (map home_value (rec_homes r))) = Some (map home_value (rec_homes r))).
  { apply mapM_Some_2. induction (rec_homes r); constructor; done. }
  cbv iota beta. by rewrite E.
Qed.

Lemma string_cons_app c s t : (String c s ++ t = String c (s ++ t))%string.
Proof. done. Qed.
Lemma string_nil_app s : ("" ++ s = s)%string.
Proof. done. Qed.
Lemma string_cons_inj c s t : String c s = String c t -> s = t.
Proof. by injection 1. Qed.

(** Reads quoted texts and characters off both sides of [E]. *)
Ltac peel E :=
  repeat (rewrite ?str_app_assoc, ?string_cons_app, ?string_nil_app in E;
          match type of E with
          | String _ _ = String _ _ => apply string_cons_inj in E
          | (str_text _ ++ _ = str_text _ ++ _)%string => apply str_text_inj in E as [? E]
          end).

Lemma home_text_inj h1 h2 t1 t2 : (home_text h1 ++ t1 = home_text h2 ++ t2)%string -> h1 = h2 /\ t1 = t2.
Proof.
  destruct h1 as [a1 n1], h2 as [a2 n2]. unfold home_text, quoted. cbn [fst snd]. intros E. peel E. subst.
  rewrite ?str_app_assoc, ?string_cons_app, ?string_nil_app in E. by apply pretty_sep in E as [-> [= ->]].
Qed.

Lemma homes_text_inj l1 : forall l2 t1 t2,
  (homes_text l1 ++ String "]" t1 = homes_text l2 ++ String "]" t2)%string -> l1 = l2 /\ t1 = t2.
Proof.
  assert (Hnil : forall h l t t', (homes_text (h :: l) ++ t = String "]" t')%string -> False).
  { intros h l t t'. unfold homes_text, home_text. destruct l; cbn [map join_with]; rewrite ?str_app_assoc, ?string_cons_app; discriminate. }
  induction l1 as [|h1 l1 IH]; intros [|h2 l2] t1 t2.
  - by intros [= ->].
  - intros E. exfalso. exact (Hnil h2 l2 (String "]" t2) t1 (eq_sym E)).
  - intros E. exfalso. exact (Hnil h1 l1 (String "]" t1) t2 E).
  - assert (Hc : forall h l t, (homes_text (h :: l) ++ t = home_text h ++ match l with [] => t | _ => String "," (homes_text l ++ t) end)%string).
    { intros h [|h' l] t; unfold homes_text; cbn [map join_with]; [done|]. by rewrite !str_app_assoc. }
    rewrite !Hc. intros [-> E]%home_text_inj. destruct l1 as [|x l1], l2 as [|y l2]; try discriminate E.
    + by injection E as ->.
    + injection E as E. by apply IH in E as [<- <-].
Qed.

(** A record says one thing: two records with the same signed bytes name the
    same keys, the same homes in the same order and the same instant, whatever
    text the hosts and keys are made of.  A signature cannot be carried over to
    another list of homes. *)
Theorem record_unambiguous r1 r2 b :
  record_signed_bytes (record_doc r1) = Some b -> record_signed_bytes (record_doc r2) = Some b -> r1 = r2.
Proof.
  rewrite !record_bytes_text. intros [= <-] [= E]. apply utf8_inj in E. destruct r1 as [ik1 sk1 h1 t1], r2 as [ik2 sk2 h2 t2].
  unfold record_text, quoted in E. cbn [rec_ik rec_sk rec_homes rec_ts] in E. peel E.
  symmetry in E. apply homes_text_inj in E as [<- E]. peel E. subst. by apply pretty_sep in E as [<- _].
Qed.

(** ** On concrete records *)

Section demo.
#[local] Existing Instance demo_jwt.

(** The holder of [K_fresh] answers to 555 on a trusted island. *)
Definition demo_record : home_record := mkRecord K_new K_fresh [("api.rcq.app"%string, 555); ("isle.example"%string, 5)] 40.
Definition demo_doc : fields := record_doc demo_record ++ [("sig"%string, JvStr (b64encode (repeat 4 64)))].
Definition demo_card : fields := [("uin"%string, JvInt 555); ("signing_key"%string, JvStr K_fresh)].
Definition demo_ask (host : string) (uin : Z) : island_answer :=
  if String.eqb host "api.rcq.app" && (uin =? 555) then Some (Some demo_doc, Some demo_card) else None.
Definition demo_sdb : sdb := mkSdb (demo_accounts K) ∅ ∅ ∅ [] 1 ∅ [].
Definition demo_own : list string := own_hosts "isle.example" "" "".
Definition demo_trusted : string := "api.rcq.app,is2.rcq.app".

Definition tenure_env : aenv :=
  mkAenv demo_room_env 3600 (Some "open"%string) (Some false) "isle.example" "" "" false false "auto" 600 30 0 0
    Uin.demo_rand "lock" (holds_elsewhere demo_verify demo_trusted demo_own demo_ask demo_sdb (Some demo_doc))
    auth_all_up true true true (true, true) true.
Definition tenured : RegisterIn :=
  mkRegisterIn "home" K_new K_fresh None None (Some 555) None (Some ("n" ++ K_fresh)%string) (Some (b64encode (repeat 4 64))).
Definition tenured_end := demo_register tenure_env tenured (demo_ast K).
Definition tenured_out : SessionFor := mkSessionFor 555 "t555/0" false None true.

Lemma tenured_runs : demo_register tenure_env tenured (demo_ast K) = (Ok tenured_out, tenured_end.2).
Proof.
  assert (E : (demo_register tenure_env tenured (demo_ast K)).1 = Ok tenured_out) by (vm_compute; reflexivity).
  unfold tenured_end. destruct (demo_register tenure_env tenured (demo_ast K)) as [o s]. simpl in *. by rewrite E.
Qed.

Lemma tenure_confirmed_witness :
  exists host, host ∈ trusted_islands demo_trusted demo_own /\ host ∉ demo_own /\ confirmed_by demo_verify demo_ask host 555 K_fresh.
Proof. apply (tenure_confirmed demo_verify demo_trusted demo_own demo_ask demo_sdb (Some demo_doc)). vm_compute. reflexivity. Defined.

Lemma scarce_number_confirmed_witness :
  (exists inv, inv ∈ invite_rows (demo_accounts K) /\ invite_is_live (ae_now tenure_env) inv = true /\
     invite_uin inv = Some 555 /\ code inv = hash_invite_code demo_sha (presented tenured)) \/
  exists host, host ∈ trusted_islands demo_trusted demo_own /\ host ∉ demo_own /\
    confirmed_by demo_verify demo_ask host 555 (strip (r_signing_key tenured)).
Proof.
  apply (scarce_number_confirmed (R := store) (fun s => s) demo_sha demo_verify demo_loads None tenure_env tenured (demo_ast K)
           tenured_out tenured_end.2 demo_trusted demo_own demo_ask demo_sdb (Some demo_doc));
    [reflexivity|apply NoDup_singleton|exact tenured_runs|reflexivity|by vm_compute].
Defined.

(** Account 5 under [K], a backup of 777 at home. *)
Definition copy_doc : fields :=
  record_doc (mkRecord K_new K [("home.example"%string, 777); ("isle.example"%string, 5)] 7) ++ [("sig"%string, JvStr (b64encode (repeat 7 64)))].
Definition copy_sdb : sdb := set_home_records {[ 5 := mkHomeRecord (JvObj copy_doc) 7 ]} demo_sdb.
Definition copy_row : Row :=
  mkRow 5 (mkUser 100 100 None [] false plain_profile) (mkUserKeys K_new (Some K) None None None None None None) no_account new_person.

Lemma copy_by_owner_witness :
  exists l homes o0 h0 i o h,
    option_map hr_doc (home_records copy_sdb !! w_uin copy_row) = Some (JvObj l) /\
    verify_record_sig demo_verify l = true /\ jstr (jget "sk" l) = signing_key (w_keys copy_row) /\
    jlist (jget "homes" l) = Some homes /\
    homes !! O = Some (JvObj o0) /\ jstr (jget "host" o0) = Some h0 /\ canonical_host h0 = "home.example"%string /\
    jint (jget "uin" o0) = Some 777 /\ "home.example"%string ∉ demo_own /\ 0 < 777 /\
    homes !! S i = Some (JvObj o) /\ jstr (jget "host" o) = Some h /\ canonical_host h ∈ demo_own /\
    jint (jget "uin" o) = Some (w_uin copy_row).
Proof. apply (copy_by_owner demo_verify copy_sdb copy_row demo_own "home.example" 777). vm_compute. reflexivity. Defined.

Definition mirror_ops : list gossip_op :=
  [PutGossip 100 "" demo_doc; GetGossip (hours 2) K_fresh].

Lemma gossip_authentic_witness : gossip_ok demo_verify (gossip_run demo_verify mirror_ops demo_sdb).
Proof. apply (gossip_authentic demo_verify mirror_ops demo_sdb). apply map_Forall_empty. Defined.

Lemma gossip_no_rollback_witness :
  exists r', gossip_records (gossip_run demo_verify mirror_ops (gossip_run demo_verify [PutGossip 0 "" demo_doc] demo_sdb)) !! K_fresh = Some r' /\
    40 <= go_ts r'.
Proof.
  apply (gossip_no_rollback demo_verify mirror_ops (gossip_run demo_verify [PutGossip 0 "" demo_doc] demo_sdb) K_fresh
           (mkGossip (JvObj demo_doc) 40 (Some 0))); [repeat constructor|by vm_compute].
Defined.

Lemma gossip_sweep_spec_witness :
  gossip_records (gossip_sweep (days 200) 180 false (gossip_run demo_verify mirror_ops demo_sdb)) !! K_fresh = None.
Proof. rewrite (gossip_sweep_spec (days 200) 180 (gossip_run demo_verify mirror_ops demo_sdb) K_fresh); [by vm_compute|lia]. Defined.

Lemma record_unambiguous_witness : demo_record = demo_record.
Proof. apply (record_unambiguous demo_record demo_record _ eq_refl eq_refl). Defined.
End demo.
