(* ===== verification/Users.v ===== *)
(** * The directory and a person's own settings

    Models [src/app/routers/users.py] (search, batch lookup, the profile card,
    the own profile, push endpoints, capabilities, push preferences, TURN
    credentials), the marks of [services/contact_source.py], and of
    [services/apns.py] the rule whether an event is pushed at all.

    The database's [ILIKE] and its order of names are parameters of the search. *)

From stdpp Require Import base list sorting gmap strings pretty.
From Stdlib Require Import ZArith Lia Ascii.
From S2P Require Import Prelude Text Storage Redis RateLimit GuestPolicy Bytes KeyStorage Sessions KeyProof Door Rooms Accounts Json Profiles Federation.

(** ** The search *)

(** [int(s)] of a text of digits: more than 4300 of them are refused, and so are
    the superscripts. *)
Definition py_int (s : string) : outcome Z :=
  if (4300 <? String.length s)%nat then Raise (ValueError "Exceeds the limit (4300 digits)")
  else match read_digits 0 s with
       | Some n => Ok (Z.of_N n)
       | None => Raise (ValueError "invalid literal for int()")
       end.

(** What was typed: ["#123"], ["123"], or words. *)
Inductive query := Exactly (n : Z) | Number (n : Z) | Words.

Definition hash_digits (raw : string) : option string :=
  match raw with String c s => if Ascii.eqb c "#" && isdigit s then Some s else None | EmptyString => None end.
Definition query_of (raw : string) : outcome query :=
  match hash_digits raw with
  | Some s => let! n := py_int s in Ok (Exactly n)
  | None => if isdigit raw then let! n := py_int raw in Ok (Number n) else Ok Words
  end.
Definition exact_uin (q : query) : option Z := match q with Exactly n | Number n => Some n | Words => None end.

(** A number the column cannot hold is refused by the driver. *)
Definition fits_bigint (q : query) : bool := match exact_uin q with Some n => n <? 2 ^ 63 | None => true end.

Fixpoint is_prefix (a s : string) : bool :=
  match a, s with
  | EmptyString, _ => true
  | String c a', String c' s' => Ascii.eqb c c' && is_prefix a' s'
  | _, _ => false
  end.
(** [s LIKE '%a%'] for an [a] without wildcards. *)
Fixpoint contains (a s : string) : bool :=
  is_prefix a s || match s with EmptyString => false | String _ s' => contains a s' end.

Definition profile_public (p : Person) : bool := String.eqb (profile_visibility p) "everyone".

(** The first of the conditions that holds. *)
Fixpoint case_rank (l : list (bool * Z)) (otherwise : Z) : Z :=
  match l with [] => otherwise | (c, n) :: l' => if c then n else case_rank l' otherwise end.

Section search.
(** [ilike pattern value], and the collation of [lower(nickname)]. *)
Context (ilike : string -> string -> bool) (name_le : string -> string -> bool).

Definition opt_ilike (pattern : string) (v : option string) : bool :=
  match v with Some s => ilike pattern s | None => false end.

Definition text_clause (raw : string) (r : Row) : bool :=
  let like := ("%" ++ lower raw ++ "%")%string in
  let p := w_person r in
  ilike like (nickname (profile (w_user r)))
  || (profile_public p && opt_ilike like (first_name p))
  || (profile_public p && opt_ilike like (last_name p)).

(** [cast(User.uin, String).like(...)] *)
Definition uin_contains (raw : string) (uin : Z) : bool := contains raw (pretty uin).

Definition search_clause (raw : string) (q : query) (r : Row) : bool :=
  match q with
  | Exactly n => w_uin r =? n
  | Number n => (w_uin r =? n) || uin_contains raw (w_uin r) || text_clause raw r
  | Words => text_clause raw r
  end.

Definition search_rank (raw : string) (q : query) (r : Row) : Z :=
  let nick := nickname (profile (w_user r)) in
  let p := w_person r in
  let prefix := (lower raw ++ "%")%string in
  let like := ("%" ++ lower raw ++ "%")%string in
  let exact := bool_decide (exact_uin q = Some (w_uin r)) in
  let by_name := String.eqb (lower nick) (lower raw) in
  let by_prefix := ilike prefix nick || (profile_public p && opt_ilike prefix (first_name p))
                   || (profile_public p && opt_ilike prefix (last_name p)) in
  match q with
  | Number _ =>
      case_rank [(exact, 0); (uin_contains raw (w_uin r), 1); (by_name, 2); (by_prefix, 3); (ilike like nick, 4)] 5
  | _ => case_rank [(exact, 0); (by_name, 1); (by_prefix, 2); (ilike like nick, 3)] 5
  end.

(** [ORDER BY rank, contact_last, lower(nickname), uin] *)
Definition search_le (raw : string) (q : query) (friend : Z -> bool) (a b : Row) : bool :=
  let ra := search_rank raw q a in
  let rb := search_rank raw q b in
  let ca := if friend (w_uin a) then 0 else 1 in
  let cb := if friend (w_uin b) then 0 else 1 in
  let na := lower (nickname (profile (w_user a))) in
  let nb := lower (nickname (profile (w_user b))) in
  if negb (ra =? rb) then ra <? rb
  else if negb (ca =? cb) then ca <? cb
  else if negb (String.eqb na nb) then name_le na nb
  else w_uin a <=? w_uin b.

Fixpoint insert_row (le : Row -> Row -> bool) (x : Row) (l : list Row) : list Row :=
  match l with [] => [x] | y :: l' => if le x y then x :: l else y :: insert_row le x l' end.
Definition sort_rows (le : Row -> Row -> bool) (l : list Row) : list Row := foldr (insert_row le) [] l.

Definition all_rows (d : sdb) : list Row :=
  omap (fun kv => user_row d kv.1) (map_to_list (users (score d))).

(** Who may be listed to [me]. *)
Definition listable (me : Z) (r : Row) : bool :=
  negb (w_uin r =? me) && negb (is_suspended (w_user r)) && bool_decide (guest_status (w_user r) = None).

End search.

(** ** The own profile *)

(** [ProfileUpdate]: [None] is a field that was not sent, [Some None] a null. *)
Record ProfileUpdate := mkProfileUpdate {
  up_nickname : option (option string);
  up_first_name : option (option string);
  up_last_name : option (option string);
  up_age : option (option Z);
  up_gender : option (option string);
  up_city : option (option string);
  up_country : option (option string);
  up_about : option (option string);
  up_interests : option (option (list string));
  up_homepage : option (option string);
  up_status_message : option (option string);
  up_last_seen_visibility : option (option string);
  up_gender_visibility : option (option string);
  up_profile_visibility : option (option string);
  up_profile_card_policy : option (option string);
  up_group_invite_policy : option (option string);
  up_call_policy : option (option string);
  up_read_receipts_visibility : option (option string);
  up_badge_hidden : option (option bool);
  up_badge : option (option string);
  up_hof_opt_in : option (option bool);
  up_hof_avatar : option (option string);
  up_avatar_media_id : option (option string);
  up_avatar_media_key : option (option string)
}.

Definition no_update : ProfileUpdate :=
  mkProfileUpdate None None None None None None None None None None None None None None None None None None None None
    None None None None.

Definition HOF_AVATAR_MIMES : list string := ["image/gif"; "image/png"; "image/jpeg"; "image/webp"]%string.
Definition HOF_AVATAR_MAX_CHARS : Z := 360000.

Fixpoint drop_chars (n : nat) (s : string) : string :=
  match n, s with S n, String _ s => drop_chars n s | _, _ => s end.

(** [s.split(sep, 1)], if [sep in s]. *)
Fixpoint split_once (sep s : string) : option (string * string) :=
  if is_prefix sep s then Some (""%string, drop_chars (String.length sep) s)
  else match s with
       | EmptyString => None
       | String c s' => option_map (fun ab => (String c ab.1, ab.2)) (split_once sep s')
       end.

Definition validate_hof_avatar (raw : string) : outcome string :=
  if HOF_AVATAR_MAX_CHARS <? Z.of_nat (String.length raw) then Raise (HTTPException 400 "hof_avatar too large")
  else
    let refused := Raise (HTTPException 400 "hof_avatar must be a base64 image data-URI") in
    if negb (is_prefix "data:" raw) then refused
    else match split_once ";base64," raw with
    | None => refused
    | Some (header, b64) =>
        let mime := lower (strip (drop_chars 5 header)) in
        if negb (bool_decide (mime ∈ HOF_AVATAR_MIMES)) then Raise (HTTPException 400 "hof_avatar unsupported image type")
        else match b64decode_strict b64 with
             | None => Raise (HTTPException 400 "hof_avatar invalid base64")
             | Some [] => Raise (HTTPException 400 "hof_avatar empty")
             | Some _ => Ok ("data:" ++ mime ++ ";base64," ++ b64)%string
             end
    end.

(** [if key in data: if data[key] not in (...): raise] *)
Definition check_choice (v : option (option string)) (allowed : list string) (detail : string) : outcome unit :=
  match v with
  | None => Ok tt
  | Some (Some s) => if bool_decide (s ∈ allowed) then Ok tt else Raise (HTTPException 400 detail)
  | Some None => Raise (HTTPException 400 detail)
  end.

Definition check_policies (b : ProfileUpdate) : outcome unit :=
  let! _ := check_choice (up_last_seen_visibility b) POLICY_VALUES "invalid last_seen_visibility" in
  let! _ := check_choice (up_gender_visibility b) POLICY_VALUES "invalid gender_visibility" in
  let! _ := check_choice (up_profile_visibility b) POLICY_VALUES "invalid profile_visibility" in
  let! _ := check_choice (up_profile_card_policy b) POLICY_VALUES "invalid profile_card_policy" in
  let! _ := check_choice (up_group_invite_policy b) POLICY_VALUES "invalid group_invite_policy" in
  let! _ := check_choice (up_call_policy b) POLICY_VALUES "invalid call_policy" in
  let! _ := check_choice (up_read_receipts_visibility b) POLICY_VALUES "invalid read_receipts_visibility" in
  match up_gender b with
  | Some (Some g) =>
      if bool_decide (g ∈ ["male"; "female"; "other"]%string) then Ok tt else Raise (HTTPException 400 "invalid gender")
  | _ => Ok tt
  end.

(** [(v or "").strip()] *)
Definition stripped (v : option string) : string := strip (default ""%string v).
(** [(v or "").strip() or None] *)
Definition trimmed (v : option string) : option string := truthy (Some (stripped v)).

Definition check_badge (v : option (option string)) (held : list string) : outcome (option (option string)) :=
  match v with
  | None => Ok None
  | Some v =>
      let wanted := stripped v in
      if negb (String.eqb wanted "") && negb (bool_decide (wanted ∈ held))
      then Raise (HTTPException 403 "badge_not_held") else Ok (Some (trimmed v))
  end.

Definition check_hof_avatar (v : option (option string)) : outcome (option (option string)) :=
  match v with
  | None => Ok None
  | Some v =>
      if String.eqb (stripped v) "" then Ok (Some None)
      else let! a := validate_hof_avatar (stripped v) in Ok (Some (Some a))
  end.

(** The pair that is written, if either half was sent. *)
Definition check_avatar (i k : option (option string)) : outcome (option (option string * option string)) :=
  match i, k with
  | None, None => Ok None
  | _, _ =>
      let new_id := trimmed (default None i) in
      let new_key := trimmed (default None k) in
      match new_id, new_key with
      | None, Some _ => Raise (HTTPException 400 "avatar_media_key without avatar_media_id")
      | _, _ => Ok (Some (new_id, new_key))
      end
  end.

(** What the columns hold: a text has its length, an integer its 32 bits. *)
Definition fits (n : nat) (v : option string) : bool := (String.length (default ""%string v) <=? n)%nat.
Definition columns_hold (u : User) (p : Person) : bool :=
  fits 64 (Some (nickname (profile u))) && fits 16 (badge (profile u))
  && fits 64 (first_name p) && fits 64 (last_name p) && fits 64 (city p) && fits 64 (country p)
  && fits 255 (homepage p) && fits 255 (status_message p)
  && match age p with Some a => (- 2 ^ 31 <=? a) && (a <? 2 ^ 31) | None => true end.

(** [setattr] for every key of [data]; [null] in a column that holds none is
    refused by the database. *)
Definition set_or {A} (v : option (option A)) (old : option A) : option A := default old v.
Definition set_req {A} (v : option (option A)) (old : A) : option A := match v with None => Some old | Some v => v end.
Definition policy_or (v : option (option string)) (old : string) : string :=
  match v with Some (Some s) => s | _ => old end.

Definition apply_update (b : ProfileUpdate) (bdg hof : option (option string)) (av : option (option string * option string))
    (u : User) (p : Person) : outcome (User * Person) :=
  let pr := profile u in
  match set_req (up_nickname b) (nickname pr), set_req (up_badge_hidden b) (badge_hidden pr),
        set_req (up_hof_opt_in b) (hof_opt_in p) with
  | Some nick, Some hidden, Some opt_in =>
      let pr' := mkProfile nick (set_or bdg (badge pr)) hidden (status pr)
                   (match av with Some a => a.1 | None => avatar_media_id pr end)
                   (match av with Some a => a.2 | None => avatar_media_key pr end)
                   (policy_or (up_profile_card_policy b) (profile_card_policy pr))
                   (policy_or (up_group_invite_policy b) (group_invite_policy pr)) in
      let u' := mkUser (last_seen u) (created_at u) (guest_status u) (muted_group_ids u) (is_suspended u) pr' in
      let p' := mkPerson (set_or (up_first_name b) (first_name p)) (set_or (up_last_name b) (last_name p))
                  (set_or (up_age b) (age p)) (set_or (up_gender b) (gender p)) (set_or (up_city b) (city p))
                  (set_or (up_country b) (country p)) (set_or (up_about b) (about p))
                  (set_or (option_map (option_map (join_with ",")) (up_interests b)) (interests p))
                  (set_or (up_homepage b) (homepage p)) (set_or (up_status_message b) (status_message p))
                  (policy_or (up_last_seen_visibility b) (last_seen_visibility p))
                  (policy_or (up_gender_visibility b) (gender_visibility p))
                  (policy_or (up_profile_visibility b) (profile_visibility p))
                  (policy_or (up_call_policy b) (call_policy p))
                  (policy_or (up_read_receipts_visibility b) (read_receipts_visibility p))
                  opt_in (set_or hof (hof_avatar p)) (push_preferences p) in
      if columns_hold u' p' then Ok (u', p') else Raise (RuntimeError "DBAPIError")
  | _, _, _ => Raise (IntegrityError "users")
  end.

Definition drop_hof (b : ProfileUpdate) : ProfileUpdate :=
  mkProfileUpdate (up_nickname b) (up_first_name b) (up_last_name b) (up_age b) (up_gender b) (up_city b) (up_country b)
    (up_about b) (up_interests b) (up_homepage b) (up_status_message b) (up_last_seen_visibility b)
    (up_gender_visibility b) (up_profile_visibility b) (up_profile_card_policy b) (up_group_invite_policy b)
    (up_call_policy b) (up_read_receipts_visibility b) (up_badge_hidden b) (up_badge b) None None
    (up_avatar_media_id b) (up_avatar_media_key b).

(** [_announce_rename]: who is sent [contact_renamed]. *)
Definition rename_audience (uin : Z) (d : sdb) : list Z :=
  omap (fun e => if (e.1.2 =? uin) && negb e.2 then Some e.1.1 else None) (map_to_list (edges d)).

Definition put_row (uin : Z) (u : User) (p : Person) (d : sdb) : sdb :=
  set_people (<[uin := p]> (people d)) (set_acc (set_user uin (fun _ => u) (s_acc d)) d).

(** The new rows, and the name the contacts are told. *)
Definition update_me (now uin : Z) (b : ProfileUpdate) (d : sdb) : outcome PublicUser * sdb * list (Z * string) :=
  if negb (fits 64 (default None (up_avatar_media_id b)) && fits 96 (default None (up_avatar_media_key b)))
  then (Raise (HTTPException 422 "validation"), d, [])
  else match user_row d uin with
  | None => (Raise (HTTPException 404 "user not found"), d, [])
  | Some w =>
      let b := if bool_decide (is_Some (guest_status (w_user w))) then drop_hof b else b in
      let result :=
        let! _ := check_policies b in
        let! bdg := check_badge (up_badge b) (earned_badges (w_user w) (w_account w)) in
        let! hof := check_hof_avatar (up_hof_avatar b) in
        let! av := check_avatar (up_avatar_media_id b) (up_avatar_media_key b) in
        apply_update b bdg hof av (w_user w) (w_person w) in
      match result with
      | Raise x => (Raise x, d, [])
      | Ok (u, p) =>
          let d' := put_row uin u p d in
          let nick := nickname (profile u) in
          let told := if String.eqb nick (nickname (profile (w_user w))) then []
                      else map (fun o => (o, nick)) (rename_audience uin d') in
          (Ok (from_model_for_viewer now (mkRow uin u (w_keys w) (w_account w) p) uin false false), d', told)
      end
  end.

(** ** The handlers *)

Section handlers.
Context {R : Type} `{RR : Redis R}.
Context (hmac_hex : string -> string -> string) (secret : string) (sha256 : bytes -> bytes).
Context (ed25519_verify : bytes -> bytes -> bytes -> bool).
Context (ilike : string -> string -> bool) (name_le : string -> string -> bool).

(** What a request is told: the instant, this island's names, whether the island
    is closed, and what the guest check needs. *)
Record uenv := mkUenv {
  ue_now : Z;
  ue_own : list string;
  ue_closed : option bool;
  ue_up_guest : bool;
  ue_up_limit : bool;
  ue_scratch : string
}.

Definition guest_caller (e : uenv) (d : sdb) (me : Z) (r : R) : bool * R :=
  is_guest (ue_up_guest e) (ue_now e) (ue_scratch e) (score d) me r.

(** [l[:limit]] *)
Definition slice_to {A} (limit : Z) (l : list A) : list A :=
  if 0 <=? limit then take (Z.to_nat limit) l else take (length l - Z.to_nat (- limit)) l.

Definition search (e : uenv) (q : string) (limit me : Z) (d : sdb) (r : R) : outcome (list PublicUser) * R :=
  if String.eqb q "" || (100 <? limit) then (Raise (HTTPException 422 "validation"), r)
  else
    let '(g, r) := guest_caller e d me r in
    if g then (Ok [], r)
    else
      let raw := strip q in
      let closed := strip_keys_from_discovery (island_is_closed (ue_closed e)) in
      match query_of raw with
      | Raise x => (Raise x, r)
      | Ok q =>
          if negb (fits_bigint q) || (limit * 2 + 10 <? 0) then (Raise (RuntimeError "DBAPIError"), r)
          else
            let hits := filter (fun w => search_clause ilike raw q w && listable me w = true) (all_rows d) in
            let page := take (Z.to_nat (Z.min (limit * 2 + 10) 250))
                          (sort_rows (search_le ilike name_le raw q (is_contact_of d me)) hits) in
            let home w := home_of ed25519_verify d w (ue_own e) in
            let rows := slice_to limit (filter (fun w => home w = None \/ Some (w_uin w) = exact_uin q) page) in
            let is_contact w :=
              String.eqb (or_else (profile_card_policy (profile (w_user w))) "everyone") "contacts"
              && is_contact_of d me (w_uin w) in
            (Ok (map (fun w => with_home (home w) (from_model w (Some me) (is_contact w) (negb closed))) rows), r)
      end.

Definition MAX_LOOKUP_UINS : nat := 256.
Definition LOOKUP_DAILY_UINS : Z := 50000.
Definition LOOKUP_COST_QUANTUM : Z := 64.

(** [LookupIn._ascending] *)
Fixpoint strictly_ascending (l : list Z) : bool :=
  match l with
  | a :: ((b :: _) as l') => (a <? b) && strictly_ascending l'
  | _ => true
  end.
Definition lookup_valid (uins : list Z) : bool :=
  (1 <=? length uins)%nat && (length uins <=? MAX_LOOKUP_UINS)%nat && strictly_ascending uins.

Definition lookup (e : uenv) (uins : list Z) (me : Z) (d : sdb) (s : limiter R) : outcome (list LookupRow) * limiter R :=
  if negb (lookup_valid uins) then (Raise (HTTPException 422 "validation"), s)
  else
    let '(g, r) := guest_caller e d me (redis s) in
    let s := mkLimiter r (local_hits s) in
    if g then (Ok [], s)
    else
      let wanted := filter (fun u => 0 < u /\ u <> me) uins in
      match wanted with
      | [] => (Ok [], s)
      | _ =>
          let n := Z.of_nat (length wanted) in
          let charged := (n + LOOKUP_COST_QUANTUM - 1) / LOOKUP_COST_QUANTUM * LOOKUP_COST_QUANTUM in
          let '(paid, s) := enforce_cost_budget hmac_hex secret (ue_up_limit e) (ue_now e) ("uin:" ++ pretty me) "users_lookup_uins"
                              charged LOOKUP_DAILY_UINS 86400 s in
          match paid with
          | Raise x => (Raise x, s)
          | Ok _ =>
              if existsb (fun u => 2 ^ 63 <=? u) wanted then (Raise (RuntimeError "DBAPIError"), s) else
              let rows := filter (fun w => is_suspended (w_user w) = false) (omap (user_row d) wanted) in
              (Ok (map (fun w => lookup_row (ue_now e) w me (is_contact_of d me (w_uin w)) (shares_room (score d) me (w_uin w))) rows), s)
          end
      end.

Definition info (e : uenv) (uin me : Z) (card : option string) (d : sdb) (r : R) : outcome PublicUser * R :=
  let '(g, r) := guest_caller e d me r in
  if negb ((- 2 ^ 63 <=? uin) && (uin <? 2 ^ 63)) then (Raise (RuntimeError "DBAPIError"), r) else
  match user_row d uin with
  | None => (Raise (HTTPException 404 "no such user"), r)
  | Some w =>
      let allowed :=
        if g then (me =? uin) || shares_room (score d) me uin
        else (may_fetch_key sha256 (ue_now e) uin (Some me) card (island_is_closed (ue_closed e)) (rk (rooms (s_acc d)))).1 in
      if negb allowed then (Raise (HTTPException 404 "no such user"), r)
      else
        let mine := me =? uin in
        let is_contact := negb mine && is_contact_of d me uin in
        let shares := negb mine && shares_room (score d) me uin in
        let out := from_model_for_viewer (ue_now e) w me is_contact shares in
        let home := if mine then None else home_of ed25519_verify d w (ue_own e) in
        (Ok (with_home home out), r)
  end.

(** ** Push endpoints *)

Definition MAX_PUSH_TOKEN_LEN : Z := 1024.
Definition ACCOUNTS_HERE_GRACE : Z := hours 1.

Record PushTokenIn := mkPushTokenIn {
  pt_token : string;
  pt_platform : string;
  pt_device_id : option string;
  accounts_here : option (list Z)
}.

Definition same_endpoint (uin : Z) (token : string) (e : PushEndpoint) : bool :=
  (pe_uin e =? uin) && String.eqb (pe_token e) token.

(** [INSERT ... ON CONFLICT (uin, token) DO UPDATE] *)
Definition upsert_endpoint (now uin : Z) (token platform : string) (device_id : option string) (l : list PushEndpoint)
    : list PushEndpoint :=
  if existsb (same_endpoint uin token) l
  then map (fun e => if same_endpoint uin token e
                     then mkEndpoint uin token platform device_id (pe_created_at e) now None (push_last_ok e) else e) l
  else l ++ [mkEndpoint uin token platform device_id now now None None].

(** The three deletions. *)
Definition superseded (uin : Z) (token platform device_id : string) (e : PushEndpoint) : bool :=
  (pe_uin e =? uin) && bool_decide (pe_device_id e = Some device_id) && String.eqb (pe_platform e) platform
  && negb (String.eqb (pe_token e) token).
Definition pre_device_id (now uin : Z) (platform : string) (e : PushEndpoint) : bool :=
  (pe_uin e =? uin) && String.eqb (pe_platform e) platform && bool_decide (pe_device_id e = None)
  && (pe_last_seen e <? now - days 7).
Definition shed (now : Z) (token device_id : string) (keep : list Z) (e : PushEndpoint) : bool :=
  String.eqb (pe_token e) token && bool_decide (pe_device_id e = Some device_id)
  && negb (bool_decide (pe_uin e ∈ keep)) && (pe_last_seen e <? now - ACCOUNTS_HERE_GRACE).

Definition drop_where {A} (p : A -> bool) (l : list A) : list A := filter (fun e => p e = false) l.

(** The table after the writes of a registration. *)
Definition registered (now uin : Z) (b : PushTokenIn) (l : list PushEndpoint) : list PushEndpoint :=
  let device_id := trimmed (pt_device_id b) in
  let prior := match find_first (same_endpoint uin (pt_token b)) l with Some e => pe_device_id e | None => None end in
  let prune_others := match accounts_here b, device_id with
                      | Some _, Some _ => bool_decide (prior = device_id)
                      | _, _ => false
                      end in
  let l := upsert_endpoint now uin (pt_token b) (pt_platform b) device_id l in
  match device_id with
  | None => l
  | Some dev =>
      let l := drop_where (superseded uin (pt_token b) (pt_platform b) dev) l in
      let l := drop_where (pre_device_id now uin (pt_platform b)) l in
      if prune_others then drop_where (shed now (pt_token b) dev (default [] (accounts_here b) ++ [uin])) l else l
  end.

Definition register_push_token (e : uenv) (uin : Z) (b : PushTokenIn) (d : sdb) (r : R) : outcome unit * sdb * R :=
  if (64 <? length (default [] (accounts_here b)))%nat then (Raise (HTTPException 422 "validation"), d, r)
  else if String.eqb (strip (pt_token b)) "" then (Raise (HTTPException 400 "empty token"), d, r)
  else if MAX_PUSH_TOKEN_LEN <? Z.of_nat (String.length (pt_token b))
  then (Raise (HTTPException 400 "token_too_long"), d, r)
  else
    let '(g, r) := guest_caller e d uin r in
    if g then (Ok tt, d, r)
    else if negb (fits 16 (Some (pt_platform b)) && fits 64 (trimmed (pt_device_id b)))
    then (Raise (RuntimeError "DBAPIError"), d, r)
    else (Ok tt, set_endpoints (registered (ue_now e) uin b (push_endpoints d)) d, r).

Definition delete_push_token (uin : Z) (b : PushTokenIn) (d : sdb) : sdb :=
  set_endpoints (drop_where (same_endpoint uin (pt_token b)) (push_endpoints d)) d.

(** [PushHealthRow] *)
Record PushHealthRow := mkHealth {
  ph_platform : string;
  ph_host : option string;
  ph_last_error : option string;
  ph_last_ok : option Z;
  ph_registered_at : Z
}.
Definition push_health (uin : Z) (d : sdb) : list PushHealthRow :=
  map (fun e =>
         let host := if String.eqb (pe_platform e) "android-up"
                     then match split_once "://" (pe_token e) with
                          | Some (_, rest) => Some (match split_once "/" rest with Some (h, _) => h | None => rest end)
                          | None => None
                          end
                     else None in
         mkHealth (pe_platform e) host (push_last_error e) (push_last_ok e) (pe_created_at e))
    (filter (fun e => pe_uin e = uin) (push_endpoints d)).

End handlers.

(** ** Capabilities *)

Definition set_user_capabilities (f : gmap Z bool -> gmap Z bool) (d : db) : db :=
  mkDb (users d) (offline_messages d) (offline_group_messages d) (queue_cursors d)
    (mailbox_seq d) (group_seq d) (group_log d) (group_log_cursors d) (group_log_readers d)
    (groups d) (group_members d) (f (user_capabilities d)) (device_tokens d)
    (next_direct_id d) (next_group_row_id d).

Definition mark_vault_device (now uin : Z) (device_id : string) (d : sdb) : sdb :=
  let first := match vault_devices d !! (uin, device_id) with Some (f, _) => f | None => now end in
  set_vault_devices (<[(uin, device_id) := (first, now)]> (vault_devices d)) d.
Definition unmark_vault_device (uin : Z) (device_id : string) (d : sdb) : sdb :=
  set_vault_devices (delete (uin, device_id) (vault_devices d)) d.

Definition set_capabilities (now uin : Z) (device_id : string) (sender_keys vault_contacts : option bool) (d : sdb) : sdb :=
  let d := match vault_contacts with
           | Some true => mark_vault_device now uin device_id d
           | Some false => unmark_vault_device uin device_id d
           | None => d
           end in
  match sender_keys with
  | Some b => set_acc (on_acore (set_user_capabilities <[uin := b]>) (s_acc d)) d
  | None => d
  end.

(** [vault_backed] *)
Definition VAULT_MARK_TTL_DAYS : Z := 30.
Definition marked_fresh (now : Z) (d : sdb) (uin : Z) (device_id : string) : bool :=
  match vault_devices d !! (uin, device_id) with Some (_, seen) => now - days VAULT_MARK_TTL_DAYS <=? seen | None => false end.
Definition vault_backed_one (now : Z) (d : sdb) (uin : Z) : bool :=
  existsb (fun kv => (kv.1.1 =? uin) && marked_fresh now d uin kv.1.2) (map_to_list (vault_devices d))
  && forallb (fun kv => negb (kv.1.1 =? uin) || marked_fresh now d uin kv.1.2) (map_to_list (queue_cursors (score d))).
Definition vault_backed (now : Z) (d : sdb) (uins : list Z) : list Z :=
  filter (fun u => u <> 0 /\ vault_backed_one now d u = true) (remove_dups uins).

(** ** Push preferences *)

Record PushPreferencesOut := mkPreferencesOut {
  po_contact_requests : bool;
  po_trades_from_contacts : bool;
  po_trades_from_strangers : bool;
  po_muted_uins : list Z;
  po_muted_group_ids : list Z
}.
Record PushPreferencesIn := mkPreferencesIn {
  pi_contact_requests : option bool;
  pi_trades_from_contacts : option bool;
  pi_trades_from_strangers : option bool;
  pi_muted_uins : option (list Z);
  pi_muted_group_ids : option (list Z)
}.

(** [prefs or {}] *)
Definition no_prefs : PushPrefs := mkPushPrefs None None None None.

Definition hydrate_push_prefs (prefs : option PushPrefs) (muted_groups : list Z) : PushPreferencesOut :=
  let src := default no_prefs prefs in
  mkPreferencesOut (default true (pp_contact_requests src)) (default true (pp_trades_from_contacts src))
    (default false (pp_trades_from_strangers src)) (default [] (pp_muted_uins src)) muted_groups.

Definition get_push_preferences (uin : Z) (d : sdb) : outcome PushPreferencesOut :=
  match user_row d uin with
  | None => Raise (HTTPException 404 "no such user")
  | Some w => Ok (hydrate_push_prefs (push_preferences (w_person w)) (muted_group_ids (w_user w)))
  end.

(** [sorted(set(l))] *)
Fixpoint insert_z (x : Z) (l : list Z) : list Z :=
  match l with [] => [x] | y :: l' => if x <=? y then x :: l else y :: insert_z x l' end.
Definition sorted_set (l : list Z) : list Z := foldr insert_z [] (remove_dups l).

Definition override {A} (v old : option A) : option A := match v with Some _ => v | None => old end.

Definition set_push_prefs (f : PushPrefs) (p : Person) : Person :=
  mkPerson (first_name p) (last_name p) (age p) (gender p) (city p) (country p) (about p) (interests p) (homepage p)
    (status_message p) (last_seen_visibility p) (gender_visibility p) (profile_visibility p) (call_policy p)
    (read_receipts_visibility p) (hof_opt_in p) (hof_avatar p) (Some f).
Definition set_muted_groups (l : list Z) (u : User) : User :=
  mkUser (last_seen u) (created_at u) (guest_status u) l (is_suspended u) (profile u).

Definition set_push_preferences (uin : Z) (b : PushPreferencesIn) (d : sdb) : outcome PushPreferencesOut * sdb :=
  match user_row d uin with
  | None => (Raise (HTTPException 404 "no such user"), d)
  | Some w =>
      let cur := default no_prefs (push_preferences (w_person w)) in
      let prefs := mkPushPrefs (override (pi_contact_requests b) (pp_contact_requests cur))
                     (override (pi_trades_from_contacts b) (pp_trades_from_contacts cur))
                     (override (pi_trades_from_strangers b) (pp_trades_from_strangers cur))
                     (override (option_map sorted_set (pi_muted_uins b)) (pp_muted_uins cur)) in
      let groups := default (muted_group_ids (w_user w)) (option_map sorted_set (pi_muted_group_ids b)) in
      (Ok (hydrate_push_prefs (Some prefs) groups),
       put_row uin (set_muted_groups groups (w_user w)) (set_push_prefs prefs (w_person w)) d)
  end.

(** [apns.should_push_for] *)
Definition should_push_for (d : sdb) (recipient : Z) (kind : string) (sender : option Z) (sender_is_contact : bool) : bool :=
  match user_row d recipient with
  | None => true
  | Some w =>
      let prefs := default no_prefs (push_preferences (w_person w)) in
      if match sender with Some s => bool_decide (s ∈ default [] (pp_muted_uins prefs)) | None => false end then false
      else if String.eqb kind "contact_request" then default true (pp_contact_requests prefs)
      else if String.eqb kind "contact_response_accepted" then true
      else if String.eqb kind "trade_received"
      then if sender_is_contact then default true (pp_trades_from_contacts prefs)
           else default false (pp_trades_from_strangers prefs)
      else true
  end.

(** ** TURN credentials *)

Record TurnCredentialsOut := mkTurn { tu_urls : list string; tu_username : string; tu_credential : string; tu_ttl : Z }.
Record turn_settings := mkTurnSettings { TURN_HOST : string; TURN_SECRET : string; TURN_TTL_SECONDS : Z; TURN_TLS_PORT : Z }.

(** [hmac_sha1]: the MAC of a text under a secret; [tag]: [secrets.token_hex(8)];
    [unix]: [int(time.time())]. *)
Definition turn_credentials (hmac_sha1 : bytes -> bytes -> bytes) (st : turn_settings) (unix : Z) (tag : string)
    : TurnCredentialsOut :=
  if String.eqb (TURN_HOST st) "" || String.eqb (TURN_SECRET st) "" then mkTurn [] "" "" 0
  else
    let username := (pretty (unix + TURN_TTL_SECONDS st)%Z ++ ":" ++ tag)%string in
    let credential := b64encode (hmac_sha1 (utf8 (TURN_SECRET st)) (utf8 username)) in
    let urls := [("turn:" ++ TURN_HOST st ++ ":3478?transport=udp")%string;
                 ("turn:" ++ TURN_HOST st ++ ":3478?transport=tcp")%string] in
    let urls := if TURN_TLS_PORT st =? 0 then urls
                else urls ++ [("turns:" ++ TURN_HOST st ++ ":" ++ pretty (TURN_TLS_PORT st) ++ "?transport=tcp")%string] in
    mkTurn urls username credential (TURN_TTL_SECONDS st).

