(* ===== verification/UsersFacts.v ===== *)
(** * The directory, the profile and the push endpoints: theorems

    A batch lookup answers what the profile card would, person by person; the
    columns of a hidden profile reach no answer and no search result; a search
    lists residents only and puts the exact number first; a profile is written
    by its owner within what they hold; and a push registration removes the
    endpoints it is meant to and no other. *)

From stdpp Require Import base list sorting gmap strings pretty.
From Stdlib Require Import ZArith Lia Ascii.
From S2P Require Import Prelude Text Storage Redis RateLimit GuestPolicy Bytes KeyStorage Sessions KeyProof Door Rooms Accounts Json Profiles Federation Users.

(** ** Rows *)

Lemma user_row_uin d u w : user_row d u = Some w -> w_uin w = u.
Proof. unfold user_row. destruct (users (score d) !! u); naive_solver. Qed.

Lemma score_core d : score d = core (rk (rooms (s_acc d))).
Proof. reflexivity. Qed.

Section facts.
Context {R : Type} `{RR : Redis R}.
Context (hmac_hex : string -> string -> string) (secret : string) (sha256 : bytes -> bytes).
Context (ed25519_verify : bytes -> bytes -> bytes -> bool).
Context (ilike : string -> string -> bool) (name_le : string -> string -> bool).

(** ** Batch lookup *)

(** A lookup row read off a profile card. *)
Definition described (o : PublicUser) (callable : bool) : LookupRow :=
  mkLookupRow (pu_uin o) (pu_nickname o) (pu_badge o) (pu_status o) (pu_status_message o) (pu_identity_key o)
    (pu_signing_key o) (pu_signal_identity_key o) (pu_gender o) (pu_last_seen o) callable (pu_openable o) (pu_avatar o).

Definition active (d : sdb) (u : Z) : bool :=
  match user_row d u with Some w => negb (is_suspended (w_user w)) | None => false end.

Lemma lookup_row_card now w me c s home :
  w_uin w <> me ->
  lookup_row now w me c s
  = described (with_home home (from_model_for_viewer now w me c s)) (lr_callable (lookup_row now w me c s)).
Proof.
  intros Hne. unfold described, lookup_row, from_model_for_viewer. simpl.
  by replace (me =? w_uin w) with false by lia.
Qed.

Lemma resident_card e u me d r w :
  (guest_caller e d me r).1 = false -> is_resident (rk (rooms (s_acc d))) (Some me) = true ->
  0 < u < 2 ^ 63 -> u <> me -> user_row d u = Some w ->
  (info sha256 ed25519_verify e u me None d r).1
  = Ok (with_home (home_of ed25519_verify d w (ue_own e))
          (from_model_for_viewer (ue_now e) w me (is_contact_of d me u) (shares_room (score d) me u))).
Proof.
  intros Hg Hres Hu Hne Hw. unfold info. destruct (guest_caller e d me r) as [g r']. simpl in Hg. subst g.
  replace ((- 2 ^ 63 <=? u) && (u <? 2 ^ 63)) with true by lia. cbn [negb]. rewrite Hw.
  unfold may_fetch_key. rewrite Hres. replace (me =? u) with false by lia. cbn [negb andb].
  destruct (island_is_closed _); [|done]. simpl. by case_bool_decide.
Qed.

Lemma lookup_rows_card e me d r (uins : list Z) :
  (guest_caller e d me r).1 = false -> is_resident (rk (rooms (s_acc d))) (Some me) = true ->
  Forall (fun u => 0 < u < 2 ^ 63 /\ u <> me) uins ->
  Forall2 (fun u row => exists out, (info sha256 ed25519_verify e u me None d r).1 = Ok out
                                    /\ row = described out (lr_callable row))
    (filter (fun u => active d u = true) uins)
    (map (fun w => lookup_row (ue_now e) w me (is_contact_of d me (w_uin w)) (shares_room (score d) me (w_uin w)))
       (filter (fun w => is_suspended (w_user w) = false) (omap (user_row d) uins))).
Proof.
  intros Hg Hres. induction 1 as [|u uins [Hu Hne] Hall IH]; [constructor|].
  rewrite filter_cons. cbn [omap list_omap]. destruct (user_row d u) as [w|] eqn:Hw.
  - pose proof (user_row_uin _ _ _ Hw) as Hwu. rewrite filter_cons.
    assert (Ha : active d u = negb (is_suspended (w_user w))) by (unfold active; by rewrite Hw). rewrite Ha.
    destruct (is_suspended (w_user w)); simpl; repeat case_decide; try done. constructor; [|exact IH].
    rewrite (resident_card e u me d r w), Hwu by done. eexists. split; [done|]. apply lookup_row_card. congruence.
  - assert (Ha : active d u = false) by (unfold active; by rewrite Hw). rewrite Ha. by case_decide.
Qed.

(** "For every uin in the batch this answers exactly what [GET /users/{uin}/info]
    would": the rows of a lookup by a resident are, in the order of the numbers,
    the profile cards of the accounts of the batch that exist and are not
    suspended, each the card this very caller would be shown alone. *)
Theorem lookup_answers_info e uins me d (s : limiter R) rows s' :
  lookup hmac_hex secret e uins me d s = (Ok rows, s') ->
  (guest_caller e d me (redis s)).1 = false ->
  is_resident (rk (rooms (s_acc d))) (Some me) = true ->
  Forall2 (fun u row => exists out, (info sha256 ed25519_verify e u me None d (redis s)).1 = Ok out
                                    /\ row = described out (lr_callable row))
    (filter (fun u => active d u = true) (filter (fun u => 0 < u /\ u <> me) uins)) rows.
Proof.
  intros Hl Hg Hres. unfold lookup in Hl. destruct (lookup_valid uins); [|done]. cbn [negb] in Hl.
  destruct (guest_caller e d me (redis s)) as [g r'] eqn:Hgc. simpl in Hg. subst g.
  set (wanted := filter (fun u => 0 < u /\ u <> me) uins) in *.
  destruct wanted as [|u0 us] eqn:Hwd; [by injection Hl as <- <-|]. rewrite <-Hwd in *.
  destruct (enforce_cost_budget _ _ _ _ _ _ _ _ _ _) as [[[]|x] s2]; [|done].
  destruct (existsb _ wanted) eqn:Hbig; [done|]. injection Hl as <- <-.
  apply lookup_rows_card; [by rewrite Hgc|done|].
  apply Forall_forall. intros u Hu. split; [|by apply list_elem_of_filter in Hu as [[_ ?] _]].
  split; [by apply list_elem_of_filter in Hu as [[? _] _]|].
  destruct (Z.ltb_spec u (2 ^ 63)); [done|]. exfalso. apply not_true_iff_false in Hbig. apply Hbig.
  apply existsb_exists. exists u. split; [by apply list_elem_of_In|]. apply Z.leb_le. lia.
Qed.

End facts.

(** ** Push endpoints *)

Section push.
Context {R : Type} `{RR : Redis R}.

Lemma same_endpoint_true uin t e : same_endpoint uin t e = true <-> pe_uin e = uin /\ pe_token e = t.
Proof. unfold same_endpoint. rewrite andb_true_iff, Z.eqb_eq, String.eqb_eq. done. Qed.

Lemma elem_of_drop_where {A} (p : A -> bool) l e : e ∈ drop_where p l <-> p e = false /\ e ∈ l.
Proof. unfold drop_where. by rewrite list_elem_of_filter. Qed.

Definition fresh_endpoint (now uin : Z) (b : PushTokenIn) (e : PushEndpoint) : Prop :=
  pe_uin e = uin /\ pe_token e = pt_token b /\ pe_platform e = pt_platform b
  /\ pe_device_id e = trimmed (pt_device_id b) /\ pe_last_seen e = now /\ push_last_error e = None.

Lemma upsert_fresh now uin b l :
  Exists (fresh_endpoint now uin b) (upsert_endpoint now uin (pt_token b) (pt_platform b) (trimmed (pt_device_id b)) l).
Proof.
  unfold upsert_endpoint. apply Exists_exists. destruct (existsb _ l) eqn:He.
  - apply existsb_exists in He as (e & Hin%list_elem_of_In & Hs). eexists. split.
    + apply list_elem_of_fmap. exists e. split; [|done]. by rewrite Hs.
    + by repeat split.
  - eexists. split; [apply elem_of_app; right; by apply list_elem_of_singleton|]. by repeat split.
Qed.

Lemma upsert_elem now uin t pl dev l e :
  e ∈ upsert_endpoint now uin t pl dev l -> same_endpoint uin t e = true \/ (same_endpoint uin t e = false /\ e ∈ l).
Proof.
  unfold upsert_endpoint. destruct (existsb _ l); intros Hin.
  - apply list_elem_of_fmap in Hin as (x & -> & Hx). destruct (same_endpoint uin t x) eqn:Hs; [left|by right].
    by apply same_endpoint_true.
  - apply elem_of_app in Hin as [Hin| ->%list_elem_of_singleton].
    + destruct (same_endpoint uin t e); auto.
    + left. by apply same_endpoint_true.
Qed.

Lemma upsert_keeps now uin t pl dev l e :
  same_endpoint uin t e = false -> e ∈ l -> e ∈ upsert_endpoint now uin t pl dev l.
Proof.
  intros Hs Hin. unfold upsert_endpoint. destruct (existsb _ l).
  - apply list_elem_of_fmap. exists e. by rewrite Hs.
  - apply elem_of_app. by left.
Qed.

(** A row that a registration removed: by which rule. *)
Definition removed_by (now uin : Z) (b : PushTokenIn) (l : list PushEndpoint) (e : PushEndpoint) : Prop :=
  exists dev, trimmed (pt_device_id b) = Some dev
    /\ (superseded uin (pt_token b) (pt_platform b) dev e = true
        \/ pre_device_id now uin (pt_platform b) e = true
        \/ exists known mine, accounts_here b = Some known /\ mine ∈ l
             /\ same_endpoint uin (pt_token b) mine = true /\ pe_device_id mine = Some dev
             /\ shed now (pt_token b) dev (known ++ [uin]) e = true).

Lemma registered_removed now uin b l e :
  same_endpoint uin (pt_token b) e = false -> e ∈ l -> e ∉ registered now uin b l -> removed_by now uin b l e.
Proof.
  intros Hs Hin Hout. unfold registered in Hout. unfold removed_by.
  apply (upsert_keeps now uin (pt_token b) (pt_platform b) (trimmed (pt_device_id b))) in Hin; [|done].
  destruct (trimmed (pt_device_id b)) as [dev|]; [|done]. exists dev. split; [done|].
  destruct (superseded _ _ _ _ e) eqn:H1; [by left|]. destruct (pre_device_id now uin (pt_platform b) e) eqn:H2; [by right; left|].
  right; right. assert (Hmid : e ∈ drop_where (pre_device_id now uin (pt_platform b))
      (drop_where (superseded uin (pt_token b) (pt_platform b) dev)
         (upsert_endpoint now uin (pt_token b) (pt_platform b) (Some dev) l))).
  { by rewrite !elem_of_drop_where. }
  destruct (accounts_here b) as [known|]; [|done]. case_bool_decide as Hp; [|done].
  destruct (find_first _ l) as [mine|] eqn:Hf; [|done]. apply find_first_Some in Hf as [Hm Hsm].
  exists known, mine. repeat split; try done. apply not_false_iff_true. intros H3. apply Hout.
  apply elem_of_drop_where. by split.
Qed.

Lemma registered_fresh now uin b l : Exists (fresh_endpoint now uin b) (registered now uin b l).
Proof.
  pose proof (upsert_fresh now uin b l) as Hu. apply Exists_exists in Hu as (e & Hin & He).
  apply Exists_exists. exists e. split; [|done]. destruct He as (E1 & E2 & E3 & E4 & _). unfold registered.
  destruct (trimmed (pt_device_id b)) as [dev|]; [|done].
  assert (Hmid : e ∈ drop_where (pre_device_id now uin (pt_platform b))
      (drop_where (superseded uin (pt_token b) (pt_platform b) dev)
         (upsert_endpoint now uin (pt_token b) (pt_platform b) (Some dev) l))).
  { rewrite !elem_of_drop_where. repeat split; [| |done].
    - unfold pre_device_id. rewrite E4. by rewrite (bool_decide_eq_false_2 (Some dev = None)), andb_false_r by done.
    - unfold superseded. rewrite E2, String.eqb_refl. apply andb_false_r. }
  match goal with |- context [if ?c then _ else _] => destruct c end; [|done].
  apply elem_of_drop_where. split; [|done]. unfold shed. rewrite E1, (bool_decide_eq_true_2 (uin ∈ _)).
  - by rewrite andb_false_r.
  - apply elem_of_app. right. by apply list_elem_of_singleton.
Qed.

Lemma registered_elem now uin b l e :
  e ∈ registered now uin b l -> same_endpoint uin (pt_token b) e = true \/ e ∈ l.
Proof.
  unfold registered. intros Hin.
  enough (e ∈ upsert_endpoint now uin (pt_token b) (pt_platform b) (trimmed (pt_device_id b)) l) as Hu.
  { apply upsert_elem in Hu. naive_solver. }
  destruct (trimmed (pt_device_id b)) as [dev|]; [|done].
  match type of Hin with context [if ?c then _ else _] => destruct c end; rewrite !elem_of_drop_where in Hin; naive_solver.
Qed.

Lemma register_ok e uin b d (r : R) d' r' :
  register_push_token e uin b d r = (Ok tt, d', r') -> (guest_caller e d uin r).1 = false ->
  push_endpoints d' = registered (ue_now e) uin b (push_endpoints d).
Proof.
  unfold register_push_token. destruct (guest_caller e d uin r) as [g r0]. simpl. intros Hr ->.
  repeat case_cond; try done. by injection Hr as <- _.
Qed.

(** A push registration that is accepted: the endpoint is in the table with this
    platform and device and no recorded failure; a row of ANOTHER account is
    removed only if it is of this very install (the same token and device id),
    the install named its accounts and that one is not among them, it was not
    refreshed in the last hour, and this account had registered the same token
    and device before; a row of the own account only if this device superseded
    it or it has no device id and was not seen for a week; and nothing else
    appears. *)
Theorem push_registration e uin b d (r : R) d' r' :
  register_push_token e uin b d r = (Ok tt, d', r') -> (guest_caller e d uin r).1 = false ->
  Exists (fresh_endpoint (ue_now e) uin b) (push_endpoints d')
  /\ (forall x, x ∈ push_endpoints d -> x ∉ push_endpoints d' -> pe_uin x <> uin ->
        exists dev known mine, trimmed (pt_device_id b) = Some dev /\ accounts_here b = Some known
          /\ pe_token x = pt_token b /\ pe_device_id x = Some dev /\ pe_uin x ∉ known
          /\ pe_last_seen x < ue_now e - ACCOUNTS_HERE_GRACE
          /\ mine ∈ push_endpoints d /\ pe_uin mine = uin /\ pe_token mine = pt_token b /\ pe_device_id mine = Some dev)
  /\ (forall x, x ∈ push_endpoints d -> x ∉ push_endpoints d' -> pe_uin x = uin -> pe_token x <> pt_token b ->
        pe_platform x = pt_platform b
        /\ (pe_device_id x = trimmed (pt_device_id b)
            \/ pe_device_id x = None /\ pe_last_seen x < ue_now e - days 7))
  /\ (forall x, x ∈ push_endpoints d' -> x ∈ push_endpoints d \/ (pe_uin x = uin /\ pe_token x = pt_token b)).
Proof.
  intros Hr Hg. rewrite (register_ok _ _ _ _ _ _ _ Hr Hg). split; [apply registered_fresh|].
  assert (Hrem : forall x, x ∈ push_endpoints d -> x ∉ registered (ue_now e) uin b (push_endpoints d) ->
            pe_uin x <> uin \/ pe_token x <> pt_token b -> removed_by (ue_now e) uin b (push_endpoints d) x).
  { intros x Hin Hout Hne. apply registered_removed; [|done..]. apply not_true_iff_false. rewrite same_endpoint_true. naive_solver. }
  split; [|split].
  - intros x Hin Hout Hne. destruct (Hrem x Hin Hout (or_introl Hne)) as (dev & Hd & [H|[H|(known & mine & Hk & Hm & Hs & Hmd & H)]]).
    + unfold superseded in H. rewrite (proj2 (Z.eqb_neq _ _) Hne) in H. done.
    + unfold pre_device_id in H. rewrite (proj2 (Z.eqb_neq _ _) Hne) in H. done.
    + apply same_endpoint_true in Hs as [Hs1 Hs2]. unfold shed in H.
      apply andb_true_iff in H as [[[H1%String.eqb_eq H2%bool_decide_eq_true]%andb_true_iff H3%negb_true_iff]%andb_true_iff H4%Z.ltb_lt].
      apply bool_decide_eq_false in H3. rewrite elem_of_app in H3. exists dev, known, mine. naive_solver.
  - intros x Hin Hout Hu Hne. destruct (Hrem x Hin Hout (or_intror Hne)) as (dev & Hd & [H|[H|(known & mine & Hk & Hm & Hs & Hmd & H)]]).
    + unfold superseded in H.
      apply andb_true_iff in H as [[[_ H1%bool_decide_eq_true]%andb_true_iff H2%String.eqb_eq]%andb_true_iff _].
      split; [done|left; congruence].
    + unfold pre_device_id in H.
      apply andb_true_iff in H as [[[_ H1%String.eqb_eq]%andb_true_iff H2%bool_decide_eq_true]%andb_true_iff H3%Z.ltb_lt].
      split; [done|by right].
    + unfold shed in H. apply andb_true_iff in H as [[[H1%String.eqb_eq _]%andb_true_iff _]%andb_true_iff _]. done.
  - intros x Hin. apply registered_elem in Hin as [H%same_endpoint_true|H]; auto.
Qed.

End push.

(** ** The own profile *)

(** What a stored profile satisfies: every setting is one of the three, a picture
    key has its picture, and the columns hold their values. *)
Definition profile_ok (w : Row) : Prop :=
  let u := w_user w in
  let p := w_person w in
  Forall (fun s => s ∈ POLICY_VALUES)
    [last_seen_visibility p; gender_visibility p; profile_visibility p; profile_card_policy (profile u);
     group_invite_policy (profile u); call_policy p; read_receipts_visibility p]
  /\ (is_Some (avatar_media_key (profile u)) -> is_Some (avatar_media_id (profile u)))
  /\ columns_hold u p = true.

(** What an update leaves alone. *)
Definition same_standing (w w' : Row) : Prop :=
  w_uin w' = w_uin w /\ w_keys w' = w_keys w /\ w_account w' = w_account w
  /\ guest_status (w_user w') = guest_status (w_user w) /\ is_suspended (w_user w') = is_suspended (w_user w)
  /\ last_seen (w_user w') = last_seen (w_user w) /\ created_at (w_user w') = created_at (w_user w)
  /\ status (profile (w_user w')) = status (profile (w_user w))
  /\ muted_group_ids (w_user w') = muted_group_ids (w_user w)
  /\ push_preferences (w_person w') = push_preferences (w_person w).

Lemma check_choice_ok v l msg old : check_choice v l msg = Ok tt -> old ∈ l -> policy_or v old ∈ l.
Proof. unfold check_choice, policy_or. destruct v as [[s|]|]; [|done..]. by case_bool_decide. Qed.

Lemma check_policies_ok b :
  check_policies b = Ok tt ->
  check_choice (up_last_seen_visibility b) POLICY_VALUES "invalid last_seen_visibility" = Ok tt
  /\ check_choice (up_gender_visibility b) POLICY_VALUES "invalid gender_visibility" = Ok tt
  /\ check_choice (up_profile_visibility b) POLICY_VALUES "invalid profile_visibility" = Ok tt
  /\ check_choice (up_profile_card_policy b) POLICY_VALUES "invalid profile_card_policy" = Ok tt
  /\ check_choice (up_group_invite_policy b) POLICY_VALUES "invalid group_invite_policy" = Ok tt
  /\ check_choice (up_call_policy b) POLICY_VALUES "invalid call_policy" = Ok tt
  /\ check_choice (up_read_receipts_visibility b) POLICY_VALUES "invalid read_receipts_visibility" = Ok tt.
Proof.
  unfold check_policies. intros H.
  repeat match type of H with
         | obind (check_choice ?a ?l ?m) _ = _ => destruct (check_choice a l m) as [[]|] eqn:?; [cbn [obind] in H|done]
         end. by repeat split.
Qed.

Lemma check_badge_ok v held out : check_badge v held = Ok out ->
  forall old k, set_or out old = Some k -> Some k = old \/ k ∈ held.
Proof.
  unfold check_badge. destruct v as [v|]; [|intros [= <-] old k Hk; left; by rewrite <-Hk].
  destruct (negb (String.eqb (stripped v) "")) eqn:E1; cbn [andb].
  - destruct (bool_decide _) eqn:E2; [|done]. cbn [negb]. intros [= <-] old k Hk. right. breflect.
    cbn [set_or default] in Hk. unfold trimmed, truthy in Hk. case_cond; [done|]. by injection Hk as <-.
  - intros [= <-] old k Hk. cbn [set_or default] in Hk. unfold trimmed, truthy in Hk.
    apply negb_false_iff in E1. by rewrite E1 in Hk.
Qed.

Lemma check_avatar_ok i k out : check_avatar i k = Ok out ->
  match out with Some (a, b) => is_Some b -> is_Some a | None => i = None /\ k = None end.
Proof.
  unfold check_avatar. intros H. destruct i as [i|], k as [k|]; try (by injection H as <-);
    destruct (trimmed (default None _)) as [x|] eqn:?, (trimmed (default None _)) as [y|] eqn:? in H; simplify_eq; simpl; eauto.
Qed.

Lemma user_row_put uin u p d v w :
  user_row d uin = Some w ->
  user_row (put_row uin u p d) v = if decide (v = uin) then Some (mkRow uin u (w_keys w) (w_account w) p) else user_row d v.
Proof.
  intros Hw. unfold user_row in *. unfold put_row, score, set_people, set_acc, set_user. cbn [s_acc people].
  unfold acore, rcore, akeys, account_of, on_acore, on_core in *. simpl.
  rewrite lookup_alter. destruct (decide (v = uin)) as [->|Hne].
  - unfold score, acore, rcore in Hw. destruct (users _ !! uin) as [u0|]; [|done]. simpl.
    rewrite decide_True by done. simpl. rewrite lookup_insert. rewrite decide_True by done. by injection Hw as <-.
  - rewrite decide_False by congruence. unfold score, acore, rcore. by rewrite lookup_insert_ne.
Qed.

Lemma apply_update_ok b bdg hof av u p u' p' :
  apply_update b bdg hof av u p = Ok (u', p') ->
  columns_hold u' p' = true
  /\ (last_seen u', created_at u', guest_status u', muted_group_ids u', is_suspended u', status (profile u'))
     = (last_seen u, created_at u, guest_status u, muted_group_ids u, is_suspended u, status (profile u))
  /\ push_preferences p' = push_preferences p
  /\ badge (profile u') = set_or bdg (badge (profile u))
  /\ (avatar_media_id (profile u'), avatar_media_key (profile u'))
     = default (avatar_media_id (profile u), avatar_media_key (profile u)) av
  /\ set_req (up_hof_opt_in b) (hof_opt_in p) = Some (hof_opt_in p') /\ hof_avatar p' = set_or hof (hof_avatar p)
  /\ set_req (up_nickname b) (nickname (profile u)) = Some (nickname (profile u'))
  /\ (profile_card_policy (profile u'), group_invite_policy (profile u'), last_seen_visibility p', gender_visibility p',
      profile_visibility p', call_policy p', read_receipts_visibility p')
     = (policy_or (up_profile_card_policy b) (profile_card_policy (profile u)),
        policy_or (up_group_invite_policy b) (group_invite_policy (profile u)),
        policy_or (up_last_seen_visibility b) (last_seen_visibility p),
        policy_or (up_gender_visibility b) (gender_visibility p), policy_or (up_profile_visibility b) (profile_visibility p),
        policy_or (up_call_policy b) (call_policy p), policy_or (up_read_receipts_visibility b) (read_receipts_visibility p)).
Proof.
  unfold apply_update. destruct (set_req (up_nickname b) (nickname (profile u))) as [n|],
    (set_req (up_badge_hidden b) (badge_hidden (profile u))) as [h|],
    (set_req (up_hof_opt_in b) (hof_opt_in p)) as [o|]; try done.
  match goal with |- context [columns_hold ?a ?c] => destruct (columns_hold a c) eqn:Hc end; [|done].
  intros [= <- <-]. rewrite Hc. repeat split. by destruct av as [[? ?]|].
Qed.

Lemma rename_audience_spec uin d o : o ∈ rename_audience uin d <-> edges d !! (o, uin) = Some false.
Proof.
  unfold rename_audience. rewrite list_elem_of_omap. split.
  - intros ([[a c] bl] & Hin & He). apply elem_of_map_to_list in Hin. simpl in He. case_cond; [|done].
    apply andb_true_iff in Heqb as [->%Z.eqb_eq ->%negb_true_iff]. by injection He as <-.
  - intros He. exists ((o, uin), false). split; [by apply elem_of_map_to_list|]. simpl. by rewrite Z.eqb_refl.
Qed.

(** What [update_me] writes: refused, nothing changes and nobody is told;
    accepted, the rows of everybody else are what they were, and the own row
    keeps its keys, standing, presence and push settings, wears a mark it wore
    or holds, has well-formed settings if it had, and for a guest copy the Hall
    of Fame fields it had; and if the name changed, exactly the owners of an
    unblocked contact row are told the new one. *)
Theorem profile_write now uin b d o d' told :
  update_me now uin b d = (o, d', told) ->
  match o with
  | Raise _ => d' = d /\ told = []
  | Ok view =>
      (forall v, v <> uin -> user_row d' v = user_row d v)
      /\ exists w w', user_row d uin = Some w /\ user_row d' uin = Some w'
           /\ same_standing w w' /\ view = from_model_for_viewer now w' uin false false
           /\ (forall k, badge (profile (w_user w')) = Some k ->
                 badge (profile (w_user w)) = Some k \/ k ∈ earned_badges (w_user w) (w_account w))
           /\ (profile_ok w -> profile_ok w')
           /\ (is_Some (guest_status (w_user w)) ->
                 hof_opt_in (w_person w') = hof_opt_in (w_person w) /\ hof_avatar (w_person w') = hof_avatar (w_person w))
           /\ (forall x n, (x, n) ∈ told <->
                 n = nickname (profile (w_user w')) /\ n <> nickname (profile (w_user w))
                 /\ edges d !! (x, uin) = Some false)
  end.
Proof.
  unfold update_me. case_cond; [by intros [= <- <- <-]|]. destruct (user_row d uin) as [w|] eqn:Hw; [|by intros [= <- <- <-]].
  set (b' := if bool_decide (is_Some (guest_status (w_user w))) then drop_hof b else b).
  destruct (check_policies b') as [[]|] eqn:Hpol; [|by intros [= <- <- <-]]. cbn [obind].
  destruct (check_badge _ _) as [bdg|] eqn:Hb; [|by intros [= <- <- <-]]. cbn [obind].
  destruct (check_hof_avatar _) as [hof|] eqn:Hh; [|by intros [= <- <- <-]]. cbn [obind].
  destruct (check_avatar _ _) as [av|] eqn:Ha; [|by intros [= <- <- <-]]. cbn [obind].
  destruct (apply_update b' bdg hof av (w_user w) (w_person w)) as [[u p]|] eqn:Hu; [|by intros [= <- <- <-]].
  intros [= <- <- <-]. apply apply_update_ok in Hu as (Hc & Hst & Hpp & Hbd & Hav & Hopt & Hhof & Hn & Hpo). injection Hst as ??????.
  split; [intros v Hv; rewrite (user_row_put _ _ _ _ _ w) by done; by rewrite decide_False|].
  exists w, (mkRow uin u (w_keys w) (w_account w) p).
  rewrite (user_row_put _ _ _ _ _ w), decide_True by done. pose proof (user_row_uin _ _ _ Hw) as Hwu.
  split; [done|]. split; [done|]. split; [by rewrite <-Hwu; repeat split|]. split; [done|]. split; [|split; [|split]].
  - intros k Hk. simpl in Hk. rewrite Hbd in Hk. destruct (check_badge_ok _ _ _ Hb _ _ Hk); auto.
  - intros (Hall & Hpic & _). repeat split; [| |done]; simpl.
    + apply check_policies_ok in Hpol as (? & ? & ? & ? & ? & ? & ?).
      rewrite !Forall_cons in Hall. destruct Hall as (? & ? & ? & ? & ? & ? & ? & _).
      injection Hpo as -> -> -> -> -> -> ->. repeat (constructor; [eauto using check_choice_ok|]). constructor.
    + apply check_avatar_ok in Ha. destruct av as [[a c]|]; simpl in Hav; injection Hav as -> ->; [exact Ha|exact Hpic].
  - intros Hg. unfold b' in *. rewrite bool_decide_eq_true_2 in * by done. simpl in *. injection Hopt as <-. injection Hh as <-. done.
  - intros x n. simpl. destruct (String.eqb_spec (nickname (profile u)) (nickname (profile (w_user w)))) as [E|E].
    + split; [by intros ?%not_elem_of_nil|]. naive_solver.
    + rewrite list_elem_of_fmap. setoid_rewrite rename_audience_spec. naive_solver.
Qed.

(** ** The order of a search *)

Lemma insert_row_perm le x l : insert_row le x l ≡ₚ x :: l.
Proof.
  induction l as [|y l IH]; simpl; [done|]. destruct (le x y); [done|].
  rewrite IH. apply Permutation_swap.
Qed.
Lemma sort_rows_perm le l : sort_rows le l ≡ₚ l.
Proof. induction l as [|x l IH]; simpl; [done|]. by rewrite insert_row_perm, IH. Qed.

(** The row of the least number, if the order says so, comes first. *)
Lemma sort_rows_head le l x :
  x ∈ l -> (forall y, y ∈ l -> le x y = true) ->
  (forall y, y ∈ l -> y = x \/ le y x = false) ->
  head (sort_rows le l) = Some x.
Proof.
  induction l as [|y l IH]; intros Hx Hle Hge; [by apply not_elem_of_nil in Hx|]. simpl.
  destruct (Hge y) as [->|Hyx]; [left| |].
  - destruct (sort_rows le l) as [|z s] eqn:Es; simpl; [done|].
    rewrite (Hle z); [done|]. right. rewrite <-(sort_rows_perm le l), Es. left.
  - assert (Hx' : x ∈ l).
    { apply elem_of_cons in Hx as [->|]; [|done]. rewrite (Hle y) in Hyx by left. done. }
    assert (Hh : head (sort_rows le l) = Some x).
    { apply IH; [done| |]; intros z Hz; [apply Hle|apply Hge]; by right. }
    destruct (sort_rows le l) as [|z s]; [done|]. simpl in Hh. injection Hh as ->. simpl. by rewrite Hyx.
Qed.

Lemma all_rows_elem d w : w ∈ all_rows d <-> user_row d (w_uin w) = Some w.
Proof.
  unfold all_rows. rewrite list_elem_of_omap. split.
  - intros ([k u] & _ & Hk). simpl in Hk. by rewrite (user_row_uin _ _ _ Hk).
  - intros Hw. pose proof Hw as Hu. unfold user_row in Hu. destruct (users (score d) !! w_uin w) as [u|] eqn:E; [|done].
    exists (w_uin w, u). split; [by apply elem_of_map_to_list|done].
Qed.

Lemma all_rows_NoDup d : NoDup (map w_uin (all_rows d)).
Proof.
  unfold all_rows. pose proof (NoDup_fst_map_to_list (users (score d))) as H.
  induction (map_to_list (users (score d))) as [|[k u] l IH]; simpl in *; [constructor|].
  apply NoDup_cons in H as [Hk Hl]. destruct (user_row d k) as [w|] eqn:Hw; [|by apply IH]. simpl.
  apply NoDup_cons. split; [|by apply IH]. rewrite (user_row_uin _ _ _ Hw). intros Hin. apply Hk.
  apply list_elem_of_fmap in Hin as (w' & -> & Hw'). apply list_elem_of_omap in Hw' as ([k' u'] & Hin' & E).
  rewrite (user_row_uin _ _ _ E). apply list_elem_of_fmap. by exists (k', u').
Qed.

Lemma slice_to_sublist {A} n (l : list A) : sublist (slice_to n l) l.
Proof. unfold slice_to. case_cond; apply sublist_take. Qed.

Lemma NoDup_sublist_map {A} (f : A -> Z) l k : sublist l k -> NoDup (map f k) -> NoDup (map f l).
Proof. intros Hs Hn. eapply sublist_NoDup; [exact Hn|]. clear Hn. induction Hs; simpl; by constructor. Qed.

Lemma case_rank_zero c l z : case_rank ((c, 0) :: l) z = 0 \/ c = false.
Proof. simpl. destruct c; auto. Qed.

Section search_facts.
Context {R : Type} `{RR : Redis R}.
Context (ed25519_verify : bytes -> bytes -> bytes -> bool).
Context (ilike : string -> string -> bool) (name_le : string -> string -> bool).

Notation search := (search ed25519_verify ilike name_le).
Notation search_le := (search_le ilike name_le).

(** The rows of an answer, before they are described. *)
Definition found (e : uenv) (raw : string) (q : query) (limit me : Z) (d : sdb) : list Row :=
  let hits := filter (fun w => search_clause ilike raw q w && listable me w = true) (all_rows d) in
  let page := take (Z.to_nat (Z.min (limit * 2 + 10) 250)) (sort_rows (search_le raw q (is_contact_of d me)) hits) in
  slice_to limit (filter (fun w => home_of ed25519_verify d w (ue_own e) = None \/ Some (w_uin w) = exact_uin q) page).

Definition described_row (e : uenv) (me : Z) (d : sdb) (w : Row) : PublicUser :=
  with_home (home_of ed25519_verify d w (ue_own e))
    (from_model w (Some me)
       (String.eqb (or_else (profile_card_policy (profile (w_user w))) "everyone") "contacts" && is_contact_of d me (w_uin w))
       (negb (strip_keys_from_discovery (island_is_closed (ue_closed e))))).

Lemma search_found e q limit me d (r : R) out r' :
  search e q limit me d r = (Ok out, r') -> (guest_caller e d me r).1 = false ->
  exists qq, query_of (strip q) = Ok qq /\ limit <= 100 /\ - 5 <= limit
    /\ out = map (described_row e me d) (found e (strip q) qq limit me d).
Proof.
  unfold Users.search. destruct (String.eqb q "" || (100 <? limit)) eqn:Hv; [done|].
  destruct (guest_caller e d me r) as [g r0]. simpl. intros Hs ->.
  destruct (query_of (strip q)) as [qq|]; [|done].
  destruct (negb (fits_bigint qq) || (limit * 2 + 10 <? 0)) eqn:Hb; [done|].
  apply orb_false_iff in Hv as [_ Hv]. apply orb_false_iff in Hb as [_ Hb]. injection Hs as <- _.
  exists qq. split; [done|]. split; [lia|]. split; [lia|]. reflexivity.
Qed.

Lemma found_sublist e raw q limit me d :
  exists hits, sublist (found e raw q limit me d) hits
    /\ hits ≡ₚ filter (fun w => search_clause ilike raw q w && listable me w = true) (all_rows d).
Proof.
  eexists. split; [|apply sort_rows_perm]. unfold found. etransitivity; [apply slice_to_sublist|].
  etransitivity; [apply sublist_filter|]. apply sublist_take.
Qed.

Lemma found_elem e raw q limit me d w :
  w ∈ found e raw q limit me d ->
  user_row d (w_uin w) = Some w /\ listable me w = true
  /\ (home_of ed25519_verify d w (ue_own e) = None \/ Some (w_uin w) = exact_uin q).
Proof.
  intros Hw. unfold found in Hw. pose proof (elem_of_sublist _ _ _ Hw (slice_to_sublist _ _)) as Hf.
  apply list_elem_of_filter in Hf as [Hhome Hp]. pose proof (elem_of_sublist _ _ _ Hp (sublist_take _ _)) as Hs. rewrite sort_rows_perm in Hs. apply list_elem_of_filter in Hs as [[_ Hl]%andb_true_iff Hin].
  by apply all_rows_elem in Hin.
Qed.

Lemma found_NoDup e raw q limit me d : NoDup (map w_uin (found e raw q limit me d)).
Proof.
  destruct (found_sublist e raw q limit me d) as (hits & Hs & Hp). eapply NoDup_sublist_map; [exact Hs|].
  rewrite Hp. eapply NoDup_sublist_map; [apply sublist_filter|apply all_rows_NoDup].
Qed.

Lemma exact_row_below raw q friend n x y :
  exact_uin q = Some n -> w_uin x = n ->
  search_le raw q friend x x = true
  /\ (w_uin y <> n -> search_le raw q friend x y = true /\ search_le raw q friend y x = false).
Proof.
  intros Hq Hx. unfold Users.search_le. rewrite !Z.eqb_refl, String.eqb_refl. cbn [negb].
  split; [by rewrite Z.leb_le|]. intros Hy.
  assert (Rx : search_rank ilike raw q x = 0).
  { unfold search_rank. rewrite Hq, bool_decide_eq_true_2 by congruence. by destruct q. }
  assert (Ry : 0 < search_rank ilike raw q y).
  { unfold search_rank. rewrite Hq, bool_decide_eq_false_2 by congruence. destruct q; simpl; repeat case_cond; lia. }
  rewrite Rx. replace (0 =? search_rank ilike raw q y) with false by lia.
  replace (search_rank ilike raw q y =? 0) with false by lia. cbn [negb]. lia.
Qed.

Lemma found_exact_first e raw q limit me d n w :
  exact_uin q = Some n -> user_row d n = Some w -> listable me w = true -> 1 <= limit ->
  head (found e raw q limit me d) = Some w.
Proof.
  intros Hq Hw Hl Hlim. pose proof (user_row_uin _ _ _ Hw) as Hwu. unfold found.
  set (hits := filter _ (all_rows d)).
  assert (Hh : head (sort_rows (search_le raw q (is_contact_of d me)) hits) = Some w).
  { apply sort_rows_head.
    - apply list_elem_of_filter. rewrite Hl, andb_true_r. split; [|by apply all_rows_elem; rewrite Hwu].
      destruct q as [n'|n'|]; [injection Hq as ->..|done]; simpl; by rewrite Hwu, Z.eqb_refl.
    - intros y Hy. destruct (decide (w_uin y = n)) as [E|E]; [|exact (proj1 (proj2 (exact_row_below raw q _ n w y Hq Hwu) E))].
      replace y with w; [exact (proj1 (exact_row_below raw q _ n w w Hq Hwu))|].
      apply list_elem_of_filter in Hy as [_ Hy%all_rows_elem]. rewrite E in Hy. congruence.
    - intros y Hy. destruct (decide (w_uin y = n)) as [E|E]; [left|right; exact (proj2 (proj2 (exact_row_below raw q _ n w y Hq Hwu) E))].
      apply list_elem_of_filter in Hy as [_ Hy%all_rows_elem]. rewrite E in Hy. congruence. }
  destruct (sort_rows _ hits) as [|z s]; [done|]. injection Hh as ->.
  destruct (Z.to_nat (Z.min (limit * 2 + 10) 250)) as [|k] eqn:Hk; [lia|]. cbn [take firstn].
  rewrite filter_cons_True by (right; congruence). unfold slice_to. replace (0 <=? limit) with true by lia.
  destruct (Z.to_nat limit) eqn:?; [lia|done].
Qed.

(** The search lists each account once, at most as many as asked, none that is
    the caller, suspended or a guest copy, a backup copy only for its exact
    number; and the account whose exact number was typed, if it may be listed,
    comes first. *)
Theorem search_directory e q limit me d (r : R) out r' :
  search e q limit me d r = (Ok out, r') -> (guest_caller e d me r).1 = false ->
  exists qq, query_of (strip q) = Ok qq
    /\ NoDup (map pu_uin out) /\ (0 <= limit -> Z.of_nat (length out) <= limit)
    /\ (forall o, o ∈ out -> exists w, user_row d (pu_uin o) = Some w
          /\ pu_uin o <> me /\ is_suspended (w_user w) = false /\ guest_status (w_user w) = None
          /\ (pu_home o = None \/ exact_uin qq = Some (pu_uin o)))
    /\ (forall n w, exact_uin qq = Some n -> user_row d n = Some w -> listable me w = true -> 1 <= limit ->
          head (map pu_uin out) = Some n).
Proof.
  intros Hs Hg. destruct (search_found _ _ _ _ _ _ _ _ Hs Hg) as (qq & Hqq & _ & _ & ->). exists qq. split; [done|].
  assert (Hm : map pu_uin (map (described_row e me d) (found e (strip q) qq limit me d))
               = map w_uin (found e (strip q) qq limit me d)) by (rewrite map_map; reflexivity).
  split; [|split; [|split]].
  - rewrite Hm. apply found_NoDup.
  - intros Hl. rewrite length_map. unfold found, slice_to. replace (0 <=? limit) with true by lia.
    rewrite length_take. lia.
  - intros o Ho. apply list_elem_of_fmap in Ho as (w & -> & Hw). apply found_elem in Hw as (Hw & Hl & Hh).
    exists w. split; [done|]. unfold listable in Hl.
    apply andb_true_iff in Hl as [[H1%negb_true_iff H2%negb_true_iff]%andb_true_iff H3%bool_decide_eq_true].
    apply Z.eqb_neq in H1. repeat split; try done. cbn. naive_solver.
  - intros n w Hq Hw Hl Hlim. rewrite Hm.
    pose proof (found_exact_first e (strip q) qq limit me d n w Hq Hw Hl Hlim) as Hh.
    destruct (found e (strip q) qq limit me d) as [|z zs]; [done|]. injection Hh as ->. simpl. f_equal.
    exact (user_row_uin _ _ _ Hw).
Qed.

End search_facts.

(** ** A hidden profile *)

(** Two profiles that agree on their settings. *)
Definition same_settings (p p' : Person) : Prop :=
  last_seen_visibility p' = last_seen_visibility p /\ gender_visibility p' = gender_visibility p
  /\ profile_visibility p' = profile_visibility p /\ call_policy p' = call_policy p.

(** The row of [x], and the same row with another profile. *)
Inductive veiled (x me : Z) (c : bool) : Row -> Row -> Prop :=
  | veiled_same w : veiled x me c w w
  | veiled_other u k a p p' :
      same_settings p p' -> profile_visible_for_viewer x p me c = false ->
      veiled x me c (mkRow x u k a p) (mkRow x u k a p').

Definition with_person (x : Z) (p : Person) (d : sdb) : sdb := set_people (<[x := p]> (people d)) d.

Lemma hidden_settings x p p' me c :
  same_settings p p' -> profile_visible_for_viewer x p me c = false ->
  x <> me /\ profile_visible_for_viewer x p' me c = false
  /\ String.eqb (profile_visibility p) "everyone" = false
  /\ String.eqb (or_else (profile_visibility p) "everyone") "everyone" = false.
Proof.
  intros (H1 & H2 & H3 & H4) Hv. unfold profile_visible_for_viewer in *. destruct (Z.eqb_spec me x) as [->|Hne]; [done|].
  rewrite H3. split; [congruence|]. split; [done|]. unfold passes, or_else in *.
  destruct (String.eqb_spec (profile_visibility p) "") as [E|E]; [done|].
  by destruct (String.eqb (profile_visibility p) "everyone").
Qed.

Section veil.
Context (x me : Z).
Context {R : Type} `{RR : Redis R}.
Context (hmac_hex : string -> string -> string) (secret : string) (sha256 : bytes -> bytes).
Context (ed25519_verify : bytes -> bytes -> bytes -> bool).
Context (ilike : string -> string -> bool) (name_le : string -> string -> bool).

Lemma veiled_columns c w w' : veiled x me c w w' ->
  w_uin w' = w_uin w /\ w_user w' = w_user w /\ w_keys w' = w_keys w /\ w_account w' = w_account w.
Proof. by destruct 1. Qed.

Lemma veiled_card c now w w' : veiled x me c w w' ->
  from_model_for_viewer now w' me c = from_model_for_viewer now w me c
  /\ lookup_row now w' me c = lookup_row now w me c.
Proof.
  intros [|u k a p p' Hs Hv]; [done|]. destruct (hidden_settings _ _ _ _ _ Hs Hv) as (Hne & Hv' & _).
  destruct Hs as (H1 & H2 & H3 & H4). unfold from_model_for_viewer, lookup_row. cbn [w_uin w_user w_keys w_account w_person].
  rewrite Hv, Hv'. cbn [andb when]. unfold last_seen_for_viewer. rewrite H1, H4.
  by replace (me =? x) with false by lia.
Qed.

Lemma veiled_search_row c w w' b keys : veiled x me c w w' ->
  from_model w' (Some me) b keys = from_model w (Some me) b keys.
Proof.
  intros [|u k a p p' Hs Hv]; [done|]. destruct (hidden_settings _ _ _ _ _ Hs Hv) as (_ & _ & _ & Hpub).
  destruct Hs as (_ & _ & H3 & _). unfold from_model. cbn [w_uin w_user w_keys w_account w_person]. by rewrite H3, Hpub.
Qed.

Lemma veiled_search c w w' raw q : veiled x me c w w' ->
  search_clause ilike raw q w' = search_clause ilike raw q w /\ search_rank ilike raw q w' = search_rank ilike raw q w.
Proof.
  intros [|u k a p p' Hs Hv]; [done|]. destruct (hidden_settings _ _ _ _ _ Hs Hv) as (_ & _ & Hpub & _).
  destruct Hs as (_ & _ & H3 & _). unfold search_clause, search_rank, text_clause, profile_public.
  cbn [w_uin w_user w_keys w_account w_person]. by rewrite H3, Hpub.
Qed.
Lemma Forall2_filter_same {A} (rel : A -> A -> Prop) (P Q : A -> Prop) `{!forall a, Decision (P a), !forall a, Decision (Q a)} l k :
  (forall a b, rel a b -> P a <-> Q b) -> Forall2 rel l k -> Forall2 rel (filter P l) (filter Q k).
Proof.
  intros HP. induction 1 as [|a b l k Hab Hlk IH]; [constructor|]. rewrite !filter_cons.
  destruct (decide (P a)) as [Ha|Ha], (decide (Q b)) as [Hb|Hb]; try (exfalso; by rewrite (HP a b Hab) in Ha);
    [by constructor|done].
Qed.

Lemma sort_rows_same (rel : Row -> Row -> Prop) le le' l k :
  (forall a a' b b', rel a a' -> rel b b' -> le a b = le' a' b') -> Forall2 rel l k ->
  Forall2 rel (sort_rows le l) (sort_rows le' k).
Proof.
  intros Hle. induction 1 as [|a a' l k Hab _ IH]; [constructor|]. simpl. revert IH.
  generalize (sort_rows le l) (sort_rows le' k). induction 1 as [|b b' s s' Hb Hs IHs]; simpl; [by repeat constructor|].
  rewrite (Hle a a' b b') by done. destruct (le' a' b'); by repeat constructor.
Qed.

Lemma slice_to_same {A} (rel : A -> A -> Prop) n l k : Forall2 rel l k -> Forall2 rel (slice_to n l) (slice_to n k).
Proof. intros H. unfold slice_to. rewrite (Forall2_length _ _ _ H). case_cond; by apply Forall2_take. Qed.

Context (d : sdb) (p' : Person) (w0 : Row).
Context (Hw0 : user_row d x = Some w0) (Hset : same_settings (w_person w0) p').
Context (Hhid : profile_visible_for_viewer x (w_person w0) me (is_contact_of d me x) = false).
Notation d' := (with_person x p' d).
Notation rel := (veiled x me (is_contact_of d me x)).

Lemma veiled_rows v : option_Forall2 rel (user_row d v) (user_row d' v).
Proof using Hw0 Hset Hhid.
  unfold user_row at 2. change (score d') with (score d). destruct (decide (v = x)) as [->|Hne].
  - pose proof Hw0 as H. unfold user_row in H. destruct (users (score d) !! x) as [u|] eqn:E; [|done].
    rewrite Hw0. constructor. cbn [people with_person set_people]. rewrite lookup_insert_eq. simpl.
    injection H as <-. apply veiled_other; done.
  - unfold user_row. destruct (users (score d) !! v) as [u|]; constructor. cbn [people with_person set_people].
    rewrite lookup_insert_ne by done. constructor.
Qed.

Lemma veiled_omap (l : list Z) : Forall2 rel (omap (user_row d) l) (omap (user_row d') l).
Proof using Hw0 Hset Hhid.
  induction l as [|v l IH]; [constructor|]. cbn [omap list_omap].
  destruct (veiled_rows v); [by constructor|done].
Qed.

Lemma veiled_all_rows : Forall2 rel (all_rows d) (all_rows d').
Proof using Hw0 Hset Hhid.
  unfold all_rows. change (users (score d')) with (users (score d)).
  assert (H : forall dd, omap (fun kv : Z * User => user_row dd kv.1) (map_to_list (users (score d)))
                         = omap (user_row dd) (map fst (map_to_list (users (score d))))).
  { intros dd. induction (map_to_list _) as [|kv l IH]; [done|]. unfold omap in *. simpl in *. by rewrite IH. }
  rewrite !H. apply veiled_omap.
Qed.

Lemma veiled_map {B} (f g : Row -> B) l k :
  (forall a b, rel a b -> f a = g b) -> Forall2 rel l k -> map f l = map g k.
Proof. intros Hf. induction 1 as [|a b l k Hab _ IH]; simpl; [done|]. by rewrite IH, (Hf a b). Qed.

Lemma veiled_contact a b : rel a b -> a = b \/ (w_uin a = x /\ w_uin b = x).
Proof. destruct 1; auto. Qed.

Lemma veiled_home own a b : rel a b -> home_of ed25519_verify d' b own = home_of ed25519_verify d a own.
Proof. destruct 1; reflexivity. Qed.

Lemma veiled_info e u card (r : R) :
  info sha256 ed25519_verify e u me card d' r = info sha256 ed25519_verify e u me card d r.
Proof using Hw0 Hset Hhid.
  unfold info. change (guest_caller e d' me r) with (guest_caller e d me r). destruct (guest_caller e d me r) as [g r'].
  destruct (negb _); [done|]. pose proof (veiled_rows u) as Hr.
  destruct (user_row d u) as [w|] eqn:Hu, (user_row d' u) as [w'|]; try (by inversion Hr).
  inversion Hr as [? ? Hr'|]; subst. clear Hr. rename Hr' into Hr. change (score d') with (score d). change (rooms (s_acc d')) with (rooms (s_acc d)).
  cbv zeta. match goal with |- context [if negb ?c then _ else _] => destruct (negb c) end; [done|].
  change (is_contact_of d' me u) with (is_contact_of d me u).
  rewrite (veiled_home _ w w') by done.
  assert (Hc : forall sh, from_model_for_viewer (ue_now e) w' me (negb (me =? u) && is_contact_of d me u) sh
                 = from_model_for_viewer (ue_now e) w me (negb (me =? u) && is_contact_of d me u) sh).
  { intros sh. destruct (veiled_contact _ _ Hr) as [->|[Hx _]]; [done|]. rewrite (user_row_uin _ _ _ Hu) in Hx. subst u.
    destruct (hidden_settings _ _ _ _ _ Hset Hhid) as (Hne & _). replace (me =? x) with false by lia.
    cbn [negb andb]. by rewrite (proj1 (veiled_card _ (ue_now e) _ _ Hr)). }
  by rewrite Hc.
Qed.

Lemma veiled_lookup e uins (s : limiter R) :
  lookup hmac_hex secret e uins me d' s = lookup hmac_hex secret e uins me d s.
Proof using Hw0 Hset Hhid.
  unfold lookup. destruct (negb _); [done|]. change (guest_caller e d' me (redis s)) with (guest_caller e d me (redis s)).
  destruct (guest_caller e d me (redis s)) as [g r']. destruct g; [done|]. destruct (filter _ uins) as [|u0 us]; [done|].
  destruct (enforce_cost_budget _ _ _ _ _ _ _ _ _ _) as [[|] s']; [|done]. destruct (existsb _ _); [done|].
  do 2 f_equal. symmetry. apply veiled_map.
  - intros w w' Hr. change (score d') with (score d). change (is_contact_of d') with (is_contact_of d).
    destruct (veiled_contact _ _ Hr) as [->|[Hx Hx']]; [done|]. rewrite Hx, Hx'.
    by rewrite (proj2 (veiled_card _ (ue_now e) _ _ Hr)).
  - apply Forall2_filter_same; [|apply veiled_omap]. intros w w' Hr.
    by destruct (veiled_columns _ _ _ Hr) as (_ & -> & _).
Qed.

Lemma veiled_search_le raw q a a' b b' : rel a a' -> rel b b' ->
  search_le ilike name_le raw q (is_contact_of d me) a b = search_le ilike name_le raw q (is_contact_of d' me) a' b'.
Proof.
  intros Ha Hb. unfold search_le. change (is_contact_of d' me) with (is_contact_of d me).
  rewrite (proj2 (veiled_search _ _ _ raw q Ha)), (proj2 (veiled_search _ _ _ raw q Hb)).
  destruct (veiled_columns _ _ _ Ha) as (-> & -> & _), (veiled_columns _ _ _ Hb) as (-> & -> & _). done.
Qed.

Lemma veiled_found e q limit (r : R) :
  search ed25519_verify ilike name_le e q limit me d' r = search ed25519_verify ilike name_le e q limit me d r.
Proof using Hw0 Hset Hhid.
  unfold search. destruct (_ || _); [done|]. change (guest_caller e d' me r) with (guest_caller e d me r).
  destruct (guest_caller e d me r) as [g r']. destruct g; [done|]. destruct (query_of (strip q)) as [qq|]; [|done].
  destruct (_ || _); [done|]. do 2 f_equal. symmetry. apply veiled_map.
  - intros w w' Hr. rewrite (veiled_home _ w w'), (veiled_search_row _ _ _ _ _ Hr) by done.
    change (is_contact_of d') with (is_contact_of d). by destruct (veiled_columns _ _ _ Hr) as (-> & -> & _).
  - apply slice_to_same, Forall2_filter_same.
    { intros w w' Hr. rewrite (veiled_home _ w w') by done. by destruct (veiled_columns _ _ _ Hr) as (-> & _). }
    apply Forall2_take, sort_rows_same; [intros; by apply veiled_search_le|].
    apply Forall2_filter_same; [|apply veiled_all_rows]. intros w w' Hr.
    rewrite (proj1 (veiled_search _ _ _ (strip q) qq Hr)). unfold listable.
    by destruct (veiled_columns _ _ _ Hr) as (-> & -> & _).
Qed.

End veil.

(** C16. A profile hidden from a caller tells that caller nothing.  Whatever else the
    columns of the hidden profile hold (names, age, gender, place, text,
    interests, page, status message), the card, a batch lookup and every search
    answer this caller the same, so that neither the rows nor the set of people
    found depends on them. *)
Theorem hidden_profile_silent {R : Type} `{RR : Redis R} hmac_hex secret sha256 ed ilike name_le x me d p' w :
  user_row d x = Some w -> same_settings (w_person w) p' ->
  profile_visible_for_viewer x (w_person w) me (is_contact_of d me x) = false ->
  (forall e u card (r : R), info sha256 ed e u me card (with_person x p' d) r = info sha256 ed e u me card d r)
  /\ (forall e uins (s : limiter R), lookup hmac_hex secret e uins me (with_person x p' d) s = lookup hmac_hex secret e uins me d s)
  /\ (forall e q limit (r : R), search ed ilike name_le e q limit me (with_person x p' d) r = search ed ilike name_le e q limit me d r).
Proof.
  intros Hw Hs Hv. split; [|split]; intros.
  - by eapply veiled_info.
  - by eapply veiled_lookup.
  - by eapply veiled_found.
Qed.

(** ** A small island

    Accounts 5 ("bo"), 6 ("cy", who hides the profile), 7 ("dee", whose card
    nobody may open, and who is invisible).  5 has 6 in the contacts. *)

Definition person (first : string) (visibility : string) : Person :=
  mkPerson (Some first) None (Some 30) (Some "female"%string) None None None None None None "contacts" "nobody" visibility
    "contacts" "contacts" false None None.
Definition town_user (nick st policy : string) : User :=
  mkUser (days 1) 0 None [] false (mkProfile nick None false st None None policy "contacts").
Definition town (first6 first7 : string) : sdb :=
  let keys k := mkUserKeys k (Some k) None None None None None None in
  mkSdb
    (mkAdb (mkRdb (mkKdb (set_users (fun _ => {[ 5 := town_user "bo" "online" "everyone"; 6 := town_user "cy" "online" "everyone";
                                                  7 := town_user "dee" "invisible" "nobody" ]}) empty_db)
                     {[ 5 := keys "k5"; 6 := keys "k6"; 7 := keys "k7" ]} [] [] [] 1 1 1) {[ (5, 6) := false ]} 1)
       ∅ [] ∅ ∅ ∅ ∅ ∅ ∅)
    {[ 5 := person "Ann" "everyone"; 6 := person first6 "nobody"; 7 := person first7 "everyone" ]} ∅ ∅ [] 1 ∅
    [mkEndpoint 5 "tok" "ios" (Some "phone"%string) 0 0 None None; mkEndpoint 6 "tok" "ios" (Some "phone"%string) 0 0 None None;
     mkEndpoint 5 "old" "ios" (Some "phone"%string) 0 0 None None].

Definition town_env : uenv := mkUenv (days 1) ["isle.example"%string] None true true "scratch".
Definition town_limiter : limiter store := mkLimiter (∅ : store) ∅.

Fixpoint no_percent (s : string) : string :=
  match s with EmptyString => "" | String c s => if Ascii.eqb c "%" then no_percent s else String c (no_percent s) end.
Definition town_ilike (pattern v : string) : bool := contains (no_percent pattern) (lower v).
Definition town_search (q : string) (me : Z) (d : sdb) : outcome (list PublicUser) :=
  (search (R := store) (fun _ _ _ => false) town_ilike String.leb town_env q 20 me d (∅ : store)).1.
Definition town_info (u me : Z) (d : sdb) : outcome PublicUser :=
  (info (R := store) (fun b => b) (fun _ _ _ => false) town_env u me None d (∅ : store)).1.

Definition town_lookup := lookup (R := store) (fun _ s => s) "k" town_env [6; 7] 5 (town "Cy" "Dee") town_limiter.
Definition answer {A} (o : outcome (list A)) : list A := match o with Ok l => l | Raise _ => [] end.

Lemma town_lookup_runs : town_lookup = (Ok (answer town_lookup.1), town_lookup.2).
Proof.
  assert (E : match town_lookup.1 with Ok _ => true | Raise _ => false end = true) by (vm_compute; reflexivity).
  destruct town_lookup as [[l|] s]; [done|discriminate].
Qed.

Lemma lookup_answers_info_witness :
  Forall2 (fun u row => exists out, (info (fun b => b) (fun _ _ _ => false) town_env u 5 None (town "Cy" "Dee") (redis town_limiter)).1 = Ok out
                                    /\ row = described out (lr_callable row)) [6; 7] (answer town_lookup.1).
Proof.
  apply (lookup_answers_info (R := store) (fun _ s => s) "k" (fun b => b) (fun _ _ _ => false) town_env [6; 7] 5 (town "Cy" "Dee")
           town_limiter (answer town_lookup.1) town_lookup.2).
  - exact town_lookup_runs.
  - vm_compute. reflexivity.
  - vm_compute. reflexivity.
Defined.

Definition bo_again : PushTokenIn := mkPushTokenIn "tok" "ios" (Some "phone"%string) (Some [5]).
Definition town_registered := register_push_token (R := store) town_env 5 bo_again (town "Cy" "Dee") (∅ : store).

Lemma town_registered_runs : town_registered = (Ok tt, town_registered.1.2, town_registered.2).
Proof.
  assert (E : match town_registered.1.1 with Ok tt => true | Raise _ => false end = true) by (vm_compute; reflexivity).
  destruct town_registered as [[[[]|] d] r]; [done|discriminate].
Qed.

(** The install of account 5 no longer holds account 6: the row of 6 goes, and so
    does the older token of this device. *)
Lemma push_registration_witness :
  Exists (fresh_endpoint (days 1) 5 bo_again) (push_endpoints town_registered.1.2)
  /\ length (push_endpoints town_registered.1.2) = 1%nat.
Proof.
  split; [|vm_compute; reflexivity].
  refine (proj1 (push_registration (R := store) town_env 5 bo_again (town "Cy" "Dee") ∅ town_registered.1.2 town_registered.2 _ _)).
  - exact town_registered_runs.
  - vm_compute. reflexivity.
Defined.

Definition rename : ProfileUpdate :=
  mkProfileUpdate (Some (Some "cyd"%string)) None None None None None None None None None None None None None None None None
    None None None None None None None.
Definition town_renamed := update_me (days 1) 6 rename (town "Cy" "Dee").

Lemma profile_write_witness : town_renamed.2 = [(5, "cyd"%string)] /\
  forall v, v <> 6 -> user_row town_renamed.1.2 v = user_row (town "Cy" "Dee") v.
Proof.
  split; [vm_compute; reflexivity|].
  assert (E : match town_renamed.1.1 with Ok _ => true | Raise _ => false end = true) by (vm_compute; reflexivity).
  pose proof (profile_write (days 1) 6 rename (town "Cy" "Dee") town_renamed.1.1 town_renamed.1.2 town_renamed.2) as H.
  destruct town_renamed as [[[view|] d] told] eqn:Er; [|discriminate]. simpl in *. apply H. done.
Defined.

Definition town_found := search (R := store) (fun _ _ _ => false) town_ilike String.leb town_env "#7" 20 5 (town "Cy" "Dee") (∅ : store).

Lemma search_directory_witness : head (map pu_uin (answer town_found.1)) = Some 7.
Proof.
  assert (E : match town_found.1 with Ok _ => true | Raise _ => false end = true) by (vm_compute; reflexivity).
  pose proof (search_directory (R := store) (fun _ _ _ => false) town_ilike String.leb town_env "#7" 20 5 (town "Cy" "Dee") ∅
                (answer town_found.1) town_found.2) as H.
  destruct H as (qq & Hq & _ & _ & _ & Hh).
  - fold town_found. by destruct town_found as [[l|] s].
  - vm_compute. reflexivity.
  - vm_compute in Hq. injection Hq as <-.
    apply (Hh 7 (mkRow 7 (town_user "dee" "invisible" "nobody") (mkUserKeys "k7" (Some "k7"%string) None None None None None None)
                   no_account (person "Dee" "everyone"))); [reflexivity|vm_compute; reflexivity|vm_compute; reflexivity|lia].
Defined.

Lemma hidden_profile_silent_witness :
  town_search "ann" 5 (with_person 6 (person "Ann" "nobody") (town "Cy" "Dee")) = town_search "ann" 5 (town "Cy" "Dee").
Proof.
  refine (f_equal fst (proj2 (proj2 (hidden_profile_silent (R := store) (fun _ s => s) "k" (fun b => b) (fun _ _ _ => false) town_ilike String.leb 6 5
            (town "Cy" "Dee") (person "Ann" "nobody")
            (mkRow 6 (town_user "cy" "online" "everyone") (mkUserKeys "k6" (Some "k6"%string) None None None None None None)
               no_account (person "Cy" "nobody")) _ _ _)) town_env "ann"%string 20 (∅ : store))).
  - vm_compute. reflexivity.
  - by repeat split.
  - vm_compute. reflexivity.
Defined.

(** A card nobody may open is still searched by the names it does not show: the
    account is found by its first name, and the row that says so has none. *)
Theorem closed_card_searchable :
  map pu_uin (answer (town_search "ann" 5 (town "Cy" "Anna"))) = [7]
  /\ map pu_first_name (answer (town_search "ann" 5 (town "Cy" "Anna"))) = [None]
  /\ town_search "ann" 5 (town "Cy" "Dee") = Ok [].
Proof. vm_compute. split_and!; reflexivity. Qed.

(** A search row shows the stored status and gender where the card of the same
    person shows the same caller neither: an invisible person is told apart from
    an offline one, and a gender kept to oneself is given away. *)
Theorem search_row_tells_more :
  map (fun o => pu_status o) (answer (town_search "dee" 5 (town "Cy" "Dee"))) = ["invisible"%string]
  /\ (exists o, town_info 7 5 (town "Cy" "Dee") = Ok o /\ pu_status o = "offline"%string)
  /\ map (fun o => pu_gender o) (answer (town_search "bo" 6 (town "Cy" "Dee"))) = [Some "female"%string]
  /\ (exists o, town_info 5 6 (town "Cy" "Dee") = Ok o /\ pu_gender o = None).
Proof. vm_compute. split_and!; try reflexivity; eexists; split; reflexivity. Qed.

(** A superscript two is a digit to [isdigit] and not to [int]: the search fails. *)
Theorem superscript_fails : town_search (String (ascii_of_nat 178) "") 5 (town "Cy" "Dee") = Raise (ValueError "invalid literal for int()").
Proof. vm_compute. reflexivity. Qed.
