(* ===== verification/Contacts.v ===== *)
(** * Contacts

    Models [src/app/routers/contacts.py] and
    [services/contact_request_sweep.py]: the directed contact rows with
    their block flag, and the requests two people become contacts by.

    A handler answers with its result, the tables, and what it sends, in order:
    frames to sockets and wakes to push services.  Whether a frame arrives is a
    parameter ([online]).  How the list is written as JSON is one too. *)

From stdpp Require Import base list gmap strings pretty.
From Stdlib Require Import ZArith Lia Ascii.
From S2P Require Import Prelude Text Storage Redis RateLimit GuestPolicy Bytes KeyStorage Sessions Voucher KeyProof Door Rooms Accounts Json Profiles Federation Users.

Inductive frame :=
  | contact_request (request_id from_uin : Z) (from_nickname : string)
  | contact_response (request_id : Z) (accepted : bool) (to_uin : Z)
  | contact_request_cancelled (request_id from_uin : Z)
  | contact_removed (peer_uin : Z).

(** [Wake]: the APNs and the UnifiedPush call, with the kind and the thread. *)
Inductive effect := Frame (to : Z) (f : frame) | Wake (to : Z) (notif_kind thread_id : string).

(** ** Tables *)

Definition insert_request (mk : Z -> ContactRequest) (d : sdb) : sdb :=
  mkSdb (s_acc d) (people d) (home_records d) (gossip_records d) (contact_requests d ++ [mk (next_request_id d)])
    (next_request_id d + 1) (vault_devices d) (push_endpoints d).

Definition of_pair (from to : Z) (q : ContactRequest) : bool := (cq_from q =? from) && (cq_to q =? to).
Definition pending_state (q : ContactRequest) : bool := String.eqb (cq_state q) "pending".

(** [req.state = ...; req.resolved_at = ...] on the row with this id. *)
Definition resolve (id : Z) (st : string) (at_ : option Z) (l : list ContactRequest) : list ContactRequest :=
  map (fun q => if cq_id q =? id
                then mkRequest (cq_id q) (cq_from q) (cq_to q) st (cq_created_at q) (match at_ with Some t => Some t | None => cq_resolved_at q end)
                else q) l.
Definition without (id : Z) (l : list ContactRequest) : list ContactRequest := filter (fun q => cq_id q <> id) l.

(** [add_edges] of the accounts, on these tables. *)
Definition guest_row (d : sdb) (u : Z) : bool := is_guest_row (s_acc d) u.
Definition tie (a b : Z) (d : sdb) : sdb := set_acc (add_edges a b (s_acc d)).2 d.

(** ** The handlers *)

Section handlers.
Context {R : Type} `{RR : Redis R}.
Context (ed25519_verify : bytes -> bytes -> bytes -> bool).
Context (render : list ContactRow -> string) (sha256 : bytes -> bytes).

(** The list itself. *)
Definition contact_rows (now uin : Z) (d : sdb) : list ContactRow :=
  omap (fun kv => if kv.1.1 =? uin
                  then option_map (fun w => contact_row now uin w kv.2) (user_row d kv.1.2) else None)
    (map_to_list (edges d)).

(** The answer and its tag, or an empty 304. *)
Inductive listing := Listed (body etag : string) | NotModified (etag : string).
Definition list_contacts (now uin : Z) (if_none_match : option string) (d : sdb) : listing :=
  let body := render (contact_rows now uin d) in
  let etag := ("W/" ++ String DQ (String.substring 0 24 (hexdigest (sha256 (utf8 body))) ++ String DQ ""))%string in
  if bool_decide (if_none_match = Some etag) then NotModified etag else Listed body etag.

Definition wake_if (online : Z -> bool) (d : sdb) (to : Z) (kind : string) (sender : Z) (thread : string) : list effect :=
  if negb (online to) && should_push_for d to kind (Some sender) false then [Wake to kind thread] else [].

(** What a request that is now pending sends. *)
Definition announce_request (online : Z -> bool) (d : sdb) (id uin to : Z) : list effect :=
  let nick := match user_row d uin with Some w => nickname (profile (w_user w)) | None => pretty uin end in
  Frame to (contact_request id uin nick) :: wake_if online d to "contact_request" uin "pending".
Definition announce_accept (online : Z -> bool) (d : sdb) (id uin to : Z) : list effect :=
  Frame to (contact_response id true uin) :: wake_if online d to "contact_response_accepted" uin ("peer-" ++ pretty uin).

(** [{"id", "state"}] *)
Definition send_request (online : Z -> bool) (own : list string) (now uin to : Z) (d : sdb)
    : outcome (Z * string) * sdb * list effect :=
  if to =? uin then (Raise (HTTPException 400 "cannot add yourself"), d, [])
  else match user_row d to with
  | None => (Raise (HTTPException 404 "no such user"), d, [])
  | Some target =>
      match home_of ed25519_verify d target own with
      | Some (_, home_uin) => (Raise (HTTPExceptionN 403 "backup_copy" home_uin), d, [])
      | None =>
          if is_contact_of d uin to then (Raise (HTTPException 409 "already in your contact list"), d, [])
          else match find_first (fun q => of_pair to uin q && pending_state q) (contact_requests d) with
          | Some reverse =>
              let d := tie (cq_from reverse) (cq_to reverse)
                         (set_requests (resolve (cq_id reverse) "accepted" (Some now) (contact_requests d)) d) in
              (Ok (cq_id reverse, "accepted"%string), d, announce_accept online d (cq_id reverse) uin (cq_from reverse))
          | None =>
              match find_first (of_pair uin to) (contact_requests d) with
              | Some existing =>
                  if pending_state existing then (Ok (cq_id existing, "pending"%string), d, [])
                  else
                    let d := set_requests (resolve (cq_id existing) "pending" None (contact_requests d)) d in
                    (Ok (cq_id existing, "pending"%string), d, announce_request online d (cq_id existing) uin to)
              | None =>
                  let id := next_request_id d in
                  let d := insert_request (fun id => mkRequest id uin to "pending" now None) d in
                  (Ok (id, "pending"%string), d, announce_request online d id uin to)
              end
          end
      end
  end.

(** [RequestRow] and [OutgoingRow] *)
Record RequestRow := mkRequestRow { rr_id : Z; rr_from_uin : Z; rr_nickname : string; rr_state : string }.
Record OutgoingRow := mkOutgoingRow {
  or_id : Z; or_to_uin : Z; or_nickname : string; or_state : string; or_home : option (string * Z)
}.

Definition pending (uin : Z) (d : sdb) : list RequestRow :=
  omap (fun q => if (cq_to q =? uin) && pending_state q
                 then option_map (fun w => mkRequestRow (cq_id q) (cq_from q) (nickname (profile (w_user w))) (cq_state q))
                        (user_row d (cq_from q))
                 else None) (contact_requests d).

Definition outgoing (own : list string) (uin : Z) (d : sdb) : list OutgoingRow :=
  omap (fun q => if (cq_from q =? uin) && (pending_state q || String.eqb (cq_state q) "declined")
                 then option_map (fun w => mkOutgoingRow (cq_id q) (cq_to q) (nickname (profile (w_user w))) (cq_state q)
                                             (home_of ed25519_verify d w own))
                        (user_row d (cq_to q))
                 else None) (contact_requests d).

Definition cancel_outgoing (uin to : Z) (d : sdb) : outcome unit * sdb * list effect :=
  match find_first (of_pair uin to) (contact_requests d) with
  | None => (Raise (HTTPException 404 "no such request"), d, [])
  | Some q =>
      (Ok tt, set_requests (without (cq_id q) (contact_requests d)) d,
       if pending_state q then [Frame to (contact_request_cancelled (cq_id q) uin)] else [])
  end.

Definition get_request (id : Z) (d : sdb) : option ContactRequest :=
  find_first (fun q => cq_id q =? id) (contact_requests d).

(** [respond] after the guest check. *)
Definition respond_row (online : Z -> bool) (now uin id : Z) (accept : bool) (d : sdb) : outcome string * sdb * list effect :=
  match get_request id d with
  | None => (Raise (HTTPException 404 "no such request"), d, [])
  | Some q =>
      if negb (cq_to q =? uin) then (Raise (HTTPException 404 "no such request"), d, [])
      else if negb (pending_state q) then (Ok (cq_state q), d, [])
      else if accept then
        let d := set_requests (resolve id "accepted" (Some now) (contact_requests d))
                   (tie (cq_from q) (cq_to q) d) in
        (Ok "accepted"%string, d, announce_accept online d id uin (cq_from q))
      else
        (Ok "declined"%string, set_requests (resolve id "declined" (Some now) (contact_requests d)) d,
         [Frame (cq_from q) (contact_response id false uin)])
  end.

Definition respond (e : uenv) (up_stat : bool) (day : string) (online : Z -> bool) (uin id : Z) (accept : bool) (d : sdb) (r : R)
    : outcome string * sdb * list effect * R :=
  let '(allowed, r) :=
    if accept then refuse_guest (ue_up_guest e) up_stat (ue_now e) (ue_scratch e) day (score d) uin r else (Ok tt, r) in
  match allowed with
  | Raise x => (Raise x, d, [], r)
  | Ok _ => (respond_row online (ue_now e) uin id accept d, r)
  end.

Definition withdraw_pending (uin id : Z) (d : sdb) : outcome unit * sdb :=
  match get_request id d with
  | None => (Raise (HTTPException 404 "no_such_request"), d)
  | Some q =>
      if negb (cq_to q =? uin) || negb (pending_state q) then (Raise (HTTPException 404 "no_such_request"), d)
      else (Ok tt, set_requests (without id (contact_requests d)) d)
  end.

Definition remove_contact (uin contact : Z) (d : sdb) : outcome unit * sdb * list effect :=
  match edges d !! (uin, contact) with
  | None => (Raise (HTTPException 404 "not in list"), d, [])
  | Some _ =>
      (Ok tt, set_edges (fun m => delete (contact, uin) (delete (uin, contact) m)) d,
       if bool_decide (is_Some (edges d !! (contact, uin))) then [Frame contact (contact_removed uin)] else [])
  end.

(** [_requested_block]: [body] is what [json.loads] made of the body, [None] if
    there is none that can be read. *)
Definition requested_block (body : option jv) : option bool :=
  match body with
  | Some (JvObj l) => match jget "blocked" l with Some (JvBool b) => Some b | _ => None end
  | _ => None
  end.

Definition block_contact (uin contact : Z) (body : option jv) (d : sdb) : outcome bool * sdb :=
  match edges d !! (uin, contact) with
  | None => (Raise (HTTPException 404 "not in list"), d)
  | Some blocked =>
      let b := default (negb blocked) (requested_block body) in
      (Ok b, set_edges <[(uin, contact) := b]> d)
  end.

End handlers.

(** ** The sweep *)

Definition ACCEPTED_GRACE_MINUTES : Z := 60.

(** The backfill, and the two deletions. *)
Definition stamp_declined (now : Z) (q : ContactRequest) : ContactRequest :=
  if String.eqb (cq_state q) "declined" && bool_decide (cq_resolved_at q = None)
  then mkRequest (cq_id q) (cq_from q) (cq_to q) (cq_state q) (cq_created_at q) (Some now) else q.
Definition accepted_spent (cutoff : Z) (q : ContactRequest) : bool :=
  String.eqb (cq_state q) "accepted"
  && match cq_resolved_at q with Some t => t <? cutoff | None => cq_created_at q <? cutoff end.
Definition declined_spent (cutoff : Z) (q : ContactRequest) : bool :=
  String.eqb (cq_state q) "declined" && match cq_resolved_at q with Some t => t <? cutoff | None => false end.

Definition request_sweep (now declined_max_age_days : Z) (dry_run : bool) (d : sdb) : (Z * Z) * sdb :=
  let accepted_cutoff := now - seconds (ACCEPTED_GRACE_MINUTES * 60) in
  let declined_cutoff := now - days declined_max_age_days in
  let l := if dry_run then contact_requests d else map (stamp_declined now) (contact_requests d) in
  let l1 := drop_where (accepted_spent accepted_cutoff) l in
  let l2 := drop_where (declined_spent declined_cutoff) l1 in
  let counts := (Z.of_nat (length l - length l1), Z.of_nat (length l1 - length l2)) in
  (counts, if dry_run then d else set_requests l2 d).
