(* ===== verification/ContactsFacts.v ===== *)
(** * Contacts: theorems

    What the two tables mean together.  The specification is the set of wishes
    that stand: [(a, b)] is in it while [a] wants [b] as a contact and has not
    taken it back.  Two people are contacts when both wishes stand, a request is
    pending when one does; every operation changes the set as its name says, and
    only the person who acts can add a wish of theirs. *)

From stdpp Require Import base list gmap sets strings pretty.
From Stdlib Require Import ZArith Lia Ascii.
From S2P Require Import Prelude Text Storage Redis RateLimit GuestPolicy Bytes KeyStorage Sessions Voucher KeyProof Door Rooms Accounts Json Profiles Federation Users Contacts.

Notation wishes := (gset (Z * Z)).

(** ** Requests by pair *)

Definition pair_of (q : ContactRequest) : Z * Z := (cq_from q, cq_to q).

Definition pending_in (l : list ContactRequest) (p : Z * Z) : Prop :=
  exists q, q ∈ l /\ pair_of q = p /\ cq_state q = "pending"%string.

Definition requests_wf (l : list ContactRequest) (next : Z) : Prop :=
  NoDup (map cq_id l) /\ NoDup (map pair_of l) /\ Forall (fun q => cq_id q < next) l.

Lemma of_pair_true a b q : of_pair a b q = true <-> pair_of q = (a, b).
Proof. unfold of_pair, pair_of. rewrite andb_true_iff, !Z.eqb_eq. naive_solver. Qed.

Lemma pending_state_true q : pending_state q = true <-> cq_state q = "pending"%string.
Proof. apply String.eqb_eq. Qed.

Lemma resolve_ids id st t l : map cq_id (resolve id st t l) = map cq_id l.
Proof. unfold resolve. rewrite map_map. apply map_ext. intros q. by destruct (cq_id q =? id). Qed.
Lemma resolve_pairs id st t l : map pair_of (resolve id st t l) = map pair_of l.
Proof. unfold resolve. rewrite map_map. apply map_ext. intros q. by destruct (cq_id q =? id). Qed.

Lemma resolve_wf id st t l next : requests_wf l next -> requests_wf (resolve id st t l) next.
Proof.
  intros (H1 & H2 & H3). unfold requests_wf. rewrite resolve_ids, resolve_pairs. split; [done|]. split; [done|].
  apply Forall_forall. intros q Hq. apply list_elem_of_fmap in Hq as (x & -> & Hx).
  rewrite Forall_forall in H3. specialize (H3 x Hx). by destruct (cq_id x =? id).
Qed.

(** After the row of [q] is given a state, exactly its pair is decided by it. *)
Lemma pending_resolve st t l next q p :
  requests_wf l next -> q ∈ l ->
  pending_in (resolve (cq_id q) st t l) p <-> if decide (p = pair_of q) then st = "pending"%string else pending_in l p.
Proof.
  intros (Hi & Hp & _) Hq. unfold pending_in. split.
  - intros (x & Hx & <- & Hst). apply list_elem_of_fmap in Hx as (y & -> & Hy).
    destruct (Z.eqb_spec (cq_id y) (cq_id q)) as [E|E].
    + rewrite (NoDup_map_inj cq_id l y q) in * by done. by rewrite decide_True.
    + rewrite decide_False; [by exists y|]. intros Ep. apply E. by rewrite (NoDup_map_inj pair_of l y q).
  - case_decide as Ep; [intros ->|intros (y & Hy & Epy & Hst)].
    + eexists. split; [apply list_elem_of_fmap; exists q; split; [reflexivity|done]|]. by rewrite Z.eqb_refl.
    + exists y. split; [|done]. apply list_elem_of_fmap. exists y. split; [|done].
      destruct (Z.eqb_spec (cq_id y) (cq_id q)) as [E|E]; [|done].
      exfalso. apply Ep. rewrite <-Epy. by rewrite (NoDup_map_inj cq_id l y q).
Qed.

Lemma without_wf id l next : requests_wf l next -> requests_wf (without id l) next.
Proof.
  intros (H1 & H2 & H3). unfold without. split; [by apply NoDup_map_filter|].
  split; [by apply NoDup_map_filter|]. rewrite Forall_forall in *. intros q Hq.
  apply list_elem_of_filter in Hq as [_ Hq]. by apply H3.
Qed.

Lemma pending_without l next q p :
  requests_wf l next -> q ∈ l -> pending_in (without (cq_id q) l) p <-> p <> pair_of q /\ pending_in l p.
Proof.
  intros (Hi & Hp & _) Hq. unfold pending_in, without. split.
  - intros (x & Hx & <- & Hst). apply list_elem_of_filter in Hx as [Hne Hx]. split; [|by exists x].
    intros E. apply Hne. by rewrite (NoDup_map_inj pair_of l x q).
  - intros (Hne & x & Hx & <- & Hst). exists x. split; [|done]. apply list_elem_of_filter. split; [|done].
    intros E. apply Hne. by rewrite (NoDup_map_inj cq_id l x q).
Qed.

Lemma insert_wf now f t l next :
  requests_wf l next -> Forall (fun q => pair_of q <> (f, t)) l ->
  requests_wf (l ++ [mkRequest next f t "pending" now None]) (next + 1)
  /\ forall p, pending_in (l ++ [mkRequest next f t "pending" now None]) p <-> p = (f, t) \/ pending_in l p.
Proof.
  intros (H1 & H2 & H3) Hno. rewrite Forall_forall in H3, Hno. split.
  - unfold requests_wf. rewrite !map_app. simpl. split; [|split].
    + apply NoDup_app. split; [done|]. split; [|apply NoDup_singleton].
      intros i Hi. rewrite list_elem_of_singleton. apply list_elem_of_fmap in Hi as (q & -> & Hq). specialize (H3 q Hq). simpl in H3. lia.
    + apply NoDup_app. split; [done|]. split; [|apply NoDup_singleton].
      intros i Hi. rewrite list_elem_of_singleton. apply list_elem_of_fmap in Hi as (q & -> & Hq). by apply Hno.
    + apply Forall_app. split; [|constructor; [simpl; lia|constructor]].
      apply Forall_forall. intros q Hq. specialize (H3 q Hq). simpl in H3. lia.
  - intros p. unfold pending_in. split.
    + intros (q & [Hq| ->%list_elem_of_singleton]%elem_of_app & <- & Hst); [right; by exists q|by left].
    + intros [->|(q & Hq & H)]; [eexists; split; [apply elem_of_app; right; by apply list_elem_of_singleton|done]|].
      exists q. split; [apply elem_of_app; by left|done].
Qed.

(** ** The specification *)

Record represents (d : sdb) (W : wishes) : Prop := mkRepresents {
  rep_edges : forall a b, is_Some (edges d !! (a, b)) <-> (a, b) ∈ W /\ (b, a) ∈ W;
  rep_pending : forall a b, pending_in (contact_requests d) (a, b) <-> (a, b) ∈ W /\ (b, a) ∉ W;
  rep_other : forall a, (a, a) ∉ W;
  rep_requests : requests_wf (contact_requests d) (next_request_id d)
}.

(** What was done, by whom. *)
Inductive act :=
  | Asked (u t : Z)
  | Answered (u f : Z) (accept : bool)
  | Cancelled (u t : Z)
  | Withdrew (u f : Z)
  | Parted (u x : Z)
  | Idle.

(** [(f, u)] stands and [(u, f)] does not: [u] has yet to answer [f]. *)
Definition open_wish (f u : Z) (W : wishes) : bool := bool_decide ((f, u) ∈ W) && negb (bool_decide ((u, f) ∈ W)).

(** The set after an act; [guest] says who is a guest copy, and a pair with one
    never becomes contacts: the wish that was answered falls. *)
Definition wish (guest : Z -> bool) (x : act) (W : wishes) : wishes :=
  match x with
  | Asked u t =>
      if open_wish t u W && (guest t || guest u) then W ∖ {[(t, u)]} else {[(u, t)]} ∪ W
  | Answered u f accept =>
      if negb (open_wish f u W) then W
      else if accept && negb (guest f || guest u) then {[(u, f)]} ∪ W else W ∖ {[(f, u)]}
  | Cancelled u t => if open_wish u t W then W ∖ {[(u, t)]} else W
  | Withdrew u f => W ∖ {[(f, u)]}
  | Parted u x => W ∖ {[(u, x)]} ∖ {[(x, u)]}
  | Idle => W
  end.

Lemma open_wish_true f u W : open_wish f u W = true <-> (f, u) ∈ W /\ (u, f) ∉ W.
Proof. unfold open_wish. rewrite andb_true_iff, negb_true_iff, bool_decide_eq_true, bool_decide_eq_false. done. Qed.

Lemma open_wish_pending d W f u : represents d W -> open_wish f u W = true <-> pending_in (contact_requests d) (f, u).
Proof. intros Hr. by rewrite open_wish_true, (rep_pending _ _ Hr). Qed.

(** The four ways a step moves the tables and the set together. *)
Section moves.
Context (d d' : sdb) (W : wishes) (Hr : represents d W).
Context (Hwf : requests_wf (contact_requests d') (next_request_id d')).

Lemma move_tie f u :
  open_wish f u W = true ->
  (forall a b, is_Some (edges d' !! (a, b)) <-> is_Some (edges d !! (a, b)) \/ (a, b) = (f, u) \/ (a, b) = (u, f)) ->
  (forall p, pending_in (contact_requests d') p <-> p <> (f, u) /\ pending_in (contact_requests d) p) ->
  represents d' ({[(u, f)]} ∪ W).
Proof using Hr Hwf.
  intros Ho%open_wish_true He Hp. destruct Hr as [Re Rp Ro _]. constructor; [| | |done].
  - intros a b. rewrite He, Re. destruct (decide ((a, b) = (f, u))), (decide ((a, b) = (u, f))); set_solver.
  - intros a b. rewrite Hp, Rp. destruct (decide ((a, b) = (f, u))), (decide ((a, b) = (u, f))); set_solver.
  - intros a Ha. apply elem_of_union in Ha as [Ha%elem_of_singleton|Ha]; [|by apply (Ro a)].
    injection Ha as -> ->. naive_solver.
Qed.

Lemma move_drop f u :
  (u, f) ∉ W -> (forall a b, is_Some (edges d' !! (a, b)) <-> is_Some (edges d !! (a, b))) ->
  (forall p, pending_in (contact_requests d') p <-> p <> (f, u) /\ pending_in (contact_requests d) p) ->
  represents d' (W ∖ {[(f, u)]}).
Proof using Hr Hwf.
  intros Ho He Hp. destruct Hr as [Re Rp Ro _]. constructor; [| | |done].
  - intros a b. rewrite He, Re. destruct (decide ((a, b) = (f, u))), (decide ((a, b) = (u, f))); set_solver.
  - intros a b. rewrite Hp, Rp. destruct (decide ((a, b) = (f, u))), (decide ((a, b) = (u, f))); set_solver.
  - intros a. pose proof (Ro a). set_solver.
Qed.

Lemma move_ask u t :
  (t, u) ∉ W -> u <> t -> (forall a b, is_Some (edges d' !! (a, b)) <-> is_Some (edges d !! (a, b))) ->
  (forall p, pending_in (contact_requests d') p <-> p = (u, t) \/ pending_in (contact_requests d) p) ->
  represents d' ({[(u, t)]} ∪ W).
Proof using Hr Hwf.
  intros Ho Hne He Hp. destruct Hr as [Re Rp Ro _]. constructor; [| | |done].
  - intros a b. rewrite He, Re. destruct (decide ((a, b) = (t, u))), (decide ((a, b) = (u, t))); set_solver.
  - intros a b. rewrite Hp, Rp. destruct (decide ((a, b) = (t, u))), (decide ((a, b) = (u, t))); set_solver.
  - intros a. pose proof (Ro a). set_solver.
Qed.

Lemma move_part u x :
  (forall a b, is_Some (edges d' !! (a, b)) <-> is_Some (edges d !! (a, b)) /\ (a, b) <> (u, x) /\ (a, b) <> (x, u)) ->
  is_Some (edges d !! (u, x)) ->
  (forall p, pending_in (contact_requests d') p <-> pending_in (contact_requests d) p) ->
  represents d' (W ∖ {[(u, x)]} ∖ {[(x, u)]}).
Proof using Hr Hwf.
  intros He Hex Hp. destruct Hr as [Re Rp Ro _]. rewrite Re in Hex. constructor; [| | |done].
  - intros a b. rewrite He, Re. destruct (decide ((a, b) = (x, u))), (decide ((a, b) = (u, x))); set_solver.
  - intros a b. rewrite Hp, Rp. destruct (decide ((a, b) = (x, u))), (decide ((a, b) = (u, x))); set_solver.
  - intros a. pose proof (Ro a). set_solver.
Qed.

Lemma move_none :
  (forall a b, is_Some (edges d' !! (a, b)) <-> is_Some (edges d !! (a, b))) ->
  (forall p, pending_in (contact_requests d') p <-> pending_in (contact_requests d) p) -> represents d' W.
Proof using Hr Hwf.
  intros He Hp. destruct Hr as [Re Rp Ro _]. constructor; [| |done..]; intros a b; [by rewrite He|by rewrite Hp].
Qed.

End moves.

(** ** The operations *)

Lemma add_edge_spec a b m p : is_Some (add_edge a b m !! p) <-> is_Some (m !! p) \/ p = (a, b).
Proof.
  unfold add_edge. destruct (m !! (a, b)) eqn:E.
  - split; [by left|]. intros [H| ->]; [done|]. by rewrite E.
  - destruct (decide (p = (a, b))) as [->|Hne]; [rewrite lookup_insert_eq; naive_solver|].
    rewrite lookup_insert_ne by done. naive_solver.
Qed.

Lemma tie_tables a b d :
  contact_requests (tie a b d) = contact_requests d /\ next_request_id (tie a b d) = next_request_id d
  /\ users (score (tie a b d)) = users (score d).
Proof. unfold tie, add_edges. repeat case_cond; done. Qed.

Lemma tie_spec a b d x y :
  a <> b ->
  is_Some (edges (tie a b d) !! (x, y)) <->
  is_Some (edges d !! (x, y)) \/ (guest_row d a || guest_row d b = false /\ ((x, y) = (a, b) \/ (x, y) = (b, a))).
Proof.
  intros Hne. unfold tie, add_edges. replace (a =? b) with false by lia. fold (guest_row d a) (guest_row d b).
  destruct (guest_row d a || guest_row d b); unfold edges; simpl; [naive_solver|]. rewrite !add_edge_spec. naive_solver.
Qed.

Lemma tie_requests a b l d : edges (tie a b (set_requests l d)) = edges (tie a b d).
Proof. reflexivity. Qed.

Lemma find_pending a b l q :
  find_first (fun q => of_pair a b q && pending_state q) l = Some q -> q ∈ l /\ pair_of q = (a, b) /\ pending_in l (a, b).
Proof.
  intros [Hq [Hp%of_pair_true Hs%pending_state_true]%andb_true_iff]%find_first_Some. split; [done|]. split; [done|]. by exists q.
Qed.

Lemma find_no_pending a b l :
  find_first (fun q => of_pair a b q && pending_state q) l = None -> ~ pending_in l (a, b).
Proof.
  intros Hn (q & Hq & Hp & Hs). pose proof (find_first_absent _ _ _ Hn Hq) as H. simpl in H.
  apply of_pair_true in Hp. apply pending_state_true in Hs. by rewrite Hp, Hs in H.
Qed.

Section ops.
Context {R : Type} `{RR : Redis R}.
Context (ed25519_verify : bytes -> bytes -> bytes -> bool).

(** The accept both paths share. *)
Lemma accept_move d W q d' now :
  represents d W -> q ∈ contact_requests d -> cq_state q = "pending"%string ->
  contact_requests d' = resolve (cq_id q) "accepted" (Some now) (contact_requests d) ->
  next_request_id d' = next_request_id d ->
  (forall p, is_Some (edges d' !! p) <-> is_Some (edges (tie (cq_from q) (cq_to q) d) !! p)) ->
  represents d' (if guest_row d (cq_from q) || guest_row d (cq_to q) then W ∖ {[pair_of q]}
                 else {[(cq_to q, cq_from q)]} ∪ W).
Proof.
  intros Hr Hq Hst Hreq Hnext He.
  assert (Hpend : pending_in (contact_requests d) (cq_from q, cq_to q)) by (by exists q).
  pose proof Hpend as Ho. apply (open_wish_pending _ _ _ _ Hr) in Ho.
  assert (Hne : cq_from q <> cq_to q).
  { intros E. apply open_wish_true in Ho as [Ho _]. rewrite E in Ho. by apply (rep_other _ _ Hr) in Ho. }
  assert (Hwf : requests_wf (contact_requests d') (next_request_id d')).
  { rewrite Hreq, Hnext. apply resolve_wf, (rep_requests _ _ Hr). }
  assert (Hp : forall p, pending_in (contact_requests d') p <-> p <> (cq_from q, cq_to q) /\ pending_in (contact_requests d) p).
  { intros p. rewrite Hreq. rewrite (pending_resolve _ _ _ (next_request_id d)) by (done || apply (rep_requests _ _ Hr)).
    case_decide; naive_solver. }
  destruct (guest_row d (cq_from q) || guest_row d (cq_to q)) eqn:Hg.
  - apply (move_drop d); [done|done| | |done].
    + by apply open_wish_true in Ho as [_ ?].
    + intros a b. rewrite He, tie_spec, Hg by done. naive_solver.
  - apply (move_tie d); [done|done|done| |done].
    intros a b. rewrite He, tie_spec, Hg by done. naive_solver.
Qed.

Notation send_request := (send_request ed25519_verify).

(** The act of a request: refused, nothing happened. *)
Definition asked {A} (o : outcome A) (u t : Z) : act := match o with Ok _ => Asked u t | Raise _ => Idle end.

Lemma send_refines online own now u t d o d' eff W :
  represents d W -> send_request online own now u t d = (o, d', eff) ->
  users (score d') = users (score d) /\ represents d' (wish (guest_row d) (asked o u t) W).
Proof.
  intros Hr. pose proof (rep_requests _ _ Hr) as Hwf. unfold Contacts.send_request.
  destruct (Z.eqb_spec t u) as [->|Hne]; [by intros [= <- <- _]|].
  destruct (user_row d t) as [target|]; [|by intros [= <- <- _]].
  destruct (home_of _ d target own) as [[h hu]|]; [by intros [= <- <- _]|].
  destruct (is_contact_of d u t) eqn:Hc; [by intros [= <- <- _]|].
  destruct (find_first _ (contact_requests d)) as [rv|] eqn:Hf.
  - intros [= <- <- _]. apply find_pending in Hf as (Hq & Hpq & Hpend).
    destruct (tie_tables (cq_from rv) (cq_to rv)
                (set_requests (resolve (cq_id rv) "accepted" (Some now) (contact_requests d)) d)) as (T1 & T2 & T3).
    split; [exact T3|]. cbn [asked wish]. pose proof Hpend as Ho. apply (open_wish_pending _ _ _ _ Hr) in Ho. rewrite Ho.
    injection Hpq as E1 E2. cbn [andb]. rewrite <-E1, <-E2.
    apply (accept_move d W rv _ now); [done|done| |exact T1|exact T2|intros p; by rewrite tie_requests].
    destruct Hpend as (q' & Hq' & Hp' & Hs').
    rewrite (NoDup_map_inj pair_of (contact_requests d) rv q'); [done|apply Hwf|done|done|]. rewrite Hp'. by unfold pair_of; rewrite E1, E2.
  - apply find_no_pending in Hf.
    assert (Hno : open_wish t u W = false).
    { apply not_true_iff_false. by rewrite (open_wish_pending _ _ _ _ Hr). }
    assert (Hcon : ~ ((u, t) ∈ W /\ (t, u) ∈ W)).
    { rewrite <-(rep_edges _ _ Hr). unfold is_contact_of in Hc. by apply bool_decide_eq_false in Hc. }
    assert (Htu : (t, u) ∉ W).
    { intros Hin. destruct (decide ((u, t) ∈ W)) as [Hut|Hut]; [by apply Hcon|].
      assert (open_wish t u W = true) by (by apply open_wish_true). congruence. }
    destruct (find_first (of_pair u t) (contact_requests d)) as [ex|] eqn:Hex.
    + apply find_first_Some in Hex as [Hq Hpq%of_pair_true].
      destruct (pending_state ex) eqn:Hpe.
      * intros [= <- <- _]. split; [done|]. cbn [asked wish]. rewrite Hno. cbn [andb].
        replace ({[(u, t)]} ∪ W) with W; [done|]. apply pending_state_true in Hpe.
        assert (Hut : (u, t) ∈ W) by (apply (rep_pending _ _ Hr); by exists ex). set_solver.
      * intros [= <- <- _]. split; [done|]. cbn [asked wish]. rewrite Hno. cbn [andb].
        apply (move_ask d); [done|by apply resolve_wf|done|done|done|].
        intros p. cbn [set_requests contact_requests]. rewrite (pending_resolve _ _ _ (next_request_id d)) by done.
        rewrite Hpq. case_decide; naive_solver.
    + intros [= <- <- _]. split; [done|]. cbn [asked wish]. rewrite Hno. cbn [andb].
      assert (Hall : Forall (fun q => pair_of q <> (u, t)) (contact_requests d)).
      { apply Forall_forall. intros q Hq Hpq%of_pair_true. by rewrite (find_first_absent _ _ _ Hex Hq) in Hpq. }
      destruct (insert_wf now u t (contact_requests d) (next_request_id d) Hwf Hall) as [Hwf' Hp'].
      apply (move_ask d); [done|exact Hwf'|done|done|done|exact Hp'].
Qed.

(** The act behind an answer or a withdrawal: who had asked. *)
Definition about_request {A} (o : outcome A) (id : Z) (d : sdb) (mk : Z -> act) : act :=
  match o, get_request id d with Ok _, Some q => mk (cq_from q) | _, _ => Idle end.

Lemma get_request_Some id d q : get_request id d = Some q -> q ∈ contact_requests d /\ cq_id q = id.
Proof. intros [Hq Hi]%find_first_Some. by rewrite Z.eqb_eq in Hi. Qed.

Lemma row_pending d W q : represents d W -> q ∈ contact_requests d ->
  open_wish (cq_from q) (cq_to q) W = pending_state q.
Proof.
  intros Hr Hq. destruct (pending_state q) eqn:Hp.
  - apply (open_wish_pending _ _ _ _ Hr). exists q. apply pending_state_true in Hp. done.
  - apply not_true_iff_false. rewrite (open_wish_pending _ _ _ _ Hr). intros (q' & Hq' & Hpq & Hst%pending_state_true).
    rewrite (NoDup_map_inj pair_of (contact_requests d) q' q) in Hst; [congruence|apply (rep_requests _ _ Hr)|done..].
Qed.

Lemma respond_row_refines online now u id accept d o d' eff W :
  represents d W -> respond_row online now u id accept d = (o, d', eff) ->
  users (score d') = users (score d)
  /\ represents d' (wish (guest_row d) (about_request o id d (fun f => Answered u f accept)) W).
Proof.
  intros Hr. unfold respond_row, about_request. destruct (get_request id d) as [q|] eqn:Hg; [|by intros [= <- <- _]].
  apply get_request_Some in Hg as [Hq <-]. destruct (Z.eqb_spec (cq_to q) u) as [<-|Hne]; [|by intros [= <- <- _]]. cbn [negb].
  pose proof (row_pending _ _ _ Hr Hq) as Hop. destruct (pending_state q) eqn:Hp; cbn [negb].
  2: { intros [= <- <- _]. split; [done|]. cbn [wish]. by rewrite Hop. }
  pose proof (rep_requests _ _ Hr) as Hwf. destruct accept; intros [= <- <- _]; cbn [wish andb]; rewrite Hop; cbn [negb].
  - destruct (tie_tables (cq_from q) (cq_to q) d) as (T1 & T2 & T3). split; [exact T3|].
    apply pending_state_true in Hp.
    pose proof (accept_move d W q (set_requests (resolve (cq_id q) "accepted" (Some now) (contact_requests d))
                   (tie (cq_from q) (cq_to q) d)) now Hr Hq Hp eq_refl T2 (fun p => iff_refl _)) as H.
    by destruct (guest_row d (cq_from q) || guest_row d (cq_to q)).
  - split; [done|]. apply (move_drop d); [done|by apply resolve_wf| |done|].
    + by apply open_wish_true in Hop as [_ ?].
    + intros p. cbn [set_requests contact_requests]. rewrite (pending_resolve _ _ _ (next_request_id d)) by done.
      case_decide; naive_solver.
Qed.

Lemma respond_refines e up day online u id accept d (r : R) o d' eff r' W :
  represents d W -> respond e up day online u id accept d r = (o, d', eff, r') ->
  users (score d') = users (score d)
  /\ represents d' (wish (guest_row d) (about_request o id d (fun f => Answered u f accept)) W).
Proof.
  intros Hr. unfold respond. destruct accept; [destruct (refuse_guest _ _ _ _ _ _ _ _) as [[[]|x] r0]|];
    [|by intros [= <- <- _ _]|]; intros [= E _]; by eapply respond_row_refines.
Qed.

Lemma cancel_refines u t d o d' eff W :
  represents d W -> cancel_outgoing u t d = (o, d', eff) ->
  users (score d') = users (score d)
  /\ represents d' (wish (guest_row d) (match o with Ok _ => Cancelled u t | Raise _ => Idle end) W).
Proof.
  intros Hr. unfold cancel_outgoing. destruct (find_first _ _) as [q|] eqn:Hf; [|by intros [= <- <- _]].
  apply find_first_Some in Hf as [Hq Hpq%of_pair_true]. intros [= <- <- _]. split; [done|]. cbn [wish].
  pose proof (rep_requests _ _ Hr) as Hwf. pose proof (row_pending _ _ _ Hr Hq) as Hop.
  injection Hpq as E1 E2. rewrite E1, E2 in Hop. rewrite Hop.
  assert (Hp : forall p, pending_in (without (cq_id q) (contact_requests d)) p <-> p <> (u, t) /\ pending_in (contact_requests d) p).
  { intros p. rewrite (pending_without _ (next_request_id d)) by done. unfold pair_of. by rewrite E1, E2. }
  destruct (pending_state q).
  - apply (move_drop d); [done|by apply without_wf| |done|exact Hp]. by apply open_wish_true in Hop as [_ ?].
  - apply (move_none d); [done|by apply without_wf|done|]. intros p. cbn [set_requests contact_requests]. rewrite Hp.
    split; [naive_solver|]. intros Hin. split; [|done]. intros ->. apply (open_wish_pending _ _ _ _ Hr) in Hin. congruence.
Qed.

Lemma withdraw_refines u id d o d' W :
  represents d W -> withdraw_pending u id d = (o, d') ->
  users (score d') = users (score d) /\ represents d' (wish (guest_row d) (about_request o id d (Withdrew u)) W).
Proof.
  intros Hr. unfold withdraw_pending, about_request. destruct (get_request id d) as [q|] eqn:Hg; [|by intros [= <- <-]].
  apply get_request_Some in Hg as [Hq <-]. destruct (Z.eqb_spec (cq_to q) u) as [<-|Hne]; [|by intros [= <- <-]].
  pose proof (row_pending _ _ _ Hr Hq) as Hop. destruct (pending_state q); [|by intros [= <- <-]].
  intros [= <- <-]. split; [done|]. cbn [wish]. pose proof (rep_requests _ _ Hr) as Hwf.
  apply (move_drop d); [done|by apply without_wf| |done|].
  - by apply open_wish_true in Hop as [_ ?].
  - intros p. cbn [set_requests contact_requests]. by rewrite (pending_without _ (next_request_id d)) by done.
Qed.

Lemma remove_refines u x d o d' eff W :
  represents d W -> remove_contact u x d = (o, d', eff) ->
  users (score d') = users (score d)
  /\ represents d' (wish (guest_row d) (match o with Ok _ => Parted u x | Raise _ => Idle end) W).
Proof.
  intros Hr. unfold remove_contact. destruct (edges d !! (u, x)) as [bl|] eqn:He; intros [= <- <- _]; [|done].
  split; [done|]. apply (move_part d); [done|apply (rep_requests _ _ Hr)| |by rewrite He|done].
  intros a b. unfold set_edges, edges, on_contacts. simpl. rewrite !lookup_delete_is_Some. naive_solver.
Qed.

Lemma block_refines u x body d o d' W :
  represents d W -> block_contact u x body d = (o, d') ->
  users (score d') = users (score d) /\ represents d' W.
Proof.
  intros Hr. unfold block_contact. destruct (edges d !! (u, x)) as [bl|] eqn:He; intros [= <- <-]; [|done].
  split; [done|]. apply (move_none d); [done|apply (rep_requests _ _ Hr)| |done].
  intros a b. unfold set_edges, edges, on_contacts in *. simpl in *.
  destruct (decide ((a, b) = (u, x))) as [->|]; [rewrite lookup_insert_eq, He; naive_solver|by rewrite lookup_insert_ne].
Qed.

Lemma request_sweep_refines now age dry d W :
  represents d W ->
  let d' := (request_sweep now age dry d).2 in users (score d') = users (score d) /\ represents d' W.
Proof.
  intros Hr. unfold request_sweep. destruct dry; [done|]. split; [done|]. pose proof (rep_requests _ _ Hr) as (H1 & H2 & H3).
  cbn [snd]. set (l2 := drop_where _ _).
  assert (Hl2 : forall q, q ∈ l2 <-> exists x, x ∈ contact_requests d /\ q = stamp_declined now x
                 /\ accepted_spent (now - seconds (ACCEPTED_GRACE_MINUTES * 60)) q = false
                 /\ declined_spent (now - days age) q = false).
  { intros q. unfold l2, drop_where. rewrite !list_elem_of_filter, list_elem_of_fmap. naive_solver. }
  assert (Hst : forall q, pair_of (stamp_declined now q) = pair_of q /\ cq_id (stamp_declined now q) = cq_id q
                  /\ cq_state (stamp_declined now q) = cq_state q).
  { intros q. unfold stamp_declined. by case_cond. }
  apply (move_none d); [done| |done|].
  - split; [|split].
    + apply NoDup_map_filter, NoDup_map_filter, NoDup_map_same; [apply Hst|done].
    + apply NoDup_map_filter, NoDup_map_filter, NoDup_map_same; [apply Hst|done].
    + apply Forall_forall. intros q Hq. apply Hl2 in Hq as (x & Hx & -> & _). rewrite (proj1 (proj2 (Hst x))).
      rewrite Forall_forall in H3. by apply H3.
  - intros p. unfold pending_in. cbn [set_requests contact_requests]. split.
    + intros (q & Hq & Hp & Hs). apply Hl2 in Hq as (x & Hx & -> & _). destruct (Hst x) as (S1 & _ & S3).
      exists x. by rewrite <-S1, <-S3.
    + intros (x & Hx & Hp & Hs). exists x. split; [|done]. apply Hl2. exists x.
      unfold stamp_declined, accepted_spent, declined_spent. by rewrite Hs.
Qed.

End ops.

(** ** Runs *)

Section runs.
Context {R : Type} `{RR : Redis R}.
Context (ed25519_verify : bytes -> bytes -> bytes -> bool).

(** One call of a handler, whoever makes it and whoever is online. *)
Inductive cstep : act -> sdb -> sdb -> Prop :=
  | do_send online own now u t d o d' eff :
      send_request ed25519_verify online own now u t d = (o, d', eff) -> cstep (asked o u t) d d'
  | do_respond e up day online u id accept d (r : R) o d' eff r' :
      respond e up day online u id accept d r = (o, d', eff, r') ->
      cstep (about_request o id d (fun f => Answered u f accept)) d d'
  | do_cancel u t d o d' eff :
      cancel_outgoing u t d = (o, d', eff) -> cstep (match o with Ok _ => Cancelled u t | Raise _ => Idle end) d d'
  | do_withdraw u id d o d' :
      withdraw_pending u id d = (o, d') -> cstep (about_request o id d (Withdrew u)) d d'
  | do_remove u x d o d' eff :
      remove_contact u x d = (o, d', eff) -> cstep (match o with Ok _ => Parted u x | Raise _ => Idle end) d d'
  | do_block u x body d o d' : block_contact u x body d = (o, d') -> cstep Idle d d'
  | do_sweep now age dry d : cstep Idle d (request_sweep now age dry d).2.

Inductive ctrace : list act -> sdb -> sdb -> Prop :=
  | ctrace_nil d : ctrace [] d d
  | ctrace_step x acts d d1 d' : cstep x d d1 -> ctrace acts d1 d' -> ctrace (x :: acts) d d'.

Lemma cstep_refines x d d' W :
  cstep x d d' -> represents d W -> users (score d') = users (score d) /\ represents d' (wish (guest_row d) x W).
Proof.
  intros Hs Hr. destruct Hs.
  - by eapply send_refines.
  - by eapply respond_refines.
  - by eapply cancel_refines.
  - by eapply withdraw_refines.
  - by eapply remove_refines.
  - by eapply block_refines.
  - by apply request_sweep_refines.
Qed.

Lemma guest_row_users d d' : users (score d') = users (score d) -> guest_row d' = guest_row d.
Proof. intros E. unfold guest_row, is_guest_row. unfold score in E. by rewrite E. Qed.

Lemma run_refines acts d d' W :
  ctrace acts d d' -> represents d W -> represents d' (foldl (fun W x => wish (guest_row d) x W) W acts).
Proof.
  intros Ht. revert W. induction Ht as [|x acts d d1 d' Hs Ht IH]; intros W Hr; [done|]. cbn [foldl].
  destruct (cstep_refines _ _ _ _ Hs Hr) as [Hu Hr1]. apply IH in Hr1. by rewrite (guest_row_users _ _ Hu) in Hr1.
Qed.

(** C15. Refinement.  Over any run of the operations, the tables stand for the set
    of wishes the specification computes from the acts alone: [a] and [b] are in
    each other's list exactly when both wishes stand, and a request is pending
    exactly when one does. *)
Theorem contacts_refine_wishes acts d d' W :
  ctrace acts d d' -> represents d W -> represents d' (foldl (fun W x => wish (guest_row d) x W) W acts).
Proof. apply run_refines. Qed.

End runs.

Lemma represents_empty d : edges d = ∅ -> contact_requests d = [] -> represents d ∅.
Proof.
  intros He Hq. constructor.
  - intros a b. rewrite He, lookup_empty. split; [by intros []|set_solver].
  - intros a b. rewrite Hq. split; [intros (q & ?%not_elem_of_nil & _); done|set_solver].
  - set_solver.
  - rewrite Hq. repeat constructor.
Qed.

(** ** Consent *)

Definition wanted_by (a b : Z) (acts : list act) : Prop := Asked a b ∈ acts \/ Answered a b true ∈ acts.

Lemma wish_adds guest x W a b :
  (a, b) ∈ wish guest x W -> (a, b) ∈ W \/ x = Asked a b \/ x = Answered a b true.
Proof.
  destruct x as [u t|u f acc|u t|u f|u x|]; simpl; intros H.
  - case_cond; [set_solver|]. apply elem_of_union in H as [H%elem_of_singleton|H]; [|by left]. injection H as -> ->. auto.
  - case_cond; [by left|]. case_cond; [|set_solver].
    apply andb_true_iff in Heqb1 as [-> _]. apply elem_of_union in H as [H%elem_of_singleton|H]; [|by left]. injection H as -> ->. auto.
  - case_cond; set_solver.
  - set_solver.
  - set_solver.
  - by left.
Qed.

Lemma run_wanted guest acts W a b :
  (a, b) ∈ foldl (fun W x => wish guest x W) W acts -> (a, b) ∈ W \/ wanted_by a b acts.
Proof.
  revert W. induction acts as [|x acts IH]; intros W H; [by left|]. apply IH in H as [H|[H|H]].
  - apply wish_adds in H as [H|[-> | ->]]; [by left|right; left; left|right; right; left].
  - right. left. by right.
  - right. right. by right.
Qed.

(** No two wishes of a pair with a guest copy stand together. *)
Definition no_guest_pair (guest : Z -> bool) (W : wishes) : Prop :=
  forall a b, (a, b) ∈ W -> (b, a) ∈ W -> guest a = false /\ guest b = false.

Lemma no_guest_add guest u t W :
  no_guest_pair guest W -> u <> t -> ((t, u) ∈ W -> (u, t) ∉ W -> guest t || guest u = false) ->
  no_guest_pair guest ({[(u, t)]} ∪ W).
Proof.
  intros Hn Hne Ho a b Ha Hb. apply elem_of_union in Ha, Hb.
  assert (Hpair : (t, u) ∈ W -> guest t = false /\ guest u = false).
  { intros Htu. destruct (decide ((u, t) ∈ W)) as [Hut|Hut]; [by apply Hn|]. apply orb_false_iff. by apply Ho. }
  destruct Ha as [[= -> ->]%elem_of_singleton|Ha], Hb as [[= ? ?]%elem_of_singleton|Hb]; [congruence| |subst; tauto|by apply Hn].
  destruct Hpair; done.
Qed.

Lemma wish_no_guest guest x W :
  no_guest_pair guest W -> (forall a, (a, a) ∉ wish guest x W) -> no_guest_pair guest (wish guest x W).
Proof.
  intros Hn. assert (Hsub : forall V : wishes, V ⊆ W -> no_guest_pair guest V).
  { intros V HV a b Ha Hb. apply Hn; by apply HV. }
  destruct x as [u t|u f acc|u t|u f|u x|]; simpl; intros Hirr; repeat case_cond; try (apply Hsub; set_solver).
  - apply no_guest_add; [done| |].
    + intros ->. apply (Hirr t). set_solver.
    + intros H1 H2. assert (E : open_wish t u W = true) by (by apply open_wish_true). by rewrite E in Heqb.
  - apply no_guest_add; [done| |].
    + intros ->. apply (Hirr f). set_solver.
    + intros _ _. apply andb_true_iff in Heqb0 as [_ H]. by apply negb_true_iff in H.
Qed.

Section consent.
Context {R : Type} `{RR : Redis R}.
Context (ed25519_verify : bytes -> bytes -> bytes -> bool).

Lemma run_no_guest acts d d' W :
  ctrace (R := R) ed25519_verify acts d d' -> represents d W -> no_guest_pair (guest_row d) W ->
  no_guest_pair (guest_row d) (foldl (fun W x => wish (guest_row d) x W) W acts).
Proof.
  intros Ht. revert W. induction Ht as [|x acts d d1 d' Hs Ht IH]; intros W Hr Hn; [done|]. cbn [foldl].
  destruct (cstep_refines _ _ _ _ _ Hs Hr) as [Hu Hr1]. rewrite <-(guest_row_users _ _ Hu) in *.
  apply IH; [done|]. apply wish_no_guest; [done|apply (rep_other _ _ Hr1)].
Qed.

(** Two people are contacts only by consent: from tables without contacts and
    requests, whoever is in somebody's list after any run is there because each
    of the two asked the other or accepted the other's request; the rows come in
    pairs, and neither of the two is a guest copy. *)
Theorem contact_needs_both acts d d' a b :
  ctrace (R := R) ed25519_verify acts d d' -> edges d = ∅ -> contact_requests d = [] ->
  is_Some (edges d' !! (a, b)) ->
  wanted_by a b acts /\ wanted_by b a acts /\ is_Some (edges d' !! (b, a))
  /\ guest_row d a = false /\ guest_row d b = false.
Proof.
  intros Ht He Hq Hab. pose proof (represents_empty d He Hq) as Hr0.
  pose proof (run_refines _ _ _ _ _ Ht Hr0) as Hr. pose proof Hab as Hw.
  apply (rep_edges _ _ Hr) in Hw as [Hw1 Hw2].
  assert (Hn : no_guest_pair (guest_row d) (∅ : wishes)) by (intros ? ?; set_solver).
  destruct (run_no_guest _ _ _ _ Ht Hr0 Hn a b Hw1 Hw2) as [G1 G2].
  pose proof (run_wanted _ _ _ _ _ Hw1) as [?|A1]; [set_solver|].
  pose proof (run_wanted _ _ _ _ _ Hw2) as [?|A2]; [set_solver|].
  split; [done|]. split; [done|]. split; [by apply (rep_edges _ _ Hr)|done].
Qed.

End consent.

Lemma find_resolve id st t l q :
  find_first (fun q => cq_id q =? id) l = Some q ->
  find_first (fun q => cq_id q =? id) (resolve id st (Some t) l)
  = Some (mkRequest (cq_id q) (cq_from q) (cq_to q) st (cq_created_at q) (Some t)).
Proof.
  induction l as [|x l IH]; simpl; [done|]. destruct (cq_id x =? id) eqn:E; simpl; rewrite E; [by intros [= <-]|exact IH].
Qed.

(** A second tap on Accept: the answer is the same, nothing changes and nothing
    is sent. *)
Theorem accept_idempotent online now u id d d' eff now' :
  respond_row online now u id true d = (Ok "accepted"%string, d', eff) ->
  respond_row online now' u id true d' = (Ok "accepted"%string, d', []).
Proof.
  unfold respond_row at 1. destruct (get_request id d) as [q|] eqn:Hg; [|done].
  destruct (negb (cq_to q =? u)) eqn:Hu; [done|]. destruct (negb (pending_state q)) eqn:Hp.
  - intros [= Hst <- _]. unfold respond_row. by rewrite Hg, Hu, Hp, Hst.
  - intros [= <- _]. unfold respond_row, get_request. cbn [set_requests contact_requests].
    rewrite (find_resolve id "accepted" now (contact_requests d) q Hg). cbn [cq_to cq_state pending_state]. by rewrite Hu.
Qed.

(** ** Retention *)

Lemma sweep_elem now age d q :
  q ∈ contact_requests (request_sweep now age false d).2 <->
  exists x, x ∈ contact_requests d /\ q = stamp_declined now x
    /\ accepted_spent (now - seconds (ACCEPTED_GRACE_MINUTES * 60)) q = false /\ declined_spent (now - days age) q = false.
Proof.
  unfold request_sweep. cbn [snd set_requests contact_requests]. unfold drop_where.
  rewrite !list_elem_of_filter, list_elem_of_fmap. naive_solver.
Qed.

(** What a sweep leaves of one request: a pending one always; an accepted one
    for an hour after the acceptance (after it was raised, if that was never
    stamped); a declined one for as long as configured after the refusal, and
    one whose refusal has no time gets the present one and stays.  A dry run
    changes nothing. *)
Theorem request_sweep_spec now age d q :
  0 <= age -> q ∈ contact_requests d ->
  let after := contact_requests (request_sweep now age false d).2 in
  (cq_state q = "pending"%string -> q ∈ after)
  /\ (cq_state q = "accepted"%string ->
      (now - hours 1 <= default (cq_created_at q) (cq_resolved_at q) -> q ∈ after)
      /\ (NoDup (map cq_id (contact_requests d)) -> q ∈ after -> now - hours 1 <= default (cq_created_at q) (cq_resolved_at q)))
  /\ (cq_state q = "declined"%string -> forall t, cq_resolved_at q = Some t -> now - days age <= t -> q ∈ after)
  /\ (cq_state q = "declined"%string -> cq_resolved_at q = None ->
      mkRequest (cq_id q) (cq_from q) (cq_to q) "declined" (cq_created_at q) (Some now) ∈ after)
  /\ (request_sweep now age true d).2 = d.
Proof.
  intros Hage Hq after. unfold after. assert (H1 : hours 1 = seconds (ACCEPTED_GRACE_MINUTES * 60)) by reflexivity.
  assert (Hdays : 0 <= days age) by (unfold days, seconds, usec_per_sec; lia).
  split; [|split; [|split; [|split]]]; [| | | |done].
  - intros Hs. apply sweep_elem. exists q. unfold stamp_declined, accepted_spent, declined_spent. by rewrite Hs.
  - intros Hs. split.
    + intros Ht. apply sweep_elem. exists q. unfold stamp_declined, accepted_spent, declined_spent. rewrite Hs. cbn.
      split; [done|]. split; [done|]. split; [|done]. destruct (cq_resolved_at q); cbn in Ht; rewrite H1 in Ht; apply Z.ltb_ge; exact Ht.
    + intros Hn Hin. apply sweep_elem in Hin as (x & Hx & E & Ha & _).
      assert (Hxq : x = q).
      { apply (NoDup_map_inj cq_id (contact_requests d)); try done. rewrite E. unfold stamp_declined. by case_cond. }
      unfold accepted_spent in Ha. rewrite Hs in Ha. cbn in Ha. rewrite H1. destruct (cq_resolved_at q); cbn; by apply Z.ltb_ge in Ha.
  - intros Hs t Ht Hle. apply sweep_elem. exists q. unfold stamp_declined, accepted_spent, declined_spent. rewrite Hs, Ht. cbn.
    split; [done|]. split; [done|]. split; [done|]. apply Z.ltb_ge. exact Hle.
  - intros Hs Hno. apply sweep_elem. exists q. unfold stamp_declined. rewrite Hs, Hno. cbn.
    split; [done|]. split; [done|]. split; [done|]. unfold declined_spent. cbn. apply Z.ltb_ge. lia.
Qed.

(** ** A small island

    Accounts 5, 6 and 7, nobody knows anybody; 5 asks 6, 6 accepts. *)

Definition block_of (n : Z) : User :=
  mkUser 0 0 None [] false (mkProfile ("n" ++ pretty n) None false "online" None None "everyone" "contacts").
Definition street : sdb :=
  mkSdb
    (mkAdb (mkRdb (mkKdb (set_users (fun _ => {[ 5 := block_of 5; 6 := block_of 6; 7 := block_of 7 ]}) empty_db) ∅ [] [] [] 1 1 1) ∅ 1)
       ∅ [] ∅ ∅ ∅ ∅ ∅ ∅)
    ∅ ∅ ∅ [] 1 ∅ [].

Notation no_key := (fun _ _ _ : bytes => false).
Definition met1 : sdb := (send_request no_key (fun _ => true) [] 10 5 6 street).1.2.
Definition met : sdb := (respond_row (fun _ => true) 20 6 1 true met1).1.2.

Definition street_env : uenv := mkUenv 20 [] None false false "scratch".

Lemma meeting : ctrace (R := store) no_key [Asked 5 6; Answered 6 5 true] street met.
Proof.
  eapply (ctrace_step _ (Asked 5 6) _ _ met1).
  { apply (do_send no_key (fun _ => true) [] 10 5 6 street (Ok (1, "pending"%string)) met1 [Frame 6 (contact_request 1 5 "n5")]). reflexivity. }
  eapply (ctrace_step _ (Answered 6 5 true) _ _ met).
  { apply (do_respond no_key street_env false "day" (fun _ => true) 6 1 true met1 (∅ : store) (Ok "accepted"%string) met
             [Frame 5 (contact_response 1 true 6)] (∅ : store)). vm_compute. reflexivity. }
  constructor.
Qed.

Lemma contact_needs_both_witness :
  wanted_by 5 6 [Asked 5 6; Answered 6 5 true] /\ wanted_by 6 5 [Asked 5 6; Answered 6 5 true]
  /\ is_Some (edges met !! (6, 5)) /\ guest_row street 5 = false /\ guest_row street 6 = false.
Proof.
  apply (contact_needs_both (R := store) no_key _ street met 5 6 meeting); [reflexivity|reflexivity|].
  exists false. vm_compute. reflexivity.
Defined.

Lemma contacts_refine_wishes_witness :
  represents met (foldl (fun W x => wish (guest_row street) x W) ∅ [Asked 5 6; Answered 6 5 true]).
Proof.
  apply (contacts_refine_wishes (R := store) no_key _ street met ∅ meeting).
  apply represents_empty; reflexivity.
Defined.

Lemma accept_idempotent_witness :
  respond_row (fun _ => true) 30 6 1 true met = (Ok "accepted"%string, met, []).
Proof.
  apply (accept_idempotent (fun _ => true) 20 6 1 met1 met [Frame 5 (contact_response 1 true 6)] 30). vm_compute. reflexivity.
Defined.

Definition old_refusal : ContactRequest := mkRequest 1 5 6 "declined" 0 None.

Lemma request_sweep_spec_witness :
  mkRequest 1 5 6 "declined" 0 (Some (days 400)) ∈ contact_requests (request_sweep (days 400) 180 false (set_requests [old_refusal] street)).2.
Proof.
  apply (request_sweep_spec (days 400) 180 (set_requests [old_refusal] street) old_refusal); [lia|by left|reflexivity|reflexivity].
Defined.

(** Somebody who was blocked lifts the block: removing the contact deletes the
    other side's row with the flag on it, and the next request goes out. *)
Theorem blocked_lifts_block :
  let blocked := (block_contact 6 5 (Some (JvObj [("blocked"%string, JvBool true)])) met).2 in
  let removed := (remove_contact 5 6 blocked).1.2 in
  edges blocked !! (6, 5) = Some true
  /\ edges removed !! (6, 5) = None
  /\ (send_request no_key (fun _ => true) [] 99 5 6 removed).1.1 = Ok (1, "pending"%string)
  /\ (send_request no_key (fun _ => true) [] 99 5 6 removed).2 = [Frame 6 (contact_request 1 5 "n5")].
Proof. vm_compute. split_and!; reflexivity. Qed.
