(* ===== verification/Sockets.v ===== *)
(** * The sockets a worker holds

    Models [src/app/services/connection_manager.py] on one worker: the sockets
    it has accepted ([_conns], [_device_of], [_opened_at]), the eviction of a
    device's earlier sockets and of the oldest above the ceiling, what the
    subscriber does with each envelope of the fan-out channel, and what every
    public operation of the manager publishes, delivers and answers.

    A socket is a number: its identity.  A channel envelope is a value; that
    every worker reads what is published, in the order of the channel, is what
    Redis documents of pub/sub.  Where an operation issues several Redis
    commands the model takes the number of them that went through before one
    failed. *)

From stdpp Require Import base list sorting gmap strings pretty.
From Stdlib Require Import ZArith Lia.
From S2P Require Import Prelude Text Storage Redis GuestPolicy Sessions Bytes Voucher Json.

Definition ONLINE_KEY : string := "ws:online_uins".
Definition ONLINE_DEVS_PREFIX : string := "wsdev".
Definition ONLINE_DEVS_TTL : Z := 180.

(** One worker process. *)
Record worker := mkWorker {
  pid : Z;
  conns : gmap Z (gset Z);
  device_of : gmap Z string;
  opened_at : gmap Z Z
}.

Definition new_worker (p : Z) : worker := mkWorker p ∅ ∅ ∅.

(** What happens to a socket. *)
Inductive socket_effect := Sent (ws : Z) (text : string) | Close (ws : Z) (code : Z) (reason : string).

(** An envelope of [ws:fanout]. *)
Inductive envelope :=
  | ToAll (text : string)
  | ToUser (uin : Z) (text : string) (except_device : option string)
  | Supersede (uin : Z) (device_id : string) (origin : option Z)
  | KickUin (uin : Z)
  | Heartbeat (origin : Z).

(** ** The local maps *)

(** [self._conns.get(uin, ())] and [self._device_of.get(ws, "primary")] *)
Definition sockets_of (w : worker) (uin : Z) : gset Z := default ∅ (conns w !! uin).
Definition dev_of (w : worker) (ws : Z) : string := default "primary"%string (device_of w !! ws).

Definition of_device (w : worker) (uin : Z) (dev : string) : gset Z :=
  filter (fun ws => dev_of w ws = dev) (sockets_of w uin).

(** [self._device_of.pop(ws, None); self._opened_at.pop(ws, None)] *)
Definition forget (gone : gset Z) (w : worker) : worker :=
  mkWorker (pid w) (conns w) (filter (fun kv => kv.1 ∉ gone) (device_of w))
    (filter (fun kv => kv.1 ∉ gone) (opened_at w)).

(** What is left of the account's set; an empty set is dropped. *)
Definition set_held (uin : Z) (s : gset Z) (w : worker) : worker :=
  mkWorker (pid w) (if decide (s = ∅) then delete uin (conns w) else <[uin := s]> (conns w))
    (device_of w) (opened_at w).

Definition superseded_close (ws : Z) : socket_effect := Close ws 4000 "superseded".

Definition close_local_sockets_for_device (uin : Z) (dev : string) (w : worker) : list socket_effect * worker :=
  if decide (sockets_of w uin = ∅) then ([], w)
  else
    let old := of_device w uin dev in
    (map superseded_close (elements old), forget old (set_held uin (sockets_of w uin ∖ old) w)).

Definition close_local_sockets_for_uin (uin : Z) (w : worker) : list socket_effect * worker :=
  let old := sockets_of w uin in
  (map (fun ws => Close ws 1012 "identity_reissued") (elements old), forget old (set_held uin ∅ w)).

(** ** Delivery *)

Definition fan_local (sockets : list Z) (text : string) : list socket_effect := map (fun ws => Sent ws text) sockets.

Definition deliver_user_local (w : worker) (uin : Z) (text : string) (except_device : option string) : list socket_effect :=
  fan_local (elements (match except_device with
                       | None => sockets_of w uin
                       | Some d => filter (fun ws => dev_of w ws <> d) (sockets_of w uin)
                       end)) text.

Definition deliver_all_local (w : worker) (text : string) : list socket_effect :=
  fan_local (concat (map (fun kv => elements kv.2) (map_to_list (conns w)))) text.

(** One envelope read off the channel by [_pubsub_loop]. *)
Definition dispatch (e : envelope) (w : worker) : list socket_effect * worker :=
  match e with
  | ToAll text => (deliver_all_local w text, w)
  | ToUser uin text ex => (deliver_user_local w uin text ex, w)
  | Supersede uin dev origin =>
      if bool_decide (origin = Some (pid w)) then ([], w) else close_local_sockets_for_device uin dev w
  | KickUin uin => close_local_sockets_for_uin uin w
  | Heartbeat _ => ([], w)
  end.

(** ** Accepting and losing a socket: the part under the lock *)

(** The sockets above the ceiling, oldest first. *)
Definition surplus (cap : Z) (w : worker) (existing : gset Z) (ws : Z) : list Z :=
  if cap <? Z.of_nat (size existing)
  then take (Z.to_nat (Z.of_nat (size existing) - cap))
         (sort_by (fun s => default 0 (opened_at w !! s)) (elements (existing ∖ {[ ws ]})))
  else [].

Definition connect_local (cap mono uin ws : Z) (dev : string) (w : worker) : list socket_effect * worker :=
  let same := of_device w uin dev in
  let existing := (sockets_of w uin ∖ same) ∪ {[ ws ]} in
  let w1 := forget same w in
  let extra := surplus cap w1 existing ws in
  let w2 := forget (list_to_set extra) w1 in
  (map superseded_close (elements same ++ extra),
   mkWorker (pid w) (<[uin := existing ∖ list_to_set extra]> (conns w))
     (<[ws := dev]> (device_of w2)) (<[ws := mono]> (opened_at w2))).

(** What [disconnect] finds under the lock. *)
Record departure := mkDeparture {
  gone_device : option string;
  device_still_local : bool;
  still_local : bool
}.

Definition disconnect_local (uin ws : Z) (w : worker) : departure * worker :=
  let gone := device_of w !! ws in
  let w1 := mkWorker (pid w) (conns w) (delete ws (device_of w)) (delete ws (opened_at w)) in
  let still_dev :=
    match gone with
    | None => false
    | Some d => existsb (fun other => negb (other =? ws) && bool_decide (device_of w1 !! other = Some d))
                  (elements (sockets_of w uin))
    end in
  let w2 := if decide (sockets_of w uin = ∅) then w1 else set_held uin (sockets_of w uin ∖ {[ ws ]}) w1 in
  (mkDeparture gone still_dev (bool_decide (is_Some (conns w2 !! uin))), w2).

(** ** The public operations *)

Section manager.
Context {R : Type} `{RR : Redis R} (bucket : string -> string).

Definition online_devs_key (uin : Z) : string := account_key bucket ONLINE_DEVS_PREFIX uin.

(** The first [ok] commands of a sequence go through. *)
Definition commands (ok : nat) (l : list (R -> R)) (r : R) : R := foldl (fun r c => c r) r (take ok l).

(** What an operation publishes, does on this worker, and leaves behind. *)
Record result (A : Type) := mkResult {
  answer : A;
  published : list envelope;
  effects : list socket_effect;
  after : worker;
  redis_after : R
}.
Arguments mkResult {A} _ _ _ _ _.

(** The four commands of [connect]: SADD, EXPIRE, SADD, PUBLISH. *)
Definition connect (ok : nat) (cap now mono uin ws : Z) (dev : string) (w : worker) (r : R) : result unit :=
  let '(fx, w') := connect_local cap mono uin ws dev w in
  let r' := commands ok
              [sadd now (online_devs_key uin) [dev]; expire now (online_devs_key uin) ONLINE_DEVS_TTL;
               sadd now ONLINE_KEY [str_uin uin]] r in
  mkResult tt (if (3 <? ok)%nat then [Supersede uin dev (Some (pid w))] else []) fx w' r'.

(** [up_dev], [up_acc]: the two blocks of Redis commands. *)
Definition disconnect (up_dev up_acc : bool) (now uin ws : Z) (w : worker) (r : R) : result unit :=
  let '(g, w') := disconnect_local uin ws w in
  let r1 := match truthy_str (gone_device g) with
            | Some d => if negb (device_still_local g) && up_dev then srem now (online_devs_key uin) d r else r
            | None => r end in
  let r2 := if still_local g then r1
            else if up_acc && negb (key_exists now (online_devs_key uin) r1)
            then srem now ONLINE_KEY (str_uin uin) r1 else r1 in
  mkResult tt [] [] w' r2.

Definition kick_device (ok : nat) (now uin : Z) (dev : string) (w : worker) (r : R) : result unit :=
  let '(fx, w') := close_local_sockets_for_device uin dev w in
  mkResult tt (if (1 <? ok)%nat then [Supersede uin dev None] else []) fx w'
    (commands ok [srem now (online_devs_key uin) dev] r).

Definition kick_uin (ok : nat) (now uin : Z) (w : worker) (r : R) : result unit :=
  let r' := commands ok [del now (online_devs_key uin)] r in
  if (1 <? ok)%nat then mkResult tt [KickUin uin] [] w r'
  else let '(fx, w') := close_local_sockets_for_uin uin w in mkResult tt [] fx w' r'.

(** Also refreshes the key it reads. *)
Definition online_devices (up : bool) (now uin : Z) (w : worker) (r : R) : result (gset string) :=
  if up then
    let raw := smembers now (online_devs_key uin) r in
    mkResult (list_to_set raw) [] [] w
      (match raw with [] => r | _ => expire now (online_devs_key uin) ONLINE_DEVS_TTL r end)
  else mkResult (set_map (dev_of w) (sockets_of w uin)) [] [] w r.

(** Whether the account had to be put back. *)
Definition touch_device (up : bool) (now uin : Z) (dev : string) (r : R) : bool * R :=
  if up then
    let r := sadd now (online_devs_key uin) [dev] r in
    let r := expire now (online_devs_key uin) ONLINE_DEVS_TTL r in
    (negb (sismember now ONLINE_KEY (str_uin uin) r), sadd now ONLINE_KEY [str_uin uin] r)
  else (false, r).

Definition connected_here (w : worker) (uin : Z) : bool := bool_decide (is_Some (conns w !! uin)).

Definition is_online (up : bool) (now uin : Z) (w : worker) (r : R) : bool :=
  if up then sismember now ONLINE_KEY (str_uin uin) r else connected_here w uin.

Definition online_subset (up : bool) (now : Z) (uins : gset Z) (w : worker) (r : R) : gset Z :=
  if decide (uins = ∅) then ∅
  else if up then
    let online : gset Z := list_to_set (omap int_of_string (smembers now ONLINE_KEY r)) in uins ∩ online
  else filter (fun u => is_Some (conns w !! u)) uins.

(** [ok]: PUBLISH, SISMEMBER. *)
Definition send (ok : nat) (now uin : Z) (payload : jv) (ex : option string) (w : worker) (r : R) : result bool :=
  let text := dump_plain payload in
  let pub := if (0 <? ok)%nat then [ToUser uin text ex] else [] in
  if (1 <? ok)%nat then mkResult (sismember now ONLINE_KEY (str_uin uin) r) pub [] w r
  else mkResult (connected_here w uin) pub (deliver_user_local w uin text ex) w r.

Definition broadcast (ok : nat) (uins : list Z) (payload : jv) (w : worker) (r : R) : result unit :=
  let text := dump_plain payload in
  let pub := map (fun u => ToUser u text None) (take ok uins) in
  if (length uins <=? ok)%nat then mkResult tt pub [] w r
  else mkResult tt pub (concat (map (fun u => deliver_user_local w u text None) uins)) w r.

(** The members of the online set, as texts. *)
Definition in_raw (raw : list string) (u : Z) : bool := bool_decide (str_uin u ∈ raw).

(** [up]: SMEMBERS; [ok]: the commands of the pipeline. *)
Definition fanout (up : bool) (ok : nat) (now : Z) (uins : list Z) (payload : jv) (w : worker) (r : R)
    : result (gset Z) :=
  let text := dump_plain payload in
  let targets := filter (fun u => in_raw (smembers now ONLINE_KEY r) u = true) uins in
  if up && (length targets <=? ok)%nat
  then mkResult (list_to_set targets) (map (fun u => ToUser u text None) targets) [] w r
  else mkResult (list_to_set (filter (fun u => connected_here w u = true) uins))
         (if up then map (fun u => ToUser u text None) (take ok targets) else [])
         (concat (map (fun u => deliver_user_local w u text None) uins)) w r.

Definition fanout_each (up : bool) (ok : nat) (now : Z) (items : list (Z * jv)) (w : worker) (r : R)
    : result (gset Z) :=
  let targets := filter (fun it => in_raw (smembers now ONLINE_KEY r) it.1 = true) items in
  let pub l := map (fun it => ToUser it.1 (dump_plain it.2) None) l in
  if up && (length targets <=? ok)%nat
  then mkResult (list_to_set targets.*1) (pub targets) [] w r
  else
    let here := filter (fun it => connected_here w it.1 = true) items in
    mkResult (list_to_set here.*1) (if up then pub (take ok targets) else [])
      (concat (map (fun it => deliver_user_local w it.1 (dump_plain it.2) None) here)) w r.

Definition broadcast_all (up : bool) (payload : jv) (w : worker) (r : R) : result unit :=
  let text := dump_plain payload in
  if up then mkResult tt [ToAll text] [] w r else mkResult tt [] (deliver_all_local w text) w r.
End manager.
Arguments mkResult {R A} _ _ _ _ _.
Arguments answer {R A} _.
Arguments published {R A} _.
Arguments effects {R A} _.
Arguments after {R A} _.
Arguments redis_after {R A} _.

(** ** A worker over time

    What a worker does to its sockets: it accepts one, loses one, reads an
    envelope, or closes sockets itself ([kick_device], and [kick_uin] when the
    publish failed). *)

Inductive event :=
  | Accept (mono uin ws : Z) (dev : string)
  | Drop (uin ws : Z)
  | Read (e : envelope)
  | CloseDevice (uin : Z) (dev : string)
  | CloseUin (uin : Z).

Definition react (cap : Z) (ev : event) (w : worker) : list socket_effect * worker :=
  match ev with
  | Accept mono uin ws dev => connect_local cap mono uin ws dev w
  | Drop uin ws => ([], (disconnect_local uin ws w).2)
  | Read e => dispatch e w
  | CloseDevice uin dev => close_local_sockets_for_device uin dev w
  | CloseUin uin => close_local_sockets_for_uin uin w
  end.

Fixpoint react_all (cap : Z) (evs : list event) (w : worker) : list socket_effect * worker :=
  match evs with
  | [] => ([], w)
  | ev :: evs =>
      let '(fx, w) := react cap ev w in
      let '(fx', w) := react_all cap evs w in (fx ++ fx', w)
  end.

(** A socket is accepted once, and the endpoint that accepted it drops it under
    the same number; [born] are the sockets seen so far. *)
Fixpoint proper (born : gmap Z Z) (evs : list event) : Prop :=
  match evs with
  | [] => True
  | Accept _ uin ws _ :: evs => born !! ws = None /\ proper (<[ws := uin]> born) evs
  | Drop uin ws :: evs => born !! ws = Some uin /\ proper born evs
  | _ :: evs => proper born evs
  end.

Definition births (born : gmap Z Z) (ev : event) : gmap Z Z :=
  match ev with Accept _ uin ws _ => <[ws := uin]> born | _ => born end.

(** Every socket is filed under one account with its device and its time; a
    device has one socket here; an account has no more than the ceiling. *)
Record worker_wf (cap : Z) (w : worker) : Prop := {
  wf_nonempty u s : conns w !! u = Some s -> s <> ∅;
  wf_device ws : is_Some (device_of w !! ws) <-> exists u, ws ∈ sockets_of w u;
  wf_opened ws : is_Some (opened_at w !! ws) <-> exists u, ws ∈ sockets_of w u;
  wf_owner u v ws : ws ∈ sockets_of w u -> ws ∈ sockets_of w v -> u = v;
  wf_per_device u ws ws' : ws ∈ sockets_of w u -> ws' ∈ sockets_of w u -> dev_of w ws = dev_of w ws' -> ws = ws';
  wf_cap u : Z.of_nat (size (sockets_of w u)) <= Z.max cap 1
}.

(** The sockets of [gone] closed so far are not sockets_of again. *)
Record inv (cap : Z) (born : gmap Z Z) (gone : gset Z) (w : worker) : Prop := {
  inv_wf : worker_wf cap w;
  inv_born u ws : ws ∈ sockets_of w u -> born !! ws = Some u;
  inv_gone ws : ws ∈ gone -> is_Some (born !! ws) /\ forall u, ws ∉ sockets_of w u
}.

(** [w'] is [w] without the sockets [g] of [u]. *)
Record removed (u : Z) (g : gset Z) (w w' : worker) : Prop := {
  rm_held v : sockets_of w' v = if decide (v = u) then sockets_of w u ∖ g else sockets_of w v;
  rm_device s : device_of w' !! s = if decide (s ∈ g) then None else device_of w !! s;
  rm_opened s : opened_at w' !! s = if decide (s ∈ g) then None else opened_at w !! s;
  rm_nonempty v s : conns w' !! v = Some s -> s <> ∅
}.

Lemma held_set_held u s w v : sockets_of (set_held u s w) v = if decide (v = u) then s else sockets_of w v.
Proof.
  unfold sockets_of, set_held. simpl. destruct (decide (v = u)) as [->|Hne].
  - destruct (decide (s = ∅)) as [->|]; [by rewrite lookup_delete_eq|by rewrite lookup_insert_eq].
  - destruct (decide (s = ∅)); [by rewrite lookup_delete_ne|by rewrite lookup_insert_ne].
Qed.

Lemma lookup_forget {A} (g : gset Z) (m : gmap Z A) s :
  filter (fun kv : Z * A => kv.1 ∉ g) m !! s = if decide (s ∈ g) then None else m !! s.
Proof.
  destruct (decide (s ∈ g)) as [Hin|Hni].
  - apply map_lookup_filter_None. right. intros x _ Hx. done.
  - destruct (m !! s) as [x|] eqn:E.
    + by apply map_lookup_filter_Some.
    + apply map_lookup_filter_None. by left.
Qed.

Lemma set_held_nonempty u s w :
  (forall v t, conns w !! v = Some t -> t <> ∅) ->
  forall v t, conns (set_held u s w) !! v = Some t -> t <> ∅.
Proof.
  intros Hn v t. unfold set_held. simpl. destruct (decide (s = ∅)).
  - rewrite lookup_delete_Some. intros [_ H]. by apply (Hn v).
  - rewrite lookup_insert_Some. intros [[_ <-]|[_ H]]; [done|by apply (Hn v)].
Qed.

Lemma removed_forget u g w :
  (forall v t, conns w !! v = Some t -> t <> ∅) ->
  removed u g w (forget g (set_held u (sockets_of w u ∖ g) w)).
Proof.
  intros Hn. split; simpl; try (intros s; apply lookup_forget).
  - intros v. apply (held_set_held u (sockets_of w u ∖ g) w v).
  - apply (set_held_nonempty u _ w Hn).
Qed.

Lemma removed_disconnect u ws w :
  (forall v t, conns w !! v = Some t -> t <> ∅) ->
  removed u {[ ws ]} w (disconnect_local u ws w).2.
Proof.
  intros Hn. unfold disconnect_local. simpl.
  set (w1 := mkWorker _ _ (delete ws (device_of w)) (delete ws (opened_at w))).
  assert (Hl : forall A (m : gmap Z A) s, delete ws m !! s = if decide (s ∈ ({[ ws ]} : gset Z)) then None else m !! s).
  { intros A m s. case_decide as H; [apply elem_of_singleton in H as ->; by rewrite lookup_delete_eq|].
    rewrite lookup_delete_ne; [done|]. set_solver. }
  destruct (decide (sockets_of w u = ∅)) as [E|E].
  - split; simpl; try (intros; apply Hl); [|done].
    intros v. change (sockets_of w1 v) with (sockets_of w v). case_decide as Hv; [subst v; rewrite E; set_solver|done].
  - split; try (intros; apply Hl).
    + intros v. rewrite held_set_held. done.
    + apply (set_held_nonempty u _ w1 Hn).
Qed.

Lemma rm_sub {u g w w'} (H : removed u g w w') v ws : ws ∈ sockets_of w' v -> ws ∈ sockets_of w v.
Proof. rewrite (rm_held _ _ _ _ H). case_decide; [subst|done]. set_solver. Qed.

Lemma rm_dev_of {u g w w'} (H : removed u g w w') ws : ws ∉ g -> dev_of w' ws = dev_of w ws.
Proof. intros Hn. unfold dev_of. rewrite (rm_device _ _ _ _ H). by rewrite decide_False. Qed.

(** Removing sockets of one account keeps everything. *)
Lemma removed_wf cap u (g : gset Z) w w' :
  worker_wf cap w -> (forall ws v, ws ∈ g -> ws ∈ sockets_of w v -> v = u) -> removed u g w w' -> worker_wf cap w'.
Proof.
  intros Hw Hown Hr.
  assert (Hheld : forall ws, (exists v, ws ∈ sockets_of w' v) <-> ws ∉ g /\ exists v, ws ∈ sockets_of w v).
  { intros ws. split.
    - intros [v Hv]. pose proof (rm_sub Hr v ws Hv) as Hin. split; [|by exists v].
      intros Hg. pose proof (Hown ws v Hg Hin) as ->. rewrite (rm_held _ _ _ _ Hr), decide_True in Hv by done. set_solver.
    - intros [Hg [v Hv]]. exists v. rewrite (rm_held _ _ _ _ Hr). case_decide; [subst; set_solver|done]. }
  split.
  - apply (rm_nonempty _ _ _ _ Hr).
  - intros ws. rewrite Hheld, (rm_device _ _ _ _ Hr), <-(wf_device _ _ Hw). case_decide; [|naive_solver].
    split; [by intros [? ?]|naive_solver].
  - intros ws. rewrite Hheld, (rm_opened _ _ _ _ Hr), <-(wf_opened _ _ Hw). case_decide; [|naive_solver].
    split; [by intros [? ?]|naive_solver].
  - intros v v' ws H1 H2. apply (wf_owner _ _ Hw v v' ws); by apply (rm_sub Hr).
  - intros v ws ws' H1 H2 He.
    assert (Hn : forall s, s ∈ sockets_of w' v -> s ∉ g). { intros s Hs. apply (Hheld s). by exists v. }
    apply (wf_per_device _ _ Hw v ws ws'); [by apply (rm_sub Hr)..|].
    by rewrite <-(rm_dev_of Hr ws), <-(rm_dev_of Hr ws') by auto.
  - intros v. etrans; [|apply (wf_cap _ _ Hw v)]. apply inj_le, subseteq_size. intros ws. apply (rm_sub Hr).
Qed.

Lemma removed_inv cap born gone u (g : gset Z) w w' :
  inv cap born gone w -> (forall ws v, ws ∈ g -> ws ∈ sockets_of w v -> v = u) -> removed u g w w' ->
  inv cap born gone w'.
Proof.
  intros [Hw Hb Hg] Hown Hr. split; [by eapply removed_wf| |].
  - intros v ws Hin. apply Hb. by apply (rm_sub Hr).
  - intros ws Hin. destruct (Hg ws Hin) as [Hs Hn]. split; [done|]. intros v Hv. apply (Hn v), (rm_sub Hr), Hv.
Qed.

(** Sockets that were sockets_of and are gone may be counted as closed. *)
Lemma inv_closed cap born gone u (g : gset Z) w w' :
  inv cap born gone w -> g ⊆ sockets_of w u -> removed u g w w' -> inv cap born (gone ∪ g) w'.
Proof.
  intros Hi Hsub Hr.
  assert (Hown : forall ws v, ws ∈ g -> ws ∈ sockets_of w v -> v = u).
  { intros ws v Hg Hv. apply (wf_owner _ _ (inv_wf _ _ _ _ Hi) v u ws Hv). by apply Hsub. }
  destruct (removed_inv _ _ _ _ _ _ _ Hi Hown Hr) as [Hw Hb Hg]. split; [done..|].
  intros ws [Hin|Hin]%elem_of_union; [by apply Hg|]. split.
  - rewrite (inv_born _ _ _ _ Hi u ws); [by eexists|by apply Hsub].
  - intros v Hv. pose proof (Hown ws v Hin (rm_sub Hr _ _ Hv)) as ->.
    rewrite (rm_held _ _ _ _ Hr), decide_True in Hv by done. set_solver.
Qed.

(** [w'] is [w] with one socket more. *)
Record added (u ws : Z) (dev : string) (mono : Z) (w w' : worker) : Prop := {
  ad_held v : sockets_of w' v = if decide (v = u) then sockets_of w u ∪ {[ ws ]} else sockets_of w v;
  ad_device s : device_of w' !! s = if decide (s = ws) then Some dev else device_of w !! s;
  ad_opened s : opened_at w' !! s = if decide (s = ws) then Some mono else opened_at w !! s;
  ad_nonempty v s : conns w' !! v = Some s -> s <> ∅
}.

Lemma ad_elem {u ws dev mono w w'} (H : added u ws dev mono w w') v s :
  s ∈ sockets_of w' v <-> (s ∈ sockets_of w v \/ (v = u /\ s = ws)).
Proof. rewrite (ad_held _ _ _ _ _ _ H). case_decide; [subst; set_solver|naive_solver]. Qed.

Lemma ad_dev_of {u ws dev mono w w'} (H : added u ws dev mono w w') s :
  dev_of w' s = if decide (s = ws) then dev else dev_of w s.
Proof. unfold dev_of. rewrite (ad_device _ _ _ _ _ _ H). by case_decide. Qed.

Lemma added_wf cap u ws dev mono w w' :
  worker_wf cap w -> (forall v, ws ∉ sockets_of w v) ->
  (forall s, s ∈ sockets_of w u -> dev_of w s <> dev) -> Z.of_nat (size (sockets_of w' u)) <= Z.max cap 1 ->
  added u ws dev mono w w' -> worker_wf cap w'.
Proof.
  intros Hw Hf Hd Hc Ha.
  assert (Hex : forall s, (exists v, s ∈ sockets_of w' v) <-> s = ws \/ exists v, s ∈ sockets_of w v).
  { intros s. setoid_rewrite (ad_elem Ha). naive_solver. }
  split.
  - apply (ad_nonempty _ _ _ _ _ _ Ha).
  - intros s. rewrite Hex, (ad_device _ _ _ _ _ _ Ha), <-(wf_device _ _ Hw). case_decide; naive_solver.
  - intros s. rewrite Hex, (ad_opened _ _ _ _ _ _ Ha), <-(wf_opened _ _ Hw). case_decide; naive_solver.
  - intros v v' s. rewrite !(ad_elem Ha). intros [H1|[-> ->]] [H2|[-> H2]]; try subst s; try done.
    + by apply (wf_owner _ _ Hw v v' s).
    + by destruct (Hf v).
    + by destruct (Hf v').
  - intros v s s'. rewrite !(ad_elem Ha), !(ad_dev_of Ha). intros H1 H2 He.
    destruct (decide (s = ws)) as [->|Hs], (decide (s' = ws)) as [->|Hs']; [done| | |].
    + destruct H1 as [H1|[-> _]]; [by destruct (Hf v)|]. destruct H2 as [H2|[_ H2]]; [|done].
      exfalso. by apply (Hd s' H2).
    + destruct H2 as [H2|[-> _]]; [by destruct (Hf v)|]. destruct H1 as [H1|[_ H1]]; [|done].
      exfalso. by apply (Hd s H1).
    + apply (wf_per_device _ _ Hw v); naive_solver.
  - intros v. destruct (decide (v = u)) as [->|Hne]; [done|].
    rewrite (ad_held _ _ _ _ _ _ Ha), decide_False by done. apply (wf_cap _ _ Hw).
Qed.

(** Accepting is removing the device's sockets and the surplus, then adding. *)
Definition evicted (cap : Z) (w : worker) (uin ws : Z) (dev : string) : gset Z :=
  let same := of_device w uin dev in
  same ∪ list_to_set (surplus cap (forget same w) ((sockets_of w uin ∖ same) ∪ {[ ws ]}) ws).
Definition cleared (cap : Z) (w : worker) (uin ws : Z) (dev : string) : worker :=
  forget (evicted cap w uin ws dev) (set_held uin (sockets_of w uin ∖ evicted cap w uin ws dev) w).

Lemma elem_of_surplus cap w ex ws s : s ∈ surplus cap w ex ws -> s ∈ ex /\ s <> ws.
Proof.
  unfold surplus. case_cond; [|by intros ?%not_elem_of_nil].
  intros (i & Hi & _)%elem_of_take. apply list_elem_of_lookup_2 in Hi.
  rewrite elem_of_sort_by in Hi. set_solver.
Qed.

Lemma evicted_sub cap w u ws dev : evicted cap w u ws dev ⊆ sockets_of w u.
Proof.
  unfold evicted. intros s [H|H]%elem_of_union; [unfold of_device in H; set_solver|].
  apply elem_of_list_to_set, elem_of_surplus in H. set_solver.
Qed.

Lemma connect_added cap mono u ws dev w :
  (forall v t, conns w !! v = Some t -> t <> ∅) -> (forall v, ws ∉ sockets_of w v) ->
  added u ws dev mono (cleared cap w u ws dev) (connect_local cap mono u ws dev w).2.
Proof.
  intros Hn Hf. set (S := evicted cap w u ws dev).
  assert (Hr : removed u S w (cleared cap w u ws dev)) by (by apply removed_forget).
  assert (Hws : ws ∉ S) by (intros H; apply (Hf u); by apply (evicted_sub cap w u ws dev)).
  assert (HE : (sockets_of w u ∖ of_device w u dev ∪ {[ws]})
               ∖ list_to_set (surplus cap (forget (of_device w u dev) w) (sockets_of w u ∖ of_device w u dev ∪ {[ws]}) ws)
               = sockets_of w u ∖ S ∪ {[ws]}).
  { unfold S, evicted in *. set_solver. }
  assert (Hdel : forall A (m : gmap Z A) s,
    filter (fun kv : Z * A => kv.1 ∉ (list_to_set (surplus cap (forget (of_device w u dev) w)
        (sockets_of w u ∖ of_device w u dev ∪ {[ws]}) ws) : gset Z))
      (filter (fun kv : Z * A => kv.1 ∉ of_device w u dev) m) !! s = if decide (s ∈ S) then None else m !! s).
  { intros A m s. rewrite !lookup_forget. unfold S, evicted.
    repeat case_decide; set_solver. }
  unfold connect_local. simpl. rewrite HE. split.
  - intros v. rewrite !(rm_held _ _ _ _ Hr), (decide_True (P := u = u)) by done. unfold sockets_of at 1. simpl.
    case_decide; [subst v; by rewrite lookup_insert_eq|]. by rewrite lookup_insert_ne.
  - intros s. simpl. case_decide; [subst s; by rewrite lookup_insert_eq|].
    rewrite lookup_insert_ne by done. rewrite (rm_device _ _ _ _ Hr). apply Hdel.
  - intros s. simpl. case_decide; [subst s; by rewrite lookup_insert_eq|].
    rewrite lookup_insert_ne by done. rewrite (rm_opened _ _ _ _ Hr). apply Hdel.
  - intros v t. simpl. rewrite lookup_insert_Some. intros [[_ <-]|[_ H]]; [set_solver|by apply (Hn v)].
Qed.

Lemma connect_size cap mono u ws dev w :
  Z.of_nat (size (sockets_of (connect_local cap mono u ws dev w).2 u)) <= Z.max cap 1.
Proof.
  unfold connect_local. simpl. unfold sockets_of at 1. simpl. rewrite lookup_insert_eq. simpl.
  set (ex := sockets_of w u ∖ of_device w u dev ∪ {[ws]}). set (w1 := forget _ w).
  unfold surplus. destruct (cap <? Z.of_nat (size ex)) eqn:E; breflect.
  - set (l := sort_by _ _). assert (Hnd : NoDup l) by (unfold l; rewrite sort_by_perm; apply NoDup_elements).
    assert (Hlen : length l = (size ex - 1)%nat).
    { unfold l. rewrite length_sort_by. transitivity (size (ex ∖ {[ws]})); [done|].
      rewrite size_difference by (unfold ex; set_solver). by rewrite size_singleton. }
    assert (H1 : (1 <= size ex)%nat).
    { rewrite <-(size_singleton (C := gset Z) ws). apply subseteq_size. unfold ex. set_solver. }
    rewrite size_difference.
    + rewrite size_list_to_set by (by eapply sublist_NoDup, sublist_take). rewrite length_take. lia.
    + intros s Hs%elem_of_list_to_set%elem_of_take. destruct Hs as (i & Hi & _). apply list_elem_of_lookup_2 in Hi.
      unfold l in Hi. rewrite elem_of_sort_by in Hi. set_solver.
  - rewrite list_to_set_nil, difference_empty_L. lia.
Qed.

Lemma cleared_removed cap w u ws dev :
  (forall v t, conns w !! v = Some t -> t <> ∅) ->
  removed u (evicted cap w u ws dev) w (cleared cap w u ws dev).
Proof. apply removed_forget. Qed.

(** What remains after the eviction belongs to other devices. *)
Lemma cleared_other_devices cap w u ws dev s :
  (forall v t, conns w !! v = Some t -> t <> ∅) ->
  s ∈ sockets_of (cleared cap w u ws dev) u -> dev_of (cleared cap w u ws dev) s <> dev.
Proof.
  intros Hn Hs. pose proof (cleared_removed cap w u ws dev Hn) as Hr.
  rewrite (rm_held _ _ _ _ Hr), decide_True in Hs by done. apply elem_of_difference in Hs as [Hs Hg].
  rewrite (rm_dev_of Hr) by done. intros He. apply Hg. unfold evicted, of_device.
  apply elem_of_union_l, elem_of_filter. done.
Qed.

Lemma connect_inv cap born gone mono u ws dev w :
  inv cap born gone w -> born !! ws = None ->
  inv cap (<[ws := u]> born) (gone ∪ evicted cap w u ws dev) (connect_local cap mono u ws dev w).2.
Proof.
  intros Hi Hb. pose proof (wf_nonempty _ _ (inv_wf _ _ _ _ Hi)) as Hn.
  assert (Hf : forall v, ws ∉ sockets_of w v).
  { intros v Hv. by rewrite (inv_born _ _ _ _ Hi v ws Hv) in Hb. }
  pose proof (cleared_removed cap w u ws dev Hn) as Hr.
  pose proof (inv_closed _ _ _ _ _ _ _ Hi (evicted_sub cap w u ws dev) Hr) as [Hw1 Hb1 Hg1].
  pose proof (connect_added cap mono u ws dev w Hn Hf) as Ha. split.
  - apply (added_wf cap u ws dev mono (cleared cap w u ws dev)); [done| | |apply connect_size|done].
    + intros v Hv. apply (Hf v), (rm_sub Hr _ _ Hv).
    + intros s. by apply cleared_other_devices.
  - intros v s [Hs|[-> ->]]%(ad_elem Ha); [|by rewrite lookup_insert_eq].
    rewrite lookup_insert_ne; [by apply Hb1|]. intros <-. apply (Hf v), (rm_sub Hr _ _ Hs).
  - intros s Hs. destruct (Hg1 s Hs) as [Hbs Hns]. split.
    + apply lookup_insert_is_Some'. by right.
    + intros v [Hv|[-> ->]]%(ad_elem Ha); [by apply (Hns v)|]. rewrite Hb in Hbs. by destruct Hbs.
Qed.

(** ** Nothing is sent on a closed socket *)

Definition closed_by (fx : list socket_effect) : gset Z :=
  list_to_set (omap (fun f => match f with Close ws _ _ => Some ws | Sent _ _ => None end) fx).

(** No text goes to a socket of [gone] or to one closed earlier in the list. *)
Fixpoint silent (gone : gset Z) (fx : list socket_effect) : Prop :=
  match fx with
  | [] => True
  | Sent ws _ :: fx => ws ∉ gone /\ silent gone fx
  | Close ws _ _ :: fx => silent (gone ∪ {[ ws ]}) fx
  end.

Lemma closed_by_nil : closed_by [] = ∅.
Proof. done. Qed.
Lemma closed_by_cons f fx :
  closed_by (f :: fx) = (match f with Close ws _ _ => {[ ws ]} | Sent _ _ => ∅ end) ∪ closed_by fx.
Proof. unfold closed_by. destruct f; simpl; set_solver. Qed.

Lemma silent_app gone a b : silent gone a -> silent (gone ∪ closed_by a) b -> silent gone (a ++ b).
Proof.
  revert gone. induction a as [|[ws t|ws c re] a IH]; intros gone Ha Hb; simpl in *;
    rewrite ?closed_by_nil, ?closed_by_cons in Hb.
  - by rewrite union_empty_r_L in Hb.
  - destruct Ha. split; [done|]. apply IH; [done|]. by rewrite union_empty_l_L in Hb.
  - apply IH; [done|]. by rewrite <-(assoc_L (∪)).
Qed.

Lemma silent_split gone a b : silent gone (a ++ b) -> silent (gone ∪ closed_by a) b.
Proof.
  revert gone. induction a as [|[ws t|ws c re] a IH]; intros gone H; simpl in *;
    rewrite ?closed_by_nil, ?closed_by_cons.
  - by rewrite union_empty_r_L.
  - rewrite union_empty_l_L. destruct H as [_ H]. by apply IH.
  - specialize (IH _ H). by rewrite <-(assoc_L (∪)) in IH.
Qed.

Lemma silent_not_sent gone fx ws t : silent gone fx -> ws ∈ gone -> Sent ws t ∉ fx.
Proof.
  revert gone. induction fx as [|[ws' t'|ws' c re] fx IH]; intros gone H Hg; simpl in *; [set_solver| |].
  - destruct H as [H1 H2]. intros [E|E]%elem_of_cons; [by injection E as -> ->|by apply (IH gone)].
  - intros [E|E]%elem_of_cons; [done|]. apply (IH (gone ∪ {[ ws' ]})); set_solver.
Qed.

Lemma closed_by_closes (f : Z -> socket_effect) (l : list Z) :
  (forall ws, exists c re, f ws = Close ws c re) -> closed_by (map f l) = list_to_set l.
Proof.
  intros Hf. induction l as [|x l IH]; [done|]. simpl.
  destruct (Hf x) as (c & re & ->). by rewrite closed_by_cons, IH.
Qed.

Lemma silent_closes (f : Z -> socket_effect) (l : list Z) gone :
  (forall ws, exists c re, f ws = Close ws c re) -> silent gone (map f l).
Proof.
  intros Hf. revert gone. induction l as [|x l IH]; intros gone; [done|]. simpl.
  destruct (Hf x) as (c & re & ->). apply IH.
Qed.

Lemma silent_sends gone l t : (forall ws, ws ∈ l -> ws ∉ gone) -> silent gone (fan_local l t).
Proof.
  induction l as [|x l IH]; intros H; [done|]. simpl.
  split; [apply H; set_solver|]. apply IH. set_solver.
Qed.

Lemma closed_by_sends l t : closed_by (fan_local l t) = ∅.
Proof. induction l as [|x l IH]; [done|]. simpl. by rewrite closed_by_cons, IH, union_empty_l_L. Qed.

(** What an event does to the books. *)
Definition sound (cap : Z) (born : gmap Z Z) (gone : gset Z) (p : list socket_effect * worker) : Prop :=
  silent gone p.1 /\ inv cap born (gone ∪ closed_by p.1) p.2.

Lemma sound_quiet cap born gone w : inv cap born gone w -> sound cap born gone (([] : list socket_effect), w).
Proof. intros H. split; [done|]. simpl. by rewrite closed_by_nil, union_empty_r_L. Qed.

Lemma sound_sends cap born gone w l t :
  inv cap born gone w -> (forall ws, ws ∈ l -> exists u, ws ∈ sockets_of w u) ->
  sound cap born gone (fan_local l t, w).
Proof.
  intros Hi Hl. split; simpl.
  - apply silent_sends. intros ws Hws Hg. destruct (Hl ws Hws) as [u Hu].
    by apply (inv_gone _ _ _ _ Hi ws Hg) in Hu.
  - by rewrite closed_by_sends, union_empty_r_L.
Qed.

Lemma sound_closes cap born gone u (f : Z -> socket_effect) (g : gset Z) w w' :
  inv cap born gone w -> (forall ws, exists c re, f ws = Close ws c re) -> g ⊆ sockets_of w u ->
  removed u g w w' -> sound cap born gone (map f (elements g), w').
Proof.
  intros Hi Hf Hs Hr. split; simpl; [by apply silent_closes|].
  rewrite closed_by_closes, list_to_set_elements_L by done. by eapply inv_closed.
Qed.

Lemma sound_close_device cap born gone u dev w :
  inv cap born gone w -> sound cap born gone (close_local_sockets_for_device u dev w).
Proof.
  intros Hi. unfold close_local_sockets_for_device. destruct (decide _); [by apply sound_quiet|].
  apply (sound_closes _ _ _ u _ _ w); [done|intros ws; by eexists _, _|unfold of_device; set_solver|].
  apply removed_forget, (wf_nonempty _ _ (inv_wf _ _ _ _ Hi)).
Qed.

Lemma sound_close_uin cap born gone u w :
  inv cap born gone w -> sound cap born gone (close_local_sockets_for_uin u w).
Proof.
  intros Hi. unfold close_local_sockets_for_uin.
  apply (sound_closes _ _ _ u _ _ w); [done|intros ws; by eexists _, _|done|].
  pose proof (removed_forget u (sockets_of w u) w (wf_nonempty _ _ (inv_wf _ _ _ _ Hi))) as Hr.
  by rewrite difference_diag_L in Hr.
Qed.

Lemma sound_dispatch cap born gone e w : inv cap born gone w -> sound cap born gone (dispatch e w).
Proof.
  intros Hi. destruct e as [t|u t ex|u dev o|u|o]; simpl.
  - apply sound_sends; [done|]. intros ws (l & Hl & Hin)%list_elem_of_In%in_concat.
    apply in_map_iff in Hl as ([u s] & <- & Hus). apply list_elem_of_In, elem_of_map_to_list in Hus.
    exists u. unfold sockets_of. rewrite Hus. simpl. apply list_elem_of_In in Hin. by apply elem_of_elements in Hin.
  - apply sound_sends; [done|]. intros ws Hws%elem_of_elements. exists u. destruct ex; set_solver.
  - case_cond; [by apply sound_quiet|by apply sound_close_device].
  - by apply sound_close_uin.
  - by apply sound_quiet.
Qed.

Lemma sound_react cap born gone ev evs w :
  inv cap born gone w -> proper born (ev :: evs) -> sound cap (births born ev) gone (react cap ev w).
Proof.
  intros Hi Hp. destruct ev as [mono u ws dev|u ws|e|u dev|u]; simpl in *.
  - destruct Hp as [Hb _]. split.
    + simpl. apply silent_closes. intros ws'. by eexists _, _.
    + simpl. rewrite closed_by_closes by (intros ws'; by eexists _, _).
      rewrite list_to_set_app_L, list_to_set_elements_L. by apply connect_inv.
  - apply sound_quiet. destruct Hp as [Hb _].
    pose proof (removed_disconnect u ws w (wf_nonempty _ _ (inv_wf _ _ _ _ Hi))) as Hr.
    eapply removed_inv; [done| |exact Hr]. intros s v ->%elem_of_singleton Hv.
    pose proof (inv_born _ _ _ _ Hi v ws Hv). congruence.
  - by apply sound_dispatch.
  - by apply sound_close_device.
  - by apply sound_close_uin.
Qed.

Lemma proper_tail born ev evs : proper born (ev :: evs) -> proper (births born ev) evs.
Proof. destruct ev; simpl; tauto. Qed.

Lemma sound_run cap evs : forall born gone w,
  inv cap born gone w -> proper born evs ->
  exists born', sound cap born' gone (react_all cap evs w).
Proof.
  induction evs as [|ev evs IH]; intros born gone w Hi Hp; simpl.
  { exists born. by apply sound_quiet. }
  destruct (sound_react cap born gone ev evs w Hi Hp) as [Hs Hi1].
  destruct (react cap ev w) as [fx w1] eqn:E1. simpl in *.
  destruct (IH _ _ w1 Hi1 (proper_tail _ _ _ Hp)) as [born' [Hs2 Hi2]].
  destruct (react_all cap evs w1) as [fx2 w2] eqn:E2. simpl in *.
  exists born'. split; simpl; [by apply silent_app|].
  assert (Hc : closed_by (fx ++ fx2) = closed_by fx ∪ closed_by fx2).
  { clear. induction fx as [|f fx IH]; simpl; [by rewrite closed_by_nil, union_empty_l_L|].
    by rewrite !closed_by_cons, IH, (assoc_L (∪)). }
  by rewrite Hc, (assoc_L (∪)).
Qed.

Lemma inv_new cap p : inv cap ∅ ∅ (new_worker p).
Proof.
  assert (Hh : forall u, sockets_of (new_worker p) u = ∅) by (intros u; unfold sockets_of; simpl; by rewrite lookup_empty).
  split; [split|..]; simpl; try (intros *; rewrite ?Hh, ?lookup_empty; try done).
  - split; [by intros [? ?]|intros [u Hu]; by rewrite Hh in Hu].
  - split; [by intros [? ?]|intros [u Hu]; by rewrite Hh in Hu].
  - rewrite size_empty. lia.
Qed.

(** C19. after any sequence of accepted and lost sockets, envelopes and kicks, a
    worker files every socket under exactly one account, with its device and its
    time; one device has at most one socket; no account has more sockets than
    the ceiling. *)
Theorem worker_wf_run (cap p : Z) (evs : list event) :
  proper ∅ evs -> worker_wf cap (react_all cap evs (new_worker p)).2.
Proof.
  intros Hp. destruct (sound_run cap evs ∅ ∅ (new_worker p) (inv_new cap p) Hp) as [born' [_ Hi]].
  apply (inv_wf _ _ _ _ Hi).
Qed.

(** A phone that dials twice, a browser, and the phone's first socket going away
    late. *)
Definition demo_day : list event :=
  [Accept 10 7 100 "primary"; Accept 20 7 101 "web"; Accept 30 7 102 "primary"; Drop 7 100;
   Read (ToUser 7 "hello" None); Read (KickUin 7); Accept 40 7 103 "primary"; Read (ToUser 7 "later" (Some "web"%string))].

Lemma worker_wf_run_witness : worker_wf 8 (react_all 8 demo_day (new_worker 1)).2.
Proof. apply (worker_wf_run 8 1 demo_day). vm_compute. tauto. Defined.

Example demo_day_effects :
  (react_all 8 demo_day (new_worker 1)).1 =
  [superseded_close 100; Sent 101 "hello"; Sent 102 "hello"; Close 101 1012 "identity_reissued";
   Close 102 1012 "identity_reissued"; Sent 103 "later"].
Proof. vm_compute. reflexivity. Qed.

(** Who an eviction envelope is for. *)
Definition hits (e : envelope) (w : worker) : gset Z :=
  match e with
  | KickUin u => sockets_of w u
  | Supersede u dev None => of_device w u dev
  | _ => ∅
  end.

Lemma dispatch_hits e w : hits e w ⊆ closed_by (dispatch e w).1.
Proof.
  destruct e as [| |u dev [o|]|u|]; simpl; try set_solver.
  - unfold close_local_sockets_for_device. destruct (decide (sockets_of w u = ∅)) as [E|E]; simpl.
    + unfold of_device. rewrite E. set_solver.
    + rewrite closed_by_closes by (intros ws'; by eexists _, _). by rewrite list_to_set_elements_L.
  - rewrite closed_by_closes by (intros ws'; by eexists _, _). by rewrite list_to_set_elements_L.
Qed.

Lemma react_all_app cap a b w :
  react_all cap (a ++ b) w =
  let '(fx, w1) := react_all cap a w in let '(fx', w2) := react_all cap b w1 in (fx ++ fx', w2).
Proof.
  revert w. induction a as [|ev a IH]; intros w; simpl; [by destruct (react_all cap b w)|].
  destruct (react cap ev w) as [fx w1]. rewrite IH. destruct (react_all cap a w1) as [fx1 w2].
  destruct (react_all cap b w2) as [fx2 w3]. by rewrite app_assoc.
Qed.

(** C20. when a worker reads the envelope of a revoked device or of a change of
    keys, every socket it holds for that device (for that account) is closed,
    and nothing is ever written to one of them again, whatever follows. *)
Theorem kicked_sockets_fall_silent (cap p : Z) (before after : list event) (e : envelope) (ws : Z) :
  proper ∅ (before ++ Read e :: after) ->
  ws ∈ hits e (react_all cap before (new_worker p)).2 ->
  ws ∈ closed_by (react cap (Read e) (react_all cap before (new_worker p)).2).1 /\
  forall t, Sent ws t ∉ (react_all cap after (react cap (Read e) (react_all cap before (new_worker p)).2).2).1.
Proof.
  intros Hp Hh. split; [by apply dispatch_hits|]. intros t Ht.
  destruct (sound_run cap _ ∅ ∅ (new_worker p) (inv_new cap p) Hp) as [born' [Hs _]].
  rewrite react_all_app in Hs. destruct (react_all cap before (new_worker p)) as [fx w1] eqn:E1. simpl in *.
  pose proof (dispatch_hits e w1) as Hc. destruct (dispatch e w1) as [fx1 w2] eqn:E2. simpl in *.
  destruct (react_all cap after w2) as [fx2 w3] eqn:E3. simpl in *.
  apply silent_split, silent_split in Hs. apply (silent_not_sent _ _ ws t Hs); [|done]. set_solver.
Qed.

Lemma kicked_sockets_fall_silent_witness :
  (102%Z ∈ closed_by (react 8 (Read (KickUin 7)) (react_all 8 (take 5 demo_day) (new_worker 1)).2).1) /\
  forall t, Sent 102 t ∉ (react_all 8 (drop 6 demo_day)
    (react 8 (Read (KickUin 7)) (react_all 8 (take 5 demo_day) (new_worker 1)).2).2).1.
Proof.
  apply (kicked_sockets_fall_silent 8 1 (take 5 demo_day) (drop 6 demo_day) (KickUin 7) 102).
  - vm_compute. tauto.
  - vm_compute. reflexivity.
Defined.

(** ** The ceiling drops the oldest *)

Lemma ceiling_drops_oldest cap w ex ws s k :
  s ∈ surplus cap w ex ws -> k ∈ ex -> k <> ws -> k ∉ surplus cap w ex ws ->
  default 0 (opened_at w !! s) <= default 0 (opened_at w !! k).
Proof.
  unfold surplus. case_cond; [|by intros ?%not_elem_of_nil].
  set (key := fun x => default 0 (opened_at w !! x)). set (l := sort_by key _). set (n := Z.to_nat _).
  intros Hs Hk Hne Hnk.
  assert (Hkl : k ∈ take n l ++ drop n l). { rewrite take_drop. unfold l. rewrite elem_of_sort_by. set_solver. }
  apply elem_of_app in Hkl as [?|Hkd]; [done|].
  pose proof (sort_by_sorted key (elements (ex ∖ {[ws]}))) as Hsort. fold l in Hsort.
  rewrite <-(take_drop n l) in Hsort.
  by apply (StronglySorted_app_1_elem_of _ _ _ s k Hsort).
Qed.

(** ** One publish per recipient, or one round trip for all *)

Section fanout_facts.
Context {R : Type} `{RR : Redis R} {HR : RedisLaws R}.

(** What a worker writes to its sockets when it has read these envelopes. *)
Definition delivered (w : worker) (l : list envelope) : list socket_effect := concat (map (fun e => (dispatch e w).1) l).

(** Every account with a socket on the worker is in the online set. *)
Definition no_ghosts (now : Z) (w : worker) (r : R) : Prop :=
  forall u, sockets_of w u <> ∅ -> sismember now ONLINE_KEY (str_uin u) r = true.

Lemma in_raw_member now u r s :
  as_set (peek now ONLINE_KEY r) = Some s ->
  in_raw (smembers now ONLINE_KEY r) u = sismember now ONLINE_KEY (str_uin u) r.
Proof using HR.
  intros Hs. unfold in_raw. rewrite (sismember_spec _ _ _ _ s Hs). apply bool_decide_ext.
  by rewrite (smembers_spec _ _ _ s Hs), elem_of_elements.
Qed.

(** the pipelined fan-out of a sealed room message answers exactly the
    accounts for which a send of its own would have answered "online", and on
    every worker whose connected accounts are all in the online set it writes
    the same texts to the same sockets, in the same order, as those sends. *)
Theorem fanout_each_is_sends (now : Z) (items : list (Z * jv)) (w w' : worker) (r : R) (s : gset string) :
  as_set (peek now ONLINE_KEY r) = Some s ->
  no_ghosts now w' r ->
  let sends := map (fun it => send 2 now it.1 it.2 None w r) items in
  let batch := fanout_each true (length items) now items w r in
  answer batch = list_to_set (omap (fun it => if answer (send 2 now it.1 it.2 None w r) then Some it.1 else None) items) /\
  delivered w' (published batch) = delivered w' (concat (map published sends)).
Proof using HR.
  intros Hs Hg. unfold fanout_each, send. simpl.
  set (p := fun it : Z * jv => in_raw (smembers now ONLINE_KEY r) it.1 = true).
  assert (Hlen : (length (filter p items) <=? length items)%nat = true).
  { apply Nat.leb_le. apply length_filter. }
  rewrite Hlen. simpl. split.
  - clear Hlen. induction items as [|[u x] items IH]; simpl; [done|].
    rewrite filter_cons. pose proof (in_raw_member now u r s Hs) as Hm.
    destruct (sismember now ONLINE_KEY (str_uin u) r) eqn:E; simpl.
    + rewrite decide_True by done. simpl. f_equal. exact IH.
    + rewrite decide_False; [exact IH|]. unfold p. simpl. congruence.
  - clear Hlen. unfold delivered. induction items as [|[u x] items IH]; simpl; [done|].
    rewrite filter_cons. pose proof (in_raw_member now u r s Hs) as Hm.
    destruct (sismember now ONLINE_KEY (str_uin u) r) eqn:E; simpl.
    + rewrite decide_True by done. simpl. by rewrite IH.
    + rewrite decide_False by (unfold p; simpl; congruence). rewrite IH.
      destruct (decide (sockets_of w' u = ∅)) as [He|He]; [|by rewrite (Hg u He) in E].
      unfold deliver_user_local. by rewrite He, elements_empty.
Qed.
End fanout_facts.

Definition demo_worker : worker :=
  mkWorker 1 {[ 7 := {[ 100; 101 ]} ]} {[ 100 := "primary"%string; 101 := "web"%string ]} {[ 100 := 10; 101 := 20 ]}.

Lemma fanout_each_is_sends_witness :
  let r := sadd 0 ONLINE_KEY [str_uin 7] (∅ : store) in
  let items := [(7, JvStr "a"); (9, JvStr "b")] in
  answer (fanout_each true 2 0 items demo_worker r) = {[ 7 ]} /\
  delivered demo_worker (published (fanout_each true 2 0 items demo_worker r)) =
  delivered demo_worker (concat (map published (map (fun it => send 2 0 it.1 it.2 None demo_worker r) items))).
Proof.
  destruct (fanout_each_is_sends 0 [(7, JvStr "a"); (9, JvStr "b")] demo_worker demo_worker
    (sadd 0 ONLINE_KEY [str_uin 7] (∅ : store)) {[ str_uin 7 ]}) as [H1 H2].
  - vm_compute. reflexivity.
  - intros u Hu. destruct (decide (u = 7)) as [->|Hne]; [vm_compute; reflexivity|].
    exfalso. apply Hu. unfold sockets_of, demo_worker. cbn [conns].
    rewrite lookup_singleton_ne by done. reflexivity.
  - split; [etrans; [exact H1|vm_compute; reflexivity]|exact H2].
Defined.
