(* ===== verification/Presence.v ===== *)
(** * Who is online

    The cluster's books of who is connected, in Redis: the set of accounts
    ([ws:online_uins]) and one expiring set of devices per account, as
    [services/connection_manager.py] writes them and
    [services/presence_sweep.py] prunes them; and presence as other people see
    it: [routers/presence.py], and of [routers/ws.py] the handshake, the connect
    and disconnect hooks and the brake on re-sync closes. *)

From stdpp Require Import base list sorting gmap strings pretty.
From Stdlib Require Import ZArith Lia.
From S2P Require Import Prelude Text Storage Redis RateLimit GuestPolicy Bytes KeyStorage Sessions Voucher KeyProof Door Rooms Accounts Json Profiles Sockets.

(** ** The sweep *)

Definition MAX_REMOVALS_PER_CYCLE : Z := 5000.

Lemma live_set_typed t e s : as_set e = Some s -> exists s', as_set (live t e) = Some s'.
Proof.
  destruct e as [[v [x|]]|]; simpl; [|destruct v; naive_solver|by eexists].
  destruct v; try done. intros [= <-]. destruct (x <=? t); by eexists.
Qed.

Section books.
Context {R : Type} `{RR : Redis R} (bucket : string -> string).

(** A member that is no number, or whose devices key is gone. *)
Definition is_ghost (now : Z) (r : R) (member : string) : bool :=
  match int_of_string member with
  | None => true
  | Some uin => negb (key_exists now (online_devs_key bucket uin) r)
  end.

(** The loop; it stops at the limit, which a member that is no number skips. *)
Fixpoint ghosts (max : Z) (now : Z) (r : R) (members acc : list string) : list string :=
  match members with
  | [] => acc
  | m :: members =>
      match int_of_string m with
      | None => ghosts max now r members (acc ++ [m])
      | Some _ =>
          let acc := if is_ghost now r m then acc ++ [m] else acc in
          if max <=? Z.of_nat (length acc) then acc else ghosts max now r members acc
      end
  end.

Definition presence_sweep (dry_run : bool) (max now : Z) (r : R) : Z * R :=
  let l := ghosts max now r (smembers now ONLINE_KEY r) [] in
  (Z.of_nat (length l), if dry_run then r else foldl (fun r m => srem now ONLINE_KEY m r) r l).

(** ** The commands of the books

    Every operation on the books is a sequence of single Redis commands, and
    those of different workers interleave.  [Look] is the [EXISTS] that a
    disconnect and the sweep ask before they remove an account; what they then
    remove was decided by the answer they got. *)

Inductive pcmd :=
  | AddDevice (u : Z) (dev : string)
  | Refresh (u : Z)
  | AddOnline (u : Z)
  | DropDevice (u : Z) (dev : string)
  | DropDevices (u : Z)
  | Look (u : Z)
  | DropOnline (u : Z).

Record books := mkBooks { book : R; doomed : list Z }.

Fixpoint remove_one (u : Z) (l : list Z) : list Z :=
  match l with [] => [] | v :: l => if v =? u then l else v :: remove_one u l end.

Definition command (now : Z) (c : pcmd) (b : books) : books :=
  let r := book b in
  match c with
  | AddDevice u dev => mkBooks (sadd now (online_devs_key bucket u) [dev] r) (doomed b)
  | Refresh u => mkBooks (expire now (online_devs_key bucket u) ONLINE_DEVS_TTL r) (doomed b)
  | AddOnline u => mkBooks (sadd now ONLINE_KEY [str_uin u] r) (doomed b)
  | DropDevice u dev => mkBooks (srem now (online_devs_key bucket u) dev r) (doomed b)
  | DropDevices u => mkBooks (del now (online_devs_key bucket u) r) (doomed b)
  | Look u => mkBooks r (if key_exists now (online_devs_key bucket u) r then doomed b else u :: doomed b)
  | DropOnline u =>
      if bool_decide (u ∈ doomed b) then mkBooks (srem now ONLINE_KEY (str_uin u) r) (remove_one u (doomed b)) else b
  end.

(** Commands with their instants, in order. *)
Fixpoint command_all (l : list (Z * pcmd)) (b : books) : books :=
  match l with [] => b | (t, c) :: l => command_all l (command t c b) end.

Fixpoint in_order (t : Z) (l : list (Z * pcmd)) (t' : Z) : Prop :=
  match l with [] => t <= t' | (s, _) :: l => t <= s /\ in_order s l t' end.

(** The operations of the manager are such sequences. *)
Lemma touch_is_commands now u dev b :
  book (command_all [(now, AddDevice u dev); (now, Refresh u); (now, AddOnline u)] b)
  = (touch_device bucket true now u dev (book b)).2.
Proof. done. Qed.

Lemma connect_is_commands cap now mono u ws dev w b :
  book (command_all [(now, AddDevice u dev); (now, Refresh u); (now, AddOnline u)] b)
  = redis_after (connect bucket 4 cap now mono u ws dev w (book b)).
Proof. unfold connect. by destruct (connect_local _ _ _ _ _ _). Qed.

Lemma disconnect_is_commands now u ws w b :
  let g := (disconnect_local u ws w).1 in
  book (command_all (match truthy_str (gone_device g) with
                     | Some d => if device_still_local g then [] else [(now, DropDevice u d)]
                     | None => [] end ++
                     if still_local g then [] else [(now, Look u); (now, DropOnline u)]) (mkBooks (book b) []))
  = redis_after (disconnect bucket true true now u ws w (book b)).
Proof.
  unfold disconnect. destruct (disconnect_local u ws w) as [[gd dl sl] w']. simpl.
  destruct (truthy_str gd) as [d|], dl, sl; simpl; try done;
    destruct (key_exists _ _ _); simpl; try done; by rewrite bool_decide_true by set_solver.
Qed.

(** ** Heard of lately is online *)

Context {HR : RedisLaws R}.

(** No two accounts share a key, and none is the online set. *)
Definition keys_apart : Prop :=
  (forall u v, online_devs_key bucket u = online_devs_key bucket v -> u = v) /\
  forall u, online_devs_key bucket u <> ONLINE_KEY.

(** The keys hold sets. *)
Definition typed (now : Z) (r : R) : Prop :=
  (exists s, as_set (peek now ONLINE_KEY r) = Some s) /\
  forall u, exists s, as_set (peek now (online_devs_key bucket u) r) = Some s.

(** The device [dev] of [u] is listed until [limit] at least; the account is in
    the set and nobody is about to take it out. *)
Definition listed (now limit u : Z) (dev : string) (b : books) : Prop :=
  (exists s x, peek now (online_devs_key bucket u) (book b) = Some (VSet s, x) /\ dev ∈ s /\
     match x with Some x => limit <= x | None => True end) /\
  (exists s, as_set (peek now ONLINE_KEY (book b)) = Some s /\ str_uin u ∈ s) /\
  u ∉ doomed b.

Lemma typed_later t t' r : t <= t' -> typed t r -> typed t' r.
Proof using HR.
  intros Ht [[s Hs] Hd]. split.
  - rewrite (peek_later t t') by done. exact (live_set_typed t' _ _ Hs).
  - intros u. destruct (Hd u) as [s' Hs']. rewrite (peek_later t t') by done. exact (live_set_typed t' _ _ Hs').
Qed.

(** The account set never expires: every command leaves it without an expiry,
    so [listed] asks that too where time passes. *)
Definition no_expiry (now : Z) (r : R) : Prop := expiry (peek now ONLINE_KEY r) = None.

Lemma no_expiry_later t t' r : t <= t' -> no_expiry t r -> no_expiry t' r /\ peek t' ONLINE_KEY r = peek t ONLINE_KEY r.
Proof using HR.
  unfold no_expiry. intros Ht Hx. rewrite (peek_later t t') by done.
  destruct (peek t ONLINE_KEY r) as [[v [x|]]|]; by simpl in *.
Qed.

Record safe (now limit u : Z) (dev : string) (b : books) : Prop := {
  safe_listed : listed now limit u dev b;
  safe_typed : typed now (book b);
  safe_no_expiry : no_expiry now (book b)
}.

Lemma safe_later t t' limit u dev b : t <= t' -> t' < limit -> safe t limit u dev b -> safe t' limit u dev b.
Proof using HR.
  intros Ht Hl [[(s & x & Hp & Hd & Hx) [Ho Hn]] Hty Hne].
  destruct (no_expiry_later t t' (book b) Ht Hne) as [Hne' He]. split; [|by eapply typed_later|done].
  split_and!; [|by rewrite He|done].
  exists s, x. split; [|done]. rewrite (peek_later t t'), Hp by done. simpl.
  destruct x as [x|]; [|done]. destruct (x <=? t') eqn:E; breflect; [lia|done].
Qed.

Lemma touches_typed t k e r r' :
  touches t k e r r' -> (exists s, as_set e = Some s) -> typed t r -> typed t r'.
Proof.
  intros Ht He [Ho Hd]. split; [|intros u]; rewrite (Ht _); by case_decide.
Qed.

(** A command on a key other than the two that [listed] reads. *)
Lemma safe_elsewhere t limit u dev k e b r' l :
  touches t k e (book b) r' -> (exists s, as_set e = Some s) ->
  k <> online_devs_key bucket u -> k <> ONLINE_KEY -> u ∉ l ->
  safe t limit u dev b -> safe t limit u dev (mkBooks r' l).
Proof.
  intros Ht He Hk Ho Hl [[(s & x & Hp & Hd & Hx) [Hon Hn]] Hty Hne]. split; simpl.
  - split_and!; [exists s, x|..]; simpl; rewrite ?(touches_other _ _ _ _ _ _ Ht) by done; done.
  - by eapply touches_typed.
  - unfold no_expiry. by rewrite (touches_other _ _ _ _ _ _ Ht).
Qed.

(** A command on the devices of [u] that keeps [dev] until [limit]. *)
Lemma safe_devices t limit u dev s x b r' :
  keys_apart -> touches t (online_devs_key bucket u) (Some (VSet s, x)) (book b) r' -> dev ∈ s ->
  (match x with Some x => limit <= x | None => True end) ->
  safe t limit u dev b -> safe t limit u dev (mkBooks r' (doomed b)).
Proof.
  intros [_ Hk] Ht Hd Hx [[_ [Hon Hn]] Hty Hne]. split; simpl.
  - split_and!; [exists s, x|..|done]; simpl; [by rewrite (touches_same _ _ _ _ _ Ht)|].
    by rewrite (touches_other _ _ _ _ _ _ Ht).
  - eapply touches_typed; [done|by eexists|done].
  - unfold no_expiry. by rewrite (touches_other _ _ _ _ _ _ Ht).
Qed.

(** A command on the account set that keeps [u]. *)
Lemma safe_online t limit u dev s b r' l :
  keys_apart -> touches t ONLINE_KEY (set_entry s (expiry (peek t ONLINE_KEY (book b)))) (book b) r' ->
  str_uin u ∈ s -> u ∉ l -> safe t limit u dev b -> safe t limit u dev (mkBooks r' l).
Proof using HR.
  intros [_ Hk] Ht Hu Hl [[(s' & x & Hp & Hd & Hx) _] Hty Hne]. unfold no_expiry in Hne. rewrite Hne in Ht.
  assert (He : set_entry s None = Some (VSet s, None)) by (unfold set_entry; rewrite decide_False; set_solver).
  rewrite He in Ht. split; simpl.
  - split_and!; [exists s', x|exists s|done]; simpl.
    + by rewrite (touches_other _ _ _ _ _ _ Ht).
    + by rewrite (touches_same _ _ _ _ _ Ht).
  - eapply touches_typed; [done|by eexists|done].
  - unfold no_expiry. by rewrite (touches_same _ _ _ _ _ Ht).
Qed.

Lemma elem_of_remove_one u v l : u ∈ remove_one v l -> u ∈ l.
Proof using Type. induction l as [|x l IH]; simpl; [done|]. case_cond; rewrite ?elem_of_cons; tauto. Qed.

(** The device's own departure, or a kick of the account. *)
Definition spares (u : Z) (dev : string) (c : pcmd) : Prop :=
  match c with
  | DropDevice v d => v <> u \/ d <> dev
  | DropDevices v => v <> u
  | _ => True
  end.

Lemma set_entry_typed s x : exists s', as_set (set_entry s x) = Some s'.
Proof. exists s. apply as_set_entry. Qed.

Lemma safe_command t limit u dev c b :
  keys_apart -> spares u dev c -> limit <= t + seconds ONLINE_DEVS_TTL ->
  safe t limit u dev b -> safe t limit u dev (command t c b).
Proof using HR.
  intros Hk Hc Hlim Hs. pose proof Hk as [Hinj Hon].
  pose proof Hs as [[(s & x & Hp & Hd & Hx) [(so & Hso & Huo) Hn]] [_ Hdt] _].
  assert (Hps : as_set (peek t (online_devs_key bucket u) (book b)) = Some s) by (by rewrite Hp).
  assert (Hin : forall s', dev ∈ s' -> set_entry s' x = Some (VSet s', x)).
  { intros s' H. unfold set_entry. rewrite decide_False; set_solver. }
  destruct c as [v d|v|v|v d|v|v|v]; simpl.
  - destruct (Hdt v) as [sv Hsv]. destruct (decide (v = u)) as [->|Hne].
    + pose proof (sadd_spec t _ [d] (book b) s Hps) as Ht. rewrite Hp in Ht. simpl in Ht. rewrite Hin in Ht by set_solver.
      eapply safe_devices; [done|exact Ht|set_solver|done|done].
    + apply (safe_elsewhere _ _ _ _ _ _ _ _ _ (sadd_spec t _ [d] (book b) sv Hsv)); auto using set_entry_typed.
  - pose proof (expire_spec t (online_devs_key bucket v) ONLINE_DEVS_TTL (book b)) as Ht.
    destruct (decide (v = u)) as [->|Hne].
    + rewrite Hp in Ht. cbn [live] in Ht. destruct (t + seconds ONLINE_DEVS_TTL <=? t) eqn:E; [breflect; unfold ONLINE_DEVS_TTL, seconds, usec_per_sec in E; lia|].
      eapply safe_devices; [done|exact Ht|done|done|done].
    + destruct (Hdt v) as [sv Hsv]. apply (safe_elsewhere _ _ _ _ _ _ _ _ _ Ht); auto.
      destruct (peek t (online_devs_key bucket v) (book b)) as [[w' ?]|]; [|by eexists].
      apply (live_set_typed t _ sv). simpl in *. by destruct w'.
  - eapply safe_online; [done|exact (sadd_spec t ONLINE_KEY [str_uin v] (book b) so Hso)|set_solver|done|done].
  - destruct (Hdt v) as [sv Hsv]. destruct (decide (v = u)) as [->|Hne].
    + destruct Hc as [?|Hc]; [done|].
      pose proof (srem_spec t _ d (book b) s Hps) as Ht. rewrite Hp in Ht. simpl in Ht. rewrite Hin in Ht by set_solver.
      eapply safe_devices; [done|exact Ht|set_solver|done|done].
    + apply (safe_elsewhere _ _ _ _ _ _ _ _ _ (srem_spec t _ d (book b) sv Hsv)); auto using set_entry_typed.
  - apply (safe_elsewhere _ _ _ _ _ _ _ _ _ (del_spec t _ (book b))); [by eexists|auto..].
  - destruct Hs as [Hl Hty Hne]. split; [|done..]. destruct Hl as (H1 & H2 & H3). split_and!; [done..|].
    simpl. rewrite key_exists_spec. case_bool_decide as Hex; [done|].
    intros [->|?]%elem_of_cons; [|done]. apply Hex. rewrite Hp. by eexists.
  - case_bool_decide as Hv; [|done]. assert (v <> u) by (intros ->; done).
    eapply safe_online; [done|exact (srem_spec t ONLINE_KEY (str_uin v) (book b) so Hso)| | |done].
    + apply elem_of_difference. split; [done|]. intros ?%elem_of_singleton%str_uin_inj. done.
    + intros ?%elem_of_remove_one. done.
Qed.

Lemma safe_run l : forall t t' limit u dev b,
  keys_apart -> Forall (fun tc => spares u dev tc.2) l -> in_order t l t' -> t' < limit ->
  limit <= t + seconds ONLINE_DEVS_TTL -> safe t limit u dev b -> safe t' limit u dev (command_all l b).
Proof using HR.
  induction l as [|[s c] l IH]; intros t t' limit u dev b Hk Hf Ho Hl Hlim Hs; simpl in *.
  - by apply (safe_later t).
  - apply Forall_cons in Hf as [Hc Hf]. destruct Ho as [Hts Ho].
    assert (Hst : s <= t'). { clear -Ho. revert s Ho. induction l as [|[s' c'] l IH]; simpl; intros s Ho; [done|].
      destruct Ho as [? ?%IH]. lia. }
    apply (IH s); [done..|lia|]. apply safe_command; [done|done|lia|]. apply (safe_later t); [done|lia|done].
Qed.

(** What a frame leaves in the books. *)
Lemma safe_touch t u dev b :
  keys_apart -> typed t (book b) -> no_expiry t (book b) -> u ∉ doomed b ->
  safe t (t + seconds ONLINE_DEVS_TTL) u dev (mkBooks (touch_device bucket true t u dev (book b)).2 (doomed b)).
Proof using HR.
  intros [Hinj Hon] [[so Hso] Hd] Hne Hn. destruct (Hd u) as [s Hs]. simpl.
  pose proof (sadd_spec t _ [dev] (book b) s Hs) as H1. set (r1 := sadd _ _ _ _) in *.
  pose proof (expire_spec t (online_devs_key bucket u) ONLINE_DEVS_TTL r1) as H2. set (r2 := expire _ _ _ _) in *.
  rewrite (touches_same _ _ _ _ _ H1) in H2. unfold set_entry in H2 at 1. rewrite decide_False in H2 by set_solver.
  cbn [live] in H2. destruct (t + seconds ONLINE_DEVS_TTL <=? t) eqn:E.
  { breflect. unfold ONLINE_DEVS_TTL, seconds, usec_per_sec in E. lia. }
  assert (Ho2 : peek t ONLINE_KEY r2 = peek t ONLINE_KEY (book b)).
  { rewrite (touches_other _ _ _ _ _ _ H2), (touches_other _ _ _ _ _ _ H1); auto. }
  assert (Hso2 : as_set (peek t ONLINE_KEY r2) = Some so) by (by rewrite Ho2).
  pose proof (sadd_spec t ONLINE_KEY [str_uin u] r2 so Hso2) as H3.
  unfold no_expiry in Hne. rewrite Ho2, Hne in H3. unfold set_entry in H3. rewrite decide_False in H3 by set_solver.
  split; simpl.
  - split_and!; [eexists _, _|eexists|done]; simpl.
    + rewrite (touches_other _ _ _ _ _ _ H3), (touches_same _ _ _ _ _ H2) by auto.
      split_and!; [done|set_solver|simpl; lia].
    + rewrite (touches_same _ _ _ _ _ H3). split; [done|set_solver].
  - eapply touches_typed; [exact H3|by eexists|]. eapply touches_typed; [exact H2|by eexists|].
    eapply touches_typed; [exact H1|apply set_entry_typed|]. split; [by eexists|done].
  - unfold no_expiry. by rewrite (touches_same _ _ _ _ _ H3).
Qed.

Lemma safe_reads t limit u dev w b :
  safe t limit u dev b ->
  sismember t ONLINE_KEY (str_uin u) (book b) = true /\ dev ∈ answer (online_devices bucket true t u w (book b)).
Proof using HR.
  intros [[(s & x & Hp & Hd & _) [(so & Hso & Hu) _]] _ _]. split.
  - rewrite (sismember_spec _ _ _ _ so Hso). by apply bool_decide_true.
  - assert (Hs : as_set (peek t (online_devs_key bucket u) (book b)) = Some s) by (by rewrite Hp).
    simpl. apply elem_of_list_to_set. rewrite (smembers_spec _ _ _ s Hs). by apply elem_of_elements.
Qed.

(** C21. an account one of whose devices has been heard from within the last 180
    seconds is online, and that device is counted as connected, however the
    connects, disconnects, kicks and sweeps of all other devices and accounts
    interleave on the way, command by command; unless a removal decided before
    that frame was still on its way. *)
Theorem heard_stays_online (now t' u : Z) (dev : string) (b : books) (l : list (Z * pcmd)) (w : worker) :
  keys_apart -> typed now (book b) -> no_expiry now (book b) ->
  u ∉ doomed b ->
  Forall (fun tc => spares u dev tc.2) l -> in_order now l t' -> t' < now + seconds ONLINE_DEVS_TTL ->
  let b' := command_all l (mkBooks (touch_device bucket true now u dev (book b)).2 (doomed b)) in
  sismember t' ONLINE_KEY (str_uin u) (book b') = true /\
  dev ∈ answer (online_devices bucket true t' u w (book b')).
Proof using HR.
  intros Hk Hty Hne Hn Hf Ho Ht. apply (safe_reads _ (now + seconds ONLINE_DEVS_TTL)).
  apply (safe_run l now); [done..|lia|]. by apply safe_touch.
Qed.

(** ** The sweep drops the ghosts and nobody else *)

Lemma ghosts_sub max now r members : forall acc m,
  m ∈ ghosts max now r members acc -> m ∈ acc \/ (m ∈ members /\ is_ghost now r m = true).
Proof.
  induction members as [|x members IH]; intros acc m; simpl; [by left|].
  destruct (int_of_string x) eqn:Ex.
  - destruct (is_ghost now r x) eqn:Eg; destruct (max <=? _); intros H; try (apply IH in H);
      rewrite ?elem_of_app, ?elem_of_cons, ?elem_of_nil in *; naive_solver.
  - intros H%IH. assert (Hg : is_ghost now r x = true) by (unfold is_ghost; by rewrite Ex).
    rewrite ?elem_of_app, ?elem_of_cons, ?elem_of_nil in *; naive_solver.
Qed.

Lemma ghosts_all max now r members : forall acc,
  Z.of_nat (length acc) + Z.of_nat (length members) < max ->
  ghosts max now r members acc = acc ++ filter (fun m => is_ghost now r m = true) members.
Proof.
  induction members as [|x members IH]; intros acc Hl; simpl in *; [by rewrite app_nil_r|].
  rewrite filter_cons. destruct (int_of_string x) eqn:Ex.
  - destruct (is_ghost now r x) eqn:Eg.
    + rewrite decide_True by done. destruct (max <=? _) eqn:E; breflect; rewrite length_app in *; simpl in *; [lia|].
      rewrite IH by (rewrite length_app; simpl; lia). by rewrite <-app_assoc.
    + rewrite decide_False by done. destruct (max <=? _) eqn:E; breflect; [lia|]. apply IH. lia.
  - rewrite decide_True by (unfold is_ghost; by rewrite Ex).
    rewrite IH by (rewrite length_app; simpl; lia). by rewrite <-app_assoc.
Qed.

Lemma srem_all now k l : forall r s,
  as_set (peek now k r) = Some s ->
  as_set (peek now k (foldl (fun r m => srem now k m r) r l)) = Some (s ∖ list_to_set l).
Proof using HR.
  induction l as [|m l IH]; intros r s Hs; simpl; [by rewrite difference_empty_L|].
  rewrite (IH _ (s ∖ {[m]})); [f_equal; clear; set_solver|].
  rewrite (touches_same _ _ _ _ _ (srem_spec _ _ m _ s Hs)). apply as_set_entry.
Qed.

(** a pass of the sweep never takes out an account with a connected device,
    and, within its limit, takes out every other member of the online set. *)
Theorem sweep_exact (max now : Z) (r : R) (s : gset string) (u : Z) :
  as_set (peek now ONLINE_KEY r) = Some s ->
  let r' := (presence_sweep false max now r).2 in
  (key_exists now (online_devs_key bucket u) r = true ->
   sismember now ONLINE_KEY (str_uin u) r' = sismember now ONLINE_KEY (str_uin u) r) /\
  (Z.of_nat (size s) < max -> key_exists now (online_devs_key bucket u) r = false ->
   sismember now ONLINE_KEY (str_uin u) r' = false).
Proof using HR.
  intros Hs. simpl. set (l := ghosts _ _ _ _ _).
  pose proof (srem_all now ONLINE_KEY l r s Hs) as Hs'.
  rewrite !(sismember_spec _ _ _ _ _ Hs'), (sismember_spec _ _ _ _ _ Hs).
  assert (Hg : is_ghost now r (str_uin u) = negb (key_exists now (online_devs_key bucket u) r)).
  { unfold is_ghost, str_uin. by rewrite int_of_pretty. }
  split.
  - intros He. apply bool_decide_ext. rewrite elem_of_difference, elem_of_list_to_set. split; [tauto|].
    intros Hu. split; [done|]. intros [?%elem_of_nil|[_ Hx]]%ghosts_sub; [done|]. rewrite Hg, He in Hx. done.
  - intros Hm He. apply bool_decide_false. rewrite elem_of_difference, elem_of_list_to_set. intros [Hu Hn].
    apply Hn. unfold l. rewrite ghosts_all.
    + apply list_elem_of_filter. split; [by rewrite Hg, He|]. by rewrite (smembers_spec _ _ _ s Hs), elem_of_elements.
    + simpl. rewrite (Permutation_length (smembers_spec _ _ _ s Hs)). exact Hm.
Qed.

(** ** A frame heals a ghost *)

(** whatever took a connected account out of the online set, its next frame
    puts it back, and the socket is asked to re-sync exactly when the account
    was missing. *)
Theorem touch_heals (now u : Z) (dev : string) (r : R) (s : gset string) :
  keys_apart -> typed now r -> as_set (peek now ONLINE_KEY r) = Some s ->
  let '(healed, r') := touch_device bucket true now u dev r in
  healed = negb (sismember now ONLINE_KEY (str_uin u) r) /\
  sismember now ONLINE_KEY (str_uin u) r' = true.
Proof using HR.
  intros [Hinj Hon] [_ Hd] Hs. destruct (Hd u) as [sd Hsd]. simpl.
  set (r1 := sadd now (online_devs_key bucket u) [dev] r). set (r2 := expire now _ _ r1).
  assert (Ho : peek now ONLINE_KEY r2 = peek now ONLINE_KEY r).
  { unfold r2, r1. rewrite (touches_other _ _ _ _ _ _ (expire_spec _ _ _ _)) by auto.
    rewrite (touches_other _ _ _ _ _ _ (sadd_spec _ _ [dev] r sd Hsd)); auto. }
  assert (Hs2 : as_set (peek now ONLINE_KEY r2) = Some s) by (by rewrite Ho).
  rewrite !(sismember_spec _ _ _ _ s) by done. split; [done|].
  erewrite (sismember_spec _ _ _ _ (s ∪ list_to_set [str_uin u])); [apply bool_decide_true; set_solver|].
  rewrite (touches_same _ _ _ _ _ (sadd_spec _ _ [str_uin u] r2 s Hs2)). apply as_set_entry.
Qed.
(** ** A device that fell silent

    The devices of an account share one expiry, which every frame of any of
    them, and every question of the push paths, puts off. *)

Inductive act := Ping (dev : string) | Ask.

Definition act_books (now u : Z) (w : worker) (a : act) (r : R) : R :=
  match a with
  | Ping dev => (touch_device bucket true now u dev r).2
  | Ask => redis_after (online_devices bucket true now u w r)
  end.

Fixpoint act_all (u : Z) (w : worker) (l : list (Z * act)) (r : R) : R :=
  match l with [] => r | (t, a) :: l => act_all u w l (act_books t u w a r) end.

(** No gap of 180 seconds, up to [t']. *)
Fixpoint unbroken (t : Z) (l : list (Z * act)) (t' : Z) : Prop :=
  match l with
  | [] => t <= t' < t + seconds ONLINE_DEVS_TTL
  | (s, _) :: l => t <= s < t + seconds ONLINE_DEVS_TTL /\ unbroken s l t'
  end.

Lemma safe_refresh t limit u dev b :
  keys_apart -> safe t limit u dev b ->
  safe t (t + seconds ONLINE_DEVS_TTL) u dev (command t (Refresh u) b).
Proof using HR.
  intros Hk Hs. pose proof Hs as [[(s & x & Hp & Hd & _) [Ho Hn]] Hty Hne]. pose proof Hk as [_ Hon].
  pose proof (expire_spec t (online_devs_key bucket u) ONLINE_DEVS_TTL (book b)) as Ht.
  rewrite Hp in Ht. cbn [live] in Ht. destruct (t + seconds ONLINE_DEVS_TTL <=? t) eqn:E.
  { breflect. unfold ONLINE_DEVS_TTL, seconds, usec_per_sec in E. lia. }
  split; simpl.
  - split_and!; [eexists _, _|..|done]; simpl; [rewrite (touches_same _ _ _ _ _ Ht); split_and!; [done|done|simpl; lia]|].
    by rewrite (touches_other _ _ _ _ _ _ Ht).
  - eapply touches_typed; [exact Ht|by eexists|done].
  - unfold no_expiry. by rewrite (touches_other _ _ _ _ _ _ Ht).
Qed.

Lemma safe_act t limit u dev w a b :
  keys_apart -> limit <= t + seconds ONLINE_DEVS_TTL -> safe t limit u dev b ->
  safe t (t + seconds ONLINE_DEVS_TTL) u dev (mkBooks (act_books t u w a (book b)) (doomed b)).
Proof using HR.
  intros Hk Hl Hs. destruct a as [d|].
  - apply (safe_command t _ u dev (AddDevice u d)) in Hs; [|done..].
    apply (safe_refresh t _ u dev _ Hk) in Hs. apply (safe_command t _ u dev (AddOnline u)) in Hs; [done|done|done|lia].
  - pose proof (proj2 (safe_reads _ _ _ _ w _ Hs)) as Hin. simpl in *.
    destruct (smembers t (online_devs_key bucket u) (book b)); [done|]. by apply (safe_refresh t limit).
Qed.

Lemma safe_acts l : forall t t' u dev w b,
  keys_apart -> unbroken t l t' -> safe t (t + seconds ONLINE_DEVS_TTL) u dev b ->
  exists limit, safe t' limit u dev (mkBooks (act_all u w l (book b)) (doomed b)).
Proof using HR.
  induction l as [|[s a] l IH]; intros t t' u dev w b Hk Hu Hs; simpl in *.
  - exists (t + seconds ONLINE_DEVS_TTL). destruct b. apply (safe_later t); [lia..|done].
  - destruct Hu as [Hts Hu]. apply (IH s t' u dev w (mkBooks (act_books s u w a (book b)) (doomed b)) Hk Hu).
    apply (safe_act s (t + seconds ONLINE_DEVS_TTL)); [done|lia|]. apply (safe_later t); [lia..|done].
Qed.

(** a device that fell silent (its worker died, its phone is in a pocket)
    stays counted as connected for as long as another device of the account
    pings, or somebody asks who is connected, at least every 180 seconds; so no
    push ever wakes it. *)
Theorem silent_device_stays_listed (now t' u : Z) (dev : string) (r : R) (l : list (Z * act)) (w : worker) :
  keys_apart -> typed now r -> no_expiry now r ->
  unbroken now l t' ->
  dev ∈ answer (online_devices bucket true t' u w (act_all u w l (touch_device bucket true now u dev r).2)).
Proof using HR.
  intros Hk Hty Hne Hu.
  destruct (safe_acts l now t' u dev w (mkBooks (touch_device bucket true now u dev r).2 []) Hk Hu) as [lim Hs].
  { apply (safe_touch now u dev (mkBooks r [])); [done..|]. apply not_elem_of_nil. }
  apply (safe_reads _ _ _ _ w _ Hs).
Qed.
End books.

(** ** Examples *)

Lemma demo_keys_apart : keys_apart (fun s => s).
Proof.
  split.
  - intros u v H. unfold online_devs_key, account_key in H. simpl in H. simplify_eq. done.
  - done.
Qed.
Lemma demo_typed now : typed (R := store) (fun s => s) now ∅.
Proof. split; [|intros u]; exists ∅; unfold peek, map_redis, store_peek; by rewrite lookup_empty. Qed.

Lemma heard_stays_online_witness :
  let b := command_all (fun s => s) [(seconds 10, AddDevice 7 "web"); (seconds 20, DropDevice 7 "web"); (seconds 30, Look 7);
                        (seconds 30, DropOnline 7); (seconds 40, Look 9); (seconds 50, DropOnline 9)]
             (mkBooks (touch_device (fun s => s) true 0 7 "primary" (∅ : store)).2 []) in
  sismember (seconds 100) ONLINE_KEY (str_uin 7) (book b) = true /\
  "primary"%string ∈ answer (online_devices (fun s => s) true (seconds 100) 7 demo_worker (book b)).
Proof.
  apply (heard_stays_online (fun s => s) 0 (seconds 100) 7 "primary" (mkBooks (∅ : store) [])
    [(seconds 10, AddDevice 7 "web"); (seconds 20, DropDevice 7 "web"); (seconds 30, Look 7);
     (seconds 30, DropOnline 7); (seconds 40, Look 9); (seconds 50, DropOnline 9)] demo_worker);
    [apply demo_keys_apart|apply demo_typed|reflexivity|apply not_elem_of_nil| | |vm_compute; reflexivity].
  - repeat (apply List.Forall_cons; [simpl; first [exact I|by right]|]). apply List.Forall_nil.
  - vm_compute. repeat split; discriminate.
Defined.

Lemma sweep_exact_witness :
  let r := sadd 0 ONLINE_KEY [str_uin 9] (touch_device (fun s => s) true 0 7 "primary" (∅ : store)).2 in
  let r' := (presence_sweep (fun s => s) false 5000 0 r).2 in
  sismember 0 ONLINE_KEY (str_uin 7) r' = true /\ sismember 0 ONLINE_KEY (str_uin 9) r' = false.
Proof.
  split.
  - destruct (sweep_exact (fun s => s) 5000 0
      (sadd 0 ONLINE_KEY [str_uin 9] (touch_device (fun s => s) true 0 7 "primary" (∅ : store)).2)
      {[ str_uin 7; str_uin 9 ]} 7) as [H _]; [vm_compute; reflexivity|].
    etrans; [apply H|]; vm_compute; reflexivity.
  - destruct (sweep_exact (fun s => s) 5000 0
      (sadd 0 ONLINE_KEY [str_uin 9] (touch_device (fun s => s) true 0 7 "primary" (∅ : store)).2)
      {[ str_uin 7; str_uin 9 ]} 9) as [_ H]; [vm_compute; reflexivity|].
    apply H; vm_compute; reflexivity.
Defined.

Lemma touch_heals_witness :
  let p := touch_device (fun s => s) true 0 7 "primary" (∅ : store) in
  p.1 = true /\ sismember 0 ONLINE_KEY (str_uin 7) p.2 = true.
Proof.
  pose proof (touch_heals (R := store) (fun s => s) 0 7 "primary" ∅ ∅ demo_keys_apart (demo_typed 0) eq_refl) as H.
  destruct H as [H1 H2]. split; [exact H1|exact H2].
Defined.

(** The phone's last frame is at 0; the desktop pings on. *)
Lemma silent_device_stays_listed_witness :
  "phone"%string ∈ answer (online_devices (fun s => s) true (seconds 600) 7 demo_worker
    (act_all (fun s => s) 7 demo_worker
       [(seconds 100, Ping "desktop"); (seconds 250, Ask); (seconds 400, Ping "desktop"); (seconds 550, Ping "desktop")]
       (touch_device (fun s => s) true 0 7 "phone" (∅ : store)).2)).
Proof.
  apply (silent_device_stays_listed (fun s => s) 0 (seconds 600) 7 "phone" (∅ : store));
    [apply demo_keys_apart|apply demo_typed|reflexivity|].
  vm_compute. repeat split; discriminate.
Defined.

(** A removal decided before the frame: the reconnect is complete, and the old
    socket's departure takes the account out of the set. *)
Example late_removal_makes_a_ghost :
  let b := command_all (fun s => s) [(0, Look 7); (1, AddDevice 7 "primary"); (1, Refresh 7); (1, AddOnline 7); (2, DropOnline 7)]
             (mkBooks (sadd 0 ONLINE_KEY [str_uin 7] (∅ : store)) []) in
  sismember 2 ONLINE_KEY (str_uin 7) (book b) = false /\
  sismember 2 (online_devs_key (fun s => s) 7) "primary" (book b) = true /\
  (touch_device (fun s => s) true 3 7 "primary" (book b)).1 = true.
Proof. vm_compute. done. Qed.

(** ** Presence as others see it *)

(** One broadcast. *)
Inductive presence_frame := PresenceFrame (to : gset Z) (uin : Z) (status : string) (status_message : option string).

Definition contact_watchers (d : sdb) (uin : Z) : gset Z :=
  set_map fst (filter (fun k : Z * Z => k.2 = uin) (dom (edges d))).
Definition my_groups (d : sdb) (uin : Z) : list Z :=
  map gm_group_id (filter (fun m => gm_uin m = uin) (group_members (score d))).
Definition group_watchers (d : sdb) (uin : Z) : gset Z :=
  list_to_set (map gm_uin (filter (fun m => gm_group_id m ∈ my_groups d uin /\ gm_uin m <> uin)
                             (group_members (score d)))).
Definition blocked_by (d : sdb) (uin : Z) : gset Z :=
  set_map snd (dom (filter (fun kv : (Z * Z) * bool => kv.1.1 = uin /\ kv.2 = true) (edges d))).

Definition presence_watchers (d : sdb) (uin : Z) : gset Z :=
  (contact_watchers d uin ∪ group_watchers d uin) ∖ blocked_by d uin.

Definition VALID_STATUSES : list string := ["online"; "away"; "dnd"; "invisible"; "offline"]%string.

Definition with_status (s : string) (u : User) : User :=
  let p := profile u in
  mkUser (last_seen u) (created_at u) (guest_status u) (muted_group_ids u) (is_suspended u)
    (mkProfile (nickname p) (badge p) (badge_hidden p) s (avatar_media_id p) (avatar_media_key p)
       (profile_card_policy p) (group_invite_policy p)).
Definition with_message (m : option string) (p : Person) : Person :=
  mkPerson (first_name p) (last_name p) (age p) (gender p) (city p) (country p) (about p) (interests p) (homepage p)
    m (last_seen_visibility p) (gender_visibility p) (profile_visibility p) (call_policy p)
    (read_receipts_visibility p) (hof_opt_in p) (hof_avatar p) (push_preferences p).
Definition set_row (uin : Z) (f : User -> User) (d : sdb) : sdb := set_acc (set_user uin f (s_acc d)) d.

(** "offline" for an invisible person. *)
Definition shown (s : string) : string := if String.eqb s "invisible" then "offline" else s.

Definition set_status (now uin : Z) (st : string) (msg : option string) (d : sdb)
    : outcome unit * sdb * list presence_frame :=
  if negb (bool_decide (st ∈ VALID_STATUSES)) then (Raise (HTTPException 400 "invalid status"), d, [])
  else match user_row d uin with
  | None => (Raise (HTTPException 404 "user not found"), d, [])
  | Some w =>
      let chosen := if String.eqb st "offline" then "invisible"%string else st in
      let d := set_row uin (fun u => with_last_seen now (with_status chosen u)) d in
      let d := set_people (<[uin := with_message msg (w_person w)]> (people d)) d in
      (Ok tt, d, [PresenceFrame (presence_watchers d uin) uin (shown chosen) msg])
  end.

(** ** The hooks of a socket *)

Definition on_connect (now uin : Z) (d : sdb) : sdb * list presence_frame :=
  match user_row d uin with
  | None => (d, [])
  | Some w =>
      let was_stale := negb (presence_is_fresh now (last_seen (w_user w))) in
      let st := if String.eqb (status (profile (w_user w))) "offline" then "online"%string
                else status (profile (w_user w)) in
      let d := set_row uin (fun u => with_last_seen now (with_status st u)) d in
      (d, if was_stale
          then [PresenceFrame (presence_watchers d uin) uin (shown st) (status_message (w_person w))] else [])
  end.

(** The timers of a worker that are to announce_presence an account offline: the one
    filed under each account, and every task that has not ended. *)
Record timers := mkTimers {
  pending_of : gmap Z nat;
  tasks : gmap nat (Z * Z);
  cancelled : gset nat;
  next_task : nat
}.

Definition OFFLINE_DEBOUNCE_SECONDS : Z := PRESENCE_FRESHNESS_SECONDS.

Definition cancel (k : nat) (t : timers) : timers :=
  if bool_decide (is_Some (tasks t !! k))
  then mkTimers (pending_of t) (tasks t) (cancelled t ∪ {[ k ]}) (next_task t) else t.

(** [pop(uin, None)] and [cancel()] *)
Definition reconnected (uin : Z) (t : timers) : timers :=
  match pending_of t !! uin with
  | Some k => cancel k (mkTimers (delete uin (pending_of t)) (tasks t) (cancelled t) (next_task t))
  | None => t
  end.

Definition schedule_offline (now uin : Z) (t : timers) : timers :=
  let t := match pending_of t !! uin with Some k => cancel k t | None => t end in
  mkTimers (<[uin := next_task t]> (pending_of t))
    (<[next_task t := (uin, now + seconds OFFLINE_DEBOUNCE_SECONDS)]> (tasks t)) (cancelled t) (S (next_task t)).

(** A task ends: its [finally] pops whatever is filed under its account. *)
Definition task_ends (k : nat) (t : timers) : timers :=
  match tasks t !! k with
  | Some (uin, _) => mkTimers (delete uin (pending_of t)) (delete k (tasks t)) (cancelled t ∖ {[ k ]}) (next_task t)
  | None => t
  end.

(** Whether task [k] is due: it sleeps until its instant unless cancelled. *)
Definition due (now : Z) (k : nat) (t : timers) : bool :=
  match tasks t !! k with
  | Some (_, at_) => (at_ <=? now) && negb (bool_decide (k ∈ cancelled t))
  | None => false
  end.

(** [online]: the answer of [manager.is_online]. *)
Definition on_disconnect (now uin : Z) (online : bool) (d : sdb) (t : timers) : sdb * timers :=
  match user_row d uin with
  | None => (d, t)
  | Some _ =>
      let d := set_row uin (with_last_seen now) d in
      (d, if online then t else schedule_offline now uin t)
  end.

(** The announcement of [_debounced_offline]. *)
Definition announce_offline (now uin : Z) (d : sdb) : list presence_frame :=
  match user_row d uin with
  | None => []
  | Some w => if String.eqb (visible_status now (w_user w)) "offline"
              then [PresenceFrame (presence_watchers d uin) uin "offline" None] else []
  end.

(** ** The handshake *)

Inductive handshake := Refused (code : Z) | LetThrough (device_id : string).

Definition ws_handshake {R} `{Redis R} {T} `{JWT T} (num : Z -> string) (hmac_hex : string -> string -> string)
    (secret : string) (up : auth_up) (up_rate : bool) (now uin : Z) (token : T) (tab : epochs) (d : db) (s : limiter R) : handshake * limiter R :=
  let '(v, r) := authorize_session (bucket_name hmac_hex secret) up now token tab d (redis s) in
  let s := mkLimiter r (local_hits s) in
  match v with
  | Raise (HTTPException 403 _) | Raise (HTTPExceptionN 403 _ _) => (Refused 4408, s)
  | Raise _ => (Refused 4401, s)
  | Ok token_uin =>
      if negb (token_uin =? uin) then (Refused 4403, s)
      else
        let '(allowed, s) := allow_ws_connect hmac_hex secret up_rate now (pretty uin) s in
        if negb allowed then (Refused 4429, s) else (LetThrough (decode_device_id now token), s)
  end.

(** ** The brake on re-sync closes *)

Definition RESYNC_BOUNCE_WINDOW_S : Z := 600.

(** [t]: the monotonic clock. *)
Definition may_bounce (t : Z) (key : Z * string) (m : gmap (Z * string) Z) : bool * gmap (Z * string) Z :=
  let m := if (4096 <? size m)%nat
           then filter (fun kv : (Z * string) * Z => t - kv.2 <= seconds RESYNC_BOUNCE_WINDOW_S) m else m in
  match m !! key with
  | Some last => if t - last <? seconds RESYNC_BOUNCE_WINDOW_S then (false, m) else (true, <[key := t]> m)
  | None => (true, <[key := t]> m)
  end.

Fixpoint bounces (l : list (Z * (Z * string))) (m : gmap (Z * string) Z) : list bool * gmap (Z * string) Z :=
  match l with
  | [] => ([], m)
  | (t, k) :: l => let '(b, m) := may_bounce t k m in let '(bs, m) := bounces l m in (b :: bs, m)
  end.

Lemma may_bounce_keeps t key k t0 m :
  m !! k = Some t0 -> t0 <= t < t0 + seconds RESYNC_BOUNCE_WINDOW_S ->
  (may_bounce t key m).2 !! k = Some t0 /\ (key = k -> (may_bounce t key m).1 = false).
Proof.
  intros Hm Ht. unfold may_bounce. set (m' := if (4096 <? size m)%nat then _ else m).
  assert (Hm' : m' !! k = Some t0).
  { unfold m'. case_cond; [|done]. apply map_lookup_filter_Some. split; [done|]. simpl. lia. }
  destruct (decide (key = k)) as [->|Hne].
  - rewrite Hm'. destruct (t - t0 <? _) eqn:E; breflect; [done|lia].
  - destruct (m' !! key) as [x|]; [case_cond|]; simpl; (split; [|done]); rewrite ?lookup_insert_ne by done; done.
Qed.

Lemma bounces_keep l : forall k t0 m,
  m !! k = Some t0 -> Forall (fun c => t0 <= c.1 < t0 + seconds RESYNC_BOUNCE_WINDOW_S) l ->
  (bounces l m).2 !! k = Some t0.
Proof.
  induction l as [|[t key] l IH]; intros k t0 m Hm Hf; simpl in *; [done|].
  apply Forall_cons in Hf as [Hft Hf]. destruct (may_bounce_keeps t key k t0 m Hm Hft) as [Hm1 _].
  destruct (may_bounce t key m) as [b m1]. specialize (IH k t0 m1 Hm1 Hf).
  by destruct (bounces l m1) as [bs m2].
Qed.

(** two re-sync closes of the same device on one worker are at least ten
    minutes apart, whatever other devices are closed in between and however
    often the table is pruned. *)
Theorem bounce_brake (t0 t1 : Z) (k : Z * string) (l : list (Z * (Z * string))) (m : gmap (Z * string) Z) :
  (may_bounce t0 k m).1 = true ->
  Forall (fun c => t0 <= c.1 <= t1) l -> t0 <= t1 ->
  (may_bounce t1 k (bounces l (may_bounce t0 k m).2).2).1 = true ->
  t0 + seconds RESYNC_BOUNCE_WINDOW_S <= t1.
Proof.
  intros H0 Hf Ht H1. destruct (Z.le_gt_cases (t0 + seconds RESYNC_BOUNCE_WINDOW_S) t1) as [?|Hlt]; [done|].
  assert (Hm : (may_bounce t0 k m).2 !! k = Some t0).
  { revert H0. unfold may_bounce. set (m' := if (4096 <? size m)%nat then _ else m).
    destruct (m' !! k); [case_cond|]; simpl; intros; try done; by rewrite lookup_insert_eq. }
  apply (bounces_keep l) in Hm; [|eapply Forall_impl; [done|simpl; lia]].
  destruct (may_bounce_keeps t1 k k t0 _ Hm) as [_ Hk]; [lia|]. by rewrite Hk in H1.
Qed.

Lemma bounce_brake_witness : 0 + seconds 600 <= seconds 600.
Proof.
  apply (bounce_brake 0 (seconds 600) (7, "primary"%string) [(seconds 5, (7, "primary"%string)); (seconds 6, (8, "web"%string))] ∅).
  - vm_compute. reflexivity.
  - repeat constructor; vm_compute; discriminate.
  - vm_compute. discriminate.
  - vm_compute. reflexivity.
Defined.

(** ** What others are told *)

Lemma elem_of_presence_watchers d uin v :
  v ∈ presence_watchers d uin <->
  (is_Some (edges d !! (v, uin)) \/
   (v <> uin /\ exists m m', m ∈ group_members (score d) /\ m' ∈ group_members (score d) /\
      gm_uin m = uin /\ gm_uin m' = v /\ gm_group_id m' = gm_group_id m)) /\
  edges d !! (uin, v) <> Some true.
Proof.
  assert (Hb : v ∈ blocked_by d uin <-> edges d !! (uin, v) = Some true).
  { unfold blocked_by. rewrite elem_of_map. split.
    - intros ([a b] & Hv & (x & Hx)%elem_of_dom). simpl in *. subst b.
      apply map_lookup_filter_Some in Hx as [Hx [Ha Ht]]. simpl in *. by subst.
    - intros H. exists (uin, v). split; [done|]. apply elem_of_dom. exists true. by apply map_lookup_filter_Some. }
  assert (Hc : v ∈ contact_watchers d uin <-> is_Some (edges d !! (v, uin))).
  { unfold contact_watchers. rewrite elem_of_map. setoid_rewrite elem_of_filter. setoid_rewrite elem_of_dom. split.
    - intros ([a b] & -> & Hu & Hd). simpl in *. by subst.
    - intros H. by exists (v, uin). }
  assert (Hg : v ∈ group_watchers d uin <->
    v <> uin /\ exists m m', m ∈ group_members (score d) /\ m' ∈ group_members (score d) /\
      gm_uin m = uin /\ gm_uin m' = v /\ gm_group_id m' = gm_group_id m).
  { unfold group_watchers, my_groups. rewrite elem_of_list_to_set, list_elem_of_fmap. setoid_rewrite list_elem_of_filter.
    setoid_rewrite list_elem_of_fmap. setoid_rewrite list_elem_of_filter. split.
    - intros (m' & -> & ((m & Hm & Hu & Hin) & Hne) & Hin'). split; [done|]. by exists m, m'.
    - intros (Hne & m & m' & Hin & Hin' & Hu & <- & Hm). exists m'. split_and!; [done| |done..]. by exists m. }
  unfold presence_watchers. rewrite elem_of_difference, elem_of_union, Hb, Hc, Hg. done.
Qed.

(** The three places that announce_presence somebody's presence. *)
Inductive announcement := SetStatus (st : string) (msg : option string) | Connected | WentOffline.

Definition announce_presence (now uin : Z) (a : announcement) (d : sdb) : sdb * list presence_frame :=
  match a with
  | SetStatus st msg => let '(_, d, fs) := set_status now uin st msg d in (d, fs)
  | Connected => on_connect now uin d
  | WentOffline => (d, announce_offline now uin d)
  end.

(** The column holds what the clients may choose, or the legacy "offline". *)
Definition known_statuses (d : sdb) : Prop :=
  forall u row, users (score d) !! u = Some row -> status (profile row) ∈ VALID_STATUSES.

Lemma user_row_set_row uin f d w :
  user_row d uin = Some w -> exists w', user_row (set_row uin f d) uin = Some w' /\ w_user w' = f (w_user w).
Proof.
  unfold user_row. destruct (users (score d) !! uin) as [u|] eqn:E; [|done]. intros [= <-].
  assert (H : users (score (set_row uin f d)) !! uin = Some (f u)).
  { change (alter f uin (users (score d)) !! uin = Some (f u)). by rewrite lookup_alter_eq, E. }
  rewrite H. by eexists.
Qed.

Lemma user_row_set_people m uin d w :
  user_row d uin = Some w -> exists w', user_row (set_people m d) uin = Some w' /\ w_user w' = w_user w.
Proof.
  unfold user_row. change (score (set_people m d)) with (score d).
  destruct (users (score d) !! uin) as [u|]; [|done]. intros [= <-]. by eexists.
Qed.

Lemma fresh_now now : presence_is_fresh now now = true.
Proof. unfold presence_is_fresh, PRESENCE_FRESHNESS_SECONDS, seconds, usec_per_sec. apply Z.ltb_lt. lia. Qed.

(** Right after a status was written, the directory says what is broadcast. *)
Lemma visible_shown now st u :
  st ∈ ["online"; "away"; "dnd"; "invisible"]%string ->
  visible_status now (with_last_seen now (with_status st u)) = shown st /\ shown st <> "invisible"%string.
Proof.
  intros Hst. unfold visible_status, effective_status. simpl. rewrite fresh_now. simpl.
  repeat (apply elem_of_cons in Hst as [->|Hst]; [done|]). by apply not_elem_of_nil in Hst.
Qed.

(** what a presence broadcast says is what the directory answers about the
    person at that instant; it never says "invisible"; and it goes to the people
    who have the person in their contacts or share a room with them, without
    those the person has blocked. *)
Theorem presence_frame_agrees (now uin : Z) (a : announcement) (d : sdb) (to : gset Z) (u : Z) (st : string)
    (msg : option string) :
  known_statuses d ->
  PresenceFrame to u st msg ∈ (announce_presence now uin a d).2 ->
  u = uin /\
  (exists w, user_row (announce_presence now uin a d).1 uin = Some w /\ st = visible_status now (w_user w)) /\
  st <> "invisible"%string /\
  forall v, v ∈ to <->
    let d' := (announce_presence now uin a d).1 in
    (is_Some (edges d' !! (v, uin)) \/
     (v <> uin /\ exists m m', m ∈ group_members (score d') /\ m' ∈ group_members (score d') /\
        gm_uin m = uin /\ gm_uin m' = v /\ gm_group_id m' = gm_group_id m)) /\
    edges d' !! (uin, v) <> Some true.
Proof.
  intros Hk. destruct a as [s m| |]; simpl.
  - unfold set_status. case_bool_decide as Hs; simpl; [|by intros ?%elem_of_nil].
    destruct (user_row d uin) as [w|] eqn:E; simpl; [|by intros ?%elem_of_nil].
    set (chosen := if String.eqb s "offline" then "invisible"%string else s).
    assert (Hc : chosen ∈ ["online"; "away"; "dnd"; "invisible"]%string).
    { unfold chosen. destruct (String.eqb_spec s "offline"); [set_solver|]. unfold VALID_STATUSES in Hs. set_solver. }
    intros [= -> -> -> ->]%list_elem_of_singleton. split; [done|].
    destruct (user_row_set_row uin (fun u => with_last_seen now (with_status chosen u)) d w E) as (w' & Hw' & Hu).
    destruct (visible_shown now chosen (w_user w) Hc) as [Hv Hi].
    split_and!; [|done|apply elem_of_presence_watchers].
    destruct (user_row_set_people (<[uin := with_message m (w_person w)]> (people d)) uin _ w' Hw') as (w2 & Hw2 & Hu2).
    exists w2. split; [exact Hw2|]. by rewrite Hu2, Hu, Hv.
  - unfold on_connect. destruct (user_row d uin) as [w|] eqn:E; simpl; [|by intros ?%elem_of_nil].
    set (st' := if String.eqb _ "offline" then _ else _).
    assert (Hc : st' ∈ ["online"; "away"; "dnd"; "invisible"]%string).
    { unfold user_row in E. destruct (users (score d) !! uin) as [row|] eqn:Er; [|done]. injection E as <-. simpl in *.
      specialize (Hk uin row Er). unfold st'. destruct (String.eqb_spec (status (profile row)) "offline"); [set_solver|].
      unfold VALID_STATUSES in Hk. set_solver. }
    case_cond; [|by intros ?%elem_of_nil]. intros [= -> -> -> ->]%list_elem_of_singleton. split; [done|].
    destruct (user_row_set_row uin (fun u => with_last_seen now (with_status st' u)) d w E) as (w' & Hw' & Hu).
    destruct (visible_shown now st' (w_user w) Hc) as [Hv Hi].
    split_and!; [|done|apply elem_of_presence_watchers]. exists w'. split; [done|]. by rewrite Hu, Hv.
  - unfold announce_offline. destruct (user_row d uin) as [w|] eqn:E; simpl; [|by intros ?%elem_of_nil].
    destruct (String.eqb_spec (visible_status now (w_user w)) "offline") as [Hv|]; [|by intros ?%elem_of_nil].
    intros [= -> -> -> ->]%list_elem_of_singleton. split_and!; [done| |done|apply elem_of_presence_watchers].
    exists w. by rewrite Hv.
Qed.

(** A lane: 5 is invisible and has blocked 7; 6 and 7 have 5 in their contacts. *)
Definition neighbour (st : string) (n : Z) : User :=
  mkUser 0 0 None [] false (mkProfile ("n" ++ pretty n) None false st None None "everyone" "contacts").
Definition lane : sdb :=
  mkSdb
    (mkAdb (mkRdb (mkKdb (set_users (fun _ => {[ 5 := neighbour "invisible" 5; 6 := neighbour "online" 6; 7 := neighbour "away" 7 ]})
                            empty_db) ∅ [] [] [] 1 1 1)
              {[ (6, 5) := false; (7, 5) := false; (5, 7) := true ]} 1)
       ∅ [] ∅ ∅ ∅ ∅ ∅ ∅)
    ∅ ∅ ∅ [] 1 ∅ [].

Lemma lane_known : known_statuses lane.
Proof.
  intros u row H.
  change (({[ 5 := neighbour "invisible" 5; 6 := neighbour "online" 6; 7 := neighbour "away" 7 ]} : gmap Z User) !! u = Some row) in H.
  repeat (apply lookup_insert_Some in H as [[_ <-]|[_ H]]; [unfold VALID_STATUSES; simpl; set_solver|]).
  apply lookup_singleton_Some in H as [_ <-]. unfold VALID_STATUSES. simpl. set_solver.
Qed.

Lemma presence_frame_agrees_witness :
  (exists w, user_row (announce_presence (hours 1) 5 Connected lane).1 5 = Some w /\ "offline"%string = visible_status (hours 1) (w_user w)).
Proof.
  destruct (presence_frame_agrees (hours 1) 5 Connected lane {[ 6 ]} 5 "offline" None lane_known) as (_ & H & _).
  - vm_compute. left.
  - exact H.
Defined.

(** Somebody invisible who connects after an absence is announced to the people
    who watch them at that moment, as "offline" and with their status message,
    which an announcement of a real departure never carries. *)
Theorem invisible_arrival_is_announced (now uin : Z) (d : sdb) (w : Row) :
  user_row d uin = Some w -> status (profile (w_user w)) = "invisible"%string ->
  presence_is_fresh now (last_seen (w_user w)) = false ->
  exists to, (announce_presence now uin Connected d).2 = [PresenceFrame to uin "offline" (status_message (w_person w))] /\
  forall d' to' u' st m, PresenceFrame to' u' st m ∈ (announce_presence now uin WentOffline d').2 -> m = None.
Proof.
  intros Hw Hs Hf. simpl. unfold on_connect. rewrite Hw, Hs, Hf. simpl. eexists. split; [done|].
  intros d' to' u' st m. unfold announce_offline. destruct (user_row d' uin); [|by intros ?%elem_of_nil].
  case_cond; [|by intros ?%elem_of_nil]. by intros [= -> -> -> ->]%list_elem_of_singleton.
Qed.

(** The task that a later disconnect cancelled, when it unwinds, takes the new
    task out of the books: a reconnect then cannot cancel it, and it runs a
    minute and a half after the second disconnect whatever happened since. *)
Example cancelled_task_orphans_the_next :
  let t0 := mkTimers ∅ ∅ ∅ 0 in
  let t := task_ends 0 (schedule_offline (seconds 10) 5 (schedule_offline 0 5 t0)) in
  let t := reconnected 5 t in
  pending_of t = ∅ /\ due (seconds 100) 1 t = true.
Proof. vm_compute. done. Qed.
