(* ===== verification/Calls.v ===== *)
(** * Call signalling

    Models, of [src/app/routers/ws.py], the 1:1 calls: the registry of calls in
    progress ([calls:active], with its two Lua scripts), the answered mark, the
    policy of the callee, and what the socket handler does with every call
    frame: who may send it, whom it is relayed to, what is pushed, and what the
    sender is told.

    A frame of a client is a JSON object; what a handler does is its answer (a
    raise ends the socket), the state it leaves, and what it sends, in order.
    Redis answers throughout: a failing command raises and ends the socket.
    The APNs and UnifiedPush senders are where [Voip] and [Unified] go. *)

From stdpp Require Import base list sorting gmap strings pretty.
From Stdlib Require Import ZArith Lia Ascii.
From S2P Require Import Prelude Text Storage Redis RateLimit GuestPolicy Bytes KeyStorage Sessions Voucher KeyProof Door Rooms Accounts Json Profiles Federation Users Sockets Presence.

Definition CALLS_KEY : string := "calls:active".
Definition ROOM_USER_PIN_KEY : string := "room:user_active".
Definition CALL_REGISTRATION_STALE_S : Z := 10 * 60.
Definition CALL_FRAME_MAX_AGE_S : Z := 6 * 3600.
Definition ANSWERED_KEY_PREFIX : string := "call:answered:".
Definition ANSWER_ICE_GRACE : Z := 600000.

Definition BAR : ascii := "|".

(** [int(time.time())] *)
Definition epoch_seconds (now : Z) : Z := now / usec_per_sec.

(** ** What Python makes of a client's values *)

(** [repr] of a string. *)
Definition repr_char (quote c : ascii) : string :=
  let n := nat_of_ascii c in
  if Ascii.eqb c quote || Ascii.eqb c "\" then String "\" (String c "")
  else if (n =? 9)%nat then "\t" else if (n =? 10)%nat then "\n" else if (n =? 13)%nat then "\r"
  else if (n <? 32)%nat || ((127 <=? n)%nat && (n <=? 160)%nat) || (n =? 173)%nat
  then ("\x" ++ hexdigest [Z.of_nat n])%string
  else String c "".
Fixpoint repr_chars (quote : ascii) (s : string) : string :=
  match s with EmptyString => "" | String c s => repr_char quote c ++ repr_chars quote s end.
Definition repr_str (s : string) : string :=
  let quote := if (0 <? count_char "'" s)%nat && (count_char DQ s =? 0)%nat then DQ else "'"%char in
  String quote (repr_chars quote s ++ String quote "").

Fixpoint py_repr (v : jv) : string :=
  match v with
  | JvNull => "None"
  | JvBool b => if b then "True" else "False"
  | JvInt z => pretty z
  | JvFloat _ r => r
  | JvStr s => repr_str s
  | JvList l => String "[" (join_with ", " (map py_repr l) ++ "]")
  | JvObj l => String "{" (join_with ", " (map (fun kv => (repr_str kv.1 ++ ": " ++ py_repr kv.2)%string) l) ++ "}")
  end.

(** [str(v)] *)
Definition py_str (v : jv) : string := match v with JvStr s => s | _ => py_repr v end.

(** [bool(v)] *)
Definition py_truth (v : jv) : bool :=
  match v with
  | JvNull => false
  | JvBool b => b
  | JvInt z => negb (z =? 0)
  | JvFloat i _ => negb (bool_decide (i = Some 0))
  | JvStr s => negb (String.eqb s "")
  | JvList l => negb (Nat.eqb (length l) 0)
  | JvObj l => negb (Nat.eqb (length l) 0)
  end.

(** [int(v)]: a float that is no integer is cut; one written with an exponent
    is then smaller than one. *)
Definition int_of_jv (v : jv) : outcome Z :=
  match v with
  | JvInt z => Ok z
  | JvBool b => Ok (if b then 1 else 0)
  | JvFloat (Some z) _ => Ok z
  | JvFloat None r =>
      match split_char "." r with
      | Some (a, b) => if (0 <? count_char "e" b)%nat then Ok 0 else Ok (default 0 (int_of_string a))
      | None => if (0 <? count_char "e" r)%nat then Ok 0 else Raise (OverflowError "cannot convert float to integer")
      end
  | JvStr s => match int_of_string s with Some z => Ok z | None => Raise (ValueError "invalid literal for int()") end
  | _ => Raise (TypeError "int() argument")
  end.

(** [msg.get(k, d)] *)
Definition field (k : string) (d : jv) (msg : list (string * jv)) : jv := default d (jraw k msg).

(** ** What a handler sends *)

Inductive out :=
  | Send (to : Z) (frame : jv) (except_device : option string)
  | Cast (to : list Z) (frame : jv)
  | Voip (to : Z) (payload : jv) (except_device : option string)
  | Unified (to : Z) (payload : jv) (skip : list string)
  | Sleep (usec : Z).

(** ** The registry *)

Section registry.
Context {R : Type} `{RR : Redis R}.

(** The timestamp of an entry of the shape [call_id|peer|ts], as the script's
    pattern [^[^|]*|%d+|(%d+)$] finds it. *)
Definition digits (s : string) : option Z :=
  if String.eqb s "" then None else option_map Z.of_N (read_digits 0 s).
Definition entry_ts (entry : string) : option Z :=
  match split_all BAR entry with
  | [_; p; t] => match digits p with Some _ => digits t | None => None end
  | _ => None
  end.

Definition free_if_stale (now : Z) (uin : string) (r : R) : R :=
  match hget now CALLS_KEY uin r with
  | None => r
  | Some entry =>
      match entry_ts entry with
      | Some ts => if CALL_REGISTRATION_STALE_S <? epoch_seconds now - ts then hdel now CALLS_KEY uin r else r
      | None => hdel now CALLS_KEY uin r
      end
  end.

Definition hexists (now : Z) (k f : string) (r : R) : bool := bool_decide (is_Some (hget now k f r)).

(** [_REGISTER_CALL_LUA] *)
Definition register_call_lua (now : Z) (a b payload_a payload_b : string) (r : R) : bool * R :=
  let r := free_if_stale now b (free_if_stale now a r) in
  if hexists now CALLS_KEY a r then (false, r)
  else if hexists now CALLS_KEY b r then (false, r)
  else if hexists now ROOM_USER_PIN_KEY a r then (false, r)
  else if hexists now ROOM_USER_PIN_KEY b r then (false, r)
  else (true, hset now CALLS_KEY b payload_b (hset now CALLS_KEY a payload_a r)).

Definition call_payload (call_id : string) (peer now : Z) : string :=
  (call_id ++ String BAR (pretty peer ++ String BAR (pretty (epoch_seconds now))))%string.

Definition register_call (now : Z) (call_id : string) (a b : Z) (r : R) : bool * R :=
  register_call_lua now (pretty a) (pretty b) (call_payload call_id b now) (call_payload call_id a now) r.

(** [_CLEAR_CALL_LUA]: an entry goes if what stands before its first bar is the
    call. *)
Definition clear_one (now : Z) (call_id uin : string) (r : R) : R :=
  match hget now CALLS_KEY uin r with
  | None => r
  | Some current =>
      match split_char BAR current with
      | Some (cid, _) => if String.eqb cid call_id then hdel now CALLS_KEY uin r else r
      | None => r
      end
  end.
Definition clear_call (now : Z) (call_id : string) (uins : list Z) (r : R) : R :=
  foldl (fun r u => clear_one now call_id (pretty u) r) r uins.

(** [_call_entry_is_live] *)
Definition call_entry_is_live (now : Z) (entry : option string) : outcome bool :=
  match truthy entry with
  | None => Ok false
  | Some e =>
      match split_all BAR e with
      | _ :: _ :: ts :: _ =>
          if isdigit ts then
            let! n := py_int ts in Ok (epoch_seconds now - n <=? CALL_REGISTRATION_STALE_S)
          else Ok false
      | _ => Ok false
      end
  end.

Definition is_busy (now uin : Z) (r : R) : outcome bool :=
  let! live := call_entry_is_live now (hget now CALLS_KEY (pretty uin) r) in
  Ok (live || hexists now ROOM_USER_PIN_KEY (pretty uin) r).

(** Does the entry of one side name the other, is it young enough, is it this
    call? *)
Definition entry_joins (now : Z) (entry : option string) (peer : Z) (call_id : string) : outcome bool :=
  match truthy entry with
  | None => Ok false
  | Some e =>
      match split_all BAR e with
      | cid :: p :: rest =>
          if negb (String.eqb p (pretty peer)) then Ok false
          else
            let! old := match rest with
                        | ts :: _ => if isdigit ts
                                     then let! n := py_int ts in Ok (CALL_FRAME_MAX_AGE_S <? epoch_seconds now - n)
                                     else Ok false
                        | [] => Ok false
                        end in
            Ok (negb old && (String.eqb call_id "" || String.eqb cid call_id))
      | _ => Ok false
      end
  end.

Definition call_pair_live (now a b : Z) (call_id : string) (r : R) : outcome bool :=
  let! x := entry_joins now (hget now CALLS_KEY (pretty a) r) b call_id in
  if x : bool then Ok true else entry_joins now (hget now CALLS_KEY (pretty b) r) a call_id.

(** ** The answered mark *)

Definition answered_key (call_id : string) : string := (ANSWERED_KEY_PREFIX ++ call_id)%string.

Definition set_answered_mark (now : Z) (call_id : string) (uin : Z) (device_id : string) (r : R) : R :=
  rset now (answered_key call_id) (pretty uin ++ String BAR device_id)%string (Some CALL_REGISTRATION_STALE_S) r.

Definition answered_mark (now : Z) (call_id : string) (r : R) : option (Z * string) :=
  match rget now (answered_key call_id) r with
  | None => None
  | Some text =>
      let '(head, dev) := match split_char BAR text with Some p => p | None => (text, ""%string) end in
      option_map (fun u => (u, dev)) (int_of_string head)
  end.

Definition clear_answered_mark (now : Z) (call_id : string) (r : R) : R := del now (answered_key call_id) r.

(** ** Who may ring whom *)

(** What answers at this moment: the guest mirror, and whether neither it nor
    the table can be asked; [mono]: the worker's monotonic clock. *)
Record cenv := mkCenv {
  ce_now : Z;
  ce_mono : Z;
  ce_up_guest : bool;
  ce_dead : bool;
  ce_scratch : string;
  ce_worker : worker
}.

Definition guest_pair (e : cenv) (d : sdb) (a b : Z) (r : R) : bool * R :=
  if ce_dead e then (true, r)
  else
    let '(g, r) := is_guest (ce_up_guest e) (ce_now e) (ce_scratch e) (score d) a r in
    if g : bool then (true, r) else is_guest (ce_up_guest e) (ce_now e) (ce_scratch e) (score d) b r.

Definition policy_of (d : sdb) (uin : Z) : string :=
  match user_row d uin with Some w => or_else (call_policy (w_person w)) "everyone" | None => "everyone" end.

(** The row of [users] and the callee's contact list. *)
Definition policy_allows (d : sdb) (caller callee : Z) : bool :=
  if String.eqb (policy_of d callee) "everyone" then true
  else if String.eqb (policy_of d callee) "nobody" then false
  else is_contact_of d callee caller.

Definition caller_allowed (e : cenv) (d : sdb) (caller callee : Z) (r : R) : bool * R :=
  let '(g, r) := guest_pair e d caller callee r in
  if g : bool then (false, r) else (policy_allows d caller callee, r).
End registry.

(** ** The frames *)

(** Redis, and the per-worker record of who answered when. *)
Record cstate (R : Type) := mkCstate { c_redis : R; answered_at : gmap string (Z * Z) }.
Arguments mkCstate {R} _ _.
Arguments c_redis {R} _.
Arguments answered_at {R} _.

Definition CALL_KINDS : list string :=
  ["call_offer"; "call_answer"; "call_ice"; "call_end"; "call_renegotiate"; "call_renegotiate_answer";
   "call_renegotiate_decline"; "call_ice_restart"; "call_ice_restart_answer"]%string.

(** Reasons that only a device which never had the call gives. *)
Definition RING_REASONS : list string := ["no_answer"; "declined"; "expired"]%string.

Definition relay_frame (kind : string) (uin : Z) (keys : list string) (extra msg : list (string * jv)) : jv :=
  JvObj ([("type"%string, JvStr kind)] ++ extra ++ [("from_uin"%string, JvInt uin)]
         ++ omap (fun k => option_map (pair k) (jraw k msg)) keys).

Definition call_end_frame (from : Z) (call_id reason : string) : jv :=
  JvObj [("type", JvStr "call_end"); ("from_uin", JvInt from); ("call_id", JvStr call_id); ("reason", JvStr reason)]%string.
Definition call_note (kind : string) (from : Z) (call_id : string) : jv :=
  JvObj [("type", JvStr kind); ("from_uin", JvInt from); ("call_id", JvStr call_id)]%string.
Definition end_payload (call_id : string) (from : Z) (reason : jv) : jv :=
  JvObj [("call_id", JvStr call_id); ("from_uin", JvInt from); ("kind", JvStr "end"); ("reason", reason)]%string.
Definition offer_payload (call_id : string) (from : Z) (msg : list (string * jv)) : jv :=
  JvObj [("call_id", JvStr call_id); ("from_uin", JvInt from); ("media", field "media" (JvStr "video") msg);
         ("sdp", field "sdp" (JvStr "") msg)]%string.

(** How long the answerer's candidates are still held back, and the record. *)
Definition answer_grace (mono : Z) (call_id : string) (uin : Z) (m : gmap string (Z * Z)) : list out * gmap string (Z * Z) :=
  match m !! call_id with
  | Some (who, at_) =>
      if negb (who =? uin) then ([], m)
      else if ANSWER_ICE_GRACE <=? mono - at_ then ([], delete call_id m)
      else ([Sleep (ANSWER_ICE_GRACE - (mono - at_))], m)
  | None => ([], m)
  end.

Section frames.
Context {R : Type} `{RR : Redis R} (bucket : string -> string).

Notation S := (cstate R).

(** The account is in the online set when the frame is published. *)
Definition delivered_to (now uin : Z) (r : R) : bool := sismember now ONLINE_KEY (str_uin uin) r.

(** [delivered] of an offer or an answer is doubted: is any device there? *)
Definition doubt (e : cenv) (kind : string) (target : Z) (r : R) : bool * R :=
  if delivered_to (ce_now e) target r then
    if String.eqb kind "call_offer" || String.eqb kind "call_answer" then
      let res := online_devices bucket true (ce_now e) target (ce_worker e) r in
      (negb (bool_decide (answer res = ∅)), redis_after res)
    else (true, r)
  else (false, r).

(** What follows when the frame found nobody: pushes, and what the sender is
    told. *)
Definition when_missed (kind : string) (uin target : Z) (call_id : string) (msg : list (string * jv)) (d : sdb) : list out :=
  if String.eqb kind "call_offer" then
    [Voip target (offer_payload call_id uin msg) None; Unified target (offer_payload call_id uin msg) [];
     Send uin (call_note (if existsb (fun t => dt_uin t =? target) (device_tokens (score d))
                          then "call_offline" else "call_unreachable") target call_id) None]
  else if String.eqb kind "call_answer" then [Send uin (call_end_frame target call_id "caller_gone") None]
  else if String.eqb kind "call_end" then
    let p := end_payload call_id uin (field "reason" (JvStr "remote_ended") msg) in
    [Voip target p None; Unified target p []]
  else [].

(** Everything after the gates: the relay and what follows from it. *)
Definition relay_call (e : cenv) (kind : string) (uin target : Z) (call_id : string) (msg : list (string * jv))
    (device_id : string) (d : sdb) (s : S) : S * list out :=
  let now := ce_now e in
  let relay := relay_frame kind uin ["call_id"; "sdp"; "candidate"; "media"; "reason"]%string [] msg in
  let '(wait, answered) := if String.eqb kind "call_ice" then answer_grace (ce_mono e) call_id uin (answered_at s)
                           else ([], answered_at s) in
  let r := c_redis s in
  let ring_reason := String.eqb kind "call_end"
                     && bool_decide (py_str (field "reason" (JvStr "") msg) ∈ RING_REASONS) in
  if ring_reason && match answered_mark now call_id r with Some (u, _) => u =? uin | None => false end
  then (mkCstate r answered, wait)
  else
    let '(delivered, r) := doubt e kind target r in
    let '(answered, r, unring) :=
      if String.eqb kind "call_answer" then
        (<[call_id := (uin, ce_mono e)]> answered, set_answered_mark now call_id uin device_id r,
         [Send uin (call_end_frame target call_id "answered_elsewhere") (Some device_id);
          Voip uin (end_payload call_id target (JvStr "answered_elsewhere")) (Some device_id);
          Unified uin (end_payload call_id target (JvStr "answered_elsewhere")) [device_id]])
      else (answered, r, []) in
    let '(answered, r) :=
      if String.eqb kind "call_end"
      then (delete call_id answered, clear_call now call_id [uin; target] (clear_answered_mark now call_id r))
      else (answered, r) in
    let missed := if delivered then [] else when_missed kind uin target call_id msg d in
    (mkCstate r answered, wait ++ [Send target relay None] ++ unring ++ missed).

(** A call frame, from the moment its kind is known. *)
Definition call_frame (e : cenv) (kind : string) (uin : Z) (msg : list (string * jv)) (device_id : string)
    (d : sdb) (s : S) : outcome unit * S * list out :=
  match int_of_jv (field "to_uin" (JvInt 0) msg) with
  | Raise x => (Raise x, s, [])
  | Ok target =>
      if target =? 0 then (Ok tt, s, [])
      else
        let call_id := py_str (field "call_id" (JvStr "") msg) in
        let set r := mkCstate r (answered_at s) in
        if String.eqb kind "call_offer" then
          let '(allowed, r) := caller_allowed e d uin target (c_redis s) in
          if negb allowed then (Ok tt, set r, [Send uin (call_end_frame target call_id "unavailable") None])
          else
            let '(registered, r) := register_call (ce_now e) call_id uin target r in
            if negb registered then (Ok tt, set r, [Send uin (call_end_frame target call_id "busy") None])
            else
              let '(s, fx) := relay_call e kind uin target call_id msg device_id d (set r) in (Ok tt, s, fx)
        else
          let '(g, r) := guest_pair e d uin target (c_redis s) in
          if g : bool then (Ok tt, set r, [])
          else match call_pair_live (ce_now e) uin target call_id r with
               | Raise x => (Raise x, set r, [])
               | Ok false => (Ok tt, set r, [])
               | Ok true =>
                   let '(s, fx) := relay_call e kind uin target call_id msg device_id d (set r) in (Ok tt, s, fx)
               end
  end.

(** A typing note. *)
Definition typing_frame (e : cenv) (uin : Z) (msg : list (string * jv)) (d : sdb) (s : S) : outcome unit * S * list out :=
  match int_of_jv (field "to_uin" (JvInt 0) msg) with
  | Raise x => (Raise x, s, [])
  | Ok target =>
      if target =? 0 then (Ok tt, s, [])
      else
        let '(g, r) := guest_pair e d uin target (c_redis s) in
        (Ok tt, mkCstate r (answered_at s),
         if g : bool then []
         else [Send target (JvObj [("type", JvStr "typing"); ("from_uin", JvInt uin);
                                   ("active", JvBool (py_truth (field "active" (JvBool true) msg)))]%string) None])
  end.

(** The calls of an account that stayed away: [_debounced_offline]. *)
Definition hang_up_absent (now uin : Z) (r : R) : R * list out :=
  match hget now CALLS_KEY (pretty uin) r with
  | None => (r, [])
  | Some entry =>
      let '(call_id, peer) :=
        match split_all BAR entry with
        | cid :: p :: _ => match int_of_string p with Some u => (cid, u) | None => (""%string, 0) end
        | _ => (""%string, 0)
        end in
      if String.eqb call_id "" then (r, [])
      else (clear_call now call_id [uin; peer] r, [Send peer (call_end_frame uin call_id "peer_disconnected") None])
  end.
End frames.
