(* ===== verification/CallsFacts.v ===== *)
(** * Facts about calls

    The registry of calls as a map of its two scripts; a relayed call frame goes
    back to an offer the callee's policy let through; what an answered call is
    protected from; and where the registry can be fooled. *)

From stdpp Require Import base list sorting gmap strings pretty.
From Stdlib Require Import ZArith Lia Ascii.
From S2P Require Import Prelude Text Storage Redis RateLimit GuestPolicy Bytes KeyStorage Sessions Voucher KeyProof Door Rooms Accounts Json Profiles Federation Users Sockets Presence Calls.

(** ** Entries as texts *)

Definition no_bar (s : string) : Prop := count_char BAR s = 0%nat.

Lemma split_all_bar a b : no_bar a -> split_all BAR (a ++ String BAR b) = a :: split_all BAR b.
Proof.
  unfold no_bar. induction a as [|c a IH]; simpl; [done|].
  destruct (Ascii.eqb c BAR) eqn:E; [done|]. intros Ha. by rewrite IH.
Qed.

Lemma split_all_no_bar a : no_bar a -> split_all BAR a = [a].
Proof.
  unfold no_bar. induction a as [|c a IH]; simpl; [done|].
  destruct (Ascii.eqb c BAR) eqn:E; [done|]. intros Ha. by rewrite IH.
Qed.

Lemma int_chars_no_bar s : all_chars int_char s = true -> no_bar s.
Proof.
  unfold no_bar. induction s as [|c s IH]; simpl; [done|]. intros [Hc Hs]%andb_prop.
  destruct (Ascii.eqb_spec c BAR) as [->|]; [by vm_compute in Hc|]. by apply IH.
Qed.

Lemma pretty_no_bar (z : Z) : no_bar (pretty z).
Proof. apply int_chars_no_bar, pretty_chars. Qed.

Lemma split_payload cid peer now :
  no_bar cid -> split_all BAR (call_payload cid peer now) = [cid; pretty peer; pretty (epoch_seconds now)].
Proof.
  intros H. unfold call_payload. rewrite split_all_bar by done. rewrite split_all_bar by apply pretty_no_bar.
  by rewrite split_all_no_bar by apply pretty_no_bar.
Qed.

Lemma payload_nonempty cid peer now : truthy (Some (call_payload cid peer now)) = Some (call_payload cid peer now).
Proof. unfold truthy, call_payload. by destruct cid. Qed.

Lemma pretty_nonneg_digits (n : Z) : 0 <= n -> read_digits 0 (pretty n) = Some (Z.to_N n) /\ pretty n <> ""%string.
Proof.
  intros Hn. assert (H : pretty n = pretty (Z.to_N n)). { destruct n as [|p|p]; [done|done|lia]. }
  rewrite H. split; [apply read_pretty_N|]. destruct (pretty_N_head (Z.to_N n)) as (c & s & E & _). by rewrite E.
Qed.

Lemma read_digits_isdigit s : forall acc n, read_digits acc s = Some n -> s <> ""%string -> isdigit s = true.
Proof.
  assert (H : forall s acc n, read_digits acc s = Some n -> forallb is_digit (String.list_ascii_of_string s) = true).
  { clear. induction s as [|c s IH]; intros acc n; simpl; [done|]. destruct (digit_value c) as [v|] eqn:E; [|done].
    intros Hr. rewrite (IH _ _ Hr), andb_true_r. unfold digit_value in E. unfold is_digit, nat_of_ascii.
    destruct ((48 <=? N_of_ascii c)%N && (N_of_ascii c <=? 57)%N) eqn:E2; [|done].
    apply andb_prop in E2 as [H1%N.leb_le H2%N.leb_le].
    destruct (48 <=? Z.of_nat (N.to_nat (N_of_ascii c))) eqn:E3; breflect; [|lia].
    destruct (Z.of_nat (N.to_nat (N_of_ascii c)) <=? 57) eqn:E4; breflect; [done|lia]. }
  intros acc n Hr Hne. unfold isdigit. rewrite (H _ _ _ Hr).
  destruct (String.eqb_spec s ""); done.
Qed.

(** A written instant reads back: it has no more than 4300 digits. *)
Definition writable (now : Z) : Prop := 0 <= now /\ (String.length (pretty (epoch_seconds now)) <= 4300)%nat.

Lemma epoch_nonneg now : 0 <= now -> 0 <= epoch_seconds now.
Proof. intros. apply Z.div_pos; [done|]. unfold usec_per_sec. lia. Qed.

Lemma isdigit_instant now : writable now ->
  isdigit (pretty (epoch_seconds now)) = true /\ py_int (pretty (epoch_seconds now)) = Ok (epoch_seconds now).
Proof.
  intros [Hn Hl]. destruct (pretty_nonneg_digits (epoch_seconds now) (epoch_nonneg now Hn)) as [Hr Hne]. split.
  - by eapply read_digits_isdigit.
  - unfold py_int. destruct (4300 <? _)%nat eqn:E; breflect; [lia|]. rewrite Hr. f_equal. apply Z2N.id, epoch_nonneg, Hn.
Qed.

(** What an entry the server wrote says about a pair and a call. *)
Lemma entry_joins_payload now t0 cid who peer call_id :
  no_bar cid -> writable t0 ->
  entry_joins now (Some (call_payload cid who t0)) peer call_id =
  Ok (bool_decide (peer = who) && negb (CALL_FRAME_MAX_AGE_S <? epoch_seconds now - epoch_seconds t0)
      && (String.eqb call_id "" || String.eqb cid call_id)).
Proof.
  intros Hc Ht. unfold entry_joins. rewrite payload_nonempty, split_payload by done.
  destruct (isdigit_instant t0 Ht) as [Hd Hi]. destruct (decide (peer = who)) as [->|Hne].
  - rewrite String.eqb_refl, bool_decide_true by done. simpl. by rewrite Hd, Hi.
  - rewrite bool_decide_false by done. destruct (String.eqb_spec (pretty who) (pretty peer)) as [E|]; [|done].
    apply (inj pretty) in E. congruence.
Qed.

(** ** The registry as a map *)

Section registry_facts.
Context {R : Type} `{RR : Redis R} {HR : RedisLaws R}.

(** The hash of calls at an instant, and the mark that the guest mirror has been
    built; neither expires. *)
Record registry (t : Z) (r : R) (h : gmap string string) : Prop := {
  reg_hash : as_hash (peek t CALLS_KEY r) = Some h;
  reg_keeps : expiry (peek t CALLS_KEY r) = None;
  reg_built : exists v, peek t GUEST_BUILT_KEY r = Some (v, None)
}.

Lemma registry_later t t' r h : t <= t' -> registry t r h -> registry t' r h.
Proof using HR.
  intros Ht [Hh Hx [v Hb]]. split.
  - rewrite (peek_later t t') by done. by destruct (peek t CALLS_KEY r) as [[? [?|]]|].
  - rewrite (peek_later t t') by done. by destruct (peek t CALLS_KEY r) as [[? [?|]]|].
  - exists v. by rewrite (peek_later t t'), Hb by done.
Qed.

(** The two keys are as they were. *)
Definition untouched (t : Z) (r r' : R) : Prop :=
  peek t CALLS_KEY r' = peek t CALLS_KEY r /\ peek t GUEST_BUILT_KEY r' = peek t GUEST_BUILT_KEY r.

Lemma untouched_refl t r : untouched t r r.
Proof. done. Qed.
Lemma untouched_trans t r1 r2 r3 : untouched t r1 r2 -> untouched t r2 r3 -> untouched t r1 r3.
Proof. intros [? ?] [? ?]; split; congruence. Qed.

Lemma touches_untouched t k e r r' :
  touches t k e r r' -> k <> CALLS_KEY -> k <> GUEST_BUILT_KEY -> untouched t r r'.
Proof. intros Ht H1 H2. split; apply (touches_other _ _ _ _ _ _ Ht); auto. Qed.

Lemma registry_untouched t r r' h : untouched t r r' -> registry t r h -> registry t r' h.
Proof. intros [H1 H2] [Hh Hx Hb]. split; by rewrite ?H1, ?H2. Qed.

Lemma registry_hset t r h f v : registry t r h -> registry t (hset t CALLS_KEY f v r) (<[f := v]> h).
Proof using HR.
  intros [Hh Hx Hb]. pose proof (hset_spec t CALLS_KEY f v r h Hh) as Ht. split.
  - by rewrite (touches_same _ _ _ _ _ Ht).
  - by rewrite (touches_same _ _ _ _ _ Ht).
  - by rewrite (touches_other _ _ _ _ _ _ Ht).
Qed.

Lemma registry_hdel t r h f : registry t r h -> registry t (hdel t CALLS_KEY f r) (delete f h).
Proof using HR.
  intros [Hh Hx Hb]. pose proof (hdel_spec t CALLS_KEY f r h Hh) as Ht. split.
  - rewrite (touches_same _ _ _ _ _ Ht). apply as_hash_entry.
  - rewrite (touches_same _ _ _ _ _ Ht), Hx. unfold hash_entry. by destruct (decide _).
  - by rewrite (touches_other _ _ _ _ _ _ Ht).
Qed.

Lemma registry_hget t r h f : registry t r h -> hget t CALLS_KEY f r = h !! f.
Proof using HR. intros [Hh _ _]. by apply hget_spec. Qed.

(** The scripts on the map. *)
Definition entry_stale (now : Z) (entry : string) : bool :=
  match entry_ts entry with Some ts => CALL_REGISTRATION_STALE_S <? epoch_seconds now - ts | None => true end.
Definition map_free (now : Z) (f : string) (h : gmap string string) : gmap string string :=
  match h !! f with Some e => if entry_stale now e then delete f h else h | None => h end.
Definition map_clear (call_id f : string) (h : gmap string string) : gmap string string :=
  match h !! f with
  | Some e => match split_char BAR e with
              | Some (cid, _) => if String.eqb cid call_id then delete f h else h
              | None => h end
  | None => h
  end.

Lemma registry_free t r h f : registry t r h -> registry t (free_if_stale t f r) (map_free t f h).
Proof using HR.
  intros Hr. unfold free_if_stale, map_free, entry_stale. rewrite (registry_hget _ _ _ _ Hr).
  destruct (h !! f) as [e|]; [|done]. destruct (entry_ts e) as [ts|]; [case_cond; [|done]|]; by apply registry_hdel.
Qed.

Lemma registry_clear t r h cid (us : list Z) :
  registry t r h -> registry t (clear_call t cid us r) (foldl (fun h u => map_clear cid (pretty u) h) h us).
Proof using HR.
  revert r h. induction us as [|u us IH]; intros r h Hr; simpl; [done|]. apply IH.
  unfold clear_one, map_clear. rewrite (registry_hget _ _ _ _ Hr).
  destruct (h !! pretty u) as [e|]; [|done]. destruct (split_char BAR e) as [[c ?]|]; [|done].
  case_cond; [by apply registry_hdel|done].
Qed.

Lemma map_free_sub now f h : map_free now f h ⊆ h.
Proof. unfold map_free. destruct (h !! f); [case_cond|]; try done. apply delete_subseteq. Qed.
Lemma map_clear_sub cid (us : list Z) h : foldl (fun h u => map_clear cid (pretty u) h) h us ⊆ h.
Proof.
  revert h. induction us as [|u us IH]; intros h; simpl; [done|]. etrans; [apply IH|].
  unfold map_clear. destruct (h !! pretty u) as [e|]; [|done]. destruct (split_char BAR e) as [[c ?]|]; [|done].
  case_cond; [apply delete_subseteq|done].
Qed.

(** What a registration does. *)
Lemma registry_register t r h cid a b :
  registry t r h ->
  let h' := map_free t (pretty b) (map_free t (pretty a) h) in
  let '(ok, r') := register_call t cid a b r in
  if ok then
    h' !! pretty a = None /\ h' !! pretty b = None /\
    registry t r' (<[pretty b := call_payload cid a t]> (<[pretty a := call_payload cid b t]> h'))
  else registry t r' h'.
Proof using HR.
  intros Hr. simpl. unfold register_call, register_call_lua.
  pose proof (registry_free _ _ _ (pretty b) (registry_free _ _ _ (pretty a) Hr)) as Hf.
  set (r1 := free_if_stale t (pretty b) _) in *. set (h1 := map_free t (pretty b) _) in *.
  unfold hexists. rewrite !(registry_hget _ _ _ _ Hf).
  destruct (h1 !! pretty a) eqn:Ea; simpl; [done|]. destruct (h1 !! pretty b) eqn:Eb; simpl; [done|].
  destruct (bool_decide (is_Some (hget t ROOM_USER_PIN_KEY (pretty a) r1))); [done|].
  destruct (bool_decide (is_Some (hget t ROOM_USER_PIN_KEY (pretty b) r1))); [done|].
  split; [done|]. split; [done|]. by apply registry_hset, registry_hset.
Qed.

(** ** The gates and the relay leave the rest alone *)

Lemma guest_pair_same e d a b r h :
  registry (ce_now e) r h -> (guest_pair e d a b r).2 = r.
Proof.
  intros [_ _ [v Hb]]. unfold guest_pair. destruct (ce_dead e); [done|].
  assert (H : forall u, (is_guest (ce_up_guest e) (ce_now e) (ce_scratch e) (score d) u r).2 = r).
  { intros u. unfold is_guest, GuestPolicy.ensure, present. rewrite Hb. destruct (ce_up_guest e); [|done]. simpl. by case_cond. }
  pose proof (H a) as Ha. destruct (is_guest _ _ _ _ a r) as [[] r1]; simpl in *; subst; [done|]. apply H.
Qed.

Lemma caller_allowed_spec e d a b r h :
  registry (ce_now e) r h ->
  (caller_allowed e d a b r).2 = r /\ ((caller_allowed e d a b r).1 = true -> policy_allows d a b = true).
Proof.
  intros Hr. unfold caller_allowed. pose proof (guest_pair_same e d a b r h Hr) as Hg.
  destruct (guest_pair e d a b r) as [[] r1]; simpl in *; by subst.
Qed.

Context (bucket : string -> string).

Lemma doubt_untouched e kind target r : untouched (ce_now e) r (doubt bucket e kind target r).2.
Proof using HR.
  unfold doubt. case_cond; [|done]. case_cond; [|done]. simpl.
  destruct (smembers _ _ r); [done|].
  apply (touches_untouched _ _ _ _ _ (expire_spec _ _ _ _)); unfold online_devs_key, account_key; simpl; done.
Qed.

Lemma clear_mark_untouched t cid r : untouched t r (clear_answered_mark t cid r).
Proof using HR. by apply (touches_untouched _ (answered_key cid) None _ _ (del_spec _ _ _)). Qed.

Lemma relay_registry e kind uin target cid msg dev d s h :
  registry (ce_now e) (c_redis s) h ->
  exists h', h' ⊆ h /\ registry (ce_now e) (c_redis (relay_call bucket e kind uin target cid msg dev d s).1) h'.
Proof using HR.
  intros Hr. unfold relay_call.
  destruct (if String.eqb kind "call_ice" then _ else _) as [wait answered]. case_cond; [by exists h|].
  pose proof (registry_untouched _ _ _ _ (doubt_untouched e kind target (c_redis s)) Hr) as H1.
  destruct (doubt bucket e kind target (c_redis s)) as [dl r1]. simpl in H1.
  destruct (String.eqb kind "call_answer").
  - assert (H2 : registry (ce_now e) (set_answered_mark (ce_now e) cid uin dev r1) h).
    { apply (registry_untouched _ r1); [|done]. by apply (touches_untouched _ _ _ _ _ (rset_spec _ _ _ _ _)). }
    destruct (String.eqb kind "call_end"); simpl; [|by exists h].
    eexists. split; [apply (map_clear_sub cid [uin; target])|].
    apply (registry_clear _ (clear_answered_mark (ce_now e) cid _) h cid [uin; target]).
    exact (registry_untouched _ _ _ _ (clear_mark_untouched _ _ _) H2).
  - destruct (String.eqb kind "call_end"); simpl; [|by exists h].
    eexists. split; [apply (map_clear_sub cid [uin; target])|].
    apply (registry_clear _ (clear_answered_mark (ce_now e) cid _) h cid [uin; target]).
    exact (registry_untouched _ _ _ _ (clear_mark_untouched _ _ _) H1).
Qed.

(** ** A relayed frame goes back to an accepted offer *)

(** An offer that passed the callee's policy, as it stood then, and was
    registered. *)
Record offer := mkOffer { of_at : Z; of_caller : Z; of_callee : Z; of_call : string; of_db : sdb }.

Definition frame_call (msg : list (string * jv)) : string := py_str (field "call_id" (JvStr "") msg).

Definition accepted_offer (e : cenv) (kind : string) (uin : Z) (msg : list (string * jv)) (d : sdb) (s : cstate R)
    : list offer :=
  match int_of_jv (field "to_uin" (JvInt 0) msg) with
  | Ok target =>
      if negb (target =? 0) && String.eqb kind "call_offer" && (caller_allowed e d uin target (c_redis s)).1
         && (register_call (ce_now e) (frame_call msg) uin target (caller_allowed e d uin target (c_redis s)).2).1
      then [mkOffer (ce_now e) uin target (frame_call msg) d] else []
  | Raise _ => []
  end.

(** States the sockets of the cluster lead to, with the offers accepted on the
    way: frames of any client, accounts declared absent, and whatever else uses
    Redis. *)
Inductive reach : Z -> cstate R -> list offer -> Prop :=
  | reach_start t s : registry t (c_redis s) ∅ -> reach t s []
  | reach_frame t s hist e kind uin msg dev d :
      reach t s hist -> t <= ce_now e -> writable (ce_now e) ->
      (kind = "call_offer"%string -> no_bar (frame_call msg)) ->
      reach (ce_now e) (call_frame bucket e kind uin msg dev d s).1.2 (accepted_offer e kind uin msg d s ++ hist)
  | reach_absent t s hist now uin :
      reach t s hist -> t <= now ->
      reach now (mkCstate (hang_up_absent now uin (c_redis s)).1 (answered_at s)) hist
  | reach_elsewhere t s hist now r' :
      reach t s hist -> t <= now -> untouched now (c_redis s) r' ->
      reach now (mkCstate r' (answered_at s)) hist.

(** Every entry of the registry was written for an accepted offer. *)
Definition vouched (hist : list offer) (h : gmap string string) : Prop :=
  forall f e, h !! f = Some e -> exists o, o ∈ hist /\
    ((f = pretty (of_caller o) /\ e = call_payload (of_call o) (of_callee o) (of_at o)) \/
     (f = pretty (of_callee o) /\ e = call_payload (of_call o) (of_caller o) (of_at o))).

Definition fine (o : offer) : Prop :=
  no_bar (of_call o) /\ writable (of_at o) /\ policy_allows (of_db o) (of_caller o) (of_callee o) = true.

Lemma vouched_sub hist h h' : h' ⊆ h -> vouched hist h -> vouched hist h'.
Proof. intros Hs Hv f e He. apply Hv. by eapply lookup_weaken. Qed.

Lemma vouched_more hist hist' h : vouched hist h -> vouched (hist' ++ hist) h.
Proof. intros Hv f e He. destruct (Hv f e He) as (o & Ho & Hx). exists o. split; [apply elem_of_app; by right|done]. Qed.

Lemma frame_vouched e kind uin msg dev d s hist h :
  registry (ce_now e) (c_redis s) h -> vouched hist h -> Forall fine hist -> writable (ce_now e) ->
  (kind = "call_offer"%string -> no_bar (frame_call msg)) ->
  exists h', registry (ce_now e) (c_redis (call_frame bucket e kind uin msg dev d s).1.2) h' /\
    vouched (accepted_offer e kind uin msg d s ++ hist) h' /\ Forall fine (accepted_offer e kind uin msg d s ++ hist).
Proof using HR.
  intros Hr Hv Hf Hw Hb. unfold call_frame, accepted_offer, frame_call in *.
  destruct (int_of_jv _) as [target|x]; [|by exists h]. destruct (target =? 0); simpl; [by exists h|].
  set (cid := py_str (field "call_id" (JvStr "") msg)) in *.
  destruct (String.eqb_spec kind "call_offer") as [->|Hk]; simpl.
  - destruct (caller_allowed_spec e d uin target (c_redis s) h Hr) as [E Ha].
    destruct (caller_allowed e d uin target (c_redis s)) as [al r1]; simpl in *; subst r1.
    destruct al; simpl; [|by exists h]. specialize (Ha eq_refl).
    pose proof (registry_register _ _ _ cid uin target Hr) as Hreg. simpl in Hreg.
    destruct (register_call (ce_now e) cid uin target (c_redis s)) as [[] r2]; simpl.
    + destruct Hreg as (_ & _ & Hreg).
      edestruct (relay_registry e "call_offer" uin target cid msg dev d (mkCstate r2 (answered_at s))) as (h' & Hs' & Hr'); [exact Hreg|].
      destruct (relay_call _ _ _ _ _ _ _ _ _ _) as [s2 fx]. simpl in *. exists h'. split; [done|]. split.
      * eapply vouched_sub; [exact Hs'|]. intros f v Hfv.
        apply lookup_insert_Some in Hfv as [[<- <-]|[_ Hfv]]; [eexists; split; [left|by right]|].
        apply lookup_insert_Some in Hfv as [[<- <-]|[_ Hfv]]; [eexists; split; [left|by left]|].
        destruct (Hv f v) as (o & Ho & Hx); [|exists o; split; [by right|done]].
        eapply lookup_weaken; [exact Hfv|]. etrans; apply map_free_sub.
      * constructor; [|done]. split_and!; [by apply Hb|done|done].
    + eexists. split; [done|]. split; [|done]. eapply vouched_sub; [|done]. etrans; apply map_free_sub.
  - pose proof (guest_pair_same e d uin target (c_redis s) h Hr) as Hg.
    destruct (guest_pair e d uin target (c_redis s)) as [[] r1]; simpl in *; subst r1; [by exists h|].
    destruct (call_pair_live _ _ _ _ _) as [[]|]; simpl; try by exists h.
    edestruct (relay_registry e kind uin target cid msg dev d (mkCstate (c_redis s) (answered_at s))) as (h' & Hs' & Hr'); [exact Hr|].
    destruct (relay_call _ _ _ _ _ _ _ _ _ _) as [s2 fx]. simpl in *. exists h'. split; [done|]. split; [|done].
    by eapply vouched_sub.
Qed.

Lemma absent_registry now uin r h :
  registry now r h -> exists h', h' ⊆ h /\ registry now (hang_up_absent now uin r).1 h'.
Proof using HR.
  intros Hr. unfold hang_up_absent. destruct (hget now CALLS_KEY (pretty uin) r); [|by exists h].
  destruct (match split_all _ _ with [] => _ | _ => _ end) as [cid peer]. case_cond; [by exists h|].
  eexists. split; [apply (map_clear_sub cid [uin; peer])|]. by apply (registry_clear _ _ _ cid [uin; peer]).
Qed.

Lemma reach_vouched t s hist : reach t s hist -> exists h, registry t (c_redis s) h /\ vouched hist h /\ Forall fine hist.
Proof using HR.
  induction 1 as [t s Hr|t s hist e kind uin msg dev d _ IH Ht Hw Hb|t s hist now uin _ IH Ht|t s hist now r' _ IH Ht Hu].
  - exists ∅. split; [done|]. split; [|constructor]. intros f e He. by rewrite lookup_empty in He.
  - destruct IH as (h & Hr & Hv & Hf). apply (frame_vouched e kind uin msg dev d s hist h); [|done..].
    by eapply registry_later.
  - destruct IH as (h & Hr & Hv & Hf). apply (registry_later _ now) in Hr; [|done].
    destruct (absent_registry now uin _ _ Hr) as (h' & Hs & Hr'). exists h'. split; [done|]. split; [|done].
    by eapply vouched_sub.
  - destruct IH as (h & Hr & Hv & Hf). apply (registry_later _ now) in Hr; [|done].
    exists h. split; [|done]. by eapply registry_untouched.
Qed.

(** Whom something is sent to. *)
Definition goes_to (f : out) (v : Z) : Prop :=
  match f with
  | Send u _ _ | Voip u _ _ | Unified u _ _ => u = v
  | Cast l _ => v ∈ l
  | Sleep _ => False
  end.

(** The offer is one of these two people's to the other. *)
Definition between (o : offer) (a b : Z) : Prop :=
  (of_caller o = a /\ of_callee o = b) \/ (of_caller o = b /\ of_callee o = a).

Lemma entry_offer now hist h a b cid :
  vouched hist h -> Forall fine hist -> entry_joins now (h !! pretty a) b cid = Ok true ->
  exists o, o ∈ hist /\ between o a b /\ policy_allows (of_db o) (of_caller o) (of_callee o) = true /\
    epoch_seconds now - epoch_seconds (of_at o) <= CALL_FRAME_MAX_AGE_S /\
    (cid = ""%string \/ of_call o = cid).
Proof.
  intros Hv Hf Hj. destruct (h !! pretty a) as [e|] eqn:E; [|done].
  destruct (Hv _ _ E) as (o & Ho & Hx). exists o. split; [done|].
  rewrite Forall_forall in Hf. destruct (Hf o Ho) as (Hb & Hw & Hp).
  destruct Hx as [[Ha ->]|[Ha ->]]; apply (inj pretty) in Ha;
    rewrite entry_joins_payload in Hj by done; injection Hj as Hj; breflect;
    (match goal with H : _ || _ = true |- _ => apply orb_prop in H as [H%String.eqb_eq|H%String.eqb_eq] end);
    subst; unfold between; (split; [tauto|]); (split; [done|]); (split; [lia|tauto]).
Qed.

(** It is for one of the two. *)
Definition for_pair (a b : Z) (f : out) : Prop := forall v, goes_to f v -> v = a \/ v = b.

Lemma for_pair_l a b f : (forall v, goes_to f v -> a = v) -> for_pair a b f.
Proof. intros H v Hv. left. symmetry. by apply H. Qed.
Lemma for_pair_r a b f : (forall v, goes_to f v -> b = v) -> for_pair a b f.
Proof. intros H v Hv. right. symmetry. by apply H. Qed.

Lemma grace_targets mono cid a b u m : Forall (for_pair a b) (answer_grace mono cid u m).1.
Proof.
  unfold answer_grace. destruct (m !! cid) as [[who at_]|]; [|constructor]. case_cond; [constructor|].
  case_cond; constructor; [|constructor]. by intros v [].
Qed.

Lemma missed_targets kind uin target cid msg d : Forall (for_pair uin target) (when_missed kind uin target cid msg d).
Proof.
  unfold when_missed. repeat case_cond;
    repeat (apply List.Forall_cons; [first [apply for_pair_l; done|apply for_pair_r; done]|]); apply List.Forall_nil.
Qed.

Lemma relay_targets e kind uin target cid msg dev d s f v :
  f ∈ (relay_call bucket e kind uin target cid msg dev d s).2 -> goes_to f v -> v = uin \/ v = target.
Proof.
  intros Hf Hg. assert (H : Forall (for_pair uin target) (relay_call bucket e kind uin target cid msg dev d s).2).
  { clear. unfold relay_call. set (g := if String.eqb kind "call_ice" then _ else _).
    assert (Hw : Forall (for_pair uin target) g.1) by (unfold g; case_cond; [apply grace_targets|constructor]).
    destruct g as [wait answered]. simpl in Hw. case_cond; [exact Hw|].
    destruct (doubt bucket e kind target (c_redis s)) as [dl r1].
    destruct (String.eqb kind "call_answer"), (String.eqb kind "call_end"), dl;
      cbn [snd]; apply Forall_app; (split; [exact Hw|]); simpl;
      repeat (apply List.Forall_cons; [first [apply for_pair_l; done|apply for_pair_r; done]|]);
      first [apply List.Forall_nil|apply missed_targets]. }
  rewrite Forall_forall in H. by apply (H f Hf).
Qed.

(** C17. over any run of frames in which no offer's call id carries a bar,
    whatever a call frame other than an offer causes to be sent to somebody
    else (the frame itself, a push) goes to a person with whom the sender has a
    registered call: within the last six hours one of the two called the other,
    the callee's policy at that moment let the caller through, and the frame
    names that call or none. *)
Theorem relayed_frame_has_offer (t : Z) (s : cstate R) (hist : list offer) (e : cenv) (kind : string) (uin : Z)
    (msg : list (string * jv)) (dev : string) (d : sdb) (f : out) (v : Z) :
  reach t s hist -> t <= ce_now e -> kind <> "call_offer"%string ->
  f ∈ (call_frame bucket e kind uin msg dev d s).2 -> goes_to f v -> v <> uin ->
  exists o, o ∈ hist /\ between o uin v /\ policy_allows (of_db o) (of_caller o) (of_callee o) = true /\
    epoch_seconds (ce_now e) - epoch_seconds (of_at o) <= CALL_FRAME_MAX_AGE_S /\
    (frame_call msg = ""%string \/ of_call o = frame_call msg).
Proof using HR.
  intros Hre Ht Hk Hf Hg Hne. destruct (reach_vouched t s hist Hre) as (h & Hr & Hv & Hfi).
  apply (registry_later _ (ce_now e)) in Hr; [|done]. unfold call_frame in Hf.
  destruct (int_of_jv _) as [target|]; [|by apply elem_of_nil in Hf].
  destruct (target =? 0); [by apply elem_of_nil in Hf|].
  destruct (String.eqb_spec kind "call_offer"); [done|].
  pose proof (guest_pair_same e d uin target (c_redis s) h Hr) as Hgp.
  destruct (guest_pair e d uin target (c_redis s)) as [[] r1]; simpl in *; subst r1; [by apply elem_of_nil in Hf|].
  destruct (call_pair_live _ _ _ _ _) as [[]|] eqn:E; simpl in Hf; try by apply elem_of_nil in Hf.
  pose proof (relay_targets e kind uin target (frame_call msg) msg dev d (mkCstate (c_redis s) (answered_at s)) f v) as Hto.
  unfold frame_call in Hto. destruct (relay_call _ _ _ _ _ _ _ _ _ _) as [s2 fx]. simpl in *.
  destruct (Hto Hf Hg) as [?| ->]; [done|]. unfold call_pair_live in E. rewrite !(registry_hget _ _ _ _ Hr) in E.
  destruct (entry_joins (ce_now e) (h !! pretty uin) target _) as [[]|] eqn:E1; simpl in E; try done.
  - by apply (entry_offer _ hist h).
  - destruct (entry_offer _ hist h _ _ _ Hv Hfi E) as (o & Ho & Hb & Hx). exists o. split; [done|]. split; [|done].
    unfold between in *. tauto.
Qed.

(** ** Nobody is in two calls *)

Lemma lookup_map_free now f g h :
  map_free now f h !! g = match h !! g with
                          | Some e => if decide (f = g) then (if entry_stale now e then None else Some e) else Some e
                          | None => None end.
Proof.
  unfold map_free. destruct (decide (f = g)) as [->|Hne].
  - destruct (h !! g) as [e|] eqn:E; [|done]. case_cond; [by rewrite lookup_delete_eq|done].
  - destruct (h !! f); [case_cond|]; rewrite ?lookup_delete_ne by done; by destruct (h !! g).
Qed.

Lemma free_rooms t f r h : registry t r h -> peek t ROOM_USER_PIN_KEY (free_if_stale t f r) = peek t ROOM_USER_PIN_KEY r.
Proof using HR.
  intros Hr. unfold free_if_stale. destruct (hget t CALLS_KEY f r); [|done].
  destruct (entry_ts _); [case_cond; [|done]|]; by rewrite (touches_other _ _ _ _ _ _ (hdel_spec _ _ _ _ h (reg_hash _ _ _ Hr))).
Qed.

(** Neither in a room nor in a call younger than ten minutes. *)
Definition free (t : Z) (h rm : gmap string string) (u : Z) : Prop :=
  rm !! pretty u = None /\ forall e, h !! pretty u = Some e -> entry_stale t e = true.

(** a call is registered exactly when neither side is in an audio room or in
    a call that began within ten minutes; then both sides' entries are the new
    call, and otherwise no entry is written. *)
Theorem register_call_spec (t : Z) (cid : string) (a b : Z) (r : R) (h rm : gmap string string) :
  registry t r h -> as_hash (peek t ROOM_USER_PIN_KEY r) = Some rm ->
  let '(ok, r') := register_call t cid a b r in
  (ok = true <-> free t h rm a /\ free t h rm b) /\
  (ok = true -> hget t CALLS_KEY (pretty a) r' = Some (call_payload cid b t) /\
                hget t CALLS_KEY (pretty b) r' = Some (call_payload cid a t)) /\
  (ok = false -> forall f e, hget t CALLS_KEY f r' = Some e -> h !! f = Some e).
Proof using HR.
  intros Hr Hrm. pose proof (registry_register t r h cid a b Hr) as Hreg. simpl in Hreg.
  unfold register_call, register_call_lua in *.
  pose proof (registry_free _ _ _ (pretty b) (registry_free _ _ _ (pretty a) Hr)) as Hf.
  assert (Hrm2 : as_hash (peek t ROOM_USER_PIN_KEY (free_if_stale t (pretty b) (free_if_stale t (pretty a) r))) = Some rm).
  { by rewrite (free_rooms _ _ _ _ (registry_free _ _ _ (pretty a) Hr)), (free_rooms _ _ _ _ Hr). }
  set (r1 := free_if_stale t (pretty b) _) in *. set (h1 := map_free t (pretty b) (map_free t (pretty a) h)) in *.
  unfold hexists in *. rewrite !(registry_hget _ _ _ _ Hf), !(hget_spec _ _ _ _ rm Hrm2) in *.
  assert (Hfree : forall u, u = a \/ u = b -> (h1 !! pretty u = None <-> forall e, h !! pretty u = Some e -> entry_stale t e = true)).
  { intros u Hu. unfold h1. rewrite !lookup_map_free. destruct (h !! pretty u) as [e|]; [|by split].
    destruct (entry_stale t e) eqn:Es; repeat (case_decide; rewrite ?Es); try (split; [done|]; intros Hx; specialize (Hx e eq_refl); congruence);
      try (split; [intros _ e' [= <-]; done|done]). destruct Hu as [->| ->]; congruence. }
  pose proof (Hfree a (or_introl eq_refl)) as Ha. pose proof (Hfree b (or_intror eq_refl)) as Hb. unfold free.
  destruct (h1 !! pretty a) as [ea|] eqn:Ea; simpl in *.
  { split; [|split; [done|]]; [split; [done|intros [[? Hx] [? Hy]]; first [by apply Ha in Hx|by apply Hb in Hy|done]]|].
    intros _ f e. rewrite (registry_hget _ _ _ _ Hreg). intros H.
    eapply lookup_weaken; [exact H|]. etrans; apply map_free_sub. }
  destruct (h1 !! pretty b) as [eb|] eqn:Eb; simpl in *.
  { split; [|split; [done|]]; [split; [done|intros [[? Hx] [? Hy]]; first [by apply Ha in Hx|by apply Hb in Hy|done]]|].
    intros _ f e. rewrite (registry_hget _ _ _ _ Hreg). intros H.
    eapply lookup_weaken; [exact H|]. etrans; apply map_free_sub. }
  destruct (rm !! pretty a) as [pa|] eqn:Epa; simpl in *.
  { split; [|split; [done|]]; [split; [done|intros [[? Hx] [? Hy]]; first [by apply Ha in Hx|by apply Hb in Hy|done]]|].
    intros _ f e. rewrite (registry_hget _ _ _ _ Hreg). intros H.
    eapply lookup_weaken; [exact H|]. etrans; apply map_free_sub. }
  destruct (rm !! pretty b) as [pb|] eqn:Epb; simpl in *.
  { split; [|split; [done|]]; [split; [done|intros [[? Hx] [? Hy]]; first [by apply Ha in Hx|by apply Hb in Hy|done]]|].
    intros _ f e. rewrite (registry_hget _ _ _ _ Hreg). intros H.
    eapply lookup_weaken; [exact H|]. etrans; apply map_free_sub. }
  destruct Hreg as (_ & _ & Hreg). split; [split; [intros _|done]; split; (split; [done|by first [apply Ha|apply Hb]])|].
  split; [|done]. intros _.
  rewrite !(registry_hget _ _ _ _ Hreg). split; [|by rewrite lookup_insert_eq].
  destruct (decide (pretty b = pretty a)) as [E|E].
  - rewrite E, lookup_insert_eq. by apply (inj pretty) in E as ->.
  - by rewrite lookup_insert_ne, lookup_insert_eq by done.
Qed.

(** ** An answered call cannot be ended by a device that rings on *)




















(** ** A hang-up without the call's name *)

Lemma entry_ts_payload cid peer t : no_bar cid -> 0 <= peer -> 0 <= t -> entry_ts (call_payload cid peer t) = Some (epoch_seconds t).
Proof.
  intros Hc Hp Ht. unfold entry_ts. rewrite split_payload by done.
  destruct (pretty_nonneg_digits peer Hp) as [H1 H2].
  destruct (pretty_nonneg_digits (epoch_seconds t) (epoch_nonneg t Ht)) as [H3 H4].
  unfold digits. rewrite H1, H3. destruct (String.eqb_spec (pretty peer) ""); [done|].
  destruct (String.eqb_spec (pretty (epoch_seconds t)) ""); [done|]. simpl. by rewrite Z2N.id by (by apply epoch_nonneg).
Qed.

Lemma map_clear_other cid cid' peer t f h :
  no_bar cid -> cid <> cid' -> h !! f = Some (call_payload cid peer t) -> map_clear cid' f h = h.
Proof.
  intros Hb Hne Hf. unfold map_clear. rewrite Hf. unfold call_payload. rewrite split_char_at by done.
  destruct (String.eqb_spec cid cid'); done.
Qed.

Lemma busy_refused t cid a b r h e :
  registry t r h -> h !! pretty b = Some e -> entry_stale t e = false -> (register_call t cid a b r).1 = false.
Proof using HR.
  intros Hr Hb Hs. pose proof (registry_register t r h cid a b Hr) as H. simpl in H.
  destruct (register_call t cid a b r) as [[] r']; [|done]. destruct H as (_ & H & _).
  rewrite !lookup_map_free, Hb in H. repeat case_decide; rewrite ?Hs in H; repeat case_decide; rewrite ?Hs in H; done.
Qed.

(** a [call_end] that does not name the call is relayed, and the call stays
    registered: whoever rings either of the two is told "busy" until the entry
    is ten minutes old. *)
Theorem end_without_id_leaves_busy (e : cenv) (a b c t0 : Z) (cid cid' : string) (msg : list (string * jv)) (dev : string)
    (d : sdb) (s : cstate R) (h : gmap string string) :
  registry (ce_now e) (c_redis s) h -> no_bar cid -> cid <> ""%string -> writable t0 -> 0 <= a ->
  h !! pretty a = Some (call_payload cid b t0) -> h !! pretty b = Some (call_payload cid a t0) ->
  epoch_seconds (ce_now e) - epoch_seconds t0 <= CALL_REGISTRATION_STALE_S ->
  int_of_jv (field "to_uin" (JvInt 0) msg) = Ok b -> b <> 0 -> frame_call msg = ""%string ->
  py_str (field "reason" (JvStr "") msg) ∉ RING_REASONS ->
  (guest_pair e d a b (c_redis s)).1 = false ->
  (exists f, f ∈ (call_frame bucket e "call_end" a msg dev d s).2 /\ goes_to f b) /\
  (register_call (ce_now e) cid' c b (c_redis (call_frame bucket e "call_end" a msg dev d s).1.2)).1 = false.
Proof using HR.
  intros Hr Hb Hne Hw Ha H1 H2 Hage Hto Hb0 Hcid Hreason Hg. unfold call_frame, frame_call in *. rewrite Hto.
  destruct (b =? 0) eqn:E0; [breflect; done|]. simpl.
  pose proof (guest_pair_same e d a b (c_redis s) h Hr) as Hgs.
  destruct (guest_pair e d a b (c_redis s)) as [g r1]. simpl in *. subst g r1. rewrite Hcid.
  assert (Hl : call_pair_live (ce_now e) a b "" (c_redis s) = Ok true).
  { unfold call_pair_live. rewrite (registry_hget _ _ _ _ Hr), H1, entry_joins_payload by done.
    rewrite bool_decide_true by done. unfold CALL_FRAME_MAX_AGE_S, CALL_REGISTRATION_STALE_S in *.
    destruct (_ <? _) eqn:E; breflect; [lia|]. done. }
  rewrite Hl. unfold relay_call. simpl. rewrite (bool_decide_false _ Hreason). simpl.
  pose proof (registry_untouched _ _ _ _ (doubt_untouched e "call_end" b (c_redis s)) Hr) as Hr1.
  destruct (doubt bucket e "call_end" b (c_redis s)) as [dl r1]. simpl in *. split.
  - eexists. split; [left|]. done.
  - pose proof (registry_untouched _ _ _ _ (clear_mark_untouched (ce_now e) "" r1) Hr1) as Hr2.
    apply (registry_clear _ _ _ "" [a; b]) in Hr2. simpl in Hr2.
    rewrite (map_clear_other cid "" b t0 (pretty a) h) in Hr2 by done.
    rewrite (map_clear_other cid "" a t0 (pretty b) h) in Hr2 by done.
    eapply (busy_refused _ _ _ _ _ h); [exact Hr2|exact H2|].
    unfold entry_stale. rewrite entry_ts_payload by (by destruct Hw). by apply Z.ltb_ge.
Qed.

(** ** A call id with a bar in it *)

(** an offer whose call id is written "x|victim|y" registers the caller, in
    the eyes of the gate, as in a call "x" with the victim: after such an offer
    to an accomplice every further frame the caller addresses to the victim
    passes the gate, whatever the victim's policy and blocks, without a limit in
    time. *)
Theorem bar_forges_a_call (t t' : Z) (a accomplice victim : Z) (x y : string) (r : R) (h : gmap string string) :
  registry t r h -> no_bar x -> no_bar y -> isdigit y = false -> a <> accomplice -> t <= t' ->
  let '(ok, r') := register_call t (x ++ String BAR (pretty victim ++ String BAR y)) a accomplice r in
  ok = true -> call_pair_live t' a victim x r' = Ok true.
Proof using HR.
  intros Hr Hx Hy Hd Hne Ht. pose proof (registry_register t r h (x ++ String BAR (pretty victim ++ String BAR y)) a accomplice Hr) as Hreg.
  destruct (register_call t _ a accomplice r) as [[] r']; [|done]. intros _. destruct Hreg as (_ & _ & Hreg).
  apply (registry_later _ t') in Hreg; [|done]. unfold call_pair_live. rewrite (registry_hget _ _ _ _ Hreg).
  rewrite lookup_insert_ne by (intros E%(inj pretty); done). rewrite lookup_insert_eq.
  set (rest := String BAR (pretty accomplice ++ String BAR (pretty (epoch_seconds t)))).
  assert (E : call_payload (x ++ String BAR (pretty victim ++ String BAR y)) accomplice t
              = (x ++ String BAR (pretty victim ++ String BAR (y ++ rest)))%string).
  { unfold call_payload. fold rest. rewrite append_assoc. f_equal.
    change (String BAR ((pretty victim ++ String BAR y) ++ rest) = String BAR (pretty victim ++ String BAR (y ++ rest)))%string.
    by rewrite append_assoc. }
  unfold entry_joins. rewrite E. assert (Htr : forall s, s <> ""%string -> truthy (Some s) = Some s).
  { intros [|? ?]; done. }
  rewrite Htr by (by destruct x). rewrite split_all_bar by done. rewrite split_all_bar by apply pretty_no_bar.
  unfold rest. rewrite split_all_bar by done. rewrite String.eqb_refl. simpl. rewrite Hd. simpl.
  by rewrite String.eqb_refl, orb_true_r.
Qed.
End registry_facts.

(** ** Examples

    5 rings 6 on the lane of [Presence]; 6 answers. *)

Definition quiet_redis : store := rset 0 GUEST_BUILT_KEY "1" None ∅.
Definition at_second (n : Z) : cenv := mkCenv (seconds n) (seconds n) true false "scratch" (new_worker 1).
Definition call_msg (to : Z) (call_id : string) (more : list (string * jv)) : list (string * jv) :=
  [("to_uin", JvInt to); ("call_id", JvStr call_id)]%string ++ more.
Definition raw_bucket (s : string) : string := s.

Definition rung : cstate store :=
  (call_frame raw_bucket (at_second 1) "call_offer" 5 (call_msg 6 "c1" []) "primary" lane (mkCstate quiet_redis ∅)).1.2.
Definition picked_up : outcome unit * cstate store * list out :=
  call_frame raw_bucket (at_second 2) "call_answer" 6 (call_msg 5 "c1" []) "phone" lane rung.

Lemma quiet_registry t : 0 <= t -> registry t quiet_redis ∅.
Proof.
  intros Ht. apply (registry_later 0); [done|]. split; [reflexivity|reflexivity|]. eexists. vm_compute. reflexivity.
Qed.

Lemma rung_registry :
  registry (seconds 1) (c_redis rung)
    (<[pretty 6 := call_payload "c1" 5 (seconds 1)]> (<[pretty 5 := call_payload "c1" 6 (seconds 1)]> ∅)).
Proof. split; [vm_compute; reflexivity|vm_compute; reflexivity|]. eexists. vm_compute. reflexivity. Qed.

Lemma rung_reached :
  reach raw_bucket (seconds 1) rung [mkOffer (seconds 1) 5 6 "c1" lane].
Proof.
  assert (E : accepted_offer (at_second 1) "call_offer" 5 (call_msg 6 "c1" []) lane (mkCstate quiet_redis ∅) ++ []
              = [mkOffer (seconds 1) 5 6 "c1" lane]) by (vm_compute; reflexivity).
  rewrite <-E. unfold rung.
  apply (reach_frame raw_bucket 0 (mkCstate quiet_redis ∅) [] (at_second 1) "call_offer" 5 (call_msg 6 "c1" []) "primary" lane).
  - apply reach_start. by apply quiet_registry.
  - vm_compute. discriminate.
  - split; vm_compute; [discriminate|lia].
  - intros _. vm_compute. reflexivity.
Qed.

Lemma relayed_frame_has_offer_witness :
  exists o, o ∈ [mkOffer (seconds 1) 5 6 "c1" lane] /\ between o 6 5 /\
    policy_allows (of_db o) (of_caller o) (of_callee o) = true /\
    epoch_seconds (seconds 2) - epoch_seconds (of_at o) <= CALL_FRAME_MAX_AGE_S /\
    (frame_call (call_msg 5 "c1" []) = ""%string \/ of_call o = frame_call (call_msg 5 "c1" [])).
Proof.
  apply (relayed_frame_has_offer raw_bucket (seconds 1) rung [mkOffer (seconds 1) 5 6 "c1" lane] (at_second 2) "call_answer" 6
           (call_msg 5 "c1" []) "phone" lane (Send 5 (relay_frame "call_answer" 6 ["call_id"; "sdp"; "candidate"; "media"; "reason"]%string [] (call_msg 5 "c1" [])) None) 5).
  - exact rung_reached.
  - vm_compute. discriminate.
  - discriminate.
  - vm_compute. left.
  - reflexivity.
  - discriminate.
Defined.

Lemma register_call_spec_witness :
  (register_call (seconds 2) "c2" 7 6 (c_redis rung)).1 = false /\
  (register_call (seconds 602) "c2" 7 6 (c_redis rung)).1 = true.
Proof.
  assert (Hr : forall n, 1 <= n -> registry (seconds n) (c_redis rung)
    (<[pretty 6 := call_payload "c1" 5 (seconds 1)]> (<[pretty 5 := call_payload "c1" 6 (seconds 1)]> ∅))).
  { intros n Hn. apply (registry_later (seconds 1)); [unfold seconds, usec_per_sec; lia|]. exact rung_registry. }
  split.
  - pose proof (register_call_spec (seconds 2) "c2" 7 6 (c_redis rung) _ ∅ (Hr 2 ltac:(lia)) eq_refl) as H.
    destruct (register_call (seconds 2) "c2" 7 6 (c_redis rung)) as [[] r']; [|reflexivity].
    destruct H as [[H _] _]. destruct (H eq_refl) as [_ [_ H6]].
    specialize (H6 (call_payload "c1" 5 (seconds 1)) ltac:(by rewrite lookup_insert_eq)). by vm_compute in H6.
  - pose proof (register_call_spec (seconds 602) "c2" 7 6 (c_redis rung) _ ∅ (Hr 602 ltac:(lia)) eq_refl) as H.
    destruct (register_call (seconds 602) "c2" 7 6 (c_redis rung)) as [[] r'] eqn:E; [reflexivity|].
    destruct H as [[_ H] _]. exfalso. assert (Hf : false = true); [apply H|discriminate].
    split; (split; [reflexivity|]); intros e He.
    + vm_compute in He. discriminate.
    + rewrite lookup_insert_eq in He. injection He as <-. vm_compute. reflexivity.
Defined.



Lemma end_without_id_leaves_busy_witness :
  (register_call (seconds 3) "c2" 7 6
     (c_redis (call_frame raw_bucket (at_second 3) "call_end" 5 [("to_uin"%string, JvInt 6)] "primary" lane picked_up.1.2).1.2)).1 = false.
Proof.
  apply (end_without_id_leaves_busy raw_bucket (at_second 3) 5 6 7 (seconds 1) "c1" "c2" [("to_uin"%string, JvInt 6)] "primary" lane
           picked_up.1.2 (<[pretty 6 := call_payload "c1" 5 (seconds 1)]> (<[pretty 5 := call_payload "c1" 6 (seconds 1)]> ∅))).
  - split; [vm_compute; reflexivity|vm_compute; reflexivity|]. eexists. vm_compute. reflexivity.
  - reflexivity.
  - discriminate.
  - split; vm_compute; [discriminate|lia].
  - lia.
  - vm_compute. reflexivity.
  - vm_compute. reflexivity.
  - vm_compute. discriminate.
  - reflexivity.
  - discriminate.
  - reflexivity.
  - intros H. apply (bool_decide_eq_true_2 _) in H. vm_compute in H. discriminate.
  - vm_compute. reflexivity.
Defined.

(** 6 lets nobody but 5 in; 7 pushes a frame at 6 through a call with itself. *)
Lemma bar_forges_a_call_witness :
  call_pair_live (days 400) 7 6 "x"
    (register_call (seconds 1) ("x" ++ String BAR (pretty 6 ++ String BAR "y"))%string 7 5 quiet_redis).2 = Ok true.
Proof.
  pose proof (bar_forges_a_call (seconds 1) (days 400) 7 5 6 "x" "y" quiet_redis ∅ (quiet_registry (seconds 1) ltac:(done))
    eq_refl eq_refl eq_refl ltac:(done) ltac:(done)) as H.
  set (p := register_call _ _ 7 5 quiet_redis) in *. assert (E : p.1 = true) by (vm_compute; reflexivity).
  destruct p as [ok r']. apply H. exact E.
Defined.

(** A person one has blocked is still in one's contact list, and may ring. *)
Theorem blocked_contact_may_ring {R} `{Redis R} (e : cenv) (d : sdb) (caller callee : Z) (r : R) :
  policy_of d callee <> "nobody"%string -> edges d !! (callee, caller) = Some true ->
  (guest_pair e d caller callee r).1 = false -> (caller_allowed e d caller callee r).1 = true.
Proof.
  intros Hp Hb Hg. unfold caller_allowed. destruct (guest_pair e d caller callee r) as [g r1]. simpl in Hg. subst g. simpl.
  unfold policy_allows. destruct (String.eqb_spec (policy_of d callee) "everyone"); [done|].
  destruct (String.eqb_spec (policy_of d callee) "nobody"); [done|]. unfold is_contact_of.
  apply bool_decide_true. rewrite Hb. by eexists.
Qed.

Lemma blocked_contact_may_ring_witness : (caller_allowed (at_second 1) lane 7 5 quiet_redis).1 = true.
Proof.
  apply (blocked_contact_may_ring (R := store) (at_second 1) lane 7 5 quiet_redis); vm_compute; [discriminate|reflexivity|reflexivity].
Defined.
