(* ===== verification/AudioRooms.v ===== *)
(** * Audio rooms

    Models [src/app/routers/audio_rooms.py] (the persistent rooms and their
    subscriptions), the room half of [src/app/routers/ws.py] (who is in voice:
    a Redis set per room, and a hash that pins a person to one room), and the
    dispatcher [_handle_client_message] that puts calls and rooms together.

    What [secrets.choice] draws is an argument.  The rate limits in front of
    creating and joining are those of [RateLimit]. *)

From stdpp Require Import base list sorting gmap strings pretty.
From Stdlib Require Import ZArith Lia Ascii.
From S2P Require Import Prelude Text Storage Redis RateLimit GuestPolicy Bytes KeyStorage Sessions Voucher KeyProof Door Rooms Accounts Json Profiles Federation Users Sockets Presence Calls.

Definition MAX_OWNED_ROOMS_PER_USER : Z := 5.
Definition MAX_ROOM_PARTICIPANTS : Z := 8.
Definition JOIN_KEY_ALPHABET : string := "ABCDEFGHJKLMNPQRSTUVWXYZ23456789".
Definition JOIN_KEY_LENGTH : nat := 8.
Definition MUTES_TTL_SECONDS : Z := 24 * 3600.

(** ** Tables *)

Record AudioRoom := mkAudioRoom {
  ar_id : Z; ar_name : string; ar_owner_uin : Z; ar_join_key : string;
  ar_owner_only_speaking : bool; ar_created_at : Z
}.
Record Membership := mkMembership { mb_id : Z; mb_room_id : Z; mb_uin : Z }.

Record vdb := mkVdb {
  audio_rooms : list AudioRoom;
  memberships : list Membership;
  next_room : Z;
  next_membership : Z
}.

Definition room_row (id : Z) (v : vdb) : option AudioRoom := find_first (fun a => ar_id a =? id) (audio_rooms v).
Definition room_by_key (key : string) (v : vdb) : option AudioRoom :=
  find_first (fun a => String.eqb (ar_join_key a) key) (audio_rooms v).
Definition membership_of (room uin : Z) (v : vdb) : option Membership :=
  find_first (fun m => (mb_room_id m =? room) && (mb_uin m =? uin)) (memberships v).
Definition is_room_member (v : vdb) (room uin : Z) : bool := bool_decide (is_Some (membership_of room uin v)).

Definition add_membership (room uin : Z) (v : vdb) : vdb :=
  mkVdb (audio_rooms v) (memberships v ++ [mkMembership (next_membership v) room uin]) (next_room v) (next_membership v + 1).
Definition drop_membership (id : Z) (v : vdb) : vdb :=
  mkVdb (audio_rooms v) (filter (fun m => mb_id m <> id) (memberships v)) (next_room v) (next_membership v).
Definition update_room (id : Z) (f : AudioRoom -> AudioRoom) (v : vdb) : vdb :=
  mkVdb (map (fun a => if ar_id a =? id then f a else a) (audio_rooms v)) (memberships v) (next_room v) (next_membership v).
(** The foreign key cascades. *)
Definition drop_room (id : Z) (v : vdb) : vdb :=
  mkVdb (filter (fun a => ar_id a <> id) (audio_rooms v)) (filter (fun m => mb_room_id m <> id) (memberships v))
    (next_room v) (next_membership v).
Definition subscribers (room : Z) (v : vdb) : list Z :=
  map mb_uin (filter (fun m => mb_room_id m = room) (memberships v)).

(** ** Who is in voice *)

Definition room_members_key (room_id : Z) : string := ("room:" ++ pretty room_id ++ ":members")%string.
Definition mutes_key (room_id : Z) : string := ("room:mutes:" ++ pretty room_id)%string.

(** [{int(m) for m in members if m.isdigit()}] *)
Definition int_members (l : list string) : gset Z :=
  list_to_set (omap (fun m => if isdigit m then int_of_string m else None) l).

(** [str.upper] (the two letters whose capital lies beyond 255 stay). *)
Definition upper_char (c : ascii) : string :=
  let n := nat_of_ascii c in
  if ((97 <=? n) && (n <=? 122))%nat || ((224 <=? n) && (n <=? 254) && negb (n =? 247))%nat
  then String (ascii_of_nat (n - 32)) "" else if (n =? 223)%nat then "SS" else String c "".
Fixpoint upper (s : string) : string :=
  match s with EmptyString => "" | String c s => upper_char c ++ upper s end.

Section voice.
Context {R : Type} `{RR : Redis R}.

Definition audio_room_active_uins (now room : Z) (r : R) : gset Z := int_members (smembers now (room_members_key room) r).

Definition unpin (now : Z) (us : list Z) (r : R) : R :=
  foldl (fun r u => hdel now ROOM_USER_PIN_KEY (pretty u) r) r us.

Definition purge_audio_room (now room : Z) (r : R) : R :=
  let members := audio_room_active_uins now room r in
  unpin now (elements members) (del now (room_members_key room) r).

Definition evict_from_audio_room (now room uin : Z) (r : R) : gset Z * R :=
  let r := srem now (room_members_key room) (pretty uin) r in
  let r := hdel now ROOM_USER_PIN_KEY (pretty uin) r in
  (int_members (smembers now (room_members_key room) r), r).

(** The script of [room_enter]: 1 added, 0 already in, -1 full. *)
Definition reserve_slot (now room uin cap : Z) (r : R) : Z * R :=
  if sismember now (room_members_key room) (pretty uin) r then (0, r)
  else if cap <=? scard now (room_members_key room) r then (-1, r)
  else (1, hset now ROOM_USER_PIN_KEY (pretty uin) (pretty room) (sadd now (room_members_key room) [pretty uin] r)).

(** [_room_entry_busy_state] *)
Definition room_entry_busy_state (now uin target : Z) (r : R) : outcome (bool * option Z) :=
  let! in_call := call_entry_is_live now (hget now CALLS_KEY (pretty uin) r) in
  let! pinned := match hget now ROOM_USER_PIN_KEY (pretty uin) r with
                 | Some p => if isdigit p then let! n := py_int p in Ok (Some n) else Ok None
                 | None => Ok None end in
  Ok (in_call || match pinned with Some p => negb (p =? target) | None => false end, pinned).

(** ** Mutes *)

Definition muted_uins_for_room (now room : Z) (r : R) : gset Z :=
  list_to_set (omap int_of_string (smembers now (mutes_key room) r)).
Definition set_room_mute (now room uin : Z) (muted : bool) (r : R) : R :=
  let r := if muted then sadd now (mutes_key room) [pretty uin] r else srem now (mutes_key room) (pretty uin) r in
  expire now (mutes_key room) MUTES_TTL_SECONDS r.
Definition clear_room_mutes (now room : Z) (r : R) : R := del now (mutes_key room) r.

(** ** The endpoints *)

Record AudioRoomOut := mkAudioRoomOut {
  ao_id : Z; ao_name : string; ao_owner_uin : Z; ao_join_key : string; ao_owner_only_speaking : bool;
  ao_created_at : Z; ao_active_count : Z; ao_capacity : Z
}.
Definition serialize_room (now : Z) (a : AudioRoom) (r : R) : AudioRoomOut :=
  mkAudioRoomOut (ar_id a) (ar_name a) (ar_owner_uin a) (ar_join_key a) (ar_owner_only_speaking a) (ar_created_at a)
    (Z.of_nat (size (audio_room_active_uins now (ar_id a) r))) MAX_ROOM_PARTICIPANTS.

(** The first of the (at most two) drawn keys nobody has. *)
Fixpoint fresh_key (clashes : string -> bool) (keys : list string) : option string :=
  match keys with [] => None | k :: keys => if clashes k then fresh_key clashes keys else Some k end.

(** [1 <= len(name) <= 64] is checked before the handler. *)
Definition create_room (now : Z) (keys : string * string) (uin : Z) (name : string) (v : vdb) (r : R)
    : outcome AudioRoomOut * vdb :=
  if MAX_OWNED_ROOMS_PER_USER <=? Z.of_nat (length (filter (fun a => ar_owner_uin a = uin) (audio_rooms v)))
  then (Raise (HTTPException 409 "limit reached: max 5 owned rooms"), v)
  else match fresh_key (fun k => bool_decide (is_Some (room_by_key k v))) [keys.1; keys.2] with
  | None => (Raise (HTTPException 500 "key generation failed"), v)
  | Some key =>
      let room := mkAudioRoom (next_room v) name uin key false now in
      let v := add_membership (next_room v) uin
                 (mkVdb (audio_rooms v ++ [room]) (memberships v) (next_room v + 1) (next_membership v)) in
      (Ok (serialize_room now room r), v)
  end.

Definition guest_list (e : cenv) (d : sdb) (uin : Z) (r : R) : bool * R :=
  is_guest (ce_up_guest e) (ce_now e) (ce_scratch e) (score d) uin r.

(** Newest first. *)
Definition list_rooms (e : cenv) (d : sdb) (uin : Z) (v : vdb) (r : R) : list AudioRoomOut * R :=
  let '(g, r) := guest_list e d uin r in
  if g : bool then ([], r)
  else
    let mine := omap (fun m => if mb_uin m =? uin then room_row (mb_room_id m) v else None) (memberships v) in
    (map (fun a => serialize_room (ce_now e) a r) (rev (sort_by ar_created_at mine)), r).

Definition join_by_key (now uin : Z) (join_key : string) (v : vdb) (r : R) : outcome AudioRoomOut * vdb :=
  match room_by_key (upper (strip join_key)) v with
  | None => (Raise (HTTPException 404 "no such room"), v)
  | Some room =>
      (Ok (serialize_room now room r),
       match membership_of (ar_id room) uin v with Some _ => v | None => add_membership (ar_id room) uin v end)
  end.

Definition leave_my_list (uin room_id : Z) (v : vdb) : outcome unit * vdb :=
  match membership_of room_id uin v with
  | None => (Raise (HTTPException 404 "not a member"), v)
  | Some m =>
      match room_row room_id v with
      | Some a => if ar_owner_uin a =? uin
                  then (Raise (HTTPException 400 "owner cannot unsubscribe"), v) else (Ok tt, drop_membership (mb_id m) v)
      | None => (Ok tt, drop_membership (mb_id m) v)
      end
  end.

(** The row, for its owner. *)
Definition owned_room (room_id uin : Z) (v : vdb) : outcome AudioRoom :=
  match room_row room_id v with
  | None => Raise (HTTPException 404 "no such room")
  | Some a => if ar_owner_uin a =? uin then Ok a else Raise (HTTPException 403 "owner only")
  end.

Definition room_event (kind : string) (room_id : Z) (more : list (string * jv)) : jv :=
  JvObj ([("type", JvStr kind); ("room_id", JvInt room_id)]%string ++ more).
Definition member_left (room_id uin : Z) : jv := room_event "room_member_left" room_id [("uin"%string, JvInt uin)].
(** [if remaining: broadcast] *)
Definition cast_left (remaining : gset Z) (room_id uin : Z) : list out :=
  if decide (remaining = ∅) then [] else [Cast (elements remaining) (member_left room_id uin)].

Definition kick_member (now room_id caller uin : Z) (v : vdb) (r : R) : outcome AudioRoomOut * vdb * R * list out :=
  match owned_room room_id caller v with
  | Raise x => (Raise x, v, r, [])
  | Ok room =>
      if uin =? caller then (Raise (HTTPException 400 "owner cannot kick themselves"), v, r, [])
      else match membership_of room_id uin v with
      | None => (Raise (HTTPException 404 "not a member"), v, r, [])
      | Some m =>
          let '(remaining, r) := evict_from_audio_room now room_id uin r in
          (Ok (serialize_room now room r), drop_membership (mb_id m) v, r,
           [Send uin (room_event "audio_room_membership_revoked" room_id []) None;
            Send uin (room_event "audio_room_kicked" room_id [("reason"%string, JvStr "kicked")]) None]
           ++ cast_left remaining room_id uin)
      end
  end.

Definition tell_subscribers (room_id : Z) (v : vdb) (frame : jv) : list out :=
  map (fun u => Send u frame None) (subscribers room_id v).

Definition with_join_key (k : string) (a : AudioRoom) : AudioRoom :=
  mkAudioRoom (ar_id a) (ar_name a) (ar_owner_uin a) k (ar_owner_only_speaking a) (ar_created_at a).
Definition with_owner_only (b : bool) (a : AudioRoom) : AudioRoom :=
  mkAudioRoom (ar_id a) (ar_name a) (ar_owner_uin a) (ar_join_key a) b (ar_created_at a).
Definition with_name (n : string) (a : AudioRoom) : AudioRoom :=
  mkAudioRoom (ar_id a) n (ar_owner_uin a) (ar_join_key a) (ar_owner_only_speaking a) (ar_created_at a).

Definition rotate_join_key (now : Z) (keys : string * string) (room_id uin : Z) (v : vdb) (r : R)
    : outcome AudioRoomOut * vdb * list out :=
  match owned_room room_id uin v with
  | Raise x => (Raise x, v, [])
  | Ok room =>
      let clashes k := match room_by_key k v with Some a => negb (ar_id a =? room_id) | None => false end in
      match fresh_key clashes [keys.1; keys.2] with
      | None => (Raise (HTTPException 500 "key generation failed"), v, [])
      | Some k =>
          let v := update_room room_id (with_join_key k) v in
          (Ok (serialize_room now (with_join_key k room) r), v,
           tell_subscribers room_id v (room_event "audio_room_key_rotated" room_id [("new_key"%string, JvStr k)]))
      end
  end.

Definition set_member_mute (now room_id uin : Z) (muted : bool) (caller : Z) (v : vdb) (r : R)
    : outcome AudioRoomOut * R * list out :=
  match owned_room room_id caller v with
  | Raise x => (Raise x, r, [])
  | Ok room =>
      if uin =? caller then (Raise (HTTPException 400 "owner cannot mute themselves"), r, [])
      else
        let r := set_room_mute now room_id uin muted r in
        (Ok (serialize_room now room r), r,
         tell_subscribers room_id v (room_event "audio_room_member_muted" room_id
           [("uin"%string, JvInt uin); ("muted_by_owner"%string, JvBool muted)]))
  end.

Definition set_owner_only (now room_id : Z) (enabled : bool) (caller : Z) (v : vdb) (r : R)
    : outcome AudioRoomOut * vdb * list out :=
  match owned_room room_id caller v with
  | Raise x => (Raise x, v, [])
  | Ok room =>
      let v := if Bool.eqb (ar_owner_only_speaking room) enabled then v else update_room room_id (with_owner_only enabled) v in
      (Ok (serialize_room now (with_owner_only enabled room) r), v,
       tell_subscribers room_id v (room_event "audio_room_owner_only_changed" room_id [("enabled"%string, JvBool enabled)]))
  end.

Definition rename_room (now room_id : Z) (name : string) (caller : Z) (v : vdb) (r : R)
    : outcome AudioRoomOut * vdb * list out :=
  match owned_room room_id caller v with
  | Raise x => (Raise x, v, [])
  | Ok room =>
      let new_name := strip name in
      if String.eqb new_name "" then (Raise (HTTPException 400 "name required"), v, [])
      else if String.eqb (ar_name room) new_name then (Ok (serialize_room now room r), v, [])
      else
        let v := update_room room_id (with_name new_name) v in
        (Ok (serialize_room now (with_name new_name room) r), v,
         tell_subscribers room_id v (room_event "audio_room_renamed" room_id [("name"%string, JvStr new_name)]))
  end.

Definition delete_room (now room_id uin : Z) (v : vdb) (r : R) : outcome unit * vdb * R * list out :=
  match owned_room room_id uin v with
  | Raise x => (Raise x, v, r, [])
  | Ok _ =>
      let subs := subscribers room_id v in
      let active := audio_room_active_uins now room_id r in
      let told := elements (list_to_set subs ∪ active : gset Z) in
      (Ok tt, drop_room room_id v, clear_room_mutes now room_id (purge_audio_room now room_id r),
       map (fun u => Send u (room_event "audio_room_deleted" room_id []) None) told
       ++ map (fun u => Send u (room_event "audio_room_kicked" room_id [("reason"%string, JvStr "deleted")]) None)
            (elements active))
  end.
End voice.

(** ** The frames of a room *)

Section frames.
Context {R : Type} `{RR : Redis R} (bucket : string -> string) (isoformat : Z -> string).
Notation S := (cstate R).

Definition set_redis (r : R) (s : S) : S := mkCstate r (answered_at s).

Definition opt_str (v : option string) : jv := match v with Some s => JvStr s | None => JvNull end.

(** One person of the roster as the entrant is shown them; [friends]: who is in
    the entrant's contacts. *)
Definition roster_entry (viewer : Z) (muted friends : gset Z) (w : Row) : jv :=
  let p := profile (w_user w) in
  let gated := String.eqb (or_else (profile_card_policy p) "everyone") "contacts" && negb (w_uin w =? viewer) in
  JvObj [("uin", JvInt (w_uin w)); ("nickname", JvStr (nickname p)); ("muted_by_owner", JvBool (bool_decide (w_uin w ∈ muted)));
         ("avatar_media_id", opt_str (avatar_media_id p)); ("avatar_media_key", opt_str (avatar_media_key p));
         ("profile_openable", JvBool (card_openable_for_viewer (w_uin w) (w_user w) (Some viewer)
                                        (gated && bool_decide (w_uin w ∈ friends))))]%string.

Definition rejected (room_id : Z) (reason : string) : jv := room_event "room_enter_rejected" room_id [("reason"%string, JvStr reason)].

(** What the others are shown of an entrant. *)
Definition entrant_entry (uin : Z) (w : option Row) (muted : bool) : jv :=
  let nick := match w with Some w => or_else (nickname (profile (w_user w))) (pretty uin) | None => pretty uin end in
  let av := match w with Some w => (avatar_media_id (profile (w_user w)), avatar_media_key (profile (w_user w)))
                    | None => (None, None) end in
  JvObj [("uin", JvInt uin); ("nickname", JvStr nick); ("muted_by_owner", JvBool muted);
         ("avatar_media_id", opt_str av.1); ("avatar_media_key", opt_str av.2)]%string.

(** After the reservation: the roster to the entrant, the entrant to the others. *)
Definition room_welcome (now room_id uin result : Z) (d : sdb) (v : vdb) (r : R) : list out :=
  let roster_uins := sort_by (fun u => u) (elements (audio_room_active_uins now room_id r)) in
  let muted := muted_uins_for_room now room_id r in
  let friends := list_to_set (filter (fun u => is_contact_of d uin u = true) roster_uins) : gset Z in
  let owner_only := match room_row room_id v with Some a => ar_owner_only_speaking a | None => false end in
  let roster := map (roster_entry uin muted friends) (omap (user_row d) roster_uins) in
  let peers := filter (fun u => u <> uin) roster_uins in
  [Send uin (room_event "room_roster" room_id [("members"%string, JvList roster); ("owner_only_speaking"%string, JvBool owner_only)]) None]
  ++ if negb (Nat.eqb (length peers) 0) && (result =? 1)
     then [Cast peers (room_event "room_member_entered" room_id
             [("member"%string, entrant_entry uin (user_row d uin) (bool_decide (uin ∈ muted)))])]
     else [].

Definition room_enter (e : cenv) (uin : Z) (msg : list (string * jv)) (d : sdb) (v : vdb) (s : S)
    : outcome unit * S * list out :=
  let now := ce_now e in
  match int_of_jv (field "room_id" (JvInt 0) msg) with
  | Raise x => (Raise x, s, [])
  | Ok room_id =>
      if room_id =? 0 then (Ok tt, s, [])
      else match room_entry_busy_state now uin room_id (c_redis s) with
      | Raise x => (Raise x, s, [])
      | Ok (true, _) => (Ok tt, s, [Send uin (rejected room_id "busy") None])
      | Ok (false, _) =>
          if negb (bool_decide (is_Some (room_row room_id v)))
          then (Ok tt, s, [Send uin (rejected room_id "no_such_room") None])
          else if negb (is_room_member v room_id uin) then (Ok tt, s, [Send uin (rejected room_id "not_member") None])
          else
            let '(result, r) := reserve_slot now room_id uin MAX_ROOM_PARTICIPANTS (c_redis s) in
            if result =? -1 then (Ok tt, set_redis r s, [Send uin (rejected room_id "full") None])
            else (Ok tt, set_redis r s, room_welcome now room_id uin result d v r)
      end
  end.

Definition room_leave (e : cenv) (uin : Z) (msg : list (string * jv)) (s : S) : outcome unit * S * list out :=
  match int_of_jv (field "room_id" (JvInt 0) msg) with
  | Raise x => (Raise x, s, [])
  | Ok room_id =>
      if room_id =? 0 then (Ok tt, s, [])
      else if sismember (ce_now e) (room_members_key room_id) (pretty uin) (c_redis s) then
        let '(remaining, r) := evict_from_audio_room (ce_now e) room_id uin (c_redis s) in
        (Ok tt, set_redis r s, cast_left remaining room_id uin)
      else (Ok tt, s, [])
  end.

Definition ROOM_SIGNALS : list string := ["room_offer"; "room_answer"; "room_ice"]%string.

Definition room_signal (e : cenv) (kind : string) (uin : Z) (msg : list (string * jv)) (s : S) : outcome unit * S * list out :=
  match int_of_jv (field "room_id" (JvInt 0) msg) with
  | Raise x => (Raise x, s, [])
  | Ok room_id =>
      match int_of_jv (field "to_uin" (JvInt 0) msg) with
      | Raise x => (Raise x, s, [])
      | Ok target =>
          if (room_id =? 0) || (target =? 0) then (Ok tt, s, [])
          else
            let inside u := sismember (ce_now e) (room_members_key room_id) (pretty u) (c_redis s) in
            if inside uin && inside target
            then (Ok tt, s, [Send target (relay_frame kind uin ["sdp"; "candidate"]%string [("room_id"%string, JvInt room_id)] msg) None])
            else (Ok tt, s, [])
      end
  end.

Definition room_speaking (e : cenv) (uin : Z) (msg : list (string * jv)) (s : S) : outcome unit * S * list out :=
  match int_of_jv (field "room_id" (JvInt 0) msg) with
  | Raise x => (Raise x, s, [])
  | Ok room_id =>
      if room_id =? 0 then (Ok tt, s, [])
      else
        let members := audio_room_active_uins (ce_now e) room_id (c_redis s) in
        let peers := elements (members ∖ {[ uin ]}) in
        if negb (bool_decide (uin ∈ members)) || Nat.eqb (length peers) 0 then (Ok tt, s, [])
        else (Ok tt, s, [Cast peers (room_event "room_speaking" room_id
                           [("uin"%string, JvInt uin); ("speaking"%string, JvBool (py_truth (field "speaking" (JvBool false) msg)))])])
  end.

(** ** One frame of a client

    The answer says whether the socket is to be closed for a re-sync. *)

Definition pong (now : Z) : jv := JvObj [("type", JvStr "pong"); ("t", JvStr (isoformat now))]%string.

Definition frame_of_kind (e : cenv) (kind : string) (uin : Z) (msg : list (string * jv)) (device_id : string)
    (d : sdb) (v : vdb) (s : S) : outcome unit * S * list out :=
  if String.eqb kind "typing" then typing_frame e uin msg d s
  else if bool_decide (kind ∈ CALL_KINDS) then call_frame bucket e kind uin msg device_id d s
  else if String.eqb kind "room_enter" then room_enter e uin msg d v s
  else if String.eqb kind "room_leave" then room_leave e uin msg s
  else if bool_decide (kind ∈ ROOM_SIGNALS) then room_signal e kind uin msg s
  else if String.eqb kind "room_speaking" then room_speaking e uin msg s
  else (Ok tt, s, []).

Definition handle_client_message (e : cenv) (up_touch : bool) (uin : Z) (msg : list (string * jv)) (device_id : string)
    (d : sdb) (v : vdb) (s : S) : outcome bool * sdb * S * list out :=
  let '(healed, r) := touch_device bucket up_touch (ce_now e) uin device_id (c_redis s) in
  let s := set_redis r s in
  match field "type" JvNull msg with
  | JvStr kind =>
      if String.eqb kind "ping"
      then (Ok healed, set_row uin (with_last_seen (ce_now e)) d, s, [Send uin (pong (ce_now e)) None])
      else
        let '(o, s, fx) := frame_of_kind e kind uin msg device_id d v s in
        ((let! _ := o in Ok healed), d, s, fx)
  | JvList _ | JvObj _ => (Raise (TypeError "unhashable type"), d, s, [])
  | _ => (Ok healed, d, s, [])
  end.

(** ** An account that stayed away

    [_debounced_offline] once its sleep is over: the announcement, the random
    chat (its own component: [RandomLeft]), the call, the room. *)

Inductive absent_out := Told (f : presence_frame) | RandomLeft (uin : Z) | Did (f : out).

Definition leave_absent (now uin : Z) (r : R) : R * list out :=
  match hget now ROOM_USER_PIN_KEY (pretty uin) r with
  | None => (r, [])
  | Some raw =>
      match int_of_string raw with
      | None => (r, [])
      | Some room_id =>
          let '(remaining, r) := evict_from_audio_room now room_id uin r in (r, cast_left remaining room_id uin)
      end
  end.

Definition debounced_offline (up : bool) (now uin : Z) (w : worker) (d : sdb) (r : R) : R * list absent_out :=
  if is_online up now uin w r then (r, [])
  else match user_row d uin with
  | None => (r, [])
  | Some _ =>
      let '(r, calls) := hang_up_absent now uin r in
      let '(r, rooms) := leave_absent now uin r in
      (r, map Told (announce_offline now uin d) ++ [RandomLeft uin] ++ map Did (calls ++ rooms))
  end.
End frames.
