(* ===== verification/AudioRoomsFacts.v ===== *)
(** * Facts about audio rooms

    A room never holds more people than it may, nobody is in two rooms, and
    whoever is in one was subscribed when they entered; what a kick does to
    somebody who is talking elsewhere; what two frames that overtake each other
    do. *)

From stdpp Require Import base list sorting gmap strings pretty.
From Stdlib Require Import ZArith Lia Ascii.
From S2P Require Import Prelude Text Storage Redis RateLimit GuestPolicy Bytes KeyStorage Sessions Voucher KeyProof Door Rooms Accounts Json Profiles Federation Users Sockets Presence Calls CallsFacts AudioRooms.

Lemma room_key_inj a b : room_members_key a = room_members_key b -> a = b.
Proof.
  unfold room_members_key. simpl. intros E. simplify_eq.
  apply (pretty_sep a b ":"%char ":"%char) in E as [-> _]; done.
Qed.

Lemma room_key_not_pin a : room_members_key a <> ROOM_USER_PIN_KEY.
Proof.
  unfold room_members_key, ROOM_USER_PIN_KEY. intros E. injection E as E. pose proof (pretty_chars a) as Hc.
  destruct (pretty a) as [|c s]; simpl in *; [done|]. injection E as -> _. by vm_compute in Hc.
Qed.

Definition upd (room : Z) (s : gset string) (M : Z -> gset string) : Z -> gset string :=
  fun x => if decide (x = room) then s else M x.

Section facts.
Context {R : Type} `{RR : Redis R} {HR : RedisLaws R}.

(** The sets of people in voice, and the pins; nothing of it expires. *)
Record voice (t : Z) (r : R) (M : Z -> gset string) (P : gmap string string) : Prop := {
  vo_set room : as_set (peek t (room_members_key room) r) = Some (M room);
  vo_set_keeps room : expiry (peek t (room_members_key room) r) = None;
  vo_pin : as_hash (peek t ROOM_USER_PIN_KEY r) = Some P;
  vo_pin_keeps : expiry (peek t ROOM_USER_PIN_KEY r) = None
}.

Lemma no_expiry_peek t t' k r : t <= t' -> expiry (peek t k r) = None -> peek t' k r = peek t k r.
Proof using HR. intros Ht Hx. rewrite (peek_later t t') by done. by destruct (peek t k r) as [[? [?|]]|]. Qed.

Lemma voice_later t t' r M P : t <= t' -> voice t r M P -> voice t' r M P.
Proof using HR.
  intros Ht [H1 H2 H3 H4]. split; intros; rewrite (no_expiry_peek t t') by done; auto.
Qed.

(** A command that leaves a room's set at [s]. *)
Lemma voice_set t room s e r r' M P :
  touches t (room_members_key room) e r r' -> as_set e = Some s -> expiry e = None ->
  voice t r M P -> voice t r' (upd room s M) P.
Proof.
  intros Ht He Hx [H1 H2 H3 H4]. unfold upd. split.
  - intros x. case_decide; [subst; by rewrite (touches_same _ _ _ _ _ Ht)|].
    rewrite (touches_other _ _ _ _ _ _ Ht); [done|]. intros E%room_key_inj. done.
  - intros x. destruct (decide (x = room)) as [->|Hne]; [by rewrite (touches_same _ _ _ _ _ Ht)|].
    rewrite (touches_other _ _ _ _ _ _ Ht); [done|]. intros E%room_key_inj. done.
  - rewrite (touches_other _ _ _ _ _ _ Ht); [done|]. intros E. by destruct (room_key_not_pin room).
  - rewrite (touches_other _ _ _ _ _ _ Ht); [done|]. intros E. by destruct (room_key_not_pin room).
Qed.

Lemma voice_pin t P' e r r' M P :
  touches t ROOM_USER_PIN_KEY e r r' -> as_hash e = Some P' -> expiry e = None -> voice t r M P -> voice t r' M P'.
Proof.
  intros Ht He Hx [H1 H2 H3 H4]. split; intros; rewrite ?(touches_same _ _ _ _ _ Ht); try done;
    rewrite (touches_other _ _ _ _ _ _ Ht) by apply room_key_not_pin; auto.
Qed.

Lemma voice_sadd t room u r M P :
  voice t r M P -> voice t (sadd t (room_members_key room) [u] r) (upd room (M room ∪ {[ u ]}) M) P.
Proof using HR.
  intros Hv. pose proof (sadd_spec t _ [u] r _ (vo_set _ _ _ _ Hv room)) as Ht. rewrite (vo_set_keeps _ _ _ _ Hv) in Ht.
  eapply voice_set; [exact Ht| |apply expiry_set_entry_None|done]. rewrite as_set_entry. f_equal. set_solver.
Qed.

Lemma voice_srem t room u r M P :
  voice t r M P -> voice t (srem t (room_members_key room) u r) (upd room (M room ∖ {[ u ]}) M) P.
Proof using HR.
  intros Hv. pose proof (srem_spec t _ u r _ (vo_set _ _ _ _ Hv room)) as Ht. rewrite (vo_set_keeps _ _ _ _ Hv) in Ht.
  eapply voice_set; [exact Ht|apply as_set_entry|apply expiry_set_entry_None|done].
Qed.

Lemma voice_del t room r M P : voice t r M P -> voice t (del t (room_members_key room) r) (upd room ∅ M) P.
Proof using HR. intros Hv. by eapply voice_set; [apply del_spec|..]. Qed.

Lemma voice_hset t f v r M P : voice t r M P -> voice t (hset t ROOM_USER_PIN_KEY f v r) M (<[f := v]> P).
Proof using HR.
  intros Hv. pose proof (hset_spec t _ f v r _ (vo_pin _ _ _ _ Hv)) as Ht. rewrite (vo_pin_keeps _ _ _ _ Hv) in Ht.
  by eapply voice_pin; [exact Ht|..].
Qed.

Lemma voice_hdel t f r M P : voice t r M P -> voice t (hdel t ROOM_USER_PIN_KEY f r) M (delete f P).
Proof using HR.
  intros Hv. pose proof (hdel_spec t _ f r _ (vo_pin _ _ _ _ Hv)) as Ht. rewrite (vo_pin_keeps _ _ _ _ Hv) in Ht.
  eapply voice_pin; [exact Ht|apply as_hash_entry| |done]. unfold hash_entry. by destruct (decide _).
Qed.

Lemma voice_unpin t us : forall r M P,
  voice t r M P -> voice t (unpin t us r) M (foldl (fun P u => delete (pretty u) P) P us).
Proof using HR.
  induction us as [|u us IH]; intros r M P Hv; simpl; [done|]. apply IH. by apply voice_hdel.
Qed.

Lemma voice_inside t room u r M P : voice t r M P -> sismember t (room_members_key room) u r = bool_decide (u ∈ M room).
Proof using HR. intros Hv. apply sismember_spec, (vo_set _ _ _ _ Hv). Qed.

(** ** The operations on the sets *)

Lemma voice_evict t room uin r M P :
  voice t r M P ->
  voice t (evict_from_audio_room t room uin r).2 (upd room (M room ∖ {[ pretty uin ]}) M) (delete (pretty uin) P).
Proof using HR. intros Hv. simpl. by apply voice_hdel, voice_srem. Qed.

Lemma voice_reserve t room uin cap r M P :
  voice t r M P ->
  let '(result, r') := reserve_slot t room uin cap r in
  (result = 1 /\ pretty uin ∉ M room /\ Z.of_nat (size (M room)) < cap /\
   voice t r' (upd room (M room ∪ {[ pretty uin ]}) M) (<[pretty uin := pretty room]> P)) \/
  (result <> 1 /\ r' = r).
Proof using HR.
  intros Hv. unfold reserve_slot. rewrite (voice_inside _ _ _ _ _ _ Hv). case_bool_decide as Hin; [by right|].
  rewrite (scard_spec _ _ _ _ (vo_set _ _ _ _ Hv room)). destruct (cap <=? _) eqn:E; breflect; [by right|].
  left. split_and!; [done..|]. by apply voice_hset, voice_sadd.
Qed.

(** Who a list of members stands for. *)
Lemma elem_of_int_members u t room r M P :
  voice t r M P -> (forall m, m ∈ M room -> exists v : Z, m = pretty v) ->
  u ∈ audio_room_active_uins t room r -> pretty u ∈ M room.
Proof using HR.
  intros Hv Hp. unfold audio_room_active_uins, int_members. rewrite elem_of_list_to_set, list_elem_of_omap.
  intros (m & Hm & Hu). rewrite (smembers_spec _ _ _ _ (vo_set _ _ _ _ Hv room)), elem_of_elements in Hm.
  destruct (isdigit m); [|done]. destruct (Hp m Hm) as [v ->]. rewrite int_of_pretty in Hu. by injection Hu as ->.
Qed.

(** ** Everything that happens to the rooms

    [hist]: who was let into which room, with the subscription there was. *)

Definition admitted (e : cenv) (uin : Z) (msg : list (string * jv)) (v : vdb) : list (Z * Z) :=
  match int_of_jv (field "room_id" (JvInt 0) msg) with
  | Ok room => if is_room_member v room uin then [(room, uin)] else []
  | Raise _ => []
  end.

Definition positive_ids (v : vdb) : Prop := forall a, a ∈ audio_rooms v -> 0 < ar_id a.

Inductive talks : Z -> R -> list (Z * Z) -> Prop :=
  | talks_start t r : voice t r (fun _ => ∅) ∅ -> talks t r []
  | talks_enter t s hist e uin msg d v :
      talks t (c_redis s) hist -> t <= ce_now e -> positive_ids v ->
      talks (ce_now e) (c_redis (room_enter e uin msg d v s).1.2) (admitted e uin msg v ++ hist)
  | talks_leave t s hist e uin msg :
      talks t (c_redis s) hist -> t <= ce_now e ->
      talks (ce_now e) (c_redis (room_leave e uin msg s).1.2) hist
  | talks_absent t r hist now uin :
      talks t r hist -> t <= now -> talks now (leave_absent now uin r).1 hist
  | talks_deleted t r hist now room :
      talks t r hist -> t <= now -> talks now (purge_audio_room now room r) hist
  | talks_kicked t r hist now room uin :
      talks t r hist -> t <= now ->
      (forall room', room' <> room -> sismember now (room_members_key room') (pretty uin) r = false) ->
      talks now (evict_from_audio_room now room uin r).2 hist
  | talks_elsewhere t r hist now r' :
      talks t r hist -> t <= now ->
      (forall room, peek now (room_members_key room) r' = peek now (room_members_key room) r) ->
      peek now ROOM_USER_PIN_KEY r' = peek now ROOM_USER_PIN_KEY r ->
      talks now r' hist.

(** A room within its bound; everybody inside is pinned to it and was let in. *)
Record orderly (hist : list (Z * Z)) (M : Z -> gset string) (P : gmap string string) : Prop := {
  or_size room : Z.of_nat (size (M room)) <= MAX_ROOM_PARTICIPANTS;
  or_pinned room m : m ∈ M room -> P !! m = Some (pretty room);
  or_admitted room m : m ∈ M room -> exists u : Z, m = pretty u /\ (room, u) ∈ hist;
  or_pins f p : P !! f = Some p -> exists room : Z, 0 < room /\ p = pretty room
}.

Lemma orderly_one_room hist M P room room' m : orderly hist M P -> m ∈ M room -> m ∈ M room' -> room = room'.
Proof.
  intros Ho H1 H2. pose proof (or_pinned _ _ _ Ho _ _ H1) as E1. pose proof (or_pinned _ _ _ Ho _ _ H2) as E2.
  apply (inj (pretty (A := Z))). congruence.
Qed.

Lemma orderly_more hist hist' M P : orderly hist M P -> orderly (hist' ++ hist) M P.
Proof.
  intros Ho. split; [apply (or_size _ _ _ Ho)|apply (or_pinned _ _ _ Ho)| |apply (or_pins _ _ _ Ho)].
  intros room m Hm. destruct (or_admitted _ _ _ Ho room m Hm) as (u & -> & Hu). exists u. split; [done|].
  apply elem_of_app. by right.
Qed.

(** Taking people out of one room, with their pins. *)
Lemma orderly_out hist M P room (s : gset string) P' :
  orderly hist M P -> s ⊆ M room -> P' ⊆ P ->
  (forall m p, P !! m = Some p -> P' !! m = None -> m ∉ s /\ forall room', room' <> room -> m ∉ M room') ->
  orderly hist (upd room s M) P'.
Proof.
  intros Ho Hs HP Hgone.
  assert (Hsub : forall x m, m ∈ upd room s M x -> m ∈ M x).
  { intros x m. unfold upd. case_decide; [subst|done]. apply Hs. }
  split.
  - intros x. etrans; [|apply (or_size _ _ _ Ho x)]. apply inj_le, subseteq_size. intros m. apply Hsub.
  - intros x m Hm. pose proof (or_pinned _ _ _ Ho x m (Hsub _ _ Hm)) as Hp.
    destruct (P' !! m) as [p'|] eqn:E; [rewrite <-Hp; symmetry; by eapply lookup_weaken|].
    destruct (Hgone m _ Hp E) as [H1 H2]. unfold upd in Hm. case_decide as Hx; [done|]. by destruct (H2 x Hx).
  - intros x m Hm. by apply (or_admitted _ _ _ Ho), Hsub.
  - intros f p Hf. apply (or_pins _ _ _ Ho f). by eapply lookup_weaken.
Qed.

Lemma orderly_in hist M P room uin :
  orderly hist M P -> 0 < room -> (room, uin) ∈ hist -> Z.of_nat (size (M room)) < MAX_ROOM_PARTICIPANTS ->
  (forall room', pretty uin ∈ M room' -> room' = room) ->
  orderly hist (upd room (M room ∪ {[ pretty uin ]}) M) (<[pretty uin := pretty room]> P).
Proof.
  intros Ho Hr Hh Hs Hone.
  assert (Hin : forall x m, m ∈ upd room (M room ∪ {[ pretty uin ]}) M x -> m ∈ M x \/ (x = room /\ m = pretty uin)).
  { intros x m. unfold upd. case_decide; [subst|by left]. intros [?|?%elem_of_singleton]%elem_of_union; [by left|by right]. }
  split.
  - intros x. unfold upd. case_decide; [|apply (or_size _ _ _ Ho)].
    pose proof (size_union_alt (M room) {[ pretty uin ]}) as Hu.
    pose proof (subseteq_size ({[ pretty uin ]} ∖ M room) ({[ pretty uin ]} : gset string) ltac:(apply subseteq_difference_l; done)) as Hx.
    rewrite size_singleton in Hx. rewrite Hu. lia.
  - intros x m [Hm|[-> ->]]%Hin; [|by rewrite lookup_insert_eq].
    destruct (decide (m = pretty uin)) as [->|Hne]; [by rewrite (Hone x Hm), lookup_insert_eq|].
    rewrite lookup_insert_ne by done. by apply (or_pinned _ _ _ Ho).
  - intros x m [Hm|[-> ->]]%Hin; [by apply (or_admitted _ _ _ Ho)|]. by exists uin.
  - intros f p [[_ <-]|[_ Hp]]%lookup_insert_Some; [by exists room|by apply (or_pins _ _ _ Ho f)].
Qed.

Lemma room_row_positive v room a : positive_ids v -> room_row room v = Some a -> 0 < room.
Proof. intros Hp [Hin Hid]%find_first_Some. breflect. subst. by apply Hp. Qed.

(** The busy check answers "free" only to somebody pinned nowhere else. *)
Lemma not_busy_pin hist t uin room r M P p :
  voice t r M P -> orderly hist M P -> room_entry_busy_state t uin room r = Ok (false, p) ->
  forall room', pretty uin ∈ M room' -> room' = room.
Proof using HR.
  intros Hv Ho Hb room' Hm. unfold room_entry_busy_state in Hb.
  destruct (call_entry_is_live _ _) as [c|]; [|done]. simpl in Hb.
  rewrite (hget_spec _ _ _ _ P (vo_pin _ _ _ _ Hv)), (or_pinned _ _ _ Ho _ _ Hm) in Hb.
  destruct (or_pins _ _ _ Ho _ _ (or_pinned _ _ _ Ho _ _ Hm)) as (x & Hx & E). apply (inj pretty) in E. subst x.
  destruct (pretty_nonneg_digits room' ltac:(lia)) as [Hr Hne].
  rewrite (read_digits_isdigit _ _ _ Hr Hne) in Hb. unfold py_int in Hb.
  destruct (4300 <? _)%nat; [done|]. rewrite Hr in Hb. simpl in Hb. rewrite Z2N.id in Hb by lia.
  destruct c; [done|]. simpl in Hb. destruct (room' =? room) eqn:E; breflect; [done|]. done.
Qed.

Lemma lookup_unpinned (us : list Z) : forall (Q : gmap string string) m,
  foldl (fun P u => delete (pretty u) P) Q us !! m = if decide (m ∈ pretty <$> us) then None else Q !! m.
Proof.
  induction us as [|u us IH]; intros Q m; simpl; [done|]. rewrite IH.
  destruct (decide (m ∈ pretty <$> us)) as [Hin|Hn]; [rewrite decide_True by (by right); done|].
  destruct (decide (m = pretty u)) as [->|Hne].
  - rewrite lookup_delete_eq, decide_True; [done|]. by left.
  - rewrite lookup_delete_ne by done. rewrite decide_False; [done|]. by intros [?|?]%elem_of_cons.
Qed.

Lemma talks_orderly t r hist : talks t r hist -> exists M P, voice t r M P /\ orderly hist M P.
Proof using HR.
  induction 1 as [t r Hv|t s hist e uin msg d v _ IH Ht Hp|t s hist e uin msg _ IH Ht|t r hist now uin _ IH Ht
                 |t r hist now room _ IH Ht|t r hist now room uin _ IH Ht Hk|t r hist now r' _ IH Ht H1 H2].
  - exists (fun _ => ∅), ∅. split; [done|]. split; intros *; try (intros H; by apply elem_of_empty in H); [|by rewrite lookup_empty].
    unfold MAX_ROOM_PARTICIPANTS. rewrite size_empty. lia.
  - destruct IH as (M & P & Hv & Ho). apply (voice_later _ (ce_now e)) in Hv; [|done].
    apply (orderly_more _ (admitted e uin msg v)) in Ho. unfold room_enter.
    destruct (int_of_jv _) as [room|] eqn:Er; [|by exists M, P]. destruct (room =? 0); [by exists M, P|].
    destruct (room_entry_busy_state _ _ _ _) as [[[] p]|] eqn:Eb; [by exists M, P| |by exists M, P].
    destruct (room_row room v) as [a|] eqn:Ea; simpl; [|by exists M, P].
    destruct (is_room_member v room uin) eqn:Em; simpl; [|by exists M, P].
    pose proof (voice_reserve _ room uin MAX_ROOM_PARTICIPANTS _ _ _ Hv) as Hres.
    destruct (reserve_slot _ _ _ _ _) as [result r']. destruct Hres as [(-> & Hn & Hs & Hv')|[_ ->]].
    + simpl. eexists _, _. split; [exact Hv'|]. apply orderly_in; [done|by eapply room_row_positive| |done|].
      * unfold admitted. rewrite Er, Em. by left.
      * by eapply not_busy_pin.
    + case_cond; by exists M, P.
  - destruct IH as (M & P & Hv & Ho). apply (voice_later _ (ce_now e)) in Hv; [|done]. unfold room_leave.
    destruct (int_of_jv _) as [room|]; [|by exists M, P]. destruct (room =? 0); [by exists M, P|].
    rewrite (voice_inside _ _ _ _ _ _ Hv). case_bool_decide as Hin; [|by exists M, P]. simpl.
    eexists _, _. split; [by apply (voice_evict _ room uin)|]. apply (orderly_out _ _ P); [done|set_solver|apply delete_subseteq|].
    intros m p Hm Hd. destruct (decide (m = pretty uin)) as [->|Hne]; [|rewrite lookup_delete_ne in Hd by done; congruence].
    split; [set_solver|]. intros room' Hr' Hm'. apply Hr'. by eapply orderly_one_room.
  - destruct IH as (M & P & Hv & Ho). apply (voice_later _ now) in Hv; [|done]. unfold leave_absent.
    rewrite (hget_spec _ _ _ _ P (vo_pin _ _ _ _ Hv)). destruct (P !! pretty uin) as [p|] eqn:Ep; [|by exists M, P].
    destruct (int_of_string p) as [room|] eqn:Er; [|by exists M, P]. simpl.
    eexists _, _. split; [by apply (voice_evict _ room uin)|]. apply (orderly_out _ _ P); [done|set_solver|apply delete_subseteq|].
    intros m q Hm Hd. destruct (decide (m = pretty uin)) as [->|Hne]; [|rewrite lookup_delete_ne in Hd by done; congruence].
    split; [set_solver|]. intros room' Hr' Hm'. apply Hr'. pose proof (or_pinned _ _ _ Ho _ _ Hm') as E.
    rewrite Ep in E. injection E as ->. rewrite int_of_pretty in Er. by injection Er as ->.
  - destruct IH as (M & P & Hv & Ho). apply (voice_later _ now) in Hv; [|done]. unfold purge_audio_room.
    eexists _, _. split; [by apply voice_unpin, voice_del|].
    assert (Hus : forall u, u ∈ elements (audio_room_active_uins now room r) -> pretty u ∈ M room).
    { intros u Hu%elem_of_elements. apply (elem_of_int_members u now room r M P Hv); [|done].
      intros m Hm. destruct (or_admitted _ _ _ Ho _ _ Hm) as (v & -> & _). by exists v. }
    apply (orderly_out _ _ P); [done|set_solver| |].
    + apply map_subseteq_spec. intros f p. rewrite lookup_unpinned. by case_decide.
    + intros m p Hm. rewrite lookup_unpinned. case_decide as Hd; [|congruence]. intros _.
      apply list_elem_of_fmap in Hd as (u & -> & Hu).
      split; [set_solver|]. intros room' Hr' Hm'. apply Hr'. eapply orderly_one_room; [done|done|]. by apply Hus.
  - destruct IH as (M & P & Hv & Ho). apply (voice_later _ now) in Hv; [|done].
    eexists _, _. split; [by apply (voice_evict _ room uin)|]. apply (orderly_out _ _ P); [done|set_solver|apply delete_subseteq|].
    intros m p Hm Hd. destruct (decide (m = pretty uin)) as [->|Hne]; [|rewrite lookup_delete_ne in Hd by done; congruence].
    split; [set_solver|]. intros room' Hr' Hm'. specialize (Hk room' Hr').
    rewrite (voice_inside _ _ _ _ _ _ Hv), bool_decide_true in Hk by done. done.
  - destruct IH as (M & P & Hv & Ho). apply (voice_later _ now) in Hv; [|done]. exists M, P. split; [|done].
    destruct Hv as [V1 V2 V3 V4]. split; intros; rewrite ?H1, ?H2; auto.
Qed.

(** C22. however people enter, leave, vanish, are kicked out of the room they talk
    in and rooms are deleted, one act after the other, no room ever holds more than eight, nobody is in two rooms, and everybody in
    a room was subscribed to it when they entered. *)
Theorem audio_rooms_orderly (t : Z) (r : R) (hist : list (Z * Z)) :
  talks t r hist ->
  (forall room, scard t (room_members_key room) r <= MAX_ROOM_PARTICIPANTS) /\
  (forall room room' (u : Z), sismember t (room_members_key room) (pretty u) r = true ->
     sismember t (room_members_key room') (pretty u) r = true -> room = room') /\
  (forall room (u : Z), sismember t (room_members_key room) (pretty u) r = true -> (room, u) ∈ hist).
Proof using HR.
  intros (M & P & Hv & Ho)%talks_orderly. split; [|split].
  - intros room. rewrite (scard_spec _ _ _ _ (vo_set _ _ _ _ Hv room)). apply (or_size _ _ _ Ho).
  - intros room room' u. rewrite !(voice_inside _ _ _ _ _ _ Hv). intros H1 H2. breflect. by eapply orderly_one_room.
  - intros room u. rewrite (voice_inside _ _ _ _ _ _ Hv). intros H1. breflect.
    destruct (or_admitted _ _ _ Ho _ _ H1) as (v & E & Hh). apply (inj pretty) in E. by subst.
Qed.
(** a kick out of a room somebody is not talking in takes away the pin of the
    room they are talking in: they stay in that room's voice, count as free for
    calls and other rooms, and their absence no longer takes them out of it. *)
Theorem kick_unpins_elsewhere (t room other uin : Z) (r : R) (M : Z -> gset string) (P : gmap string string) :
  voice t r M P -> other <> room -> sismember t (room_members_key other) (pretty uin) r = true ->
  let r' := (evict_from_audio_room t room uin r).2 in
  sismember t (room_members_key other) (pretty uin) r' = true /\
  hexists t ROOM_USER_PIN_KEY (pretty uin) r' = false /\
  leave_absent t uin r' = (r', []).
Proof using HR.
  intros Hv Hne Hin r'. pose proof (voice_evict t room uin r M P Hv) as Hv'. fold r' in Hv'.
  rewrite (voice_inside _ _ _ _ _ _ Hv) in Hin. rewrite (voice_inside _ _ _ _ _ _ Hv').
  assert (Hp : hget t ROOM_USER_PIN_KEY (pretty uin) r' = None).
  { rewrite (hget_spec _ _ _ _ _ (vo_pin _ _ _ _ Hv')). apply lookup_delete_eq. }
  unfold upd, hexists, leave_absent. rewrite decide_False, Hp by done. done.
Qed.
End facts.

(** ** Examples *)

Definition two_rooms : vdb :=
  mkVdb [mkAudioRoom 1 "den" 6 "AAAABBBB" false 0; mkAudioRoom 2 "hall" 6 "CCCCDDDD" false 0]
    [mkMembership 1 1 6; mkMembership 2 2 6; mkMembership 3 1 5; mkMembership 4 2 5] 3 5.
Definition go_in (room : Z) : list (string * jv) := [("room_id"%string, JvInt room)].
Definition in_den : cstate store := (room_enter (at_second 1) 5 (go_in 1) lane two_rooms (mkCstate quiet_redis ∅)).1.2.

Lemma quiet_voice : voice 0 quiet_redis (fun _ => ∅) ∅.
Proof.
  assert (Hk : forall room, peek 0 (room_members_key room) quiet_redis = None).
  { intros room. pose proof (rset_spec 0 GUEST_BUILT_KEY "1" None (∅ : store)) as Ht. fold quiet_redis in Ht.
    rewrite (touches_other _ _ _ _ _ _ Ht) by done. unfold peek, map_redis, store_peek. by rewrite lookup_empty. }
  split; try (intros room; by rewrite Hk); vm_compute; reflexivity.
Qed.

Lemma two_rooms_positive : positive_ids two_rooms.
Proof. intros a Ha. simpl in Ha. repeat (apply elem_of_cons in Ha as [->|Ha]; [done|]). by apply elem_of_nil in Ha. Qed.

Lemma audio_rooms_orderly_witness :
  sismember (seconds 1) (room_members_key 1) (pretty 5) (c_redis in_den) = true /\ (1, 5) ∈ [(1, 5)].
Proof.
  split; [vm_compute; reflexivity|].
  destruct (audio_rooms_orderly (seconds 1) (c_redis in_den) (admitted (at_second 1) 5 (go_in 1) two_rooms ++ [])) as (_ & _ & H).
  - apply (talks_enter 0 (mkCstate quiet_redis ∅) [] (at_second 1)); [|vm_compute; discriminate|apply two_rooms_positive].
    apply talks_start, quiet_voice.
  - apply (H 1 5). vm_compute. reflexivity.
Defined.

Lemma kick_unpins_elsewhere_witness :
  hexists 0 ROOM_USER_PIN_KEY (pretty 5) (evict_from_audio_room 0 1 5 (reserve_slot 0 2 5 8 quiet_redis).2).2 = false.
Proof.
  pose proof (voice_reserve 0 2 5 8 quiet_redis _ _ quiet_voice) as Hv.
  assert (E : (reserve_slot 0 2 5 8 quiet_redis).1 = 1) by (vm_compute; reflexivity).
  assert (Hin : sismember 0 (room_members_key 2) (pretty 5) (reserve_slot 0 2 5 8 quiet_redis).2 = true) by (vm_compute; reflexivity).
  destruct (reserve_slot 0 2 5 8 quiet_redis) as [result r]. simpl in *. subst result.
  destruct Hv as [(_ & _ & _ & Hv)|[Hv _]]; [|done].
  apply (kick_unpins_elsewhere 0 1 2 5 r _ _ Hv); [discriminate|exact Hin].
Defined.

(** Two devices of one person pass the busy check of two rooms before either
    reserves: the person is in both, pinned to one. *)
Example overtaking_entries :
  let r := quiet_redis in
  room_entry_busy_state 0 5 1 r = Ok (false, None) /\ room_entry_busy_state 0 5 2 r = Ok (false, None) /\
  let r' := (reserve_slot 0 2 5 8 (reserve_slot 0 1 5 8 r).2).2 in
  sismember 0 (room_members_key 1) (pretty 5) r' = true /\ sismember 0 (room_members_key 2) (pretty 5) r' = true /\
  hget 0 ROOM_USER_PIN_KEY (pretty 5) r' = Some "2"%string.
Proof. vm_compute. done. Qed.
