(* ===== verification/Gate.v ===== *)
(** * The gate of a closed island

    [src/app/routers/gate.py], [src/app/models/access_token.py] and the part of
    [src/app/services/credential_sweep.py] that deletes gate tokens.  An island
    that hides behind a decoy lets a request through when its header carries a
    token: the operator's own secret, a standing token, or the token of a device
    that redeemed an invite.  [gate_check] answers from a cache of 45 seconds in
    Redis, then from the table; [gate_redeem] exchanges an invite for a device
    token; the operator creates, lists and revokes; a sweep deletes what has
    been dead for a quarter.

    The table is the list of its rows in the order of insertion.  Each handler is
    cut where another request can come between: a check into the cache read
    ([check_get]), the table read ([check_select]), the cache write
    ([cache_fill]), the verdict and the stamp; a redemption into its reads
    ([redeem_look]), its transaction ([redeem_tx]) and its cache write; a
    revocation into its transaction ([revoke_tx]) and the eviction.  The handlers
    themselves ([gate_check], [gate_redeem], [admin_revoke_token]) are their
    compositions.  Parameters: the
    digest of a token, the JSON of a cache entry, ISO dates, the operator's
    secret; the drawn token is an input, and so is every failure of Redis or of
    the database that the code catches. *)

From stdpp Require Import base list gmap strings.
From Stdlib Require Import ZArith Lia Ascii.
From S2P Require Import Prelude Text Redis.

(** ** The table *)

Record AccessToken := mkAccessToken {
  tk_id : Z;
  token_hash : string;
  tk_kind : string;
  tk_label : option string;
  tk_device_id : option string;
  parent_id : option Z;
  tk_max_uses : option Z;
  tk_uses : Z;
  tk_expires_at : option Z;
  tk_revoked : bool;
  tk_created_at : Z;
  last_used_at : option Z
}.

Record gdb := mkGdb { tokens : list AccessToken; next_token : Z }.

Definition empty_gdb : gdb := mkGdb [] 1.

Definition row_by_hash (h : string) (d : gdb) : option AccessToken :=
  find_first (fun a => String.eqb (token_hash a) h) (tokens d).
Definition row_by_id (id : Z) (d : gdb) : option AccessToken :=
  find_first (fun a => tk_id a =? id) (tokens d).
Definition row_by_device (dev : string) (d : gdb) : option AccessToken :=
  find_first (fun a => bool_decide (tk_device_id a = Some dev)) (tokens d).

(** [UPDATE access_tokens SET ... WHERE p] *)
Definition update_where (p : AccessToken -> bool) (f : AccessToken -> AccessToken) (d : gdb) : gdb :=
  mkGdb (map (fun a => if p a then f a else a) (tokens d)) (next_token d).

Definition set_used_at (t : Z) (a : AccessToken) : AccessToken :=
  mkAccessToken (tk_id a) (token_hash a) (tk_kind a) (tk_label a) (tk_device_id a) (parent_id a) (tk_max_uses a)
    (tk_uses a) (tk_expires_at a) (tk_revoked a) (tk_created_at a) (Some t).
Definition set_revoked (a : AccessToken) : AccessToken :=
  mkAccessToken (tk_id a) (token_hash a) (tk_kind a) (tk_label a) (tk_device_id a) (parent_id a) (tk_max_uses a)
    (tk_uses a) (tk_expires_at a) true (tk_created_at a) (last_used_at a).
Definition set_token (h : string) (t : Z) (a : AccessToken) : AccessToken :=
  mkAccessToken (tk_id a) h (tk_kind a) (tk_label a) (tk_device_id a) (parent_id a) (tk_max_uses a)
    (tk_uses a) (tk_expires_at a) (tk_revoked a) t (last_used_at a).
Definition use_once (a : AccessToken) : AccessToken :=
  mkAccessToken (tk_id a) (token_hash a) (tk_kind a) (tk_label a) (tk_device_id a) (parent_id a) (tk_max_uses a)
    (tk_uses a + 1) (tk_expires_at a) (tk_revoked a) (tk_created_at a) (last_used_at a).

Definition insert_token (f : Z -> AccessToken) (d : gdb) : gdb :=
  mkGdb (tokens d ++ [f (next_token d)]) (next_token d + 1).

(** ** What a request is judged by *)

Definition CACHE_TTL : Z := 45.
Definition LRU_THROTTLE : Z := 300.

(** The dict [_meta_from_row] builds; [m_expires_at] is ISO text. *)
Record meta := mkMeta {
  m_kind : string;
  m_revoked : bool;
  m_expires_at : option string;
  m_max_uses : option Z;
  m_uses : Z
}.

Definition is_ascii (s : string) : bool :=
  forallb (fun c => (nat_of_ascii c <? 128)%nat) (String.list_ascii_of_string s).

Definition hex_digits : string := "0123456789abcdefABCDEF".
Definition is_hex_digit (c : ascii) : bool := bool_decide (c ∈ String.list_ascii_of_string hex_digits).

(** [16 <= len(dev) <= 64] and hexadecimal digits only. *)
Definition device_id_ok (dev : string) : bool :=
  (16 <=? Z.of_nat (String.length dev)) && (Z.of_nat (String.length dev) <=? 64)
  && forallb is_hex_digit (String.list_ascii_of_string dev).

Definition meta_key (h : string) : string := ("gate:meta:" ++ h)%string.
Definition lru_key (h : string) : string := ("gate:lru:" ++ h)%string.

(** Which of the guarded calls of a request go through: the cache read, the
    table read, the cache write, the throttle key, the stamp. *)
Record faults := mkFaults {
  cache_read : bool; table_read : bool; cache_write : bool; throttle : bool; stamp_write : bool
}.
Definition no_faults : faults := mkFaults true true true true true.

Section gate.
Context {R : Type} `{RR : Redis R}.
Context (hash : string -> string) (meta_json : meta -> string) (parse_meta : string -> option meta).
Context (isoformat : Z -> string) (fromisoformat : string -> option Z) (master : string).

(** [secrets.compare_digest] of texts wants ASCII on both sides. *)
Definition env_master_matches (raw : string) : outcome bool :=
  if String.eqb master "" then Ok false
  else if is_ascii raw && is_ascii master then Ok (String.eqb raw master)
  else Raise (TypeError "comparing strings with non-ASCII characters is not supported").

Definition not_expired (now : Z) (m : meta) : bool :=
  match m_expires_at m with
  | None => true
  | Some text => match fromisoformat text with Some t => negb (t <=? now) | None => false end
  end.

Definition active (now : Z) (m : meta) : bool :=
  negb (m_revoked m) && not_expired now m
  && match m_max_uses m with Some mu => negb (mu <=? m_uses m) | None => true end.

Definition meta_from_row (a : AccessToken) : meta :=
  mkMeta (tk_kind a) (tk_revoked a) (option_map isoformat (tk_expires_at a)) (tk_max_uses a) (tk_uses a).

(** [GET /gate/check] *)

Definition cached_meta (f : faults) (now : Z) (h : string) (r : R) : option meta :=
  if cache_read f then
    match rget now (meta_key h) r with
    | Some c => if String.eqb c "" then None else parse_meta c
    | None => None
    end
  else None.

(** Up to the cache read: a verdict, or the digest with what the cache knows. *)
Inductive cache_answer := Verdict (code : Z) | Hit (h : string) (m : meta) | Miss (h : string).

Definition check_get (f : faults) (now : Z) (x_rcq_auth : option string) (r : R) : outcome cache_answer :=
  let raw := strip (default ""%string x_rcq_auth) in
  if String.eqb raw "" then Ok (Verdict 401)
  else
    let! is_master := env_master_matches raw in
    if is_master : bool then Ok (Verdict 200)
    else Ok (match cached_meta f now (hash raw) r with Some m => Hit (hash raw) m | None => Miss (hash raw) end).

(** The table read of a miss, and the cache write that follows it. *)
Definition check_select (f : faults) (h : string) (d : gdb) : option meta :=
  if table_read f then option_map meta_from_row (row_by_hash h d) else None.

Definition cache_fill (up : bool) (now : Z) (h : string) (m : meta) (r : R) : R :=
  if up then rset now (meta_key h) (meta_json m) (Some CACHE_TTL) r else r.

Definition verdict (now : Z) (m : meta) : Z := if active now m then 200 else 401.

Definition stamp_use (f : faults) (now : Z) (h : string) (d : gdb) (r : R) : gdb * R :=
  if throttle f then
    let '(first, r) := set_nx now (lru_key h) "1" (Some LRU_THROTTLE) r in
    (if first && stamp_write f
     then update_where (fun a => String.eqb (token_hash a) h) (set_used_at now) d else d, r)
  else (d, r).

Definition check_end (f : faults) (now : Z) (h : string) (m : meta) (d : gdb) (r : R) : outcome Z * gdb * R :=
  if active now m then let '(d, r) := stamp_use f now h d r in (Ok (verdict now m), d, r)
  else (Ok (verdict now m), d, r).

Definition gate_check (f : faults) (now : Z) (x_rcq_auth : option string) (d : gdb) (r : R) : outcome Z * gdb * R :=
  match check_get f now x_rcq_auth r with
  | Raise e => (Raise e, d, r)
  | Ok (Verdict code) => (Ok code, d, r)
  | Ok (Hit h m) => check_end f now h m d r
  | Ok (Miss h) =>
      match check_select f h d with
      | None => (Ok 401, d, r)
      | Some m => check_end f now h m d (cache_fill (cache_write f) now h m r)
      end
  end.

(** The answer of a check spread over time: the cache [r] is read at [t1], the
    table, if it comes to that, is [d] by then, and the verdict is at [t2]. *)
Definition check_answer (f : faults) (x_rcq_auth : option string) (t1 : Z) (r : R) (d : gdb) (t2 : Z) : outcome Z :=
  let! c := check_get f t1 x_rcq_auth r in
  Ok (match c with
      | Verdict code => code
      | Hit _ m => verdict t2 m
      | Miss h => match check_select f h d with Some m => verdict t2 m | None => 401 end
      end).

(** [POST /gate/redeem]: up to the transaction.  A redemption that goes on
    carries the device, the digest it presented and what was read of the
    invite. *)
Record redemption := mkRedemption { rd_device : string; rd_hash : string; rd_invite : Z; rd_label : option string }.

Inductive looked := Answer (token : option string) | GoOn (p : redemption).

Definition redeem_look (now : Z) (device_id : string) (x_rcq_auth : option string) (d : gdb) : outcome looked :=
  let raw := strip (default ""%string x_rcq_auth) in
  let dev := strip device_id in
  if String.eqb raw "" || negb (device_id_ok dev) then Ok (Answer None)
  else
    let! is_master := env_master_matches raw in
    if is_master : bool then Ok (Answer (Some raw))
    else
      match row_by_hash (hash raw) d with
      | None => Ok (Answer None)
      | Some a =>
          let m := meta_from_row a in
          if String.eqb (tk_kind a) "device" || String.eqb (tk_kind a) "standing"
          then Ok (Answer (if active now m then Some raw else None))
          else if negb (String.eqb (tk_kind a) "invite") then Ok (Answer None)
          else if m_revoked m || negb (not_expired now m) then Ok (Answer None)
          else Ok (GoOn (mkRedemption dev (hash raw) (tk_id a) (tk_label a)))
      end.

Definition device_row (now : Z) (p : redemption) (new_hash : string) (id : Z) : AccessToken :=
  mkAccessToken id new_hash "device" (rd_label p) (Some (rd_device p)) (Some (rd_invite p)) None 0 None false now None.

Definition fresh_meta : meta := mkMeta "device" false None None 0.

(** The invite the conditional update takes a use of. *)
Definition consumable (now : Z) (h : string) (a : AccessToken) : bool :=
  String.eqb (token_hash a) h && String.eqb (tk_kind a) "invite" && negb (tk_revoked a)
  && match tk_max_uses a with Some mu => tk_uses a <? mu | None => false end
  && match tk_expires_at a with Some t => now <? t | None => true end.

(** INSERT .. ON CONFLICT (device_id) DO UPDATE, then the conditional consume if
    a row was inserted; a refused consume rolls the insert back.  The digest is
    unique too, and no arbiter of the conflict. *)
Definition redeem_tx (now : Z) (p : redemption) (new_hash : string) (d : gdb) : outcome bool * gdb :=
  match row_by_device (rd_device p) d with
  | Some old =>
      if existsb (fun a => String.eqb (token_hash a) new_hash && negb (tk_id a =? tk_id old)) (tokens d)
      then (Raise (IntegrityError "access_tokens"), d)
      else (Ok true, update_where (fun a => tk_id a =? tk_id old) (set_token new_hash now) d)
  | None =>
      match row_by_hash new_hash d with
      | Some _ => (Raise (IntegrityError "access_tokens"), d)
      | None =>
          let d1 := insert_token (device_row now p new_hash) d in
          if existsb (consumable now (rd_hash p)) (tokens d1)
          then (Ok true, update_where (consumable now (rd_hash p)) use_once d1)
          else (Ok false, d)
      end
  end.

Definition redeem_write (up : bool) (now : Z) (p : redemption) (new_raw : string) (d : gdb) (r : R)
    : outcome (option string) * gdb * R :=
  match redeem_tx now p (hash new_raw) d with
  | (Raise e, d) => (Raise e, d, r)
  | (Ok false, d) => (Ok None, d, r)
  | (Ok true, d) =>
      (Ok (Some new_raw), d, cache_fill up now (hash new_raw) fresh_meta r)
  end.

Definition gate_redeem (up : bool) (now : Z) (device_id : string) (x_rcq_auth : option string) (new_raw : string)
    (d : gdb) (r : R) : outcome (option string) * gdb * R :=
  match redeem_look now device_id x_rcq_auth d with
  | Raise e => (Raise e, d, r)
  | Ok (Answer t) => (Ok t, d, r)
  | Ok (GoOn p) => redeem_write up now p new_raw d r
  end.

(** ** The operator *)

Record CreateTokenIn := mkCreateTokenIn {
  ct_kind : string; ct_label : option string; ct_max_uses : option Z; ct_expires_in_days : option Z
}.

Definition new_kind (b : CreateTokenIn) : string :=
  if String.eqb (ct_kind b) "invite" || String.eqb (ct_kind b) "standing" then ct_kind b else "invite"%string.

Definition created_row (now : Z) (b : CreateTokenIn) (h : string) (id : Z) : AccessToken :=
  mkAccessToken id h (new_kind b) (ct_label b) None None
    (if String.eqb (new_kind b) "invite" then Some 1 else ct_max_uses b) 0
    (match ct_expires_in_days b with
     | Some n => if 0 <? n then Some (now + days n) else None
     | None => None
     end) false now None.

Definition admin_create_token (now : Z) (b : CreateTokenIn) (raw : string) (d : gdb) : outcome (Z * string) * gdb :=
  match row_by_hash (hash raw) d with
  | Some _ => (Raise (IntegrityError "access_tokens"), d)
  | None => (Ok (next_token d, raw), insert_token (created_row now b (hash raw)) d)
  end.

(** A line of the operator's list: of the digest, the first eight digits. *)
Record TokenOut := mkTokenOut {
  to_id : Z; to_kind : string; to_label : option string; to_prefix : string; to_device_id : option string;
  to_parent_id : option Z; to_uses : Z; to_max_uses : option Z; to_revoked : bool;
  to_expires_at : option string; to_created_at : string; to_last_used_at : option string
}.

Definition token_out (a : AccessToken) : TokenOut :=
  mkTokenOut (tk_id a) (tk_kind a) (tk_label a) (String.substring 0 8 (token_hash a)) (tk_device_id a) (parent_id a)
    (tk_uses a) (tk_max_uses a) (tk_revoked a) (option_map isoformat (tk_expires_at a)) (isoformat (tk_created_at a))
    (option_map isoformat (last_used_at a)).

(** Newest first, at most 500. *)
Definition admin_list_tokens (d : gdb) : list TokenOut :=
  map token_out (take 500 (sort_by (fun a => - tk_created_at a) (tokens d))).

Definition evict (up : bool) (now : Z) (hashes : list string) (r : R) : R :=
  if up then foldl (fun r h => del now (meta_key h) r) r hashes else r.

Definition is_child (id : Z) (a : AccessToken) : bool := bool_decide (parent_id a = Some id).

(** The transaction of a revocation: the number of children the answer counts
    and the digests to evict, or 404. *)
Definition revoke_tx (token_id : Z) (d : gdb) : outcome (Z * list string) * gdb :=
  match row_by_id token_id d with
  | None => (Raise (HTTPException 404 ""), d)
  | Some a =>
      let d1 := update_where (fun x => tk_id x =? token_id) set_revoked d in
      if String.eqb (tk_kind a) "invite" then
        let children := map token_hash (List.filter (is_child token_id) (tokens d1)) in
        (Ok (Z.of_nat (length children), token_hash a :: children), update_where (is_child token_id) set_revoked d1)
      else (Ok (0, [token_hash a]), d1)
  end.

Definition admin_revoke_token (up : bool) (now token_id : Z) (d : gdb) (r : R) : outcome Z * gdb * R :=
  match revoke_tx token_id d with
  | (Raise e, d) => (Raise e, d, r)
  | (Ok (n, affected), d) => (Ok n, d, evict up now affected r)
  end.
End gate.

(** ** The sweep of dead tokens

    [credential_sweep._dead_tokens] and the second half of its [sweep_once]; the
    order in which the database lists the candidates is the table's. *)

Definition CREDENTIAL_MAX_AGE_DAYS : Z := 90.
Definition CREDENTIAL_MAX_PER_CYCLE : nat := 500.

Definition dead_token (cutoff : Z) (a : AccessToken) : bool :=
  (tk_revoked a
   || match tk_expires_at a with Some t => t <? cutoff | None => false end
   || match tk_max_uses a with Some mu => mu <=? tk_uses a | None => false end)
  && (default (tk_created_at a) (last_used_at a) <? cutoff).

(** Ids some unrevoked row names as its parent. *)
Definition live_parents (d : gdb) (ids : list Z) : list Z :=
  List.filter (fun id => existsb (fun a => is_child id a && negb (tk_revoked a)) (tokens d)) ids.

Definition swept_tokens (now : Z) (d : gdb) : list Z :=
  let ids := take CREDENTIAL_MAX_PER_CYCLE
               (map tk_id (List.filter (dead_token (now - days CREDENTIAL_MAX_AGE_DAYS)) (tokens d))) in
  List.filter (fun id => negb (bool_decide (id ∈ live_parents d ids))) ids.

Definition token_sweep (dry_run : bool) (now : Z) (d : gdb) : nat * gdb :=
  let ids := swept_tokens now d in
  (length ids,
   if dry_run then d
   else mkGdb (List.filter (fun a => negb (bool_decide (tk_id a ∈ ids))) (tokens d)) (next_token d)).
