(* ===== verification/GateFacts.v ===== *)
(** * The gate: who is let through

    What holds of [Gate] in every interleaving of checks, redemptions, the
    operator's requests and the sweep, on any Redis.  The steps are the
    statements of the handlers: a check's table read and its cache write, a
    redemption's reads, transaction and cache write, a revocation's transaction
    and its eviction.  The table stays well-formed ([gate_wf_run]); a token no
    live row carries, and of which no entry is still on its way to the cache, is
    refused from 45 seconds on ([dead_token_refused]), and an entry on its way
    does readmit it ([late_entry_readmits]); a token of a live row is let through
    ([live_token_admitted]).  The examples at
    the end evaluate a redemption by a device whose row is already there. *)

From stdpp Require Import base list gmap strings countable pretty.
From Stdlib Require Import ZArith Lia.
From S2P Require Import Prelude Text Redis Gate.

(** ** The table *)

(** Worth nothing for good: revoked or used up. *)
Definition dead_row (a : AccessToken) : Prop :=
  tk_revoked a = true \/ exists mu, tk_max_uses a = Some mu /\ mu <= tk_uses a.

Inductive row_kind (a : AccessToken) : Prop :=
  | kind_invite : tk_kind a = "invite"%string -> parent_id a = None -> tk_device_id a = None ->
      tk_max_uses a = Some 1 -> row_kind a
  | kind_standing : tk_kind a = "standing"%string -> parent_id a = None -> tk_device_id a = None -> row_kind a
  | kind_device id dev : tk_kind a = "device"%string -> parent_id a = Some id -> tk_device_id a = Some dev ->
      tk_max_uses a = None -> tk_expires_at a = None -> row_kind a.

(** A digest, a device and an id are of one row; an invite has admitted at most
    one device, and a device that is not revoked stands under an invite that is
    there and not revoked, so that revoking it reaches the device. *)
Record gate_wf (d : gdb) : Prop := {
  gw_ids : NoDup (map tk_id (tokens d));
  gw_next a : a ∈ tokens d -> tk_id a < next_token d;
  gw_parents a id : a ∈ tokens d -> parent_id a = Some id -> id < next_token d;
  gw_hashes : NoDup (map token_hash (tokens d));
  gw_devices a b dev : a ∈ tokens d -> b ∈ tokens d ->
    tk_device_id a = Some dev -> tk_device_id b = Some dev -> a = b;
  gw_kinds a : a ∈ tokens d -> row_kind a;
  gw_used a : a ∈ tokens d -> 0 <= tk_uses a;
  gw_uses a : a ∈ tokens d -> tk_kind a = "invite"%string ->
    Z.of_nat (length (List.filter (is_child (tk_id a)) (tokens d))) <= tk_uses a <= 1;
  gw_live a id : a ∈ tokens d -> parent_id a = Some id -> tk_revoked a = false ->
    exists i, i ∈ tokens d /\ tk_id i = id /\ tk_kind i = "invite"%string /\ tk_revoked i = false
}.

Lemma empty_gate_wf : gate_wf empty_gdb.
Proof. split; simpl; try (intros * []%elem_of_nil); apply NoDup_nil_2. Qed.

Lemma elem_of_update a p f d :
  a ∈ tokens (update_where p f d) <-> exists b, b ∈ tokens d /\ a = (if p b then f b else b).
Proof. unfold update_where. simpl. rewrite list_elem_of_fmap. split; intros (b & H1 & H2); eauto. Qed.

(** Updates that keep what a row is. *)
Record keeps_frame (f : AccessToken -> AccessToken) : Prop := {
  kf_id a : tk_id (f a) = tk_id a;
  kf_kind a : tk_kind (f a) = tk_kind a;
  kf_device a : tk_device_id (f a) = tk_device_id a;
  kf_parent a : parent_id (f a) = parent_id a;
  kf_max a : tk_max_uses (f a) = tk_max_uses a;
  kf_expires a : tk_expires_at (f a) = tk_expires_at a
}.

Lemma set_used_at_frame t : keeps_frame (set_used_at t). Proof. by split. Qed.
Lemma set_revoked_frame : keeps_frame set_revoked. Proof. by split. Qed.
Lemma set_token_frame h t : keeps_frame (set_token h t). Proof. by split. Qed.
Lemma use_once_frame : keeps_frame use_once. Proof. by split. Qed.
#[export] Hint Resolve set_used_at_frame set_revoked_frame set_token_frame use_once_frame : rcq.

Lemma frame_if p f : keeps_frame f -> keeps_frame (fun b => if p b : bool then f b else b).
Proof. intros [H1 H2 H3 H4 H5 H6]. split; intros a; destruct (p a); auto. Qed.

Lemma map_update {A} (g : AccessToken -> A) p f d :
  (forall a, a ∈ tokens d -> p a = true -> g (f a) = g a) -> map g (tokens (update_where p f d)) = map g (tokens d).
Proof.
  intros H. unfold update_where. simpl. rewrite map_map. apply map_ext_in. intros a Ha%list_elem_of_In.
  destruct (p a) eqn:E; auto.
Qed.

Lemma children_update id p f d :
  keeps_frame f ->
  length (List.filter (is_child id) (tokens (update_where p f d))) = length (List.filter (is_child id) (tokens d)).
Proof.
  intros Hf. unfold update_where. simpl. induction (tokens d) as [|a l IH]; simpl; [done|].
  assert (is_child id (if p a then f a else a) = is_child id a) as ->.
  { unfold is_child. destruct (p a); [|done]. by rewrite (kf_parent _ Hf). }
  destruct (is_child id a); simpl; congruence.
Qed.

Lemma same_id d a b : gate_wf d -> a ∈ tokens d -> b ∈ tokens d -> tk_id a = tk_id b -> a = b.
Proof. intros Hw Ha Hb E. exact (NoDup_map_inj tk_id _ _ _ (gw_ids _ Hw) Ha Hb E). Qed.
Lemma same_hash d a b : gate_wf d -> a ∈ tokens d -> b ∈ tokens d -> token_hash a = token_hash b -> a = b.
Proof. intros Hw Ha Hb E. exact (NoDup_map_inj token_hash _ _ _ (gw_hashes _ Hw) Ha Hb E). Qed.

(** What an update has to answer for beyond keeping the frame. *)
Lemma update_wf p f d :
  gate_wf d -> keeps_frame f ->
  NoDup (map token_hash (tokens (update_where p f d))) ->
  (forall a, tk_revoked a = true -> tk_revoked (f a) = true) ->
  (forall a, a ∈ tokens d -> p a = true -> tk_uses a <= tk_uses (f a)) ->
  (forall a, a ∈ tokens d -> tk_kind a = "invite"%string -> p a = true -> tk_uses (f a) <= 1) ->
  (forall a i, a ∈ tokens d -> i ∈ tokens d -> parent_id a = Some (tk_id i) -> tk_kind i = "invite"%string ->
     p i = true -> tk_revoked i = false -> tk_revoked (if p a then f a else a) = false -> tk_revoked (f i) = false) ->
  gate_wf (update_where p f d).
Proof.
  intros Hw Hf Hh Hr Hm Hu Hl. pose proof (frame_if p f Hf) as [F1 F2 F3 F4 F5 F6]. cbn beta in *. split.
  - rewrite map_update; [apply (gw_ids _ Hw)|]. intros a _ _. apply (kf_id _ Hf).
  - intros a (b & Hb & ->)%elem_of_update. rewrite F1. by apply (gw_next _ Hw).
  - intros a id (b & Hb & ->)%elem_of_update. rewrite F4. by apply (gw_parents _ Hw).
  - exact Hh.
  - intros a b dev (a' & Ha & ->)%elem_of_update (b' & Hb & ->)%elem_of_update. rewrite !F3.
    intros H1 H2. by rewrite (gw_devices _ Hw _ _ _ Ha Hb H1 H2).
  - intros a (b & Hb & ->)%elem_of_update. destruct (gw_kinds _ Hw _ Hb) as [K1 K2 K3 K4|K1 K2 K3|i v K1 K2 K3 K4 K5].
    + apply kind_invite; rewrite ?F2, ?F3, ?F4, ?F5; done.
    + apply kind_standing; rewrite ?F2, ?F3, ?F4; done.
    + apply (kind_device _ i v); rewrite ?F2, ?F3, ?F4, ?F5, ?F6; done.
  - intros a (b & Hb & ->)%elem_of_update. pose proof (gw_used _ Hw _ Hb).
    destruct (p b) eqn:E; [|done]. pose proof (Hm _ Hb E). lia.
  - intros a (b & Hb & ->)%elem_of_update. rewrite F1, F2, children_update by done. intros Hk.
    pose proof (gw_uses _ Hw _ Hb Hk). destruct (p b) eqn:E; [|lia]. pose proof (Hm _ Hb E). pose proof (Hu _ Hb Hk E). lia.
  - intros a id (b & Hb & ->)%elem_of_update. rewrite F4. intros Hp Hrb.
    assert (tk_revoked b = false) as Hb0.
    { destruct (tk_revoked b) eqn:E; [|done]. destruct (p b); [by rewrite Hr in Hrb|congruence]. }
    destruct (gw_live _ Hw _ _ Hb Hp Hb0) as (i & Hi & <- & Hk & Hri).
    exists (if p i then f i else i). rewrite F1, F2. split; [apply elem_of_update; eauto|]. split; [done|]. split; [done|].
    destruct (p i) eqn:E; [|done]. by apply (Hl b i).
Qed.

Lemma token_insert_wf f d :
  gate_wf d -> tk_id (f (next_token d)) = next_token d ->
  token_hash (f (next_token d)) ∉ map token_hash (tokens d) ->
  (forall dev, tk_device_id (f (next_token d)) = Some dev -> forall a, a ∈ tokens d -> tk_device_id a <> Some dev) ->
  row_kind (f (next_token d)) -> tk_uses (f (next_token d)) = 0 ->
  (forall id, parent_id (f (next_token d)) = Some id -> exists i, i ∈ tokens d /\ tk_id i = id /\ tk_kind i = "invite"%string /\
     tk_revoked i = false /\ Z.of_nat (length (List.filter (is_child id) (tokens d))) + 1 <= tk_uses i) ->
  gate_wf (insert_token f d).
Proof.
  intros Hw Hid Hh Hd Hk Hu Hp. set (n := f (next_token d)) in *.
  assert (Hin : forall a, a ∈ tokens (insert_token f d) -> a ∈ tokens d \/ a = n).
  { intros a. simpl. rewrite elem_of_app, list_elem_of_singleton. done. }
  assert (Hold : forall a, a ∈ tokens d -> a ∈ tokens (insert_token f d)) by (intros a Ha; simpl; rewrite elem_of_app; auto).
  assert (Hlt : forall a, a ∈ tokens d -> tk_id a < next_token d) by apply (gw_next _ Hw).
  split.
  - simpl. rewrite map_app. apply NoDup_snoc; [|apply (gw_ids _ Hw)]. intros (a & E & Ha)%list_elem_of_fmap.
    specialize (Hlt a Ha). unfold n in *. lia.
  - intros a [Ha| ->]%Hin; simpl; [specialize (Hlt a Ha)|]; lia.
  - intros a id [Ha| ->]%Hin Hpa; simpl; [pose proof (gw_parents _ Hw _ _ Ha Hpa); lia|].
    destruct (Hp _ Hpa) as (i & Hi & <- & _). specialize (Hlt i Hi). lia.
  - simpl. rewrite map_app. by apply NoDup_snoc; [|apply (gw_hashes _ Hw)].
  - intros a b dev [Ha| ->]%Hin [Hb| ->]%Hin H1 H2; [by apply (gw_devices _ Hw _ _ dev)|..|done].
    + by destruct (Hd _ H2 _ Ha).
    + by destruct (Hd _ H1 _ Hb).
  - intros a [Ha| ->]%Hin; [by apply (gw_kinds _ Hw)|done].
  - intros a [Ha| ->]%Hin; [by apply (gw_used _ Hw)|lia].
  - intros a Ha Hka. unfold insert_token. cbn [tokens]. rewrite List.filter_app, length_app. fold n. cbn [List.filter].
    apply Hin in Ha as [Ha| ->].
    + pose proof (gw_uses _ Hw _ Ha Hka). destruct (is_child (tk_id a) n) eqn:E; [|simpl; lia].
      unfold is_child in E. apply bool_decide_eq_true_1 in E. destruct (Hp _ E) as (i & Hi & E' & _ & _ & Hc).
      rewrite (same_id _ _ _ Hw Hi Ha E') in Hc. simpl. lia.
    + rewrite Hid, Hu. destruct (List.filter (is_child (next_token d)) (tokens d)) as [|b l] eqn:E.
      * unfold is_child. destruct (bool_decide_reflect (parent_id n = Some (next_token d))) as [E'|]; [|simpl; lia].
        destruct (Hp _ E') as (i & Hi & E'' & _). specialize (Hlt i Hi). lia.
      * assert (Hb : b ∈ List.filter (is_child (next_token d)) (tokens d)) by (rewrite E; left).
        apply list_elem_of_In, List.filter_In in Hb as [Hb%list_elem_of_In Hc]. unfold is_child in Hc.
        apply bool_decide_eq_true_1, (gw_parents _ Hw _ _ Hb) in Hc. lia.
  - intros a id [Ha| ->]%Hin Hpa Hr.
    + destruct (gw_live _ Hw _ _ Ha Hpa Hr) as (i & Hi & H). exists i. split; [by apply Hold|done].
    + destruct (Hp _ Hpa) as (i & Hi & H1 & H2 & H3 & _). exists i. split; [by apply Hold|done].
Qed.

Lemma elem_of_lfilter {A} (p : A -> bool) l x : x ∈ List.filter p l <-> x ∈ l /\ p x = true.
Proof. by rewrite !list_elem_of_In, List.filter_In. Qed.

Lemma NoDup_map_lfilter {A B} (g : A -> B) (p : A -> bool) l : NoDup (map g l) -> NoDup (map g (List.filter p l)).
Proof.
  induction l as [|x l IH]; [done|]. simpl. intros [Hx Hn]%NoDup_cons. destruct (p x); [|auto]. simpl. constructor; [|auto].
  intros (y & E & [Hy _]%elem_of_lfilter)%list_elem_of_fmap. apply Hx. rewrite E. by apply list_elem_of_fmap_2.
Qed.

Lemma length_lfilter_twice {A} (p q : A -> bool) l : (length (List.filter p (List.filter q l)) <= length (List.filter p l))%nat.
Proof. induction l as [|x l IH]; simpl; [done|]. destruct (q x); simpl; destruct (p x); simpl; lia. Qed.

(** Deleting rows none of which is the parent of a live one. *)
Lemma delete_wf (ids : list Z) d :
  gate_wf d ->
  (forall a id, a ∈ tokens d -> parent_id a = Some id -> tk_revoked a = false -> id ∉ ids) ->
  gate_wf (mkGdb (List.filter (fun a => negb (bool_decide (tk_id a ∈ ids))) (tokens d)) (next_token d)).
Proof.
  intros Hw Hl.
  assert (Hin : forall a, a ∈ List.filter (fun a => negb (bool_decide (tk_id a ∈ ids))) (tokens d) <-> a ∈ tokens d /\ tk_id a ∉ ids).
  { intros a. by rewrite elem_of_lfilter, negb_true_iff, bool_decide_eq_false. }
  split; cbn [tokens next_token].
  - apply NoDup_map_lfilter, (gw_ids _ Hw).
  - intros a [Ha _]%Hin. by apply (gw_next _ Hw).
  - intros a id [Ha _]%Hin. by apply (gw_parents _ Hw).
  - apply NoDup_map_lfilter, (gw_hashes _ Hw).
  - intros a b dev [Ha _]%Hin [Hb _]%Hin. by apply (gw_devices _ Hw).
  - intros a [Ha _]%Hin. by apply (gw_kinds _ Hw).
  - intros a [Ha _]%Hin. by apply (gw_used _ Hw).
  - intros a [Ha _]%Hin Hk. pose proof (gw_uses _ Hw _ Ha Hk).
    pose proof (length_lfilter_twice (is_child (tk_id a)) (fun a => negb (bool_decide (tk_id a ∈ ids))) (tokens d)). lia.
  - intros a id [Ha _]%Hin Hp Hr. destruct (gw_live _ Hw _ _ Ha Hp Hr) as (i & Hi & <- & H). exists i.
    split; [|done]. apply Hin. split; [done|]. by apply (Hl a).
Qed.

(** ** The requests keep it *)

Lemma stamp_wf h t d : gate_wf d -> gate_wf (update_where (fun a => String.eqb (token_hash a) h) (set_used_at t) d).
Proof.
  intros Hw. apply update_wf; auto with rcq.
  - rewrite map_update; [apply (gw_hashes _ Hw)|done].
  - intros a Ha _. simpl. lia.
  - intros a Ha Hk _. pose proof (gw_uses _ Hw _ Ha Hk). simpl. lia.
Qed.

Lemma revoke_twice p q d :
  (forall a, q (set_revoked a) = q a) ->
  update_where q set_revoked (update_where p set_revoked d) = update_where (fun a => p a || q a) set_revoked d.
Proof.
  intros Hq. unfold update_where. simpl. f_equal. rewrite map_map. apply map_ext. intros a.
  destruct (p a); simpl; [|done]. rewrite Hq. by destruct (q a).
Qed.

(** Revoking rows is safe when whoever loses its parent is revoked too. *)
Lemma revoke_wf p d :
  gate_wf d ->
  (forall a i, a ∈ tokens d -> i ∈ tokens d -> parent_id a = Some (tk_id i) -> tk_kind i = "invite"%string ->
     p i = true -> p a = true) ->
  gate_wf (update_where p set_revoked d).
Proof.
  intros Hw Hc. apply update_wf; auto with rcq.
  - rewrite map_update; [apply (gw_hashes _ Hw)|done].
  - intros a Ha _. simpl. lia.
  - intros a Ha Hk _. pose proof (gw_uses _ Hw _ Ha Hk). simpl. lia.
  - intros a i Ha Hi Hp Hk Hpi _. by rewrite (Hc a i).
Qed.

Lemma revoke_tx_wf id d : gate_wf d -> gate_wf (revoke_tx id d).2.
Proof.
  intros Hw. unfold revoke_tx. destruct (row_by_id id d) as [a|] eqn:E; [|done].
  apply find_first_Some in E as [Ha E]. breflect. destruct (String.eqb_spec (tk_kind a) "invite") as [Hk|Hk]; cbn [fst snd].
  - rewrite revoke_twice by done. apply revoke_wf; [done|]. intros b i Hb Hi Hp Hki Hor.
    apply orb_prop in Hor as [Hi'|Hi']; breflect.
    + unfold is_child. apply orb_true_intro. right. apply bool_decide_eq_true_2. congruence.
    + unfold is_child in Hi'. breflect. destruct (gw_kinds _ Hw _ Hi); congruence.
  - apply revoke_wf; [done|]. intros b i Hb Hi Hp Hki Hi'. breflect.
    rewrite (same_id _ i a Hw) in Hki by (done || congruence). done.
Qed.

Lemma sweep_wf dry now d : gate_wf d -> gate_wf (token_sweep dry now d).2.
Proof.
  intros Hw. unfold token_sweep. destruct dry; [done|]. apply delete_wf; [done|].
  intros a id Ha Hp Hr Hin. unfold swept_tokens in Hin. apply elem_of_lfilter in Hin as [Hin Hn].
  apply negb_true_iff, bool_decide_eq_false_1 in Hn. apply Hn. apply elem_of_lfilter. split; [done|].
  apply existsb_elem. exists a. split; [done|]. unfold is_child. rewrite Hr, bool_decide_eq_true_2 by done. done.
Qed.

Lemma create_wf now b h d : gate_wf d -> row_by_hash h d = None -> gate_wf (insert_token (created_row now b h) d).
Proof.
  intros Hw Hh. apply token_insert_wf; simpl; try done.
  - intros (a & E & Ha)%list_elem_of_fmap. pose proof (find_first_absent _ _ _ Hh Ha) as Hn. simpl in Hn.
    by rewrite <-E, String.eqb_refl in Hn.
  - assert (new_kind b = "invite"%string \/ new_kind b = "standing"%string) as [E|E].
    { unfold new_kind. destruct (String.eqb_spec (ct_kind b) "invite") as [->|]; [by left|].
      destruct (String.eqb_spec (ct_kind b) "standing") as [->|]; simpl; auto. }
    + apply kind_invite; simpl; rewrite ?E; done.
    + apply kind_standing; simpl; rewrite ?E; done.
Qed.

Lemma consume_wf now h d : gate_wf d -> gate_wf (update_where (consumable now h) use_once d).
Proof.
  intros Hw. apply update_wf; auto with rcq.
  - rewrite map_update; [apply (gw_hashes _ Hw)|done].
  - intros a Ha _. simpl. lia.
  - intros a Ha Hk Hc. unfold consumable in Hc. breflect.
    destruct (gw_kinds _ Hw _ Ha) as [_ _ _ Hm|Hk' _ _|? ? Hk' _ _ _ _]; [|congruence..].
    match goal with H : match tk_max_uses a with _ => _ end = true |- _ => rewrite Hm in H; breflect end. simpl. lia.
Qed.

(** What a redemption that read an invite knows: whoever has that digest and is
    an invite is that invite. *)
Definition pending_ok (d : gdb) (p : redemption) : Prop :=
  forall a, a ∈ tokens d -> token_hash a = rd_hash p -> tk_kind a = "invite"%string -> tk_id a = rd_invite p.

Lemma consume_insert now p h d :
  update_where (consumable now (rd_hash p)) use_once (insert_token (device_row now p h) d) =
  insert_token (device_row now p h) (update_where (consumable now (rd_hash p)) use_once d).
Proof.
  unfold update_where, insert_token. simpl. f_equal. rewrite map_app. f_equal. simpl.
  unfold consumable. simpl. by rewrite andb_false_r.
Qed.

Lemma rotate_hashes h t old d :
  gate_wf d -> old ∈ tokens d ->
  existsb (fun a => String.eqb (token_hash a) h && negb (tk_id a =? tk_id old)) (tokens d) = false ->
  NoDup (map token_hash (tokens (update_where (fun a => tk_id a =? tk_id old) (set_token h t) d))).
Proof.
  intros Hw Ho Hn. rewrite existsb_false_elem in Hn. unfold update_where. simpl. rewrite map_map.
  pose proof (gw_hashes _ Hw) as Hh. pose proof (gw_ids _ Hw) as Hi. clear Ho Hw. revert Hn Hh Hi.
  induction (tokens d) as [|a l IH]; intros Hn Hh Hi; simpl; [constructor|].
  apply NoDup_cons in Hh as [Hh1 Hh2]. apply NoDup_cons in Hi as [Hi1 Hi2].
  constructor; [|apply IH; [|done..]; intros x Hx; apply Hn; by right].
  intros (b & E & Hb)%list_elem_of_fmap.
  pose proof (Hn a ltac:(left)) as Ha'. pose proof (Hn b ltac:(by right)) as Hb'.
  destruct (Z.eqb_spec (tk_id a) (tk_id old)) as [Ea|Ea], (Z.eqb_spec (tk_id b) (tk_id old)) as [Eb|Eb]; simpl in *.
  - apply Hi1. rewrite Ea, <-Eb. by apply list_elem_of_fmap_2.
  - rewrite <-E, String.eqb_refl in Hb'. done.
  - rewrite E, String.eqb_refl in Ha'. done.
  - apply Hh1. rewrite E. by apply list_elem_of_fmap_2.
Qed.

Lemma redeem_tx_wf now p h d : gate_wf d -> pending_ok d p -> gate_wf (redeem_tx now p h d).2.
Proof.
  intros Hw Hp. unfold redeem_tx. destruct (row_by_device (rd_device p) d) as [old|] eqn:Ed.
  - apply find_first_Some in Ed as [Ho Ed]. breflect. case_cond; [done|]. cbn [snd].
    apply update_wf; auto with rcq; [by apply rotate_hashes|intros a Ha _; simpl; lia|].
    intros a Ha Hk Hid. breflect. pose proof (gw_uses _ Hw _ Ha Hk). simpl. lia.
  - destruct (row_by_hash h d) as [|] eqn:Eh; [done|]. case_cond; [|done]. cbn [snd]. rewrite consume_insert.
    assert (Hab : forall a, a ∈ tokens (update_where (consumable now (rd_hash p)) use_once d) ->
              exists b, b ∈ tokens d /\ token_hash a = token_hash b /\ tk_device_id a = tk_device_id b).
    { intros a (b & Hb & ->)%elem_of_update. exists b. by destruct (consumable _ _ b). }
    apply token_insert_wf; simpl; [by apply consume_wf|done|..].
    + intros (a & E & (b & Hb & Ehb & _)%Hab)%list_elem_of_fmap. pose proof (find_first_absent _ _ _ Eh Hb) as Hn. simpl in Hn.
      rewrite <-Ehb, <-E, String.eqb_refl in Hn. done.
    + intros dev [= <-] a (b & Hb & _ & ->)%Hab Hdev. pose proof (find_first_absent _ _ _ Ed Hb) as Hn. simpl in Hn.
      by rewrite bool_decide_eq_true_2 in Hn.
    + by apply (kind_device _ (rd_invite p) (rd_device p)).
    + done.
    + intros id [= <-]. match goal with H : existsb _ _ = true |- _ => apply existsb_elem in H as (i & Hi & Hc) end.
      simpl in Hi. apply elem_of_app in Hi as [Hi| ->%list_elem_of_singleton];
        [|unfold consumable in Hc; simpl in Hc; by rewrite andb_false_r in Hc].
      pose proof Hc as Hc'. unfold consumable in Hc'. breflect.
      match goal with H : String.eqb (token_hash i) _ = true |- _ => apply String.eqb_eq in H end.
      match goal with H : String.eqb (tk_kind i) _ = true |- _ => apply String.eqb_eq in H end.
      exists (use_once i). split; [apply elem_of_update; exists i; by rewrite Hc|]. rewrite <-(Hp i) by done.
      split; [done|]. split; [done|]. split; [done|].
      pose proof (children_update (tk_id i) (consumable now (rd_hash p)) use_once d use_once_frame) as Hcu.
      simpl in Hcu. rewrite Hcu. pose proof (gw_uses _ Hw i Hi ltac:(done)). simpl. lia.
Qed.

(** ** How the table changes

    Every row is an earlier row with its digest, further used or revoked, or it
    carries a digest drawn in this step. *)

Record grown (a a' : AccessToken) : Prop := {
  gr_hash : token_hash a' = token_hash a;
  gr_id : tk_id a' = tk_id a;
  gr_kind : tk_kind a' = tk_kind a;
  gr_max : tk_max_uses a' = tk_max_uses a;
  gr_expires : tk_expires_at a' = tk_expires_at a;
  gr_uses : tk_uses a <= tk_uses a';
  gr_revoked : tk_revoked a = true -> tk_revoked a' = true
}.

Definition evolves (new : option string) (d d' : gdb) : Prop :=
  forall a', a' ∈ tokens d' -> (exists a, a ∈ tokens d /\ grown a a') \/ new = Some (token_hash a').

Lemma grown_refl a : grown a a. Proof. split; try done; lia. Qed.
#[export] Hint Resolve grown_refl : rcq.

Lemma evolves_refl new d : evolves new d d.
Proof. intros a Ha. left. eauto with rcq. Qed.
#[export] Hint Resolve evolves_refl : rcq.

Lemma evolves_trans new d1 d2 d3 : evolves new d1 d2 -> evolves new d2 d3 -> evolves new d1 d3.
Proof.
  intros H1 H2 a3 H3. destruct (H2 _ H3) as [(a2 & Ha2 & [])|]; [|by right].
  destruct (H1 _ Ha2) as [(a1 & Ha1 & [])|Hn]; [left; exists a1; split; [done|]; split; (congruence || lia || auto)|].
  right. congruence.
Qed.

Lemma update_evolves new p f d :
  (forall a, a ∈ tokens d -> p a = true -> grown a (f a) \/ new = Some (token_hash (f a))) -> evolves new d (update_where p f d).
Proof.
  intros H a' (a & Ha & ->)%elem_of_update. destruct (p a) eqn:E; [|left; eauto with rcq].
  destruct (H a Ha E) as [Hg|Hn]; eauto.
Qed.

Lemma insert_evolves f d : evolves (Some (token_hash (f (next_token d)))) d (insert_token f d).
Proof. intros a. simpl. intros [Ha| ->%list_elem_of_singleton]%elem_of_app; [left; eauto with rcq|by right]. Qed.

Lemma set_used_at_grown t a : grown a (set_used_at t a). Proof. split; simpl; try done; lia. Qed.
Lemma set_revoked_grown a : grown a (set_revoked a). Proof. split; simpl; try done; lia. Qed.
Lemma use_once_grown a : grown a (use_once a). Proof. split; simpl; try done; lia. Qed.
#[export] Hint Resolve set_used_at_grown set_revoked_grown use_once_grown : rcq.

Lemma redeem_tx_evolves now p h d : evolves (Some h) d (redeem_tx now p h d).2.
Proof.
  unfold redeem_tx. destruct (row_by_device (rd_device p) d); [case_cond|destruct (row_by_hash h d); [|case_cond]];
    cbn [snd]; try apply evolves_refl.
  - apply update_evolves. intros b _ _. by right.
  - rewrite consume_insert. eapply evolves_trans; [|apply insert_evolves]. apply update_evolves. auto with rcq.
Qed.

Lemma revoke_tx_evolves new id d : evolves new d (revoke_tx id d).2.
Proof.
  unfold revoke_tx. destruct (row_by_id id d) as [a|]; [|apply evolves_refl].
  destruct (String.eqb (tk_kind a) "invite"); cbn [fst snd]; rewrite ?revoke_twice by done; apply update_evolves; auto with rcq.
Qed.

Lemma sweep_evolves new dry now d : evolves new d (token_sweep dry now d).2.
Proof.
  unfold token_sweep. destruct dry; [apply evolves_refl|]. intros a [Ha _]%elem_of_lfilter. left. eauto with rcq.
Qed.

Lemma dead_grown a a' : grown a a' -> dead_row a -> dead_row a'.
Proof.
  intros [] [Hr|(mu & Hm & Hu)]; [left; auto|]. right. exists mu. split; [congruence|lia].
Qed.

(** ** Everything that happens at the gate *)

Section runs.
Context {R : Type} `{RR : Redis R} {HR : RedisLaws R}.
Context (hash : string -> string) (meta_json : meta -> string) (parse_meta : string -> option meta).
Context (isoformat : Z -> string) (fromisoformat : string -> option Z) (master : string).
Hypothesis meta_roundtrip : forall m, parse_meta (meta_json m) = Some m.
Hypothesis iso_roundtrip : forall t, fromisoformat (isoformat t) = Some t.
Hypothesis meta_text : forall m, meta_json m <> ""%string.

Notation check := (gate_check hash meta_json parse_meta isoformat fromisoformat master).
Notation answer := (check_answer hash parse_meta isoformat fromisoformat master).
Notation select := (check_select isoformat).
Notation look := (redeem_look hash isoformat fromisoformat master).
Notation create := (admin_create_token hash).
Notation fill := (cache_fill meta_json).

(** The table, Redis, the redemptions that have read their invite, the cache
    entries on their way to Redis (of checks that have read a row and of
    redemptions that have committed), and every digest drawn so far. *)
Record gst := mkGst {
  g_db : gdb; g_redis : R; g_pending : list redemption; g_fills : list (string * meta); g_drawn : gset string
}.

(** The entry a redemption that went through is going to write. *)
Definition after_redeem (o : outcome bool) (h : string) (fl : list (string * meta)) : list (string * meta) :=
  match o with Ok true => (h, fresh_meta) :: fl | _ => fl end.

(** The statements of every handler that change something or remember what they
    read.  A drawn token never repeats; stamps and evictions may name any digest;
    Redis may fail at any write. *)
Inductive gstep : Z * gst -> Z * gst -> Prop :=
  | gs_select t now f h m d r ps fl dr :
      t <= now -> select f h d = Some m -> gstep (t, mkGst d r ps fl dr) (now, mkGst d r ps ((h, m) :: fl) dr)
  | gs_fill t now up h m d r ps fl1 fl2 dr :
      t <= now -> gstep (t, mkGst d r ps (fl1 ++ (h, m) :: fl2) dr) (now, mkGst d (fill up now h m r) ps (fl1 ++ fl2) dr)
  | gs_stamp t now f h d r ps fl dr :
      t <= now -> gstep (t, mkGst d r ps fl dr) (now, mkGst (stamp_use f now h d r).1 (stamp_use f now h d r).2 ps fl dr)
  | gs_look t now dev auth p d r ps fl dr :
      t <= now -> look now dev auth d = Ok (GoOn p) -> gstep (t, mkGst d r ps fl dr) (now, mkGst d r (p :: ps) fl dr)
  | gs_redeem t now p raw d r ps fl dr :
      t <= now -> p ∈ ps -> hash raw ∉ dr ->
      gstep (t, mkGst d r ps fl dr)
        (now, mkGst (redeem_tx now p (hash raw) d).2 r ps
                (after_redeem (redeem_tx now p (hash raw) d).1 (hash raw) fl) ({[ hash raw ]} ∪ dr))
  | gs_create t now b raw d r ps fl dr :
      t <= now -> hash raw ∉ dr ->
      gstep (t, mkGst d r ps fl dr) (now, mkGst (create now b raw d).2 r ps fl ({[ hash raw ]} ∪ dr))
  | gs_revoke t now id d r ps fl dr :
      t <= now -> gstep (t, mkGst d r ps fl dr) (now, mkGst (revoke_tx id d).2 r ps fl dr)
  | gs_evict t now up hs d r ps fl dr :
      t <= now -> gstep (t, mkGst d r ps fl dr) (now, mkGst d (evict up now hs r) ps fl dr)
  | gs_sweep t now dry d r ps fl dr :
      t <= now -> gstep (t, mkGst d r ps fl dr) (now, mkGst (token_sweep dry now d).2 r ps fl dr)
  | gs_elsewhere t now r' d r ps fl dr :
      t <= now -> (forall h, peek now (meta_key h) r' = peek now (meta_key h) r) ->
      gstep (t, mkGst d r ps fl dr) (now, mkGst d r' ps fl dr).

Definition gstart (s : Z * gst) : Prop :=
  g_db s.2 = empty_gdb /\ g_pending s.2 = [] /\ g_fills s.2 = [] /\ forall h, peek s.1 (meta_key h) (g_redis s.2) = None.

Definition greach (s : Z * gst) : Prop := exists s0, gstart s0 /\ rtc gstep s0 s.

(** A cache entry says of a row no more than the row does. *)
Definition older (m : meta) (a : AccessToken) : Prop :=
  m_max_uses m = tk_max_uses a /\ m_expires_at m = option_map isoformat (tk_expires_at a) /\
  m_uses m <= tk_uses a /\ (m_revoked m = true -> tk_revoked a = true).

Lemma older_row a : older (meta_from_row isoformat a) a.
Proof. split; [done|]. split; [done|]. split; [simpl; lia|done]. Qed.

Lemma older_grown m a a' : older m a -> grown a a' -> older m a'.
Proof.
  intros (H1 & H2 & H3 & H4) []. split; [congruence|]. split; [congruence|]. split; [lia|auto].
Qed.

Definition tells (dr : gset string) (d : gdb) (h : string) (m : meta) : Prop :=
  h ∈ dr /\ forall a, a ∈ tokens d -> token_hash a = h -> older m a.

Definition cache_ok (t : Z) (dr : gset string) (d : gdb) (r : R) : Prop :=
  forall h e, peek t (meta_key h) r = Some e -> exists m x, e = (VStr (meta_json m), Some x) /\
    x <= t + seconds CACHE_TTL /\ tells dr d h m.

Lemma cache_later t t' dr d r : t <= t' -> cache_ok t dr d r -> cache_ok t' dr d r.
Proof using HR.
  intros Ht Hc h e. rewrite (peek_later t t') by done. destruct (peek t (meta_key h) r) as [e'|] eqn:E; [|done].
  destruct (Hc h e' E) as (m & x & -> & Hx & Hrest). simpl. case_cond; [done|]. intros [= <-].
  exists m, x. split; [done|]. split; [lia|done].
Qed.

(** The digest drawn in a step, if any, was not drawn before. *)
Definition draws (new : option string) (dr dr' : gset string) : Prop :=
  match new with Some h => h ∉ dr /\ dr' = {[ h ]} ∪ dr | None => dr' = dr end.

Lemma tells_evolves new dr dr' d d' h m :
  tells dr d h m -> evolves new d d' -> draws new dr dr' -> tells dr' d' h m.
Proof.
  intros [Hd Ho] He Hn. split.
  { destruct new; [|simpl in Hn; congruence]; destruct Hn as [_ ->]; by apply elem_of_union_r. }
  intros a' Ha' Hh. destruct (He a' Ha') as [(a & Ha & Hg)| ->]; [|destruct Hn; congruence].
  apply (older_grown _ a); [|done]. apply Ho; [done|]. by rewrite <-(gr_hash _ _ Hg).
Qed.

Lemma cache_evolves t new dr dr' d d' r :
  cache_ok t dr d r -> evolves new d d' -> draws new dr dr' -> cache_ok t dr' d' r.
Proof.
  intros Hc He Hn h e Hp. destruct (Hc h e Hp) as (m & x & -> & Hx & Ht). exists m, x.
  split; [done|]. split; [done|]. by apply (tells_evolves new dr _ d).
Qed.

Lemma cache_same t dr d r r' :
  (forall h, peek t (meta_key h) r' = peek t (meta_key h) r) -> cache_ok t dr d r -> cache_ok t dr d r'.
Proof. intros He Hc h e. rewrite He. apply Hc. Qed.

Lemma meta_key_inj h h' : meta_key h = meta_key h' -> h = h'.
Proof. unfold meta_key. simpl. intros H. by simplify_eq. Qed.

Lemma cache_filled t up dr d r h m : tells dr d h m -> cache_ok t dr d r -> cache_ok t dr d (fill up t h m r).
Proof using HR.
  intros Hm Hc. unfold cache_fill. destruct up; [|done]. intros h' e. rewrite (rset_spec t (meta_key h) (meta_json m) (Some CACHE_TTL) r).
  destruct (decide (meta_key h' = meta_key h)) as [->%meta_key_inj|]; [|apply Hc].
  simpl. case_cond; [done|]. intros [= <-]. exists m, (t + seconds CACHE_TTL). split; [done|]. split; [lia|done].
Qed.

(** Reading the cache. *)
Lemma cached_none f t h r : peek t (meta_key h) r = None -> cached_meta parse_meta f t h r = None.
Proof using HR.
  intros E. unfold cached_meta. destruct (cache_read f); [|done]. pose proof (rget_spec t (meta_key h) r) as H.
  rewrite E in H. by rewrite H.
Qed.

Lemma cached_some f t h r m x :
  peek t (meta_key h) r = Some (VStr (meta_json m), x) -> cached_meta parse_meta f t h r = if cache_read f then Some m else None.
Proof using HR meta_roundtrip meta_text.
  intros E. unfold cached_meta. destruct (cache_read f); [|done]. pose proof (rget_spec t (meta_key h) r) as H.
  rewrite E in H. rewrite H. destruct (String.eqb_spec (meta_json m) ""); [by destruct (meta_text m)|done].
Qed.

Lemma stamp_redis f t h d r k : peek t (meta_key k) (stamp_use f t h d r).2 = peek t (meta_key k) r.
Proof using HR.
  unfold stamp_use. destruct (throttle f); [|done].
  pose proof (set_nx_spec t (lru_key h) "1" (Some LRU_THROTTLE) r) as H.
  destruct (set_nx t (lru_key h) "1" (Some LRU_THROTTLE) r) as [b r'] eqn:E. simpl in *.
  destruct (peek t (lru_key h) r) as [e|]; destruct H as [_ H]; rewrite (H (meta_key k)); by rewrite decide_False.
Qed.

Lemma stamp_table f t h d r :
  (stamp_use f t h d r).1 = d \/ (stamp_use f t h d r).1 = update_where (fun a => String.eqb (token_hash a) h) (set_used_at t) d.
Proof.
  unfold stamp_use. destruct (throttle f); [|by left]. destruct (set_nx t (lru_key h) "1" (Some LRU_THROTTLE) r) as [b r'].
  simpl. destruct (b && stamp_write f); auto.
Qed.

Lemma evict_peek up t hs r k : peek t (meta_key k) (evict up t hs r) = None \/ peek t (meta_key k) (evict up t hs r) = peek t (meta_key k) r.
Proof using HR.
  unfold evict. destruct up; [|by right]. revert r. induction hs as [|h hs IH]; intros r; simpl; [by right|].
  destruct (IH (del t (meta_key h) r)) as [E|E]; [by left|]. rewrite E, (del_spec t (meta_key h) r (meta_key k)).
  case_decide; auto.
Qed.

Record ginv (t : Z) (st : gst) : Prop := {
  gi_wf : gate_wf (g_db st);
  gi_drawn a : a ∈ tokens (g_db st) -> token_hash a ∈ g_drawn st;
  gi_pending p : p ∈ g_pending st -> rd_hash p ∈ g_drawn st /\ pending_ok (g_db st) p;
  gi_fills h m : (h, m) ∈ g_fills st -> tells (g_drawn st) (g_db st) h m;
  gi_cache : cache_ok t (g_drawn st) (g_db st) (g_redis st)
}.

(** What the steps have in common: the table evolves and stays well-formed. *)
Lemma ginv_evolves t t' new d d' r ps fl dr dr' :
  ginv t (mkGst d r ps fl dr) -> t <= t' -> gate_wf d' -> evolves new d d' -> draws new dr dr' -> ginv t' (mkGst d' r ps fl dr').
Proof using HR.
  intros [Hw Hd Hp Hl Hc] Ht Hw' He Hn. simpl in *.
  assert (Hs : dr ⊆ dr') by (destruct new; [destruct Hn as [_ ->]; apply union_subseteq_r|by rewrite Hn]).
  split; simpl; [done|..].
  - intros a' Ha'. destruct (He a' Ha') as [(a & Ha & [])| ->]; [|destruct Hn as [_ ->]; by apply elem_of_union_l, elem_of_singleton].
    rewrite gr_hash0. by apply Hs, Hd.
  - intros p Hin. destruct (Hp p Hin) as [Hh Ho]. split; [by apply Hs|]. intros a' Ha' Hh' Hk'.
    destruct (He a' Ha') as [(a & Ha & [])| ->]; [rewrite gr_id0; apply Ho; congruence|]. destruct Hn. congruence.
  - intros h m Hin. apply (tells_evolves new dr _ d); auto.
  - apply (cache_evolves _ new dr _ d); [by apply (cache_later t)|done|done].
Qed.

Lemma ginv_redis t d r r' ps fl dr :
  ginv t (mkGst d r ps fl dr) -> cache_ok t dr d r' -> ginv t (mkGst d r' ps fl dr).
Proof. intros [Hw Hd Hp Hl _] Hc. by split. Qed.

Lemma ginv_fills t d r ps fl fl' dr :
  ginv t (mkGst d r ps fl dr) -> (forall h m, (h, m) ∈ fl' -> (h, m) ∈ fl \/ tells dr d h m) -> ginv t (mkGst d r ps fl' dr).
Proof. intros [Hw Hd Hp Hl Hc] Hf. split; [done..| |done]. intros h m [?|?]%Hf; auto. Qed.

Lemma ginv_later t t' st : ginv t st -> t <= t' -> ginv t' st.
Proof using HR. destruct st. intros [Hw Hd Hp Hl Hc] Ht. split; [done..|]. by apply (cache_later t). Qed.

Lemma select_row f h d m :
  select f h d = Some m -> exists a, a ∈ tokens d /\ token_hash a = h /\ m = meta_from_row isoformat a.
Proof.
  unfold check_select. destruct (table_read f); [|done]. destruct (row_by_hash h d) as [a|] eqn:Ea; [|done].
  intros [= <-]. apply find_first_Some in Ea as [Ha Eh%String.eqb_eq]. eauto.
Qed.

Lemma select_tells t f h m d r ps fl dr : ginv t (mkGst d r ps fl dr) -> select f h d = Some m -> tells dr d h m.
Proof.
  intros Hi (a & Ha & <- & ->)%select_row. split; [by apply (gi_drawn _ _ Hi)|].
  intros b Hb E. rewrite (same_hash _ _ _ (gi_wf _ _ Hi) Hb Ha E). apply older_row.
Qed.

Lemma ginv_stamp t f h d r ps fl dr :
  ginv t (mkGst d r ps fl dr) -> ginv t (mkGst (stamp_use f t h d r).1 (stamp_use f t h d r).2 ps fl dr).
Proof using HR.
  intros Hi. pose proof (stamp_redis f t h d r) as Hr.
  assert (Hi' : ginv t (mkGst (stamp_use f t h d r).1 r ps fl dr)).
  { apply (ginv_evolves t t None d _ r ps fl dr); [done|lia|..|done]; destruct (stamp_table f t h d r) as [->| ->].
    - apply (gi_wf _ _ Hi).
    - apply stamp_wf, (gi_wf _ _ Hi).
    - apply evolves_refl.
    - apply update_evolves. auto with rcq. }
  apply (ginv_redis _ _ r); [done|]. eapply cache_same; [apply Hr|exact (gi_cache _ _ Hi')].
Qed.

(** What the drawn digest's entry says of the row that carries it. *)
Lemma redeem_tx_fresh now p h d d' a :
  gate_wf d -> redeem_tx now p h d = (Ok true, d') -> a ∈ tokens d' -> token_hash a = h -> older fresh_meta a.
Proof.
  intros Hw. unfold redeem_tx. destruct (row_by_device (rd_device p) d) as [old|] eqn:Ed.
  - apply find_first_Some in Ed as [Ho Ed]. breflect. case_cond; [done|]. intros [= <-] (b & Hb & ->)%elem_of_update.
    rewrite existsb_false_elem in Heqb. specialize (Heqb b Hb). simpl in Heqb.
    destruct (Z.eqb_spec (tk_id b) (tk_id old)) as [E|E]; intros Hh; [|simpl in Heqb; by rewrite Hh, String.eqb_refl in Heqb].
    rewrite (same_id _ _ _ Hw Hb Ho E). destruct (gw_kinds _ Hw _ Ho) as [_ _ Hk _|_ _ Hk|? ? _ _ _ Hm He]; [congruence..|].
    pose proof (gw_used _ Hw _ Ho). split; [simpl; by rewrite Hm|]. split; [simpl; by rewrite He|]. split; [simpl; lia|done].
  - destruct (row_by_hash h d) as [|] eqn:Eh; [done|]. case_cond; [|done]. rewrite consume_insert. intros [= <-]. simpl.
    rewrite elem_of_app. intros [(b & -> & Hb)%list_elem_of_fmap|Ha] Hh.
    + pose proof (find_first_absent _ _ _ Eh Hb) as Hn. simpl in Hn.
      assert (token_hash (if consumable now (rd_hash p) b then use_once b else b) = token_hash b) as E by (by destruct (consumable _ _ b)).
      by rewrite <-E, Hh, String.eqb_refl in Hn.
    + apply list_elem_of_singleton in Ha as ->. split; [done|]. split; [done|]. split; [simpl; lia|done].
Qed.

Lemma ginv_redeem t p raw d r ps fl dr :
  ginv t (mkGst d r ps fl dr) -> p ∈ ps -> hash raw ∉ dr ->
  ginv t (mkGst (redeem_tx t p (hash raw) d).2 r ps (after_redeem (redeem_tx t p (hash raw) d).1 (hash raw) fl) ({[ hash raw ]} ∪ dr)).
Proof using HR.
  intros Hi Hp Hn. apply (ginv_fills _ _ _ _ fl).
  - apply (ginv_evolves t t (Some (hash raw)) d _ r ps fl dr); [done|lia| |apply redeem_tx_evolves|done].
    apply redeem_tx_wf; [apply (gi_wf _ _ Hi)|apply (gi_pending _ _ Hi p Hp)].
  - intros h m. destruct (redeem_tx t p (hash raw) d) as [[[]|ex] d'] eqn:E; simpl; [|auto..].
    intros [[= -> ->]|]%elem_of_cons; [right|auto]. split; [by apply elem_of_union_l, elem_of_singleton|].
    intros a Ha Hh. apply (redeem_tx_fresh t p (hash raw) d d'); [apply (gi_wf _ _ Hi)|done..].
Qed.

Lemma look_pending t dev auth p d ps fl r dr :
  ginv t (mkGst d r ps fl dr) -> look t dev auth d = Ok (GoOn p) -> rd_hash p ∈ dr /\ pending_ok d p.
Proof.
  intros Hi. unfold redeem_look. destruct (_ || _); [done|]. destruct (env_master_matches _ _) as [[]|]; [done| |done]. simpl.
  destruct (row_by_hash _ d) as [a|] eqn:Ea; [|done]. repeat (case_cond; [done|]). intros [= <-]. simpl.
  apply find_first_Some in Ea as [Ha Eh%String.eqb_eq]. rewrite <-Eh. split; [by apply (gi_drawn _ _ Hi)|].
  intros b Hb Hh _. simpl in *. by rewrite (same_hash _ b a (gi_wf _ _ Hi) Hb Ha Hh).
Qed.

Lemma ginv_step s s' : gstep s s' -> ginv s.1 s.2 -> ginv s'.1 s'.2.
Proof using HR.
  destruct 1 as [t now f h m d r ps fl dr Ht Hs|t now up h m d r ps fl1 fl2 dr Ht|t now f h d r ps fl dr Ht
    |t now dev auth p d r ps fl dr Ht Hl|t now p raw d r ps fl dr Ht Hp Hn|t now b raw d r ps fl dr Ht Hn
    |t now id d r ps fl dr Ht|t now up hs d r ps fl dr Ht|t now dry d r ps fl dr Ht|t now r' d r ps fl dr Ht He];
    simpl; intros Hi; apply (ginv_later _ now) in Hi; try done.
  - apply (ginv_fills _ _ _ _ fl); [done|]. intros h' m' [[= -> ->]|]%elem_of_cons; [right|auto]. by eapply select_tells.
  - apply (ginv_redis _ _ r).
    + apply (ginv_fills _ _ _ _ (fl1 ++ (h, m) :: fl2)); [done|]. intros h' m'. rewrite !elem_of_app, elem_of_cons. tauto.
    + apply cache_filled; [|exact (gi_cache _ _ Hi)]. apply (gi_fills _ _ Hi). apply elem_of_app. right. left.
  - by apply ginv_stamp.
  - destruct (look_pending _ _ _ _ _ _ _ _ _ Hi Hl) as [H1 H2]. destruct Hi as [Hw Hd Hp Hf Hc]. split; [done|done| |done|done].
    intros q [->|Hq]%elem_of_cons; [by split|by apply Hp].
  - by apply ginv_redeem.
  - apply (ginv_evolves now now (Some (hash raw)) d _ r ps fl dr); [done|lia|..|done].
    + unfold admin_create_token. destruct (row_by_hash (hash raw) d) eqn:E; [apply (gi_wf _ _ Hi)|].
      apply create_wf; [apply (gi_wf _ _ Hi)|done].
    + unfold admin_create_token. destruct (row_by_hash (hash raw) d) eqn:E; [apply evolves_refl|apply insert_evolves].
  - apply (ginv_evolves now now None d _ r ps fl dr); [done|lia|apply revoke_tx_wf, (gi_wf _ _ Hi)|apply revoke_tx_evolves|done].
  - apply (ginv_redis _ _ r); [done|]. intros h e. destruct (evict_peek up now hs r h) as [->| ->]; [done|apply (gi_cache _ _ Hi)].
  - apply (ginv_evolves now now None d _ r ps fl dr); [done|lia|apply sweep_wf, (gi_wf _ _ Hi)|apply sweep_evolves|done].
  - apply (ginv_redis _ _ r); [done|]. eapply cache_same; [apply He|exact (gi_cache _ _ Hi)].
Qed.

Lemma ginv_reach s : greach s -> ginv s.1 s.2.
Proof using HR.
  intros (s0 & (Hd & Hp & Hl & Hc) & Hr). assert (Hi : ginv s0.1 s0.2).
  { split; rewrite ?Hd, ?Hp, ?Hl; [apply empty_gate_wf|intros a []%elem_of_nil|intros p []%elem_of_nil|intros h m []%elem_of_nil|].
    intros h e. by rewrite Hc. }
  clear Hd Hp Hl Hc. induction Hr as [|s1 s2 s3 H12 _ IH]; [done|]. apply IH. by apply (ginv_step s1).
Qed.

(** C25. in every interleaving of checks, redemptions, the operator's requests
    and the sweep: a digest and a device are of one row, an invite has admitted
    at most one device, and a device that is not revoked stands under an invite
    that is still there and not revoked, so that revoking the invite cuts the
    device off. *)
Theorem gate_wf_run (s : Z * gst) : greach s -> gate_wf (g_db s.2).
Proof using HR. intros Hr. apply (gi_wf _ _ (ginv_reach _ Hr)). Qed.

(** ** Dead tokens *)

Definition dead_meta (m : meta) : Prop := m_revoked m = true \/ exists mu, m_max_uses m = Some mu /\ mu <= m_uses m.

Lemma dead_inactive now m : dead_meta m -> active fromisoformat now m = false.
Proof.
  unfold active. intros [->|(mu & -> & Hu)]; [done|]. rewrite (proj2 (Z.leb_le _ _) Hu). by rewrite andb_false_r.
Qed.

Lemma dead_from_row a : dead_row a -> dead_meta (meta_from_row isoformat a).
Proof. done. Qed.

(** From [t0] on no live row has the digest, whatever is on its way to the cache
    says so too, and what the cache says otherwise expires within 45 seconds of
    [t0]. *)
Record fading (h : string) (t0 t : Z) (d : gdb) (r : R) (fl : list (string * meta)) : Prop := {
  fd_rows a : a ∈ tokens d -> token_hash a = h -> dead_row a;
  fd_fills m : (h, m) ∈ fl -> dead_meta m;
  fd_cache m x : peek t (meta_key h) r = Some (VStr (meta_json m), Some x) -> x <= t0 + seconds CACHE_TTL \/ dead_meta m
}.

Lemma fading_later h t0 t t' d r fl : t <= t' -> fading h t0 t d r fl -> fading h t0 t' d r fl.
Proof using HR.
  intros Ht [H1 H2 H3]. split; [done..|]. intros m x. rewrite (peek_later t t') by done.
  destruct (peek t (meta_key h) r) as [[v [y|]]|] eqn:E; simpl; [case_cond; [done|]|done..]. intros [= -> ->]. by apply H3.
Qed.

Lemma fading_evolves h t0 t new dr dr' d d' r fl :
  fading h t0 t d r fl -> evolves new d d' -> draws new dr dr' -> h ∈ dr -> fading h t0 t d' r fl.
Proof.
  intros [H1 H2 H3] He Hn Hd. split; [|done..]. intros a' Ha' Hh.
  destruct (He a' Ha') as [(a & Ha & Hg)| ->]; [|destruct Hn; congruence].
  apply (dead_grown _ _ Hg), H1; [done|]. by rewrite <-(gr_hash _ _ Hg).
Qed.

Lemma fading_same h t0 t d r r' fl :
  peek t (meta_key h) r' = None \/ peek t (meta_key h) r' = peek t (meta_key h) r -> fading h t0 t d r fl -> fading h t0 t d r' fl.
Proof. intros E [H1 H2 H3]. split; [done..|]. intros m x. destruct E as [->| ->]; [done|apply H3]. Qed.

Lemma fading_fills h t0 t d r fl fl' :
  (forall m, (h, m) ∈ fl' -> (h, m) ∈ fl \/ dead_meta m) -> fading h t0 t d r fl -> fading h t0 t d r fl'.
Proof. intros Hf [H1 H2 H3]. split; [done| |done]. intros m [?|?]%Hf; auto. Qed.

Lemma fading_filled h h' up t0 t d r fl m :
  (h' = h -> dead_meta m) -> fading h t0 t d r fl -> fading h t0 t d (fill up t h' m r) fl.
Proof using HR meta_roundtrip.
  intros Hm [H1 H2 H3]. split; [done..|]. intros m' x. unfold cache_fill. destruct up; [|apply H3].
  rewrite (rset_spec t (meta_key h') _ _ r).
  destruct (decide (meta_key h = meta_key h')) as [E%meta_key_inj|]; [|apply H3].
  simpl. case_cond; [done|]. intros [= E2 _]. right. apply (f_equal parse_meta) in E2. rewrite !meta_roundtrip in E2.
  injection E2 as ->. by apply Hm.
Qed.

Notation fading_in h t0 s := (fading h t0 s.1 (g_db s.2) (g_redis s.2) (g_fills s.2)).

Lemma fading_step h t0 s s' :
  gstep s s' -> h ∈ g_drawn s.2 -> fading_in h t0 s -> h ∈ g_drawn s'.2 /\ fading_in h t0 s'.
Proof using HR meta_roundtrip.
  destruct 1 as [t now f k m d r ps fl dr Ht Hs|t now up k m d r ps fl1 fl2 dr Ht|t now f k d r ps fl dr Ht
    |t now dev auth p d r ps fl dr Ht Hl|t now p raw d r ps fl dr Ht Hp Hn|t now b raw d r ps fl dr Ht Hn
    |t now id d r ps fl dr Ht|t now up hs d r ps fl dr Ht|t now dry d r ps fl dr Ht|t now r' d r ps fl dr Ht He];
    simpl; intros Hh Hf; apply (fading_later _ _ _ now) in Hf; try done;
    (split; [first [done|by apply elem_of_union_r]|]).
  - apply (fading_fills _ _ _ _ _ fl); [|done]. intros m' [[= -> ->]|]%elem_of_cons; [right|auto].
    apply select_row in Hs as (a & Ha & Hk & ->). by apply dead_from_row, (fd_rows _ _ _ _ _ _ Hf).
  - apply (fading_fills _ _ _ _ _ (fl1 ++ (k, m) :: fl2)); [intros m'; rewrite !elem_of_app, elem_of_cons; tauto|].
    apply fading_filled; [|done]. intros ->. apply (fd_fills _ _ _ _ _ _ Hf). apply elem_of_app. right. left.
  - eapply fading_same; [right; apply stamp_redis|]. apply (fading_evolves _ _ _ None dr dr d); [done| |done|done].
    destruct (stamp_table f now k d r) as [->| ->]; [apply evolves_refl|apply update_evolves; auto with rcq].
  - apply (fading_fills _ _ _ _ _ fl).
    + intros m. destruct (redeem_tx now p (hash raw) d) as [[[]|ex] d']; simpl; [|auto..].
      intros [[= E _]|]%elem_of_cons; [congruence|auto].
    + apply (fading_evolves _ _ _ (Some (hash raw)) dr ({[ hash raw ]} ∪ dr) d); [done|apply redeem_tx_evolves|done|done].
  - apply (fading_evolves _ _ _ (Some (hash raw)) dr ({[ hash raw ]} ∪ dr) d); [done| |done|done].
    unfold admin_create_token. destruct (row_by_hash (hash raw) d) eqn:E; [apply evolves_refl|apply insert_evolves].
  - apply (fading_evolves _ _ _ None dr dr d); [done|apply revoke_tx_evolves|done|done].
  - eapply fading_same; [apply evict_peek|done].
  - apply (fading_evolves _ _ _ None dr dr d); [done|apply sweep_evolves|done|done].
  - eapply fading_same; [right; apply He|done].
Qed.

Lemma step_time s s' : gstep s s' -> s.1 <= s'.1.
Proof. by destruct 1. Qed.

Lemma fading_run h t0 s s' :
  rtc gstep s s' -> h ∈ g_drawn s.2 -> fading_in h t0 s -> h ∈ g_drawn s'.2 /\ fading_in h t0 s'.
Proof using HR meta_roundtrip.
  induction 1 as [|s1 s2 s3 H12 _ IH]; [done|]. intros Hh Hf.
  destruct (fading_step h t0 s1 s2 H12 Hh Hf) as [Hh2 Hf2]. by apply IH.
Qed.

Lemma greach_run s s' : greach s -> rtc gstep s s' -> greach s'.
Proof. intros (s0 & H0 & Hr) Hr'. exists s0. split; [done|]. by transitivity s. Qed.

(** What a check made after the 45 seconds finds in the cache. *)
Lemma faded_hit h t0 s now m x :
  fading_in h t0 s -> s.1 <= now -> t0 + seconds CACHE_TTL <= now ->
  peek now (meta_key h) (g_redis s.2) = Some (VStr (meta_json m), Some x) -> dead_meta m.
Proof using HR.
  intros Hf Ht Hnow Ep. apply (fading_later _ _ _ now) in Hf; [|done].
  destruct (fd_cache _ _ _ _ _ _ Hf m x Ep) as [Hx|]; [|done].
  pose proof (peek_later now now (meta_key h) (g_redis s.2) ltac:(lia)) as Hl.
  rewrite Ep in Hl. simpl in Hl. rewrite (proj2 (Z.leb_le x now)) in Hl by lia. done.
Qed.

(** Where the pieces of a check meet in one instant they are the handler. *)
Lemma check_one_instant f now auth d r : (check f now auth d r).1.1 = answer f auth now r d now.
Proof.
  unfold gate_check, check_answer. destruct (check_get _ _ _ _ _ _ _) as [[code|h m|h]|]; simpl; [done|..|done].
  - unfold check_end. destruct (active _ _ _); [|done]. by destruct (stamp_use _ _ _ _ _).
  - destruct (select f h d) as [m|]; [|done]. unfold check_end. destruct (active _ _ _); [|done]. by destruct (stamp_use _ _ _ _ _).
Qed.

(** ** Who is let through *)

(** C26. let no live row carry a token's digest (revoked, used up, replaced by
    another, swept) and no cache entry that says otherwise be on its way to
    Redis (a check that read the row while it lived, or a redemption that
    committed, and has not written its entry yet): then every check whose cache
    read comes 45 seconds later or more is refused for good, whatever happens at
    the gate before it, between its cache read and its table read, and until its
    verdict, with Redis and the database failing or not. *)
Theorem dead_token_refused (s s1 s2 : Z * gst) (f : faults) (t1 t2 : Z) (auth : string) :
  greach s -> hash (strip auth) ∈ g_drawn s.2 ->
  (forall a, a ∈ tokens (g_db s.2) -> token_hash a = hash (strip auth) -> dead_row a) ->
  (forall m, (hash (strip auth), m) ∈ g_fills s.2 -> dead_meta m) ->
  rtc gstep s s1 -> s1.1 <= t1 -> s.1 + seconds CACHE_TTL <= t1 -> rtc gstep s1 s2 -> strip auth <> master ->
  answer f (Some auth) t1 (g_redis s1.2) (g_db s2.2) t2 <> Ok 200.
Proof using HR meta_roundtrip meta_text.
  intros Hg Hh Hd Hl Hr1 Ht Hnow Hr2 Hm. pose proof (ginv_reach s Hg) as Hi.
  destruct (fading_run (hash (strip auth)) s.1 s s1 Hr1 Hh) as [Hh1 Hf1].
  { split; [done|done|]. intros m x Hp. left. destruct (gi_cache _ _ Hi _ _ Hp) as (m' & x' & [= _ <-] & Hx & _). done. }
  destruct (fading_run _ _ _ _ Hr2 Hh1 Hf1) as [_ Hf2].
  pose proof (cache_later _ t1 _ _ _ Ht (gi_cache _ _ (ginv_reach s1 (greach_run _ _ Hg Hr1)))) as Hc.
  unfold check_answer, check_get. simpl default. destruct (String.eqb (strip auth) ""); [done|].
  destruct (env_master_matches master (strip auth)) as [[]|ex] eqn:Em; [|..|done]; simpl.
  { unfold env_master_matches in Em. repeat (case_cond; [try done|]); [|done]. injection Em as E%String.eqb_eq. done. }
  assert (Hrow : Ok (match select f (hash (strip auth)) (g_db s2.2) with
                     | Some m => verdict fromisoformat t2 m | None => 401 end) <> Ok 200).
  { destruct (select f _ _) as [m|] eqn:E; [|done]. apply select_row in E as (a & Ha & Ea & ->).
    unfold verdict. rewrite dead_inactive; [done|]. by apply dead_from_row, (fd_rows _ _ _ _ _ _ Hf2). }
  destruct (peek t1 (meta_key (hash (strip auth))) (g_redis s1.2)) as [e|] eqn:Ep; [|by rewrite (cached_none _ _ _ _ Ep)].
  destruct (Hc _ _ Ep) as (m & x & -> & _). rewrite (cached_some _ _ _ _ _ _ Ep). destruct (cache_read f); [|done].
  unfold verdict. by rewrite (dead_inactive t2 m (faded_hit _ _ _ _ _ _ Hf1 Ht Hnow Ep)).
Qed.

Lemma live_active now m a :
  older m a -> ~ dead_row a -> (forall x, tk_expires_at a = Some x -> now < x) -> active fromisoformat now m = true.
Proof using iso_roundtrip.
  intros (H1 & H2 & H3 & H4) Hd Hx. unfold active, not_expired. rewrite H1, H2.
  assert (m_revoked m = false) as -> by (destruct (m_revoked m); [destruct Hd; left; auto|done]). simpl.
  destruct (tk_expires_at a) as [x|] eqn:Ex; simpl; [rewrite iso_roundtrip, (proj2 (Z.leb_gt x now)) by auto; simpl|];
    (destruct (tk_max_uses a) as [mu|] eqn:Em; [|done]; destruct (Z.leb_spec mu (m_uses m)) as [Hle|]; [|done];
     destruct Hd; right; exists mu; split; [done|lia]).
Qed.

(** a token of a row that is not revoked, not used up and not expired is let
    through whenever the table can be read, whatever the cache holds by then. *)
Theorem live_token_admitted (s : Z * gst) (f : faults) (now : Z) (auth : string) (a : AccessToken) :
  greach s -> s.1 <= now -> a ∈ tokens (g_db s.2) -> token_hash a = hash (strip auth) ->
  ~ dead_row a -> (forall x, tk_expires_at a = Some x -> now < x) ->
  strip auth <> ""%string -> master = ""%string \/ is_ascii (strip auth) && is_ascii master = true -> table_read f = true ->
  (check f now (Some auth) (g_db s.2) (g_redis s.2)).1.1 = Ok 200.
Proof using HR meta_roundtrip meta_text iso_roundtrip.
  intros Hg Ht Ha Hh Hd Hx Hne Hm Hf. pose proof (ginv_reach s Hg) as Hi.
  pose proof (cache_later _ now _ _ _ Ht (gi_cache _ _ Hi)) as Hc.
  assert (Ho : forall m, older m a -> verdict fromisoformat now m = 200).
  { intros m Ho. unfold verdict. by rewrite (live_active now m a). }
  rewrite check_one_instant. unfold check_answer, check_get. simpl default.
  destruct (String.eqb_spec (strip auth) ""); [done|].
  destruct (env_master_matches master (strip auth)) as [[]|ex] eqn:Em; [done| |]; simpl.
  2: { unfold env_master_matches in Em. destruct Hm as [->|Hm]; [done|]. rewrite Hm in Em. by case_cond. }
  assert (Hrow : select f (hash (strip auth)) (g_db s.2) = Some (meta_from_row isoformat a)).
  { unfold check_select. rewrite Hf. destruct (row_by_hash (hash (strip auth)) (g_db s.2)) as [b|] eqn:Eb; simpl.
    - apply find_first_Some in Eb as [Hb Eh%String.eqb_eq]. do 2 f_equal.
      apply (same_hash (g_db s.2)); [apply (gi_wf _ _ Hi)|done|done|congruence].
    - pose proof (find_first_absent _ _ _ Eb Ha) as Hn. simpl in Hn. by rewrite Hh, String.eqb_refl in Hn. }
  destruct (peek now (meta_key (hash (strip auth))) (g_redis s.2)) as [e|] eqn:Ep.
  - destruct (Hc _ _ Ep) as (m & x & -> & _ & _ & Hma). rewrite (cached_some _ _ _ _ _ _ Ep).
    destruct (cache_read f); [by rewrite Ho; [|apply Hma]|]. by rewrite Hrow, Ho; [|apply older_row].
  - by rewrite (cached_none _ _ _ _ Ep), Hrow, Ho; [|apply older_row].
Qed.
End runs.

(** ** A day at the gate *)

Definition meta_tuple (m : meta) := (m_kind m, m_revoked m, m_expires_at m, m_max_uses m, m_uses m).
Definition demo_json (m : meta) : string := pretty (Zpos (encode (meta_tuple m))).
Definition demo_parse (s : string) : option meta :=
  match int_of_string s with
  | Some (Zpos p) => option_map (fun '(k, b, x, mu, u) => mkMeta k b x mu u)
                       (decode p : option (string * bool * option string * option Z * Z))
  | _ => None
  end.
Definition demo_hash (s : string) : string := ("#" ++ s)%string.

Lemma demo_roundtrip m : demo_parse (demo_json m) = Some m.
Proof. unfold demo_parse, demo_json. rewrite int_of_pretty, decode_encode. by destruct m. Qed.
Lemma demo_iso t : int_of_string (pretty t) = Some t.
Proof. apply int_of_pretty. Qed.
Lemma demo_text m : demo_json m <> ""%string.
Proof.
  intros E. pose proof (int_of_pretty (Zpos (encode (meta_tuple m)))) as H. unfold demo_json in E. rewrite E in H. done.
Qed.

Notation demo_check := (gate_check (R := store) demo_hash demo_json demo_parse pretty int_of_string "master").
Notation demo_answer := (check_answer (R := store) demo_hash demo_parse pretty int_of_string "master").
Notation demo_redeem := (gate_redeem (R := store) demo_hash demo_json pretty int_of_string "master").
Notation demo_create := (admin_create_token demo_hash).
Notation demo_step := (gstep (R := store) demo_hash demo_json pretty int_of_string "master").
Notation demo_reach := (greach (R := store) demo_hash demo_json pretty int_of_string "master").

Definition phone : string := "00112233445566778899aabbccddeeff".
Definition tablet : string := "ffeeddccbbaa99887766554433221100".
Definition one_invite : CreateTokenIn := mkCreateTokenIn "invite" (Some "Alice"%string) None None.
Definition first_redemption : redemption := mkRedemption phone "#inv1" 1 (Some "Alice"%string).

(** An invite is made at second 1, read by a redemption at second 2 and redeemed
    at second 3, and the device's entry is written at second 4; the invite is
    revoked at second 10, while Redis does not answer. *)
Definition g0 : Z * gst (R := store) := (0, mkGst empty_gdb (∅ : store) [] [] ∅).
Definition g1 : Z * gst (R := store) :=
  (seconds 1, mkGst (demo_create (seconds 1) one_invite "inv1" empty_gdb).2 ∅ [] [] {[ "#inv1"%string ]}).
Definition g2 : Z * gst (R := store) := (seconds 2, mkGst (g_db g1.2) ∅ [first_redemption] [] {[ "#inv1"%string ]}).
Definition g3_db : gdb := (redeem_tx (seconds 3) first_redemption "#dev1" (g_db g2.2)).2.
Definition g3_drawn : gset string := {[ "#dev1"%string ]} ∪ {[ "#inv1"%string ]}.
Definition g3 : Z * gst (R := store) :=
  (seconds 3, mkGst g3_db ∅ [first_redemption] [("#dev1"%string, fresh_meta)] g3_drawn).
Definition g4 : Z * gst (R := store) :=
  (seconds 4, mkGst g3_db (cache_fill demo_json true (seconds 4) "#dev1" fresh_meta ∅) [first_redemption] [] g3_drawn).
Definition g5 : Z * gst (R := store) :=
  (seconds 10, mkGst (revoke_tx 1 g3_db).2 (g_redis g4.2) [first_redemption] [] g3_drawn).

Lemma g3_reached : demo_reach g3.
Proof.
  exists g0. split; [repeat split|].
  apply (rtc_l _ _ g1); [unfold g0, g1; rewrite <-(right_id_L ∅ (∪) {[ "#inv1"%string ]});
    apply (gs_create demo_hash demo_json pretty int_of_string "master" 0 (seconds 1) one_invite "inv1"); [done|apply not_elem_of_empty]|].
  apply (rtc_l _ _ g2); [by apply (gs_look _ _ _ _ _ (seconds 1) (seconds 2) phone (Some "inv1"%string) first_redemption)|].
  apply rtc_once. apply (gs_redeem demo_hash demo_json pretty int_of_string "master" (seconds 2) (seconds 3)
    first_redemption "dev1"); [done|left|]. by intros H%elem_of_singleton.
Qed.

Lemma g4_step : demo_step g3 g4.
Proof. by apply (gs_fill demo_hash demo_json pretty int_of_string "master" (seconds 3) (seconds 4) true "#dev1" fresh_meta g3_db ∅ _ [] []). Qed.
Lemma g5_step : demo_step g4 g5.
Proof. by apply (gs_revoke demo_hash demo_json pretty int_of_string "master" (seconds 4) (seconds 10) 1). Qed.

Lemma g4_reached : demo_reach g4.
Proof. apply (greach_run _ _ _ _ _ g3); [apply g3_reached|apply rtc_once, g4_step]. Qed.
Lemma g5_reached : demo_reach g5.
Proof. apply (greach_run _ _ _ _ _ g4); [apply g4_reached|apply rtc_once, g5_step]. Qed.

Lemma gate_wf_run_witness : gate_wf (g_db g5.2) /\ map tk_revoked (tokens (g_db g5.2)) = [true; true].
Proof. split; [apply (gate_wf_run _ _ _ _ _ g5 g5_reached)|reflexivity]. Defined.

(** A check begins at second 55, with an entry in the cache until second 49, and
    reads the table a minute later. *)
Lemma dead_token_refused_witness :
  demo_answer no_faults (Some "dev1"%string) (seconds 30) (g_redis g4.2) (g_db g5.2) (seconds 30) = Ok 200 /\
  demo_answer no_faults (Some "dev1"%string) (seconds 55) (g_redis g5.2) (g_db g5.2) (seconds 120) <> Ok 200.
Proof.
  split; [reflexivity|].
  apply (dead_token_refused demo_hash demo_json demo_parse pretty int_of_string "master" demo_roundtrip demo_text g5 g5 g5).
  - apply g5_reached.
  - vm_compute. reflexivity.
  - intros a Ha _. left. change (a ∈ tokens (g_db g5.2)) in Ha.
    assert (E : Forall (fun a => tk_revoked a = true) (tokens (g_db g5.2))) by (vm_compute; repeat constructor).
    rewrite Forall_forall in E. by apply E.
  - intros m []%elem_of_nil.
  - apply rtc_refl.
  - vm_compute. discriminate.
  - vm_compute. discriminate.
  - apply rtc_refl.
  - vm_compute. discriminate.
Defined.

Lemma live_token_admitted_witness :
  (demo_check (mkFaults false true false false false) (seconds 5) (Some " dev1"%string) (g_db g4.2) (g_redis g4.2)).1.1 = Ok 200.
Proof.
  apply (live_token_admitted demo_hash demo_json demo_parse pretty int_of_string "master" demo_roundtrip demo_iso demo_text g4
    _ _ _ (device_row (seconds 3) first_redemption "#dev1" 2)).
  - apply g4_reached.
  - vm_compute. discriminate.
  - vm_compute. right. left.
  - reflexivity.
  - intros [H|(mu & H & _)]; discriminate H.
  - discriminate.
  - vm_compute. discriminate.
  - right. reflexivity.
  - reflexivity.
Defined.

(** Without the second proviso of [dead_token_refused] the 45 seconds are no
    bound: a redemption commits at second 3 and its cache write is held up; at
    second 10 the operator revokes the invite, the device with it, and the
    eviction goes through; the entry arrives at second 50 and the token is good
    at second 90, 80 seconds after it was revoked. *)
Theorem late_entry_readmits :
  exists s : Z * gst (R := store),
    demo_reach s /\ g_db s.2 = (revoke_tx 1 (g_db g3.2)).2 /\
    Forall (fun a => tk_revoked a = true) (tokens (g_db s.2)) /\
    demo_answer no_faults (Some "dev1"%string) (seconds 90) (g_redis s.2) (g_db s.2) (seconds 90) = Ok 200.
Proof.
  exists (seconds 50, mkGst (revoke_tx 1 g3_db).2
    (cache_fill demo_json true (seconds 50) "#dev1" fresh_meta (evict true (seconds 10) ["#inv1"%string; "#dev1"%string] ∅))
    [first_redemption] [] g3_drawn).
  split.
  - apply (greach_run _ _ _ _ _ g3); [apply g3_reached|].
    eapply rtc_l; [by apply (gs_revoke demo_hash demo_json pretty int_of_string "master" (seconds 3) (seconds 10) 1)|].
    eapply rtc_l; [by apply (gs_evict demo_hash demo_json pretty int_of_string "master" (seconds 10) (seconds 10) true
      ["#inv1"%string; "#dev1"%string])|].
    apply rtc_once. by apply (gs_fill demo_hash demo_json pretty int_of_string "master" (seconds 10) (seconds 50) true "#dev1"
      fresh_meta _ _ _ [] []).
  - split; [done|]. split; [vm_compute; repeat constructor|reflexivity].
Qed.

(** ** A device whose row is already there

    The conflict on the device id replaces the digest and nothing else. *)

(** Somebody whose invite was revoked gets a new one and redeems it on the same
    device: the answer is a token, which works for the 45 seconds of its cache
    entry and is refused after that, and the new invite is not used up. *)
Example revoked_device_cannot_return :
  let d := (demo_create (seconds 20) one_invite "inv2" (g_db g5.2)).2 in
  let '(answer, d, r) := demo_redeem true (seconds 30) phone (Some "inv2"%string) "dev2" d (g_redis g5.2) in
  answer = Ok (Some "dev2"%string) /\
  (demo_check no_faults (seconds 40) (Some "dev2"%string) d r).1.1 = Ok 200 /\
  (demo_check no_faults (seconds 80) (Some "dev2"%string) d r).1.1 = Ok 401 /\
  map tk_uses (tokens d) = [1; 0; 0].
Proof. vm_compute. repeat split. Qed.

(** The holder of a spent invite who knows another person's device id is given a
    token of that person's row, and the person's own token stops working. *)
Example spent_invite_takes_over :
  let d := (demo_create (seconds 20) one_invite "inv2" (g_db g4.2)).2 in
  let '(_, d, r) := demo_redeem true (seconds 30) tablet (Some "inv2"%string) "dev2" d (g_redis g4.2) in
  let '(answer, d, r) := demo_redeem true (seconds 40) phone (Some "inv2"%string) "dev3" d r in
  answer = Ok (Some "dev3"%string) /\
  (demo_check no_faults (seconds 90) (Some "dev3"%string) d r).1.1 = Ok 200 /\
  (demo_check no_faults (seconds 90) (Some "dev1"%string) d r).1.1 = Ok 401.
Proof. vm_compute. repeat split. Qed.

(** A device whose answer was lost presents its invite again.  The redemption
    would answer; but the route is behind the gate, which no longer knows the
    invite once the cache has forgotten that it was unused. *)
Example retry_meets_decoy :
  (demo_check no_faults (seconds 60) (Some "inv1"%string) (g_db g4.2) (g_redis g4.2)).1.1 = Ok 401 /\
  (demo_redeem true (seconds 60) phone (Some "inv1"%string) "dev2" (g_db g4.2) (g_redis g4.2)).1.1 = Ok (Some "dev2"%string).
Proof. vm_compute. repeat split. Qed.
