(* ===== verification/Invites.v ===== *)
(** * Invites, residency and who counts as a person

    [src/app/routers/invites.py] (the invites a resident hands out),
    [src/app/routers/residency.py] (buying residency on an account that exists),
    [src/app/routers/entry.py], the invites of [src/app/routers/admin.py],
    [src/app/services/account_signal.py] and its counterpart, the choice made by
    [src/app/services/dead_account_sweep.py], and the half of
    [src/app/services/credential_sweep.py] that deletes invites.

    The tables are those of [Accounts] with the columns and rows these files
    read besides ([ndb]).  Minting is two functions, what is read before the
    conditional update and the update with the insert, so that other requests
    come between them.  Random codes, the settings and the clock are inputs. *)

From stdpp Require Import base list gmap strings pretty.
From Stdlib Require Import ZArith Lia.
From S2P Require Import Prelude Text Uin Storage Redis Bytes KeyStorage Voucher Rooms Accounts.
Import Storage.

(** ** Tables and settings *)

(** The columns of [invites] that [Uin.Invite] leaves out, by code. *)
Record Issued := mkIssued { is_label : option string; is_created_by : option Z; is_created_at : Z }.

(** [users.invites_minted] and [users.invites_paid_base] (0 by default); of
    [owned_uins] (uin, owner), of [sites] the owner, of [reports] (reporter,
    target). *)
Record ndb := mkNdb {
  n_acc : adb;
  minted : gmap Z Z;
  paid_base : gmap Z Z;
  issued : gmap string Issued;
  owned_by : list (Z * Z);
  site_owners : list Z;
  report_pairs : list (Z * Z)
}.

Definition minted_by (d : ndb) (u : Z) : Z := default 0 (minted d !! u).
Definition base_of (d : ndb) (u : Z) : Z := default 0 (paid_base d !! u).
Definition nuser (d : ndb) (u : Z) : option User := users (acore (n_acc d)) !! u.
Definition naccount (d : ndb) (u : Z) : Account := account_of (n_acc d) u.

Definition set_nacc (a : adb) (d : ndb) : ndb :=
  mkNdb a (minted d) (paid_base d) (issued d) (owned_by d) (site_owners d) (report_pairs d).
Definition set_minted (m : gmap Z Z) (d : ndb) : ndb :=
  mkNdb (n_acc d) m (paid_base d) (issued d) (owned_by d) (site_owners d) (report_pairs d).
Definition set_base (m : gmap Z Z) (d : ndb) : ndb :=
  mkNdb (n_acc d) (minted d) m (issued d) (owned_by d) (site_owners d) (report_pairs d).
Definition set_issued (m : gmap string Issued) (d : ndb) : ndb :=
  mkNdb (n_acc d) (minted d) (paid_base d) m (owned_by d) (site_owners d) (report_pairs d).

Definition has_code (c : string) (d : ndb) : bool := existsb (fun i => String.eqb (code i) c) (invite_rows (n_acc d)).

(** [db.add(Invite(...))]: the code is the primary key. *)
Definition insert_invite (i : Invite) (more : Issued) (d : ndb) : outcome ndb :=
  if has_code (code i) d then Raise (IntegrityError "invites")
  else Ok (set_issued (<[code i := more]> (issued d)) (set_nacc (set_invites (invite_rows (n_acc d) ++ [i]) (n_acc d)) d)).

Definition delete_invites (p : Invite -> bool) (d : ndb) : ndb :=
  set_nacc (set_invites (List.filter (fun i => negb (p i)) (invite_rows (n_acc d))) (n_acc d)) d.

(** The settings of the two drips; [ds_free_before] is the parsed cutoff, absent
    when it is empty or cannot be read. *)
Record drip_settings := mkDripSettings {
  ds_total : option Z; ds_period : option Z; ds_ttl : option Z;
  ds_free_total : option Z; ds_free_before : option Z; ds_min_age : option Z
}.

(** [int(value or d)] *)
Definition or_int (d : Z) (v : option Z) : Z := match v with Some n => if n =? 0 then d else n | None => d end.

Definition quota (s : drip_settings) : Z * Z * Z :=
  (or_int 0 (ds_total s), Z.max 1 (or_int 30 (ds_period s)), Z.max 1 (or_int 30 (ds_ttl s))).
Definition free_quota (s : drip_settings) : Z * option Z * Z :=
  (or_int 0 (ds_free_total s), ds_free_before s, Z.max 0 (or_int 0 (ds_min_age s))).

(** ** The drips *)

(** What a resident has earned, and when the next one lands. *)
Definition accrued (resident_since : option Z) (invites_paid_base total period_days now : Z) : Z * option Z :=
  match resident_since with
  | None => (0, None)
  | Some since =>
      if total <=? 0 then (0, None)
      else
        let base := Z.max 0 invites_paid_base in
        let granted := Z.min total (base + 1 + (now - since) / days period_days) in
        if total <=? granted then (granted, None) else (granted, Some (since + days (period_days * (granted - base))))
  end.

Definition joined (u : User) (a : Account) : Z := default (created_at u) (identity_created_at a).

Definition free_eligible (u : User) (a : Account) (total : Z) (cutoff : option Z) : bool :=
  if total <=? 0 then false
  else match cutoff with
  | None => false
  | Some c =>
      if bool_decide (is_Some (resident_since a)) || bool_decide (is_Some (entered_via a)) then false
      else joined u a <? c
  end.

Definition accrued_free (u : User) (a : Account) (total : Z) (cutoff : option Z) (min_age_days period_days now : Z)
    : Z * option Z :=
  if total <=? 0 then (0, None)
  else match cutoff with
  | None => (0, None)
  | Some c =>
      let anchor := Z.max c (joined u a + days min_age_days) in
      if now <? anchor then (0, Some anchor)
      else
        let granted := Z.min total (1 + (now - anchor) / days period_days) in
        if total <=? granted then (granted, None) else (granted, Some (anchor + days (period_days * granted)))
  end.

(** ** Person or leftover *)

Definition MIN_LIFETIME : Z := hours 24.

(** The [OR] of the query of [account_signal]. *)
Definition acted (d : ndb) (uin : Z) (u : User) : bool :=
  let c := acore (n_acc d) in
  negb (String.prefix "user-" (nickname (profile u)))
  || bool_decide (is_Some (avatar_media_id (profile u)))
  || existsb (fun v => dv_uin v =? uin) (devices (rk (rooms (n_acc d))))
  || existsb (fun t => dt_uin t =? uin) (device_tokens c)
  || existsb (fun e => (e.1.1 =? uin) || (e.1.2 =? uin)) (map_to_list (contacts (rooms (n_acc d))))
  || existsb (fun m => gm_uin m =? uin) (group_members c)
  || existsb (fun g => owner_uin g.2 =? uin) (map_to_list (groups c))
  || existsb (fun o => o =? uin) (site_owners d)
  || existsb (fun o => (o.2 =? uin) || (o.1 =? uin)) (owned_by d)
  || existsb (fun r => (r.1 =? uin) || (r.2 =? uin)) (report_pairs d).

Definition looks_like_a_person (d : ndb) (uin : Z) : bool :=
  match nuser d uin with
  | None => false
  | Some u => acted d uin u && (MIN_LIFETIME <=? last_seen u - created_at u)
  end.

(** *** The sweep of accounts that were never used *)

Definition DEAD_AFTER_DAYS : Z := 30.
Definition FIRST_HOUR_SECONDS : Z := 3600.
Definition DEAD_BATCH : nat := 500.

(** The [WHERE] of [_CANDIDATES]. *)
Definition dead_candidate (cutoff : Z) (d : ndb) (uin : Z) (u : User) : bool :=
  let c := acore (n_acc d) in
  (created_at u <? cutoff)
  && negb (bool_decide (is_Some (resident_since (naccount d uin))))
  && negb (bool_decide (is_Some (guest_status u)))
  && String.prefix "user-" (nickname (profile u))
  && negb (bool_decide (is_Some (avatar_media_id (profile u))))
  && negb (existsb (fun v => dv_uin v =? uin) (devices (rk (rooms (n_acc d)))))
  && negb (existsb (fun t => dt_uin t =? uin) (device_tokens c))
  && negb (existsb (fun e => (e.1.1 =? uin) || (e.1.2 =? uin)) (map_to_list (contacts (rooms (n_acc d)))))
  && negb (existsb (fun m => gm_uin m =? uin) (group_members c))
  && negb (existsb (fun g => owner_uin g.2 =? uin) (map_to_list (groups c)))
  && negb (existsb (fun o => o =? uin) (site_owners d))
  && negb (existsb (fun o => (o.2 =? uin) || (o.1 =? uin)) (owned_by d))
  && negb (existsb (fun r => (r.1 =? uin) || (r.2 =? uin)) (report_pairs d)).

Definition never_came_back (u : User) : bool := last_seen u - created_at u <? seconds FIRST_HOUR_SECONDS.

(** The accounts one pass of the sweep deletes: the oldest candidates, of those
    scanned the ones that never came back. *)
Definition dead_accounts (now : Z) (d : ndb) : list Z :=
  let scanned := take (DEAD_BATCH * 4)
    (sort_by (fun ur : Z * User => created_at ur.2)
       (List.filter (fun ur => dead_candidate (now - days DEAD_AFTER_DAYS) d ur.1 ur.2)
          (map_to_list (users (acore (n_acc d)))))) in
  take DEAD_BATCH (map fst (List.filter (fun ur => never_came_back ur.2) scanned)).

(** ** Which allowance an account draws from *)

Definition source (s : drip_settings) (now : Z) (d : ndb) (uin : Z) (u : User) : string * Z * Z * option Z :=
  let '(total, period, _) := quota s in
  let a := naccount d uin in
  match resident_since a with
  | Some _ => let '(granted, next) := accrued (resident_since a) (base_of d uin) total period now in
              ("resident"%string, total, granted, next)
  | None =>
      let '(free_total, cutoff, min_age) := free_quota s in
      if free_eligible u a free_total cutoff && looks_like_a_person d uin
      then let '(granted, next) := accrued_free u a free_total cutoff min_age period now in
           ("free"%string, free_total, granted, next)
      else (""%string, total, 0, None)
  end.

Record InviteRow := mkInviteRow {
  ir_id : string; ir_label : option string; ir_used : bool; ir_created_at : Z; ir_expires_at : option Z
}.
Record InvitesOut := mkInvitesOut {
  io_enabled : bool; io_eligible : bool; io_total : Z; io_granted : Z; io_used : Z; io_remaining : Z;
  io_next_at : option Z; io_kind : string; io_invites : list InviteRow
}.

Definition issued_of (d : ndb) (c : string) : Issued := default (mkIssued None None 0) (issued d !! c).

Definition invites_of (d : ndb) (uin : Z) : list Invite :=
  sort_by (fun i => - is_created_at (issued_of d (code i)))
    (List.filter (fun i => bool_decide (is_created_by (issued_of d (code i)) = Some uin)) (invite_rows (n_acc d))).

Definition invite_row (d : ndb) (i : Invite) : InviteRow :=
  mkInviteRow (code i) (is_label (issued_of d (code i))) (max_uses i <=? used_count i)
    (is_created_at (issued_of d (code i))) (expires_at i).

Definition invites_out (s : drip_settings) (now : Z) (d : ndb) (uin : Z) (u : User) : InvitesOut :=
  let '(kind, total, granted, next) := source s now d uin u in
  let used := minted_by d uin in
  mkInvitesOut (0 <? total) (negb (String.eqb kind "")) total granted used (Z.max 0 (granted - used)) next kind
    (map (invite_row d) (invites_of d uin)).

Definition my_invites (s : drip_settings) (now : Z) (d : ndb) (uin : Z) : outcome InvitesOut :=
  match nuser d uin with
  | None => Raise (HTTPException 404 "user not found")
  | Some u => Ok (invites_out s now d uin u)
  end.

(** ** Minting and withdrawing *)

(** What the conditional update is given. *)
Record mint_grant := mkMintGrant { mg_uin : Z; mg_granted : Z; mg_now : Z; mg_ttl : Z }.

Definition mint_look (s : drip_settings) (now : Z) (uin : Z) (d : ndb) : outcome mint_grant :=
  let '(total, _, ttl) := quota s in
  let '(free_total, _, _) := free_quota s in
  if (total <=? 0) && (free_total <=? 0) then Raise (HTTPException 404 "not_available")
  else match nuser d uin with
  | None => Raise (HTTPException 404 "user not found")
  | Some u =>
      if is_suspended u then Raise (HTTPException 403 "account_suspended")
      else
        let '(kind, src_total, granted, _) := source s now d uin u in
        if String.eqb kind "" then Raise (HTTPException 403 "not_a_resident")
        else if src_total <=? 0 then Raise (HTTPException 404 "not_available")
        else Ok (mkMintGrant uin granted now ttl)
  end.

Record MintedInvite := mkMintedInvite { mi_code : string; mi_link : string; mi_expires_at : Z }.

Section codes.
Context (sha256 : bytes -> bytes).

Definition resident_invite (g : mint_grant) (raw : string) : Invite :=
  {| code := hash_invite_code sha256 raw; max_uses := 1; used_count := 0; invite_uin := None;
     expires_at := Some (mg_now g + days (mg_ttl g)); spent_at := None |}.

Definition invite_link (host raw : string) : string := ("rcq://server/" ++ host ++ "?invite=" ++ raw)%string.

(** UPDATE users .. WHERE uin AND invites_minted < granted, then the insert; one
    transaction. *)
Definition mint_write (host : string) (g : mint_grant) (raw : string) (d : ndb) : outcome MintedInvite * ndb :=
  if bool_decide (is_Some (nuser d (mg_uin g))) && (minted_by d (mg_uin g) <? mg_granted g) then
    let d1 := set_minted (<[mg_uin g := minted_by d (mg_uin g) + 1]> (minted d)) d in
    match insert_invite (resident_invite g raw) (mkIssued None (Some (mg_uin g)) (mg_now g)) d1 with
    | Raise e => (Raise e, d)
    | Ok d2 => (Ok (mkMintedInvite raw (invite_link host raw) (mg_now g + days (mg_ttl g))), d2)
    end
  else (Raise (HTTPException 409 "no_invites_left"), d).

Definition mint_own (s : drip_settings) (now : Z) (host : string) (uin : Z) (raw : string) (d : ndb)
    : outcome MintedInvite * ndb :=
  match mint_look s now uin d with
  | Raise e => (Raise e, d)
  | Ok g => mint_write host g raw d
  end.

Definition revoke_own (invite_id : string) (uin : Z) (d : ndb) : outcome unit * ndb :=
  if has_code invite_id d && bool_decide (is_created_by (issued_of d invite_id) = Some uin)
  then (Ok tt, delete_invites (fun i => String.eqb (code i) invite_id) d)
  else (Raise (HTTPException 404 "no such invite"), d).

(** ** The operator's invites *)

Definition INVITE_UIN_MIN : Z := 100.

Record MintInviteIn := mkMintInviteIn {
  mv_label : option string; mv_max_uses : Z; mv_ttl_hours : option Z; mv_uin : option Z
}.

Definition mint_invite_checks (now uin : Z) (d : ndb) : outcome unit :=
  if negb ((INVITE_UIN_MIN <=? uin) && (uin <=? UIN_MAX)) then Raise (HTTPException 400 "uin_out_of_range")
  else if bool_decide (is_Some (nuser d uin)) then Raise (HTTPException 409 "uin_taken")
  else if match hold_rows (n_acc d) !! uin with Some e => now <? e | None => false end
  then Raise (HTTPException 409 "uin_being_sold")
  else if bool_decide (uin ∈ owned_rows (n_acc d)) then Raise (HTTPException 409 "uin_held")
  else if existsb (fun i => bool_decide (invite_uin i = Some uin) && invite_is_live now i) (invite_rows (n_acc d))
  then Raise (HTTPException 409 "uin_reserved")
  else Ok tt.

Definition operator_invite (now : Z) (b : MintInviteIn) (raw : string) : Invite :=
  {| code := hash_invite_code sha256 raw; max_uses := mv_max_uses b; used_count := 0; invite_uin := mv_uin b;
     expires_at := match mv_ttl_hours b with Some h => if h =? 0 then None else Some (now + hours h) | None => None end;
     spent_at := None |}.

Record InviteOut := mkInviteOut {
  iv_code : string; iv_label : option string; iv_max_uses : Z; iv_used_count : Z; iv_uin : option Z;
  iv_expires_at : option Z; iv_created_at : Z; iv_raw_code : option string; iv_join_url : option string
}.

Definition invite_out (host : string) (d : ndb) (raw : option string) (i : Invite) : InviteOut :=
  mkInviteOut (code i) (is_label (issued_of d (code i))) (max_uses i) (used_count i) (invite_uin i) (expires_at i)
    (is_created_at (issued_of d (code i))) raw (option_map (invite_link host) raw).

Definition mint_invite (now : Z) (host : string) (b : MintInviteIn) (raw : string) (d : ndb) : outcome InviteOut * ndb :=
  if negb ((1 <=? mv_max_uses b) && (mv_max_uses b <=? 100000)
           && match mv_ttl_hours b with Some h => 1 <=? h | None => true end)
  then (Raise (HTTPException 422 "validation"), d)
  else match match mv_uin b with Some u => mint_invite_checks now u d | None => Ok tt end with
  | Raise e => (Raise e, d)
  | Ok _ =>
      match insert_invite (operator_invite now b raw) (mkIssued (mv_label b) None now) d with
      | Raise e => (Raise e, d)
      | Ok d' => (Ok (invite_out host d' (Some raw) (operator_invite now b raw)), d')
      end
  end.

Definition list_invites (host : string) (d : ndb) : list InviteOut :=
  map (invite_out host d None)
    (sort_by (fun i => - is_created_at (issued_of d (code i))) (invite_rows (n_acc d))).

Definition revoke_invite (c : string) (d : ndb) : ndb := delete_invites (fun i => String.eqb (code i) c) d.
End codes.

(** ** The sweep of dead invites ([credential_sweep]) *)

Definition INVITE_MAX_AGE_DAYS : Z := 90.
Definition INVITE_MAX_PER_CYCLE : nat := 500.

Definition dead_invite (cutoff : Z) (d : ndb) (i : Invite) : bool :=
  ((max_uses i <=? used_count i)
   && match spent_at i with Some t => t <? cutoff | None => is_created_at (issued_of d (code i)) <? cutoff end)
  || match expires_at i with Some t => t <? cutoff | None => false end.

Definition invite_sweep (dry_run : bool) (now : Z) (d : ndb) : nat * ndb :=
  let codes := take INVITE_MAX_PER_CYCLE
    (map code (List.filter (dead_invite (now - days INVITE_MAX_AGE_DAYS) d) (invite_rows (n_acc d)))) in
  (length codes, if dry_run then d else delete_invites (fun i => bool_decide (code i ∈ codes)) d).

(** ** Buying residency on an account that exists, and what entry costs *)

Section residency.
Context (b64decode : string -> option bytes) (loads : bytes -> option json)
  (ed25519_verify : bytes -> bytes -> bytes -> bool) (public_key : option string).

(** What follows the commit: the conversion of a guest copy
    ([Accounts.after_conversion]) and the mark the contacts are told of. *)
Inductive residency_effect :=
  | AfterConversion (uin : Z)
  | MarkAnnounced (uin : Z) (nickname : string) (badge : option string).

Record RedeemOut := mkRedeemOut {
  ro_resident_since : Z; ro_badge : option string; ro_badges_earned : list string; ro_invites : InvitesOut; ro_guest : bool
}.

(** The columns the redemption writes, in the order of the code. *)
Definition make_resident (now uin : Z) (d : ndb) : ndb :=
  let d := set_nacc (set_account uin (with_resident (Some now)) (n_acc d)) d in
  let d := set_base (<[uin := Z.max 0 (minted_by d uin)]> (paid_base d)) d in
  set_nacc (clear_guest_columns uin (grant_badge uin "resident" (n_acc d))) d.

Definition redeem (s : drip_settings) (island_host : string) (now uin : Z) (voucher : string) (d : ndb)
    : outcome RedeemOut * ndb * list residency_effect :=
  if negb ((16 <=? String.length voucher)%nat && (String.length voucher <=? 4096)%nat)
  then (Raise (HTTPException 422 "validation"), d, [])
  else match nuser d uin with
  | None => (Raise (HTTPException 404 "user not found"), d, [])
  | Some u =>
      if is_suspended u then (Raise (HTTPException 403 "suspended"), d, [])
      else if bool_decide (is_Some (resident_since (naccount d uin)))
      then (Raise (HTTPException 409 "already_resident"), d, [])
      else match verify_entry b64decode loads ed25519_verify public_key voucher island_host (now / usec_per_sec) with
      | Crashed x => (Raise (OverflowError x), d, [])
      | Refused c => (Raise (HTTPException (if String.eqb c "sales_disabled" then 404 else 403) c), d, [])
      | Accepted nonce =>
          if bool_decide (nonce ∈ spent_nonces (n_acc d)) then (Raise (HTTPException 409 "voucher_spent"), d, [])
          else
            let was_guest := bool_decide (is_Some (guest_status u)) in
            let d := make_resident now uin (set_nacc (spend nonce (n_acc d)) d) in
            match nuser d uin with
            | None => (Raise (HTTPException 404 "user not found"), d, [])
            | Some u' =>
                let p := profile u' in
                (Ok (mkRedeemOut now (badge p) (earned_badges u' (naccount d uin)) (invites_out s now d uin u') false), d,
                 (if was_guest then [AfterConversion uin] else [])
                 ++ [MarkAnnounced uin (nickname p) (if badge_hidden p then None else badge p)])
            end
      end
  end.

Record EntryPayoutTargetOut := mkEntryPayoutTargetOut { ep_host : string; ep_price_cents : Z; ep_addresses : list (string * string) }.

(** [POST /entry/payout-target]; [addresses] are the operator's wallets. *)
Definition entry_payout_target (island_host : string) (price_cents : option Z) (addresses : list (string * string))
    (now : Z) (request : string) : outcome EntryPayoutTargetOut :=
  match verify_entry_payout b64decode loads ed25519_verify public_key request island_host (now / usec_per_sec) with
  | Crashed x => Raise (OverflowError x)
  | Refused c => Raise (HTTPException 403 c)
  | Accepted host =>
      let cents := or_int 0 price_cents in
      if cents <=? 0 then Raise (HTTPException 409 "not_for_sale")
      else match addresses with
      | [] => Raise (HTTPException 409 "no_payout")
      | _ => Ok (mkEntryPayoutTargetOut host cents addresses)
      end
  end.
End residency.
