(* ===== verification/InvitesFacts.v ===== *)
(** * Invites: what they are worth

    The two drips are a calendar ([drip_is_calendar]); however requests
    interleave, nobody brings in more people than the settings allow
    ([invites_bounded]); buying residency ([redeem_spec]); whoever the drip takes
    for a person the sweep of unused accounts leaves alone
    ([person_not_swept]). *)

From stdpp Require Import base list gmap strings pretty.
From Stdlib Require Import ZArith Lia.
From S2P Require Import Prelude Text Uin Storage Redis Bytes KeyStorage Voucher Rooms Accounts AccountsAuth AccountsDoor Migration Invites.
Import Storage.

(** ** The drip as a calendar

    [total - base] invites, one at the start and one more each period: those
    whose date has come are granted, the first of the others is next. *)

Definition due_dates (start period_days n : Z) : list Z := map (fun k => start + k * days period_days) (seqZ 0 n).

Definition calendar (start base total period_days now : Z) : Z * option Z :=
  let due := due_dates start period_days (total - base) in
  (base + Z.of_nat (length (List.filter (fun t => t <=? now) due)), head (List.filter (fun t => now <? t) due)).

Lemma days_pos p : 0 < p -> 0 < days p.
Proof. unfold days, seconds, usec_per_sec. lia. Qed.
Lemma days_mul p k : days (p * k) = k * days p.
Proof. unfold days, seconds, usec_per_sec. lia. Qed.

(** Of the dates from the [i]-th on. *)
Lemma due_from (start q now i : Z) (n : nat) :
  0 < q -> 0 <= i ->
  let k := (now - start) / q in
  let l := map (fun k => start + k * q) (seqZ i (Z.of_nat n)) in
  Z.of_nat (length (List.filter (fun t => t <=? now) l)) = Z.max 0 (Z.min (Z.of_nat n) (k + 1 - i)) /\
  head (List.filter (fun t => now <? t) l) =
    (if Z.max i (k + 1) <? i + Z.of_nat n then Some (start + Z.max i (k + 1) * q) else None).
Proof.
  intros Hq. revert i. induction n as [|n IH]; intros i Hi k l.
  - destruct (Z.ltb_spec (Z.max i (k + 1)) (i + Z.of_nat 0)); [lia|]. subst l. cbn [Z.of_nat]. simpl. split; [lia|done].
  - assert (Hl : l = (start + i * q) :: map (fun k => start + k * q) (seqZ (i + 1) (Z.of_nat n))).
    { subst l. rewrite seqZ_cons by lia. simpl. do 3 f_equal; lia. }
    rewrite Hl. clear Hl. cbn [List.filter]. specialize (IH (i + 1) ltac:(lia)). cbv zeta in IH. fold k in IH. destruct IH as [IH1 IH2].
    assert (Hk : start + i * q <= now <-> i <= k).
    { subst k. split; intros H; [apply Z.div_le_lower_bound; lia|].
      pose proof (Z.mul_div_le (now - start) q Hq). nia. }
    destruct (Z.leb_spec (start + i * q) now) as [Hle|Hgt].
    + rewrite (proj2 (Z.ltb_ge now (start + i * q))) by lia. assert (i <= k) by (by apply Hk). cbn [length].
      split; [lia|]. rewrite IH2. replace (Z.max (i + 1) (k + 1)) with (Z.max i (k + 1)) by lia.
      by replace (i + 1 + Z.of_nat n) with (i + Z.of_nat (S n)) by lia.
    + rewrite (proj2 (Z.ltb_lt now (start + i * q))) by lia. assert (~ i <= k) by (rewrite <-Hk; lia). cbn [head].
      split; [lia|]. replace (Z.max i (k + 1)) with i by lia. by rewrite (proj2 (Z.ltb_lt i (i + Z.of_nat (S n)))) by lia.
Qed.

Lemma calendar_eq start base total period now :
  0 < period -> base <= total ->
  let k := (now - start) / days period in
  calendar start base total period now =
  (base + Z.max 0 (Z.min (total - base) (k + 1)),
   if Z.max 0 (k + 1) <? total - base then Some (start + Z.max 0 (k + 1) * days period) else None).
Proof.
  intros Hp Hb k. unfold calendar, due_dates.
  destruct (due_from start (days period) now 0 (Z.to_nat (total - base)) (days_pos _ Hp) ltac:(lia)) as [H1 H2].
  rewrite Z2Nat.id in H1, H2 by lia. fold k in H1, H2. rewrite H1, H2. by rewrite Z.sub_0_r, Z.add_0_l.
Qed.

(** both drips are a calendar: of the invites still to come at the moment of
    payment (or the start of the free drip), one is due at once and one more
    each period; what is granted at an instant are those whose date has come,
    and the announced date is that of the first of the others. *)
Theorem drip_is_calendar :
  (forall since base total period now, 0 < period -> 0 <= base <= total -> 0 < total -> since <= now ->
     accrued (Some since) base total period now = calendar since base total period now) /\
  (forall u a total cutoff min_age period now, 0 < period -> 0 < total ->
     accrued_free u a total (Some cutoff) min_age period now =
     calendar (Z.max cutoff (joined u a + days min_age)) 0 total period now).
Proof.
  split.
  - intros since base total period now Hp Hb Ht Hn. rewrite calendar_eq by lia. unfold accrued.
    rewrite (proj2 (Z.leb_gt total 0)) by lia. rewrite (Z.max_r 0 base) by lia.
    set (k := (now - since) / days period). assert (0 <= k) by (apply Z.div_pos; [lia|by apply days_pos]).
    rewrite (Z.max_r 0 (k + 1)) by lia. destruct (Z.leb_spec total (Z.min total (base + 1 + k))) as [Hle|Hgt].
    + rewrite (proj2 (Z.ltb_ge (k + 1) (total - base))) by lia. f_equal. lia.
    + rewrite (proj2 (Z.ltb_lt (k + 1) (total - base))) by lia. rewrite days_mul. f_equal; [lia|]. do 3 f_equal. lia.
  - intros u a total cutoff min_age period now Hp Ht. rewrite calendar_eq by lia. unfold accrued_free.
    rewrite (proj2 (Z.leb_gt total 0)) by lia. set (start := Z.max cutoff (joined u a + days min_age)).
    set (k := (now - start) / days period). pose proof (days_pos _ Hp).
    destruct (Z.ltb_spec now start) as [Hlt|Hge].
    + assert (k < 0) by (apply Z.div_lt_upper_bound; lia). rewrite (Z.max_l 0 (k + 1)) by lia.
      rewrite (proj2 (Z.ltb_lt 0 (total - 0))) by lia. f_equal; [lia|]. f_equal. lia.
    + assert (0 <= k) by (apply Z.div_pos; lia). rewrite (Z.max_r 0 (k + 1)) by lia.
      destruct (Z.leb_spec total (Z.min total (1 + k))) as [Hle|Hgt].
      * rewrite (proj2 (Z.ltb_ge (k + 1) (total - 0))) by lia. f_equal. lia.
      * rewrite (proj2 (Z.ltb_lt (k + 1) (total - 0))) by lia. rewrite days_mul. f_equal; [lia|]. do 3 f_equal. lia.
Qed.

(** ** The sweep of unused accounts and the signal agree *)

Lemma candidate_not_acted cutoff d uin u : dead_candidate cutoff d uin u = true -> acted d uin u = false.
Proof.
  unfold dead_candidate, acted. cbv zeta. intros H. breflect.
  repeat match goal with H : _ = false |- _ => rewrite H | H : String.prefix _ _ = true |- _ => rewrite H end.
  repeat (rewrite bool_decide_eq_false_2 by done). done.
Qed.

(** whoever the free drip takes for a person is not among the accounts the
    sweep deletes, and neither is anybody who paid. *)
Theorem person_not_swept (now : Z) (d : ndb) (uin : Z) :
  (looks_like_a_person d uin = true -> uin ∉ dead_accounts now d) /\
  (is_Some (resident_since (naccount d uin)) -> uin ∉ dead_accounts now d).
Proof.
  assert (H : forall v, v ∈ dead_accounts now d ->
    exists u, nuser d v = Some u /\ dead_candidate (now - days DEAD_AFTER_DAYS) d v u = true).
  { intros v Hv. unfold dead_accounts in Hv. apply elem_of_take in Hv as (i & Hv%list_elem_of_lookup_2 & _).
    apply list_elem_of_fmap in Hv as ([w u] & -> & Hv%list_elem_of_In%List.filter_In). destruct Hv as [Hv%list_elem_of_In _].
    apply elem_of_take in Hv as (j & Hv%list_elem_of_lookup_2 & _). rewrite elem_of_sort_by in Hv.
    apply list_elem_of_In, List.filter_In in Hv as [Hv%list_elem_of_In%elem_of_map_to_list Hc]. simpl in *. by exists u. }
  split.
  - intros Hp (u & Hu & Hc)%H. unfold looks_like_a_person in Hp. rewrite Hu in Hp. apply andb_prop in Hp as [Ha _].
    by rewrite (candidate_not_acted _ _ _ _ Hc) in Ha.
  - intros Hr (u & Hu & Hc)%H. unfold dead_candidate in Hc. cbv zeta in Hc. breflect. done.
Qed.

(** ** Nobody brings in more people than the settings allow *)

Section bound.
Context (sha256 : bytes -> bytes) (b64decode : string -> option bytes) (loads : bytes -> option json)
  (ed25519_verify : bytes -> bytes -> bytes -> bool) (public_key : option string).
Notation hash_code := (hash_invite_code sha256).

(** The tables, the grants read and not yet written, every code drawn so far,
    who minted which code, and the codes that let somebody in. *)
Record ist := mkIst {
  i_db : ndb; i_grants : list mint_grant; i_drawn : gset string; i_mints : list (Z * string); i_entries : list string
}.

(** Rows of [invites] and the counter are what the bound is about: everything
    else may change in any way. *)
Definition same_invites (d d' : ndb) : Prop :=
  invite_rows (n_acc d') = invite_rows (n_acc d) /\ minted d' = minted d.

(** [N]: the largest total of either drip at any time.  Drawn codes never
    repeat. *)
Inductive istep (N : Z) : ist -> ist -> Prop :=
  | is_look s now uin g d gs dr ms es :
      or_int 0 (ds_total s) <= N -> or_int 0 (ds_free_total s) <= N -> mint_look s now uin d = Ok g ->
      istep N (mkIst d gs dr ms es) (mkIst d (g :: gs) dr ms es)
  | is_write host g raw m d d' gs dr ms es :
      g ∈ gs -> hash_code raw ∉ dr -> mint_write sha256 host g raw d = (Ok m, d') ->
      istep N (mkIst d gs dr ms es) (mkIst d' gs ({[ hash_code raw ]} ∪ dr) ((mg_uin g, hash_code raw) :: ms) es)
  | is_write_refused host g raw e d d' gs dr ms es :
      g ∈ gs -> hash_code raw ∉ dr -> mint_write sha256 host g raw d = (Raise e, d') ->
      istep N (mkIst d gs dr ms es) (mkIst d' gs ({[ hash_code raw ]} ∪ dr) ms es)
  | is_operator now host b raw d gs dr ms es :
      hash_code raw ∉ dr ->
      istep N (mkIst d gs dr ms es) (mkIst (mint_invite sha256 now host b raw d).2 gs ({[ hash_code raw ]} ∪ dr) ms es)
  | is_withdraw c uin d gs dr ms es : istep N (mkIst d gs dr ms es) (mkIst (revoke_own c uin d).2 gs dr ms es)
  | is_revoke c d gs dr ms es : istep N (mkIst d gs dr ms es) (mkIst (revoke_invite c d) gs dr ms es)
  | is_sweep dry now d gs dr ms es : istep N (mkIst d gs dr ms es) (mkIst (invite_sweep dry now d).2 gs dr ms es)
  | is_enter now c need_uin d gs dr ms es :
      (consume_invite now c need_uin (n_acc d)).1 = true ->
      istep N (mkIst d gs dr ms es) (mkIst (set_nacc (consume_invite now c need_uin (n_acc d)).2 d) gs dr ms (c :: es))
  | is_redeem s host now uin v d gs dr ms es :
      istep N (mkIst d gs dr ms es)
        (mkIst (redeem b64decode loads ed25519_verify public_key s host now uin v d).1.2 gs dr ms es)
  | is_elsewhere d' d gs dr ms es : same_invites d d' -> istep N (mkIst d gs dr ms es) (mkIst d' gs dr ms es).

Definition istart (s : ist) : Prop :=
  i_grants s = [] /\ i_mints s = [] /\ i_entries s = [] /\ minted (i_db s) = ∅ /\
  NoDup (map code (invite_rows (n_acc (i_db s)))) /\
  (forall i, i ∈ invite_rows (n_acc (i_db s)) -> code i ∈ i_drawn s).

Definition count (c : string) (es : list string) : nat := length (List.filter (String.eqb c) es).

Record bounded (N : Z) (s : ist) : Prop := {
  bd_grants g : g ∈ i_grants s -> mg_granted g <= N;
  bd_drawn i : i ∈ invite_rows (n_acc (i_db s)) -> code i ∈ i_drawn s;
  bd_mints u c : (u, c) ∈ i_mints s -> c ∈ i_drawn s;
  bd_codes : NoDup (map snd (i_mints s));
  bd_minted u : Z.of_nat (length (List.filter (fun m => m.1 =? u) (i_mints s))) = minted_by (i_db s) u;
  bd_cap u : minted_by (i_db s) u <= Z.max 0 N;
  bd_once u c : (u, c) ∈ i_mints s -> (count c (i_entries s) <= 1)%nat;
  bd_rows u c i : (u, c) ∈ i_mints s -> i ∈ invite_rows (n_acc (i_db s)) -> code i = c ->
    max_uses i = 1 /\ used_count i = Z.of_nat (count c (i_entries s));
  bd_unique : NoDup (map code (invite_rows (n_acc (i_db s))));
  bd_entries c : c ∈ i_entries s -> c ∈ i_drawn s
}.

Lemma start_bounded N s : istart s -> bounded N s.
Proof.
  intros (Hg & Hm & He & Hd & Hu & Hr). split; rewrite ?Hg, ?Hm, ?He; try (intros * []%elem_of_nil); try done.
  - apply NoDup_nil_2.
  - intros u. unfold minted_by. by rewrite Hd, lookup_empty.
  - intros u. unfold minted_by. rewrite Hd, lookup_empty. simpl. lia.
Qed.

Lemma source_cap s now d uin u kind total granted next :
  source s now d uin u = (kind, total, granted, next) ->
  granted <= Z.max 0 (Z.max (or_int 0 (ds_total s)) (or_int 0 (ds_free_total s))).
Proof.
  unfold source, quota, free_quota. destruct (resident_since _) as [since|].
  - unfold accrued. destruct (Z.leb_spec (or_int 0 (ds_total s)) 0); [intros [= _ _ <- _]; lia|].
    destruct (_ <=? Z.min _ _); intros [= _ _ <- _]; lia.
  - destruct (_ && _); [|intros [= _ _ <- _]; lia]. unfold accrued_free.
    destruct (Z.leb_spec (or_int 0 (ds_free_total s)) 0); [intros [= _ _ <- _]; lia|].
    destruct (ds_free_before s); [|intros [= _ _ <- _]; lia]. destruct (now <? _); [intros [= _ _ <- _]; lia|].
    destruct (_ <=? Z.min _ _); intros [= _ _ <- _]; lia.
Qed.

Lemma look_cap N s now uin d g :
  or_int 0 (ds_total s) <= N -> or_int 0 (ds_free_total s) <= N -> mint_look s now uin d = Ok g -> mg_granted g <= N.
Proof.
  intros H1 H2. unfold mint_look, quota, free_quota.
  destruct (_ && _) eqn:E; [done|]. destruct (nuser d uin) as [u|]; [|done]. destruct (is_suspended u); [done|].
  destruct (source s now d uin u) as [[[kind total] granted] next] eqn:Es. destruct (String.eqb kind ""); [done|].
  destruct (total <=? 0); [done|]. intros [= <-]. simpl. pose proof (source_cap _ _ _ _ _ _ _ _ _ Es).
  apply andb_false_iff in E as [E|E]; breflect; lia.
Qed.

(** Rows may go, and the rest of the tables may change. *)
Lemma bounded_fewer N d d' gs dr ms es :
  bounded N (mkIst d gs dr ms es) -> minted d' = minted d ->
  (forall i, i ∈ invite_rows (n_acc d') -> i ∈ invite_rows (n_acc d)) -> NoDup (map code (invite_rows (n_acc d'))) ->
  bounded N (mkIst d' gs dr ms es).
Proof.
  intros [B1 B2 B3 B4 B5 B6 B7 B8 B9 B10] Hm Hr Hu. unfold minted_by in *. simpl in *.
  split; simpl; unfold minted_by; rewrite ?Hm; auto. intros u c i Hin Hi. by apply (B8 u); auto.
Qed.

Lemma delete_fewer p d i : i ∈ invite_rows (n_acc (delete_invites p d)) -> i ∈ invite_rows (n_acc d).
Proof. simpl. rewrite !list_elem_of_In, List.filter_In. by intros [H _]. Qed.

Lemma delete_unique p d : NoDup (map code (invite_rows (n_acc d))) -> NoDup (map code (invite_rows (n_acc (delete_invites p d)))).
Proof.
  simpl. induction (invite_rows (n_acc d)) as [|i l IH]; [done|]. simpl. intros [Hi Hn]%NoDup_cons.
  destruct (p i); simpl; [auto|]. constructor; [|auto]. intros (j & E & Hj)%list_elem_of_fmap. apply Hi. rewrite E.
  apply list_elem_of_fmap_2. apply list_elem_of_In, List.filter_In in Hj as [Hj _]. by apply list_elem_of_In.
Qed.

Lemma bounded_delete N p d gs dr ms es : bounded N (mkIst d gs dr ms es) -> bounded N (mkIst (delete_invites p d) gs dr ms es).
Proof.
  intros Hb. apply (bounded_fewer _ d); [done|done|apply delete_fewer|]. apply delete_unique. exact (bd_unique _ _ Hb).
Qed.

Lemma insert_invite_rows i m d d' :
  insert_invite i m d = Ok d' ->
  invite_rows (n_acc d') = invite_rows (n_acc d) ++ [i] /\ minted d' = minted d /\ has_code (code i) d = false.
Proof. unfold insert_invite. destruct (has_code (code i) d); [done|]. by intros [= <-]. Qed.

Lemma unique_snoc i d :
  has_code (code i) d = false -> NoDup (map code (invite_rows (n_acc d))) -> NoDup (map code (invite_rows (n_acc d) ++ [i])).
Proof.
  intros Hc Hn. rewrite map_app. apply NoDup_snoc; [|done]. intros (j & E & Hj)%list_elem_of_fmap.
  unfold has_code in Hc. rewrite existsb_false_elem in Hc. specialize (Hc j Hj). simpl in Hc. by rewrite <-E, String.eqb_refl in Hc.
Qed.

(** A code never drawn before is nobody's. *)
Lemma bounded_draw N d gs dr ms es h :
  bounded N (mkIst d gs dr ms es) -> bounded N (mkIst d gs ({[ h ]} ∪ dr) ms es).
Proof.
  intros [B1 B2 B3 B4 B5 B6 B7 B8 B9 B10]. simpl in *. split; simpl; try done.
  - intros i Hi. by apply elem_of_union_r, B2.
  - intros u c Hm. by apply elem_of_union_r, (B3 u).
  - intros c Hc. by apply elem_of_union_r, B10.
Qed.

Lemma bounded_insert N d d' gs dr ms es i m :
  bounded N (mkIst d gs dr ms es) -> insert_invite i m d = Ok d' -> code i ∉ dr ->
  bounded N (mkIst d' gs ({[ code i ]} ∪ dr) ms es).
Proof.
  intros Hb (Hr & Hm & Hc)%insert_invite_rows Hn. pose proof (bounded_draw _ _ _ _ _ _ (code i) Hb) as [B1 B2 B3 B4 B5 B6 B7 B8 B9 B10].
  destruct Hb as [_ _ A3 _ _ _ _ _ _ _]. unfold minted_by in *. simpl in *.
  split; simpl; unfold minted_by; rewrite ?Hm, ?Hr; try done.
  - intros j [Hj|Hj%list_elem_of_singleton]%elem_of_app; [by apply B2|]. subst j. by apply elem_of_union_l, elem_of_singleton.
  - intros u c j Hin [Hj|Hj%list_elem_of_singleton]%elem_of_app E; [by apply (B8 u c)|]. subst j c.
    destruct Hn. by apply (A3 u).
  - by apply unique_snoc.
Qed.

Lemma mint_operator_cases now host b raw d :
  (mint_invite sha256 now host b raw d).2 = d \/
  exists m, insert_invite (operator_invite sha256 now b raw) m d = Ok (mint_invite sha256 now host b raw d).2.
Proof.
  unfold mint_invite. case_cond; [by left|].
  destruct (match mv_uin b with Some u => mint_invite_checks now u d | None => Ok tt end); [|by left].
  destruct (insert_invite _ _ d) as [d'|] eqn:E; simpl; [right; by eexists|by left].
Qed.

Lemma make_resident_creds now uin d : creds (n_acc (make_resident now uin d)) = creds (n_acc d).
Proof.
  unfold make_resident. cbn [n_acc set_nacc set_base]. by rewrite creds_clear, creds_badge, creds_account.
Qed.

Lemma make_resident_invites now uin d : same_invites d (make_resident now uin d).
Proof. split; [|done]. pose proof (make_resident_creds now uin d) as H. unfold creds in H. congruence. Qed.

Lemma redeem_invites s host now uin v d :
  same_invites d (redeem b64decode loads ed25519_verify public_key s host now uin v d).1.2.
Proof.
  unfold redeem. destruct (negb _); [by split|]. destruct (nuser d uin) as [u|]; [|by split].
  destruct (is_suspended u); [by split|]. destruct (bool_decide _); [by split|].
  destruct (verify_entry _ _ _ _ _ _ _) as [nonce|c|x]; [|by split|by split].
  destruct (bool_decide (nonce ∈ _)); [by split|].
  set (d0 := set_nacc (spend nonce (n_acc d)) d). pose proof (make_resident_invites now uin d0) as [H1 H2].
  destruct (nuser (make_resident now uin d0) uin); split; cbn [fst snd]; [rewrite H1|rewrite H2|rewrite H1|rewrite H2]; done.
Qed.

Lemma bounded_mint N host g raw m d d' gs dr ms es :
  bounded N (mkIst d gs dr ms es) -> g ∈ gs -> hash_code raw ∉ dr -> mint_write sha256 host g raw d = (Ok m, d') ->
  bounded N (mkIst d' gs ({[ hash_code raw ]} ∪ dr) ((mg_uin g, hash_code raw) :: ms) es).
Proof.
  intros Hb Hg Hn. unfold mint_write. destruct (bool_decide _); [simpl|done].
  destruct (Z.ltb_spec (minted_by d (mg_uin g)) (mg_granted g)) as [Hlt|]; [|done].
  destruct (insert_invite _ _ _) as [d2|] eqn:Ei; [|done]. intros [= _ <-].
  apply insert_invite_rows in Ei as (Hr & Hm & Hc). cbn [n_acc set_minted minted code resident_invite] in Hr, Hm, Hc.
  destruct Hb as [B1 B2 B3 B4 B5 B6 B7 B8 B9 B10]. simpl in *.
  assert (Hfresh : forall u c, (u, c) ∈ ms -> c <> hash_code raw) by (intros u c Hin ->; apply Hn; by apply (B3 u)).
  assert (Hcount : count (hash_code raw) es = 0%nat).
  { unfold count. destruct (List.filter _ es) as [|c l] eqn:E; [done|].
    assert (Hc' : c ∈ List.filter (String.eqb (hash_code raw)) es) by (rewrite E; left).
    apply list_elem_of_In, List.filter_In in Hc' as [Hc' <-%String.eqb_eq]. destruct Hn. by apply B10, list_elem_of_In. }
  split; simpl; rewrite ?Hr.
  - done.
  - intros i [Hi|Hi%list_elem_of_singleton]%elem_of_app; [by apply elem_of_union_r, B2|]. subst i.
    by apply elem_of_union_l, elem_of_singleton.
  - intros u c [[= -> ->]|Hin]%elem_of_cons; [by apply elem_of_union_l, elem_of_singleton|by apply elem_of_union_r, (B3 u)].
  - constructor; [|done]. intros ([u c] & E & Hin)%list_elem_of_fmap. simpl in E. by apply (Hfresh u c Hin).
  - intros u. unfold minted_by in *. rewrite Hm. destruct (Z.eqb_spec (mg_uin g) u) as [->|Hne].
    + rewrite lookup_insert_eq. simpl. specialize (B5 u). lia.
    + rewrite lookup_insert_ne by done. apply B5.
  - intros u. unfold minted_by in *. rewrite Hm. destruct (decide (mg_uin g = u)) as [<-|Hne].
    + rewrite lookup_insert_eq. simpl. specialize (B1 g Hg). lia.
    + rewrite lookup_insert_ne by done. apply B6.
  - intros u c [[= -> ->]|Hin]%elem_of_cons; [rewrite Hcount; lia|by apply (B7 u)].
  - intros u c i [[= -> ->]|Hin]%elem_of_cons [Hi|Hi%list_elem_of_singleton]%elem_of_app E.
    + destruct Hn. rewrite <-E. by apply B2.
    + subst i. rewrite Hcount. done.
    + by apply (B8 u c).
    + subst i. by destruct (Hfresh u c Hin).
  - apply (unique_snoc (resident_invite sha256 g raw)); [done|]. done.
  - intros c Hin. by apply elem_of_union_r, B10.
Qed.

Lemma code_use now i : code (use_invite now i) = code i. Proof. done. Qed.

Lemma bounded_enter N now c need d gs dr ms es :
  bounded N (mkIst d gs dr ms es) -> (consume_invite now c need (n_acc d)).1 = true ->
  bounded N (mkIst (set_nacc (consume_invite now c need (n_acc d)).2 d) gs dr ms (c :: es)).
Proof.
  intros [B1 B2 B3 B4 B5 B6 B7 B8 B9 B10] Ho. simpl in *. apply existsb_elem in Ho as (i0 & Hi0 & Ho).
  pose proof Ho as Ho'. unfold opens_door, invite_is_live in Ho'. breflect.
  match goal with H : String.eqb (code i0) c = true |- _ => apply String.eqb_eq in H; rename H into Hcode end.
  assert (Hone : forall u, (u, c) ∈ ms -> count c es = 0%nat).
  { intros u Hin. destruct (B8 u c i0 Hin Hi0 Hcode) as [Hm Hu]. lia. }
  assert (Hsame : forall i, i ∈ invite_rows (n_acc d) -> code i = c -> i = i0).
  { intros i Hi E. apply (NoDup_map_inj code _ _ _ B9 Hi Hi0). congruence. }
  split; simpl; try done.
  - intros i (j & -> & Hj)%list_elem_of_fmap. specialize (B2 j Hj). by destruct (opens_door now c need j).
  - intros u c' Hin. unfold count. simpl. destruct (String.eqb_spec c' c) as [->|]; [|by apply (B7 u)].
    simpl. pose proof (Hone u Hin) as Hz. unfold count in Hz. lia.
  - intros u c' i Hin (j & -> & Hj)%list_elem_of_fmap E.
    assert (Ecj : code j = c') by (by destruct (opens_door now c need j)).
    destruct (B8 u c' j Hin Hj Ecj) as [Hm Hu]. unfold count. simpl. destruct (String.eqb_spec c' c) as [->|Hne].
    + rewrite (Hsame j Hj Ecj), Ho in *. simpl. pose proof (Hone u Hin) as Hz. unfold count in *. lia.
    + destruct (opens_door now c need j) eqn:E'; [|done]. unfold opens_door in E'. breflect.
      match goal with H : String.eqb (code j) c = true |- _ => apply String.eqb_eq in H end. congruence.
  - rewrite map_map. rewrite (map_ext _ code); [done|]. intros i. by destruct (opens_door now c need i).
  - intros c' [->|Hin]%elem_of_cons; [|by apply B10]. rewrite <-Hcode. by apply B2.
Qed.

Lemma istep_bounded N s s' : istep N s s' -> bounded N s -> bounded N s'.
Proof.
  destruct 1 as [s now uin g d gs dr ms es H1 H2 Hl|host g raw m d d' gs dr ms es Hg Hn Hw|host g raw e d d' gs dr ms es Hg Hn Hw
    |now host b raw d gs dr ms es Hn|c uin d gs dr ms es|c d gs dr ms es|dry now d gs dr ms es|now c need d gs dr ms es Hc
    |s host now uin v d gs dr ms es|d' d gs dr ms es [Hr Hm]]; intros Hb.
  - destruct Hb. split; try done. simpl in *. intros q [->|Hq]%elem_of_cons; [by apply (look_cap N s now uin d)|auto].
  - by apply (bounded_mint N host g raw m d).
  - assert (d' = d) as ->.
    { unfold mint_write in Hw. destruct (_ && _); [|congruence]. destruct (insert_invite _ _ _); congruence. }
    by apply bounded_draw.
  - destruct (mint_operator_cases now host b raw d) as [->|[m Hm]]; [by apply bounded_draw|].
    by apply (bounded_insert N d _ gs dr ms es _ m Hb Hm).
  - unfold revoke_own. destruct (_ && _); [by apply bounded_delete|done].
  - by apply bounded_delete.
  - unfold invite_sweep. destruct dry; [done|]. by apply bounded_delete.
  - by apply bounded_enter.
  - destruct (redeem_invites s host now uin v d) as [Hr Hm]. apply (bounded_fewer _ d); [done|done|by rewrite Hr|].
    rewrite Hr. exact (bd_unique _ _ Hb).
  - apply (bounded_fewer _ d); [done|done|by rewrite Hr|]. rewrite Hr. exact (bd_unique _ _ Hb).
Qed.

Lemma filter_once (p : string -> bool) es :
  (forall c, p c = true -> (count c es <= 1)%nat) -> NoDup (List.filter p es).
Proof.
  induction es as [|e es IH]; intros Hc; simpl; [constructor|].
  assert (IH' : NoDup (List.filter p es)).
  { apply IH. intros c Hp. specialize (Hc c Hp). unfold count in *. simpl in Hc. destruct (String.eqb c e); simpl in Hc; lia. }
  destruct (p e) eqn:E; [|done]. constructor; [|done]. intros Hin%list_elem_of_In. apply List.filter_In in Hin as [Hin _].
  specialize (Hc e E). unfold count in Hc. simpl in Hc. rewrite String.eqb_refl in Hc. simpl in Hc.
  assert (Hf : In e (List.filter (String.eqb e) es)) by (apply List.filter_In; split; [done|apply String.eqb_refl]).
  destruct (List.filter (String.eqb e) es); [done|simpl in Hc; lia].
Qed.

(** Entries by one person's codes, against the codes. *)
Lemma entries_le_mints (ms : list (Z * string)) (es : list string) (u : Z) :
  (forall c, (u, c) ∈ ms -> (count c es <= 1)%nat) ->
  (length (List.filter (fun c => bool_decide ((u, c) ∈ ms)) es) <= length (List.filter (fun m => (m.1 =? u)%Z) ms))%nat.
Proof.
  intros Hc. rewrite <-(length_map snd (List.filter _ ms)). apply List.NoDup_incl_length.
  - apply NoDup_ListNoDup, filter_once. intros c Hp. apply Hc. by apply bool_decide_eq_true_1 in Hp.
  - intros c [_ Hp%bool_decide_eq_true_1]%List.filter_In. apply in_map_iff. exists (u, c). split; [done|].
    apply List.filter_In. split; [by apply list_elem_of_In|]. simpl. apply Z.eqb_refl.
Qed.

(** C27. however requests to mint, withdrawals, purchases of residency, the
    operator's requests, registrations and the sweep interleave: what a person
    has minted is what the counter says, it never exceeds the larger of the two
    totals, each code let in at most one person, and so no more people than that
    total ever came in on one person's invites. *)
Theorem invites_bounded (N : Z) (s s' : ist) (u : Z) :
  istart s -> rtc (istep N) s s' ->
  Z.of_nat (length (List.filter (fun m => m.1 =? u) (i_mints s'))) = minted_by (i_db s') u /\
  minted_by (i_db s') u <= Z.max 0 N /\
  (forall c, (u, c) ∈ i_mints s' -> (count c (i_entries s') <= 1)%nat) /\
  Z.of_nat (length (List.filter (fun c => bool_decide ((u, c) ∈ i_mints s')) (i_entries s'))) <= Z.max 0 N.
Proof.
  intros Hs Hr. assert (Hb : bounded N s').
  { apply (start_bounded N) in Hs. induction Hr as [|s1 s2 s3 H12 _ IH]; [done|]. apply IH. by apply (istep_bounded N s1). }
  pose proof (bd_minted _ _ Hb u). pose proof (bd_cap _ _ Hb u).
  split; [done|]. split; [done|]. split; [apply (bd_once _ _ Hb)|].
  pose proof (entries_le_mints (i_mints s') (i_entries s') u (bd_once _ _ Hb u)). lia.
Qed.
End bound.

(** ** Buying residency *)

(** One row's account and user columns after an update of its account, of its
    user. *)
Lemma seen_account uin f a u :
  users (acore a) !! uin = Some u ->
  users (acore (set_account uin f a)) !! uin = Some u /\ account_of (set_account uin f a) uin = f (account_of a uin).
Proof.
  intros Hu. pose proof (set_account_row uin f a uin) as E. rewrite decide_True in E by (split; [done|by exists u]).
  apply row_is in E as (E1 & _ & E3). unfold account_of at 1. rewrite E1, E3. done.
Qed.

Lemma seen_user uin f a u :
  users (acore a) !! uin = Some u ->
  users (acore (set_user uin f a)) !! uin = Some (f u) /\ account_of (set_user uin f a) uin = account_of a uin.
Proof.
  intros Hu. pose proof (set_user_row uin f a uin) as E. rewrite decide_True, Hu in E by done.
  apply row_is in E as (E1 & _ & E3). unfold account_of. by rewrite E1, E3.
Qed.

Lemma seen_badge uin k a u :
  users (acore a) !! uin = Some u ->
  exists u' b, users (acore (grant_badge uin k a)) !! uin = Some u' /\
    account_of (grant_badge uin k a) uin = with_badges b (account_of a uin).
Proof.
  intros Hu. unfold grant_badge. rewrite Hu. cbv zeta. set (b := Some (join_comma _)).
  destruct (seen_account uin (with_badges b) a u Hu) as [H1 H2]. destruct (truthy (badge (profile u))).
  - eauto.
  - destruct (seen_user uin (with_badge (Some k)) _ _ H1) as [H3 H4]. rewrite H4, H2. eauto.
Qed.

Lemma make_resident_row now uin d u :
  nuser d uin = Some u ->
  exists u', nuser (make_resident now uin d) uin = Some u' /\ guest_status u' = None /\
    resident_since (naccount (make_resident now uin d) uin) = Some now /\
    entered_via (naccount (make_resident now uin d) uin) = entered_via (naccount d uin).
Proof.
  unfold nuser, naccount, make_resident. cbn [n_acc set_nacc set_base]. intros Hu.
  destruct (seen_account uin (with_resident (Some now)) _ _ Hu) as [H1 H2].
  destruct (seen_badge uin "resident" _ _ H1) as (u1 & b & H3 & H4). unfold clear_guest_columns.
  destruct (seen_user uin (with_guest None) _ _ H3) as [H5 H6].
  destruct (seen_account uin (with_guest_since None) _ _ H5) as [H7 H8].
  exists (with_guest None u1). rewrite H7, H8, H6, H4, H2. done.
Qed.

(** a refused purchase of residency spends no voucher and changes nothing, so
    that a second tap is answered "already resident" for free; an accepted one
    is of a voucher the till signed for this island and nobody had redeemed,
    spends it, makes the account a resident and no guest, leaves how it came in
    and what it minted, and puts an invite in its hand at once unless it has
    minted them all. *)
Theorem redeem_spec b64decode loads ed25519_verify public_key (s : drip_settings) (host : string) (now uin : Z)
    (voucher : string) (d : ndb) :
  let '(o, d', fx) := redeem b64decode loads ed25519_verify public_key s host now uin voucher d in
  match o with
  | Raise _ => d' = d /\ fx = []
  | Ok out => exists nonce u u',
      verify_entry b64decode loads ed25519_verify public_key voucher host (now / usec_per_sec) = Accepted nonce /\
      nonce ∉ spent_nonces (n_acc d) /\ spent_nonces (n_acc d') = {[ nonce ]} ∪ spent_nonces (n_acc d) /\
      nuser d uin = Some u /\ is_suspended u = false /\ resident_since (naccount d uin) = None /\
      nuser d' uin = Some u' /\ guest_status u' = None /\ resident_since (naccount d' uin) = Some now /\
      entered_via (naccount d' uin) = entered_via (naccount d uin) /\ minted d' = minted d /\
      (0 <= minted_by d uin < or_int 0 (ds_total s) -> 1 <= io_remaining (ro_invites out))
  end.
Proof.
  unfold redeem. destruct (negb _); [done|]. destruct (nuser d uin) as [u|] eqn:Hu; [|done].
  destruct (is_suspended u) eqn:Hsu; [done|]. case_bool_decide as Hres; [done|].
  destruct (verify_entry _ _ _ _ _ _ _) as [nonce|c|x] eqn:Hv; [|done|done].
  case_bool_decide as Hn; [done|]. set (d0 := set_nacc (spend nonce (n_acc d)) d).
  destruct (make_resident_row now uin d0 u Hu) as (u' & Hu' & Hg & Hr & He). rewrite Hu'.
  pose proof (make_resident_creds now uin d0) as Hc. unfold creds in Hc. injection Hc as Hc _.
  exists nonce, u, u'. do 3 (split; [done|]). split; [done|]. split; [done|].
  split; [destruct (resident_since (naccount d uin)); [by destruct Hres|done]|].
  do 4 (split; [done|]). split; [done|]. intros Hm. cbn [ro_invites]. unfold invites_out, source, quota. rewrite Hr.
  assert (Hb : base_of (make_resident now uin d0) uin = minted_by d uin).
  { unfold base_of, make_resident. cbn [paid_base set_nacc set_base]. rewrite lookup_insert_eq.
    change (Z.max 0 (minted_by d uin) = minted_by d uin). lia. }
  assert (Hm' : minted_by (make_resident now uin d0) uin = minted_by d uin) by done.
  rewrite Hb. unfold accrued. rewrite (proj2 (Z.leb_gt _ 0)) by lia. rewrite (Z.max_r 0 (minted_by d uin)) by lia.
  rewrite Z.sub_diag, Z.div_0_l by (pose proof (days_pos (Z.max 1 (or_int 30 (ds_period s)))); lia).
  destruct (_ <=? Z.min _ _); cbn [io_remaining]; rewrite Hm'; lia.
Qed.

(** ** A resident, a guest of theirs, and a purchase *)

Definition flat_sha (b : bytes) : bytes := take 32 (b ++ repeat 0 32).
Definition neighbour_row (nick : string) (seen : Z) : User := new_user 0 seen nick None None.
Definition house (accs : gmap Z Account) : ndb :=
  mkNdb (mkAdb (mkRdb (mkKdb (set_users (fun _ => {[ 5 := neighbour_row "ann" (days 40); 6 := neighbour_row "user-6" 0 ]}) empty_db)
                         ∅ [] [] [] 1 1 1) ∅ 1) accs [] ∅ ∅ ∅ ∅ ∅ ∅)
    ∅ ∅ ∅ [] [] [].
Definition paid_house : ndb := house {[ 5 := mkAccount None (Some 0) None None None None ]}.
Definition legacy_house : ndb := house ∅.
Definition five_and_three : drip_settings := mkDripSettings (Some 5) None None (Some 3) (Some (days 10)) None.

Definition ann_grant : mint_grant := mkMintGrant 5 2 (days 31) 30.
Definition ann_code : string := hash_invite_code flat_sha "welcome".
Definition after_mint : outcome MintedInvite * ndb := mint_write flat_sha "rcq.app" ann_grant "welcome" paid_house.
Definition after_entry : ndb := set_nacc (consume_invite (days 32) ann_code false (n_acc after_mint.2)).2 after_mint.2.
Definition b0 : ist := mkIst paid_house [] ∅ [] [].
Definition b3 : ist := mkIst after_entry [ann_grant] ({[ ann_code ]} ∪ ∅) [(5, ann_code)] [ann_code].

Lemma b3_reached : rtc (istep flat_sha (fun _ => None) (fun _ => None) (fun _ _ _ => false) None 5) b0 b3.
Proof.
  apply (rtc_l _ _ (mkIst paid_house [ann_grant] ∅ [] [])).
  { apply (is_look flat_sha _ _ _ _ 5 five_and_three (days 31) 5 ann_grant); vm_compute; (reflexivity || discriminate). }
  apply (rtc_l _ _ (mkIst after_mint.2 [ann_grant] ({[ ann_code ]} ∪ ∅) [(5, ann_code)] [])).
  { apply (is_write flat_sha _ _ _ _ 5 "rcq.app" ann_grant "welcome" (mkMintedInvite "welcome" "rcq://server/rcq.app?invite=welcome" (days 61)));
      [left|apply not_elem_of_empty|]. assert (H : after_mint.1 = Ok (mkMintedInvite "welcome" "rcq://server/rcq.app?invite=welcome" (days 61))) by (vm_compute; reflexivity).
    change (after_mint = (Ok (mkMintedInvite "welcome" "rcq://server/rcq.app?invite=welcome" (days 61)), after_mint.2)).
    destruct after_mint as [o x]. simpl in *. by subst. }
  apply rtc_once. apply (is_enter flat_sha _ _ _ _ 5 (days 32) ann_code false). vm_compute. reflexivity.
Qed.

Lemma invites_bounded_witness : minted_by (i_db b3) 5 = 1 /\
  Z.of_nat (length (List.filter (fun c => bool_decide ((5, c) ∈ i_mints b3)) (i_entries b3))) <= Z.max 0 5.
Proof.
  split; [vm_compute; reflexivity|].
  refine (proj2 (proj2 (proj2 (invites_bounded flat_sha (fun _ => None) (fun _ => None) (fun _ _ _ => false) None 5 b0 b3 5 _ b3_reached)))).
  repeat split; try reflexivity; [apply NoDup_nil_2|intros i []%elem_of_nil].
Defined.

Lemma drip_is_calendar_witness : accrued (Some 0) 2 5 30 (days 45) = calendar 0 2 5 30 (days 45).
Proof. apply (proj1 drip_is_calendar); vm_compute; (reflexivity || (split; discriminate) || discriminate). Defined.

Example drip_values :
  accrued (Some 0) 2 5 30 (days 45) = (4, Some (days 60)) /\ accrued (Some 0) 2 5 30 (days 60) = (5, None) /\
  calendar 0 2 5 30 (days 59) = (4, Some (days 60)).
Proof. vm_compute. repeat split. Qed.

Lemma person_not_swept_witness : looks_like_a_person legacy_house 5 = true /\ 5 ∉ dead_accounts (days 90) legacy_house.
Proof. split; [vm_compute; reflexivity|]. apply (proj1 (person_not_swept (days 90) legacy_house 5)). vm_compute. reflexivity. Defined.

Example leftover_swept : dead_accounts (days 90) legacy_house = [6].
Proof. vm_compute. reflexivity. Qed.

(** Somebody who had minted two free invites pays and has one more at once.  The
    move to another number copies what was minted and the day of the payment,
    and not the base: the same person has none left, and none before two more
    periods have passed. *)
Example move_loses_paid_base :
  bool_decide ("invites_minted"%string ∈ COPIED) = true /\ bool_decide ("resident_since"%string ∈ COPIED) = true /\
  bool_decide ("invites_paid_base"%string ∈ COPIED) = false /\
  (accrued (Some 0) 2 5 30 (days 1)).1 - 2 = 1 /\
  (accrued (Some 0) 0 5 30 (days 1)).1 - 2 = -1 /\ (accrued (Some 0) 0 5 30 (days 59)).1 - 2 = 0.
Proof. vm_compute. repeat split. Qed.

(** After a move the row is new: for a day the person is not taken for one, and
    the free drip grants nothing, though it counts from when they joined. *)
Example move_stops_free_drip :
  let u := new_user (days 50) (days 50 + hours 5) "ann" None None in
  let a := mkAccount None None None None (Some 0) None in
  let d := mkNdb (mkAdb (mkRdb (mkKdb (set_users (fun _ => {[ 7 := u ]}) empty_db) ∅ [] [] [] 1 1 1) ∅ 1) {[ 7 := a ]}
                    [] ∅ ∅ ∅ ∅ ∅ ∅) ∅ ∅ ∅ [] [] [] in
  source five_and_three (days 50 + hours 5) d 7 u = (""%string, 5, 0, None) /\
  (accrued_free u a 3 (Some (days 10)) 0 30 (days 50 + hours 5)).1 = 2.
Proof. vm_compute. repeat split. Qed.

(** The till's voucher for this island, redeemed twice: the second time the
    account is a resident already and nothing is spent. *)
Definition entry_doc (_ : bytes) : option json :=
  Some (JObj [("v", JInt 1); ("kind", JStr "entry"); ("host", JStr "isle.example"); ("exp", JInt 500);
              ("nonce", JStr "0123456789abcdef"); ("sig", JStr "")] "").
Definition buy (d : ndb) : outcome RedeemOut * ndb * list residency_effect :=
  redeem (fun s => Some (utf8 s)) entry_doc
    (fun _ _ msg => bool_decide (msg = signed_doc (DEntry "isle.example" "0123456789abcdef" 500))) (Some "k"%string)
    five_and_three "isle.example" (seconds 100) 5 "the voucher of the till" d.

Example residency_bought :
  let '(o, d, fx) := buy legacy_house in
  (match o with Ok out => io_remaining (ro_invites out) | Raise _ => 0 end) = 1 /\
  resident_since (naccount d 5) = Some (seconds 100) /\
  fx = [MarkAnnounced 5 "ann" (Some "resident"%string)] /\
  (buy d).1.1 = Raise (HTTPException 409 "already_resident").
Proof. vm_compute. repeat split. Qed.
