(* ===== verification/Sweeps.v ===== *)
(** * Readers that stopped, guests that never came, and who runs a sweep

    [src/app/services/stale_reader_sweep.py] (a device that stopped reading the
    room log loses its mark, so that its account gets queued copies again),
    [src/app/services/guest_sweep.py] (the lifetimes of guest copies and
    unclaimed seats), [src/app/services/retired_key_sweep.py] and
    [src/app/services/periodic_leader.py].

    What a query leaves open, the order of its rows, is that of the tables here.
    A sweep of guests names the accounts it purges; the purge is
    [Migration.purge_account].  Horizons and batch sizes are the defaults of the
    environment switches. *)

From stdpp Require Import base list gmap strings pretty.
From Stdlib Require Import ZArith Lia.
From S2P Require Import Prelude Storage GroupLogStore Redis GuestPolicy Rooms Accounts.
Import Storage.

(** ** The leader of a cycle *)

Definition LEADER_KEY_PREFIX : string := "leader:".

(** [int(cycle_seconds * 0.9)], at least half a minute. *)
Definition claim_seconds (cycle_seconds : Z) : Z := Z.max 30 (cycle_seconds * 9 / 10).

Section leader.
Context {R : Type} `{RR : Redis R}.

Definition lead_this_cycle (up : bool) (now : Z) (worker role : string) (cycle_seconds : Z) (r : R) : bool * R :=
  if up then set_nx now (LEADER_KEY_PREFIX ++ role)%string worker (Some (claim_seconds cycle_seconds)) r else (true, r).
End leader.

(** ** Marks of retired keys *)

Definition RETIRED_MAX_AGE_DAYS : Z := 90.

Definition retired_key_sweep (dry_run : bool) (now : Z) (d : adb) : nat * adb :=
  let old := fun (kv : string * RetiredSigningKey) => rotated_at kv.2 < now - days RETIRED_MAX_AGE_DAYS in
  (size (filter old (retired_keys d)),
   if dry_run then d else set_retired (filter (fun kv => ~ old kv)) d).

(** ** Guests *)

Definition GUEST_BATCH : nat := 500.
Definition NEVER_POLLED_AFTER : Z := days 7.

Definition never_polled_gap (dormant_days : Z) : Z := Z.min (days 2) (mint_backdate dormant_days / 2).

(** The columns the sweep selects. *)
Record guest_cols := mkGuestCols { gr_uin : Z; gr_status : option string; gr_since : option Z; gr_seen : Z }.

Record guest_limits := mkGuestLimits { gl_ttl : Z; gl_idle : Z; gl_dormant : Z }.

Inductive sweep_kind := Unclaimed | NeverPolled | Idle.

Definition guest_eligible (k : sweep_kind) (w : guest_cols) (now : Z) (l : guest_limits) : bool :=
  match k with
  | Unclaimed =>
      bool_decide (gr_status w = Some STATUS_ADDED)
      && match gr_since w with Some s => s <? now - days (gl_ttl l) | None => false end
  | NeverPolled =>
      bool_decide (gr_status w = Some STATUS_PROVEN)
      && match gr_since w with
         | Some s => (s <? now - NEVER_POLLED_AFTER) && (gr_seen w <? s - never_polled_gap (gl_dormant l))
         | None => false
         end
  | Idle => bool_decide (gr_status w = Some STATUS_PROVEN) && (gr_seen w <? now - days (gl_idle l))
  end.

Definition guest_row_of (d : adb) (uin : Z) : option guest_cols :=
  option_map (fun u => mkGuestCols uin (guest_status u) (guest_since (account_of d uin)) (last_seen u)) (users (acore d) !! uin).

Definition guest_table (d : adb) : list guest_cols :=
  map (fun ur : Z * User => mkGuestCols ur.1 (guest_status ur.2) (guest_since (account_of d ur.1)) (last_seen ur.2))
    (map_to_list (users (acore d))).

(** The three queries; rows whose [guest_since] is NULL satisfy no comparison. *)
Definition seats_query (now : Z) (l : guest_limits) (ws : list guest_cols) : list guest_cols :=
  take GUEST_BATCH (sort_by (fun w => default 0 (gr_since w)) (List.filter (fun w => guest_eligible Unclaimed w now l) ws)).

Definition silent_query (now : Z) (ws : list guest_cols) : list guest_cols :=
  sort_by (fun w => default 0 (gr_since w))
    (List.filter (fun w => bool_decide (gr_status w = Some STATUS_PROVEN)
                           && match gr_since w with Some s => s <? now - NEVER_POLLED_AFTER | None => false end
                           && (gr_seen w <? now - NEVER_POLLED_AFTER)) ws).

Definition idle_query (now : Z) (l : guest_limits) (ws : list guest_cols) : list guest_cols :=
  take GUEST_BATCH (sort_by gr_seen (List.filter (fun w => guest_eligible Idle w now l) ws)).

(** The loop over one query's rows: [out] in the order of the code. *)
Fixpoint collect (k : sweep_kind) (now : Z) (l : guest_limits) (ws : list guest_cols) (out : list (Z * sweep_kind))
    : list (Z * sweep_kind) :=
  match ws with
  | [] => out
  | w :: ws =>
      if (GUEST_BATCH <=? length out)%nat then out
      else if bool_decide (gr_uin w ∈ map fst out) || negb (guest_eligible k w now l) then collect k now l ws out
      else collect k now l ws (out ++ [(gr_uin w, k)])
  end.

Definition find_candidates (now : Z) (l : guest_limits) (d : adb) : list (Z * sweep_kind) :=
  let ws := guest_table d in
  collect Idle now l (idle_query now l ws)
    (collect NeverPolled now l (silent_query now ws) (collect Unclaimed now l (seats_query now l ws) [])).

(** With the row locked: whether it is purged. *)
Definition purge_if_still_eligible (now : Z) (l : guest_limits) (c : Z * sweep_kind) (d : adb) : bool :=
  match guest_row_of d c.1 with Some w => guest_eligible c.2 w now l | None => false end.

(** One cycle: [view i] are the tables the [i]-th purge finds. *)
Definition guest_sweep (now : Z) (l : guest_limits) (d : adb) (view : nat -> adb) : list (Z * sweep_kind) :=
  let cs := find_candidates now l d in
  map snd (List.filter (fun ic : nat * (Z * sweep_kind) => purge_if_still_eligible now l ic.2 (view ic.1))
             (combine (seq 0 (length cs)) cs)).

(** ** Readers *)

Definition STALE_READER_DAYS : Z := 7.
Definition ACCOUNT_ALIVE_DAYS : Z := 2.
Definition READING_WITHIN_DAYS : Z := 1.
Definition STARVED_ROOM_DAYS : Z := 3.

Notation mark := (Z * string * GroupLogReader)%type.

(** Marks not refreshed since [cutoff] whose account was seen since. *)
Definition stale_marks (cutoff alive_since : Z) (d : db) : list mark :=
  List.filter (fun m : mark =>
      (reader_last_seen m.2 <? cutoff)
      && match users d !! m.1.1 with Some u => alive_since <? last_seen u | None => false end)
    (map_to_list (group_log_readers d)).

(** The row with the least sequence number. *)
Definition first_row (rows : list GroupLog) : option GroupLog := head (sort_by gl_seq rows).

Definition unread_since_before (cutoff : Z) (d : db) (key : Z * Z * string) (c : GroupLogCursor) : bool :=
  let first seen_by :=
    match first_row (List.filter (fun g => (gl_group_id g =? key.1.1) && seen_by g && (last_seq c <? gl_seq g)) (group_log d)) with
    | Some g => gl_received_at g <? cutoff
    | None => false
    end in
  first (fun g => negb (bool_decide (is_Some (gl_to_uin g)))) || first (fun g => bool_decide (gl_to_uin g = Some key.1.2)).

Definition confirmed_by_cursors (cutoff : Z) (d : db) (rows : list mark) : list (Z * string) :=
  omap (fun kc : Z * Z * string * GroupLogCursor =>
      if bool_decide (kc.1.1.2 ∈ map (fun m : mark => m.1.1) rows) && unread_since_before cutoff d kc.1 kc.2
      then Some (kc.1.1.2, kc.1.2) else None)
    (map_to_list (group_log_cursors d)).

Record sweep_numbers := mkSweepNumbers { sn_marks : Z; sn_held_back : Z; sn_demoted : Z }.

(** The marks a cycle takes: all that match, or, past a quarter of all marks,
    those the cursors confirm, oldest first, at most the quarter. *)
Definition demoted_marks (now : Z) (d : db) : list mark * Z :=
  let cutoff := now - days STALE_READER_DAYS in
  let rows := stale_marks cutoff (now - days ACCOUNT_ALIVE_DAYS) d in
  let total := Z.of_nat (size (group_log_readers d)) in
  if (0 <? total) && (total <? 4 * Z.of_nat (length rows)) then
    let starving := confirmed_by_cursors cutoff d rows in
    let confirmed := List.filter (fun m : mark => bool_decide (m.1 ∈ starving)) rows in
    let safe := take (Z.to_nat (Z.max 1 (total / 4))) (sort_by (fun m : mark => reader_last_seen m.2) confirmed) in
    (safe, Z.of_nat (length rows) - Z.of_nat (length safe))
  else (rows, 0).

(** [sweep_once]: how many were demoted, and the numbers of the cycle. *)
Definition stale_reader_sweep (now : Z) (d : db) : option sweep_numbers * db :=
  match stale_marks (now - days STALE_READER_DAYS) (now - days ACCOUNT_ALIVE_DAYS) d with
  | [] => (None, d)
  | _ =>
      let '(rows, held_back) := demoted_marks now d in
      (Some (mkSweepNumbers (Z.of_nat (size (group_log_readers d))) held_back (Z.of_nat (length rows))),
       set_group_log_readers (fun m => foldl (fun m (k : mark) => delete k.1 m) m rows) d)
  end.

(** Devices that read and are stuck in a room: room, account, device, gap. *)
Definition starving_rooms (now : Z) (d : db) : list (Z * Z * string * Z) :=
  let stuck_since := now - days STARVED_ROOM_DAYS in
  sort_by (fun p => p.1.1.1) (sort_by (fun p => p.1.1.2) (omap (fun kc : Z * Z * string * GroupLogCursor =>
      let '(g, u, dev, c) := kc in
      match group_log_readers d !! (u, dev), group_seq d !! g with
      | Some m, Some next =>
          if (now - days READING_WITHIN_DAYS <=? reader_last_seen m) && (last_seq c <? next)
             && (glc_updated_at c <? stuck_since)
             && existsb (fun x => (gm_group_id x =? g) && (gm_uin x =? u)) (group_members d)
             && unread_since_before stuck_since d (g, u, dev) c
          then Some (g, u, dev, next - last_seq c) else None
      | _, _ => None
      end)
    (map_to_list (group_log_cursors d)))).
