(* ===== verification/SweepsFacts.v ===== *)
(** * The sweeps: what they take and what they leave

    A cycle has one leader ([one_leader]); the sweep of guests takes every guest
    whose time is up and nobody else ([guest_candidates_exact],
    [guest_sweep_rule], [never_polled_exact]); the sweep of readers demotes
    devices that stopped reading while their account is there, within its valve,
    and the account is queued for again ([demoted_eats_again],
    [stale_sweep_within_valve]). *)

From stdpp Require Import base list gmap strings pretty.
From Stdlib Require Import ZArith Lia.
From S2P Require Import Prelude Storage KeyStorage GroupLogStore Redis GuestPolicy Rooms Accounts Sweeps.
Import Storage.

(** ** One leader a cycle *)

Section leader.
Context {R : Type} `{RR : Redis R} {HR : RedisLaws R}.

(** while a worker's claim lasts, which is nine tenths of the cycle, no other
    worker leads the same job; when the key is free, the first to ask leads. *)
Theorem one_leader (t t' : Z) (w w' role : string) (cycle : Z) (r r1 r2 : R) :
  lead_this_cycle true t w role cycle r = (true, r1) ->
  t <= t' < t + seconds (claim_seconds cycle) ->
  peek t (LEADER_KEY_PREFIX ++ role)%string r2 = peek t (LEADER_KEY_PREFIX ++ role)%string r1 ->
  (lead_this_cycle true t' w' role cycle r2).1 = false.
Proof using HR.
  unfold lead_this_cycle. set (k := (LEADER_KEY_PREFIX ++ role)%string). intros H1 Ht Hk.
  pose proof (set_nx_spec t k w (Some (claim_seconds cycle)) r) as Hs. rewrite H1 in Hs. simpl in Hs.
  destruct (peek t k r) as [e|]; [by destruct Hs|]. destruct Hs as [_ Hs].
  assert (Hp : peek t k r1 = Some (VStr w, Some (t + seconds (claim_seconds cycle)))).
  { rewrite (Hs k), decide_True by done. simpl. by rewrite (proj2 (Z.leb_gt _ t)) by lia. }
  pose proof (set_nx_spec t' k w' (Some (claim_seconds cycle)) r2) as Hs'.
  rewrite (peek_later t t'), Hk, Hp in Hs' by lia. simpl in Hs'. rewrite (proj2 (Z.leb_gt _ t')) in Hs' by lia. by destruct Hs'.
Qed.
End leader.

(** ** Guests *)

Section guests.
Context (now : Z) (l : guest_limits).

Record collected (k : sweep_kind) (ws : list guest_cols) (out out' : list (Z * sweep_kind)) : Prop := {
  co_old c : c ∈ out -> c ∈ out';
  co_new c : c ∈ out' -> c ∈ out \/ (c.2 = k /\ exists w, w ∈ ws /\ gr_uin w = c.1 /\ guest_eligible k w now l = true);
  co_once : NoDup (map fst out) -> NoDup (map fst out');
  co_bound : (length out <= GUEST_BATCH -> length out' <= GUEST_BATCH)%nat;
  co_grows : (length out <= length out')%nat;
  co_all : (length out' < GUEST_BATCH)%nat -> forall w, w ∈ ws -> guest_eligible k w now l = true -> gr_uin w ∈ map fst out'
}.

Lemma collect_spec k ws : forall out, collected k ws out (collect k now l ws out).
Proof.
  induction ws as [|w ws IH]; intros out; cbn [collect].
  - split; auto. intros _ w []%elem_of_nil.
  - destruct (Nat.leb_spec GUEST_BATCH (length out)) as [Hf|Hf].
    + split; auto. lia.
    + destruct (bool_decide (gr_uin w ∈ map fst out)) eqn:Hin; cbn [orb].
      * destruct (IH out) as [C1 C2 C3 C4 C5 C6]. split; auto.
        -- intros c Hc. destruct (C2 c Hc) as [?|(Hk & w' & Hw & H)]; [by left|]. right. split; [done|].
           exists w'. split; [by right|done].
        -- intros Hl w' [->|Hw]%elem_of_cons He; [|by apply C6]. apply bool_decide_eq_true_1 in Hin.
           apply list_elem_of_fmap in Hin as (c & -> & Hc). apply list_elem_of_fmap_2. auto.
      * destruct (guest_eligible k w now l) eqn:He; cbn [negb].
        -- destruct (IH (out ++ [(gr_uin w, k)])) as [C1 C2 C3 C4 C5 C6]. rewrite length_app in C4, C5. simpl in C4, C5. split.
           ++ intros c Hc. apply C1, elem_of_app. by left.
           ++ intros c Hc. destruct (C2 c Hc) as [[?|Hc']%elem_of_app|(Hk & w' & Hw & H)]; [by left|..].
              ** apply list_elem_of_singleton in Hc' as ->. right. split; [done|]. exists w. split; [left|done].
              ** right. split; [done|]. exists w'. split; [by right|done].
           ++ intros Hn. apply C3. rewrite map_app. apply NoDup_snoc; [|done]. by apply bool_decide_eq_false_1 in Hin.
           ++ intros _. apply C4. lia.
           ++ lia.
           ++ intros Hl w' [->|Hw]%elem_of_cons He'; [|by apply C6].
              apply (list_elem_of_fmap_2 fst _ (gr_uin w, k)). apply C1, elem_of_app. right. left.
        -- destruct (IH out) as [C1 C2 C3 C4 C5 C6]. split; auto.
           ++ intros c Hc. destruct (C2 c Hc) as [?|(Hk & w' & Hw & H)]; [by left|]. right. split; [done|].
              exists w'. split; [by right|done].
           ++ intros Hl w' [->|Hw]%elem_of_cons He'; [congruence|by apply C6].
Qed.

(** A query that stops at the batch hides nothing from a cycle that stays below
    it. *)
Lemma query_complete (f : guest_cols -> Z) (p : guest_cols -> bool) (ws : list guest_cols) (out : list (Z * sweep_kind)) w :
  NoDup (map gr_uin ws) -> (length out < GUEST_BATCH)%nat ->
  (forall x, x ∈ take GUEST_BATCH (sort_by f (List.filter p ws)) -> gr_uin x ∈ map fst out) ->
  w ∈ ws -> p w = true -> gr_uin w ∈ map fst out.
Proof.
  intros Hn Hl Hq Hw Hp. set (rows := sort_by f (List.filter p ws)) in *.
  assert (Hw' : w ∈ rows) by (apply elem_of_sort_by, list_elem_of_In, List.filter_In; split; [by apply list_elem_of_In|done]).
  assert (Hnr : NoDup (map gr_uin rows)).
  { unfold rows. rewrite (sort_by_perm f (List.filter p ws)). clear -Hn. induction ws as [|x ws IH]; [constructor|]. simpl in *.
    apply NoDup_cons in Hn as [Hx Hn]. destruct (p x); [|auto]. simpl. constructor; [|auto].
    intros (y & E & Hy)%list_elem_of_fmap. apply Hx. rewrite E. apply list_elem_of_fmap_2.
    apply list_elem_of_In, List.filter_In in Hy as [Hy _]. by apply list_elem_of_In. }
  destruct (Nat.le_gt_cases (length rows) GUEST_BATCH) as [Hle|Hgt].
  - apply Hq. by rewrite take_ge.
  - exfalso. assert (Hsub : (length (map gr_uin (take GUEST_BATCH rows)) <= length (map fst out))%nat).
    { apply List.NoDup_incl_length.
      - apply NoDup_ListNoDup. rewrite <-(take_drop GUEST_BATCH rows), map_app in Hnr. by apply NoDup_app in Hnr as [Hnr _].
      - intros u (x & <- & Hx)%in_map_iff. apply list_elem_of_In, Hq. by apply list_elem_of_In. }
    rewrite !length_map, length_take in Hsub. lia.
Qed.

Lemma table_row d w : w ∈ guest_table d <-> guest_row_of d (gr_uin w) = Some w.
Proof.
  unfold guest_table, guest_row_of. rewrite list_elem_of_fmap. split.
  - intros ([u r] & -> & Hu%elem_of_map_to_list). simpl. by rewrite Hu.
  - destruct (users (acore d) !! gr_uin w) as [r|] eqn:E; [|done]. intros [= Hw]. exists (gr_uin w, r). simpl.
    split; [done|]. by apply elem_of_map_to_list.
Qed.

Lemma table_uins d : NoDup (map gr_uin (guest_table d)).
Proof.
  unfold guest_table. rewrite map_map. rewrite (map_ext _ fst) by done. apply NoDup_fst_map_to_list.
Qed.

Lemma silent_complete ws w :
  w ∈ ws -> guest_eligible NeverPolled w now l = true -> w ∈ silent_query now ws.
Proof.
  intros Hw He. apply elem_of_sort_by, list_elem_of_In, List.filter_In. split; [by apply list_elem_of_In|].
  unfold guest_eligible in He. apply andb_prop in He as [-> He]. destruct (gr_since w) as [s|]; [|done].
  apply andb_prop in He as [Hs He]. rewrite Hs. simpl. apply Z.ltb_lt in Hs, He. apply Z.ltb_lt.
  assert (0 <= never_polled_gap (gl_dormant l)).
  { unfold never_polled_gap, mint_backdate. apply Z.min_glb; [done|]. apply Z.div_pos; [|done].
    destruct (0 <? gl_dormant l); unfold days, seconds, usec_per_sec; lia. }
  lia.
Qed.

(** the candidates of a cycle are guests whose time is up, each once and at
    most a batch; and a cycle that does not fill the batch has found every
    unclaimed seat, never-polled and idle guest there is. *)
Theorem guest_candidates_exact (d : adb) :
  let cs := find_candidates now l d in
  NoDup (map fst cs) /\ (length cs <= GUEST_BATCH)%nat /\
  (forall u k, (u, k) ∈ cs -> exists w, guest_row_of d u = Some w /\ guest_eligible k w now l = true) /\
  ((length cs < GUEST_BATCH)%nat -> forall u w k, guest_row_of d u = Some w -> guest_eligible k w now l = true -> u ∈ map fst cs).
Proof.
  intros cs. unfold cs, find_candidates. set (ws := guest_table d).
  pose proof (collect_spec Unclaimed (seats_query now l ws) []) as [A1 A2 A3 A4 A5 A6].
  set (c1 := collect Unclaimed now l (seats_query now l ws) []) in *.
  pose proof (collect_spec NeverPolled (silent_query now ws) c1) as [B1 B2 B3 B4 B5 B6].
  set (c2 := collect NeverPolled now l (silent_query now ws) c1) in *.
  pose proof (collect_spec Idle (idle_query now l ws) c2) as [C1 C2 C3 C4 C5 C6].
  set (c3 := collect Idle now l (idle_query now l ws) c2) in *.
  assert (Hrow : forall (f : guest_cols -> Z) p n (w : guest_cols), w ∈ take n (sort_by f (List.filter p ws)) -> w ∈ ws).
  { intros f p n w (i & Hi%list_elem_of_lookup_2 & _)%elem_of_take. apply elem_of_sort_by, list_elem_of_In, List.filter_In in Hi as [Hi _].
    by apply list_elem_of_In. }
  assert (Hsil : forall w, w ∈ silent_query now ws -> w ∈ ws).
  { intros w Hw. apply elem_of_sort_by, list_elem_of_In, List.filter_In in Hw as [Hw _]. by apply list_elem_of_In. }
  assert (Hfst : forall (x y : list (Z * sweep_kind)) u, (forall c, c ∈ x -> c ∈ y) -> u ∈ map fst x -> u ∈ map fst y).
  { intros x y u H (c & -> & Hc)%list_elem_of_fmap. apply list_elem_of_fmap_2. auto. }
  split; [apply C3, B3, A3, NoDup_nil_2|]. split; [apply C4, B4, A4; simpl; lia|]. split.
  - intros u k Hu.
    assert (H : exists w, w ∈ ws /\ gr_uin w = u /\ guest_eligible k w now l = true).
    { destruct (C2 _ Hu) as [Hu2|(E & w & Hw & H)]; [|simpl in *; subst k; exists w; split; [by apply (Hrow _ _ _ _ Hw)|done]].
      destruct (B2 _ Hu2) as [Hu1|(E & w & Hw & H)]; [|simpl in *; subst k; exists w; split; [by apply Hsil|done]].
      destruct (A2 _ Hu1) as [[]%elem_of_nil|(E & w & Hw & H)]. simpl in *; subst k. exists w. split; [by apply (Hrow _ _ _ _ Hw)|done]. }
    destruct H as (w & Hw%table_row & <- & He). eauto.
  - intros Hl u w k Hr He.
    assert (Hu : gr_uin w = u) by (unfold guest_row_of in Hr; destruct (users (acore d) !! u); by simplify_eq/=).
    rewrite <-Hu in Hr |- *. apply table_row in Hr. destruct k.
    + apply (Hfst c2), (Hfst c1); auto.
      apply (query_complete (fun w => default 0 (gr_since w)) (fun w => guest_eligible Unclaimed w now l) ws c1 w (table_uins d)); [lia| |done|done].
      intros x Hx. apply A6; [lia|done|]. destruct (elem_of_take x GUEST_BATCH (sort_by (fun w => default 0 (gr_since w)) (List.filter (fun w => guest_eligible Unclaimed w now l) ws))) as [H _].
      destruct (H Hx) as (i & Hi%list_elem_of_lookup_2 & _). by apply elem_of_sort_by, list_elem_of_In, List.filter_In in Hi as [_ Hi].
    + apply (Hfst c2); auto. apply B6; [lia|by apply silent_complete|done].
    + apply (query_complete gr_seen (fun w => guest_eligible Idle w now l) ws c3 w (table_uins d)); [done| |done|done].
      intros x Hx. apply C6; [done|done|]. destruct (elem_of_take x GUEST_BATCH (sort_by gr_seen (List.filter (fun w => guest_eligible Idle w now l) ws))) as [H _].
      destruct (H Hx) as (i & Hi%list_elem_of_lookup_2 & _). by apply elem_of_sort_by, list_elem_of_In, List.filter_In in Hi as [_ Hi].
Qed.

Lemma eligible_is_guest k w : guest_eligible k w now l = true -> is_Some (gr_status w).
Proof. destruct k; simpl; intros [H _]%andb_prop; apply bool_decide_eq_true_1 in H; by eexists. Qed.

(** whatever happened to the table since the candidates were read: a row is
    purged only if, at that moment and under its lock, it is a guest's and its
    time is still up; a seat claimed or a guest settled in between stays. *)
Theorem guest_sweep_rule (d : adb) (view : nat -> adb) (u : Z) (k : sweep_kind) :
  (u, k) ∈ guest_sweep now l d view ->
  exists i x w, guest_row_of (view i) u = Some w /\ users (acore (view i)) !! u = Some x /\ is_Some (guest_status x) /\
    guest_eligible k w now l = true.
Proof.
  unfold guest_sweep. intros ([i c] & E & Hc)%list_elem_of_fmap. simpl in E. subst c.
  apply list_elem_of_In, List.filter_In in Hc as [_ Hp]. simpl in Hp. unfold purge_if_still_eligible in Hp. simpl in Hp.
  destruct (guest_row_of (view i) u) as [w|] eqn:E; [|done]. pose proof E as E'. unfold guest_row_of in E'.
  destruct (users (acore (view i)) !! u) as [x|] eqn:Ex; [|done]. exists i, x, w. split; [done|]. split; [done|]. split; [|done].
  apply eligible_is_guest in Hp. by simplify_eq/=.
Qed.

(** a mint leaves [last_seen] a day or more before [guest_since], and a poll,
    a claim or a ping at most an hour before it: so a proven guest is swept as
    never polled exactly if its mint is a week old and nothing touched it
    since. *)
Theorem never_polled_exact (w : guest_cols) (s : Z) :
  gr_status w = Some STATUS_PROVEN -> gr_since w = Some s ->
  gr_seen w = s - mint_backdate (gl_dormant l) \/ s - POLL_STAMP_LAG <= gr_seen w ->
  guest_eligible NeverPolled w now l = true <->
  s < now - NEVER_POLLED_AFTER /\ gr_seen w = s - mint_backdate (gl_dormant l).
Proof.
  intros Hst Hs Hw. unfold guest_eligible. rewrite Hs, bool_decide_eq_true_2 by done. cbn [andb].
  assert (Hg : POLL_STAMP_LAG < never_polled_gap (gl_dormant l) < mint_backdate (gl_dormant l)).
  { unfold never_polled_gap, mint_backdate, POLL_STAMP_LAG, hours.
    destruct (Z.ltb_spec 0 (gl_dormant l)) as [Hd|Hd].
    - set (n := Z.max (gl_dormant l - 1) 1). assert (1 <= n) by lia.
      assert (E : days n / 2 = n * 43200000000) by (unfold days, seconds, usec_per_sec; symmetry; apply Z.div_unique_exact; lia).
      rewrite E. unfold days, seconds, usec_per_sec. lia.
    - vm_compute. split; reflexivity. }
  rewrite andb_true_iff, !Z.ltb_lt. split; intros [H1 H2]; (split; [done|]); lia.
Qed.
End guests.

(** ** Readers *)

Lemma lookup_delete_all {A} (ks : list (Z * string * A)) : forall (m : gmap (Z * string) A) k,
  foldl (fun m (x : Z * string * A) => delete x.1 m) m ks !! k = if decide (k ∈ map fst ks) then None else m !! k.
Proof.
  induction ks as [|x ks IH]; intros m k; [done|]. simpl. rewrite IH. destruct (decide (k = x.1)) as [->|Hne].
  - rewrite (decide_True _ _ (list_elem_of_here x.1 _)). case_decide; [done|apply lookup_delete_eq].
  - rewrite lookup_delete_ne by done. destruct (decide (k ∈ map fst ks)) as [Hin|Hin].
    + rewrite decide_True by (by right). done.
    + rewrite decide_False; [done|]. by intros [?|?]%elem_of_cons.
Qed.

Lemma elem_of_stale cutoff alive d m :
  m ∈ stale_marks cutoff alive d <->
  group_log_readers d !! m.1 = Some m.2 /\ reader_last_seen m.2 < cutoff /\
  exists u, users d !! m.1.1 = Some u /\ alive < last_seen u.
Proof.
  unfold stale_marks. rewrite list_elem_of_In, List.filter_In, <-list_elem_of_In. destruct m as [k r]. simpl.
  rewrite elem_of_map_to_list, andb_true_iff, Z.ltb_lt. destruct (users d !! k.1) as [u|].
  - rewrite Z.ltb_lt. split; intros (H1 & H2 & H3); (split; [done|split; [done|]]); [by exists u|].
    destruct H3 as (u' & [= <-] & H3). done.
  - split; [by intros (_ & _ & ?)|by intros (_ & _ & u & ? & _)].
Qed.

Lemma demoted_sub now d m :
  m ∈ (demoted_marks now d).1 -> m ∈ stale_marks (now - days STALE_READER_DAYS) (now - days ACCOUNT_ALIVE_DAYS) d.
Proof.
  unfold demoted_marks. cbv zeta. case_cond; [|done]. cbn [fst]. intros (i & Hi%list_elem_of_lookup_2 & _)%elem_of_take.
  apply elem_of_sort_by, list_elem_of_In, List.filter_In in Hi as [Hi _]. by apply list_elem_of_In.
Qed.

Lemma sweep_lookup now d k :
  group_log_readers (stale_reader_sweep now d).2 !! k =
  if decide (k ∈ map fst (demoted_marks now d).1) then None else group_log_readers d !! k.
Proof.
  unfold stale_reader_sweep. destruct (stale_marks _ _ d) as [|x l] eqn:E.
  - rewrite decide_False; [done|]. intros (m & -> & Hm%demoted_sub)%list_elem_of_fmap. rewrite E in Hm. by apply elem_of_nil in Hm.
  - destruct (demoted_marks now d) as [rows held]. cbn [snd fst]. apply lookup_delete_all.
Qed.

(** the sweep takes marks only from devices that have not read for a week
    while their account was seen within two days, at most a quarter of all
    marks (or one) a cycle, and nothing else: a device that comes back resumes
    at its cursors. *)
Theorem stale_sweep_within_valve (now : Z) (d : db) :
  let d' := (stale_reader_sweep now d).2 in
  (forall k r, group_log_readers d' !! k = Some r -> group_log_readers d !! k = Some r) /\
  (forall k r, group_log_readers d !! k = Some r -> group_log_readers d' !! k = None ->
     reader_last_seen r < now - days STALE_READER_DAYS /\
     exists u, users d !! k.1 = Some u /\ now - days ACCOUNT_ALIVE_DAYS < last_seen u) /\
  Z.of_nat (length (demoted_marks now d).1) <= Z.max 1 (Z.of_nat (size (group_log_readers d)) / 4) /\
  d' = set_group_log_readers (fun _ => group_log_readers d') d.
Proof.
  intros d'. split; [|split; [|split]].
  - intros k r. unfold d'. rewrite sweep_lookup. by case_decide.
  - intros k r Hr. unfold d'. rewrite sweep_lookup. destruct (decide _) as [Hin|Hin]; [|congruence]. intros _.
    apply list_elem_of_fmap in Hin as ([k' r'] & -> & Hm%demoted_sub%elem_of_stale). simpl in *.
    destruct Hm as (H1 & H2 & H3). simplify_eq. done.
  - unfold demoted_marks. cbv zeta. set (total := Z.of_nat (size (group_log_readers d))). set (rows := stale_marks _ _ d).
    destruct ((0 <? total) && (total <? 4 * Z.of_nat (length rows))) eqn:E; cbn [fst].
    + rewrite length_take. lia.
    + apply andb_false_iff in E as [E|E]; breflect.
      * destruct rows as [|m l] eqn:Er; [simpl; lia|]. assert (Hm : m ∈ stale_marks (now - days STALE_READER_DAYS) (now - days ACCOUNT_ALIVE_DAYS) d)
          by (fold rows; rewrite Er; left).
        apply elem_of_stale in Hm as [Hm _]. assert (size (group_log_readers d) <> 0%nat).
        { intros Hs%map_size_empty_inv. rewrite Hs in Hm. by rewrite lookup_empty in Hm. } lia.
      * assert (Z.of_nat (length rows) <= total / 4) by (apply Z.div_le_lower_bound; lia). lia.
  - unfold d', stale_reader_sweep. destruct (stale_marks _ _ d) as [|x l]; [by destruct d|].
    destruct (demoted_marks now d) as [rows held]. done.
Qed.

Lemma sweep_queue_cursors now d : queue_cursors (stale_reader_sweep now d).2 = queue_cursors d.
Proof.
  unfold stale_reader_sweep. destruct (stale_marks _ _ d) as [|x l]; [done|]. by destruct (demoted_marks now d) as [rows held].
Qed.

(** an account whose device lost its mark is no reader of the log any more,
    so its copies of what is posted are queued for it again: if that device
    drains the queue, or if it was the only device that read the log. *)
Theorem demoted_eats_again (now : Z) (d : db) (u : Z) (dev : string) (r : GroupLogReader) (uins : list Z) :
  group_log_readers d !! (u, dev) = Some r -> group_log_readers (stale_reader_sweep now d).2 !! (u, dev) = None ->
  is_Some (queue_cursors d !! (u, dev)) \/ (forall dev' r', group_log_readers d !! (u, dev') = Some r' -> dev' = dev) ->
  u ∉ log_readers (stale_reader_sweep now d).2 uins.
Proof.
  intros Hr Hn Hd Hin. unfold log_readers in Hin. apply list_elem_of_filter in Hin as [[Hh Hb] _].
  destruct Hd as [[c Hc]|Hd].
  - unfold blocked in Hb. rewrite existsb_false_elem, sweep_queue_cursors in Hb.
    specialize (Hb ((u, dev), c)). rewrite elem_of_map_to_list in Hb. specialize (Hb Hc). simpl in Hb.
    rewrite Z.eqb_refl, Hn, bool_decide_eq_false_2 in Hb by (by intros [? ?]). done.
  - unfold has_reader in Hh. apply existsb_elem in Hh as ([[u' dev'] r'] & Hm%elem_of_map_to_list & Hu%Z.eqb_eq). subst u'.
    pose proof Hm as Hm'. rewrite sweep_lookup in Hm'. destruct (decide _); [done|].
    rewrite (Hd dev' r' Hm') in Hm. congruence.
Qed.

(** ** Examples *)

Definition reader_row (t : Z) : GroupLogReader := mkGroupLogReader 0 t.
(** Five devices; 7 has read nothing for two weeks and was here yesterday. *)
Definition reading_room : db :=
  set_group_log_readers (fun _ => {[ (5, "a"%string) := reader_row (days 29); (6, "a"%string) := reader_row (days 29);
      (7, "a"%string) := reader_row (days 16); (8, "a"%string) := reader_row (days 29); (9, "a"%string) := reader_row (days 1) ]})
    (set_users (fun _ => {[ 7 := new_user 0 (days 29) "seven" None None; 9 := new_user 0 (days 1) "nine" None None ]}) empty_db).

Example sweep_takes_seven :
  (stale_reader_sweep (days 30) reading_room).1 = Some (mkSweepNumbers 5 0 1) /\
  group_log_readers (stale_reader_sweep (days 30) reading_room).2 !! (7, "a"%string) = None /\
  log_readers (stale_reader_sweep (days 30) reading_room).2 [5; 7; 9] = [5; 9].
Proof. vm_compute. repeat split. Qed.

Lemma demoted_eats_again_witness : 7 ∉ log_readers (stale_reader_sweep (days 30) reading_room).2 [5; 7; 9].
Proof.
  apply (demoted_eats_again (days 30) reading_room 7 "a" (reader_row (days 16))); [vm_compute; reflexivity..|].
  right. intros dev' r' H.
  change (({[ (5, "a"%string) := reader_row (days 29); (6, "a"%string) := reader_row (days 29);
      (7, "a"%string) := reader_row (days 16); (8, "a"%string) := reader_row (days 29); (9, "a"%string) := reader_row (days 1) ]}
      : gmap (Z * string) GroupLogReader) !! (7, dev') = Some r') in H.
  repeat (apply lookup_insert_Some in H as [[E _]|[_ H]]; [by injection E|]). apply lookup_singleton_Some in H as [E _]. by injection E.
Defined.

Lemma one_leader_witness :
  (lead_this_cycle true (seconds 60) "w2" "guest-sweep" 3600 (lead_this_cycle true 0 "w1" "guest-sweep" 3600 (∅ : store)).2).1 = false.
Proof.
  apply (one_leader 0 (seconds 60) "w1" "w2" "guest-sweep" 3600 (∅ : store) (lead_this_cycle true 0 "w1" "guest-sweep" 3600 (∅ : store)).2);
    [vm_compute; reflexivity|vm_compute; split; [discriminate|reflexivity]|reflexivity].
Defined.

Definition limits_7_60 : guest_limits := mkGuestLimits 7 60 14.
Definition guest_house : adb :=
  mkAdb (mkRdb (mkKdb (set_users (fun _ => {[ 5 := new_user (days 1) (days 1 - mint_backdate 14) "visitor" None (Some STATUS_PROVEN);
                                              6 := new_user (days 1) (days 1 - hours 1) "regular" None (Some STATUS_PROVEN) ]}) empty_db)
                 ∅ [] [] [] 1 1 1) ∅ 1)
    {[ 5 := mkAccount None None None (Some (days 1)) None None; 6 := mkAccount None None None (Some (days 1)) None None ]}
    [] ∅ ∅ ∅ ∅ ∅ ∅.

Example visitor_swept : find_candidates (days 10) limits_7_60 guest_house = [(5, NeverPolled)].
Proof. vm_compute. reflexivity. Qed.

Lemma guest_sweep_rule_witness :
  exists (i : nat) x w, guest_row_of guest_house 5 = Some w /\ users (acore guest_house) !! 5 = Some x /\ is_Some (guest_status x) /\
    guest_eligible NeverPolled w (days 10) limits_7_60 = true.
Proof.
  apply (guest_sweep_rule (days 10) limits_7_60 guest_house (fun _ => guest_house) 5 NeverPolled). vm_compute. left.
Defined.

Lemma never_polled_exact_witness :
  guest_eligible NeverPolled (mkGuestCols 6 (Some STATUS_PROVEN) (Some (days 1)) (days 1 - hours 1)) (days 10) limits_7_60 = true <->
  days 1 < days 10 - NEVER_POLLED_AFTER /\ days 1 - hours 1 = days 1 - mint_backdate 14.
Proof.
  apply (never_polled_exact (days 10) limits_7_60 (mkGuestCols 6 (Some STATUS_PROVEN) (Some (days 1)) (days 1 - hours 1)) (days 1));
    [reflexivity|reflexivity|right; vm_compute; discriminate].
Defined.
