(* ===== verification/RandomChat.v ===== *)
(** * Random chat

    [src/app/routers/random.py]: strangers waiting for each other, the pairs made
    of them, and the end of a pair; and the leader lock of [src/app/core/redis.py]
    that its sweeper holds.

    A request is a program of atomic Redis commands ([prog]): what the code does
    between two commands may be interleaved with any other request, and each
    command sees the world of its instant ([world]: the clock, who is online, the
    tables, the token [secrets] gives).  [run] is one request alone, [step] any
    interleaving.  The five keys are the fields of [chat]; the values in them are
    written by this router only, so they are kept decoded.  A pair's hash keeps
    its deadline, and [load_pair] does not see it from then on.  [try_match]
    takes the number of turns of its loop as fuel. *)

From stdpp Require Import base list gmap strings pretty.
From Stdlib Require Import ZArith Lia.
From S2P Require Import Prelude Storage Redis KeyStorage Profiles.

Definition PAIR_DURATION_SECONDS : Z := 300.
Definition DAILY_MATCH_LIMIT : Z := 50.

(** [_Pair] without its id, which is the key of its hash. *)
Record RPair := mkRPair { uin_a : Z; uin_b : Z; started_at : Z; expires_at : Z }.

Definition peer_of (p : RPair) (uin : Z) : Z := if uin =? uin_a p then uin_b p else uin_a p.

(** [random:queue]; [random:pair:{id}] with its deadline; [random:pair_by_uin];
    [random:active_pairs]; [random:daily:{day}], by day and number (its 48 hours
    outlast the day the key is for). *)
Record chat := mkChat {
  waiting : list Z;
  pairs : gmap string (RPair * Z);
  pair_by_uin : gmap Z string;
  active_pairs : gmap string Z;
  daily : gmap (Z * Z) Z
}.

Definition set_waiting (q : list Z) (c : chat) : chat := mkChat q (pairs c) (pair_by_uin c) (active_pairs c) (daily c).

Record world := mkWorld { w_now : Z; w_online : Z -> bool; w_db : sdb; w_token : string }.

(** [_PeerInfo] *)
Record PeerInfo := mkPeerInfo { pi_uin : Z; pi_nickname : string; pi_identity_key : string; pi_signing_key : option string }.

Inductive random_frame :=
  | random_match (pair_id : string) (peer : PeerInfo) (expires : Z)
  | random_end (pair_id : string) (reason : string).

(** ** Programs of commands *)

Inductive prog (A : Type) :=
  | Ret (a : A)
  | Act (f : world -> chat -> chat * prog A)
  | Send (to : Z) (f : random_frame) (m : prog A).
Arguments Ret {_} _.
Arguments Act {_} _.
Arguments Send {_} _ _ _.

Fixpoint pbind {A B} (m : prog A) (k : A -> prog B) : prog B :=
  match m with
  | Ret a => k a
  | Act f => Act (fun w c => let '(c, m) := f w c in (c, pbind m k))
  | Send to f m => Send to f (pbind m k)
  end.
Notation "'await' x := m 'in' k" := (pbind m (fun x => k)) (at level 10, x pattern, m at level 100, k at level 200).

(** A command that answers, and one that only changes. *)
Definition ask {A} (f : world -> chat -> A) : prog A := Act (fun w c => (c, Ret (f w c))).
Definition change (f : world -> chat -> chat) : prog unit := Act (fun w c => (f w c, Ret tt)).

(** One request alone, in one world: its answer, the keys, the frames. *)
Fixpoint run {A} (w : world) (m : prog A) (c : chat) : A * chat * list (Z * random_frame) :=
  match m with
  | Ret a => (a, c, [])
  | Act f => let '(c, m) := f w c in run w m c
  | Send to fr m => let '(a, c, l) := run w m c in (a, c, (to, fr) :: l)
  end.

(** ** Helpers *)

Definition day_of (t : Z) : Z := t / days 1.

Definition bump_daily (uin : Z) : prog unit :=
  change (fun w c => mkChat (waiting c) (pairs c) (pair_by_uin c) (active_pairs c)
                       (<[(day_of (w_now w), uin) := default 0 (daily c !! (day_of (w_now w), uin)) + 1]> (daily c))).

Definition get_daily_count (uin : Z) : prog Z := ask (fun w c => default 0 (daily c !! (day_of (w_now w), uin))).

Definition fetch_peer (d : sdb) (uin : Z) : option PeerInfo :=
  option_map (fun r => mkPeerInfo uin "" (identity_key (w_keys r)) (signing_key (w_keys r))) (user_row d uin).

Definition are_already_connected (d : sdb) (a b : Z) : bool := is_contact_of d a b || is_contact_of d b a.

Definition is_uin_paired (uin : Z) : prog (option string) := ask (fun _ c => pair_by_uin c !! uin).

(** ** Matching *)

(** The transaction that stores a pair. *)
Definition store_pair (id : string) (p : RPair) (deadline : Z) (c : chat) : chat :=
  mkChat (waiting c) (<[id := (p, deadline)]> (pairs c))
    (<[uin_b p := id]> (<[uin_a p := id]> (pair_by_uin c)))
    (<[id := expires_at p]> (active_pairs c)) (daily c).

Definition new_pair (w : world) (candidate uin : Z) : RPair :=
  mkRPair candidate uin (w_now w) (w_now w + seconds PAIR_DURATION_SECONDS).

Definition requeue (skipped : list Z) : prog unit :=
  match skipped with
  | [] => Ret tt
  | _ => change (fun _ c => set_waiting (waiting c ++ skipped) c)
  end.

(** The loop; [None] in the first place when the fuel is out. *)
Fixpoint try_match (fuel : nat) (uin : Z) (skipped : list Z) : prog (option (option (string * RPair))) :=
  match fuel with
  | O => Ret None
  | S fuel =>
      Act (fun w c => match waiting c with
        | [] => (c, await _ := requeue skipped in Ret (Some None))
        | candidate :: q => (set_waiting q c,
            if candidate =? uin then try_match fuel uin skipped
            else
              await on := ask (fun w _ => w_online w candidate) in
              if negb on then try_match fuel uin skipped
              else
                await paired := is_uin_paired candidate in
                if bool_decide (is_Some paired) then try_match fuel uin skipped
                else
                  await known := ask (fun w _ => are_already_connected (w_db w) uin candidate) in
                  if (known : bool) then try_match fuel uin (skipped ++ [candidate])
                  else
                    await made := Act (fun w c => let p := new_pair w candidate uin in
                        (store_pair (w_token w) p (w_now w + seconds (PAIR_DURATION_SECONDS + 60)) c, Ret (w_token w, p))) in
                    await _ := requeue skipped in Ret (Some (Some made)))
        end)
  end.

Definition notify_match {A} (id : string) (p : RPair) (d : sdb) (k : prog A) : prog A :=
  match fetch_peer d (uin_a p), fetch_peer d (uin_b p) with
  | Some a_info, Some b_info =>
      Send (uin_a p) (random_match id b_info (expires_at p)) (Send (uin_b p) (random_match id a_info (expires_at p)) k)
  | _, _ => k
  end.

(** ** The end of a pair *)

Definition load_pair (id : string) : prog (option RPair) :=
  ask (fun w c => match pairs c !! id with
                  | Some (p, deadline) => if deadline <=? w_now w then None else Some p
                  | None => None
                  end).

Definition drop_pair (id : string) (p : RPair) (c : chat) : chat :=
  mkChat (waiting c) (delete id (pairs c)) (delete (uin_b p) (delete (uin_a p) (pair_by_uin c)))
    (delete id (active_pairs c)) (daily c).

Definition end_pair (id reason : string) : prog unit :=
  await p := load_pair id in
  match p with
  | None => Ret tt
  | Some p =>
      await _ := change (fun _ c => drop_pair id p c) in
      Send (uin_a p) (random_end id reason) (Send (uin_b p) (random_end id reason) (Ret tt))
  end.

(** ** The handlers *)

(** [QueueOut] *)
Inductive QueueOut := Queued | Matched (pair_id : string) (peer : option PeerInfo) (expires : Z) | OutOfFuel.

Definition age_gate {A} (d : sdb) (uin : Z) (k : prog (outcome A)) : prog (outcome A) :=
  match user_row d uin with
  | None => Ret (Raise (HTTPException 404 "user not found"))
  | Some r => match age (w_person r) with
              | None => Ret (Raise (HTTPException 403 "age_required"))
              | Some a => if a <? 18 then Ret (Raise (HTTPException 403 "under_18")) else k
              end
  end.

(** What [queue] and [skip] end with. *)
Definition look_for (fuel : nat) (uin : Z) : prog (outcome QueueOut) :=
  await pos := ask (fun _ c => bool_decide (uin ∈ waiting c)) in
  if (pos : bool) then Ret (Ok Queued)
  else
    await found := try_match fuel uin [] in
    match found with
    | None => Ret (Ok OutOfFuel)
    | Some None =>
        await _ := change (fun _ c => set_waiting (waiting c ++ [uin]) c) in
        await _ := bump_daily uin in
        Ret (Ok Queued)
    | Some (Some (id, p)) =>
        await _ := bump_daily uin in
        await d := ask (fun w _ => w_db w) in
        notify_match id p d (Ret (Ok (Matched id (fetch_peer d (peer_of p uin)) (expires_at p))))
    end.

Definition limit_reached (n : Z) : bool := DAILY_MATCH_LIMIT <=? n.

Definition queue (fuel : nat) (uin : Z) : prog (outcome QueueOut) :=
  await d := ask (fun w _ => w_db w) in
  age_gate d uin (
    await n := get_daily_count uin in
    if limit_reached n then Ret (Raise (HTTPException 429 "daily random-chat limit reached"))
    else
      await paired := is_uin_paired uin in
      if bool_decide (is_Some paired) then Ret (Raise (HTTPException 409 "already in an active random session"))
      else look_for fuel uin).

(** [LREM random:queue 0 uin]: how many, and the rest. *)
Definition lrem (uin : Z) : prog nat :=
  Act (fun _ c => (set_waiting (filter (fun u => u <> uin) (waiting c)) c,
                   Ret (length (filter (fun u => u = uin) (waiting c))))).

Definition leave (uin : Z) : prog bool :=
  await removed := lrem uin in
  if (0 <? removed)%nat then Ret true
  else
    await id := is_uin_paired uin in
    match id with
    | None => Ret false
    | Some id => await _ := end_pair id "peer_left" in Ret true
    end.

Definition end_if_paired (uin : Z) (reason : string) : prog unit :=
  await id := is_uin_paired uin in
  match id with None => Ret tt | Some id => end_pair id reason end.

Definition skip (fuel : nat) (uin : Z) : prog (outcome QueueOut) :=
  await d := ask (fun w _ => w_db w) in
  age_gate d uin (
    await _ := end_if_paired uin "peer_skipped" in
    await n := get_daily_count uin in
    if limit_reached n then Ret (Raise (HTTPException 429 "daily random-chat limit reached"))
    else look_for fuel uin).

Definition random_on_disconnect (uin : Z) : prog unit :=
  await _ := lrem uin in end_if_paired uin "peer_disconnected".

(** [ZRANGEBYSCORE random:active_pairs -inf now] *)
Definition expired_ids : prog (list string) :=
  ask (fun w c => map fst (sort_by snd (List.filter (fun e : string * Z => e.2 <=? w_now w) (map_to_list (active_pairs c))))).

Fixpoint end_all (ids : list string) : prog unit :=
  match ids with
  | [] => Ret tt
  | id :: ids => await _ := end_pair id "expired" in end_all ids
  end.

(** The work of one turn of [expire_loop], for the worker that leads. *)
Definition expire_sweep : prog unit := await ids := expired_ids in end_all ids.

(** ** Who leads *)

Definition LEADER_TTL_SECONDS : Z := 30.
Definition LEADER_RENEW_SECONDS : Z := LEADER_TTL_SECONDS / 2.
Definition EXPIRE_LEADER_ROLE : string := "random_expire_loop".
(** The pause at the end of a turn. *)
Definition EXPIRE_PAUSE_SECONDS : Z := 30.

Section leader.
Context {R : Type} `{RR : Redis R}.

Definition acquire_leadership (now : Z) (role identity : string) (r : R) : bool * R :=
  set_nx now ("leader:" ++ role)%string identity (Some LEADER_TTL_SECONDS) r.

Definition renew_leadership (now : Z) (role identity : string) (r : R) : bool * R :=
  let k := ("leader:" ++ role)%string in
  if bool_decide (rget now k r = Some identity) then (true, expire now k LEADER_TTL_SECONDS r) else (false, r).

Definition release_leadership (now : Z) (role identity : string) (r : R) : R :=
  let k := ("leader:" ++ role)%string in
  if bool_decide (rget now k r = Some identity) then del now k r else r.

(** A turn of [expire_loop]: what the worker is then, whether it sweeps, and how
    long it sleeps. *)
Record loop_turn := mkTurn { t_leads : bool; t_sweeps : bool; t_sleeps : Z }.

Definition expire_turn (now : Z) (identity : string) (is_leader : bool) (r : R) : loop_turn * R :=
  if is_leader then
    let '(ok, r) := renew_leadership now EXPIRE_LEADER_ROLE identity r in
    (if (ok : bool) then mkTurn true true EXPIRE_PAUSE_SECONDS else mkTurn false false 0, r)
  else
    let '(ok, r) := acquire_leadership now EXPIRE_LEADER_ROLE identity r in
    (if (ok : bool) then mkTurn true true EXPIRE_PAUSE_SECONDS else mkTurn false false LEADER_RENEW_SECONDS, r).
End leader.

(** ** Many requests at once *)

Inductive request := Queue (uin : Z) | Leave (uin : Z) | Skip (uin : Z) | Disconnect (uin : Z) | Sweep.

(** A request as a program whose answer is dropped. *)
Definition program (fuel : nat) (q : request) : prog unit :=
  match q with
  | Queue u => await _ := queue fuel u in Ret tt
  | Leave u => await _ := leave u in Ret tt
  | Skip u => await _ := skip fuel u in Ret tt
  | Disconnect u => random_on_disconnect u
  | Sweep => expire_sweep
  end.

(** The keys, the requests that are running, and the tokens there have been. *)
Record sys := mkSys { used : gset string; keys : chat; running : list (prog unit) }.

(** A request comes in, or one that is running does its next command (which may
    use up a token; a token never comes twice) or sends a frame. *)
Inductive step : sys -> sys -> Prop :=
  | step_come fuel q s : step s (mkSys (used s) (keys s) (running s ++ [program fuel q]))
  | step_act i f w s c m :
      running s !! i = Some (Act f) -> w_token w ∉ used s -> f w (keys s) = (c, m) ->
      step s (mkSys ({[ w_token w ]} ∪ used s) c (<[i := m]> (running s)))
  | step_send i to fr m s :
      running s !! i = Some (Send to fr m) -> step s (mkSys (used s) (keys s) (<[i := m]> (running s))).

(** One request after the other, each alone in its world, with a turn of the loop
    for everyone who waits and one to find the queue empty. *)
Definition serve (c : chat) (wq : world * request) : chat := (run wq.1 (program (S (length (waiting c))) wq.2) c).1.2.

Definition empty_chat : chat := mkChat [] ∅ ∅ ∅ ∅.
