(* ===== verification/RandomChatFacts.v ===== *)
(** * Random chat: what holds of the pairs

    Whatever requests interleave, the index of who is paired points at pairs
    that were not ended ([index_sound]).  A request alone takes the first
    stranger who waits and always answers ([match_reference], [queue_answer]); one
    request after the other leaves everyone in at most one pair ([chat_wf_run]); a
    sweep in time ends what is over and frees both sides ([sweep_frees]), and after a sweep
    that came too late a side stays paired for ever ([late_sweep_strands]).  The lock
    of the sweeper lapses in every pause ([lock_lapses]). *)

From stdpp Require Import base list gmap strings pretty.
From Stdlib Require Import ZArith Lia.
From S2P Require Import Prelude Storage Redis KeyStorage Rooms Accounts Profiles RandomChat.

(** ** Any interleaving *)

Definition side (u : Z) (p : RPair) : Prop := u = uin_a p \/ u = uin_b p.

(** What every command keeps: ids are used tokens, and the three keys about
    pairs agree. *)
Record index_inv (us : gset string) (c : chat) : Prop := {
  ii_used id : is_Some (pairs c !! id) -> id ∈ us;
  ii_pair id p dl : pairs c !! id = Some (p, dl) ->
    uin_a p <> uin_b p /\ dl = expires_at p + seconds 60 /\ active_pairs c !! id = Some (expires_at p);
  ii_active id s : active_pairs c !! id = Some s -> is_Some (pairs c !! id);
  ii_entry u id : pair_by_uin c !! u = Some id -> exists p dl, pairs c !! id = Some (p, dl) /\ side u p
}.

(** What others may do meanwhile: of the tokens there have been, a pair is as it
    was or is gone. *)
Record later (us : gset string) (c : chat) (us' : gset string) (c' : chat) : Prop := {
  la_used : us ⊆ us';
  la_pairs id : id ∈ us -> pairs c' !! id = None \/ pairs c' !! id = pairs c !! id
}.

Lemma later_self us c : later us c us c.
Proof. split; [done|]. by right. Qed.

Lemma later_trans us c us1 c1 us2 c2 : later us c us1 c1 -> later us1 c1 us2 c2 -> later us c us2 c2.
Proof.
  intros [H1 H2] [H3 H4]. split; [by etrans|]. intros id Hid. destruct (H4 id (H1 _ Hid)) as [?|E]; [by left|].
  rewrite E. auto.
Qed.

(** A program that keeps the invariant whatever happens between its commands. *)
Inductive safe {A} : gset string -> chat -> prog A -> Prop :=
  | safe_ret us c a : safe us c (Ret a)
  | safe_send us c to fr m : safe us c m -> safe us c (Send to fr m)
  | safe_act us c f :
      (forall us1 c1 w c2 m, later us c us1 c1 -> index_inv us1 c1 -> w_token w ∉ us1 -> f w c1 = (c2, m) ->
         later us1 c1 ({[ w_token w ]} ∪ us1) c2 /\ index_inv ({[ w_token w ]} ∪ us1) c2) ->
      (forall us1 c1 w c2 m, later us c us1 c1 -> index_inv us1 c1 -> w_token w ∉ us1 -> f w c1 = (c2, m) ->
         safe ({[ w_token w ]} ∪ us1) c2 m) ->
      safe us c (Act f).

Lemma prog_safe_later {A} us c us' c' (m : prog A) : later us c us' c' -> safe us c m -> safe us' c' m.
Proof.
  intros Hl H. revert us' c' Hl. induction H as [|us c to fr m H IH|us c f H1 H2 IH]; intros us' c' Hl; constructor; [auto|..].
  - intros us1 c1 w c2 m Hl1. apply H1. by eapply later_trans.
  - intros us1 c1 w c2 m Hl1. apply H2. by eapply later_trans.
Qed.

Lemma safe_bind {A B} us c (m : prog A) (k : A -> prog B) :
  safe us c m -> (forall us' c' a, later us c us' c' -> safe us' c' (k a)) -> safe us c (pbind m k).
Proof.
  intros H. induction H as [us c a|us c to fr m H IH|us c f H1 H2 IH]; intros Hk; simpl.
  - apply Hk, later_self.
  - constructor. auto.
  - constructor; intros us1 c1 w c2 m Hl Hi Hw E; destruct (f w c1) as [c2' m'] eqn:Ef; simplify_eq.
    + by apply (H1 us1 c1 w c2 m' Hl Hi Hw Ef).
    + apply (IH us1 c1 w c2 m' Hl Hi Hw Ef). intros us' c' a L'. apply Hk.
      destruct (H1 us1 c1 w c2 m' Hl Hi Hw Ef) as [L _].
      eapply later_trans; [exact Hl|]. by eapply later_trans.
Qed.

Lemma fresh_token us c w : later us c ({[ w_token w ]} ∪ us) c /\ (index_inv us c -> index_inv ({[ w_token w ]} ∪ us) c).
Proof.
  split; [split; [set_solver|by right]|]. intros [H1 H2 H3 H4]. split; [|done..]. intros id Hid. specialize (H1 id Hid). set_solver.
Qed.

(** A question: the state stays, and the answer is true of it. *)
Lemma safe_ask {A B} us c (f : world -> chat -> A) (k : A -> prog B) :
  (forall us1 c1 w, later us c us1 c1 -> index_inv us1 c1 -> safe us1 c1 (k (f w c1))) -> safe us c (pbind (ask f) k).
Proof.
  intros H. constructor; intros us1 c1 w c2 m Hl Hi Hw E; simpl in E; injection E as <- <-.
  - destruct (fresh_token us1 c1 w) as [L I]. auto.
  - destruct (fresh_token us1 c1 w) as [L I]. eapply prog_safe_later; [exact L|]. auto.
Qed.

(** A change of the queue or of the counters. *)
Definition same_pairs (c c' : chat) : Prop :=
  pairs c' = pairs c /\ pair_by_uin c' = pair_by_uin c /\ active_pairs c' = active_pairs c.

Lemma same_pairs_inv us c c' : same_pairs c c' -> index_inv us c -> index_inv us c'.
Proof. intros (E1 & E2 & E3) [H1 H2 H3 H4]. split; rewrite ?E1, ?E2, ?E3; auto. Qed.

Lemma same_pairs_later us c c' : same_pairs c c' -> later us c us c'.
Proof. intros (E & _). split; [done|]. intros id _. rewrite E. by right. Qed.

Lemma safe_same {A} us c (f : world -> chat -> chat * prog A) :
  (forall w c1, same_pairs c1 (f w c1).1) ->
  (forall us1 c1 w, later us c us1 c1 -> safe us1 (f w c1).1 (f w c1).2) -> safe us c (Act f).
Proof.
  intros Hs Hk. constructor; intros us1 c1 w c2 m Hl Hi Hw E; specialize (Hs w c1); specialize (Hk us1 c1 w Hl);
    rewrite E in Hs, Hk; simpl in *; destruct (fresh_token us1 c2 w) as [L I].
  - split; [eapply later_trans; [by apply same_pairs_later|done]|]. apply I. by eapply same_pairs_inv.
  - by eapply prog_safe_later.
Qed.

Lemma safe_change {A} us c (f : world -> chat -> chat) (k : unit -> prog A) :
  (forall w c1, same_pairs c1 (f w c1)) -> (forall us' c' a, later us c us' c' -> safe us' c' (k a)) ->
  safe us c (pbind (change f) k).
Proof.
  intros Hs Hk. apply safe_bind; [|done]. apply safe_same; [done|]. intros. constructor.
Qed.

Lemma store_inv us c id p :
  index_inv us c -> id ∉ us -> uin_a p <> uin_b p -> index_inv ({[ id ]} ∪ us) (store_pair id p (expires_at p + seconds 60) c).
Proof.
  intros [H1 H2 H3 H4] Hid Hne. assert (Hn : pairs c !! id = None).
  { destruct (pairs c !! id) eqn:E; [|done]. destruct Hid. apply H1. by eexists. }
  split; simpl.
  - intros id' [x Hx]. destruct (decide (id = id')) as [->|Hd]; [set_solver|]. rewrite lookup_insert_ne in Hx by done.
    specialize (H1 id' (mk_is_Some _ _ Hx)). set_solver.
  - intros id' q dl Hq. destruct (decide (id = id')) as [->|Hd].
    + rewrite lookup_insert_eq in Hq. simplify_eq. by rewrite lookup_insert_eq.
    + rewrite lookup_insert_ne in Hq by done. rewrite lookup_insert_ne by done. eauto.
  - intros id' s Hs. destruct (decide (id = id')) as [->|Hd]; [rewrite lookup_insert_eq; by eexists|].
    rewrite lookup_insert_ne in Hs by done. rewrite lookup_insert_ne by done. eauto.
  - intros u id' Hu. destruct (decide (u = uin_b p)) as [->|Hb]; [|destruct (decide (u = uin_a p)) as [->|Ha]].
    + rewrite lookup_insert_eq in Hu. simplify_eq. rewrite lookup_insert_eq. unfold side. eauto.
    + rewrite lookup_insert_ne, lookup_insert_eq in Hu by done. simplify_eq. rewrite lookup_insert_eq. unfold side. eauto.
    + rewrite !lookup_insert_ne in Hu by done. destruct (H4 u id' Hu) as (q & dl & Hq & Hs).
      rewrite lookup_insert_ne by (intros ->; congruence). eauto.
Qed.

Lemma store_later us c id p dl : id ∉ us -> later us c ({[ id ]} ∪ us) (store_pair id p dl c).
Proof. intros Hid. split; [set_solver|]. intros id' H. right. simpl. rewrite lookup_insert_ne; [done|]. by intros ->. Qed.

Lemma drop_inv us c id p :
  index_inv us c -> pairs c !! id = None \/ (exists dl, pairs c !! id = Some (p, dl)) -> index_inv us (drop_pair id p c).
Proof.
  intros [H1 H2 H3 H4] Hp. split; simpl.
  - intros id' [x [_ Hx]%lookup_delete_Some]. eauto.
  - intros id' q dl [Hd Hq]%lookup_delete_Some. rewrite lookup_delete_ne by done. eauto.
  - intros id' s [Hd Hs]%lookup_delete_Some. rewrite lookup_delete_ne by done. eauto.
  - intros u id' Hu. apply lookup_delete_Some in Hu as [Hb Hu]. apply lookup_delete_Some in Hu as [Ha Hu].
    destruct (H4 u id' Hu) as (q & dl & Hq & Hs). exists q, dl. split; [|done]. rewrite lookup_delete_ne; [done|].
    intros ->. destruct Hp as [Hp|[dl' Hp]]; [congruence|]. rewrite Hq in Hp. simplify_eq. destruct Hs; congruence.
Qed.

Lemma drop_later us c id p : later us c us (drop_pair id p c).
Proof.
  split; [done|]. intros id' _. simpl. destruct (decide (id = id')) as [->|Hd]; [left; apply lookup_delete_eq|].
  right. by rewrite lookup_delete_ne.
Qed.

Lemma safe_end us c id reason : safe us c (end_pair id reason).
Proof.
  apply safe_ask. intros us1 c1 w Hl Hi. destruct (pairs c1 !! id) as [[p dl]|] eqn:E; [|constructor].
  case_cond; [constructor|]. assert (Hid : id ∈ us1) by (apply (ii_used _ _ Hi); by eexists).
  constructor; intros us2 c2 w' c3 m [Hl2 Hl3] Hi2 Hw Ec; simpl in Ec; injection Ec as <- <-; [|repeat constructor].
  destruct (fresh_token us2 (drop_pair id p c2) w') as [L I].
  split; [eapply later_trans; [apply drop_later|done]|]. apply I. apply drop_inv; [done|].
  destruct (Hl3 id Hid) as [?|E']; [by left|]. right. exists dl. congruence.
Qed.

Lemma safe_requeue us c sk : safe us c (requeue sk).
Proof.
  unfold requeue. destruct sk; [constructor|]. apply safe_same; [by intros|]. intros. constructor.
Qed.

Lemma safe_store us c candidate uin :
  candidate <> uin ->
  safe us c (Act (fun w c => let p := new_pair w candidate uin in
    (store_pair (w_token w) p (w_now w + seconds (PAIR_DURATION_SECONDS + 60)) c, Ret (w_token w, p)))).
Proof.
  intros Hne. constructor; intros us1 c1 w c2 m Hl Hi Hw E; simpl in E; injection E as <- <-; [|constructor].
  split; [by apply store_later|].
  replace (w_now w + seconds _) with (expires_at (new_pair w candidate uin) + seconds 60); [by apply store_inv|].
  unfold new_pair, seconds, PAIR_DURATION_SECONDS. simpl. lia.
Qed.

Lemma safe_try_match n uin : forall sk us c, safe us c (try_match n uin sk).
Proof.
  induction n as [|n IH]; intros sk us c; cbn [try_match]; [constructor|].
  apply safe_same; [intros w c1; by destruct (waiting c1)|]. intros us1 c1 w _. destruct (waiting c1) as [|x q]; cbn [fst snd].
  - apply safe_bind; [apply safe_requeue|]. intros. constructor.
  - destruct (Z.eqb_spec x uin) as [_|Hne]; [apply IH|]. apply safe_ask. intros us2 c2 w2 _ _. case_cond; [apply IH|].
    apply safe_ask. intros us3 c3 w3 _ _. case_bool_decide; [apply IH|]. apply safe_ask. intros us4 c4 w4 _ _. case_cond; [apply IH|].
    apply safe_bind; [by apply safe_store|]. intros us5 c5 a _. apply safe_bind; [apply safe_requeue|]. intros. constructor.
Qed.

Lemma safe_look_for n uin us c : safe us c (look_for n uin).
Proof.
  apply safe_ask. intros us1 c1 w _ _. case_bool_decide; [constructor|]. apply safe_bind; [apply safe_try_match|].
  intros us2 c2 [[[id p]|]|] _; [..|constructor].
  - apply safe_change; [by intros|]. intros us3 c3 _ _. apply safe_ask. intros us4 c4 w4 _ _. unfold notify_match.
    destruct (fetch_peer _ _), (fetch_peer _ _); repeat constructor.
  - apply safe_change; [by intros|]. intros us3 c3 _ _. apply safe_change; [by intros|]. intros. constructor.
Qed.

Lemma safe_age_gate {A} us c d uin (k : prog (outcome A)) : safe us c k -> safe us c (age_gate d uin k).
Proof. intros H. unfold age_gate. destruct (user_row d uin) as [r|]; [|constructor]. destruct (age _); [|constructor]. case_cond; [constructor|done]. Qed.

Lemma safe_end_if us c uin reason : safe us c (end_if_paired uin reason).
Proof. apply safe_ask. intros us1 c1 w _ _. destruct (pair_by_uin c1 !! uin); [apply safe_end|constructor]. Qed.

Lemma safe_lrem us c uin : safe us c (lrem uin).
Proof. apply safe_same; [by intros|]. intros. constructor. Qed.

Lemma safe_end_all ids : forall us c, safe us c (end_all ids).
Proof. induction ids as [|id ids IH]; intros us c; [constructor|]. apply safe_bind; [apply safe_end|]. intros. apply IH. Qed.

Lemma safe_program n q us c : safe us c (program n q).
Proof.
  destruct q as [u|u|u|u|]; cbn [program].
  - apply safe_bind; [|constructor]. apply safe_ask. intros us1 c1 w _ _. apply safe_age_gate, safe_ask. intros us2 c2 w2 _ _.
    case_cond; [constructor|]. apply safe_ask. intros us3 c3 w3 _ _. case_bool_decide; [constructor|apply safe_look_for].
  - apply safe_bind; [|constructor]. apply safe_bind; [apply safe_lrem|]. intros us1 c1 a _. case_cond; [constructor|].
    apply safe_ask. intros us2 c2 w2 _ _. destruct (pair_by_uin c2 !! u); [|constructor].
    apply safe_bind; [apply safe_end|constructor].
  - apply safe_bind; [|constructor]. apply safe_ask. intros us1 c1 w _ _. apply safe_age_gate.
    apply safe_bind; [apply safe_end_if|]. intros us2 c2 _ _. apply safe_ask. intros us3 c3 w3 _ _. case_cond; [constructor|apply safe_look_for].
  - apply safe_bind; [apply safe_lrem|]. intros. apply safe_end_if.
  - apply safe_ask. intros us1 c1 w _ _. apply safe_end_all.
Qed.

Record sys_inv (s : sys) : Prop := {
  si_index : index_inv (used s) (keys s);
  si_safe m : m ∈ running s -> safe (used s) (keys s) m
}.

Lemma elem_of_insert {A} (i : nat) (x y : A) (l : list A) : y ∈ <[i := x]> l -> y = x \/ y ∈ l.
Proof.
  intros (j & Hj)%list_elem_of_lookup. destruct (decide (i = j)) as [->|Hne].
  - apply list_lookup_insert_Some in Hj as [(_ & -> & _)|[? _]]; [by left|done].
  - rewrite list_lookup_insert_ne in Hj by done. right. by eapply list_elem_of_lookup_2.
Qed.

Lemma sys_inv_step s s' : sys_inv s -> step s s' -> sys_inv s'.
Proof.
  intros [Hi Hs] Hst. destruct Hst as [n q s|i f w s c m Hf Hw E|i to fr m s Hf]; split; simpl.
  - done.
  - intros m [Hm|Hm]%elem_of_app; [auto|]. apply list_elem_of_singleton in Hm as ->. apply safe_program.
  - specialize (Hs _ (list_elem_of_lookup_2 _ _ _ Hf)). inversion Hs as [| |us c0 f0 H1 H2]; subst. by apply (H1 _ _ _ _ _ (later_self _ _) Hi Hw E).
  - pose proof (Hs _ (list_elem_of_lookup_2 _ _ _ Hf)) as Hs'. inversion Hs' as [| |us c0 f0 H1 H2]; subst.
    destruct (H1 _ _ _ _ _ (later_self _ _) Hi Hw E) as [L _].
    intros m' [->|Hm]%elem_of_insert; [by apply (H2 _ _ _ _ _ (later_self _ _) Hi Hw E)|]. eapply prog_safe_later; [exact L|]. auto.
  - done.
  - intros m' [->|Hm]%elem_of_insert; [|auto]. specialize (Hs _ (list_elem_of_lookup_2 _ _ _ Hf)). by inversion Hs.
Qed.

Lemma rtc_sys_inv s : rtc step (mkSys ∅ empty_chat []) s -> sys_inv s.
Proof.
  assert (Hall : forall a b, rtc step a b -> sys_inv a -> sys_inv b).
  { intros a b H. induction H as [|a b c Hab _ IH]; [done|]. intros Ha. apply IH. by eapply sys_inv_step. }
  intros H. apply (Hall _ _ H). clear.
  split; simpl; [|by intros m []%elem_of_nil]. split; simpl; intros id; rewrite ?lookup_empty; try done.
Qed.

(** C23. in every interleaving of requests, an entry of [random:pair_by_uin] names
    a pair its person is a side of, that has two sides, was not ended (its hash
    is stored, or lapsed a minute after its end) and is in the sorted set the
    sweeper reads. *)
Theorem index_sound (s : sys) (u : Z) (id : string) :
  rtc step (mkSys ∅ empty_chat []) s -> pair_by_uin (keys s) !! u = Some id ->
  exists p dl, pairs (keys s) !! id = Some (p, dl) /\ side u p /\ uin_a p <> uin_b p /\
    dl = expires_at p + seconds 60 /\ active_pairs (keys s) !! id = Some (expires_at p).
Proof.
  intros H Hu. destruct (rtc_sys_inv s H) as [[H1 H2 H3 H4] _]. destruct (H4 u id Hu) as (p & dl & Hp & Hs).
  exists p, dl. destruct (H2 id p dl Hp) as (? & ? & ?). done.
Qed.

(** ** A request alone *)

(** Induction on programs, with what every command goes on as. *)
Lemma prog_induction {A} (P : prog A -> Prop) :
  (forall a, P (Ret a)) -> (forall f, (forall w c, P (f w c).2) -> P (Act f)) -> (forall to fr m, P m -> P (Send to fr m)) ->
  forall m, P m.
Proof.
  intros HR HA HS. fix IH 1. intros [a|f|to fr m]; [apply HR| |apply HS, IH].
  apply HA. intros w c. destruct (f w c) as [c' m]. apply IH.
Qed.

Lemma run_bind {A B} w (m : prog A) (k : A -> prog B) : forall c,
  run w (pbind m k) c =
  let '(a, c1, l1) := run w m c in let '(b, c2, l2) := run w (k a) c1 in (b, c2, l1 ++ l2).
Proof.
  induction m as [a|f IH|to fr m IH] using prog_induction; intros c; simpl.
  - by destruct (run w (k a) c) as [[b c2] l2].
  - specialize (IH w c). destruct (f w c) as [c1 m]. simpl in IH. apply IH.
  - rewrite IH. destruct (run w m c) as [[a c1] l1]. by destruct (run w (k a) c1) as [[b c2] l2].
Qed.

Lemma run_ask {A B} w (f : world -> chat -> A) (k : A -> prog B) c : run w (pbind (ask f) k) c = run w (k (f w c)) c.
Proof. done. Qed.

Lemma run_change {A} w (f : world -> chat -> chat) (k : unit -> prog A) c : run w (pbind (change f) k) c = run w (k tt) (f w c).
Proof. done. Qed.

Lemma run_requeue {A} w sk (k : unit -> prog A) c :
  run w (pbind (requeue sk) k) c = run w (k tt) (set_waiting (waiting c ++ sk) c).
Proof. destruct sk; simpl; [|done]. rewrite app_nil_r. by destruct c. Qed.

(** Those the loop drops, and those it may take. *)
Definition dropped (w : world) (c : chat) (uin x : Z) : bool :=
  (x =? uin) || negb (w_online w x) || bool_decide (is_Some (pair_by_uin c !! x)).
Definition stranger (w : world) (c : chat) (uin x : Z) : bool :=
  negb (dropped w c uin x) && negb (are_already_connected (w_db w) uin x).

(** The list up to the first element with [p], and from there on. *)
Fixpoint break {A} (p : A -> bool) (l : list A) : list A * list A :=
  match l with
  | [] => ([], [])
  | x :: l => if p x then ([], x :: l) else let '(l1, l2) := break p l in (x :: l1, l2)
  end.

Lemma break_spec {A} (p : A -> bool) l l1 l2 :
  break p l = (l1, l2) -> l = l1 ++ l2 /\ (forall x, x ∈ l1 -> p x = false) /\ (forall x l', l2 = x :: l' -> p x = true).
Proof.
  revert l1 l2. induction l as [|x l IH]; intros l1 l2; simpl.
  - intros [= <- <-]. split; [done|]. split; [by intros x []%elem_of_nil|done].
  - destruct (p x) eqn:Hp.
    + intros [= <- <-]. split; [done|]. split; [by intros y []%elem_of_nil|]. by intros y l' [= -> ->].
    + destruct (break p l) as [k1 k2]. intros [= <- <-]. destruct (IH k1 k2 eq_refl) as (-> & H1 & H2).
      split; [done|]. split; [|done]. intros y [->|Hy]%elem_of_cons; auto.
Qed.

Notation kept w c uin := (List.filter (fun x => negb (dropped w c uin x))).

Definition match_outcome (w : world) (uin : Z) (c : chat) (sk : list Z) : option (string * RPair) * chat :=
  match break (stranger w c uin) (waiting c) with
  | (before, []) => (None, set_waiting (sk ++ kept w c uin before) c)
  | (before, x :: after) =>
      (Some (w_token w, new_pair w x uin),
       store_pair (w_token w) (new_pair w x uin) (w_now w + seconds (PAIR_DURATION_SECONDS + 60))
         (set_waiting (after ++ sk ++ kept w c uin before) c))
  end.

(** The outcome with one more person in front. *)
Lemma outcome_cons w uin c sk x q : waiting c = x :: q ->
  match_outcome w uin c sk =
  if dropped w c uin x then match_outcome w uin (set_waiting q c) sk
  else if are_already_connected (w_db w) uin x then match_outcome w uin (set_waiting q c) (sk ++ [x])
  else (Some (w_token w, new_pair w x uin),
        store_pair (w_token w) (new_pair w x uin) (w_now w + seconds (PAIR_DURATION_SECONDS + 60)) (set_waiting (q ++ sk) c)).
Proof.
  intros Eq. unfold match_outcome. rewrite Eq. cbn [waiting set_waiting break].
  change (stranger w (set_waiting q c) uin) with (stranger w c uin).
  change (dropped w (set_waiting q c) uin) with (dropped w c uin). unfold stranger at 1.
  destruct (dropped w c uin x) eqn:Ed; cbn [negb andb]; [|destruct (are_already_connected _ _ _) eqn:Ec; cbn [negb]].
  - destruct (break _ q) as [l1 [|y l2]]; cbn [List.filter]; by rewrite Ed.
  - destruct (break _ q) as [l1 [|y l2]]; cbn [List.filter]; rewrite Ed; cbn [negb]; by rewrite <-!app_assoc.
  - cbn [List.filter]. by rewrite app_nil_r.
Qed.

Lemma try_match_from w uin n : forall c sk, (length (waiting c) < n)%nat ->
  run w (try_match n uin sk) c = (Some (match_outcome w uin c sk).1, (match_outcome w uin c sk).2, []).
Proof.
  induction n as [|n IH]; intros c sk Hn; [lia|]. cbn [try_match run].
  destruct (waiting c) as [|x q] eqn:Eq.
  - rewrite run_requeue. unfold match_outcome. rewrite Eq. simpl. by rewrite app_nil_r.
  - assert (Hq : forall sk', run w (try_match n uin sk') (set_waiting q c) =
        (Some (match_outcome w uin (set_waiting q c) sk').1, (match_outcome w uin (set_waiting q c) sk').2, [])).
    { intros sk'. apply IH. simpl in *. lia. }
    rewrite (outcome_cons w uin c sk x q Eq). unfold dropped.
    destruct (x =? uin); [apply Hq|]. cbv iota. rewrite run_ask. destruct (w_online w x); [|apply Hq]. cbn [negb].
    unfold is_uin_paired. rewrite run_ask. cbn [pair_by_uin set_waiting negb orb]. destruct (bool_decide _); [apply Hq|].
    rewrite run_ask. destruct (are_already_connected _ _ _); [apply Hq|].
    rewrite run_bind. cbn [run]. rewrite run_requeue. done.
Qed.

(** C24. the loop over the queue, alone and with a turn for everyone in it, takes the
    first who is online, unpaired and no contact in either direction, drops
    whoever is gone or paired before that one, and puts the caller's contacts it
    met at the end, in their order. *)
Theorem match_reference (w : world) (uin : Z) (c : chat) (n : nat) :
  (length (waiting c) < n)%nat ->
  run w (try_match n uin []) c =
  match break (stranger w c uin) (waiting c) with
  | (before, []) => (Some None, set_waiting (List.filter (fun x => negb (dropped w c uin x)) before) c, [])
  | (before, x :: after) =>
      (Some (Some (w_token w, new_pair w x uin)),
       store_pair (w_token w) (new_pair w x uin) (w_now w + seconds (PAIR_DURATION_SECONDS + 60))
         (set_waiting (after ++ List.filter (fun x => negb (dropped w c uin x)) before) c), [])
  end.
Proof.
  intros Hn. rewrite try_match_from by done. unfold match_outcome. by destruct (break _ _) as [before [|x after]].
Qed.

(** ** One request after the other *)

(** At the instant [t]: the index agrees, nobody waits twice, a pair that is
    not over is the one its sides are in, and nobody in one waits. *)
Record chat_wf (t : Z) (c : chat) : Prop := {
  cw_index : index_inv (dom (pairs c)) c;
  cw_once : NoDup (waiting c);
  cw_live id p dl u : pairs c !! id = Some (p, dl) -> t < dl -> side u p -> pair_by_uin c !! u = Some id;
  cw_wait id p dl u : pairs c !! id = Some (p, dl) -> t < dl -> side u p -> u ∉ waiting c
}.

Lemma index_dom us c : index_inv us c -> index_inv (dom (pairs c)) c.
Proof. intros [H1 H2 H3 H4]. split; [|done..]. intros id. by rewrite elem_of_dom. Qed.

Lemma chat_wf_later t t' c : t <= t' -> chat_wf t c -> chat_wf t' c.
Proof. intros Ht [H1 H2 H3 H4]. split; [done|done|..]; intros id p dl u Hp Hd; [apply (H3 id p dl)|apply (H4 id p dl)]; done || lia. Qed.

(** Nobody is in a pair that is not over. *)
Definition alone (t : Z) (u : Z) (c : chat) : Prop :=
  forall id p dl, pairs c !! id = Some (p, dl) -> t < dl -> ~ side u p.

Lemma unpaired_alone t c u : chat_wf t c -> pair_by_uin c !! u = None -> alone t u c.
Proof. intros Hw Hn id p dl Hp Hd Hs. rewrite (cw_live _ _ Hw id p dl u Hp Hd Hs) in Hn. done. Qed.

(** Fewer people wait. *)
Lemma wf_waiting t c q : chat_wf t c -> NoDup q -> (forall u, u ∈ q -> u ∈ waiting c \/ alone t u c) -> chat_wf t (set_waiting q c).
Proof.
  intros [H1 H2 H3 H4] Hn Hq. split; [|done|done|].
  - eapply same_pairs_inv; [|exact H1]. done.
  - intros id p dl u Hp Hd Hs Hu. simpl in *. destruct (Hq u Hu) as [?|Ha]; [by eapply H4|by eapply Ha].
Qed.

Lemma wf_daily t c w u : chat_wf t c -> chat_wf t (run w (bump_daily u) c).1.2.
Proof. intros [H1 H2 H3 H4]. split; [|done..]. eapply same_pairs_inv; [|exact H1]. done. Qed.

Lemma wf_store t c id x u :
  let p := mkRPair x u t (t + seconds PAIR_DURATION_SECONDS) in
  chat_wf t c -> pairs c !! id = None -> x <> u -> alone t x c -> alone t u c -> x ∉ waiting c -> u ∉ waiting c ->
  chat_wf t (store_pair id p (t + seconds (PAIR_DURATION_SECONDS + 60)) c).
Proof.
  intros p [H1 H2 H3 H4] Hid Hne Hx Hu Hxq Huq. split; [|done|..].
  - replace (t + seconds _) with (expires_at p + seconds 60) by (unfold p, seconds, PAIR_DURATION_SECONDS; simpl; lia).
    eapply index_dom, store_inv; [exact H1|by apply not_elem_of_dom|done].
  - intros id' q dl v Hq Hd Hs. simpl in *. destruct (decide (id = id')) as [->|Hi].
    + rewrite lookup_insert_eq in Hq. simplify_eq. destruct Hs as [-> | ->]; simpl.
      * by rewrite lookup_insert_ne, lookup_insert_eq.
      * by rewrite lookup_insert_eq.
    + rewrite lookup_insert_ne in Hq by done. rewrite !lookup_insert_ne; [by eapply H3|..]; intros <-; [by eapply Hx|by eapply Hu].
  - intros id' q dl v Hq Hd Hs. simpl in *. destruct (decide (id = id')) as [->|Hi].
    + rewrite lookup_insert_eq in Hq. simplify_eq. by destruct Hs as [-> | ->].
    + rewrite lookup_insert_ne in Hq by done. by eapply H4.
Qed.

Lemma wf_drop t c id p dl : chat_wf t c -> pairs c !! id = Some (p, dl) -> t < dl -> chat_wf t (drop_pair id p c).
Proof.
  intros [H1 H2 H3 H4] Hp Hd. split; [|done|..].
  - eapply index_dom, drop_inv; [exact H1|]. right. eauto.
  - simpl. intros id' q dl' v [Hi Hq]%lookup_delete_Some Hd' Hs. pose proof (H3 id' q dl' v Hq Hd' Hs) as Hv.
    rewrite !lookup_delete_ne; [done|..]; intros <-.
    + pose proof (H3 id p dl (uin_a p) Hp Hd (or_introl eq_refl)). congruence.
    + pose proof (H3 id p dl (uin_b p) Hp Hd (or_intror eq_refl)). congruence.
  - simpl. intros id' q dl' v [Hi Hq]%lookup_delete_Some Hd' Hs. by eapply H4.
Qed.

Lemma run_end w id reason c :
  run w (end_pair id reason) c =
  match pairs c !! id with
  | Some (p, dl) => if dl <=? w_now w then (tt, c, [])
                    else (tt, drop_pair id p c, [(uin_a p, random_end id reason); (uin_b p, random_end id reason)])
  | None => (tt, c, [])
  end.
Proof. unfold end_pair, load_pair. rewrite run_ask. destruct (pairs c !! id) as [[p dl]|]; [|done]. by destruct (dl <=? w_now w). Qed.

Lemma wf_end w id reason c : chat_wf (w_now w) c -> chat_wf (w_now w) (run w (end_pair id reason) c).1.2.
Proof.
  intros Hw. rewrite run_end. destruct (pairs c !! id) as [[p dl]|] eqn:E; [|done]. case_cond; [done|]. breflect. by eapply wf_drop.
Qed.

Lemma end_waiting w id reason c : waiting (run w (end_pair id reason) c).1.2 = waiting c.
Proof. rewrite run_end. destruct (pairs c !! id) as [[p dl]|]; [|done]. by case_cond. Qed.

Lemma end_dom w id reason c : dom (pairs (run w (end_pair id reason) c).1.2) ⊆ dom (pairs c).
Proof. rewrite run_end. destruct (pairs c !! id) as [[p dl]|]; [|done]. case_cond; [done|]. simpl. rewrite dom_delete. set_solver. Qed.

Lemma run_end_if w u reason c :
  run w (end_if_paired u reason) c = match pair_by_uin c !! u with Some id => run w (end_pair id reason) c | None => (tt, c, []) end.
Proof. unfold end_if_paired, is_uin_paired. rewrite run_ask. by destruct (pair_by_uin c !! u). Qed.

Lemma end_if_spec w u reason c : chat_wf (w_now w) c ->
  let c' := (run w (end_if_paired u reason) c).1.2 in
  chat_wf (w_now w) c' /\ alone (w_now w) u c' /\ waiting c' = waiting c /\ dom (pairs c') ⊆ dom (pairs c).
Proof.
  intros Hw c'. unfold c'. rewrite run_end_if. destruct (pair_by_uin c !! u) as [id|] eqn:E.
  - split; [by apply wf_end|]. split; [|by rewrite end_waiting; split; [|apply end_dom]].
    rewrite run_end. intros id' p dl Hp Hd Hs.
    destruct (pairs c !! id) as [[p' dl']|] eqn:Ei; [case_cond|]; breflect; simpl in Hp.
    + pose proof (cw_live _ _ Hw id' p dl u Hp Hd Hs). simplify_eq. lia.
    + apply lookup_delete_Some in Hp as [Hi Hp]. pose proof (cw_live _ _ Hw id' p dl u Hp Hd Hs). congruence.
    + pose proof (cw_live _ _ Hw id' p dl u Hp Hd Hs). congruence.
  - split; [done|]. split; [by apply unpaired_alone|done].
Qed.

(** The answer of [look_for] and the keys after it. *)
Lemma run_look_for w n u c : (length (waiting c) < n)%nat ->
  (run w (look_for n u) c).1.2 =
  if bool_decide (u ∈ waiting c) then c
  else match match_outcome w u c [] with
       | (None, c1) => (run w (bump_daily u) (set_waiting (waiting c1 ++ [u]) c1)).1.2
       | (Some _, c1) => (run w (bump_daily u) c1).1.2
       end.
Proof.
  intros Hn. unfold look_for. rewrite run_ask. destruct (bool_decide (u ∈ waiting c)); [done|].
  rewrite run_bind, try_match_from by done. destruct (match_outcome w u c []) as [[[id p]|] c1]; cbn [fst snd].
  - unfold bump_daily. rewrite run_change, run_ask. unfold notify_match. by destruct (fetch_peer _ _), (fetch_peer _ _).
  - done.
Qed.

Lemma outcome_wf w u c :
  chat_wf (w_now w) c -> pairs c !! w_token w = None -> alone (w_now w) u c -> u ∉ waiting c ->
  let o := match_outcome w u c [] in
  chat_wf (w_now w) o.2 /\ (o.1 = None -> u ∉ waiting o.2 /\ alone (w_now w) u o.2).
Proof.
  intros Hw Hid Ha Hu o. unfold o, match_outcome. destruct (break _ _) as [l1 l2] eqn:Eb.
  apply break_spec in Eb as (Eq & _ & H2). pose proof (cw_once _ _ Hw) as Hn. rewrite Eq in Hn, Hu.
  apply NoDup_app in Hn as (N1 & N12 & N2).
  assert (Hf : forall x, x ∈ kept w c u l1 -> x ∈ l1) by (intros x Hx%list_elem_of_In; apply List.filter_In in Hx as [Hx _]; by apply list_elem_of_In).
  assert (Nf : NoDup (kept w c u l1)) by (apply NoDup_ListNoDup, List.NoDup_filter; by apply NoDup_ListNoDup).
  destruct l2 as [|x l2]; cbn [fst snd app].
  - assert (Hnw : u ∉ kept w c u l1) by (intros ?%Hf; by apply Hu, elem_of_app; left).
    split; [|done]. apply wf_waiting; [done|done|]. intros v Hv%Hf. left. rewrite Eq. apply elem_of_app. by left.
  - specialize (H2 x l2 eq_refl). unfold stranger, dropped in H2. breflect. apply NoDup_cons in N2 as [Nx N2]. split; [|done].
    assert (Hxa : alone (w_now w) x c).
    { apply unpaired_alone; [done|]. by apply eq_None_not_Some. }
    apply wf_store; simpl; [|done|done|done|done|..].
    + apply wf_waiting; [done|apply NoDup_app; split; [done|]; split; [|done]|].
      * intros y Hy Hy'%Hf. apply (N12 y Hy'). by right.
      * intros y [Hy|Hy%Hf]%elem_of_app; left; rewrite Eq; apply elem_of_app; [right; by right|by left].
    + intros [Hy|Hy%Hf]%elem_of_app; [done|]. apply (N12 x Hy). left.
    + intros [Hy|Hy%Hf]%elem_of_app; apply Hu, elem_of_app; [right; by right|by left].
Qed.

Lemma look_for_wf w n u c :
  chat_wf (w_now w) c -> pairs c !! w_token w = None -> alone (w_now w) u c -> (length (waiting c) < n)%nat ->
  chat_wf (w_now w) (run w (look_for n u) c).1.2.
Proof.
  intros Hw Hid Ha Hn. rewrite run_look_for by done. case_bool_decide as Hu; [done|].
  destruct (outcome_wf w u c Hw Hid Ha Hu) as [H1 H2]. destruct (match_outcome w u c []) as [[m|] c1]; cbn [fst snd] in *; apply wf_daily; [done|].
  destruct (H2 eq_refl) as [Hu1 Ha1]. apply wf_waiting; [done|apply NoDup_snoc; [done|by apply (cw_once _ _ H1)]|].
  intros v [Hv|Hv]%elem_of_app; [by left|]. apply list_elem_of_singleton in Hv as ->. by right.
Qed.

Lemma age_gate_keeps {A} (P : chat -> Prop) w d u (k : prog (outcome A)) c :
  P c -> P (run w k c).1.2 -> P (run w (age_gate d u k) c).1.2.
Proof. intros H1 H2. unfold age_gate. destruct (user_row d u) as [r|]; [|done]. destruct (age _); [|done]. by case_cond. Qed.

Lemma run_drop_answer {A} w (m : prog A) c : (run w (pbind m (fun _ => Ret tt)) c).1.2 = (run w m c).1.2.
Proof. rewrite run_bind. by destruct (run w m c) as [[a c1] l]. Qed.

Lemma lrem_wf w u c : chat_wf (w_now w) c -> chat_wf (w_now w) (set_waiting (filter (fun x => x <> u) (waiting c)) c).
Proof.
  intros Hw. apply wf_waiting; [done|apply NoDup_filter, Hw|]. intros v [_ Hv]%list_elem_of_filter. by left.
Qed.

Lemma end_all_wf w ids : forall c, chat_wf (w_now w) c -> chat_wf (w_now w) (run w (end_all ids) c).1.2.
Proof.
  induction ids as [|id ids IH]; intros c Hw; [done|]. cbn [end_all]. rewrite run_bind.
  pose proof (wf_end w id "expired" c Hw) as H1. destruct (run w (end_pair id "expired") c) as [[a c1] l1]. cbn [fst snd] in H1.
  specialize (IH c1 H1). by destruct (run w (end_all ids) c1) as [[b c2] l2].
Qed.

Lemma serve_wf w q c : chat_wf (w_now w) c -> pairs c !! w_token w = None -> chat_wf (w_now w) (serve c (w, q)).
Proof.
  intros Hw Hid. unfold serve. cbn [fst snd]. assert (Hn : (length (waiting c) < S (length (waiting c)))%nat) by lia.
  generalize dependent (S (length (waiting c))). intros n Hn. destruct q as [u|u|u|u|]; cbn [program].
  - rewrite run_drop_answer. unfold queue. rewrite run_ask. apply age_gate_keeps; [done|]. unfold get_daily_count, is_uin_paired.
    rewrite run_ask. case_cond; [done|]. rewrite run_ask. case_bool_decide as Hp; [done|].
    apply look_for_wf; [done|done|by apply unpaired_alone, eq_None_not_Some|done].
  - rewrite run_drop_answer. unfold leave. rewrite run_bind. cbn [run lrem]. pose proof (lrem_wf w u c Hw) as Hw'.
    set (c1 := set_waiting _ c) in *. case_cond; [done|]. unfold is_uin_paired. rewrite run_ask.
    destruct (pair_by_uin c1 !! u) as [id|]; [|done]. rewrite run_bind. pose proof (wf_end w id "peer_left" c1 Hw') as H1.
    by destruct (run w (end_pair id "peer_left") c1) as [[a c2] l].
  - rewrite run_drop_answer. unfold skip. rewrite run_ask. apply age_gate_keeps; [done|]. rewrite run_bind.
    destruct (end_if_spec w u "peer_skipped" c Hw) as (H1 & H2 & H3 & H4).
    destruct (run w (end_if_paired u "peer_skipped") c) as [[a c1] l]. cbn [fst snd] in *. unfold get_daily_count. rewrite run_ask.
    case_cond; [done|]. assert (Hid1 : pairs c1 !! w_token w = None) by (apply not_elem_of_dom; apply not_elem_of_dom in Hid; auto).
    rewrite <-H3 in Hn. pose proof (look_for_wf w n u c1 H1 Hid1 H2 Hn) as H5. by destruct (run w (look_for n u) c1) as [[b c2] l2].
  - unfold random_on_disconnect. rewrite run_bind. cbn [run lrem]. pose proof (lrem_wf w u c Hw) as Hw'.
    destruct (end_if_spec w u "peer_disconnected" _ Hw') as [H1 _].
    by destruct (run w (end_if_paired u "peer_disconnected") _) as [[b c2] l2].
  - unfold expire_sweep, expired_ids. rewrite run_ask. by apply end_all_wf.
Qed.

(** The clock does not go back, and each token is new. *)
Fixpoint served_in_order (t : Z) (c : chat) (l : list (world * request)) : Prop :=
  match l with
  | [] => True
  | wq :: l => t <= w_now wq.1 /\ pairs c !! w_token wq.1 = None /\ served_in_order (w_now wq.1) (serve c wq) l
  end.

(** requests served one after the other keep the state in order: at any later
    instant nobody waits twice, a pair that is not over is the one both its
    sides are in, so nobody is in two, and nobody in a pair waits. *)
Theorem chat_wf_run (l : list (world * request)) (t : Z) (c : chat) :
  chat_wf t c -> served_in_order t c l -> exists t', t <= t' /\ chat_wf t' (foldl serve c l).
Proof.
  revert t c. induction l as [|[w q] l IH]; intros t c Hw Hl; [by exists t|]. destruct Hl as (Ht & Hid & Hl). cbn [fst] in *.
  destruct (IH (w_now w) (serve c (w, q))) as (t' & Ht' & H); [|done|exists t'; split; [lia|done]].
  apply serve_wf; [|done]. by eapply chat_wf_later.
Qed.

Lemma chat_wf_empty t : chat_wf t empty_chat.
Proof. split; [split|constructor|..]; simpl; intros *; rewrite ?lookup_empty; done. Qed.

(** ** The answers of [queue] *)

(** the answer of [queue] on every branch, when nobody else is served meanwhile:
    refused without an age or below 18, over the day's limit, or while in a
    pair; queued when already waiting or when no stranger waits; else matched
    with the first stranger, whose name is not told.  It always answers. *)
Theorem queue_answer (w : world) (uin : Z) (c : chat) (n : nat) :
  (length (waiting c) < n)%nat ->
  (run w (queue n uin) c).1.1 =
  match user_row (w_db w) uin with
  | None => Raise (HTTPException 404 "user not found")
  | Some r =>
      match age (w_person r) with
      | None => Raise (HTTPException 403 "age_required")
      | Some a =>
          if a <? 18 then Raise (HTTPException 403 "under_18")
          else if DAILY_MATCH_LIMIT <=? default 0 (daily c !! (day_of (w_now w), uin))
          then Raise (HTTPException 429 "daily random-chat limit reached")
          else if bool_decide (is_Some (pair_by_uin c !! uin)) then Raise (HTTPException 409 "already in an active random session")
          else if bool_decide (uin ∈ waiting c) then Ok Queued
          else match (break (stranger w c uin) (waiting c)).2 with
               | [] => Ok Queued
               | x :: _ => Ok (Matched (w_token w)
                                 (option_map (fun r => mkPeerInfo x "" (identity_key (w_keys r)) (signing_key (w_keys r))) (user_row (w_db w) x))
                                 (w_now w + seconds PAIR_DURATION_SECONDS))
               end
      end
  end.
Proof.
  intros Hn. unfold queue. rewrite run_ask. unfold age_gate. destruct (user_row (w_db w) uin) as [r|]; [|done].
  destruct (age _) as [a|]; [|done]. case_cond; [done|]. unfold get_daily_count, is_uin_paired. rewrite run_ask. unfold limit_reached.
  case_cond; [done|]. rewrite run_ask. case_bool_decide; [done|]. unfold look_for. rewrite run_ask. case_bool_decide; [done|].
  rewrite run_bind, match_reference by done. destruct (break _ _) as [l1 [|x l2]] eqn:Eb; cbn [snd]; [done|].
  unfold bump_daily. rewrite run_change, run_ask. unfold notify_match.
  apply break_spec in Eb as (_ & _ & Hx). specialize (Hx x l2 eq_refl). unfold stranger, dropped in Hx. breflect.
  replace (peer_of (new_pair w x uin) uin) with x by (unfold peer_of; simpl; by rewrite (proj2 (Z.eqb_neq uin x))).
  by destruct (fetch_peer (w_db w) (uin_a (new_pair w x uin))), (fetch_peer (w_db w) (uin_b (new_pair w x uin))).
Qed.

(** ** The sweeper *)

Definition in_time (t : Z) (c : chat) : Prop := forall id p dl, pairs c !! id = Some (p, dl) -> t < dl.

Lemma drop_entry t c id p dl u : chat_wf t c -> pairs c !! id = Some (p, dl) -> t < dl ->
  pair_by_uin (drop_pair id p c) !! u = if decide (pair_by_uin c !! u = Some id) then None else pair_by_uin c !! u.
Proof.
  intros Hw Hp Hd. simpl. destruct (decide (side u p)) as [Hs|Hs].
  - rewrite decide_True by (by eapply cw_live). destruct Hs as [-> | ->]; [|apply lookup_delete_eq].
    destruct (ii_pair _ _ (cw_index _ _ Hw) id p dl Hp) as [Hne _]. by rewrite lookup_delete_ne, lookup_delete_eq.
  - rewrite !lookup_delete_ne by (intros <-; apply Hs; unfold side; auto). destruct (decide _) as [E|]; [|done].
    destruct (ii_entry _ _ (cw_index _ _ Hw) u id E) as (q & dl' & Hq & Hs'). rewrite Hq in Hp. by simplify_eq.
Qed.

(** [hide ids x id]: nothing where [id] is one of [ids]. *)
Definition hide {A} (ids : list string) (x : option A) (id : string) : option A := if decide (id ∈ ids) then None else x.

Lemma hide_here {A} i ids (x : option A) : hide (i :: ids) x i = None.
Proof. unfold hide. by rewrite (decide_True _ _ (list_elem_of_here i ids)). Qed.

Lemma hide_other {A} i ids (x : option A) id : id <> i -> hide (i :: ids) x id = hide ids x id.
Proof.
  intros Hne. unfold hide. destruct (decide (id ∈ ids)); [by rewrite decide_True by (by right)|].
  rewrite decide_False; [done|]. by intros [?|?]%elem_of_cons.
Qed.

Lemma hide_none {A} ids id : hide ids (None : option A) id = None.
Proof. unfold hide. by destruct (decide _). Qed.

Lemma end_all_spec w ids : forall c, chat_wf (w_now w) c -> in_time (w_now w) c ->
  let '(_, c', frames) := run w (end_all ids) c in
  (forall id, pairs c' !! id = hide ids (pairs c !! id) id) /\
  (forall u, pair_by_uin c' !! u = pair_by_uin c !! u ≫= fun id => hide ids (Some id) id) /\
  (forall id p dl, id ∈ ids -> pairs c !! id = Some (p, dl) ->
     (uin_a p, random_end id "expired") ∈ frames /\ (uin_b p, random_end id "expired") ∈ frames).
Proof.
  induction ids as [|i ids IH]; intros c Hw Ht.
  - simpl. split; [done|]. split; [|by intros id p dl []%elem_of_nil]. intros u. by destruct (pair_by_uin c !! u).
  - cbn [end_all]. rewrite run_bind, run_end. destruct (pairs c !! i) as [[p dl]|] eqn:Ei.
    + pose proof (Ht _ _ _ Ei) as Hd. rewrite (proj2 (Z.leb_gt _ _) Hd). pose proof (wf_drop _ _ _ _ _ Hw Ei Hd) as Hw'.
      assert (Ht' : in_time (w_now w) (drop_pair i p c)).
      { intros id q dl'. simpl. intros [_ H]%lookup_delete_Some. by eapply Ht. }
      specialize (IH (drop_pair i p c) Hw' Ht'). destruct (run w (end_all ids) (drop_pair i p c)) as [[b c2] l2].
      destruct IH as (H1 & H2 & H3). split; [|split].
      * intros id. rewrite H1. simpl. destruct (decide (id = i)) as [->|Hne].
        -- by rewrite lookup_delete_eq, hide_here, hide_none.
        -- by rewrite lookup_delete_ne, hide_other.
      * intros u. rewrite H2, (drop_entry _ _ _ _ _ u Hw Ei Hd). destruct (pair_by_uin c !! u) as [id|]; [|by destruct (decide _)].
        destruct (decide (Some id = Some i)) as [[= ->]|Hne]; simpl; [by rewrite hide_here|]. rewrite hide_other; congruence.
      * intros id q dl' Hid Hq. destruct (decide (id = i)) as [->|Hne].
        -- rewrite Ei in Hq. simplify_eq. split; apply elem_of_app; left; [left|right; left].
        -- apply elem_of_cons in Hid as [?|Hid]; [done|].
           destruct (H3 id q dl' Hid) as [? ?]; [simpl; by rewrite lookup_delete_ne|]. split; apply elem_of_app; by right.
    + specialize (IH c Hw Ht). destruct (run w (end_all ids) c) as [[b c2] l2]. destruct IH as (H1 & H2 & H3). split; [|split].
      * intros id. rewrite H1. destruct (decide (id = i)) as [->|Hne]; [by rewrite Ei, hide_here, hide_none|by rewrite hide_other].
      * intros u. rewrite H2. destruct (pair_by_uin c !! u) as [id|] eqn:Eu; [|done]. simpl.
        destruct (ii_entry _ _ (cw_index _ _ Hw) u id Eu) as (q & dl' & Hq & _). rewrite hide_other; congruence.
      * intros id q dl' Hid Hq. apply elem_of_cons in Hid as [->|Hid]; [congruence|]. simpl. by eapply H3.
Qed.

Lemma elem_of_expired t c id :
  id ∈ map fst (sort_by snd (List.filter (fun e : string * Z => e.2 <=? t) (map_to_list (active_pairs c)))) <->
  exists s, active_pairs c !! id = Some s /\ s <= t.
Proof.
  rewrite list_elem_of_fmap. split.
  - intros ([i s] & -> & H). apply elem_of_sort_by, list_elem_of_In, List.filter_In in H as [H Hs]. simpl in *. breflect.
    apply list_elem_of_In, elem_of_map_to_list in H. eauto.
  - intros (s & Hs & Ht). exists (id, s). split; [done|]. apply elem_of_sort_by, list_elem_of_In, List.filter_In. simpl.
    split; [by apply list_elem_of_In, elem_of_map_to_list|]. by apply Z.leb_le.
Qed.

(** a sweep no later than a minute after the end of the oldest pair tells both
    sides of every pair that is over, forgets the pair and frees both sides;
    pairs that are not over, and the sides of those, are left as they are. *)
Theorem sweep_frees (w : world) (c : chat) :
  chat_wf (w_now w) c -> in_time (w_now w) c ->
  let '(_, c', frames) := run w expire_sweep c in
  forall id p dl, pairs c !! id = Some (p, dl) ->
    if expires_at p <=? w_now w
    then pairs c' !! id = None /\ pair_by_uin c' !! uin_a p = None /\ pair_by_uin c' !! uin_b p = None /\
         (uin_a p, random_end id "expired") ∈ frames /\ (uin_b p, random_end id "expired") ∈ frames
    else pairs c' !! id = Some (p, dl) /\ pair_by_uin c' !! uin_a p = Some id /\ pair_by_uin c' !! uin_b p = Some id.
Proof.
  intros Hw Ht. unfold expire_sweep, expired_ids. rewrite run_ask.
  set (ids := map fst _). pose proof (end_all_spec w ids c Hw Ht) as H. destruct (run w (end_all ids) c) as [[b c'] fr].
  destruct H as (H1 & H2 & H3). intros id p dl Hp.
  destruct (ii_pair _ _ (cw_index _ _ Hw) id p dl Hp) as (_ & _ & Ha). pose proof (Ht id p dl Hp) as Hd.
  assert (Hids : id ∈ ids <-> expires_at p <= w_now w).
  { unfold ids. rewrite elem_of_expired. split; [intros (s & Hs & ?); congruence|eauto]. }
  rewrite H1, !H2, Hp, (cw_live _ _ Hw id p dl (uin_a p) Hp Hd), (cw_live _ _ Hw id p dl (uin_b p) Hp Hd) by (unfold side; auto).
  unfold hide. simpl. destruct (Z.leb_spec (expires_at p) (w_now w)) as [He|He].
  - destruct (H3 id p dl (proj2 Hids He) Hp). rewrite !decide_True by (by apply Hids). done.
  - rewrite !decide_False by (rewrite Hids; lia). done.
Qed.

(** ** A sweep that comes too late *)

(** In the index, while the hash of the pair has lapsed. *)
Definition stranded (t : Z) (u : Z) (id : string) (c : chat) : Prop :=
  pair_by_uin c !! u = Some id /\ exists p dl, pairs c !! id = Some (p, dl) /\ dl <= t.

Lemma stranded_same t u id c c' : same_pairs c c' -> stranded t u id c -> stranded t u id c'.
Proof. intros (E1 & E2 & _). unfold stranded. by rewrite E1, E2. Qed.

Lemma end_stranded w i reason c u id :
  chat_wf (w_now w) c -> stranded (w_now w) u id c -> stranded (w_now w) u id (run w (end_pair i reason) c).1.2.
Proof.
  intros Hw (Hu & p & dl & Hp & Hd). rewrite run_end. destruct (pairs c !! i) as [[q dl']|] eqn:Ei; [|by repeat eexists].
  case_cond; [by repeat eexists|]. breflect. cbn [fst snd]. split.
  - rewrite (drop_entry _ _ _ _ _ u Hw Ei) by done. rewrite decide_False; [done|]. intros E. simplify_eq. lia.
  - exists p, dl. split; [|done]. simpl. rewrite lookup_delete_ne; [done|]. intros ->. simplify_eq. lia.
Qed.

Lemma end_if_stranded w v reason c u id :
  chat_wf (w_now w) c -> stranded (w_now w) u id c -> stranded (w_now w) u id (run w (end_if_paired v reason) c).1.2.
Proof. intros Hw H. rewrite run_end_if. destruct (pair_by_uin c !! v); [by apply end_stranded|done]. Qed.

Lemma outcome_stranded w v c u id :
  pairs c !! w_token w = None -> v <> u -> stranded (w_now w) u id c -> stranded (w_now w) u id (match_outcome w v c []).2.
Proof.
  intros Hid Hv (Hu & p & dl & Hp & Hd). unfold match_outcome. destruct (break _ _) as [l1 l2] eqn:Eb. apply break_spec in Eb as (_ & _ & H2).
  destruct l2 as [|x l2]; cbn [snd]; [by repeat eexists|].
  specialize (H2 x l2 eq_refl). unfold stranger, dropped in H2. breflect. split; simpl.
  - rewrite !lookup_insert_ne; [done|..]; [intros ->|done]. congruence || (destruct H1; by eexists).
  - exists p, dl. split; [|done]. rewrite lookup_insert_ne; [done|]. intros <-. congruence.
Qed.

Lemma look_for_stranded w n v c u id : (length (waiting c) < n)%nat ->
  pairs c !! w_token w = None -> v <> u -> stranded (w_now w) u id c -> stranded (w_now w) u id (run w (look_for n v) c).1.2.
Proof.
  intros Hn Hid Hv H. rewrite run_look_for by done. case_bool_decide; [done|].
  pose proof (outcome_stranded w v c u id Hid Hv H) as Ho. destruct (match_outcome w v c []) as [[m|] c1]; cbn [snd] in Ho.
  all: eapply stranded_same; [|exact Ho]; done.
Qed.

Lemma end_all_stranded w ids u id : forall c,
  chat_wf (w_now w) c -> stranded (w_now w) u id c -> stranded (w_now w) u id (run w (end_all ids) c).1.2.
Proof.
  induction ids as [|i ids IH]; intros c Hw H; [done|]. cbn [end_all]. rewrite run_bind.
  pose proof (wf_end w i "expired" c Hw) as H1. pose proof (end_stranded w i "expired" c u id Hw H) as H2.
  destruct (run w (end_pair i "expired") c) as [[a c1] l1]. cbn [fst snd] in *. specialize (IH c1 H1 H2).
  by destruct (run w (end_all ids) c1) as [[b c2] l2].
Qed.

Lemma serve_stranded w q c u id :
  chat_wf (w_now w) c -> pairs c !! w_token w = None -> q <> Skip u -> stranded (w_now w) u id c ->
  stranded (w_now w) u id (serve c (w, q)).
Proof.
  intros Hw Hid Hq H. unfold serve. cbn [fst snd]. assert (Hn : (length (waiting c) < S (length (waiting c)))%nat) by lia.
  generalize dependent (S (length (waiting c))). intros n Hn. destruct q as [v|v|v|v|]; cbn [program].
  - rewrite run_drop_answer. unfold queue. rewrite run_ask. apply age_gate_keeps; [done|]. unfold get_daily_count, is_uin_paired.
    rewrite run_ask. case_cond; [done|]. rewrite run_ask. case_bool_decide as Hp; [done|].
    apply look_for_stranded; [done|done| |done]. intros ->. apply Hp. destruct H as [-> _]. by eexists.
  - rewrite run_drop_answer. unfold leave. rewrite run_bind. cbn [run lrem]. pose proof (lrem_wf w v c Hw) as Hw'.
    set (c1 := set_waiting _ c) in *. assert (H' : stranded (w_now w) u id c1) by (by eapply stranded_same; [|exact H]).
    case_cond; [done|]. unfold is_uin_paired. rewrite run_ask. destruct (pair_by_uin c1 !! v) as [i|]; [|done].
    rewrite run_bind. pose proof (end_stranded w i "peer_left" c1 u id Hw' H') as H1.
    by destruct (run w (end_pair i "peer_left") c1) as [[a c2] l].
  - rewrite run_drop_answer. unfold skip. rewrite run_ask. apply age_gate_keeps; [done|]. rewrite run_bind.
    destruct (end_if_spec w v "peer_skipped" c Hw) as (H1 & _ & H3 & H4). pose proof (end_if_stranded w v "peer_skipped" c u id Hw H) as H5.
    destruct (run w (end_if_paired v "peer_skipped") c) as [[a c1] l]. cbn [fst snd] in *. unfold get_daily_count. rewrite run_ask.
    case_cond; [done|]. assert (Hid1 : pairs c1 !! w_token w = None) by (apply not_elem_of_dom; apply not_elem_of_dom in Hid; auto).
    rewrite <-H3 in Hn. assert (Hv : v <> u) by congruence. pose proof (look_for_stranded w n v c1 u id Hn Hid1 Hv H5) as H6.
    by destruct (run w (look_for n v) c1) as [[b c2] l2].
  - unfold random_on_disconnect. rewrite run_bind. cbn [run lrem]. pose proof (lrem_wf w v c Hw) as Hw'.
    assert (H' : stranded (w_now w) u id (set_waiting (filter (fun x => x <> v) (waiting c)) c)) by (by eapply stranded_same; [|exact H]).
    pose proof (end_if_stranded w v "peer_disconnected" _ u id Hw' H') as H1.
    by destruct (run w (end_if_paired v "peer_disconnected") _) as [[b c2] l2].
  - unfold expire_sweep, expired_ids. rewrite run_ask. by apply end_all_stranded.
Qed.

(** when a pair's hash lapses before a sweep or a leave has ended the pair, both
    sides stay in the index whatever is served from then on, their own leaving
    included, unless they skip; and [queue] refuses them. *)
Theorem late_sweep_strands (l : list (world * request)) (t : Z) (c : chat) (u : Z) (id : string) :
  chat_wf t c -> stranded t u id c -> served_in_order t c l -> (forall w, (w, Skip u) ∉ l) ->
  pair_by_uin (foldl serve c l) !! u = Some id /\
  forall w n, exists e, (run w (queue n u) (foldl serve c l)).1.1 = Raise e.
Proof.
  intros Hw Hs Hl Hu. assert (H : pair_by_uin (foldl serve c l) !! u = Some id).
  { revert t c Hw Hs Hl. induction l as [|[w q] l IH]; intros t c Hw Hs Hl; [by destruct Hs|]. destruct Hl as (Ht & Hid & Hl). cbn [fst] in *.
    assert (Hw' : chat_wf (w_now w) c) by (by eapply chat_wf_later). simpl. apply (IH (fun w' H => Hu w' (list_elem_of_further _ _ _ H)) (w_now w)); [|..|done].
    - by apply serve_wf.
    - apply serve_stranded; [done|done| |].
      + intros ->. apply (Hu w). left.
      + destruct Hs as (? & p & dl & ? & ?). split; [done|]. exists p, dl. split; [done|lia]. }
  split; [done|]. intros w n. unfold queue. rewrite run_ask. unfold age_gate. destruct (user_row (w_db w) u) as [r|]; [|by eexists].
  destruct (age _); [|by eexists]. case_cond; [by eexists|]. unfold get_daily_count, is_uin_paired. rewrite run_ask. case_cond; [by eexists|].
  rewrite run_ask, H, bool_decide_eq_true_2 by done. by eexists.
Qed.

(** ** The lock *)

Section lock.
Context {R : Type} `{RR : Redis R} {HR : RedisLaws R}.

Let key : string := ("leader:" ++ EXPIRE_LEADER_ROLE)%string.

(** A worker that leads has just put its name under the key, for thirty seconds. *)
Lemma leader_holds t me was r r1 : t_leads (expire_turn t me was r).1 = true -> (expire_turn t me was r).2 = r1 ->
  exists v, peek t key r1 = Some (v, Some (t + seconds LEADER_TTL_SECONDS)).
Proof using HR.
  unfold expire_turn, renew_leadership, acquire_leadership. fold key. destruct was.
  - case_bool_decide as Hg; [|done]. intros _ <-. simpl. pose proof (rget_spec t key r) as Hr. pose proof (expire_spec t key LEADER_TTL_SECONDS r) as He.
    rewrite (touches_same _ _ _ _ _ He). destruct (peek t key r) as [[v x]|]; [|congruence].
    exists v. unfold live. rewrite (proj2 (Z.leb_gt _ t)); [done|]. unfold LEADER_TTL_SECONDS, seconds, usec_per_sec. lia.
  - pose proof (set_nx_spec t key me (Some LEADER_TTL_SECONDS) r) as Hs. destruct (set_nx t key me (Some LEADER_TTL_SECONDS) r) as [ok r'].
    destruct (peek t key r) as [e|]; destruct Hs as [Hok Hs]; simpl in Hok; subst ok; [done|]. intros _ <-. simpl in *.
    rewrite (touches_same _ _ _ _ _ Hs). exists (VStr me). unfold live. rewrite (proj2 (Z.leb_gt _ t)); [done|].
    unfold LEADER_TTL_SECONDS, seconds, usec_per_sec. lia.
Qed.

(** the sweeper pauses as long as its lock lasts: a worker that led a turn finds
    its lock lapsed at the next, does not sweep in it, and leads no more. *)
Theorem lock_lapses (t t' : Z) (me : string) (was : bool) (r r1 r2 : R) :
  (expire_turn t me was r).1 = mkTurn true true EXPIRE_PAUSE_SECONDS -> (expire_turn t me was r).2 = r1 ->
  t + seconds EXPIRE_PAUSE_SECONDS <= t' -> peek t ("leader:" ++ EXPIRE_LEADER_ROLE)%string r2 = peek t ("leader:" ++ EXPIRE_LEADER_ROLE)%string r1 ->
  (expire_turn t' me true r2).1 = mkTurn false false 0.
Proof using HR.
  intros Hl Hr Ht Hk. fold key in Hk. destruct (leader_holds t me was r r1) as [v Hv]; [by rewrite Hl|done|].
  unfold expire_turn, renew_leadership. fold key.
  assert (Hn : peek t' key r2 = None).
  { rewrite (peek_later t t'), Hk, Hv by (unfold EXPIRE_PAUSE_SECONDS, seconds, usec_per_sec in Ht; lia). unfold live.
    rewrite (proj2 (Z.leb_le _ t')); [done|]. unfold EXPIRE_PAUSE_SECONDS, LEADER_TTL_SECONDS in *. lia. }
  pose proof (rget_spec t' key r2) as Hg. rewrite Hn in Hg. rewrite Hg. done.
Qed.
End lock.

(** ** Interleavings that go wrong *)

(** A schedule: a request comes, or the [i]-th goes on in a world. *)
Inductive move := Come (q : request) | Go (i : nat) (w : world).

Definition play1 (s : sys) (m : move) : option sys :=
  match m with
  | Come q => Some (mkSys (used s) (keys s) (running s ++ [program 9 q]))
  | Go i w =>
      match running s !! i with
      | Some (Act f) => if decide (w_token w ∈ used s) then None
                        else Some (mkSys ({[ w_token w ]} ∪ used s) (f w (keys s)).1 (<[i := (f w (keys s)).2]> (running s)))
      | Some (Send _ _ m) => Some (mkSys (used s) (keys s) (<[i := m]> (running s)))
      | _ => Some s
      end
  end.

Fixpoint play (l : list move) (s : sys) : option sys :=
  match l with [] => Some s | m :: l => match play1 s m with Some s => play l s | None => None end end.

Lemma play_steps l : forall s s', play l s = Some s' -> rtc step s s'.
Proof.
  induction l as [|m l IH]; intros s s' H; simpl in H; [by simplify_eq|].
  destruct (play1 s m) as [s1|] eqn:E; [|done]. apply IH in H. destruct m as [q|i w]; simpl in E.
  - simplify_eq. eapply rtc_l; [|exact H]. constructor.
  - destruct (running s !! i) as [[a|f|to fr m]|] eqn:Er; simplify_eq; [done| | |done].
    + case_decide; [done|]. simplify_eq. eapply rtc_l; [|exact H]. econstructor; [done..|]. by destruct (f w (keys s)).
    + eapply rtc_l; [|exact H]. by econstructor.
Qed.

Definition adult : Person :=
  mkPerson None None (Some 20) None None None None None None None "contacts" "nobody" "everyone" "contacts" "contacts" false None None.
Definition adults : sdb :=
  mkSdb (mkAdb (mkRdb (mkKdb (set_users (fun _ => {[ 1 := new_user 0 0 "a" None None; 2 := new_user 0 0 "b" None None; 3 := new_user 0 0 "c" None None ]}) empty_db)
                 ∅ [] [] [] 1 1 1) ∅ 1) ∅ [] ∅ ∅ ∅ ∅ ∅ ∅)
    {[ 1 := adult; 2 := adult; 3 := adult ]} ∅ ∅ [] 1 ∅ [].
(** The worlds of the instants [t], with the tokens [n], [n+1], ... *)
Definition at_ (t : Z) (n : nat) : world := mkWorld (seconds t) (fun _ => true) adults (pretty n).
Definition go (i : nat) (t : Z) (n k : nat) : list move := map (fun j => Go i (at_ t (n + j))) (seq 0 k).

Definition race_of_ends : list move :=
  Come (Queue 2) :: go 0 0 0 20 ++ Come (Queue 1) :: go 1 1 20 30 ++ Come (Queue 3) :: go 2 2 50 20
  ++ Come Sweep :: go 3 301 100 2 ++ Come (Skip 1) :: go 4 301 110 30 ++ go 3 301 200 10.

Definition after (l : list move) : sys := default (mkSys ∅ empty_chat []) (play l (mkSys ∅ empty_chat [])).

Lemma after_reached l : match play l (mkSys ∅ empty_chat []) with Some _ => true | None => false end = true ->
  rtc step (mkSys ∅ empty_chat []) (after l).
Proof. unfold after. destruct (play l _) as [s|] eqn:E; [|done]. intros _. by apply play_steps in E. Qed.

(** 2 and 1 are paired; the sweeper has read that the pair is over when 1 skips
    and is paired with 3; then the sweeper ends the first pair, and with it
    forgets the second: 1 is in a pair and can queue for another. *)
Lemma end_forgets_new_pair :
  exists s id p dl, rtc step (mkSys ∅ empty_chat []) s /\ pairs (keys s) !! id = Some (p, dl) /\ seconds 301 < expires_at p /\
    uin_b p = 1 /\ pair_by_uin (keys s) !! 1 = None.
Proof.
  exists (after race_of_ends), "122"%string, (mkRPair 3 1 (seconds 301) (seconds 601)), (seconds 661).
  split; [apply after_reached; vm_compute; reflexivity|]. vm_compute. repeat split; reflexivity.
Qed.

(** Two come at once and both wait; then 1 asks twice at once. *)
Definition race_of_queues : list move :=
  Come (Queue 2) :: Come (Queue 3) :: go 0 0 0 5 ++ go 1 0 10 5 ++ go 0 0 20 5 ++ go 1 0 30 5
  ++ Come (Queue 1) :: Come (Queue 1) :: go 2 1 100 4 ++ go 3 1 110 4 ++ go 2 1 120 20 ++ go 3 1 150 20.

(** One person in two pairs, neither over. *)
Lemma queued_twice_paired_twice :
  exists s id id' p p' dl dl', rtc step (mkSys ∅ empty_chat []) s /\ id <> id' /\
    pairs (keys s) !! id = Some (p, dl) /\ pairs (keys s) !! id' = Some (p', dl') /\
    seconds 1 < expires_at p /\ seconds 1 < expires_at p' /\ uin_b p = 1 /\ uin_b p' = 1.
Proof.
  exists (after race_of_queues), "124"%string, "154"%string, (mkRPair 2 1 (seconds 1) (seconds 301)), (mkRPair 3 1 (seconds 1) (seconds 301)), (seconds 361), (seconds 361).
  split; [apply after_reached; vm_compute; reflexivity|]. split; [discriminate|]. vm_compute. repeat split; reflexivity.
Qed.

(** ** Examples *)

Definition two_meet : list (world * request) := [(at_ 0 0, Queue 2); (at_ 1 1, Queue 1)].
Definition two_met : chat := foldl serve empty_chat two_meet.

Example they_met : pair_by_uin two_met !! 1 = Some "1"%string /\ pair_by_uin two_met !! 2 = Some "1"%string /\
  pairs two_met !! "1"%string = Some (mkRPair 2 1 (seconds 1) (seconds 301), seconds 361).
Proof. vm_compute. done. Qed.

Lemma two_met_wf : chat_wf (seconds 1) two_met.
Proof.
  apply (serve_wf (at_ 1 1)); [|vm_compute; reflexivity]. apply (chat_wf_later (seconds 0)); [vm_compute; discriminate|].
  apply (serve_wf (at_ 0 0)); [apply chat_wf_empty|vm_compute; reflexivity].
Qed.

Lemma two_met_pairs id p dl : pairs two_met !! id = Some (p, dl) -> id = "1"%string /\ dl = seconds 361.
Proof.
  replace (pairs two_met) with ({[ "1"%string := (mkRPair 2 1 (seconds 1) (seconds 301), seconds 361) ]} : gmap string (RPair * Z)) by (vm_compute; reflexivity).
  intros [<- E]%lookup_singleton_Some. by injection E as <- <-.
Qed.

Lemma chat_wf_run_witness : exists t', 0 <= t' /\ chat_wf t' two_met.
Proof.
  apply (chat_wf_run two_meet 0 empty_chat); [apply chat_wf_empty|]. vm_compute. repeat split; discriminate.
Defined.

Lemma index_sound_witness :
  exists p dl, pairs (keys (after race_of_queues)) !! "154"%string = Some (p, dl) /\ side 1 p /\ uin_a p <> uin_b p /\
    dl = expires_at p + seconds 60 /\ active_pairs (keys (after race_of_queues)) !! "154"%string = Some (expires_at p).
Proof.
  apply (index_sound (after race_of_queues) 1 "154"); [apply after_reached; vm_compute; reflexivity|vm_compute; reflexivity].
Defined.

Lemma match_reference_witness :
  run (at_ 1 1) (try_match 2 1 []) (set_waiting [2] empty_chat) =
  (Some (Some ("1"%string, new_pair (at_ 1 1) 2 1)),
   store_pair "1" (new_pair (at_ 1 1) 2 1) (seconds 361) empty_chat, []).
Proof. rewrite (match_reference (at_ 1 1) 1 (set_waiting [2] empty_chat) 2); [vm_compute; reflexivity|simpl; lia]. Defined.

Lemma queue_answer_witness :
  (run (at_ 1 1) (queue 2 1) (set_waiting [2] empty_chat)).1.1 = Ok (Matched "1" (fetch_peer adults 2) (seconds 301)).
Proof. rewrite (queue_answer (at_ 1 1) 1 (set_waiting [2] empty_chat) 2); [vm_compute; reflexivity|simpl; lia]. Defined.

Lemma sweep_frees_witness : pair_by_uin (run (at_ 320 9) expire_sweep two_met).1.2 !! 1 = None.
Proof.
  assert (Hw : chat_wf (seconds 320) two_met) by (eapply chat_wf_later; [|exact two_met_wf]; vm_compute; discriminate).
  assert (Ht : in_time (seconds 320) two_met) by (intros id p dl [_ ->]%two_met_pairs; reflexivity).
  pose proof (sweep_frees (at_ 320 9) two_met Hw Ht) as H.
  destruct (run (at_ 320 9) expire_sweep two_met) as [[a c'] fr].
  apply (H "1"%string (mkRPair 2 1 (seconds 1) (seconds 301)) (seconds 361)). vm_compute. reflexivity.
Defined.

Lemma late_sweep_strands_witness :
  pair_by_uin (foldl serve two_met [(at_ 400 9, Sweep); (at_ 401 10, Leave 1)]) !! 1 = Some "1"%string /\
  forall w n, exists e, (run w (queue n 1) (foldl serve two_met [(at_ 400 9, Sweep); (at_ 401 10, Leave 1)])).1.1 = Raise e.
Proof.
  apply (late_sweep_strands [(at_ 400 9, Sweep); (at_ 401 10, Leave 1)] (seconds 361)).
  - eapply chat_wf_later; [|exact two_met_wf]. vm_compute. discriminate.
  - split; [vm_compute; reflexivity|]. exists (mkRPair 2 1 (seconds 1) (seconds 301)), (seconds 361). vm_compute. split; [reflexivity|discriminate].
  - vm_compute. repeat split; discriminate.
  - intros w Hin. apply elem_of_cons in Hin as [H|Hin]; [discriminate|]. apply elem_of_cons in Hin as [H|Hin]; [discriminate|]. by apply elem_of_nil in Hin.
Defined.

Lemma lock_lapses_witness :
  (expire_turn (seconds 30) "w1" true (expire_turn 0 "w1" false (∅ : store)).2).1 = mkTurn false false 0.
Proof.
  apply (lock_lapses 0 (seconds 30) "w1" false (∅ : store) (expire_turn 0 "w1" false (∅ : store)).2); reflexivity.
Defined.
