(* ===== verification/Link.v ===== *)
(** * The relay of a linked web session

    [src/app/routers/link.py]: a blob sealed to a browser waits two minutes under
    the token of its QR code, and is deleted when it is read.  [collect] reads and
    deletes in two commands, so it is split where another request may come in.
    Characters of a token above 255 are not modelled. *)

From stdpp Require Import base list gmap strings pretty.
From Stdlib Require Import ZArith Lia Ascii.
From S2P Require Import Prelude Text Redis KeyProof.

Definition TTL_SECONDS : Z := 120.
Definition LINK_MAX_BLOB_B64 : Z := 8192.

Definition link_key (token : string) : string := ("link:" ++ token)%string.

Definition valid_token (token : string) : bool :=
  (32 <=? String.length token)%nat && (String.length token <=? 128)%nat
  && all_chars (fun c => is_alnum c || Ascii.eqb c "-" || Ascii.eqb c "_") token.

(** [DepositIn] *)
Definition blob_valid (blob : string) : bool :=
  (1 <=? Z.of_nat (String.length blob)) && (Z.of_nat (String.length blob) <=? LINK_MAX_BLOB_B64).

Section relay.
Context {R : Type} `{RR : Redis R}.

Definition link_deposit (now : Z) (token blob : string) (r : R) : outcome unit * R :=
  if negb (blob_valid blob) then (Raise (HTTPException 422 "blob"), r)
  else if negb (valid_token token) then (Raise (HTTPException 400 "bad_token"), r)
  else
    let '(ok, r) := set_nx now (link_key token) blob (Some TTL_SECONDS) r in
    (if (ok : bool) then Ok tt else Raise (HTTPException 409 "slot_taken"), r).

(** [collect] up to the blob, and what follows for the caller who got one. *)
Definition collect_read (now : Z) (token : string) (r : R) : outcome string :=
  if negb (valid_token token) then Raise (HTTPException 400 "bad_token")
  else match rget now (link_key token) r with
       | None => Raise (HTTPException 404 "empty")
       | Some blob => Ok blob
       end.
Definition collect_delete (now : Z) (token : string) (r : R) : R := del now (link_key token) r.

Definition link_collect (now : Z) (token : string) (r : R) : outcome string * R :=
  match collect_read now token r with
  | Ok blob => (Ok blob, collect_delete now token r)
  | Raise e => (Raise e, r)
  end.
End relay.

(** ** What the relay promises *)

Section promises.
Context {R : Type} `{RR : Redis R} {HR : RedisLaws R}.

Lemma deposited t token blob (r r1 : R) : link_deposit t token blob r = (Ok tt, r1) ->
  valid_token token = true /\ peek t (link_key token) r1 = Some (VStr blob, Some (t + seconds TTL_SECONDS)).
Proof using HR.
  unfold link_deposit. destruct (blob_valid blob); [|done]. destruct (valid_token token); [|done]. cbn [negb]. intros H. split; [done|].
  pose proof (set_nx_spec t (link_key token) blob (Some TTL_SECONDS) r) as Hs.
  destruct (set_nx t (link_key token) blob (Some TTL_SECONDS) r) as [[] r']; [|done]. injection H as <-.
  destruct (peek t (link_key token) r); destruct Hs as [Hok Hs]; [done|]. cbn [snd] in Hs. rewrite (touches_same _ _ _ _ _ Hs). simpl.
  rewrite (proj2 (Z.leb_gt _ t)); [done|]. unfold TTL_SECONDS, seconds, usec_per_sec. lia.
Qed.

(** a deposited blob is what the browser collects within two minutes, and
    nothing else can be put under its token until then; once it is collected,
    or when the two minutes are over, the token is empty. *)
Theorem link_relay (t t' : Z) (token blob other : string) (r r1 r2 : R) :
  link_deposit t token blob r = (Ok tt, r1) -> t <= t' -> peek t (link_key token) r2 = peek t (link_key token) r1 ->
  if t' <? t + seconds TTL_SECONDS then
    (link_collect t' token r2).1 = Ok blob /\
    (forall e, (link_deposit t' token other r2).1 <> Ok e) /\
    (link_collect t' token (link_collect t' token r2).2).1 = Raise (HTTPException 404 "empty")
  else (link_collect t' token r2).1 = Raise (HTTPException 404 "empty").
Proof using HR.
  intros Hd Ht Hk. apply deposited in Hd as [Hv Hp]. rewrite <-Hk in Hp.
  pose proof (peek_later t t' (link_key token) r2 Ht) as Hl. rewrite Hp in Hl. simpl in Hl.
  pose proof (rget_spec t' (link_key token) r2) as Hg. rewrite Hl in Hg.
  destruct (Z.ltb_spec t' (t + seconds TTL_SECONDS)) as [Hlt|Hge].
  - rewrite (proj2 (Z.leb_gt _ _)) in Hl, Hg by done. unfold link_collect, collect_read. rewrite Hv, Hg. cbn [negb fst snd].
    split; [done|]. split.
    + intros e. unfold link_deposit. destruct (blob_valid other); [|done]. rewrite Hv. cbn [negb].
      pose proof (set_nx_spec t' (link_key token) other (Some TTL_SECONDS) r2) as Hs. rewrite Hl in Hs.
      destruct (set_nx t' (link_key token) other (Some TTL_SECONDS) r2) as [ok r']. destruct Hs as [Hok _]. simpl in Hok. by subst ok.
    + pose proof (rget_spec t' (link_key token) (collect_delete t' token r2)) as Hg'.
      unfold collect_delete in *. rewrite (touches_same _ _ _ _ _ (del_spec t' (link_key token) r2)) in Hg'. by rewrite Hg'.
  - rewrite (proj2 (Z.leb_le _ _)) in Hg by done. unfold link_collect, collect_read. by rewrite Hv, Hg.
Qed.

(** Two collectors that both read before either deletes both get the blob. *)
Lemma collected_twice t token blob (r r1 : R) : link_deposit t token blob r = (Ok tt, r1) ->
  collect_read t token r1 = Ok blob /\ collect_read t token r1 = Ok blob /\
  collect_read t token (collect_delete t token (collect_delete t token r1)) = Raise (HTTPException 404 "empty").
Proof using HR.
  intros Hd. apply deposited in Hd as [Hv Hp]. pose proof (rget_spec t (link_key token) r1) as Hg. rewrite Hp in Hg.
  unfold collect_read. rewrite Hv, Hg. split; [done|]. split; [done|]. cbn [negb].
  pose proof (rget_spec t (link_key token) (collect_delete t token (collect_delete t token r1))) as Hg'. unfold collect_delete in *.
  rewrite (touches_same _ _ _ _ _ (del_spec t (link_key token) _)) in Hg'. by rewrite Hg'.
Qed.
End promises.

Definition some_token : string := "abcdefghijklmnopqrstuvwxyz-_0123".

Lemma link_relay_witness :
  (link_collect (seconds 5) some_token (link_deposit 0 some_token "c2VhbGVk" (∅ : store)).2).1 = Ok "c2VhbGVk"%string.
Proof.
  apply (link_relay 0 (seconds 5) some_token "c2VhbGVk" "b3RoZXI=" (∅ : store) (link_deposit 0 some_token "c2VhbGVk" (∅ : store)).2);
    [vm_compute; reflexivity|vm_compute; discriminate|reflexivity].
Defined.
