(* ===== verification/Reports.v ===== *)
(** * Reports

    [src/app/routers/reports.py], the operator's routes on reports in
    [src/app/routers/admin.py], [src/app/services/report_sweep.py],
    [src/app/services/evidence_sweep.py] and the tally of
    [src/app/services/hof_stats.py].

    [desk] is the two tables with the files they name: [evidence] the names under
    the evidence directory, [media] the encrypted blobs.  The JSON column
    [attachments] is a list, as both write paths store it.  Inputs of a request:
    whether the island takes reports, whether the caller is a guest
    ([GuestPolicy.is_guest]), the random file name.  Horizons and batch sizes are
    the defaults of the environment switches; dry runs and the limits declared on
    the routes that add and edit are left out. *)

From stdpp Require Import base list gmap strings pretty.
From Stdlib Require Import ZArith Lia QArith Ascii.
From S2P Require Import Prelude Text Redis RateLimit Users.
#[local] Open Scope Z_scope.

(** ** Tables *)

Record Attachment := mkAttachment { at_media_id : string; at_key : string; at_mime : string; at_size : Z }.

Record Report := mkReport {
  rp_reporter : Z;
  rp_target : Z;
  rp_reason : string;
  rp_context : string;
  rp_status : string;
  rp_evidence_path : option string;
  rp_evidence_mime : option string;
  rp_message_id : option string;
  rp_attachments : option (list Attachment);
  rp_action : string;
  rp_notes : string;
  rp_reply : string;
  rp_replied_at : option Z;
  rp_hidden_at : option Z;
  rp_edited_at : option Z;
  rp_created_at : Z;
  rp_resolved_at : option Z
}.

Record ReportMessage := mkTurnRow {
  tm_id : Z;
  tm_report : Z;
  tm_from_admin : bool;
  tm_author : Z;
  tm_body : string;
  tm_attachments : option (list Attachment);
  tm_created_at : Z
}.

(** [reports] by its primary key. *)
Record desk := mkDesk {
  reports : gmap Z Report;
  next_report : Z;
  turns : list ReportMessage;
  next_turn : Z;
  evidence : gset string;
  media : gset string
}.

Definition set_reports (f : gmap Z Report -> gmap Z Report) (d : desk) : desk :=
  mkDesk (f (reports d)) (next_report d) (turns d) (next_turn d) (evidence d) (media d).
Definition put_report (id : Z) (r : Report) : desk -> desk := set_reports (insert id r).

Definition add_report (r : Report) (d : desk) : Z * desk :=
  (next_report d, mkDesk (<[next_report d := r]> (reports d)) (next_report d + 1) (turns d) (next_turn d) (evidence d) (media d)).
Definition add_turn (report_id : Z) (from_admin : bool) (author : Z) (body : string) (atts : option (list Attachment)) (now : Z) (d : desk)
    : ReportMessage * desk :=
  let m := mkTurnRow (next_turn d) report_id from_admin author body atts now in
  (m, mkDesk (reports d) (next_report d) (turns d ++ [m]) (next_turn d + 1) (evidence d) (media d)).

(** ** Filing *)

Definition GUEST_REPORTS_PER_DAY : Z := 5.
Definition MAX_REASON_LEN : Z := 1000.
Definition MAX_CONTEXT_LEN : Z := 320.
Definition ABUSE_REPORTS_PER_HOUR : Z := 5.
Definition BUG_REPORTS_PER_HOUR : Z := 20.
Definition MAX_EVIDENCE_BYTES : Z := 25 * 1024 * 1024.
Definition MAX_ATTACHMENTS_PER_REPORT : nat := 3.
Definition CRASH_MARKER : string := "[CRASH]".
Definition BUG_CONTEXT : string := "bug_bounty".

(** The suffix of a stored evidence file, for the types that are taken. *)
Definition evidence_ext (mime : string) : option string :=
  snd <$> find_first (fun e : string * string => String.eqb e.1 mime)
    [("image/jpeg", ".jpg"); ("image/png", ".png"); ("image/heic", ".heic"); ("image/heif", ".heif"); ("image/webp", ".webp");
     ("video/mp4", ".mp4"); ("video/quicktime", ".mov"); ("video/x-m4v", ".m4v")]%string.

Definition len (s : string) : Z := Z.of_nat (String.length s).

Record CreateReportIn := mkCreate { cr_target : Z; cr_reason : string; cr_context : string; cr_attachments : list Attachment }.

Definition attachment_valid (a : Attachment) : bool :=
  (1 <=? len (at_media_id a)) && (len (at_media_id a) <=? 64) && (1 <=? len (at_key a)) && (len (at_key a) <=? 96)
  && (1 <=? len (at_mime a)) && (len (at_mime a) <=? 64) && (0 <=? at_size a).
Definition create_valid (b : CreateReportIn) : bool :=
  (0 <=? cr_target b) && (1 <=? len (cr_reason b)) && (len (cr_reason b) <=? MAX_REASON_LEN)
  && (len (cr_context b) <=? MAX_CONTEXT_LEN) && forallb attachment_valid (cr_attachments b).

Definition CreateReportOut : Type := Z * Z.

Definition filed (now uin target : Z) (reason context : string) (path mime msg : option string) (atts : option (list Attachment)) : Report :=
  mkReport uin target reason context "open" path mime msg atts "" "" "" None None None now None.

Section filing.
Context {R : Type} `{RR : Redis R} (num : Z -> string) (hmac_hex : string -> string -> string) (secret : string).

(** [_guest_report_budget] *)
Definition guest_report_budget (up guest : bool) (now uin : Z) (s : limiter R) : outcome unit * limiter R :=
  if guest then enforce_rate_limit num hmac_hex secret up now ("uin:" ++ pretty uin) "guest_report" GUEST_REPORTS_PER_DAY 86400 true s
  else (Ok tt, s).

(** The checks of [create_report] after the budgets, and the attachments kept. *)
Definition create_checks (uin : Z) (b : CreateReportIn) : outcome (option (list Attachment)) :=
  let ctx := cr_context b in
  if (cr_target b =? 0) && negb (is_prefix "site:" ctx || is_prefix "group:" ctx) then Raise (HTTPException 422 "target_required")
  else if (cr_target b =? uin) && negb (String.eqb ctx BUG_CONTEXT) then Raise (HTTPException 400 "cannot report yourself")
  else if String.eqb ctx BUG_CONTEXT && negb (bool_decide (cr_attachments b = [])) then
    if (MAX_ATTACHMENTS_PER_REPORT <? length (cr_attachments b))%nat then Raise (HTTPException 400 "too_many_attachments")
    else Ok (Some (cr_attachments b))
  else Ok None.

Definition create_report (reports_open up guest : bool) (now uin : Z) (b : CreateReportIn) (s : limiter R) (d : desk)
    : outcome CreateReportOut * limiter R * desk :=
  if negb reports_open then (Raise (HTTPException 403 "reports_disabled"), s, d)
  else if negb (create_valid b) then (Raise (HTTPException 422 "body"), s, d)
  else
    let bug := String.eqb (cr_context b) BUG_CONTEXT in
    match enforce_rate_limit num hmac_hex secret up now ("uin:" ++ pretty uin) (if bug then "reports_bug" else "reports_create")
            (if bug then BUG_REPORTS_PER_HOUR else ABUSE_REPORTS_PER_HOUR) 3600 false s with
    | (Raise e, s) => (Raise e, s, d)
    | (Ok _, s) =>
        match guest_report_budget up guest now uin s with
        | (Raise e, s) => (Raise e, s, d)
        | (Ok _, s) =>
            match create_checks uin b with
            | Raise e => (Raise e, s, d)
            | Ok atts =>
                let '(id, d) := add_report (filed now uin (cr_target b) (strip (cr_reason b)) (strip (cr_context b)) None None None atts) d in
                (Ok (id, now), s, d)
            end
        end
    end.

Record EvidenceIn := mkEvidenceIn {
  ev_target : Z; ev_reason : string; ev_context : string; ev_message_id : string; ev_consent : bool;
  ev_mime : option string; ev_chunks : list Z   (* the sizes read, 64 KB at most each *)
}.

(** The loop over the chunks: the bytes read, or the refusal. *)
Fixpoint read_chunks (total : Z) (chunks : list Z) : outcome Z :=
  match chunks with
  | [] => Ok total
  | c :: cs => if c =? 0 then Ok total
               else if MAX_EVIDENCE_BYTES <? total + c then Raise (HTTPException 413 "evidence_too_large")
               else read_chunks (total + c) cs
  end.

Definition evidence_checks (uin : Z) (b : EvidenceIn) : outcome (string * string) :=
  if ev_target b =? uin then Raise (HTTPException 400 "cannot report yourself")
  else if negb (ev_consent b) then Raise (HTTPException 400 "consent_required")
  else if String.eqb (strip (ev_reason b)) "" || (MAX_REASON_LEN <? len (ev_reason b)) then Raise (HTTPException 400 "invalid reason length")
  else if MAX_CONTEXT_LEN <? len (ev_context b) then Raise (HTTPException 400 "context too long")
  else if 36 <? len (ev_message_id b) then Raise (HTTPException 400 "invalid message_id")
  else
    let mime := match ev_mime b with Some m => if String.eqb m "" then "application/octet-stream" else m | None => "application/octet-stream" end in
    match evidence_ext mime with
    | None => Raise (HTTPException 415 "unsupported_evidence_type")
    | Some ext =>
        let! total := read_chunks 0 (ev_chunks b) in
        if total =? 0 then Raise (HTTPException 400 "empty evidence") else Ok (mime, ext)
    end.

(** [disk]: the file could be written. *)
Definition create_report_with_evidence (reports_open up guest disk : bool) (now uin : Z) (file_id : string) (b : EvidenceIn)
    (s : limiter R) (d : desk) : outcome CreateReportOut * limiter R * desk :=
  if negb reports_open then (Raise (HTTPException 403 "reports_disabled"), s, d)
  else
    match rate_limit_dep num hmac_hex secret up now ("uin:" ++ pretty uin) "reports_create" ABUSE_REPORTS_PER_HOUR 3600 false s with
    | (Raise e, s) => (Raise e, s, d)
    | (Ok _, s) =>
        match guest_report_budget up guest now uin s with
        | (Raise e, s) => (Raise e, s, d)
        | (Ok _, s) =>
            match evidence_checks uin b with
            | Raise e => (Raise e, s, d)
            | Ok (mime, ext) =>
                if negb disk then (Raise (HTTPException 500 "evidence_write_failed"), s, d)
                else
                  let name := (file_id ++ ext)%string in
                  let d := mkDesk (reports d) (next_report d) (turns d) (next_turn d) ({[ name ]} ∪ evidence d) (media d) in
                  let ctx := strip (ev_context b) in
                  let '(id, d) := add_report (filed now uin (ev_target b) (strip (ev_reason b)) (if String.eqb ctx "" then "premium_media" else ctx)
                                                (Some name) (Some mime)
                                                (if String.eqb (ev_message_id b) "" then None else Some (ev_message_id b)) None) d in
                  (Ok (id, now), s, d)
            end
        end
    end.
End filing.

(** ** The reporter's own reports *)

Definition turns_of (id : Z) (d : desk) : list ReportMessage :=
  sort_by tm_created_at (List.filter (fun m => tm_report m =? id) (turns d)).

Definition removable (r : Report) : bool := negb (negb (rp_target r =? rp_reporter r) && String.eqb (rp_status r) "open").

Record ReportTurnOut := mkTurnOut { to_id : Z; to_from_admin : bool; to_body : string; to_created_at : Z; to_attachments : list Attachment }.
Definition turn_out (m : ReportMessage) : ReportTurnOut :=
  mkTurnOut (tm_id m) (tm_from_admin m) (tm_body m) (tm_created_at m) (default [] (tm_attachments m)).

Record MyReportOut := mkMyReport {
  mr_id : Z; mr_reason : string; mr_status : string; mr_created_at : Z; mr_edited_at : option Z; mr_reply : string;
  mr_replied_at : option Z; mr_thread : list ReportTurnOut; mr_attachments_allowed : bool; mr_attachments : list Attachment; mr_removable : bool
}.
Definition mine_out (id : Z) (r : Report) (d : desk) : MyReportOut :=
  mkMyReport id (rp_reason r) (rp_status r) (rp_created_at r) (rp_edited_at r) (rp_reply r) (rp_replied_at r)
    (map turn_out (turns_of id d)) (String.eqb (rp_context r) BUG_CONTEXT) (default [] (rp_attachments r)) (removable r).

Definition my_reports (uin : Z) (d : desk) : list MyReportOut :=
  map (fun kr : Z * Report => mine_out kr.1 kr.2 d)
    (take 50 (sort_by (fun kr : Z * Report => - rp_created_at kr.2)
       (List.filter (fun kr : Z * Report => (rp_reporter kr.2 =? uin) && negb (bool_decide (is_Some (rp_hidden_at kr.2))))
          (map_to_list (reports d))))).

(** [db.get(Report, id)] if it is the caller's and not dropped. *)
Definition shown_report (id uin : Z) (d : desk) : option Report :=
  match reports d !! id with
  | Some r => if (rp_reporter r =? uin) && negb (bool_decide (is_Some (rp_hidden_at r))) then Some r else None
  | None => None
  end.

Record AddTurnIn := mkAddTurn { ad_body : string; ad_attachments : list Attachment }.
Definition add_turn_valid (b : AddTurnIn) : bool :=
  (len (ad_body b) <=? 4000) && forallb attachment_valid (ad_attachments b)
  && negb (String.eqb (strip (ad_body b)) "" && bool_decide (ad_attachments b = [])).

Definition add_to_my_report (now uin id : Z) (b : AddTurnIn) (d : desk) : outcome ReportTurnOut * desk :=
  if negb (add_turn_valid b) then (Raise (HTTPException 422 "body"), d)
  else match shown_report id uin d with
  | None => (Raise (HTTPException 404 "no such report"), d)
  | Some r =>
      if negb (String.eqb (rp_status r) "open") then (Raise (HTTPException 409 "closed"), d)
      else if (MAX_ATTACHMENTS_PER_REPORT <? length (ad_attachments b))%nat then (Raise (HTTPException 400 "too_many_attachments"), d)
      else
        let keep := if String.eqb (rp_context r) BUG_CONTEXT then ad_attachments b else [] in
        if String.eqb (strip (ad_body b)) "" && bool_decide (keep = []) then (Raise (HTTPException 422 "empty_turn"), d)
        else
          let '(m, d) := add_turn id false uin (strip (ad_body b)) (if decide (keep = []) then None else Some keep) now d in
          (Ok (turn_out m), d)
  end.

Definition with_hidden (now : Z) (r : Report) : Report :=
  mkReport (rp_reporter r) (rp_target r) (rp_reason r) (rp_context r) (rp_status r) (rp_evidence_path r) (rp_evidence_mime r)
    (rp_message_id r) (rp_attachments r) (rp_action r) (rp_notes r) (rp_reply r) (rp_replied_at r) (Some now) (rp_edited_at r)
    (rp_created_at r) (rp_resolved_at r).

Definition delete_my_report (now uin id : Z) (d : desk) : outcome unit * desk :=
  match reports d !! id with
  | None => (Raise (HTTPException 404 "not_found"), d)
  | Some r =>
      if negb (rp_reporter r =? uin) then (Raise (HTTPException 404 "not_found"), d)
      else if negb (removable r) then (Raise (HTTPException 409 "under_review"), d)
      else (Ok tt, if bool_decide (is_Some (rp_hidden_at r)) then d else put_report id (with_hidden now r) d)
  end.

Definition with_reason (now : Z) (reason : string) (r : Report) : Report :=
  mkReport (rp_reporter r) (rp_target r) reason (rp_context r) (rp_status r) (rp_evidence_path r) (rp_evidence_mime r)
    (rp_message_id r) (rp_attachments r) (rp_action r) (rp_notes r) (rp_reply r) (rp_replied_at r) (rp_hidden_at r) (Some now)
    (rp_created_at r) (rp_resolved_at r).

Definition edit_valid (reason : string) : bool := (1 <=? len reason) && (len reason <=? MAX_REASON_LEN).

Definition answered (id : Z) (r : Report) (d : desk) : bool :=
  negb (String.eqb (strip (rp_reply r)) "") || existsb (fun m => (tm_report m =? id) && tm_from_admin m) (turns d).

Definition edit_my_report (now uin id : Z) (text : string) (d : desk) : outcome MyReportOut * desk :=
  if negb (edit_valid text) then (Raise (HTTPException 422 "body"), d)
  else match shown_report id uin d with
  | None => (Raise (HTTPException 404 "not_found"), d)
  | Some r =>
      if negb (String.eqb (rp_status r) "open") then (Raise (HTTPException 409 "closed"), d)
      else if answered id r d then (Raise (HTTPException 409 "already_answered"), d)
      else
        let reason := strip text in
        if String.eqb reason "" then (Raise (HTTPException 400 "invalid reason length"), d)
        else if contains CRASH_MARKER reason || contains CRASH_MARKER (rp_reason r) then (Raise (HTTPException 400 "not_editable"), d)
        else
          let r := with_reason now reason r in
          let d := put_report id r d in (Ok (mine_out id r d), d)
  end.

(** ** The operator *)

Inductive report_kind := KAll | KCrash | KBug | KAbuse | KUser.

Definition is_bug (r : Report) : bool := String.eqb (rp_context r) BUG_CONTEXT.

(** [Report.reason.contains(CRASH_MARKER)] is a LIKE of the database: Postgres
    compares letters as they are, SQLite folds the case of ASCII letters.  The
    [in] of Python compares them as they are. *)
Definition fold_case (c : ascii) : ascii :=
  let n := Z.of_nat (nat_of_ascii c) in
  if (65 <=? n) && (n <=? 90) then ascii_of_nat (Z.to_nat (n + 32)) else c.
Fixpoint fold_text (s : string) : string :=
  match s with EmptyString => EmptyString | String c s => String (fold_case c) (fold_text s) end.
Definition sql_contains (postgres : bool) (s a : string) : bool :=
  if postgres then contains a s else contains (fold_text a) (fold_text s).

Definition is_crash (postgres : bool) (r : Report) : bool := sql_contains postgres (rp_reason r) CRASH_MARKER.
Definition of_kind (postgres : bool) (k : report_kind) (r : Report) : bool :=
  match k with
  | KAll => true
  | KCrash => is_crash postgres r
  | KBug => negb (is_crash postgres r) && is_bug r
  | KAbuse => negb (is_crash postgres r) && negb (is_bug r)
  | KUser => negb (is_crash postgres r)
  end.

(** The rows of the queue, and how many are open, crashes apart. *)
Definition list_reports (postgres : bool) (status_filter : string) (k : report_kind) (limit : nat) (d : desk) : list (Z * Report) * Z * Z :=
  let open_rows := List.filter (fun kr : Z * Report => String.eqb (rp_status kr.2) "open") (map_to_list (reports d)) in
  let crashes := Z.of_nat (length (List.filter (fun kr : Z * Report => is_crash postgres kr.2) open_rows)) in
  (take limit (sort_by (fun kr : Z * Report => - rp_created_at kr.2)
     (List.filter (fun kr : Z * Report => (String.eqb status_filter "all" || String.eqb (rp_status kr.2) status_filter) && of_kind postgres k kr.2)
        (map_to_list (reports d)))),
   Z.of_nat (length open_rows) - crashes, crashes).

Definition with_verdict (status_ action notes : string) (at_ : option Z) (r : Report) : Report :=
  mkReport (rp_reporter r) (rp_target r) (rp_reason r) (rp_context r) status_ (rp_evidence_path r) (rp_evidence_mime r)
    (rp_message_id r) (rp_attachments r) action notes (rp_reply r) (rp_replied_at r) (rp_hidden_at r) (rp_edited_at r)
    (rp_created_at r) at_.

Definition verdict_status (action : string) : string :=
  if String.eqb action "duplicate" then "duplicate"
  else if bool_decide (action ∈ ["no_action"; "rejected"; "dismissed"]%string) then "dismissed" else "resolved".

(** The report after the verdict, and the account that is suspended. *)
Definition resolve_report (now : Z) (known : Z -> bool) (id : Z) (action_ notes_ : string) (ban_target : bool) (d : desk)
    : outcome (Report * option Z) * desk :=
  match reports d !! id with
  | None => (Raise (HTTPException 404 "no such report"), d)
  | Some r =>
      let action := lower (strip action_) in
      if bool_decide (action ∈ ["reopen"; "open"; "reopened"]%string) then
        let r := with_verdict "open" "" (strip notes_) None r in (Ok (r, None), put_report id r d)
      else
        let r := with_verdict (verdict_status action) action (strip notes_) (Some now) r in
        (Ok (r, if ban_target && known (rp_target r) then Some (rp_target r) else None), put_report id r d)
  end.

Definition with_reply (text : string) (at_ : option Z) (r : Report) : Report :=
  mkReport (rp_reporter r) (rp_target r) (rp_reason r) (rp_context r) (rp_status r) (rp_evidence_path r) (rp_evidence_mime r)
    (rp_message_id r) (rp_attachments r) (rp_action r) (rp_notes r) text at_ (rp_hidden_at r) (rp_edited_at r)
    (rp_created_at r) (rp_resolved_at r).

(** Whom the doorbell rings for. *)
Definition reply_to_report (now id : Z) (text : string) (d : desk) : outcome Z * desk :=
  match reports d !! id with
  | None => (Raise (HTTPException 404 "no such report"), d)
  | Some r =>
      let '(_, d) := add_turn id true 0 (strip text) None now (put_report id (with_reply (strip text) (Some now) r) d) in
      (Ok (rp_reporter r), d)
  end.

Definition with_body (body : string) (m : ReportMessage) : ReportMessage :=
  mkTurnRow (tm_id m) (tm_report m) (tm_from_admin m) (tm_author m) body (tm_attachments m) (tm_created_at m).

Definition edit_admin_turn (id message_id : Z) (body : string) (d : desk) : outcome unit * desk :=
  match reports d !! id with
  | None => (Raise (HTTPException 404 "no such report"), d)
  | Some r =>
      match find_first (fun m => tm_id m =? message_id) (turns d) with
      | None => (Raise (HTTPException 404 "no such message"), d)
      | Some m =>
          if negb (tm_report m =? id) then (Raise (HTTPException 404 "no such message"), d)
          else if negb (tm_from_admin m) then (Raise (HTTPException 403 "not_ours"), d)
          else
            let ts := map (fun x => if tm_id x =? message_id then with_body (strip body) x else x) (turns d) in
            let d := mkDesk (reports d) (next_report d) ts (next_turn d) (evidence d) (media d) in
            let last_admin := last (List.filter tm_from_admin (turns_of id d)) in
            (Ok tt, if bool_decide (tm_id <$> last_admin = Some message_id)
                    then put_report id (with_reply (strip body) (rp_replied_at r) r) d else d)
      end
  end.

(** The file a moderator looks at. *)
Definition get_report_evidence (id : Z) (d : desk) : outcome string :=
  match reports d !! id with
  | Some r => match rp_evidence_path r with
              | Some p => if bool_decide (p ∈ evidence d) then Ok p else Raise (HTTPException 404 "evidence file is gone")
              | None => Raise (HTTPException 404 "no evidence for this report")
              end
  | None => Raise (HTTPException 404 "no evidence for this report")
  end.

(** ** Retention *)

Definition EVIDENCE_MAX_AGE_DAYS : Z := 30.
Definition EVIDENCE_RESOLVED_GRACE_HOURS : Z := 48.

Definition older (cutoff : Z) (t : option Z) : bool := match t with Some t => t <? cutoff | None => false end.

Definition evidence_due (now : Z) (r : Report) : bool :=
  bool_decide (is_Some (rp_evidence_path r))
  && ((rp_created_at r <? now - days EVIDENCE_MAX_AGE_DAYS)
      || (negb (String.eqb (rp_status r) "open") && older (now - hours EVIDENCE_RESOLVED_GRACE_HOURS) (rp_resolved_at r))).

Definition without_evidence (r : Report) : Report :=
  mkReport (rp_reporter r) (rp_target r) (rp_reason r) (rp_context r) (rp_status r) None None
    (rp_message_id r) (rp_attachments r) (rp_action r) (rp_notes r) (rp_reply r) (rp_replied_at r) (rp_hidden_at r) (rp_edited_at r)
    (rp_created_at r) (rp_resolved_at r).

(** [stuck]: the files the disk does not let go of. *)
Definition evidence_sweep (now : Z) (stuck : gset string) (d : desk) : nat * desk :=
  let due := filter (fun kr => evidence_due now kr.2 = true) (reports d) in
  (size due,
   mkDesk (fmap (fun r => if evidence_due now r then without_evidence r else r) (reports d)) (next_report d) (turns d) (next_turn d)
     (filter (fun f => f ∈ stuck \/ Forall (fun kr : Z * Report => rp_evidence_path kr.2 <> Some f) (map_to_list due)) (evidence d)) (media d)).

Definition RESOLVED_MAX_AGE_DAYS : Z := 90.
Definition MAX_PER_CYCLE : nat := 500.
Definition REDACTED_REASON : string := "(this closed report was cleared by the island's retention policy)".
Definition REDACTED_REASON_CRASH : string := "[CRASH] " ++ REDACTED_REASON.

Definition already_redacted (r : Report) : bool := String.eqb (rp_reason r) REDACTED_REASON || String.eqb (rp_reason r) REDACTED_REASON_CRASH.

(** The WHERE of the pass. *)
Definition report_due (now : Z) (r : Report) : bool :=
  let cutoff := now - days RESOLVED_MAX_AGE_DAYS in
  ((negb (String.eqb (rp_status r) "open") && older cutoff (rp_resolved_at r)) || older cutoff (rp_hidden_at r))
  && negb (already_redacted r).

Definition started (r : Report) : Z :=
  match rp_resolved_at r with Some t => t | None => default 0 (rp_hidden_at r) end.

Definition redact (r : Report) : Report :=
  mkReport (rp_reporter r) (rp_target r) (if contains CRASH_MARKER (rp_reason r) then REDACTED_REASON_CRASH else REDACTED_REASON)
    (rp_context r) (rp_status r) None None None None "" "" "" None (rp_hidden_at r) None (rp_created_at r) (rp_resolved_at r).

(** The blobs of a report's attachments; [blob_name]: the file of a media id. *)
Definition unlink_blobs (blob_name : string -> string) (atts : option (list Attachment)) (m : gset string) : gset string :=
  m ∖ list_to_set (map (fun a => blob_name (at_media_id a)) (default [] atts)).

Definition sweep_one (blob_name : string -> string) (kr : Z * Report) (d : desk) : desk :=
  let '(id, r) := kr in
  mkDesk (if is_bug r then <[id := redact r]> (reports d) else delete id (reports d)) (next_report d)
    (List.filter (fun m => negb (tm_report m =? id)) (turns d)) (next_turn d) (evidence d)
    (unlink_blobs blob_name (rp_attachments r) (media d)).

Definition swept_reports (now : Z) (d : desk) : list (Z * Report) :=
  take MAX_PER_CYCLE (sort_by (fun kr : Z * Report => started kr.2)
    (List.filter (fun kr : Z * Report => report_due now kr.2) (map_to_list (reports d)))).

Definition report_sweep (blob_name : string -> string) (now : Z) (d : desk) : desk :=
  foldl (fun d kr => sweep_one blob_name kr d) d (swept_reports now d).

(** ** The wall of fame *)

Definition counts (postgres : bool) (r : Report) : bool := is_bug r && negb (is_crash postgres r).

(** Reports filed and confirmed, before the founder's bonus. *)
Definition bug_report_stats (postgres : bool) (uin : Z) (d : desk) : Z * Z :=
  let rows := List.filter (fun kr : Z * Report => (rp_reporter kr.2 =? uin) && counts postgres kr.2) (map_to_list (reports d)) in
  (Z.of_nat (length rows), Z.of_nat (length (List.filter (fun kr : Z * Report => String.eqb (rp_status kr.2) "resolved") rows))).

Definition HOF_EFFORT_TARGET : Z := 8.
Definition effort_score (confirmed : Z) : Q := if HOF_EFFORT_TARGET <=? confirmed then 1 else inject_Z confirmed / inject_Z HOF_EFFORT_TARGET.
Definition podium_score (reports_ confirmed : Z) : Q :=
  if (confirmed <=? 0) || (reports_ <=? 0) then 0 else inject_Z (confirmed * confirmed) / inject_Z reports_.

Definition empty_desk : desk := mkDesk ∅ 1 [] 1 ∅ ∅.
