(* ===== verification/ReportsFacts.v ===== *)
(** * Reports: what is counted, kept and forgotten

    The tables stay in order under every request and sweep ([desk_wf_run]); what
    somebody filed counts for good, and what was confirmed changes by a verdict
    only, where the database finds the crash marker as Python does
    ([tally_kept], and [small_letters_counted_later] where not); the sweep deletes or redacts exactly the reports whose
    time is over ([report_sweep_exact]) and drains any backlog ([sweep_backlog]);
    other people's reports cannot be told from none ([foreign_report_silent]). *)

From stdpp Require Import base list gmap strings pretty.
From Stdlib Require Import ZArith Lia QArith.
From S2P Require Import Prelude Text Redis RateLimit Users Reports.
#[local] Open Scope Z_scope.

(** ** Counting rows *)

Definition cnt (p : Report -> bool) (m : gmap Z Report) : nat :=
  length (List.filter (fun kr : Z * Report => p kr.2) (map_to_list m)).

Lemma filter_perm {A} (p : A -> bool) l l' : l ≡ₚ l' -> length (List.filter p l) = length (List.filter p l').
Proof.
  intros H. induction H as [|x l l' H IH|x y l|l l' l'' H1 IH1 H2 IH2]; simpl; [done| | |lia].
  - destruct (p x); simpl; lia.
  - by destruct (p x), (p y).
Qed.

Lemma cnt_new p m k r : m !! k = None -> cnt p (<[k := r]> m) = ((if p r then 1 else 0) + cnt p m)%nat.
Proof. intros H. unfold cnt. rewrite (filter_perm _ _ _ (map_to_list_insert m k r H)). simpl. by destruct (p r). Qed.

Lemma cnt_delete p m k r : m !! k = Some r -> cnt p m = ((if p r then 1 else 0) + cnt p (delete k m))%nat.
Proof. intros H. rewrite <-(cnt_new p (delete k m) k r) by apply lookup_delete_eq. by rewrite insert_delete_id. Qed.

Lemma cnt_put p m k r r' : m !! k = Some r -> p r' = p r -> cnt p (<[k := r']> m) = cnt p m.
Proof.
  intros H E. rewrite (cnt_delete p m k r H), <-insert_delete_eq, cnt_new by apply lookup_delete_eq. by rewrite E.
Qed.

Lemma cnt_map p f m : (forall r, p (f r) = p r) -> cnt p (f <$> m) = cnt p m.
Proof.
  intros H. unfold cnt. rewrite map_to_list_fmap. induction (map_to_list m) as [|[k r] l IH]; [done|].
  cbn [fmap list_fmap List.filter prod_map snd]. rewrite H. destruct (p r); simpl; by rewrite IH.
Qed.

Lemma stats_cnt pg u d :
  bug_report_stats pg u d =
  (Z.of_nat (cnt (fun r => (rp_reporter r =? u) && counts pg r) (reports d)),
   Z.of_nat (cnt (fun r => (rp_reporter r =? u) && counts pg r && String.eqb (rp_status r) "resolved") (reports d))).
Proof.
  unfold bug_report_stats, cnt. f_equal. f_equal. induction (map_to_list (reports d)) as [|[k r] l IH]; [done|]. simpl.
  destruct ((rp_reporter r =? u) && counts pg r); simpl; [|done]. destruct (String.eqb _ _); simpl; by rewrite IH.
Qed.

(** ** Everything that happens at the desk *)

Section desk.
Context {R : Type} `{RR : Redis R} (num : Z -> string) (hmac_hex : string -> string -> string) (secret : string)
  (blob_name : string -> string).

Inductive devent :=
  | Create (reports_open up guest : bool) (now uin : Z) (b : CreateReportIn) (s : limiter R)
  | CreateEvidence (reports_open up guest disk : bool) (now uin : Z) (file_id : string) (b : EvidenceIn) (s : limiter R)
  | AddTurn (now uin id : Z) (b : AddTurnIn)
  | Drop (now uin id : Z)
  | Edit (now uin id : Z) (text : string)
  | Verdict (now : Z) (known : Z -> bool) (id : Z) (action notes : string) (ban : bool)
  | Reply (now id : Z) (text : string)
  | EditTurn (id message_id : Z) (body : string)
  | SweepEvidence (now : Z) (stuck : gset string)
  | SweepReports (now : Z).

Definition dapply (d : desk) (e : devent) : desk :=
  match e with
  | Create o up g now u b s => (create_report num hmac_hex secret o up g now u b s d).2
  | CreateEvidence o up g dk now u f b s => (create_report_with_evidence num hmac_hex secret o up g dk now u f b s d).2
  | AddTurn now u id b => (add_to_my_report now u id b d).2
  | Drop now u id => (delete_my_report now u id d).2
  | Edit now u id t => (edit_my_report now u id t d).2
  | Verdict now known id a n ban => (resolve_report now known id a n ban d).2
  | Reply now id t => (reply_to_report now id t d).2
  | EditTurn id m b => (edit_admin_turn id m b d).2
  | SweepEvidence now stuck => (evidence_sweep now stuck d).2
  | SweepReports now => report_sweep blob_name now d
  end.

(** What an event leaves of a row, what only a verdict changes, and what only an
    edit does. *)
Definition same_person (r r' : Report) : Prop :=
  rp_reporter r' = rp_reporter r /\ rp_target r' = rp_target r /\ rp_context r' = rp_context r.
Definition same_state (r r' : Report) : Prop := rp_status r' = rp_status r /\ rp_resolved_at r' = rp_resolved_at r.
Definition kept (r r' : Report) : Prop := same_state r r' /\ rp_reason r' = rp_reason r.
Definition edited (text : string) (r r' : Report) : Prop :=
  same_state r r' /\ rp_reason r' = text /\ contains CRASH_MARKER text = false /\ contains CRASH_MARKER (rp_reason r) = false.
Definition decided (r r' : Report) : Prop :=
  (rp_status r' = "open"%string <-> rp_resolved_at r' = None) /\ rp_reason r' = rp_reason r.

Definition rows_same (d d' : desk) : Prop := reports d' = reports d /\ next_report d' = next_report d.
Definition rows_new (u : Z) (d d' : desk) : Prop :=
  exists r, reports d' = <[next_report d := r]> (reports d) /\ next_report d' = next_report d + 1 /\ rp_reporter r = u /\
    rp_status r = "open"%string /\ rp_resolved_at r = None /\ rp_hidden_at r = None /\ (rp_target r = u -> is_bug r = true).
Definition rows_put (P : Report -> Report -> Prop) (d d' : desk) : Prop :=
  exists id r r', reports d !! id = Some r /\ reports d' = <[id := r']> (reports d) /\ next_report d' = next_report d /\ same_person r r' /\ P r r'.

(** A report as it is filed. *)
Definition fresh_row (u : Z) (r : Report) : Prop :=
  rp_reporter r = u /\ rp_status r = "open"%string /\ rp_resolved_at r = None /\ rp_hidden_at r = None /\ (rp_target r = u -> is_bug r = true).

Lemma create_shape o up g now u b s d :
  (create_report num hmac_hex secret o up g now u b s d).2 = d \/
  exists r, (create_report num hmac_hex secret o up g now u b s d).2 = (add_report r d).2 /\ fresh_row u r.
Proof.
  unfold create_report. destruct o; [|by left]. cbn [negb]. destruct (create_valid b); [|by left]. cbn [negb].
  destruct (enforce_rate_limit _ _ _ _ _ _ _ _ _ _) as [[x|e] s1]; [|by left].
  destruct (guest_report_budget _ _ _ _ _ _ _ _) as [[y|e] s2]; [|by left].
  destruct (create_checks u b) as [atts|e] eqn:Ec; [|by left]. right. eexists. split; [done|]. repeat split. simpl. intros Ht.
  unfold create_checks in Ec. rewrite Ht, Z.eqb_refl in Ec.
  destruct ((u =? 0) && _); [done|]. destruct (String.eqb_spec (cr_context b) BUG_CONTEXT) as [E|E]; [|done].
  unfold is_bug. simpl. rewrite E. reflexivity.
Qed.

Lemma evidence_shape o up g dk now u f b s d :
  (create_report_with_evidence num hmac_hex secret o up g dk now u f b s d).2 = d \/
  exists r fs, (create_report_with_evidence num hmac_hex secret o up g dk now u f b s d).2 =
    (add_report r (mkDesk (reports d) (next_report d) (turns d) (next_turn d) fs (media d))).2 /\ fresh_row u r.
Proof.
  unfold create_report_with_evidence. destruct o; [|by left]. cbn [negb].
  destruct (rate_limit_dep _ _ _ _ _ _ _ _ _ _) as [[x|e] s1]; [|by left].
  destruct (guest_report_budget _ _ _ _ _ _ _ _) as [[y|e] s2]; [|by left].
  destruct (evidence_checks u b) as [[mime ext]|e] eqn:Ec; [|by left]. destruct dk; [|by left].
  right. eexists _, _. split; [done|]. repeat split. simpl. intros Ht. unfold evidence_checks in Ec. by rewrite Ht, Z.eqb_refl in Ec.
Qed.

Lemma create_rows o up g now u b s d d' :
  (create_report num hmac_hex secret o up g now u b s d).2 = d' -> rows_same d d' \/ rows_new u d d'.
Proof.
  intros <-. destruct (create_shape o up g now u b s d) as [-> |(r & -> & Hr)]; [by left|]. right. exists r. by split; [|split].
Qed.

Lemma evidence_rows o up g dk now u f b s d d' :
  (create_report_with_evidence num hmac_hex secret o up g dk now u f b s d).2 = d' -> rows_same d d' \/ rows_new u d d'.
Proof.
  intros <-. destruct (evidence_shape o up g dk now u f b s d) as [-> |(r & fs & -> & Hr)]; [by left|]. right. exists r. by split; [|split].
Qed.

Lemma turn_rows now u id b d d' : (add_to_my_report now u id b d).2 = d' -> rows_same d d'.
Proof.
  unfold add_to_my_report. destruct (add_turn_valid b); [|by intros <-]. cbn [negb]. destruct (shown_report id u d) as [r|]; [|by intros <-].
  destruct (String.eqb _ _); [|by intros <-]. cbn [negb]. destruct (_ <? _)%nat; [by intros <-|]. cbv zeta. destruct (String.eqb _ _ && _); by intros <-.
Qed.

Lemma drop_rows now u id d d' : (delete_my_report now u id d).2 = d' -> rows_same d d' \/ rows_put kept d d'.
Proof.
  unfold delete_my_report. destruct (reports d !! id) as [r|] eqn:E; [|by intros <-; left]. destruct (_ =? _); [|by intros <-; left]. cbn [negb].
  destruct (removable r); [|by intros <-; left]. cbn [negb snd]. case_bool_decide; intros <-; [by left|]. right. exists id, r, (with_hidden now r). done.
Qed.

Lemma edit_rows now u id t d d' : (edit_my_report now u id t d).2 = d' -> rows_same d d' \/ rows_put (edited (strip t)) d d'.
Proof.
  unfold edit_my_report. destruct (edit_valid t); [|by intros <-; left]. cbn [negb]. destruct (shown_report id u d) as [r|] eqn:E; [|by intros <-; left].
  destruct (String.eqb (rp_status r) "open"); [|by intros <-; left]. cbn [negb]. destruct (answered id r d); [by intros <-; left|]. cbv zeta.
  destruct (String.eqb (strip t) ""); [by intros <-; left|]. destruct (contains CRASH_MARKER (strip t)) eqn:E1; [by intros <-; left|].
  destruct (contains CRASH_MARKER (rp_reason r)) eqn:E2; [by intros <-; left|]. cbn [orb snd]. intros <-. right.
  unfold shown_report in E. destruct (reports d !! id) as [r0|] eqn:Er; [|done]. destruct (_ && _); simplify_eq.
  exists id, r, (with_reason now (strip t) r). by repeat split.
Qed.

Lemma verdict_rows now known id a n ban d d' : (resolve_report now known id a n ban d).2 = d' ->
  rows_same d d' \/ rows_put decided d d'.
Proof.
  unfold resolve_report. destruct (reports d !! id) as [r|] eqn:E; [|by intros <-; left]. case_bool_decide; intros <-; right.
  - eexists id, r, _. done.
  - eexists id, r, _. split; [done|]. split; [done|]. split; [done|]. split; [done|]. split; [|done]. simpl. unfold verdict_status.
    destruct (String.eqb _ _); [done|]. by case_bool_decide.
Qed.

Lemma reply_rows now id t d d' : (reply_to_report now id t d).2 = d' -> rows_same d d' \/ rows_put kept d d'.
Proof.
  unfold reply_to_report. destruct (reports d !! id) as [r|] eqn:E; [|by intros <-; left]. intros <-. right. by eexists id, r, _.
Qed.

Lemma edit_turn_rows id m b d d' : (edit_admin_turn id m b d).2 = d' -> rows_same d d' \/ rows_put kept d d'.
Proof.
  unfold edit_admin_turn. destruct (reports d !! id) as [r|] eqn:E; [|by intros <-; left]. destruct (find_first _ _) as [x|]; [|by intros <-; left].
  destruct (_ =? _); [|by intros <-; left]. cbn [negb]. destruct (tm_from_admin x); [|by intros <-; left]. cbn [negb snd]. cbv zeta.
  case_bool_decide; intros <-; [|by left]. right. by eexists id, r, _.
Qed.

(** ** The sweep of reports *)

Lemma sweep_one_other id r d id' : id' <> id -> reports (sweep_one blob_name (id, r) d) !! id' = reports d !! id'.
Proof. intros H. simpl. destruct (is_bug r); [by rewrite lookup_insert_ne|by rewrite lookup_delete_ne]. Qed.

Lemma fold_head d l id r : NoDup (map fst ((id, r) :: l)) -> (forall k x, (k, x) ∈ (id, r) :: l -> reports d !! k = Some x) ->
  reports d !! id = Some r /\ NoDup (map fst l) /\ id ∉ map fst l /\
  (forall k x, (k, x) ∈ l -> reports (sweep_one blob_name (id, r) d) !! k = Some x).
Proof.
  intros [Hn Hl]%NoDup_cons Hr. split; [apply Hr; left|]. split; [done|]. split; [done|]. intros k x Hk. rewrite sweep_one_other.
  - apply Hr. by right.
  - intros ->. apply Hn. by apply (list_elem_of_fmap_2 fst _ (id, x)).
Qed.

Lemma sweep_fold l : forall d, NoDup (map fst l) -> (forall k x, (k, x) ∈ l -> reports d !! k = Some x) ->
  let d' := foldl (fun d kr => sweep_one blob_name kr d) d l in
  next_report d' = next_report d /\ next_turn d' = next_turn d /\ evidence d' = evidence d /\
  turns d' = List.filter (fun m => negb (bool_decide (tm_report m ∈ map fst l))) (turns d) /\
  (forall k, reports d' !! k = reports d !! k ≫= fun x =>
     if decide (k ∈ map fst l) then if is_bug x then Some (redact x) else None else Some x).
Proof.
  induction l as [|[id r] l IH]; intros d Hn Hr.
  - simpl. repeat split; [|intros k; by destruct (reports d !! k)]. induction (turns d) as [|m ts IHt]; [done|]. simpl. by rewrite <-IHt at 1.
  - destruct (fold_head d l id r Hn Hr) as (Hid & Hn' & Hni & Hr'). destruct (IH _ Hn' Hr') as (H1 & H2 & H3 & H4 & H5).
    cbn [foldl]. rewrite H1, H2, H3, H4. repeat split.
    + cbn [sweep_one turns]. induction (turns d) as [|m ts IHt]; [done|]. cbn [List.filter map fst].
      destruct (Z.eqb_spec (tm_report m) id) as [E|E]; cbn [negb].
      * rewrite IHt, (bool_decide_eq_true_2 (_ ∈ _ :: _)) by (rewrite E; left). done.
      * cbn [List.filter]. rewrite IHt. rewrite (bool_decide_ext (tm_report m ∈ id :: map fst l) (tm_report m ∈ map fst l)); [done|].
        rewrite elem_of_cons. split; [by intros [?|?]|by right].
    + intros k. rewrite H5. destruct (decide (k = id)) as [->|Hne].
      * rewrite Hid. simpl. rewrite (decide_True _ _ (list_elem_of_here id (map fst l))). destruct (is_bug r).
        -- rewrite lookup_insert_eq. simpl. by rewrite decide_False.
        -- by rewrite lookup_delete_eq.
      * rewrite sweep_one_other by done. destruct (reports d !! k) as [x|]; [|done]. simpl.
        destruct (decide (k ∈ map fst l)); [by rewrite decide_True by (by right)|]. rewrite decide_False; [done|]. by intros [?|?]%elem_of_cons.
Qed.

Lemma filter_fst_NoDup {A} (p : Z * A -> bool) (l : list (Z * A)) : NoDup (map fst l) -> NoDup (map fst (List.filter p l)).
Proof.
  induction l as [|x l IH]; [done|]. simpl. intros [Hx Hl]%NoDup_cons. destruct (p x); [|auto]. simpl. constructor; [|auto].
  intros (y & E & Hy)%list_elem_of_fmap. apply Hx. rewrite E. apply list_elem_of_fmap_2.
  apply list_elem_of_In, List.filter_In in Hy as [Hy _]. by apply list_elem_of_In.
Qed.

Lemma due_rows_keys now d :
  NoDup (map fst (sort_by (fun kr : Z * Report => started kr.2) (List.filter (fun kr : Z * Report => report_due now kr.2) (map_to_list (reports d))))).
Proof. rewrite sort_by_perm. apply filter_fst_NoDup. apply NoDup_fst_map_to_list. Qed.

Lemma swept_keys now d : NoDup (map fst (swept_reports now d)).
Proof.
  unfold swept_reports. pose proof (due_rows_keys now d) as H. set (l := sort_by _ _) in *.
  rewrite <-(take_drop MAX_PER_CYCLE l), map_app in H. by apply NoDup_app in H as [H _].
Qed.

Lemma elem_of_due now d k r :
  (k, r) ∈ sort_by (fun kr : Z * Report => started kr.2) (List.filter (fun kr : Z * Report => report_due now kr.2) (map_to_list (reports d))) <->
  reports d !! k = Some r /\ report_due now r = true.
Proof. by rewrite elem_of_sort_by, list_elem_of_In, List.filter_In, <-list_elem_of_In, elem_of_map_to_list. Qed.

Lemma swept_elem now d k r : (k, r) ∈ swept_reports now d -> reports d !! k = Some r /\ report_due now r = true.
Proof. intros (i & Hi%list_elem_of_lookup_2 & _)%elem_of_take. by apply elem_of_due in Hi. Qed.

Lemma swept_row now d k r : k ∈ map fst (swept_reports now d) -> reports d !! k = Some r -> (k, r) ∈ swept_reports now d.
Proof. intros ([k' x] & -> & H)%list_elem_of_fmap Hr. pose proof (swept_elem _ _ _ _ H) as [H' _]. simpl in *. congruence. Qed.

(** The tally does not see the sweep. *)
Lemma cnt_sweep p l : (forall r, is_bug r = false -> p r = false) ->
  forall d, NoDup (map fst l) -> (forall k x, (k, x) ∈ l -> reports d !! k = Some x) -> (forall k x, (k, x) ∈ l -> p (redact x) = p x) ->
  cnt p (reports (foldl (fun d kr => sweep_one blob_name kr d) d l)) = cnt p (reports d).
Proof.
  intros H2. induction l as [|[id r] l IH]; intros d Hn Hr H1; [done|]. destruct (fold_head d l id r Hn Hr) as (Hid & Hn' & Hni & Hr').
  cbn [foldl]. rewrite IH; [|done..|intros k x H; apply (H1 k); by right]. cbn [sweep_one reports].
  destruct (is_bug r) eqn:E; [apply (cnt_put _ _ _ r); [done|]; apply (H1 id); left|].
  rewrite (cnt_delete p (reports d) id r Hid), (H2 r E). done.
Qed.

(** The database finds the marker where Python does: always on Postgres. *)
Definition agrees (pg : bool) (text : string) : Prop := sql_contains pg text CRASH_MARKER = contains CRASH_MARKER text.

Lemma postgres_agrees text : agrees true text.
Proof. done. Qed.

Lemma redact_crash pg r : agrees pg (rp_reason r) -> is_crash pg (redact r) = is_crash pg r.
Proof.
  unfold is_crash. intros ->. simpl. by destruct (contains CRASH_MARKER (rp_reason r)), pg; vm_compute.
Qed.

(** ** The tables in order *)

Notation tkey := (fun m : ReportMessage => (tm_id m, tm_report m)).

Record desk_wf (d : desk) : Prop := {
  dw_ids id r : reports d !! id = Some r -> id < next_report d;
  dw_closed id r : reports d !! id = Some r -> rp_status r = "open"%string <-> rp_resolved_at r = None;
  dw_self id r : reports d !! id = Some r -> rp_target r = rp_reporter r -> is_bug r = true;
  dw_turns x : x ∈ map tkey (turns d) -> is_Some (reports d !! x.2) /\ x.1 < next_turn d;
  dw_turn_ids : NoDup (map fst (map tkey (turns d)))
}.

Definition turns_same (d d' : desk) : Prop := map tkey (turns d') = map tkey (turns d) /\ next_turn d' = next_turn d.
Definition turns_new (d d' : desk) : Prop :=
  exists id, is_Some (reports d !! id) /\ map tkey (turns d') = map tkey (turns d) ++ [(next_turn d, id)] /\ next_turn d' = next_turn d + 1.

Lemma event_turns d e : turns_same d (dapply d e) \/ turns_new d (dapply d e) \/ exists now, e = SweepReports now.
Proof.
  destruct e as [o up g now u b s|o up g dk now u f b s|now u id b|now u id|now u id t|now known id a n ban|now id t|id m b|now st|now]; cbn [dapply].
  - left. by destruct (create_shape o up g now u b s d) as [-> |(r & -> & _)].
  - left. by destruct (evidence_shape o up g dk now u f b s d) as [-> |(r & fs & -> & _)].
  - unfold add_to_my_report. destruct (add_turn_valid b); [|by left]. cbn [negb]. destruct (shown_report id u d) as [r|] eqn:E; [|by left].
    destruct (String.eqb _ _); [|by left]. cbn [negb]. destruct (_ <? _)%nat; [by left|]. cbv zeta. destruct (String.eqb _ _ && _); [by left|].
    right. left. exists id. unfold shown_report in E. split; [destruct (reports d !! id); [by eexists|done]|]. cbn [snd add_turn turns next_turn].
    by rewrite map_app.
  - left. unfold delete_my_report. destruct (reports d !! id) as [r|]; [|done]. destruct (_ =? _); [|done]. cbn [negb].
    destruct (removable r); [|done]. cbn [negb snd]. by case_bool_decide.
  - left. unfold edit_my_report. destruct (edit_valid t); [|done]. cbn [negb]. destruct (shown_report id u d); [|done].
    destruct (String.eqb (rp_status _) "open"); [|done]. cbn [negb]. destruct (answered _ _ _); [done|]. cbv zeta.
    destruct (String.eqb (strip t) ""); [done|]. by destruct (contains _ _ || _).
  - left. unfold resolve_report. destruct (reports d !! id); [|done]. by case_bool_decide.
  - unfold reply_to_report. destruct (reports d !! id) as [r|] eqn:E; [|by left]. right. left. exists id. split; [by eexists|].
    cbn [snd add_turn turns next_turn put_report set_reports]. by rewrite map_app.
  - left. unfold edit_admin_turn. destruct (reports d !! id); [|done]. destruct (find_first _ _); [|done]. destruct (_ =? _); [|done]. cbn [negb]. destruct (tm_from_admin _); [|done]. cbn [negb]. cbv zeta.
    assert (Hm : map tkey (map (fun x => if tm_id x =? m then with_body (strip b) x else x) (turns d)) = map tkey (turns d)).
    { rewrite map_map. apply map_ext. intros x. by destruct (tm_id x =? m). }
    by case_bool_decide.
  - by left.
  - right. right. by exists now.
Qed.

Lemma wf_rows_same d d' : rows_same d d' -> turns_same d d' \/ turns_new d d' -> desk_wf d -> desk_wf d'.
Proof.
  intros [E1 E2] Ht [H1 H2 H3 H4 H5]. split; rewrite ?E1, ?E2; try done.
  - destruct Ht as [[E3 E4]|(id & Hid & E3 & E4)]; rewrite E3, E4; intros x; [apply H4|].
    intros [Hx|Hx]%elem_of_app; [destruct (H4 x Hx); split; [done|lia]|]. apply list_elem_of_singleton in Hx as ->. simpl. split; [done|lia].
  - destruct Ht as [[E3 _]|(id & Hid & E3 & _)]; rewrite E3; [done|]. rewrite map_app. apply NoDup_snoc; [|done].
    intros (x & E & Hx)%list_elem_of_fmap. destruct (H4 x Hx) as [_ Hlt]. simpl in E. lia.
Qed.

(** The rows change and the turns may grow: what is to be shown. *)
Lemma wf_rows d d' : desk_wf d -> turns_same d d' \/ turns_new d d' ->
  (forall k, is_Some (reports d !! k) -> is_Some (reports d' !! k)) ->
  (forall id r, reports d' !! id = Some r -> id < next_report d' /\ (rp_status r = "open"%string <-> rp_resolved_at r = None) /\
     (rp_target r = rp_reporter r -> is_bug r = true)) -> desk_wf d'.
Proof.
  intros [H1 H2 H3 H4 H5] Ht Hk Hr. split; [by intros; eapply Hr|by intros; eapply Hr|by intros; eapply Hr|..].
  - destruct Ht as [[E3 E4]|(id & Hid & E3 & E4)]; rewrite E3, E4; intros x Hx.
    + destruct (H4 x Hx). auto.
    + apply elem_of_app in Hx as [Hx|Hx]; [destruct (H4 x Hx); split; [auto|lia]|]. apply list_elem_of_singleton in Hx as ->. simpl. split; [auto|lia].
  - destruct Ht as [[E3 _]|(id & Hid & E3 & _)]; rewrite E3; [done|]. rewrite map_app. apply NoDup_snoc; [|done].
    intros (x & E & Hx)%list_elem_of_fmap. destruct (H4 x Hx) as [_ Hlt]. simpl in E. lia.
Qed.

Lemma wf_new u d d' : rows_new u d d' -> turns_same d d' \/ turns_new d d' -> desk_wf d -> desk_wf d'.
Proof.
  intros (r & E1 & E2 & Hu & Hs & Ha & _ & Hb) Ht Hw. apply (wf_rows d); [done|done|..].
  - intros k. rewrite E1. intros [x Hx]. destruct (decide (next_report d = k)) as [<-|Hne]; [rewrite lookup_insert_eq|rewrite lookup_insert_ne by done]; by eexists.
  - intros id x. rewrite E1, E2. intros [[<- <-]|[Hne Hx]]%lookup_insert_Some.
    + split; [lia|]. split; [by rewrite Hs, Ha|]. intros Et. apply Hb. congruence.
    + pose proof (dw_ids _ Hw id x Hx). split; [lia|]. split; [by eapply dw_closed|by eapply dw_self].
Qed.

Lemma wf_put P d d' : (forall r r', P r r' -> same_state r r' \/ (rp_status r' = "open"%string <-> rp_resolved_at r' = None)) ->
  rows_put P d d' -> turns_same d d' \/ turns_new d d' -> desk_wf d -> desk_wf d'.
Proof.
  intros HP (id & r & r' & Hr & E1 & E2 & (S1 & S2 & S3) & Hp) Ht Hw. apply (wf_rows d); [done|done|..].
  - intros k. rewrite E1. intros [x Hx]. destruct (decide (id = k)) as [<-|Hne]; [rewrite lookup_insert_eq|rewrite lookup_insert_ne by done]; by eexists.
  - intros k x. rewrite E1, E2. intros [[<- <-]|[Hne Hx]]%lookup_insert_Some.
    + split; [by eapply dw_ids|]. split.
      * destruct (HP _ _ Hp) as [[-> ->]|H]; [by eapply dw_closed|done].
      * unfold is_bug. rewrite S1, S2, S3. by apply (dw_self _ Hw id r).
    + split; [by eapply dw_ids|]. split; [by eapply dw_closed|by eapply dw_self].
Qed.

Lemma wf_sweep now d : desk_wf d -> desk_wf (report_sweep blob_name now d).
Proof.
  intros Hw. destruct (sweep_fold (swept_reports now d) d (swept_keys now d)) as (E1 & E2 & _ & E4 & E5); [by intros k x H; apply (swept_elem now)|].
  fold (report_sweep blob_name now d) in *. assert (Hrow : forall k x, reports (report_sweep blob_name now d) !! k = Some x ->
      exists r, reports d !! k = Some r /\ (x = r \/ x = redact r)).
  { intros k x. rewrite E5. destruct (reports d !! k) as [r|]; [|done]. simpl. repeat case_match; intros; simplify_eq; eauto. }
  assert (Hts : forall m, m ∈ turns (report_sweep blob_name now d) -> m ∈ turns d /\ tm_report m ∉ map fst (swept_reports now d)).
  { intros m. rewrite E4, list_elem_of_In, List.filter_In, <-list_elem_of_In. intros [Hm Hn]. split; [done|].
    apply negb_true_iff, bool_decide_eq_false_1 in Hn. done. }
  split.
  - intros k x (r & Hr & _)%Hrow. rewrite E1. by eapply dw_ids.
  - intros k x (r & Hr & [-> | ->])%Hrow; by apply (dw_closed _ Hw k r Hr).
  - intros k x (r & Hr & [-> | ->])%Hrow; by apply (dw_self _ Hw k r Hr).
  - intros x (m & -> & Hm)%list_elem_of_fmap. destruct (Hts m Hm) as [Hin Hns].
    destruct (dw_turns _ Hw (tm_id m, tm_report m)) as [[r Hr] Hlt]; [by apply (list_elem_of_fmap_2 tkey)|]. rewrite E2. split; [|done]. simpl in *.
    rewrite E5, Hr. simpl. rewrite decide_False by done. by eexists.
  - rewrite E4. pose proof (dw_turn_ids _ Hw) as Hn. rewrite map_map in Hn |- *. clear -Hn. induction (turns d) as [|m ts IH]; [constructor|].
    simpl in *. apply NoDup_cons in Hn as [Hm Hn]. destruct (negb _); [|auto]. simpl. constructor; [|auto].
    intros (y & E & Hy)%list_elem_of_fmap. apply Hm. rewrite E. apply (list_elem_of_fmap_2 (fun m => (tm_id m, tm_report m).1)).
    apply list_elem_of_In, List.filter_In in Hy as [Hy _]. by apply list_elem_of_In.
Qed.

Lemma wf_evidence now st d : desk_wf d -> desk_wf (evidence_sweep now st d).2.
Proof.
  intros Hw. apply (wf_rows d); [done|by left|..]; cbn [evidence_sweep snd reports next_report].
  - intros k [x Hx]. rewrite lookup_fmap, Hx. by eexists.
  - intros k x. rewrite lookup_fmap. destruct (reports d !! k) as [r|] eqn:E; [|done]. simpl. intros [= <-].
    split; [by eapply dw_ids|]. destruct (evidence_due now r); (split; [by apply (dw_closed _ Hw k r E)|by apply (dw_self _ Hw k r E)]).
Qed.

Lemma event_wf d e : desk_wf d -> desk_wf (dapply d e).
Proof.
  intros Hw. assert (Ht : turns_same d (dapply d e) \/ turns_new d (dapply d e) \/ exists now, e = SweepReports now) by apply event_turns.
  assert (Ht' : (exists now, e = SweepReports now) \/ (turns_same d (dapply d e) \/ turns_new d (dapply d e))) by tauto. clear Ht.
  destruct Ht' as [[now ->]|Ht]; [by apply wf_sweep|].
  assert (Hput : rows_same d (dapply d e) \/ rows_put kept d (dapply d e) -> desk_wf (dapply d e)).
  { intros [H|H]; [by eapply wf_rows_same|]. eapply wf_put; [|exact H|done|done]. intros r r' []. auto. }
  destruct e as [o up g now u b s|o up g dk now u f b s|now u id b|now u id|now u id t|now known id a n ban|now id t|id m b|now st|now].
  - destruct (create_rows o up g now u b s d _ eq_refl) as [H|H]; [by eapply wf_rows_same|by eapply wf_new].
  - destruct (evidence_rows o up g dk now u f b s d _ eq_refl) as [H|H]; [by eapply wf_rows_same|by eapply wf_new].
  - apply Hput. left. by eapply turn_rows.
  - apply Hput. by eapply drop_rows.
  - destruct (edit_rows now u id t d _ eq_refl) as [H|H]; [by eapply wf_rows_same|]. eapply wf_put; [|exact H|done|done]. intros r r' []. auto.
  - destruct (verdict_rows now known id a n ban d _ eq_refl) as [H|H]; [by eapply wf_rows_same|]. eapply wf_put; [|exact H|done|done]. intros r r' []. auto.
  - apply Hput. by eapply reply_rows.
  - apply Hput. by eapply edit_turn_rows.
  - by apply wf_evidence.
  - by apply wf_sweep.
Qed.

(** whatever is filed, added, dropped, edited, decided, answered and swept, in any
    order: ids are new, every turn belongs to a report that is there, a report is
    open exactly while it has no date of resolution, and a report about oneself
    is a bug report. *)
Theorem desk_wf_run (es : list devent) (d : desk) : desk_wf d -> desk_wf (foldl dapply d es).
Proof. revert d. induction es as [|e es IH]; intros d Hw; [done|]. by apply IH, event_wf. Qed.

(** ** The tally *)

Section tally.
Context (pg : bool).

Lemma stats_same d d' u : reports d' = reports d -> bug_report_stats pg u d' = bug_report_stats pg u d.
Proof. intros E. by rewrite !stats_cnt, E. Qed.

Lemma stats_decided d d' u : rows_put decided d d' -> (bug_report_stats pg u d').1 = (bug_report_stats pg u d).1.
Proof.
  intros (id & r & r' & Hr & E & _ & (S1 & _ & S3) & [_ S4]). rewrite !stats_cnt, E. simpl. f_equal. apply (cnt_put _ _ _ r); [done|].
  unfold counts, is_bug, is_crash. by rewrite S1, S3, S4.
Qed.

Lemma stats_put P d d' u :
  rows_put P d d' -> (forall id r r', reports d !! id = Some r -> P r r' -> same_state r r' /\ is_crash pg r' = is_crash pg r) ->
  bug_report_stats pg u d' = bug_report_stats pg u d.
Proof.
  intros (id & r & r' & Hr & E & _ & (S1 & _ & S3) & Hp) HP. destruct (HP id r r' Hr Hp) as [[S5 _] S4].
  rewrite !stats_cnt, E. f_equal; f_equal; apply (cnt_put _ _ _ r); try done.
  all: unfold counts, is_bug; by rewrite S1, S3, S4, ?S5.
Qed.

Lemma stats_kept d d' u : rows_put kept d d' -> bug_report_stats pg u d' = bug_report_stats pg u d.
Proof. intros H. apply (stats_put _ _ _ _ H). intros id r r' _ [Hs Hr]. split; [done|]. unfold is_crash. by rewrite Hr. Qed.

Lemma stats_edited text d d' u :
  (forall id r, reports d !! id = Some r -> agrees pg (rp_reason r)) -> agrees pg text ->
  rows_put (edited text) d d' -> bug_report_stats pg u d' = bug_report_stats pg u d.
Proof.
  intros Hd Ht H. apply (stats_put _ _ _ _ H). intros id r r' Hr (Hs & E1 & E2 & E3). split; [done|].
  unfold is_crash. rewrite E1, Ht, (Hd id r Hr). congruence.
Qed.

Lemma stats_new v d d' u : desk_wf d -> rows_new v d d' ->
  (bug_report_stats pg u d').2 = (bug_report_stats pg u d).2 /\
  (bug_report_stats pg u d).1 <= (bug_report_stats pg u d').1 <= (bug_report_stats pg u d).1 + (if u =? v then 1 else 0).
Proof.
  intros Hw (r & E & _ & Hv & Hs & _). rewrite !stats_cnt, E. cbn [fst snd].
  assert (Hn : reports d !! next_report d = None).
  { destruct (reports d !! next_report d) as [x|] eqn:Ex; [|done]. pose proof (dw_ids _ Hw _ _ Ex). lia. }
  rewrite !cnt_new by done. rewrite Hs, andb_false_r. split; [done|]. rewrite Hv, Z.eqb_sym. destruct (u =? v); cbn [andb]; [destruct (counts pg r)|]; lia.
Qed.

Lemma stats_sweep now d u :
  (forall id r, reports d !! id = Some r -> agrees pg (rp_reason r)) ->
  bug_report_stats pg u (report_sweep blob_name now d) = bug_report_stats pg u d.
Proof.
  intros Hd. rewrite !stats_cnt. unfold report_sweep.
  assert (Hs : forall k x, (k, x) ∈ swept_reports now d -> reports d !! k = Some x) by (intros k x H; by apply (swept_elem now)).
  assert (Hc : forall k x, (k, x) ∈ swept_reports now d -> counts pg (redact x) = counts pg x).
  { intros k x H. unfold counts. by rewrite redact_crash by (by apply (Hd k), Hs). }
  rewrite !cnt_sweep; try done; try apply swept_keys.
  2, 4: intros k x H; simpl; by rewrite (Hc k x H).
  all: intros r E; unfold counts; rewrite E; by rewrite andb_false_r.
Qed.

(** C28. on Postgres, and on SQLite as long as no reason writes the marker
    [[CRASH]] in other letters than capitals (where the LIKE of SQLite, which
    folds case, finds it and Python does not): what somebody filed counts for
    good.  Only filing changes the number, by one and their own, and no dropping,
    editing, answering, verdict or sweep does; the number confirmed is changed by
    a verdict only. *)
Theorem tally_kept (d : desk) (e : devent) (u : Z) :
  desk_wf d ->
  pg = true \/ ((forall id r, reports d !! id = Some r -> agrees pg (rp_reason r)) /\
                forall now v id text, e = Edit now v id text -> agrees pg (strip text)) ->
  let before := bug_report_stats pg u d in let after := bug_report_stats pg u (dapply d e) in
  match e with
  | Create _ _ _ _ v _ _ | CreateEvidence _ _ _ _ _ v _ _ _ =>
      before.1 <= after.1 <= before.1 + (if u =? v then 1 else 0) /\ after.2 = before.2
  | Verdict _ _ _ _ _ _ => after.1 = before.1
  | _ => after = before
  end.
Proof.
  intros Hw Hag before after. unfold before, after. clear before after.
  assert (Hd : forall id r, reports d !! id = Some r -> agrees pg (rp_reason r)) by (destruct Hag as [->|[H _]]; [done|exact H]).
  destruct e as [o up g now v b s|o up g dk now v f b s|now v id b|now v id|now v id t|now known id a n ban|now id t|id m b|now st|now]; cbn [dapply].
  - destruct (create_rows o up g now v b s d _ eq_refl) as [[H _]|H]; [rewrite (stats_same d _ u H); destruct (u =? v); split; [lia|done|lia|done]|].
    by destruct (stats_new v d _ u Hw H).
  - destruct (evidence_rows o up g dk now v f b s d _ eq_refl) as [[H _]|H]; [rewrite (stats_same d _ u H); destruct (u =? v); split; [lia|done|lia|done]|].
    by destruct (stats_new v d _ u Hw H).
  - by apply stats_same, (turn_rows now v id b d _ eq_refl).
  - by destruct (drop_rows now v id d _ eq_refl) as [[H _]|H]; [apply stats_same|apply stats_kept].
  - assert (Ht : agrees pg (strip t)) by (destruct Hag as [->|[_ H]]; [done|by eapply H]).
    by destruct (edit_rows now v id t d _ eq_refl) as [[H _]|H]; [apply stats_same|apply (stats_edited (strip t))].
  - destruct (verdict_rows now known id a n ban d _ eq_refl) as [[H _]|H]; [by rewrite (stats_same d _ u H)|by apply stats_decided].
  - by destruct (reply_rows now id t d _ eq_refl) as [[H _]|H]; [apply stats_same|apply stats_kept].
  - by destruct (edit_turn_rows id m b d _ eq_refl) as [[H _]|H]; [apply stats_same|apply stats_kept].
  - rewrite !stats_cnt. cbn [evidence_sweep snd reports]. rewrite !cnt_map; [done|..]; intros r; by destruct (evidence_due now r).
  - by apply stats_sweep.
Qed.
End tally.

(** ** What a pass of the sweeps does *)

Definition due_rows (now : Z) (d : desk) : nat := cnt (report_due now) (reports d).

Lemma length_due now d :
  length (sort_by (fun kr : Z * Report => started kr.2) (List.filter (fun kr : Z * Report => report_due now kr.2) (map_to_list (reports d)))) = due_rows now d.
Proof. by rewrite length_sort_by. Qed.

(** when at most a cycle's worth is due, the pass deletes every report about
    somebody that was closed or withdrawn 90 days ago, redacts every such bug
    report, takes the conversations of both, and leaves the rest as it is. *)
Theorem report_sweep_exact (now : Z) (d : desk) :
  (due_rows now d <= MAX_PER_CYCLE)%nat ->
  let d' := report_sweep blob_name now d in
  (forall id, reports d' !! id = reports d !! id ≫= fun r =>
     if report_due now r then if is_bug r then Some (redact r) else None else Some r) /\
  (forall m, m ∈ turns d' <-> m ∈ turns d /\ forall r, reports d !! tm_report m = Some r -> report_due now r = false).
Proof.
  intros Hl d'. destruct (sweep_fold (swept_reports now d) d (swept_keys now d)) as (_ & _ & _ & E4 & E5); [by intros k x H; apply (swept_elem now)|].
  fold (report_sweep blob_name now d) in *. fold d' in E4, E5.
  assert (Hs : forall k r, reports d !! k = Some r -> k ∈ map fst (swept_reports now d) <-> report_due now r = true).
  { intros k r Hr. split; [intros H; by apply (swept_elem now d k r), swept_row|]. intros Hd. apply (list_elem_of_fmap_2 fst _ (k, r)).
    unfold swept_reports. rewrite take_ge by (by rewrite length_due). by apply elem_of_due. }
  split.
  - intros id. rewrite E5. destruct (reports d !! id) as [r|] eqn:E; [|done]. simpl. destruct (report_due now r) eqn:Ed.
    + by rewrite decide_True by (by apply (Hs id r)).
    + rewrite decide_False; [done|]. rewrite (Hs id r) by done. congruence.
  - intros m. rewrite E4, list_elem_of_In, List.filter_In, <-list_elem_of_In, negb_true_iff, bool_decide_eq_false. split; intros [Hm H]; (split; [done|]).
    + intros r Hr. rewrite (Hs _ r) in H by done. by destruct (report_due now r).
    + intros Hin. pose proof Hin as Hin'. apply list_elem_of_fmap in Hin' as ([k r] & E & Hr). simpl in E. subst k.
      apply swept_elem in Hr as [Hr Hd]. rewrite (H r Hr) in Hd. done.
Qed.

Lemma redacted_not_due now r : report_due now (redact r) = false.
Proof. unfold report_due, already_redacted. simpl. destruct (contains _ _); rewrite String.eqb_refl, ?orb_true_r; by rewrite andb_false_r. Qed.

Lemma fold_due now l : forall d, NoDup (map fst l) -> (forall k x, (k, x) ∈ l -> reports d !! k = Some x /\ report_due now x = true) ->
  (due_rows now (foldl (fun d kr => sweep_one blob_name kr d) d l) + length l = due_rows now d)%nat.
Proof.
  induction l as [|[id r] l IH]; intros d Hn Hr; [simpl; lia|].
  destruct (fold_head d l id r Hn (fun k x H => proj1 (Hr k x H))) as (Hid & Hn' & Hni & Hr').
  destruct (Hr id r (list_elem_of_here _ _)) as [_ Hd]. cbn [foldl length].
  assert (Hone : (due_rows now (sweep_one blob_name (id, r) d) + 1 = due_rows now d)%nat).
  { unfold due_rows. rewrite (cnt_delete (report_due now) (reports d) id r Hid), Hd. cbn [sweep_one reports].
    destruct (is_bug r); [|lia]. rewrite <-insert_delete_eq, cnt_new by apply lookup_delete_eq. rewrite redacted_not_due. lia. }
  rewrite <-Hone, <-(IH (sweep_one blob_name (id, r) d) Hn'); [lia|].
  intros k x H. split; [by apply Hr'|]. apply (Hr k x). by right.
Qed.

(** each pass takes a cycle's worth off the backlog until nothing is due: what
    was redacted is not due again. *)
Theorem sweep_backlog (now : Z) (d : desk) :
  due_rows now (report_sweep blob_name now d) = (due_rows now d - MAX_PER_CYCLE)%nat.
Proof.
  pose proof (fold_due now (swept_reports now d) d (swept_keys now d) (fun k x H => swept_elem now d k x H)) as H.
  fold (report_sweep blob_name now d) in H. assert (Hl : length (swept_reports now d) = (MAX_PER_CYCLE `min` due_rows now d)%nat).
  { unfold swept_reports. by rewrite length_take, length_due. }
  lia.
Qed.

(** a pass leaves no evidence on a report filed 30 days ago or closed two days
    ago, and its file is gone unless the disk kept it; every other report, its
    evidence and its file stay. *)
Theorem evidence_gone (now : Z) (stuck : gset string) (d : desk) (id : Z) (r : Report) :
  reports d !! id = Some r ->
  let d' := (evidence_sweep now stuck d).2 in
  if evidence_due now r
  then reports d' !! id = Some (without_evidence r) /\ (forall f, rp_evidence_path r = Some f -> f ∈ evidence d' -> f ∈ stuck)
  else reports d' !! id = Some r /\
       (forall f, rp_evidence_path r = Some f -> f ∈ evidence d ->
          (forall id' r', reports d !! id' = Some r' -> rp_evidence_path r' = Some f -> id' = id) -> f ∈ evidence d').
Proof.
  intros Hr d'. unfold d', evidence_sweep. cbn [snd reports evidence]. rewrite lookup_fmap, Hr. simpl. destruct (evidence_due now r) eqn:Ed; (split; [done|]).
  - intros f Hf [Hst _]%elem_of_filter. destruct Hst as [?|Hall]; [done|]. rewrite Forall_forall in Hall.
    destruct (Hall (id, r)); [|done]. apply elem_of_map_to_list, map_lookup_filter_Some. done.
  - intros f Hf Hin Hone. apply elem_of_filter. split; [|done]. right. apply Forall_forall. intros [id' r'] Hm%elem_of_map_to_list E.
    apply map_lookup_filter_Some in Hm as [Hm Hd]. simpl in *. rewrite (Hone id' r' Hm E) in Hm. congruence.
Qed.

(** for somebody else's report every route of the reporter answers what it
    answers when there is no such report, and nothing is written. *)
Theorem foreign_report_silent (d : desk) (id uin now : Z) (r : Report) (b : AddTurnIn) (text : string) :
  reports d !! id = Some r -> rp_reporter r <> uin ->
  let none := set_reports (delete id) d in
  (add_to_my_report now uin id b d).1 = (add_to_my_report now uin id b none).1 /\ (add_to_my_report now uin id b d).2 = d /\
  (delete_my_report now uin id d).1 = (delete_my_report now uin id none).1 /\ (delete_my_report now uin id d).2 = d /\
  (edit_my_report now uin id text d).1 = (edit_my_report now uin id text none).1 /\ (edit_my_report now uin id text d).2 = d.
Proof.
  intros Hr Hu none. assert (E1 : shown_report id uin d = None) by (unfold shown_report; by rewrite Hr, (proj2 (Z.eqb_neq _ _) Hu)).
  assert (E2 : reports none !! id = None) by apply lookup_delete_eq.
  assert (E3 : shown_report id uin none = None) by (unfold shown_report; by rewrite E2).
  unfold add_to_my_report, delete_my_report, edit_my_report. rewrite E1, E2, E3, Hr, (proj2 (Z.eqb_neq _ _) Hu). cbn [negb].
  destruct (add_turn_valid b), (edit_valid text); done.
Qed.

(** ** Where the comments are wrong *)

(** A file the disk kept once is never asked for again. *)
Lemma stuck_evidence_stays now now' stuck d id r f :
  reports d !! id = Some r -> evidence_due now r = true -> rp_evidence_path r = Some f -> f ∈ stuck -> f ∈ evidence d ->
  (forall id' r', reports d !! id' = Some r' -> rp_evidence_path r' = Some f -> id' = id) ->
  f ∈ evidence (evidence_sweep now' ∅ (evidence_sweep now stuck d).2).2.
Proof.
  intros Hr Hd Hf Hst Hin Hone. cbn [evidence_sweep snd evidence reports]. apply elem_of_filter. split.
  - right. apply Forall_forall. intros [k x] Hm%elem_of_map_to_list E. apply map_lookup_filter_Some in Hm as [Hm _]. simpl in *.
    rewrite lookup_fmap in Hm. destruct (reports d !! k) as [y|] eqn:Ek; [|done]. simpl in Hm. injection Hm as <-.
    destruct (evidence_due now y) eqn:Ey; [done|]. rewrite (Hone k y Ek E) in Ek. congruence.
  - apply elem_of_filter. split; [by left|done].
Qed.

(** Whoever writes the words of the redaction is never swept. *)
Lemma marker_never_swept now r : rp_reason r = REDACTED_REASON -> report_due now r = false.
Proof. intros E. unfold report_due, already_redacted. rewrite E, String.eqb_refl. by rewrite andb_false_r. Qed.
End desk.

(** Every further report lowers the number somebody is ranked by. *)
Lemma filing_costs_rank n c : 0 < c -> 0 < n -> (podium_score (n + 1) c < podium_score n c)%Q.
Proof.
  intros Hc Hn. destruct n as [|p|p]; [lia| |lia]. replace (Z.pos p + 1) with (Z.pos (p + 1)) by lia. unfold podium_score.
  rewrite (proj2 (Z.leb_gt c 0)) by done. cbn [orb Z.leb Z.compare]. unfold Qlt, Qdiv, Qmult, Qinv, inject_Z. cbn [Qnum Qden].
  assert (0 < c * c) by nia. nia.
Qed.

(** ** Examples *)

Definition bug (target : Z) (reason : string) : CreateReportIn := mkCreate target reason BUG_CONTEXT [].
Definition flag (target : Z) (reason : string) : CreateReportIn := mkCreate target reason "contact" [].
Definition no_hits : limiter store := mkLimiter (∅ : store) (∅ : hits_map).
Definition hm (secret msg : string) : string := msg.
Definition blobs (id : string) : string := id.

Notation at_desk := (foldl (dapply pretty hm "k" blobs)).
Notation ev := (devent (R := store)).

(** 5 files a bug and a complaint about 6; the bug is confirmed, the complaint
    dismissed and dropped. *)
Definition a_day : list ev :=
  [Create true true false 0 5 (bug 5 "it hangs") no_hits; Create true true false 1 5 (flag 6 "rude") no_hits;
   Reply 2 1 "which version?"; AddTurn 3 5 1 (mkAddTurn "1.2" []); Verdict 4 (fun _ => true) 1 "fixed" "" false;
   Verdict 5 (fun _ => true) 2 "dismissed" "nothing in it" false; Drop 6 5 2].
Definition the_desk : desk := at_desk empty_desk a_day.

Example day_at_the_desk :
  bug_report_stats true 5 the_desk = (1, 1) /\ map mr_id (my_reports 5 the_desk) = [1] /\ length (turns the_desk) = 2%nat /\
  option_map rp_reason (reports (report_sweep blobs (days 91) the_desk) !! 1) = Some REDACTED_REASON /\
  reports (report_sweep blobs (days 91) the_desk) !! 2 = None /\ turns (report_sweep blobs (days 91) the_desk) = [] /\
  bug_report_stats false 5 (report_sweep blobs (days 91) the_desk) = (1, 1).
Proof. vm_compute. repeat split. Qed.

Lemma empty_desk_wf : desk_wf empty_desk.
Proof. split; simpl; try done. - by intros x []%elem_of_nil. - constructor. Qed.

Lemma the_desk_wf : desk_wf the_desk.
Proof. unfold the_desk. generalize empty_desk_wf. generalize empty_desk. induction a_day as [|e l IH]; [done|]. intros d Hd. by apply IH, event_wf. Qed.

(** An open report that was dropped while closed is deleted. *)
Example open_report_deleted :
  let d := at_desk the_desk [Verdict 7 (fun _ => true) 2 "reopen" "" false] in
  option_map rp_status (reports d !! 2) = Some "open"%string /\ reports (report_sweep blobs (days 91) d) !! 2 = None.
Proof. vm_compute. repeat split. Qed.

(** A bug report may be about somebody else, and the edge outlives the sweep. *)
Example edge_survives :
  let d := at_desk empty_desk [Create true true false 0 5 (bug 6 "he cheats") no_hits; Verdict 1 (fun _ => true) 1 "fixed" "" false] in
  option_map (fun r => (rp_reporter r, rp_target r)) (reports (report_sweep blobs (days 91) d) !! 1) = Some (5, 6).
Proof. vm_compute. reflexivity. Qed.

(** What is written on a report that was redacted stays. *)
Example redacted_reopened_stays :
  let d := at_desk (report_sweep blobs (days 91) the_desk)
             [Verdict (days 92) (fun _ => true) 1 "reopen" "" false; AddTurn (days 92) 5 1 (mkAddTurn "my address is" []);
              Verdict (days 93) (fun _ => true) 1 "fixed" "he lives there" false] in
  length (turns (report_sweep blobs (days 900) d)) = 1%nat /\
  option_map rp_notes (reports (report_sweep blobs (days 900) d) !! 1) = Some "he lives there"%string.
Proof. vm_compute. repeat split. Qed.

Lemma desk_wf_run_witness : desk_wf (at_desk empty_desk a_day).
Proof. apply (desk_wf_run pretty hm "k" blobs a_day empty_desk). apply empty_desk_wf. Defined.

(** Postgres whatever is written, SQLite with the reasons of [the_desk]. *)
Lemma tally_kept_witness :
  bug_report_stats true 5 (dapply pretty hm "k" blobs the_desk (Drop (days 1) 5 1 : ev)) = bug_report_stats true 5 the_desk /\
  bug_report_stats false 5 (dapply pretty hm "k" blobs the_desk (SweepReports (days 91) : ev)) = bug_report_stats false 5 the_desk.
Proof.
  split.
  - apply (tally_kept pretty hm "k" blobs true the_desk (Drop (days 1) 5 1) 5); [apply the_desk_wf|by left].
  - apply (tally_kept pretty hm "k" blobs false the_desk (SweepReports (days 91)) 5); [apply the_desk_wf|right]. split; [|done].
    assert (H : map_Forall (fun _ r => agrees false (rp_reason r)) (reports the_desk)); [|exact H].
    apply (bool_decide_unpack (map_Forall (fun _ r => sql_contains false (rp_reason r) CRASH_MARKER = contains CRASH_MARKER (rp_reason r)) _)).
    vm_compute. exact I.
Defined.

(** On SQLite a bug report that begins with the marker in small letters is not
    counted; editing its words, or the redaction of the sweep, makes it count. *)
Theorem small_letters_counted_later :
  let d := at_desk empty_desk [Create true true false 0 5 (bug 5 "[crash] it hangs") no_hits : ev] in
  let e := at_desk d [Verdict 1 (fun _ => true) 1 "fixed" "" false : ev] in
  bug_report_stats false 5 d = (0, 0) /\
  bug_report_stats false 5 (dapply pretty hm "k" blobs d (Edit 1 5 1 "it hangs" : ev)) = (1, 0) /\
  bug_report_stats false 5 e = (0, 0) /\
  bug_report_stats false 5 (dapply pretty hm "k" blobs e (SweepReports (days 91) : ev)) = (1, 1).
Proof. vm_compute. repeat split. Qed.

Lemma report_sweep_exact_witness : reports (report_sweep blobs (days 91) the_desk) !! 2 = None.
Proof.
  destruct (report_sweep_exact blobs (days 91) the_desk) as [H _]; [apply Nat.leb_le; vm_compute; reflexivity|].
  rewrite H. vm_compute. reflexivity.
Defined.

Definition evidence_of (target : Z) : EvidenceIn := mkEvidenceIn target "look" "" "" true (Some "image/png"%string) [1000].
Definition shown_desk : desk := at_desk empty_desk [CreateEvidence true true false true 0 5 "f1" (evidence_of 6) no_hits : ev].

Example evidence_filed : evidence shown_desk = {[ "f1.png"%string ]}.
Proof. vm_compute. reflexivity. Qed.

Definition shown_row : Report := filed 0 5 6 "look" "premium_media" (Some "f1.png"%string) (Some "image/png"%string) None None.

Lemma evidence_gone_witness : "f1.png"%string ∈ evidence (evidence_sweep (days 31) ∅ shown_desk).2 -> "f1.png"%string ∈ (∅ : gset string).
Proof.
  assert (E : reports shown_desk !! 1 = Some shown_row) by (vm_compute; reflexivity).
  assert (Hd : evidence_due (days 31) shown_row = true) by (vm_compute; reflexivity).
  pose proof (evidence_gone (days 31) ∅ shown_desk 1 shown_row E) as H. cbv zeta in H. rewrite Hd in H. by apply (proj2 H).
Defined.

Lemma foreign_report_silent_witness : (delete_my_report 9 6 1 shown_desk).1 = Raise (HTTPException 404 "not_found").
Proof.
  assert (E : reports shown_desk !! 1 = Some shown_row) by (vm_compute; reflexivity).
  destruct (foreign_report_silent shown_desk 1 6 9 shown_row (mkAddTurn "x" []) "x" E) as (_ & _ & H & _); [discriminate|].
  rewrite H. vm_compute. reflexivity.
Defined.
