(* ===== verification/Broker.v ===== *)
(** * The relay broker

    [src/app/routers/broker.py] and [src/app/models/broker.py]: relays that
    operators register with a signature, the few of them a network is told about
    each day, the votes of clients on what they can reach, and the private
    relays of paying tenants; with the enquiries of
    [src/app/models/relay_inquiry.py], the form of [src/app/routers/public.py],
    the queue of [src/app/routers/admin.py] and [src/app/services/inquiry_sweep.py].

    The column [descriptor] holds the canonical text of a JSON object; the model
    keeps the object ([json.loads] of what [json.dumps] wrote).  [ts], [last_ok]
    and [paid_until] are seconds, [br_created], [tn_created] and [iq_created]
    microseconds, like [now].  Parameters: Ed25519, SHA-256, the keyed score of a relay in a bucket,
    [ipaddress] and the country of an address.  Redis keys of the broker are kept
    decoded in [telemetry], each with the instant it expires at; [up] says whether
    Redis answers.  Left out: the limits on the fields of the founder's bodies,
    the page of votes by region, and texts that only name what was wrong. *)

From stdpp Require Import base list gmap strings pretty.
From Stdlib Require Import ZArith Lia Ascii.
From S2P Require Import Prelude Text Bytes Voucher Json.

Definition MAX_DESCRIPTOR_BYTES : Z := 2 * 1024.
Definition MAX_TS_SKEW : Z := 300.
Definition MAX_ROWS_PER_KEY : nat := 8.
Definition MAX_TOTAL_ROWS : nat := 1000.
Definition BUCKET_PERIOD : Z := 86400.
Definition DEAD_AFTER_FAILS : Z := 144.
Definition MAX_PARKED_ROWS : nat := 16.
Definition MAX_PARKED_PER_KEY : nat := 2.
Definition PARKED_TTL : Z := 7 * 86400.
Definition LIVENESS_WINDOW : Z := 2700.
Definition REACH_WINDOW : Z := 7200.
Definition REACH_QUORUM : nat := 2.
Definition MAX_REACH_REPORTS : nat := 25.
Definition TRANSPORT_OUTCOMES : list string :=
  ["tunnel_ok"; "tunnel_dead"; "fell_to_direct"; "fell_to_front"; "direct_ok"]%string.
Definition SHARED_POOL : string := "shared".
Definition TEAM_PAID_TIER : string := "team-paid".

(** ** Tables *)

Record BrokerRelay := mkRelay {
  br_descriptor : list (string * jv);
  br_key : string;
  br_tier : string;
  br_tenant : option string;
  br_pool : option string;
  br_enabled : bool;
  br_ts : Z;
  br_last_ok : option Z;
  br_fails : Z;
  br_created : Z
}.

Record RelayTenant := mkTenant {
  tn_key_hash : string;
  tn_name : option string;
  tn_status : string;
  tn_paid_until : option Z;
  tn_pool : option string;
  tn_ext : option string;
  tn_created : Z
}.

Record RelayInquiry := mkInquiry {
  iq_id : Z;
  iq_tier : string;
  iq_contact : string;
  iq_about : string;
  iq_status : string;
  iq_note : string;
  iq_country : string;
  iq_lang : string;
  iq_created : Z
}.

(** [broker_relays] by tag, [relay_tenants] by id, [relay_inquiries] by id with
    the next id of its sequence. *)
Record bdb := mkBdb {
  relays : gmap string BrokerRelay;
  tenants : gmap string RelayTenant;
  inquiries : list RelayInquiry;
  next_inquiry : Z
}.

Definition set_relays (f : gmap string BrokerRelay -> gmap string BrokerRelay) (d : bdb) : bdb :=
  mkBdb (f (relays d)) (tenants d) (inquiries d) (next_inquiry d).
Definition set_tenants (f : gmap string RelayTenant -> gmap string RelayTenant) (d : bdb) : bdb :=
  mkBdb (relays d) (f (tenants d)) (inquiries d) (next_inquiry d).
Definition set_inquiries (f : list RelayInquiry -> list RelayInquiry) (d : bdb) : bdb :=
  mkBdb (relays d) (tenants d) (f (inquiries d)) (next_inquiry d).
Definition add_inquiry (now : Z) (tier contact about country lang : string) (d : bdb) : bdb :=
  mkBdb (relays d) (tenants d) (inquiries d ++ [mkInquiry (next_inquiry d) tier contact about "open" "" country lang now]) (next_inquiry d + 1).

(** [select count( * ) where p] *)
Definition count_relays (p : BrokerRelay -> bool) (d : bdb) : nat := size (filter (fun kr => p kr.2 = true) (relays d)).

(** ** Descriptors *)

(** [re.match(r"^[...]{1,n}$", s)]: [$] also stands before a last newline. *)
Fixpoint before_newline (s : string) : option string :=
  match s with
  | EmptyString => None
  | String c EmptyString => if (nat_of_ascii c =? 10)%nat then Some EmptyString else None
  | String c s => match before_newline s with Some w => Some (String c w) | None => None end
  end.
Definition re_class (p : ascii -> bool) (n : nat) (s : string) : bool :=
  let ok w := all_chars p w && (1 <=? String.length w)%nat && (String.length w <=? n)%nat in
  ok s || match before_newline s with Some w => ok w | None => false end.

Definition char_in (l : string) (c : ascii) : bool := negb (all_chars (fun x => negb (Ascii.eqb x c)) l).
Definition between (lo hi : Z) (c : ascii) : bool := let n := Z.of_nat (nat_of_ascii c) in (lo <=? n) && (n <=? hi).
Definition digit (c : ascii) : bool := between 48 57 c.
Definition alpha (c : ascii) : bool := between 65 90 c || between 97 122 c.
Definition alnum (c : ascii) : bool := digit c || alpha c.

(** [_RE] *)
Definition field_ok (key v : string) : bool :=
  if String.eqb key "server" then re_class (fun c => alnum c || char_in ".-:[]" c) 255 v
  else if String.eqb key "sni" then re_class (fun c => alnum c || char_in ".-" c) 255 v
  else if String.eqb key "uuid" then re_class (fun c => digit c || between 97 102 c || between 65 70 c || char_in "-" c) 64 v
  else if String.eqb key "pbk" then re_class (fun c => alnum c || char_in "_-+/=" c) 128 v
  else if String.eqb key "sid" then re_class (fun c => alnum c || char_in "_-+/=" c) 64 v
  else if String.eqb key "pw" then re_class (fun c => alnum c || char_in "_-+/=." c) 128 v
  else if String.eqb key "obfs" then re_class (fun c => alnum c || char_in "_-+/=." c) 128 v
  else if String.eqb key "flow" then re_class (fun c => between 97 122 c || char_in "-" c) 32 v
  else if String.eqb key "label" then re_class (fun c => negb (between 0 31 c) && negb (between 127 127 c)) 64 v
  else false.

(** [_PROTO_KEYS]: the required and the optional keys of a protocol. *)
Definition PROTO_KEYS (proto : string) : option (list string * list string) :=
  if String.eqb proto "vless" then Some (["uuid"; "pbk"; "sid"], ["flow"; "label"])%string
  else if String.eqb proto "hysteria2" then Some (["pw"], ["obfs"; "label"])%string else None.
Definition BASE_KEYS : list string := ["proto"; "server"; "port"; "sni"]%string.

(** [_POOL_RE] *)
Definition pool_label (s : string) : bool := re_class (fun c => between 97 122 c || digit c || char_in "-" c) 64 s.

Section broker.
Context (ed25519_verify : bytes -> bytes -> bytes -> bool) (sha256_hex : bytes -> string).
(** [ipaddress.ip_address]: [None] for a name, else whether it is private,
    loopback, link-local, reserved, multicast or unspecified. *)
Context (ip_internal : string -> option bool).
(** [_ip_block] and [country_of] of the caller, and the score of a relay. *)
Context (ip_block country_of : string -> string) (score : string -> string).

Definition bad (status_ : Z) (detail : string) {A} : outcome A := Raise (HTTPException status_ detail).

Definition canon_key (b64 : string) : option string :=
  match b64decode_strict b64 with
  | Some raw => if bool_decide (length raw = 32%nat) then Some (b64encode raw) else None
  | None => None
  end.

Definition ends_with (suffix s : string) : bool :=
  let n := String.length s in let k := String.length suffix in
  (k <=? n)%nat && String.eqb (String.substring (n - k) k s) suffix.

(** [host.strip("[]")] *)
Fixpoint drop_brackets (s : string) : string :=
  match s with
  | String c s' => if char_in "[]" c then drop_brackets s' else s
  | EmptyString => EmptyString
  end.
Fixpoint drop_brackets_end (s : string) : string :=
  match s with
  | String c s' => match drop_brackets_end s' with
                   | EmptyString => if char_in "[]" c then EmptyString else String c EmptyString
                   | t => String c t
                   end
  | EmptyString => EmptyString
  end.
Definition strip_brackets (s : string) : string := drop_brackets_end (drop_brackets s).

Definition server_routable (server : string) : bool :=
  let host := strip server in
  let low := lower host in
  if String.eqb low "localhost" || ends_with ".localhost" low then false
  else match ip_internal (strip_brackets host) with None => true | Some internal => negb internal end.

(** One of the [field] calls. *)
Definition check_field (d : list (string * jv)) (required : bool) (key : string) : outcome unit :=
  match jget key d with
  | None => if required then bad 400 "missing" else Ok tt
  | Some (JvStr v) => if field_ok key v then Ok tt else bad 400 "invalid"
  | Some _ => bad 400 "invalid"
  end.

Fixpoint check_fields (d : list (string * jv)) (required : bool) (keys : list string) : outcome unit :=
  match keys with
  | [] => Ok tt
  | k :: ks => let! _ := check_field d required k in check_fields d required ks
  end.

Definition descriptor_text (d : list (string * jv)) : string := dump_jv true (JvObj d).

Definition validate_descriptor (v : option jv) : outcome (list (string * jv)) :=
  match v with
  | Some (JvObj d) =>
      match jget "proto" d with
      | Some (JvStr proto) =>
          match PROTO_KEYS proto with
          | None => bad 400 "proto must be vless or hysteria2"
          | Some (required, optional) =>
              if negb (forallb (fun kv : string * jv => bool_decide (kv.1 ∈ BASE_KEYS ++ required ++ optional)) d)
              then bad 400 "unknown/cross-proto keys"
              else match jget "server" d with
              | Some (JvStr server) =>
                  if negb (field_ok "server" server) then bad 400 "invalid server"
                  else if negb (server_routable server) then bad 400 "server must be a public address"
                  else
                    let! _ := check_field d true "sni" in
                    match jget "port" d with
                    | Some (JvInt port) =>
                        if negb ((1 <=? port) && (port <=? 65535)) then bad 400 "invalid port"
                        else
                          let! _ := check_fields d true required in
                          let! _ := check_fields d false optional in
                          if MAX_DESCRIPTOR_BYTES <? Z.of_nat (length (utf8 (descriptor_text d))) then bad 413 "descriptor too large"
                          else Ok d
                    | _ => bad 400 "invalid port"
                    end
              | _ => bad 400 "invalid server"
              end
          end
      | Some (JvList _) | Some (JvObj _) => Raise (TypeError "unhashable type")
      | _ => bad 400 "proto must be vless or hysteria2"
      end
  | _ => bad 400 "descriptor must be an object"
  end.

(** What an operator signs. *)
Definition reg_signed_bytes (d : list (string * jv)) (ts : Z) : bytes :=
  utf8 (dump_jv true (JvObj [("descriptor"%string, JvObj d); ("ts"%string, JvInt ts)])).
Definition status_signed_bytes (ts : Z) : bytes :=
  utf8 (dump_jv true (JvObj [("action"%string, JvStr "status"); ("ts"%string, JvInt ts)])).

Definition verify_sig (signed : bytes) (canon sig_b64 : string) : bool :=
  match b64decode_strict sig_b64, b64decode canon with
  | Some sig, Some pub => ed25519_verify pub sig signed
  | _, _ => false
  end.

Definition server_of (d : list (string * jv)) : string := default ""%string (jstr (jget "server" d)).
Definition port_of (d : list (string * jv)) : Z := default 0 (jint (jget "port" d)).
(** The endpoint a vote is about. *)
Definition endpoint (d : list (string * jv)) : string := (server_of d ++ ":" ++ pretty (port_of d))%string.

Definition relay_tag (canon server : string) (port : Z) : string :=
  ("br-" ++ String.substring 0 16 (sha256_hex (utf8 (canon ++ ":" ++ server ++ ":" ++ pretty port))))%string.

(** ** Registration *)

(** [_parked_where] *)
Definition parked (r : BrokerRelay) : bool :=
  negb (br_enabled r) && negb (bool_decide (is_Some (br_tenant r))) && negb (bool_decide (is_Some (br_pool r)))
  && negb (bool_decide (is_Some (br_last_ok r))).

Definition sec (now : Z) : Z := now / usec_per_sec.

Definition sweep_stale_parked (now : Z) (d : bdb) : bdb :=
  set_relays (filter (fun kr => ~ (parked kr.2 = true /\ br_created kr.2 < now - seconds PARKED_TTL))) d.

Record RegisterIn := mkRegister { rg_key : option jv; rg_sig : option jv; rg_ts : option jv; rg_private : option jv; rg_descriptor : option jv }.

(** The checks before the tables are looked at: key, descriptor, ts, private. *)
Definition register_checks (now : Z) (b : RegisterIn) : outcome (string * list (string * jv) * Z * bool) :=
  match jstr (rg_key b), jstr (rg_sig b) with
  | Some raw_key, Some sig =>
      match jint (rg_ts b) with
      | Some ts =>
          if (ts <=? 0) || (sec now + MAX_TS_SKEW <? ts) then bad 400 "missing or invalid ts"
          else match canon_key raw_key with
          | None => bad 400 "invalid operator key"
          | Some key =>
              match rg_private b with
              | None => let! d := validate_descriptor (rg_descriptor b) in
                        if verify_sig (reg_signed_bytes d ts) key sig then Ok (key, d, ts, false) else bad 403 "bad signature"
              | Some (JvBool private) =>
                  let! d := validate_descriptor (rg_descriptor b) in
                  if verify_sig (reg_signed_bytes d ts) key sig then Ok (key, d, ts, private) else bad 403 "bad signature"
              | Some _ => bad 400 "private must be a boolean"
              end
          end
      | None => bad 400 "missing or invalid ts"
      end
  | _, _ => bad 400 "missing key or sig"
  end.

Definition refreshed (desc : list (string * jv)) (ts : Z) (r : BrokerRelay) : BrokerRelay :=
  mkRelay desc (br_key r) (br_tier r) (br_tenant r) (br_pool r) (br_enabled r) ts (br_last_ok r) (br_fails r) (br_created r).

Definition of_key (key : string) (r : BrokerRelay) : bool := String.eqb (br_key r) key.

Definition register_relay (now : Z) (b : RegisterIn) (d : bdb) : outcome (string * bool) * bdb :=
  match register_checks now b with
  | Raise e => (Raise e, d)
  | Ok (key, desc, ts, private) =>
      let tag := relay_tag key (server_of desc) (port_of desc) in
      match relays d !! tag with
      | Some r =>
          if negb (of_key key r) then (bad 403 "tag owned by another key", d)
          else if ts <? br_ts r then (bad 409 "stale ts", d)
          else (Ok (tag, br_enabled r), set_relays (insert tag (refreshed desc ts r)) d)
      | None =>
          if (MAX_ROWS_PER_KEY <=? count_relays (of_key key) d)%nat then (bad 429 "per-key relay limit reached", d)
          else if (MAX_TOTAL_ROWS <=? size (relays d))%nat then (bad 429 "broker pool full", d)
          else if private && (MAX_PARKED_PER_KEY <=? count_relays (fun r => parked r && of_key key r) d)%nat then (bad 429 "per-key parked limit reached", d)
          else if private && (MAX_PARKED_ROWS <=? count_relays parked d)%nat then (bad 429 "parked pool full", d)
          else (Ok (tag, negb private),
                set_relays (insert tag (mkRelay desc key "community" None None (negb private) ts None 0 now)) d)
      end
  end.

(** ** Votes *)

(** The sorted sets of voters, by verdict, endpoint and region; the served counts;
    the outcomes by hour, region and outcome.  Each with its expiry. *)
Record telemetry := mkTelemetry {
  reach : gmap (bool * string * string) (gmap string Z * Z);
  served : gmap string (Z * Z);
  outcomes : gmap (Z * string * string) Z
}.

(** [ZCOUNT key (now - window) +inf] *)
Definition votes (now : Z) (t : telemetry) (ok : bool) (ep region : string) : nat :=
  match reach t !! (ok, ep, region) with
  | Some (z, expires) => if expires <=? now then 0%nat else size (filter (fun e => sec now - REACH_WINDOW <= e.2) z)
  | None => 0%nat
  end.

(** ZADD, ZREMRANGEBYSCORE 0 .., EXPIRE *)
Definition vote (now : Z) (ok : bool) (ep region net : string) (t : telemetry) : telemetry :=
  let k := (ok, ep, region) in
  let old := match reach t !! k with Some (z, x) => if x <=? now then ∅ else z | None => ∅ end in
  let z := filter (fun e => ~ (0 <= e.2 <= sec now - REACH_WINDOW)) (<[net := sec now]> old) in
  mkTelemetry (<[k := (z, now + seconds REACH_WINDOW)]> (reach t)) (served t) (outcomes t).

Definition known_endpoints (fleet : list string) (d : bdb) : list string :=
  map (fun kr : string * BrokerRelay => endpoint (br_descriptor kr.2))
    (List.filter (fun kr : string * BrokerRelay => br_enabled kr.2) (map_to_list (relays d))) ++ fleet.

(** One report of the list: [(server, port, ok)], or not well formed. *)
Definition report_of (v : jv) : option (string * Z * bool) :=
  match v with
  | JvObj l => match jget "server" l, jget "port" l, jget "ok" l with
               | Some (JvStr s), Some (JvInt p), Some (JvBool ok) => Some (s, p, ok)
               | _, _, _ => None
               end
  | _ => None
  end.

Definition cast (now : Z) (known : list string) (region net : string) (acc : Z * telemetry) (v : jv) : Z * telemetry :=
  match report_of v with
  | None => acc
  | Some (s, p, ok) =>
      let ep := (s ++ ":" ++ pretty p)%string in
      (acc.1 + 1, if bool_decide (ep ∈ known) then vote now ok ep region net acc.2 else acc.2)
  end.

(** How many reports were well formed. *)
Definition report_reachability (up : bool) (now : Z) (ip : string) (fleet : list string) (reports_ transport : option jv)
    (d : bdb) (t : telemetry) : outcome Z * telemetry :=
  match reports_ with
  | Some (JvList []) => (bad 400 "reports must be a non-empty list", t)
  | Some (JvList l) =>
      if (MAX_REACH_REPORTS <? length l)%nat then (bad 413 "too many reports", t)
      else
        let region := country_of ip in
        let '(n, t') := foldl (cast now (known_endpoints fleet d) region (ip_block ip)) (0, t) l in
        let t := if up then t' else t in
        let t := match transport with
                 | Some (JvStr o) =>
                     if up && bool_decide (o ∈ TRANSPORT_OUTCOMES)
                     then let k := (now / hours 1, region, o) in
                          mkTelemetry (reach t) (served t) (<[k := default 0 (outcomes t !! k) + 1]> (outcomes t))
                     else t
                 | _ => t
                 end in
        (Ok n, t)
  | _ => (bad 400 "reports must be a non-empty list", t)
  end.

(** ** Tenants' keys *)

(** The first word of a text and the rest, without the space between them. *)
Fixpoint first_word (s : string) : string * string :=
  match s with
  | EmptyString => (EmptyString, EmptyString)
  | String c s' => if is_space c then (EmptyString, lstrip s) else let '(w, r) := first_word s' in (String c w, r)
  end.
Fixpoint count_char (x : ascii) (s : string) : nat :=
  match s with EmptyString => 0%nat | String c s => ((if Ascii.eqb c x then 1 else 0) + count_char x s)%nat end.

(** The key of [Authorization: Bearer ...]; a session token is not one. *)
Definition tenant_key (authorization : option string) : option string :=
  let '(scheme, rest) := first_word (lstrip (default ""%string authorization)) in
  if String.eqb rest "" || negb (String.eqb (lower scheme) "bearer") then None
  else let key := strip rest in if String.eqb key "" || (count_char "." key =? 2)%nat then None else Some key.

Definition paid (now : Z) (t : RelayTenant) : bool := match tn_paid_until t with Some p => negb (p <? sec now) | None => true end.

(** The tenant behind a key, and the word about the key. *)
Definition tenant_from_request (now : Z) (key : option string) (d : bdb) : option (string * RelayTenant) * option string :=
  match key with
  | None => (None, None)
  | Some k =>
      match find_first (fun kt : string * RelayTenant => String.eqb (tn_key_hash kt.2) (sha256_hex (utf8 k))) (map_to_list (tenants d)) with
      | None => (None, Some "unknown"%string)
      | Some (id, t) =>
          if negb (String.eqb (tn_status t) "active") then (None, Some "unknown"%string)
          else if paid now t then (Some (id, t), Some "ok"%string) else (None, Some "expired"%string)
      end
  end.

(** ** What a network is told *)

Definition trusted (r : BrokerRelay) : bool := String.eqb (br_tier r) "trusted".
Definition canary_alive (now : Z) (r : BrokerRelay) : bool :=
  match br_last_ok r with Some t => sec now - t <=? LIVENESS_WINDOW | None => false end.
Definition is_private (r : BrokerRelay) : bool :=
  negb (String.eqb (default "" (br_tenant r)) "") || negb (String.eqb (default "" (br_pool r)) "").

(** [up]: the votes could be read. *)
Definition serve_relay (up : bool) (now : Z) (region : string) (t : telemetry) (r : BrokerRelay) : bool :=
  if is_private r then false
  else if trusted r then true
  else
    let n ok := if up then votes now t ok (endpoint (br_descriptor r)) region else 0%nat in
    (REACH_QUORUM <=? n true)%nat || (canary_alive now r && negb (REACH_QUORUM <=? n false)%nat).

Definition disclosure_cap (pool requested : nat) : nat :=
  if (pool =? 0)%nat then 0%nat else Nat.max 1 (Nat.min requested (pool / 5)).

Definition owns (id : string) (tn : RelayTenant) (r : BrokerRelay) : bool :=
  bool_decide (br_tenant r = Some id)
  || (bool_decide (is_Some (tn_pool tn)) && bool_decide (br_pool r = tn_pool tn)).

(** [sorted(..., key=score)] *)
Fixpoint insert_scored (b : string) (x : string * BrokerRelay) (l : list (string * BrokerRelay)) : list (string * BrokerRelay) :=
  match l with
  | [] => [x]
  | y :: l' => if String.leb (score (b ++ ":" ++ x.1)) (score (b ++ ":" ++ y.1)) then x :: l else y :: insert_scored b x l'
  end.
Definition by_score (b : string) (l : list (string * BrokerRelay)) : list (string * BrokerRelay) := foldr (insert_scored b) [] l.

Definition bucket (now : Z) (ip : string) : string := (ip_block ip ++ ":" ++ pretty (sec now / BUCKET_PERIOD))%string.

Record bridges := mkBridges {
  bg_mine : list (string * BrokerRelay);     (* marked private *)
  bg_public : list (string * BrokerRelay);
  bg_key : option string
}.

Definition get_bridges (up : bool) (now : Z) (ip : string) (key : option string) (n : nat) (d : bdb) (t : telemetry) : bridges :=
  let '(tn, state) := tenant_from_request now key d in
  let all := List.filter (fun kr : string * BrokerRelay => br_enabled kr.2) (map_to_list (relays d)) in
  let mine := match tn with Some (id, x) => List.filter (fun kr : string * BrokerRelay => owns id x kr.2) all | None => [] end in
  let rows := List.filter (fun kr : string * BrokerRelay => serve_relay up now (country_of ip) t kr.2) all in
  let b := bucket now ip in
  let ranked := by_score b (List.filter (fun kr => trusted kr.2) rows) ++ by_score b (List.filter (fun kr => negb (trusted kr.2)) rows) in
  mkBridges mine (take (disclosure_cap (length rows) n) ranked) state.

(** INCR and EXPIRE of the handed-out count of one relay. *)
Definition bump_served (now : Z) (tag : string) (t : telemetry) : telemetry :=
  let old := match served t !! tag with Some (n, x) => if x <=? now then 0 else n | None => 0 end in
  mkTelemetry (reach t) (<[tag := (old + 1, now + seconds 86400)]> (served t)) (outcomes t).
Definition count_served (up : bool) (now : Z) (a : bridges) (t : telemetry) : telemetry :=
  if up then foldl (fun t (kr : string * BrokerRelay) => bump_served now kr.1 t) t (bg_mine a ++ bg_public a) else t.

(** ** An operator's own relays *)

Record StatusRow := mkStatusRow { st_tag : string; st_enabled : bool; st_serving : bool; st_last_ok : option Z; st_served_recent : Z }.

Definition served_recent (up : bool) (now : Z) (tag : string) (t : telemetry) : Z :=
  if up then match served t !! tag with Some (n, x) => if x <=? now then 0 else n | None => 0 end else 0.

Definition operator_status (up : bool) (now : Z) (key_ sig_ ts_ : option jv) (d : bdb) (t : telemetry) : outcome (list StatusRow) :=
  match jstr key_, jstr sig_ with
  | Some raw_key, Some sig =>
      match jint ts_ with
      | Some ts =>
          if (ts <=? 0) || (MAX_TS_SKEW <? Z.abs (sec now - ts)) then bad 400 "missing or invalid ts"
          else match canon_key raw_key with
          | None => bad 400 "invalid operator key"
          | Some key =>
              if negb (verify_sig (status_signed_bytes ts) key sig) then bad 403 "bad signature"
              else Ok (map (fun kr : string * BrokerRelay =>
                         mkStatusRow kr.1 (br_enabled kr.2) (br_enabled kr.2 && (trusted kr.2 || canary_alive now kr.2)) (br_last_ok kr.2)
                           (served_recent up now kr.1 t))
                       (List.filter (fun kr : string * BrokerRelay => of_key key kr.2) (map_to_list (relays d))))
          end
      | None => bad 400 "missing or invalid ts"
      end
  | _, _ => bad 400 "missing key or sig"
  end.

(** ** The founder *)

Definition with_admin (tier : string) (enabled : bool) (tenant pool : option string) (r : BrokerRelay) : BrokerRelay :=
  mkRelay (br_descriptor r) (br_key r) tier tenant pool enabled (br_ts r) (br_last_ok r) (br_fails r) (br_created r).

Definition admin_set (tag : string) (tier : option string) (enabled : option bool) (force : bool) (d : bdb) : outcome unit * bdb :=
  match relays d !! tag with
  | None => (bad 404 "no such relay", d)
  | Some r =>
      if match tier with Some x => negb (bool_decide (x ∈ ["community"; "trusted"]%string)) | None => false end
      then (bad 400 "tier must be community or trusted", d)
      else if bool_decide (enabled = Some true) && parked r && negb force then (bad 409 "parked relay", d)
      else (Ok tt, set_relays (insert tag (with_admin (default (br_tier r) tier) (default (br_enabled r) enabled) (br_tenant r) (br_pool r) r)) d)
  end.

Definition pool_or_400 (pool : option string) : outcome (option string) :=
  match pool with
  | None => Ok None
  | Some p => if String.eqb p "" then Ok None else if pool_label p then Ok (Some p) else bad 400 "pool must match [a-z0-9-]{1,64}"
  end.

(** [None]: the body does not name the field. *)
Definition admin_assign_relay (published : list string) (tag : string) (tenant_id pool_id : option (option string)) (enabled : option bool) (d : bdb)
    : outcome unit * bdb :=
  match pool_or_400 (default None pool_id) with
  | Raise e => (Raise e, d)
  | Ok pool =>
      let tenant := default None tenant_id in
      let touch := bool_decide (is_Some tenant_id) || bool_decide (is_Some pool_id) in
      let owned := bool_decide (is_Some tenant) || bool_decide (is_Some pool) in
      if bool_decide (is_Some tenant) && bool_decide (is_Some pool) then (bad 400 "one of tenant_id or pool_id, not both", d)
      else if touch && negb owned && negb (bool_decide (is_Some tenant_id) && bool_decide (is_Some pool_id))
      then (bad 400 "to release a relay name both as null", d)
      else match relays d !! tag with
      | None => (bad 404 "no such relay", d)
      | Some r =>
          if match tenant with Some id => negb (bool_decide (is_Some (tenants d !! id))) | None => false end then (bad 404 "no such tenant", d)
          else if owned && bool_decide (server_of (br_descriptor r) ∈ published) then (bad 409 "already published in the signed config", d)
          else
            let next_tenant := if touch then tenant else br_tenant r in
            let next_pool := if touch then pool else br_pool r in
            if bool_decide (enabled = Some true) && negb (br_enabled r) && negb (bool_decide (is_Some (br_last_ok r)))
               && negb (bool_decide (is_Some next_tenant)) && negb (bool_decide (is_Some next_pool))
            then (bad 409 "parked relay", d)
            else (Ok tt, set_relays (insert tag (with_admin (br_tier r) (default (br_enabled r) enabled) next_tenant next_pool r)) d)
      end
  end.

Definition with_probe (last_ok : option Z) (fails : Z) (r : BrokerRelay) : BrokerRelay :=
  mkRelay (br_descriptor r) (br_key r) (br_tier r) (br_tenant r) (br_pool r) (br_enabled r) (br_ts r) last_ok fails (br_created r).

(** One result of the report; the count of the rows it named. *)
Definition probe_result (now : Z) (acc : Z * bdb) (res : string * bool) : Z * bdb :=
  let d := acc.2 in
  match relays d !! res.1 with
  | None => acc
  | Some r =>
      (acc.1 + 1,
      if res.2 then set_relays (insert res.1 (with_probe (Some (sec now)) 0 r)) d
      else
        let r := with_probe (br_last_ok r) (br_fails r + 1) r in
        if String.eqb (br_tier r) "community" && negb (bool_decide (is_Some (br_last_ok r))) && negb (bool_decide (is_Some (br_tenant r)))
           && negb (bool_decide (is_Some (br_pool r))) && (DEAD_AFTER_FAILS <=? br_fails r)
        then set_relays (delete res.1) d
        else set_relays (insert res.1 r) d)
  end.

Definition admin_liveness (now : Z) (results : list (string * bool)) (d : bdb) : Z * bdb :=
  let '(updated, d) := foldl (probe_result now) (0, d) results in (updated, sweep_stale_parked now d).

(** What the transport classifier is told: [refresh_broker_transport_set]. *)
Definition broker_addresses (d : bdb) : gset string :=
  list_to_set (List.filter (fun s => negb (String.eqb s "")) (map (fun kr : string * BrokerRelay => server_of (br_descriptor kr.2)) (map_to_list (relays d)))).

Definition admin_delete (tag : string) : bdb -> bdb := set_relays (delete tag).

(** *** Tenants *)

Definition with_tenant_pool (pool : option string) (t : RelayTenant) : RelayTenant :=
  mkTenant (tn_key_hash t) (tn_name t) (tn_status t) (tn_paid_until t) pool (tn_ext t) (tn_created t).

Definition inquiry_contact (id : string) (t : RelayTenant) : string :=
  ("cabinet:" ++ match tn_ext t with Some x => if String.eqb x "" then id else x | None => id end)%string.

Definition open_for (contact : string) (q : RelayInquiry) : bool := String.eqb (iq_status q) "open" && String.eqb (iq_contact q) contact.

Definition py_str (v : option string) : string := default "None"%string v.

(** Whether the pool applied, the tenant with its pool, and the tables. *)
Definition apply_pool (now : Z) (id : string) (t : RelayTenant) (pool : option string) (d : bdb) : bool * RelayTenant * bdb :=
  if bool_decide (pool = None) || bool_decide (pool = Some SHARED_POOL) then (true, with_tenant_pool pool t, d)
  else
    let contact := inquiry_contact id t in
    if negb (existsb (fun kr : string * BrokerRelay => bool_decide (br_pool kr.2 = pool) && br_enabled kr.2) (map_to_list (relays d))) then
      (false, t,
       if existsb (open_for contact) (inquiries d) then d
       else add_inquiry now TEAM_PAID_TIER contact
              ("PAID team tenant " ++ id ++ " (" ++ py_str (tn_ext t) ++ ") rides " ++ py_str (tn_pool t)
               ++ " until pool " ++ py_str pool ++ " has enabled nodes; paid_until " ++ match tn_paid_until t with Some p => pretty p | None => "None" end)
              "" "" d)
    else
      (true, with_tenant_pool pool t,
       set_inquiries (map (fun q => if open_for contact q
                     then mkInquiry (iq_id q) (iq_tier q) (iq_contact q) (iq_about q) "closed" ("pool applied " ++ py_str pool ++ " " ++ pretty (sec now))
                            (iq_country q) (iq_lang q) (iq_created q)
                     else q)) d).

Record TenantCreate := mkTenantCreate { tc_name : option string; tc_days : Z; tc_paid_until : option Z; tc_pool : option string; tc_ext : option string }.

Definition falsy (v : option string) : option string := match v with Some x => if String.eqb x "" then None else Some x | None => None end.

Definition active_ext (ext : string) (kt : string * RelayTenant) : bool :=
  bool_decide (tn_ext kt.2 = Some ext) && String.eqb (tn_status kt.2) "active".

(** [_settle_double_mint]: the tenant that was first, if it was not this one. *)
Definition settle_double_mint (ext id : string) (d : bdb) : option string * bdb :=
  let le (x y : string * RelayTenant) := (tn_created x.2 <? tn_created y.2) || ((tn_created x.2 =? tn_created y.2) && String.leb x.1 y.1) in
  match foldr (fun x (m : option (string * RelayTenant)) => match m with Some y => if le x y then Some x else Some y | None => Some x end) None
          (List.filter (active_ext ext) (map_to_list (tenants d))) with
  | Some (first, _) =>
      if String.eqb first id then (None, d)
      else match tenants d !! id with
           | Some t => (Some first, set_tenants (insert id (mkTenant (tn_key_hash t) (tn_name t) "disabled" (tn_paid_until t) (tn_pool t) (tn_ext t) (tn_created t))) d)
           | None => (Some first, d)
           end
  | None => (None, d)
  end.

(** [Raise (HTTPException 409 id)]: minted before, under this id.  [id] and [key]
    are drawn; on Postgres the check and the insert are one under the lock. *)
Definition admin_create_tenant (now : Z) (id key : string) (b : TenantCreate) (d : bdb) : outcome (string * bool) * bdb :=
  match pool_or_400 (tc_pool b) with
  | Raise e => (Raise e, d)
  | Ok pool =>
      let ext := falsy (tc_ext b) in
      match ext ≫= fun x => find_first (active_ext x) (map_to_list (tenants d)) with
      | Some (winner, _) => (Raise (HTTPException 409 winner), d)
      | None =>
          let t := mkTenant (sha256_hex (utf8 key)) (falsy (tc_name b)) "active"
                     (Some (default (sec now + tc_days b * 86400) (tc_paid_until b)))
                     (match pool with Some _ => Some SHARED_POOL | None => None end) ext now in
          let '(applied, t, d) := apply_pool now id t pool d in
          let d := set_tenants (insert id t) d in
          match ext with
          | Some x => match settle_double_mint x id d with
                      | (Some winner, d) => (Raise (HTTPException 409 winner), d)
                      | (None, d) => (Ok (key, applied), d)
                      end
          | None => (Ok (key, applied), d)
          end
      end
  end.

Record TenantSet := mkTenantSet { ts_status : option string; ts_add_days : option Z; ts_paid_until : option Z; ts_pool : option string }.

Definition admin_set_tenant (now : Z) (id : string) (b : TenantSet) (d : bdb) : outcome bool * bdb :=
  match tenants d !! id with
  | None => (bad 404 "no such tenant", d)
  | Some t =>
      if match ts_status b with Some x => negb (bool_decide (x ∈ ["active"; "disabled"]%string)) | None => false end
      then (bad 400 "status must be active or disabled", d)
      else
        let until := match ts_paid_until b with Some p => Some p | None => tn_paid_until t end in
        let until := match ts_add_days b with
                     | Some n => Some (Z.max (sec now) (default 0 until) + n * 86400)
                     | None => until
                     end in
        let t := mkTenant (tn_key_hash t) (tn_name t) (default (tn_status t) (ts_status b)) until (tn_pool t) (tn_ext t) (tn_created t) in
        match ts_pool b with
        | None => (Ok true, set_tenants (insert id t) d)
        | Some p =>
            match pool_or_400 (Some p) with
            | Raise e => (Raise e, d)
            | Ok pool =>
                let '(applied, t, d) := apply_pool now id t pool d in
                (Ok applied, set_tenants (insert id t) d)
            end
        end
  end.

Definition admin_rotate_tenant (id key : string) (d : bdb) : outcome string * bdb :=
  match tenants d !! id with
  | None => (bad 404 "no such tenant", d)
  | Some t =>
      (Ok key, set_tenants (insert id (mkTenant (sha256_hex (utf8 key)) (tn_name t) (tn_status t) (tn_paid_until t) (tn_pool t) (tn_ext t) (tn_created t))) d)
  end.

(** *** Lists of the founder *)

Record AdminRow := mkAdminRow { ar_tag : string; ar_row : BrokerRelay; ar_key : string; ar_created : Z }.

(** The row, with the first characters of its key and its age in seconds. *)
Definition admin_list (d : bdb) : list AdminRow :=
  map (fun kr : string * BrokerRelay => mkAdminRow kr.1 kr.2 (String.substring 0 12 (br_key kr.2)) (sec (br_created kr.2))) (map_to_list (relays d)).

Record TenantRow := mkTenantRow { tr_id : string; tr_tenant : RelayTenant; tr_relays : nat; tr_pool_live : nat }.

Definition in_pool (t : RelayTenant) (r : BrokerRelay) : bool :=
  negb (String.eqb (default "" (tn_pool t)) "") && bool_decide (br_pool r = tn_pool t) && br_enabled r.

Definition admin_list_tenants (now : Z) (d : bdb) : list TenantRow :=
  map (fun kt : string * RelayTenant =>
         mkTenantRow kt.1 kt.2
           (count_relays (fun r => bool_decide (br_tenant r = Some kt.1)) d + count_relays (in_pool kt.2) d)
           (count_relays (fun r => in_pool kt.2 r && canary_alive now r) d))
    (map_to_list (tenants d)).

(** ** Enquiries *)

Record RelayInquiryIn := mkInquiryIn { ri_tier : string; ri_contact : string; ri_about : string; ri_lang : string }.

Definition or_else (x y : string) : string := if String.eqb x "" then y else x.

(** The limits of the form's fields. *)
Definition inquiry_valid (b : RelayInquiryIn) : bool :=
  (String.length (ri_tier b) <=? 32)%nat && (3 <=? String.length (ri_contact b))%nat && (String.length (ri_contact b) <=? 200)%nat
  && (String.length (ri_about b) <=? 4000)%nat && (String.length (ri_lang b) <=? 8)%nat.

(** [cf_country]: the header of the edge, empty when there is none. *)
Definition relay_inquiry (now : Z) (cf_country : string) (b : RelayInquiryIn) (d : bdb) : outcome unit * bdb :=
  let contact := strip (ri_contact b) in
  if negb (inquiry_valid b) then (bad 422 "validation", d)
  else if (String.length contact <? 3)%nat then (bad 400 "contact_required", d)
  else (Ok tt, add_inquiry now (or_else (String.substring 0 32 (strip (ri_tier b))) "team") contact (strip (ri_about b))
                 (String.substring 0 8 cf_country) (String.substring 0 8 (strip (ri_lang b))) d).

Fixpoint newest_first (q : RelayInquiry) (l : list RelayInquiry) : list RelayInquiry :=
  match l with
  | [] => [q]
  | x :: l' => if iq_created x <=? iq_created q then q :: l else x :: newest_first q l'
  end.

Definition list_relay_inquiries (status_filter : string) (limit : nat) (d : bdb) : list RelayInquiry * nat :=
  (take limit (foldr newest_first [] (List.filter (fun q => String.eqb status_filter "all" || String.eqb (iq_status q) status_filter) (inquiries d))),
   length (List.filter (fun q => String.eqb (iq_status q) "open") (inquiries d))).

Definition update_relay_inquiry (id : Z) (status_ note : option string) (d : bdb) : outcome RelayInquiry * bdb :=
  match find_first (fun q => iq_id q =? id) (inquiries d) with
  | None => (bad 404 "inquiry not found", d)
  | Some q =>
      if match status_ with Some x => negb (bool_decide (x ∈ ["open"; "contacted"; "closed"]%string)) | None => false end then (bad 400 "bad status", d)
      else
        let q' := mkInquiry (iq_id q) (iq_tier q) (iq_contact q) (iq_about q) (default (iq_status q) status_)
                    (match note with Some x => String.substring 0 4000 x | None => iq_note q end) (iq_country q) (iq_lang q) (iq_created q) in
        (Ok q', set_inquiries (map (fun x => if iq_id x =? id then q' else x)) d)
  end.

Definition INQUIRY_MAX_AGE_DAYS : Z := 365.

(** [sweep_once] of the enquiries: how many went. *)
Definition inquiry_sweep (now : Z) (d : bdb) : Z * bdb :=
  let old q := iq_created q <? now - INQUIRY_MAX_AGE_DAYS * hours 24 in
  (Z.of_nat (length (List.filter old (inquiries d))), set_inquiries (List.filter (fun q => negb (old q))) d).

(** [pools_needing_nodes] of the statistics. *)
Definition pools_needing_nodes (d : bdb) : nat :=
  length (List.filter (fun q => String.eqb (iq_status q) "open" && String.eqb (iq_tier q) TEAM_PAID_TIER) (inquiries d)).
End broker.

Definition empty_bdb : bdb := mkBdb ∅ ∅ [] 1.
Definition no_telemetry : telemetry := mkTelemetry ∅ ∅ ∅.
