(* ===== verification/BrokerFacts.v ===== *)
(** * Facts about the relay broker

    Who is told about which relay: a relay of a tenant or of a pool only to the
    paid key that owns it, a public one only when it is live, and of those a
    network learns a fixed few ([answer_confined], [owner_told_all],
    [disclosure_bound], [one_network_one_subset], [trusted_not_displaced]).  What
    two networks must say before an unproved relay is served
    ([unprobed_needs_two_networks]).  That the table only ever holds signed,
    valid, capped rows ([broker_wf_run]).  That a customer of the console is
    minted once ([mint_once]).  And what the switches and queues do not do
    ([kill_switch_undone], [handed_out_never_resets], [forged_inquiry_hides_team]). *)

From stdpp Require Import base list gmap strings pretty.
From Stdlib Require Import ZArith Lia Ascii.
From S2P Require Import Prelude Text Bytes Voucher Json Broker.

(** ** Lists and maps *)

Lemma filter_elem {A} (p : A -> bool) (l : list A) x : x ∈ List.filter p l <-> x ∈ l /\ p x = true.
Proof. rewrite !list_elem_of_In. apply List.filter_In. Qed.

Lemma find_first_hit {A} (p : A -> bool) (l : list A) x : x ∈ l -> p x = true -> (forall y, y ∈ l -> p y = true -> y = x) -> find_first p l = Some x.
Proof.
  induction l as [|y l IH]; intros Hx Hp Hu; [by apply elem_of_nil in Hx|]. cbn. destruct (p y) eqn:Hy.
  - f_equal. apply Hu; [left|done].
  - apply IH; [|done|intros z Hz; apply Hu; by right].
    apply elem_of_cons in Hx as [->|]; [congruence|done].
Qed.

Lemma two_entries {A} (m : gmap string A) : (2 <= size m)%nat ->
  exists k k' v v', k <> k' /\ m !! k = Some v /\ m !! k' = Some v'.
Proof.
  rewrite <-(length_map_to_list m). pose proof (NoDup_fst_map_to_list m) as Hn.
  pose proof (fun k v => proj1 (elem_of_map_to_list m k v)) as He.
  destruct (map_to_list m) as [|[k v] [|[k' v'] l]]; cbn; intros H; try lia.
  exists k, k', v, v'. split_and!.
  - intros ->. cbn in Hn. apply NoDup_cons in Hn as [Hn _]. apply Hn. left.
  - apply He. left.
  - apply He. right. left.
Qed.

Section facts.
Context (ed25519_verify : bytes -> bytes -> bytes -> bool) (sha256_hex : bytes -> string).
Context (ip_internal : string -> option bool) (ip_block country_of : string -> string) (score : string -> string).

Local Notation answer := (get_bridges sha256_hex ip_block country_of score).
Local Notation signed := (verify_sig ed25519_verify).
Local Notation tag_of := (relay_tag sha256_hex).

(** ** What a network is told *)

Lemma insert_scored_perm b x l : insert_scored score b x l ≡ₚ x :: l.
Proof. induction l as [|y l IH]; [done|]. cbn. destruct (String.leb _ _); [done|]. rewrite IH. constructor. Qed.

Lemma by_score_perm b l : by_score score b l ≡ₚ l.
Proof. induction l as [|x l IH]; [done|]. cbn. rewrite insert_scored_perm. by constructor. Qed.

(** The rows a region may be told about. *)
Definition enabled_rows (d : bdb) : list (string * BrokerRelay) :=
  List.filter (fun kr : string * BrokerRelay => br_enabled kr.2) (map_to_list (relays d)).
Definition public_rows (up : bool) (now : Z) (region : string) (d : bdb) (t : telemetry) : list (string * BrokerRelay) :=
  List.filter (fun kr : string * BrokerRelay => serve_relay up now region t kr.2) (enabled_rows d).
Definition ranked (b : string) (rows : list (string * BrokerRelay)) : list (string * BrokerRelay) :=
  by_score score b (List.filter (fun kr => trusted kr.2) rows) ++ by_score score b (List.filter (fun kr => negb (trusted kr.2)) rows).

Lemma public_answer up now ip key n d t :
  bg_public (answer up now ip key n d t) =
  take (disclosure_cap (length (public_rows up now (country_of ip) d t)) n)
    (ranked (bucket ip_block now ip) (public_rows up now (country_of ip) d t)).
Proof. unfold get_bridges. by destruct (tenant_from_request _ _ _ _) as [tn state]. Qed.

Lemma elem_ranked b rows kr : kr ∈ ranked b rows <-> kr ∈ rows.
Proof.
  unfold ranked. rewrite elem_of_app, !by_score_perm, !filter_elem. split; [by intros [[H _]|[H _]]|].
  intros H. destruct (trusted kr.2) eqn:E; [left|right]; done.
Qed.

Lemma elem_enabled d kr : kr ∈ enabled_rows d <-> relays d !! kr.1 = Some kr.2 /\ br_enabled kr.2 = true.
Proof. unfold enabled_rows. destruct kr as [k r]. by rewrite filter_elem, elem_of_map_to_list. Qed.

Lemma elem_public up now region d t kr :
  kr ∈ public_rows up now region d t <-> relays d !! kr.1 = Some kr.2 /\ br_enabled kr.2 = true /\ serve_relay up now region t kr.2 = true.
Proof. unfold public_rows. rewrite filter_elem, elem_enabled. split; [intros [[? ?] ?]|intros (? & ? & ?)]; done. Qed.

(** The tenant a key key_opens: active, and its term not over. *)
Definition key_opens (now : Z) (d : bdb) (k id : string) (tn : RelayTenant) : Prop :=
  tenants d !! id = Some tn /\ tn_key_hash tn = sha256_hex (utf8 k) /\ tn_status tn = "active"%string
  /\ forall p, tn_paid_until tn = Some p -> sec now <= p.

Lemma paid_spec now tn : paid now tn = true <-> forall p, tn_paid_until tn = Some p -> sec now <= p.
Proof.
  unfold paid. destruct (tn_paid_until tn) as [p|]; split; intros H; try done.
  - intros q [= <-]. apply negb_true_iff, Z.ltb_ge in H. done.
  - apply negb_true_iff, Z.ltb_ge, H. done.
Qed.

Lemma tenant_sound now key d id tn state :
  tenant_from_request sha256_hex now key d = (Some (id, tn), state) -> exists k, key = Some k /\ key_opens now d k id tn.
Proof.
  unfold tenant_from_request. destruct key as [k|]; [|discriminate]. destruct (find_first _ _) as [[id' tn']|] eqn:E; [|discriminate].
  apply find_first_Some in E as [Hin Hh]. apply elem_of_map_to_list in Hin. apply String.eqb_eq in Hh; cbn in Hh.
  destruct (String.eqb (tn_status tn') "active") eqn:Hs; cbn; [|discriminate].
  destruct (paid now tn') eqn:Hp; [|discriminate]. intros [= <- <- _]. apply String.eqb_eq in Hs.
  exists k. split; [done|]. split_and!; [done..|]. by apply paid_spec.
Qed.

Lemma tenant_complete now k d id tn :
  key_opens now d k id tn -> (forall id' tn', tenants d !! id' = Some tn' -> tn_key_hash tn' = tn_key_hash tn -> id' = id) ->
  tenant_from_request sha256_hex now (Some k) d = (Some (id, tn), Some "ok"%string).
Proof.
  intros (Hl & Hh & Hs & Hp) Hu. unfold tenant_from_request.
  rewrite (find_first_hit _ _ (id, tn)); cbn [fst snd].
  - rewrite Hs. cbn. by rewrite (proj2 (paid_spec now tn) Hp).
  - by apply elem_of_map_to_list.
  - apply String.eqb_eq, Hh.
  - intros [id' tn'] Hin He. apply elem_of_map_to_list in Hin. apply String.eqb_eq in He; cbn in He.
    assert (id' = id) as -> by (eapply Hu; [done|congruence]). congruence.
Qed.

(** whoever asks, with whatever key, the rows handed out are enabled rows
    of the table; a row of a tenant or of a pool is handed out only to the key
    of an active, paid-up tenant that owns it, directly or through its pool;
    every other row is one the founder trusts, or one that two networks of the
    caller's region say they reach, or one the prober reached within the window
    and that no two networks there report blocked. *)
Theorem answer_confined up now ip key n d t kr (a := answer up now ip key n d t) :
  kr ∈ bg_mine a ++ bg_public a ->
  relays d !! kr.1 = Some kr.2 /\ br_enabled kr.2 = true /\
  ((exists k id tn, key = Some k /\ key_opens now d k id tn /\ owns id tn kr.2 = true)
   \/ is_private kr.2 = false /\
      (trusted kr.2 = true
       \/ (REACH_QUORUM <= votes now t true (endpoint (br_descriptor kr.2)) (country_of ip))%nat
       \/ canary_alive now kr.2 = true /\ (up = true -> votes now t false (endpoint (br_descriptor kr.2)) (country_of ip) < REACH_QUORUM)%nat)).
Proof.
  subst a. intros [H|H]%elem_of_app.
  - unfold get_bridges in H. destruct (tenant_from_request _ _ _ _) as [[[id tn]|] state] eqn:E; cbn in H; [|by apply elem_of_nil in H].
    fold (enabled_rows d) in H. apply filter_elem in H as [[Hl He]%elem_enabled Ho]. destruct (tenant_sound _ _ _ _ _ _ E) as (k & -> & Hk).
    split; [done|]. split; [done|]. left. by exists k, id, tn.
  - rewrite public_answer in H. apply elem_of_take in H as (i & H & _). apply list_elem_of_lookup_2, elem_ranked, elem_public in H as (Hl & He & Hs).
    split; [done|]. split; [done|]. right. unfold serve_relay in Hs. destruct (is_private kr.2); [discriminate|]. split; [done|].
    destruct (trusted kr.2); [by left|]. right. apply orb_true_iff in Hs as [Hs|Hs].
    + left. destruct up; [by apply Nat.leb_le in Hs|discriminate].
    + right. apply andb_true_iff in Hs as [Hc Hf]. split; [done|]. intros ->. apply negb_true_iff, Nat.leb_gt in Hf. done.
Qed.

(** a tenant whose key key_opens is told every enabled relay that is its own,
    whatever the public gate says of it (hashes of keys are unique in the table). *)
Theorem owner_told_all up now ip k n d t id tn tag r :
  key_opens now d k id tn -> (forall id' tn', tenants d !! id' = Some tn' -> tn_key_hash tn' = tn_key_hash tn -> id' = id) ->
  relays d !! tag = Some r -> br_enabled r = true -> owns id tn r = true ->
  (tag, r) ∈ bg_mine (answer up now ip (Some k) n d t).
Proof.
  intros Hk Hu Hl He Ho. unfold get_bridges. rewrite (tenant_complete _ _ _ _ _ Hk Hu). cbn. fold (enabled_rows d).
  apply filter_elem. split; [by apply elem_enabled|done].
Qed.

Lemma ranked_length b rows : length (ranked b rows) = length rows.
Proof.
  unfold ranked. rewrite length_app, !by_score_perm. induction rows as [|x rows IH]; [done|].
  cbn. destruct (trusted x.2); cbn; lia.
Qed.

Lemma length_public up now ip key n d t (rows := public_rows up now (country_of ip) d t) :
  length (bg_public (answer up now ip key n d t)) = Nat.min (disclosure_cap (length rows) n) (length rows).
Proof. rewrite public_answer, length_take, ranked_length. done. Qed.

(** the public part of an answer has at most as many relays as were asked
    for, and at most a fifth of those that could be served, or one. *)
Theorem disclosure_bound up now ip key n d t (rows := public_rows up now (country_of ip) d t) :
  (1 <= n)%nat -> let k := length (bg_public (answer up now ip key n d t)) in
  (k <= n)%nat /\ (k <= Nat.max 1 (length rows / 5))%nat /\ (rows <> [] -> (1 <= k)%nat).
Proof.
  intros Hn. cbn zeta. rewrite length_public. fold rows. unfold disclosure_cap. destruct rows as [|x l]; [cbn; split_and!; [lia..|done]|].
  assert (Hl : (1 <= length (x :: l))%nat) by (cbn; lia). revert Hl. generalize (length (x :: l)) as m. intros m Hm.
  destruct (Nat.eqb_spec m 0); [lia|]. split_and!; intros; lia.
Qed.

(** callers of one network block and country see one subset in a day: while
    the servable rows stay the same, whoever asks for fewer is told a prefix of
    what the other is told, whatever key either offers and whenever that day. *)
Theorem one_network_one_subset up now now' ip ip' key key' n n' d t :
  ip_block ip = ip_block ip' -> sec now / BUCKET_PERIOD = sec now' / BUCKET_PERIOD ->
  public_rows up now (country_of ip) d t = public_rows up now' (country_of ip') d t -> (n <= n')%nat ->
  bg_public (answer up now ip key n d t) `prefix_of` bg_public (answer up now' ip' key' n' d t).
Proof.
  intros Hb Ht Hr Hn. rewrite !public_answer, Hr. unfold bucket. rewrite Hb, Ht.
  set (l := ranked _ _). set (m := length _).
  assert (Hc : (disclosure_cap m n <= disclosure_cap m n')%nat) by (unfold disclosure_cap; destruct (m =? 0)%nat; lia).
  exists (drop (disclosure_cap m n) (take (disclosure_cap m n') l)).
  rewrite <-(take_drop (disclosure_cap m n) (take (disclosure_cap m n') l)) at 1. f_equal. rewrite take_take. f_equal. lia.
Qed.

(** a flood of community relays displaces no trusted one: when a caller is
    told of a community relay, it is told of every trusted relay there is. *)
Theorem trusted_not_displaced up now ip key n d t kr kr' :
  kr ∈ bg_public (answer up now ip key n d t) -> trusted kr.2 = false ->
  relays d !! kr'.1 = Some kr'.2 -> br_enabled kr'.2 = true -> is_private kr'.2 = false -> trusted kr'.2 = true ->
  kr' ∈ bg_public (answer up now ip key n d t).
Proof.
  rewrite public_answer. set (rows := public_rows _ _ _ _ _). intros H Hc Hl He Hp Ht.
  unfold ranked in *. set (k := disclosure_cap _ _) in *. set (T := by_score _ _ (List.filter (fun kr => trusted kr.2) _)) in *.
  assert (Hin : kr' ∈ T).
  { unfold T. rewrite by_score_perm. apply filter_elem. split; [|done]. apply elem_public. split_and!; [done..|].
    unfold serve_relay. by rewrite Hp, Ht. }
  rewrite take_app in *. apply elem_of_app in H as [H|H].
  - apply elem_of_take in H as (i & H & _). apply list_elem_of_lookup_2 in H. unfold T in H. rewrite by_score_perm in H. apply filter_elem in H as [_ H]. congruence.
  - apply elem_of_app. left. rewrite take_ge; [done|].
    destruct (k - length T)%nat eqn:E; [by apply elem_of_nil in H|lia].
Qed.

(** ** Votes *)

Record report_ev := mkReportEv {
  rv_up : bool; rv_now : Z; rv_ip : string; rv_fleet : list string; rv_reports : option jv; rv_transport : option jv; rv_db : bdb
}.

Definition run_report (t : telemetry) (e : report_ev) : telemetry :=
  (report_reachability ip_block country_of (rv_up e) (rv_now e) (rv_ip e) (rv_fleet e) (rv_reports e) (rv_transport e) (rv_db e) t).2.

(** The report says [ok] of the endpoint. *)
Definition casts (e : report_ev) (ok : bool) (ep : string) : Prop :=
  exists l v s p, rv_reports e = Some (JvList l) /\ v ∈ l /\ report_of v = Some (s, p, ok) /\ ep = (s ++ ":" ++ pretty p)%string.

Definition voters (P : bool * string * string -> string -> Z -> Prop) (t : telemetry) : Prop :=
  forall k z x net s, reach t !! k = Some (z, x) -> z !! net = Some s -> P k net s.

Lemma vote_voters P now ok ep region net t : voters P t -> P (ok, ep, region) net (sec now) -> voters P (vote now ok ep region net t).
Proof.
  intros Hv Hp k z x net' s Hk Hz. unfold vote in Hk. cbn [reach] in Hk. apply lookup_insert_Some in Hk as [[<- [= <- <-]]|[_ Hk]]; [|by eapply Hv].
  apply map_lookup_filter_Some in Hz as [Hz _]. apply lookup_insert_Some in Hz as [[<- <-]|[_ Hz]]; [done|].
  destruct (reach t !! (ok, ep, region)) as [[z' x']|] eqn:E; [|by rewrite lookup_empty in Hz].
  destruct (x' <=? now); [by rewrite lookup_empty in Hz|]. by eapply Hv.
Qed.

Lemma cast_voters P now known region net l acc :
  voters P acc.2 -> (forall v s p ok, v ∈ l -> report_of v = Some (s, p, ok) -> P (ok, (s ++ ":" ++ pretty p)%string, region) net (sec now)) ->
  voters P (foldl (cast now known region net) acc l).2.
Proof.
  revert acc. induction l as [|v l IH]; intros acc Hv Hp; [done|]. cbn. apply IH.
  - unfold cast. destruct (report_of v) as [[[s p] ok]|] eqn:E; [|done]. cbn. case_bool_decide; [|done].
    apply vote_voters; [done|]. eapply Hp; [left|done].
  - intros v' s p ok Hin. apply Hp. by right.
Qed.

Lemma report_voters P e t :
  voters P t -> (forall ok ep, casts e ok ep -> P (ok, ep, country_of (rv_ip e)) (ip_block (rv_ip e)) (sec (rv_now e))) ->
  voters P (run_report t e).
Proof.
  intros Hv Hp. unfold run_report, report_reachability. destruct (rv_reports e) as [[| | | | |l|]|] eqn:E; try done.
  destruct l as [|v0 l0]; [done|]. set (l := v0 :: l0) in *. destruct (MAX_REACH_REPORTS <? length l)%nat; [done|].
  pose proof (cast_voters P (rv_now e) (known_endpoints (rv_fleet e) (rv_db e)) (country_of (rv_ip e)) (ip_block (rv_ip e)) l (0, t) Hv) as Hc.
  destruct (foldl _ _ _) as [n t'] eqn:F. cbn [snd fst] in *. assert (Hc' : voters P t').
  { apply Hc. intros v s p ok Hin Hr. apply Hp. by exists l, v, s, p. }
  destruct (rv_transport e) as [[| | | |o| |]|]; destruct (rv_up e); cbn; try done; case_bool_decide; done.
Qed.

Lemma run_reports_voters P l t :
  voters P t -> (forall e ok ep, e ∈ l -> casts e ok ep -> P (ok, ep, country_of (rv_ip e)) (ip_block (rv_ip e)) (sec (rv_now e))) ->
  voters P (foldl run_report t l).
Proof.
  revert t. induction l as [|e l IH]; intros t Hv Hp; [done|]. cbn. apply IH.
  - apply report_voters; [done|]. intros ok ep. apply Hp. left.
  - intros e' ok ep Hin. apply Hp. by right.
Qed.

(** Somebody in the region said so within the window. *)
Definition fresh_vote (now : Z) (region : string) (ok : bool) (ep : string) (e : report_ev) : Prop :=
  casts e ok ep /\ country_of (rv_ip e) = region /\ sec now - REACH_WINDOW <= sec (rv_now e).

Lemma quorum_two_networks now region ok ep l :
  (REACH_QUORUM <= votes now (foldl run_report no_telemetry l) ok ep region)%nat ->
  exists e e', e ∈ l /\ e' ∈ l /\ fresh_vote now region ok ep e /\ fresh_vote now region ok ep e' /\ ip_block (rv_ip e) <> ip_block (rv_ip e').
Proof.
  set (P := fun (k : bool * string * string) net s => exists e, e ∈ l /\ casts e k.1.1 k.1.2 /\ country_of (rv_ip e) = k.2
              /\ ip_block (rv_ip e) = net /\ sec (rv_now e) = s).
  assert (Hv : voters P (foldl run_report no_telemetry l)).
  { apply run_reports_voters; [intros k z x net s Hk; cbn [reach no_telemetry] in Hk; by rewrite lookup_empty in Hk|]. intros e ok' ep' Hin Hc. by exists e. }
  unfold votes. destruct (reach _ !! _) as [[z x]|] eqn:E; [|unfold REACH_QUORUM; lia].
  destruct (x <=? now); [unfold REACH_QUORUM; lia|]. intros (net & net' & s & s' & Hne & H & H')%two_entries.
  apply map_lookup_filter_Some in H as [H Hs]. apply map_lookup_filter_Some in H' as [H' Hs'].
  destruct (Hv _ _ _ _ _ E H) as (e & Hin & Hc & Hr & <- & <-). destruct (Hv _ _ _ _ _ E H') as (e' & Hin' & Hc' & Hr' & <- & <-).
  by exists e, e'.
Qed.

(** after any reports whatever, a community relay the prober has not reached
    within its window is handed to a caller only if clients of two different
    network blocks of the caller's country said, within two hours, that they
    reach that very endpoint. *)
Theorem unprobed_needs_two_networks up now ip key n d l kr (t := foldl run_report no_telemetry l) :
  kr ∈ bg_public (answer up now ip key n d t) -> trusted kr.2 = false -> canary_alive now kr.2 = false ->
  exists e e', e ∈ l /\ e' ∈ l /\ ip_block (rv_ip e) <> ip_block (rv_ip e') /\
    Forall (fresh_vote now (country_of ip) true (endpoint (br_descriptor kr.2))) [e; e'].
Proof.
  subst t. set (t := foldl run_report no_telemetry l). intros H Ht Hc. rewrite public_answer in H. apply elem_of_take in H as (i & H & _).
  apply list_elem_of_lookup_2, elem_ranked, elem_public in H as (_ & _ & Hs). unfold serve_relay in Hs. rewrite Ht, Hc in Hs.
  destruct (is_private kr.2); [discriminate|]. rewrite orb_false_r in Hs. destruct up; [|discriminate]. apply Nat.leb_le in Hs.
  apply quorum_two_networks in Hs as (e & e' & Hin & Hin' & Hf & Hf' & Hne). exists e, e'. split_and!; [done..|]. rewrite !Forall_cons, Forall_nil. done.
Qed.

(** ** The table of relays *)

(** The row was signed by its key, is valid, and is filed under its own tag. *)
Definition relay_wf (tag : string) (r : BrokerRelay) : Prop :=
  (exists raw, canon_key raw = Some (br_key r)) /\
  validate_descriptor ip_internal (Some (JvObj (br_descriptor r))) = Ok (br_descriptor r) /\
  tag = tag_of (br_key r) (server_of (br_descriptor r)) (port_of (br_descriptor r)) /\
  0 < br_ts r /\ exists sig, signed (reg_signed_bytes (br_descriptor r) (br_ts r)) (br_key r) sig = true.

Definition broker_wf (d : bdb) : Prop :=
  map_Forall relay_wf (relays d) /\ (forall key, count_relays (of_key key) d <= MAX_ROWS_PER_KEY)%nat /\ (size (relays d) <= MAX_TOTAL_ROWS)%nat.

Lemma count_sub p d d' : relays d' ⊆ relays d -> (count_relays p d' <= count_relays p d)%nat.
Proof. intros H. unfold count_relays. apply map_subseteq_size, map_filter_strong_subseteq_ext.
  intros k r [Hp Hl]. split; [done|]. by eapply lookup_weaken. Qed.

Lemma wf_sub d d' : broker_wf d -> relays d' ⊆ relays d -> broker_wf d'.
Proof.
  intros (Hw & Hk & Ht) Hs. split_and!.
  - intros tag r Hr. apply Hw. by eapply lookup_weaken.
  - intros key. etrans; [by apply count_sub|]. apply Hk.
  - etrans; [by apply map_subseteq_size|done].
Qed.

Lemma count_insert p tag r d :
  count_relays p (set_relays (insert tag r) d) = ((if p r then 1 else 0) + count_relays p (set_relays (delete tag) d))%nat.
Proof.
  unfold count_relays, set_relays; cbn [relays]. destruct (p r) eqn:Hp.
  - rewrite map_filter_insert, decide_True by done. rewrite <-insert_delete_eq, map_size_insert_None by apply lookup_delete_eq.
    by rewrite map_filter_delete.
  - rewrite map_filter_insert, decide_False; [done|]. cbn. by rewrite Hp.
Qed.

Lemma count_replace p tag r r' d : relays d !! tag = Some r -> p r' = p r -> count_relays p (set_relays (insert tag r') d) = count_relays p d.
Proof.
  intros Hl Hp. rewrite count_insert, Hp, <-count_insert. unfold count_relays, set_relays. cbn [relays]. by rewrite insert_id.
Qed.

Lemma wf_replace d tag r r' :
  broker_wf d -> relays d !! tag = Some r -> br_key r' = br_key r -> relay_wf tag r' -> broker_wf (set_relays (insert tag r') d).
Proof.
  intros (Hw & Hk & Ht) Hl Hb Hr. split_and!.
  - by apply map_Forall_insert_2.
  - intros key. rewrite (count_replace _ _ r); [apply Hk|done|]. unfold of_key. by rewrite Hb.
  - cbn. by rewrite map_size_insert_Some by eauto.
Qed.

(** The founder and the prober leave what was signed alone. *)
Lemma wf_touch d tag r r' :
  broker_wf d -> relays d !! tag = Some r -> br_key r' = br_key r -> br_descriptor r' = br_descriptor r -> br_ts r' = br_ts r ->
  broker_wf (set_relays (insert tag r') d).
Proof.
  intros Hd Hl Hk Hdesc Ht. eapply wf_replace; [done..|]. destruct Hd as (Hw & _). specialize (Hw _ _ Hl).
  unfold relay_wf in *. by rewrite Hk, Hdesc, Ht.
Qed.

Lemma validate_same v d : validate_descriptor ip_internal v = Ok d -> v = Some (JvObj d).
Proof.
  unfold validate_descriptor. intros H. repeat case_match; try discriminate; unfold obind in *; repeat case_match; try discriminate; congruence.
Qed.

Lemma register_checks_sound now b key desc ts private :
  register_checks ed25519_verify ip_internal now b = Ok (key, desc, ts, private) ->
  (exists raw, canon_key raw = Some key) /\ validate_descriptor ip_internal (Some (JvObj desc)) = Ok desc /\ 0 < ts
  /\ exists sig, signed (reg_signed_bytes desc ts) key sig = true.
Proof.
  unfold register_checks. intros H.
  destruct (jstr (rg_key b)) as [raw|]; [|discriminate]. destruct (jstr (rg_sig b)) as [sig|]; [|discriminate].
  destruct (jint (rg_ts b)) as [ts'|]; [|discriminate]. destruct ((ts' <=? 0) || _) eqn:Ht; [discriminate|].
  apply orb_false_iff in Ht as [Ht _]. apply Z.leb_gt in Ht.
  destruct (canon_key raw) as [key'|] eqn:Hk; [|discriminate].
  assert (exists d', validate_descriptor ip_internal (rg_descriptor b) = Ok d' /\ signed (reg_signed_bytes d' ts') key' sig = true
           /\ key' = key /\ d' = desc /\ ts' = ts) as (d' & Hv & Hs & -> & -> & ->).
  { unfold obind in H. destruct (rg_private b) as [[|p| | | | |]|]; try discriminate;
      (destruct (validate_descriptor _ _) as [d'|e] eqn:Hv; [|discriminate]); (destruct (verify_sig _ _ _ _) eqn:Hs; [|discriminate]);
      injection H as <- <- <- _; by exists d'. }
  split_and!; eauto. by rewrite <-(validate_same _ _ Hv).
Qed.

(** Everything that changes the tables. *)
Inductive bop :=
  | OpRegister (now : Z) (b : RegisterIn)
  | OpSet (tag : string) (tier : option string) (enabled : option bool) (force : bool)
  | OpAssign (published : list string) (tag : string) (tenant_id pool_id : option (option string)) (enabled : option bool)
  | OpLiveness (now : Z) (results : list (string * bool))
  | OpDelete (tag : string)
  | OpCreate (now : Z) (id key : string) (b : TenantCreate)
  | OpTenant (now : Z) (id : string) (b : TenantSet)
  | OpRotate (id key : string)
  | OpInquiry (now : Z) (cf_country : string) (b : RelayInquiryIn)
  | OpAnswered (id : Z) (status_ note : option string)
  | OpSweepInquiries (now : Z).

Definition bstep (d : bdb) (op : bop) : bdb :=
  match op with
  | OpRegister now b => (register_relay ed25519_verify sha256_hex ip_internal now b d).2
  | OpSet tag tier enabled force => (admin_set tag tier enabled force d).2
  | OpAssign published tag tenant_id pool_id enabled => (admin_assign_relay published tag tenant_id pool_id enabled d).2
  | OpLiveness now results => (admin_liveness now results d).2
  | OpDelete tag => admin_delete tag d
  | OpCreate now id key b => (admin_create_tenant sha256_hex now id key b d).2
  | OpTenant now id b => (admin_set_tenant now id b d).2
  | OpRotate id key => (admin_rotate_tenant sha256_hex id key d).2
  | OpInquiry now c b => (relay_inquiry now c b d).2
  | OpAnswered id s n => (update_relay_inquiry id s n d).2
  | OpSweepInquiries now => (inquiry_sweep now d).2
  end.

Lemma register_wf now b d : broker_wf d -> broker_wf (register_relay ed25519_verify sha256_hex ip_internal now b d).2.
Proof.
  intros Hd. unfold register_relay. destruct (register_checks _ _ _ _) as [[[[key desc] ts] private]|e] eqn:E; [|done].
  apply register_checks_sound in E as (Hk & Hv & Ht & Hs). set (tag := relay_tag _ _ _ _).
  destruct (relays d !! tag) as [r|] eqn:Hl.
  - destruct (of_key key r) eqn:Hkey; cbn [negb]; [|done]. destruct (ts <? br_ts r); [done|].
    apply String.eqb_eq in Hkey. eapply wf_replace; [done..|]. unfold relay_wf; cbn. rewrite Hkey. by split_and!.
  - destruct (MAX_ROWS_PER_KEY <=? _)%nat eqn:H1; [done|]. destruct (MAX_TOTAL_ROWS <=? _)%nat eqn:H2; [done|].
    apply Nat.leb_gt in H1, H2. destruct (private && _); [done|]. destruct (private && _); [done|]. cbn [snd].
    destruct Hd as (Hw & Hc & Htot). split_and!.
    + apply map_Forall_insert_2; [|done]. by split_and!.
    + intros key'. rewrite count_insert. unfold of_key at 1; cbn [br_key].
      assert (Hdel : (count_relays (of_key key') (set_relays (delete tag) d) <= count_relays (of_key key') d)%nat)
        by (apply count_sub; cbn; apply delete_subseteq).
      destruct (String.eqb_spec key key') as [<-|]; [lia|]. specialize (Hc key'). lia.
    + cbn. rewrite map_size_insert_None by done. lia.
Qed.

Lemma probe_wf now acc res : broker_wf acc.2 -> broker_wf (probe_result now acc res).2.
Proof.
  intros Hd. unfold probe_result. destruct (relays acc.2 !! res.1) as [r|] eqn:Hl; [|done]. cbn [snd].
  destruct res.2; [by eapply wf_touch|]. case_match; [|by eapply wf_touch].
  eapply wf_sub; [done|]. apply delete_subseteq.
Qed.

Lemma liveness_wf now l d : broker_wf d -> broker_wf (admin_liveness now l d).2.
Proof.
  intros Hd. unfold admin_liveness. assert (H : broker_wf (foldl (probe_result now) (0, d) l).2).
  { change d with ((0, d) : Z * bdb).2 in Hd. revert Hd. generalize ((0, d) : Z * bdb) as acc.
    induction l as [|res l IH]; intros acc Hacc; [done|]. cbn. apply IH. by apply probe_wf. }
  destruct (foldl _ _ _) as [u d']. cbn [snd] in *. eapply wf_sub; [done|]. apply map_filter_subseteq.
Qed.

Lemma set_wf tag tier enabled force d : broker_wf d -> broker_wf (admin_set tag tier enabled force d).2.
Proof.
  intros Hd. unfold admin_set. destruct (relays d !! tag) as [r|] eqn:Hl; [|done].
  destruct (match tier with Some _ => _ | None => _ end); [done|]. destruct (_ && _ && _); [done|]. by eapply wf_touch.
Qed.

Lemma assign_wf published tag tenant pool enabled d : broker_wf d -> broker_wf (admin_assign_relay published tag tenant pool enabled d).2.
Proof.
  intros Hd. unfold admin_assign_relay. destruct (pool_or_400 _); [|done]. destruct (_ && _); [done|]. destruct (_ && _ && _); [done|].
  destruct (relays d !! tag) as [r|] eqn:Hl; [|done]. destruct (match default None tenant with Some _ => _ | None => _ end); [done|].
  destruct (_ && _); [done|]. destruct (_ && _ && _ && _ && _); [done|]. by eapply wf_touch.
Qed.

(** The relays are none of the tenants' business. *)
Lemma apply_pool_relays now id tn pool d : relays (apply_pool now id tn pool d).2 = relays d.
Proof. unfold apply_pool. destruct (_ || _); [done|]. destruct (negb _); [|done]. by destruct (existsb _ _). Qed.

Lemma create_relays now id key b d : relays (admin_create_tenant sha256_hex now id key b d).2 = relays d.
Proof.
  unfold admin_create_tenant. destruct (pool_or_400 _) as [pool|]; [|done]. destruct (mbind _ _) as [[w tw]|]; [done|].
  set (t0 := mkTenant _ _ _ _ _ _ _). pose proof (apply_pool_relays now id t0 pool d) as Hr. destruct (apply_pool _ _ _ _ _) as [[a tn] d'].
  destruct (falsy (tc_ext b)) as [x|]; [|done]. unfold settle_double_mint. destruct (foldr _ _ _) as [[w tw]|]; [|done].
  destruct (String.eqb w id); [done|]. by destruct (tenants _ !! id).
Qed.

Lemma set_tenant_relays now id b d : relays (admin_set_tenant now id b d).2 = relays d.
Proof.
  unfold admin_set_tenant. destruct (tenants d !! id) as [tn|]; [|done]. destruct (match ts_status b with Some _ => _ | None => _ end); [done|].
  destruct (ts_pool b) as [p|]; [|done]. destruct (pool_or_400 _) as [pool|]; [|done].
  set (t0 := mkTenant _ _ _ _ _ _ _). pose proof (apply_pool_relays now id t0 pool d) as Hr. by destruct (apply_pool _ _ _ _ _) as [[a tn'] d'].
Qed.

Lemma bstep_wf d op : broker_wf d -> broker_wf (bstep d op).
Proof.
  intros Hd. assert (Hsame : forall d', relays d' = relays d -> broker_wf d') by (intros d' He; eapply wf_sub; [done|by rewrite He]).
  destruct op; cbn [bstep].
  - by apply register_wf.
  - by apply set_wf.
  - by apply assign_wf.
  - by apply liveness_wf.
  - eapply wf_sub; [done|]. apply delete_subseteq.
  - apply Hsame, create_relays.
  - apply Hsame, set_tenant_relays.
  - apply Hsame. unfold admin_rotate_tenant. by destruct (tenants d !! id).
  - apply Hsame. unfold relay_inquiry. destruct (inquiry_valid b); [|done]. by destruct (_ <? _)%nat.
  - apply Hsame. unfold update_relay_inquiry. destruct (find_first _ _); [|done]. by destruct (match status_ with Some _ => _ | None => _ end).
  - by apply Hsame.
Qed.

(** whatever operators, the founder, the prober and the website do, every
    relay of the table carries a valid descriptor that its own key signed with
    its timestamp and is filed under the tag of that key and endpoint, no key
    has more than eight rows, and the table no more than a thousand. *)
Theorem broker_wf_run ops : broker_wf (foldl bstep empty_bdb ops).
Proof.
  assert (H : broker_wf empty_bdb).
  { split_and!; [apply map_Forall_empty|intros key|]; vm_compute; lia. }
  revert H. generalize empty_bdb. induction ops as [|op ops IH]; intros d Hd; [done|]. cbn. apply IH. by apply bstep_wf.
Qed.

(** a registration touches no row but the one of its key and endpoint; that
    row keeps its owner, tier, tenant, pool, switch and liveness, its timestamp
    does not go back, and what is new in it was signed by the row's own key. *)
Theorem register_own_row now b d tag r :
  relays d !! tag = Some r ->
  exists r', relays (register_relay ed25519_verify sha256_hex ip_internal now b d).2 !! tag = Some r' /\
    (r' = r \/ r' = refreshed (br_descriptor r') (br_ts r') r /\ br_ts r <= br_ts r' /\
      tag = tag_of (br_key r) (server_of (br_descriptor r')) (port_of (br_descriptor r')) /\
      exists sig, signed (reg_signed_bytes (br_descriptor r') (br_ts r')) (br_key r) sig = true).
Proof.
  intros Hl. unfold register_relay. destruct (register_checks _ _ _ _) as [[[[key desc] ts] private]|e] eqn:E; [|by eauto].
  apply register_checks_sound in E as (_ & _ & _ & Hs). set (tag' := relay_tag _ _ _ _).
  destruct (relays d !! tag') as [r0|] eqn:Hl'.
  - destruct (of_key key r0) eqn:Hkey; cbn [negb]; [|by eauto]. destruct (ts <? br_ts r0) eqn:Hts; [by eauto|].
    apply String.eqb_eq in Hkey. apply Z.ltb_ge in Hts. cbn. destruct (decide (tag' = tag)) as [Heq|Hne].
    + rewrite Heq, lookup_insert_eq. rewrite Heq, Hl in Hl'. injection Hl' as <-. eexists. split; [done|]. right. cbn.
      rewrite Hkey. by split_and!.
    + rewrite lookup_insert_ne by done. by eauto.
  - destruct (MAX_ROWS_PER_KEY <=? _)%nat; [by eauto|]. destruct (MAX_TOTAL_ROWS <=? _)%nat; [by eauto|].
    destruct (private && _); [by eauto|]. destruct (private && _); [by eauto|]. cbn.
    rewrite lookup_insert_ne by congruence. by eauto.
Qed.

(** ** Customers of the console *)

Lemma apply_pool_tenants now id tn pool d : tenants (apply_pool now id tn pool d).2 = tenants d.
Proof. unfold apply_pool. destruct (_ || _); [done|]. destruct (negb _); [|done]. by destruct (existsb _ _). Qed.

Lemma apply_pool_keeps now id tn pool d (tn' := (apply_pool now id tn pool d).1.2) :
  tn_ext tn' = tn_ext tn /\ tn_status tn' = tn_status tn /\ tn_key_hash tn' = tn_key_hash tn.
Proof. subst tn'. unfold apply_pool. destruct (_ || _); [done|]. by destruct (negb _). Qed.

Lemma settle_alone x id d :
  (forall id' tn, tenants d !! id' = Some tn -> active_ext x (id', tn) = true -> id' = id) -> settle_double_mint x id d = (None, d).
Proof.
  intros Hu. unfold settle_double_mint.
  assert (H : forall l m, foldr (fun y (m : option (string * RelayTenant)) => match m with
                  | Some z => if (tn_created y.2 <? tn_created z.2) || ((tn_created y.2 =? tn_created z.2) && String.leb y.1 z.1) then Some y else Some z
                  | None => Some y end) None l = Some m -> m ∈ l).
  { induction l as [|y l IH]; intros m H; [discriminate|]. cbn in H. destruct (foldr _ _ _) as [z|]; [destruct (_ || _)|];
      injection H as <-; try (by left). right. by apply IH. }
  destruct (foldr _ _ _) as [[w tw]|] eqn:E; [|done]. apply H in E. apply filter_elem in E as [E Ha].
  apply elem_of_map_to_list in E. rewrite (Hu _ _ E Ha), String.eqb_refl. done.
Qed.

(** What a mint leaves, when it answers with a key. *)
Lemma create_spec now id key b d x d1 applied :
  falsy (tc_ext b) = Some x -> admin_create_tenant sha256_hex now id key b d = (Ok (key, applied), d1) ->
  exists tn, tenants d1 = <[id := tn]> (tenants d) /\ active_ext x (id, tn) = true /\ tn_key_hash tn = sha256_hex (utf8 key) /\
    forall id' tn', tenants d !! id' = Some tn' -> active_ext x (id', tn') = false.
Proof.
  intros Hx. unfold admin_create_tenant. destruct (pool_or_400 _) as [pool|]; [|discriminate]. rewrite Hx.
  destruct (mbind _ _) as [[w tw]|] eqn:E; [discriminate|]. cbn in E.
  assert (Hnone : forall id' tn', tenants d !! id' = Some tn' -> active_ext x (id', tn') = false).
  { intros id' tn' Hl. eapply find_first_absent; [done|]. by apply elem_of_map_to_list. }
  set (t0 := mkTenant _ _ _ _ _ _ _). pose proof (apply_pool_tenants now id t0 pool d) as Ht.
  pose proof (apply_pool_keeps now id t0 pool d) as (He & Hs & Hh). destruct (apply_pool _ _ _ _ _) as [[a tn] d']. cbn [fst snd] in *.
  assert (Ha : active_ext x (id, tn) = true) by (unfold active_ext; cbn; by rewrite He, Hs, bool_decide_true).
  rewrite settle_alone.
  - intros [= <- <-]. exists tn. split_and!; [cbn; by rewrite Ht|done..].
  - intros id' tn'. cbn. rewrite Ht. intros [[<- <-]|[Hne Hl]]%lookup_insert_Some Hact; [done|]. rewrite (Hnone _ _ Hl) in Hact. discriminate.
Qed.

(** once a mint for a customer of the console has answered with a key, every
    later mint for that customer is refused with the first one's id and no key,
    and leaves the tables as they are. *)
Theorem mint_once now now' id id' key key' b b' x d d1 applied pool :
  falsy (tc_ext b) = Some x -> falsy (tc_ext b') = Some x -> pool_or_400 (tc_pool b') = Ok pool ->
  admin_create_tenant sha256_hex now id key b d = (Ok (key, applied), d1) ->
  admin_create_tenant sha256_hex now' id' key' b' d1 = (Raise (HTTPException 409 id), d1).
Proof.
  intros Hx Hx' Hp Hc. destruct (create_spec _ _ _ _ _ _ _ _ Hx Hc) as (tn & Ht & Ha & _ & Hn).
  unfold admin_create_tenant. rewrite Hp, Hx'. cbn [mbind option_bind].
  rewrite (find_first_hit _ _ (id, tn)); [done|..|done|].
  - apply elem_of_map_to_list. by rewrite Ht, lookup_insert_eq.
  - intros [k v] Hin Hact. apply elem_of_map_to_list in Hin. rewrite Ht in Hin.
    apply lookup_insert_Some in Hin as [[<- <-]|[_ Hin]]; [done|]. rewrite (Hn _ _ Hin) in Hact. discriminate.
Qed.

(** ** What the switches and queues do not do *)

(** the founder's switch does not hold for a relay that was never live: once
    off it counts as parked, the prober's next call a week after it was created
    deletes it, and its operator registers it again, enabled. *)
Theorem kill_switch_undone now b d key desc ts r (tag := tag_of key (server_of desc) (port_of desc)) :
  register_checks ed25519_verify ip_internal now b = Ok (key, desc, ts, false) ->
  relays d !! tag = Some r -> br_last_ok r = None -> br_tenant r = None -> br_pool r = None -> br_created r < now - seconds PARKED_TTL ->
  (count_relays (of_key key) d < MAX_ROWS_PER_KEY)%nat -> (size (relays d) < MAX_TOTAL_ROWS)%nat ->
  let off := (admin_set tag None (Some false) false d).2 in
  let swept := (admin_liveness now [] off).2 in
  relays swept !! tag = None /\ (register_relay ed25519_verify sha256_hex ip_internal now b swept).1 = Ok (tag, true).
Proof.
  intros Hc Hl Ho Ht Hp Hcr Hk Hs. cbn zeta. set (r0 := with_admin (br_tier r) false (br_tenant r) (br_pool r) r).
  assert (Hoff : (admin_set tag None (Some false) false d).2 = set_relays (insert tag r0) d).
  { unfold admin_set. by rewrite Hl. }
  rewrite Hoff. unfold admin_liveness; cbn [foldl fst snd].
  set (d2 := sweep_stale_parked now (set_relays (insert tag r0) d)).
  assert (Hgone : relays d2 !! tag = None).
  { unfold d2, sweep_stale_parked, set_relays. cbn [relays]. apply map_lookup_filter_None. right. intros r1 Hr1 Hn.
    rewrite lookup_insert_eq in Hr1. injection Hr1 as <-.
    apply Hn. unfold parked, r0. cbn. by rewrite Ho, Ht, Hp. }
  split; [done|]. unfold register_relay. rewrite Hc. fold tag. rewrite Hgone.
  assert (Hsub : relays d2 ⊆ <[tag := r0]> (relays d)) by apply map_filter_subseteq.
  destruct (Nat.leb_spec MAX_ROWS_PER_KEY (count_relays (of_key key) d2)) as [H|H].
  { assert (count_relays (of_key key) d2 <= count_relays (of_key key) (set_relays (insert tag r0) d))%nat by by apply count_sub.
    rewrite (count_replace _ _ r) in * by done. lia. }
  destruct (Nat.leb_spec MAX_TOTAL_ROWS (size (relays d2))) as [H'|H']; [|done].
  apply map_subseteq_size in Hsub. rewrite map_size_insert_Some in Hsub by eauto. lia.
Qed.

(** The instants follow one another within a day. *)
Fixpoint within_a_day (t0 : Z) (l : list Z) : Prop :=
  match l with [] => True | x :: l => t0 <= x < t0 + seconds 86400 /\ within_a_day x l end.

Lemma bumps_add_up tag now t0 n l t :
  served t !! tag = Some (n, t0 + seconds 86400) -> within_a_day t0 (l ++ [now]) ->
  served_recent true now tag (foldl (fun t x => bump_served x tag t) t l) = n + Z.of_nat (length l).
Proof.
  revert t0 n t. induction l as [|y l IH]; intros t0 n t Ht [Hy Hw].
  - cbn. rewrite Ht. destruct (Z.leb_spec (t0 + seconds 86400) now); lia.
  - cbn [foldl]. rewrite (IH y (n + 1)); [cbn [length]; lia| |done].
    unfold bump_served. cbn [served]. rewrite lookup_insert_eq, Ht. destruct (Z.leb_spec (t0 + seconds 86400) y); [lia|done].
Qed.

(** the count of hand-outs of the last day is one of all time for a relay
    that is handed out at least once a day: each hand-out renews the expiry of
    the whole count. *)
Theorem handed_out_never_resets tag t0 l now :
  within_a_day t0 (l ++ [now]) ->
  served_recent true now tag (foldl (fun t x => bump_served x tag t) no_telemetry (t0 :: l)) = Z.of_nat (length (t0 :: l)).
Proof.
  intros H. cbn [foldl]. rewrite (bumps_add_up tag now t0 1); [cbn [length]; lia| |done].
  unfold bump_served. cbn. by rewrite lookup_insert_eq.
Qed.

(** the queue of paid teams that wait for nodes looks only at the contact of
    an open enquiry: whoever leaves the customer's contact on the public form
    first keeps the island from filing its own, and the count of pools that
    need nodes stays what it was. *)
Theorem forged_inquiry_hides_team now now' country f d id tn pool :
  inquiry_valid f = true -> strip (ri_contact f) = inquiry_contact id tn -> or_else (String.substring 0 32 (strip (ri_tier f))) "team" <> TEAM_PAID_TIER ->
  pool <> SHARED_POOL -> (forall tag r, relays d !! tag = Some r -> br_pool r <> Some pool) ->
  let forged := (relay_inquiry now country f d).2 in
  apply_pool now' id tn (Some pool) forged = (false, tn, forged) /\ pools_needing_nodes forged = pools_needing_nodes d.
Proof.
  intros Hv Hc Ht Hp Hn. cbn zeta. unfold relay_inquiry. rewrite Hv, Hc. cbn [negb].
  assert (Hlen : (String.length (inquiry_contact id tn) <? 3)%nat = false) by done. rewrite Hlen. cbn [snd]. split.
  - unfold apply_pool. rewrite (bool_decide_false (Some pool = Some SHARED_POOL)) by congruence. cbn [bool_decide orb negb].
    rewrite bool_decide_false by done. cbn [orb].
    assert (He : existsb (fun kr : string * BrokerRelay => bool_decide (br_pool kr.2 = Some pool) && br_enabled kr.2) (map_to_list (relays d)) = false).
    { apply not_true_is_false. intros ([k r] & Hin & Hb)%List.existsb_exists. apply list_elem_of_In, elem_of_map_to_list in Hin.
      apply andb_true_iff in Hb as [Hb _]. apply bool_decide_eq_true in Hb. by eapply Hn. }
    set (forged := add_inquiry _ _ _ _ _ _ _). change (relays forged) with (relays d). rewrite He. cbn [negb].
    assert (Hopen : existsb (open_for (inquiry_contact id tn)) (inquiries forged) = true).
    { unfold forged, add_inquiry. cbn [inquiries]. rewrite existsb_app. apply orb_true_iff. right. cbn [existsb].
      unfold open_for. cbn [iq_status iq_contact]. by rewrite !String.eqb_refl. }
    by rewrite Hopen.
  - unfold pools_needing_nodes, add_inquiry. cbn [inquiries]. rewrite List.filter_app, length_app. cbn [List.filter iq_status iq_tier].
    rewrite String.eqb_refl, (proj2 (String.eqb_neq _ _) Ht). cbn. lia.
Qed.

(** closing an enquiry removes nothing: the row stays with the contact the
    person left, until the yearly sweep. *)
Theorem dismissed_inquiry_stays id status_ note d q d' :
  update_relay_inquiry id status_ note d = (Ok q, d') ->
  length (inquiries d') = length (inquiries d) /\ q ∈ inquiries d' /\ exists q0, q0 ∈ inquiries d /\ iq_id q0 = id /\ iq_contact q = iq_contact q0.
Proof.
  unfold update_relay_inquiry. destruct (find_first _ _) as [q0|] eqn:E; [|discriminate].
  destruct (match status_ with Some _ => _ | None => _ end); [discriminate|]. intros [= <- <-].
  apply find_first_Some in E as [Hin Hid]. apply Z.eqb_eq in Hid. cbn. split_and!.
  - apply List.length_map.
  - apply list_elem_of_fmap. exists q0. by rewrite (proj2 (Z.eqb_eq _ _) Hid).
  - by exists q0.
Qed.
End facts.
